(* ===== verification/_CoqProject ===== *)
-Q . S2P
Prelude.v
Alloc.v
StateM.v
Bitmap.v
Bytes.v
RingBuffer.v
KMalloc.v
SlotTable.v
Relist.v
KList.v
KString.v
Print.v
Sb.v
Sv.v
Hashmap.v
Mmu.v
Net.v
Udp.v
Tcp.v
TcpSock.v
TcpStream.v
Ext2Cache.v
Ext2.v
Ext2Inode.v
Ext2File.v
Ext2Alloc.v
Ext2Dir.v
Ext2Names.v
Ext2Entries.v
Ext2Bytes.v
CryptoSpec.v
Crypto.v
Random.v
Sha1.v
Pipe.v
VfsPath.v
Process.v
Poll.v
Vfs.v
Sched.v
Descriptors.v
Scheduling.v
Qsort.v
Clock.v
Sh.v
ShScript.v
Exec.v
UMalloc.v
Queue.v
Shm.v
UnixSock.v
Syscall.v
ULibc.v
Stdio.v
Json.v
Httpd.v
Input.v
