(* ===== verification/Prelude.v ===== *)
(** A verification library for sbOS: its kernel, and parts of its user land.

    sbOS is a small Unix like operating system for the i386.  The kernel
    (src/kernel) has a heap, page tables, a scheduler with fork, exec and signals,
    a virtual file system with an ext2 implementation, pipes, shared memory, device
    files, unix sockets, an event queue, and a network stack from Ethernet to TCP.
    The user land (src/userland) has a C library, a shell and some programs.
    This library translates the C functions into Rocq functions, one definition per
    function with the helper definitions its loops need, and proves what the
    functions are for.

    * How C is modelled

    - A w-bit integer is a [Z]; wrap-around is written out ([u8], [u16], [u32],
      [u64], [i32], [i64] below).  Bytes are [Z] in 0..255, buffers are lists.
    - Every function that can go wrong returns an [outcome] (below): [Ok v],
      [Fault] for an access outside an object or another undefined operation,
      [Panic] for a failed assertion, [NoFuel] when the fuel of a loop is used up.
      A theorem that a function returns [Ok] therefore excludes all three.
    - Loops are structural where they count down or walk a list.  The others take
      fuel; the function passes an amount computed from its arguments (a length, a
      capacity, the number of blocks of a file), and the theorems show that this is
      enough.  A loop that waits for another process or for a device takes what
      happens meanwhile as an argument.
    - A component with global variables has one record of them and its functions are
      computations of the monad of [StateM].
    - A pointer to an object is a number that names it where sharing matters (open
      files, processes, connections, sockets, headers of the heap), and the object or
      a suffix of its bytes where it does not.
    - What one component needs of another is a class with laws: the allocator
      ([Alloc]), the growing table of slots ([SlotTable]), inodes, descriptor tables
      and address spaces ([Process]), [ksbrk] and [sbrk] ([KMalloc]), user memory
      ([Exec]), regions of kernel memory ([Shm]).  Clients are proved for every
      implementation; [KMalloc] and [Relist] discharge theirs, and the witnesses use
      concrete instances.

    * Files, sources and what is proved

    Shared: this file (integers, outcomes, tactics, lists), [Alloc], [StateM],
    [Bitmap], [Bytes].

    Memory.  [KMalloc] is kmalloc.c, [UMalloc] is userland/libc/malloc/malloc.c: any
    sequence of allocations, frees and stores refines an allocator of disjoint
    objects.  [Mmu] is arch/i386/mmu.c: frames are handed out once and returned by
    unmapping.  [Shm] is fs/shm.c.

    Containers of kernel/lib.  [RingBuffer], [Relist], [KList], [Sb], [Sv] and
    [Hashmap]: each operation acts on an abstract queue, partial map, list or text as
    its name says, within the bounds of its buffer.

    Text.  [KString] (kernel/libc/string), [Print] (stdio/print.c and parsenum.c).

    Network.  [Net] is bytes.c, ethernet.c, arp.c, ipv4.c and sending on the rtl8139;
    [Udp] is udp.c: a datagram arrives whole.  [Tcp] is tcp.c, [TcpSock] the TCP part
    of socket.c, [TcpStream] the sending side: whatever segments arrive a program
    reads a prefix of the stream of its peer, whatever a program writes leaves in
    order, and connections follow the TCP state machine.

    File system.  [Ext2Cache], [Ext2], [Ext2Inode], [Ext2File], [Ext2Alloc],
    [Ext2Dir], [Ext2Names] and [Ext2Entries] are fs/ext2.c: the write back cache is
    transparent, reading and writing files, allocating blocks, directories and path
    lookup do what an ext2 image means.  In [Ext2Bytes] any sequence of reads and
    writes of a file is compared with a list of bytes.  [VfsPath] and [Vfs] are fs/vfs.c, [Pipe] is
    fs/fifo.c and fs/tmpfs.c.

    Processes.  [Process] (the data), [Poll] (poll.c), [Sched] (sched/scheduler.c),
    [Descriptors] (sharing and counting of open files), [Scheduling] (the ready
    queue, fork, kill), [Exec] (elf.c and the stack of a new program), [Queue]
    (queue.c), [UnixSock] (fs/devfs.c and unix sockets of socket.c).  [Syscall] is
    cpu/syscall.c with the checks of user strings of mmu.c: what a check accepts lies
    in pages of the user, sendfile copies in order, sbrk hands out disjoint regions.

    Cryptography and time.  [CryptoSpec] transcribes FIPS 180-4 and RFC 8439 without
    looking at the code; [Crypto] (ChaCha20, xoshiro256++), [Random] (random.c) and
    [Sha1] (userland/libc/tb/sha1.c) are proved to compute them.  [Clock] (cmos.c,
    timer.c): the registers hold the Gregorian date.

    Input.  [Input] is drivers/keyboard.c and drivers/mouse.c: the keyboard is a queue
    of decoded keys, a reader of the mouse misses no button and knows the position.

    User land.  [Qsort], [Sh] and [ShScript] (the shell): a written script is parsed
    back and its lists run as the shell language says.  [ULibc] (ctype, string,
    stdlib, getopt, environment, paths), [Stdio] (streams over descriptors and memory:
    reading through the buffer is reading the file, writes keep their order), [Json]
    (a written document is parsed back), [Httpd] (userland/httpd/httpd.c: a request
    that arrives in any pieces is answered with the header and the bytes of the file,
    however often the socket has no room).

    * Bounds and fuel

    Fuel is never a bound on what is modelled: where a function needs fuel, the model
    computes it from the arguments (the length of the text for [lex], the parsers and
    the string functions, the number of headers for the allocators, the number of
    blocks or directory bytes for ext2, the number of processes for the scheduler),
    and the theorems that the function returns have no hypothesis about fuel.  The
    bounds that do appear as hypotheses are those of the machine: sizes below 2^31 or
    2^32, descriptors and counters that do not wrap around.

    * Not modelled

    - Hardware: ahci.c, ata.c, ac97.c, pci.c, vbe.c, pit.c, the receiving part of
      rtl8139.c, interrupt and descriptor tables, assembly, the switch of the stack.
      A disk is an array of bytes, a network card the list of frames it sent.
    - The rest of mmu.c: building the first page directory and cloning one.
    - procfs, audio, fonts, the kernel log, kubsan: output only.
    - System calls that only pass their arguments on, and sendto and getpeername.
    - Window server and GUI library, the programs sftp, irc, tunneld, minibox, and
      main of httpd.
    - In the C library: sscanf, getaddrinfo, strtod, realpath, fopen, the wrappers.
    - Abstractions: interrupts and other processes are arguments of the functions
      they interrupt; the loopback interface is a queue; objects of processes and
      contexts are allocated without failure; SHA-1 of the kernel is a parameter of
      the random number generator; the hash map of the JSON library is an interface.
*)

From stdpp Require Import base numbers list gmap.
From Stdlib Require Import ZArith Lia.

Open Scope Z_scope.

(** ** Machine integers

    The kernel is compiled for i386: [int], [long], [size_t] and pointers are
    32 bits wide, [long long] is 64 bits wide.  A w-bit unsigned value is a
    [Z] in [0, 2^w); every arithmetic operation of the sources that can leave
    the range is written with its wrap-around. *)

Definition wrap (w x : Z) : Z := x mod 2 ^ w.

Definition u8 (x : Z) : Z := wrap 8 x.
Definition u16 (x : Z) : Z := wrap 16 x.
Definition u32 (x : Z) : Z := wrap 32 x.
Definition u64 (x : Z) : Z := wrap 64 x.

Definition sext (w x : Z) : Z :=
  let y := wrap w x in if y <? 2 ^ (w - 1) then y else y - 2 ^ w.

(** The two's complement reading of a 32 bit value: conversion to [int]. *)
Definition i32 (x : Z) : Z := sext 32 x.
Definition i64 (x : Z) : Z := sext 64 x.

Definition fits (w x : Z) : Prop := 0 <= x < 2 ^ w.

(** The truth value of a C condition as the [int] it evaluates to. *)
Definition c_int (b : bool) : Z := if b then 1 else 0.

(** A flag test [flags & bit] used as a truth value. *)
Definition is_set (flags bit : Z) : bool := negb (Z.land flags bit =? 0).

(** ** Outcomes

    A C function either returns, fails an [assert] (the kernel panics), makes
    a memory access outside the object it addresses, or has not finished
    within the fuel given to a loop. *)

Inductive outcome (A : Type) : Type :=
| Ok (a : A)
| Panic
| Fault
| NoFuel.

Arguments Ok {A} _.
Arguments Panic {A}.
Arguments Fault {A}.
Arguments NoFuel {A}.

#[export] Instance outcome_ret : MRet outcome := fun A a => Ok a.
#[export] Instance outcome_bind : MBind outcome := fun A B f m =>
  match m with
  | Ok a => f a
  | Panic => Panic
  | Fault => Fault
  | NoFuel => NoFuel
  end.

Lemma outcome_bind_ext {A B} (m : outcome A) (f g : A -> outcome B) :
  (forall a, f a = g a) -> m ≫= f = m ≫= g.
Proof. intros E. by destruct m; cbn; rewrite ?E. Qed.

(** [assert(b)] of the kernel. *)
Definition c_assert (b : bool) : outcome unit := if b then Ok tt else Panic.

(** An access through a pointer that designates nothing at all. *)
Definition deref {A} (o : option A) : outcome A :=
  match o with Some a => Ok a | None => Fault end.

(** A computation that never runs out of fuel, whatever else happens. *)
Definition fuelled {A} (m : outcome A) : Prop := m <> NoFuel.

(** ** Arrays addressed by machine integers *)

Section Arrays.
Context {A : Type}.

Definition zlen (l : list A) : Z := Z.of_nat (length l).

Definition znth (l : list A) (i : Z) : option A :=
  if (0 <=? i) then l !! Z.to_nat i else None.

Definition ztake (n : Z) (l : list A) : list A := take (Z.to_nat n) l.
Definition zdrop (n : Z) (l : list A) : list A := drop (Z.to_nat n) l.

(** The [n] elements that start at index [off]. *)
Definition slice (off n : Z) (l : list A) : list A := ztake n (zdrop off l).

(** [l] with the elements at [off, off + length d) replaced by [d]. *)
Definition splice (l : list A) (off : Z) (d : list A) : list A :=
  ztake off l ++ d ++ zdrop (off + zlen d) l.

(** Reading and writing one element; outside the array is a fault. *)
Definition aread (l : list A) (i : Z) : outcome A := deref (znth l i).

Definition awrite (l : list A) (i : Z) (v : A) : outcome (list A) :=
  if (0 <=? i) && (i <? zlen l) then Ok (<[Z.to_nat i := v]> l) else Fault.

(** [memcpy(dst + off, src + soff, n)] between two objects. *)
Definition memcpy_at (dst : list A) (off : Z) (src : list A) (soff n : Z)
  : outcome (list A) :=
  if (0 <=? n) && (0 <=? off) && (off + n <=? zlen dst)
     && (0 <=? soff) && (soff + n <=? zlen src)
  then Ok (splice dst off (slice soff n src))
  else Fault.
End Arrays.

(** ** Automation *)

Create HintDb sbos discriminated.
Create Rewrite HintDb sbos.

(** Turns the boolean tests of the model into propositions. *)
Ltac breflect :=
  repeat match goal with
  | H : (_ && _)%bool = true |- _ => apply andb_true_iff in H; destruct H
  | H : (_ || _)%bool = false |- _ => apply orb_false_iff in H; destruct H
  | H : negb _ = true |- _ => apply negb_true_iff in H
  | H : negb _ = false |- _ => apply negb_false_iff in H
  | H : (_ <=? _) = true |- _ => apply Z.leb_le in H
  | H : (_ <=? _) = false |- _ => apply Z.leb_gt in H
  | H : (_ <? _) = true |- _ => apply Z.ltb_lt in H
  | H : (_ <? _) = false |- _ => apply Z.ltb_ge in H
  | H : (_ =? _) = true |- _ => apply Z.eqb_eq in H
  | H : (_ =? _) = false |- _ => apply Z.eqb_neq in H
  end.

(** Case analysis on the first conditional or match scrutinee of the goal. *)
Ltac case_goal :=
  match goal with
  | |- context [if ?b then _ else _] => let E := fresh "E" in destruct b eqn:E
  | |- context [match ?o with _ => _ end] => let E := fresh "E" in destruct o eqn:E
  end.

Ltac case_hyp H :=
  match type of H with
  | context [if ?b then _ else _] => let E := fresh "E" in destruct b eqn:E
  | context [match ?o with _ => _ end] => let E := fresh "E" in destruct o eqn:E
  end.

(** Arithmetic over the list lengths of the goal and of the context. *)
Ltac list_len :=
  unfold zlen, slice, ztake, zdrop in *;
  repeat (rewrite ?length_app, ?length_take, ?length_drop, ?length_insert,
            ?length_replicate, ?length_fmap in *; cbn [length] in *).

Ltac zlia := list_len; lia.

(** Equality of results whose components differ by arithmetic. *)
Ltac tuple_lia := repeat first [reflexivity | lia | progress f_equal].

(** ** Lemmas on outcomes *)

Lemma fuelled_Ok {A} (a : A) : fuelled (Ok a).
Proof. done. Qed.
Lemma fuelled_Panic {A} : fuelled (@Panic A).
Proof. done. Qed.
Lemma fuelled_Fault {A} : fuelled (@Fault A).
Proof. done. Qed.
Lemma fuelled_assert b : fuelled (c_assert b).
Proof. by destruct b. Qed.
Lemma fuelled_deref {A} (o : option A) : fuelled (deref o).
Proof. by destruct o. Qed.
Lemma fuelled_bind {A B} (m : outcome A) (k : A -> outcome B) :
  fuelled m -> (forall a, fuelled (k a)) -> fuelled (m ≫= k).
Proof. intros Hm Hk. destruct m; try done. apply Hk. Qed.
Lemma fuelled_awrite {A} (l : list A) i v : fuelled (awrite l i v).
Proof. unfold awrite. by case_goal. Qed.
Lemma fuelled_aread {A} (l : list A) i : fuelled (aread l i).
Proof. apply fuelled_deref. Qed.
Lemma fuelled_memcpy_at {A} (d : list A) o s so n : fuelled (memcpy_at d o s so n).
Proof. unfold memcpy_at. by case_goal. Qed.

#[export] Hint Resolve fuelled_Ok fuelled_Panic fuelled_Fault fuelled_assert fuelled_deref
  fuelled_aread fuelled_awrite fuelled_memcpy_at : sbos.

(** Reads off from the structure of a definition that it needs no fuel. *)
Ltac fuelled :=
  repeat first
    [ progress intros
    | solve [auto with sbos]
    | apply fuelled_bind
    | match goal with
      | |- fuelled (if ?b then _ else _) => destruct b
      | |- fuelled (match ?o with _ => _ end) => destruct o
      end ].

(** ** Lemmas on machine integers *)

Lemma wrap_fits w x : 0 <= w -> fits w (wrap w x).
Proof. intros Hw. apply Z.mod_pos_bound. lia. Qed.

Lemma wrap_small w x : fits w x -> wrap w x = x.
Proof. apply Z.mod_small. Qed.

Lemma wrap_wrap w x : wrap w (wrap w x) = wrap w x.
Proof. apply Zmod_mod. Qed.

Lemma u32_small x : 0 <= x < 2 ^ 32 -> u32 x = x.
Proof. apply wrap_small. Qed.

Lemma u32_fits x : 0 <= u32 x < 2 ^ 32.
Proof. apply wrap_fits; lia. Qed.

Lemma u64_small x : 0 <= x < 2 ^ 64 -> u64 x = x.
Proof. apply wrap_small. Qed.

Lemma u16_small x : 0 <= x < 2 ^ 16 -> u16 x = x.
Proof. apply wrap_small. Qed.

Lemma u8_small x : 0 <= x < 2 ^ 8 -> u8 x = x.
Proof. apply wrap_small. Qed.

Lemma i32_small x : - 2 ^ 31 <= x < 2 ^ 31 -> i32 x = x.
Proof.
  intros Hx. unfold i32, sext, wrap.
  destruct (Z.lt_ge_cases x 0).
  - replace (x mod 2 ^ 32) with (x + 2 ^ 32).
    + destruct (Z.ltb_spec (x + 2 ^ 32) (2 ^ (32 - 1))); lia.
    + symmetry. rewrite <- (Z.mod_add x 1 (2 ^ 32)) by lia. apply Z.mod_small. lia.
  - rewrite Z.mod_small by lia. destruct (Z.ltb_spec x (2 ^ (32 - 1))); lia.
Qed.

#[export] Hint Rewrite u32_small u64_small u16_small u8_small using lia : sbos.
#[export] Hint Resolve wrap_fits u32_fits : sbos.

(** *** Single bits *)

Lemma land_pow2 x k : 0 <= k -> Z.land x (2 ^ k) = if Z.testbit x k then 2 ^ k else 0.
Proof.
  intros Hk. apply Z.bits_inj'. intros n Hn.
  rewrite Z.land_spec, Z.pow2_bits_eqb by lia.
  destruct (Z.eqb_spec k n) as [->|Hne].
  - destruct (Z.testbit x n); rewrite ?Z.bits_0, ?andb_true_r; [|done].
    by rewrite Z.pow2_bits_true by lia.
  - rewrite andb_false_r. destruct (Z.testbit x k); rewrite ?Z.bits_0; [|done].
    by rewrite Z.pow2_bits_false by lia.
Qed.

Lemma is_set_bit x k : 0 <= k -> is_set x (2 ^ k) = Z.testbit x k.
Proof.
  intros Hk. unfold is_set. rewrite land_pow2 by done.
  destruct (Z.testbit x k); [|done].
  apply negb_true_iff, Z.eqb_neq. pose proof (Z.pow_pos_nonneg 2 k). lia.
Qed.

Lemma testbit_set_bit w k n :
  0 <= k -> Z.testbit (Z.lor w (2 ^ k)) n = Z.testbit w n || (n =? k).
Proof.
  intros Hk. rewrite Z.lor_spec, Z.pow2_bits_eqb by done. by rewrite Z.eqb_sym.
Qed.

Lemma testbit_clear_bit w k n :
  0 <= k -> Z.testbit (Z.ldiff w (2 ^ k)) n = Z.testbit w n && negb (n =? k).
Proof.
  intros Hk. rewrite Z.ldiff_spec, Z.pow2_bits_eqb by done. by rewrite Z.eqb_sym.
Qed.

Lemma fits_bits w x : 0 <= w -> 0 <= x -> (forall n, w <= n -> Z.testbit x n = false) -> fits w x.
Proof.
  intros Hw Hx Hb. split; [done|]. destruct (Z.eq_dec x 0) as [->|Hne]; [lia|].
  apply Z.log2_lt_pow2; [lia|]. destruct (Z.lt_ge_cases (Z.log2 x) w) as [?|Hge]; [done|].
  specialize (Hb _ Hge). rewrite Z.bit_log2 in Hb by lia. done.
Qed.

Lemma testbit_fits w x n : fits w x -> w <= n -> Z.testbit x n = false.
Proof.
  intros [H0 H1] Hn. destruct (Z.eq_dec x 0) as [->|Hne]; [apply Z.bits_0|].
  apply Z.bits_above_log2; [lia|]. apply Z.log2_lt_pow2 in H1; lia.
Qed.

Lemma fits_set_bit w x k : 0 <= k < w -> fits w x -> fits w (Z.lor x (2 ^ k)).
Proof.
  intros Hk Hx. pose proof Hx as [? _]. apply fits_bits; [lia|apply Z.lor_nonneg; lia|].
  intros n Hn. rewrite testbit_set_bit, (testbit_fits w) by (done || lia).
  destruct (Z.eqb_spec n k); [lia|done].
Qed.

Lemma fits_clear_bit w x k : 0 <= k < w -> fits w x -> fits w (Z.ldiff x (2 ^ k)).
Proof.
  intros Hk Hx. pose proof Hx as [? _]. apply fits_bits; [lia|apply Z.ldiff_nonneg; lia|].
  intros n Hn. by rewrite testbit_clear_bit, (testbit_fits w) by (done || lia).
Qed.

(** ** Lemmas on arrays *)

Section ArrayLemmas.
Context {A : Type}.
Implicit Types l d : list A.

Lemma zlen_nonneg l : 0 <= zlen l.
Proof. zlia. Qed.

Lemma zlen_nil : zlen (@nil A) = 0.
Proof. reflexivity. Qed.

Lemma zlen_app l1 l2 : zlen (l1 ++ l2) = zlen l1 + zlen l2.
Proof. zlia. Qed.

Lemma zlen_ztake n l : 0 <= n <= zlen l -> zlen (ztake n l) = n.
Proof. intros. zlia. Qed.

Lemma zlen_zdrop n l : 0 <= n <= zlen l -> zlen (zdrop n l) = zlen l - n.
Proof. intros. zlia. Qed.

Lemma zlen_slice off n l :
  0 <= off -> 0 <= n -> off + n <= zlen l -> zlen (slice off n l) = n.
Proof. intros. zlia. Qed.

Lemma zlen_splice l off d :
  0 <= off -> off + zlen d <= zlen l -> zlen (splice l off d) = zlen l.
Proof. intros. unfold splice. zlia. Qed.

Lemma ztake_zdrop n l : ztake n l ++ zdrop n l = l.
Proof. apply take_drop. Qed.

Lemma znth_Some l i : 0 <= i < zlen l -> exists x, znth l i = Some x.
Proof.
  intros Hi. unfold znth. destruct (Z.leb_spec 0 i); [|lia].
  apply lookup_lt_is_Some_2. zlia.
Qed.

Lemma znth_app_l l1 l2 i : i < zlen l1 -> znth (l1 ++ l2) i = znth l1 i.
Proof.
  intros. unfold znth. destruct (Z.leb_spec 0 i); [|done].
  apply lookup_app_l. zlia.
Qed.

Lemma znth_app_r l1 l2 i :
  zlen l1 <= i -> znth (l1 ++ l2) i = znth l2 (i - zlen l1).
Proof.
  intros. unfold znth, zlen in *.
  destruct (Z.leb_spec 0 i), (Z.leb_spec 0 (i - Z.of_nat (length l1))); try lia.
  rewrite lookup_app_r by lia. f_equal. lia.
Qed.

Lemma znth_None l i : i < 0 \/ zlen l <= i -> znth l i = None.
Proof.
  intros. unfold znth. destruct (Z.leb_spec 0 i); [|done].
  apply lookup_ge_None_2. zlia.
Qed.

Lemma znth_Some_inv l i x : znth l i = Some x -> 0 <= i < zlen l.
Proof.
  unfold znth. destruct (Z.leb_spec 0 i); [|done].
  intros ?%lookup_lt_Some. zlia.
Qed.

(** Extensionality of arrays through [znth]. *)
Lemma znth_ext l1 l2 :
  zlen l1 = zlen l2 -> (forall i, 0 <= i < zlen l1 -> znth l1 i = znth l2 i) ->
  l1 = l2.
Proof.
  intros Hlen H. apply list_eq. intros i.
  destruct (decide (i < length l1)%nat) as [Hi|Hi].
  - specialize (H (Z.of_nat i) ltac:(zlia)). unfold znth in H.
    destruct (Z.leb_spec 0 (Z.of_nat i)); [|lia]. by rewrite !Nat2Z.id in H.
  - rewrite !lookup_ge_None_2 by zlia. done.
Qed.

Lemma znth_ztake n l i : i < n -> znth (ztake n l) i = znth l i.
Proof.
  intros. unfold znth, ztake. destruct (Z.leb_spec 0 i); [|done].
  apply lookup_take_lt. lia.
Qed.

Lemma znth_zdrop n l i :
  0 <= n -> 0 <= i -> znth (zdrop n l) i = znth l (n + i).
Proof.
  intros. unfold znth, zdrop.
  destruct (Z.leb_spec 0 i), (Z.leb_spec 0 (n + i)); try lia.
  rewrite lookup_drop. f_equal. lia.
Qed.

Lemma znth_slice off n l i :
  0 <= off -> 0 <= i < n -> znth (slice off n l) i = znth l (off + i).
Proof.
  intros. unfold slice. rewrite znth_ztake by lia. apply znth_zdrop; lia.
Qed.

(** Reading a spliced array: inside and outside the replaced window. *)
Lemma znth_splice l off d i :
  0 <= off -> off + zlen d <= zlen l -> 0 <= i < zlen l ->
  znth (splice l off d) i =
    if (off <=? i) && (i <? off + zlen d) then znth d (i - off) else znth l i.
Proof.
  intros Hoff Hlen Hi. unfold splice.
  pose proof (zlen_nonneg d).
  pose proof (zlen_ztake off l ltac:(lia)) as Ht.
  destruct (Z.leb_spec off i), (Z.ltb_spec i (off + zlen d)); cbn [andb].
  - rewrite znth_app_r by lia. rewrite znth_app_l by lia. f_equal. lia.
  - rewrite !znth_app_r by lia. rewrite znth_zdrop by lia. f_equal. lia.
  - rewrite znth_app_l by lia. apply znth_ztake. lia.
  - lia.
Qed.

Lemma slice_splice_same l off d :
  0 <= off -> off + zlen d <= zlen l -> slice off (zlen d) (splice l off d) = d.
Proof.
  intros. pose proof (zlen_nonneg d).
  assert (Hl : zlen (slice off (zlen d) (splice l off d)) = zlen d).
  { apply zlen_slice; [lia..|]. rewrite zlen_splice; lia. }
  apply znth_ext; [done|]. intros i Hi. rewrite Hl in Hi.
  rewrite znth_slice by lia. rewrite znth_splice by lia.
  destruct (Z.leb_spec off (off + i)), (Z.ltb_spec (off + i) (off + zlen d));
    cbn [andb]; try lia.
  f_equal. lia.
Qed.

Lemma slice_splice_disjoint l off d o n :
  0 <= off -> off + zlen d <= zlen l -> 0 <= o -> 0 <= n -> o + n <= zlen l ->
  o + n <= off \/ off + zlen d <= o ->
  slice o n (splice l off d) = slice o n l.
Proof.
  intros. pose proof (zlen_nonneg d).
  apply znth_ext.
  { rewrite !zlen_slice; rewrite ?zlen_splice; lia. }
  intros i Hi. rewrite zlen_slice in Hi by (rewrite ?zlen_splice; lia).
  rewrite !znth_slice by lia. rewrite znth_splice by lia.
  destruct (Z.leb_spec off (o + i)), (Z.ltb_spec (o + i) (off + zlen d));
    cbn [andb]; (done || lia).
Qed.

Lemma splice_nil l off : 0 <= off -> splice l off [] = l.
Proof.
  intros. unfold splice. rewrite zlen_nil, Z.add_0_r. apply ztake_zdrop.
Qed.

Lemma slice_all l : slice 0 (zlen l) l = l.
Proof.
  unfold slice, zdrop, ztake, zlen. rewrite drop_0, Nat2Z.id. apply firstn_all.
Qed.

Lemma ztake_all n l : n = zlen l -> ztake n l = l.
Proof. intros ->. unfold ztake, zlen. rewrite Nat2Z.id. apply firstn_all. Qed.

Lemma ztake_snoc l i v :
  0 <= i -> znth l i = Some v -> ztake i l ++ [v] = ztake (i + 1) l.
Proof.
  intros Hi Hv. unfold znth in Hv. destruct (Z.leb_spec 0 i); [|lia]. unfold ztake.
  replace (Z.to_nat (i + 1)) with (S (Z.to_nat i)) by lia. symmetry. by apply take_S_r.
Qed.

Lemma slice_0 (off : Z) l : slice off 0 l = [] :> list A.
Proof. reflexivity. Qed.

Lemma slice_from_0 n l : slice 0 n l = ztake n l.
Proof. reflexivity. Qed.

Lemma zdrop_zdrop a b l : 0 <= a -> 0 <= b -> zdrop a (zdrop b l) = zdrop (b + a) l.
Proof. intros. unfold zdrop. rewrite drop_drop. f_equal. lia. Qed.

Lemma slice_app off n m l :
  0 <= off -> 0 <= n -> 0 <= m ->
  slice off n l ++ slice (off + n) m l = slice off (n + m) l.
Proof.
  intros. unfold slice, ztake, zdrop.
  replace (Z.to_nat (off + n)) with (Z.to_nat off + Z.to_nat n)%nat by lia.
  replace (Z.to_nat (n + m)) with (Z.to_nat n + Z.to_nat m)%nat by lia.
  rewrite <- drop_drop. rewrite take_take_drop. done.
Qed.

Lemma memcpy_at_ok (dst : list A) off (src : list A) soff n :
  0 <= n -> 0 <= off -> off + n <= zlen dst -> 0 <= soff -> soff + n <= zlen src ->
  memcpy_at dst off src soff n = Ok (splice dst off (slice soff n src)).
Proof.
  intros. unfold memcpy_at. repeat (rewrite (proj2 (Z.leb_le _ _)) by lia). done.
Qed.

Lemma aread_ok l i x : znth l i = Some x -> aread l i = Ok x.
Proof. unfold aread. by intros ->. Qed.

Lemma awrite_ok l i v : 0 <= i < zlen l -> awrite l i v = Ok (<[Z.to_nat i := v]> l).
Proof.
  intros. unfold awrite.
  rewrite (proj2 (Z.leb_le _ _)), (proj2 (Z.ltb_lt _ _)) by lia. done.
Qed.

Lemma znth_insert l i v j :
  0 <= i < zlen l -> 0 <= j ->
  znth (<[Z.to_nat i := v]> l) j = if j =? i then Some v else znth l j.
Proof.
  intros Hi Hj. unfold znth. rewrite (proj2 (Z.leb_le _ _)) by lia.
  destruct (Z.eqb_spec j i) as [->|Hne].
  - apply list_lookup_insert_eq. zlia.
  - apply list_lookup_insert_ne. lia.
Qed.

Lemma zlen_insert (l : list A) i v : zlen (<[i := v]> l) = zlen l.
Proof. zlia. Qed.
End ArrayLemmas.

#[export] Hint Rewrite @zlen_app @zlen_nil @zlen_insert : sbos.
