(* ===== verification/Alloc.v ===== *)
(** The kernel allocator as its clients see it: the operations of
    [kernel/kmalloc.h] as a type class over an abstract heap state, and the
    typed views (byte buffers and arrays of words or pointers) the library
    components build on it.  The implementation is in [KMalloc]. *)

From stdpp Require Import base numbers list gmap.
From Stdlib Require Import ZArith Lia.
From S2P Require Import Prelude.

Open Scope Z_scope.

(** A heap object: its address and the elements stored in it. *)
Record block (A : Type) : Type := Block { blk_addr : Z; blk_data : list A }.
Arguments Block {A} _ _.
Arguments blk_addr {A} _.
Arguments blk_data {A} _.

(** [None] is the NULL pointer.  [kbytes h n] is what the allocator leaves in
    a fresh object of [n] bytes: [kmalloc] fills it with pseudo random data. *)
Class Allocator (H : Type) : Type := {
  kmalloc : Z -> H -> option Z * H;
  krealloc : option Z -> Z -> H -> option Z * H;
  kcalloc : Z -> Z -> H -> option Z * H;
  krecalloc : option Z -> Z -> Z -> H -> option Z * H;
  kallocarray : Z -> Z -> H -> option Z * H;
  kfree : option Z -> H -> H;
  kbytes : H -> Z -> list Z
}.

(** What every client relies on: a fresh object has the size asked for. *)
Class AllocatorBytes (H : Type) `{Allocator H} : Prop := {
  kbytes_len : forall h n, 0 <= n -> zlen (kbytes h n) = n
}.

Section Views.
Context {H : Type} `{Allocator H}.

Definition ptr_of {A} (b : option (block A)) : option Z := blk_addr <$> b.

(** The elements a possibly NULL pointer designates. *)
Definition data_of {A} (b : option (block A)) : list A :=
  match b with Some b => blk_data b | None => [] end.

Definition set_data {A} (b : option (block A)) (d : list A) : option (block A) :=
  match b with Some b => Some (Block (blk_addr b) d) | None => None end.

Definition alloc_bytes (n : Z) (h : H) : option (block Z) * H :=
  match kmalloc n h with
  | (Some p, h') => (Some (Block p (kbytes h' n)), h')
  | (None, h') => (None, h')
  end.

(** [krealloc] keeps the first [min l n] bytes. *)
Definition realloc_bytes (b : option (block Z)) (n : Z) (h : H)
  : option (block Z) * H :=
  match krealloc (ptr_of b) n h with
  | (Some p, h') =>
      (Some (Block p (ztake n (data_of b) ++ kbytes h' (n - zlen (data_of b)))), h')
  | (None, h') => (None, h')
  end.

(** Arrays of [n] elements that are [size] bytes wide each; [e] is the element
    the initial contents read as. *)
Definition calloc_array {A} (e : A) (size n : Z) (h : H) : option (block A) * H :=
  match kcalloc size n h with
  | (Some p, h') => (Some (Block p (replicate (Z.to_nat n) e)), h')
  | (None, h') => (None, h')
  end.

(** The 32 bit words a little endian machine reads from [l]. *)
Fixpoint le32_words (l : list Z) : list Z :=
  match l with
  | a :: b :: c :: d :: r => (a + 2 ^ 8 * b + 2 ^ 16 * c + 2 ^ 24 * d) :: le32_words r
  | _ => []
  end.

(** An array of pointers from [kallocarray]: its contents are not initialised. *)
Definition alloc_words (nmemb size : Z) (h : H) : option (block Z) * H :=
  match kallocarray nmemb size h with
  | (Some p, h') => (Some (Block p (le32_words (kbytes h' (nmemb * size)))), h')
  | (None, h') => (None, h')
  end.

(** [kmalloc(4 * n)] and [krealloc(b, 4 * n)] as arrays of [n] pointers. *)
Definition malloc_words (n : Z) (h : H) : option (block Z) * H :=
  match kmalloc (4 * n) h with
  | (Some p, h') => (Some (Block p (le32_words (kbytes h' (4 * n)))), h')
  | (None, h') => (None, h')
  end.

Definition realloc_words (b : option (block Z)) (n : Z) (h : H) : option (block Z) * H :=
  match krealloc (ptr_of b) (4 * n) h with
  | (Some p, h') =>
      (Some (Block p (ztake n (data_of b)
                      ++ le32_words (kbytes h' (4 * (n - zlen (data_of b)))))), h')
  | (None, h') => (None, h')
  end.

(** [krecalloc] keeps the old elements and zeroes the new ones; the array has
    [elsize * per] elements. *)
Definition recalloc_array {A} (e : A) (b : option (block A)) (nelem elsize per : Z) (h : H)
  : option (block A) * H :=
  match krecalloc (ptr_of b) nelem elsize h with
  | (Some p, h') =>
      let d := data_of b in
      (Some (Block p (ztake (elsize * per) d
                      ++ replicate (Z.to_nat (elsize * per) - length d) e)), h')
  | (None, h') => (None, h')
  end.
End Views.

Lemma data_of_set {A} (b : option (block A)) d :
  zlen d = zlen (data_of b) -> data_of (set_data b d) = d.
Proof. destruct b; [done|]. by destruct d. Qed.

Section ViewLemmas.
Context {H : Type} `{AllocatorBytes H}.

Lemma alloc_bytes_len n h b h' :
  0 <= n -> alloc_bytes n h = (Some b, h') -> zlen (blk_data b) = n.
Proof.
  intros Hn. unfold alloc_bytes. destruct (kmalloc n h) as [[p|] h1]; [|done].
  intros [= <- <-]. by apply kbytes_len.
Qed.

Lemma realloc_bytes_grow b n h b' h' :
  zlen (data_of b) <= n -> realloc_bytes b n h = (Some b', h') ->
  zlen (blk_data b') = n /\ ztake (zlen (data_of b)) (blk_data b') = data_of b.
Proof.
  intros Hn. unfold realloc_bytes.
  destruct (krealloc (ptr_of b) n h) as [[p|] h1]; [|done].
  intros [= <- <-]. cbn [blk_data].
  pose proof (kbytes_len h1 (n - zlen (data_of b)) ltac:(lia)) as Hk.
  unfold ztake. rewrite (take_ge _ (Z.to_nat n)) by zlia. split.
  - rewrite zlen_app, Hk. lia.
  - unfold zlen. rewrite Nat2Z.id. apply take_app_length.
Qed.

Lemma le32_words_length n l : zlen l = 4 * n -> zlen (le32_words l) = n.
Proof.
  revert l. destruct (Z.le_gt_cases 0 n) as [Hn|?]; [|zlia].
  revert n Hn. refine (natlike_ind _ _ _).
  - by intros [|? ?]; [|zlia].
  - intros n Hn IH l Hl. destruct l as [|a [|b [|c [|d l]]]]; try zlia.
    cbn [le32_words]. rewrite <- (IH l) by zlia. zlia.
Qed.

Lemma alloc_words_len nmemb size n h b h' :
  alloc_words nmemb size h = (Some b, h') -> nmemb * size = 4 * n -> 0 <= n ->
  zlen (blk_data b) = n.
Proof.
  unfold alloc_words. destruct (kallocarray nmemb size h) as [[p|] h1]; [|done].
  intros [= <- <-] Hs Hn. apply le32_words_length. rewrite Hs. apply kbytes_len. lia.
Qed.

Lemma malloc_words_len n h b h' :
  malloc_words n h = (Some b, h') -> 0 <= n -> zlen (blk_data b) = n.
Proof.
  unfold malloc_words. destruct (kmalloc (4 * n) h) as [[p|] h1]; [|done].
  intros [= <- <-] Hn. apply le32_words_length. apply kbytes_len. lia.
Qed.

Lemma realloc_words_grow b n h b' h' :
  realloc_words b n h = (Some b', h') -> zlen (data_of b) <= n ->
  zlen (blk_data b') = n /\ ztake (zlen (data_of b)) (blk_data b') = data_of b.
Proof.
  unfold realloc_words. destruct (krealloc (ptr_of b) (4 * n) h) as [[p|] h1]; [|done].
  intros [= <- <-] Hn. cbn [blk_data].
  assert (Hk : zlen (le32_words (kbytes h1 (4 * (n - zlen (data_of b))))) = n - zlen (data_of b)).
  { apply le32_words_length, kbytes_len. lia. }
  unfold ztake. rewrite (take_ge _ (Z.to_nat n)) by zlia. split.
  - rewrite zlen_app, Hk. lia.
  - unfold zlen. rewrite Nat2Z.id. apply take_app_length.
Qed.

Lemma recalloc_array_grow {A} (e : A) b nelem elsize per h b' h' :
  recalloc_array e b nelem elsize per h = (Some b', h') ->
  zlen (data_of b) <= elsize * per ->
  blk_data b' = data_of b ++ replicate (Z.to_nat (elsize * per - zlen (data_of b))) e.
Proof.
  unfold recalloc_array. destruct (krecalloc _ _ _ _) as [[p|] h1]; [|done].
  intros [= <- <-] Hl. cbn [blk_data]. unfold ztake.
  rewrite take_ge by zlia. do 2 f_equal. zlia.
Qed.
End ViewLemmas.

(** An allocator that never runs out, to instantiate the theorems with. *)
#[export] Instance endless_allocator : Allocator Z := {
  kmalloc n h := (Some h, h + n);
  krealloc _ n h := (Some h, h + n);
  kcalloc n m h := (Some h, h + n * m);
  krecalloc _ n m h := (Some h, h + n * m);
  kallocarray n m h := (Some h, h + n * m);
  kfree _ h := h;
  kbytes _ n := replicate (Z.to_nat n) 0
}.

#[export] Instance endless_allocator_bytes : AllocatorBytes Z.
Proof. split. intros h n Hn. cbn. zlia. Qed.
