(* ===== verification/StateM.v ===== *)
(** Stateful C code: computations that read and write a state [S] and end in an
    [outcome].  Shared by the components whose globals are one record. *)

From stdpp Require Import base numbers list.
From Stdlib Require Import ZArith Lia.
From S2P Require Import Prelude.

Open Scope Z_scope.

Definition SM (S A : Type) : Type := S -> outcome (A * S).

#[export] Instance SM_ret {S} : MRet (SM S) := fun A a st => Ok (a, st).
#[export] Instance SM_bind {S} : MBind (SM S) := fun A B k m st =>
  match m st with
  | Ok (a, st) => k a st
  | Panic => Panic
  | Fault => Fault
  | NoFuel => NoFuel
  end.

Section Operations.
Context {S : Type}.

Definition gets {A} (f : S -> A) : SM S A := fun st => Ok (f st, st).
Definition modify (f : S -> S) : SM S unit := fun st => Ok (tt, f st).
Definition lift {A} (o : outcome A) : SM S A := fun st => a ← o; Ok (a, st).
Definition ret {A} (a : A) : SM S A := mret a.
Definition m_assert (b : bool) : SM S unit := lift (c_assert b).
Definition no_fuel {A} : SM S A := fun _ => NoFuel.

(** [for (i = from; n turns; i++)] with a body that may return early. *)
Fixpoint for_loop {R} (n : nat) (i : Z) (body : Z -> SM S (option R)) : SM S (option R) :=
  match n with
  | O => ret None
  | Datatypes.S n =>
    r ← body i; match r with Some r => ret (Some r) | None => for_loop n (i + 1) body end
  end.

Lemma gets_bind {A B} (f : S -> A) (k : A -> SM S B) st : (gets f ≫= k) st = k (f st) st.
Proof. done. Qed.
Lemma modify_bind {B} f (k : unit -> SM S B) st : (modify f ≫= k) st = k tt (f st).
Proof. done. Qed.
Lemma ret_bind {A B} (a : A) (k : A -> SM S B) st : (ret a ≫= k) st = k a st.
Proof. done. Qed.
Lemma lift_bind {A B} (a : A) (k : A -> SM S B) st : (lift (Ok a) ≫= k) st = k a st.
Proof. done. Qed.
Lemma ok_bind {A B} (m : SM S A) (k : A -> SM S B) st a st' :
  m st = Ok (a, st') -> (m ≫= k) st = k a st'.
Proof. intros E. unfold mbind, SM_bind. by rewrite E. Qed.
Lemma bind_inv {A B} (m : SM S A) (k : A -> SM S B) st b st' :
  (m ≫= k) st = Ok (b, st') -> exists a st1, m st = Ok (a, st1) /\ k a st1 = Ok (b, st').
Proof. unfold mbind, SM_bind. destruct (m st) as [[a st1]| | |]; [|done..]. by exists a, st1. Qed.
End Operations.

#[export] Hint Rewrite @gets_bind @modify_bind @ret_bind @lift_bind : sbos.

(** Runs the plain steps at the head of a monadic computation. *)
Ltac msimpl := rewrite ?gets_bind, ?modify_bind, ?ret_bind, ?lift_bind;
  repeat (progress rewrite ?gets_bind, ?modify_bind, ?ret_bind, ?lift_bind).

(** Runs the first step of a computation by a lemma about its result. *)
Ltac mrun E := rewrite (ok_bind _ _ _ _ _ E).

(** ** Total correctness

    [wp m Q st]: run from [st], the computation returns, and its result and
    final state satisfy [Q]. *)

Section Triples.
Context {S : Type}.

Definition wp {A} (m : SM S A) (Q : A -> S -> Prop) (st : S) : Prop :=
  exists a st', m st = Ok (a, st') /\ Q a st'.

Lemma wp_ok {A} (m : SM S A) (Q : A -> S -> Prop) st a st' :
  m st = Ok (a, st') -> Q a st' -> wp m Q st.
Proof. intros E H. by exists a, st'. Qed.

Lemma wp_mono {A} (m : SM S A) (P Q : A -> S -> Prop) st :
  wp m P st -> (forall a st', P a st' -> Q a st') -> wp m Q st.
Proof. intros (a & st' & E & H) HPQ. exists a, st'. split; [done|by apply HPQ]. Qed.

Lemma wp_ret {A} (a : A) (Q : A -> S -> Prop) st : Q a st -> wp (ret a) Q st.
Proof. by apply wp_ok. Qed.

(** The cut rule. *)
Lemma wp_bind {A B} (m : SM S A) (k : A -> SM S B) (Q : B -> S -> Prop) st :
  wp m (fun a st' => wp (k a) Q st') st -> wp (m ≫= k) Q st.
Proof.
  intros (a & st' & E & b & st'' & E' & H). exists b, st''. split; [|done].
  by rewrite (ok_bind _ _ _ _ _ E).
Qed.

Lemma wp_gets {A B} (f : S -> A) (k : A -> SM S B) Q st :
  wp (k (f st)) Q st -> wp (gets f ≫= k) Q st.
Proof. done. Qed.

Lemma wp_modify {B} (f : S -> S) (k : unit -> SM S B) Q st :
  wp (k tt) Q (f st) -> wp (modify f ≫= k) Q st.
Proof. done. Qed.

Lemma wp_ret_bind {A B} (a : A) (k : A -> SM S B) Q st :
  wp (k a) Q st -> wp (ret a ≫= k) Q st.
Proof. done. Qed.

Lemma wp_lift {A B} (o : outcome A) a (k : A -> SM S B) Q st :
  o = Ok a -> wp (k a) Q st -> wp (lift o ≫= k) Q st.
Proof. by intros ->. Qed.

Lemma wp_lift_end {A} (o : outcome A) a (Q : A -> S -> Prop) st :
  o = Ok a -> Q a st -> wp (lift o) Q st.
Proof. intros ->. by apply wp_ok. Qed.

Lemma wp_assert {B} (b : bool) (k : unit -> SM S B) Q st :
  b = true -> wp (k tt) Q st -> wp (m_assert b ≫= k) Q st.
Proof. by intros ->. Qed.

(** A counting loop that never returns early keeps an invariant. *)
Lemma wp_for {R} n i (body : Z -> SM S (option R)) (I : Z -> S -> Prop) st :
  I i st ->
  (forall j st, i <= j < i + Z.of_nat n -> I j st ->
     wp (body j) (fun r st' => r = None /\ I (j + 1) st') st) ->
  wp (for_loop n i body) (fun r st' => r = None /\ I (i + Z.of_nat n) st') st.
Proof.
  revert i st. induction n as [|n IH]; intros i st Hi Hb; cbn [for_loop].
  { apply wp_ret. split; [done|]. by rewrite Z.add_0_r. }
  apply wp_bind. eapply wp_mono; [apply Hb; [lia|done]|].
  intros r st' [-> Hi']. replace (i + Z.of_nat (Datatypes.S n)) with (i + 1 + Z.of_nat n) by lia.
  apply IH; [done|]. intros j st2 Hj. apply Hb. lia.
Qed.
End Triples.

(** Runs the plain steps at the head of a [wp] goal. *)
Ltac wp_simpl := repeat first
  [ apply wp_gets | apply wp_modify | apply wp_ret_bind
  | match goal with |- wp (lift (Ok _) ≫= _) _ _ => apply (wp_lift _ _ _ _ _ eq_refl) end ].

(** Uses a specification of the first step. *)
Tactic Notation "wp_use" uconstr(H) "as" simple_intropattern(a) simple_intropattern(st)
  simple_intropattern(p) :=
  apply wp_bind; eapply wp_mono; [eapply H|intros a st p].
