(* ===== verification/Bitmap.v ===== *)
(** Bitmaps stored in arrays of machine words: the 64 bit words of a relist, the
    32 bit words of the frame allocator and the bytes of ext2 block and inode
    bitmaps. *)

From stdpp Require Import base numbers list gmap.
From Stdlib Require Import ZArith Lia.
From S2P Require Import Prelude.

Open Scope Z_scope.

Lemma shiftl_1 c : 0 <= c -> Z.shiftl 1 c = 2 ^ c.
Proof. intros. by rewrite Z.shiftl_mul_pow2, Z.mul_1_l. Qed.

Lemma is_set_shiftl w c : 0 <= c -> is_set w (Z.shiftl 1 c) = Z.testbit w c.
Proof. intros. rewrite shiftl_1 by done. by apply is_set_bit. Qed.

Lemma set_bit_view w k n :
  0 <= k -> Z.testbit (Z.lor w (Z.shiftl 1 k)) n = if n =? k then true else Z.testbit w n.
Proof.
  intros. rewrite shiftl_1, testbit_set_bit by done. destruct (n =? k);
    [apply orb_true_r|apply orb_false_r].
Qed.

Lemma clear_bit_view w k n :
  0 <= k -> Z.testbit (Z.ldiff w (Z.shiftl 1 k)) n = if n =? k then false else Z.testbit w n.
Proof.
  intros. rewrite shiftl_1, testbit_clear_bit by done. destruct (n =? k);
    [apply andb_false_r|apply andb_true_r].
Qed.

Lemma ones_bits n j : 0 <= j < n -> Z.testbit (2 ^ n - 1) j = true.
Proof.
  intros Hj. replace (2 ^ n - 1) with (Z.ones n) by (rewrite Z.ones_equiv; lia).
  apply Z.ones_spec_low. lia.
Qed.

Section Bitmap.
(** The number of bits of a word. *)
Context (W : Z) (HW : 0 < W).

Definition bit_at (ws : list Z) (i : Z) : bool :=
  match znth ws (i / W) with
  | Some w => Z.testbit w (i mod W)
  | None => false
  end.

Lemma znth_cons {A} (x : A) l i : 0 < i -> znth (x :: l) i = znth l (i - 1).
Proof. intros. change (x :: l) with ([x] ++ l). by rewrite znth_app_r by zlia. Qed.

Lemma bit_at_cons w ws j :
  0 <= j -> bit_at (w :: ws) j = if j <? W then Z.testbit w j else bit_at ws (j - W).
Proof.
  intros Hj. unfold bit_at. destruct (Z.ltb_spec j W).
  - rewrite Z.div_small, Z.mod_small by lia. done.
  - assert (Hd : j / W = (j - W) / W + 1 /\ j mod W = (j - W) mod W).
    { replace j with ((j - W) + 1 * W) at 1 3 by lia.
      by rewrite Z_div_plus_full, Z_mod_plus_full by lia. }
    destruct Hd as [-> ->].
    rewrite znth_cons by (pose proof (Z.div_pos (j - W) W); lia).
    by replace ((j - W) / W + 1 - 1) with ((j - W) / W) by lia.
Qed.

Lemma bit_at_drop ws k f :
  0 <= k -> 0 <= f -> bit_at (zdrop k ws) f = bit_at ws (f + k * W).
Proof.
  intros Hk Hf. unfold bit_at. rewrite Z.div_add, Z.mod_add by lia.
  rewrite znth_zdrop by (try lia; apply Z.div_pos; lia). by rewrite Z.add_comm.
Qed.

(** The word of a bit inside the bitmap. *)
Lemma bit_word ws i :
  Forall (fits W) ws -> 0 <= i < W * zlen ws ->
  exists w, znth ws (i / W) = Some w /\ fits W w /\ 0 <= i / W < zlen ws /\
    0 <= i mod W < W /\ bit_at ws i = Z.testbit w (i mod W).
Proof.
  intros Hw Hi.
  assert (Hd : 0 <= i / W < zlen ws).
  { split; [apply Z.div_pos; lia|]. apply Z.div_lt_upper_bound; lia. }
  destruct (znth_Some _ _ Hd) as [w E]. pose proof (Z.mod_pos_bound i W HW).
  exists w. split_and!; try lia; [done| |..].
  - rewrite Forall_forall in Hw. apply Hw. unfold znth in E.
    destruct (0 <=? i / W); [|done]. by apply list_elem_of_lookup_2 in E.
  - unfold bit_at. by rewrite E.
Qed.

(** Setting or clearing one bit. *)
Lemma bit_at_update ws i w w' (v : bool) j :
  0 <= i -> 0 <= j -> znth ws (i / W) = Some w ->
  (forall n, 0 <= n -> Z.testbit w' n = if n =? i mod W then v else Z.testbit w n) ->
  bit_at (<[Z.to_nat (i / W) := w']> ws) j = if j =? i then v else bit_at ws j.
Proof.
  intros Hi Hj Hw Hf. pose proof (znth_Some_inv _ _ _ Hw). unfold bit_at.
  rewrite znth_insert by (try done; apply Z.div_pos; lia).
  pose proof (Z.mod_pos_bound j W HW).
  destruct (Z.eqb_spec (j / W) (i / W)) as [E|E].
  - rewrite Hf by lia. destruct (Z.eqb_spec (j mod W) (i mod W)) as [E'|E'].
    + destruct (Z.eqb_spec j i) as [|Hne]; [done|]. exfalso. apply Hne.
      rewrite (Z.div_mod j W), (Z.div_mod i W) by lia. by rewrite E, E'.
    + destruct (Z.eqb_spec j i) as [->|]; [done|]. by rewrite E, Hw.
  - destruct (Z.eqb_spec j i) as [->|]; [done|]. done.
Qed.
End Bitmap.
