(* ===== verification/Bytes.v ===== *)
(** Memory as bytes: little endian words in a byte array, and copies into parts
    of a buffer.  Shared by the network stack and the file system. *)

From stdpp Require Import base numbers list.
From Stdlib Require Import ZArith Lia.
From Stdlib Require Ascii String.
From S2P Require Import Prelude.

Open Scope Z_scope.

(** The bytes of a string literal. *)
Definition text_bytes (s : String.string) : list Z :=
  (fun a => Z.of_N (Ascii.N_of_ascii a)) <$> String.list_ascii_of_string s.
Arguments text_bytes _%_string_scope.

Definition le16 (a b : Z) : Z := a + 2 ^ 8 * b.
Definition le32 (a b c d : Z) : Z := a + 2 ^ 8 * b + 2 ^ 16 * c + 2 ^ 24 * d.
Definition le16_bytes (x : Z) : list Z := [x mod 2 ^ 8; x / 2 ^ 8 mod 2 ^ 8].
Definition le32_bytes (x : Z) : list Z :=
  [x mod 2 ^ 8; x / 2 ^ 8 mod 2 ^ 8; x / 2 ^ 16 mod 2 ^ 8; x / 2 ^ 24 mod 2 ^ 8].

Definition le16_at (l : list Z) (o : Z) : outcome Z :=
  a ← aread l o; b ← aread l (o + 1); Ok (le16 a b).
Definition le32_at (l : list Z) (o : Z) : outcome Z :=
  a ← aread l o; b ← aread l (o + 1); c ← aread l (o + 2); d ← aread l (o + 3);
  Ok (le32 a b c d).
(** [memcpy(dst, l + o, n)] into a local of [n] bytes. *)
Definition bytes_at (l : list Z) (o n : Z) : outcome (list Z) :=
  if (0 <=? o) && (o + n <=? zlen l) then Ok (slice o n l) else Fault.

Lemma lor_disjoint_add n a b : 0 <= n -> fits n a -> Z.lor a (b * 2 ^ n) = a + b * 2 ^ n.
Proof.
  intros Hn Ha. pose proof (Z.add_lor_land a (b * 2 ^ n)) as H.
  assert (Hz : Z.land a (b * 2 ^ n) = 0); [|lia].
  apply Z.bits_inj'. intros m Hm. rewrite Z.land_spec, Z.bits_0.
  destruct (Z.lt_ge_cases m n) as [Hlt|Hge].
  - rewrite (Z.mul_pow2_bits_low _ n m) by lia. apply andb_false_r.
  - rewrite (testbit_fits n a m) by done. done.
Qed.

(** The bits selected by a mask of [k] ones at position [n]. *)
Lemma land_field x n k :
  0 <= n -> 0 <= k ->
  Z.land x (Z.ones k * 2 ^ n) = (x / 2 ^ n mod 2 ^ k) * 2 ^ n.
Proof.
  intros Hn Hk. rewrite <- Z.land_ones, <- Z.shiftr_div_pow2, <- !Z.shiftl_mul_pow2 by lia.
  apply Z.bits_inj'. intros m Hm. rewrite Z.land_spec.
  destruct (Z.lt_ge_cases m n).
  - rewrite !Z.shiftl_spec_low by lia. apply andb_false_r.
  - rewrite !Z.shiftl_spec, Z.land_spec, Z.shiftr_spec by lia. do 2 f_equal. lia.
Qed.

Lemma le16_le16_bytes x : fits 16 x -> le16 (x mod 2 ^ 8) (x / 2 ^ 8 mod 2 ^ 8) = x.
Proof.
  intros [Hx1 Hx2]. unfold le16.
  rewrite (Z.mod_small (x / 2 ^ 8)).
  - pose proof (Z.div_mod x (2 ^ 8)). lia.
  - split; [apply Z.div_pos; lia|]. apply Z.div_lt_upper_bound; lia.
Qed.

(** Splitting a 32 bit word in bytes. *)
Lemma le32_split x :
  fits 32 x ->
  le32 (x mod 2 ^ 8) (x / 2 ^ 8 mod 2 ^ 8) (x / 2 ^ 16 mod 2 ^ 8) (x / 2 ^ 24 mod 2 ^ 8) = x.
Proof.
  intros [Hx1 Hx2]. unfold le32.
  change (2 ^ 8) with 256 in *. change (2 ^ 16) with 65536 in *.
  change (2 ^ 24) with 16777216 in *. change (2 ^ 32) with 4294967296 in *.
  Z.to_euclidean_division_equations. lia.
Qed.

Lemma le32_byte a b c d :
  fits 8 a -> fits 8 b -> fits 8 c -> fits 8 d ->
  le32 a b c d / 2 ^ 0 mod 2 ^ 8 = a /\ le32 a b c d / 2 ^ 8 mod 2 ^ 8 = b /\
  le32 a b c d / 2 ^ 16 mod 2 ^ 8 = c /\ le32 a b c d / 2 ^ 24 mod 2 ^ 8 = d.
Proof.
  unfold fits, le32. intros. split_and!.
  - rewrite Z.div_1_r. symmetry. apply (Z.mod_unique _ _ (b + 2 ^ 8 * c + 2 ^ 16 * d)); lia.
  - rewrite <- (Z.div_unique _ (2 ^ 8) (b + 2 ^ 8 * c + 2 ^ 16 * d) a) by lia.
    symmetry. apply (Z.mod_unique _ _ (c + 2 ^ 8 * d)); lia.
  - rewrite <- (Z.div_unique _ (2 ^ 16) (c + 2 ^ 8 * d) (a + 2 ^ 8 * b)) by lia.
    symmetry. apply (Z.mod_unique _ _ d); lia.
  - rewrite <- (Z.div_unique _ (2 ^ 24) d (a + 2 ^ 8 * b + 2 ^ 16 * c)) by lia.
    apply Z.mod_small; lia.
Qed.

(** ** Copying into a buffer *)

Lemma memcpy_at_app {A} (a b c src : list A) off n :
  off = zlen a -> n = zlen b -> n <= zlen src ->
  memcpy_at (a ++ b ++ c) off src 0 n = Ok (a ++ ztake n src ++ c).
Proof.
  intros -> -> Hs. pose proof (zlen_nonneg a). pose proof (zlen_nonneg b).
  pose proof (zlen_nonneg c).
  rewrite memcpy_at_ok by (rewrite ?zlen_app; lia). f_equal. unfold splice.
  rewrite slice_from_0, zlen_ztake by lia. f_equal.
  - unfold ztake, zlen. rewrite Nat2Z.id. apply take_app_length.
  - f_equal. unfold zdrop, zlen.
    replace (Z.to_nat _) with (length a + length b)%nat by lia.
    rewrite app_assoc. rewrite <- length_app. apply drop_app_length.
Qed.

(** A buffer cut at given lengths. *)
Lemma cut_list {A} n (l : list A) :
  0 <= n <= zlen l -> exists a b, l = a ++ b /\ zlen a = n /\ zlen b = zlen l - n.
Proof.
  intros Hn. exists (ztake n l), (zdrop n l).
  rewrite zlen_ztake, zlen_zdrop by lia. by rewrite ztake_zdrop.
Qed.

Lemma ztake_app_exact {A} n (a b : list A) : n = zlen a -> ztake n (a ++ b) = a.
Proof. intros ->. unfold ztake, zlen. rewrite Nat2Z.id. apply take_app_length. Qed.

Lemma zdrop_app_exact {A} n (a b : list A) : n = zlen a -> zdrop n (a ++ b) = b.
Proof. intros ->. unfold zdrop, zlen. rewrite Nat2Z.id. apply drop_app_length. Qed.

Lemma bytes_at_app a b n :
  n = zlen a -> bytes_at (a ++ b) 0 n = Ok a.
Proof.
  intros ->. unfold bytes_at. rewrite zlen_app. pose proof (zlen_nonneg b).
  destruct (Z.leb_spec (0 + zlen a) (zlen a + zlen b)); [|lia].
  cbn [andb Z.leb Z.compare]. by rewrite slice_from_0, ztake_app_exact.
Qed.


(** ** Words in memory *)

(** The byte and the little endian word at an offset, 0 outside the array. *)
Definition byte_of (l : list Z) (o : Z) : Z := default 0 (znth l o).
Definition word (l : list Z) (o : Z) : Z :=
  le32 (byte_of l o) (byte_of l (o + 1)) (byte_of l (o + 2)) (byte_of l (o + 3)).

Lemma aread_byte_of l o : 0 <= o < zlen l -> aread l o = Ok (byte_of l o).
Proof.
  intros Ho. destruct (znth_Some l o Ho) as [x Hx]. unfold byte_of. rewrite Hx. by apply aread_ok.
Qed.

Lemma le32_at_word l o : 0 <= o -> o + 4 <= zlen l -> le32_at l o = Ok (word l o).
Proof. intros. unfold le32_at. by rewrite !aread_byte_of by lia. Qed.

Lemma byte_of_ext l l' o o' : znth l o = znth l' o' -> byte_of l o = byte_of l' o'.
Proof. unfold byte_of. by intros ->. Qed.

Lemma word_ext l l' o o' :
  (forall k, 0 <= k < 4 -> znth l (o + k) = znth l' (o' + k)) -> word l o = word l' o'.
Proof.
  intros H. unfold word, byte_of. rewrite !H by lia. pose proof (H 0 ltac:(lia)) as H0.
  rewrite !Z.add_0_r in H0. by rewrite H0.
Qed.

Lemma word_slice l off n o :
  0 <= off -> 0 <= o -> o + 4 <= n -> word (slice off n l) o = word l (off + o).
Proof.
  intros. apply word_ext. intros k Hk. rewrite znth_slice by lia. f_equal. lia.
Qed.

Lemma word_ztake l n o : o + 4 <= n -> word (ztake n l) o = word l o.
Proof. intros. apply word_ext. intros k Hk. apply znth_ztake. lia. Qed.

Lemma byte_of_fits l o : Forall (fits 8) l -> fits 8 (byte_of l o).
Proof.
  intros H. unfold byte_of, znth. destruct (0 <=? o); [|done].
  destruct (l !! Z.to_nat o) as [x|] eqn:E; [|done]. exact (Forall_lookup_1 _ _ _ _ H E).
Qed.

Lemma word_fits l o : Forall (fits 8) l -> fits 32 (word l o).
Proof.
  intros H. unfold word, le32.
  pose proof (byte_of_fits l o H) as [? ?]. pose proof (byte_of_fits l (o + 1) H) as [? ?].
  pose proof (byte_of_fits l (o + 2) H) as [? ?]. pose proof (byte_of_fits l (o + 3) H) as [? ?].
  split; lia.
Qed.

Lemma word_splice_same l o x :
  fits 32 x -> 0 <= o -> o + 4 <= zlen l -> word (splice l o (le32_bytes x)) o = x.
Proof.
  intros Hx Ho Hl. rewrite <- (le32_split x Hx) at 2.
  assert (Hb : forall k, 0 <= k < 4 ->
    byte_of (splice l o (le32_bytes x)) (o + k) = byte_of (le32_bytes x) k).
  { intros k Hk. apply byte_of_ext. assert (Hz : zlen (le32_bytes x) = 4) by done.
    rewrite znth_splice by lia. rewrite Hz.
    destruct (Z.leb_spec o (o + k)), (Z.ltb_spec (o + k) (o + 4)); try lia.
    cbn [andb]. f_equal. lia. }
  unfold word. rewrite <- (Z.add_0_r o) at 2. by rewrite !Hb by lia.
Qed.

Lemma word_splice_other l o d o' :
  0 <= o -> o + zlen d <= zlen l -> 0 <= o' -> o' + 4 <= zlen l ->
  o' + 4 <= o \/ o + zlen d <= o' -> word (splice l o d) o' = word l o'.
Proof.
  intros. apply word_ext. intros k Hk. rewrite znth_splice by lia.
  destruct (Z.leb_spec o (o' + k)), (Z.ltb_spec (o' + k) (o + zlen d)); cbn [andb]; (done || lia).
Qed.

Lemma le32_bytes_fits x : Forall (fits 8) (le32_bytes x).
Proof. unfold le32_bytes. repeat constructor; try apply Z.mod_pos_bound; lia. Qed.

Lemma splice_fits (l : list Z) o d :
  Forall (fits 8) l -> Forall (fits 8) d -> Forall (fits 8) (splice l o d).
Proof.
  intros Hl Hd. unfold splice, ztake, zdrop. apply Forall_app. split; [by apply Forall_take|].
  apply Forall_app. split; [done|by apply Forall_drop].
Qed.

Lemma ztake_splice {A} n (l : list A) off d :
  0 <= off -> off + zlen d <= n -> n <= zlen l -> ztake n (splice l off d) = splice (ztake n l) off d.
Proof.
  intros. pose proof (zlen_nonneg d). pose proof (zlen_ztake n l ltac:(lia)) as Hn.
  assert (Hz : zlen (ztake n (splice l off d)) = n).
  { apply zlen_ztake. rewrite zlen_splice; lia. }
  apply znth_ext; rewrite Hz; [by rewrite zlen_splice; lia|]. intros i Hi.
  rewrite znth_ztake by lia. rewrite !znth_splice by lia.
  by rewrite znth_ztake by lia.
Qed.

Lemma slice_splice_prefix {A} (l : list A) off d m :
  0 <= off -> off + zlen d <= zlen l -> 0 <= m <= zlen d -> slice off m (splice l off d) = ztake m d.
Proof.
  intros. rewrite <- (slice_splice_same l off d) at 2 by done.
  unfold slice, ztake. rewrite take_take. f_equal. lia.
Qed.

(** The 16 bit word at an offset. *)
Definition half (l : list Z) (o : Z) : Z := le16 (byte_of l o) (byte_of l (o + 1)).

Lemma le16_at_half l o : 0 <= o -> o + 2 <= zlen l -> le16_at l o = Ok (half l o).
Proof. intros. unfold le16_at. by rewrite !aread_byte_of by lia. Qed.

Lemma half_ext l l' o o' :
  (forall k, 0 <= k < 2 -> znth l (o + k) = znth l' (o' + k)) -> half l o = half l' o'.
Proof.
  intros H. unfold half, byte_of. pose proof (H 0 ltac:(lia)) as H0. rewrite !Z.add_0_r in H0.
  by rewrite H0, (H 1 ltac:(lia)).
Qed.

Lemma half_slice l off n o :
  0 <= off -> 0 <= o -> o + 2 <= n -> half (slice off n l) o = half l (off + o).
Proof. intros. apply half_ext. intros k Hk. rewrite znth_slice by lia. f_equal. lia. Qed.

Lemma half_splice_other l o d o' :
  0 <= o -> o + zlen d <= zlen l -> 0 <= o' -> o' + 2 <= zlen l ->
  o' + 2 <= o \/ o + zlen d <= o' -> half (splice l o d) o' = half l o'.
Proof.
  intros. apply half_ext. intros k Hk. rewrite znth_splice by lia.
  destruct (Z.leb_spec o (o' + k)), (Z.ltb_spec (o' + k) (o + zlen d)); cbn [andb]; (done || lia).
Qed.
