(* ===== verification/RingBuffer.v ===== *)
(** kernel/lib/ringbuffer.c: the byte queue under sockets, keyboards and mice.

    The state is the C struct.  [rb_contents] is the abstract queue of bytes
    between [read_ptr] and [write_ptr]; the theorems show that
    [ringbuffer_write] and [ringbuffer_read] are enqueue and dequeue of a FIFO
    bounded by [ringbuffer_capacity], that they always return, and that no
    access leaves the buffer. *)

From stdpp Require Import base numbers list gmap.
From Stdlib Require Import ZArith Lia.
From S2P Require Import Prelude Alloc.

Open Scope Z_scope.

Record ringbuffer : Type := mkRingbuffer {
  rb_buffer : option (block Z);
  buffer_size : Z;
  read_ptr : Z;
  write_ptr : Z
}.

Section Operations.
Context {H : Type} `{Allocator H}.

Definition ringbuffer_init (size : Z) (h : H) : ringbuffer * Z * H :=
  match alloc_bytes size h with
  | (None, h') => (mkRingbuffer None 0 0 0, 0, h')
  | (Some b, h') => (mkRingbuffer (Some b) size 0 0, 1, h')
  end.

Definition ringbuffer_free (rb : ringbuffer) (h : H) : ringbuffer * H :=
  (mkRingbuffer None 0 0 0, kfree (ptr_of (rb_buffer rb)) h).
End Operations.

Definition ringbuffer_used (rb : ringbuffer) : Z :=
  if write_ptr rb <? read_ptr rb
  then u32 (u32 (buffer_size rb - read_ptr rb) + write_ptr rb)
  else u32 (write_ptr rb - read_ptr rb).

Definition ringbuffer_capacity (rb : ringbuffer) : Z := u32 (buffer_size rb - 1).

Definition ringbuffer_unused (rb : ringbuffer) : Z :=
  u32 (ringbuffer_capacity rb - ringbuffer_used rb).

Definition ringbuffer_isempty (rb : ringbuffer) : bool :=
  write_ptr rb =? read_ptr rb.

(** The room in front of [write_ptr], as computed in the write loop. *)
Definition write_room (rb : ringbuffer) : Z :=
  if read_ptr rb <=? write_ptr rb
  then let left := u32 (buffer_size rb - write_ptr rb) in
       if (read_ptr rb =? 0) && (0 <? left) then left - 1 else left
  else u32 (read_ptr rb - write_ptr rb - 1).

(** The loop of [ringbuffer_write]; [src] is the caller's buffer, [soff] how
    far the [buffer] pointer has advanced in it.  Returns the remaining [len]. *)
Fixpoint write_loop (fuel : nat) (rb : ringbuffer) (src : list Z) (soff len : Z)
  : outcome (ringbuffer * Z) :=
  match fuel with
  | O => NoFuel
  | S fuel =>
    if 0 <? len then
      let left := write_room rb in
      if left =? 0 then Ok (rb, len) else
      let wl := Z.min len left in
      let wl := Z.min wl (u32 (buffer_size rb - write_ptr rb)) in
      d ← memcpy_at (data_of (rb_buffer rb)) (write_ptr rb) src soff wl;
      if buffer_size rb =? 0 then Panic else
      write_loop fuel
        (mkRingbuffer (set_data (rb_buffer rb) d) (buffer_size rb) (read_ptr rb)
           (u32 (write_ptr rb + wl) mod buffer_size rb))
        src (soff + wl) (len - wl)
    else Ok (rb, len)
  end.

Definition ringbuffer_write (rb : ringbuffer) (src : list Z) (len : Z)
  : outcome (ringbuffer * Z) :=
  '(rb', rest) ← write_loop (S (Z.to_nat len)) rb src 0 len;
  Ok (rb', len - rest).

(** The loop of [ringbuffer_read].  [dst] is [None] when the caller passes a
    NULL buffer to discard bytes, else the bytes copied out so far. *)
Fixpoint read_loop (fuel : nat) (rb : ringbuffer) (dst : option (list Z)) (len : Z)
  : outcome (ringbuffer * option (list Z) * Z) :=
  match fuel with
  | O => NoFuel
  | S fuel =>
    if 0 <? len then
      if read_ptr rb =? write_ptr rb then Ok (rb, dst, len) else
      let rl := if write_ptr rb <=? read_ptr rb
                then u32 (buffer_size rb - read_ptr rb)
                else u32 (write_ptr rb - read_ptr rb) in
      let rl := Z.min len rl in
      dst' ← match dst with
             | None => Ok None
             | Some out =>
                 c ← memcpy_at (replicate (Z.to_nat rl) 0) 0
                       (data_of (rb_buffer rb)) (read_ptr rb) rl;
                 Ok (Some (out ++ c))
             end;
      if buffer_size rb =? 0 then Panic else
      read_loop fuel
        (mkRingbuffer (rb_buffer rb) (buffer_size rb)
           (u32 (read_ptr rb + rl) mod buffer_size rb) (write_ptr rb))
        dst' (len - rl)
    else Ok (rb, dst, len)
  end.

Definition ringbuffer_read (rb : ringbuffer) (want : bool) (len : Z)
  : outcome (ringbuffer * option (list Z) * Z) :=
  '(rb', dst, rest) ←
    read_loop (S (Z.to_nat len)) rb (if want then Some [] else None) len;
  Ok (rb', dst, len - rest).

(** ** The abstract queue *)

(** The index of the [i]-th queued byte. *)
Definition rb_pos (rb : ringbuffer) (i : Z) : Z :=
  if read_ptr rb + i <? buffer_size rb
  then read_ptr rb + i else read_ptr rb + i - buffer_size rb.

Definition rb_count (rb : ringbuffer) : Z :=
  if write_ptr rb <? read_ptr rb
  then buffer_size rb - read_ptr rb + write_ptr rb
  else write_ptr rb - read_ptr rb.

Definition rb_contents (rb : ringbuffer) : list Z :=
  let d := data_of (rb_buffer rb) in
  if write_ptr rb <? read_ptr rb
  then slice (read_ptr rb) (buffer_size rb - read_ptr rb) d
       ++ slice 0 (write_ptr rb) d
  else slice (read_ptr rb) (write_ptr rb - read_ptr rb) d.

(** A ring buffer that [ringbuffer_init] succeeded on. *)
Record rb_inv (rb : ringbuffer) : Prop := {
  rbi_size : 0 < buffer_size rb < 2 ^ 31;
  rbi_data : zlen (data_of (rb_buffer rb)) = buffer_size rb;
  rbi_read : 0 <= read_ptr rb < buffer_size rb;
  rbi_write : 0 <= write_ptr rb < buffer_size rb
}.

Ltac rb_cases :=
  unfold rb_pos, rb_count, write_room, ringbuffer_used, ringbuffer_capacity,
    ringbuffer_unused in *;
  repeat match goal with
  | |- context [?a <? ?b] => destruct (Z.ltb_spec a b)
  | |- context [?a <=? ?b] => destruct (Z.leb_spec a b)
  | |- context [?a =? ?b] => destruct (Z.eqb_spec a b)
  | H : context [?a <? ?b] |- _ => destruct (Z.ltb_spec a b)
  | H : context [?a <=? ?b] |- _ => destruct (Z.leb_spec a b)
  | H : context [?a =? ?b] |- _ => destruct (Z.eqb_spec a b)
  end; cbn [andb] in *.

Section Invariant.
Variable rb : ringbuffer.
Hypothesis Hinv : rb_inv rb.

Lemma rb_contents_len : zlen (rb_contents rb) = rb_count rb.
Proof.
  destruct Hinv as [Hs Hd Hr Hw]. unfold rb_contents, rb_count.
  destruct (Z.ltb_spec (write_ptr rb) (read_ptr rb)).
  - rewrite zlen_app, !zlen_slice; lia.
  - rewrite zlen_slice; lia.
Qed.

Lemma rb_contents_nth i :
  0 <= i < rb_count rb ->
  znth (rb_contents rb) i = znth (data_of (rb_buffer rb)) (rb_pos rb i).
Proof.
  destruct Hinv as [Hs Hd Hr Hw]. unfold rb_contents, rb_pos, rb_count.
  destruct (Z.ltb_spec (write_ptr rb) (read_ptr rb)); intros Hi.
  - pose proof (zlen_slice (read_ptr rb) (buffer_size rb - read_ptr rb)
                  (data_of (rb_buffer rb)) ltac:(lia) ltac:(lia) ltac:(lia)) as Hl.
    destruct (Z.ltb_spec (read_ptr rb + i) (buffer_size rb)).
    + rewrite znth_app_l by lia. apply znth_slice; lia.
    + rewrite znth_app_r by lia. rewrite znth_slice by lia. f_equal. lia.
  - rewrite znth_slice by lia.
    destruct (Z.ltb_spec (read_ptr rb + i) (buffer_size rb)); [done|lia].
Qed.

Lemma rb_used_count : ringbuffer_used rb = rb_count rb.
Proof.
  destruct Hinv as [Hs Hd Hr Hw]. rb_cases; rewrite ?u32_small; try lia.
  rewrite u32_small; lia.
Qed.

Lemma rb_count_bounds : 0 <= rb_count rb < buffer_size rb.
Proof. destruct Hinv. rb_cases; lia. Qed.

Lemma rb_unused_room : ringbuffer_unused rb = buffer_size rb - 1 - rb_count rb.
Proof.
  unfold ringbuffer_unused. rewrite rb_used_count.
  pose proof rb_count_bounds. destruct Hinv. unfold ringbuffer_capacity.
  rewrite !u32_small; rewrite ?u32_small; lia.
Qed.

(** The room is positive exactly when the queue is not full, never runs past
    the end of the array or into the queued bytes. *)
Lemma write_room_spec :
  0 <= write_room rb <= buffer_size rb - write_ptr rb /\
  write_room rb <= buffer_size rb - 1 - rb_count rb /\
  (rb_count rb < buffer_size rb - 1 -> 0 < write_room rb).
Proof.
  destruct Hinv. rb_cases; rewrite ?u32_small in * by lia; lia.
Qed.
End Invariant.

(** One pass of the write loop appends the bytes it copies. *)
Lemma write_chunk rb d wl :
  rb_inv rb -> 0 < wl <= write_room rb -> zlen d = wl ->
  let rb' := mkRingbuffer
               (set_data (rb_buffer rb)
                  (splice (data_of (rb_buffer rb)) (write_ptr rb) d))
               (buffer_size rb) (read_ptr rb)
               (u32 (write_ptr rb + wl) mod buffer_size rb) in
  rb_inv rb' /\ rb_contents rb' = rb_contents rb ++ d /\
  rb_count rb' = rb_count rb + wl.
Proof.
  intros Hinv Hwl Hd rb'.
  pose proof (write_room_spec rb Hinv) as (Hroom1 & Hroom2 & _).
  pose proof (rb_count_bounds rb Hinv).
  assert (Hdata : data_of (rb_buffer rb') =
                  splice (data_of (rb_buffer rb)) (write_ptr rb) d).
  { unfold rb'; cbn. destruct Hinv as [? Hl ? ?].
    destruct (rb_buffer rb); cbn in *; [done|]. rewrite zlen_nil in Hl. lia. }
  destruct Hinv as [Hs Hl Hr Hw] eqn:E.
  assert (Hwp : write_ptr rb' =
            if write_ptr rb + wl =? buffer_size rb then 0 else write_ptr rb + wl).
  { unfold rb'; cbn [write_ptr]. rewrite u32_small by lia.
    destruct (Z.eqb_spec (write_ptr rb + wl) (buffer_size rb)) as [->|].
    - apply Z_mod_same_full.
    - apply Z.mod_small. lia. }
  assert (Hinv' : rb_inv rb').
  { constructor; try (rewrite Hdata, zlen_splice; cbn; lia); try done.
    rewrite Hwp. cbn. destruct (Z.eqb_spec (write_ptr rb + wl) (buffer_size rb)); lia. }
  assert (Hcount : rb_count rb' = rb_count rb + wl).
  { unfold rb_count at 1. rewrite Hwp. cbn [buffer_size read_ptr rb'].
    unfold rb_count in *. clear E Hinv. rb_cases; rewrite ?u32_small in * by lia; lia. }
  split; [done|]. split; [|done].
  apply znth_ext.
  { rewrite zlen_app, !rb_contents_len by done. lia. }
  rewrite rb_contents_len by done. intros i Hi.
  rewrite (rb_contents_nth rb' Hinv') by done. rewrite Hdata.
  change (rb_pos rb' i) with (rb_pos rb i).
  assert (Hpos : 0 <= rb_pos rb i < buffer_size rb) by (rb_cases; lia).
  rewrite znth_splice by lia.
  destruct (Z.ltb_spec i (rb_count rb)).
  - rewrite znth_app_l by (rewrite rb_contents_len; done).
    rewrite rb_contents_nth by (done || lia).
    enough (((write_ptr rb <=? rb_pos rb i)
             && (rb_pos rb i <? write_ptr rb + zlen d))%bool = false) as -> by done.
    clear E Hinv Hwp Hinv'. rb_cases; rewrite ?u32_small in * by lia; lia.
  - rewrite znth_app_r by (rewrite rb_contents_len; done).
    rewrite rb_contents_len by done.
    enough (rb_pos rb i = write_ptr rb + (i - rb_count rb)) as ->.
    { rewrite (proj2 (Z.leb_le _ _)), (proj2 (Z.ltb_lt _ _)) by lia.
      cbn [andb]. f_equal. lia. }
    clear E Hinv Hwp Hinv'. rb_cases; rewrite ?u32_small in * by lia; lia.
Qed.

Lemma write_loop_spec fuel rb src soff len :
  rb_inv rb -> 0 <= soff -> 0 <= len < 2 ^ 32 -> soff + len <= zlen src ->
  (Z.to_nat len < fuel)%nat ->
  let n := Z.min len (buffer_size rb - 1 - rb_count rb) in
  exists rb', write_loop fuel rb src soff len = Ok (rb', len - n) /\
    rb_inv rb' /\ rb_contents rb' = rb_contents rb ++ slice soff n src /\
    buffer_size rb' = buffer_size rb /\ read_ptr rb' = read_ptr rb.
Proof.
  revert rb soff len. induction fuel as [|fuel IH]; intros rb soff len Hinv Hso Hlen Hsrc Hf n;
    [lia|]. cbn [write_loop].
  pose proof (rb_count_bounds rb Hinv). pose proof (write_room_spec rb Hinv) as (R1 & R2 & R3).
  destruct (Z.ltb_spec 0 len) as [Hpos|Hz].
  2: { exists rb. assert (n = 0) as -> by lia. rewrite slice_0, app_nil_r, Z.sub_0_r. done. }
  destruct (Z.eqb_spec (write_room rb) 0) as [Hfull|Hroom].
  { exists rb. assert (n = 0) as -> by lia. rewrite slice_0, app_nil_r, Z.sub_0_r. done. }
  assert (Hwl : Z.min (Z.min len (write_room rb)) (u32 (buffer_size rb - write_ptr rb))
                = Z.min len (write_room rb)).
  { destruct Hinv. rewrite u32_small; lia. }
  rewrite Hwl. set (wl := Z.min len (write_room rb)) in *.
  rewrite memcpy_at_ok by (destruct Hinv; lia). cbn [mbind outcome_bind].
  destruct (Z.eqb_spec (buffer_size rb) 0); [destruct Hinv; lia|].
  pose proof (write_chunk rb (slice soff wl src) wl Hinv ltac:(lia)
                ltac:(apply zlen_slice; lia)) as (Hinv' & Hc' & Hn').
  match goal with |- context [write_loop fuel ?r _ _ _] => set (rb1 := r) in * end.
  destruct (IH rb1 (soff + wl) (len - wl) Hinv' ltac:(lia) ltac:(lia) ltac:(lia) ltac:(lia))
    as (rb' & -> & Hi & Hcc & Hb & Hr).
  change (buffer_size rb1) with (buffer_size rb) in *. rewrite Hn' in *.
  exists rb'. split_and!; try done.
  - do 2 f_equal. lia.
  - rewrite Hcc, Hc', <- app_assoc, slice_app by lia. do 2 f_equal. lia.
Qed.

(** One pass of the read loop removes the bytes it copies from the front. *)
Lemma read_chunk rb rl :
  rb_inv rb -> 0 < rl ->
  rl <= (if write_ptr rb <=? read_ptr rb then buffer_size rb - read_ptr rb
         else write_ptr rb - read_ptr rb) ->
  read_ptr rb <> write_ptr rb ->
  let rb' := mkRingbuffer (rb_buffer rb) (buffer_size rb)
               (u32 (read_ptr rb + rl) mod buffer_size rb) (write_ptr rb) in
  rb_inv rb' /\ rb_count rb' = rb_count rb - rl /\
  rb_contents rb =
    slice (read_ptr rb) rl (data_of (rb_buffer rb)) ++ rb_contents rb'.
Proof.
  intros Hinv Hrl Hle Hne rb'. destruct Hinv as [Hs Hl Hr Hw] eqn:E. clear E.
  assert (Hrp : read_ptr rb' =
            if read_ptr rb + rl =? buffer_size rb then 0 else read_ptr rb + rl).
  { unfold rb'; cbn [read_ptr]. rewrite u32_small by (rb_cases; lia).
    destruct (Z.eqb_spec (read_ptr rb + rl) (buffer_size rb)) as [->|].
    - apply Z_mod_same_full.
    - apply Z.mod_small. rb_cases; lia. }
  assert (Hinv' : rb_inv rb').
  { constructor; try done. rewrite Hrp. cbn. rb_cases; lia. }
  assert (Hcount : rb_count rb' = rb_count rb - rl).
  { unfold rb_count at 1. rewrite Hrp. cbn [buffer_size write_ptr rb'].
    unfold rb_count. clear Hinv Hinv' Hrp. rb_cases; lia. }
  split; [done|]. split; [done|].
  assert (Hsl : zlen (slice (read_ptr rb) rl (data_of (rb_buffer rb))) = rl).
  { apply zlen_slice; rb_cases; lia. }
  apply znth_ext.
  { rewrite zlen_app, Hsl, !rb_contents_len by done. lia. }
  rewrite rb_contents_len by done. intros i Hi.
  rewrite rb_contents_nth by done.
  destruct (Z.ltb_spec i rl).
  - rewrite znth_app_l by lia. rewrite znth_slice by lia. f_equal.
    clear Hinv Hinv' Hrp Hcount. rb_cases; lia.
  - rewrite znth_app_r by lia. rewrite Hsl.
    rewrite (rb_contents_nth rb' Hinv') by lia. f_equal.
    unfold rb_pos at 2. rewrite Hrp. cbn [buffer_size rb'].
    clear Hinv Hinv' Hrp Hcount. rb_cases; lia.
Qed.

(** What [memcpy] leaves in a destination of exactly the copied size. *)
Lemma memcpy_fresh (src : list Z) soff n :
  0 <= n -> 0 <= soff -> soff + n <= zlen src ->
  memcpy_at (replicate (Z.to_nat n) 0) 0 src soff n = Ok (slice soff n src).
Proof.
  intros. rewrite memcpy_at_ok by zlia. f_equal.
  pose proof (zlen_slice soff n src ltac:(lia) ltac:(lia) ltac:(lia)) as Hl.
  unfold splice. rewrite Hl. unfold ztake, zdrop. cbn [take].
  rewrite drop_ge by zlia. by rewrite app_nil_r.
Qed.

Lemma read_loop_spec fuel rb dst len :
  rb_inv rb -> 0 <= len < 2 ^ 32 -> (Z.to_nat len < fuel)%nat ->
  let n := Z.min len (rb_count rb) in
  exists rb',
    read_loop fuel rb dst len =
      Ok (rb', (fun out => out ++ ztake n (rb_contents rb)) <$> dst, len - n) /\
    rb_inv rb' /\ rb_contents rb' = zdrop n (rb_contents rb) /\
    buffer_size rb' = buffer_size rb /\ write_ptr rb' = write_ptr rb.
Proof.
  revert rb dst len. induction fuel as [|fuel IH]; intros rb dst len Hinv Hlen Hf n; [lia|].
  cbn [read_loop]. pose proof (rb_count_bounds rb Hinv).
  assert (Hstop : n = 0 ->
    Ok (rb, dst, len) = Ok (rb, (fun out => out ++ ztake n (rb_contents rb)) <$> dst, len - n) /\
    rb_contents rb = zdrop n (rb_contents rb)).
  { intros ->. rewrite Z.sub_0_r. destruct dst; cbn; rewrite ?app_nil_r; done. }
  destruct (Z.ltb_spec 0 len) as [Hpos|Hz].
  2: { destruct Hstop as [-> Hd]; [lia|]. by exists rb. }
  destruct (Z.eqb_spec (read_ptr rb) (write_ptr rb)) as [He|Hne].
  { assert (rb_count rb = 0) by (rb_cases; lia).
    destruct Hstop as [-> Hd]; [lia|]. by exists rb. }
  set (room := if write_ptr rb <=? read_ptr rb then u32 (buffer_size rb - read_ptr rb)
               else u32 (write_ptr rb - read_ptr rb)).
  assert (Hroom : room = (if write_ptr rb <=? read_ptr rb then buffer_size rb - read_ptr rb
                          else write_ptr rb - read_ptr rb)).
  { unfold room. destruct Hinv. rb_cases; rewrite u32_small; lia. }
  set (rl := Z.min len room).
  assert (Hrl : 0 < rl <= room) by (destruct Hinv; rb_cases; lia).
  pose proof (read_chunk rb rl Hinv ltac:(lia) ltac:(lia) Hne) as (Hinv' & Hn' & Hc').
  assert (Hs : zlen (slice (read_ptr rb) rl (data_of (rb_buffer rb))) = rl).
  { apply zlen_slice; destruct Hinv; rb_cases; lia. }
  match goal with |- context [read_loop fuel ?r _ _] => set (rb1 := r) in * end.
  set (c := slice (read_ptr rb) rl (data_of (rb_buffer rb))) in *.
  assert (Hdst : match dst with
                 | Some out => c0 ← memcpy_at (replicate (Z.to_nat rl) 0) 0
                                 (data_of (rb_buffer rb)) (read_ptr rb) rl;
                               Ok (Some (out ++ c0))
                 | None => Ok None
                 end = Ok ((fun out => out ++ c) <$> dst)).
  { destruct dst; [|done]. rewrite memcpy_fresh; [done|..]; destruct Hinv; rb_cases; lia. }
  rewrite Hdst. cbn [mbind outcome_bind].
  destruct (Z.eqb_spec (buffer_size rb) 0); [destruct Hinv; lia|].
  destruct (IH rb1 ((fun out => out ++ c) <$> dst) (len - rl) Hinv' ltac:(lia) ltac:(lia))
    as (rb' & -> & Hi & Hcc & Hb & Hw).
  change (buffer_size rb1) with (buffer_size rb) in *. rewrite Hn' in *.
  assert (Hrc : rl <= rb_count rb) by (pose proof (rb_count_bounds rb1 Hinv'); lia).
  exists rb'. split_and!; try done.
  - do 2 f_equal; [|lia]. f_equal. destruct dst; cbn; [|done]. f_equal.
    rewrite <- app_assoc, Hc'. f_equal. unfold ztake.
    replace (Z.to_nat n) with (length c + Z.to_nat (Z.min (len - rl) (rb_count rb - rl)))%nat
      by zlia. by rewrite take_app_add.
  - rewrite Hcc, Hc'. unfold zdrop.
    replace (Z.to_nat n) with (length c + Z.to_nat (Z.min (len - rl) (rb_count rb - rl)))%nat
      by zlia. by rewrite drop_app_add.
Qed.

(** ** Theorems *)

Lemma rb_write_spec rb src len :
  rb_inv rb -> 0 <= len < 2 ^ 32 -> len <= zlen src ->
  exists rb', ringbuffer_write rb src len =
      Ok (rb', Z.min len (ringbuffer_unused rb)) /\
    rb_inv rb' /\
    rb_contents rb' = rb_contents rb ++ ztake (Z.min len (ringbuffer_unused rb)) src /\
    ringbuffer_capacity rb' = ringbuffer_capacity rb.
Proof.
  intros Hinv Hlen Hsrc. rewrite rb_unused_room by done.
  destruct (write_loop_spec (S (Z.to_nat len)) rb src 0 len Hinv ltac:(lia) Hlen
              ltac:(lia) ltac:(lia)) as (rb' & Hw & Hi & Hc & Hb & _).
  exists rb'. unfold ringbuffer_write, ringbuffer_capacity. rewrite Hw, Hb.
  split_and!; try done. cbn. do 2 f_equal. lia.
Qed.

Lemma rb_read_spec rb want len :
  rb_inv rb -> 0 <= len < 2 ^ 32 ->
  let n := Z.min len (ringbuffer_used rb) in
  exists rb', ringbuffer_read rb want len =
      Ok (rb', if want : bool then Some (ztake n (rb_contents rb)) else None, n) /\
    rb_inv rb' /\ rb_contents rb' = zdrop n (rb_contents rb) /\
    ringbuffer_capacity rb' = ringbuffer_capacity rb.
Proof.
  intros Hinv Hlen. rewrite rb_used_count by done.
  destruct (read_loop_spec (S (Z.to_nat len)) rb (if want then Some [] else None) len
              Hinv Hlen ltac:(lia)) as (rb' & Hr & Hi & Hc & Hb & _).
  exists rb'. unfold ringbuffer_read, ringbuffer_capacity. rewrite Hr, Hb.
  split_and!; try done. cbn. do 2 f_equal; [|lia]. f_equal. by destruct want.
Qed.

(** What is queued and what still fits make up the capacity. *)
Lemma rb_room_contents rb :
  rb_inv rb -> ringbuffer_unused rb = ringbuffer_capacity rb - zlen (rb_contents rb) /\
    ringbuffer_used rb = zlen (rb_contents rb) /\ 0 <= ringbuffer_unused rb < 2 ^ 31 /\
    ringbuffer_capacity rb = buffer_size rb - 1.
Proof.
  intros Hinv. rewrite rb_unused_room, rb_contents_len, rb_used_count by done.
  pose proof (rb_count_bounds _ Hinv). destruct Hinv. unfold ringbuffer_capacity.
  rewrite u32_small by lia. lia.
Qed.

(** What fits is queued whole. *)
Lemma rb_enqueue rb src :
  rb_inv rb -> zlen (rb_contents rb) + zlen src <= ringbuffer_capacity rb ->
  exists rb', ringbuffer_write rb src (zlen src) = Ok (rb', zlen src) /\ rb_inv rb' /\
    rb_contents rb' = rb_contents rb ++ src /\ ringbuffer_capacity rb' = ringbuffer_capacity rb.
Proof.
  intros Hi Hroom. destruct (rb_room_contents _ Hi) as (Hu & _ & Hb & _).
  destruct (rb_write_spec rb src (zlen src) Hi) as (rb' & -> & Hi' & Hc & Hcap); [zlia|lia|].
  rewrite Z.min_l in Hc |- * by lia. rewrite ztake_all in Hc by lia. by exists rb'.
Qed.

Lemma rb_isempty_contents rb :
  rb_inv rb -> ringbuffer_isempty rb = bool_decide (rb_contents rb = []).
Proof.
  intros Hinv. pose proof (rb_contents_len _ Hinv) as Hl. unfold ringbuffer_isempty.
  assert (Hz : rb_contents rb = [] <-> rb_count rb = 0).
  { rewrite <- Hl. destruct (rb_contents rb); [done|]. split; [done|zlia]. }
  rewrite (bool_decide_ext _ _ Hz). destruct Hinv. unfold rb_count in *.
  destruct (Z.ltb_spec (write_ptr rb) (read_ptr rb)), (Z.eqb_spec (write_ptr rb) (read_ptr rb)),
    (bool_decide_reflect (buffer_size rb - read_ptr rb + write_ptr rb = 0)),
    (bool_decide_reflect (write_ptr rb - read_ptr rb = 0)); try lia; done.
Qed.

(** [ringbuffer_write] always returns, stays inside the buffer, and enqueues
    exactly the longest prefix of the caller's bytes that fits: the queue is
    bounded by the capacity and nothing already queued is lost or reordered. *)
Theorem ringbuffer_write_enqueues rb src len :
  rb_inv rb -> 0 <= len < 2 ^ 32 -> len <= zlen src ->
  exists rb', ringbuffer_write rb src len =
      Ok (rb', Z.min len (ringbuffer_unused rb)) /\
    rb_inv rb' /\
    rb_contents rb' = rb_contents rb ++ ztake (Z.min len (ringbuffer_unused rb)) src /\
    ringbuffer_capacity rb' = ringbuffer_capacity rb.
Proof. apply rb_write_spec. Qed.

(** [ringbuffer_read] always returns and dequeues exactly the first
    [min len used] bytes in the order they were written; with a NULL buffer it
    discards the same bytes. *)
Theorem ringbuffer_read_dequeues rb want len :
  rb_inv rb -> 0 <= len < 2 ^ 32 ->
  let n := Z.min len (ringbuffer_used rb) in
  exists rb', ringbuffer_read rb want len =
      Ok (rb', if want : bool then Some (ztake n (rb_contents rb)) else None, n) /\
    rb_inv rb' /\ rb_contents rb' = zdrop n (rb_contents rb) /\
    ringbuffer_capacity rb' = ringbuffer_capacity rb.
Proof. apply rb_read_spec. Qed.

(** A queue of six bytes, the size [ringbuffer_test] uses. *)
Definition rb_sample : ringbuffer :=
  mkRingbuffer (Some (Block 64 (replicate 6%nat 0))) 6 4 2.

Lemma rb_sample_inv : rb_inv rb_sample.
Proof. by constructor. Qed.

Lemma ringbuffer_write_enqueues_witness :
  rb_inv rb_sample /\
  exists rb', ringbuffer_write rb_sample [7; 8] 2 = Ok (rb', 1) /\
    rb_contents rb' = [0; 0; 0; 0; 7].
Proof.
  split; [apply rb_sample_inv|].
  destruct (ringbuffer_write_enqueues rb_sample [7; 8] 2) as (rb' & Hw & _ & Hc & _);
    [apply rb_sample_inv|lia|vm_compute; discriminate|].
  exists rb'. split; [exact Hw|exact Hc].
Defined.

Lemma ringbuffer_read_dequeues_witness :
  exists rb', ringbuffer_read rb_sample true 3 = Ok (rb', Some [0; 0; 0], 3) /\
    rb_contents rb' = [0].
Proof.
  destruct (ringbuffer_read_dequeues rb_sample true 3) as (rb' & Hr & _ & Hc & _);
    [apply rb_sample_inv|lia|].
  exists rb'. split; [exact Hr|exact Hc].
Defined.
