(* ===== verification/KMalloc.v ===== *)
(** kernel/kmalloc.c: the kernel heap, a first-fit allocator over a singly
    linked list of in-band headers.

    The memory is modelled as far as the allocator reads it: [hmem] maps the
    address of every readable header to its fields.  Writing a header or
    handing bytes to a caller destroys every header whose 20 bytes it touches
    ([clobber]), so a theorem that an operation returns [Ok] also says that
    user data and headers never overlap.  [ksbrk], which hands out pages, is a
    class; its promise is that the pages are fresh, mapped and below 4 GiB. *)

From stdpp Require Import base numbers list gmap.
From Stdlib Require Import ZArith Lia.
From S2P Require Import Prelude Alloc.

Open Scope Z_scope.

Definition NEW_ALLOC_SIZE : Z := 0x40000.
Definition IS_FREE : Z := 1.
Definition IS_FINAL : Z := 2.
Definition MAGIC : Z := 0xdde51ab9410268b1.
(** [sizeof(MallocHeader)]: u64 magic, u32 size, u8 flags, padding, pointer. *)
Definition HDR : Z := 20.

Record MallocHeader : Type := mkHeader {
  h_magic : Z;
  h_size : Z;
  h_flags : Z;
  h_n : Z
}.

(** ** The page source *)

Class Sbrk (S : Type) : Type := {
  ksbrk : Z -> S -> option Z * S;
  brk_top : S -> Z;
  brk_mapped : S -> Z -> Prop
}.

Class SbrkOk (S : Type) `{Sbrk S} : Prop := {
  ksbrk_grows : forall n s r s', ksbrk n s = (r, s') -> brk_top s <= brk_top s';
  ksbrk_limit : forall n s r s',
    ksbrk n s = (r, s') -> brk_top s <= 2 ^ 32 -> brk_top s' <= 2 ^ 32;
  ksbrk_keeps : forall n s r s' x,
    ksbrk n s = (r, s') -> brk_mapped s x -> brk_mapped s' x;
  ksbrk_fresh : forall n s p s', 0 <= n < 2 ^ 32 ->
    ksbrk n s = (Some p, s') ->
    0 < p /\ brk_top s <= p /\ p + n <= brk_top s' /\ brk_top s' <= 2 ^ 32 /\
    (forall x, p <= x < p + n -> brk_mapped s' x)
}.

Section Heap.
Context {S : Type} `{SbrkOk S}.

Record heap : Type := mkHeap {
  hmem : gmap Z MallocHeader;
  head : Z;
  final : Z;
  total_heap_size : Z;
  brk : S
}.

(** The headers that survive a write to the bytes [lo, hi). *)
Definition clobber (lo hi : Z) (m : gmap Z MallocHeader) : gmap Z MallocHeader :=
  filter (fun ah => hi <= lo \/ ah.1 + HDR <= lo \/ hi <= ah.1) m.

Definition put (a : Z) (hd : MallocHeader) (h : heap) : heap :=
  mkHeap (<[a := hd]> (clobber a (a + HDR) (hmem h))) (head h) (final h)
    (total_heap_size h) (brk h).

Definition get (a : Z) (h : heap) : outcome MallocHeader := deref (hmem h !! a).

(** A write of [n] payload bytes at [p]. *)
Definition fill (p n : Z) (h : heap) : heap :=
  mkHeap (clobber p (p + n) (hmem h)) (head h) (final h) (total_heap_size h) (brk h).

Definition set_head (p : Z) (h : heap) : heap :=
  mkHeap (hmem h) p (final h) (total_heap_size h) (brk h).
Definition set_final (p : Z) (h : heap) : heap :=
  mkHeap (hmem h) (head h) p (total_heap_size h) (brk h).
Definition set_brk (n : Z) (b : S) (h : heap) : heap :=
  mkHeap (hmem h) (head h) (final h) (u32 (total_heap_size h + n)) b.

Definition delta_page (a : Z) : Z := 4096 - a mod 4096.

Definition init_heap (h : heap) : bool * heap :=
  match ksbrk NEW_ALLOC_SIZE (brk h) with
  | (None, b) => (false, set_head 0 (set_brk 0 b h))
  | (Some p, b) =>
      let h := set_brk (NEW_ALLOC_SIZE - HDR) b (set_head p h) in
      (true, set_final p
         (put p (mkHeader MAGIC (NEW_ALLOC_SIZE - HDR) (Z.lor IS_FREE IS_FINAL) 0) h))
  end.

Definition add_heap_memory (min_desired : Z) (h : heap) : outcome (bool * heap) :=
  let min_desired := u32 (min_desired + HDR) in
  let allocation_size := Z.max min_desired NEW_ALLOC_SIZE in
  let allocation_size := u32 (allocation_size + delta_page allocation_size) in
  let allocation_size := u32 (allocation_size + NEW_ALLOC_SIZE) in
  match ksbrk allocation_size (brk h) with
  | (None, b) => Ok (false, set_brk 0 b h)
  | (Some p, b) =>
      let h := set_brk (u32 (allocation_size - HDR)) b h in
      f ← get (final h) h;
      if is_set (h_flags f) IS_FREE && (p =? u32 (final h + HDR + h_size f)) then
        Ok (true, put (final h)
              (mkHeader (h_magic f) (u32 (h_size f + (allocation_size - HDR)))
                 (h_flags f) (h_n f)) h)
      else
        let h := put p (mkHeader MAGIC (u32 (allocation_size - HDR))
                          (Z.lor IS_FREE IS_FINAL) 0) h in
        f ← get (final h) h;
        let h := put (final h) (mkHeader (h_magic f) (h_size f) (h_flags f) p) h in
        Ok (true, set_final p h)
  end.

Definition next_header (a : Z) (h : heap) : outcome Z :=
  hd ← get a h;
  c_assert (h_magic hd =? MAGIC) ;;
  if h_n hd =? 0 then Ok 0
  else
    nx ← get (h_n hd) h;
    c_assert (h_magic nx =? MAGIC) ;;
    Ok (h_n hd).

Definition next_close_header (a : Z) (h : heap) : outcome Z :=
  c_assert (negb (a =? 0)) ;;
  hd ← get a h;
  if is_set (h_flags hd) IS_FINAL then Ok 0 else next_header a h.

Definition merge_headers (b : Z) (h : heap) : outcome (bool * heap) :=
  hb ← get b h;
  if negb (is_set (h_flags hb) IS_FREE) then Ok (false, h) else
  n ← next_close_header b h;
  if n =? 0 then Ok (false, h) else
  hn ← get n h;
  if negb (is_set (h_flags hn) IS_FREE) then Ok (false, h) else
  let h := put b (mkHeader (h_magic hb) (u32 (h_size hb + h_size hn))
                    (Z.lor (h_flags hb) (Z.land (h_flags hn) IS_FINAL)) (h_n hn)) h in
  Ok (true, if n =? final h then set_final b h else h).

(** [for (; merge_headers(p););] *)
Fixpoint merge_all (fuel : nat) (p : Z) (h : heap) : outcome heap :=
  match fuel with
  | O => NoFuel
  | Datatypes.S fuel =>
      '(again, h) ← merge_headers p h;
      if again : bool then merge_all fuel p h else Ok h
  end.

(** The loop of [find_free_entry]; [s] already includes the new header. *)
Fixpoint find_loop (fuel : nat) (s p : Z) (h : heap) : outcome (Z * heap) :=
  match fuel with
  | O => NoFuel
  | Datatypes.S fuel' =>
    if p =? 0 then Ok (0, h) else
    hd ← get p h;
    c_assert (h_magic hd =? MAGIC) ;;
    if negb (is_set (h_flags hd) IS_FREE) then
      q ← next_header p h; find_loop fuel' s q h
    else if h_size hd <? s then
      h ← merge_all fuel p h;
      hd ← get p h;
      if s <=? h_size hd then Ok (p, h)
      else q ← next_header p h; find_loop fuel' s q h
    else Ok (p, h)
  end.

(** Every header of the list is a key of [hmem], so its size bounds both loops. *)
Definition chain_fuel (h : heap) : nat := Datatypes.S (size (hmem h)).

Definition find_free_entry (s : Z) (h : heap) : outcome (Z * heap) :=
  let s := u32 (s + HDR) in
  let '(ok, h) := if head h =? 0 then init_heap h else (true, h) in
  if ok : bool then find_loop (chain_fuel h) s (head h) h else Ok (0, h).

(** The part of [int_kmalloc] after a free entry was found. *)
Definition split_entry (free_entry n : Z) (h : heap) : outcome (Z * heap) :=
  fe ← get free_entry h;
  let rc := free_entry + HDR in
  let new_entry := u32 (rc + n) in
  let h := put new_entry
             (mkHeader MAGIC (u32 (h_size fe - n - HDR)) (h_flags fe) (h_n fe)) h in
  let h := if free_entry =? final h then set_final new_entry h else h in
  '(_, h) ← merge_headers new_entry h;
  Ok (rc, put free_entry (mkHeader MAGIC n 0 new_entry) h).

(** [int_kmalloc] and [kmalloc] call each other after the heap has grown;
    [fuel] bounds that recursion. *)
Fixpoint int_kmalloc_fuel (fuel : nat) (s : Z) (h : heap) : outcome (Z * heap) :=
  match fuel with
  | O => NoFuel
  | Datatypes.S fuel =>
    '(free_entry, h) ← find_free_entry s h;
    if free_entry =? 0 then
      '(ok, h) ← add_heap_memory s h;
      if ok : bool then
        '(rc, h) ← int_kmalloc_fuel fuel s h;
        Ok (rc, if rc =? 0 then h else fill rc s h)
      else Ok (0, h)
    else split_entry free_entry s h
  end.

Definition int_kmalloc (s : Z) (h : heap) : outcome (Z * heap) :=
  int_kmalloc_fuel 2 s h.

Definition hk_malloc (s : Z) (h : heap) : outcome (Z * heap) :=
  '(rc, h) ← int_kmalloc s h;
  Ok (rc, if rc =? 0 then h else fill rc s h).

Definition hk_free (p : Z) (h : heap) : outcome heap :=
  if p =? 0 then Ok h else
  let a := p - HDR in
  hd ← get a h;
  c_assert (h_magic hd =? MAGIC) ;;
  c_assert (negb (is_set (h_flags hd) IS_FREE)) ;;
  let h := fill p (h_size hd) h in
  let h := put a (mkHeader (h_magic hd) (h_size hd) (Z.lor (h_flags hd) IS_FREE) (h_n hd)) h in
  '(_, h) ← merge_headers a h;
  Ok h.

Definition get_mem_size (p : Z) (h : heap) : outcome Z :=
  if p =? 0 then Ok 0 else hd ← get (p - HDR) h; Ok (h_size hd).

Definition hk_realloc (p sz : Z) (h : heap) : outcome (Z * heap) :=
  if p =? 0 then hk_malloc sz h else
  l ← get_mem_size p h;
  if l =? sz then Ok (p, h) else
  if sz <? l then
    hd ← get (p - HDR) h;
    Ok (p, put (p - HDR) (mkHeader (h_magic hd) sz (h_flags hd) (h_n hd)) h)
  else
    '(rc, h) ← hk_malloc sz h;
    if rc =? 0 then Ok (0, h) else
    let h := fill rc (Z.min l sz) h in
    h ← hk_free p h;
    Ok (rc, h).

Definition MUL_NO_OVERFLOW : Z := 0x10000.
Definition SIZE_MAX : Z := 0xFFFFFFFF.

(** The guard shared by [kreallocarray], [krecalloc] and [kcalloc]. *)
Definition mul_overflows (nmemb sz : Z) : bool :=
  ((MUL_NO_OVERFLOW <=? nmemb) || (MUL_NO_OVERFLOW <=? sz)) &&
  (0 <? nmemb) && (SIZE_MAX / nmemb <? sz).

Definition hk_reallocarray (p nmemb sz : Z) (h : heap) : outcome (Z * heap) :=
  if mul_overflows nmemb sz then Ok (0, h) else hk_realloc p (u32 (nmemb * sz)) h.

Definition hk_allocarray (nmemb sz : Z) (h : heap) : outcome (Z * heap) :=
  hk_reallocarray 0 nmemb sz h.

Definition hk_calloc (nelem elsize : Z) (h : heap) : outcome (Z * heap) :=
  if mul_overflows nelem elsize then Ok (0, h) else
  '(rc, h) ← int_kmalloc (u32 (nelem * elsize)) h;
  Ok (rc, if rc =? 0 then h else fill rc (u32 (nelem * elsize)) h).

Definition hk_recalloc (p nelem elsize : Z) (h : heap) : outcome (Z * heap) :=
  if mul_overflows nelem elsize then Ok (0, h) else
  if p =? 0 then hk_calloc nelem elsize h else
  let new_size := u32 (nelem * elsize) in
  '(rc, h) ← int_kmalloc new_size h;
  if rc =? 0 then Ok (0, h) else
  l ← get_mem_size p h;
  let h := fill rc new_size h in
  let h := fill rc (Z.min l new_size) h in
  h ← hk_free p h;
  Ok (rc, h).

(** ** The list of blocks in memory *)

Abbreviation blocks := (list (Z * MallocHeader)).

Definition next_addr (l : blocks) : Z :=
  match l with [] => 0 | (a, _) :: _ => a end.

Definition mapped_range (b : S) (lo hi : Z) : Prop :=
  forall x, lo <= x < hi -> brk_mapped b x.

Definition is_free (hd : MallocHeader) : bool := is_set (h_flags hd) IS_FREE.
Definition is_final (hd : MallocHeader) : bool := is_set (h_flags hd) IS_FINAL.

(** Where the next block may start, and that nothing unmapped lies between two
    blocks that [merge_headers] may join; the last block is marked [IS_FINAL]. *)
Definition gap_ok (b : S) (a : Z) (hd : MallocHeader) (r : blocks) : Prop :=
  match r with
  | [] => is_final hd = true
  | (c, _) :: _ =>
      a + HDR + h_size hd <= c /\ (is_final hd = false -> mapped_range b a c)
  end.

Fixpoint wf_chain (b : S) (l : blocks) : Prop :=
  match l with
  | [] => True
  | (a, hd) :: r =>
      (0 < a /\ h_magic hd = MAGIC /\ 0 <= h_size hd /\
       a + HDR + h_size hd <= brk_top b /\
       mapped_range b a (a + HDR + h_size hd) /\ h_n hd = next_addr r /\
       gap_ok b a hd r) /\ wf_chain b r
  end.

Definition stored (m : gmap Z MallocHeader) (l : blocks) : Prop :=
  Forall (fun ah => m !! ah.1 = Some ah.2) l.

(** The heap [h] holds exactly the blocks [l], in address order. *)
Record heap_inv (h : heap) (l : blocks) : Prop := {
  hi_stored : stored (hmem h) l;
  hi_head : head h = next_addr l;
  hi_final : last (l.*1) = Some (final h);
  hi_wf : wf_chain (brk h) l;
  hi_top : brk_top (brk h) <= 2 ^ 32
}.

(** The allocated objects: payload address and size of every used block. *)
Definition live_of (ah : Z * MallocHeader) : option (Z * Z) :=
  if is_free ah.2 then None else Some (ah.1 + HDR, h_size ah.2).
Definition live (l : blocks) : list (Z * Z) := omap live_of l.

(** *** Flags *)

Lemma is_set_free x : is_set x IS_FREE = Z.testbit x 0.
Proof. apply (is_set_bit x 0). lia. Qed.
Lemma is_set_final x : is_set x IS_FINAL = Z.testbit x 1.
Proof. apply (is_set_bit x 1). lia. Qed.

(** *** Chains *)

Lemma wf_chain_app b l1 l2 : wf_chain b (l1 ++ l2) -> wf_chain b l2.
Proof. induction l1 as [|[a hd] l1 IH]; [done|]. intros [_ Hr]. auto. Qed.

Lemma next_addr_app l1 s s' :
  next_addr s' = next_addr s -> s <> [] -> s' <> [] ->
  next_addr (l1 ++ s') = next_addr (l1 ++ s).
Proof. by destruct l1 as [|[? ?] ?]. Qed.

(** The part of a chain behind a block may be replaced by another chain that
    starts at the same address. *)
Lemma wf_chain_replace b l1 s s' :
  wf_chain b (l1 ++ s) -> next_addr s' = next_addr s -> s <> [] -> s' <> [] ->
  wf_chain b s' -> wf_chain b (l1 ++ s').
Proof.
  intros Hwf Hn Hs Hs' Hwf'. induction l1 as [|[a hd] l1 IH]; [done|].
  destruct Hwf as [(H1 & H2 & H3 & H4 & H5 & H6 & H7) Hr].
  split; [|auto]. split_and!; try done.
  - rewrite H6. symmetry. by apply next_addr_app.
  - destruct l1 as [|[c ?] ?]; [|done]. cbn in *.
    destruct s as [|[c ?] s]; [done|]. destruct s' as [|[c' ?] s']; [done|].
    cbn in Hn. by subst.
Qed.

(** Blocks later in the chain start behind the end of the earlier ones. *)
Lemma wf_chain_above b a hd r :
  wf_chain b ((a, hd) :: r) ->
  Forall (fun ch => a + HDR + h_size hd <= ch.1) r.
Proof.
  revert a hd. induction r as [|[c hc] r IH]; intros a hd Hwf; [constructor|].
  destruct Hwf as [(_ & _ & _ & _ & _ & _ & Hgap) Hr]. cbn in Hgap.
  constructor; [cbn; lia|].
  eapply Forall_impl; [by apply IH|]. cbn. intros ch Hc.
  destruct Hr as [(_ & _ & ? & _) _]. unfold HDR in *. lia.
Qed.

Lemma wf_chain_below b l1 a hd r :
  wf_chain b (l1 ++ (a, hd) :: r) ->
  Forall (fun ch => ch.1 + HDR + h_size ch.2 <= a /\ 0 <= h_size ch.2) l1.
Proof.
  induction l1 as [|[c hc] l1 IH]; intros Hwf; [constructor|].
  pose proof (wf_chain_above _ _ _ _ Hwf) as Hab.
  destruct Hwf as [(_ & _ & ? & _) Hr]. constructor; [|by apply IH].
  cbn. rewrite Forall_app in Hab. destruct Hab as [_ Hab].
  apply Forall_cons_1 in Hab. cbn in Hab. lia.
Qed.

Lemma wf_chain_last b a hd r f :
  wf_chain b ((a, hd) :: r) -> last (r.*1) = Some f -> a + HDR + h_size hd <= f.
Proof.
  intros Hw Hl. pose proof (wf_chain_above _ _ _ _ Hw) as Hab.
  apply last_Some_elem_of, list_elem_of_fmap in Hl as ([c hc] & -> & Hin).
  rewrite Forall_forall in Hab. by apply (Hab _ Hin).
Qed.

Lemma wf_chain_NoDup b l : wf_chain b l -> NoDup (l.*1).
Proof.
  induction l as [|[a hd] r IH]; [constructor|]. intros Hw.
  pose proof (wf_chain_above _ _ _ _ Hw) as Hab.
  destruct Hw as [(_ & _ & ? & _) Hr]. cbn. apply NoDup_cons. split; [|auto].
  intros ([c hc] & ? & Hin)%list_elem_of_fmap. rewrite Forall_forall in Hab.
  specialize (Hab _ Hin). cbn in *. unfold HDR in *. lia.
Qed.

(** *** Memory *)

Lemma clobber_lookup lo hi m a hd :
  m !! a = Some hd -> hi <= lo \/ a + HDR <= lo \/ hi <= a ->
  clobber lo hi m !! a = Some hd.
Proof. intros Hm Hd. apply map_lookup_filter_Some. by split. Qed.

Lemma stored_clobber lo hi m l :
  stored m l -> Forall (fun ah => hi <= lo \/ ah.1 + HDR <= lo \/ hi <= ah.1) l ->
  stored (clobber lo hi m) l.
Proof.
  intros Hs Hd. unfold stored in *. rewrite Forall_forall in Hs, Hd |- *.
  intros [a hd] Hin. apply clobber_lookup; [apply (Hs _ Hin)|apply (Hd _ Hin)].
Qed.

Lemma stored_put m l a hd :
  stored m l -> Forall (fun ah => ah.1 + HDR <= a \/ a + HDR <= ah.1) l ->
  stored (<[a := hd]> (clobber a (a + HDR) m)) l.
Proof.
  intros Hs Hd. unfold stored in *. rewrite Forall_forall in Hs, Hd |- *.
  intros [c hc] Hin. specialize (Hs _ Hin). specialize (Hd _ Hin). cbn in *.
  rewrite lookup_insert_ne by (unfold HDR in *; lia).
  apply clobber_lookup; [done|lia].
Qed.

(** Overwriting the header of one block leaves the headers of the others. *)
Lemma stored_update b m l1 a hd hd' r :
  wf_chain b (l1 ++ (a, hd) :: r) -> stored m (l1 ++ (a, hd) :: r) ->
  stored (<[a := hd']> (clobber a (a + HDR) m)) (l1 ++ (a, hd') :: r).
Proof.
  intros Hwf Hs. pose proof (wf_chain_below _ _ _ _ _ Hwf) as Hb.
  pose proof (wf_chain_app _ _ _ Hwf) as Hwf2.
  pose proof (wf_chain_above _ _ _ _ Hwf2) as Ha.
  destruct Hwf2 as [(_ & _ & Hsz & _) _].
  unfold stored in *. apply Forall_app in Hs as [Hs1 Hs2].
  apply Forall_cons in Hs2 as [_ Hs2].
  apply Forall_app. split; [|apply Forall_cons; split].
  - apply stored_put; [done|]. eapply Forall_impl; [exact Hb|]. cbn. lia.
  - cbn. apply lookup_insert_eq.
  - apply stored_put; [done|]. eapply Forall_impl; [exact Ha|]. cbn. lia.
Qed.

Lemma heap_inv_get h l1 a hd r :
  heap_inv h (l1 ++ (a, hd) :: r) -> get a h = Ok hd.
Proof.
  intros [Hs _ _ _ _]. unfold stored in Hs. apply Forall_app in Hs as [_ Hs].
  apply Forall_cons_1 in Hs as [Hs _]. cbn in Hs. unfold get. by rewrite Hs.
Qed.

Lemma wf_chain_mid b l1 a hd r :
  wf_chain b (l1 ++ (a, hd) :: r) ->
  0 < a /\ h_magic hd = MAGIC /\ 0 <= h_size hd /\ a + HDR + h_size hd <= brk_top b /\
  mapped_range b a (a + HDR + h_size hd) /\ h_n hd = next_addr r /\ gap_ok b a hd r.
Proof. intros Hwf. by destruct (wf_chain_app _ _ _ Hwf) as [? _]. Qed.

Lemma live_app l1 l2 : live (l1 ++ l2) = live l1 ++ live l2.
Proof. apply omap_app. Qed.

Lemma live_cons a hd r :
  live ((a, hd) :: r) =
    (if is_free hd then [] else [(a + HDR, h_size hd)]) ++ live r.
Proof. cbn. unfold live_of; cbn. by destruct (is_free hd). Qed.

Lemma last_fst_replace (l1 s s' : blocks) :
  s <> [] -> s' <> [] -> last (s'.*1) = last (s.*1) ->
  last ((l1 ++ s').*1) = last ((l1 ++ s).*1).
Proof.
  intros Hs Hs' He. rewrite !fmap_app.
  destruct s as [|x s], s' as [|x' s']; try done.
  rewrite !last_app, He. cbn. done.
Qed.

(** *** Segments

    [merge_headers] runs while the list is being rebuilt; what it needs is that
    the rest of the list, from its argument on, is well formed. *)

Record seg_inv (h : heap) (l : blocks) : Prop := {
  si_stored : stored (hmem h) l;
  si_final : last (l.*1) = Some (final h);
  si_wf : wf_chain (brk h) l;
  si_top : brk_top (brk h) <= 2 ^ 32
}.

(** [h'] differs from [h] only at [a] and behind it. *)
Record frame (a : Z) (h h' : heap) : Prop := {
  fr_head : head h' = head h;
  fr_brk : brk h' = brk h;
  fr_stored : forall l, Forall (fun ah => ah.1 + HDR <= a) l ->
    stored (hmem h) l -> stored (hmem h') l
}.

Lemma frame_refl a h : frame a h h.
Proof. by split. Qed.

Lemma frame_trans a h1 h2 h3 : frame a h1 h2 -> frame a h2 h3 -> frame a h1 h3.
Proof. intros [? ? ?] [? ? ?]. split; [congruence..|]. auto. Qed.

Lemma frame_put a hd h : frame a h (put a hd h).
Proof.
  split; [done..|]. intros l Hl Hs. cbn. apply stored_put; [done|].
  eapply Forall_impl; [exact Hl|]. cbn. lia.
Qed.

Lemma frame_final a p h : frame a h (set_final p h).
Proof. by split. Qed.

Lemma heap_inv_seg h l1 s : heap_inv h (l1 ++ s) -> s <> [] -> seg_inv h s.
Proof.
  intros [Hs Hh Hf Hw Ht] Hne. split; [|  |by eapply wf_chain_app|done].
  - by apply Forall_app in Hs as [_ ?].
  - rewrite fmap_app, last_app in Hf. destruct s as [|x s]; [done|].
    cbn [fmap list_fmap] in *. rewrite last_cons in *. destruct (last _); done.
Qed.

Lemma heap_inv_rejoin h h' l1 s s' :
  heap_inv h (l1 ++ s) -> s <> [] -> s' <> [] -> next_addr s' = next_addr s ->
  seg_inv h' s' -> frame (next_addr s) h h' -> heap_inv h' (l1 ++ s').
Proof.
  intros [Hs Hh Hf Hw Ht] Hne Hne' Hn [Hs' Hf' Hw' Ht'] [Fh Fb Fs]. split.
  - apply Forall_app in Hs as [Hs _]. apply Forall_app. split; [|done].
    apply Fs; [|done]. destruct s as [|[a hd] s]; [done|].
    eapply Forall_impl; [by eapply wf_chain_below|]. cbn. lia.
  - rewrite Fh, Hh. symmetry. by apply next_addr_app.
  - rewrite fmap_app, last_app, Hf'. done.
  - rewrite Fb in *. by eapply wf_chain_replace.
  - done.
Qed.

Lemma seg_get h a hd r : seg_inv h ((a, hd) :: r) -> get a h = Ok hd.
Proof.
  intros [Hs _ _ _]. apply Forall_cons_1 in Hs as [Hs _]. cbn in Hs.
  unfold get. by rewrite Hs.
Qed.

Lemma seg_tail h a hd c hc r :
  seg_inv h ((a, hd) :: (c, hc) :: r) -> seg_inv h ((c, hc) :: r).
Proof.
  intros [Hs Hf Hw Ht]. split; [by apply Forall_cons_1 in Hs as [_ ?]|done| |done].
  by destruct Hw.
Qed.

Lemma next_header_spec h a hd r :
  seg_inv h ((a, hd) :: r) -> next_header a h = Ok (next_addr r).
Proof.
  intros Hseg. unfold next_header. rewrite (seg_get _ _ _ _ Hseg).
  pose proof (si_wf _ _ Hseg) as [(_ & Hm & _ & _ & _ & Hn & _) Hr].
  cbn. rewrite Hm, Z.eqb_refl. cbn. rewrite Hn.
  destruct r as [|[c hc] r]; [done|]. cbn.
  apply seg_tail in Hseg. destruct Hr as [(Hc & Hmc & _) _].
  destruct (Z.eqb_spec c 0); [lia|].
  rewrite (seg_get _ _ _ _ Hseg). cbn. by rewrite Hmc, Z.eqb_refl.
Qed.

Lemma next_close_header_spec h a hd r :
  seg_inv h ((a, hd) :: r) ->
  next_close_header a h = Ok (if is_final hd then 0 else next_addr r).
Proof.
  intros Hseg. unfold next_close_header.
  pose proof (si_wf _ _ Hseg) as [(Ha & _) _].
  destruct (Z.eqb_spec a 0); [lia|]. cbn.
  rewrite (seg_get _ _ _ _ Hseg). cbn. fold (is_final hd).
  destruct (is_final hd); [done|]. by apply next_header_spec with (r := r) in Hseg.
Qed.

(** The header [merge_headers] writes over that of the first of two blocks. *)
Definition joined (hb hn : MallocHeader) : MallocHeader :=
  mkHeader (h_magic hb) (h_size hb + h_size hn)
    (Z.lor (h_flags hb) (Z.land (h_flags hn) IS_FINAL)) (h_n hn).

Lemma joined_free hb hn : is_free (joined hb hn) = is_free hb.
Proof.
  unfold is_free. rewrite !is_set_free. cbn [joined h_flags].
  rewrite Z.lor_spec, Z.land_spec. change (Z.testbit IS_FINAL 0) with false.
  by rewrite andb_false_r, orb_false_r.
Qed.

Lemma joined_final hb hn : is_final (joined hb hn) = is_final hb || is_final hn.
Proof.
  unfold is_final. rewrite !is_set_final. cbn [joined h_flags].
  rewrite Z.lor_spec, Z.land_spec. change (Z.testbit IS_FINAL 1) with true.
  by rewrite andb_true_r.
Qed.

Lemma wf_chain_joined b a hb c hn r :
  wf_chain b ((a, hb) :: (c, hn) :: r) -> is_final hb = false ->
  wf_chain b ((a, joined hb hn) :: r).
Proof.
  intros [(Ha & Hm & Hs & Ht & Hmp & Hn & Hg & Hgm)
          [(Hc & Hcm & Hcs & Hct & Hcmp & Hcn & Hcg) Hr]] Hf.
  specialize (Hgm Hf). unfold HDR in *.
  assert (Hmap : mapped_range b a (c + 20 + h_size hn)).
  { intros x Hx. destruct (Z.lt_ge_cases x c); [apply Hgm|apply Hcmp]; lia. }
  split; [|done]. unfold HDR. split_and!; try done; cbn [joined h_size]; try lia.
  - intros x Hx. apply Hmap. lia.
  - destruct r as [|[d hd] r]; cbn in *.
    + rewrite joined_final, Hcg. apply orb_true_r.
    + split; [lia|]. rewrite joined_final, Hf. intros Hf'. cbn in Hf'.
      destruct Hcg as [? Hcd]. specialize (Hcd Hf'). intros x Hx.
      destruct (Z.lt_ge_cases x c); [apply Hgm|apply Hcd]; lia.
Qed.

Lemma merge_headers_spec h a hb r :
  seg_inv h ((a, hb) :: r) ->
  merge_headers a h = Ok (false, h) \/
  exists c hn r' h', r = (c, hn) :: r' /\ is_free hb = true /\ is_free hn = true /\
    merge_headers a h = Ok (true, h') /\ frame a h h' /\
    seg_inv h' ((a, joined hb hn) :: r').
Proof.
  intros Hseg. unfold merge_headers. rewrite (seg_get _ _ _ _ Hseg). cbn.
  fold (is_free hb). destruct (is_free hb) eqn:Hfb; [cbn|by left].
  rewrite (next_close_header_spec _ _ _ _ Hseg). cbn.
  destruct (is_final hb) eqn:Hfin; [by left|].
  destruct r as [|[c hn] r]; [by left|]. cbn.
  pose proof (seg_tail _ _ _ _ _ _ Hseg) as Hseg'.
  pose proof (si_wf _ _ Hseg) as Hw. pose proof (si_top _ _ Hseg) as Htop.
  pose proof (wf_chain_joined _ _ _ _ _ _ Hw Hfin) as Hj.
  destruct (Hw) as [_ [(Hc & _ & Hcs & Hct & _) _]].
  destruct (Z.eqb_spec c 0); [lia|].
  rewrite (seg_get _ _ _ _ Hseg'). cbn. fold (is_free hn).
  destruct (is_free hn) eqn:Hfn; [cbn|by left]. right.
  assert (Hsz : u32 (h_size hb + h_size hn) = h_size hb + h_size hn).
  { destruct Hj as [(? & _ & Hjs & Hjt & _) _]. cbn in Hjs, Hjt.
    apply u32_small. unfold HDR in *. lia. }
  rewrite Hsz. fold (joined hb hn).
  eexists c, hn, r, _. split_and!; [done..| |].
  - destruct (c =? final h); [eapply frame_trans; [apply frame_put|apply frame_final]|].
    apply frame_put.
  - split.
    + destruct Hseg as [Hs _ _ _].
      assert (Hs' : stored (<[a := joined hb hn]> (clobber a (a + HDR) (hmem h)))
                ((a, joined hb hn) :: (c, hn) :: r))
        by (by eapply (stored_update _ _ [])).
      apply Forall_cons in Hs' as [Ha Hs']. apply Forall_cons in Hs' as [_ Hs'].
      by destruct (c =? final h); apply Forall_cons.
    + apply si_final in Hseg'. cbn in *. destruct (Z.eqb_spec c (final h)) as [->|Hne].
      * destruct r as [|[d hd] r]; [done|]. cbn in *. exfalso.
        pose proof (wf_chain_last _ _ hn ((d, hd) :: r) _ (proj2 Hw) Hseg'). unfold HDR in *. lia.
      * destruct r as [|[d hd] r]; [cbn in *; congruence|]. done.
    + by destruct (c =? final h).
    + by destruct (c =? final h).
Qed.

Definition small_free (s : Z) (ah : Z * MallocHeader) : Prop :=
  is_free ah.2 = true -> h_size ah.2 < s.

(** What any number of merges at [a] does to the segment behind it. *)
Record merged (a : Z) (h h' : heap) (hb hb' : MallocHeader) (r r' : blocks) : Prop := {
  mg_frame : frame a h h';
  mg_seg : seg_inv h' ((a, hb') :: r');
  mg_live : live r' = live r;
  mg_free : is_free hb' = is_free hb;
  mg_used : is_free hb = false -> hb' = hb;
  mg_len : (length r' <= length r)%nat;
  mg_grow : h_size hb <= h_size hb';
  mg_small : forall s, (is_free hb = true -> h_size hb' < s) ->
    Forall (small_free s) r' -> Forall (small_free s) r
}.

Lemma merged_refl a h hb r : seg_inv h ((a, hb) :: r) -> merged a h h hb hb r r.
Proof. by split. Qed.

Lemma merged_trans a h1 h2 h3 hb1 hb2 hb3 r1 r2 r3 :
  merged a h1 h2 hb1 hb2 r1 r2 -> merged a h2 h3 hb2 hb3 r2 r3 ->
  merged a h1 h3 hb1 hb3 r1 r3.
Proof.
  intros [F1 S1 L1 R1 U1 N1 G1 M1] [F2 S2 L2 R2 U2 N2 G2 M2].
  split; [by eapply frame_trans|done|congruence|congruence| |lia|lia|].
  { intros E. rewrite U2, U1; congruence. }
  intros s Hs HF. apply M1; [intros E; specialize (Hs E); lia|].
  apply M2; [by rewrite R1|done].
Qed.

Lemma merged_step h a hb r :
  seg_inv h ((a, hb) :: r) ->
  exists again h' hb' r', merge_headers a h = Ok (again, h') /\
    merged a h h' hb hb' r r' /\ (again = true -> (length r' < length r)%nat).
Proof.
  intros Hseg. destruct (merge_headers_spec _ _ _ _ Hseg)
    as [Hm|(c & hn & r' & h' & -> & Hb & Hn & Hm & Hf & Hs)].
  { exists false, h, hb, r. split_and!; [done|by apply merged_refl|done]. }
  exists true, h', (joined hb hn), r'. split_and!; [done| |cbn; lia].
  pose proof (si_wf _ _ Hseg) as [(_ & _ & Hbs & _) [(_ & _ & Hns & _) _]].
  split; try done; cbn.
  - unfold live_of. cbn. by rewrite Hn.
  - apply joined_free.
  - congruence.
  - lia.
  - lia.
  - intros s Hs' HF. constructor; [|done]. intros _. cbn.
    specialize (Hs' Hb). cbn in Hs'. lia.
Qed.

Lemma merge_all_spec fuel h a hb r :
  seg_inv h ((a, hb) :: r) -> (length r < fuel)%nat ->
  exists h' hb' r', merge_all fuel a h = Ok h' /\ merged a h h' hb hb' r r'.
Proof.
  revert h hb r. induction fuel as [|fuel IH]; intros h hb r Hseg Hf; [lia|].
  destruct (merged_step _ _ _ _ Hseg) as (again & h1 & hb1 & r1 & He & Hmg & Hlt).
  cbn. rewrite He. cbn. destruct again.
  - destruct (IH h1 hb1 r1) as (h' & hb' & r' & He' & Hmg').
    { apply Hmg. } { specialize (Hlt eq_refl). lia. }
    exists h', hb', r'. split; [done|]. by eapply merged_trans.
  - by exists h1, hb1, r1.
Qed.
(** A heap reached from [h] by merging free blocks only. *)
Record same_live (h h' : heap) (l l' : blocks) : Prop := {
  sl_inv : heap_inv h' l';
  sl_brk : brk h' = brk h;
  sl_live : live l' = live l
}.

Lemma same_live_trans h1 h2 h3 l1 l2 l3 :
  same_live h1 h2 l1 l2 -> same_live h2 h3 l2 l3 -> same_live h1 h3 l1 l3.
Proof. intros [? ? ?] [? ? ?]. split; congruence. Qed.

Lemma merged_same_live h h' l1 a hb hb' r r' :
  heap_inv h (l1 ++ (a, hb) :: r) -> merged a h h' hb hb' r r' ->
  same_live h h' (l1 ++ (a, hb) :: r) (l1 ++ (a, hb') :: r').
Proof.
  intros Hinv [F Sg L R U N G M]. split; [by eapply heap_inv_rejoin|apply F|].
  rewrite !live_app, !live_cons, L, R.
  destruct (is_free hb) eqn:E; [done|]. by rewrite U.
Qed.

(** The outcome of a search for a free block of at least [s] bytes among the
    blocks [r] at the end of the list [l]. *)
Definition found (s : Z) (h : heap) (l r : blocks) (res : outcome (Z * heap)) : Prop :=
  exists p h' l', res = Ok (p, h') /\ same_live h h' l l' /\
    ((p = 0 /\ Forall (small_free s) r) \/
     exists l1 hd r', l' = l1 ++ (p, hd) :: r' /\ is_free hd = true /\ s <= h_size hd).

Lemma found_next s h h' l1 a hd hd' r r' res :
  heap_inv h (l1 ++ (a, hd) :: r) -> merged a h h' hd hd' r r' ->
  (is_free hd = true -> h_size hd' < s) ->
  found s h' (l1 ++ (a, hd') :: r') r' res ->
  found s h (l1 ++ (a, hd) :: r) ((a, hd) :: r) res.
Proof.
  intros Hinv Hmg Hsm (p & h'' & l' & He & Hsl' & Hp).
  pose proof (merged_same_live _ _ _ _ _ _ _ _ Hinv Hmg) as Hsl.
  exists p, h'', l'. split_and!; [done|by eapply same_live_trans|].
  destruct Hp as [[-> Hp]|Hp]; [left|by right]. split; [done|].
  pose proof (mg_grow _ _ _ _ _ _ _ Hmg).
  constructor; [intros Ef; specialize (Hsm Ef); cbn; lia|].
  by apply (mg_small _ _ _ _ _ _ _ Hmg).
Qed.

Lemma find_loop_spec fuel s h l1 r :
  heap_inv h (l1 ++ r) -> (length r < fuel)%nat ->
  found s h (l1 ++ r) r (find_loop fuel s (next_addr r) h).
Proof.
  revert h l1 r. induction fuel as [|fuel IH]; intros h l1 r Hinv Hf; [lia|].
  destruct r as [|[a hd] r].
  { exists 0, h, l1. rewrite app_nil_r in *. split_and!; [done|by split|by left]. }
  cbn [length] in Hf.
  pose proof (heap_inv_seg _ _ _ Hinv ltac:(done)) as Hseg.
  pose proof (si_wf _ _ Hseg) as [(Ha & Hm & _) _].
  cbn [next_addr find_loop]. destruct (Z.eqb_spec a 0); [lia|].
  rewrite (seg_get _ _ _ _ Hseg). cbn [mbind outcome_bind].
  rewrite Hm, Z.eqb_refl. cbn [c_assert mbind outcome_bind]. fold (is_free hd).
  assert (Hstep : forall h' hd' r', merged a h h' hd hd' r r' ->
    (is_free hd = true -> h_size hd' < s) ->
    found s h (l1 ++ (a, hd) :: r) ((a, hd) :: r)
      (q ← next_header a h'; find_loop fuel s q h')).
  { intros h' hd' r' Hmg Hsm. eapply found_next; [done..|].
    pose proof (merged_same_live _ _ _ _ _ _ _ _ Hinv Hmg) as Hsl.
    rewrite (next_header_spec _ _ _ _ (mg_seg _ _ _ _ _ _ _ Hmg)).
    rewrite cons_middle, app_assoc. apply IH; [rewrite <- app_assoc; apply Hsl|].
    pose proof (mg_len _ _ _ _ _ _ _ Hmg). lia. }
  destruct (is_free hd) eqn:Ef; cbn [negb].
  2: { by apply (Hstep h hd r); [apply merged_refl|]. }
  destruct (Z.ltb_spec (h_size hd) s).
  2: { exists a, h, (l1 ++ (a, hd) :: r). split_and!; [done|by split|]. right. by exists l1, hd, r. }
  destruct (merge_all_spec (Datatypes.S fuel) h a hd r Hseg) as (h' & hd' & r' & -> & Hmg); [lia|].
  cbn [mbind outcome_bind]. rewrite (seg_get _ _ _ _ (mg_seg _ _ _ _ _ _ _ Hmg)).
  cbn [mbind outcome_bind]. destruct (Z.leb_spec s (h_size hd')).
  - exists a, h', (l1 ++ (a, hd') :: r'). split_and!; [done|by apply merged_same_live|].
    right. exists l1, hd', r'. split_and!; [done| |done]. by rewrite (mg_free _ _ _ _ _ _ _ Hmg).
  - by apply (Hstep h' hd' r').
Qed.

Lemma stored_length m l :
  stored m l -> NoDup (l.*1) -> (length l <= size m)%nat.
Proof.
  intros Hs Hn. rewrite <- (map_size_list_to_map l Hn). apply map_subseteq_size.
  apply map_subseteq_spec. intros a hd Hl%elem_of_list_to_map_2.
  unfold stored in Hs. rewrite Forall_forall in Hs. apply (Hs _ Hl).
Qed.

Lemma chain_fuel_enough h l : heap_inv h l -> (length l < chain_fuel h)%nat.
Proof.
  intros [Hs _ _ Hw _]. unfold chain_fuel.
  pose proof (stored_length _ _ Hs (wf_chain_NoDup _ _ Hw)). lia.
Qed.
(** *** Growing the heap *)

(** An initialised heap, or one whose first [ksbrk] is going to succeed. *)
Definition ready (h : heap) (l : blocks) : Prop :=
  heap_inv h l \/
  (head h = 0 /\ l = [] /\ exists p b, ksbrk NEW_ALLOC_SIZE (brk h) = (Some p, b)).

Lemma init_heap_spec h p b :
  ksbrk NEW_ALLOC_SIZE (brk h) = (Some p, b) ->
  exists h' l', init_heap h = (true, h') /\ heap_inv h' l' /\ live l' = [].
Proof.
  intros Hk. unfold init_heap. rewrite Hk.
  pose proof (ksbrk_fresh NEW_ALLOC_SIZE _ _ _ ltac:(done) Hk) as (Hp & _ & Hend & Htop & Hmap).
  set (hd := mkHeader _ _ _ _). eexists _, [(p, hd)]. split_and!; [done| |done].
  split; cbn; [|done|done| |done].
  - constructor; [|constructor]. apply lookup_insert_eq.
  - unfold HDR, NEW_ALLOC_SIZE in *. split_and!; try done; cbn; [lia|].
    intros x Hx. apply Hmap. lia.
Qed.

Lemma heap_inv_head h l : heap_inv h l -> head h <> 0.
Proof.
  intros [_ Hh Hf Hw _]. destruct l as [|[a hd] r]; [done|].
  destruct Hw as [(? & _) _]. cbn in Hh. lia.
Qed.

Lemma find_free_entry_inv h l s :
  heap_inv h l -> 0 <= s < 2 ^ 31 -> found (s + HDR) h l l (find_free_entry s h).
Proof.
  intros Hinv Hs. unfold find_free_entry. rewrite (u32_small (s + HDR)) by (unfold HDR; lia).
  pose proof (heap_inv_head _ _ Hinv). destruct (Z.eqb_spec (head h) 0); [done|].
  rewrite (hi_head _ _ Hinv).
  apply (find_loop_spec _ _ _ []); [done|by apply chain_fuel_enough].
Qed.

Lemma find_free_entry_spec h l s :
  ready h l -> 0 <= s < 2 ^ 31 ->
  exists h0 l0, heap_inv h0 l0 /\ live l0 = live l /\
    found (s + HDR) h0 l0 l0 (find_free_entry s h).
Proof.
  intros [Hi|(Hz & -> & p & b & Hk)] Hs.
  - exists h, l. split_and!; [done..|]. by apply find_free_entry_inv.
  - destruct (init_heap_spec _ _ _ Hk) as (h' & l' & He & Hi & Hl).
    exists h', l'. split_and!; [done..|].
    pose proof (find_free_entry_inv _ _ _ Hi Hs) as Hf. unfold find_free_entry in *.
    rewrite Hz, He. pose proof (heap_inv_head _ _ Hi).
    by destruct (Z.eqb_spec (head h') 0).
Qed.

(** The bytes [add_heap_memory(s)] asks [ksbrk] for. *)
Definition grow_size (s : Z) : Z :=
  let a := Z.max (s + HDR) NEW_ALLOC_SIZE in a + delta_page a + NEW_ALLOC_SIZE.

Lemma grow_size_bounds s :
  0 <= s < 2 ^ 31 ->
  s + HDR + HDR <= grow_size s - HDR /\ grow_size s < 2 ^ 32 /\
  u32 (u32 (Z.max (u32 (s + HDR)) NEW_ALLOC_SIZE +
       delta_page (Z.max (u32 (s + HDR)) NEW_ALLOC_SIZE)) + NEW_ALLOC_SIZE) = grow_size s.
Proof.
  intros Hs. unfold grow_size, delta_page.
  rewrite (u32_small (s + HDR)) by (unfold HDR; lia).
  set (m := Z.max _ _). pose proof (Z.mod_pos_bound m 4096 ltac:(lia)).
  assert (s + HDR <= m <= 2 ^ 31 + HDR) by (unfold m, HDR, NEW_ALLOC_SIZE; lia).
  unfold HDR, NEW_ALLOC_SIZE in *.
  rewrite !u32_small by (rewrite ?u32_small by lia; lia). lia.
Qed.
Lemma wf_chain_brk n b r b' l :
  ksbrk n b = (r, b') -> wf_chain b l -> wf_chain b' l.
Proof.
  intros Hk. pose proof (ksbrk_grows _ _ _ _ Hk) as Hg.
  assert (Hm : forall lo hi, mapped_range b lo hi -> mapped_range b' lo hi).
  { intros lo hi Hm x Hx. eapply ksbrk_keeps; [done|auto]. }
  induction l as [|[a hd] l IH]; [done|]. intros [(H1 & H2 & H3 & H4 & H5 & H6 & H7) Hr].
  split; [|auto]. split_and!; auto; [lia|].
  destruct l as [|[c hc] l]; [done|]. cbn in *. destruct H7. auto.
Qed.

Lemma heap_inv_last h l :
  heap_inv h l -> exists l1 hf, l = l1 ++ [(final h, hf)].
Proof.
  intros [_ _ Hf _ _]. destruct l as [|[a hf] l1 _] using rev_ind; [done|].
  rewrite fmap_app, last_app in Hf. cbn in Hf. exists l1, hf. congruence.
Qed.

(** The last block grows over the new pages. *)
Lemma wf_chain_extend b a hd p n :
  wf_chain b [(a, hd)] -> p = a + HDR + h_size hd -> HDR <= n ->
  p + n <= brk_top b -> mapped_range b p (p + n) ->
  wf_chain b [(a, mkHeader (h_magic hd) (h_size hd + (n - HDR)) (h_flags hd) (h_n hd))].
Proof.
  intros [(H1 & H2 & H3 & H4 & H5 & H6 & H7) _] -> Hn Ht Hm. split; [|done].
  unfold HDR in *. cbn in *. unfold HDR. split_and!; try done; [lia..|].
  intros x Hx. destruct (Z.lt_ge_cases x (a + 20 + h_size hd)); [apply H5|apply Hm]; lia.
Qed.

(** The new pages become a block of their own behind the last one. *)
Lemma wf_chain_snoc b a hd p n :
  wf_chain b [(a, hd)] -> brk_top b <= 2 ^ 32 ->
  a + HDR + h_size hd <= p -> HDR <= n -> p + n <= brk_top b -> mapped_range b p (p + n) ->
  wf_chain b [(a, mkHeader (h_magic hd) (h_size hd) (h_flags hd) p);
              (p, mkHeader MAGIC (n - HDR) (Z.lor IS_FREE IS_FINAL) 0)].
Proof.
  intros [(H1 & H2 & H3 & H4 & H5 & H6 & H7) _] Ht Hp Hn Hb Hm. cbn in *.
  unfold HDR in *. split_and!; try done; try lia.
  - unfold is_final in *. cbn. congruence.
  - intros x Hx. apply Hm. lia.
Qed.
Lemma heap_inv_set_brk n m h l r b :
  heap_inv h l -> ksbrk n (brk h) = (r, b) -> heap_inv (set_brk m b h) l.
Proof.
  intros [Hs Hh Hf Hw Ht] Hk. split; [done..| |].
  - by eapply wf_chain_brk.
  - by eapply ksbrk_limit.
Qed.

Lemma extend_final h l1 hf n :
  let a := final h in
  let p := a + HDR + h_size hf in
  let hf' := mkHeader (h_magic hf) (h_size hf + (n - HDR)) (h_flags hf) (h_n hf) in
  heap_inv h (l1 ++ [(a, hf)]) -> HDR <= n -> p + n <= brk_top (brk h) ->
  mapped_range (brk h) p (p + n) -> heap_inv (put a hf' h) (l1 ++ [(a, hf')]).
Proof.
  intros a p hf' Hinv Hn Ht Hm. pose proof (heap_inv_seg _ _ _ Hinv ltac:(done)) as Hseg.
  eapply heap_inv_rejoin; [done..| |apply frame_put].
  destruct Hseg as [Hs Hf Hw Htop]. split; [|done| |done].
  - constructor; [|constructor]. apply lookup_insert_eq.
  - by eapply wf_chain_extend.
Qed.

Lemma append_block h l1 hf p n :
  let a := final h in
  let hp := mkHeader MAGIC (n - HDR) (Z.lor IS_FREE IS_FINAL) 0 in
  let hf' := mkHeader (h_magic hf) (h_size hf) (h_flags hf) p in
  heap_inv h (l1 ++ [(a, hf)]) -> a + HDR + h_size hf <= p -> HDR <= n ->
  p + n <= brk_top (brk h) -> mapped_range (brk h) p (p + n) ->
  get a (put p hp h) = Ok hf /\
  heap_inv (set_final p (put a hf' (put p hp h))) (l1 ++ [(a, hf'); (p, hp)]).
Proof.
  intros a hp hf' Hinv Hp Hn Ht Hm. pose proof (heap_inv_seg _ _ _ Hinv ltac:(done)) as Hseg.
  destruct Hseg as [Hs Hf Hw Htop]. pose proof Hw as [(_ & _ & Hsz & _) _].
  assert (Hs1 : stored (hmem (put p hp h)) [(a, hf)]).
  { apply stored_put; [done|]. constructor; [cbn; lia|done]. }
  split; [unfold get; apply Forall_cons in Hs1 as [E _]; cbn [fst] in E; by rewrite E|].
  eapply heap_inv_rejoin; [exact Hinv|done..| |].
  - split; [|done|by apply wf_chain_snoc|done]. constructor; [apply lookup_insert_eq|].
    apply stored_put; [|constructor; [cbn; lia|done]].
    constructor; [|done]. apply lookup_insert_eq.
  - split; [done..|]. intros l Hl Hst. apply stored_put; [apply stored_put; [done|]|].
    all: eapply Forall_impl; [exact Hl|]; cbn; unfold HDR in *; lia.
Qed.

Lemma add_heap_memory_spec h l s :
  heap_inv h l -> 0 <= s < 2 ^ 31 ->
  exists ok h' l', add_heap_memory s h = Ok (ok, h') /\ heap_inv h' l' /\
    live l' = live l /\ (ok = true -> ~ Forall (small_free (s + HDR)) l').
Proof.
  intros Hinv Hs. unfold add_heap_memory.
  destruct (grow_size_bounds s Hs) as (Hg1 & Hg2 & ->).
  set (n := grow_size s) in *.
  destruct (ksbrk n (brk h)) as [[p|] b] eqn:Hk.
  2: { exists false, (set_brk 0 b h), l. split_and!; [done|by eapply heap_inv_set_brk|done..]. }
  assert (0 <= n < 2 ^ 32) as Hn32 by (unfold HDR in *; lia).
  destruct (ksbrk_fresh n _ _ _ Hn32 Hk) as (Hp & Hptop & Hpend & Htop & Hmap).
  destruct (heap_inv_last _ _ Hinv) as (l1 & hf & ->).
  pose proof (wf_chain_mid _ _ _ _ _ (hi_wf _ _ Hinv)) as (Hf0 & _ & Hsz & Hend & _ & _).
  rewrite (u32_small (n - HDR)) by (unfold HDR in *; lia).
  pose proof (heap_inv_set_brk _ (n - HDR) _ _ _ _ Hinv Hk) as Hinv1.
  set (h1 := set_brk _ b h) in *.
  assert (Hn : HDR <= n) by (unfold HDR in *; lia).
  change (final h1) with (final h).
  rewrite (heap_inv_get _ _ _ _ _ Hinv1). cbn [mbind outcome_bind]. fold (is_free hf).
  case_goal.
  - apply andb_true_iff in E as [Hfr Hq]. apply Z.eqb_eq in Hq.
    assert (Hpe : p = final h + HDR + h_size hf).
    { destruct (Z.eq_dec (final h + HDR + h_size hf) (2 ^ 32)) as [E|E];
        [rewrite E in Hq; cbn in Hq; lia|]. by rewrite u32_small in Hq by (unfold HDR in *; lia). }
    clear Hq. subst p. rewrite u32_small by (unfold HDR in *; lia).
    eexists true, _, _. split_and!; [done|by apply (extend_final h1)| |].
    + rewrite !live_app, !live_cons. unfold is_free in *. cbn [h_flags]. by rewrite Hfr.
    + intros _ HF. apply Forall_app in HF as [_ HF]. apply Forall_cons_1 in HF as [HF _].
      specialize (HF Hfr). cbn [snd h_size] in HF. unfold HDR in *. lia.
  - destruct (append_block h1 l1 hf p n) as [He Hinv']; [done|cbn; lia|done..|].
    set (h2 := put p _ h1) in *. change (final h2) with (final h1). rewrite He.
    eexists true, _, _. split_and!; [done|exact Hinv'| |].
    + by rewrite !live_app, !live_cons.
    + intros _ HF. apply Forall_app in HF as [_ HF]. apply Forall_cons_1 in HF as [_ HF].
      apply Forall_cons_1 in HF as [HF _]. specialize (HF eq_refl).
      cbn [snd h_size] in HF. unfold HDR in *. lia.
Qed.
(** *** Splitting a free block *)

Lemma frame_weaken a a' h h' : a <= a' -> frame a' h h' -> frame a h h'.
Proof.
  intros Ha [F1 F2 F3]. split; [done..|]. intros l Hl. apply F3.
  eapply Forall_impl; [exact Hl|]. cbn. lia.
Qed.

(** The header of the part of a free block [hd] behind [n] allocated bytes. *)
Definition rest_header (hd : MallocHeader) (n : Z) : MallocHeader :=
  mkHeader MAGIC (h_size hd - n - HDR) (h_flags hd) (h_n hd).

Lemma wf_chain_rest b a hd r n :
  wf_chain b ((a, hd) :: r) -> 0 <= n -> n + HDR <= h_size hd ->
  wf_chain b ((a + HDR + n, rest_header hd n) :: r).
Proof.
  intros [(H1 & H2 & H3 & H4 & H5 & H6 & H7) Hr] Hn Hsz. split; [|done].
  unfold HDR in *. cbn [rest_header h_size h_magic h_n].
  split_and!; try done; try (unfold HDR; lia).
  - intros x Hx. apply H5. unfold HDR in *. lia.
  - destruct r as [|[c hc] r]; [done|]. cbn in *. destruct H7 as [H7 H8].
    split; [unfold HDR in *; lia|]. intros Hf x Hx. apply H8; [done|unfold HDR in *; lia].
Qed.

Lemma seg_rest h a hd r n :
  let ne := a + HDR + n in
  seg_inv h ((a, hd) :: r) -> 0 <= n -> n + HDR <= h_size hd ->
  let h1 := put ne (rest_header hd n) h in
  let h1 := if a =? final h1 then set_final ne h1 else h1 in
  seg_inv h1 ((ne, rest_header hd n) :: r) /\ frame ne h h1.
Proof.
  intros ne [Hs Hf Hw Ht] Hn Hsz h1 h2.
  pose proof (wf_chain_rest _ _ _ _ _ Hw Hn Hsz) as Hw'.
  pose proof (wf_chain_above _ _ _ _ Hw) as Hab.
  assert (Hst : stored (hmem h1) ((ne, rest_header hd n) :: r)).
  { apply Forall_cons in Hs as [_ Hs]. constructor; [apply lookup_insert_eq|].
    apply stored_put; [done|]. eapply Forall_impl; [exact Hab|]. cbn.
    unfold ne, HDR in *. lia. }
  unfold h2. destruct (Z.eqb_spec a (final h1)) as [E|E].
  - split; [split; try done|].
    + destruct r as [|[c hc] r]; [done|]. exfalso. cbn [final h1 put] in E.
      pose proof (wf_chain_last _ _ _ ((c, hc) :: r) _ Hw Hf). unfold HDR in *. lia.
    + eapply frame_trans; [apply frame_put|apply frame_final].
  - split; [split; try done|apply frame_put].
    destruct r as [|[c hc] r]; [cbn in *; congruence|]. done.
Qed.

(** An allocated block in front of a segment. *)
Lemma seg_used h a n ne hr r :
  seg_inv h ((ne, hr) :: r) -> 0 < a -> 0 <= n -> a + HDR + n = ne ->
  mapped_range (brk h) a ne ->
  let hf := mkHeader MAGIC n 0 ne in seg_inv (put a hf h) ((a, hf) :: (ne, hr) :: r).
Proof.
  intros [Hs Hf Hw Ht] Ha Hn He Hm hf. split; [| done| |done].
  - constructor; [apply lookup_insert_eq|]. apply stored_put; [done|].
    pose proof (wf_chain_above _ _ _ _ Hw) as Hab. destruct Hw as [(_ & _ & ? & _) _].
    constructor; [cbn; lia|]. eapply Forall_impl; [exact Hab|]. cbn. unfold HDR in *. lia.
  - pose proof Hw as [(_ & _ & ? & ? & _) _]. split; [|done]. cbn. unfold HDR in *.
    split_and!; try done; try lia. intros x Hx. apply Hm. lia.
Qed.

Lemma split_entry_spec h l1 a hd r n :
  heap_inv h (l1 ++ (a, hd) :: r) -> is_free hd = true -> 0 <= n -> n + HDR <= h_size hd ->
  exists h' l', split_entry a n h = Ok (a + HDR, h') /\ heap_inv h' l' /\
    brk h' = brk h /\ live l' ≡ₚ (a + HDR, n) :: live (l1 ++ (a, hd) :: r).
Proof.
  intros Hinv Hfree Hn Hsz. unfold split_entry.
  pose proof (heap_inv_seg _ _ _ Hinv ltac:(done)) as Hseg.
  pose proof (wf_chain_mid _ _ _ _ _ (hi_wf _ _ Hinv)) as (Ha & Hm & _ & Hend & Hmap & _ & _).
  pose proof (hi_top _ _ Hinv) as Htop.
  rewrite (seg_get _ _ _ _ Hseg). cbn [mbind outcome_bind].
  rewrite !u32_small by (unfold HDR in *; lia). fold (rest_header hd n).
  destruct (seg_rest _ _ _ _ _ Hseg Hn Hsz) as [Hseg1 Hfr1].
  cbv zeta in *. set (ne := a + HDR + n) in *.
  set (h1 := if a =? _ then _ else _) in *.
  destruct (merged_step _ _ _ _ Hseg1) as (again & h2 & hr & r' & -> & Hmg & _).
  cbn [mbind outcome_bind].
  set (hf := mkHeader MAGIC n 0 ne).
  exists (put a hf h2), (l1 ++ (a, hf) :: (ne, hr) :: r').
  assert (Hfr : frame a h (put a hf h2)).
  { eapply frame_trans; [|apply frame_put]. apply (frame_weaken _ ne); [unfold ne, HDR; lia|].
    eapply frame_trans; [exact Hfr1|apply Hmg]. }
  split_and!; [done| |apply Hfr|].
  - eapply heap_inv_rejoin; [exact Hinv|done..| |exact Hfr].
    apply seg_used; [apply Hmg|done|unfold ne; lia..|].
    intros x Hx. change (brk (put a hf h2)) with (brk h2).
    change (brk h2) with (brk (put a hf h2)). rewrite (fr_brk _ _ _ Hfr).
    apply Hmap. unfold ne, HDR in *. lia.
  - rewrite !live_app, !live_cons. cbn [is_free]. rewrite Hfree.
    rewrite (mg_free _ _ _ _ _ _ _ Hmg), (mg_live _ _ _ _ _ _ _ Hmg).
    change (is_free (rest_header hd n)) with (is_free hd). rewrite Hfree. cbn.
    symmetry. apply Permutation_middle.
Qed.
(** *** Allocated objects *)

Definition apart (x y : Z * Z) : Prop := x.1 + x.2 <= y.1 \/ y.1 + y.2 <= x.1.

Lemma live_split l p n :
  (p, n) ∈ live l ->
  exists l1 hd r, l = l1 ++ (p - HDR, hd) :: r /\ is_free hd = false /\ h_size hd = n.
Proof.
  intros ([a hd] & Hin & Hl)%list_elem_of_omap. unfold live_of in Hl. cbn in Hl.
  destruct (is_free hd) eqn:E; [done|]. simplify_eq.
  apply list_elem_of_split in Hin as (l1 & r & ->). exists l1, hd, r.
  replace (a + HDR - HDR) with a by lia. done.
Qed.

Lemma live_bounds b l : wf_chain b l ->
  Forall (fun x => 0 < x.1 /\ 0 <= x.2 /\ mapped_range b x.1 (x.1 + x.2)) (live l).
Proof.
  intros Hw. apply Forall_forall. intros [p n] (l1 & hd & r & -> & _ & <-)%live_split.
  apply wf_chain_mid in Hw as (? & _ & ? & _ & Hm & _). unfold HDR in *. cbn.
  split_and!; [lia..|]. intros x Hx. apply Hm. lia.
Qed.

Lemma live_apart b l : wf_chain b l -> ForallOrdPairs apart (live l).
Proof.
  induction l as [|[a hd] r IH]; intros Hw; [constructor|].
  pose proof (wf_chain_above _ _ _ _ Hw) as Hab. destruct Hw as [_ Hr].
  rewrite live_cons. destruct (is_free hd); [by apply IH|]. cbn.
  constructor; [|by apply IH]. apply Forall_forall.
  intros [p n] (l1 & hc & r' & -> & _ & _)%live_split.
  apply Forall_app in Hab as [_ Hab]. apply Forall_cons_1 in Hab as [Hab _].
  left. cbn in *. unfold HDR in *. lia.
Qed.

Lemma ForallOrdPairs_perm (l l' : list (Z * Z)) :
  l ≡ₚ l' -> ForallOrdPairs apart l -> ForallOrdPairs apart l'.
Proof.
  induction 1 as [|x l l' Hp IH|x y l|]; intros HF; auto.
  - inversion_clear HF. constructor; [by rewrite <- Hp|auto].
  - inversion_clear HF as [|? ? Hy HF']. inversion_clear HF' as [|? ? Hx HF''].
    apply Forall_cons in Hy as [Hxy Hy].
    constructor; [constructor; [unfold apart in *; tauto|done]|by constructor].
Qed.

Lemma heap_inv_fill_part h l p n q m :
  heap_inv h l -> (p, n) ∈ live l -> p <= q -> q + m <= p + n -> heap_inv (fill q m h) l.
Proof.
  intros [Hs Hh Hf Hw Ht] Hin Hpq Hmn. split; try done. apply stored_clobber; [done|].
  apply live_split in Hin as (l1 & hd & r & -> & _ & <-).
  pose proof (wf_chain_below _ _ _ _ _ Hw) as Hb.
  pose proof (wf_chain_above _ _ _ _ (wf_chain_app _ _ _ Hw)) as Ha.
  apply Forall_app; split; [|constructor].
  - eapply Forall_impl; [exact Hb|]. cbn. intros. unfold HDR in *. lia.
  - cbn. lia.
  - eapply Forall_impl; [exact Ha|]. cbn. intros. unfold HDR in *. lia.
Qed.

Lemma heap_inv_fill h l p n : heap_inv h l -> (p, n) ∈ live l -> heap_inv (fill p n h) l.
Proof. intros Hi Hin. by apply (heap_inv_fill_part _ _ p n). Qed.

(** The result [rc] of an allocation of [s] bytes that leaves the blocks [l']. *)
Definition allocated (s rc : Z) (l l' : blocks) (h' : heap) : Prop :=
  heap_inv h' l' /\
  ((rc = 0 /\ live l' = live l) \/ (0 < rc /\ live l' ≡ₚ (rc, s) :: live l)).

Lemma allocated_fill s rc l l' h' :
  allocated s rc l l' h' -> allocated s rc l l' (if rc =? 0 then h' else fill rc s h').
Proof.
  intros [Hinv Hrc]. split; [|done]. destruct (Z.eqb_spec rc 0); [done|].
  apply heap_inv_fill; [done|]. destruct Hrc as [[? _]|[_ ->]]; [done|]. left.
Qed.

(** A successful search followed by the split. *)
Lemma found_split s h l p h' l' :
  0 <= s -> same_live h h' l l' ->
  (exists l1 hd r, l' = l1 ++ (p, hd) :: r /\ is_free hd = true /\ s + HDR <= h_size hd) ->
  exists rc h'' l'', p <> 0 /\ split_entry p s h' = Ok (rc, h'') /\ 0 < rc /\
    allocated s rc l l'' h''.
Proof.
  intros Hs [Hinv Hb Hl] (l1 & hd & r & -> & Hfr & Hsz).
  pose proof (wf_chain_mid _ _ _ _ _ (hi_wf _ _ Hinv)) as (Hp & _).
  destruct (split_entry_spec _ _ _ _ _ _ Hinv Hfr Hs Hsz) as (h'' & l'' & He & Hi & _ & HP).
  exists (p + HDR), h'', l''. split_and!; [lia|done|unfold HDR; lia|]. split; [done|].
  right. rewrite <- Hl. split; [unfold HDR; lia|done].
Qed.

Lemma int_kmalloc_spec h l s :
  ready h l -> 0 <= s < 2 ^ 31 ->
  exists rc h' l', int_kmalloc s h = Ok (rc, h') /\ allocated s rc l l' h'.
Proof.
  intros Hr Hs. unfold int_kmalloc. cbn [int_kmalloc_fuel].
  destruct (find_free_entry_spec _ _ _ Hr Hs)
    as (h0 & l0 & Hi0 & Hl0 & p & h1 & l1 & -> & Hsl & Hp).
  cbn [mbind outcome_bind]. destruct Hp as [[-> _]|Hp].
  2: { destruct (found_split _ _ _ _ _ _ (proj1 Hs) Hsl Hp)
         as (rc & h2 & l2 & Hp0 & He & _ & Ha).
       destruct (Z.eqb_spec p 0); [done|]. exists rc, h2, l2. split; [done|].
       unfold allocated in *. by rewrite <- Hl0. }
  cbn [Z.eqb]. destruct Hsl as [Hi1 _ Hl1].
  destruct (add_heap_memory_spec _ _ _ Hi1 Hs) as (ok & h2 & l2 & -> & Hi2 & Hl2 & Hbig).
  cbn [mbind outcome_bind]. destruct ok.
  2: { exists 0, h2, l2. split; [done|]. split; [done|]. left. by rewrite Hl2, Hl1. }
  destruct (find_free_entry_inv _ _ _ Hi2 Hs) as (q & h3 & l3 & -> & Hsl3 & Hq).
  destruct Hq as [[_ HF]|Hq]; [by destruct (Hbig eq_refl)|].
  destruct (found_split _ _ _ _ _ _ (proj1 Hs) Hsl3 Hq) as (rc & h4 & l4 & Hq0 & He & Hrc & Ha).
  cbn [mbind outcome_bind]. destruct (Z.eqb_spec q 0); [done|]. rewrite He.
  exists rc, (if rc =? 0 then h4 else fill rc s h4), l4. split; [done|].
  apply allocated_fill. unfold allocated in *. by rewrite <- Hl0, <- Hl1, <- Hl2.
Qed.
Lemma hk_malloc_spec h l s :
  ready h l -> 0 <= s < 2 ^ 31 ->
  exists rc h' l', hk_malloc s h = Ok (rc, h') /\ allocated s rc l l' h'.
Proof.
  intros Hr Hs. destruct (int_kmalloc_spec _ _ _ Hr Hs) as (rc & h' & l' & He & Ha).
  unfold hk_malloc. rewrite He. eexists rc, _, l'. split; [done|]. by apply allocated_fill.
Qed.

Lemma mul_overflows_spec n m :
  fits 32 n -> fits 32 m -> mul_overflows n m = true <-> 2 ^ 32 <= n * m.
Proof.
  intros Hn Hm. unfold mul_overflows, MUL_NO_OVERFLOW, SIZE_MAX, fits in *.
  rewrite !andb_true_iff, orb_true_iff, !Z.leb_le, !Z.ltb_lt.
  split.
  - intros [[_ H1] H2]. pose proof (Z.mul_succ_div_gt 0xFFFFFFFF n H1). nia.
  - intros Hov. assert (0 < n) by nia. split_and!; [|done|].
    + destruct (Z.le_gt_cases 0x10000 n), (Z.le_gt_cases 0x10000 m); auto.
      assert (n * m <= 0xFFFF * 0xFFFF) by (apply Z.mul_le_mono_nonneg; lia). lia.
    + apply Z.div_lt_upper_bound; lia.
Qed.

Lemma hk_calloc_spec h l nelem elsize :
  ready h l -> fits 32 nelem -> fits 32 elsize -> nelem * elsize < 2 ^ 31 ->
  exists rc h' l', hk_calloc nelem elsize h = Ok (rc, h') /\
    allocated (nelem * elsize) rc l l' h'.
Proof.
  intros Hr Hn He Hs. unfold hk_calloc.
  destruct (mul_overflows nelem elsize) eqn:Eo.
  { apply mul_overflows_spec in Eo; [lia|done..]. }
  assert (0 <= nelem * elsize) by (unfold fits in *; nia). rewrite u32_small by lia.
  destruct (int_kmalloc_spec _ _ (nelem * elsize) Hr ltac:(lia)) as (rc & h' & l' & E & Ha).
  rewrite E. eexists rc, _, l'. split; [done|]. by apply allocated_fill.
Qed.

(** Setting [IS_FREE] in the header of a used block. *)
Definition freed (hd : MallocHeader) : MallocHeader :=
  mkHeader (h_magic hd) (h_size hd) (Z.lor (h_flags hd) IS_FREE) (h_n hd).

Lemma freed_flags hd : is_free (freed hd) = true /\ is_final (freed hd) = is_final hd.
Proof.
  unfold is_free, is_final. rewrite is_set_free, !is_set_final. cbn [freed h_flags].
  rewrite !Z.lor_spec. change (Z.testbit IS_FREE 0) with true.
  change (Z.testbit IS_FREE 1) with false. by rewrite orb_true_r, orb_false_r.
Qed.

(** Rewriting a header without moving the block, its end or its links. *)
Lemma heap_inv_put h l1 a hd hd' r :
  heap_inv h (l1 ++ (a, hd) :: r) -> h_magic hd' = MAGIC -> h_n hd' = h_n hd ->
  0 <= h_size hd' <= h_size hd -> is_final hd' = is_final hd ->
  heap_inv (put a hd' h) (l1 ++ (a, hd') :: r).
Proof.
  intros Hinv Hm Hn Hs Hf. pose proof (heap_inv_seg _ _ _ Hinv ltac:(done)) as Hseg.
  eapply heap_inv_rejoin; [exact Hinv|done..| |apply frame_put].
  destruct Hseg as [Hst Hfin Hw Ht]. split; [|done| |done].
  - by eapply (stored_update _ _ []).
  - destruct Hw as [(H1 & H2 & H3 & H4 & H5 & H6 & H7) Hr]. split; [|done].
    change (brk (put a hd' h)) with (brk h).
    split_and!; try done; try lia; [intros x Hx; apply H5; lia|].
    destruct r as [|[c hc] r]; cbn in *; [congruence|]. rewrite Hf.
    destruct H7. split; [lia|done].
Qed.

Lemma hk_free_spec h l p n :
  heap_inv h l -> (p, n) ∈ live l ->
  exists h' l', hk_free p h = Ok h' /\ heap_inv h' l' /\ brk h' = brk h /\
    live l ≡ₚ (p, n) :: live l'.
Proof.
  intros Hinv Hin. pose proof (heap_inv_fill _ _ _ _ Hinv Hin) as Hinv1.
  apply live_split in Hin as (l1 & hd & r & -> & Hu & Hsz). unfold hk_free.
  pose proof (wf_chain_mid _ _ _ _ _ (hi_wf _ _ Hinv)) as (Hp & Hm & Hs0 & _).
  destruct (Z.eqb_spec p 0); [unfold HDR in *; lia|].
  rewrite (heap_inv_get _ _ _ _ _ Hinv). cbn [mbind outcome_bind].
  rewrite Hm, Z.eqb_refl. fold (is_free hd). rewrite Hu. cbn [c_assert mbind outcome_bind negb].
  subst n. rewrite <- Hm. fold (freed hd).
  destruct (freed_flags hd) as [Hff Hfn].
  pose proof (heap_inv_put _ _ _ _ (freed hd) _ Hinv1 Hm eq_refl ltac:(cbn; lia) Hfn) as Hinv2.
  set (h2 := put _ _ _) in *.
  destruct (merged_step _ _ _ _ (heap_inv_seg _ _ _ Hinv2 ltac:(done)))
    as (again & h3 & hb & r' & -> & Hmg & _).
  destruct (merged_same_live _ _ _ _ _ _ _ _ Hinv2 Hmg) as [Hinv3 Hb Hl].
  eexists h3, _. split_and!; [done|exact Hinv3|by rewrite Hb|].
  rewrite Hl, !live_app, !live_cons, Hff, Hu. cbn.
  replace (p - HDR + HDR) with p by lia. symmetry. apply Permutation_middle.
Qed.
Lemma get_mem_size_spec h l p n :
  heap_inv h l -> (p, n) ∈ live l -> get_mem_size p h = Ok n /\ 0 < p.
Proof.
  intros Hinv (l1 & hd & r & -> & Hu & Hsz)%live_split. unfold get_mem_size.
  pose proof (wf_chain_mid _ _ _ _ _ (hi_wf _ _ Hinv)) as (Hp & _).
  destruct (Z.eqb_spec p 0); [unfold HDR in *; lia|].
  rewrite (heap_inv_get _ _ _ _ _ Hinv). cbn. rewrite Hsz. unfold HDR in *. split; [done|lia].
Qed.

(** An object [(p, n)] becomes an object of [sz] bytes at [rc], or nothing happens. *)
Definition resized (p n sz rc : Z) (o o' : list (Z * Z)) : Prop :=
  (rc = 0 /\ o' ≡ₚ o) \/
  (0 < rc /\ exists rest, o ≡ₚ (p, n) :: rest /\ o' ≡ₚ (rc, sz) :: rest).

Lemma shrink_spec h l p n sz :
  heap_inv h l -> (p, n) ∈ live l -> 0 <= sz <= n ->
  exists hd, get (p - HDR) h = Ok hd /\ exists l',
    heap_inv (put (p - HDR) (mkHeader (h_magic hd) sz (h_flags hd) (h_n hd)) h) l' /\
    resized p n sz p (live l) (live l').
Proof.
  intros Hinv Hin Hsz. destruct (get_mem_size_spec _ _ _ _ Hinv Hin) as [_ Hp].
  apply live_split in Hin as (l1 & hd & r & -> & Hu & Hn).
  exists hd. split; [by eapply heap_inv_get|].
  pose proof (wf_chain_mid _ _ _ _ _ (hi_wf _ _ Hinv)) as (_ & Hm & _).
  eexists. split; [eapply heap_inv_put; [exact Hinv|done|done|cbn; lia|done]|].
  right. split; [done|]. exists (live l1 ++ live r).
  rewrite !live_app, !live_cons. unfold is_free in *. cbn [h_flags h_size]. rewrite Hu, Hn.
  replace (p - HDR + HDR) with p by lia.
  split; symmetry; apply (Permutation_middle (live l1) (live r)).
Qed.

(** Moving an object: the copy into the new block and the [kfree] of the old. *)
Lemma move_spec h l0 l p n sz rc :
  (p, n) ∈ live l0 -> 0 < rc -> heap_inv h l -> live l ≡ₚ (rc, sz) :: live l0 ->
  exists h' l', hk_free p (fill rc (Z.min n sz) h) = Ok h' /\ heap_inv h' l' /\
    resized p n sz rc (live l0) (live l').
Proof.
  intros Hin Hrc Hinv HP.
  assert (Hinv1 : heap_inv (fill rc (Z.min n sz) h) l).
  { apply (heap_inv_fill_part _ _ rc sz); [done| |lia..]. rewrite HP. left. }
  assert (Hin1 : (p, n) ∈ live l) by (rewrite HP; by right).
  destruct (hk_free_spec _ _ _ _ Hinv1 Hin1) as (h' & l' & He & Hi & _ & HP').
  exists h', l'. split_and!; [done..|]. right. split; [done|].
  apply elem_of_Permutation in Hin as [rest Hrest]. exists rest. split; [done|].
  rewrite HP, Hrest in HP'. apply (Permutation_cons_inv (a := (p, n))).
  rewrite <- HP'. constructor.
Qed.

Lemma hk_realloc_spec h l p n sz :
  heap_inv h l -> (p, n) ∈ live l -> 0 <= sz < 2 ^ 31 ->
  exists rc h' l', hk_realloc p sz h = Ok (rc, h') /\ heap_inv h' l' /\
    resized p n sz rc (live l) (live l').
Proof.
  intros Hinv Hin Hsz. unfold hk_realloc.
  destruct (get_mem_size_spec _ _ _ _ Hinv Hin) as [-> Hp].
  destruct (Z.eqb_spec p 0); [lia|]. cbn [mbind outcome_bind].
  destruct (Z.eqb_spec n sz) as [->|Hne].
  { exists p, h, l. split_and!; [done..|]. right. split; [done|].
    apply elem_of_Permutation in Hin as [rest Hr]. eauto. }
  destruct (Z.ltb_spec sz n).
  { destruct (shrink_spec _ _ _ _ sz Hinv Hin ltac:(lia)) as (hd & -> & l' & Hi & Hr).
    eexists p, _, l'. split_and!; [done|exact Hi|exact Hr]. }
  destruct (hk_malloc_spec _ _ _ (or_introl Hinv) Hsz) as (rc & h1 & l1 & -> & Hi1 & Hrc).
  cbn [mbind outcome_bind]. destruct Hrc as [[-> Hl]|[Hrc HP]].
  { exists 0, h1, l1. split_and!; [done..|]. left. by rewrite Hl. }
  destruct (Z.eqb_spec rc 0); [lia|].
  destruct (move_spec _ _ _ _ _ _ _ Hin Hrc Hi1 HP) as (h2 & l2 & -> & Hi2 & Hr2).
  by exists rc, h2, l2.
Qed.

Lemma hk_recalloc_spec h l p n nelem elsize :
  heap_inv h l -> (p, n) ∈ live l -> fits 32 nelem -> fits 32 elsize ->
  nelem * elsize < 2 ^ 31 ->
  exists rc h' l', hk_recalloc p nelem elsize h = Ok (rc, h') /\ heap_inv h' l' /\
    resized p n (nelem * elsize) rc (live l) (live l').
Proof.
  intros Hinv Hin Hne Hes Hsz. unfold hk_recalloc.
  destruct (get_mem_size_spec _ _ _ _ Hinv Hin) as [_ Hp].
  destruct (mul_overflows nelem elsize) eqn:Eo.
  { apply mul_overflows_spec in Eo; [lia|done..]. }
  destruct (Z.eqb_spec p 0); [lia|].
  assert (0 <= nelem * elsize) by (unfold fits in *; nia).
  rewrite u32_small by lia. set (sz := nelem * elsize) in *.
  destruct (int_kmalloc_spec _ _ sz (or_introl Hinv) ltac:(lia)) as (rc & h1 & l1 & -> & Ha).
  pose proof (allocated_fill _ _ _ _ _ Ha) as [Hi1' _].
  destruct Ha as [Hi1 [[-> Hl]|[Hrc HP]]]; cbn [mbind outcome_bind].
  { exists 0, h1, l1. split_and!; [done..|]. left. by rewrite Hl. }
  destruct (Z.eqb_spec rc 0); [lia|].
  assert (Hin1 : (p, n) ∈ live l1) by (rewrite HP; by right).
  destruct (get_mem_size_spec _ _ _ _ Hi1 Hin1) as [-> _]. cbn [mbind outcome_bind].
  destruct (move_spec _ _ _ _ _ _ _ Hin Hrc Hi1' HP) as (h2 & l2 & -> & Hi2 & Hr2).
  by exists rc, h2, l2.
Qed.

(** ** The allocator as a whole *)

(** What the kernel calls: [kmalloc], [kcalloc], [kfree], [krealloc],
    [krecalloc], and stores to the bytes of an object. *)
Inductive call : Type :=
| CMalloc (s : Z)
| CCalloc (nelem elsize : Z)
| CFree (p : Z)
| CRealloc (p sz : Z)
| CRecalloc (p nelem elsize : Z)
| CStore (p off n : Z).

Definition exec (c : call) (h : heap) : outcome (Z * heap) :=
  match c with
  | CMalloc s => hk_malloc s h
  | CCalloc n e => hk_calloc n e h
  | CFree p => h ← hk_free p h; Ok (0, h)
  | CRealloc p sz => hk_realloc p sz h
  | CRecalloc p n e => hk_recalloc p n e h
  | CStore p off n => Ok (0, fill (p + off) n h)
  end.

(** The calls a correct client makes when it owns the objects [o]. *)
Definition permitted (o : list (Z * Z)) (c : call) : Prop :=
  match c with
  | CMalloc s => 0 <= s < 2 ^ 31
  | CCalloc n e => fits 32 n /\ fits 32 e /\ n * e < 2 ^ 31
  | CFree p => p = 0 \/ exists n, (p, n) ∈ o
  | CRealloc p sz => (exists n, (p, n) ∈ o) /\ 0 <= sz < 2 ^ 31
  | CRecalloc p n e => (exists m, (p, m) ∈ o) /\ fits 32 n /\ fits 32 e /\ n * e < 2 ^ 31
  | CStore p off n => exists m, (p, m) ∈ o /\ 0 <= off /\ 0 <= n /\ off + n <= m
  end.

(** The abstract allocator: a finite collection of disjoint objects. *)
Inductive spec_step (o : list (Z * Z)) : call -> Z -> list (Z * Z) -> Prop :=
| spec_null c o' : (forall p, c <> CFree p) -> o' ≡ₚ o -> spec_step o c 0 o'
| spec_malloc s p o' :
    0 < p -> Forall (apart (p, s)) o -> o' ≡ₚ (p, s) :: o -> spec_step o (CMalloc s) p o'
| spec_calloc n e p o' :
    0 < p -> Forall (apart (p, n * e)) o -> o' ≡ₚ (p, n * e) :: o ->
    spec_step o (CCalloc n e) p o'
| spec_free_null o' : o' ≡ₚ o -> spec_step o (CFree 0) 0 o'
| spec_free p n o' : o ≡ₚ (p, n) :: o' -> spec_step o (CFree p) 0 o'
| spec_realloc p n sz q rest o' :
    0 < q -> o ≡ₚ (p, n) :: rest -> Forall (apart (q, sz)) rest -> o' ≡ₚ (q, sz) :: rest ->
    spec_step o (CRealloc p sz) q o'
| spec_recalloc p m n e q rest o' :
    0 < q -> o ≡ₚ (p, m) :: rest -> Forall (apart (q, n * e)) rest ->
    o' ≡ₚ (q, n * e) :: rest -> spec_step o (CRecalloc p n e) q o'.

Lemma live_apart_head h l x rest :
  heap_inv h l -> live l ≡ₚ x :: rest -> Forall (apart x) rest.
Proof.
  intros Hinv HP. pose proof (live_apart _ _ (hi_wf _ _ Hinv)) as HF.
  apply (ForallOrdPairs_perm _ _ HP) in HF. by inversion HF.
Qed.

Lemma allocated_apart s rc l l' h' :
  allocated s rc l l' h' ->
  (rc = 0 /\ live l' ≡ₚ live l) \/
  (0 < rc /\ Forall (apart (rc, s)) (live l) /\ live l' ≡ₚ (rc, s) :: live l).
Proof.
  intros [Hinv [[-> ->]|[Hrc HP]]]; [by left|right].
  split_and!; [done| |done]. by eapply live_apart_head.
Qed.

Lemma resized_apart p n sz rc l l' h' :
  heap_inv h' l' -> resized p n sz rc (live l) (live l') ->
  (rc = 0 /\ live l' ≡ₚ live l) \/
  (0 < rc /\ exists rest, live l ≡ₚ (p, n) :: rest /\ Forall (apart (rc, sz)) rest /\
    live l' ≡ₚ (rc, sz) :: rest).
Proof.
  intros Hinv [[-> HP]|(Hrc & rest & H1 & H2)]; [by left|right].
  split; [done|]. exists rest. split_and!; [done| |done]. by eapply live_apart_head.
Qed.

(** C1: the kernel heap refines the abstract allocator.  Whatever blocks and
    free fragments the list holds, and also before the first allocation, every
    [kmalloc], [kcalloc], [kfree], [krealloc] or [krecalloc] that a correct
    client makes, and every store it makes into an object it owns, returns (no
    assertion fails, no pointer is followed to a place that holds no header,
    the loops end), keeps the list of headers well formed and has the effect of
    the abstract operation: an allocation yields a new object apart from all
    others, a free removes one object. *)
Theorem kmalloc_refines h l c :
  ready h l -> permitted (live l) c ->
  exists r h' l', exec c h = Ok (r, h') /\ ready h' l' /\ spec_step (live l) c r (live l').
Proof.
  intros Hr Hp. assert (Hi : forall x, x ∈ live l -> heap_inv h l).
  { destruct Hr as [Hi|(_ & -> & _)]; [done|]. intros x Hx. inversion Hx. }
  destruct c as [s|n e|p|p sz|p n e|p off n]; cbn [exec permitted] in *.
  - destruct (hk_malloc_spec _ _ _ Hr Hp) as (rc & h' & l' & -> & Ha).
    exists rc, h', l'. split_and!; [done|by left; destruct Ha|].
    destruct (allocated_apart _ _ _ _ _ Ha) as [[-> ?]|(? & ? & ?)]; by constructor.
  - destruct Hp as (Hn & He & Hs).
    destruct (hk_calloc_spec _ _ _ _ Hr Hn He Hs) as (rc & h' & l' & -> & Ha).
    exists rc, h', l'. split_and!; [done|by left; destruct Ha|].
    destruct (allocated_apart _ _ _ _ _ Ha) as [[-> ?]|(? & ? & ?)]; by constructor.
  - destruct Hp as [->|[n Hin]].
    { exists 0, h, l. split_and!; [done..|by apply spec_free_null]. }
    destruct (hk_free_spec _ _ _ _ (Hi _ Hin) Hin) as (h' & l' & -> & Hi' & _ & HP).
    exists 0, h', l'. split_and!; [done|by left|by eapply spec_free].
  - destruct Hp as [[n Hin] Hsz].
    destruct (hk_realloc_spec _ _ _ _ _ (Hi _ Hin) Hin Hsz) as (rc & h' & l' & -> & Hi' & Hrs).
    exists rc, h', l'. split_and!; [done|by left|].
    destruct (resized_apart _ _ _ _ _ _ _ Hi' Hrs) as [[-> ?]|(? & rest & ? & ? & ?)];
      [by constructor|by eapply spec_realloc].
  - destruct Hp as ([m Hin] & Hn & He & Hsz).
    destruct (hk_recalloc_spec _ _ _ _ _ _ (Hi _ Hin) Hin Hn He Hsz)
      as (rc & h' & l' & -> & Hi' & Hrs).
    exists rc, h', l'. split_and!; [done|by left|].
    destruct (resized_apart _ _ _ _ _ _ _ Hi' Hrs) as [[-> ?]|(? & rest & ? & ? & ?)];
      [by constructor|by eapply spec_recalloc].
  - destruct Hp as (m & Hin & Ho & Hn & Hm).
    exists 0, (fill (p + off) n h), l. split_and!; [done| |by constructor].
    left. by apply (heap_inv_fill_part _ _ p m); [apply (Hi _ Hin)|done|lia..].
Qed.

(** Memory handed out is real memory.  All objects of the heap lie in
    pages obtained from [ksbrk], above address 0 and below 4 GiB, and no two
    of them overlap, nor do they overlap the header of any block. *)
Theorem live_objects_separate h l :
  heap_inv h l ->
  ForallOrdPairs apart (live l) /\
  Forall (fun x => 0 < x.1 /\ x.1 + x.2 <= 2 ^ 32 /\
    mapped_range (brk h) x.1 (x.1 + x.2) /\
    Forall (fun ah => ah.1 + HDR <= x.1 \/ x.1 + x.2 <= ah.1) l) (live l).
Proof.
  intros Hinv. pose proof (hi_wf _ _ Hinv) as Hw. split; [by eapply live_apart|].
  pose proof (live_bounds _ _ Hw) as Hb. apply Forall_forall. intros [p n] Hin.
  rewrite Forall_forall in Hb. destruct (Hb _ Hin) as (? & ? & ?). cbn in *.
  apply live_split in Hin as (l1 & hd & r & -> & _ & <-).
  pose proof (hi_top _ _ Hinv). pose proof (wf_chain_mid _ _ _ _ _ Hw) as (_ & _ & _ & ? & _).
  split_and!; [done|unfold HDR in *; lia|done|].
  pose proof (wf_chain_below _ _ _ _ _ Hw) as Hbl.
  pose proof (wf_chain_above _ _ _ _ (wf_chain_app _ _ _ Hw)) as Hab.
  apply Forall_app. split; [|constructor].
  - eapply Forall_impl; [exact Hbl|]. cbn. intros ch Hc. unfold HDR in *. lia.
  - cbn. lia.
  - eapply Forall_impl; [exact Hab|]. cbn. intros ch Hc. unfold HDR in *. lia.
Qed.
(** The guard of [kreallocarray], [kcalloc] and [krecalloc] is exact: it
    refuses a product of two [size_t] values exactly when it does not fit. *)
Theorem mul_overflows_exact n m :
  fits 32 n -> fits 32 m -> (mul_overflows n m = false <-> u32 (n * m) = n * m).
Proof.
  intros Hn Hm. pose proof (mul_overflows_spec _ _ Hn Hm) as Hs.
  pose proof (u32_fits (n * m)). unfold fits in *.
  destruct (mul_overflows n m); split; intros; try done.
  - assert (2 ^ 32 <= n * m) by (by apply Hs). lia.
  - apply u32_small. destruct Hs as [_ Hs]. split; [nia|].
    destruct (Z.lt_ge_cases (n * m) (2 ^ 32)) as [?|Hge]; [done|]. discriminate (Hs ltac:(lia)).
Qed.

(** The size computation of [find_free_entry] and [int_kmalloc] wraps
    around.  A request of 2^32 - 20 bytes makes the required size 0, so the
    first free block, however small, is returned for it, and the header of
    that block is left linked to itself. *)
Theorem int_kmalloc_size_wraps h a hd r :
  heap_inv h ((a, hd) :: r) -> is_free hd = true ->
  exists h', int_kmalloc (2 ^ 32 - HDR) h = Ok (a + HDR, h') /\
    get a h' = Ok (mkHeader MAGIC (2 ^ 32 - HDR) 0 a).
Proof.
  intros Hinv Hfr. pose proof (heap_inv_seg h [] _ Hinv ltac:(done)) as Hseg.
  pose proof (si_wf _ _ Hseg) as [(Ha & Hm & Hsz & Hend & _) _].
  pose proof (hi_top _ _ Hinv) as Htop. pose proof (hi_head _ _ Hinv) as Hh. cbn in Hh.
  unfold int_kmalloc. cbn [int_kmalloc_fuel]. unfold find_free_entry.
  destruct (Z.eqb_spec (head h) 0); [lia|]. unfold chain_fuel. cbn [find_loop].
  rewrite Hh. destruct (Z.eqb_spec a 0); [lia|]. rewrite (seg_get _ _ _ _ Hseg).
  change (u32 (2 ^ 32 - HDR + HDR)) with 0. cbn [mbind outcome_bind].
  rewrite Hm, Z.eqb_refl. fold (is_free hd). rewrite Hfr. cbn [c_assert mbind outcome_bind negb].
  destruct (Z.ltb_spec (h_size hd) 0); [lia|]. cbn [mbind outcome_bind].
  destruct (Z.eqb_spec a 0); [lia|]. unfold split_entry.
  rewrite (seg_get _ _ _ _ Hseg). cbn [mbind outcome_bind].
  assert (Hw : forall x, 0 <= x < 2 ^ 32 -> u32 (x + 2 ^ 32) = x /\ u32 (x - 2 ^ 32) = x).
  { intros x Hx. unfold u32, wrap. split.
    - rewrite <- (Z.mul_1_l (2 ^ 32)) at 1. rewrite Z_mod_plus_full. by apply Z.mod_small.
    - replace (x - 2 ^ 32) with (x + (-1) * 2 ^ 32) by lia. rewrite Z_mod_plus_full.
      by apply Z.mod_small. }
  replace (a + HDR + (2 ^ 32 - HDR)) with (a + 2 ^ 32) by lia.
  replace (h_size hd - (2 ^ 32 - HDR) - HDR) with (h_size hd - 2 ^ 32) by lia.
  unfold HDR in Hend.
  rewrite (proj1 (Hw a ltac:(lia))), (proj2 (Hw (h_size hd) ltac:(lia))).
  assert (He : mkHeader MAGIC (h_size hd) (h_flags hd) (h_n hd) = hd)
    by (rewrite <- Hm; by destruct hd).
  rewrite He. cbv zeta.
  set (h1 := if a =? _ then _ else _).
  assert (Hs1 : seg_inv h1 ((a, hd) :: r)).
  { apply (heap_inv_seg h1 []); [|done]. unfold h1.
    pose proof (heap_inv_put h [] a hd hd r Hinv Hm eq_refl ltac:(lia) eq_refl) as Hp.
    destruct (Z.eqb_spec a (final (put a hd h))) as [E|_]; [|done].
    destruct Hp as [? ? Hf ? ?]. split; try done. etrans; [exact Hf|]. by f_equal. }
  destruct (merged_step _ _ _ _ Hs1) as (again & h2 & hb & r' & -> & _).
  eexists. split; [done|]. unfold get. cbn [hmem put]. by rewrite lookup_insert_eq.
Qed.
End Heap.

(** A page source with an empty kernel image below 1 MiB, to instantiate the
    theorems with: memory is handed out in order until 4 GiB. *)
#[export] Instance bump_sbrk : Sbrk Z := {
  ksbrk n t := if (0 <? t) && (0 <=? n) && (t + n <=? 2 ^ 32)
               then (Some t, t + n) else (None, t);
  brk_top t := t;
  brk_mapped t x := 0 <= x < t
}.

#[export] Instance bump_sbrk_ok : SbrkOk Z.
Proof.
  split; cbn.
  - intros n s r s'. case_goal; intros; simplify_eq; breflect; lia.
  - intros n s r s'. case_goal; intros; simplify_eq; breflect; lia.
  - intros n s r s' x. case_goal; intros; simplify_eq; breflect; lia.
  - intros n s p s' Hn. case_goal; intros; simplify_eq; breflect. split_and!; lia.
Qed.

Definition empty_heap : heap := mkHeap ∅ 0 0 0 0x100000.

Definition used_hdr : MallocHeader := mkHeader MAGIC 100 0 (0x100000 + 120).
Definition rest_hdr : MallocHeader := mkHeader MAGIC 5000 3 0.
Definition small_blocks : list (Z * MallocHeader) :=
  [(0x100000, used_hdr); (0x100000 + 120, rest_hdr)].
Definition small_heap : heap :=
  mkHeap (list_to_map small_blocks) 0x100000 (0x100000 + 120) 5100 0x110000.

Lemma small_heap_inv : heap_inv small_heap small_blocks.
Proof.
  split; [repeat constructor|reflexivity|reflexivity| |cbn; lia].
  cbn. unfold mapped_range, is_final. cbn. unfold HDR. split_and!; try done; try lia.
  all: intros; cbn; lia.
Qed.

Lemma kmalloc_refines_witness :
  exists r h' l', exec (CMalloc 100) empty_heap = Ok (r, h') /\ ready h' l' /\
    spec_step (live []) (CMalloc 100) r (live l').
Proof.
  apply (kmalloc_refines empty_heap []).
  - right. split_and!; [reflexivity..|]. by eexists _, _.
  - cbn. lia.
Defined.

Lemma live_objects_separate_witness :
  ForallOrdPairs apart (live small_blocks) /\
  Forall (fun x => 0 < x.1 /\ x.1 + x.2 <= 2 ^ 32 /\
    mapped_range (brk small_heap) x.1 (x.1 + x.2) /\
    Forall (fun ah => ah.1 + HDR <= x.1 \/ x.1 + x.2 <= ah.1) small_blocks)
    (live small_blocks).
Proof. apply (live_objects_separate small_heap small_blocks). exact small_heap_inv. Defined.

(** The heap after its initialisation: one free block. *)
Definition free_hdr : MallocHeader := mkHeader MAGIC (NEW_ALLOC_SIZE - HDR) 3 0.
Definition fresh_heap : heap :=
  mkHeap (list_to_map [(0x100000, free_hdr)]) 0x100000 0x100000 (NEW_ALLOC_SIZE - HDR) 0x140000.

Lemma int_kmalloc_size_wraps_witness :
  exists h', int_kmalloc (2 ^ 32 - HDR) fresh_heap = Ok (0x100000 + HDR, h') /\
    get 0x100000 h' = Ok (mkHeader MAGIC (2 ^ 32 - HDR) 0 0x100000).
Proof.
  apply (int_kmalloc_size_wraps fresh_heap 0x100000 free_hdr []); [|reflexivity].
  split; [repeat constructor|reflexivity|reflexivity| |cbn; lia].
  cbn. unfold mapped_range, is_final. cbn. unfold HDR, NEW_ALLOC_SIZE.
  split_and!; try done; try lia.
Defined.

Lemma mul_overflows_exact_witness :
  fits 32 0x10000 /\ (mul_overflows 0x10000 0x10000 = false <->
    u32 (0x10000 * 0x10000) = 0x10000 * 0x10000).
Proof. split; [done|]. by apply (mul_overflows_exact 0x10000 0x10000). Defined.


