(* ===== verification/SlotTable.v ===== *)
(** What kernel/lib/relist.c promises its clients: a growing table of slots that
    hold pointers.  File descriptors and queue entries are proved against this
    interface; [Relist] implements it. *)

From stdpp Require Import base numbers list.
From Stdlib Require Import ZArith Lia.
From S2P Require Import Prelude Alloc.

Open Scope Z_scope.

(** The operations of lib/relist.h.  [slot_get] gives the value and the [end]
    flag; [slot_add] the index, [slot_clone] whether it succeeded. *)
Class SlotTable (T H : Type) : Type := {
  slot_init : H -> T * H;
  slot_add : T -> Z -> H -> outcome (option Z * T * H);
  slot_get : T -> Z -> outcome (option Z * bool);
  slot_set : T -> Z -> Z -> outcome T;
  slot_remove : T -> Z -> outcome T;
  slot_clone : T -> H -> outcome (bool * T * H);
  slot_free : T -> H -> T * H
}.

(** The abstract state: a partial map from indices to values, and the number of
    slots there is memory for.  A table that is not [slot_ok] has lost its bitmap and
    must not be used any more. *)
Class SlotView (T : Type) : Type := {
  slot_ok : T -> Prop;
  slot_view : T -> Z -> option Z;
  slot_size : T -> Z
}.

(** [t'] is [t] with slot [i] holding [v]. *)
Definition slot_changed {T} `{SlotView T} (t t' : T) (i : Z) (v : option Z) : Prop :=
  slot_ok t' /\ forall j, slot_view t' j = if j =? i then v else slot_view t j.

Class SlotLaws (T H : Type) `{SlotTable T H, SlotView T} : Prop := {
  slot_size_bound : forall t, slot_ok t -> 0 <= slot_size t < 2 ^ 32;
  slot_view_range : forall t i v, slot_ok t -> slot_view t i = Some v -> 0 <= i < slot_size t;
  slot_init_empty : forall h t h', slot_init h = (t, h') -> slot_ok t /\ (forall i, slot_view t i = None) /\ slot_size t <= 64;
  slot_get_view : forall t i, slot_ok t -> 0 <= i ->
    slot_get t i = Ok (slot_view t i, slot_size t <=? i);
  slot_add_lowest : forall t v h, slot_ok t -> slot_size t + 64 < 2 ^ 32 ->
    exists r t' h', slot_add t v h = Ok (r, t', h') /\
      match r with
      | Some i => 0 <= i /\ slot_view t i = None /\ (forall j, 0 <= j < i -> slot_view t j <> None) /\
          slot_changed t t' i (Some v) /\ slot_size t <= slot_size t' <= slot_size t + 64
      | None => (t' = t \/ ~ slot_ok t') /\ forall j, 0 <= j < slot_size t -> slot_view t j <> None
      end;
  slot_set_one : forall t i v, slot_ok t -> 0 <= i < slot_size t ->
    exists t', slot_set t i v = Ok t' /\ slot_changed t t' i (Some v) /\ slot_size t' = slot_size t;
  slot_set_outside : forall t i v, slot_ok t -> slot_size t <= i < 2 ^ 32 -> slot_set t i v = Panic;
  slot_remove_one : forall t i v, slot_ok t -> slot_view t i = Some v ->
    exists t', slot_remove t i = Ok t' /\ slot_changed t t' i None /\ slot_size t' = slot_size t;
  slot_free_empty : forall t h t' h', slot_free t h = (t', h') ->
    slot_ok t' /\ (forall i, slot_view t' i = None) /\ slot_size t' = 0;
  slot_clone_same : forall t h, slot_ok t ->
    exists ok t' h', slot_clone t h = Ok (ok, t', h') /\
      (ok = true -> slot_ok t' /\ (forall i, slot_view t' i = slot_view t i) /\ slot_size t' = slot_size t)
}.
