(* ===== verification/Relist.v ===== *)
(** kernel/lib/relist.c: the reusable index list behind file descriptors, queue
    entries and TCP connections.  A bitmap of 64 bit words says which slots of
    [entries] are in use.  [rl_view] is the abstract partial map from indices to
    pointers; the theorems relate every operation to it. *)

From stdpp Require Import base numbers list gmap.
From Stdlib Require Import ZArith Lia.
From S2P Require Import Prelude Alloc Bitmap SlotTable.

Open Scope Z_scope.

Record relist : Type := mkRelist {
  entries : option (block Z);
  bitmap_capacity : Z;
  num_entries : Z;
  bitmap : option (block Z)
}.

(** [sizeof(void * ) * sizeof(u64) * 8]: the pointers of one bitmap word. *)
Definition ENTRY_BYTES : Z := 4 * 8 * 8.

Section Operations.
Context {H : Type} `{Allocator H}.

Definition relist_init (h : H) : relist * H :=
  match calloc_array 0 8 1 h with
  | (None, h) => (mkRelist None 0 0 None, h)
  | (Some bm, h) =>
      match alloc_words ENTRY_BYTES 1 h with
      | (None, h) => (mkRelist None 0 0 None, kfree (Some (blk_addr bm)) h)
      | (Some en, h) => (mkRelist (Some en) 1 0 (Some bm), h)
      end
  end.

Definition relist_reset (l : relist) : relist :=
  mkRelist (entries l) (bitmap_capacity l) 0
    (set_data (bitmap l) (replicate (Z.to_nat (bitmap_capacity l)) 0)).

Definition relist_clone (l : relist) (h : H) : outcome (bool * relist * H) :=
  match calloc_array 0 8 (bitmap_capacity l) h with
  | (None, h) => Ok (false, mkRelist None 0 0 None, h)
  | (Some bm, h) =>
      match alloc_words ENTRY_BYTES (bitmap_capacity l) h with
      | (None, h) => Ok (false, mkRelist None 0 0 None, kfree (Some (blk_addr bm)) h)
      | (Some en, h) =>
          b ← memcpy_at (blk_data bm) 0 (data_of (bitmap l)) 0 (bitmap_capacity l);
          e ← memcpy_at (blk_data en) 0 (data_of (entries l)) 0 (64 * bitmap_capacity l);
          Ok (true, mkRelist (Some (Block (blk_addr en) e)) (bitmap_capacity l)
                      (num_entries l) (Some (Block (blk_addr bm) b)), h)
      end
  end.

(** The inner loop of [relist_find_free_entry]: the first clear bit from [c] on. *)
Fixpoint find_clear_bit (k : nat) (w c : Z) : option Z :=
  match k with
  | O => None
  | S k => if negb (is_set w (Z.shiftl 1 c)) then Some c else find_clear_bit k w (c + 1)
  end.

Definition ALL_ONES : Z := 2 ^ 64 - 1.

(** Its outer loop over the words [ws] that start at index [i]. *)
Fixpoint find_free_word (ws : list Z) (i : Z) : option Z :=
  match ws with
  | [] => None
  | w :: ws =>
      if w =? ALL_ONES then find_free_word ws (u32 (i + 1))
      else match find_clear_bit 64 w 0 with
           | Some c => Some (u32 (i * 64 + c))
           | None => find_free_word ws (u32 (i + 1))
           end
  end.

(** The search reads the words of the bitmap, which is not there any more after
    [relist_add] failed to grow the entries. *)
Definition relist_find_free_entry (l : relist) : outcome (option Z) :=
  if zlen (data_of (bitmap l)) <? bitmap_capacity l then Fault
  else Ok (find_free_word (ztake (bitmap_capacity l) (data_of (bitmap l))) 0).

(** Stores [value] in slot [entry] and marks it used. *)
Definition occupy (l : relist) (entry value : Z) : outcome relist :=
  e ← awrite (data_of (entries l)) entry value;
  w ← aread (data_of (bitmap l)) (entry / 64);
  b ← awrite (data_of (bitmap l)) (entry / 64) (Z.lor w (Z.shiftl 1 (entry mod 64)));
  Ok (mkRelist (set_data (entries l) e) (bitmap_capacity l) (u32 (num_entries l + 1))
        (set_data (bitmap l) b)).

(** When there is no memory for the entries, the bitmap the list points to has
    been freed by the first [krecalloc] and its successor is freed too: none of
    its words can be read any more. *)
Definition relist_add (l : relist) (value : Z) (h : H) : outcome (option Z * relist * H) :=
  found ← relist_find_free_entry l;
  match found with
  | Some entry => l ← occupy l entry value; Ok (Some entry, l, h)
  | None =>
      let new_capacity := u32 (bitmap_capacity l + 1) in
      match recalloc_array 0 (bitmap l) 8 new_capacity 1 h with
      | (None, h) => Ok (None, l, h)
      | (Some bm, h) =>
          match recalloc_array 0 (entries l) ENTRY_BYTES new_capacity 64 h with
          | (None, h) =>
              Ok (None, mkRelist (entries l) (bitmap_capacity l) (num_entries l)
                          (set_data (bitmap l) []), kfree (Some (blk_addr bm)) h)
          | (Some en, h) =>
              let l := mkRelist (Some en) new_capacity (num_entries l) (Some bm) in
              found ← relist_find_free_entry l;
              match found with
              | None => Panic
              | Some entry => l ← occupy l entry value; Ok (Some entry, l, h)
              end
          end
      end
  end.

Definition relist_remove (l : relist) (index : Z) : outcome relist :=
  if u32 (bitmap_capacity l * 64) <=? index then Panic else
  w ← aread (data_of (bitmap l)) (index / 64);
  if negb (is_set w (Z.shiftl 1 (index mod 64))) then Panic else
  b ← awrite (data_of (bitmap l)) (index / 64) (Z.ldiff w (Z.shiftl 1 (index mod 64)));
  Ok (mkRelist (entries l) (bitmap_capacity l) (u32 (num_entries l - 1)) (set_data (bitmap l) b)).

Definition relist_set (l : relist) (index value : Z) : outcome relist :=
  if u32 (bitmap_capacity l * 64) <=? index then Panic else
  w ← aread (data_of (bitmap l)) (index / 64);
  b ← awrite (data_of (bitmap l)) (index / 64) (Z.lor w (Z.shiftl 1 (index mod 64)));
  e ← awrite (data_of (entries l)) index value;
  Ok (mkRelist (set_data (entries l) e) (bitmap_capacity l) (num_entries l)
        (set_data (bitmap l) b)).

(** The result and the [end] flag. *)
Definition relist_get (l : relist) (index : Z) : outcome (option Z * bool) :=
  if u32 (bitmap_capacity l * 64) <=? index then Ok (None, true) else
  w ← aread (data_of (bitmap l)) (index / 64);
  if negb (is_set w (Z.shiftl 1 (index mod 64))) then Ok (None, false) else
  v ← aread (data_of (entries l)) index;
  Ok (Some v, false).

Definition relist_free (l : relist) (h : H) : relist * H :=
  (mkRelist None 0 0 None, kfree (ptr_of (bitmap l)) (kfree (ptr_of (entries l)) h)).
End Operations.

(** ** The partial map a list stands for *)

Definition used (l : relist) (i : Z) : bool := bit_at 64 (data_of (bitmap l)) i.

Definition rl_view (l : relist) (i : Z) : option Z :=
  if (0 <=? i) && used l i then znth (data_of (entries l)) i else None.

(** Both arrays have the size [bitmap_capacity] says, and indices fit a [u32]. *)
Record rl_inv (l : relist) : Prop := {
  rl_cap : 0 <= bitmap_capacity l /\ bitmap_capacity l * 64 < 2 ^ 32;
  rl_bitmap : zlen (data_of (bitmap l)) = bitmap_capacity l;
  rl_words : Forall (fits 64) (data_of (bitmap l));
  rl_entries : zlen (data_of (entries l)) = 64 * bitmap_capacity l
}.


(** ** Bitmaps *)

Lemma find_clear_bit_spec k w c :
  0 <= c ->
  match find_clear_bit k w c with
  | Some d => c <= d < c + Z.of_nat k /\ Z.testbit w d = false /\
              forall j, c <= j < d -> Z.testbit w j = true
  | None => forall j, c <= j < c + Z.of_nat k -> Z.testbit w j = true
  end.
Proof.
  revert c. induction k as [|k IH]; intros c Hc; cbn [find_clear_bit]; [lia|].
  rewrite is_set_shiftl by done. destruct (Z.testbit w c) eqn:E; cbn [negb].
  - specialize (IH (c + 1) ltac:(lia)). destruct (find_clear_bit k w (c + 1)).
    + destruct IH as (? & ? & Hj). split_and!; [lia..|done|].
      intros j ?. destruct (Z.eq_dec j c) as [->|]; [done|]. apply Hj. lia.
    + intros j ?. destruct (Z.eq_dec j c) as [->|]; [done|]. apply IH. lia.
  - split_and!; [lia..|done|]. lia.
Qed.

Lemma find_free_word_spec ws i :
  0 <= i -> (i + zlen ws) * 64 < 2 ^ 32 ->
  match find_free_word ws i with
  | Some e => i * 64 <= e < (i + zlen ws) * 64 /\ bit_at 64 ws (e - i * 64) = false /\
              forall j, 0 <= j < e - i * 64 -> bit_at 64 ws j = true
  | None => forall j, 0 <= j < 64 * zlen ws -> bit_at 64 ws j = true
  end.
Proof.
  revert i. induction ws as [|w ws IH]; intros i Hi Hlen; cbn [find_free_word].
  { intros j Hj. zlia. }
  assert (Hz : zlen (w :: ws) = 1 + zlen ws) by zlia. pose proof (zlen_nonneg ws).
  assert (Hnext : (forall j, 0 <= j < 64 -> Z.testbit w j = true) ->
    match find_free_word ws (u32 (i + 1)) with
    | Some e => i * 64 <= e < (i + zlen (w :: ws)) * 64 /\
                bit_at 64 (w :: ws) (e - i * 64) = false /\
                forall j, 0 <= j < e - i * 64 -> bit_at 64 (w :: ws) j = true
    | None => forall j, 0 <= j < 64 * zlen (w :: ws) -> bit_at 64 (w :: ws) j = true
    end).
  { intros Hall. rewrite u32_small by lia. specialize (IH (i + 1) ltac:(lia) ltac:(lia)).
    destruct (find_free_word ws (i + 1)) as [e|].
    - destruct IH as (He & Hb & Hlow). rewrite (bit_at_cons 64) by lia.
      destruct (Z.ltb_spec (e - i * 64) 64); [lia|]. split_and!; [lia..| |].
      + rewrite <- Hb. f_equal. lia.
      + intros j Hj. rewrite (bit_at_cons 64) by lia. destruct (Z.ltb_spec j 64); [auto with lia|].
        apply Hlow. lia.
    - intros j Hj. rewrite (bit_at_cons 64) by lia. destruct (Z.ltb_spec j 64); [auto with lia|].
      apply IH. lia. }
  destruct (Z.eqb_spec w ALL_ONES) as [E|_]; [apply Hnext; intros; rewrite E; by apply (ones_bits 64)|].
  pose proof (find_clear_bit_spec 64 w 0 ltac:(lia)) as Hc.
  destruct (find_clear_bit 64 w 0) as [c|]; [|by apply Hnext].
  destruct Hc as (Hc & Hb & Hlow). rewrite u32_small by lia. split_and!; [lia..| |].
  - rewrite (bit_at_cons 64) by lia. destruct (Z.ltb_spec (i * 64 + c - i * 64) 64); [|lia].
    rewrite <- Hb. f_equal. lia.
  - intros j Hj. rewrite (bit_at_cons 64) by lia. destruct (Z.ltb_spec j 64); [|lia]. apply Hlow. lia.
Qed.

Lemma relist_find_free_entry_spec l :
  rl_inv l ->
  exists r, relist_find_free_entry l = Ok r /\
  match r with
  | Some e => 0 <= e < 64 * bitmap_capacity l /\ used l e = false /\
              forall j, 0 <= j < e -> used l j = true
  | None => forall j, 0 <= j < 64 * bitmap_capacity l -> used l j = true
  end.
Proof.
  intros [[Hc0 Hc1] Hb Hw He]. unfold relist_find_free_entry, used.
  rewrite (proj2 (Z.ltb_ge _ _)) by lia. rewrite ztake_all by done. eexists. split; [done|].
  pose proof (find_free_word_spec (data_of (bitmap l)) 0 ltac:(lia) ltac:(lia)) as Hs.
  destruct (find_free_word _ 0) as [e|].
  - rewrite Z.mul_0_l, Z.sub_0_r, Z.add_0_l, Hb in Hs. split_and!; try lia; apply Hs.
  - by rewrite Hb in Hs.
Qed.

(** ** Slots *)

Lemma slot_word l i :
  rl_inv l -> 0 <= i < 64 * bitmap_capacity l ->
  exists w, znth (data_of (bitmap l)) (i / 64) = Some w /\ fits 64 w /\
    0 <= i / 64 < zlen (data_of (bitmap l)) /\ 0 <= i mod 64 < 64 /\
    used l i = Z.testbit w (i mod 64).
Proof. intros [Hc Hb Hw He] Hi. apply bit_word; [lia|done|lia]. Qed.

(** What a list becomes when slot [e] is set to [v], or cleared. *)
Definition updates (l l' : relist) (e : Z) (v : option Z) : Prop :=
  rl_inv l' /\ bitmap_capacity l' = bitmap_capacity l /\
  forall j, rl_view l' j = if j =? e then v else rl_view l j.

Lemma used_range l j : rl_inv l -> 0 <= j -> used l j = true -> j < 64 * bitmap_capacity l.
Proof.
  intros [Hc Hb _ _] Hj. unfold used, bit_at. case_goal; [|done]. intros _.
  apply znth_Some_inv in E. rewrite Hb in E.
  pose proof (Z.mod_pos_bound j 64). rewrite (Z.div_mod j 64) by lia. lia.
Qed.

Lemma set_slot l e v w n :
  rl_inv l -> 0 <= e < 64 * bitmap_capacity l ->
  znth (data_of (bitmap l)) (e / 64) = Some w ->
  updates l (mkRelist (set_data (entries l) (<[Z.to_nat e := v]> (data_of (entries l))))
    (bitmap_capacity l) n
    (set_data (bitmap l)
      (<[Z.to_nat (e / 64) := Z.lor w (Z.shiftl 1 (e mod 64))]> (data_of (bitmap l))))) e (Some v).
Proof.
  intros Hinv He Hw. pose proof Hinv as [Hc Hb Hf Hn].
  destruct (slot_word _ _ Hinv He) as (w' & Hw' & Hfit & _ & Hm & _). simplify_eq.
  split_and!; [split|done|]; cbn [bitmap entries bitmap_capacity].
  - done.
  - by rewrite data_of_set, zlen_insert by apply zlen_insert.
  - rewrite data_of_set by apply zlen_insert. apply Forall_insert; [done|].
    rewrite shiftl_1 by lia. by apply fits_set_bit.
  - by rewrite data_of_set, zlen_insert by apply zlen_insert.
  - intros j. unfold rl_view, used. cbn [bitmap entries]. rewrite !data_of_set by apply zlen_insert.
    destruct (Z.leb_spec 0 j) as [Hj|Hj]; cbn [andb].
    2: { by destruct (Z.eqb_spec j e); [lia|]. }
    rewrite (bit_at_update 64 ltac:(lia) _ e w _ true)
      by (done || lia || (intros; apply set_bit_view; lia)).
    rewrite znth_insert by lia. by destruct (j =? e).
Qed.

Lemma clear_slot l e w n :
  rl_inv l -> 0 <= e < 64 * bitmap_capacity l ->
  znth (data_of (bitmap l)) (e / 64) = Some w ->
  updates l (mkRelist (entries l) (bitmap_capacity l) n
    (set_data (bitmap l)
      (<[Z.to_nat (e / 64) := Z.ldiff w (Z.shiftl 1 (e mod 64))]> (data_of (bitmap l))))) e None.
Proof.
  intros Hinv He Hw. pose proof Hinv as [Hc Hb Hf Hn].
  destruct (slot_word _ _ Hinv He) as (w' & Hw' & Hfit & _ & Hm & _). simplify_eq.
  split_and!; [split|done|]; cbn [bitmap entries bitmap_capacity]; try done.
  - by rewrite data_of_set, zlen_insert by apply zlen_insert.
  - rewrite data_of_set by apply zlen_insert. apply Forall_insert; [done|].
    rewrite shiftl_1 by lia. by apply fits_clear_bit.
  - intros j. unfold rl_view, used. cbn [bitmap entries]. rewrite !data_of_set by apply zlen_insert.
    destruct (Z.leb_spec 0 j) as [Hj|Hj]; cbn [andb].
    2: { by destruct (j =? e). }
    rewrite (bit_at_update 64 ltac:(lia) _ e w _ false)
      by (done || lia || (intros; apply clear_bit_view; lia)).
    by destruct (j =? e).
Qed.

Lemma occupy_spec l e v :
  rl_inv l -> 0 <= e < 64 * bitmap_capacity l ->
  exists l', occupy l e v = Ok l' /\ updates l l' e (Some v) /\
    num_entries l' = u32 (num_entries l + 1).
Proof.
  intros Hinv He. destruct (slot_word _ _ Hinv He) as (w & Hw & _ & Hd & _).
  unfold occupy. rewrite awrite_ok by (rewrite (rl_entries _ Hinv); lia).
  cbn [mbind outcome_bind]. rewrite (aread_ok _ _ _ Hw). cbn [mbind outcome_bind].
  rewrite awrite_ok by done. eexists. split_and!; [done|by apply set_slot|done].
Qed.

Lemma rl_view_used l j : rl_inv l -> 0 <= j -> rl_view l j = None <-> used l j = false.
Proof.
  intros Hinv Hj. unfold rl_view. destruct (Z.leb_spec 0 j); [|lia]. cbn [andb].
  destruct (used l j) eqn:E; [|done]. pose proof (used_range _ _ Hinv Hj E).
  destruct (znth_Some (data_of (entries l)) j) as [x Hx]; [rewrite (rl_entries _ Hinv); lia|].
  by rewrite Hx.
Qed.

(** The list after [relist_add] has grown it by one word. *)
Lemma grown_view l bm en :
  rl_inv l -> (bitmap_capacity l + 1) * 64 < 2 ^ 32 ->
  blk_data bm = data_of (bitmap l) ++ [0] ->
  blk_data en = data_of (entries l) ++ replicate 64 0 ->
  let l' := mkRelist (Some en) (bitmap_capacity l + 1) (num_entries l) (Some bm) in
  rl_inv l' /\ (forall j, rl_view l' j = rl_view l j) /\ used l' (64 * bitmap_capacity l) = false.
Proof.
  intros Hinv Hcap Hbm Hen l'. pose proof Hinv as [Hc Hb Hf Hn].
  assert (Hu : forall j, 0 <= j -> used l' j = used l j).
  { intros j Hj. unfold used, bit_at. cbn. rewrite Hbm.
    pose proof (Z.div_pos j 64 Hj ltac:(lia)).
    destruct (Z.lt_ge_cases (j / 64) (bitmap_capacity l)).
    - by rewrite znth_app_l by lia.
    - rewrite znth_app_r, (znth_None (data_of (bitmap l))) by lia. unfold znth.
      case_goal; [|done]. destruct (Z.to_nat _) as [|[]]; cbn; [|done..]. apply Z.bits_0. }
  split_and!.
  - split; cbn [bitmap entries bitmap_capacity data_of l']; rewrite ?Hbm, ?Hen, ?zlen_app; try zlia.
    apply Forall_app. split; [done|]. repeat constructor; lia.
  - intros j. unfold rl_view. destruct (Z.leb_spec 0 j); [cbn [andb]|done]. rewrite Hu by done.
    destruct (used l j) eqn:E; [|done]. cbn [entries data_of l']. rewrite Hen.
    apply znth_app_l. pose proof (used_range _ _ Hinv ltac:(done) E). lia.
  - rewrite Hu by lia. unfold used, bit_at. rewrite Z.mul_comm, Z.div_mul by lia.
    by rewrite znth_None by lia.
Qed.

(** ** Correctness *)

Section Theorems.
Context {H : Type} `{AllocatorBytes H}.

(** A list whose bitmap was freed: the same list when it had none. *)
Lemma dangling_bitmap l :
  rl_inv l ->
  let l' := mkRelist (entries l) (bitmap_capacity l) (num_entries l) (set_data (bitmap l) []) in
  l' = l \/ ~ rl_inv l'.
Proof.
  intros [Hc Hb _ _] l'. destruct l as [en cap n [[a d]|]]; cbn in *; [|by left].
  destruct d as [|w d]; [by left|right]. intros [_ Hb' _ _]. cbn in Hb'. zlia.
Qed.

Lemma relist_add_spec l v h :
  rl_inv l -> (bitmap_capacity l + 1) * 64 < 2 ^ 32 ->
  exists r l' h', relist_add l v h = Ok (r, l', h') /\
    match r with
    | Some i => rl_inv l' /\ 0 <= i /\ rl_view l i = None /\ (forall j, 0 <= j < i -> rl_view l j <> None) /\
        (forall j, rl_view l' j = if j =? i then Some v else rl_view l j) /\
        num_entries l' = u32 (num_entries l + 1) /\
        bitmap_capacity l <= bitmap_capacity l' <= bitmap_capacity l + 1
    | None => (l' = l \/ ~ rl_inv l') /\ forall j, 0 <= j < 64 * bitmap_capacity l -> rl_view l j <> None
    end.
Proof.
  intros Hinv Hcap. unfold relist_add. pose proof (rl_cap _ Hinv) as [Hc0 _].
  assert (Hfull : forall j, 0 <= j -> used l j = true -> rl_view l j <> None).
  { intros j Hj Hu Hv. apply rl_view_used in Hv; [congruence|done..]. }
  destruct (relist_find_free_entry_spec _ Hinv) as (r & -> & Hff). cbn [mbind outcome_bind].
  destruct r as [e|].
  { destruct Hff as (He & Hu & Hlow).
    destruct (occupy_spec _ _ v Hinv He) as (l' & -> & (Hi & Hcl & Hv) & Hn).
    exists (Some e), l', h. split_and!; try done; [lia|by apply rl_view_used; [| lia|]| |lia..].
    intros j Hj. apply Hfull; [lia|]. by apply Hlow. }
  rewrite u32_small by lia.
  destruct (recalloc_array 0 (bitmap l) 8 _ 1 h) as [[bm|] h1] eqn:Eb.
  2: { exists None, l, h1. split_and!; auto with lia. }
  destruct (recalloc_array 0 (entries l) ENTRY_BYTES _ 64 h1) as [[en|] h2] eqn:Ee.
  2: { eexists None, _, (kfree (Some (blk_addr bm)) h2). split_and!; [done| |auto with lia].
       by apply dangling_bitmap. }
  apply recalloc_array_grow in Eb; [|rewrite (rl_bitmap _ Hinv); lia].
  apply recalloc_array_grow in Ee; [|rewrite (rl_entries _ Hinv); lia].
  rewrite (rl_bitmap _ Hinv) in Eb. rewrite (rl_entries _ Hinv) in Ee.
  replace (Z.to_nat _) with 1%nat in Eb by lia. replace (Z.to_nat _) with 64%nat in Ee by lia.
  destruct (grown_view _ _ _ Hinv Hcap Eb Ee) as (Hinv' & Hview & Hfree).
  set (l1 := mkRelist _ _ _ _) in *. destruct (relist_find_free_entry_spec _ Hinv') as (r & -> & Hff').
  cbn [mbind outcome_bind]. destruct r as [e|].
  - destruct Hff' as (He & Hu & Hlow).
    destruct (occupy_spec _ _ v Hinv' He) as (l' & -> & (Hi & Hcl & Hv) & Hn).
    exists (Some e), l', h2. cbn [bitmap_capacity l1] in Hcl. split_and!; try done; [lia|..|lia|lia].
    + rewrite <- Hview. by apply rl_view_used; [|lia|].
    + intros j Hj. rewrite <- Hview. rewrite rl_view_used by (done || lia).
      rewrite Hlow by done. done.
    + intros j. by rewrite Hv, Hview.
  - rewrite Hff' in Hfree; [done|]. cbn [bitmap_capacity l1]. lia.
Qed.

(** [relist_add] stores the pointer in the lowest free slot, growing the
    list by 64 slots when every slot is used; nothing else changes.  It can only
    fail when all slots are used, and then changes nothing or loses the bitmap. *)
Theorem relist_add_lowest_free l v h :
  rl_inv l -> (bitmap_capacity l + 1) * 64 < 2 ^ 32 ->
  exists r l' h', relist_add l v h = Ok (r, l', h') /\
    match r with
    | Some i => rl_inv l' /\ 0 <= i /\ rl_view l i = None /\ (forall j, 0 <= j < i -> rl_view l j <> None) /\
        (forall j, rl_view l' j = if j =? i then Some v else rl_view l j) /\
        num_entries l' = u32 (num_entries l + 1)
    | None => (l' = l \/ ~ rl_inv l') /\ forall j, 0 <= j < 64 * bitmap_capacity l -> rl_view l j <> None
    end.
Proof.
  intros Hinv Hcap. destruct (relist_add_spec l v h Hinv Hcap) as (r & l' & h' & E & Hr).
  exists r, l', h'. split; [done|]. destruct r; [|done]. by destruct Hr as (? & ? & ? & ? & ? & ? & _).
Qed.

(** When the bitmap could grow and the entries could not, the call reports a
    failure and every later access to a descriptor reads freed memory. *)
Lemma failed_add_loses_bitmap l v h bm h1 h2 :
  rl_inv l -> 0 < bitmap_capacity l -> (bitmap_capacity l + 1) * 64 < 2 ^ 32 ->
  (forall j, 0 <= j < 64 * bitmap_capacity l -> rl_view l j <> None) ->
  recalloc_array 0 (bitmap l) 8 (bitmap_capacity l + 1) 1 h = (Some bm, h1) ->
  recalloc_array 0 (entries l) ENTRY_BYTES (bitmap_capacity l + 1) 64 h1 = (None, h2) ->
  exists l' h', relist_add l v h = Ok (None, l', h') /\
    forall j, 0 <= j < 64 * bitmap_capacity l -> relist_get l' j = Fault.
Proof.
  intros Hinv Hpos Hcap Hall Eb Ee. unfold relist_add.
  destruct (relist_find_free_entry_spec _ Hinv) as (r & -> & Hff). cbn [mbind outcome_bind].
  destruct r as [e|].
  { destruct Hff as (He & Hu & _). destruct (Hall e He). apply rl_view_used; [done|lia|done]. }
  rewrite u32_small, Eb, Ee by lia. do 2 eexists. split; [done|]. intros j Hj.
  unfold relist_get. cbn [bitmap_capacity bitmap]. rewrite u32_small by lia.
  rewrite (proj2 (Z.leb_gt _ _)) by lia. replace (data_of (set_data (bitmap l) [])) with (@nil Z) by (by destruct (bitmap l)).
  assert (E : znth (@nil Z) (j / 64) = None) by (apply znth_None; pose proof (Z.div_pos j 64); change (zlen (@nil Z)) with 0; lia).
  unfold aread. by rewrite E.
Qed.
End Theorems.

Lemma relist_get_view l i :
  rl_inv l -> 0 <= i ->
  relist_get l i = Ok (rl_view l i, 64 * bitmap_capacity l <=? i).
Proof.
  intros Hinv Hi. pose proof (rl_cap _ Hinv) as [Hc0 Hc1]. unfold relist_get.
  rewrite u32_small, (Z.mul_comm _ 64) by lia.
  destruct (Z.leb_spec (64 * bitmap_capacity l) i) as [Hge|Hlt].
  { do 2 f_equal. symmetry. apply rl_view_used; [done..|].
    destruct (used l i) eqn:E; [|done]. pose proof (used_range _ _ Hinv Hi E). lia. }
  destruct (slot_word _ _ Hinv (conj Hi Hlt)) as (w & Hw & _ & _ & Hm & Hu).
  rewrite (aread_ok _ _ _ Hw). cbn [mbind outcome_bind]. rewrite is_set_shiftl by lia.
  rewrite <- Hu. unfold rl_view. destruct (Z.leb_spec 0 i); [|lia]. cbn [andb].
  destruct (used l i) eqn:E; cbn [negb]; [|done].
  destruct (znth_Some (data_of (entries l)) i) as [x Hx]; [rewrite (rl_entries _ Hinv); lia|].
  rewrite Hx. unfold aread. by rewrite Hx.
Qed.

(** On a well-formed list [relist_get] reads the partial map and reports the
    end of the list, [relist_set] updates exactly one slot, [relist_remove]
    empties exactly the slot it is given, and the only way to fail an assertion
    is to pass an index outside the list, or, for a removal, an unused one. *)
Lemma relist_slot_ops l i v :
  rl_inv l -> 0 <= i < 2 ^ 32 ->
  relist_get l i = Ok (rl_view l i, 64 * bitmap_capacity l <=? i) /\
  (if i <? 64 * bitmap_capacity l
   then exists l', relist_set l i v = Ok l' /\ updates l l' i (Some v)
   else relist_set l i v = Panic) /\
  (if rl_view l i is Some _
   then exists l', relist_remove l i = Ok l' /\ updates l l' i None /\
          num_entries l' = u32 (num_entries l - 1)
   else relist_remove l i = Panic).
Proof.
  intros Hinv Hi. split; [apply relist_get_view; [done|lia]|].
  pose proof (rl_cap _ Hinv) as [Hc0 Hc1]. unfold relist_set, relist_remove.
  rewrite (u32_small (bitmap_capacity l * 64)), (Z.mul_comm _ 64) by lia.
  pose proof (rl_view_used l i Hinv ltac:(lia)) as Hvu.
  destruct (Z.leb_spec (64 * bitmap_capacity l) i) as [Hge|Hlt], (Z.ltb_spec i (64 * bitmap_capacity l));
    try lia.
  { split; [done|]. destruct (rl_view l i) eqn:Ev; [|done]. exfalso.
    destruct (used l i) eqn:Eu; [|by destruct Hvu as [_ Hvu]; specialize (Hvu eq_refl)].
    pose proof (used_range _ _ Hinv (proj1 Hi) Eu). lia. }
  destruct (slot_word l i Hinv (conj (proj1 Hi) Hlt)) as (w & Hw & _ & Hd & Hm & Hu).
  rewrite (aread_ok _ _ _ Hw). cbn [mbind outcome_bind]. rewrite is_set_shiftl by lia.
  rewrite (awrite_ok (data_of (bitmap l))) by done. cbn [mbind outcome_bind]. rewrite <- Hu.
  rewrite awrite_ok by (rewrite (rl_entries _ Hinv); lia). cbn [mbind outcome_bind]. split.
  { eexists. split; [done|]. apply set_slot; [done|lia|done]. }
  destruct (used l i) eqn:Eu; cbn [negb].
  - destruct (rl_view l i) eqn:Ev; [|destruct Hvu as [Hvu _]; by specialize (Hvu eq_refl)].
    rewrite awrite_ok by done. eexists. split_and!; [done| |done].
    apply clear_slot; [done|lia|done].
  - by rewrite (proj2 Hvu eq_refl).
Qed.

(** ** The interface *)

Section Interface.
Context {H : Type} `{AllocatorBytes H}.

#[export] Instance relist_table : SlotTable relist H := {
  slot_init := relist_init;
  slot_add := relist_add;
  slot_get := relist_get;
  slot_set := relist_set;
  slot_remove := relist_remove;
  slot_clone := relist_clone;
  slot_free := relist_free
}.

#[export] Instance relist_view : SlotView relist := {
  slot_ok := rl_inv;
  slot_view := rl_view;
  slot_size := fun l => 64 * bitmap_capacity l
}.

Lemma relist_null : rl_inv (mkRelist None 0 0 None) /\ forall i, rl_view (mkRelist None 0 0 None) i = None.
Proof.
  split; [split; cbn; [lia|done|constructor|done]|].
  intros i. unfold rl_view, used, bit_at. cbn [bitmap entries data_of].
  rewrite (znth_None [] (i / 64)) by (change (zlen (@nil Z)) with 0; lia). by rewrite andb_false_r.
Qed.

Lemma relist_init_spec (h : H) l h' :
  relist_init h = (l, h') -> rl_inv l /\ (forall i, rl_view l i = None) /\ bitmap_capacity l <= 1.
Proof.
  destruct relist_null as [Hn Hv].
  unfold relist_init, calloc_array, alloc_words.
  destruct (kcalloc 8 1 h) as [[b|] h1]; [|intros [= <- <-]; split_and!; [done..|cbn; lia]].
  destruct (kallocarray ENTRY_BYTES 1 h1) as [[e|] h2]; intros [= <- <-]; [|split_and!; [done..|cbn; lia]].
  split_and!; [split| |]; cbn [bitmap entries bitmap_capacity data_of blk_data]; [lia|done|repeat constructor; lia| | |lia].
  - apply le32_words_length. rewrite kbytes_len; unfold ENTRY_BYTES; lia.
  - intros i. unfold rl_view, used, bit_at. cbn [bitmap entries data_of blk_data]. unfold znth.
    destruct (Z.leb_spec 0 i); [|done]. cbn [andb]. change (Z.to_nat 1) with 1%nat. cbn [replicate].
    destruct (0 <=? i / 64); [|done]. destruct (Z.to_nat (i / 64)) as [|[]]; cbn; [by rewrite Z.bits_0|done..].
Qed.

Lemma memcpy_whole {A} (dst src : list A) n :
  zlen dst = n -> zlen src = n -> memcpy_at dst 0 src 0 n = Ok src.
Proof.
  intros Hd Hs. pose proof (zlen_nonneg dst). rewrite memcpy_at_ok by lia. f_equal.
  assert (E : slice 0 n src = src) by (unfold slice, ztake, zdrop, zlen in *; cbn [Z.to_nat drop]; apply take_ge; lia).
  unfold splice. rewrite E, Hs. unfold ztake, zdrop, zlen in *. cbn [Z.to_nat take app].
  rewrite drop_ge by lia. apply app_nil_r.
Qed.

Lemma relist_clone_spec (l : relist) (h : H) :
  rl_inv l ->
  exists ok l' h', relist_clone l h = Ok (ok, l', h') /\ (ok = true -> rl_inv l' /\ (forall i, rl_view l' i = rl_view l i) /\ bitmap_capacity l' = bitmap_capacity l).
Proof.
  intros [Hc Hb Hw He]. unfold relist_clone.
  destruct (calloc_array 0 8 (bitmap_capacity l) h) as [[bm|] h1] eqn:Eb; [|by eexists _, _, _].
  destruct (alloc_words ENTRY_BYTES (bitmap_capacity l) h1) as [[en|] h2] eqn:Ee; [|by eexists _, _, _].
  assert (Hbm : zlen (blk_data bm) = bitmap_capacity l).
  { unfold calloc_array in Eb. destruct (kcalloc _ _ _) as [[?|] ?]; [|done]. injection Eb as <- _. cbn.
    unfold zlen. rewrite length_replicate. lia. }
  assert (Hen : zlen (blk_data en) = 64 * bitmap_capacity l).
  { eapply alloc_words_len; [exact Ee|unfold ENTRY_BYTES; lia|lia]. }
  rewrite memcpy_whole by done. cbn [mbind outcome_bind]. rewrite memcpy_whole by done. cbn [mbind outcome_bind].
  eexists true, _, h2. split; [done|]. intros _. split_and!; [by split|by intros|done].
Qed.

#[export] Instance relist_laws : SlotLaws relist H.
Proof.
  split; unfold slot_changed; cbn [slot_ok slot_view slot_size slot_init slot_add slot_get slot_set slot_remove slot_clone slot_free
    relist_table relist_view].
  - intros t Hi. pose proof (rl_cap _ Hi). lia.
  - intros t i v Hi Hv. assert (0 <= i) by (unfold rl_view in Hv; destruct (Z.leb_spec 0 i); [done|by destruct (used t i)]).
    split; [done|]. destruct (used t i) eqn:Eu; [by apply used_range|].
    by rewrite (proj2 (rl_view_used t i Hi ltac:(done)) Eu) in Hv.
  - intros h t h' E. destruct (relist_init_spec _ _ _ E) as (? & ? & ?). split_and!; [done|done|lia].
  - intros t i Hi Hr. by apply relist_get_view.
  - intros t v h Hi Hr. destruct (relist_add_spec t v h Hi ltac:(lia)) as (r & t' & h' & E & Hm).
    exists r, t', h'. split; [done|]. destruct r as [i|]; [|done].
    destruct Hm as (? & ? & ? & ? & ? & _ & ?). split_and!; [done..|lia|lia].
  - intros t i v Hi Hr. destruct (relist_slot_ops t i v Hi) as (_ & Hs & _); [pose proof (rl_cap _ Hi); lia|].
    destruct (Z.ltb_spec i (64 * bitmap_capacity t)); [|lia]. destruct Hs as (t' & E & ? & Hc & ?). exists t'.
    split_and!; [done|done|done|by rewrite Hc].
  - intros t i v Hi Hr. destruct (relist_slot_ops t i v Hi) as (_ & Hs & _); [pose proof (rl_cap _ Hi); lia|].
    by destruct (Z.ltb_spec i (64 * bitmap_capacity t)); [lia|].
  - intros t i v Hi Hv. assert (Hr : 0 <= i < 2 ^ 32).
    { assert (0 <= i) by (unfold rl_view in Hv; destruct (Z.leb_spec 0 i); [done|by destruct (used t i)]).
      destruct (used t i) eqn:Eu; [|by rewrite (proj2 (rl_view_used t i Hi ltac:(done)) Eu) in Hv].
      pose proof (used_range _ _ Hi ltac:(done) Eu). pose proof (rl_cap _ Hi). lia. }
    destruct (relist_slot_ops t i 0 Hi Hr) as (_ & _ & Hs). rewrite Hv in Hs. destruct Hs as (t' & E & (? & Hc & ?) & _).
    exists t'. split_and!; [done|done|done|by rewrite Hc].
  - intros t h t' h' E. injection E as <- _. destruct relist_null. by split_and!.
  - intros t h Hi. destruct (relist_clone_spec t h Hi) as (ok & t' & h' & E & Hc). exists ok, t', h'. split; [done|].
    intros Ho. destruct (Hc Ho) as (? & ? & Hcap). split_and!; [done|done|by rewrite Hcap].
Qed.
End Interface.

(** A list with one word whose first two slots are used. *)
Definition sample : relist :=
  mkRelist (Some (Block 4096 (replicate 64 7))) 1 2 (Some (Block 8192 [3])).

Lemma relist_sample_inv : rl_inv sample.
Proof. split; cbn; [lia|reflexivity| |reflexivity]. repeat constructor; lia. Qed.

Lemma relist_add_lowest_free_witness :
  exists r l' h', relist_add sample 99 4096 = Ok (r, l', h') /\
    match r with
    | Some i => rl_inv l' /\ 0 <= i /\ rl_view sample i = None /\
        (forall j, 0 <= j < i -> rl_view sample j <> None) /\
        (forall j, rl_view l' j = if j =? i then Some 99 else rl_view sample j) /\
        num_entries l' = u32 (num_entries sample + 1)
    | None => (l' = sample \/ ~ rl_inv l') /\
        forall j, 0 <= j < 64 * bitmap_capacity sample -> rl_view sample j <> None
    end.
Proof. apply (relist_add_lowest_free sample 99 4096); [exact relist_sample_inv|cbn; lia]. Defined.
