(* ===== verification/KList.v ===== *)
(** kernel/lib/list.c, kernel/lib/stack.c and kernel/lib/buffered_write.c: the
    growing pointer array, the linked stack of pointers and the fixed size
    output buffer. *)

From stdpp Require Import base numbers list gmap.
From Stdlib Require Import ZArith Lia.
From S2P Require Import Prelude Alloc.

Open Scope Z_scope.

(** ** list.c *)

Module KList.

Record klist : Type := mkList {
  entries : option (block Z);
  capacity : Z;
  tail_index : Z
}.

Section Operations.
Context {H : Type} `{Allocator H}.

Definition list_init (h : H) : klist * H :=
  match malloc_words 5 h with
  | (None, h) => (mkList None 0 (-1), h)
  | (Some b, h) => (mkList (Some b) 5 (-1), h)
  end.

Definition list_reset (l : klist) : klist := mkList (entries l) (capacity l) (-1).

Definition list_free (l : klist) (h : H) : klist * H :=
  (mkList None 0 (-1), kfree (ptr_of (entries l)) h).

(** The store at the end of [list_add]. *)
Definition list_push (l : klist) (entry : Z) : outcome klist :=
  let t := i32 (tail_index l + 1) in
  e ← awrite (data_of (entries l)) t entry;
  Ok (mkList (set_data (entries l) e) (capacity l) t).

Definition list_add (l : klist) (entry : Z) (h : H) : outcome (option Z * klist * H) :=
  if capacity l <=? i32 (tail_index l + 1) then
    let new_capacity := i32 (capacity l + 25) in
    match realloc_words (entries l) new_capacity h with
    | (None, h) => Ok (None, l, h)
    | (Some b, h) =>
        l ← list_push (mkList (Some b) new_capacity (tail_index l)) entry;
        Ok (Some (tail_index l), l, h)
    end
  else l ← list_push l entry; Ok (Some (tail_index l), l, h).

Definition list_set (l : klist) (index entry : Z) : outcome klist :=
  if tail_index l <? index then Panic else
  e ← awrite (data_of (entries l)) index entry;
  Ok (mkList (set_data (entries l) e) (capacity l) (tail_index l)).

Definition list_get (l : klist) (index : Z) : outcome (option Z) :=
  if tail_index l <? index then Ok None else
  v ← aread (data_of (entries l)) index;
  Ok (Some v).

(** The loop of [list_clone]; every turn that goes on has read one entry. *)
Fixpoint clone_loop (fuel : nat) (inp out : klist) (i : Z) (h : H)
  : outcome (bool * klist * H) :=
  match fuel with
  | O => NoFuel
  | S fuel =>
      v ← list_get inp i;
      match v with
      | None => Ok (true, out, h)
      | Some v =>
          '(r, out, h) ← list_add out v h;
          match r with
          | None => let '(out, h) := list_free out h in Ok (false, out, h)
          | Some _ => clone_loop fuel inp out (i32 (i + 1)) h
          end
      end
  end.

Definition list_clone (inp : klist) (h : H) : outcome (bool * klist * H) :=
  let '(out, h) := list_init h in
  clone_loop (Z.to_nat (tail_index inp + 2)) inp out 0 h.
End Operations.

(** The sequence a list stands for. *)
Definition contents (l : klist) : list Z := ztake (tail_index l + 1) (data_of (entries l)).

Record inv (l : klist) : Prop := {
  inv_len : zlen (data_of (entries l)) = capacity l;
  inv_tail : -1 <= tail_index l < capacity l;
  inv_cap : capacity l < 2 ^ 30
}.

Lemma contents_len l : inv l -> zlen (contents l) = tail_index l + 1.
Proof. intros [? ? ?]. unfold contents. apply zlen_ztake. lia. Qed.

Lemma list_get_spec l i :
  inv l -> 0 <= i -> list_get l i = Ok (znth (contents l) i).
Proof.
  intros Hinv Hi. pose proof (contents_len _ Hinv) as Hl. destruct Hinv as [Hlen Ht Hc].
  unfold list_get. destruct (Z.ltb_spec (tail_index l) i) as [Hgt|Hle].
  - by rewrite znth_None by lia.
  - destruct (znth_Some (data_of (entries l)) i) as [v Hv]; [lia|].
    rewrite (aread_ok _ _ _ Hv). cbn. unfold contents. by rewrite znth_ztake, Hv by lia.
Qed.

Lemma list_push_spec l e :
  inv l -> tail_index l + 1 < capacity l ->
  exists l', list_push l e = Ok l' /\ inv l' /\ contents l' = contents l ++ [e] /\
    tail_index l' = tail_index l + 1 /\ capacity l' = capacity l.
Proof.
  intros [Hlen Ht Hc] Hroom. unfold list_push. rewrite i32_small by lia.
  rewrite awrite_ok by lia. cbn [mbind outcome_bind]. eexists. split; [done|].
  assert (Hd : data_of (set_data (entries l) (<[Z.to_nat (tail_index l + 1) := e]>
                 (data_of (entries l)))) = <[Z.to_nat (tail_index l + 1) := e]> (data_of (entries l))).
  { apply data_of_set, zlen_insert. }
  split_and!; [split; cbn [entries capacity tail_index]; rewrite ?Hd, ?zlen_insert; lia| |done|done].
  unfold contents. cbn [entries tail_index]. rewrite Hd. unfold ztake.
  replace (Z.to_nat (tail_index l + 1 + 1)) with (S (Z.to_nat (tail_index l + 1))) by lia.
  erewrite take_S_r; [|apply list_lookup_insert_eq; zlia].
  by rewrite take_insert_ge by lia.
Qed.

Section Theorems.
Context {H : Type} `{AllocatorBytes H}.

Lemma list_add_spec l e h :
  inv l -> capacity l + 25 < 2 ^ 30 ->
  exists r l' h', list_add l e h = Ok (r, l', h') /\ inv l' /\
    match r with
    | Some i => i = zlen (contents l) /\ contents l' = contents l ++ [e] /\
        capacity l' <= Z.max (capacity l) (zlen (contents l) + 25)
    | None => l' = l
    end.
Proof.
  intros Hinv Hcap. pose proof (contents_len _ Hinv) as Hcl. pose proof Hinv as [Hlen Ht Hc].
  unfold list_add. rewrite !i32_small by lia. case_goal; breflect.
  - destruct (realloc_words (entries l) (capacity l + 25) h) as [[b|] h1] eqn:Eb.
    2: { exists None, l, h1. done. }
    apply realloc_words_grow in Eb as [Hbl Hbt]; [|lia].
    set (l1 := mkList _ _ _).
    assert (Hinv1 : inv l1) by (split; cbn; lia).
    destruct (list_push_spec l1 e Hinv1) as (l2 & -> & Hi2 & Hc2 & Ht2 & Hp2); [cbn; lia|].
    exists (Some (tail_index l2)), l2, h1. split_and!; [done..|cbn in Ht2; lia| |cbn in Hp2; lia].
    rewrite Hc2. f_equal. unfold contents. cbn [entries tail_index data_of l1].
    rewrite <- Hbt. unfold ztake. rewrite take_take. f_equal. lia.
  - destruct (list_push_spec l e Hinv) as (l2 & -> & Hi2 & Hc2 & Ht2 & Hp2); [lia|].
    exists (Some (tail_index l2)), l2, h. split_and!; [done..|lia|done|lia].
Qed.

Lemma clone_loop_spec inp fuel out i h :
  inv inp -> tail_index inp + 60 < 2 ^ 30 -> inv out -> 0 <= i ->
  i + Z.of_nat fuel = tail_index inp + 2 -> (0 < fuel)%nat ->
  contents out = ztake i (contents inp) -> capacity out <= i + 30 ->
  exists ok out' h', clone_loop fuel inp out i h = Ok (ok, out', h') /\
    if ok : bool then inv out' /\ contents out' = contents inp else out' = mkList None 0 (-1).
Proof.
  intros Hinp Hbig. pose proof (contents_len _ Hinp) as Hcl. pose proof Hinp as [_ Hti _].
  revert out i h. induction fuel as [|fuel IH]; intros out i h Hout Hi Hf Hpos Hc Hcap; [lia|].
  cbn [clone_loop]. rewrite list_get_spec by done. cbn [mbind outcome_bind].
  destruct (znth (contents inp) i) as [v|] eqn:Ev.
  - pose proof (znth_Some_inv _ _ _ Ev) as Hr.
    destruct (list_add_spec out v h Hout) as (r & out' & h' & -> & Hi' & Hm); [lia|].
    cbn [mbind outcome_bind]. destruct r as [k|].
    2: { by eexists false, _, _. }
    destruct Hm as (_ & Hc' & Hcap'). rewrite i32_small by lia.
    apply IH; [done|lia..| |].
    + rewrite Hc', Hc. by apply ztake_snoc.
    + rewrite Hc in Hcap'. rewrite zlen_ztake in Hcap' by lia. lia.
  - destruct (Z.lt_ge_cases i (tail_index inp + 1)) as [Hlt|Hge].
    { destruct (znth_Some (contents inp) i) as [x Hx]; [lia|]. congruence. }
    exists true, out, h. split_and!; [done..|]. rewrite Hc. apply ztake_all. lia.
Qed.

(** [list_add] appends to the sequence of entries, at the index it reports;
    [list_get] reads that sequence and fails exactly behind its end; and
    [list_clone] ends and, unless memory runs out, yields a list with the same
    sequence. *)
Theorem list_is_a_sequence l e h :
  inv l -> capacity l + 60 < 2 ^ 30 ->
  (forall i, 0 <= i -> list_get l i = Ok (znth (contents l) i)) /\
  (exists r l' h', list_add l e h = Ok (r, l', h') /\ inv l' /\
     match r with
     | Some i => i = zlen (contents l) /\ contents l' = contents l ++ [e]
     | None => l' = l
     end) /\
  (exists ok out h', list_clone l h = Ok (ok, out, h') /\
     (ok = true -> inv out /\ contents out = contents l)).
Proof.
  intros Hinv Hcap. pose proof Hinv as [_ Ht _].
  split_and!; [by intros; apply list_get_spec| |].
  - destruct (list_add_spec l e h Hinv) as (r & l' & h' & ? & ? & Hm); [lia|].
    exists r, l', h'. split_and!; [done..|]. destruct r; [|done]. tauto.
  - unfold list_clone, list_init.
    assert (Hrun : forall out h, inv out -> contents out = [] -> capacity out <= 5 ->
      exists ok out' h', clone_loop (Z.to_nat (tail_index l + 2)) l out 0 h = Ok (ok, out', h') /\
        (ok = true -> inv out' /\ contents out' = contents l)).
    { intros out h0 Ho Hc Hc5.
      destruct (clone_loop_spec l (Z.to_nat (tail_index l + 2)) out 0 h0)
        as (ok & out' & h' & -> & Hok); [done|lia|done|lia|lia|lia|done|lia|].
      exists ok, out', h'. split; [done|]. by intros ->. }
    destruct (malloc_words 5 h) as [[b|] h1] eqn:Eb; apply Hrun; try done; try (cbn; lia).
    all: split; cbn; try lia. by eapply malloc_words_len; [|lia].
Qed.
End Theorems.

Definition sample : klist := mkList (Some (Block 4096 [10; 20; 30; 0; 0])) 5 2.

Lemma klist_sample_inv : inv sample.
Proof. split; cbn; [reflexivity|lia|lia]. Qed.

Lemma list_is_a_sequence_witness :
  list_get sample 1 = Ok (Some 20) /\
  (exists r l' h', list_add sample 99 4096 = Ok (r, l', h') /\ inv l' /\
     match r with
     | Some i => i = 3 /\ contents l' = [10; 20; 30; 99]
     | None => l' = sample
     end).
Proof.
  destruct (list_is_a_sequence sample 99 4096 klist_sample_inv ltac:(cbn; lia)) as (Hg & Ha & _).
  split; [exact (Hg 1 ltac:(lia))|exact Ha].
Defined.
End KList.

(** ** stack.c *)

Module KStack.

(** [struct entry] objects by address, and the pointer in [struct stack]. *)
Record entry : Type := mkEntry { ptr : Z; next : option Z }.
Record stack : Type := mkStack { mem : gmap Z entry; head : option Z }.

Definition stack_init (m : gmap Z entry) : stack := mkStack m None.

Definition stack_isempty (s : stack) : bool := if head s is None then true else false.

Section Operations.
Context {H : Type} `{Allocator H}.

Definition stack_push (s : stack) (data : Z) (h : H) : bool * stack * H :=
  match kmalloc 8 h with
  | (None, h) => (false, s, h)
  | (Some p, h) => (true, mkStack (<[p := mkEntry data (head s)]> (mem s)) (Some p), h)
  end.

(** [kfree] takes the entry out of memory. *)
Definition stack_pop (s : stack) (h : H) : outcome (option Z * stack * H) :=
  match head s with
  | None => Ok (None, s, h)
  | Some p =>
      e ← deref (mem s !! p);
      Ok (Some (ptr e), mkStack (delete p (mem s)) (next e), kfree (Some p) h)
  end.
End Operations.

(** [s] holds the values [l], the top of the stack first, at distinct addresses. *)
Inductive is_stack (m : gmap Z entry) : option Z -> list Z -> list Z -> Prop :=
| is_nil : is_stack m None [] []
| is_cons p v q l ps :
    m !! p = Some (mkEntry v q) -> p ∉ ps -> is_stack m q l ps ->
    is_stack m (Some p) (v :: l) (p :: ps).

Definition holds (s : stack) (l : list Z) : Prop := exists ps, is_stack (mem s) (head s) l ps.

Lemma is_stack_frame m m' q l ps :
  is_stack m q l ps -> (forall p, p ∈ ps -> m' !! p = m !! p) -> is_stack m' q l ps.
Proof.
  induction 1 as [|p v q l ps Hm Hp Hs IH]; intros Hf; [constructor|].
  apply (is_cons _ _ _ q); [by rewrite Hf by left|done|].
  apply IH. intros. apply Hf. by right.
Qed.

Lemma is_stack_dom m q l ps : is_stack m q l ps -> forall p, p ∈ ps -> is_Some (m !! p).
Proof.
  induction 1 as [|p v q l ps Hm Hp Hs IH]; intros p' Hin; [by inversion Hin|].
  apply elem_of_cons in Hin as [->|Hin]; [eauto|auto].
Qed.

(** The stack is last in, first out: [stack_push] puts the value on top
    (or leaves the stack alone when memory runs out), [stack_pop] takes the top
    value, or reports an empty stack, and never follows a dangling pointer. *)
Theorem stack_lifo {H} `{Allocator H} s l v (h : H) :
  holds s l ->
  (forall p h', kmalloc 8 h = (Some p, h') -> mem s !! p = None) ->
  (let '(ok, s', _) := stack_push s v h in
   if ok : bool then holds s' (v :: l) else s' = s) /\
  (exists r s' h', stack_pop s h = Ok (r, s', h') /\
     match l with
     | [] => r = None /\ s' = s /\ stack_isempty s = true
     | w :: l' => r = Some w /\ holds s' l' /\ stack_isempty s = false
     end).
Proof.
  intros [ps Hs] Hfresh. split.
  - unfold stack_push. destruct (kmalloc 8 h) as [[p|] h'] eqn:Ek; [|done].
    specialize (Hfresh _ _ eq_refl). exists (p :: ps).
    assert (Hp : p ∉ ps) by (intros [e He]%(is_stack_dom _ _ _ _ Hs); congruence).
    apply (is_cons _ _ _ (head s)); [apply lookup_insert_eq|done|]. eapply is_stack_frame; [exact Hs|].
    intros q Hq. apply lookup_insert_ne. by intros ->.
  - unfold stack_pop, stack_isempty.
    inversion Hs as [E1 E2 E3|p w q l' ps' Hm Hp Hs' E1 E2 E3]; subst.
    + by eexists None, s, h.
    + rewrite Hm. cbn. eexists _, _, _. split_and!; [done..| |done].
      exists ps'. eapply is_stack_frame; [exact Hs'|]. intros r Hr. cbn.
      apply lookup_delete_ne. by intros ->.
Qed.

Lemma stack_lifo_witness :
  let s := mkStack {[ 100 := mkEntry 7 None ]} (Some 100) in
  let '(ok, s', _) := stack_push s 5 4096 in if ok : bool then holds s' [5; 7] else s' = s.
Proof.
  apply (stack_lifo (mkStack {[ 100 := mkEntry 7 None ]} (Some 100)) [7] 5 4096).
  - exists [100]. apply (is_cons _ _ _ None); [reflexivity|apply not_elem_of_nil|constructor].
  - intros p h' [= <- _]. reflexivity.
Defined.
End KStack.

(** ** buffered_write.c *)

Module Buffered.

Record buffered : Type := mkBuffered {
  data : option (block Z);
  buffer_usage : Z;
  buffer_size : Z
}.

Section Operations.
Context {H : Type} `{Allocator H}.

(** [None]: the caller's struct stays uninitialised apart from [data]. *)
Definition buffered_init (size : Z) (h : H) : option buffered * H :=
  match alloc_bytes size h with
  | (None, h) => (None, h)
  | (Some b, h) => (Some (mkBuffered (Some b) 0 size), h)
  end.

Definition buffered_write (ctx : buffered) (src : list Z) (length : Z)
  : outcome (bool * buffered) :=
  if buffer_size ctx <? length + buffer_usage ctx then Ok (false, ctx) else
  d ← memcpy_at (data_of (data ctx)) (buffer_usage ctx) src 0 length;
  Ok (true, mkBuffered (set_data (data ctx) d) (u16 (buffer_usage ctx + length)) (buffer_size ctx)).

Definition buffered_clear (ctx : buffered) : buffered :=
  mkBuffered (data ctx) 0 (buffer_size ctx).

Definition buffered_free (ctx : buffered) (h : H) : H := kfree (ptr_of (data ctx)) h.
End Operations.

Record inv (ctx : buffered) : Prop := {
  inv_data : zlen (data_of (data ctx)) = buffer_size ctx;
  inv_use : 0 <= buffer_usage ctx <= buffer_size ctx;
  inv_size : buffer_size ctx < 2 ^ 16
}.

Definition contents (ctx : buffered) : list Z := ztake (buffer_usage ctx) (data_of (data ctx)).

(** [buffered_write] appends the whole of [src] when it fits and leaves
    the buffer alone otherwise; it never writes outside the buffer. *)
Theorem buffered_write_appends ctx src :
  inv ctx -> zlen src < 2 ^ 16 ->
  exists ok ctx', buffered_write ctx src (zlen src) = Ok (ok, ctx') /\ inv ctx' /\
    (ok = true <-> zlen (contents ctx) + zlen src <= buffer_size ctx) /\
    contents ctx' = if ok then contents ctx ++ src else contents ctx.
Proof.
  intros [Hd Hu Hs] Hlen. unfold buffered_write. pose proof (zlen_nonneg src).
  assert (Hc : zlen (contents ctx) = buffer_usage ctx) by (apply zlen_ztake; lia).
  rewrite Hc. destruct (Z.ltb_spec (buffer_size ctx) (zlen src + buffer_usage ctx)).
  { exists false, ctx. split_and!; [done|done|split; [done|lia]|done]. }
  rewrite memcpy_at_ok by lia. cbn [mbind outcome_bind]. rewrite slice_all.
  assert (Hsp : data_of (set_data (data ctx) (splice (data_of (data ctx)) (buffer_usage ctx) src))
                = splice (data_of (data ctx)) (buffer_usage ctx) src).
  { apply data_of_set, zlen_splice; lia. }
  eexists true, _. split_and!; [done| |split; [lia|done]|].
  - split; cbn [data buffer_usage buffer_size]; rewrite ?Hsp, ?zlen_splice, ?u16_small; lia.
  - unfold contents. cbn [data buffer_usage]. rewrite Hsp, u16_small by lia.
    unfold splice, ztake. rewrite app_assoc, take_app_le by zlia.
    rewrite take_ge; [done|]. zlia.
Qed.

Lemma buffered_write_appends_witness :
  exists ok ctx', buffered_write (mkBuffered (Some (Block 4096 [1; 2; 0; 0])) 2 4) [8; 9] 2
      = Ok (ok, ctx') /\ inv ctx' /\ (ok = true <-> 2 + 2 <= 4) /\
    contents ctx' = if ok then [1; 2; 8; 9] else [1; 2].
Proof.
  apply (buffered_write_appends (mkBuffered (Some (Block 4096 [1; 2; 0; 0])) 2 4) [8; 9]).
  - split; cbn; [reflexivity|lia|lia].
  - reflexivity.
Defined.
End Buffered.
