(* ===== verification/KString.v ===== *)
(** kernel/libc/string and kernel/libc/ctype: memory and string functions.

    A pointer into an object is the list of bytes from it to the end of the
    object, or that object with an offset where the function writes; reading or
    writing past the object is a [Fault].  [cstr m t] says that [m] starts with
    the NUL terminated string [t]. *)

From stdpp Require Import base numbers list gmap.
From Stdlib Require Import ZArith Lia.
From S2P Require Import Prelude Alloc.

Open Scope Z_scope.

(** ** The functions *)

Fixpoint strlen_loop (s : list Z) (n : Z) : outcome Z :=
  match s with
  | [] => Fault
  | c :: s => if c =? 0 then Ok n else strlen_loop s (n + 1)
  end.

Definition strlen (s : list Z) : outcome Z := strlen_loop s 0.

(** One of the loops of [memcpy]: copies [k] bytes at a time while [n >= k]. *)
Fixpoint copy_loop (fuel : nat) (k : Z) (d s : list Z) (off n : Z) : outcome (list Z * Z * Z) :=
  match fuel with
  | O => NoFuel
  | S fuel =>
      if k <=? n then
        d ← memcpy_at d off s off k;
        copy_loop fuel k d s (off + k) (n - k)
      else Ok (d, off, n)
  end.

(** [memcpy] between two objects: 8, 4, 2 and 1 byte moves. *)
Definition memcpy (d s : list Z) (n : Z) : outcome (list Z) :=
  let fuel := S (Z.to_nat n) in
  '(d, off, n) ← copy_loop fuel 8 d s 0 n;
  '(d, off, n) ← copy_loop fuel 4 d s off n;
  '(d, off, n) ← copy_loop fuel 2 d s off n;
  '(d, off, n) ← copy_loop fuel 1 d s off n;
  Ok d.

(** [memmove(s + doff, s + soff, n)] inside one object, through a temporary. *)
Definition memmove (s : list Z) (doff soff n : Z) : outcome (list Z) :=
  if n =? 0 then Ok s else
  tmp ← memcpy (replicate (Z.to_nat n) 0) (zdrop soff s) n;
  d ← memcpy (zdrop doff s) tmp n;
  Ok (ztake doff s ++ d).

Fixpoint memset_loop (k : nat) (d : list Z) (i c : Z) : outcome (list Z) :=
  match k with
  | O => Ok d
  | S k => d ← awrite d i c; memset_loop k d (i + 1) c
  end.

Definition memset (d : list Z) (c n : Z) : outcome (list Z) :=
  memset_loop (Z.to_nat n) d 0 (u8 c).

Fixpoint memcmp_loop (k : nat) (s1 s2 : list Z) (r : Z) : outcome Z :=
  match k, s1, s2 with
  | O, _, _ => Ok r
  | S k, a :: s1, b :: s2 => memcmp_loop k s1 s2 (if a =? b then r else i32 (r + 1))
  | _, _, _ => Fault
  end.

Definition memcmp (s1 s2 : list Z) (n : Z) : outcome Z := memcmp_loop (Z.to_nat n) s1 s2 0.

Fixpoint isequal (s1 s2 : list Z) : outcome bool :=
  match s1 with
  | [] => Fault
  | a :: s1 =>
      if a =? 0 then Ok true
      else match s2 with
           | [] => Fault
           | b :: s2 => if negb (a =? b) then Ok false else isequal s1 s2
           end
  end.

Fixpoint isequal_n (s1 s2 : list Z) (n : nat) : outcome bool :=
  match s1 with
  | [] => Fault
  | a :: s1 =>
      if a =? 0 then Ok true
      else match n with
           | O => Ok true
           | S n => match s2 with
                    | [] => Fault
                    | b :: s2 => if negb (a =? b) then Ok false else isequal_n s1 s2 n
                    end
           end
  end.

(** [char] is signed on this target. *)
Fixpoint strcmp (s1 s2 : list Z) : outcome Z :=
  match s1, s2 with
  | a :: s1, b :: s2 =>
      if (a =? b) && negb (a =? 0) then strcmp s1 s2 else Ok (sext 8 a - sext 8 b)
  | _, _ => Fault
  end.

(** [strcpy(d + off, s)]. *)
Fixpoint strcpy_at (d : list Z) (off : Z) (s : list Z) : outcome (list Z) :=
  match s with
  | [] => Fault
  | c :: s => d ← awrite d off c; if c =? 0 then Ok d else strcpy_at d (off + 1) s
  end.

Definition strcpy (d s : list Z) : outcome (list Z) := strcpy_at d 0 s.

Definition strcat (s1 s2 : list Z) : outcome (list Z) :=
  n ← strlen s1; strcpy_at s1 n s2.

(** The copying loop of [strlcpy]: [n] counts down, [i] is how far both
    pointers have moved. *)
Fixpoint strlcpy_loop (n : nat) (d : list Z) (s : list Z) (i : Z) : outcome (list Z * list Z * Z * nat) :=
  match n with
  | O => Ok (d, s, i, O)
  | S n' =>
      match s with
      | [] => Fault
      | c :: s => d ← awrite d i c;
                  if c =? 0 then Ok (d, s, i + 1, n) else strlcpy_loop n' d s (i + 1)
      end
  end.

Definition strlcpy (d s : list Z) (dsize : Z) : outcome (list Z * Z) :=
  '(d, s, i, n) ← strlcpy_loop (Z.to_nat dsize) d s 0;
  match n with
  | S _ => Ok (d, i - 1)
  | O =>
      d ← (if dsize =? 0 then Ok d else awrite d i 0);
      l ← strlen s;
      Ok (d, i + l)
  end.

(** The first loop of [strlcat]: where it stops, at most [n] bytes on. *)
Fixpoint find_end (n : nat) (d : list Z) (i : Z) : outcome Z :=
  match n with
  | O => Ok i
  | S n => match d with
           | [] => Fault
           | c :: d => if c =? 0 then Ok i else find_end n d (i + 1)
           end
  end.

(** Its second loop: [i] is the destination index, [k] how many bytes of
    [src] have been consumed. *)
Fixpoint strlcat_loop (s : list Z) (d : list Z) (i n k : Z) : outcome (list Z * Z * Z) :=
  match s with
  | [] => Fault
  | c :: s =>
      if c =? 0 then Ok (d, i, k)
      else if 0 <? n then d ← awrite d i c; strlcat_loop s d (i + 1) (n - 1) (k + 1)
      else strlcat_loop s d i n (k + 1)
  end.

Definition strlcat (d s : list Z) (dsize : Z) : outcome (list Z * Z) :=
  dlen ← find_end (Z.to_nat dsize) d 0;
  let n := u32 (u32 (dsize - dlen) - 1) in
  if n =? 0 then l ← strlen s; Ok (d, u32 (dlen + l)) else
  '(d, i, k) ← strlcat_loop s d dlen n 0;
  d ← awrite d i 0;
  Ok (d, u32 (dlen + k)).

Definition isdigit (c : Z) : bool := (48 <=? c) && (c <=? 57).
Definition isspace (c : Z) : bool := (c =? 32) || (u32 (c - 9) <? 5).
Definition tolower (c : Z) : Z := if (65 <=? c) && (c <=? 90) then c - 65 + 97 else c.

Section Copy.
Context {H : Type} `{Allocator H}.

Definition copy_and_allocate_string (s : list Z) (h : H) : outcome (option (block Z) * H) :=
  n ← strlen s;
  match alloc_bytes (u32 (n + 1)) h with
  | (None, h) => Ok (None, h)
  | (Some b, h) => d ← memcpy (blk_data b) s (u32 (n + 1)); Ok (Some (Block (blk_addr b) d), h)
  end.
End Copy.

(** ** C strings *)

Definition cstr (m t : list Z) : Prop :=
  exists rest, m = t ++ 0 :: rest /\ Forall (fun c => c <> 0) t.

Lemma cstr_cons c m t : c <> 0 -> cstr m t -> cstr (c :: m) (c :: t).
Proof. intros Hc (rest & -> & Hf). exists rest. split; [done|by constructor]. Qed.

Lemma cstr_inv m t :
  cstr m t -> (exists rest, m = 0 :: rest /\ t = []) \/
    exists c m' t', m = c :: m' /\ t = c :: t' /\ c <> 0 /\ cstr m' t'.
Proof.
  intros (rest & -> & Hf). destruct t as [|c t]; [left; by exists rest|right].
  apply Forall_cons in Hf as [Hc Hf]. exists c, (t ++ 0 :: rest), t. split_and!; try done.
  by exists rest.
Qed.

Lemma strlen_loop_spec m t n : cstr m t -> strlen_loop m n = Ok (n + zlen t).
Proof.
  revert m n. induction t as [|c t IH]; intros m n (rest & -> & Hf); cbn.
  - f_equal. zlia.
  - apply Forall_cons in Hf as [Hc Hf]. destruct (Z.eqb_spec c 0); [done|].
    rewrite (IH (t ++ 0 :: rest)); [f_equal; zlia|by exists rest].
Qed.

Lemma strlen_spec m t : cstr m t -> strlen m = Ok (zlen t).
Proof. intros Hc. unfold strlen. by rewrite (strlen_loop_spec _ _ _ Hc). Qed.

(** ** strcpy *)

Lemma zlen_cons {A} (c : A) l : zlen (c :: l) = 1 + zlen l.
Proof. zlia. Qed.

(** The string and its terminator fit behind [off], or the copy leaves the array. *)
Lemma strcpy_at_fits d off s t :
  cstr s t -> 0 <= off -> off + zlen t < zlen d -> exists d', strcpy_at d off s = Ok d' /\ zlen d' = zlen d.
Proof.
  intros Hc. revert s d off Hc. induction t as [|c t IH]; intros s d off Hc Ho Hl.
  - destruct Hc as (rest & -> & _). cbn [strcpy_at app]. change (zlen (@nil Z)) with 0 in Hl.
    rewrite awrite_ok by lia. cbn. eexists. split; [done|apply zlen_insert].
  - destruct Hc as (rest & -> & [Hc0 Hf]%Forall_cons). cbn [strcpy_at app]. rewrite zlen_cons in Hl.
    pose proof (zlen_nonneg t). rewrite awrite_ok by lia. cbn [mbind outcome_bind].
    destruct (Z.eqb_spec c 0); [done|].
    destruct (IH (t ++ 0 :: rest) (<[Z.to_nat off := c]> d) (off + 1)) as (d' & E & Hd');
      [by exists rest|lia|rewrite zlen_insert; lia|]. exists d'. by rewrite E, Hd', zlen_insert.
Qed.

Lemma strcpy_at_overruns d off s t :
  cstr s t -> 0 <= off <= zlen d -> zlen d <= off + zlen t -> strcpy_at d off s = Fault.
Proof.
  intros Hc. revert s d off Hc. induction t as [|c t IH]; intros s d off Hc Ho Hl.
  - destruct Hc as (rest & -> & _). cbn [strcpy_at app]. change (zlen (@nil Z)) with 0 in Hl.
    unfold awrite. destruct (Z.ltb_spec off (zlen d)); [lia|]. by rewrite andb_false_r.
  - destruct Hc as (rest & -> & [Hc0 Hf]%Forall_cons). cbn [strcpy_at app]. rewrite zlen_cons in Hl.
    destruct (Z.lt_ge_cases off (zlen d)).
    + rewrite awrite_ok by lia. cbn [mbind outcome_bind]. destruct (Z.eqb_spec c 0); [done|].
      apply IH; [by exists rest|rewrite zlen_insert; lia..].
    + unfold awrite. destruct (Z.ltb_spec off (zlen d)); [lia|]. by rewrite andb_false_r.
Qed.

(** ** memcpy *)

Lemma splice_snoc {A} (d : list A) off off' (x y : list A) :
  0 <= off -> off' = off + zlen x -> off' + zlen y <= zlen d ->
  splice (splice d off x) off' y = splice d off (x ++ y).
Proof.
  intros Ho -> Hl. pose proof (zlen_nonneg x). pose proof (zlen_nonneg y).
  apply znth_ext; rewrite ?zlen_splice; rewrite ?zlen_splice, ?zlen_app; try lia.
  intros i Hi. rewrite !znth_splice; rewrite ?zlen_splice, ?zlen_app; try lia.
  destruct (Z.leb_spec (off + zlen x) i), (Z.ltb_spec i (off + zlen x + zlen y)),
    (Z.leb_spec off i), (Z.ltb_spec i (off + (zlen x + zlen y))),
    (Z.ltb_spec i (off + zlen x)); cbn [andb]; try lia; try done.
  - rewrite znth_app_r by lia. f_equal. lia.
  - rewrite znth_app_l by lia. done.
Qed.

Lemma copy_loop_spec fuel k d d0 s off n :
  0 < k -> 0 <= off -> 0 <= n -> (Z.to_nat n < fuel)%nat ->
  off + n <= zlen d0 -> off + n <= zlen s -> d = splice d0 0 (ztake off s) ->
  exists off' n', copy_loop fuel k d s off n = Ok (splice d0 0 (ztake off' s), off', n') /\
    off' + n' = off + n /\ off <= off' /\ 0 <= n' < k.
Proof.
  intros Hk. revert d off n. induction fuel as [|fuel IH]; intros d off n Ho Hn Hf Hd Hs ->; [lia|].
  cbn [copy_loop]. assert (Hz : zlen (ztake off s) = off) by (apply zlen_ztake; lia).
  destruct (Z.leb_spec k n).
  - rewrite memcpy_at_ok by (rewrite ?zlen_splice; lia). cbn [mbind outcome_bind].
    destruct (IH (splice d0 0 (ztake (off + k) s)) (off + k) (n - k)) as (off' & n' & E & ? & ? & ?);
      [lia..|done|].
    exists off', n'. split_and!; [|lia..]. rewrite <- E. f_equal.
    rewrite splice_snoc; rewrite ?Hz, ?zlen_slice; try lia.
    f_equal. pose proof (slice_app 0 off k s ltac:(lia) ltac:(lia) ltac:(lia)) as Hsa.
    by rewrite Z.add_0_l, !slice_from_0 in Hsa.
  - exists off, n. split_and!; [done|lia..].
Qed.

Lemma memcpy_spec d s n :
  0 <= n -> n <= zlen d -> n <= zlen s -> memcpy d s n = Ok (splice d 0 (ztake n s)).
Proof.
  intros Hn Hd Hs. unfold memcpy.
  assert (H0 : d = splice d 0 (ztake 0 s)) by (symmetry; by apply splice_nil).
  destruct (copy_loop_spec (S (Z.to_nat n)) 8 d d s 0 n) as (o1 & n1 & -> & ? & ? & ?);
    [lia..|done|]. cbn [mbind outcome_bind].
  destruct (copy_loop_spec (S (Z.to_nat n)) 4 (splice d 0 (ztake o1 s)) d s o1 n1)
    as (o2 & n2 & -> & ? & ? & ?); [lia..|done|]. cbn [mbind outcome_bind].
  destruct (copy_loop_spec (S (Z.to_nat n)) 2 (splice d 0 (ztake o2 s)) d s o2 n2)
    as (o3 & n3 & -> & ? & ? & ?); [lia..|done|]. cbn [mbind outcome_bind].
  destruct (copy_loop_spec (S (Z.to_nat n)) 1 (splice d 0 (ztake o3 s)) d s o3 n3)
    as (o4 & n4 & -> & ? & ? & ?); [lia..|done|]. cbn [mbind outcome_bind].
  tuple_lia.
Qed.

Lemma memmove_spec s doff soff n :
  0 <= n -> 0 <= doff -> 0 <= soff -> doff + n <= zlen s -> soff + n <= zlen s ->
  memmove s doff soff n = Ok (splice s doff (slice soff n s)).
Proof.
  intros Hn Ho Hso Hdn Hsn. unfold memmove. destruct (Z.eqb_spec n 0) as [->|Hne].
  { by rewrite slice_0, splice_nil. }
  rewrite memcpy_spec; [|lia|zlia|rewrite zlen_zdrop; lia]. cbn [mbind outcome_bind].
  fold (slice soff n s).
  assert (Hl : zlen (slice soff n s) = n) by (apply zlen_slice; lia).
  assert (Ht : splice (replicate (Z.to_nat n) 0) 0 (slice soff n s) = slice soff n s).
  { unfold splice. rewrite Hl, Z.add_0_l. unfold ztake at 1. cbn [take Z.to_nat app].
    unfold zdrop. rewrite drop_ge by zlia. apply app_nil_r. }
  rewrite Ht. rewrite memcpy_spec; [|lia|rewrite zlen_zdrop; lia|lia]. cbn [mbind outcome_bind].
  f_equal. rewrite (ztake_all n) by done. unfold splice. rewrite Hl.
  unfold ztake at 2. cbn [take Z.to_nat app]. rewrite Z.add_0_l, zdrop_zdrop by lia. done.
Qed.

(** [memcpy] with its 8, 4, 2 and 1 byte loops is the plain copy of [n]
    bytes: it always ends, touches nothing but the first [n] bytes of the
    destination and never reads or writes outside the two objects.  [memmove]
    moves a range inside one object, overlapping or not. *)
Theorem memcpy_memmove_copy d s n doff soff :
  0 <= n -> n <= zlen d -> n <= zlen s ->
  memcpy d s n = Ok (splice d 0 (ztake n s)) /\
  (0 <= doff -> 0 <= soff -> doff + n <= zlen s -> soff + n <= zlen s ->
   memmove s doff soff n = Ok (splice s doff (slice soff n s))).
Proof.
  intros Hn Hd Hs. split; [by apply memcpy_spec|]. intros. by apply memmove_spec.
Qed.

(** ** Comparison *)

Lemma isequal_spec m1 m2 t1 t2 :
  cstr m1 t1 -> cstr m2 t2 -> isequal m1 m2 = Ok (bool_decide (t1 `prefix_of` t2)).
Proof.
  intros H1. revert m2 t2. destruct H1 as (r1 & -> & Hf1).
  induction t1 as [|a t1 IH]; intros m2 t2 H2; cbn.
  { by rewrite bool_decide_eq_true_2 by apply prefix_nil. }
  apply Forall_cons in Hf1 as [Ha Hf1]. destruct (Z.eqb_spec a 0); [done|].
  apply cstr_inv in H2 as [(r & -> & ->)|(b & m' & t' & -> & -> & Hb & H2)].
  - by rewrite (proj2 (Z.eqb_neq a 0)) by done.
  - destruct (Z.eqb_spec a b) as [->|Hne]; cbn [negb].
    + rewrite (IH Hf1 m' t') by done. f_equal. apply bool_decide_ext.
      split; [apply prefix_cons|]. by intros ?%prefix_cons_inv_2.
    + symmetry. f_equal. apply bool_decide_eq_false_2. by intros ?%prefix_cons_inv_1.
Qed.

Definition bytes (l : list Z) : Prop := Forall (fits 8) l.

Lemma sext8_inj a b : fits 8 a -> fits 8 b -> sext 8 a - sext 8 b = 0 -> a = b.
Proof.
  unfold fits, sext, wrap. intros Ha Hb. rewrite !Z.mod_small by lia.
  destruct (Z.ltb_spec a (2 ^ (8 - 1))), (Z.ltb_spec b (2 ^ (8 - 1))); lia.
Qed.

Lemma strcmp_spec m1 m2 t1 t2 :
  cstr m1 t1 -> cstr m2 t2 -> bytes t1 -> bytes t2 ->
  exists r, strcmp m1 m2 = Ok r /\ (r = 0 <-> t1 = t2).
Proof.
  intros H1. revert m2 t2. destruct H1 as (r1 & -> & Hf1).
  induction t1 as [|a t1 IH]; intros m2 t2 H2 Hb1 Hb2; cbn [strcmp app].
  - apply cstr_inv in H2 as [(r & -> & ->)|(b & m' & t' & -> & -> & Hb & H2)].
    + by exists 0.
    + apply Forall_cons in Hb2 as [Hb2 _]. destruct (Z.eqb_spec 0 b); [lia|]. cbn [andb].
      eexists. split; [done|]. split; [|done]. by intros ?%sext8_inj.
  - apply Forall_cons in Hf1 as [Ha Hf1]. apply Forall_cons in Hb1 as [Hba Hb1].
    apply cstr_inv in H2 as [(r & -> & ->)|(b & m' & t' & -> & -> & Hb & H2)].
    + destruct (Z.eqb_spec a 0); [done|]. cbn [andb]. eexists. split; [done|]. split; [|done].
      by intros ?%sext8_inj.
    + apply Forall_cons in Hb2 as [Hbb Hb2]. destruct (Z.eqb_spec a b) as [->|Hne]; cbn [andb].
      * destruct (Z.eqb_spec b 0); [done|]. cbn [negb].
        destruct (IH Hf1 m' t' H2 Hb1 Hb2) as (r & -> & Hr). exists r. split; [done|].
        rewrite Hr. split; [congruence|]. by intros [= ->].
      * eexists. split; [done|]. split; [by intros ?%sext8_inj|congruence].
Qed.

Lemma memcmp_loop_spec k s1 s2 r :
  0 <= r -> r + Z.of_nat k < 2 ^ 31 -> (k <= length s1)%nat -> (k <= length s2)%nat ->
  exists r', memcmp_loop k s1 s2 r = Ok r' /\ r <= r' <= r + Z.of_nat k /\
    (r' = r <-> take k s1 = take k s2).
Proof.
  revert s1 s2 r. induction k as [|k IH]; intros s1 s2 r Hr Hb H1 H2.
  { exists r. cbn. split_and!; [done|lia|lia|done]. }
  destruct s1 as [|a s1], s2 as [|b s2]; cbn in H1, H2; try lia. cbn [memcmp_loop take].
  destruct (Z.eqb_spec a b) as [->|Hne].
  - destruct (IH s1 s2 r) as (r' & -> & ? & Hiff); [lia..|]. exists r'. split_and!; [done|lia|lia|].
    rewrite Hiff. split; [congruence|]. by intros [= ->].
  - rewrite i32_small by lia.
    destruct (IH s1 s2 (r + 1)) as (r' & -> & ? & Hiff); [lia..|]. exists r'.
    split_and!; [done|lia|lia|]. split; [lia|congruence].
Qed.

(** The comparison functions of the kernel's libc on C strings: [strcmp]
    returns 0 exactly for equal strings, [isequal(s1, s2)] tests whether [s1]
    is a prefix of [s2], and [memcmp], which returns the number of differing
    bytes, returns 0 exactly for equal memory.  All of them end inside the
    strings. *)
Theorem string_comparisons m1 m2 t1 t2 :
  cstr m1 t1 -> cstr m2 t2 -> bytes t1 -> bytes t2 ->
  (exists r, strcmp m1 m2 = Ok r /\ (r = 0 <-> t1 = t2)) /\
  isequal m1 m2 = Ok (bool_decide (t1 `prefix_of` t2)) /\
  (forall n, 0 <= n < 2 ^ 31 -> n <= zlen m1 -> n <= zlen m2 ->
   exists r, memcmp m1 m2 n = Ok r /\ (r = 0 <-> ztake n m1 = ztake n m2)).
Proof.
  intros H1 H2 Hb1 Hb2. split_and!; [by apply strcmp_spec|by apply isequal_spec|].
  intros n Hn Hl1 Hl2. unfold memcmp.
  destruct (memcmp_loop_spec (Z.to_nat n) m1 m2 0) as (r & -> & _ & Hr); [zlia..|].
  by exists r.
Qed.

(** ** Bounded copies *)

Lemma awrite_splice {A} (d : list A) i c :
  0 <= i < zlen d -> awrite d i c = Ok (splice d i [c]).
Proof.
  intros Hi. rewrite awrite_ok by done. f_equal.
  apply znth_ext; rewrite ?zlen_insert, ?zlen_splice; try zlia.
  intros j Hj. rewrite znth_insert, znth_splice by zlia. change (zlen [c]) with 1.
  destruct (Z.eqb_spec j i), (Z.leb_spec i j), (Z.ltb_spec j (i + 1)); cbn [andb]; try lia; try done.
  subst. by rewrite Z.sub_diag.
Qed.

Lemma splice_cons {A} (d : list A) i c (y : list A) :
  0 <= i -> i + 1 + zlen y <= zlen d -> splice (splice d i [c]) (i + 1) y = splice d i (c :: y).
Proof. intros. apply (splice_snoc d i (i + 1) [c] y); zlia. Qed.

Lemma strlcpy_loop_fits n d t rest i :
  Forall (fun c => c <> 0) t -> zlen t < Z.of_nat n -> 0 <= i -> i + zlen t + 1 <= zlen d ->
  exists k, strlcpy_loop n d (t ++ 0 :: rest) i =
    Ok (splice d i (t ++ [0]), rest, i + zlen t + 1, S k).
Proof.
  revert n d i. induction t as [|c t IH]; intros n d i Hf Hn Hi Hd;
    destruct n as [|n]; try zlia; cbn [strlcpy_loop app].
  - rewrite awrite_splice by zlia. exists n. cbn. repeat f_equal; zlia.
  - apply Forall_cons in Hf as [Hc Hf]. rewrite zlen_cons in *.
    pose proof (zlen_nonneg t). rewrite awrite_splice by lia. cbn [mbind outcome_bind].
    destruct (Z.eqb_spec c 0); [done|].
    destruct (IH n (splice d i [c]) (i + 1)) as [k ->]; [done|lia|lia| |].
    { rewrite zlen_splice by zlia. lia. }
    exists k. rewrite splice_cons by zlia. tuple_lia.
Qed.

Lemma strlcpy_loop_full n d t rest i :
  Forall (fun c => c <> 0) t -> Z.of_nat n <= zlen t -> 0 <= i -> i + Z.of_nat n <= zlen d ->
  strlcpy_loop n d (t ++ 0 :: rest) i =
    Ok (splice d i (take n t), drop n t ++ 0 :: rest, i + Z.of_nat n, O).
Proof.
  revert t d i. induction n as [|n IH]; intros t d i Hf Hn Hi Hd; cbn [strlcpy_loop].
  - rewrite take_0, drop_0, splice_nil by done. tuple_lia.
  - destruct t as [|c t]; [zlia|]. apply Forall_cons in Hf as [Hc Hf].
    cbn [app take drop]. rewrite zlen_cons in Hn. rewrite awrite_splice by lia.
    cbn [mbind outcome_bind]. destruct (Z.eqb_spec c 0); [done|].
    rewrite IH; [|done|lia|lia|rewrite zlen_splice by zlia; lia].
    rewrite splice_cons by zlia. tuple_lia.
Qed.

Lemma find_end_spec n t rest i :
  Forall (fun c => c <> 0) t -> zlen t < Z.of_nat n -> find_end n (t ++ 0 :: rest) i = Ok (i + zlen t).
Proof.
  revert n i. induction t as [|c t IH]; intros n i Hf Hn; destruct n as [|n]; try zlia; cbn.
  - f_equal. zlia.
  - apply Forall_cons in Hf as [Hc Hf]. destruct (Z.eqb_spec c 0); [done|].
    rewrite IH by (done || zlia). f_equal. zlia.
Qed.

Lemma strlcat_loop_spec t rest d i n k :
  Forall (fun c => c <> 0) t -> 0 <= i -> 0 <= n -> i + Z.min n (zlen t) <= zlen d ->
  strlcat_loop (t ++ 0 :: rest) d i n k =
    Ok (splice d i (ztake n t), i + Z.min n (zlen t), k + zlen t).
Proof.
  revert d i n k. induction t as [|c t IH]; intros d i n k Hf Hi Hn Hd; cbn [strlcat_loop app Z.eqb].
  - replace (ztake n []) with (@nil Z) by (unfold ztake; by rewrite take_nil).
    rewrite splice_nil by done. rewrite zlen_nil. tuple_lia.
  - apply Forall_cons in Hf as [Hc Hf]. destruct (Z.eqb_spec c 0); [done|].
    rewrite zlen_cons in *. pose proof (zlen_nonneg t). destruct (Z.ltb_spec 0 n).
    + rewrite awrite_splice by lia. cbn [mbind outcome_bind].
      rewrite IH; [|done|lia|lia|rewrite zlen_splice by zlia; lia].
      replace (ztake n (c :: t)) with (c :: ztake (n - 1) t).
      2: { unfold ztake. replace (Z.to_nat n) with (S (Z.to_nat (n - 1))) by lia. done. }
      rewrite splice_cons by zlia. tuple_lia.
    + replace n with 0 in * by lia. rewrite IH by (done || lia).
      cbn [ztake take Z.to_nat]. tuple_lia.
Qed.

(** [strlcpy] and [strlcat] on strings that fit.  When the source string
    and its NUL fit the size given, [strlcpy] copies both and returns the
    length; [strlcat] appends as much of the source as leaves room for the NUL
    after a terminated destination, terminates it, and returns the length of
    the string it tried to create. *)
Theorem strlcpy_strlcat_fit d s t dsize :
  cstr s t -> 0 < dsize <= zlen d -> dsize < 2 ^ 31 ->
  (zlen t < dsize -> strlcpy d s dsize = Ok (splice d 0 (t ++ [0]), zlen t)) /\
  (forall td, cstr d td -> zlen td + 1 < dsize -> zlen td + zlen t < 2 ^ 32 ->
   strlcat d s dsize =
     Ok (splice d (zlen td) (ztake (dsize - zlen td - 1) t ++ [0]), zlen td + zlen t)).
Proof.
  intros (rest & -> & Hf) Hd Hlim. pose proof (zlen_nonneg t). split.
  - intros Ht. unfold strlcpy.
    destruct (strlcpy_loop_fits (Z.to_nat dsize) d t rest 0) as [k ->]; [done|lia..|].
    cbn [mbind outcome_bind]. do 2 f_equal. lia.
  - intros td Hcd Htd Hsum. pose proof (zlen_nonneg td). unfold strlcat.
    assert (Hfe : find_end (Z.to_nat dsize) d 0 = Ok (zlen td)).
    { destruct Hcd as (r & -> & Hfd). apply find_end_spec; [done|lia]. }
    rewrite Hfe. cbn [mbind outcome_bind]. rewrite !u32_small by (rewrite ?u32_small; lia).
    destruct (Z.eqb_spec (dsize - zlen td - 1) 0) as [?|_]; [lia|].
    rewrite strlcat_loop_spec by (done || lia). cbn [mbind outcome_bind].
    set (n := dsize - zlen td - 1) in *.
    assert (Hz : zlen (ztake n t) = Z.min n (zlen t)) by zlia.
    rewrite awrite_splice by (rewrite zlen_splice; lia). cbn [mbind outcome_bind].
    rewrite splice_snoc by (rewrite ?Hz; zlia). rewrite u32_small by lia. done.
Qed.

(** When the string does not fit, [strlcpy] writes its NUL behind the
    [dsize] bytes of the destination: copying a string of [dsize] or more
    characters into an object of exactly [dsize] bytes is an access outside it,
    although the function's comment promises at most [dsize - 1] characters. *)
Theorem strlcpy_overruns d s t dsize :
  cstr s t -> 0 < dsize -> zlen d = dsize -> dsize <= zlen t -> strlcpy d s dsize = Fault.
Proof.
  intros (rest & -> & Hf) Hd Hz Ht. unfold strlcpy.
  rewrite strlcpy_loop_full by (done || lia). cbn [mbind outcome_bind].
  destruct (Z.eqb_spec dsize 0); [lia|]. unfold awrite. rewrite zlen_splice by zlia.
  destruct (Z.ltb_spec (0 + Z.of_nat (Z.to_nat dsize)) (zlen d)); [lia|].
  by rewrite andb_false_r.
Qed.

Lemma memcpy_memmove_copy_witness :
  memcpy [0; 0; 0; 0] [1; 2; 3; 4; 5] 3 = Ok [1; 2; 3; 0] /\
  memmove [1; 2; 3; 4; 5] 1 0 3 = Ok [1; 1; 2; 3; 5].
Proof.
  destruct (memcpy_memmove_copy [0; 0; 0; 0] [1; 2; 3; 4; 5] 3 1 0) as [Hc Hm];
    [lia|by vm_compute|by vm_compute|].
  split; [exact Hc|]. apply Hm; [lia|lia|by vm_compute|by vm_compute].
Defined.

Lemma string_comparisons_witness :
  (exists r, strcmp [97; 98; 0] [97; 99; 0] = Ok r /\ (r = 0 <-> [97; 98] = [97; 99])) /\
  isequal [97; 98; 0] [97; 99; 0] = Ok false.
Proof.
  destruct (string_comparisons [97; 98; 0] [97; 99; 0] [97; 98] [97; 99]) as (H1 & H2 & _).
  - exists []. split; [reflexivity|]. repeat constructor; lia.
  - exists []. split; [reflexivity|]. repeat constructor; lia.
  - repeat constructor; lia.
  - repeat constructor; lia.
  - split; [exact H1|exact H2].
Defined.

Lemma strlcpy_strlcat_fit_witness :
  strlcpy [9; 9; 9; 9] [97; 98; 0] 4 = Ok ([97; 98; 0; 9], 2) /\
  strlcat [97; 0; 9; 9] [98; 99; 100; 0] 4 = Ok ([97; 98; 99; 0], 4).
Proof.
  assert (H1 : cstr [97; 98; 0] [97; 98])
    by (exists []; split; [reflexivity|repeat constructor; lia]).
  assert (H2 : cstr [98; 99; 100; 0] [98; 99; 100])
    by (exists []; split; [reflexivity|repeat constructor; lia]).
  assert (H3 : cstr [97; 0; 9; 9] [97])
    by (exists [9; 9]; split; [reflexivity|repeat constructor; lia]).
  split.
  - apply (strlcpy_strlcat_fit [9; 9; 9; 9] _ _ 4 H1); by vm_compute.
  - apply (proj2 (strlcpy_strlcat_fit [97; 0; 9; 9] _ _ 4 H2 ltac:(by vm_compute)
             ltac:(lia)) [97] H3); by vm_compute.
Defined.

Lemma strlcpy_overruns_witness : strlcpy [9; 9] [97; 98; 0] 2 = Fault.
Proof.
  apply (strlcpy_overruns [9; 9] [97; 98; 0] [97; 98] 2); [|lia|reflexivity|by vm_compute].
  exists []. split; [reflexivity|]. repeat constructor; lia.
Defined.
