(* ===== verification/Print.v ===== *)
(** kernel/libc/stdio/print.c and kernel/libc/stdlib/parsenum.c: the kernel's
    formatted output and its number parser.

    A [print_context] receives one character per [WRITE]; the formatting
    functions are modelled as the list of characters they write and the count
    they return, and the three writers ([sb_write], [sn_write],
    [context_serial_write]) as consumers of that list.  Variadic arguments are a
    list of [arg]; taking one of the wrong type is a [Fault]. *)

From stdpp Require Import base numbers list gmap.
From Stdlib Require Import ZArith Lia.
From S2P Require Import Prelude Alloc KString.

Open Scope Z_scope.

(** ** parsenum.c *)

Definition get_value (c base : Z) : Z :=
  let l := tolower c in
  let r := if (48 <=? l) && (l <=? 57) then l - 48
           else if (97 <=? l) && (l <=? 122) then (l - 97) + 10
           else -1 in
  if base <=? r then -1 else r.

Definition MAX_64 : Z := 0xFFFFFFFFFFFFFFFF.

(** The digit loop: the value, the error flag and where [str] stands. *)
Fixpoint parse_loop (str : list Z) (base ret_value : Z) : outcome (Z * Z * option (list Z)) :=
  match str with
  | [] => Fault
  | c :: rest =>
      if c =? 0 then Ok (ret_value, 0, Some str) else
      let val := get_value c base in
      if val =? -1 then Ok (ret_value, 0, Some str) else
      let ret_value := u64 (ret_value * base) in
      if MAX_64 - val <? ret_value then Ok (0, 1, None)
      else parse_loop rest base (u64 (ret_value + val))
  end.

(** Value, [*err], and [*endptr] when the function moves it. *)
Definition parse_u64 (str : list Z) (base : Z) : outcome (Z * Z * option (list Z)) :=
  match str with
  | [] => Fault
  | c :: rest =>
      if c =? 0 then Ok (0, 0, Some str) else
      '(base, str) ←
        (if base =? 0 then
           if c =? 48 then
             match rest with
             | [] => Fault
             | d :: rest' => if tolower d =? 120 then Ok (16, rest') else Ok (8, rest)
             end
           else Ok (10, str)
         else Ok (base, str));
      if (2 <=? base) && (base <=? 36) then parse_loop str base 0 else Ok (0, 1, None)
  end.

(** ** print.c: numbers and strings *)

Definition DIGITS10 : list Z := [48; 49; 50; 51; 52; 53; 54; 55; 56; 57].
Definition DIGITS16 : list Z := DIGITS10 ++ [97; 98; 99; 100; 101; 102].
Definition DIGITS8 : list Z := [48; 49; 50; 51; 52; 53; 54; 55; 56].

(** [for (; n != 0 && i < 32; i++, n /= base) str[i] = char_set[n % base];] *)
Fixpoint digits_loop (room : nat) (n base : Z) (char_set : list Z) : outcome (list Z) :=
  match room with
  | O => Ok []
  | S room =>
      if n =? 0 then Ok [] else
      c ← aread char_set (Z.rem n base);
      ds ← digits_loop room (Z.quot n base) base char_set;
      Ok (c :: ds)
  end.

(** [for (; prefix - l > 0; prefix--) WRITE(&t, 1, &c);] *)
Definition pad (t prefix l : Z) : list Z := replicate (Z.to_nat (prefix - l)) t.

Definition print_num (n base : Z) (char_set : list Z) (prefix : Z)
  (zero_padding right_padding : bool) : outcome (list Z) :=
  let is_signed := n <? 0 in
  let n := if is_signed then i64 (- n) else n in
  str ← (if n =? 0 then c ← aread char_set 0; Ok [c] else digits_loop 32 n base char_set);
  str ← (if is_signed then if zlen str <? 32 then Ok (str ++ [45]) else Fault else Ok str);
  let t := if zero_padding then 48 else 32 in
  let p := pad t prefix (zlen str) in
  Ok (if right_padding then rev str ++ p else p ++ rev str).

Definition print_int (n prefix : Z) (zp rp : bool) : outcome (list Z) :=
  print_num n 10 DIGITS10 prefix zp rp.
Definition print_hex (n prefix : Z) (zp rp : bool) : outcome (list Z) :=
  print_num n 16 DIGITS16 prefix zp rp.
Definition print_octal (n prefix : Z) (zp rp : bool) : outcome (list Z) :=
  print_num n 8 DIGITS8 prefix zp rp.

(** The character loop of [print_string]: [bl] is used when [precision != -1]. *)
Fixpoint string_chars (s : list Z) (precision bl : Z) : outcome (list Z) :=
  match s with
  | [] => Fault
  | c :: s =>
      if c =? 0 then Ok [] else
      if negb (precision =? -1) && (bl =? 0) then Ok [] else
      let bl := if precision =? -1 then bl else i32 (bl - 1) in
      cs ← string_chars s precision bl;
      Ok (c :: cs)
  end.

Definition print_string (s : list Z) (prefix : Z) (right_padding : bool) (precision : Z)
  : outcome (list Z) :=
  l ← strlen s;
  (if negb right_padding && negb (prefix =? 0) then c_assert (precision =? -1) else Ok tt) ;;
  cs ← string_chars s precision precision;
  (if right_padding then c_assert (precision =? -1) else Ok tt) ;;
  Ok (if right_padding then cs ++ pad 32 prefix l else pad 32 prefix l ++ cs).

(** ** print.c: the format string *)

Inductive arg : Type :=
| AInt (z : Z)
| ALongLong (z : Z)
| AStr (s : option (list Z)).

Definition take_word (ap : list arg) : outcome (Z * list arg) :=
  match ap with AInt z :: ap => Ok (z, ap) | _ => Fault end.
Definition take_longlong (ap : list arg) : outcome (Z * list arg) :=
  match ap with ALongLong z :: ap => Ok (z, ap) | _ => Fault end.
Definition take_str (ap : list arg) : outcome (option (list Z) * list arg) :=
  match ap with AStr s :: ap => Ok (s, ap) | _ => Fault end.

(** The digits behind a '.': the precision and the format string where the main
    loop goes on.  A format that ends here fails the assertion of the caller. *)
Fixpoint parse_precision (s : list Z) (i rc : Z) : outcome (Z * list Z) :=
  match s with
  | [] => Fault
  | c :: s' =>
      if c =? 0 then Panic else
      if c =? 42 then c_assert (i =? 0) ;; Ok (-1, s') else
      if negb (isdigit c) then Ok (rc, s) else
      parse_precision s' (i + 1) (i32 (i32 (rc * 10) + (c - 48)))
  end.

Record pstate : Type := mkP {
  p_prefix : Z;
  p_long : Z;
  p_zero : bool;
  p_right : bool;
  p_cont : bool;
  p_prec : Z
}.

Definition p_init : pstate := mkP 0 0 false false false (-1).

(** [if (!cont)] at the end of the loop body. *)
Definition p_done (long : Z) : pstate := mkP 0 long false false false (-1).

Definition NULL_TEXT : list Z := [40; 78; 85; 76; 76; 41; 0].

(** One conversion character [c] after a '%': the characters written, the
    state, the rest of the format and of the arguments. *)
Definition conversion (c : Z) (rest : list Z) (st : pstate) (ap : list arg)
  : outcome (list Z * pstate * list Z * list arg) :=
  if c =? 46 then
    '(prec, rest) ← parse_precision rest 0 0;
    '(prec, ap) ← (if prec =? -1 then take_word ap else Ok (prec, ap));
    Ok ([], mkP (p_prefix st) (p_long st) (p_zero st) (p_right st) true prec, rest, ap)
  else if c =? 48 then
    let prefix := i32 (p_prefix st * 10) in
    Ok ([], mkP prefix (p_long st) (p_zero st || (prefix =? 0)) (p_right st) true (p_prec st), rest, ap)
  else if c =? 45 then
    c_assert (p_prefix st =? 0) ;;
    Ok ([], mkP (p_prefix st) (p_long st) (p_zero st) true true (p_prec st), rest, ap)
  else if (49 <=? c) && (c <=? 57) then
    Ok ([], mkP (i32 (i32 (p_prefix st * 10) + (c - 48))) (p_long st) (p_zero st) (p_right st) true
              (p_prec st), rest, ap)
  else if c =? 108 then
    c_assert (p_long st + 1 <=? 2) ;;
    Ok ([], mkP (p_prefix st) (p_long st + 1) (p_zero st) (p_right st) (p_cont st) (p_prec st), rest, ap)
  else if (c =? 105) || (c =? 100) then
    let '(zero, prefix, rpad) :=
      if p_prec st =? -1 then (p_zero st, p_prefix st, p_right st) else (true, p_prec st, false) in
    '(n, ap) ← (if (p_long st =? 2) || (p_long st =? 1) then take_longlong ap
                else '(n, ap) ← take_word ap; Ok (i32 n, ap));
    o ← print_int n prefix zero rpad;
    Ok (o, p_done 0, rest, ap)
  else if c =? 117 then
    c_assert (p_prec st =? -1) ;;
    '(n, ap) ← take_word ap;
    o ← print_int (u32 n) (p_prefix st) (p_zero st) (p_right st);
    Ok (o, p_done (p_long st), rest, ap)
  else if c =? 115 then
    c_assert (negb (p_zero st)) ;;
    '(a, ap) ← take_str ap;
    o ← print_string (match a with None => NULL_TEXT | Some a => a end)
          (p_prefix st) (p_right st) (p_prec st);
    Ok (o, p_done (p_long st), rest, ap)
  else if (c =? 112) || (c =? 120) then
    c_assert (p_prec st =? -1) ;;
    '(n, ap) ← take_word ap;
    o ← print_hex (u32 n) (p_prefix st) (p_zero st) (p_right st);
    Ok (o, p_done (p_long st), rest, ap)
  else if c =? 111 then
    c_assert (p_prec st =? -1) ;;
    '(n, ap) ← take_word ap;
    o ← print_octal (u32 n) (p_prefix st) (p_zero st) (p_right st);
    Ok (o, p_done (p_long st), rest, ap)
  else if c =? 37 then Ok ([37], p_done (p_long st), rest, ap)
  else if c =? 99 then
    '(n, ap) ← take_word ap;
    Ok ([u8 n], p_done (p_long st), rest, ap)
  else Panic.

(** The main loop of [vkcprintf]; [rc] is the running count. *)
Fixpoint format_loop (fuel : nat) (s : list Z) (st : pstate) (ap : list arg) (out : list Z) (rc : Z)
  : outcome (list Z * Z) :=
  match fuel with
  | O => NoFuel
  | S fuel =>
      match s with
      | [] => Fault
      | c :: rest =>
          if c =? 0 then Ok (out, rc) else
          if p_cont st then
            '(o, st, rest, ap) ← conversion c rest st ap;
            format_loop fuel rest st ap (out ++ o) (i32 (rc + zlen o))
          else if c =? 37 then
            format_loop fuel rest (mkP (p_prefix st) (p_long st) (p_zero st) (p_right st) true
                                    (p_prec st)) ap out rc
          else format_loop fuel rest st ap (out ++ [c]) (i32 (rc + 1))
      end
  end.

Definition vkcprintf (fmt : list Z) (ap : list arg) : outcome (list Z * Z) :=
  format_loop (S (length fmt)) fmt p_init ap [] 0.

(** [sn_write] of [ksnprintf], one character: [off] bytes of the buffer [out]
    are filled, [size] are left. *)
Definition sn_write (out : list Z) (off size c : Z) : outcome (list Z * Z * Z) :=
  let k := Z.min 1 size in
  out ← (if k =? 1 then awrite out off c else Ok out);
  let off := off + k in
  out ← awrite out off 0;
  Ok (out, off, size - k).

Fixpoint sn_write_all (out : list Z) (off size : Z) (cs : list Z) : outcome (list Z) :=
  match cs with
  | [] => Ok out
  | c :: cs => '(out, off, size) ← sn_write out off size c; sn_write_all out off size cs
  end.

Definition ksnprintf (out : list Z) (size : Z) (fmt : list Z) (ap : list arg)
  : outcome (list Z * Z) :=
  '(cs, rc) ← vkcprintf fmt ap;
  out ← sn_write_all out 0 size cs;
  Ok (out, rc).

(** ** Numbers *)

(** The value of the digits [ds], most significant first. *)
Definition value (base : Z) (ds : list Z) : Z := fold_left (fun acc d => acc * base + d) ds 0.

Lemma value_snoc base ds d : value base (ds ++ [d]) = value base ds * base + d.
Proof. unfold value. by rewrite fold_left_app. Qed.

Lemma fold_value base ds a :
  fold_left (fun acc d => acc * base + d) ds a = a * base ^ zlen ds + value base ds.
Proof.
  revert a. induction ds as [|d ds IH] using rev_ind; intros a.
  - rewrite zlen_nil, Z.pow_0_r. unfold value. cbn. lia.
  - rewrite fold_left_app, value_snoc. cbn. rewrite IH, zlen_app.
    change (zlen [d]) with 1. rewrite Z.pow_add_r by zlia. lia.
Qed.

Lemma value_cons base d ds : value base (d :: ds) = d * base ^ zlen ds + value base ds.
Proof. unfold value at 1. cbn [fold_left]. rewrite fold_value. lia. Qed.

Lemma value_nonneg base ds : 0 <= base -> Forall (fun d => 0 <= d) ds -> 0 <= value base ds.
Proof.
  intros Hb. induction 1 as [|d ds Hd _ IH]; [done|]. rewrite value_cons.
  pose proof (Z.pow_nonneg base (zlen ds) Hb). nia.
Qed.

(** A character [c] that stands for the digit [d]. *)
Definition is_digit (base c d : Z) : Prop := c <> 0 /\ get_value c base = d /\ 0 <= d < base.

Lemma parse_loop_spec base cs ds rest acc :
  2 <= base <= 36 -> Forall2 (is_digit base) cs ds ->
  (match rest with [] => False | c :: _ => c = 0 \/ get_value c base = -1 end) ->
  0 <= acc -> acc * base ^ zlen ds + value base ds < 2 ^ 64 ->
  parse_loop (cs ++ rest) base acc =
    Ok (acc * base ^ zlen ds + value base ds, 0, Some rest).
Proof.
  intros Hb Hds Hrest. revert acc. induction Hds as [|c d cs ds (Hc & Hg & Hd) Hds IH];
    intros acc Hacc Hlim.
  - destruct rest as [|c rest]; [done|]. cbn [app parse_loop].
    change (zlen (@nil Z)) with 0. change (value base []) with 0.
    rewrite Z.pow_0_r, Z.mul_1_r, Z.add_0_r.
    destruct (Z.eqb_spec c 0) as [|Hne]; [done|]. destruct Hrest as [?|Hrest]; [done|].
    by rewrite Hrest.
  - cbn [app parse_loop]. destruct (Z.eqb_spec c 0); [done|]. rewrite Hg.
    destruct (Z.eqb_spec d (-1)); [lia|].
    rewrite value_cons, zlen_cons, Z.pow_add_r, Z.pow_1_r in * by zlia.
    assert (Hp : 1 <= base ^ zlen ds) by (pose proof (Z.pow_pos_nonneg base (zlen ds)); zlia).
    assert (0 <= value base ds).
    { apply value_nonneg; [lia|]. clear -Hds. induction Hds as [|? ? ? ? (_ & _ & ?)]; constructor; [lia|done]. }
    assert (acc * base + d <= acc * (base * base ^ zlen ds) + d * base ^ zlen ds) by nia.
    assert (0 <= acc * base) by nia.
    rewrite u64_small by lia. unfold MAX_64.
    destruct (Z.ltb_spec (0xFFFFFFFFFFFFFFFF - d) (acc * base)); [lia|].
    rewrite u64_small by lia. rewrite IH by nia. tuple_lia.
Qed.

(** The digits of [n], least significant first. *)
Fixpoint digits (room : nat) (n base : Z) : list Z :=
  match room with
  | O => []
  | S room => if n =? 0 then [] else n mod base :: digits room (n / base) base
  end.

Lemma digits_value room n base :
  2 <= base -> 0 <= n < base ^ Z.of_nat room -> value base (rev (digits room n base)) = n.
Proof.
  intros Hb. revert n. induction room as [|room IH]; intros n Hn.
  - cbn in *. unfold value. cbn. lia.
  - cbn [digits]. destruct (Z.eqb_spec n 0) as [->|Hne]; [done|]. cbn [rev].
    rewrite value_snoc, IH.
    + pose proof (Z.div_mod n base). lia.
    + rewrite Nat2Z.inj_succ, Z.pow_succ_r in Hn by lia. split; [apply Z.div_pos; lia|].
      apply Z.div_lt_upper_bound; lia.
Qed.

Lemma digits_range room n base :
  2 <= base -> 0 <= n -> Forall (fun d => 0 <= d < base) (digits room n base).
Proof.
  intros Hb. revert n. induction room as [|room IH]; intros n Hn; [constructor|].
  cbn. destruct (n =? 0); [constructor|]. constructor; [apply Z.mod_pos_bound; lia|].
  apply IH. apply Z.div_pos; lia.
Qed.

(** The character of digit [d] in a character set. *)
Definition charset_ok (base : Z) (char_set : list Z) : Prop :=
  forall d, 0 <= d < base -> exists c, znth char_set d = Some c /\ is_digit base c d.

Lemma digits_loop_spec room n base cs :
  2 <= base -> 0 <= n -> charset_ok base cs ->
  exists str, digits_loop room n base cs = Ok str /\
    Forall2 (is_digit base) str (digits room n base).
Proof.
  intros Hb. revert n. induction room as [|room IH]; intros n Hn Hcs; cbn [digits_loop digits].
  { exists []. by split. }
  destruct (n =? 0); [exists []; by split|].
  rewrite Z.rem_mod_nonneg, Z.quot_div_nonneg by lia.
  destruct (Hcs (n mod base)) as (c & Hc & Hd); [apply Z.mod_pos_bound; lia|].
  rewrite (aread_ok _ _ _ Hc). cbn [mbind outcome_bind].
  destruct (IH (n / base)) as (str & -> & Hstr); [apply Z.div_pos; lia|done|].
  exists (c :: str). split; [done|]. by constructor.
Qed.

Lemma charset_check base cs :
  forallb (fun d => match znth cs d with
                    | Some c => negb (c =? 0) && (get_value c base =? d)
                    | None => false
                    end) (seqZ 0 base) = true -> charset_ok base cs.
Proof.
  intros Hf d Hd. rewrite forallb_forall in Hf. specialize (Hf d).
  rewrite <- list_elem_of_In, elem_of_seqZ in Hf. specialize (Hf ltac:(lia)).
  destruct (znth cs d) as [c|]; [|done]. breflect. exists c. split; [done|].
  split_and!; [done|done|lia..].
Qed.

(** The number systems [print_int], [print_hex] and [print_octal] use. *)
Definition systems : list (Z * list Z) := [(10, DIGITS10); (16, DIGITS16); (8, DIGITS8)].

Lemma systems_ok base cs : (base, cs) ∈ systems -> 8 <= base <= 16 /\ charset_ok base cs.
Proof.
  intros Hin. unfold systems in Hin.
  repeat (apply elem_of_cons in Hin as [[= -> ->]|Hin]; [split; [lia|by apply charset_check]|]).
  by inversion Hin.
Qed.

Lemma value_zeros base k ds : value base (replicate k 0 ++ ds) = value base ds.
Proof.
  induction k as [|k IH]; [done|]. cbn [replicate app]. rewrite value_cons, IH. lia.
Qed.

Lemma is_digit_zero base : 1 <= base -> is_digit base 48 0.
Proof.
  intros. split_and!; try lia. change (get_value 48 base) with (if base <=? 0 then -1 else 0).
  destruct (Z.leb_spec base 0); [lia|done].
Qed.

(** The unpadded text of a non-negative number. *)
Lemma print_num_digits n base cs :
  8 <= base -> charset_ok base cs -> 0 <= n < 2 ^ 63 ->
  exists str ds, (if n =? 0 then c ← aread cs 0; Ok [c] else digits_loop 32 n base cs) = Ok str /\
    Forall2 (is_digit base) (rev str) ds /\ value base ds = n /\ rev str <> [].
Proof.
  intros Hb Hcs Hn. destruct (Z.eqb_spec n 0) as [->|Hne].
  - destruct (Hcs 0) as (c & Hc & Hd); [lia|]. rewrite (aread_ok _ _ _ Hc).
    exists [c], [0]. split_and!; [done| |done|done]. cbn. by constructor.
  - destruct (digits_loop_spec 32 n base cs ltac:(lia) ltac:(lia) Hcs) as (str & -> & Hf).
    exists str, (rev (digits 32 n base)). split_and!; [done| | |].
    + rewrite !rev_alt. by apply Forall2_reverse.
    + apply digits_value; [lia|]. assert (8 ^ 32 <= base ^ Z.of_nat 32); [|lia].
      apply Z.pow_le_mono_l. lia.
    + destruct str; [|by intros [_ ?]%app_nil]. exfalso.
      apply Forall2_length in Hf.
      change (digits 32 n base)
        with (if n =? 0 then [] else n mod base :: digits 31 (n / base) base) in Hf.
      by destruct (Z.eqb_spec n 0).
Qed.

(** What the kernel prints, it parses back: a non-negative number printed
    in decimal, hexadecimal or octal, with any zero padding, is text from which
    [parse_u64] in that base reads the same number, without an error, up to the
    end of the text. *)
Theorem print_parse_roundtrip base cs n prefix :
  (base, cs) ∈ systems -> 0 <= n < 2 ^ 63 ->
  exists out, print_num n base cs prefix true false = Ok out /\
    parse_u64 (out ++ [0]) base = Ok (n, 0, Some [0]).
Proof.
  intros [Hb Hcs]%systems_ok Hn. unfold print_num.
  destruct (Z.ltb_spec n 0) as [?|_]; [lia|].
  destruct (print_num_digits n base cs ltac:(lia) Hcs Hn) as (str & ds & -> & Hf & Hv & Hne).
  cbn [mbind outcome_bind]. eexists. split; [done|].
  set (k := Z.to_nat (prefix - zlen str)). unfold pad. fold k.
  assert (Hf' : Forall2 (is_digit base) (replicate k 48 ++ rev str) (replicate k 0 ++ ds)).
  { apply Forall2_app; [|done]. apply Forall2_replicate, is_digit_zero. lia. }
  assert (Hne' : replicate k 48 ++ rev str <> []) by (intros [_ ?]%app_nil; done).
  set (text := replicate k 48 ++ rev str) in *.
  destruct text as [|c text]; [done|]. cbn [app parse_u64].
  assert (Hc : c <> 0) by (by apply Forall2_cons_inv_l in Hf' as (d & l' & [Hc _] & _ & _)).
  destruct (Z.eqb_spec c 0); [done|]. destruct (Z.eqb_spec base 0); [lia|].
  cbn [mbind outcome_bind]. rewrite (proj2 (Z.leb_le 2 base)), (proj2 (Z.leb_le base 36)) by lia.
  cbn [andb]. change (c :: text ++ [0]) with ((c :: text) ++ [0]).
  rewrite (parse_loop_spec base (c :: text) (replicate k 0 ++ ds) [0] 0); try lia.
  - rewrite value_zeros, Hv. tuple_lia.
  - done.
  - rewrite value_zeros, Hv. lia.
Qed.

(** [parse_u64] checks for overflow only after its multiplication has
    wrapped around, so a decimal number that does not fit 64 bits can be
    accepted with a wrong value: 3 * 10^19 is read as 3 * 10^19 - 2^64. *)
Theorem parse_u64_wraps :
  let text := 51 :: replicate 19 48 in
  value 10 ((fun c => get_value c 10) <$> text) = 3 * 10 ^ 19 /\ 2 ^ 64 <= 3 * 10 ^ 19 /\
  parse_u64 (text ++ [0]) 10 = Ok (3 * 10 ^ 19 - 2 ^ 64, 0, Some [0]).
Proof. by vm_compute. Qed.

(** ** Plain decimal numbers *)

(** The decimal digits of a number. *)
Definition decimal (n : Z) : list Z := match print_int n 0 false false with Ok cs => cs | _ => [] end.

Lemma pad_none c l : 0 <= l -> pad c 0 l = [].
Proof. intros Hl. unfold pad. by replace (Z.to_nat (0 - l)) with 0%nat by lia. Qed.

Lemma digits_loop_length room n ds : digits_loop room n 10 DIGITS10 = Ok ds -> zlen ds <= Z.of_nat room.
Proof.
  revert n ds. induction room as [|room IH]; intros n ds; cbn [digits_loop]; [by intros [= <-]|].
  destruct (n =? 0); [intros [= <-]; zlia|]. destruct (aread _ _) as [c| | |]; try done. cbn [mbind outcome_bind].
  destruct (digits_loop room _ _ _) as [ds'| | |] eqn:E; try done. cbn. intros [= <-]. specialize (IH _ _ E). zlia.
Qed.

(** What [print_int] writes for a number without a width. *)
Lemma decimal_spec n :
  0 <= n < 2 ^ 32 -> print_int n 0 false false = Ok (decimal n) /\ decimal n <> [] /\ zlen (decimal n) <= 32 /\
    exists ds, Forall2 (is_digit 10) (decimal n) ds /\ value 10 ds = n.
Proof.
  intros Hn. destruct (print_num_digits n 10 DIGITS10) as (str & ds & E & Hf & Hv & Hne);
    [lia|by apply charset_check|lia|].
  assert (Hp : print_int n 0 false false = Ok (rev str)).
  { unfold print_int, print_num. rewrite (proj2 (Z.ltb_ge n 0)) by lia. rewrite E. cbn [mbind outcome_bind].
    by rewrite pad_none by apply zlen_nonneg. }
  unfold decimal. rewrite Hp. split_and!; [done..| |by exists ds].
  unfold zlen at 1. rewrite length_rev. fold (zlen str).
  destruct (Z.eqb_spec n 0); [destruct (aread DIGITS10 0); simplify_eq/=; done|by apply digits_loop_length in E].
Qed.

(** ** The format loop *)

Lemma fuelled_strlen_loop s n : fuelled (strlen_loop s n).
Proof. revert n. induction s as [|c s IH]; intros n; cbn; [done|]. by case_goal. Qed.

Lemma fuelled_digits room n base cs : fuelled (digits_loop room n base cs).
Proof.
  revert n. induction room as [|room IH]; intros n; cbn [digits_loop]; fuelled.
Qed.

Lemma fuelled_string_chars s p bl : fuelled (string_chars s p bl).
Proof.
  revert bl. induction s as [|c s IH]; intros bl; cbn [string_chars]; fuelled.
Qed.

Lemma fuelled_precision s i rc : fuelled (parse_precision s i rc).
Proof. revert i rc. induction s as [|c s IH]; intros i rc; cbn [parse_precision]; fuelled. Qed.

Lemma fuelled_print_num n b cs p z r : fuelled (print_num n b cs p z r).
Proof. unfold print_num. cbv zeta. fuelled; apply fuelled_digits. Qed.

Lemma fuelled_print_string s p r q : fuelled (print_string s p r q).
Proof.
  unfold print_string. fuelled; apply fuelled_strlen_loop || apply fuelled_string_chars.
Qed.

#[export] Hint Resolve fuelled_print_num fuelled_print_string fuelled_precision : sbos.

Lemma fuelled_conversion c rest st ap : fuelled (conversion c rest st ap).
Proof.
  unfold conversion, print_int, print_hex, print_octal, take_word, take_longlong, take_str.
  fuelled.
Qed.

Lemma precision_rest s i rc p rest :
  parse_precision s i rc = Ok (p, rest) -> (length rest <= length s)%nat.
Proof.
  revert i rc. induction s as [|c s IH]; intros i rc; cbn [parse_precision]; [done|].
  destruct (c =? 0); [done|]. destruct (c =? 42).
  - destruct (i =? 0); cbn; [|done]. intros [= _ <-]. lia.
  - destruct (isdigit c); cbn [negb]; [|intros [= _ <-]; cbn; lia].
    intros Hp%IH. cbn. lia.
Qed.

(** A step that goes on with the format [rest]. *)
Definition goes_on (rest : list Z) (m : outcome (list Z * pstate * list Z * list arg)) : Prop :=
  match m with Ok (_, _, r, _) => r = rest | _ => True end.

Lemma goes_on_bind {A} rest (m : outcome A) k :
  (forall a, goes_on rest (k a)) -> goes_on rest (m ≫= k).
Proof. intros Hk. destruct m; try done. apply Hk. Qed.

(** What remains of the format after a conversion. *)
Lemma conversion_rest c rest st ap o st' rest' ap' :
  conversion c rest st ap = Ok (o, st', rest', ap') -> (length rest' <= length rest)%nat.
Proof.
  destruct (Z.eqb_spec c 46) as [->|Hc].
  - unfold conversion. cbn [Z.eqb Pos.eqb].
    destruct (parse_precision rest 0 0) as [[p r]| | |] eqn:Ep; cbn; try done.
    apply precision_rest in Ep.
    destruct (if p =? -1 then take_word ap else Ok (p, ap)) as [[q ap1]| | |]; cbn; try done.
    by intros [= _ _ <- _].
  - assert (Hg : goes_on rest (conversion c rest st ap)).
    { unfold conversion. rewrite (proj2 (Z.eqb_neq c 46)) by done.
      repeat match goal with
      | |- goes_on _ (if ?b then _ else _) => destruct b
      | |- goes_on _ (match ?o with _ => _ end) => destruct o
      | |- goes_on _ (_ ≫= _) => apply goes_on_bind; intros
      | |- _ => done
      end. }
    intros He. rewrite He in Hg. cbn in Hg. by subst.
Qed.

Lemma i32_add a b : i32 (i32 a + b) = i32 (a + b).
Proof.
  unfold i32, sext, wrap. assert (Hm : forall x, (if x mod 2 ^ 32 <? 2 ^ (32 - 1)
    then x mod 2 ^ 32 else x mod 2 ^ 32 - 2 ^ 32) mod 2 ^ 32 = x mod 2 ^ 32).
  { intros x. case_goal; [apply Zmod_mod|].
    replace (x mod 2 ^ 32 - 2 ^ 32) with (x mod 2 ^ 32 + (-1) * 2 ^ 32) by lia.
    rewrite Z_mod_plus_full. apply Zmod_mod. }
  by rewrite <- (Z.add_mod_idemp_l _ b), Hm, Z.add_mod_idemp_l by lia.
Qed.

Lemma format_loop_spec fuel s st ap out rc :
  (length s < fuel)%nat -> rc = i32 (zlen out) ->
  match format_loop fuel s st ap out rc with
  | Ok (out', rc') => rc' = i32 (zlen out') /\ out `prefix_of` out'
  | NoFuel => False
  | _ => True
  end.
Proof.
  revert s st ap out rc. induction fuel as [|fuel IH]; intros s st ap out rc Hf ->; [lia|].
  cbn [format_loop]. destruct s as [|c s]; [done|]. cbn in Hf.
  destruct (c =? 0); [done|]. destruct (p_cont st).
  - pose proof (fuelled_conversion c s st ap) as Hc.
    destruct (conversion c s st ap) as [[[[o st'] rest] ap']| | |] eqn:Ec; try done.
    apply conversion_rest in Ec. cbn [mbind outcome_bind].
    specialize (IH rest st' ap' (out ++ o) (i32 (i32 (zlen out) + zlen o)) ltac:(lia)).
    rewrite i32_add, zlen_app in IH. specialize (IH eq_refl). rewrite i32_add.
    destruct (format_loop _ _ _ _ _ _) as [[out' rc']| | |]; try done.
    destruct IH as [? Hp]. split; [done|]. etrans; [|exact Hp]. by apply prefix_app_r.
  - destruct (c =? 37).
    + by apply IH; [lia|].
    + specialize (IH s st ap (out ++ [c]) (i32 (i32 (zlen out) + 1)) ltac:(lia)).
      rewrite i32_add, zlen_app in IH. specialize (IH eq_refl). rewrite i32_add.
      destruct (format_loop _ _ _ _ _ _) as [[out' rc']| | |]; try done.
      destruct IH as [? Hp]. split; [done|]. etrans; [|exact Hp]. by apply prefix_app_r.
Qed.

(** [vkcprintf] ends on every format string, and whenever no assertion
    fails the count it returns is the number of characters it has written. *)
Theorem vkcprintf_counts fmt ap :
  match vkcprintf fmt ap with
  | Ok (out, rc) => rc = i32 (zlen out)
  | NoFuel => False
  | Panic | Fault => True
  end.
Proof.
  unfold vkcprintf. pose proof (format_loop_spec (S (length fmt)) fmt p_init ap [] 0) as Hl.
  specialize (Hl ltac:(lia) eq_refl).
  by destruct (format_loop _ _ _ _ _ _) as [[out rc]| | |]; [destruct Hl|..].
Qed.

Lemma sn_write_all_full cs out off size :
  0 <= off -> 0 <= size -> off + size = zlen out -> size <= zlen cs -> cs <> [] ->
  sn_write_all out off size cs = Fault.
Proof.
  revert out off size. induction cs as [|c cs IH]; intros out off size Ho Hs Hz Hl Hne; [done|].
  cbn [sn_write_all]. unfold sn_write. rewrite zlen_cons in Hl.
  destruct (Z.eq_dec size 0) as [->|Hs0].
  - change (Z.min 1 0) with 0. cbn [Z.eqb mbind outcome_bind]. unfold awrite.
    destruct (Z.ltb_spec (off + 0) (zlen out)); [lia|]. by rewrite andb_false_r.
  - replace (Z.min 1 size) with 1 by lia. cbn [Z.eqb Pos.eqb].
    rewrite awrite_splice by lia. cbn [mbind outcome_bind].
    destruct (Z.eq_dec size 1) as [->|Hs1].
    + unfold awrite. rewrite zlen_splice by zlia.
      destruct (Z.ltb_spec (off + 1) (zlen out)); [lia|]. by rewrite andb_false_r.
    + rewrite awrite_splice by (rewrite zlen_splice; zlia). cbn [mbind outcome_bind].
      apply IH; [lia|lia|rewrite !zlen_splice; rewrite ?zlen_splice; zlia|lia|].
      intros ->. rewrite zlen_nil in Hl. lia.
Qed.

(** [ksnprintf] does not respect the size of its buffer: whenever the
    formatted text has at least [size] characters, its terminator is written
    behind the [size] bytes of the buffer. *)
Theorem ksnprintf_overruns out fmt ap cs rc :
  vkcprintf fmt ap = Ok (cs, rc) -> cs <> [] -> zlen out <= zlen cs ->
  ksnprintf out (zlen out) fmt ap = Fault.
Proof.
  intros Hv Hne Hl. unfold ksnprintf. rewrite Hv. cbn [mbind outcome_bind].
  by rewrite (sn_write_all_full cs out 0 (zlen out)) by (zlia || done).
Qed.

Lemma print_parse_roundtrip_witness :
  exists out, print_num 255 16 DIGITS16 4 true false = Ok out /\
    parse_u64 (out ++ [0]) 16 = Ok (255, 0, Some [0]).
Proof. apply (print_parse_roundtrip 16 DIGITS16 255 4); [unfold systems; set_solver|lia]. Defined.

(** ksnprintf(buf, 2, "%d", 42) *)
Lemma ksnprintf_overruns_witness : ksnprintf [0; 0] 2 [37; 100; 0] [AInt 42] = Fault.
Proof.
  apply (ksnprintf_overruns [0; 0] [37; 100; 0] [AInt 42] [52; 50] 2);
    [reflexivity|done|by vm_compute].
Defined.
