(* ===== verification/Sb.v ===== *)
(** kernel/lib/sb.c: the string builder, and the two operations userland's copy
    (userland/libc/tb/sb.c) adds to it.  [sb_text] is the string built so far;
    the theorems say what every operation does to it. *)

From stdpp Require Import base numbers list gmap.
From Stdlib Require Import ZArith Lia.
From S2P Require Import Prelude Alloc KString.

Open Scope Z_scope.

Record sb : Type := mkSb {
  sb_string : option (block Z);
  sb_length : Z;
  sb_capacity : Z;
  to_ignore : Z;
  prebuffer : bool
}.

Definition DEFAULT_CAPACITY : Z := 256.

Section Operations.
Context {H : Type} `{Allocator H}.

Definition sb_init_capacity (starting_capacity : Z) (h : H) : bool * sb * H :=
  match alloc_bytes starting_capacity h with
  | (None, h) => (false, mkSb None 0 0 0 false, h)
  | (Some b, h) => (true, mkSb (Some b) 0 starting_capacity 0 false, h)
  end.

Definition sb_init (h : H) : sb * H :=
  let '(_, ctx, h) := sb_init_capacity DEFAULT_CAPACITY h in (ctx, h).

Definition sb_init_buffer (buffer : block Z) (size : Z) : sb :=
  mkSb (Some buffer) 0 size 0 true.

Definition sb_free (ctx : sb) (h : H) : sb * H :=
  if prebuffer ctx
  then (mkSb (sb_string ctx) 0 (sb_capacity ctx) (to_ignore ctx) true, h)
  else (mkSb None 0 0 (to_ignore ctx) false, kfree (ptr_of (sb_string ctx)) h).

Definition sb_set_ignore (ctx : sb) (n : Z) : sb :=
  mkSb (sb_string ctx) (sb_length ctx) (sb_capacity ctx) n (prebuffer ctx).

Definition sb_reset (ctx : sb) : sb :=
  mkSb (sb_string ctx) 0 (sb_capacity ctx) 0 (prebuffer ctx).

Definition sb_isempty (ctx : sb) : bool := sb_length ctx =? 0.

Definition sb_increase_buffer (ctx : sb) (min : Z) (h : H) : bool * sb * H :=
  if prebuffer ctx then (false, ctx, h) else
  let new_capacity := u32 (sb_capacity ctx + Z.max 32 min) in
  match realloc_bytes (sb_string ctx) new_capacity h with
  | (None, h) => (false, ctx, h)
  | (Some b, h) => (true, mkSb (Some b) (sb_length ctx) new_capacity (to_ignore ctx) false, h)
  end.

(** [if (n > ctx->capacity - ctx->length) if (!sb_increase_buffer(ctx, n)) return 0;] *)
Definition sb_room (ctx : sb) (n : Z) (h : H) : bool * sb * H :=
  if u32 (sb_capacity ctx - sb_length ctx) <? n then sb_increase_buffer ctx n h
  else (true, ctx, h).

Definition sb_append_char (ctx : sb) (c : Z) (h : H) : outcome (bool * sb * H) :=
  if 0 <? to_ignore ctx then Ok (true, sb_set_ignore ctx (to_ignore ctx - 1), h) else
  let '(ok, ctx, h) := sb_room ctx 1 h in
  if ok : bool then
    d ← memcpy_at (data_of (sb_string ctx)) (sb_length ctx) [c] 0 1;
    Ok (true, mkSb (set_data (sb_string ctx) d) (u32 (sb_length ctx + 1)) (sb_capacity ctx)
                (to_ignore ctx) (prebuffer ctx), h)
  else Ok (false, ctx, h).

Definition sb_delete_right (ctx : sb) (n : Z) : Z * sb :=
  let n := Z.min n (sb_length ctx) in
  (i32 n, mkSb (sb_string ctx) (sb_length ctx - n) (sb_capacity ctx) (to_ignore ctx) (prebuffer ctx)).

Definition sb_append_buffer (ctx : sb) (buffer : list Z) (length : Z) (h : H)
  : outcome (bool * sb * H) :=
  if length <=? to_ignore ctx then Ok (true, sb_set_ignore ctx (to_ignore ctx - length), h) else
  let length := length - to_ignore ctx in
  let buffer := zdrop (to_ignore ctx) buffer in
  let ctx := sb_set_ignore ctx 0 in
  let '(ok, ctx, h) := sb_room ctx length h in
  if ok : bool then
    d ← memcpy_at (data_of (sb_string ctx)) (sb_length ctx) buffer 0 length;
    Ok (true, mkSb (set_data (sb_string ctx) d) (u32 (sb_length ctx + length)) (sb_capacity ctx)
                (to_ignore ctx) (prebuffer ctx), h)
  else Ok (false, ctx, h).

(** [sb_append] repeats the body of [sb_append_buffer] for a C string. *)
Definition sb_append (ctx : sb) (s : list Z) (h : H) : outcome (bool * sb * H) :=
  l ← strlen s; sb_append_buffer ctx s l h.

Definition sb_prepend_buffer (ctx : sb) (buffer : list Z) (length : Z) (h : H)
  : outcome (bool * sb * H) :=
  if length <=? to_ignore ctx then Ok (true, sb_set_ignore ctx (to_ignore ctx - length), h) else
  let length := length - to_ignore ctx in
  let buffer := zdrop (to_ignore ctx) buffer in
  let ctx := sb_set_ignore ctx 0 in
  let '(ok, ctx, h) := sb_room ctx length h in
  if ok : bool then
    d ← memmove (data_of (sb_string ctx)) length 0 (sb_length ctx);
    d ← memcpy_at d 0 buffer 0 length;
    Ok (true, mkSb (set_data (sb_string ctx) d) (u32 (sb_length ctx + length)) (sb_capacity ctx)
                (to_ignore ctx) (prebuffer ctx), h)
  else Ok (false, ctx, h).

(** userland/libc/tb/sb.c *)
Definition sb_modify_location (ctx : sb) (buffer : list Z) (length offset : Z) : outcome (bool * sb) :=
  if sb_length ctx <? u32 (offset + length) then Ok (false, ctx) else
  d ← memcpy_at (data_of (sb_string ctx)) offset buffer 0 length;
  Ok (true, mkSb (set_data (sb_string ctx) d) (sb_length ctx) (sb_capacity ctx)
              (to_ignore ctx) (prebuffer ctx)).

Definition sb_reserve_buffer (ctx : sb) (length : Z) (h : H) : option Z * sb * H :=
  if 0 <? to_ignore ctx then (None, ctx, h) else
  let '(ok, ctx, h) := sb_room ctx length h in
  if ok : bool then
    (Some (sb_length ctx), mkSb (sb_string ctx) (u32 (sb_length ctx + length)) (sb_capacity ctx)
                             (to_ignore ctx) (prebuffer ctx), h)
  else (None, ctx, h).
End Operations.

Definition sb_text (ctx : sb) : list Z := ztake (sb_length ctx) (data_of (sb_string ctx)).

Record sb_inv (ctx : sb) : Prop := {
  sbi_data : zlen (data_of (sb_string ctx)) = sb_capacity ctx;
  sbi_len : 0 <= sb_length ctx <= sb_capacity ctx;
  sbi_cap : sb_capacity ctx < 2 ^ 30;
  sbi_ign : 0 <= to_ignore ctx < 2 ^ 32
}.

(** ** Lemmas *)

Lemma sb_text_len ctx : sb_inv ctx -> zlen (sb_text ctx) = sb_length ctx.
Proof. intros [? ? ? ?]. apply zlen_ztake. lia. Qed.

Section Lemmas.
Context {H : Type} `{AllocatorBytes H}.

(** The buffer after a successful or failed attempt to make room for [n] bytes. *)
Lemma sb_room_spec ctx n h :
  sb_inv ctx -> 0 <= n < 2 ^ 29 -> sb_capacity ctx < 2 ^ 29 ->
  exists ok ctx' h', sb_room ctx n h = (ok, ctx', h') /\ sb_inv ctx' /\
    sb_text ctx' = sb_text ctx /\ sb_length ctx' = sb_length ctx /\
    to_ignore ctx' = to_ignore ctx /\ prebuffer ctx' = prebuffer ctx /\
    (ok = true -> sb_length ctx + n <= sb_capacity ctx') /\ (ok = false -> ctx' = ctx) /\
    (prebuffer ctx = true -> sb_string ctx' = sb_string ctx).
Proof.
  intros [Hd Hl Hc Hi] Hn Hc'. unfold sb_room. rewrite u32_small by lia.
  destruct (Z.ltb_spec (sb_capacity ctx - sb_length ctx) n) as [Hlt|Hge].
  2: { exists true, ctx, h. split_and!; try done; lia. }
  unfold sb_increase_buffer. destruct (prebuffer ctx) eqn:Ep.
  { exists false, ctx, h. by split_and!. }
  rewrite u32_small by lia.
  destruct (realloc_bytes _ _ h) as [[b|] h'] eqn:Er.
  2: { exists false, ctx, h'. by split_and!. }
  apply realloc_bytes_grow in Er as [Hb Ht]; [|lia].
  eexists true, _, h'. split_and!; [done| | |done..| |done|done].
  - split; cbn; lia.
  - unfold sb_text. cbn. rewrite <- Ht. unfold ztake. rewrite take_take. f_equal. lia.
  - cbn. lia.
Qed.

(** Writing [x] behind the text. *)
Lemma sb_write_end ctx x ign :
  sb_inv ctx -> sb_length ctx + zlen x <= sb_capacity ctx -> 0 <= ign < 2 ^ 32 ->
  exists d, memcpy_at (data_of (sb_string ctx)) (sb_length ctx) x 0 (zlen x) = Ok d /\
    let ctx' := mkSb (set_data (sb_string ctx) d) (u32 (sb_length ctx + zlen x))
                  (sb_capacity ctx) ign (prebuffer ctx) in
    sb_inv ctx' /\ sb_text ctx' = sb_text ctx ++ x.
Proof.
  intros [Hd Hl Hc Hi] Hx Hign. pose proof (zlen_nonneg x).
  rewrite memcpy_at_ok by lia. rewrite slice_all. eexists. split; [done|]. cbv zeta.
  assert (Hs : data_of (set_data (sb_string ctx) (splice (data_of (sb_string ctx)) (sb_length ctx) x))
               = splice (data_of (sb_string ctx)) (sb_length ctx) x).
  { apply data_of_set, zlen_splice; lia. }
  rewrite u32_small by lia. split.
  - split; cbn [sb_string sb_length sb_capacity to_ignore]; rewrite ?Hs, ?zlen_splice; lia.
  - unfold sb_text. cbn [sb_string sb_length]. rewrite Hs. unfold splice, ztake.
    rewrite app_assoc, take_app_le by zlia. rewrite take_ge by zlia. done.
Qed.

(** Appending to a string builder.  Of a buffer of [n] bytes the first
    [to_ignore] are skipped and counted off, the rest is added behind the text;
    the call fails, leaving the text unchanged, only when the buffer cannot
    grow, and it never writes outside the buffer. *)
Theorem sb_append_buffer_appends ctx x h :
  sb_inv ctx -> sb_capacity ctx < 2 ^ 29 -> zlen x < 2 ^ 29 ->
  exists ok ctx' h', sb_append_buffer ctx x (zlen x) h = Ok (ok, ctx', h') /\ sb_inv ctx' /\
    (ok = true -> sb_text ctx' = sb_text ctx ++ zdrop (to_ignore ctx) x /\
                  to_ignore ctx' = Z.max 0 (to_ignore ctx - zlen x)) /\
    (ok = false -> sb_text ctx' = sb_text ctx /\ sb_capacity ctx < zlen (sb_text ctx) + zlen x) /\
    (prebuffer ctx = false -> forall b h1, realloc_bytes (sb_string ctx)
       (sb_capacity ctx + Z.max 32 (zlen x - to_ignore ctx)) h = (Some b, h1) -> ok = true).
Proof.
  intros Hinv Hc Hx. pose proof Hinv as [Hd Hl Hc' Hi]. unfold sb_append_buffer.
  pose proof (zlen_nonneg x).
  destruct (Z.leb_spec (zlen x) (to_ignore ctx)) as [Hle|Hgt].
  { eexists true, _, h. split_and!; [done|split; cbn; lia|..]; [|done|done]. intros _.
    cbn. split; [|lia]. unfold zdrop. rewrite drop_ge by zlia. by rewrite app_nil_r. }
  set (k := to_ignore ctx) in *. set (ctx0 := sb_set_ignore ctx 0).
  assert (Hinv0 : sb_inv ctx0) by (split; cbn; lia).
  destruct (sb_room_spec ctx0 (zlen x - k) h Hinv0) as (ok & ctx1 & h1 & He & Hi1 & Ht1 & Hl1 & Hg1 & Hp1 & Hok & Hko & _);
    [lia|cbn; lia|].
  rewrite He. assert (Hz : zlen (zdrop k x) = zlen x - k) by (apply zlen_zdrop; lia).
  pose proof (sb_text_len _ Hinv) as Htl.
  destruct ok.
  - destruct (sb_write_end ctx1 (zdrop k x) (to_ignore ctx1)) as (d & Hm & Hi2 & Ht2);
      [done|rewrite Hl1, Hz; by apply Hok|cbn in Hg1; lia|].
    rewrite Hz in Hm, Hi2, Ht2. rewrite Hm. cbn [mbind outcome_bind].
    eexists true, _, h1. split_and!; [done|exact Hi2| |done|done]. intros _.
    rewrite Ht2, Ht1. split; [done|]. cbn in *. lia.
  - specialize (Hko eq_refl) as ->. exists false, ctx0, h1. split_and!; [done..| |].
    + intros _. split; [done|]. unfold sb_room in He.
      destruct (Z.ltb_spec (u32 (sb_capacity ctx0 - sb_length ctx0)) (zlen x - k)) as [Hlt|]; [|done].
      change (sb_capacity ctx0) with (sb_capacity ctx) in Hlt.
      change (sb_length ctx0) with (sb_length ctx) in Hlt.
      rewrite u32_small in Hlt by lia. lia.
    + intros Hp b h2 Hr. unfold sb_room, sb_increase_buffer in He.
      change (prebuffer ctx0) with (prebuffer ctx) in He. rewrite Hp in He.
      case_hyp He; [|done]. change (sb_capacity ctx0) with (sb_capacity ctx) in He.
      change (sb_string ctx0) with (sb_string ctx) in He.
      rewrite (u32_small (sb_capacity ctx + _)), Hr in He by lia. done.
Qed.

(** [sb_prepend_buffer] puts the bytes in front of the text, and
    [sb_delete_right] cuts off the last bytes; both keep the rest. *)
Theorem sb_prepend_delete ctx x n h :
  sb_inv ctx -> sb_capacity ctx < 2 ^ 29 -> zlen x < 2 ^ 29 -> to_ignore ctx = 0 -> 0 <= n ->
  (exists ok ctx' h', sb_prepend_buffer ctx x (zlen x) h = Ok (ok, ctx', h') /\ sb_inv ctx' /\
     sb_text ctx' = if ok then x ++ sb_text ctx else sb_text ctx) /\
  (let '(k, ctx') := sb_delete_right ctx n in
   k = Z.min n (zlen (sb_text ctx)) /\ sb_inv ctx' /\ sb_text ctx' = ztake (zlen (sb_text ctx) - k) (sb_text ctx)).
Proof.
  intros Hinv Hc Hx Hig Hn. pose proof Hinv as [Hd Hl Hc' Hi]. pose proof (sb_text_len _ Hinv) as Htl.
  pose proof (zlen_nonneg x). split.
  2: { unfold sb_delete_right. rewrite Htl. rewrite i32_small by lia. split_and!; [done|split; cbn; lia|].
       unfold sb_text. cbn. unfold ztake. rewrite take_take. f_equal. lia. }
  unfold sb_prepend_buffer. rewrite Hig.
  destruct (Z.leb_spec (zlen x) 0) as [Hle|Hgt].
  { assert (x = []) as -> by (destruct x; [done|zlia]).
    exists true, (sb_set_ignore ctx (0 - zlen (@nil Z))), h. split_and!; [done|split; cbn; lia|done]. }
  rewrite Z.sub_0_r. change (zdrop 0 x) with x.
  assert (Hinv0 : sb_inv (sb_set_ignore ctx 0)) by (split; cbn; lia).
  destruct (sb_room_spec _ (zlen x) h Hinv0)
    as (ok & ctx1 & h1 & -> & Hi1 & Ht1 & Hl1 & Hg1 & Hp1 & Hok & Hko & _); [lia|cbn; lia|].
  destruct ok; [|specialize (Hko eq_refl) as ->; by eexists false, _, h1].
  specialize (Hok eq_refl). cbn [sb_length sb_set_ignore] in Hok, Hl1.
  pose proof Hi1 as [Hd1 _ Hc1 _]. set (d1 := data_of (sb_string ctx1)) in *.
  assert (Hmv : memmove d1 (zlen x) 0 (sb_length ctx1) = Ok (splice d1 (zlen x) (ztake (sb_length ctx1) d1))).
  { rewrite <- slice_from_0. apply memmove_spec; lia. }
  rewrite Hmv. cbn [mbind outcome_bind]. set (t := ztake _ d1).
  assert (Ht : zlen t = sb_length ctx1) by (apply zlen_ztake; lia).
  rewrite memcpy_at_ok by (rewrite ?zlen_splice; lia). cbn [mbind outcome_bind]. rewrite slice_all.
  assert (Hs : splice (splice d1 (zlen x) t) 0 x = x ++ t ++ zdrop (zlen x + zlen t) d1).
  { unfold splice. rewrite Z.add_0_l. change (ztake 0 _) with (@nil Z). cbn [app]. f_equal.
    unfold zdrop at 1. rewrite drop_app_ge by zlia. rewrite (proj2 (Nat.sub_0_le _ _)) by zlia.
    apply drop_0. }
  assert (Hz : zlen (x ++ t ++ zdrop (zlen x + zlen t) d1) = zlen d1).
  { rewrite !zlen_app, zlen_zdrop; lia. }
  assert (Hds : data_of (set_data (sb_string ctx1) (splice (splice d1 (zlen x) t) 0 x))
                = x ++ t ++ zdrop (zlen x + zlen t) d1).
  { rewrite data_of_set; rewrite Hs; [done|exact Hz]. }
  eexists true, _, h1. split_and!; [done| |].
  - rewrite u32_small by lia. split; cbn [sb_string sb_length sb_capacity to_ignore].
    + rewrite Hds, Hz. done.
    + lia.
    + lia.
    + apply Hi1.
  - change (sb_text (sb_set_ignore ctx 0)) with (sb_text ctx) in Ht1. rewrite <- Ht1.
    rewrite u32_small by lia. unfold sb_text. cbn [sb_string sb_length]. rewrite Hds.
    fold d1 t. unfold ztake at 1. rewrite app_assoc, take_app_le by zlia.
    by rewrite take_ge by zlia.
Qed.
End Lemmas.

Lemma sb_append_buffer_appends_witness :
  let ctx := mkSb (Some (Block 4096 [104; 105; 0; 0])) 2 4 1 false in
  exists ok ctx' h', sb_append_buffer ctx [33; 34] 2 4096 = Ok (ok, ctx', h') /\ sb_inv ctx' /\
    (ok = true -> sb_text ctx' = [104; 105; 34] /\ to_ignore ctx' = 0).
Proof.
  destruct (sb_append_buffer_appends (mkSb (Some (Block 4096 [104; 105; 0; 0])) 2 4 1 false)
              [33; 34] 4096) as (ok & ctx' & h' & He & Hi & Hok & _).
  - split; cbn; [reflexivity|lia|lia|lia].
  - cbn. lia.
  - by vm_compute.
  - exists ok, ctx', h'. split; [exact He|]. split; [exact Hi|exact Hok].
Defined.

Lemma sb_prepend_delete_witness :
  let ctx := mkSb (Some (Block 4096 [104; 105; 0; 0])) 2 4 0 false in
  let '(k, ctx') := sb_delete_right ctx 1 in k = 1 /\ sb_inv ctx' /\ sb_text ctx' = [104].
Proof.
  apply (sb_prepend_delete (mkSb (Some (Block 4096 [104; 105; 0; 0])) 2 4 0 false) [33] 1 4096).
  - split; cbn; [reflexivity|lia|lia|lia].
  - cbn. lia.
  - by vm_compute.
  - reflexivity.
  - lia.
Defined.
