(* ===== verification/Sv.v ===== *)
(** kernel/lib/sv.c: string views, and [sv_read] of userland/libc/tb/sv.c.

    A view is a pointer, represented by the bytes from it to the end of its
    object ([] for NULL), and a length; moving the pointer drops bytes.  The
    [rest] out parameters are modelled as the sources use them: an optional view
    that is updated in place ([rest->s += i]), which the callers pass as the
    input itself.  [text] is the string a view designates. *)

From stdpp Require Import base numbers list gmap.
From Stdlib Require Import ZArith Lia.
From S2P Require Import Prelude Alloc KString Print.

Open Scope Z_scope.

Record sv : Type := mkSv { sv_s : list Z; sv_length : Z }.

Definition text (v : sv) : list Z := ztake (sv_length v) (sv_s v).

Definition sv_ok (v : sv) : Prop := 0 <= sv_length v <= zlen (sv_s v) /\ sv_length v < 2 ^ 32.

Definition sv_null : sv := mkSv [] 0.

(** [rest->s += i; rest->length -= i;] *)
Definition sv_advance (v : sv) (i : Z) : sv := mkSv (zdrop i (sv_s v)) (u32 (sv_length v - i)).

Definition sv_init (p : list Z) (len : Z) : sv := mkSv p len.

(** [C_TO_SV] of a literal. *)
Definition C_TO_SV (s : list Z) : sv := mkSv (s ++ [0]) (zlen s).

Definition sv_next (v : sv) : sv :=
  if sv_length v =? 0 then v else mkSv (zdrop 1 (sv_s v)) (sv_length v - 1).

(** Does [c] occur in the C string [chars]? *)
Fixpoint in_chars (chars : list Z) (c : Z) : outcome bool :=
  match chars with
  | [] => Fault
  | p :: chars => if p =? 0 then Ok false else if p =? c then Ok true else in_chars chars c
  end.

Fixpoint skip_loop (p chars : list Z) (len : nat) {struct len} : outcome (list Z * nat) :=
  match len with
  | O => Ok (p, O)
  | S len' =>
      match p with
      | [] => Fault
      | c :: p' =>
          found ← in_chars chars c;
          if found : bool then skip_loop p' chars len' else Ok (p, len)
      end
  end.

Definition sv_skip_chars (input : sv) (chars : list Z) : outcome sv :=
  '(p, len) ← skip_loop (sv_s input) chars (Z.to_nat (sv_length input));
  Ok (mkSv p (Z.of_nat len)).

(** The digit loop: the value and the number of digits. *)
Fixpoint number_loop (p : list Z) (len : nat) (r i : Z) {struct len} : outcome (Z * Z) :=
  match len with
  | O => Ok (r, i)
  | S len =>
      match p with
      | [] => Fault
      | c :: p => if isdigit c then number_loop p len (u64 (u64 (r * 10) + (c - 48))) (i + 1)
                  else Ok (r, i)
      end
  end.

(** Value, [*rest] and [*got_num]. *)
Definition sv_parse_unsigned_number (input : sv) : outcome (Z * sv * bool) :=
  '(r, i) ← number_loop (sv_s input) (Z.to_nat (sv_length input)) 0 0;
  Ok (r, mkSv (zdrop i (sv_s input)) (sv_length input - i), 0 <? i).

(** The first index from [i] on whose character satisfies [f]. *)
Fixpoint find_first (f : Z -> bool) (p : list Z) (len : nat) (i : Z) {struct len} : outcome (option Z) :=
  match len with
  | O => Ok None
  | S len =>
      match p with
      | [] => Fault
      | c :: p => if f c then Ok (Some i) else find_first f p len (i + 1)
      end
  end.

Definition sv_split_function (input : sv) (rest : option sv) (f : Z -> bool)
  : outcome (sv * option sv) :=
  o ← find_first f (sv_s input) (Z.to_nat (sv_length input)) 0;
  match o with
  | Some i => Ok (mkSv (sv_s input) i, (fun v => sv_advance v i) <$> rest)
  | None => Ok (input, (fun _ => sv_null) <$> rest)
  end.

Definition sv_split_space (input : sv) (rest : option sv) : outcome (sv * option sv) :=
  sv_split_function input rest isspace.

Definition sv_split_delim (input : sv) (rest : option sv) (delim : Z)
  : outcome (sv * option sv) :=
  o ← find_first (fun c => delim =? c) (sv_s input) (Z.to_nat (sv_length input)) 0;
  match o with
  | Some i => Ok (mkSv (sv_s input) i, (fun v => sv_advance v (i + 1)) <$> rest)
  | None => Ok (input, (fun _ => sv_null) <$> rest)
  end.

(** [for (size_t i = input.length - 1; i > 0; i--)]; [k] is [i]. *)
Fixpoint end_split_loop (p : list Z) (delim : Z) (k : nat) : outcome (option Z) :=
  match k with
  | O => Ok None
  | S k' =>
      c ← aread p (Z.of_nat k);
      if delim =? c then Ok (Some (Z.of_nat k)) else end_split_loop p delim k'
  end.

Definition sv_end_split_delim (input : sv) (rest : option sv) (delim : Z)
  : outcome (sv * option sv) :=
  o ← (if sv_length input =? 0 then (* i starts at SIZE_MAX *)
         c ← aread (sv_s input) (u32 (sv_length input - 1)); Ok None
       else end_split_loop (sv_s input) delim (Z.to_nat (sv_length input - 1)));
  match o with
  | Some i => Ok (mkSv (zdrop i (sv_s input)) (sv_length input - i), (fun _ => mkSv (sv_s input) i) <$> rest)
  | None => Ok (input, (fun _ => sv_null) <$> rest)
  end.

Definition sv_isempty (v : sv) : bool := sv_length v =? 0.

Definition sv_peek (v : sv) : outcome Z :=
  if sv_length v =? 0 then Ok 0 else aread (sv_s v) 0.

(** [for (i < n) if (a[i] != b[i]) return 0;] *)
Fixpoint same_bytes (a b : list Z) (n : nat) {struct n} : outcome bool :=
  match n with
  | O => Ok true
  | S n =>
      match a, b with
      | x :: a, y :: b => if negb (x =? y) then Ok false else same_bytes a b n
      | _, _ => Fault
      end
  end.

Definition sv_partial_eq (a b : sv) : outcome bool :=
  if sv_length a <? sv_length b then Ok false else same_bytes (sv_s a) (sv_s b) (Z.to_nat (sv_length b)).

Definition sv_eq (a b : sv) : outcome bool :=
  if negb (sv_length a =? sv_length b) then Ok false else same_bytes (sv_s a) (sv_s b) (Z.to_nat (sv_length a)).

Definition sv_take (v : sv) (rest : option sv) (n : Z) : sv * option sv :=
  if sv_length v <? n then (v, (fun r => mkSv (sv_s r) 0) <$> rest)
  else (mkSv (sv_s v) n, (fun r => sv_advance r n) <$> rest).

Definition sv_take_end (v : sv) (rest : option sv) (n : Z) : sv * option sv :=
  if sv_length v <? n then (v, (fun r => mkSv (sv_s r) 0) <$> rest)
  else (mkSv (zdrop (sv_length v - n) (sv_s v)) n, (fun r => mkSv (sv_s r) (sv_length v - n)) <$> rest).

Definition sv_trim_left (v : sv) (n : Z) : sv :=
  if sv_length v <? n then mkSv (zdrop (sv_length v) (sv_s v)) 0
  else mkSv (zdrop n (sv_s v)) (sv_length v - n).

Definition sv_try_eat (input b : sv) : outcome (bool * sv) :=
  if sv_length input <? sv_length b then Ok (false, input) else
  eq ← same_bytes (sv_s input) (sv_s b) (Z.to_nat (sv_length b));
  if eq : bool then Ok (true, mkSv (zdrop (sv_length b) (sv_s input)) (sv_length input - sv_length b))
  else Ok (false, input).

(** userland/libc/tb/sv.c: the bytes copied to [buf] and [*rest]. *)
Definition sv_read (v : sv) (rest : option sv) (n : Z) : outcome (option (list Z) * option sv) :=
  if sv_length v <? n then Ok (None, (fun r => mkSv (sv_s r) 0) <$> rest) else
  d ← memcpy (replicate (Z.to_nat n) 0) (sv_s v) n;
  Ok (Some d, (fun r => sv_advance r n) <$> rest).

Section Allocating.
Context {H : Type} `{Allocator H}.

Definition SV_TO_C (v : sv) (h : H) : outcome (block Z * H) :=
  match alloc_bytes (u32 (sv_length v + 1)) h with
  | (None, _) => Fault
  | (Some b, h) =>
      d ← memcpy (blk_data b) (sv_s v) (sv_length v);
      d ← awrite d (sv_length v) 0;
      Ok (Block (blk_addr b) d, h)
  end.

Definition sv_clone (v : sv) (h : H) : outcome (sv * H) :=
  match alloc_bytes (sv_length v) h with
  | (None, h) => if sv_length v =? 0 then Ok (mkSv [] 0, h) else Fault
  | (Some b, h) => d ← memcpy (blk_data b) (sv_s v) (sv_length v); Ok (mkSv d (sv_length v), h)
  end.
End Allocating.

Definition sv_to_cstring_buffer (v : sv) (buffer : list Z) (len : Z) : outcome (list Z * Z) :=
  if (len =? 0) || (len - 1 <? sv_length v) then Ok (buffer, sv_length v) else
  d ← memcpy buffer (sv_s v) (sv_length v);
  d ← awrite d (sv_length v) 0;
  Ok (d, sv_length v).

(** [sv_copy_to_c] into a buffer of the caller ([out] not NULL). *)
Definition sv_copy_to_c (v : sv) (out : list Z) (buffer_length : Z) : outcome (option (list Z)) :=
  let copy_len := i32 (Z.min (u32 (sv_length v + 1)) buffer_length) in
  if copy_len =? 0 then Ok None else
  d ← memcpy out (sv_s v) (u32 (copy_len - 1));
  d ← awrite d (copy_len - 1) 0;
  Ok (Some d).

(** ** Views and their texts *)

Lemma text_len v : sv_ok v -> zlen (text v) = sv_length v.
Proof. intros [? _]. by apply zlen_ztake. Qed.

Lemma text_prefix v i : 0 <= i <= sv_length v -> text (mkSv (sv_s v) i) = ztake i (text v).
Proof. intros. unfold text. cbn. unfold ztake. rewrite take_take. f_equal. lia. Qed.

Lemma text_suffix v i :
  0 <= i <= sv_length v -> text (mkSv (zdrop i (sv_s v)) (sv_length v - i)) = zdrop i (text v).
Proof.
  intros. unfold text. cbn. unfold ztake, zdrop. rewrite skipn_firstn_comm. f_equal. lia.
Qed.

Lemma suffix_ok v i : sv_ok v -> 0 <= i <= sv_length v -> sv_ok (mkSv (zdrop i (sv_s v)) (sv_length v - i)).
Proof. intros [? ?] ?. split; cbn; [|lia]. rewrite zlen_zdrop by lia. lia. Qed.

Lemma advance_suffix v i :
  sv_ok v -> 0 <= i <= sv_length v -> sv_advance v i = mkSv (zdrop i (sv_s v)) (sv_length v - i).
Proof. intros [? ?] ?. unfold sv_advance. by rewrite u32_small by lia. Qed.

Lemma find_first_spec f p len i :
  (len <= List.length p)%nat ->
  (find_first f p len i = Ok None /\ Forall (fun c => f c = false) (take len p)) \/
  exists k c, (k < len)%nat /\ find_first f p len i = Ok (Some (i + Z.of_nat k)) /\
    p !! k = Some c /\ f c = true /\ Forall (fun c => f c = false) (take k p).
Proof.
  revert p i. induction len as [|len IH]; intros p i Hl; [left; split; [done|constructor]|].
  destruct p as [|c p]; cbn in Hl; [lia|]. cbn [find_first].
  destruct (f c) eqn:Ef.
  - right. exists O, c. cbn. split_and!; [lia|tuple_lia|done|done|constructor].
  - destruct (IH p (i + 1)) as [[He Hf]|(k & d & Hk & He & Hd & Hfd & Hf)]; [lia|left|right].
    + split; [done|]. cbn. by constructor.
    + exists (S k), d. split_and!; [lia|rewrite He; tuple_lia|done|done|].
      cbn. by constructor.
Qed.

(** [sv_split_delim] cuts a view at the first delimiter and
    [sv_split_function] (with [sv_split_space]) in front of the first character
    that satisfies the predicate; what is returned and what is left in [rest],
    which the callers initialise with the input, make up the input again.
    Without such a character the whole input is returned and [rest] is empty. *)
Theorem sv_split_partitions v delim f :
  sv_ok v ->
  (exists r rest, sv_split_delim v (Some v) delim = Ok (r, Some rest) /\ (delim ∉ text r) /\
     (text v = text r ++ delim :: text rest \/ (text v = text r /\ rest = sv_null)) /\
     sv_ok r /\ sv_ok rest) /\
  (exists r rest, sv_split_function v (Some v) f = Ok (r, Some rest) /\
     Forall (fun c => f c = false) (text r) /\ text v = text r ++ text rest /\
     (text rest = [] \/ exists c t, text rest = c :: t /\ f c = true) /\ sv_ok r /\ sv_ok rest).
Proof.
  intros Hok. pose proof Hok as [Hl _]. pose proof (text_len _ Hok) as Htl.
  assert (Hcut : forall g k c, (k < Z.to_nat (sv_length v))%nat -> sv_s v !! k = Some c ->
    Forall (fun c => g c = false) (take k (sv_s v)) ->
    Forall (fun c => g c = false) (text (mkSv (sv_s v) (Z.of_nat k))) /\
    text v = text (mkSv (sv_s v) (Z.of_nat k)) ++
             c :: text (mkSv (zdrop (Z.of_nat k + 1) (sv_s v)) (sv_length v - (Z.of_nat k + 1)))).
  { intros g k c Hk Hc Hf. rewrite text_prefix, text_suffix by lia.
    unfold text, ztake, zdrop. rewrite take_take, Nat2Z.id.
    replace (k `min` _)%nat with k by lia. split; [done|].
    replace (Z.to_nat (Z.of_nat k + 1)) with (S k) by lia.
    rewrite <- (take_drop_middle (take (Z.to_nat (sv_length v)) (sv_s v)) k c) at 1.
    - rewrite take_take. do 2 f_equal. lia.
    - by rewrite lookup_take_lt by lia. }
  assert (Hpre : forall k, (k < Z.to_nat (sv_length v))%nat -> sv_ok (mkSv (sv_s v) (Z.of_nat k))).
  { intros k Hk. destruct Hok as [? ?]. split; cbn; lia. }
  assert (Hnull : sv_ok sv_null) by (by vm_compute).
  unfold sv_split_delim, sv_split_function. split.
  - destruct (find_first_spec (fun c => delim =? c) (sv_s v) (Z.to_nat (sv_length v)) 0)
      as [[-> Hf]|(k & c & Hk & -> & Hc & Hfc & Hf)]; [zlia|..]; cbn [mbind outcome_bind].
    + exists v, sv_null. split_and!; [done| |by right|done|done]. intros Hin.
      fold (ztake (sv_length v) (sv_s v)) in Hf. fold (text v) in Hf. rewrite Forall_forall in Hf.
      specialize (Hf _ Hin). cbn in Hf. by rewrite Z.eqb_refl in Hf.
    + apply Z.eqb_eq in Hfc as <-. rewrite Z.add_0_l.
      destruct (Hcut _ k delim Hk Hc Hf) as [Hr Ht].
      cbn [fmap option_fmap option_map]. rewrite advance_suffix by (done || lia).
      eexists _, _. split_and!; [done| |by left|by apply Hpre|apply suffix_ok; [done|lia]]. intros Hin. rewrite Forall_forall in Hr.
      specialize (Hr _ Hin). cbn in Hr. by rewrite Z.eqb_refl in Hr.
  - destruct (find_first_spec f (sv_s v) (Z.to_nat (sv_length v)) 0)
      as [[-> Hf]|(k & c & Hk & -> & Hc & Hfc & Hf)]; [zlia|..]; cbn [mbind outcome_bind].
    + exists v, sv_null. split_and!; [done|done| |by left|done|done]. by rewrite app_nil_r.
    + rewrite Z.add_0_l. destruct (Hcut _ k c Hk Hc Hf) as [Hr Ht].
      cbn [fmap option_fmap option_map]. rewrite advance_suffix by (done || lia).
      rewrite text_suffix in Ht by lia.
      assert (Hd : text (mkSv (zdrop (Z.of_nat k) (sv_s v)) (sv_length v - Z.of_nat k))
                   = c :: zdrop (Z.of_nat k + 1) (text v)).
      { rewrite text_suffix by lia. rewrite Ht at 1. unfold zdrop at 1.
        rewrite drop_app_ge; rewrite text_prefix by lia; [|zlia].
        rewrite (proj2 (Nat.sub_0_le _ _)) by zlia. done. }
      eexists _, _. split_and!; [done|done|by rewrite Hd|rewrite Hd; right; eauto|by apply Hpre|apply suffix_ok; [done|lia]].
Qed.

(** ** Comparison *)

Lemma same_bytes_spec a b n :
  (n <= List.length a)%nat -> (n <= List.length b)%nat ->
  same_bytes a b n = Ok (bool_decide (take n a = take n b)).
Proof.
  revert a b. induction n as [|n IH]; intros a b Ha Hb; [done|].
  destruct a as [|x a], b as [|y b]; cbn in Ha, Hb; try lia. cbn [same_bytes take].
  destruct (Z.eqb_spec x y) as [->|Hne]; cbn [negb].
  - rewrite IH by lia. f_equal. apply bool_decide_ext. split; [by intros ->|by intros [= ->]].
  - symmetry. f_equal. apply bool_decide_eq_false_2. by intros [= ->].
Qed.

Lemma prefix_take (t u : list Z) :
  t `prefix_of` u <-> t = take (List.length t) u.
Proof.
  split; [intros [k ->]; by rewrite take_app_length|].
  intros E. rewrite E. exists (drop (List.length t) u). by rewrite take_drop.
Qed.

Lemma eat_prefix a b :
  sv_ok a -> sv_ok b -> sv_length b <= sv_length a ->
  same_bytes (sv_s a) (sv_s b) (Z.to_nat (sv_length b)) = Ok (bool_decide (text b `prefix_of` text a)).
Proof.
  intros [Ha _] [Hb _] Hle. rewrite same_bytes_spec by zlia. f_equal. apply bool_decide_ext.
  rewrite prefix_take. unfold text, ztake. rewrite take_take, length_take.
  replace ((Z.to_nat (sv_length b) `min` List.length (sv_s b)) `min` Z.to_nat (sv_length a))%nat
    with (Z.to_nat (sv_length b)) by zlia.
  split; by intros ->.
Qed.

(** [sv_eq] is equality of the strings, [sv_partial_eq(a, b)] tests that [b]
    is a prefix of [a], and [sv_try_eat] removes such a prefix or leaves the
    input alone. *)
Theorem sv_comparisons a b :
  sv_ok a -> sv_ok b ->
  sv_eq a b = Ok (bool_decide (text a = text b)) /\
  sv_partial_eq a b = Ok (bool_decide (text b `prefix_of` text a)) /\
  exists ok rest, sv_try_eat a b = Ok (ok, rest) /\ ok = bool_decide (text b `prefix_of` text a) /\
    if ok : bool then text a = text b ++ text rest /\ sv_ok rest else rest = a.
Proof.
  intros Ha Hb. pose proof (text_len _ Ha) as Hta. pose proof (text_len _ Hb) as Htb.
  pose proof Ha as [? _]. pose proof Hb as [? _].
  assert (Hlen : text b `prefix_of` text a -> sv_length b <= sv_length a).
  { intros Hp%prefix_length. zlia. }
  unfold sv_eq, sv_partial_eq, sv_try_eat. split_and!.
  - destruct (Z.eqb_spec (sv_length a) (sv_length b)) as [E|E]; cbn [negb].
    + rewrite same_bytes_spec by zlia. unfold text, ztake. by rewrite E.
    + symmetry. f_equal. apply bool_decide_eq_false_2. intros Et. rewrite Et in Hta. lia.
  - destruct (Z.ltb_spec (sv_length a) (sv_length b)).
    + symmetry. f_equal. apply bool_decide_eq_false_2. intros Hp%Hlen. lia.
    + by apply eat_prefix.
  - destruct (Z.ltb_spec (sv_length a) (sv_length b)).
    + exists false, a. split_and!; [done| |done]. symmetry. apply bool_decide_eq_false_2.
      intros Hp%Hlen. lia.
    + rewrite eat_prefix by done. cbn [mbind outcome_bind].
      destruct (bool_decide _) eqn:Ep; [|by exists false, a].
      apply bool_decide_eq_true in Ep. eexists true, _. split; [done|split; [done|]].
      split; [|apply suffix_ok; [done|lia]]. rewrite text_suffix by lia.
      rewrite prefix_take in Ep. rewrite Ep at 1. unfold zdrop.
      replace (Z.to_nat (sv_length b)) with (List.length (text b)) by zlia. by rewrite take_drop.
Qed.

(** ** Numbers and the last delimiter *)

Lemma u64_mul_add r d : u64 (u64 (u64 r * 10) + d) = u64 (r * 10 + d).
Proof.
  unfold u64, wrap. rewrite Zplus_mod_idemp_l. rewrite <- (Zplus_mod_idemp_l (r mod 2 ^ 64 * 10)).
  rewrite Zmult_mod_idemp_l. by rewrite Zplus_mod_idemp_l.
Qed.

Lemma number_loop_spec p len r i :
  (len <= List.length p)%nat ->
  exists k, (k <= len)%nat /\ Forall (fun c => isdigit c = true) (take k p) /\
    (k = len \/ exists c, p !! k = Some c /\ isdigit c = false) /\
    number_loop p len (u64 r) i =
      Ok (u64 (fold_left (fun acc d => acc * 10 + d) ((fun c => c - 48) <$> take k p) r),
          i + Z.of_nat k).
Proof.
  revert p r i. induction len as [|len IH]; intros p r i Hl.
  { exists O. split_and!; [done|constructor|by left|]. cbn. tuple_lia. }
  destruct p as [|c p]; cbn in Hl; [lia|]. cbn [number_loop].
  destruct (isdigit c) eqn:Ec.
  - rewrite u64_mul_add. destruct (IH p (r * 10 + (c - 48)) (i + 1)) as (k & Hk & Hf & Hs & ->); [lia|].
    exists (S k). split_and!; [lia|by constructor| |cbn; tuple_lia].
    destruct Hs as [->|(d & Hd & He)]; [by left|right; by exists d].
  - exists O. split_and!; [lia|constructor|right; by exists c|]. cbn. tuple_lia.
Qed.

(** [sv_parse_unsigned_number] reads the longest run of decimal digits, yields
    its value modulo 2^64, reports whether there was a digit, and leaves the
    rest of the text. *)
Theorem sv_parse_unsigned_number_reads v :
  sv_ok v ->
  exists n ds rest, sv_parse_unsigned_number v = Ok (n, rest, negb (zlen ds =? 0)) /\
    text v = ds ++ text rest /\ Forall (fun c => isdigit c = true) ds /\
    n = u64 (value 10 ((fun c => c - 48) <$> ds)) /\
    match text rest with [] => True | c :: _ => isdigit c = false end.
Proof.
  intros Hok. pose proof Hok as [Hl _]. unfold sv_parse_unsigned_number.
  destruct (number_loop_spec (sv_s v) (Z.to_nat (sv_length v)) 0 0) as (k & Hk & Hf & Hs & He); [zlia|].
  change (u64 0) with 0 in He. rewrite He. cbn [mbind outcome_bind]. rewrite Z.add_0_l.
  assert (Htk : take k (sv_s v) = take k (text v)).
  { unfold text, ztake. rewrite take_take. f_equal. lia. }
  assert (Hlen : zlen (take k (sv_s v)) = Z.of_nat k) by zlia.
  exists (u64 (value 10 ((fun c => c - 48) <$> take k (sv_s v)))), (take k (sv_s v)),
    (mkSv (zdrop (Z.of_nat k) (sv_s v)) (sv_length v - Z.of_nat k)).
  rewrite text_suffix, Hlen by lia. unfold zdrop. rewrite Nat2Z.id. split_and!; [|..|done|done|].
  - do 2 f_equal. destruct (Z.ltb_spec 0 (Z.of_nat k)), (Z.eqb_spec (Z.of_nat k) 0); try lia; done.
  - rewrite Htk. symmetry. apply take_drop.
  - destruct Hs as [->|(c & Hc & Hd)].
    + unfold text, ztake. rewrite drop_ge; [done|]. zlia.
    + destruct (drop k (text v)) as [|d t] eqn:Ed; [done|].
      assert (Hd' : text v !! k = Some d).
      { rewrite <- (Nat.add_0_r k), <- lookup_drop, Ed. done. }
      unfold text, ztake in Hd'. apply lookup_take_Some in Hd' as [Hd' _]. congruence.
Qed.

(** [sv_end_split_delim] on an empty view, where its loop counter starts at
    [SIZE_MAX], reads far outside the string. *)
Theorem sv_end_split_empty_faults p rest delim :
  zlen p < 2 ^ 32 -> sv_end_split_delim (mkSv p 0) rest delim = Fault.
Proof.
  intros Hp. unfold sv_end_split_delim. cbn [sv_length sv_s Z.eqb]. unfold aread.
  rewrite znth_None; [done|]. right. change (u32 (0 - 1)) with 0xFFFFFFFF. lia.
Qed.

Lemma sv_sample_ok : sv_ok (mkSv [97; 44; 98; 44; 99] 5).
Proof. split; cbn; [|lia]. split; [lia|by vm_compute]. Qed.

Lemma sv_split_partitions_witness :
  exists r rest, sv_split_delim (mkSv [97; 44; 98; 44; 99] 5) (Some (mkSv [97; 44; 98; 44; 99] 5)) 44
      = Ok (r, Some rest) /\ (44 ∉ text r) /\
    (text (mkSv [97; 44; 98; 44; 99] 5) = text r ++ 44 :: text rest \/
     (text (mkSv [97; 44; 98; 44; 99] 5) = text r /\ rest = sv_null)).
Proof.
  destruct (sv_split_partitions _ 44 isspace sv_sample_ok) as [(r & rest & H1 & H2 & H3 & _) _].
  by exists r, rest.
Defined.

Lemma sv_comparisons_witness :
  sv_eq (mkSv [97; 44; 98; 44; 99] 5) (mkSv [97; 44; 98; 44; 99] 5) = Ok true.
Proof. apply (sv_comparisons _ _ sv_sample_ok sv_sample_ok). Defined.

Lemma sv_parse_unsigned_number_reads_witness :
  exists n ds rest, sv_parse_unsigned_number (mkSv [52; 50; 97] 3) = Ok (n, rest, negb (zlen ds =? 0)) /\
    text (mkSv [52; 50; 97] 3) = ds ++ text rest.
Proof.
  destruct (sv_parse_unsigned_number_reads (mkSv [52; 50; 97] 3)) as (n & ds & rest & He & Ht & _).
  - split; cbn; [|lia]. split; [lia|by vm_compute].
  - exists n, ds, rest. split; [exact He|exact Ht].
Defined.

Lemma sv_end_split_empty_faults_witness : sv_end_split_delim (mkSv [97] 0) None 44 = Fault.
Proof. apply (sv_end_split_empty_faults [97] None 44). by vm_compute. Defined.
