(* ===== verification/Hashmap.v ===== *)
(** kernel/hashmap/hashmap.c: the chained hash map.

    A bucket is the list of its [LinkedList] entries; keys are the strings the C
    keys designate.  [upon_deletion] callbacks are function pointers, modelled
    by a number; calling one is recorded in a trace.  Allocation failures of the
    entry and of the copied key are arguments, as is the hash function, which
    the struct carries. *)

From stdpp Require Import base numbers list gmap.
From Stdlib Require Import ZArith Lia.
From S2P Require Import Prelude.

Open Scope Z_scope.

Definition CONSTANT : Z := 0x031b5515.

Definition mix (x : Z) : Z :=
  let x := Z.lxor x CONSTANT in
  let x := Z.lxor x (u32 (Z.shiftl x 13)) in
  let x := Z.lxor x (Z.shiftr x 7) in
  Z.lxor x (u32 (Z.shiftl x 17)).

(** Up to four bytes as a little endian [u32]. *)
Fixpoint le_value (bs : list Z) : Z :=
  match bs with [] => 0 | b :: bs => b + 256 * le_value bs end.

Fixpoint hash_loop (fuel : nat) (data : list Z) (h : Z) : Z :=
  match fuel with
  | O => h
  | S fuel =>
      match data with
      | [] => h
      | _ => hash_loop fuel (drop 4 data) (Z.lxor h (mix (le_value (take 4 data))))
      end
  end.

(** Every turn consumes at least one byte, so the length is enough fuel. *)
Definition hash (data : list Z) : Z := hash_loop (length data) data 0.

Record LinkedList : Type := mkEntry {
  key : list Z;
  key_allocated : bool;
  value : Z;
  upon_deletion : option Z
}.

Record HashMap : Type := mkMap {
  entries : list (list LinkedList);
  size : Z;
  num_entries : Z;
  hash_function : list Z -> Z
}.

Definition limit_hash (m : HashMap) (h : Z) : Z := h mod size m.

Definition find_index (m : HashMap) (k : list Z) : Z := limit_hash m (hash_function m k).

(** The position of the first entry with key [k]. *)
Fixpoint get_linkedlist_entry (l : list LinkedList) (k : list Z) : option (nat * LinkedList) :=
  match l with
  | [] => None
  | e :: l =>
      if bool_decide (k = key e) then Some (O, e)
      else '(i, e) ← get_linkedlist_entry l k; Some (S i, e)
  end.

Definition get_linkedlist_value (l : list LinkedList) (k : list Z) : option Z :=
  '(_, e) ← get_linkedlist_entry l k; Some (value e).

(** [alloc_entry], [alloc_key]: whether the two allocations succeed. *)
Definition hashmap_add_entry (alloc_entry alloc_key : bool) (m : HashMap) (k : list Z) (v : Z)
  (upon : option Z) (do_not_allocate_key : bool) : outcome (bool * HashMap) :=
  if negb alloc_entry then Ok (false, m) else
  if negb do_not_allocate_key && negb alloc_key then Ok (false, m) else
  let e := mkEntry k (negb do_not_allocate_key) v upon in
  let index := find_index m k in
  l ← aread (entries m) index;
  es ← awrite (entries m) index (l ++ [e]);
  Ok (true, mkMap es (size m) (u32 (num_entries m + 1)) (hash_function m)).

Definition hashmap_get_entry (m : HashMap) (k : list Z) : outcome (option Z) :=
  l ← aread (entries m) (find_index m k);
  Ok (get_linkedlist_value l k).

(** The bucket after the entry at position [i] has been unlinked.  [prev] stays
    the address of the bucket's head pointer: if the entry is the head, the
    bucket becomes NULL, else the head is linked to the entry's successor. *)
Definition unlink (l : list LinkedList) (i : nat) : list LinkedList :=
  match i, l with
  | O, _ => []
  | S _, h :: _ => h :: drop (S i) l
  | S _, [] => []
  end.

(** A call of an [upon_deletion] function. *)
Abbreviation callback := (Z * list Z * Z)%type.

Fixpoint delete_fuel (fuel : nat) (m : HashMap) (k : list Z)
  : outcome (bool * HashMap * list callback) :=
  match fuel with
  | O => NoFuel
  | S fuel =>
      l ← aread (entries m) (find_index m k);
      match get_linkedlist_entry l k with
      | None => Ok (false, m, [])
      | Some (i, e) =>
          es ← awrite (entries m) (find_index m k) (unlink l i);
          '(_, m, tr) ← delete_fuel fuel (mkMap es (size m) (num_entries m) (hash_function m)) k;
          Ok (true, mkMap (entries m) (size m) (u32 (num_entries m - 1)) (hash_function m),
              match upon_deletion e with Some f => [(f, key e, value e)] | None => [] end ++ tr)
      end
  end.

Definition bucket (m : HashMap) (k : list Z) : list LinkedList :=
  match znth (entries m) (find_index m k) with Some l => l | None => [] end.

(** Every recursive call finds a shorter bucket. *)
Definition hashmap_delete_entry (m : HashMap) (k : list Z) : outcome (bool * HashMap * list callback) :=
  delete_fuel (S (length (bucket m k))) m k.

(** The callbacks [hashmap_free] makes, bucket by bucket. *)
Definition hashmap_free (m : HashMap) : list callback :=
  entries m ≫= fun l => l ≫= fun e =>
    match upon_deletion e with Some f => [(f, key e, value e)] | None => [] end.

Definition hashmap_create (sz : Z) : HashMap :=
  mkMap (replicate (Z.to_nat sz) []) sz 0 hash.

(** ** The partial map *)

Definition lookup (m : HashMap) (k : list Z) : option Z := get_linkedlist_value (bucket m k) k.

Record inv (m : HashMap) : Prop := {
  inv_size : 0 < size m < 2 ^ 32;
  inv_entries : zlen (entries m) = size m
}.

Lemma find_index_range m k : inv m -> 0 <= find_index m k < zlen (entries m).
Proof. intros [Hs He]. rewrite He. apply Z.mod_pos_bound. lia. Qed.

Lemma read_bucket m k : inv m -> aread (entries m) (find_index m k) = Ok (bucket m k).
Proof.
  intros Hinv. destruct (znth_Some _ _ (find_index_range m k Hinv)) as [l Hl].
  unfold bucket. rewrite Hl. by apply aread_ok.
Qed.

Lemma get_value_app l1 l2 k :
  get_linkedlist_value (l1 ++ l2) k =
    match get_linkedlist_value l1 k with Some v => Some v | None => get_linkedlist_value l2 k end.
Proof.
  unfold get_linkedlist_value. induction l1 as [|e l1 IH]; [done|]. cbn.
  case_bool_decide; [done|].
  destruct (get_linkedlist_entry (l1 ++ l2) k) as [[i x]|], (get_linkedlist_entry l1 k) as [[j y]|],
    (get_linkedlist_entry l2 k) as [[n z]|]; cbn in *; congruence.
Qed.

(** Replacing one bucket. *)
Lemma bucket_update m k l n k' :
  inv m ->
  bucket (mkMap (<[Z.to_nat (find_index m k) := l]> (entries m)) (size m) n (hash_function m)) k' =
    if find_index m k' =? find_index m k then l else bucket m k'.
Proof.
  intros Hinv. pose proof (find_index_range m k Hinv). pose proof (find_index_range m k' Hinv).
  unfold bucket. cbn [entries]. change (find_index (mkMap _ _ _ _) k') with (find_index m k').
  rewrite znth_insert by lia. by destruct (_ =? _).
Qed.

(** [hashmap_get_entry] reads the partial map, and [hashmap_add_entry] binds
    a key that was unbound and leaves every other key as it was; a key that is
    already bound keeps its first value. *)
Theorem hashmap_add_get m k v upon dna :
  inv m ->
  (forall k', hashmap_get_entry m k' = Ok (lookup m k')) /\
  exists m', hashmap_add_entry true true m k v upon dna = Ok (true, m') /\ inv m' /\
    num_entries m' = u32 (num_entries m + 1) /\
    forall k', lookup m' k' =
      if bool_decide (k' = k) && negb (bool_decide (is_Some (lookup m k))) then Some v
      else lookup m k'.
Proof.
  intros Hinv. split; [intros k'; unfold hashmap_get_entry; by rewrite read_bucket|].
  unfold hashmap_add_entry. cbn [negb]. rewrite andb_false_r, read_bucket by done.
  cbn [mbind outcome_bind]. rewrite awrite_ok by (by apply find_index_range).
  eexists. split_and!; [done| |done|].
  - destruct Hinv. split; cbn [size entries]; [done|]. by rewrite zlen_insert.
  - intros k'. unfold lookup at 1. rewrite bucket_update by done.
    destruct (Z.eqb_spec (find_index m k') (find_index m k)) as [E|E].
    + assert (Hb : bucket m k = bucket m k') by (unfold bucket; by rewrite E).
      rewrite get_value_app. unfold get_linkedlist_value at 2. cbn.
      case_bool_decide as Ek; cbn [andb].
      * subst. unfold lookup. by destruct (get_linkedlist_value (bucket m k) k).
      * rewrite Hb. unfold lookup. by destruct (get_linkedlist_value (bucket m k') k').
    + case_bool_decide as Ek; [by subst|done].
Qed.

(** ** Deletion *)

Lemma get_entry_lt l k i e :
  get_linkedlist_entry l k = Some (i, e) -> (i < length l)%nat /\ key e = k.
Proof.
  revert i. induction l as [|x l IH]; intros i; cbn; [done|]. case_bool_decide as Ek.
  - intros [= <- <-]. split; [lia|done].
  - destruct (get_linkedlist_entry l k) as [[j y]|]; cbn; [|done].
    intros [= <- <-]. destruct (IH j eq_refl). split; [lia|done].
Qed.

Lemma unlink_shorter l i : (i < length l)%nat -> (length (unlink l i) < length l)%nat.
Proof. intros Hi. destruct i, l; cbn in *; try lia. rewrite length_drop. lia. Qed.

Lemma delete_fuel_spec fuel m k :
  inv m -> (length (bucket m k) < fuel)%nat ->
  exists r m' tr, delete_fuel fuel m k = Ok (r, m', tr) /\ inv m' /\ lookup m' k = None /\
    (r = true <-> is_Some (lookup m k)) /\ hash_function m' = hash_function m /\ size m' = size m /\
    (bucket m' k) `sublist_of` (bucket m k) /\
    (forall k', find_index m k' <> find_index m k -> bucket m' k' = bucket m k').
Proof.
  revert m. induction fuel as [|fuel IH]; intros m Hinv Hf; [lia|]. cbn [delete_fuel].
  rewrite read_bucket by done. cbn [mbind outcome_bind].
  destruct (get_linkedlist_entry (bucket m k) k) as [[i e]|] eqn:Ee.
  2: { exists false, m, []. unfold lookup, get_linkedlist_value. rewrite Ee. cbn.
       by split_and!. }
  destruct (get_entry_lt _ _ _ _ Ee) as [Hi _].
  rewrite awrite_ok by (by apply find_index_range). cbn [mbind outcome_bind].
  set (m1 := mkMap (<[_ := _]> _) _ _ _).
  assert (Hinv1 : inv m1).
  { destruct Hinv. split; cbn [size entries m1]; [done|]. by rewrite zlen_insert. }
  assert (Hb1 : bucket m1 k = unlink (bucket m k) i).
  { unfold m1. by rewrite bucket_update, Z.eqb_refl. }
  destruct (IH m1 Hinv1) as (r & m2 & tr & -> & Hi2 & Hl2 & _ & Hh2 & Hs2 & Hsub & Hoth).
  { rewrite Hb1. pose proof (unlink_shorter _ _ Hi). lia. }
  cbn [mbind outcome_bind]. eexists true, _, _. split_and!; [done| | |..].
  - destruct Hi2. by split.
  - exact Hl2.
  - split; [|done]. intros _. unfold lookup, get_linkedlist_value. rewrite Ee. by eexists.
  - done.
  - done.
  - change (bucket (mkMap _ _ _ _) k) with (bucket m2 k). etrans; [exact Hsub|]. rewrite Hb1.
    destruct i as [|i], (bucket m k) as [|h l]; cbn; try apply sublist_nil_l.
    apply sublist_skip. apply (sublist_drop l).
  - intros k' Hk'. change (bucket (mkMap _ _ _ _) k') with (bucket m2 k').
    rewrite Hoth by done. unfold m1. rewrite bucket_update by done.
    by destruct (Z.eqb_spec (find_index m k') (find_index m k)).
Qed.

(** [hashmap_delete_entry] returns, removes every entry of the key, reports
    whether there was one, and does not touch the buckets of other hash values;
    in its own bucket it adds nothing and keeps the order. *)
Theorem hashmap_delete_removes m k :
  inv m ->
  exists r m' tr, hashmap_delete_entry m k = Ok (r, m', tr) /\ inv m' /\ lookup m' k = None /\
    (r = true <-> is_Some (lookup m k)) /\
    (bucket m' k) `sublist_of` (bucket m k) /\
    (forall k', find_index m k' <> find_index m k -> lookup m' k' = lookup m k').
Proof.
  intros Hinv. unfold hashmap_delete_entry.
  destruct (delete_fuel_spec (S (length (bucket m k))) m k Hinv)
    as (r & m' & tr & He & Hi & Hl & Hr & Hh & Hs & Hsub & Hoth); [lia|].
  exists r, m', tr. split_and!; try done; [by apply Hr..|].
  intros k' Hk'. unfold lookup. by rewrite Hoth.
Qed.

(** Deleting the first entry of a bucket drops the whole bucket, because
    the predecessor pointer is never set by [get_linkedlist_entry]: every other
    key that hashes to it is lost without its [upon_deletion] being called. *)
Theorem hashmap_delete_drops_bucket m k k' e l :
  inv m -> bucket m k = e :: l -> key e = k -> find_index m k' = find_index m k ->
  exists m', hashmap_delete_entry m k =
      Ok (true, m', match upon_deletion e with Some f => [(f, key e, value e)] | None => [] end) /\
    lookup m' k' = None.
Proof.
  intros Hinv Hb Hk Hi. unfold hashmap_delete_entry. rewrite Hb. cbn [length delete_fuel].
  rewrite read_bucket, Hb by done. cbn [mbind outcome_bind get_linkedlist_entry].
  rewrite bool_decide_eq_true_2 by done.
  rewrite awrite_ok by (by apply find_index_range). cbn [mbind outcome_bind unlink].
  set (m1 := mkMap (<[_ := _]> _) _ _ _).
  assert (Hinv1 : inv m1).
  { destruct Hinv. split; cbn [size entries m1]; [done|]. by rewrite zlen_insert. }
  assert (Hb1 : bucket m1 k = []) by (unfold m1; by rewrite bucket_update, Z.eqb_refl).
  rewrite read_bucket, Hb1 by done. cbn [mbind outcome_bind get_linkedlist_entry].
  rewrite app_nil_r. eexists. split; [done|]. unfold lookup.
  change (bucket (mkMap _ _ _ _) k') with (bucket m1 k'). unfold m1.
  by rewrite bucket_update, Hi, Z.eqb_refl.
Qed.

(** Two buckets; [[1]] and [[3]] share one of them. *)
Definition sample_map : HashMap :=
  mkMap [[]; [mkEntry [1] true 10 (Some 7); mkEntry [3] true 30 None]] 2 2 (fun k => hd 0 k).

Lemma sample_map_inv : inv sample_map.
Proof. split; [cbn; lia|reflexivity]. Qed.

Lemma hashmap_add_get_witness :
  hashmap_get_entry sample_map [3] = Ok (Some 30) /\
  exists m', hashmap_add_entry true true sample_map [2] 20 None false = Ok (true, m') /\ inv m'.
Proof.
  destruct (hashmap_add_get sample_map [2] 20 None false sample_map_inv) as (Hg & m' & He & Hi & _).
  split; [exact (Hg [3])|]. exists m'. split; [exact He|exact Hi].
Defined.

Lemma hashmap_delete_removes_witness :
  exists r m' tr, hashmap_delete_entry sample_map [3] = Ok (r, m', tr) /\ inv m' /\
    lookup m' [3] = None /\ (r = true <-> is_Some (lookup sample_map [3])).
Proof.
  destruct (hashmap_delete_removes sample_map [3] sample_map_inv)
    as (r & m' & tr & He & Hi & Hl & Hr & _).
  exists r, m', tr. split; [exact He|]. split; [exact Hi|]. split; [exact Hl|exact Hr].
Defined.

Lemma hashmap_delete_drops_bucket_witness :
  lookup sample_map [3] = Some 30 /\
  exists m', hashmap_delete_entry sample_map [1] = Ok (true, m', [(7, [1], 10)]) /\
    lookup m' [3] = None.
Proof.
  split; [reflexivity|].
  apply (hashmap_delete_drops_bucket sample_map [1] [3] (mkEntry [1] true 10 (Some 7))
           [mkEntry [3] true 30 None] sample_map_inv); reflexivity.
Defined.
