(* ===== verification/Mmu.v ===== *)
(** kernel/arch/i386/mmu.c: physical frames, page tables and the kernel break.

    The state holds the frame bitmap, the page tables by the address of the
    table, the page directories by their address, and the globals of the file.
    A [Page *] is a table address with an index.  [get_page] allocates missing
    tables through [kmalloc_align], which is [ksbrk] again; the recursion is
    bounded by fuel.  Page contents, TLB flushes and the moving of the boot stack
    are not modelled. *)

From stdpp Require Import base numbers list gmap.
From Stdlib Require Import ZArith Lia.
From S2P Require Import Prelude StateM Bitmap.

Open Scope Z_scope.

Definition PAGE_SIZE : Z := 0x1000.
Definition MMU_FLAG_RW : Z := 1.
Definition MMU_FLAG_KERNEL : Z := 2.

Definition align_page (x : Z) : Z :=
  let r := Z.land x (PAGE_SIZE - 1) in
  if 0 <? r then u32 (x + (PAGE_SIZE - r)) else x.

Record Page : Type := mkPage {
  present : bool;
  rw : bool;
  user : bool;
  accessed : bool;
  dirty : bool;
  frame : Z
}.

Definition zero_page : Page := mkPage false false false false false 0.

(** [tables[i]] and [physical_tables[i]]; a missing key is NULL. *)
Record PageDirectory : Type := mkDir {
  tables : gmap Z Z;
  physical_tables : gmap Z Z;
  physical_address : Z
}.

Record PhysVirtMap : Type := mkPV {
  pv_physical : Z;
  pv_virtual : Z;
  pv_length : Z;
  pv_in_use : bool
}.

Record mmu : Type := mkMmu {
  tmp_small_frames : list Z;
  num_array_frames : Z;
  start_frame_search : Z;
  num_allocated_frames : Z;
  page_tables : gmap Z (gmap Z Page);
  dirs : gmap Z PageDirectory;
  kernel_directory : Z;
  active_directory : option Z;
  data_end : Z;
  has_current_task : bool;
  ready_queue : list Z;
  phys_to_virt_map : list PhysVirtMap
}.

(** ** State and errors *)

Abbreviation M := (SM mmu).

(** ** Physical frames *)

Definition set_frames (w : list Z) (start count : Z) (st : mmu) : mmu :=
  mkMmu w (num_array_frames st) start count (page_tables st) (dirs st) (kernel_directory st)
    (active_directory st) (data_end st) (has_current_task st) (ready_queue st) (phys_to_virt_map st).

(** The inner loop of [get_free_frames] over the bits [c], [k] of them, of word
    [i]: the new counter, or the bit at which it has become 0. *)
Fixpoint frame_bits (k : nat) (w c num_frames counter : Z) : Z * option Z :=
  match k with
  | O => (counter, None)
  | S k =>
      if is_set w (Z.shiftl 1 c) then frame_bits k w (c + 1) num_frames num_frames
      else let counter := u32 (counter - 1) in
           if counter =? 0 then (counter, Some c) else frame_bits k w (c + 1) num_frames counter
  end.

(** The outer loop over the words [ws] from index [i] on.  The assignment to
    [start_frame_search] is [min(start_frame_search, i)] with [i] not below it. *)
Fixpoint frame_words (ws : list Z) (i num_frames counter : Z) : option Z :=
  match ws with
  | [] => None
  | w :: ws =>
      if w =? 0xFFFFFFFF then frame_words ws (i + 1) num_frames counter else
      match frame_bits 32 w 0 num_frames counter with
      | (_, Some c) => Some (u32 (i * 32 + c - (num_frames - 1)))
      | (counter, None) => frame_words ws (i + 1) num_frames counter
      end
  end.

Definition get_free_frames (num_frames : Z) : M (option Z) :=
  ws ← gets tmp_small_frames;
  start ← gets start_frame_search;
  n ← gets num_array_frames;
  ret (frame_words (zdrop start (ztake n ws)) start num_frames num_frames).

Definition write_to_frame (frame_address : Z) (on : bool) : M bool :=
  let f := frame_address / 0x1000 in
  let i := f / 32 in
  let bit := Z.shiftl 1 (f mod 32) in
  n ← gets num_array_frames;
  if n <=? i then ret false else
  ws ← gets tmp_small_frames;
  w ← lift (aread ws i);
  count ← gets num_allocated_frames;
  start ← gets start_frame_search;
  if on : bool then
    if is_set w bit then ret false else
    ws ← lift (awrite ws i (Z.lor w bit));
    modify (set_frames ws start (u32 (count + 1))) ;;
    ret true
  else
    ws ← lift (awrite ws i (Z.ldiff w bit));
    modify (set_frames ws (Z.min start i) (u32 (count - 1))) ;;
    ret true.

(** ** Page tables *)

Definition set_tables (t : gmap Z (gmap Z Page)) (st : mmu) : mmu :=
  mkMmu (tmp_small_frames st) (num_array_frames st) (start_frame_search st)
    (num_allocated_frames st) t (dirs st) (kernel_directory st) (active_directory st) (data_end st)
    (has_current_task st) (ready_queue st) (phys_to_virt_map st).
Definition set_dirs (d : gmap Z PageDirectory) (st : mmu) : mmu :=
  mkMmu (tmp_small_frames st) (num_array_frames st) (start_frame_search st)
    (num_allocated_frames st) (page_tables st) d (kernel_directory st) (active_directory st)
    (data_end st) (has_current_task st) (ready_queue st) (phys_to_virt_map st).
Definition set_data_end (e : Z) (st : mmu) : mmu :=
  mkMmu (tmp_small_frames st) (num_array_frames st) (start_frame_search st)
    (num_allocated_frames st) (page_tables st) (dirs st) (kernel_directory st)
    (active_directory st) e (has_current_task st) (ready_queue st) (phys_to_virt_map st).
Definition set_active (d : Z) (st : mmu) : mmu :=
  mkMmu (tmp_small_frames st) (num_array_frames st) (start_frame_search st)
    (num_allocated_frames st) (page_tables st) (dirs st) (kernel_directory st) (Some d)
    (data_end st) (has_current_task st) (ready_queue st) (phys_to_virt_map st).
Definition set_pv (p : list PhysVirtMap) (st : mmu) : mmu :=
  mkMmu (tmp_small_frames st) (num_array_frames st) (start_frame_search st)
    (num_allocated_frames st) (page_tables st) (dirs st) (kernel_directory st)
    (active_directory st) (data_end st) (has_current_task st) (ready_queue st) p.

Abbreviation page_ptr := (Z * Z)%type.

Definition read_page (p : page_ptr) : M Page :=
  t ← gets (fun st => page_tables st !! p.1);
  t ← lift (deref t);
  ret (default zero_page (t !! p.2)).

Definition write_page (p : page_ptr) (pg : Page) : M unit :=
  t ← gets (fun st => page_tables st !! p.1);
  t ← lift (deref t);
  modify (fun st => set_tables (<[p.1 := <[p.2 := pg]> t]> (page_tables st)) st).

Definition get_dir (d : Z) : M PageDirectory :=
  o ← gets (fun st => dirs st !! d); lift (deref o).

Definition put_dir (d : Z) (pd : PageDirectory) : M unit :=
  modify (fun st => set_dirs (<[d := pd]> (dirs st)) st).

(** [directory->tables[i] = table; directory->physical_tables[i] = physical;] *)
Definition set_table (d i table physical : Z) : M unit :=
  pd ← get_dir d;
  put_dir d (mkDir (<[i := table]> (tables pd)) (<[i := physical]> (physical_tables pd))
               (physical_address pd)).

(** [memset(table, 0, sizeof(PageTable))] *)
Definition clear_table (table : Z) : M unit :=
  modify (fun st => set_tables (<[table := ∅]> (page_tables st)) st).

(** The directory an optional pointer stands for. *)
Definition or_active (d : option Z) : M Z :=
  match d with
  | Some d => ret d
  | None => a ← gets active_directory; lift (deref a)
  end.

(** [get_page]; [alloc] is [kmalloc_align(sizeof(PageTable), &physical)]. *)
Definition get_page_with (alloc : M (option (Z * Z))) (ptr : Z) (directory : option Z)
  (create_new_page set_user : bool) : M (option page_ptr) :=
  d ← or_active directory;
  let address := ptr / 0x1000 in
  let table_index := address / 1024 in
  pd ← get_dir d;
  t ← (match tables pd !! table_index with
       | Some t => ret (Some t)
       | None =>
           if negb create_new_page then ret None else
           r ← alloc;
           match r with
           | None => ret None
           | Some (t, physical) =>
               let entry := Z.lor physical (if set_user : bool then 7 else 3) in
               clear_table t ;;
               set_table d table_index t entry ;;
               (if set_user : bool then ret tt
                else k ← gets kernel_directory; set_table k table_index t entry) ;;
               ret (Some t)
           end
       end);
  match t with
  | None => ret None
  | Some t =>
      let p := (t, address mod 1024) in
      pg ← read_page p;
      if negb (present pg) && negb create_new_page then ret None else
      (if create_new_page : bool
       then write_page p (mkPage false (rw pg) set_user (accessed pg) (dirty pg) (frame pg))
       else ret tt) ;;
      ret (Some p)
  end.

(** [get_page(ptr, d, PAGE_NO_ALLOCATE, 0)]: no table is ever allocated. *)
Definition find_page (ptr : Z) (d : option Z) : M (option page_ptr) :=
  get_page_with (ret None) ptr d false false.

Definition allocate_frame (p : page_ptr) (w is_kernel : bool) : M bool :=
  pg ← read_page p;
  m_assert (negb (present pg)) ;;
  f ← get_free_frames 1;
  match f with
  | None => ret false
  | Some f =>
      ok ← write_to_frame (f * 0x1000) true;
      m_assert ok ;;
      write_page p (mkPage true w (negb is_kernel) (accessed pg) (dirty pg) f) ;;
      ret true
  end.

(** The body of [mmu_free_address_range]. *)
Definition free_page_at (d : option Z) (ptr : Z) : M unit :=
  p ← find_page ptr d;
  match p with
  | None => ret tt
  | Some p =>
      pg ← read_page p;
      if negb (present pg) || (frame pg =? 0) then ret tt else
      write_to_frame (frame pg * 0x1000) false ;;
      write_page p (mkPage false false false (accessed pg) (dirty pg) 0)
  end.

Definition mmu_free_address_range (ptr length : Z) (d : option Z) : M unit :=
  for_loop (R := unit) (Z.to_nat (align_page length / PAGE_SIZE)) 0
    (fun i => free_page_at d (u32 (ptr + i * PAGE_SIZE)) ;; ret None) ;;
  ret tt.

Definition virtual_to_physical (address : Z) (d : option Z) : M Z :=
  p ← find_page address d;
  match p with
  | None => ret 0
  | Some p => pg ← read_page p; ret (frame pg * 0x1000 + Z.land address 0xFFF)
  end.

(** ** The kernel break *)

(** [mmu_allocate_shared_kernel_region]: note that it maps one page more than
    [n] bytes need.  [gp] is [get_page(ptr, NULL, PAGE_ALLOCATE, 0)]. *)
Definition shared_region_with (gp : Z -> M (option page_ptr)) (rc n : Z) : M bool :=
  r ← for_loop (S (Z.to_nat (n / PAGE_SIZE))) 0 (fun i =>
        p ← gp (u32 (rc + i * 0x1000));
        match p with
        | None => ret (Some tt)
        | Some p =>
            pg ← read_page p;
            if negb (present pg) || (frame pg =? 0) then
              ok ← allocate_frame p false true;
              if ok : bool then ret None else ret (Some tt)
            else ret None
        end);
  match r with
  | None => ret true
  | Some _ => mmu_free_address_range rc n None ;; ret false
  end.

(** [mmu_allocate_kernel_linear_virtual_to_physical_mapping] *)
Definition linear_mapping_with (gp : Z -> M (option page_ptr)) (rc n : Z) : M bool :=
  let num_pages := align_page n / PAGE_SIZE in
  f ← get_free_frames num_pages;
  r ← match f with
      | None => ret (Some tt)
      | Some start_frame =>
          for_loop (Z.to_nat num_pages) 0 (fun i =>
            p ← gp (u32 (rc + i * 0x1000));
            match p with
            | None => ret (Some tt)
            | Some p =>
                pg ← read_page p;
                m_assert (negb (present pg)) ;;
                write_page p (mkPage true true false (accessed pg) (dirty pg) (start_frame + i)) ;;
                ok ← write_to_frame ((start_frame + i) * 0x1000) true;
                m_assert ok ;;
                ret None
            end)
      end;
  match r with
  | None => ret true
  | Some _ => mmu_free_address_range rc n None ;; ret false
  end.

(** A table index that is in use but not yet backed by a table. *)
Definition PENDING : Z := 0xDEADBEEF.

(** [for (p = ready_queue; p; p = p->next) { pd = p->cr3; ... }] *)
Fixpoint share_table (pds : list Z) (i table physical : Z) : M unit :=
  match pds with
  | [] => ret tt
  | d :: pds => set_table d i table physical ;; share_table pds i table physical
  end.

(** [ksbrk], [ksbrk_physical], [create_kernel_table] and the allocating
    [get_page] call each other. *)
Fixpoint ksbrk_fuel (fuel : nat) (s : Z) (enforce_linear : bool) : M (option Z) :=
  match fuel with
  | O => no_fuel
  | S fuel =>
      let physical_fuel (s : Z) : M (option (Z * Z)) :=
        r ← ksbrk_fuel fuel s true;
        match r with
        | None => ret None
        | Some r => ph ← virtual_to_physical r None; ret (Some (r, ph))
        end in
      let create_kernel_table (i : Z) : M bool :=
        k ← gets kernel_directory;
        a ← or_active None;
        kd ← get_dir k;
        put_dir k (mkDir (<[i := PENDING]> (tables kd)) (physical_tables kd) (physical_address kd)) ;;
        ad ← get_dir a;
        put_dir a (mkDir (<[i := PENDING]> (tables ad)) (physical_tables ad) (physical_address ad)) ;;
        r ← physical_fuel 4096;
        match r with
        | None => ret false
        | Some (t, ph) =>
            clear_table t ;;
            set_table k i t (Z.lor ph 3) ;;
            task ← gets has_current_task;
            (if task : bool then q ← gets ready_queue; share_table q i t (Z.lor ph 3)
             else set_table a i t (Z.lor ph 3)) ;;
            ret true
        end in
      let gp (ptr : Z) := get_page_with (physical_fuel 4096) ptr None true false in
      e ← gets data_end;
      let rc := align_page e in
      act ← gets active_directory;
      match act with
      | None => modify (set_data_end (align_page (u32 (e + s)))) ;; ret (Some rc)
      | Some _ =>
          let table_index := 1 + rc / (1024 * 0x1000) in
          k ← gets kernel_directory;
          kd ← get_dir k;
          ok ← (match tables kd !! table_index with
                | Some _ => ret true
                | None => create_kernel_table table_index
                end);
          if negb ok then ret None else
          e ← gets data_end;
          let rc := align_page e in
          let e' := align_page (u32 (e + s)) in
          modify (set_data_end e') ;;
          ok ← (if enforce_linear then linear_mapping_with gp rc (u32 (e' - rc))
                else shared_region_with gp rc (u32 (e' - rc)));
          if negb ok then ret None else
          m_assert (rc mod PAGE_SIZE =? 0) ;;
          ret (Some rc)
      end
  end.

(** One level for the table of a page table, one for a page table, one for the
    request itself. *)
Definition ksbrk (s : Z) (enforce_linear : bool) : M (option Z) := ksbrk_fuel 4 s enforce_linear.

Definition ksbrk_physical (s : Z) : M (option (Z * Z)) :=
  r ← ksbrk s true;
  match r with
  | None => ret None
  | Some r => ph ← virtual_to_physical r None; ret (Some (r, ph))
  end.

Definition kmalloc_align (s : Z) : M (option (Z * Z)) := ksbrk_physical s.

Definition kmalloc_align_free (p : option Z) (s : Z) : M unit :=
  match p with
  | None => ret tt
  | Some p =>
      for_loop (R := unit) (Z.to_nat ((s + 0xFFF) / 0x1000)) 0 (fun i =>
        o ← find_page (u32 (p + i * 0x1000)) None;
        match o with
        | None => ret None
        | Some q =>
            pg ← read_page q;
            if negb (present pg) || (frame pg =? 0) then ret None else
            write_to_frame (frame pg * 0x1000) false ;;
            write_page q (mkPage false (rw pg) (user pg) (accessed pg) (dirty pg) (frame pg)) ;;
            ret None
        end) ;;
      ret tt
  end.

Definition get_page (ptr : Z) (d : option Z) (create_new_page set_user : bool) : M (option page_ptr) :=
  get_page_with (kmalloc_align 4096) ptr d create_new_page set_user.

(** ** Mappings *)

Definition mmu_free_pages (a n : Z) : M unit :=
  for_loop (R := unit) (Z.to_nat n) 0 (fun i =>
    o ← find_page (u32 (a + i * 0x1000)) None;
    p ← lift (deref o);
    pg ← read_page p;
    write_page p (mkPage false (rw pg) (user pg) (accessed pg) (dirty pg) (frame pg)) ;;
    write_to_frame (frame pg * 0x1000) false ;;
    ret None) ;;
  ret tt.

Definition mmu_remove_virtual_physical_address_mapping (ptr length : Z) : M unit :=
  for_loop (Z.to_nat (align_page length / PAGE_SIZE)) 0 (fun i =>
    o ← find_page (u32 (ptr + i * PAGE_SIZE)) None;
    match o with
    | None => ret (Some tt)
    | Some p =>
        pg ← read_page p;
        write_page p (mkPage false (rw pg) (user pg) (accessed pg) (dirty pg) 0) ;;
        ret None
    end) ;;
  ret tt.

(** The recursive call starts one page further; [fuel] pages are tried. *)
Fixpoint mmu_find_unallocated_virtual_range (fuel : nat) (addr length : Z) : M Z :=
  match fuel with
  | O => no_fuel
  | S fuel =>
      let addr := align_page addr in
      r ← for_loop (Z.to_nat ((length + 0xFFF) / 0x1000)) 0 (fun i =>
            o ← find_page (u32 (addr + i * 0x1000)) None;
            match o with Some _ => ret (Some tt) | None => ret None end);
      match r with
      | Some _ => mmu_find_unallocated_virtual_range fuel (u32 (addr + 0x1000)) length
      | None => ret addr
      end
  end.

Definition mmu_allocate_region (ptr n flags : Z) (pd : option Z) : M bool :=
  d ← or_active pd;
  let w := is_set flags MMU_FLAG_RW in
  let kernel := is_set flags MMU_FLAG_KERNEL in
  r ← for_loop (S (Z.to_nat (n / 0x1000))) 0 (fun i =>
        let a := u32 (ptr + i * 0x1000) in
        o ← find_page a (Some d);
        match o with
        | Some p =>
            pg ← read_page p;
            write_page p (mkPage true w (negb kernel) (accessed pg) (dirty pg) (frame pg)) ;;
            ret None
        | None =>
            o ← get_page a (Some d) true true;
            match o with
            | None => ret (Some tt)
            | Some p => ok ← allocate_frame p w kernel; if ok : bool then ret None else ret (Some tt)
            end
        end);
  match r with
  | None => ret true
  | Some _ => mmu_free_address_range ptr n (Some d) ;; ret false
  end.

(** The mapping of [frame] numbers given by a physical address, as in
    [mmu_map_frames] and [mmu_map_physical]. *)
Definition map_one (a physical : Z) (d : option Z) (set_user is_user : bool) : M bool :=
  o ← get_page a d true set_user;
  match o with
  | None => ret false
  | Some p =>
      pg ← read_page p;
      write_page p (mkPage true true is_user (accessed pg) (dirty pg) (physical / 0x1000)) ;;
      write_to_frame physical true ;;
      ret true
  end.

(** Every page below 4 GiB is tried before the search for a free range gives up. *)
Definition mmu_map_frames (ptr s : Z) : M (option Z) :=
  r ← mmu_find_unallocated_virtual_range (2 ^ 20) 0xEF000000 s;
  e ← for_loop (S (Z.to_nat (s / 0x1000))) 0 (fun i =>
        ok ← map_one (u32 (r + i * 0x1000)) (u32 (ptr + i * 0x1000)) None false false;
        if ok : bool then ret None
        else mmu_free_address_range r (i * 0x1000) None ;; ret (Some tt));
  match e with None => ret (Some r) | Some _ => ret None end.

Definition mmu_map_physical (dst : Z) (d : option Z) (physical length : Z) : M bool :=
  d ← or_active d;
  e ← for_loop (Z.to_nat (align_page length / 0x1000)) 0 (fun i =>
        ok ← map_one (u32 (dst + i * 0x1000)) (u32 (physical + i * 0x1000)) (Some d) true true;
        if ok : bool then ret None
        else mmu_free_address_range dst (i * 0x1000) (Some d) ;; ret (Some tt));
  match e with None => ret true | Some _ => ret false end.

Definition create_table (table_index : Z) : M bool :=
  k ← gets kernel_directory;
  kd ← get_dir k;
  if bool_decide (is_Some (tables kd !! table_index)) then ret false else
  r ← kmalloc_align 4096;
  match r with
  | None => ret false
  | Some (t, ph) => clear_table t ;; set_table k table_index t (Z.lor ph 3) ;; ret true
  end.

Definition switch_page_directory (d : Z) : M unit := get_dir d ;; modify (set_active d).

(** The frames and tables of a directory that are not the kernel's. *)
Definition mmu_free_pagedirectory (d : Z) : M unit :=
  for_loop (R := unit) 1024 0 (fun i =>
    pd ← get_dir d;
    k ← gets kernel_directory;
    kd ← get_dir k;
    match tables pd !! i with
    | None => ret None
    | Some t =>
        if bool_decide (tables kd !! i = Some t) then ret None else
        for_loop (R := unit) 1024 0 (fun j =>
          pg ← read_page (t, j);
          if negb (present pg) || (frame pg =? 0) then ret None else
          write_to_frame (frame pg * 0x1000) false ;; ret None) ;;
        kmalloc_align_free (Some t) 4096 ;;
        pd ← get_dir d;
        put_dir d (mkDir (delete i (tables pd)) (physical_tables pd) (physical_address pd)) ;;
        ret None
    end) ;;
  kmalloc_align_free (Some d) (4096 + 4096 + 4).

(** ** Physical to virtual addresses *)

Fixpoint find_unused_pv (l : list PhysVirtMap) : option nat :=
  match l with
  | [] => None
  | e :: l => if pv_in_use e then S <$> find_unused_pv l else Some O
  end.

Definition create_physical_to_virtual_mapping (physical virt length : Z) : M unit :=
  l ← gets phys_to_virt_map;
  match find_unused_pv l with
  | None => m_assert false
  | Some i => modify (set_pv (<[i := mkPV physical virt length true]> l))
  end.

Fixpoint pv_search (l : list PhysVirtMap) (address : Z) : option Z :=
  match l with
  | [] => None
  | e :: l =>
      if negb (pv_in_use e) then pv_search l address else
      if u32 (pv_physical e + pv_length e) <? address then pv_search l address else
      if address <? pv_physical e then pv_search l address else
      Some (u32 (pv_virtual e + Z.land address 0xFFF))
  end.

Definition physical_to_virtual (address : Z) : M Z :=
  l ← gets phys_to_virt_map;
  match pv_search l address with
  | Some v => ret v
  | None => m_assert false ;; ret 0
  end.

(** ** Checking user pointers *)

Definition mmu_is_valid_userpointer (ptr s : Z) : M bool :=
  r ← for_loop (Z.to_nat (align_page s / 0x1000)) 0 (fun i =>
        o ← find_page (u32 (ptr + i * 0x1000)) None;
        match o with
        | None => ret (Some tt)
        | Some p =>
            pg ← read_page p;
            if negb (present pg) || negb (user pg) then ret (Some tt) else ret None
        end);
  match r with None => ret true | Some _ => ret false end.

(** ** Frames: what the bitmap says *)

Definition frame_used (st : mmu) (f : Z) : bool := bit_at 32 (tmp_small_frames st) f.

Record frames_inv (st : mmu) : Prop := {
  fi_len : zlen (tmp_small_frames st) = num_array_frames st;
  fi_size : num_array_frames st <= 2 ^ 15;
  fi_words : Forall (fits 32) (tmp_small_frames st);
  fi_start : 0 <= start_frame_search st <= num_array_frames st
}.

Lemma frame_bits_one k w c :
  0 <= c ->
  match frame_bits k w c 1 1 with
  | (_, Some d) => c <= d < c + Z.of_nat k /\ Z.testbit w d = false
  | (n, None) => n = 1 /\ forall j, c <= j < c + Z.of_nat k -> Z.testbit w j = true
  end.
Proof.
  revert c. induction k as [|k IH]; intros c Hc; cbn [frame_bits]; [split; [done|lia]|].
  rewrite is_set_shiftl by done. destruct (Z.testbit w c) eqn:E.
  - specialize (IH (c + 1) ltac:(lia)). destruct (frame_bits k w (c + 1) 1 1) as [n [d|]].
    + destruct IH. split; [lia|done].
    + destruct IH as [-> Hj]. split; [done|]. intros j Hr.
      destruct (Z.eq_dec j c) as [->|]; [done|]. apply Hj. lia.
  - change (u32 (1 - 1) =? 0) with true. cbn. split; [lia|done].
Qed.

Lemma frame_words_one ws i :
  0 <= i -> (i + zlen ws) * 32 < 2 ^ 32 ->
  match frame_words ws i 1 1 with
  | Some f => i * 32 <= f < (i + zlen ws) * 32 /\ bit_at 32 ws (f - i * 32) = false
  | None => forall f, 0 <= f < 32 * zlen ws -> bit_at 32 ws f = true
  end.
Proof.
  revert i. induction ws as [|w ws IH]; intros i Hi Hl; cbn [frame_words].
  { intros f Hf. zlia. }
  assert (Hz : zlen (w :: ws) = 1 + zlen ws) by zlia. pose proof (zlen_nonneg ws).
  assert (Hnext : (forall j, 0 <= j < 32 -> Z.testbit w j = true) ->
    match frame_words ws (i + 1) 1 1 with
    | Some f => i * 32 <= f < (i + zlen (w :: ws)) * 32 /\ bit_at 32 (w :: ws) (f - i * 32) = false
    | None => forall f, 0 <= f < 32 * zlen (w :: ws) -> bit_at 32 (w :: ws) f = true
    end).
  { intros Hall. specialize (IH (i + 1) ltac:(lia) ltac:(lia)).
    destruct (frame_words ws (i + 1) 1 1) as [f|].
    - destruct IH as [Hf Hb]. split; [lia|]. rewrite (bit_at_cons 32) by lia.
      destruct (Z.ltb_spec (f - i * 32) 32); [lia|]. rewrite <- Hb. f_equal. lia.
    - intros f Hf. rewrite (bit_at_cons 32) by lia. destruct (Z.ltb_spec f 32); [apply Hall; lia|].
      apply IH. lia. }
  destruct (Z.eqb_spec w 0xFFFFFFFF) as [E|_].
  { apply Hnext. intros. rewrite E. by apply (ones_bits 32). }
  pose proof (frame_bits_one 32 w 0 ltac:(lia)) as Hb.
  destruct (frame_bits 32 w 0 1 1) as [n [c|]].
  - destruct Hb as [Hc Hw]. rewrite u32_small by lia. split; [lia|]. rewrite (bit_at_cons 32) by lia.
    destruct (Z.ltb_spec (i * 32 + c - (1 - 1) - i * 32) 32); [|lia]. rewrite <- Hw. f_equal. lia.
  - destruct Hb as [-> Hall]. apply Hnext. intros j Hj. apply Hall. lia.
Qed.

(** The search for a single frame. *)
Lemma get_free_frame_spec st :
  frames_inv st ->
  exists r, get_free_frames 1 st = Ok (r, st) /\
    match r with
    | Some f => start_frame_search st * 32 <= f < num_array_frames st * 32 /\ frame_used st f = false
    | None => forall f, start_frame_search st * 32 <= f < num_array_frames st * 32 ->
                frame_used st f = true
    end.
Proof.
  intros [Hl Hn Hw Hs]. unfold get_free_frames. cbn. eexists. split; [done|].
  rewrite ztake_all by done. set (s := start_frame_search st) in *.
  assert (Hd : zlen (zdrop s (tmp_small_frames st)) = num_array_frames st - s).
  { rewrite zlen_zdrop; lia. }
  pose proof (frame_words_one (zdrop s (tmp_small_frames st)) s ltac:(lia) ltac:(lia)) as Hf.
  destruct (frame_words _ s 1 1) as [f|].
  - destruct Hf as [Hr Hb]. split; [lia|]. rewrite (bit_at_drop 32) in Hb by lia.
    unfold frame_used. rewrite <- Hb. f_equal. lia.
  - intros f Hr. specialize (Hf (f - s * 32) ltac:(lia)). rewrite (bit_at_drop 32) in Hf by lia.
    unfold frame_used. rewrite <- Hf. f_equal. lia.
Qed.

(** Marking or releasing one frame. *)
Lemma write_to_frame_spec st f on :
  frames_inv st -> 0 <= f < num_array_frames st * 32 ->
  exists r st', write_to_frame (f * 0x1000) on st = Ok (r, st') /\ frames_inv st' /\
    r = (if on then negb (frame_used st f) else true) /\
    (forall g, 0 <= g -> frame_used st' g = if g =? f then on else frame_used st g) /\
    page_tables st' = page_tables st /\ dirs st' = dirs st /\
    active_directory st' = active_directory st.
Proof.
  intros [Hl Hn Hw Hs] Hf. unfold write_to_frame. rewrite Z.div_mul by lia.
  destruct (bit_word 32 ltac:(lia) (tmp_small_frames st) f Hw) as (w & Ew & Hfit & Hi & Hm & Hb);
    [lia|]. msimpl.
  destruct (Z.leb_spec (num_array_frames st) (f / 32)); [lia|]. msimpl.
  rewrite (aread_ok _ _ _ Ew). msimpl.
  rewrite is_set_shiftl, <- Hb by lia. fold (frame_used st f).
  destruct on.
  - destruct (frame_used st f) eqn:Eu.
    + exists false, st. split_and!; [done|by split|done| |done..]. intros g Hg.
      destruct (Z.eqb_spec g f) as [->|]; [|done]. done.
    + rewrite awrite_ok by done. msimpl.
      eexists true, _. split_and!; try done; cbn [tmp_small_frames set_frames].
      * split; cbn [tmp_small_frames num_array_frames start_frame_search set_frames]; try done.
        { by rewrite zlen_insert. }
        apply Forall_insert; [done|]. rewrite shiftl_1 by lia. by apply fits_set_bit.
      * intros g Hg. apply bit_at_update with (w := w); try done; try lia.
        intros n Hn'. apply set_bit_view. lia.
  - rewrite awrite_ok by done. msimpl.
    eexists true, _. split_and!; try done; cbn [tmp_small_frames set_frames].
    + split; cbn [tmp_small_frames num_array_frames start_frame_search set_frames]; try done; [| |lia].
      { by rewrite zlen_insert. }
      apply Forall_insert; [done|]. rewrite shiftl_1 by lia. by apply fits_clear_bit.
    + intros g Hg. apply bit_at_update with (w := w); try done; try lia.
      intros n Hn'. apply clear_bit_view. lia.
Qed.

(** ** Pages and the frames they own *)

Definition page_at (st : mmu) (p : page_ptr) : option Page :=
  (fun t => default zero_page (t !! p.2)) <$> page_tables st !! p.1.

(** No frame is mapped twice, and a mapped frame is marked in the bitmap. *)
Record owned (st : mmu) : Prop := {
  ow_frames : frames_inv st;
  ow_marked : forall p pg, page_at st p = Some pg -> present pg = true ->
    0 <= frame pg < num_array_frames st * 32 /\ frame_used st (frame pg) = true;
  ow_unique : forall p q pg qg, page_at st p = Some pg -> page_at st q = Some qg ->
    present pg = true -> present qg = true -> frame pg = frame qg -> p = q
}.

Lemma read_page_at st p pg : page_at st p = Some pg -> read_page p st = Ok (pg, st).
Proof.
  unfold page_at, read_page. destruct (page_tables st !! p.1) as [t|] eqn:E; [|done].
  intros [= <-]. msimpl. by rewrite E.
Qed.

Lemma write_page_at st p pg pg' :
  page_at st p = Some pg ->
  exists st', write_page p pg' st = Ok (tt, st') /\
    (forall q, page_at st' q = if decide (q = p) then Some pg' else page_at st q) /\
    tmp_small_frames st' = tmp_small_frames st /\ num_array_frames st' = num_array_frames st /\
    start_frame_search st' = start_frame_search st /\ dirs st' = dirs st /\
    active_directory st' = active_directory st.
Proof.
  intros Hp. unfold write_page. msimpl. unfold page_at in Hp.
  destruct (page_tables st !! p.1) as [t|] eqn:Et; [|done]. cbn [deref]. msimpl.
  eexists. split; [done|]. split_and!; try done. intros [qt qi]. unfold page_at. cbn [page_tables set_tables].
  destruct p as [pt pi]. cbn [fst snd] in *. destruct (decide (qt = pt)) as [->|Hne].
  - rewrite lookup_insert_eq. cbn [fmap option_fmap option_map]. destruct (decide (qi = pi)) as [->|Hni].
    + rewrite lookup_insert_eq, decide_True by done. done.
    + rewrite lookup_insert_ne by congruence. rewrite decide_False by congruence.
      by rewrite Et.
  - rewrite lookup_insert_ne by congruence. by rewrite decide_False by congruence.
Qed.

Lemma page_at_ext st st' p : page_tables st' = page_tables st -> page_at st' p = page_at st p.
Proof. intros E. unfold page_at. by rewrite E. Qed.

Lemma frames_inv_ext st st' :
  tmp_small_frames st' = tmp_small_frames st -> num_array_frames st' = num_array_frames st ->
  start_frame_search st' = start_frame_search st -> frames_inv st -> frames_inv st'.
Proof. intros E1 E2 E3 [? ? ? ?]. split; congruence. Qed.

Lemma write_to_frame_count st f on r st' :
  write_to_frame (f * 0x1000) on st = Ok (r, st') -> num_array_frames st' = num_array_frames st.
Proof.
  unfold write_to_frame. msimpl. case_goal; [by intros [= _ <-]|]. msimpl.
  destruct (aread _ _) as [w| | |]; try done. msimpl. destruct on.
  - case_goal; [by intros [= _ <-]|]. destruct (awrite _ _ _) as [ws| | |]; try done. by intros [= _ <-].
  - destruct (awrite _ _ _) as [ws| | |]; try done. by intros [= _ <-].
Qed.

(** [allocate_frame] gives a page a frame nobody owns.  From a state where
    every mapped frame is marked used and belongs to one page, it either maps
    the page to a frame that was free, marks exactly this frame, changes no
    other page and keeps that property, or, when no frame is free, changes
    nothing. *)
Theorem allocate_frame_exclusive st p pg w k :
  owned st -> page_at st p = Some pg -> present pg = false ->
  exists ok st', allocate_frame p w k st = Ok (ok, st') /\ owned st' /\
    if ok : bool then exists f, frame_used st f = false /\
      page_at st' p = Some (mkPage true w (negb k) (accessed pg) (dirty pg) f) /\
      (forall q, q <> p -> page_at st' q = page_at st q) /\
      (forall g, 0 <= g -> frame_used st' g = if g =? f then true else frame_used st g)
    else st' = st /\ forall f, start_frame_search st * 32 <= f < num_array_frames st * 32 ->
           frame_used st f = true.
Proof.
  intros Hown Hp Hpres. pose proof Hown as [Hfi Hmark Huniq]. unfold allocate_frame.
  rewrite (ok_bind _ _ _ _ _ (read_page_at _ _ _ Hp)). rewrite Hpres. unfold m_assert.
  cbn [negb c_assert]. msimpl.
  destruct (get_free_frame_spec _ Hfi) as (r & Hg & Hr). rewrite (ok_bind _ _ _ _ _ Hg).
  destruct r as [f|]; [|by exists false, st].
  destruct Hr as [Hrange Hfree]. pose proof (fi_start _ Hfi).
  destruct (write_to_frame_spec st f true Hfi) as (ok & st1 & Hw & Hfi1 & Hok & Hu1 & Hpt & Hd1 & Ha1);
    [lia|].
  rewrite (ok_bind _ _ _ _ _ Hw). rewrite Hfree in Hok. cbn in Hok. subst ok. cbn [c_assert]. msimpl.
  pose proof (write_to_frame_count _ _ _ _ _ Hw) as Hn1.
  assert (Hp1 : page_at st1 p = Some pg) by (by rewrite (page_at_ext _ _ _ Hpt)).
  set (pg' := mkPage true w (negb k) (accessed pg) (dirty pg) f).
  destruct (write_page_at _ _ _ pg' Hp1) as (st2 & Hw2 & Hq & Ht2 & Hn2 & Hs2 & _).
  rewrite (ok_bind _ _ _ _ _ Hw2). exists true, st2.
  assert (Hu2 : forall g, 0 <= g -> frame_used st2 g = if g =? f then true else frame_used st g).
  { intros g Hg'. unfold frame_used at 1. rewrite Ht2. by apply Hu1. }
  assert (Hq' : forall q, page_at st2 q = if decide (q = p) then Some pg' else page_at st q).
  { intros q. rewrite Hq. by rewrite (page_at_ext _ _ _ Hpt). }
  split_and!; [done| |].
  - split; [by eapply frames_inv_ext|..].
    + intros q qg Hqa Hqp. rewrite Hq' in Hqa. destruct (decide (q = p)).
      * injection Hqa as <-. cbn [frame pg']. rewrite Hu2, Z.eqb_refl, Hn2, Hn1 by lia. split; [lia|done].
      * destruct (Hmark _ _ Hqa Hqp) as [? Hm]. rewrite Hu2, Hn2, Hn1 by lia. split; [lia|].
        by destruct (frame qg =? f).
    + intros q1 q2 g1 g2 H1 H2 P1 P2 Ef. rewrite Hq' in H1, H2.
      destruct (decide (q1 = p)) as [->|], (decide (q2 = p)) as [->|]; try done.
      * injection H1 as <-. cbn in Ef. destruct (Hmark _ _ H2 P2) as [_ Hm]. congruence.
      * injection H2 as <-. cbn in Ef. destruct (Hmark _ _ H1 P1) as [_ Hm]. congruence.
      * by eapply Huniq.
  - exists f. split_and!; [done| | |done].
    + rewrite Hq'. by destruct (decide (p = p)).
    + intros q Hne. rewrite Hq'. by destruct (decide (q = p)).
Qed.

(** ** Walking a directory *)

(** The page table entry of an address in directory [d]. *)
Definition translate (st : mmu) (d ptr : Z) : option page_ptr :=
  pd ← dirs st !! d;
  t ← tables pd !! (ptr / 0x1000 / 1024);
  Some (t, (ptr / 0x1000) mod 1024).

(** The present page at an address. *)
Definition mapped_page (st : mmu) (d ptr : Z) : option (page_ptr * Page) :=
  p ← translate st d ptr;
  pg ← page_at st p;
  if present pg then Some (p, pg) else None.

(** Every table of the directory exists. *)
Definition dir_ok (st : mmu) (d : Z) : Prop :=
  exists pd, dirs st !! d = Some pd /\
    forall i t, tables pd !! i = Some t -> is_Some (page_tables st !! t).

Lemma get_dir_ok st d pd : dirs st !! d = Some pd -> get_dir d st = Ok (pd, st).
Proof. intros Hd. unfold get_dir. msimpl. by rewrite Hd. Qed.

Lemma find_page_spec st d ptr :
  dir_ok st d -> find_page ptr (Some d) st = Ok (fst <$> mapped_page st d ptr, st).
Proof.
  intros (pd & Hd & Ht). unfold find_page, get_page_with, or_active. msimpl.
  rewrite (ok_bind _ _ _ _ _ (get_dir_ok _ _ _ Hd)). unfold mapped_page, translate. rewrite Hd. cbn [mbind option_bind].
  destruct (tables pd !! (ptr / 0x1000 / 1024)) as [t|] eqn:Et; cbn [negb mbind option_bind]; [|done].
  destruct (Ht _ _ Et) as [tb Htb]. msimpl.
  assert (Hp : page_at st (t, (ptr / 0x1000) mod 1024) =
    Some (default zero_page (tb !! ((ptr / 0x1000) mod 1024)))) by (unfold page_at; cbn [fst snd]; by rewrite Htb).
  rewrite (ok_bind _ _ _ _ _ (read_page_at _ _ _ Hp)), Hp. cbn [mbind option_bind].
  rewrite andb_true_r. by destruct (present _).
Qed.

Lemma find_page_active st d ptr :
  active_directory st = Some d -> find_page ptr None st = find_page ptr (Some d) st.
Proof. intros Ha. unfold find_page, get_page_with.
  rewrite (ok_bind (or_active None) _ st d st); [done|]. unfold or_active. msimpl. by rewrite Ha.
Qed.

Lemma mapped_page_at st d ptr p pg :
  mapped_page st d ptr = Some (p, pg) ->
  translate st d ptr = Some p /\ page_at st p = Some pg /\ present pg = true.
Proof.
  unfold mapped_page. destruct (translate st d ptr) as [q|]; cbn; [|done].
  destruct (page_at st q) as [qg|] eqn:Eq; cbn; [|done]. destruct (present qg) eqn:Ep; [|done].
  by intros [= <- <-].
Qed.

(** *** Releasing a range *)

(** [st'] is [st] without the pages at [ptrs] that own a frame: they are not mapped any
    more, their frames are free, and no other page or frame changes. *)
Record released (d : Z) (st st' : mmu) (ptrs : list Z) : Prop := {
  re_owned : owned st';
  re_dir : dir_ok st' d;
  re_trans : forall a, translate st' d a = translate st d a;
  re_others : forall q, (forall a, a ∈ ptrs -> translate st d a <> Some q) ->
    page_at st' q = page_at st q;
  re_gone : forall a p pg, a ∈ ptrs -> mapped_page st' d a = Some (p, pg) -> frame pg = 0;
  re_frames : forall g, 0 <= g -> frame_used st' g = true -> frame_used st g = true;
  re_freed : forall a p pg, a ∈ ptrs -> mapped_page st d a = Some (p, pg) -> frame pg <> 0 ->
    frame_used st' (frame pg) = false;
  re_kept : forall g, 0 <= g ->
    (forall a p pg, a ∈ ptrs -> mapped_page st d a = Some (p, pg) -> frame pg = g -> g = 0) ->
    frame_used st' g = frame_used st g
}.

Lemma owned_release st p pg st1 st2 :
  owned st -> page_at st p = Some pg -> present pg = true ->
  write_to_frame (frame pg * 0x1000) false st = Ok (true, st1) ->
  write_page p (mkPage false false false (accessed pg) (dirty pg) 0) st1 = Ok (tt, st2) ->
  owned st2 /\ (forall q, page_at st2 q = if decide (q = p)
      then Some (mkPage false false false (accessed pg) (dirty pg) 0) else page_at st q) /\
  dirs st2 = dirs st /\ (forall g, 0 <= g -> frame_used st2 g = if g =? frame pg then false else frame_used st g) /\
  (forall t, is_Some (page_tables st !! t) -> is_Some (page_tables st2 !! t)).
Proof.
  intros Hown Hp Hpr Hw Hwp. pose proof Hown as [Hfi Hmark Huniq].
  destruct (Hmark _ _ Hp Hpr) as [Hr _].
  destruct (write_to_frame_spec st (frame pg) false Hfi Hr) as (ok & st1' & Hw' & Hfi1 & _ & Hu1 & Hpt & Hd1 & _).
  rewrite Hw in Hw'. injection Hw' as _ <-.
  pose proof (write_to_frame_count _ _ _ _ _ Hw) as Hn1.
  assert (Hp1 : page_at st1 p = Some pg) by (by rewrite (page_at_ext _ _ _ Hpt)).
  set (pg' := mkPage false false false (accessed pg) (dirty pg) 0) in *.
  destruct (write_page_at _ _ _ pg' Hp1) as (st2' & Hw2 & Hq & Ht2 & Hn2 & Hs2 & Hd2 & _).
  rewrite Hwp in Hw2. injection Hw2 as <-.
  assert (Hq' : forall q, page_at st2 q = if decide (q = p) then Some pg' else page_at st q).
  { intros q. rewrite Hq. by rewrite (page_at_ext _ _ _ Hpt). }
  assert (Hu2 : forall g, 0 <= g -> frame_used st2 g = if g =? frame pg then false else frame_used st g).
  { intros g Hg. unfold frame_used at 1. rewrite Ht2. by apply Hu1. }
  split_and!; [split|done|congruence|done|].
  - by eapply frames_inv_ext.
  - intros q qg Hqa Hqp. rewrite Hq' in Hqa. destruct (decide (q = p)) as [|Hne]; [by injection Hqa as <-|].
    destruct (Hmark _ _ Hqa Hqp) as [? Hm]. rewrite Hu2, Hn2, Hn1 by lia. split; [lia|].
    destruct (Z.eqb_spec (frame qg) (frame pg)) as [Ef|]; [|done]. by destruct (Hne (Huniq _ _ _ _ Hqa Hp Hqp Hpr Ef)).
  - intros q1 q2 g1 g2 H1 H2 P1 P2 Ef. rewrite Hq' in H1, H2.
    destruct (decide (q1 = p)) as [->|], (decide (q2 = p)) as [->|]; try done;
      [by injection H1 as <-|by injection H2 as <-|by eapply Huniq].
  - intros t [tb Htb]. specialize (Hq' (t, 0)). unfold page_at in Hq'. cbn [fst snd] in Hq'.
    rewrite Htb in Hq'. destruct (page_tables st2 !! t); [done|]. by destruct (decide _).
Qed.

Lemma translate_ext st st' d a : dirs st' = dirs st -> translate st' d a = translate st d a.
Proof. intros E. unfold translate. by rewrite E. Qed.

Lemma free_page_at_spec d st a :
  owned st -> dir_ok st d -> exists st', free_page_at (Some d) a st = Ok (tt, st') /\
    released d st st' [a].
Proof.
  intros Hown Hdir. unfold free_page_at.
  rewrite (ok_bind _ _ _ _ _ (find_page_spec _ _ a Hdir)).
  destruct (mapped_page st d a) as [[p pg]|] eqn:Em; cbn [fmap option_fmap option_map fst].
  2: { exists st. split; [done|]. split; try done.
       all: intros a' p pg ->%list_elem_of_singleton Hm; congruence. }
  destruct (mapped_page_at _ _ _ _ _ Em) as (Htr & Hp & Hpr).
  rewrite (ok_bind _ _ _ _ _ (read_page_at _ _ _ Hp)). rewrite Hpr. cbn [negb orb].
  destruct (Z.eqb_spec (frame pg) 0) as [E0|Hne].
  { exists st. split; [done|]. split; try done.
    all: intros a' p' pg' ->%list_elem_of_singleton Hm; congruence. }
  destruct (ow_marked _ Hown _ _ Hp Hpr) as [Hr _].
  destruct (write_to_frame_spec st (frame pg) false (ow_frames _ Hown) Hr)
    as (ok & st1 & Hw & _ & -> & _ & Hpt & _).
  rewrite (ok_bind _ _ _ _ _ Hw).
  assert (Hp1 : page_at st1 p = Some pg) by (by rewrite (page_at_ext _ _ _ Hpt)).
  destruct (write_page_at _ _ _ (mkPage false false false (accessed pg) (dirty pg) 0) Hp1)
    as (st2 & Hw2 & _). rewrite Hw2. exists st2. split; [done|].
  destruct (owned_release _ _ _ _ _ Hown Hp Hpr Hw Hw2) as (Hown2 & Hq & Hd & Hf & Hk).
  split; try done.
  - destruct Hdir as (pd & Hpd & Ht). exists pd. rewrite Hd. split; [done|]. eauto.
  - intros a'. by apply translate_ext.
  - intros q Hq'. rewrite Hq. destruct (decide (q = p)) as [->|]; [|done].
    destruct (Hq' a); [by apply list_elem_of_singleton|done].
  - intros a' p' pg' ->%list_elem_of_singleton Hm.
    destruct (mapped_page_at _ _ _ _ _ Hm) as (Htr' & Hp' & Hpr').
    rewrite (translate_ext _ _ _ _ Hd), Htr in Htr'. injection Htr' as <-.
    rewrite Hq, decide_True in Hp' by done. by injection Hp' as <-.
  - intros g Hg. rewrite Hf by done. by destruct (g =? frame pg).
  - intros a' p' pg' ->%list_elem_of_singleton Hm _. rewrite Em in Hm. injection Hm as <- <-.
    by rewrite Hf, Z.eqb_refl by lia.
  - intros g Hg Hno. rewrite Hf by done. destruct (Z.eqb_spec g (frame pg)) as [->|]; [|done].
    destruct Hne. apply (Hno a p pg); [by apply list_elem_of_singleton|done|done].
Qed.

Lemma mapped_ext st st' d a :
  translate st' d a = translate st d a ->
  (forall p, translate st d a = Some p -> page_at st' p = page_at st p) ->
  mapped_page st' d a = mapped_page st d a.
Proof.
  intros Ht Hp. unfold mapped_page. rewrite Ht.
  destruct (translate st d a) as [p|]; cbn; [|done]. by rewrite (Hp p).
Qed.

(** A page of [st2] is the page [st1] has there, or one of those that were cleared. *)
Lemma released_page d st1 st2 ptrs a p pg :
  released d st1 st2 ptrs -> mapped_page st2 d a = Some (p, pg) ->
  mapped_page st1 d a = Some (p, pg) \/ frame pg = 0.
Proof.
  intros R Hm. destruct (mapped_page_at _ _ _ _ _ Hm) as (Htr & Hp & Hpr). rewrite (re_trans _ _ _ _ R) in Htr.
  destruct (decide (Exists (fun b => translate st1 d b = Some p) ptrs)) as [(b & Hb & Htb)%Exists_exists|Hno].
  - right. apply (re_gone _ _ _ _ R b p pg Hb). unfold mapped_page. rewrite (re_trans _ _ _ _ R), Htb. cbn. by rewrite Hp; cbn; rewrite Hpr.
  - left. rewrite <- Hm. symmetry. apply mapped_ext; [apply (re_trans _ _ _ _ R)|]. intros q Hq. rewrite Htr in Hq.
    injection Hq as <-. apply (re_others _ _ _ _ R). intros b Hb Htb. apply Hno, Exists_exists. eauto.
Qed.

Lemma released_trans d st1 st2 st3 as1 as2 :
  released d st1 st2 as1 -> released d st2 st3 as2 -> released d st1 st3 (as1 ++ as2).
Proof.
  intros R1 R2. pose proof R1 as [O1 D1 T1 E1 G1 F1 X1 K1]. pose proof R2 as [O2 D2 T2 E2 G2 F2 X2 K2]. split; try done.
  - intros a. by rewrite T2, T1.
  - intros q Hq. rewrite E2, E1; [done| |].
    + intros a Ha. apply Hq. set_solver.
    + intros a Ha. rewrite T1. apply Hq. set_solver.
  - intros a p pg Ha Hm. apply elem_of_app in Ha as [Ha|Ha]; [|by eapply G2].
    destruct (decide (Exists (fun b => translate st2 d b = Some p) as2))
      as [(b & Hb & Htb)%Exists_exists|Hno].
    + destruct (mapped_page_at _ _ _ _ _ Hm) as (Htr & Hp & Hpr).
      apply (G2 b p pg Hb). unfold mapped_page. rewrite T2, Htb. cbn. by rewrite Hp; cbn; rewrite Hpr.
    + apply (G1 a p pg Ha). rewrite <- Hm. symmetry. apply mapped_ext; [by rewrite T2|].
      intros p' Hp'. destruct (mapped_page_at _ _ _ _ _ Hm) as (Htr & _). rewrite T2, Hp' in Htr.
      injection Htr as ->. apply E2. intros b Hb Htb. apply Hno, Exists_exists. eauto.
  - eauto.
  - intros a p pg Ha Hm Hne.
    assert (Hstays : frame_used st2 (frame pg) = false -> frame_used st3 (frame pg) = false).
    { intros Hu. destruct (frame_used st3 (frame pg)) eqn:E; [|done]. rewrite F2 in Hu; [done| |done].
      unfold frame_used, bit_at in E. destruct (Z.leb_spec 0 (frame pg)); [done|]. rewrite znth_None in E; [done|left].
      apply Z.div_lt_upper_bound; lia. }
    destruct (mapped_page_at _ _ _ _ _ Hm) as (Htr & Hp & Hpr).
    apply elem_of_app in Ha as [Ha|Ha]; [by apply Hstays, (X1 a p)|].
    destruct (decide (Exists (fun b => translate st1 d b = Some p) as1)) as [(b & Hb & Htb)%Exists_exists|Hno].
    + apply Hstays, (X1 b p pg Hb); [|done]. unfold mapped_page. rewrite Htb. cbn. by rewrite Hp; cbn; rewrite Hpr.
    + apply (X2 a p pg Ha); [|done]. rewrite <- Hm. apply mapped_ext; [apply T1|]. intros q Hq. rewrite Htr in Hq.
      injection Hq as <-. apply E1. intros b Hb Htb. apply Hno, Exists_exists. eauto.
  - intros g Hg Hno. rewrite K2, K1; [done|done| |done|].
    + intros a p pg Ha. apply (Hno a). set_solver.
    + intros a p pg Ha Hm Hf. destruct (released_page _ _ _ _ _ _ _ R1 Hm) as [Hm1|]; [|congruence].
      apply (Hno a p pg); [set_solver|done|done].
Qed.

Lemma free_loop_spec d base n i st :
  owned st -> dir_ok st d ->
  exists st', for_loop (R := unit) n i
      (fun i => free_page_at (Some d) (u32 (base + i * PAGE_SIZE)) ;; ret None) st = Ok (None, st') /\
    released d st st' ((fun k => u32 (base + (i + Z.of_nat k) * PAGE_SIZE)) <$> seq 0 n).
Proof.
  revert i st. induction n as [|n IH]; intros i st Hown Hdir.
  { exists st. split; [done|]. split; try done. all: intros a p pg Ha; by inversion Ha. }
  cbn [for_loop]. destruct (free_page_at_spec d st (u32 (base + i * PAGE_SIZE)) Hown Hdir) as (st1 & E1 & R1).
  assert (Es : (free_page_at (Some d) (u32 (base + i * PAGE_SIZE)) ;; ret (@None unit)) st = Ok (None, st1)).
  { by rewrite (ok_bind _ _ _ _ _ E1). }
  rewrite (ok_bind _ _ _ _ _ Es).
  destruct (IH (i + 1) st1) as (st2 & E2 & R2); [apply R1..|]. exists st2. split; [done|].
  cbn [seq fmap list_fmap]. rewrite Z.add_0_r, <- fmap_S_seq, <- list_fmap_compose.
  replace (list_fmap _ _ _ (seq 0 n)) with
    ((fun k => u32 (base + (i + 1 + Z.of_nat k) * PAGE_SIZE)) <$> seq 0 n).
  - apply (released_trans _ _ _ _ [_] _ R1 R2).
  - apply list_fmap_ext. intros _ k _. cbn. do 2 f_equal. lia.
Qed.

(** C15: [mmu_free_address_range] releases what it unmaps: every page of the
    range that owns a frame is unmapped and its frame is free afterwards, no page
    outside the range and no other frame changes, and it stays true that every
    mapped frame is marked and mapped once. *)
Theorem mmu_free_address_range_releases d st ptr length :
  owned st -> dir_ok st d ->
  exists st', mmu_free_address_range ptr length (Some d) st = Ok (tt, st') /\
    released d st st'
      ((fun k => u32 (ptr + Z.of_nat k * PAGE_SIZE)) <$> seq 0 (Z.to_nat (align_page length / PAGE_SIZE))).
Proof.
  intros Hown Hdir. unfold mmu_free_address_range.
  destruct (free_loop_spec d ptr (Z.to_nat (align_page length / PAGE_SIZE)) 0 st Hown Hdir)
    as (st' & E & R).
  rewrite (ok_bind _ _ _ _ _ E). exists st'. split; [done|].
  replace (_ <$> seq 0 _) with ((fun k => u32 (ptr + (0 + Z.of_nat k) * PAGE_SIZE)) <$>
    seq 0 (Z.to_nat (align_page length / PAGE_SIZE))); [done|].
  by apply list_fmap_ext.
Qed.

(** ** User pointers *)

(** The byte at [a] is mapped and accessible to user code. *)
Definition user_byte (st : mmu) (d a : Z) : bool :=
  match mapped_page st d a with Some (_, pg) => user pg | None => false end.

Lemma user_loop_spec d base n i st :
  active_directory st = Some d -> dir_ok st d ->
  for_loop n i (fun i =>
      o ← find_page (u32 (base + i * 0x1000)) None;
      match o with
      | None => ret (Some tt)
      | Some p =>
          pg ← read_page p;
          if negb (present pg) || negb (user pg) then ret (Some tt) else ret None
      end) st =
  Ok (if forallb (fun k => user_byte st d (u32 (base + (i + Z.of_nat k) * 0x1000))) (seq 0 n)
      then None else Some tt, st).
Proof.
  intros Ha Hdir. revert i. induction n as [|n IH]; intros i; [done|]. cbn [for_loop seq forallb].
  rewrite Z.add_0_r. unfold user_byte at 1.
  set (body := fun i : Z => _) in *.
  assert (Hb : body i st = Ok (match mapped_page st d (u32 (base + i * 0x1000)) with
      | Some (_, pg) => if user pg then None else Some tt | None => Some tt end, st)).
  { unfold body. rewrite (ok_bind _ _ _ (fst <$> mapped_page st d (u32 (base + i * 0x1000))) st);
      [|rewrite (find_page_active _ _ _ Ha); by apply find_page_spec].
    destruct (mapped_page st d _) as [[p pg]|] eqn:Em; cbn [fmap option_fmap option_map fst]; [|done].
    destruct (mapped_page_at _ _ _ _ _ Em) as (_ & Hp & Hpr).
    rewrite (ok_bind _ _ _ _ _ (read_page_at _ _ _ Hp)), Hpr. cbn [negb orb]. by destruct (user pg). }
  rewrite (ok_bind _ _ _ _ _ Hb).
  destruct (mapped_page st d (u32 (base + i * 0x1000))) as [[p pg]|]; [|done].
  destruct (user pg); [|done]. rewrite (IH (i + 1)). cbn [andb].
  rewrite <- fmap_S_seq. do 3 f_equal.
  assert (He : forall l, forallb (fun k => user_byte st d (u32 (base + (i + 1 + Z.of_nat k) * 0x1000))) l =
    forallb (fun k => user_byte st d (u32 (base + (i + Z.of_nat k) * 0x1000))) (S <$> l)).
  { induction l as [|x l IHl]; [done|]. cbn [forallb fmap list_fmap]. rewrite IHl. do 2 f_equal.
    f_equal. lia. }
  by rewrite He.
Qed.

Lemma align_page_mod x : 0 <= x -> Z.land x (PAGE_SIZE - 1) = x mod 4096.
Proof. intros. change (PAGE_SIZE - 1) with (Z.ones 12). by rewrite Z.land_ones by lia. Qed.

Lemma align_page_spec x :
  0 <= x <= 0xFFFFF000 -> align_page x = (x + 4095) / 4096 * 4096.
Proof.
  intros Hx. unfold align_page. rewrite align_page_mod by lia. change PAGE_SIZE with 4096.
  pose proof (Z.div_mod x 4096 ltac:(lia)) as Hd. pose proof (Z.mod_pos_bound x 4096 ltac:(lia)).
  assert (x / 4096 <= 0xFFFFF) by (apply Z.div_le_upper_bound; lia).
  destruct (Z.ltb_spec 0 (x mod 4096)).
  - rewrite u32_small.
    + replace (x + 4095) with ((x mod 4096 - 1) + (x / 4096 + 1) * 4096) by lia.
      rewrite Z.div_add, Z.div_small by lia. lia.
    + assert (x / 4096 < 0xFFFFF); [|lia]. apply Z.div_lt_upper_bound; lia.
  - replace (x + 4095) with (4095 + (x / 4096) * 4096) by lia.
    rewrite Z.div_add, Z.div_small by lia. lia.
Qed.

Lemma user_byte_page st d a b : a / 0x1000 = b / 0x1000 -> user_byte st d a = user_byte st d b.
Proof. intros E. unfold user_byte, mapped_page, translate. by rewrite E. Qed.

Lemma valid_userpointer_pages st d ptr s :
  active_directory st = Some d -> dir_ok st d ->
  mmu_is_valid_userpointer ptr s st =
    Ok (forallb (fun k => user_byte st d (u32 (ptr + Z.of_nat k * 0x1000)))
          (seq 0 (Z.to_nat (align_page s / 0x1000))), st).
Proof.
  intros Ha Hdir. unfold mmu_is_valid_userpointer.
  rewrite (ok_bind _ _ _ _ _ (user_loop_spec d ptr _ 0 st Ha Hdir)).
  by destruct (forallb _ _).
Qed.

(** For a page aligned pointer and a length that does not wrap around,
    [mmu_is_valid_userpointer] accepts exactly the ranges all of whose bytes are
    mapped and accessible to user code. *)
Theorem valid_userpointer_aligned st d ptr s :
  active_directory st = Some d -> dir_ok st d ->
  0 <= ptr -> ptr mod 0x1000 = 0 -> 0 <= s <= 0xFFFFF000 -> ptr + s <= 2 ^ 32 ->
  exists b, mmu_is_valid_userpointer ptr s st = Ok (b, st) /\
    (b = true <-> forall a, ptr <= a < ptr + s -> user_byte st d a = true).
Proof.
  intros Ha Hdir Hp Hal Hs Hend. rewrite (valid_userpointer_pages _ _ _ _ Ha Hdir).
  rewrite align_page_spec by done. change 0x1000 with 4096 in *. rewrite Z.div_mul by lia.
  eexists. split; [done|]. rewrite forallb_forall.
  pose proof (Z.div_mod ptr 4096 ltac:(lia)) as Hpd.
  assert (Hn : forall k, In k (seq 0 (Z.to_nat ((s + 4095) / 4096))) <-> Z.of_nat k * 4096 < s).
  { intros k. rewrite in_seq. pose proof (Z.div_mod (s + 4095) 4096 ltac:(lia)).
    pose proof (Z.mod_pos_bound (s + 4095) 4096 ltac:(lia)). lia. }
  split.
  - intros Hf a Hr. set (k := Z.to_nat ((a - ptr) / 4096)).
    pose proof (Z.div_mod (a - ptr) 4096 ltac:(lia)). pose proof (Z.mod_pos_bound (a - ptr) 4096 ltac:(lia)).
    assert (0 <= (a - ptr) / 4096) by (apply Z.div_pos; lia).
    specialize (Hf k). rewrite Hn in Hf. specialize (Hf ltac:(lia)). rewrite <- Hf.
    rewrite u32_small by lia. apply user_byte_page. change 0x1000 with 4096.
    replace (ptr + Z.of_nat k * 4096) with ((ptr / 4096 + (a - ptr) / 4096) * 4096) by lia.
    rewrite Z.div_mul by lia.
    replace a with ((a - ptr) mod 4096 + (ptr / 4096 + (a - ptr) / 4096) * 4096) at 1 by lia.
    rewrite Z.div_add, Z.div_small by lia. lia.
  - intros Hf k Hk. rewrite Hn in Hk. rewrite u32_small by lia. apply Hf. lia.
Qed.

(** The pointer check is incomplete.  A length above [0xFFFFF000] is rounded
    up to 0 pages, so every pointer is accepted with it; and the number of pages
    ignores the offset of the pointer in its page, so a range of up to 4096
    bytes is accepted as soon as its first page is a user page, although it may
    extend into a page that user code must not touch. *)
Theorem valid_userpointer_gaps st d ptr s :
  active_directory st = Some d -> dir_ok st d -> 0 <= ptr < 2 ^ 32 -> 0 < s < 2 ^ 32 ->
  (0xFFFFF000 < s -> mmu_is_valid_userpointer ptr s st = Ok (true, st)) /\
  (s <= 4096 -> mmu_is_valid_userpointer ptr s st = Ok (user_byte st d ptr, st)).
Proof.
  intros Ha Hdir Hp Hs. rewrite (valid_userpointer_pages _ _ _ _ Ha Hdir). split; intros Hb.
  - assert (align_page s = 0) as ->; [|done]. unfold align_page. rewrite align_page_mod by lia.
    pose proof (Z.div_mod s 4096 ltac:(lia)). pose proof (Z.mod_pos_bound s 4096 ltac:(lia)).
    assert (s / 4096 = 0xFFFFF).
    { assert (0xFFFFF <= s / 4096) by (apply Z.div_le_lower_bound; lia).
      assert (s / 4096 < 0x100000) by (apply Z.div_lt_upper_bound; lia). lia. }
    destruct (Z.ltb_spec 0 (s mod 4096)); [|lia]. change PAGE_SIZE with 4096.
    by replace (s + (4096 - s mod 4096)) with (2 ^ 32) by lia.
  - rewrite align_page_spec by lia. change 0x1000 with 4096. rewrite Z.div_mul by lia.
    assert ((s + 4095) / 4096 = 1) as ->.
    { symmetry. apply Z.div_unique with (r := s - 1); lia. }
    change (seq 0 (Z.to_nat 1)) with [0%nat]. cbn [forallb].
    rewrite andb_true_r. by replace (u32 (ptr + Z.of_nat 0 * 4096)) with ptr by (rewrite u32_small; lia).
Qed.

(** The search for a run of frames does not restart at a full word: with
    frames 62 and 63 and 96, 97 free and all frames between them used, the
    search for 4 frames returns the run from 94 to 97, whose first two frames
    are in use. *)
Theorem get_free_frames_run_broken :
  let ws := [0xFFFFFFFF; 0x3FFFFFFF; 0xFFFFFFFF; 0xFFFFFFFC] in
  frame_words (zdrop 1 ws) 1 4 4 = Some 94 /\
  bit_at 32 ws 94 = true /\ bit_at 32 ws 95 = true.
Proof. by vm_compute. Qed.

(** A machine with 128 frames, the tables of the kernel's first 8 MiB and one
    user page at the start of the break. *)
Definition T1 : Z := 0xC0001000.
Definition T2 : Z := 0xC0002000.
Definition one_page : Page := mkPage true true true false false 32.
Definition boot_dir : PageDirectory := mkDir {[ 768 := T1; 769 := T2 ]} ∅ 0.
Definition boot (w : Z) (t : gmap Z Page) : mmu :=
  mkMmu [0xFFFFFFFF; w; 0; 0] 4 1 33 {[ T1 := t; T2 := ∅ ]} {[ 0x1000 := boot_dir ]} 0x1000
    (Some 0x1000) 0xC0100000 false [] [].

(** [ksbrk] loses a frame on every call but the first: it maps one page
    beyond the new break, and the next call, whose first page that is, maps the
    page to a new frame without releasing the old one.  After two calls the
    frame 34 is marked used and no page maps it. *)
Theorem ksbrk_leaks_frame :
  exists st, (ksbrk 4096 false ;; ksbrk 4096 false) (boot 1 ∅) = Ok (Some 0xC0101000, st) /\
    frame_used st 34 = true /\
    (forall t tb i pg, page_tables st !! t = Some tb -> tb !! i = Some pg ->
       ~ (present pg = true /\ frame pg = 34)).
Proof.
  set (run := (ksbrk 4096 false ;; ksbrk 4096 false) (boot 1 ∅)).
  exists (match run with Ok (_, st) => st | _ => boot 1 ∅ end).
  split; [by vm_compute|]. split; [by vm_compute|].
  assert (Hm : bool_decide (map_Forall (fun _ tb => map_Forall (fun _ pg => frame pg <> 34) tb)
    (page_tables (match run with Ok (_, st) => st | _ => boot 1 ∅ end))) = true) by (by vm_compute).
  apply bool_decide_eq_true in Hm. intros t tb i pg Ht Hi [_ Hf].
  exact (map_Forall_lookup_1 _ _ _ _ (map_Forall_lookup_1 _ _ _ _ Hm Ht) Hi Hf).
Qed.

Lemma boot_dir_ok w t : dir_ok (boot w t) 0x1000.
Proof.
  exists boot_dir. split; [reflexivity|]. intros i tb Hi. cbn [tables boot_dir] in Hi.
  apply lookup_insert_Some in Hi as [[_ <-]|[_ Hi]]; [by eexists|].
  apply lookup_singleton_Some in Hi as [_ <-]. by eexists.
Qed.

(** The only page of [boot 1 {[256 := one_page]}]. *)
Lemma boot_pages p pg :
  page_at (boot 1 {[ 256 := one_page ]}) p = Some pg -> present pg = true ->
  p = (T1, 256) /\ pg = one_page.
Proof.
  destruct p as [t i]. unfold page_at. cbn [page_tables boot fst snd].
  destruct (decide (t = T1)) as [->|H1].
  - rewrite lookup_insert_eq. cbn. intros [= <-]. destruct (decide (i = 256)) as [->|Hi]; [done|].
    rewrite lookup_singleton_ne by done. done.
  - rewrite lookup_insert_ne by done. destruct (decide (t = T2)) as [->|H2].
    + rewrite lookup_singleton_eq. by intros [= <-].
    + by rewrite lookup_singleton_ne by done.
Qed.

Lemma boot_owned : owned (boot 1 {[ 256 := one_page ]}).
Proof.
  split.
  - split; cbn; [reflexivity|lia| |lia]. repeat constructor; lia.
  - intros p pg Hp Hpr. destruct (boot_pages _ _ Hp Hpr) as [_ ->]. cbn. split; [lia|reflexivity].
  - intros p q pg qg Hp Hq Hpp Hpq _. destruct (boot_pages _ _ Hp Hpp) as [-> _].
    by destruct (boot_pages _ _ Hq Hpq) as [-> _].
Qed.

Lemma allocate_frame_exclusive_witness :
  exists ok st', allocate_frame (T2, 5) true true (boot 1 {[ 256 := one_page ]}) = Ok (ok, st') /\ owned st'.
Proof.
  destruct (allocate_frame_exclusive (boot 1 {[ 256 := one_page ]}) (T2, 5) zero_page true true)
    as (ok & st' & He & Ho & _); [exact boot_owned|reflexivity|reflexivity|].
  exists ok, st'. split; [exact He|exact Ho].
Defined.

Lemma mmu_free_address_range_releases_witness :
  exists st', mmu_free_address_range 0xC0100000 4096 (Some 0x1000) (boot 1 {[ 256 := one_page ]})
      = Ok (tt, st') /\ owned st'.
Proof.
  destruct (mmu_free_address_range_releases 0x1000 (boot 1 {[ 256 := one_page ]}) 0xC0100000 4096)
    as (st' & He & Hr); [exact boot_owned|apply boot_dir_ok|].
  exists st'. split; [exact He|apply Hr].
Defined.

Lemma valid_userpointer_aligned_witness :
  exists b, mmu_is_valid_userpointer 0xC0100000 100 (boot 1 {[ 256 := one_page ]})
      = Ok (b, boot 1 {[ 256 := one_page ]}) /\
    (b = true <-> forall a, 0xC0100000 <= a < 0xC0100000 + 100 ->
       user_byte (boot 1 {[ 256 := one_page ]}) 0x1000 a = true).
Proof.
  apply (valid_userpointer_aligned (boot 1 {[ 256 := one_page ]}) 0x1000 0xC0100000 100);
    [reflexivity|apply boot_dir_ok|lia|reflexivity|lia|lia].
Defined.

(** The last byte of the user page and the first byte of the next page, which is
    not mapped. *)
Lemma valid_userpointer_gaps_witness :
  mmu_is_valid_userpointer 0xC0100FFF 2 (boot 1 {[ 256 := one_page ]})
    = Ok (true, boot 1 {[ 256 := one_page ]}) /\
  user_byte (boot 1 {[ 256 := one_page ]}) 0x1000 0xC0101000 = false.
Proof.
  split; [|by vm_compute].
  assert (Hu : user_byte (boot 1 {[ 256 := one_page ]}) 0x1000 0xC0100FFF = true) by (by vm_compute).
  rewrite <- Hu at 1.
  apply (proj2 (valid_userpointer_gaps (boot 1 {[ 256 := one_page ]}) 0x1000 0xC0100FFF 2
           eq_refl (boot_dir_ok _ _) ltac:(lia) ltac:(lia)) ltac:(lia)).
Defined.
