(* ===== verification/Net.v ===== *)
(** kernel/network/bytes.c, ethernet.c, arp.c, ipv4.c and the transmit half of
    kernel/drivers/rtl8139.c: byte order, CRC and checksums, the ARP cache,
    building frames on the way out and taking them apart on the way in.

    Packets are lists of bytes; a [u16 *] read on this little endian machine is
    [le16].  The state [net] holds the globals of these files.  A frame given
    to the network card is appended to [transmitted]; a frame whose
    destination is this machine is passed to [handle_ethernet] by the source
    inside the call, here it is appended to [loopback]. *)

From stdpp Require Import base numbers list gmap.
From Stdlib Require Import ZArith Lia.
From S2P Require Import Prelude Bytes.

Open Scope Z_scope.

(** ** bytes.c *)

Definition ntohs (net : Z) : Z := u16 (Z.lor (Z.shiftr net 8) (Z.shiftl net 8)).
Definition htons (net : Z) : Z := u16 (Z.lor (Z.shiftr net 8) (Z.shiftl net 8)).
Definition htonl (net : Z) : Z :=
  Z.lor (Z.lor (Z.lor (u32 (Z.shiftl (Z.land net 0xFF) 24)) (Z.shiftl (Z.land net 0xFF00) 8))
    (Z.shiftr (Z.land net 0xFF0000) 8)) (Z.shiftr (Z.land net 0xFF000000) 24).

(** ** State *)

Record ARP_TABLE_ENTRY : Type := mkArpEntry {
  is_used : bool;
  a_mac : list Z;
  a_ip : list Z
}.

Record net : Type := mkNet {
  arp_table : list ARP_TABLE_ENTRY;
  gateway : Z;
  bitmask : Z;
  ip_address : Z;
  mac_address : list Z;
  send_buffers : list (list Z);
  send_buffers_loop : Z;
  transmitted : list (list Z);
  loopback : list (list Z * Z)
}.

Definition set_arp_table (t : list ARP_TABLE_ENTRY) (st : net) : net :=
  mkNet t (gateway st) (bitmask st) (ip_address st) (mac_address st)
    (send_buffers st) (send_buffers_loop st) (transmitted st) (loopback st).
Definition set_nic (bufs : list (list Z)) (loop : Z) (sent : list (list Z)) (st : net) : net :=
  mkNet (arp_table st) (gateway st) (bitmask st) (ip_address st) (mac_address st)
    bufs loop sent (loopback st).
Definition add_loopback (packet : list Z) (length : Z) (st : net) : net :=
  mkNet (arp_table st) (gateway st) (bitmask st) (ip_address st) (mac_address st)
    (send_buffers st) (send_buffers_loop st) (transmitted st)
    (loopback st ++ [(packet, length)]).

Definition setup_network (_gateway _bitmask : Z) (st : net) : net :=
  mkNet (arp_table st) _gateway _bitmask (ip_address st) (mac_address st)
    (send_buffers st) (send_buffers_loop st) (transmitted st) (loopback st).

(** ** rtl8139.c, transmitting *)

(** [send_buffers_loop] after the check that every entry point makes. *)
Definition wrap_loop (st : net) : Z :=
  if 3 <? send_buffers_loop st then 0 else send_buffers_loop st.

Definition nic_get_buffer (st : net) : outcome (net * list Z) :=
  let loop := wrap_loop st in
  buf ← aread (send_buffers st) loop;
  Ok (set_nic (send_buffers st) loop (transmitted st) st, buf).

(** Stores through the pointer [nic_get_buffer] returned. *)
Definition nic_store (buf : list Z) (st : net) : outcome net :=
  bufs ← awrite (send_buffers st) (send_buffers_loop st) buf;
  Ok (set_nic bufs (send_buffers_loop st) (transmitted st) st).

Definition nic_send_buffer (data_size : Z) (st : net) : outcome net :=
  buf ← aread (send_buffers st) (send_buffers_loop st);
  frame ← bytes_at buf 0 (u16 data_size);
  let loop := send_buffers_loop st + 1 in
  Ok (set_nic (send_buffers st) (if 3 <? loop then 0 else loop)
        (transmitted st ++ [frame]) st).

(** One call of [rtl8139_send_data] with at most one page of data. *)
Definition send_page (data : list Z) (data_size : Z) (st : net) : outcome net :=
  let loop := wrap_loop st in
  buf ← aread (send_buffers st) loop;
  buf ← memcpy_at buf 0 data 0 data_size;
  bufs ← awrite (send_buffers st) loop buf;
  frame ← bytes_at buf 0 data_size;
  Ok (set_nic bufs (loop + 1) (transmitted st ++ [frame]) st).

Fixpoint rtl8139_send_fuel (fuel : nat) (data : list Z) (data_size : Z) (st : net)
  : outcome net :=
  match fuel with
  | O => NoFuel
  | S fuel =>
    if 0x1000 <? data_size then
      st ← send_page data 0x1000 st;
      rtl8139_send_fuel fuel (zdrop 0x1000 data) (u16 (data_size - 0x1000)) st
    else send_page data data_size st
  end.

(** [data_size] is a [u16]: at most 16 pages. *)
Definition rtl8139_send_data (data : list Z) (data_size : Z) (st : net) : outcome net :=
  rtl8139_send_fuel 16 data (u16 data_size) st.

(** ** ethernet.c *)

(** One of the eight steps that fill in an entry of the table. *)
Definition crc_bit (rem : Z) : Z :=
  if is_set rem 1 then Z.lxor (Z.shiftr rem 1) 0xedb88320 else Z.shiftr rem 1.

Definition crc_entry (i : Z) : Z := Nat.iter 8 crc_bit i.
Definition crc_table : list Z := crc_entry <$> seqZ 0 256.

Definition crc_octet (crc octet : Z) : Z :=
  Z.lxor (Z.shiftr crc 8) (default 0 (znth crc_table (Z.lxor (Z.land crc 0xff) octet))).

Definition crc32 (buf : list Z) : Z :=
  2 ^ 32 - 1 - fold_left crc_octet buf 0xFFFFFFFF.

(** The calls made by [handle_ethernet]. *)
Inductive ethernet_event : Type :=
| EthArp (payload : list Z)
| EthIpv4 (payload : list Z) (packet_length : Z)
| EthUnknown (type : Z).

Definition handle_ethernet (packet : list Z) (packet_length : Z) : outcome ethernet_event :=
  let payload := zdrop 14 packet in
  type ← le16_at packet 12;
  let type := ntohs type in
  Ok (if type =? 0x0806 then EthArp payload
      else if type =? 0x0800 then EthIpv4 payload (u32 (packet_length - 14))
      else EthUnknown type).

(** Fills in the Ethernet header and the CRC around a payload that is in place. *)
Definition ethernet_fill (buf mac_dst mac_src : list Z) (type payload_length : Z)
  : outcome (list Z) :=
  buf ← memcpy_at buf 0 mac_dst 0 6;
  buf ← memcpy_at buf 6 mac_src 0 6;
  buf ← memcpy_at buf 12 (le16_bytes (htons type)) 0 2;
  covered ← bytes_at buf 0 (14 + payload_length);
  memcpy_at buf (14 + payload_length) (le32_bytes (htonl (crc32 covered))) 0 4.

Definition send_ethernet_packet2 (mac_dst : list Z) (type payload_length : Z) (st : net)
  : outcome net :=
  let buffer_size := 14 + payload_length + 4 in
  c_assert (buffer_size <? 0x1000) ;;
  '(st, buf) ← nic_get_buffer st;
  buf ← memcpy_at buf 0 (replicate 14 0) 0 14;
  buf ← ethernet_fill buf mac_dst (mac_address st) type payload_length;
  st ← nic_store buf st;
  if bool_decide (ztake 6 mac_dst = slice 6 6 buf)
  then Ok (add_loopback buf buffer_size st)
  else nic_send_buffer buffer_size st.

(** [ethernet_buffer] is zeroed for [buffer_size] bytes on every call and only
    these bytes are used: it starts as [buffer_size] zeros. *)
Definition send_ethernet_packet (mac_dst : list Z) (type : Z) (payload : list Z)
    (payload_length : Z) (st : net) : outcome net :=
  let buffer_size := 14 + payload_length + 4 in
  c_assert (buffer_size <? 0x1000) ;;
  buf ← memcpy_at (replicate (Z.to_nat buffer_size) 0) 14 payload 0 payload_length;
  buf ← ethernet_fill buf mac_dst (mac_address st) type payload_length;
  if bool_decide (ztake 6 mac_dst = slice 6 6 buf)
  then '(st, nic) ← nic_get_buffer st; Ok (add_loopback nic buffer_size st)
  else rtl8139_send_data buf buffer_size st.

(** ** arp.c *)

(** Index of the entry [find_arp_entry_to_use] points to. *)
Fixpoint find_unused (t : list ARP_TABLE_ENTRY) (i : nat) : option nat :=
  match t with
  | [] => None
  | e :: t => if is_used e then find_unused t (S i) else Some i
  end.
Definition find_arp_entry_to_use (st : net) : nat :=
  default 0%nat (find_unused (take 10 (arp_table st)) 0).

(** [struct ARP_DATA] as bytes. *)
Definition arp_data (opcode : Z) (srchw srcpr dsthw dstpr : list Z) : list Z :=
  le16_bytes (htons 1) ++ le16_bytes (htons 0x0800) ++ [6; 4] ++
  le16_bytes (htons opcode) ++ srchw ++ srcpr ++ dsthw ++ dstpr.

Definition send_arp_request (ip : Z) (st : net) : outcome net :=
  let data := arp_data 1 (mac_address st) (le32_bytes (ip_address st))
                (replicate 6 0) (le32_bytes ip) in
  send_ethernet_packet (replicate 6 0xFF) 0x0806 data 28 st.

Definition ip_inside_network (ip : Z) (st : net) : bool :=
  Z.land ip (bitmask st) =? Z.land (gateway st) (bitmask st).

(** The loop of [get_mac_from_ip] over the table; [is_used] is not consulted. *)
Fixpoint arp_lookup (t : list ARP_TABLE_ENTRY) (ip : list Z) : option (list Z) :=
  match t with
  | [] => None
  | e :: t => if bool_decide (a_ip e = ip) then Some (a_mac e) else arp_lookup t ip
  end.

(** [interrupts] is what the interrupts enabled between the two lookups do.
    The recursive call for the gateway gets its own fuel. *)
Fixpoint get_mac_fuel (fuel : nat) (interrupts : net -> net) (ip : Z) (st : net)
  : outcome (net * option (list Z)) :=
  match fuel with
  | O => NoFuel
  | S fuel =>
    if (htonl 2130706433 =? ip) || (ip_address st =? ip)
    then Ok (st, Some (mac_address st)) else
    if negb (ip_inside_network ip st)
    then get_mac_fuel fuel interrupts (gateway st) st else
    match arp_lookup (take 10 (arp_table st)) (le32_bytes ip) with
    | Some mac => Ok (st, Some mac)
    | None =>
      st ← send_arp_request ip st;
      let st := interrupts st in
      Ok (st, arp_lookup (take 10 (arp_table st)) (le32_bytes ip))
    end
  end.
Definition get_mac_from_ip := get_mac_fuel 2.

(** The entry the handler fills in. *)
Definition arp_learn (srchw srcpr : list Z) (st : net) : outcome net :=
  t ← awrite (arp_table st) (Z.of_nat (find_arp_entry_to_use st))
        (mkArpEntry true srchw srcpr);
  Ok (set_arp_table t st).

Definition handle_arp (payload : list Z) (st : net) : outcome net :=
  htype ← le16_at payload 0;
  c_assert (ntohs htype =? 1) ;;
  ptype ← le16_at payload 2;
  c_assert (ntohs ptype =? 0x0800) ;;
  hlen ← aread payload 4;
  c_assert (hlen =? 6) ;;
  plen ← aread payload 5;
  c_assert (plen =? 4) ;;
  opcode ← le16_at payload 6;
  srchw ← bytes_at payload 8 6;
  srcpr ← bytes_at payload 14 4;
  if ntohs opcode =? 1 then
    st ← arp_learn srchw srcpr st;
    dstpr ← bytes_at payload 24 4;
    c_assert (bool_decide (dstpr = le32_bytes (ip_address st))) ;;
    send_ethernet_packet srchw 0x0806
      (arp_data 2 (mac_address st) (le32_bytes (ip_address st)) srchw srcpr) 28 st
  else if ntohs opcode =? 2 then arp_learn srchw srcpr st
  else Panic.

(** ** ipv4.c *)

Definition ip_acc (acc w : Z) : Z :=
  let acc := acc + ntohs w in if 0xffff <? acc then acc - 0xffff else acc.

(** [data] is an array of [u16]; [~acc] is a 32 bit value narrowed by [htons]. *)
Definition ip_checksum (data : list Z) (length : Z) : outcome Z :=
  if zlen data <? length / 2 then Fault
  else Ok (htons (u16 (2 ^ 32 - 1 - fold_left ip_acc (ztake (length / 2) data) 0xffff))).

(** The header both senders build before the checksum is known. *)
Definition ipv4_header0 (my_ip ip protocol length : Z) : list Z :=
  [Z.lor (Z.shiftl 4 4) 5; htons (u16 (length + 20)); 0; 0;
   Z.lor (u16 (Z.shiftl protocol 8)) 0xF8; 0;
   Z.land my_ip 0xFFFF; Z.land (Z.shiftr my_ip 16) 0xFFFF;
   Z.land ip 0xFFFF; Z.land (Z.shiftr ip 16) 0xFFFF].

Definition ipv4_header (my_ip ip protocol length : Z) : outcome (list Z) :=
  let h := ipv4_header0 my_ip ip protocol length in
  c ← ip_checksum h 20;
  Ok (<[5%nat := c]> h).

Definition words_bytes (ws : list Z) : list Z := concat (le16_bytes <$> ws).

(** [for (; !get_mac_from_ip(ip, mac););], one element of [irq] per turn. *)
Fixpoint await_mac (irq : list (net -> net)) (ip : Z) (st : net)
  : outcome (net * list Z) :=
  match irq with
  | [] => NoFuel
  | i :: irq =>
    '(st, m) ← get_mac_from_ip i ip st;
    match m with
    | Some mac => Ok (st, mac)
    | None => await_mac irq ip st
    end
  end.

Definition send_ipv4_packet2 (irq : list (net -> net)) (ip protocol length : Z) (st : net)
  : outcome net :=
  header ← ipv4_header (ip_address st) ip protocol length;
  '(st, buf) ← nic_get_buffer st;
  buf ← memcpy_at buf 14 (words_bytes header) 0 20;
  st ← nic_store buf st;
  '(st, mac) ← await_mac irq ip st;
  send_ethernet_packet2 mac 0x0800 (u16 (length + 20)) st.

(** [ipv4_buffer] has 0x1000 bytes; the part that is read is written anew on
    every call, the rest is shown as zeros. *)
Definition send_ipv4_packet (irq : list (net -> net)) (ip protocol : Z) (payload : list Z)
    (length : Z) (st : net) : outcome net :=
  header ← ipv4_header (ip_address st) ip protocol length;
  let packet_length := u16 (length + 20) in
  c_assert (packet_length <? 0x1000) ;;
  packet ← memcpy_at (replicate 4096 0) 0 (words_bytes header) 0 20;
  packet ← memcpy_at packet 20 payload 0 length;
  '(st, mac) ← await_mac irq ip st;
  send_ethernet_packet mac 0x0800 packet packet_length st.

(** The calls made by [handle_ipv4]. *)
Inductive ipv4_event : Type :=
| IpDropped
| IpTcp (src_ip dst_ip : Z) (payload : list Z) (length : Z)
| IpUdp (src_ip dst_ip : Z) (payload : list Z) (length : Z)
| IpUnknown (protocol : Z).

(** The words of a packet as a [u16] pointer reads them. *)
Fixpoint words16 (bs : list Z) : list Z :=
  match bs with
  | a :: b :: bs => le16 a b :: words16 bs
  | _ => []
  end.

Definition handle_ipv4 (payload : list Z) (packet_length : Z) : outcome ipv4_event :=
  c_assert (4 <? packet_length) ;;
  saved_checksum ← le16_at payload 10;
  zeroed ← awrite payload 10 0;
  zeroed ← awrite zeroed 11 0;
  calc_checksum ← ip_checksum (words16 zeroed) 20;
  if negb (calc_checksum =? saved_checksum) then Ok IpDropped else
  b0 ← aread payload 0;
  c_assert (Z.shiftr (Z.land b0 0xF0) 4 =? 4) ;;
  c_assert (Z.land b0 0xF =? 5) ;;
  total ← le16_at payload 2;
  let total := ntohs total in
  c_assert (20 <=? total) ;;
  c_assert (total <=? packet_length) ;;
  src_ip ← le32_at payload 12;
  dst_ip ← le32_at payload 16;
  protocol ← aread payload 9;
  Ok (if protocol =? 0x6 then IpTcp src_ip dst_ip (zdrop 20 payload) (total - 20)
      else if protocol =? 0x11 then IpUdp src_ip dst_ip (zdrop 20 payload) (total - 20)
      else IpUnknown protocol).

(** ** Byte order *)

Lemma htons_swap x : fits 16 x -> htons x = x / 2 ^ 8 + x mod 2 ^ 8 * 2 ^ 8.
Proof.
  intros Hx. unfold htons, fits in *. rewrite Z.shiftr_div_pow2, Z.shiftl_mul_pow2 by lia.
  assert (0 <= x / 2 ^ 8 < 2 ^ 8).
  { split; [apply Z.div_pos; lia|]. apply Z.div_lt_upper_bound; lia. }
  rewrite lor_disjoint_add by (unfold fits; lia). unfold u16, wrap.
  pose proof (Z.mod_pos_bound x (2 ^ 8) ltac:(lia)).
  symmetry. apply (Z.mod_unique _ _ (x / 2 ^ 8)); [left; lia|].
  pose proof (Z.div_mod x (2 ^ 8)). lia.
Qed.

Lemma ntohs_htons x : fits 16 x -> ntohs (htons x) = x.
Proof.
  intros Hx. change (ntohs (htons x)) with (htons (htons x)).
  assert (0 <= x / 2 ^ 8 < 2 ^ 8).
  { split; [apply Z.div_pos; unfold fits in *; lia|].
    apply Z.div_lt_upper_bound; unfold fits in *; lia. }
  pose proof (Z.mod_pos_bound x (2 ^ 8) ltac:(lia)).
  rewrite (htons_swap (htons x)) by (apply wrap_fits; lia).
  rewrite (htons_swap x) by done.
  rewrite Z.div_add, Z_mod_plus_full, (Z.div_small (x / 2 ^ 8)), (Z.mod_small (x / 2 ^ 8)) by lia.
  pose proof (Z.div_mod x (2 ^ 8)). lia.
Qed.

(** [htonl] reverses the bytes. *)
Lemma htonl_le32 a b c d :
  fits 8 a -> fits 8 b -> fits 8 c -> fits 8 d -> htonl (le32 a b c d) = le32 d c b a.
Proof.
  intros Ha Hb Hc Hd. destruct (le32_byte a b c d) as (E0 & E1 & E2 & E3); try done.
  unfold htonl.
  pose proof (land_field (le32 a b c d) 0 8 ltac:(lia) ltac:(lia)) as F0.
  pose proof (land_field (le32 a b c d) 8 8 ltac:(lia) ltac:(lia)) as F1.
  pose proof (land_field (le32 a b c d) 16 8 ltac:(lia) ltac:(lia)) as F2.
  pose proof (land_field (le32 a b c d) 24 8 ltac:(lia) ltac:(lia)) as F3.
  rewrite E0 in F0. rewrite E1 in F1. rewrite E2 in F2. rewrite E3 in F3.
  change (Z.ones 8 * 2 ^ 0) with 0xFF in F0. change (Z.ones 8 * 2 ^ 8) with 0xFF00 in F1.
  change (Z.ones 8 * 2 ^ 16) with 0xFF0000 in F2.
  change (Z.ones 8 * 2 ^ 24) with 0xFF000000 in F3.
  rewrite F0, F1, F2, F3. unfold fits in *.
  rewrite !Z.shiftl_mul_pow2, !Z.shiftr_div_pow2 by lia.
  replace (c * 2 ^ 16 / 2 ^ 8) with (c * 2 ^ 8)
    by (change (2 ^ 16) with (2 ^ 8 * 2 ^ 8); rewrite Z.mul_assoc, Z.div_mul; lia).
  rewrite Z.div_mul, u32_small by lia.
  rewrite (Z.lor_comm (Z.lor (Z.lor _ _) _) d), (Z.lor_comm (Z.lor _ _) (c * 2 ^ 8)).
  rewrite (Z.lor_comm (a * 2 ^ 0 * 2 ^ 24)).
  replace (b * 2 ^ 8 * 2 ^ 8) with (b * 2 ^ 16) by lia.
  replace (a * 2 ^ 0 * 2 ^ 24) with (a * 2 ^ 24) by lia.
  rewrite !Z.lor_assoc.
  rewrite (lor_disjoint_add 8), (lor_disjoint_add 16), (lor_disjoint_add 24)
    by (unfold fits; lia).
  unfold le32. lia.
Qed.

Lemma htonl_involutive x : fits 32 x -> htonl (htonl x) = x /\ fits 32 (htonl x).
Proof.
  intros Hx. rewrite <- (le32_split x Hx).
  assert (Hb : forall y, fits 8 (y mod 2 ^ 8)) by (intros; apply Z.mod_pos_bound; lia).
  split; [by rewrite !htonl_le32 by done|].
  rewrite htonl_le32 by done. unfold fits, le32 in *.
  pose proof (Hb x). pose proof (Hb (x / 2 ^ 8)). pose proof (Hb (x / 2 ^ 16)).
  pose proof (Hb (x / 2 ^ 24)). lia.
Qed.

(** ** CRC *)

(** The CRC of the Ethernet standard, bit by bit. *)
Definition crc_octet_bitwise (crc octet : Z) : Z := Nat.iter 8 crc_bit (Z.lxor crc octet).

Definition crc_linear (f : Z -> Z) : Prop := forall x y, f (Z.lxor x y) = Z.lxor (f x) (f y).

Lemma is_set_1 x : is_set x 1 = Z.odd x.
Proof. rewrite <- Z.bit0_odd. exact (is_set_bit x 0 ltac:(lia)). Qed.

Lemma crc_bit_linear : crc_linear crc_bit.
Proof.
  intros x y. unfold crc_bit. rewrite !is_set_1, !Z.shiftr_lxor, <- !Z.bit0_odd, Z.lxor_spec.
  destruct (Z.testbit x 0), (Z.testbit y 0); cbn [xorb].
  all: apply Z.bits_inj'; intros n Hn; rewrite !Z.lxor_spec.
  all: repeat match goal with |- context [Z.testbit ?a ?m] => destruct (Z.testbit a m) end.
  all: reflexivity.
Qed.

Lemma iter_linear f n : crc_linear f -> crc_linear (Nat.iter n f).
Proof.
  intros Hf. induction n as [|n IH]; intros x y; [done|].
  cbn [Nat.iter nat_rect]. unfold Nat.iter in IH. rewrite IH. apply Hf.
Qed.

Lemma crc_bit_even x : Z.odd x = false -> crc_bit x = Z.shiftr x 1.
Proof. intros H. unfold crc_bit. by rewrite is_set_1, H. Qed.

Lemma crc_iter_high n x : Nat.iter n crc_bit (Z.shiftl x (Z.of_nat n)) = x.
Proof.
  revert x. induction n as [|n IH]; intros x; [apply Z.shiftl_0_r|].
  replace (Z.shiftl x (Z.of_nat (S n))) with (Z.shiftl (Z.shiftl x 1) (Z.of_nat n))
    by (rewrite Z.shiftl_shiftl by lia; f_equal; lia).
  change (Nat.iter (S n) crc_bit ?y) with (crc_bit (Nat.iter n crc_bit y)). rewrite IH.
  rewrite crc_bit_even.
  - rewrite Z.shiftr_shiftl_l by lia. apply Z.shiftl_0_r.
  - rewrite Z.shiftl_mul_pow2 by lia. rewrite Z.odd_mul. apply andb_false_r.
Qed.

Lemma crc_table_nth i : 0 <= i < 256 -> znth crc_table i = Some (crc_entry i).
Proof.
  intros Hi. unfold znth, crc_table. destruct (Z.leb_spec 0 i); [|lia].
  rewrite list_lookup_fmap, lookup_seqZ_lt by lia. cbn [fmap option_fmap option_map]. by rewrite Z2Nat.id by lia.
Qed.

(** One table step is the eight bit steps. *)
Lemma crc_octet_ok crc octet :
  0 <= crc -> fits 8 octet -> crc_octet crc octet = crc_octet_bitwise crc octet.
Proof.
  intros Hc Ho. unfold crc_octet, crc_octet_bitwise.
  assert (Hs : Z.lxor crc octet =
    Z.lxor (Z.shiftl (Z.shiftr crc 8) 8) (Z.lxor (Z.land crc 0xff) octet)).
  { apply Z.bits_inj'. intros n Hn. rewrite !Z.lxor_spec, Z.land_spec.
    change 0xff with (Z.ones 8). destruct (Z.lt_ge_cases n 8).
    - rewrite Z.shiftl_spec_low, Z.ones_spec_low by lia.
      by destruct (Z.testbit crc n), (Z.testbit octet n).
    - rewrite Z.shiftl_spec, Z.shiftr_spec, Z.ones_spec_high by lia.
      replace (n - 8 + 8) with n by lia.
      by destruct (Z.testbit crc n), (Z.testbit octet n). }
  rewrite Hs, (iter_linear crc_bit 8 crc_bit_linear).
  pose proof (crc_iter_high 8 (Z.shiftr crc 8)) as Hh. change (Z.of_nat 8) with 8 in Hh.
  rewrite Hh. f_equal.
  rewrite crc_table_nth; [done|].
  change (0 <= Z.lxor (Z.land crc 0xff) octet < 2 ^ 8). apply fits_bits; [lia| |].
  - apply Z.lxor_nonneg. split; intros; [unfold fits in Ho; lia|]. apply Z.land_nonneg; lia.
  - intros n Hn. rewrite Z.lxor_spec, Z.land_spec, (testbit_fits 8 octet) by done.
    change 0xff with (Z.ones 8). rewrite Z.ones_spec_high by lia. by rewrite andb_false_r.
Qed.

Lemma crc_bit_nonneg x : 0 <= x -> 0 <= crc_bit x.
Proof.
  intros Hx. unfold crc_bit. assert (0 <= Z.shiftr x 1) by (by apply Z.shiftr_nonneg).
  destruct (is_set x 1); [|done]. apply Z.lxor_nonneg. lia.
Qed.

Lemma crc_octet_bitwise_nonneg crc octet :
  0 <= crc -> fits 8 octet -> 0 <= crc_octet_bitwise crc octet.
Proof.
  intros Hc Ho. unfold crc_octet_bitwise.
  assert (H0 : 0 <= Z.lxor crc octet) by (apply Z.lxor_nonneg; unfold fits in Ho; lia).
  revert H0. generalize (Z.lxor crc octet). generalize 8%nat.
  induction n as [|n IH]; intros x Hx; [done|]. apply crc_bit_nonneg. by apply IH.
Qed.

(** ** One's complement sums *)

Definition sum16 (ws : list Z) : Z := fold_right (fun w s => ntohs w + s) 0 ws.

Lemma ntohs_range w : 0 <= ntohs w < 2 ^ 16.
Proof. apply wrap_fits. lia. Qed.

Lemma ip_acc_range acc w : 0 < acc <= 0xffff -> 0 < ip_acc acc w <= 0xffff.
Proof.
  intros Ha. unfold ip_acc. pose proof (ntohs_range w).
  destruct (Z.ltb_spec 0xffff (acc + ntohs w)); lia.
Qed.

(** Congruence modulo 0xffff, the arithmetic of one's complement sums. *)
Definition ones_eq (a b : Z) : Prop := exists k, a = b + k * 0xffff.

Lemma ones_eq_trans a b c : ones_eq a b -> ones_eq b c -> ones_eq a c.
Proof. intros [k ->] [j ->]. exists (k + j). lia. Qed.

Lemma ip_acc_mod acc w : ones_eq (ip_acc acc w) (acc + ntohs w).
Proof. unfold ip_acc. destruct (0xffff <? acc + ntohs w); [exists (-1)|exists 0]; lia. Qed.

Lemma ip_fold_spec ws acc :
  0 < acc <= 0xffff ->
  0 < fold_left ip_acc ws acc <= 0xffff /\
  ones_eq (fold_left ip_acc ws acc) (acc + sum16 ws).
Proof.
  revert acc. induction ws as [|w ws IH]; intros acc Ha; cbn [fold_left sum16 fold_right].
  - split; [done|]. exists 0. lia.
  - destruct (IH _ (ip_acc_range acc w Ha)) as [Hr [k Hk]]. split; [done|].
    destruct (ip_acc_mod acc w) as [j Hj]. fold (sum16 ws). exists (k + j). lia.
Qed.

Lemma sum16_insert ws k c :
  ws !! k = Some 0 -> sum16 (<[k := c]> ws) = sum16 ws + ntohs c.
Proof.
  revert k. induction ws as [|w ws IH]; intros [|k] Hk; try done.
  - injection Hk as ->. change (ntohs c + sum16 ws = ntohs 0 + sum16 ws + ntohs c).
    change (ntohs 0) with 0. lia.
  - change (ntohs w + sum16 (<[k := c]> ws) = ntohs w + sum16 ws + ntohs c).
    rewrite (IH k Hk). lia.
Qed.

(** The complement of the accumulator as it is stored in the header. *)
Lemma ip_complement acc :
  0 < acc <= 0xffff -> u16 (2 ^ 32 - 1 - acc) = 0xffff - acc.
Proof.
  intros Ha. unfold u16, wrap. symmetry. apply (Z.mod_unique _ _ (2 ^ 16 - 1)); lia.
Qed.

Lemma ip_checksum_insert ws k c len :
  ws !! k = Some 0 -> len / 2 = zlen ws -> ip_checksum ws len = Ok c ->
  fits 16 c /\ ip_checksum (<[k := c]> ws) len = Ok 0.
Proof.
  intros Hk Hlen. unfold ip_checksum. rewrite zlen_insert, Hlen.
  destruct (Z.ltb_spec (zlen ws) (zlen ws)); [lia|].
  rewrite !ztake_all by (by rewrite ?zlen_insert). intros [= <-].
  destruct (ip_fold_spec ws 0xffff ltac:(lia)) as [Hr [a Ha]].
  set (c := htons _). split; [apply wrap_fits; lia|].
  destruct (ip_fold_spec (<[k := c]> ws) 0xffff ltac:(lia)) as [Hr' [b Hb]].
  rewrite (sum16_insert _ _ _ Hk) in Hb. unfold c in Hb at 2.
  rewrite ntohs_htons in Hb by (apply wrap_fits; lia).
  rewrite (ip_complement (fold_left ip_acc ws 0xffff)) in Hb by done.
  assert (fold_left ip_acc (<[k := c]> ws) 0xffff = 0xffff) as -> by lia.
  reflexivity.
Qed.

(** A frame on the wire. *)
Definition ethernet_frame (mac_dst mac_src : list Z) (type : Z) (payload : list Z) : list Z :=
  let covered := mac_dst ++ mac_src ++ le16_bytes (htons type) ++ payload in
  covered ++ le32_bytes (htonl (crc32 covered)).

Lemma ethernet_fill_spec h payload t rest mac_dst mac_src type plen :
  zlen h = 14 -> zlen payload = plen -> zlen t = 4 ->
  zlen mac_dst = 6 -> zlen mac_src = 6 ->
  ethernet_fill (h ++ payload ++ t ++ rest) mac_dst mac_src type plen =
    Ok (ethernet_frame mac_dst mac_src type payload ++ rest).
Proof.
  intros Hh Hp Ht Hd Hs. unfold ethernet_fill, ethernet_frame.
  destruct (cut_list 6 h) as (h1 & h23 & -> & Hh1 & Hh23); [lia|].
  destruct (cut_list 6 h23) as (h2 & h3 & -> & Hh2 & Hh3); [lia|].
  rewrite <- !app_assoc.
  rewrite (memcpy_at_app [] h1 (h2 ++ h3 ++ payload ++ t ++ rest)) by (first [reflexivity | lia]).
  cbn [mbind outcome_bind app]. rewrite (ztake_all 6 mac_dst) by lia.
  rewrite (memcpy_at_app mac_dst h2) by lia.
  cbn [mbind outcome_bind]. rewrite (ztake_all 6 mac_src) by lia.
  set (ty := le16_bytes (htons type)). assert (Hty : zlen ty = 2) by done.
  rewrite (app_assoc mac_dst mac_src).
  rewrite (memcpy_at_app (mac_dst ++ mac_src) h3) by (rewrite ?zlen_app; lia).
  cbn [mbind outcome_bind]. rewrite (ztake_all 2 ty) by lia.
  set (covered := mac_dst ++ mac_src ++ ty ++ payload).
  assert (Hc : zlen covered = 14 + plen) by (unfold covered; rewrite !zlen_app; lia).
  replace ((mac_dst ++ mac_src) ++ ty ++ payload ++ t ++ rest) with (covered ++ t ++ rest)
    by (unfold covered; by rewrite <- !app_assoc).
  rewrite bytes_at_app by done. cbn [mbind outcome_bind].
  rewrite (memcpy_at_app covered t) by (rewrite ?Hc; done).
  rewrite ztake_all by done. unfold covered. by rewrite <- !app_assoc.
Qed.

(** ** Transmitting *)

(** Four page sized buffers and a six byte hardware address. *)
Record net_wf (st : net) : Prop := {
  nw_bufs : zlen (send_buffers st) = 4;
  nw_buf : Forall (fun b => zlen b = 0x1000) (send_buffers st);
  nw_loop : 0 <= send_buffers_loop st <= 4;
  nw_mac : zlen (mac_address st) = 6;
  nw_arp : zlen (arp_table st) = 10
}.

Lemma nic_buffer_ok st :
  net_wf st -> exists buf, aread (send_buffers st) (wrap_loop st) = Ok buf /\
    zlen buf = 0x1000 /\ 0 <= wrap_loop st < 4.
Proof.
  intros [Hn Hb Hl _ _].
  assert (Hr : 0 <= wrap_loop st < 4).
  { unfold wrap_loop. destruct (Z.ltb_spec 3 (send_buffers_loop st)); lia. }
  destruct (znth_Some (send_buffers st) (wrap_loop st)) as [b Hz]; [lia|].
  exists b. rewrite (aread_ok _ _ _ Hz). split_and!; try done; try lia.
  unfold znth in Hz. destruct (0 <=? wrap_loop st); [|done].
  exact (Forall_lookup_1 _ _ _ _ Hb Hz).
Qed.

(** What a successful transmission leaves: the same globals, one more frame. *)
Record sent_frame (frame : list Z) (st st' : net) : Prop := {
  sf_sent : transmitted st' = transmitted st ++ [frame];
  sf_arp : arp_table st' = arp_table st;
  sf_ip : ip_address st' = ip_address st;
  sf_mac : mac_address st' = mac_address st;
  sf_net : gateway st' = gateway st /\ bitmask st' = bitmask st;
  sf_loop : loopback st' = loopback st;
  sf_wf : net_wf st'
}.

Lemma rtl8139_send_data_spec frame size st :
  net_wf st -> zlen frame = size -> size <= 0x1000 ->
  exists st', rtl8139_send_data frame size st = Ok st' /\ sent_frame frame st st'.
Proof.
  intros Hw Hz Hs. pose proof (zlen_nonneg frame).
  unfold rtl8139_send_data. rewrite u16_small by lia. cbn [rtl8139_send_fuel].
  destruct (Z.ltb_spec 0x1000 size); [lia|]. unfold send_page.
  destruct (nic_buffer_ok st Hw) as (buf & -> & Hb & Hr). cbn [mbind outcome_bind].
  destruct (cut_list size buf) as (b1 & b2 & -> & H1 & H2); [lia|].
  rewrite (memcpy_at_app [] b1 b2) by (first [reflexivity | lia]).
  cbn [mbind outcome_bind app]. rewrite ztake_all by lia.
  rewrite awrite_ok by (destruct Hw; lia). cbn [mbind outcome_bind].
  rewrite bytes_at_app by lia. cbn [mbind outcome_bind].
  eexists. split; [reflexivity|]. destruct Hw. split; try done. split; cbn; try done.
  - by rewrite zlen_insert.
  - apply Forall_insert; [done|]. rewrite zlen_app in *. lia.
  - lia.
Qed.

Lemma send_ethernet_packet_spec mac_dst type payload plen st :
  net_wf st -> zlen mac_dst = 6 -> 0 <= plen -> 14 + plen + 4 < 0x1000 ->
  plen <= zlen payload -> mac_dst <> mac_address st ->
  exists st', send_ethernet_packet mac_dst type payload plen st = Ok st' /\
    sent_frame (ethernet_frame mac_dst (mac_address st) type (ztake plen payload)) st st'.
Proof.
  intros Hw Hd Hp Hmax Hpl Hne. unfold send_ethernet_packet.
  destruct (Z.ltb_spec (14 + plen + 4) 0x1000); [|lia]. cbn [c_assert mbind outcome_bind].
  replace (replicate (Z.to_nat (14 + plen + 4)) 0)
    with (replicate 14 0 ++ replicate (Z.to_nat plen) 0 ++ replicate 4 0)
    by (rewrite <- !replicate_add; f_equal; lia).
  rewrite memcpy_at_app by zlia. cbn [mbind outcome_bind].
  rewrite <- (app_nil_r (replicate 4 0)).
  rewrite ethernet_fill_spec; [|done|by rewrite zlen_ztake by lia|done|done|by destruct Hw].
  cbn [mbind outcome_bind]. rewrite app_nil_r.
  assert (Hm : slice 6 6 (ethernet_frame mac_dst (mac_address st) type (ztake plen payload))
                 = mac_address st).
  { unfold ethernet_frame, slice. rewrite <- !app_assoc.
    rewrite zdrop_app_exact by lia. apply ztake_app_exact. by destruct Hw. }
  rewrite Hm, ztake_all, bool_decide_eq_false_2 by done.
  apply rtl8139_send_data_spec; [done| |lia].
  unfold ethernet_frame. rewrite !zlen_app, zlen_ztake by lia. destruct Hw.
  unfold le16_bytes, le32_bytes. zlia.
Qed.

(** ** Receiving what was sent *)

Lemma zlen_cons2 {A} (x : A) l : zlen (x :: l) = 1 + zlen l.
Proof. zlia. Qed.

Lemma words16_bytes ws rest :
  Forall (fits 16) ws -> words16 (words_bytes ws ++ rest) = ws ++ words16 rest.
Proof.
  induction 1 as [|w ws Hw _ IH]; [done|].
  change (words_bytes (w :: ws)) with (le16_bytes w ++ words_bytes ws).
  unfold le16_bytes. cbn [app words16]. rewrite IH. by rewrite le16_le16_bytes.
Qed.

Lemma land_16 x : Z.land x 0xFFFF = x mod 2 ^ 16.
Proof. exact (Z.land_ones x 16 ltac:(lia)). Qed.

Lemma lor_f8 p : fits 8 p -> Z.lor (u16 (Z.shiftl p 8)) 0xF8 = 0xF8 + p * 2 ^ 8.
Proof.
  unfold fits. intros Hp. rewrite Z.shiftl_mul_pow2, u16_small, Z.lor_comm by lia.
  apply lor_disjoint_add; unfold fits; lia.
Qed.

Lemma ipv4_header0_fits my_ip ip protocol length :
  fits 8 protocol -> Forall (fits 16) (ipv4_header0 my_ip ip protocol length).
Proof.
  intros Hp. unfold ipv4_header0. rewrite lor_f8 by done. rewrite !land_16.
  unfold fits in *. repeat constructor; try done; try (apply Z.mod_pos_bound; lia); lia.
Qed.

Lemma ipv4_header_ok my_ip ip protocol length :
  exists c, ipv4_header my_ip ip protocol length =
      Ok (<[5%nat := c]> (ipv4_header0 my_ip ip protocol length)) /\
    ip_checksum (ipv4_header0 my_ip ip protocol length) 20 = Ok c /\ fits 16 c.
Proof.
  unfold ipv4_header. destruct (ip_checksum _ 20) as [c| | |] eqn:E; try done.
  exists c. split_and!; try done.
  by destruct (ip_checksum_insert (ipv4_header0 my_ip ip protocol length) 5 c 20).
Qed.

Lemma le32_words x : fits 32 x ->
  le32 (x mod 2 ^ 16 mod 2 ^ 8) (x mod 2 ^ 16 / 2 ^ 8 mod 2 ^ 8)
    (x / 2 ^ 16 mod 2 ^ 16 mod 2 ^ 8) (x / 2 ^ 16 mod 2 ^ 16 / 2 ^ 8 mod 2 ^ 8) = x.
Proof.
  intros [Hx1 Hx2]. unfold le32.
  change (2 ^ 8) with 256 in *. change (2 ^ 16) with 65536 in *.
  change (2 ^ 24) with 16777216 in *. change (2 ^ 32) with 4294967296 in *.
  Z.to_euclidean_division_equations. lia.
Qed.

(** The call [handle_ipv4] makes for a packet of this protocol. *)
Definition ipv4_dispatch (protocol src_ip dst_ip : Z) (payload : list Z) (length : Z)
  : ipv4_event :=
  if protocol =? 0x6 then IpTcp src_ip dst_ip payload length
  else if protocol =? 0x11 then IpUdp src_ip dst_ip payload length
  else IpUnknown protocol.

Lemma handle_ipv4_header my_ip ip protocol length rest n h :
  fits 32 my_ip -> fits 32 ip -> fits 8 protocol -> 0 <= length ->
  length + 20 < 2 ^ 16 -> length + 20 <= n ->
  ipv4_header my_ip ip protocol length = Ok h ->
  handle_ipv4 (words_bytes h ++ rest) n =
    Ok (ipv4_dispatch protocol my_ip ip rest length).
Proof.
  intros Hm Hi Hp Hl Hlm Hn Hh.
  destruct (ipv4_header_ok my_ip ip protocol length) as (c & E & Hc & Hcf).
  rewrite E in Hh. injection Hh as <-.
  pose proof (ipv4_header0_fits my_ip ip protocol length Hp) as Hf.
  assert (Hck : ip_checksum (words16 (words_bytes (ipv4_header0 my_ip ip protocol length)
                  ++ rest)) 20 = Ok c).
  { rewrite words16_bytes by done. rewrite <- Hc. unfold ip_checksum.
    change (20 / 2) with 10. rewrite zlen_app.
    change (zlen (ipv4_header0 my_ip ip protocol length)) with 10.
    pose proof (zlen_nonneg (words16 rest)).
    destruct (Z.ltb_spec (10 + zlen (words16 rest)) 10); [lia|].
    rewrite ztake_app_exact by done. by rewrite ztake_all by done. }
  unfold handle_ipv4. destruct (Z.ltb_spec 4 n); [|lia]. cbn [c_assert mbind outcome_bind].
  change (le16_at _ 10) with (Ok (le16 (c mod 2 ^ 8) (c / 2 ^ 8 mod 2 ^ 8))).
  rewrite le16_le16_bytes by done. cbn [mbind outcome_bind].
  rewrite awrite_ok by (rewrite zlen_app; pose proof (zlen_nonneg rest);
    change (zlen (words_bytes _)) with 20; lia). cbn [mbind outcome_bind].
  rewrite awrite_ok by (rewrite zlen_insert, zlen_app; pose proof (zlen_nonneg rest);
    change (zlen (words_bytes _)) with 20; lia). cbn [mbind outcome_bind].
  change (<[Z.to_nat 11:=0]> _) with
    (words_bytes (ipv4_header0 my_ip ip protocol length) ++ rest).
  rewrite Hck. cbn [mbind outcome_bind]. rewrite Z.eqb_refl. cbn [negb].
  unfold ipv4_header0. rewrite lor_f8, !land_16, !Z.shiftr_div_pow2 by (done || lia).
  set (l := words_bytes _ ++ rest).
  change (aread l 0) with (Ok 0x45). cbn [mbind outcome_bind].
  change (le16_at l 2) with (Ok (le16 (htons (u16 (length + 20)) mod 2 ^ 8)
     (htons (u16 (length + 20)) / 2 ^ 8 mod 2 ^ 8))).
  rewrite le16_le16_bytes by (apply wrap_fits; lia). cbn [mbind outcome_bind c_assert Z.land Z.shiftr Z.eqb].
  rewrite u16_small, ntohs_htons by (unfold fits; lia).
  change (c_assert (4 =? 4)) with (Ok tt). change (c_assert (5 =? 5)) with (Ok tt).
  cbn [mbind outcome_bind].
  destruct (Z.leb_spec 20 (length + 20)); [|lia].
  destruct (Z.leb_spec (length + 20) n); [|lia]. cbn [c_assert mbind outcome_bind].
  change (le32_at l 12) with (Ok (le32 (my_ip mod 2 ^ 16 mod 2 ^ 8)
    (my_ip mod 2 ^ 16 / 2 ^ 8 mod 2 ^ 8) (my_ip / 2 ^ 16 mod 2 ^ 16 mod 2 ^ 8)
    (my_ip / 2 ^ 16 mod 2 ^ 16 / 2 ^ 8 mod 2 ^ 8))).
  change (le32_at l 16) with (Ok (le32 (ip mod 2 ^ 16 mod 2 ^ 8)
    (ip mod 2 ^ 16 / 2 ^ 8 mod 2 ^ 8) (ip / 2 ^ 16 mod 2 ^ 16 mod 2 ^ 8)
    (ip / 2 ^ 16 mod 2 ^ 16 / 2 ^ 8 mod 2 ^ 8))).
  change (aread l 9) with (Ok ((248 + protocol * 2 ^ 8) / 2 ^ 8 mod 2 ^ 8)).
  cbn [mbind outcome_bind]. rewrite !le32_words by done.
  rewrite Z.div_add, Z.div_small, Z.mod_small by (unfold fits in Hp; lia).
  change (zdrop 20 l) with rest.
  replace (length + 20 - 20) with length by lia. reflexivity.
Qed.

Lemma handle_ethernet_frame mac_dst mac_src payload n :
  zlen mac_dst = 6 -> zlen mac_src = 6 -> 14 <= n < 2 ^ 32 ->
  exists crc, zlen crc = 4 /\
    handle_ethernet (ethernet_frame mac_dst mac_src 0x0800 payload) n =
      Ok (EthIpv4 (payload ++ crc) (n - 14)).
Proof.
  intros Hd Hs Hn. unfold handle_ethernet, ethernet_frame.
  set (crc := le32_bytes _). exists crc. split; [done|].
  set (pre := mac_dst ++ mac_src).
  assert (Hz : zlen pre = 12) by (unfold pre; rewrite zlen_app; lia).
  assert (Hf : (mac_dst ++ mac_src ++ le16_bytes (htons 0x0800) ++ payload) ++ crc =
    pre ++ le16_bytes (htons 0x0800) ++ payload ++ crc)
    by (unfold pre; by rewrite <- !app_assoc).
  rewrite Hf. clear Hf.
  assert (Ht : le16_at (pre ++ le16_bytes (htons 0x0800) ++ payload ++ crc) 12
                 = Ok (htons 0x0800)).
  { unfold le16_at, aread. rewrite (znth_app_r pre _ 12), (znth_app_r pre _ (12 + 1)) by lia.
    rewrite Hz. reflexivity. }
  rewrite Ht. cbn [mbind outcome_bind]. rewrite u32_small by lia.
  rewrite app_assoc, zdrop_app_exact by (rewrite zlen_app, Hz; done). reflexivity.
Qed.

Lemma ipv4_send_receive_spec st i irq ip protocol payload length mac :
  net_wf st -> fits 32 (ip_address st) -> fits 32 ip -> fits 8 protocol ->
  0 <= length <= zlen payload -> 14 + (20 + length) + 4 < 0x1000 ->
  get_mac_from_ip i ip st = Ok (st, Some mac) -> zlen mac = 6 -> mac <> mac_address st ->
  exists st' frame packet crc,
    send_ipv4_packet (i :: irq) ip protocol payload length st = Ok st' /\
    sent_frame frame st st' /\
    handle_ethernet frame (zlen frame) = Ok (EthIpv4 packet (zlen packet)) /\
    handle_ipv4 packet (zlen packet) =
      Ok (ipv4_dispatch protocol (ip_address st) ip (ztake length payload ++ crc) length).
Proof.
  intros Hw Hm Hi Hp Hl Hmax Hmac Hml Hne. unfold send_ipv4_packet.
  destruct (ipv4_header_ok (ip_address st) ip protocol length) as (c & Hh & _ & _).
  rewrite Hh. cbn [mbind outcome_bind]. set (h := <[5%nat := c]> _) in *.
  assert (Hhz : zlen (words_bytes h) = 20) by done.
  rewrite u16_small by lia. destruct (Z.ltb_spec (length + 20) 0x1000); [|lia].
  cbn [c_assert mbind outcome_bind].
  replace (replicate 4096 0) with
    (replicate 20 0 ++ replicate (Z.to_nat length) 0 ++ replicate (Z.to_nat (4076 - length)) 0)
    by (rewrite <- !replicate_add; f_equal; lia).
  rewrite (memcpy_at_app [] (replicate 20 0)
    (replicate (Z.to_nat length) 0 ++ replicate (Z.to_nat (4076 - length)) 0))
    by (first [reflexivity | lia]).
  cbn [mbind outcome_bind app]. rewrite (ztake_all 20) by done.
  rewrite memcpy_at_app by zlia. cbn [mbind outcome_bind await_mac]. rewrite Hmac.
  cbn [mbind outcome_bind].
  set (tail := replicate _ 0).
  set (body := words_bytes h ++ ztake length payload).
  assert (Hbz : zlen body = length + 20)
    by (unfold body; rewrite zlen_app, zlen_ztake by lia; lia).
  replace (words_bytes h ++ ztake length payload ++ tail) with (body ++ tail)
    by (unfold body; by rewrite <- app_assoc).
  destruct (send_ethernet_packet_spec mac 0x0800 (body ++ tail) (length + 20) st)
    as (st' & Hs & Hf); try done; try lia.
  { rewrite zlen_app. pose proof (zlen_nonneg tail). lia. }
  rewrite ztake_app_exact in Hf by lia.
  destruct (handle_ethernet_frame mac (mac_address st) body (18 + (length + 20)))
    as (crc & Hcz & He); [done|by destruct Hw|lia|].
  set (frame := ethernet_frame _ _ _ _) in *.
  assert (Hfz : zlen frame = 18 + (length + 20)).
  { unfold frame, ethernet_frame. rewrite !zlen_app, Hbz. destruct Hw.
    unfold le16_bytes, le32_bytes. zlia. }
  assert (Hpz : zlen (body ++ crc) = 18 + (length + 20) - 14) by (rewrite zlen_app; lia).
  exists st', frame, (body ++ crc), crc. rewrite Hfz, Hpz. split_and!; try done.
  unfold body. rewrite <- app_assoc.
  apply handle_ipv4_header; try done; lia.
Qed.

(** An IPv4 packet sent to a machine whose hardware address is known leaves
    as exactly one frame, and a receiver that runs the same code over that
    frame accepts the checksum and hands the right layer the sender's address,
    the destination, the payload length and, at the front of its buffer, the
    payload. *)
Theorem ipv4_send_receive st i irq ip protocol payload length mac :
  net_wf st -> fits 32 (ip_address st) -> fits 32 ip -> fits 8 protocol ->
  0 <= length <= zlen payload -> 14 + (20 + length) + 4 < 0x1000 ->
  get_mac_from_ip i ip st = Ok (st, Some mac) -> zlen mac = 6 -> mac <> mac_address st ->
  exists st' frame packet crc,
    send_ipv4_packet (i :: irq) ip protocol payload length st = Ok st' /\
    sent_frame frame st st' /\
    handle_ethernet frame (zlen frame) = Ok (EthIpv4 packet (zlen packet)) /\
    handle_ipv4 packet (zlen packet) =
      Ok (ipv4_dispatch protocol (ip_address st) ip (ztake length payload ++ crc) length).
Proof. apply ipv4_send_receive_spec. Qed.

(** The checksum in every header that is sent makes the one's complement
    sum over the complete header zero, which is how any receiver verifies it. *)
Theorem ipv4_header_checksum_valid my_ip ip protocol length :
  exists h, ipv4_header my_ip ip protocol length = Ok h /\ zlen h = 10 /\
    ip_checksum h 20 = Ok 0.
Proof.
  destruct (ipv4_header_ok my_ip ip protocol length) as (c & Hh & Hc & _).
  eexists. split_and!; [exact Hh|done|].
  by apply (ip_checksum_insert (ipv4_header0 my_ip ip protocol length) 5 c 20).
Qed.

(** The table driven CRC of a frame is the bit by bit CRC-32 of its bytes. *)
Theorem crc32_is_bitwise buf :
  Forall (fits 8) buf -> crc32 buf = 2 ^ 32 - 1 - fold_left crc_octet_bitwise buf 0xFFFFFFFF.
Proof.
  intros Hb. unfold crc32. f_equal.
  assert (Hc : 0 <= 0xFFFFFFFF) by lia. revert Hc. generalize 0xFFFFFFFF.
  induction Hb as [|b buf Hb _ IH]; intros crc Hc; [done|]. cbn [fold_left].
  rewrite crc_octet_ok by done. apply IH. by apply crc_octet_bitwise_nonneg.
Qed.

(** ** The ARP cache *)

Lemma find_unused_spec t i :
  match find_unused t i with
  | Some j => exists k e, j = (i + k)%nat /\ t !! k = Some e /\ is_used e = false
  | None => Forall (fun e => is_used e = true) t
  end.
Proof.
  revert i. induction t as [|e t IH]; intros i; cbn [find_unused]; [done|].
  destruct (is_used e) eqn:E.
  - specialize (IH (S i)). destruct (find_unused t (S i)) as [j|].
    + destruct IH as (k & e' & -> & Hk & He). exists (S k), e'. split_and!; try done. lia.
    + by constructor.
  - exists 0%nat, e. split_and!; (done || lia).
Qed.

Lemma find_arp_bound st : net_wf st -> (find_arp_entry_to_use st < 10)%nat.
Proof.
  intros [_ _ _ _ Ha]. unfold find_arp_entry_to_use.
  pose proof (find_unused_spec (take 10 (arp_table st)) 0) as H.
  destruct (find_unused _ _) as [j|]; cbn [default from_option id]; [|lia].
  destruct H as (k & e & -> & Hk & _). apply lookup_lt_Some in Hk.
  rewrite length_take in Hk. lia.
Qed.

Lemma arp_learn_ok srchw srcpr st :
  net_wf st -> arp_learn srchw srcpr st =
    Ok (set_arp_table (<[find_arp_entry_to_use st := mkArpEntry true srchw srcpr]>
          (arp_table st)) st).
Proof.
  intros Hw. pose proof (find_arp_bound st Hw). unfold arp_learn.
  rewrite awrite_ok by (destruct Hw; lia). cbn [mbind outcome_bind]. by rewrite Nat2Z.id.
Qed.

Lemma arp_lookup_insert t k mac ip :
  (k < length t)%nat -> Forall (fun e => a_ip e <> ip) (take k t) ->
  arp_lookup (<[k := mkArpEntry true mac ip]> t) ip = Some mac.
Proof.
  revert k. induction t as [|e t IH]; intros [|k] Hk Hf; cbn in Hk; try lia.
  - cbn [arp_lookup insert list_insert]. cbn [a_ip a_mac]. by rewrite bool_decide_eq_true_2.
  - cbn [take] in Hf. inversion Hf as [|? ? He Hf']; subst.
    change (<[S k := ?x]> (e :: t)) with (e :: <[k := x]> t). cbn [arp_lookup].
    rewrite bool_decide_eq_false_2 by done. apply IH; [lia|done].
Qed.

Lemma arp_reply_fields srchw srcpr dsthw dstpr opcode :
  zlen srchw = 6 -> zlen srcpr = 4 -> zlen dsthw = 6 -> zlen dstpr = 4 ->
  bytes_at (arp_data opcode srchw srcpr dsthw dstpr) 8 6 = Ok srchw /\
  bytes_at (arp_data opcode srchw srcpr dsthw dstpr) 14 4 = Ok srcpr.
Proof.
  intros H1 H2 H3 H4. unfold bytes_at, arp_data.
  rewrite !zlen_app, H1, H2, H3, H4. change (zlen (le16_bytes _)) with 2.
  change (zlen [6; 4]) with 2. cbn [andb Z.leb Z.compare].
  change (_ ++ _ ++ [6; 4] ++ le16_bytes (htons opcode) ++ ?x)
    with ((le16_bytes (htons 1) ++ le16_bytes (htons 0x0800) ++ [6; 4] ++
           le16_bytes (htons opcode)) ++ x).
  set (pre := le16_bytes (htons 1) ++ _). assert (Hp : zlen pre = 8) by done.
  split; unfold slice.
  - rewrite zdrop_app_exact by done. by rewrite ztake_app_exact.
  - rewrite app_assoc, zdrop_app_exact by (rewrite zlen_app; lia).
    by rewrite ztake_app_exact.
Qed.

(** An ARP reply enters the sender's addresses in a free slot of the cache
    (or in the first one when all ten are taken), and from then on
    [get_mac_from_ip] answers with them, unless an entry before that slot has
    the same protocol address. *)
Theorem arp_reply_learned st srchw ip dsthw dstpr i :
  net_wf st -> zlen srchw = 6 -> fits 32 ip -> zlen dsthw = 6 -> zlen dstpr = 4 ->
  htonl 2130706433 <> ip -> ip_address st <> ip -> ip_inside_network ip st = true ->
  Forall (fun e => a_ip e <> le32_bytes ip) (take (find_arp_entry_to_use st) (arp_table st)) ->
  exists st', handle_arp (arp_data 2 srchw (le32_bytes ip) dsthw dstpr) st = Ok st' /\
    net_wf st' /\ get_mac_from_ip i ip st' = Ok (st', Some srchw).
Proof.
  intros Hw Hs Hi Hd Hdp Hl Hself Hin Hfree.
  destruct (arp_reply_fields srchw (le32_bytes ip) dsthw dstpr 2) as [H1 H2]; try done.
  unfold handle_arp.
  change (le16_at (arp_data _ _ _ _ _) 0) with (Ok (htons 1)).
  change (le16_at (arp_data _ _ _ _ _) 2) with (Ok (htons 0x0800)).
  change (aread (arp_data _ _ _ _ _) 4) with (Ok 6).
  change (aread (arp_data _ _ _ _ _) 5) with (Ok 4).
  change (le16_at (arp_data _ _ _ _ _) 6) with (Ok (htons 2)).
  rewrite H1, H2.
  change (ntohs (htons 1) =? 1) with true. change (ntohs (htons 2048) =? 0x0800) with true.
  change (ntohs (htons 2) =? 1) with false. change (ntohs (htons 2) =? 2) with true.
  change (6 =? 6) with true. change (4 =? 4) with true.
  cbn [c_assert mbind outcome_bind]. rewrite arp_learn_ok by done.
  eexists. split; [reflexivity|].
  pose proof (find_arp_bound st Hw). destruct Hw as [? ? ? ? Ha]. split.
  - split; try done. cbn [arp_table set_arp_table]. by rewrite zlen_insert.
  - unfold get_mac_from_ip. cbn [get_mac_fuel].
    cbn [ip_address arp_table mac_address set_arp_table].
    destruct (Z.eqb_spec (htonl 2130706433) ip); [done|].
    destruct (Z.eqb_spec (ip_address st) ip); [done|]. cbn [orb].
    change (ip_inside_network ip (set_arp_table _ st)) with (ip_inside_network ip st).
    rewrite Hin. cbn [negb]. rewrite take_ge by (rewrite length_insert; unfold zlen in Ha; lia).
    rewrite arp_lookup_insert; [done|unfold zlen in Ha; lia|done].
Qed.

(** Resolving an address never recurses more than once: whatever the
    configuration, the gateway is inside the network, so that a call outside
    the network ends with the lookup of the gateway. *)
Theorem get_mac_from_ip_terminates i ip st : fuelled (get_mac_from_ip i ip st).
Proof.
  assert (Hsend : forall ip st, fuelled (send_arp_request ip st)).
  { intros ip' st'. unfold send_arp_request, send_ethernet_packet, ethernet_fill,
      nic_get_buffer. fuelled.
    all: unfold bytes_at; case_goal; fuelled. }
  assert (H1 : forall ip, ip_inside_network ip st = true ->
    forall n, fuelled (get_mac_fuel (S n) i ip st)).
  { intros ip' Hin n. cbn [get_mac_fuel]. rewrite Hin. cbn [negb].
    case_goal; [fuelled|]. case_goal; fuelled. }
  destruct (ip_inside_network ip st) eqn:Hin; [by apply H1|].
  unfold get_mac_from_ip. change 2%nat with (S 1). cbn [get_mac_fuel]. rewrite Hin. cbn [negb].
  case_goal; [fuelled|]. exact (H1 (gateway st) (Z.eqb_refl _) 0%nat).
Qed.

(** ** Packets built in place *)

(** [st1] is [st] but for the buffers, and the current buffer holds [buf]. *)
Record nic_holds (st st1 : net) (buf : list Z) : Prop := {
  nh_same : set_nic (send_buffers st) (send_buffers_loop st) (transmitted st) st1 = st;
  nh_sent : transmitted st1 = transmitted st;
  nh_wf : net_wf st1;
  nh_loop : 0 <= send_buffers_loop st1 < 4;
  nh_buf : znth (send_buffers st1) (send_buffers_loop st1) = Some buf
}.

Lemma nic_holds_size st st1 buf : nic_holds st st1 buf -> zlen buf = 0x1000.
Proof.
  intros [_ _ Hw Hl Hb]. unfold znth in Hb. destruct (0 <=? _); [|done].
  exact (Forall_lookup_1 _ _ _ _ (nw_buf _ Hw) Hb).
Qed.

Lemma set_nic_same st : set_nic (send_buffers st) (send_buffers_loop st) (transmitted st) st = st.
Proof. by destruct st. Qed.

Lemma nic_get_buffer_ok st :
  net_wf st -> exists st1 buf, nic_get_buffer st = Ok (st1, buf) /\ nic_holds st st1 buf.
Proof.
  intros Hw. destruct (nic_buffer_ok st Hw) as (buf & Hr & Hz & Hl). unfold nic_get_buffer.
  rewrite Hr. cbn [mbind outcome_bind]. eexists _, buf. split; [done|].
  split; try done.
  - by destruct st.
  - destruct Hw. split; try done. cbn [send_buffers_loop set_nic]. lia.
  - cbn [send_buffers send_buffers_loop set_nic]. unfold aread in Hr.
    destruct (znth _ _); [|done]. by injection Hr as ->.
Qed.

Lemma nic_get_buffer_again st st1 buf :
  nic_holds st st1 buf -> exists st2, nic_get_buffer st1 = Ok (st2, buf) /\ nic_holds st st2 buf.
Proof.
  intros Hh. pose proof Hh as [Hs Ht Hw Hl Hb]. unfold nic_get_buffer, wrap_loop.
  destruct (Z.ltb_spec 3 (send_buffers_loop st1)); [lia|].
  rewrite (aread_ok _ _ _ Hb). cbn [mbind outcome_bind]. rewrite set_nic_same.
  by exists st1.
Qed.

Lemma nic_store_ok st st1 b0 buf :
  nic_holds st st1 b0 -> zlen buf = 0x1000 ->
  exists st2, nic_store buf st1 = Ok st2 /\ nic_holds st st2 buf.
Proof.
  intros [Hs Ht [W1 W2 W3 W4 W5] Hl Hb] Hz. unfold nic_store. rewrite awrite_ok by lia.
  cbn [mbind outcome_bind]. eexists. split; [done|]. split; try done.
  - split; try done; cbn [send_buffers set_nic].
    + by rewrite zlen_insert.
    + by apply Forall_insert.
  - cbn [send_buffers send_buffers_loop set_nic].
    unfold znth. destruct (Z.leb_spec 0 (send_buffers_loop st1)); [|lia].
    apply list_lookup_insert_eq. unfold zlen in W1. lia.
Qed.

Lemma nic_send_buffer_ok st st1 frame rest size :
  nic_holds st st1 (frame ++ rest) -> size = zlen frame ->
  exists st2, nic_send_buffer size st1 = Ok st2 /\ sent_frame frame st st2.
Proof.
  intros Hh Hz. pose proof (nic_holds_size _ _ _ Hh) as Hb. destruct Hh as [Hs Ht Hw Hl Hbuf].
  rewrite zlen_app in Hb. pose proof (zlen_nonneg frame). pose proof (zlen_nonneg rest).
  unfold nic_send_buffer. rewrite (aread_ok _ _ _ Hbuf). cbn [mbind outcome_bind].
  rewrite u16_small, bytes_at_app by lia. cbn [mbind outcome_bind].
  eexists. split; [done|]. rewrite Ht. rewrite <- Hs. destruct Hw. split; try done.
  split; try done. cbn [send_buffers_loop set_nic].
  destruct (Z.ltb_spec 3 (send_buffers_loop st1 + 1)); lia.
Qed.

(** The hardware address of [ip] is in the cache. *)
Record arp_known (st : net) (ip : Z) (mac : list Z) : Prop := {
  ak_remote : htonl 2130706433 <> ip /\ ip_address st <> ip;
  ak_inside : ip_inside_network ip st = true;
  ak_entry : arp_lookup (take 10 (arp_table st)) (le32_bytes ip) = Some mac;
  ak_mac : zlen mac = 6 /\ mac <> mac_address st
}.

Lemma get_mac_known i st ip mac :
  arp_known st ip mac -> get_mac_from_ip i ip st = Ok (st, Some mac).
Proof.
  intros [[H1 H2] H3 H4 _]. unfold get_mac_from_ip. cbn [get_mac_fuel].
  destruct (Z.eqb_spec (htonl 2130706433) ip); [done|].
  destruct (Z.eqb_spec (ip_address st) ip); [done|]. cbn [orb].
  by rewrite H3, H4.
Qed.

Lemma arp_known_holds st st1 buf ip mac :
  nic_holds st st1 buf -> arp_known st ip mac -> arp_known st1 ip mac.
Proof. intros [<- _ _ _ _] [H1 H2 H3 H4]. by split. Qed.

Lemma send_ethernet_packet2_spec st st1 mac type h p t rest plen :
  nic_holds st st1 (h ++ p ++ t ++ rest) -> zlen h = 14 -> zlen p = plen -> zlen t = 4 ->
  zlen mac = 6 -> mac <> mac_address st -> plen + 18 < 0x1000 ->
  exists st2, send_ethernet_packet2 mac type plen st1 = Ok st2 /\
    sent_frame (ethernet_frame mac (mac_address st) type p) st st2.
Proof.
  intros Hh Hhz Hp Ht Hm Hne Hmax. unfold send_ethernet_packet2.
  destruct (Z.ltb_spec (14 + plen + 4) 0x1000); [|lia]. cbn [c_assert mbind outcome_bind].
  destruct (nic_get_buffer_again _ _ _ Hh) as (st2 & -> & Hh2). cbn [mbind outcome_bind].
  rewrite (memcpy_at_app [] h (p ++ t ++ rest)) by (first [reflexivity | lia | done]).
  cbn [mbind outcome_bind app]. change (ztake 14 (replicate 14 0)) with (replicate 14 0).
  assert (Hmac : mac_address st2 = mac_address st) by (by destruct Hh2 as [<-]).
  assert (Hmz : zlen (mac_address st) = 6) by (rewrite <- Hmac; apply Hh2).
  rewrite Hmac, ethernet_fill_spec by done. cbn [mbind outcome_bind].
  set (frame := ethernet_frame mac (mac_address st) type p).
  assert (Hfz : zlen frame = 14 + plen + 4).
  { unfold frame, ethernet_frame. rewrite !zlen_app, Hm, Hmz, Hp.
    unfold le16_bytes, le32_bytes. zlia. }
  destruct (nic_store_ok _ _ _ (frame ++ rest) Hh2) as (st3 & -> & Hh3).
  { pose proof (nic_holds_size _ _ _ Hh) as Hz. rewrite !zlen_app in *. lia. }
  cbn [mbind outcome_bind].
  assert (Hs : slice 6 6 (frame ++ rest) = mac_address st).
  { unfold frame, ethernet_frame, slice. rewrite <- !app_assoc.
    rewrite zdrop_app_exact by lia. by apply ztake_app_exact. }
  rewrite Hs, ztake_all, bool_decide_eq_false_2 by done.
  apply nic_send_buffer_ok with rest; done.
Qed.

Lemma send_ipv4_packet2_spec i irq st st1 ip protocol mac e h p t rest plen hdr :
  nic_holds st st1 (e ++ h ++ p ++ t ++ rest) -> zlen e = 14 -> zlen h = 20 ->
  zlen p = plen -> zlen t = 4 -> plen + 38 < 0x1000 -> arp_known st ip mac ->
  ipv4_header (ip_address st) ip protocol plen = Ok hdr ->
  exists st2, send_ipv4_packet2 (i :: irq) ip protocol plen st1 = Ok st2 /\
    sent_frame (ethernet_frame mac (mac_address st) 0x0800 (words_bytes hdr ++ p)) st st2.
Proof.
  intros Hh He Hhz Hp Ht Hmax Hk Hhdr. unfold send_ipv4_packet2.
  assert (Hip : ip_address st1 = ip_address st) by (by destruct Hh as [<-]).
  rewrite Hip, Hhdr. cbn [mbind outcome_bind].
  destruct (nic_get_buffer_again _ _ _ Hh) as (st2 & -> & Hh2). cbn [mbind outcome_bind].
  assert (Hwz : zlen (words_bytes hdr) = 20).
  { destruct (ipv4_header_ok (ip_address st) ip protocol plen) as (c & E & _).
    rewrite E in Hhdr. by injection Hhdr as <-. }
  rewrite (memcpy_at_app e h) by lia. cbn [mbind outcome_bind]. rewrite ztake_all by done.
  destruct (nic_store_ok _ _ _ (e ++ words_bytes hdr ++ p ++ t ++ rest) Hh2) as (st3 & -> & Hh3).
  { pose proof (nic_holds_size _ _ _ Hh) as Hz. rewrite !zlen_app in *. lia. }
  cbn [mbind outcome_bind await_mac].
  rewrite (get_mac_known i st3 ip mac) by (by eapply arp_known_holds).
  cbn [mbind outcome_bind]. pose proof (zlen_nonneg p). rewrite u16_small by lia.
  rewrite app_assoc in Hh3. rewrite <- (app_assoc e) in Hh3.
  rewrite (app_assoc (words_bytes hdr)) in Hh3. destruct Hk as [_ _ _ [Hm1 Hm2]].
  eapply send_ethernet_packet2_spec; try exact Hh3; try done.
  - rewrite zlen_app. lia.
  - lia.
Qed.

(** ** Sample states *)

Definition net_sample : net :=
  mkNet (mkArpEntry true [2; 0; 0; 0; 0; 9] [10; 0; 0; 9] ::
         replicate 9 (mkArpEntry false (replicate 6 0) (replicate 4 0)))
    (le32 10 0 0 1) (le32 255 255 255 0) (le32 10 0 0 2) [2; 0; 0; 0; 0; 1]
    (replicate 4 (replicate 4096 0)) 0 [] [].

Lemma net_sample_wf : net_wf net_sample.
Proof.
  split; try done.
  change (send_buffers net_sample) with (replicate 4 (replicate 4096 0)).
  apply Forall_replicate. vm_compute. reflexivity.
Qed.

Lemma ipv4_send_receive_witness :
  exists st' frame packet crc,
    send_ipv4_packet [id] (le32 10 0 0 9) 17 [1; 2; 3] 3 net_sample = Ok st' /\
    sent_frame frame net_sample st' /\
    handle_ethernet frame (zlen frame) = Ok (EthIpv4 packet (zlen packet)) /\
    handle_ipv4 packet (zlen packet) =
      Ok (IpUdp (le32 10 0 0 2) (le32 10 0 0 9) ([1; 2; 3] ++ crc) 3).
Proof.
  destruct (ipv4_send_receive net_sample id [] (le32 10 0 0 9) 17 [1; 2; 3] 3 [2; 0; 0; 0; 0; 9])
    as (st' & frame & packet & crc & H); try done; try apply net_sample_wf.
  exists st', frame, packet, crc. exact H.
Defined.

Lemma crc32_is_bitwise_witness :
  Forall (fits 8) [49; 50; 51; 52; 53; 54; 55; 56; 57] /\
  2 ^ 32 - 1 - fold_left crc_octet_bitwise [49; 50; 51; 52; 53; 54; 55; 56; 57] 0xFFFFFFFF
    = 0xCBF43926.
Proof.
  assert (Hf : Forall (fits 8) [49; 50; 51; 52; 53; 54; 55; 56; 57])
    by (repeat constructor; done).
  split; [exact Hf|]. rewrite <- (crc32_is_bitwise _ Hf). vm_compute. reflexivity.
Defined.

Lemma arp_reply_learned_witness :
  exists st', handle_arp (arp_data 2 [2; 0; 0; 0; 0; 7] (le32_bytes (le32 10 0 0 7))
                            [2; 0; 0; 0; 0; 1] [10; 0; 0; 2]) net_sample = Ok st' /\
    get_mac_from_ip id (le32 10 0 0 7) st' = Ok (st', Some [2; 0; 0; 0; 0; 7]).
Proof.
  destruct (arp_reply_learned net_sample [2; 0; 0; 0; 0; 7] (le32 10 0 0 7)
    [2; 0; 0; 0; 0; 1] [10; 0; 0; 2] id) as (st' & H1 & _ & H2); try done.
  - apply net_sample_wf.
  - vm_compute. repeat constructor; discriminate.
  - exists st'. split; [exact H1|exact H2].
Defined.

(** A packet a program sends to its own machine is not delivered: the frame
    is built in [ethernet_buffer], but what [send_ethernet_packet] passes to
    [handle_ethernet] is the current buffer of the network card. *)
Theorem loopback_delivers_wrong_buffer :
  exists st', send_ipv4_packet [id] (ip_address net_sample) 17 [1; 2; 3] 3 net_sample = Ok st' /\
    loopback st' = [(replicate 4096 0, 41)] /\ transmitted st' = [].
Proof. eexists. split_and!; vm_compute; reflexivity. Qed.

(** A machine that changes its hardware address is never found again while
    its old entry is in the cache: a second reply for the same protocol
    address goes to another slot, and lookups stop at the first. *)
Theorem arp_stale_entry_wins :
  exists st', handle_arp (arp_data 2 [2; 0; 0; 0; 0; 7] [10; 0; 0; 9]
                            [2; 0; 0; 0; 0; 1] [10; 0; 0; 2]) net_sample = Ok st' /\
    get_mac_from_ip id (le32 10 0 0 9) st' = Ok (st', Some [2; 0; 0; 0; 0; 9]).
Proof.
  exists (set_arp_table (<[1%nat := mkArpEntry true [2; 0; 0; 0; 0; 7] [10; 0; 0; 9]]>
            (arp_table net_sample)) net_sample).
  split; reflexivity.
Qed.
