(* ===== verification/Udp.v ===== *)
(** kernel/network/udp.c and the UDP half of kernel/socket.c: datagrams between
    the IPv4 layer and the receive buffer of a connection.

    The receive buffer is a byte queue in which every datagram is stored as a
    length, the address of its sender and the payload; the theorems show that
    it behaves as a queue of whole datagrams. *)

From stdpp Require Import base numbers list gmap.
From Stdlib Require Import ZArith Lia.
From S2P Require Import Prelude Bytes Alloc RingBuffer Net.

Open Scope Z_scope.

Definition EWOULDBLOCK : Z := 6.
Definition EBADF : Z := 8.
Definition ENOMEM : Z := 49.

Record UdpConnection : Type := mkUdp {
  incoming_port : Z;
  incoming_ip : Z;
  outgoing_ip : Z;
  outgoing_port : Z;
  dead : bool;
  incoming_buffer : ringbuffer
}.

Definition set_incoming (con : UdpConnection) (rb : ringbuffer) : UdpConnection :=
  mkUdp (incoming_port con) (incoming_ip con) (outgoing_ip con) (outgoing_port con)
    (dead con) rb.

(** [struct sockaddr_in] as 12 bytes: family, address, port and two bytes of
    padding.  The kernel sets the address and the port of the one it fills in;
    [family] and [pad] are what its stack slot holds. *)
Definition sockaddr_in (family : list Z) (addr port : Z) (pad : list Z) : list Z :=
  family ++ le32_bytes addr ++ le16_bytes port ++ pad.

(** ** udp.c *)

(** [packet] is an array of 0x1000 bytes on the stack; only the part that is
    written is sent. *)
Definition send_udp_packet (irq : list (net -> net)) (src_port dst_addr dst_port : Z)
    (payload : list Z) (payload_length : Z) (st : net) : outcome net :=
  let header := words_bytes [src_port; dst_port; htons (u16 (payload_length + 8)); 0] in
  let packet_length := u16 (8 + payload_length) in
  packet ← memcpy_at (replicate 4096 0) 0 header 0 8;
  packet ← memcpy_at packet 8 payload 0 payload_length;
  send_ipv4_packet irq dst_addr 0x11 packet packet_length st.

(** Index of the connection [udp_find_connection] returns. *)
Fixpoint udp_find (conns : list UdpConnection) (src_port dst_port : Z) (i : nat)
  : option nat :=
  match conns with
  | [] => None
  | c :: conns =>
    if dead c then udp_find conns src_port dst_port (S i) else
    if (incoming_port c =? dst_port) && (outgoing_port c =? src_port) then Some i
    else udp_find conns src_port dst_port (S i)
  end.
Definition udp_find_connection (conns : list UdpConnection) (src_port dst_port : Z)
  : option nat := udp_find conns src_port dst_port 0.

(** Three writes to the receive buffer, or none. *)
Definition udp_enqueue (rb : ringbuffer) (from payload : list Z) (length : Z)
  : outcome ringbuffer :=
  let len := u32 (length - 8 + 12) in
  if ringbuffer_unused rb <? u32 (len + 4) then Ok rb else
  '(rb, _) ← ringbuffer_write rb (le32_bytes len) 4;
  '(rb, _) ← ringbuffer_write rb from 12;
  '(rb, _) ← ringbuffer_write rb (zdrop 8 payload) (length - 8);
  Ok rb.

(** [junk] is the part of the sender's address the kernel does not set. *)
Definition handle_udp (junk : list Z * list Z) (conns : list UdpConnection) (src_ip : Z)
    (payload : list Z) (packet_length : Z) : outcome (list UdpConnection) :=
  if packet_length <? 8 then Ok conns else
  src_port ← le16_at payload 0;
  dst_port ← le16_at payload 2;
  length ← le16_at payload 4;
  _ ← le16_at payload 6;
  let src_port := ntohs src_port in
  let dst_port := ntohs dst_port in
  let length := ntohs length in
  if length <? 8 then Ok conns else
  if negb (length =? packet_length) then Ok conns else
  match udp_find_connection conns src_port dst_port with
  | None => Ok conns
  | Some i =>
    con ← deref (conns !! i);
    rb ← udp_enqueue (incoming_buffer con)
           (sockaddr_in (fst junk) src_ip src_port (snd junk)) payload length;
    Ok (<[i := set_incoming con rb]> conns)
  end.

(** ** socket.c, UDP *)

(** What [udp_recvfrom] returns and writes through the pointers it is given. *)
Record received : Type := mkReceived {
  rc : Z;
  r_data : list Z;
  r_addr : option (list Z);
  r_addrlen : option Z
}.

Definition bytes_le32 (l : list Z) : Z :=
  match l with [a; b; c; d] => le32 a b c d | _ => 0 end.

(** [addrlen] is [None] for a NULL pointer; [src_addr] says whether that
    pointer is not NULL. *)
Definition udp_recvfrom (con : UdpConnection) (len : Z) (src_addr : bool)
    (addrlen : option Z) : outcome (UdpConnection * received) :=
  if dead con then Ok (con, mkReceived (- EBADF) [] None addrlen) else
  '(rb, d, rc) ← ringbuffer_read (incoming_buffer con) true 4;
  if rc =? 0 then Ok (set_incoming con rb, mkReceived (- EWOULDBLOCK) [] None addrlen) else
  c_assert (rc =? 4) ;;
  let packet_length := bytes_le32 (default [] d) in
  c_assert (12 <=? packet_length) ;;
  '(rb, from, _) ← ringbuffer_read rb true 12;
  let from := default [] from in
  let addr := match addrlen with
              | Some n => if src_addr then Some (ztake (Z.min 12 (u32 n)) from) else None
              | None => None
              end in
  let rest := u32 (packet_length - 12) in
  let to_read := Z.min rest len in
  '(rb, data, rc) ← ringbuffer_read rb true to_read;
  '(rb, _, _) ← ringbuffer_read rb false (rest - to_read);
  Ok (set_incoming con rb,
      mkReceived (i32 rc) (default [] data) addr ((fun _ => 12) <$> addrlen)).

Definition udp_read (con : UdpConnection) (len : Z) : outcome (UdpConnection * received) :=
  udp_recvfrom con (u32 len) false None.

Definition udp_write (irq : list (net -> net)) (con : UdpConnection) (buffer : list Z)
    (len : Z) (st : net) : outcome (net * Z) :=
  if dead con then Ok (st, - EBADF) else
  st ← send_udp_packet irq (htons (incoming_port con)) (outgoing_ip con)
         (htons (outgoing_port con)) buffer (u16 len) st;
  Ok (st, i32 len).

Definition udp_has_data (con : UdpConnection) : bool :=
  negb (ringbuffer_isempty (incoming_buffer con)).

Definition udp_close (con : UdpConnection) : UdpConnection :=
  mkUdp (incoming_port con) (incoming_ip con) (outgoing_ip con) (outgoing_port con)
    true (incoming_buffer con).

(** [udp_connect]: [sizeof(struct UdpConnection)] is 36. *)
Section Connect.
Context {H : Type} `{Allocator H}.

Definition udp_connect (conns : list UdpConnection) (sa_family addr port : Z) (h : H)
  : outcome (list UdpConnection * Z * H) :=
  c_assert (sa_family =? 1) ;;
  match kcalloc 1 36 h with
  | (None, h) => Ok (conns, - ENOMEM, h)
  | (Some _, h) =>
    let '(rb, ok, h) := ringbuffer_init 8192 h in
    c_assert (negb (ok =? 0)) ;;
    Ok (conns ++ [mkUdp 1337 0 addr (ntohs port) false rb], 0, h)
  end.
End Connect.

(** ** Datagrams in the buffer *)

(** A datagram: the address of its sender and its payload. *)
Definition datagram : Type := list Z * list Z.

Definition encode (d : datagram) : list Z :=
  le32_bytes (zlen (d.2) + 12) ++ d.1 ++ d.2.

Definition datagram_ok (d : datagram) : Prop := zlen (d.1) = 12 /\ zlen (d.2) < 2 ^ 16.

Record udp_queue (rb : ringbuffer) (ds : list datagram) : Prop := {
  uq_rb : rb_inv rb;
  uq_contents : rb_contents rb = concat (encode <$> ds);
  uq_ok : Forall datagram_ok ds
}.

Lemma bytes_le32_bytes x : fits 32 x -> bytes_le32 (le32_bytes x) = x.
Proof. intros Hx. apply (le32_split x Hx). Qed.

Lemma zlen_encode d : datagram_ok d -> zlen (encode d) = 16 + zlen (d.2).
Proof.
  intros [H1 H2]. unfold encode. rewrite !zlen_app, H1.
  change (zlen (le32_bytes _)) with 4. lia.
Qed.

(** A write for which there is room appends all of it. *)
Lemma rb_write_all rb src len :
  rb_inv rb -> 0 <= len < 2 ^ 32 -> len <= zlen src ->
  len <= ringbuffer_capacity rb - zlen (rb_contents rb) ->
  exists rb', ringbuffer_write rb src len = Ok (rb', len) /\ rb_inv rb' /\
    rb_contents rb' = rb_contents rb ++ ztake len src /\
    ringbuffer_capacity rb' = ringbuffer_capacity rb.
Proof.
  intros Hr Hl Hs Hroom. destruct (rb_room_contents rb Hr) as (Hu & _ & _ & _).
  destruct (rb_write_spec rb src len) as (rb' & Hw & Hi & Hc & Hk); try done.
  rewrite Hu, Z.min_l in Hw, Hc by lia. by exists rb'.
Qed.

(** A read of a prefix that is there removes exactly that prefix. *)
Lemma rb_read_exact rb want n a b :
  rb_inv rb -> rb_contents rb = a ++ b -> n = zlen a -> n < 2 ^ 32 ->
  exists rb', ringbuffer_read rb want n = Ok (rb', if want : bool then Some a else None, n) /\
    rb_inv rb' /\ rb_contents rb' = b /\
    ringbuffer_capacity rb' = ringbuffer_capacity rb.
Proof.
  intros Hr Hc -> Hn. pose proof (zlen_nonneg a). pose proof (zlen_nonneg b).
  destruct (rb_room_contents rb Hr) as (_ & Hu & _ & _).
  destruct (rb_read_spec rb want (zlen a)) as (rb' & Hw & Hi & Hc' & Hk); [done|lia|].
  rewrite Hu, Hc, zlen_app, Z.min_l in Hw, Hc' by lia.
  rewrite ztake_app_exact in Hw by done. rewrite zdrop_app_exact in Hc' by done.
  by exists rb'.
Qed.

Lemma udp_enqueue_spec rb ds from payload length :
  udp_queue rb ds -> zlen from = 12 -> 8 <= length < 2 ^ 16 -> length <= zlen payload ->
  exists rb', udp_enqueue rb from payload length = Ok rb' /\
    ringbuffer_capacity rb' = ringbuffer_capacity rb /\
    if ringbuffer_unused rb <? length + 8 then rb' = rb
    else udp_queue rb' (ds ++ [(from, slice 8 (length - 8) payload)]).
Proof.
  intros [Hr Hc Hok] Hf Hl Hp. unfold udp_enqueue.
  rewrite (u32_small (length - 8 + 12)), u32_small by lia.
  replace (length - 8 + 12 + 4) with (length + 8) by lia.
  destruct (Z.ltb_spec (ringbuffer_unused rb) (length + 8)) as [Hn|Hy].
  { by exists rb. }
  destruct (rb_room_contents rb Hr) as (Hu & _ & _ & _).
  destruct (rb_write_all rb (le32_bytes (length - 8 + 12)) 4)
    as (r1 & -> & Hr1 & Hc1 & Hk1); [done|lia|done|lia|]. cbn [mbind outcome_bind].
  change (ztake 4 (le32_bytes _)) with (le32_bytes (length - 8 + 12)) in Hc1.
  assert (Hz1 : zlen (rb_contents r1) = zlen (rb_contents rb) + 4)
    by (rewrite Hc1, zlen_app; done).
  destruct (rb_write_all r1 from 12) as (r2 & -> & Hr2 & Hc2 & Hk2); [done|lia|lia|lia|].
  cbn [mbind outcome_bind]. rewrite ztake_all in Hc2 by lia.
  assert (Hz2 : zlen (rb_contents r2) = zlen (rb_contents r1) + 12)
    by (rewrite Hc2, zlen_app; lia).
  destruct (rb_write_all r2 (zdrop 8 payload) (length - 8)) as (r3 & -> & Hr3 & Hc3 & Hk3);
    [done|lia|rewrite zlen_zdrop by lia; lia|lia|]. cbn [mbind outcome_bind].
  exists r3. split_and!; [done|lia|]. split; [done| |].
  - rewrite Hc3, Hc2, Hc1, Hc, fmap_app, concat_app. cbn [fmap list_fmap concat].
    unfold encode. cbn [fst snd]. rewrite zlen_slice by lia.
    by rewrite app_nil_r, <- !app_assoc.
  - apply Forall_app. split; [done|]. repeat constructor; cbn [fst snd]; [done|].
    rewrite zlen_slice; lia.
Qed.

Lemma set_incoming_buffer con rb : incoming_buffer (set_incoming con rb) = rb.
Proof. done. Qed.

(** [udp_recvfrom] takes exactly the oldest datagram from the buffer: it
    returns the sender and at most [len] bytes of the payload, discards the
    rest of that datagram and leaves the ones behind it intact; with nothing
    queued it returns [-EWOULDBLOCK]. *)
Theorem udp_recvfrom_pops con ds len src_addr addrlen :
  udp_queue (incoming_buffer con) ds -> dead con = false -> 0 <= len < 2 ^ 32 ->
  exists con', udp_queue (incoming_buffer con') (tail ds) /\
  udp_recvfrom con len src_addr addrlen = Ok (con',
    match ds with
    | [] => mkReceived (- EWOULDBLOCK) [] None addrlen
    | (from, payload) :: _ =>
      let n := Z.min (zlen payload) len in
      mkReceived n (ztake n payload)
        (a ← addrlen; if src_addr : bool then Some (ztake (Z.min 12 (u32 a)) from) else None)
        ((fun _ => 12) <$> addrlen)
    end).
Proof.
  intros [Hr Hc Hok] Hd Hl. unfold udp_recvfrom. rewrite Hd.
  destruct ds as [|[from payload] ds].
  { destruct (rb_read_spec (incoming_buffer con) true 4) as (rb & -> & Hi & Hc' & _);
      [done|lia|]. destruct (rb_room_contents _ Hr) as (_ & Hu & _ & _).
    cbn in Hc. rewrite Hc, zlen_nil in Hu. rewrite Hu in *. cbn [mbind outcome_bind].
    exists (set_incoming con rb). split; [|done]. split; [done| |done].
    rewrite set_incoming_buffer, Hc', Hc. done. }
  inversion Hok as [|? ? [Hf Hp] Hok']; subst. cbn [fst snd] in Hf, Hp.
  pose proof (zlen_nonneg payload).
  cbn [fmap list_fmap concat] in Hc. unfold encode in Hc at 1. cbn [fst snd] in Hc.
  rewrite <- !app_assoc in Hc.
  destruct (rb_read_exact _ true 4 _ _ Hr Hc) as (r1 & -> & Hr1 & Hc1 & _); [done|lia|].
  cbn [mbind outcome_bind default from_option id Z.eqb Pos.eqb c_assert].
  rewrite bytes_le32_bytes by (unfold fits; lia).
  destruct (Z.leb_spec 12 (zlen payload + 12)); [|lia]. cbn [c_assert mbind outcome_bind].
  destruct (rb_read_exact _ true 12 _ _ Hr1 Hc1) as (r2 & -> & Hr2 & Hc2 & _); [done|lia|].
  cbn [mbind outcome_bind default from_option id].
  rewrite u32_small by lia. replace (zlen payload + 12 - 12) with (zlen payload) by lia.
  set (n := Z.min (zlen payload) len).
  rewrite <- (ztake_zdrop n payload) in Hc2 at 1. rewrite <- app_assoc in Hc2.
  destruct (rb_read_exact _ true n _ _ Hr2 Hc2) as (r3 & -> & Hr3 & Hc3 & _);
    [rewrite zlen_ztake; lia|lia|]. cbn [mbind outcome_bind default from_option id].
  destruct (rb_read_exact _ false (zlen payload - n) _ _ Hr3 Hc3) as (r4 & -> & Hr4 & Hc4 & _);
    [rewrite zlen_zdrop; lia|lia|]. cbn [mbind outcome_bind].
  exists (set_incoming con r4). split; [by split|].
  rewrite i32_small by lia. by destruct addrlen.
Qed.

(** ** From the sender to the queue *)

(** The connection a datagram is for. *)
Lemma udp_find_spec conns sp dp i0 i :
  udp_find conns sp dp i0 = Some i ->
  exists k c, i = (i0 + k)%nat /\ conns !! k = Some c /\ dead c = false /\
    incoming_port c = dp /\ outgoing_port c = sp.
Proof.
  revert i0. induction conns as [|c conns IH]; intros i0; cbn [udp_find]; [done|].
  assert (Hrec : udp_find conns sp dp (S i0) = Some i ->
    exists k c0, i = (i0 + k)%nat /\ (c :: conns) !! k = Some c0 /\ dead c0 = false /\
      incoming_port c0 = dp /\ outgoing_port c0 = sp).
  { intros H. destruct (IH _ H) as (k & c' & -> & Hk & Hrest).
    exists (S k), c'. split; [lia|done]. }
  destruct (dead c) eqn:Hd; [done|].
  destruct ((incoming_port c =? dp) && (outgoing_port c =? sp)) eqn:E; [|done].
  intros [= <-]. breflect. exists 0%nat, c. split_and!; (done || lia).
Qed.

Definition udp_header (src_port dst_port length : Z) : list Z :=
  words_bytes [src_port; dst_port; htons (u16 (length + 8)); 0].

Lemma udp_header_fields src dst length rest :
  fits 16 src -> fits 16 dst ->
  le16_at (udp_header src dst length ++ rest) 0 = Ok src /\
  le16_at (udp_header src dst length ++ rest) 2 = Ok dst /\
  le16_at (udp_header src dst length ++ rest) 4 = Ok (htons (u16 (length + 8))) /\
  le16_at (udp_header src dst length ++ rest) 6 = Ok 0.
Proof.
  intros Hs Hd. split_and!.
  - change (Ok (le16 (src mod 2 ^ 8) (src / 2 ^ 8 mod 2 ^ 8)) = Ok src).
    by rewrite le16_le16_bytes.
  - change (Ok (le16 (dst mod 2 ^ 8) (dst / 2 ^ 8 mod 2 ^ 8)) = Ok dst).
    by rewrite le16_le16_bytes.
  - set (x := htons _). change (Ok (le16 (x mod 2 ^ 8) (x / 2 ^ 8 mod 2 ^ 8)) = Ok x).
    rewrite le16_le16_bytes; [done|]. apply wrap_fits. lia.
  - done.
Qed.

Lemma handle_udp_spec junk conns src_ip src dst data rest :
  zlen (fst junk) = 4 -> zlen (snd junk) = 2 -> fits 16 src -> fits 16 dst ->
  zlen data + 8 < 2 ^ 16 ->
  match udp_find_connection conns src dst with
  | None => handle_udp junk conns src_ip
      (udp_header (htons src) (htons dst) (zlen data) ++ data ++ rest) (zlen data + 8) = Ok conns
  | Some i => exists con, conns !! i = Some con /\
    forall ds, udp_queue (incoming_buffer con) ds ->
    exists rb',
      handle_udp junk conns src_ip
        (udp_header (htons src) (htons dst) (zlen data) ++ data ++ rest) (zlen data + 8) =
        Ok (<[i := set_incoming con rb']> conns) /\
      if ringbuffer_unused (incoming_buffer con) <? zlen data + 16
      then rb' = incoming_buffer con
      else udp_queue rb' (ds ++ [(sockaddr_in (fst junk) src_ip src (snd junk), data)])
  end.
Proof.
  intros Hj1 Hj2 Hs Hd Hz. pose proof (zlen_nonneg data). pose proof (zlen_nonneg rest).
  destruct (udp_header_fields (htons src) (htons dst) (zlen data) (data ++ rest))
    as (E0 & E1 & E2 & E3); try (apply wrap_fits; lia).
  unfold handle_udp. destruct (Z.ltb_spec (zlen data + 8) 8); [lia|].
  rewrite E0, E1, E2, E3. cbn [mbind outcome_bind].
  rewrite !ntohs_htons by (try done; apply wrap_fits; lia). rewrite u16_small by lia.
  destruct (Z.ltb_spec (zlen data + 8) 8); [lia|]. rewrite Z.eqb_refl. cbn [negb].
  unfold udp_find_connection.
  destruct (udp_find conns src dst 0) as [i|] eqn:Ef; [|done].
  destruct (udp_find_spec _ _ _ _ _ Ef) as (k & con & -> & Hk & _). cbn [Nat.add].
  exists con. split; [done|]. intros ds Hq. rewrite Hk. cbn [deref mbind outcome_bind].
  assert (Hp : zlen (udp_header (htons src) (htons dst) (zlen data) ++ data ++ rest) =
    8 + zlen data + zlen rest).
  { rewrite !zlen_app. change (zlen (udp_header _ _ _)) with 8. lia. }
  destruct (udp_enqueue_spec _ ds (sockaddr_in (fst junk) src_ip src (snd junk))
    (udp_header (htons src) (htons dst) (zlen data) ++ data ++ rest) (zlen data + 8) Hq)
    as (rb' & -> & _ & Hif); [|lia|lia|].
  { unfold sockaddr_in. rewrite !zlen_app, Hj1, Hj2.
    change (zlen (le32_bytes _)) with 4. change (zlen (le16_bytes _)) with 2. lia. }
  exists rb'. split; [done|]. replace (zlen data + 8 + 8) with (zlen data + 16) in Hif by lia.
  destruct (ringbuffer_unused (incoming_buffer con) <? zlen data + 16); [done|].
  replace (slice 8 (zlen data + 8 - 8)
    (udp_header (htons src) (htons dst) (zlen data) ++ data ++ rest)) with data in Hif; [done|].
  unfold slice. rewrite zdrop_app_exact by done. by rewrite ztake_app_exact by lia.
Qed.

(** C14: a datagram written on one machine and taken apart on another one ends
    up, whole and behind the datagrams that are already there, in the buffer of
    the connection with the two ports exchanged, together with the sender's
    address and port; it is dropped exactly when that buffer has no room for
    it, and no other connection is touched. *)
Theorem udp_write_delivers st con i irq data mac junk conns k peer ds :
  net_wf st -> fits 32 (ip_address st) -> fits 32 (outgoing_ip con) ->
  fits 16 (incoming_port con) -> fits 16 (outgoing_port con) -> dead con = false ->
  14 + (20 + (8 + zlen data)) + 4 < 0x1000 ->
  get_mac_from_ip i (outgoing_ip con) st = Ok (st, Some mac) -> zlen mac = 6 ->
  mac <> mac_address st -> zlen (fst junk) = 4 -> zlen (snd junk) = 2 ->
  udp_find_connection conns (incoming_port con) (outgoing_port con) = Some k ->
  conns !! k = Some peer -> udp_queue (incoming_buffer peer) ds ->
  exists st' frame packet udp rb',
    udp_write (i :: irq) con data (zlen data) st = Ok (st', zlen data) /\
    sent_frame frame st st' /\
    handle_ethernet frame (zlen frame) = Ok (EthIpv4 packet (zlen packet)) /\
    handle_ipv4 packet (zlen packet) =
      Ok (IpUdp (ip_address st) (outgoing_ip con) udp (8 + zlen data)) /\
    handle_udp junk conns (ip_address st) udp (8 + zlen data) =
      Ok (<[k := set_incoming peer rb']> conns) /\
    if ringbuffer_unused (incoming_buffer peer) <? zlen data + 16
    then rb' = incoming_buffer peer
    else udp_queue rb' (ds ++
           [(sockaddr_in (fst junk) (ip_address st) (incoming_port con) (snd junk), data)]).
Proof.
  intros Hw Hip Hoip Hsp Hdp Hdead Hmax Hmac Hml Hne Hj1 Hj2 Hfind Hk Hq.
  pose proof (zlen_nonneg data). unfold udp_write, send_udp_packet. rewrite Hdead.
  rewrite (u16_small (zlen data)), (u16_small (8 + zlen data)) by lia.
  rewrite i32_small by lia. fold (udp_header (htons (incoming_port con))
    (htons (outgoing_port con)) (zlen data)).
  set (h := udp_header _ _ _).
  replace (replicate 4096 0) with (replicate 8 0 ++ replicate (Z.to_nat (zlen data)) 0 ++
    replicate (Z.to_nat (4088 - zlen data)) 0) by (rewrite <- !replicate_add; f_equal; lia).
  rewrite (memcpy_at_app [] (replicate 8 0) (replicate (Z.to_nat (zlen data)) 0 ++
    replicate (Z.to_nat (4088 - zlen data)) 0)) by done.
  cbn [mbind outcome_bind app]. change (ztake 8 h) with h.
  rewrite memcpy_at_app by (rewrite ?ztake_all by done; zlia || done).
  cbn [mbind outcome_bind]. rewrite ztake_all by done. set (tail := replicate _ 0).
  destruct (ipv4_send_receive_spec st i irq (outgoing_ip con) 0x11 (h ++ data ++ tail)
    (8 + zlen data) mac) as (st' & frame & packet & crc & Hs & Hf & He & Hv); try done; try lia.
  { rewrite !zlen_app. change (zlen h) with 8. pose proof (zlen_nonneg tail). lia. }
  rewrite app_assoc, ztake_app_exact in Hv
    by (rewrite zlen_app; change (zlen h) with 8; lia).
  pose proof (handle_udp_spec junk conns (ip_address st) (incoming_port con)
    (outgoing_port con) data crc Hj1 Hj2 Hsp Hdp ltac:(lia)) as Hu.
  rewrite Hfind in Hu. destruct Hu as (peer' & Hk' & Hu). rewrite Hk in Hk'.
  injection Hk' as <-. destruct (Hu ds Hq) as (rb' & Hh & Hif).
  exists st', frame, packet, (h ++ data ++ crc), rb'.
  rewrite Hs. cbn [mbind outcome_bind]. replace (8 + zlen data) with (zlen data + 8) in * by lia.
  split_and!; done.
Qed.

(** A write of more than 4088 bytes to a UDP socket is not refused: the
    payload is copied past the end of the 4096 byte array on the kernel
    stack. *)
Theorem udp_write_overflows irq con buffer len st :
  dead con = false -> 4088 < len < 2 ^ 16 ->
  udp_write irq con buffer len st = Fault.
Proof.
  intros Hd Hl. unfold udp_write, send_udp_packet. rewrite Hd, (u16_small len) by lia.
  set (h := words_bytes _).
  change (memcpy_at (replicate 4096 0) 0 h 0 8) with
    (Ok (splice (replicate 4096 0) 0 (slice 0 8 h))).
  cbn [mbind outcome_bind]. unfold memcpy_at at 1.
  rewrite zlen_splice by (done || vm_compute; done).
  change (zlen (replicate 4096 0)) with 4096.
  destruct (Z.leb_spec (8 + len) 4096); [lia|].
  by rewrite andb_false_r.
Qed.

(** ** Samples *)

Definition udp_rb_sample : ringbuffer :=
  mkRingbuffer (Some (Block 64 (replicate 64%nat 0))) 64 60 60.

Lemma udp_rb_sample_queue : udp_queue udp_rb_sample [].
Proof. split; [by constructor|done|constructor]. Qed.

Definition udp_sample : UdpConnection := mkUdp 1337 0 (le32 10 0 0 9) 53 false udp_rb_sample.
Definition udp_peer : UdpConnection := mkUdp 53 0 (le32 10 0 0 2) 1337 false udp_rb_sample.

Lemma udp_write_delivers_witness :
  exists st' frame packet udp rb',
    udp_write [id] udp_sample [1; 2; 3] 3 net_sample = Ok (st', 3) /\
    sent_frame frame net_sample st' /\
    handle_ethernet frame (zlen frame) = Ok (EthIpv4 packet (zlen packet)) /\
    handle_ipv4 packet (zlen packet) = Ok (IpUdp (le32 10 0 0 2) (le32 10 0 0 9) udp 11) /\
    handle_udp (replicate 4 0, [0; 0]) [udp_peer] (le32 10 0 0 2) udp 11 =
      Ok [set_incoming udp_peer rb'] /\
    udp_queue rb' [([0; 0; 0; 0; 10; 0; 0; 2; 57; 5; 0; 0], [1; 2; 3])].
Proof.
  destruct (udp_write_delivers net_sample udp_sample id [] [1; 2; 3] [2; 0; 0; 0; 0; 9]
    (replicate 4 0, [0; 0]) [udp_peer] 0 udp_peer [])
    as (st' & frame & packet & udp & rb' & H1 & H2 & H3 & H4 & H5 & H6); try done;
    try apply net_sample_wf; try apply udp_rb_sample_queue.
  exists st', frame, packet, udp, rb'. split_and!; assumption.
Defined.

Definition udp_loaded : UdpConnection :=
  set_incoming udp_peer
    (mkRingbuffer (Some (Block 64 (encode (replicate 12 9, [1; 2; 3]) ++
       encode (replicate 12 8, [4]) ++ replicate 28%nat 0))) 64 0 36).

Lemma udp_loaded_queue :
  udp_queue (incoming_buffer udp_loaded) [(replicate 12 9, [1; 2; 3]); (replicate 12 8, [4])].
Proof. split; [by constructor|done|repeat constructor]. Qed.

Lemma udp_recvfrom_pops_witness :
  exists con', udp_queue (incoming_buffer con') [(replicate 12 8, [4])] /\
    udp_recvfrom udp_loaded 2 true (Some 12) =
      Ok (con', mkReceived 2 [1; 2] (Some (replicate 12 9)) (Some 12)).
Proof.
  destruct (udp_recvfrom_pops udp_loaded [(replicate 12 9, [1; 2; 3]); (replicate 12 8, [4])]
    2 true (Some 12) udp_loaded_queue eq_refl) as (con' & Hq & Hr); [lia|].
  exists con'. split; [exact Hq|exact Hr].
Defined.

Lemma udp_write_overflows_witness :
  udp_write [id] udp_sample (replicate 5000 7) 5000 net_sample = Fault.
Proof. apply udp_write_overflows; [reflexivity|lia]. Defined.
