(* ===== verification/Tcp.v ===== *)
(** kernel/network/tcp.c and the TCP half of kernel/socket.c: segments, the
    connection state machine, and the byte streams of a connection.

    A connection is an object of the heap [cons], reached by its address.  The
    global [open_tcp_connections] is a [relist] of such addresses, seen here
    through its slots ([Relist] shows that a relist behaves this way).  Fields
    of [struct TcpConnection] that no code reads are left out.  A segment is
    written behind the Ethernet and IPv4 headers of the network card's buffer
    and sent with [send_ipv4_packet2]. *)

From stdpp Require Import base numbers list gmap.
From Stdlib Require Import ZArith Lia.
From S2P Require Import Prelude Bytes Alloc RingBuffer Net.

Open Scope Z_scope.

Inductive tcp_state : Type :=
| CLOSED | LISTEN | SYN_SENT | SYN_RECIEVED | ESTABLISHED | CLOSE_WAIT
| FIN_WAIT1 | CLOSING | LAST_ACK | FIN_WAIT2 | TIME_WAIT.

#[export] Instance tcp_state_eq_dec : EqDecision tcp_state.
Proof. solve_decision. Defined.

Definition ACK : Z := 16.
Definition PSH : Z := 8.
Definition SYN : Z := 2.
Definition FIN : Z := 1.

Record TcpConnection : Type := mkTcp {
  state : tcp_state;
  tcp_in_port : Z;
  tcp_in_ip : Z;
  tcp_out_ip : Z;
  tcp_out_port : Z;
  tcp_in : ringbuffer;
  tcp_out : ringbuffer;
  no_delay : bool;
  rcv_wnd : Z;
  rcv_nxt : Z;
  should_send_ack : bool;
  snd_una : Z;
  snd_nxt : Z;
  snd_max : Z;
  snd_wnd : Z;
  incoming_connections : list (option Z)
}.

Definition set_state (s : tcp_state) (c : TcpConnection) : TcpConnection :=
  mkTcp s (tcp_in_port c) (tcp_in_ip c) (tcp_out_ip c) (tcp_out_port c) (tcp_in c)
    (tcp_out c) (no_delay c) (rcv_wnd c) (rcv_nxt c) (should_send_ack c) (snd_una c)
    (snd_nxt c) (snd_max c) (snd_wnd c) (incoming_connections c).
Definition set_bufs (i o : ringbuffer) (c : TcpConnection) : TcpConnection :=
  mkTcp (state c) (tcp_in_port c) (tcp_in_ip c) (tcp_out_ip c) (tcp_out_port c) i
    o (no_delay c) (rcv_wnd c) (rcv_nxt c) (should_send_ack c) (snd_una c)
    (snd_nxt c) (snd_max c) (snd_wnd c) (incoming_connections c).
Definition set_rcv (nxt : Z) (ack : bool) (c : TcpConnection) : TcpConnection :=
  mkTcp (state c) (tcp_in_port c) (tcp_in_ip c) (tcp_out_ip c) (tcp_out_port c) (tcp_in c)
    (tcp_out c) (no_delay c) (rcv_wnd c) nxt ack (snd_una c)
    (snd_nxt c) (snd_max c) (snd_wnd c) (incoming_connections c).
Definition set_snd (una nxt mx wnd : Z) (c : TcpConnection) : TcpConnection :=
  mkTcp (state c) (tcp_in_port c) (tcp_in_ip c) (tcp_out_ip c) (tcp_out_port c) (tcp_in c)
    (tcp_out c) (no_delay c) (rcv_wnd c) (rcv_nxt c) (should_send_ack c) una
    nxt mx wnd (incoming_connections c).
Definition set_incoming_connections (l : list (option Z)) (c : TcpConnection) : TcpConnection :=
  mkTcp (state c) (tcp_in_port c) (tcp_in_ip c) (tcp_out_ip c) (tcp_out_port c) (tcp_in c)
    (tcp_out c) (no_delay c) (rcv_wnd c) (rcv_nxt c) (should_send_ack c) (snd_una c)
    (snd_nxt c) (snd_max c) (snd_wnd c) l.

(** ** Checksums *)

Definition cksum_add (cksum x : Z) : Z :=
  let c := u32 (cksum + x) in u32 (Z.shiftr c 16 + Z.land c 0xFFFF).

Definition tcp_checksum_even_update (cksum : Z) (buffer : list Z) (size : Z) : outcome Z :=
  c_assert (size mod 2 =? 0) ;;
  if zlen buffer <? size then Fault
  else Ok (fold_left (fun c w => cksum_add c (ntohs w)) (words16 (ztake size buffer)) cksum).

(** The words of [size] bytes, then the odd byte. *)
Definition tcp_checksum_final (cksum : Z) (buffer : list Z) (size : Z) : outcome Z :=
  if zlen buffer <? size then Fault else
  let cksum := fold_left (fun c w => cksum_add c (ntohs w)) (words16 (ztake size buffer)) cksum in
  if size mod 2 =? 0 then Ok (0xFFFF - Z.land cksum 0xFFFF)
  else
    b ← aread buffer (size - 1);
    Ok (0xFFFF - Z.land (cksum_add cksum (Z.shiftl b 8)) 0xFFFF).

(** [header] is the memory the header pointer designates; byte 12 holds
    [data_offset] in its upper half, the checksum is at offset 16. *)
Definition data_offset (header : list Z) : outcome Z :=
  b ← aread header 12; Ok (Z.shiftr b 4).

Definition tcp_calculate_checksum (src_ip dst_ip : Z) (payload : list Z)
    (payload_length : Z) (header : list Z) (total : Z) : outcome Z :=
  off ← data_offset header;
  if i32 total <? off + payload_length then Ok 0 else
  tmp ← tcp_checksum_even_update 0 (le32_bytes src_ip) 4;
  tmp ← tcp_checksum_even_update tmp (le32_bytes dst_ip) 4;
  tmp ← tcp_checksum_even_update tmp [0; 6] 2;
  tmp ← tcp_checksum_even_update tmp (le16_bytes (htons (u16 (off * 4 + payload_length)))) 2;
  let rest := u32 (off * 4 - (16 + 2)) in
  tmp ← tcp_checksum_even_update tmp header 16;
  tmp ← tcp_checksum_even_update tmp (zdrop 18 header) rest;
  c ← tcp_checksum_final tmp payload payload_length;
  Ok (htons c).

(** ** Sending *)

(** A header without options; [checksum] as it is stored. *)
Definition tcp_header (src_port dst_port seq ack flags window checksum : Z) : list Z :=
  le16_bytes (htons src_port) ++ le16_bytes (htons dst_port) ++
  le32_bytes (htonl seq) ++ le32_bytes (htonl ack) ++ [Z.shiftl 5 4; flags] ++
  le16_bytes (htons (u16 window)) ++ le16_bytes checksum ++ [0; 0].

(** Builds the segment in the network card's buffer behind the space for the
    Ethernet and IPv4 headers and passes it on.  The payload is copied behind
    the header before it is sent. *)
Definition send_segment (irq : list (net -> net)) (con : TcpConnection) (flags ack : Z)
    (payload : list Z) (payload_length : Z) (st : net) : outcome net :=
  let h0 := tcp_header (tcp_in_port con) (tcp_out_port con) (snd_nxt con) ack flags
              (rcv_wnd con) 0 in
  c ← tcp_calculate_checksum (ip_address st) (tcp_out_ip con) payload payload_length h0
        (20 + payload_length);
  let h := tcp_header (tcp_in_port con) (tcp_out_port con) (snd_nxt con) ack flags
             (rcv_wnd con) c in
  '(st, buf) ← nic_get_buffer st;
  buf ← memcpy_at buf 34 h 0 20;
  buf ← memcpy_at buf 54 payload 0 payload_length;
  st ← nic_store buf st;
  send_ipv4_packet2 irq (tcp_out_ip con) 6 (20 + payload_length) st.

Definition tcp_send_empty_payload (irq : list (net -> net)) (con : TcpConnection)
    (flags : Z) (st : net) : outcome (TcpConnection * net) :=
  let ack := is_set flags ACK in
  st ← send_segment irq con flags (if ack then rcv_nxt con else 0) [] 0 st;
  let con := if ack then set_rcv (rcv_nxt con) false con else con in
  let nxt := u32 (snd_nxt con + c_int (is_set flags SYN)) in
  let nxt := u32 (nxt + c_int (is_set flags FIN)) in
  Ok (set_snd (snd_una con) nxt (Z.max nxt (snd_max con)) (snd_wnd con) con, st).

Definition tcp_can_send (con : TcpConnection) : Z :=
  if decide (state con = CLOSED) then 0
  else u16 (snd_una con + snd_wnd con - snd_max con).

(** The part of [send_tcp_packet] that sends one segment. *)
Definition send_tcp_one (irq : list (net -> net)) (con : TcpConnection) (payload : list Z)
    (payload_length : Z) (st : net) : outcome (Z * TcpConnection * net) :=
  st ← send_segment irq con (Z.lor PSH ACK) (rcv_nxt con) payload payload_length st;
  let con := set_rcv (rcv_nxt con) false con in
  let nxt := u32 (snd_nxt con + payload_length) in
  Ok (1, set_snd (snd_una con) nxt (Z.max nxt (snd_max con)) (snd_wnd con) con, st).

Fixpoint send_tcp_fuel (fuel : nat) (irq : list (net -> net)) (con : TcpConnection)
    (payload : list Z) (payload_length : Z) (st : net)
  : outcome (Z * TcpConnection * net) :=
  match fuel with
  | O => NoFuel
  | S fuel =>
    if tcp_can_send con =? 0 then Ok (0, con, st) else
    let len := Z.min 1000 payload_length in
    if len <? payload_length then
      '(rc, con, st) ← send_tcp_fuel fuel irq con payload len st;
      if rc =? 0 then Ok (0, con, st) else
      send_tcp_fuel fuel irq con (zdrop len payload) (u16 (payload_length - len)) st
    else send_tcp_one irq con payload payload_length st
  end.

(** A [u16] length is at most 66 segments. *)
Definition send_tcp_packet (irq : list (net -> net)) (con : TcpConnection)
    (payload : list Z) (payload_length : Z) (st : net)
  : outcome (Z * TcpConnection * net) :=
  send_tcp_fuel (S (S (Z.to_nat (payload_length / 1000)))) irq con payload payload_length st.

(** ** Connections *)

Section Connections.
Context {H : Type} `{Allocator H}.

Record tcp_sys : Type := mkSys {
  conns : gmap Z TcpConnection;
  open_tcp_connections : list (option Z);
  sys_net : net;
  sys_heap : H
}.

Definition set_con (p : Z) (c : TcpConnection) (s : tcp_sys) : tcp_sys :=
  mkSys (<[p := c]> (conns s)) (open_tcp_connections s) (sys_net s) (sys_heap s).
Definition set_net (st : net) (s : tcp_sys) : tcp_sys :=
  mkSys (conns s) (open_tcp_connections s) st (sys_heap s).

(** The loops over [open_tcp_connections]: the first occupied slot whose
    connection satisfies [f].  A dangling address is a fault. *)
Fixpoint find_con (f : Z -> TcpConnection -> bool) (m : gmap Z TcpConnection)
    (slots : list (option Z)) (i : nat) : outcome (option (nat * Z)) :=
  match slots with
  | [] => Ok None
  | None :: slots => find_con f m slots (S i)
  | Some p :: slots =>
    c ← deref (m !! p);
    if f p c then Ok (Some (i, p)) else find_con f m slots (S i)
  end.

(** [relist_add]: the lowest free slot, or a new one at the end. *)
Fixpoint slots_add (slots : list (option Z)) (p : Z) : list (option Z) :=
  match slots with
  | [] => [Some p]
  | None :: slots => Some p :: slots
  | Some q :: slots => Some q :: slots_add slots p
  end.

(** The search compares addresses only. *)
Fixpoint find_slot (slots : list (option Z)) (p : Z) (i : nat) : option nat :=
  match slots with
  | [] => None
  | o :: slots => if bool_decide (o = Some p) then Some i else find_slot slots p (S i)
  end.

Definition tcp_remove_connection (p : Z) (s : tcp_sys) : outcome tcp_sys :=
  match find_slot (open_tcp_connections s) p 0 with
  | None => Ok s
  | Some i =>
    c ← deref (conns s !! p);
    let '(_, h) := ringbuffer_free (tcp_in c) (sys_heap s) in
    let '(_, h) := ringbuffer_free (tcp_out c) h in
    Ok (mkSys (delete p (conns s)) (<[i := None]> (open_tcp_connections s)) (sys_net s)
          (kfree (Some p) h))
  end.

Definition tcp_destroy_connection (p : Z) (c : TcpConnection) (s : tcp_sys) : outcome tcp_sys :=
  tcp_remove_connection p (set_con p (set_state CLOSED c) s).

(** [tcp_send_empty_payload] on the connection at [p]. *)
Definition send_empty (irq : list (net -> net)) (p : Z) (c : TcpConnection) (flags : Z)
    (s : tcp_sys) : outcome (TcpConnection * tcp_sys) :=
  '(c, st) ← tcp_send_empty_payload irq c flags (sys_net s);
  Ok (c, set_con p c (set_net st s)).

Definition tcp_close_connection (irq : list (net -> net)) (p : Z) (s : tcp_sys)
  : outcome tcp_sys :=
  c ← deref (conns s !! p);
  match state c with
  | CLOSE_WAIT =>
      '(c, s) ← send_empty irq p (set_state LAST_ACK c) FIN s;
      tcp_destroy_connection p c s
  | ESTABLISHED =>
      '(_, s) ← send_empty irq p (set_state FIN_WAIT1 c) (Z.lor FIN ACK) s; Ok s
  | SYN_RECIEVED =>
      '(_, s) ← send_empty irq p (set_state FIN_WAIT1 c) FIN s; Ok s
  | SYN_SENT => tcp_destroy_connection p c s
  | _ => Ok s
  end.

(** [sizeof(struct TcpConnection)] is 136.  The new object is not checked for
    NULL; [junk] is what its [should_send_ack] happens to hold. *)
Definition tcp_connect_to_listen (junk : bool) (src_ip src_port dst_port : Z) (s : tcp_sys)
  : outcome (option Z * tcp_sys) :=
  found ← find_con (fun _ c => bool_decide (state c = LISTEN) && (tcp_in_port c =? dst_port))
            (conns s) (open_tcp_connections s) 0;
  match found with
  | None => Ok (None, s)
  | Some (_, lp) =>
    l ← deref (conns s !! lp);
    let '(np, h) := kmalloc 136 (sys_heap s) in
    np ← deref np;
    let '(out, _, h) := ringbuffer_init 8192 h in
    let '(inb, _, h) := ringbuffer_init (65535 * 64) h in
    let nc := mkTcp LISTEN (tcp_in_port l) (tcp_in_ip l) src_ip src_port inb out (no_delay l)
                65535 0 junk 0 0 0 0 [] in
    let m := <[np := nc]> (conns s) in
    Ok (Some np, mkSys
      (<[lp := set_incoming_connections (slots_add (incoming_connections l) np) l]> m)
      (slots_add (open_tcp_connections s) np) (sys_net s) h)
  end.

Definition tcp_find_connection (src_port dst_port : Z) (s : tcp_sys) : outcome (option Z) :=
  found ← find_con (fun _ c => negb (bool_decide (state c = CLOSED)) &&
                       (tcp_in_port c =? dst_port) && (tcp_out_port c =? src_port))
            (conns s) (open_tcp_connections s) 0;
  match found with Some (_, p) => Ok (Some p) | None => Ok None end.

(** The [switch] of [handle_tcp]; [c] is the connection at [p] with the window
    and acknowledgement fields already updated. *)
Definition tcp_receive (irq : list (net -> net)) (p : Z) (c : TcpConnection) (flags : Z)
    (payload : list Z) (payload_length : Z) (s : tcp_sys) : outcome tcp_sys :=
  let reply st fl := '(_, s) ← send_empty irq p (set_state st c) fl s; Ok s in
  let become st := Ok (set_con p (set_state st c) s) in
  let keep := Ok (set_con p c s) in
  match state c with
  | LISTEN => if is_set flags SYN then reply SYN_RECIEVED (Z.lor SYN ACK) else keep
  | SYN_RECIEVED => if is_set flags ACK then become ESTABLISHED else keep
  | SYN_SENT =>
      if is_set flags ACK && is_set flags SYN then reply ESTABLISHED ACK else keep
  | ESTABLISHED =>
      if is_set flags FIN then reply CLOSE_WAIT ACK else
      if 0 <? payload_length then
        if ringbuffer_unused (tcp_in c) <? payload_length then keep else
        '(rb, rc) ← ringbuffer_write (tcp_in c) payload payload_length;
        c_assert (negb (ringbuffer_isempty rb)) ;;
        Ok (set_con p (set_rcv (u32 (rcv_nxt c + rc)) true (set_bufs rb (tcp_out c) c)) s)
      else keep
  | FIN_WAIT1 =>
      if is_set flags ACK && is_set flags FIN then reply TIME_WAIT ACK else
      if is_set flags ACK then become FIN_WAIT2 else
      if is_set flags FIN then reply CLOSING ACK else keep
  | LAST_ACK => if is_set flags ACK then tcp_destroy_connection p c s else keep
  | FIN_WAIT2 =>
      if is_set flags FIN then
        '(c, s) ← send_empty irq p (set_state CLOSED c) ACK s;
        tcp_destroy_connection p c s
      else keep
  | _ => keep
  end.

(** The fields of a received header, in host order. *)
Record segment : Type := mkSegment {
  sg_src_port : Z; sg_dst_port : Z; sg_seq : Z; sg_ack : Z; sg_flags : Z; sg_window : Z
}.

Definition parse_header (payload : list Z) : outcome segment :=
  sp ← le16_at payload 0; dp ← le16_at payload 2; sq ← le32_at payload 4;
  ak ← le32_at payload 8; fl ← aread payload 13; wn ← le16_at payload 14;
  Ok (mkSegment (htons sp) (htons dp) (htonl sq) (htonl ak) fl (htons wn)).

(** [handle_tcp] from the point where the connection is known. *)
Definition tcp_process (irq : list (net -> net)) (p : Z) (sg : segment) (payload : list Z)
    (payload_length : Z) (s : tcp_sys) : outcome tcp_sys :=
  c ← deref (conns s !! p);
  let c := if bool_decide (state c = LISTEN) || bool_decide (state c = SYN_SENT)
           then set_rcv (sg_seq sg) (should_send_ack c) c else c in
  let s := set_con p c s in
  if snd_max c <? sg_ack sg then Ok s else
  if sg_ack sg <? snd_una c then Ok s else
  if negb (rcv_nxt c =? sg_seq sg) then Ok s else
  let c := set_snd (sg_ack sg) (snd_nxt c) (snd_max c) (sg_window sg) c in
  let nxt := u32 (rcv_nxt c + c_int (is_set (sg_flags sg) FIN)) in
  let nxt := u32 (nxt + c_int (is_set (sg_flags sg) SYN)) in
  tcp_receive irq p (set_rcv nxt (should_send_ack c) c) (sg_flags sg) payload
    payload_length s.

Definition handle_tcp (irq : list (net -> net)) (junk : bool) (src_ip dst_ip : Z)
    (payload : list Z) (payload_length : Z) (s : tcp_sys) : outcome tcp_sys :=
  off ← data_offset payload;
  let tcp_payload_length := u32 (payload_length - off * 4) in
  let tcp_payload := zdrop (off * 4) payload in
  checksum ← tcp_calculate_checksum src_ip dst_ip tcp_payload (u16 tcp_payload_length)
               payload payload_length;
  stored ← le16_at payload 16;
  if negb (stored =? checksum) then Ok s else
  sg ← parse_header payload;
  '(found, s) ← (if sg_flags sg =? SYN
                 then tcp_connect_to_listen junk src_ip (sg_src_port sg) (sg_dst_port sg) s
                 else p ← tcp_find_connection (sg_src_port sg) (sg_dst_port sg) s; Ok (p, s));
  match found with
  | None => Ok s
  | Some p => tcp_process irq p sg tcp_payload tcp_payload_length s
  end.
End Connections.

Arguments tcp_sys : clear implicits.

(** ** The state machine *)

(** The transitions a segment with the given flags may cause; [None] is a
    connection that has been freed. *)
Inductive tcp_step (flags : Z) : tcp_state -> option tcp_state -> Prop :=
| step_stay s : tcp_step flags s (Some s)
| step_syn : is_set flags SYN = true -> tcp_step flags LISTEN (Some SYN_RECIEVED)
| step_opened : is_set flags ACK = true -> tcp_step flags SYN_RECIEVED (Some ESTABLISHED)
| step_connected : is_set flags ACK = true -> is_set flags SYN = true ->
    tcp_step flags SYN_SENT (Some ESTABLISHED)
| step_peer_closed : is_set flags FIN = true -> tcp_step flags ESTABLISHED (Some CLOSE_WAIT)
| step_both_closed : is_set flags ACK = true -> is_set flags FIN = true ->
    tcp_step flags FIN_WAIT1 (Some TIME_WAIT)
| step_acked : is_set flags ACK = true -> is_set flags FIN = false ->
    tcp_step flags FIN_WAIT1 (Some FIN_WAIT2)
| step_closing : is_set flags FIN = true -> is_set flags ACK = false ->
    tcp_step flags FIN_WAIT1 (Some CLOSING)
| step_last_ack s : is_set flags ACK = true -> s = None \/ s = Some CLOSED ->
    tcp_step flags LAST_ACK s
| step_finished s : is_set flags FIN = true -> s = None \/ s = Some CLOSED ->
    tcp_step flags FIN_WAIT2 s.

#[export] Hint Constructors tcp_step : sbos.

(** What sending and receiving leave alone. *)
Record same_stream (c c' : TcpConnection) : Prop := {
  ss_state : state c' = state c;
  ss_in : tcp_in c' = tcp_in c;
  ss_rcv : rcv_nxt c' = rcv_nxt c;
  ss_una : snd_una c' = snd_una c /\ snd_wnd c' = snd_wnd c;
  ss_ports : tcp_in_port c' = tcp_in_port c /\ tcp_out_port c' = tcp_out_port c
}.

Lemma tcp_send_empty_stream irq c flags st c' st' :
  tcp_send_empty_payload irq c flags st = Ok (c', st') -> same_stream c c'.
Proof.
  unfold tcp_send_empty_payload. intros Hs. destruct (send_segment _ _ _ _ _ _ _); try done.
  cbn [mbind outcome_bind] in Hs. injection Hs as <- _. by destruct (is_set flags ACK).
Qed.

(** Reads off an [Ok] result that every step before it returned. *)
Ltac bind_ok Hyp :=
  match type of Hyp with
  | mbind _ ?m = Ok _ =>
    let E := fresh "E" in destruct m eqn:E; cbn [mbind outcome_bind] in Hyp; try discriminate Hyp
  end.

Section Machine.
Context {H : Type} `{Allocator H}.
Implicit Types (s : tcp_sys H) (c : TcpConnection).

Lemma send_empty_spec irq p c flags s c' s' :
  send_empty irq p c flags s = Ok (c', s') ->
  same_stream c c' /\ conns s' = <[p := c']> (conns s) /\
  open_tcp_connections s' = open_tcp_connections s /\ sys_heap s' = sys_heap s.
Proof.
  unfold send_empty. intros Hs. bind_ok Hs. destruct a as [c1 st1]. injection Hs as <- <-.
  split; [|done]. by eapply tcp_send_empty_stream.
Qed.

(** The connections other than [p] are those of [s]. *)
Definition only_at (p : Z) s s' : Prop := forall q, q <> p -> conns s' !! q = conns s !! q.

Lemma tcp_destroy_spec p c s s' :
  tcp_destroy_connection p c s = Ok s' ->
  only_at p s s' /\
  (conns s' !! p = None \/ conns s' !! p = Some (set_state CLOSED c)).
Proof.
  unfold tcp_destroy_connection, tcp_remove_connection. cbn [conns open_tcp_connections set_con].
  destruct (find_slot _ p 0) as [i|].
  - rewrite lookup_insert_eq. cbn [deref mbind outcome_bind].
    destruct (ringbuffer_free _ _) as [r1 h1]. destruct (ringbuffer_free _ _) as [r2 h2].
    intros [= <-]. split; [|left; apply lookup_delete_eq].
    intros q Hq. cbn [conns]. by rewrite lookup_delete_ne, lookup_insert_ne by done.
  - intros [= <-]. split; [|right; apply lookup_insert_eq].
    intros q Hq. cbn [conns set_con]. by rewrite lookup_insert_ne.
Qed.

Lemma only_at_set p c s : only_at p s (set_con p c s).
Proof. intros q Hq. cbn. by rewrite lookup_insert_ne. Qed.

Lemma send_empty_only irq p c flags s c' s' :
  send_empty irq p c flags s = Ok (c', s') ->
  only_at p s s' /\ conns s' !! p = Some c' /\ state c' = state c.
Proof.
  intros Hs. destruct (send_empty_spec _ _ _ _ _ _ _ Hs) as (Hss & Hc & _).
  rewrite Hc. split_and!.
  - intros q Hq. rewrite Hc. by rewrite lookup_insert_ne.
  - apply lookup_insert_eq.
  - apply Hss.
Qed.

Lemma only_at_trans p s1 s2 s3 : only_at p s1 s2 -> only_at p s2 s3 -> only_at p s1 s3.
Proof. intros H1 H2 q Hq. by rewrite H2, H1. Qed.

(** A step that only stores a connection with the given state. *)
Lemma become_step flags p c from s st :
  state c = st -> tcp_step flags from (Some st) ->
  only_at p s (set_con p c s) /\
  tcp_step flags from (state <$> conns (set_con p c s) !! p).
Proof.
  intros Hst Hs. split; [apply only_at_set|]. cbn [conns set_con].
  rewrite lookup_insert_eq. cbn. by rewrite Hst.
Qed.

(** A step that answers with a segment. *)
Lemma reply_step irq flags p c from fl s s' :
  ('(_, s1) ← send_empty irq p c fl s; Ok s1) = Ok s' -> tcp_step flags from (Some (state c)) ->
  only_at p s s' /\ tcp_step flags from (state <$> conns s' !! p).
Proof.
  intros Hs Ht. bind_ok Hs. destruct a as [c1 s1]. injection Hs as <-.
  destruct (send_empty_only _ _ _ _ _ _ _ E) as (Ho & Hp & Hst). split; [done|].
  rewrite Hp. cbn. by rewrite Hst.
Qed.

Lemma destroy_step flags p c from s s0 s' :
  tcp_destroy_connection p c s = Ok s' -> only_at p s0 s ->
  (forall st, st = None \/ st = Some CLOSED -> tcp_step flags from st) ->
  only_at p s0 s' /\ tcp_step flags from (state <$> conns s' !! p).
Proof.
  intros Hd Ho Ht. destruct (tcp_destroy_spec _ _ _ _ Hd) as [Ho' Hp].
  split; [by eapply only_at_trans|]. apply Ht. destruct Hp as [->| ->]; auto.
Qed.

(** One branch of the [switch], by the shape of what it returns. *)
Ltac tcp_branch Hr Hst :=
  lazymatch type of Hr with
  | Ok _ = Ok _ =>
    injection Hr as <-; first
      [ eapply become_step; [exact Hst|constructor]
      | eapply become_step; [reflexivity|eauto with sbos] ]
  | ('(_, s1) ← send_empty _ _ _ _ _; Ok s1) = Ok _ =>
    eapply reply_step; [exact Hr|cbn [state set_state]; eauto with sbos]
  | tcp_destroy_connection _ _ _ = Ok _ =>
    eapply destroy_step; [exact Hr|intros ? ?; reflexivity|eauto with sbos]
  end.

Lemma tcp_receive_step irq p c flags payload len s s' :
  tcp_receive irq p c flags payload len s = Ok s' ->
  only_at p s s' /\ tcp_step flags (state c) (state <$> conns s' !! p).
Proof.
  unfold tcp_receive. destruct (state c) eqn:Hst; intros Hr.
  - tcp_branch Hr Hst.
  - destruct (is_set flags SYN) eqn:?; tcp_branch Hr Hst.
  - destruct (is_set flags ACK) eqn:?, (is_set flags SYN) eqn:?; cbn [andb] in Hr;
      tcp_branch Hr Hst.
  - destruct (is_set flags ACK) eqn:?; tcp_branch Hr Hst.
  - destruct (is_set flags FIN) eqn:?; [tcp_branch Hr Hst|].
    destruct (0 <? len); [|tcp_branch Hr Hst].
    destruct (ringbuffer_unused (tcp_in c) <? len); [tcp_branch Hr Hst|].
    bind_ok Hr. destruct a as [rb rc]. bind_ok Hr. tcp_branch Hr Hst.
  - tcp_branch Hr Hst.
  - destruct (is_set flags ACK) eqn:?, (is_set flags FIN) eqn:?; cbn [andb] in Hr;
      tcp_branch Hr Hst.
  - tcp_branch Hr Hst.
  - destruct (is_set flags ACK) eqn:?; tcp_branch Hr Hst.
  - destruct (is_set flags FIN) eqn:?; [|tcp_branch Hr Hst].
    bind_ok Hr. destruct a as [c1 s1].
    destruct (send_empty_only _ _ _ _ _ _ _ E) as (Ho & _).
    eapply destroy_step; [exact Hr|exact Ho|eauto with sbos].
  - tcp_branch Hr Hst.
Qed.
End Machine.

(** ** socket.c: reading from a connection *)

Definition ENOTCONN : Z := 56.
Definition EAGAIN : Z := 6.

(** [tcp_read]: the result, and the bytes stored in the caller's buffer. *)
Definition tcp_read (c : TcpConnection) (len : Z) : outcome (TcpConnection * Z * list Z) :=
  '(rb, d, rc) ← ringbuffer_read (tcp_in c) true (u32 len);
  let c := set_bufs rb (tcp_out c) c in
  if (rc =? 0) && (0 <? len) then
    Ok (c, if decide (state c = ESTABLISHED) then - EAGAIN else - ENOTCONN, [])
  else Ok (c, i32 rc, default [] d).

Section Stream.
Context {H : Type} `{Allocator H}.
Implicit Types (s : tcp_sys H) (c : TcpConnection).

Lemma tcp_process_step irq p sg payload len s s' c :
  conns s !! p = Some c -> tcp_process irq p sg payload len s = Ok s' ->
  only_at p s s' /\ tcp_step (sg_flags sg) (state c) (state <$> conns s' !! p).
Proof.
  intros Hp. unfold tcp_process. rewrite Hp. cbn [deref mbind outcome_bind].
  set (c1 := if bool_decide (state c = LISTEN) || bool_decide (state c = SYN_SENT)
             then set_rcv (sg_seq sg) (should_send_ack c) c else c).
  assert (Hst : state c1 = state c) by (unfold c1; by case_goal).
  assert (Hkeep : only_at p s (set_con p c1 s) /\
    tcp_step (sg_flags sg) (state c) (state <$> conns (set_con p c1 s) !! p)).
  { eapply become_step; [exact Hst|constructor]. }
  destruct (snd_max c1 <? sg_ack sg); [by intros [= <-]|].
  destruct (sg_ack sg <? snd_una c1); [by intros [= <-]|].
  destruct (negb (rcv_nxt c1 =? sg_seq sg)); [by intros [= <-]|].
  intros Hr. apply tcp_receive_step in Hr as [Ho Ht].
  split; [eapply only_at_trans; [apply only_at_set|exact Ho]|].
  cbn [state set_rcv set_snd] in Ht. by rewrite Hst in Ht.
Qed.

Lemma find_con_found f (m : gmap Z TcpConnection) slots i j p :
  find_con f m slots i = Ok (Some (j, p)) -> exists c, m !! p = Some c /\ f p c = true.
Proof.
  revert i. induction slots as [|[q|] slots IH]; intros i; cbn [find_con]; [done| |apply IH].
  destruct (m !! q) as [c|] eqn:Hq; cbn [deref mbind outcome_bind]; [|done].
  destruct (f q c) eqn:Hf; [|apply IH]. intros [= _ <-]. by exists c.
Qed.

(** Opening a connection changes no state of the connections there are. *)
Lemma tcp_connect_to_listen_spec junk src_ip sp dp s np s' :
  (forall np h, kmalloc 136 (sys_heap s) = (Some np, h) -> conns s !! np = None) ->
  tcp_connect_to_listen junk src_ip sp dp s = Ok (np, s') ->
  (forall q c, conns s !! q = Some c ->
     exists c', conns s' !! q = Some c' /\ state c' = state c) /\
  (forall p, np = Some p -> conns s !! p = None /\
     exists c, conns s' !! p = Some c /\ state c = LISTEN).
Proof.
  intros Hfresh. unfold tcp_connect_to_listen. intros Hr. bind_ok Hr.
  destruct a as [[j lp]|].
  2: { injection Hr as <- <-. split; [|done]. intros q c Hq. by exists c. }
  destruct (find_con_found _ _ _ _ _ _ E) as (l & Hl & _).
  rewrite Hl in Hr. cbn [deref mbind outcome_bind] in Hr.
  destruct (kmalloc 136 (sys_heap s)) as [[q|] h] eqn:Ek; cbn [deref mbind outcome_bind] in Hr;
    [|done].
  specialize (Hfresh q h eq_refl).
  assert (Hne : lp <> q) by (intros ->; congruence).
  destruct (ringbuffer_init 8192 h) as [[out ok1] h1].
  destruct (ringbuffer_init (65535 * 64) h1) as [[inb ok2] h2].
  injection Hr as <- <-. cbn [conns]. split.
  - intros r c Hr. destruct (decide (r = lp)) as [->|Hrl].
    + rewrite lookup_insert_eq. eexists. split; [done|]. cbn. congruence.
    + rewrite lookup_insert_ne by done. assert (r <> q) by congruence.
      rewrite lookup_insert_ne by done. by exists c.
  - intros p [= <-]. split; [done|]. rewrite lookup_insert_ne by done.
    rewrite lookup_insert_eq. by eexists.
Qed.

(** C13: whatever bytes arrive, each connection there is makes at most one of
    the transitions of the TCP state machine, and only one the flags of the
    segment permit; connections the segment is not for keep their state. *)
Theorem handle_tcp_transitions irq junk src_ip dst_ip payload len s s' q c :
  (forall np h, kmalloc 136 (sys_heap s) = (Some np, h) -> conns s !! np = None) ->
  conns s !! q = Some c ->
  handle_tcp irq junk src_ip dst_ip payload len s = Ok s' ->
  tcp_step (default 0 (znth payload 13)) (state c) (state <$> conns s' !! q).
Proof.
  intros Hfresh Hq. unfold handle_tcp. intros Hr. bind_ok Hr. bind_ok Hr. bind_ok Hr.
  assert (Hstay : forall f, tcp_step f (state c) (state <$> conns s !! q)).
  { intros f. rewrite Hq. constructor. }
  destruct (negb (a1 =? a0)); [injection Hr as <-; apply Hstay|].
  bind_ok Hr.
  assert (Hfl : default 0 (znth payload 13) = sg_flags a2).
  { unfold parse_header in E2. do 4 bind_ok E2. bind_ok E2. bind_ok E2. injection E2 as <-.
    cbn [sg_flags]. unfold aread, deref in E7. destruct (znth payload 13); [|done].
    by injection E7 as ->. }
  rewrite Hfl. destruct (sg_flags a2 =? SYN).
  - destruct (tcp_connect_to_listen _ _ _ _ s) as [[np s1]| | |] eqn:Ec; try done.
    cbn [mbind outcome_bind] in Hr.
    destruct (tcp_connect_to_listen_spec _ _ _ _ _ _ _ Hfresh Ec) as [Hold Hnew].
    destruct (Hold q c Hq) as (c1 & Hq1 & Hst1).
    destruct np as [p|].
    + destruct (Hnew p eq_refl) as (Hnone & cn & Hp & _).
      destruct (tcp_process_step _ _ _ _ _ _ _ _ Hp Hr) as [Ho _].
      rewrite Ho by congruence. rewrite Hq1. cbn. rewrite Hst1. constructor.
    + injection Hr as <-. rewrite Hq1. cbn. rewrite Hst1. constructor.
  - destruct (tcp_find_connection _ _ s) as [[p|]| | |] eqn:Ef; try done;
      cbn [mbind outcome_bind] in Hr; [|injection Hr as <-; apply Hstay].
    assert (Hp : exists cp, conns s !! p = Some cp).
    { unfold tcp_find_connection in Ef. bind_ok Ef. destruct a3 as [[j p']|]; [|done].
      injection Ef as ->. destruct (find_con_found _ _ _ _ _ _ E3) as (cp & Hcp & _). by exists cp. }
    destruct Hp as (cp & Hp).
    destruct (tcp_process_step _ _ _ _ _ _ _ _ Hp Hr) as [Ho Ht].
    destruct (decide (q = p)) as [->|Hne].
    + rewrite Hq in Hp. injection Hp as ->. exact Ht.
    + rewrite Ho by done. apply Hstay.
Qed.

(** ** The receive stream *)

Lemma is_set_false_c_int f b : is_set f b = false -> c_int (is_set f b) = 0.
Proof. by intros ->. Qed.

(** A segment without SYN and FIN on an open connection: it is taken as a
    whole or not at all, and [rcv_nxt] moves by what was taken. *)
Lemma tcp_process_data irq p sg data len s c :
  let refused := snd_max c < sg_ack sg \/ sg_ack sg < snd_una c \/ rcv_nxt c <> sg_seq sg \/
    len = 0 \/ ringbuffer_unused (tcp_in c) < len in
  conns s !! p = Some c -> state c = ESTABLISHED -> rb_inv (tcp_in c) ->
  is_set (sg_flags sg) SYN = false -> is_set (sg_flags sg) FIN = false ->
  fits 32 (rcv_nxt c) -> 0 <= len <= zlen data -> len < 2 ^ 31 ->
  exists s' c', tcp_process irq p sg data len s = Ok s' /\
    conns s' !! p = Some c' /\ state c' = ESTABLISHED /\ rb_inv (tcp_in c') /\
    (rcv_nxt c' = rcv_nxt c /\ rb_contents (tcp_in c') = rb_contents (tcp_in c) /\ refused \/
     sg_seq sg = rcv_nxt c /\ rcv_nxt c' = u32 (rcv_nxt c + len) /\
     rb_contents (tcp_in c') = rb_contents (tcp_in c) ++ ztake len data).
Proof.
  intros refused Hp Hst Hrb Hsyn Hfin Hn Hl Hz.
  unfold tcp_process. rewrite Hp. cbn [deref mbind outcome_bind]. rewrite Hst.
  change (bool_decide (ESTABLISHED = LISTEN) || bool_decide (ESTABLISHED = SYN_SENT))
    with false. cbn iota.
  assert (Hkeep : forall cc, state cc = ESTABLISHED -> tcp_in cc = tcp_in c ->
    rcv_nxt cc = rcv_nxt c -> refused -> forall s0, exists s' c', Ok (set_con p cc s0) = Ok s' /\
    conns s' !! p = Some c' /\ state c' = ESTABLISHED /\ rb_inv (tcp_in c') /\
    (rcv_nxt c' = rcv_nxt c /\ rb_contents (tcp_in c') = rb_contents (tcp_in c) /\ refused \/
     sg_seq sg = rcv_nxt c /\ rcv_nxt c' = u32 (rcv_nxt c + len) /\
     rb_contents (tcp_in c') = rb_contents (tcp_in c) ++ ztake len data)).
  { intros cc Hcs Hci Hcn Href s0. eexists _, cc. split; [done|]. cbn [conns set_con].
    rewrite lookup_insert_eq. rewrite Hci. split_and!; try done. by left. }
  destruct (Z.ltb_spec (snd_max c) (sg_ack sg)); [apply Hkeep; done || (unfold refused; lia)|].
  destruct (Z.ltb_spec (sg_ack sg) (snd_una c)); [apply Hkeep; done || (unfold refused; lia)|].
  destruct (Z.eqb_spec (rcv_nxt c) (sg_seq sg)) as [Hseq|]; cbn [negb];
    [|apply Hkeep; done || (unfold refused; lia)].
  rewrite Hsyn, Hfin. cbn [c_int]. unfold fits in Hn.
  change (rcv_nxt (set_snd _ _ _ _ c)) with (rcv_nxt c).
  rewrite !Z.add_0_r, !(u32_small (rcv_nxt c)) by lia.
  set (c1 := set_rcv _ _ _). unfold tcp_receive.
  change (state c1) with (state c). rewrite Hst, Hfin.
  destruct (Z.ltb_spec 0 len); [|apply Hkeep; done || (unfold refused; lia)].
  change (tcp_in c1) with (tcp_in c). change (rcv_nxt c1) with (rcv_nxt c).
  destruct (Z.ltb_spec (ringbuffer_unused (tcp_in c)) len);
    [apply Hkeep; done || (unfold refused; lia)|].
  destruct (rb_write_spec (tcp_in c) data len) as (rb & -> & Hi & Hc & _);
    [done|lia|lia|]. rewrite Z.min_l in * by lia. cbn [mbind outcome_bind].
  rewrite rb_isempty_contents by done.
  rewrite bool_decide_eq_false_2.
  2: { rewrite Hc. intros [_ Hnil]%app_eq_nil.
       assert (Hzl : zlen (ztake len data) = len) by (apply zlen_ztake; lia).
       rewrite Hnil, zlen_nil in Hzl. lia. }
  cbn [negb c_assert mbind outcome_bind]. eexists _, _. split; [done|].
  cbn [conns set_con]. rewrite lookup_insert_eq. split; [done|].
  cbn [state tcp_in rcv_nxt set_rcv set_bufs c1 set_snd]. split_and!; try done. right. done.
Qed.

(** What happens to an open connection: a segment arrives, or its owner reads. *)
Inductive tcp_event : Type :=
| Segment (sg : segment) (data : list Z)
| ReadCall (len : Z).

Definition tcp_event_run (irq : list (net -> net)) (p : Z) (e : tcp_event)
    (so : tcp_sys H * list Z) : outcome (tcp_sys H * list Z) :=
  let '(s, out) := so in
  match e with
  | Segment sg data => s ← tcp_process irq p sg data (zlen data) s; Ok (s, out)
  | ReadCall len =>
    c ← deref (conns s !! p);
    '(c, _, d) ← tcp_read c len;
    Ok (set_con p c s, out ++ d)
  end.

Fixpoint tcp_events_run (irq : list (net -> net)) (p : Z) (es : list tcp_event)
    (so : tcp_sys H * list Z) : outcome (tcp_sys H * list Z) :=
  match es with
  | [] => Ok so
  | e :: es => so ← tcp_event_run irq p e so; tcp_events_run irq p es so
  end.

(** The segments of a peer that sends [stream] with initial number [base]:
    any piece of the stream, any number of times, in any order. *)
Definition event_ok (base : Z) (stream : list Z) (e : tcp_event) : Prop :=
  match e with
  | Segment sg data =>
    is_set (sg_flags sg) SYN = false /\ is_set (sg_flags sg) FIN = false /\
    exists off, 0 <= off /\ off + zlen data <= zlen stream /\
      sg_seq sg = base + off /\ data = slice off (zlen data) stream
  | ReadCall len => 0 <= len < 2 ^ 31
  end.

(** [out] was read and the buffer holds the rest of what arrived. *)
Record stream_inv (base : Z) (stream : list Z) (p : Z) (s : tcp_sys H) (out : list Z)
    (n : Z) (c : TcpConnection) : Prop := {
  si_con : conns s !! p = Some c;
  si_state : state c = ESTABLISHED;
  si_rb : rb_inv (tcp_in c);
  si_n : 0 <= n <= zlen stream;
  si_nxt : rcv_nxt c = base + n;
  si_data : out ++ rb_contents (tcp_in c) = ztake n stream
}.

Lemma tcp_read_spec c len :
  rb_inv (tcp_in c) -> 0 <= len < 2 ^ 31 ->
  exists rc d rb, tcp_read c len = Ok (set_bufs rb (tcp_out c) c, rc, d) /\ rb_inv rb /\
    d ++ rb_contents rb = rb_contents (tcp_in c) /\
    zlen d = Z.min len (zlen (rb_contents (tcp_in c))).
Proof.
  intros Hr Hl. unfold tcp_read. rewrite u32_small by lia.
  destruct (rb_room_contents _ Hr) as (_ & Hu & _ & _).
  destruct (rb_read_spec (tcp_in c) true len) as (rb & -> & Hi & Hc & _); [done|lia|].
  cbn [mbind outcome_bind]. rewrite Hu in *. pose proof (zlen_nonneg (rb_contents (tcp_in c))).
  set (n := Z.min len (zlen (rb_contents (tcp_in c)))) in *.
  destruct ((n =? 0) && (0 <? len)) eqn:E; eexists _, _, rb; (split; [reflexivity|]).
  - breflect. split_and!; try done.
    rewrite Hc. replace n with 0 by lia. done.
  - cbn [default from_option id]. split_and!; try done.
    + by rewrite Hc, ztake_zdrop.
    + rewrite zlen_ztake; lia.
Qed.

Lemma tcp_event_stream irq base stream p e s out n c :
  0 <= base -> base + zlen stream < 2 ^ 31 ->
  event_ok base stream e -> stream_inv base stream p s out n c ->
  exists s' out' n' c', tcp_event_run irq p e (s, out) = Ok (s', out') /\
    n <= n' /\ stream_inv base stream p s' out' n' c'.
Proof.
  intros Hb Hlim He [Hp Hst Hrb Hn Hx Hd]. destruct e as [sg data|len]; cbn [tcp_event_run].
  - destruct He as (Hsyn & Hfin & off & Ho1 & Ho2 & Hsq & Hdata). pose proof (zlen_nonneg data).
    destruct (tcp_process_data irq p sg data (zlen data) s c) as (s' & c' & -> & Hp' & Hst' & Hrb' & Hor);
      try done; try (unfold fits; lia). cbn [mbind outcome_bind].
    destruct Hor as [(Hsame & Hcs & _)|(Hsq2 & Hnx & Hcn)].
    + exists s', out, n, c'. split_and!; try done; try lia.
      split; try done; try lia; congruence.
    + assert (off = n) as -> by lia.
      exists s', out, (n + zlen data), c'. split_and!; try done; try lia.
      split; try done; try lia.
      * rewrite Hnx, Hx, u32_small; lia.
      * assert (Hcat : ztake n stream ++ slice n (zlen data) stream =
          ztake (n + zlen data) stream).
        { rewrite <- !slice_from_0, (slice_app 0 n (zlen data)) by lia. done. }
        rewrite Hcn, (ztake_all _ data) by done. rewrite app_assoc, Hd.
        rewrite Hdata at 1. exact Hcat.
  - rewrite Hp. cbn [deref mbind outcome_bind].
    destruct (tcp_read_spec c len) as (rc & d & rb & -> & Hi & Hdd & _); try done.
    cbn [mbind outcome_bind]. eexists _, _, n, _. split_and!; [done|lia|].
    split; cbn [conns set_con]; [by rewrite lookup_insert_eq|done|done|done|done|].
    cbn [tcp_in set_bufs]. by rewrite <- app_assoc, Hdd.
Qed.

Lemma tcp_events_stream irq base stream p es s out n c :
  0 <= base -> base + zlen stream < 2 ^ 31 ->
  Forall (event_ok base stream) es -> stream_inv base stream p s out n c ->
  exists s' out' n' c', tcp_events_run irq p es (s, out) = Ok (s', out') /\
    n <= n' /\ stream_inv base stream p s' out' n' c'.
Proof.
  intros Hb Hlim Hes. revert s out n c. induction Hes as [|e es He _ IH]; intros s out n c Hi.
  { by exists s, out, n, c. }
  destruct (tcp_event_stream irq base stream p e s out n c)
    as (s1 & o1 & n1 & c1 & E & Hle & Hi1); try done.
  destruct (IH _ _ _ _ Hi1) as (s2 & o2 & n2 & c2 & E2 & Hle2 & Hi2).
  exists s2, o2, n2, c2. cbn [tcp_events_run]. rewrite E. cbn [mbind outcome_bind].
  split_and!; try done. lia.
Qed.

(** C2: the bytes a program reads from an open connection are a prefix of the
    stream its peer sends.  Segments of the stream may arrive late, twice, out
    of order or not at all, and reads may come at any time: the call never
    fails, and what was read plus what is buffered is always the first
    [rcv_nxt - base] bytes of the stream. *)
Theorem tcp_stream_in_order irq base stream p es s c :
  0 <= base -> base + zlen stream < 2 ^ 31 ->
  conns s !! p = Some c -> state c = ESTABLISHED -> rb_inv (tcp_in c) ->
  rb_contents (tcp_in c) = [] -> rcv_nxt c = base ->
  Forall (event_ok base stream) es ->
  exists s' out n c', tcp_events_run irq p es (s, []) = Ok (s', out) /\
    conns s' !! p = Some c' /\ rcv_nxt c' = base + n /\ 0 <= n <= zlen stream /\
    out ++ rb_contents (tcp_in c') = ztake n stream.
Proof.
  intros Hb Hlim Hp Hst Hrb Hc Hn Hes.
  destruct (tcp_events_stream irq base stream p es s [] 0 c)
    as (s' & out & n & c' & E & _ & Hi); try done.
  { split; try done; try lia. pose proof (zlen_nonneg stream). lia. }
  destruct Hi. exists s', out, n, c'. split_and!; try done; lia.
Qed.
End Stream.

(** ** A segment from sender to receiver *)

Lemma zlen_tcp_header sp dp sq ak fl wn ck : zlen (tcp_header sp dp sq ak fl wn ck) = 20.
Proof. done. Qed.

(** The pieces of a header around its checksum. *)
Definition tcp_header_front (sp dp sq ak fl wn : Z) : list Z :=
  le16_bytes (htons sp) ++ le16_bytes (htons dp) ++ le32_bytes (htonl sq) ++
  le32_bytes (htonl ak) ++ [Z.shiftl 5 4; fl] ++ le16_bytes (htons (u16 wn)).

Lemma tcp_header_split sp dp sq ak fl wn ck rest :
  tcp_header sp dp sq ak fl wn ck ++ rest =
  tcp_header_front sp dp sq ak fl wn ++ le16_bytes ck ++ [0; 0] ++ rest.
Proof. done. Qed.

Lemma even_update_app t a b n :
  zlen a = n -> tcp_checksum_even_update t (a ++ b) n = tcp_checksum_even_update t a n.
Proof.
  intros Hn. unfold tcp_checksum_even_update. rewrite zlen_app, Hn.
  pose proof (zlen_nonneg b). destruct (Z.ltb_spec (n + zlen b) n); [lia|].
  destruct (Z.ltb_spec n n); [lia|]. by rewrite ztake_app_exact, ztake_all by done.
Qed.

Lemma checksum_final_app t a b n :
  zlen a = n -> tcp_checksum_final t (a ++ b) n = tcp_checksum_final t a n.
Proof.
  intros Hn. pose proof (zlen_nonneg a). unfold tcp_checksum_final. rewrite zlen_app, Hn.
  pose proof (zlen_nonneg b). destruct (Z.ltb_spec (n + zlen b) n); [lia|].
  destruct (Z.ltb_spec n n); [lia|]. rewrite ztake_app_exact, ztake_all by done.
  destruct (Z.eqb_spec (n mod 2) 0) as [|Hodd]; [done|].
  assert (n <> 0) by (intros ->; done). unfold aread. by rewrite znth_app_l by lia.
Qed.

Lemma data_offset_header sp dp sq ak fl wn rest :
  data_offset (tcp_header_front sp dp sq ak fl wn ++ rest) = Ok 5.
Proof. done. Qed.

Lemma zlen_tcp_header_front sp dp sq ak fl wn : zlen (tcp_header_front sp dp sq ak fl wn) = 16.
Proof. done. Qed.

(** The checksum depends neither on the checksum field nor on what follows
    the segment in memory. *)
Lemma tcp_checksum_stable src dst payload n front ck tl junk1 junk2 total :
  data_offset front = Ok 5 -> zlen front = 16 -> zlen ck = 2 -> zlen tl = 2 ->
  zlen payload = n ->
  tcp_calculate_checksum src dst (payload ++ junk2) n (front ++ ck ++ tl ++ junk1) total =
  tcp_calculate_checksum src dst payload n (front ++ [0; 0] ++ tl) total.
Proof.
  intros Ho Hf Hc Ht Hz. unfold tcp_calculate_checksum.
  assert (Hd : forall r, data_offset (front ++ r) = Ok 5).
  { intros r. unfold data_offset, aread in *. by rewrite znth_app_l by lia. }
  rewrite !Hd. cbn [mbind outcome_bind]. change (u32 (5 * 4 - (16 + 2))) with 2.
  assert (H18 : forall c r, zlen c = 2 -> zdrop 18 (front ++ c ++ r) = r).
  { intros c r Hcz. rewrite app_assoc. apply zdrop_app_exact. rewrite zlen_app. lia. }
  rewrite !H18 by done.
  case_goal; [done|]. generalize (u16 (5 * 4 + n)). intros x.
  destruct (tcp_checksum_even_update 0 _ 4) as [t1| | |]; try reflexivity. cbn [mbind outcome_bind].
  destruct (tcp_checksum_even_update t1 _ 4) as [t2| | |]; try reflexivity.
  cbn [mbind outcome_bind].
  destruct (tcp_checksum_even_update t2 _ 2) as [t3| | |]; try reflexivity.
  cbn [mbind outcome_bind].
  destruct (tcp_checksum_even_update t3 _ 2) as [t4| | |]; try reflexivity.
  cbn [mbind outcome_bind]. rewrite !(even_update_app t4 front) by done.
  destruct (tcp_checksum_even_update t4 front 16) as [t5| | |]; try reflexivity.
  cbn [mbind outcome_bind]. rewrite (even_update_app t5 tl) by done.
  destruct (tcp_checksum_even_update t5 tl 2) as [t6| | |]; try reflexivity.
  cbn [mbind outcome_bind]. by rewrite checksum_final_app.
Qed.

Lemma tcp_checksum_final_ok t payload n :
  zlen payload = n -> exists c, tcp_checksum_final t payload n = Ok c.
Proof.
  intros Hz. pose proof (zlen_nonneg payload). unfold tcp_checksum_final. rewrite Hz.
  destruct (Z.ltb_spec n n); [lia|]. destruct (Z.eqb_spec (n mod 2) 0) as [|Hodd]; [by eexists|].
  destruct (znth_Some payload (n - 1)) as [b Hb].
  { assert (n <> 0) by (intros ->; done). lia. }
  rewrite (aread_ok _ _ _ Hb). by eexists.
Qed.

Lemma even_update_ok t buf sz :
  sz mod 2 = 0 -> sz <= zlen buf -> exists t', tcp_checksum_even_update t buf sz = Ok t'.
Proof.
  intros Hm Hs. unfold tcp_checksum_even_update. rewrite Hm.
  cbn [Z.eqb c_assert mbind outcome_bind]. destruct (Z.ltb_spec (zlen buf) sz); [lia|].
  by eexists.
Qed.

Lemma tcp_checksum_ok src dst payload n front tl :
  data_offset front = Ok 5 -> zlen front = 16 -> zlen tl = 2 ->
  zlen payload = n -> n < 2 ^ 15 ->
  exists c, tcp_calculate_checksum src dst payload n (front ++ [0; 0] ++ tl) (20 + n) = Ok c /\
    fits 16 c.
Proof.
  intros Ho Hf Ht Hz Hn. pose proof (zlen_nonneg payload). unfold tcp_calculate_checksum.
  assert (Hd : data_offset (front ++ [0; 0] ++ tl) = Ok 5).
  { unfold data_offset, aread in *. by rewrite znth_app_l by lia. }
  rewrite Hd. cbn [mbind outcome_bind]. rewrite i32_small by lia.
  destruct (Z.ltb_spec (20 + n) (5 + n)); [lia|].
  change (u32 (5 * 4 - (16 + 2))) with 2.
  assert (H18 : zdrop 18 (front ++ [0; 0] ++ tl) = tl).
  { rewrite app_assoc. apply zdrop_app_exact. rewrite zlen_app, Hf. done. }
  rewrite H18.
  set (pl := le16_bytes _). assert (Hpl : zlen pl = 2) by done. clearbody pl.
  assert (Hs : zlen (le32_bytes src) = 4) by done. assert (Hdz : zlen (le32_bytes dst) = 4) by done.
  destruct (even_update_ok 0 (le32_bytes src) 4) as [t1 ->]; [done|lia|]. cbn [mbind outcome_bind].
  destruct (even_update_ok t1 (le32_bytes dst) 4) as [t2 ->]; [done|lia|].
  cbn [mbind outcome_bind]. destruct (even_update_ok t2 [0; 6] 2) as [t3 ->]; [done|done|].
  cbn [mbind outcome_bind]. destruct (even_update_ok t3 pl 2) as [t4 ->]; [done|lia|].
  cbn [mbind outcome_bind]. rewrite (even_update_app t4 front) by done.
  destruct (even_update_ok t4 front 16) as [t5 ->]; [done|lia|].
  cbn [mbind outcome_bind]. destruct (even_update_ok t5 tl 2) as [t6 ->]; [done|lia|].
  cbn [mbind outcome_bind]. destruct (tcp_checksum_final_ok t6 payload n Hz) as [c ->].
  cbn [mbind outcome_bind]. eexists. split; [done|]. apply wrap_fits. lia.
Qed.

Lemma parse_header_ok sp dp sq ak fl wn ck rest :
  fits 16 sp -> fits 16 dp -> fits 32 sq -> fits 32 ak ->
  parse_header (tcp_header sp dp sq ak fl wn ck ++ rest) =
    Ok (mkSegment sp dp sq ak fl (u16 wn)).
Proof.
  intros Hsp Hdp Hsq Hak. unfold parse_header.
  assert (E16 : forall x, le16 (htons x mod 2 ^ 8) (htons x / 2 ^ 8 mod 2 ^ 8) = htons x)
    by (intros; apply le16_le16_bytes; apply wrap_fits; lia).
  assert (E32 : forall x, fits 32 x -> htonl (le32 (htonl x mod 2 ^ 8) (htonl x / 2 ^ 8 mod 2 ^ 8)
     (htonl x / 2 ^ 16 mod 2 ^ 8) (htonl x / 2 ^ 24 mod 2 ^ 8)) = x).
  { intros x Hx. destruct (htonl_involutive x Hx) as [Hi Hf]. by rewrite le32_split. }
  change (le16_at (tcp_header _ _ _ _ _ _ _ ++ rest) 0) with
    (Ok (le16 (htons sp mod 2 ^ 8) (htons sp / 2 ^ 8 mod 2 ^ 8))).
  change (le16_at (tcp_header _ _ _ _ _ _ _ ++ rest) 2) with
    (Ok (le16 (htons dp mod 2 ^ 8) (htons dp / 2 ^ 8 mod 2 ^ 8))).
  change (le16_at (tcp_header _ _ _ _ _ _ _ ++ rest) 14) with
    (Ok (le16 (htons (u16 wn) mod 2 ^ 8) (htons (u16 wn) / 2 ^ 8 mod 2 ^ 8))).
  change (le32_at (tcp_header _ _ _ _ _ _ _ ++ rest) 4) with
    (Ok (le32 (htonl sq mod 2 ^ 8) (htonl sq / 2 ^ 8 mod 2 ^ 8)
     (htonl sq / 2 ^ 16 mod 2 ^ 8) (htonl sq / 2 ^ 24 mod 2 ^ 8))).
  change (le32_at (tcp_header _ _ _ _ _ _ _ ++ rest) 8) with
    (Ok (le32 (htonl ak mod 2 ^ 8) (htonl ak / 2 ^ 8 mod 2 ^ 8)
     (htonl ak / 2 ^ 16 mod 2 ^ 8) (htonl ak / 2 ^ 24 mod 2 ^ 8))).
  change (aread (tcp_header _ _ _ _ _ _ _ ++ rest) 13) with (Ok fl).
  cbn [mbind outcome_bind]. rewrite !E16, !E32 by done.
  change (htons (htons ?x)) with (ntohs (htons x)).
  rewrite !ntohs_htons by (try done; apply wrap_fits; lia). done.
Qed.

(** The header of the segments a connection sends. *)
Definition con_header (con : TcpConnection) (flags ack ck : Z) : list Z :=
  tcp_header (tcp_in_port con) (tcp_out_port con) (snd_nxt con) ack flags (rcv_wnd con) ck.

Lemma send_segment_spec i irq con flags ack payload n st mac :
  net_wf st -> arp_known st (tcp_out_ip con) mac -> zlen payload = n -> n <= 1000 ->
  exists st' c hdr,
    send_segment (i :: irq) con flags ack payload n st = Ok st' /\
    tcp_calculate_checksum (ip_address st) (tcp_out_ip con) payload n
      (con_header con flags ack 0) (20 + n) = Ok c /\ fits 16 c /\
    ipv4_header (ip_address st) (tcp_out_ip con) 6 (20 + n) = Ok hdr /\
    sent_frame (ethernet_frame mac (mac_address st) 0x0800
      (words_bytes hdr ++ con_header con flags ack c ++ payload)) st st'.
Proof.
  intros Hw Hk Hz Hn. pose proof (zlen_nonneg payload). unfold send_segment.
  fold (con_header con flags ack 0).
  destruct (tcp_checksum_ok (ip_address st) (tcp_out_ip con) payload n
    (tcp_header_front (tcp_in_port con) (tcp_out_port con) (snd_nxt con) ack flags (rcv_wnd con))
    [0; 0]) as (c & Hc & Hcf); [done|done|done|done|lia|].
  change (tcp_header_front _ _ _ _ _ _ ++ [0; 0] ++ [0; 0])
    with (con_header con flags ack 0) in Hc.
  rewrite Hc. cbn [mbind outcome_bind]. fold (con_header con flags ack c).
  destruct (ipv4_header_ok (ip_address st) (tcp_out_ip con) 6 (20 + n)) as (ck & Hhdr & _ & _).
  set (hdr := <[5%nat := ck]> _) in Hhdr.
  destruct (nic_get_buffer_ok st Hw) as (st1 & buf & -> & Hh). cbn [mbind outcome_bind].
  pose proof (nic_holds_size _ _ _ Hh) as Hbz.
  destruct (cut_list 34 buf) as (eh & b1 & -> & He & Hb1); [lia|].
  destruct (cut_list 20 b1) as (th & b2 & -> & Hth & Hb2); [lia|].
  destruct (cut_list n b2) as (p & b3 & -> & Hp & Hb3); [lia|].
  destruct (cut_list 4 b3) as (t & rest & -> & Ht & Hrest); [lia|].
  destruct (cut_list 14 eh) as (e & h & -> & Hel & Hhl); [lia|].
  assert (Hch : zlen (con_header con flags ack c) = 20) by apply zlen_tcp_header.
  rewrite memcpy_at_app by lia. cbn [mbind outcome_bind].
  rewrite (ztake_all 20 (con_header con flags ack c)) by lia.
  rewrite (app_assoc (e ++ h)). rewrite memcpy_at_app by (rewrite ?zlen_app in *; lia).
  cbn [mbind outcome_bind]. rewrite (ztake_all n payload) by lia.
  destruct (nic_store_ok _ _ _ (((e ++ h) ++ con_header con flags ack c) ++
    payload ++ t ++ rest) Hh) as (st2 & -> & Hh2).
  { rewrite !zlen_app in *. lia. }
  cbn [mbind outcome_bind].
  replace (((e ++ h) ++ con_header con flags ack c) ++ payload ++ t ++ rest)
    with (e ++ h ++ (con_header con flags ack c ++ payload) ++ t ++ rest) in Hh2
    by (by rewrite <- !app_assoc).
  destruct (send_ipv4_packet2_spec i irq st st2 (tcp_out_ip con) 6 mac e h
    (con_header con flags ack c ++ payload) t rest (20 + n) hdr Hh2)
    as (st3 & Hs & Hf); try exact Hhdr; try done; try lia.
  { rewrite zlen_app. lia. }
  rewrite Hs. by exists st3, c, hdr.
Qed.

Lemma send_one_segment i irq con payload n st mac :
  net_wf st -> arp_known st (tcp_out_ip con) mac -> zlen payload = n -> n <= 1000 ->
  tcp_can_send con <> 0 ->
  exists st' c hdr con',
    send_tcp_packet (i :: irq) con payload n st = Ok (1, con', st') /\
    snd_nxt con' = u32 (snd_nxt con + n) /\
    tcp_calculate_checksum (ip_address st) (tcp_out_ip con) payload n
      (con_header con (Z.lor PSH ACK) (rcv_nxt con) 0) (20 + n) = Ok c /\ fits 16 c /\
    ipv4_header (ip_address st) (tcp_out_ip con) 6 (20 + n) = Ok hdr /\
    sent_frame (ethernet_frame mac (mac_address st) 0x0800
      (words_bytes hdr ++ con_header con (Z.lor PSH ACK) (rcv_nxt con) c ++ payload)) st st'.
Proof.
  intros Hw Hk Hz Hn Hcan. unfold send_tcp_packet. cbn [send_tcp_fuel].
  destruct (Z.eqb_spec (tcp_can_send con) 0); [done|]. rewrite Z.min_r by lia.
  destruct (Z.ltb_spec n n); [lia|]. unfold send_tcp_one.
  destruct (send_segment_spec i irq con (Z.lor PSH ACK) (rcv_nxt con) payload n st mac)
    as (st' & c & hdr & -> & Hc & Hcf & Hh & Hf); try done.
  cbn [mbind outcome_bind]. eexists st', c, hdr, _. by split_and!.
Qed.

Section Delivery.
Context {H : Type} `{Allocator H}.
Implicit Types (s : tcp_sys H).

(** A received segment with a good checksum reaches its connection. *)
Lemma handle_tcp_segment irq junk src dst sp dp sq ak fl wn c payload n crc s p :
  zlen payload = n -> n < 2 ^ 15 -> fits 16 c -> fits 16 sp -> fits 16 dp ->
  fits 32 sq -> fits 32 ak -> fl <> SYN ->
  tcp_calculate_checksum src dst payload n (tcp_header sp dp sq ak fl wn 0) (20 + n) = Ok c ->
  tcp_find_connection sp dp s = Ok (Some p) ->
  handle_tcp irq junk src dst (tcp_header sp dp sq ak fl wn c ++ payload ++ crc) (20 + n) s =
    tcp_process irq p (mkSegment sp dp sq ak fl (u16 wn)) (payload ++ crc) n s.
Proof.
  intros Hz Hn Hcf Hsp Hdp Hsq Hak Hfl Hck Hfind. pose proof (zlen_nonneg payload).
  unfold handle_tcp. rewrite tcp_header_split, data_offset_header.
  cbn [mbind outcome_bind]. rewrite <- tcp_header_split.
  rewrite (zdrop_app_exact (5 * 4)) by done.
  replace (20 + n - 5 * 4) with n by lia. rewrite u32_small, u16_small by lia.
  rewrite tcp_header_split.
  rewrite (tcp_checksum_stable src dst payload n _ (le16_bytes c) [0; 0]) by done.
  change (tcp_header_front sp dp sq ak fl wn ++ [0; 0] ++ [0; 0])
    with (tcp_header sp dp sq ak fl wn 0).
  rewrite Hck. cbn [mbind outcome_bind].
  rewrite <- tcp_header_split.
  change (le16_at (tcp_header _ _ _ _ _ _ _ ++ payload ++ crc) 16)
    with (Ok (le16 (c mod 2 ^ 8) (c / 2 ^ 8 mod 2 ^ 8))).
  rewrite le16_le16_bytes by done. cbn [mbind outcome_bind]. rewrite Z.eqb_refl. cbn [negb].
  rewrite parse_header_ok by done. cbn [mbind outcome_bind sg_flags sg_src_port sg_dst_port].
  destruct (Z.eqb_spec fl SYN); [done|]. by rewrite Hfind.
Qed.

(** Data sent on one side of an open connection arrives on the other: the
    segment leaves as one frame, survives the receiver's Ethernet, IPv4 and
    TCP checks, and if the receiver expects its sequence number and has room,
    its stream grows by exactly the bytes sent and both sides agree on the
    next sequence number. *)
Theorem tcp_data_delivered i irq irq' junk con st mac data s p c :
  net_wf st -> arp_known st (tcp_out_ip con) mac ->
  fits 32 (ip_address st) -> fits 32 (tcp_out_ip con) ->
  fits 16 (tcp_in_port con) -> fits 16 (tcp_out_port con) ->
  fits 32 (snd_nxt con) -> fits 32 (rcv_nxt con) ->
  0 < zlen data <= 1000 -> tcp_can_send con <> 0 ->
  tcp_find_connection (tcp_in_port con) (tcp_out_port con) s = Ok (Some p) ->
  conns s !! p = Some c -> state c = ESTABLISHED -> rb_inv (tcp_in c) ->
  rcv_nxt c = snd_nxt con -> snd_una c <= rcv_nxt con <= snd_max c ->
  zlen data <= ringbuffer_unused (tcp_in c) ->
  exists con' st' frame packet seg s' c',
    send_tcp_packet (i :: irq) con data (zlen data) st = Ok (1, con', st') /\
    sent_frame frame st st' /\
    handle_ethernet frame (zlen frame) = Ok (EthIpv4 packet (zlen packet)) /\
    handle_ipv4 packet (zlen packet) =
      Ok (IpTcp (ip_address st) (tcp_out_ip con) seg (20 + zlen data)) /\
    handle_tcp irq' junk (ip_address st) (tcp_out_ip con) seg (20 + zlen data) s = Ok s' /\
    conns s' !! p = Some c' /\
    rb_contents (tcp_in c') = rb_contents (tcp_in c) ++ data /\
    rcv_nxt c' = snd_nxt con'.
Proof.
  intros Hw Hk Hip Hoip Hsp Hdp Hsq Hak Hd Hcan Hfind Hp Hst Hrb Hnx Hack Hroom.
  destruct (send_one_segment i irq con data (zlen data) st mac)
    as (st' & ck & hdr & con' & Hsend & Hnxt & Hck & Hckf & Hhdr & Hf); try done; try lia.
  set (th := con_header con (Z.lor PSH ACK) (rcv_nxt con) ck) in *.
  assert (Hthz : zlen th = 20) by apply zlen_tcp_header.
  set (body := words_bytes hdr ++ th ++ data) in *.
  assert (Hwz : zlen (words_bytes hdr) = 20).
  { destruct (ipv4_header_ok (ip_address st) (tcp_out_ip con) 6 (20 + zlen data))
      as (x & E & _). rewrite E in Hhdr. by injection Hhdr as <-. }
  assert (Hbz : zlen body = 40 + zlen data) by (unfold body; rewrite !zlen_app; lia).
  destruct Hk as [_ _ _ [Hm1 Hm2]].
  assert (Hmz : zlen (mac_address st) = 6) by (by destruct Hw).
  set (frame := ethernet_frame mac (mac_address st) 0x0800 body) in *.
  assert (Hfz : zlen frame = 58 + zlen data).
  { unfold frame, ethernet_frame. rewrite !zlen_app, Hbz, Hm1, Hmz.
    change (zlen (le16_bytes _)) with 2. change (zlen (le32_bytes _)) with 4. lia. }
  destruct (handle_ethernet_frame mac (mac_address st) body (zlen frame))
    as (crc & Hcz & He); [done|done|lia|].
  assert (Hpz : zlen (body ++ crc) = zlen frame - 14) by (rewrite zlen_app; lia).
  rewrite <- Hpz in He.
  assert (Hv : handle_ipv4 (body ++ crc) (zlen (body ++ crc)) =
    Ok (IpTcp (ip_address st) (tcp_out_ip con) (th ++ data ++ crc) (20 + zlen data))).
  { unfold body. rewrite <- !app_assoc.
    rewrite (handle_ipv4_header (ip_address st) (tcp_out_ip con) 6 (20 + zlen data));
      try done; try lia. rewrite !zlen_app. lia. }
  pose proof (handle_tcp_segment irq' junk (ip_address st) (tcp_out_ip con)
    (tcp_in_port con) (tcp_out_port con) (snd_nxt con) (rcv_nxt con) (Z.lor PSH ACK)
    (rcv_wnd con) ck data (zlen data) crc s p eq_refl ltac:(lia) Hckf Hsp Hdp Hsq Hak
    ltac:(done) Hck Hfind) as Ht.
  set (sg := mkSegment _ _ _ _ _ _) in Ht. fold (con_header con (Z.lor PSH ACK) (rcv_nxt con) ck) in Ht.
  fold th in Ht.
  destruct (tcp_process_data irq' p sg (data ++ crc) (zlen data) s c)
    as (s' & c' & Hpr & Hp' & _ & _ & Hor); try done; try lia.
  { by rewrite Hnx. }
  { rewrite zlen_app. lia. }
  destruct Hor as [(_ & _ & Href)|(_ & Hn' & Hc')].
  { cbn [sg sg_ack sg_seq] in Href. lia. }
  rewrite ztake_app_exact in Hc' by done.
  exists con', st', frame, (body ++ crc), (th ++ data ++ crc), s', c'.
  split_and!; try done; congruence.
Qed.
End Delivery.

(** ** Malformed segments *)

Lemma even_update_fuelled t buf n : fuelled (tcp_checksum_even_update t buf n).
Proof. unfold tcp_checksum_even_update. fuelled. Qed.

(** C40: a segment whose header claims to be shorter than 20 bytes makes the
    checksum loop run almost through the whole address space: the size of the
    options, [data_offset * 4 - 18], wraps around. *)
Theorem tcp_short_header_faults {H} `{Allocator H} irq junk src dst payload len b (s : tcp_sys H) :
  znth payload 12 = Some b -> 0 <= b < 0x50 -> 20 <= len < 2 ^ 15 ->
  len <= zlen payload < 2 ^ 31 ->
  handle_tcp irq junk src dst payload len s = Fault.
Proof.
  intros Hb Hr Hl Hz. unfold handle_tcp, data_offset at 1. rewrite (aread_ok _ _ _ Hb).
  cbn [mbind outcome_bind]. set (off := Z.shiftr b 4).
  assert (Ho : 0 <= off < 5).
  { unfold off. rewrite Z.shiftr_div_pow2 by lia. split; [apply Z.div_pos; lia|].
    apply Z.div_lt_upper_bound; lia. }
  rewrite (u32_small (len - off * 4)), u16_small by lia.
  unfold tcp_calculate_checksum, data_offset. rewrite (aread_ok _ _ _ Hb).
  cbn [mbind outcome_bind]. fold off. rewrite i32_small by lia.
  destruct (Z.ltb_spec len (off + (len - off * 4))); [lia|].
  set (pl := le16_bytes _). assert (Hpl : zlen pl = 2) by done. clearbody pl.
  assert (Hs : zlen (le32_bytes src) = 4) by done. assert (Hd : zlen (le32_bytes dst) = 4) by done.
  destruct (even_update_ok 0 (le32_bytes src) 4) as [t1 ->]; [done|lia|]. cbn [mbind outcome_bind].
  destruct (even_update_ok t1 (le32_bytes dst) 4) as [t2 ->]; [done|lia|].
  cbn [mbind outcome_bind]. destruct (even_update_ok t2 [0; 6] 2) as [t3 ->]; [done|done|].
  cbn [mbind outcome_bind]. destruct (even_update_ok t3 pl 2) as [t4 ->]; [done|lia|].
  cbn [mbind outcome_bind]. destruct (even_update_ok t4 payload 16) as [t5 ->]; [done|lia|].
  cbn [mbind outcome_bind].
  assert (Hw : 2 ^ 31 <= u32 (off * 4 - (16 + 2)) /\ u32 (off * 4 - (16 + 2)) mod 2 = 0).
  { assert (off = 0 \/ off = 1 \/ off = 2 \/ off = 3 \/ off = 4) as Hc by lia.
    destruct Hc as [->|[->|[->|[->| ->]]]]; split; done. }
  destruct Hw as [Hw1 Hw2]. unfold tcp_checksum_even_update. rewrite Hw2.
  cbn [Z.eqb c_assert mbind outcome_bind]. rewrite zlen_zdrop by lia.
  destruct (Z.ltb_spec (zlen payload - 18) (u32 (off * 4 - (16 + 2)))); [done|lia].
Qed.

(** Data in a segment that also closes the connection is lost: it is not
    put in the buffer, and it is not acknowledged, because the sequence number
    moves by one only. *)
Theorem tcp_fin_drops_data {H} `{Allocator H} irq p sg data len (s s' : tcp_sys H) c :
  conns s !! p = Some c -> state c = ESTABLISHED ->
  is_set (sg_flags sg) FIN = true -> is_set (sg_flags sg) SYN = false ->
  snd_una c <= sg_ack sg <= snd_max c -> rcv_nxt c = sg_seq sg -> fits 31 (rcv_nxt c) ->
  tcp_process irq p sg data len s = Ok s' ->
  exists c', conns s' !! p = Some c' /\ state c' = CLOSE_WAIT /\
    rb_contents (tcp_in c') = rb_contents (tcp_in c) /\ rcv_nxt c' = rcv_nxt c + 1.
Proof.
  intros Hp Hst Hfin Hsyn Hack Hseq Hn. unfold tcp_process. rewrite Hp.
  cbn [deref mbind outcome_bind]. rewrite Hst.
  change (bool_decide (ESTABLISHED = LISTEN) || bool_decide (ESTABLISHED = SYN_SENT))
    with false. cbn iota.
  destruct (Z.ltb_spec (snd_max c) (sg_ack sg)); [lia|].
  destruct (Z.ltb_spec (sg_ack sg) (snd_una c)); [lia|].
  destruct (Z.eqb_spec (rcv_nxt c) (sg_seq sg)); [|done]. cbn [negb].
  rewrite Hfin, Hsyn. cbn [c_int]. change (rcv_nxt (set_snd _ _ _ _ c)) with (rcv_nxt c).
  unfold fits in Hn. rewrite Z.add_0_r, (u32_small (rcv_nxt c + 1)), u32_small by lia.
  set (c1 := set_rcv _ _ _). unfold tcp_receive. change (state c1) with (state c).
  rewrite Hst, Hfin. intros Hr. bind_ok Hr. destruct a as [c2 s2]. injection Hr as <-.
  destruct (send_empty_spec _ _ _ _ _ _ _ E) as (Hss & Hc & _).
  exists c2. rewrite Hc, lookup_insert_eq. destruct Hss as [S1 S2 S3 _ _].
  split_and!; [done|by rewrite S1|by rewrite S2|by rewrite S3].
Qed.

(** ** Samples *)

Definition tcp_rb_sample : ringbuffer :=
  mkRingbuffer (Some (Block 64 (replicate 16%nat 0))) 16 12 12.
Lemma tcp_rb_sample_inv : rb_inv tcp_rb_sample.
Proof. by constructor. Qed.

(** The two ends of a connection. *)
Definition tcp_sender : TcpConnection :=
  mkTcp ESTABLISHED 1337 (le32 10 0 0 2) (le32 10 0 0 9) 80 tcp_rb_sample tcp_rb_sample true
    65535 700 false 500 500 500 4096 [].
Definition tcp_receiver : TcpConnection :=
  mkTcp ESTABLISHED 80 (le32 10 0 0 9) (le32 10 0 0 2) 1337 tcp_rb_sample tcp_rb_sample true
    65535 500 false 700 700 700 4096 [].
Definition tcp_sample : tcp_sys Z :=
  mkSys {[ 4096 := tcp_receiver ]} [None; Some 4096] net_sample 8192.
Definition tcp_sample_out : tcp_sys Z :=
  mkSys {[ 4096 := tcp_sender ]} [Some 4096] net_sample 8192.

Lemma tcp_sample_fresh np h :
  kmalloc 136 (sys_heap tcp_sample_out) = (Some np, h) -> conns tcp_sample_out !! np = None.
Proof. intros [= <- _]. done. Qed.

Lemma net_sample_known : arp_known net_sample (le32 10 0 0 9) [2; 0; 0; 0; 0; 9].
Proof. by split. Qed.

(** The peer closes: FIN and ACK, with the checksum filled in. *)
Definition fin_segment : list Z := tcp_header 80 1337 700 500 17 4096 36993.

Definition state_at (p : Z) (o : outcome (tcp_sys Z)) : option tcp_state :=
  match o with Ok s => state <$> conns s !! p | _ => None end.

Lemma state_at_ok p o st :
  state_at p o = Some st -> exists s, o = Ok s /\ state <$> conns s !! p = Some st.
Proof. destruct o as [s| | |]; try done. intros Hs. by exists s. Qed.

Lemma handle_tcp_transitions_witness :
  exists s', handle_tcp [id] false (le32 10 0 0 9) (le32 10 0 0 2) fin_segment 20 tcp_sample_out
      = Ok s' /\
    tcp_step 17 ESTABLISHED (state <$> conns s' !! 4096) /\
    state <$> conns s' !! 4096 = Some CLOSE_WAIT.
Proof.
  assert (Hs : state_at 4096 (handle_tcp [id] false (le32 10 0 0 9) (le32 10 0 0 2)
    fin_segment 20 tcp_sample_out) = Some CLOSE_WAIT) by (vm_compute; reflexivity).
  destruct (state_at_ok _ _ _ Hs) as (s' & E & Hst).
  exists s'. split; [exact E|]. split; [|exact Hst].
  exact (handle_tcp_transitions [id] false (le32 10 0 0 9) (le32 10 0 0 2) fin_segment 20
    tcp_sample_out s' 4096 tcp_sender tcp_sample_fresh eq_refl E).
Defined.

Lemma tcp_fin_drops_data_witness :
  exists s' c', tcp_process [id] 4096 (mkSegment 80 1337 700 500 17 4096) [1; 2; 3] 3 tcp_sample_out
      = Ok s' /\
    conns s' !! 4096 = Some c' /\ state c' = CLOSE_WAIT /\
    rb_contents (tcp_in c') = [] /\ rcv_nxt c' = 701.
Proof.
  assert (Hs : state_at 4096 (tcp_process [id] 4096 (mkSegment 80 1337 700 500 17 4096)
    [1; 2; 3] 3 tcp_sample_out) = Some CLOSE_WAIT) by (vm_compute; reflexivity).
  destruct (state_at_ok _ _ _ Hs) as (s' & E & _).
  destruct (tcp_fin_drops_data [id] 4096 (mkSegment 80 1337 700 500 17 4096) [1; 2; 3] 3
    tcp_sample_out s' tcp_sender eq_refl eq_refl eq_refl eq_refl ltac:(cbn; lia) eq_refl
    ltac:(cbn; unfold fits; lia) E) as (c' & H1 & H2 & H3 & H4).
  exists s', c'. split; [exact E|]. split_and!; assumption.
Defined.

Lemma tcp_short_header_faults_witness :
  handle_tcp [id] false (le32 10 0 0 9) (le32 10 0 0 2)
    (replicate 12 0 ++ [0x40] ++ replicate 7 0) 20 tcp_sample_out = Fault.
Proof. by apply (tcp_short_header_faults [id] false _ _ _ 20 0x40). Defined.

(** Segments out of order and one of them twice, with a read in between. *)
Definition stream_events : list tcp_event :=
  [Segment (mkSegment 1337 80 502 700 24 4096) [3; 4];
   Segment (mkSegment 1337 80 500 700 24 4096) [1; 2]; ReadCall 1;
   Segment (mkSegment 1337 80 502 700 24 4096) [3; 4];
   Segment (mkSegment 1337 80 502 700 24 4096) [3; 4]].

Lemma stream_events_ok : Forall (event_ok 500 [1; 2; 3; 4; 5]) stream_events.
Proof.
  repeat constructor; try lia; (exists 0 + exists 2); split_and!; first [done | reflexivity | lia].
Qed.

Lemma tcp_stream_in_order_witness :
  exists s' out n c',
    tcp_events_run [id] 4096 stream_events (tcp_sample, []) = Ok (s', out) /\
    conns s' !! 4096 = Some c' /\ rcv_nxt c' = 500 + n /\
    out ++ rb_contents (tcp_in c') = ztake n [1; 2; 3; 4; 5].
Proof.
  destruct (tcp_stream_in_order [id] 500 [1; 2; 3; 4; 5] 4096 stream_events tcp_sample
    tcp_receiver ltac:(lia) eq_refl eq_refl eq_refl tcp_rb_sample_inv eq_refl eq_refl
    stream_events_ok) as (s' & out & n & c' & H1 & H2 & H3 & _ & H4).
  exists s', out, n, c'. repeat split; assumption.
Defined.

Lemma tcp_data_delivered_witness :
  exists con' st' frame packet seg s' c',
    send_tcp_packet [id] tcp_sender [1; 2; 3] (zlen [1; 2; 3]) net_sample = Ok (1, con', st') /\
    sent_frame frame net_sample st' /\
    handle_ethernet frame (zlen frame) = Ok (EthIpv4 packet (zlen packet)) /\
    handle_ipv4 packet (zlen packet) =
      Ok (IpTcp (ip_address net_sample) (tcp_out_ip tcp_sender) seg (20 + zlen [1; 2; 3])) /\
    handle_tcp [id] false (ip_address net_sample) (tcp_out_ip tcp_sender) seg
      (20 + zlen [1; 2; 3]) tcp_sample = Ok s' /\
    conns s' !! 4096 = Some c' /\
    rb_contents (tcp_in c') = rb_contents (tcp_in tcp_receiver) ++ [1; 2; 3] /\
    rcv_nxt c' = snd_nxt con'.
Proof.
  assert (Hf : forall x w, (0 <=? x) && (x <? 2 ^ w) = true -> fits w x)
    by (intros x w Hx; breflect; split; assumption).
  assert (Hl : 0 < zlen [1; 2; 3] <= 1000) by (change (zlen [1; 2; 3]) with 3; lia).
  assert (Hc : tcp_can_send tcp_sender <> 0) by (vm_compute; intros [=]).
  assert (Ha : snd_una tcp_receiver <= rcv_nxt tcp_sender <= snd_max tcp_receiver) by (cbn; lia).
  assert (Hr : zlen [1; 2; 3] <= ringbuffer_unused (tcp_in tcp_receiver))
    by (vm_compute; intros [=]).
  exact (tcp_data_delivered id [] [id] false tcp_sender net_sample [2; 0; 0; 0; 0; 9]
    [1; 2; 3] tcp_sample 4096 tcp_receiver net_sample_wf net_sample_known
    (Hf (le32 10 0 0 2) 32 eq_refl) (Hf (le32 10 0 0 9) 32 eq_refl) (Hf 1337 16 eq_refl)
    (Hf 80 16 eq_refl) (Hf 500 32 eq_refl) (Hf 700 32 eq_refl) Hl Hc eq_refl eq_refl eq_refl
    tcp_rb_sample_inv eq_refl Ha Hr).
Defined.
