(* ===== verification/TcpSock.v ===== *)
(** kernel/socket.c, the TCP sockets: what a program reaches through the functions
    of the inode of a socket, and what the kernel's main loop does for every open
    connection.  [Tcp] holds the segments and the state machine. *)

From stdpp Require Import base numbers list gmap.
From Stdlib Require Import ZArith Lia.
From S2P Require Import Prelude Bytes Alloc RingBuffer Net Tcp.

Open Scope Z_scope.

Definition ECONNREFUSED : Z := 14.
Definition ENOMEM : Z := 49.
Definition AF_INET : Z := 1.
(** [sizeof(struct sockaddr_in)] *)
Definition sockaddr_in_size : Z := 12.

(** The fields of the inode of a TCP socket that change: which function
    [_has_data] and [_can_write] point to, whether [close] is set, and [is_open]. *)
Inductive has_data_op : Type := TcpHasData | TcpHasIncoming.
Inductive can_write_op : Type := AlwaysCanWrite | TcpCanWrite.

Record tcp_inode : Type := mkTcpInode {
  ti_has_data : option has_data_op;
  ti_can_write : can_write_op;
  ti_close : bool;
  ti_is_open : Z;
  ti_object : Z
}.

Definition ti_closed (i : tcp_inode) : tcp_inode :=
  mkTcpInode (ti_has_data i) (ti_can_write i) (ti_close i) 0 (ti_object i).

Section Sockets.
Context {H : Type} `{Allocator H}.
Implicit Types (s : tcp_sys H) (c : TcpConnection).

Definition set_sys_heap (h : H) s : tcp_sys H :=
  mkSys (conns s) (open_tcp_connections s) (sys_net s) h.

(** Counts the occupied slots. *)
Definition num_open_connections s : Z :=
  zlen (filter (fun o : option Z => is_Some o) (open_tcp_connections s)).

(** ** Sending what is buffered *)

(** The result of [kmalloc] is not checked: without memory the bytes are taken from
    the buffer and the segment is made from a NULL payload. *)
Definition tcp_sync_buffer (irq : list (net -> net)) (p : Z) s : outcome (Z * tcp_sys H) :=
  c ← deref (conns s !! p);
  if decide (state c = CLOSED) then Ok (0, s) else
  let send_buffer_len := ringbuffer_used (tcp_out c) in
  if send_buffer_len =? 0 then Ok (0, s) else
  let len := Z.min (tcp_can_send c) send_buffer_len in
  let '(send_buffer, h) := alloc_bytes len (sys_heap s) in
  '(rb, d, rc) ← ringbuffer_read (tcp_out c) (bool_decide (is_Some send_buffer)) len;
  c_assert (rc =? len) ;;
  '(_, c, st) ← send_tcp_packet irq (set_bufs (tcp_in c) rb c) (default [] d) len (sys_net s);
  Ok (if len <? send_buffer_len then 0 else 1,
      set_con p c (set_net st (set_sys_heap (kfree (ptr_of send_buffer) h) s))).

Definition tcp_strip_connection (p : Z) s : outcome (tcp_sys H) :=
  c ← deref (conns s !! p);
  let '(i, h) := ringbuffer_free (tcp_in c) (sys_heap s) in
  let '(o, h) := ringbuffer_free (tcp_out c) h in
  Ok (set_con p (set_bufs i o c) (set_sys_heap h s)).

Definition tcp_close (irq : list (net -> net)) (p : Z) s : outcome (tcp_sys H) :=
  c ← deref (conns s !! p);
  if decide (state c = CLOSED) then Ok s else
  s ← (if decide (state c = ESTABLISHED)
       then '(_, s) ← tcp_sync_buffer irq p s; tcp_strip_connection p s
       else Ok s);
  tcp_close_connection irq p s.

(** ** Readiness *)

Definition tcp_has_data (i : tcp_inode) s : outcome (Z * tcp_inode) :=
  c ← deref (conns s !! ti_object i);
  if decide (state c = ESTABLISHED)
  then Ok (c_int (negb (ringbuffer_isempty (tcp_in c))), i)
  else Ok (1, ti_closed i).

Definition con_can_write c : Z :=
  if no_delay c then c_int (negb (tcp_can_send c =? 0))
  else c_int ((0 <? ringbuffer_unused (tcp_out c)) || negb (tcp_can_send c =? 0)).

Definition tcp_can_write (i : tcp_inode) s : outcome (Z * tcp_inode) :=
  c ← deref (conns s !! ti_object i);
  if decide (state c = ESTABLISHED) then Ok (con_can_write c, i) else Ok (0, ti_closed i).

Definition tcp_is_open (i : tcp_inode) s : outcome Z :=
  c ← deref (conns s !! ti_object i);
  Ok (c_int (bool_decide (state c = ESTABLISHED))).

(** ** Writing *)

(** [buffer] is the memory of the caller, of which [len] bytes are to be sent. *)
Definition tcp_write (irq : list (net -> net)) (p : Z) (buffer : list Z) (len : Z) s
  : outcome (Z * tcp_sys H) :=
  c ← deref (conns s !! p);
  if decide (state c <> ESTABLISHED) then Ok (- ENOTCONN, s) else
  if con_can_write c =? 0 then Ok (- EAGAIN, s) else
  let len := Z.min len (tcp_can_send c) in
  if len =? 0 then Ok (- EAGAIN, s) else
  if no_delay c then
    '(rc, c, st) ← send_tcp_packet irq c buffer len (sys_net s);
    Ok (if rc =? 0 then - EAGAIN else len, set_con p c (set_net st s))
  else if ringbuffer_unused (tcp_out c) <? len then
    '(r, s) ← tcp_sync_buffer irq p s;
    if r =? 0 then Ok (0, s) else
    c ← deref (conns s !! p);
    '(rc, c, st) ← send_tcp_packet irq c buffer len (sys_net s);
    Ok (if rc =? 0 then - EAGAIN else len, set_con p c (set_net st s))
  else
    '(rb, n) ← ringbuffer_write (tcp_out c) buffer len;
    c_assert (n =? len) ;;
    Ok (len, set_con p (set_bufs (tcp_in c) rb c) s).

(** ** The main loop of the kernel *)

(** The loops over the slots, which the body may empty. *)
Fixpoint each_connection (body : Z -> tcp_sys H -> outcome (tcp_sys H)) (n : nat) (i : nat) s
  : outcome (tcp_sys H) :=
  match n with
  | O => Ok s
  | S n =>
    match open_tcp_connections s !! i with
    | None => Ok s
    | Some None => each_connection body n (S i) s
    | Some (Some p) => s ← body p s; each_connection body n (S i) s
    end
  end.

Definition flush_one (irq : list (net -> net)) (p : Z) s : outcome (tcp_sys H) :=
  c ← deref (conns s !! p);
  match state c with
  | TIME_WAIT | FIN_WAIT2 => tcp_remove_connection p (set_con p (set_state CLOSED c) s)
  | ESTABLISHED => '(_, s) ← tcp_sync_buffer irq p s; Ok s
  | _ => Ok s
  end.

Definition tcp_flush_buffers (irq : list (net -> net)) s : outcome (tcp_sys H) :=
  each_connection (flush_one irq) (length (open_tcp_connections s)) 0 s.

Definition ack_one (irq : list (net -> net)) (p : Z) s : outcome (tcp_sys H) :=
  c ← deref (conns s !! p);
  if decide (state c = CLOSED) then Ok s else
  if negb (should_send_ack c) then Ok s else
  '(_, s) ← send_empty irq p (set_rcv (rcv_nxt c) false c) ACK s; Ok s.

Definition tcp_flush_acks (irq : list (net -> net)) s : outcome (tcp_sys H) :=
  each_connection (ack_one irq) (length (open_tcp_connections s)) 0 s.

(** ** Opening *)

Fixpoint find_free_port_fuel (fuel : nat) (suggestion : Z) s : outcome Z :=
  match fuel with
  | O => NoFuel
  | S fuel =>
    found ← find_con (fun _ c => tcp_in_port c =? suggestion) (conns s) (open_tcp_connections s) 0;
    match found with
    | None => Ok suggestion
    | Some _ => find_free_port_fuel fuel (u16 (suggestion + 1)) s
    end
  end.

(** Each call in vain meets another connection. *)
Definition tcp_find_free_port (suggestion : Z) s : outcome Z :=
  find_free_port_fuel (S (length (open_tcp_connections s))) suggestion s.

(** A connection taken from the list leaves its slot empty. *)
Definition tcp_get_incoming_connection (p : Z) (remove : bool) s : outcome (option Z * tcp_sys H) :=
  c ← deref (conns s !! p);
  found ← find_con (fun _ c => negb (bool_decide (state c = LISTEN))) (conns s) (incoming_connections c) 0;
  match found with
  | None => Ok (None, s)
  | Some (i, q) =>
    Ok (Some q, if remove
                then set_con p (set_incoming_connections (<[i := None]> (incoming_connections c)) c) s
                else s)
  end.

Definition tcp_has_incoming_connection (i : tcp_inode) s : outcome Z :=
  '(q, _) ← tcp_get_incoming_connection (ti_object i) false s;
  Ok (c_int (bool_decide (is_Some q))).

(** [for (;;) { switch_task(); ... }]: [tasks] are the states the other processes
    leave each time this one runs again. *)
Fixpoint await_connection (tasks : list (tcp_sys H -> tcp_sys H)) (p : Z) s : outcome (Z * tcp_sys H) :=
  match tasks with
  | [] => NoFuel
  | t :: tasks =>
    let s := t s in
    c ← deref (conns s !! p);
    if decide (state c = CLOSED) then Ok (- ECONNREFUSED, s) else
    if decide (state c = ESTABLISHED) then Ok (0, s) else
    c_assert (bool_decide (state c = SYN_SENT)) ;;
    await_connection tasks p s
  end.

(** The address as in [struct sockaddr_in]. *)
Definition tcp_connect (irq : list (net -> net)) (tasks : list (tcp_sys H -> tcp_sys H)) (i : tcp_inode)
    (nonblock : bool) (sa_family s_addr sin_port : Z) s : outcome (Z * tcp_inode * tcp_sys H) :=
  let p := ti_object i in
  c_assert (sa_family =? AF_INET) ;;
  c ← deref (conns s !! p);
  (* the state is LISTEN while the port is chosen *)
  port ← tcp_find_free_port 1337 (set_con p (set_state LISTEN c) s);
  let '(inb, _, h) := ringbuffer_init (65535 * 64) (sys_heap s) in
  let '(out, _, h) := ringbuffer_init 8192 h in
  let c := mkTcp SYN_SENT port (tcp_in_ip c) s_addr (ntohs sin_port) inb out (no_delay c) 65535 0
             (should_send_ack c) 0 0 0 (ringbuffer_unused out) (incoming_connections c) in
  let s := mkSys (<[p := c]> (conns s)) (slots_add (open_tcp_connections s) p) (sys_net s) h in
  '(_, s) ← send_empty irq p c SYN s;
  '(rc, s) ← (if nonblock then Ok (0, s) else await_connection tasks p s);
  if rc =? 0 then Ok (0, mkTcpInode (Some TcpHasData) TcpCanWrite true (ti_is_open i) p, s)
  else Ok (rc, i, s).

(** [bind] on an inode of type OBJECT_TCP. *)
Definition tcp_bind (i : tcp_inode) (sa_family addrlen sin_port : Z) s
  : outcome (Z * tcp_inode * tcp_sys H) :=
  let p := ti_object i in
  c_assert (sa_family =? AF_INET) ;;
  c_assert (addrlen =? sockaddr_in_size) ;;
  c ← deref (conns s !! p);
  let c := mkTcp LISTEN (ntohs sin_port) (tcp_in_ip c) (tcp_out_ip c) (tcp_out_port c) (tcp_in c)
             (tcp_out c) (no_delay c) (rcv_wnd c) (rcv_nxt c) (should_send_ack c) (snd_una c)
             (snd_nxt c) (snd_max c) (snd_wnd c) [] in
  Ok (0, mkTcpInode (Some TcpHasIncoming) (ti_can_write i) (ti_close i) (ti_is_open i) p,
      mkSys (<[p := c]> (conns s)) (slots_add (open_tcp_connections s) p) (sys_net s) (sys_heap s)).

(** [accept] on an inode of type OBJECT_TCP: the inode of the new socket, or an
    error.  [woken] is the state in which [poll] says that a connection has come. *)
Definition tcp_accept (i : tcp_inode) (nonblock : bool) (woken : tcp_sys H -> tcp_sys H) s
  : outcome ((Z + tcp_inode) * tcp_sys H) :=
  let accepted q := inr (mkTcpInode (Some TcpHasData) TcpCanWrite true 1 q) in
  '(q, s) ← tcp_get_incoming_connection (ti_object i) true s;
  match q with
  | Some q => Ok (accepted q, s)
  | None =>
    if nonblock then Ok (inl (- EAGAIN), s) else
    '(q, s) ← tcp_get_incoming_connection (ti_object i) true (woken s);
    match q with Some q => Ok (accepted q, s) | None => Panic end
  end.

(** The connection of a new socket: all fields zero, the buffers too. *)
Definition tcp_create (s : tcp_sys H) : (Z + tcp_inode) * tcp_sys H :=
  match kmalloc 136 (sys_heap s) with
  | (None, h) => (inl (- ENOMEM), set_sys_heap h s)
  | (Some p, h) =>
    let rb := mkRingbuffer None 0 0 0 in
    (inr (mkTcpInode None AlwaysCanWrite false 1 p),
     set_con p (mkTcp CLOSED 0 0 0 0 rb rb false 0 0 false 0 0 0 0 []) (set_sys_heap h s))
  end.
End Sockets.
