(* ===== verification/TcpStream.v ===== *)
(** The sending side of a TCP connection: what the segments on the wire carry, seen
    from [tcp_write] ([TcpSock]), and what the peer makes of them ([Tcp]). *)

From stdpp Require Import base numbers list gmap.
From Stdlib Require Import ZArith Lia.
From S2P Require Import Prelude Bytes Alloc RingBuffer Net Tcp TcpSock.

Open Scope Z_scope.

(** ** Segments on the wire *)

(** The frame that carries [piece] from sequence number [seq] on, with some
    acknowledgement out of [acks]. *)
Record data_segment (ip : Z) (src dst : list Z) (con : TcpConnection) (acks : Z -> Prop)
    (seq : Z) (piece frame : list Z) : Prop := {
  ds_size : 0 < zlen piece <= 1000;
  ds_frame : exists ack wnd ck hdr, acks ack /\ fits 16 ck /\
    tcp_calculate_checksum ip (tcp_out_ip con) piece (zlen piece)
      (tcp_header (tcp_in_port con) (tcp_out_port con) seq ack (Z.lor PSH ACK) wnd 0)
      (20 + zlen piece) = Ok ck /\
    ipv4_header ip (tcp_out_ip con) 6 (20 + zlen piece) = Ok hdr /\
    frame = ethernet_frame dst src 0x0800
      (words_bytes hdr ++
       tcp_header (tcp_in_port con) (tcp_out_port con) seq ack (Z.lor PSH ACK) wnd ck ++ piece)
}.

(** The frames that carry [data], each from where the one before it ended. *)
Inductive carries (ip : Z) (src dst : list Z) (con : TcpConnection) (acks : Z -> Prop)
  : Z -> list Z -> list (list Z) -> Prop :=
| carries_nil seq : carries ip src dst con acks seq [] []
| carries_cons seq piece rest frame frames :
    data_segment ip src dst con acks seq piece frame ->
    carries ip src dst con acks (seq + zlen piece) rest frames ->
    carries ip src dst con acks seq (piece ++ rest) (frame :: frames).
#[export] Hint Constructors carries : sbos.

(** The ends of a connection, which no operation changes. *)
Definition same_ends (c c' : TcpConnection) : Prop :=
  tcp_in_port c' = tcp_in_port c /\ tcp_out_port c' = tcp_out_port c /\ tcp_out_ip c' = tcp_out_ip c.

Lemma carries_ends ip src dst c c' acks seq data frames :
  same_ends c c' -> carries ip src dst c acks seq data frames -> carries ip src dst c' acks seq data frames.
Proof.
  intros (E1 & E2 & E3). induction 1 as [|seq piece rest frame frames [Hz Hf] _ IH]; constructor; [|done].
  split; [done|]. rewrite E1, E2, E3. exact Hf.
Qed.

Lemma carries_app ip src dst c acks seq d1 f1 d2 f2 :
  carries ip src dst c acks seq d1 f1 -> carries ip src dst c acks (seq + zlen d1) d2 f2 ->
  carries ip src dst c acks seq (d1 ++ d2) (f1 ++ f2).
Proof.
  induction 1 as [|seq piece rest frame frames Hd _ IH]; cbn [app].
  { by rewrite zlen_nil, Z.add_0_r. }
  intros H2. rewrite <- app_assoc. constructor; [done|]. apply IH. rewrite zlen_app in H2.
  by rewrite <- Z.add_assoc.
Qed.

(** ** Sending a buffer *)

(** A connection that can send: the peer's hardware address is known, and nothing
    has been sent past [snd_nxt]. *)
Record sender (mac : list Z) (c : TcpConnection) (st : net) : Prop := {
  sd_net : net_wf st;
  sd_arp : arp_known st (tcp_out_ip c) mac;
  sd_max : snd_nxt c = snd_max c;
  sd_nxt : 0 <= snd_nxt c
}.

(** [n] more bytes have been sent. *)
Definition sent (n : Z) (c : TcpConnection) : TcpConnection :=
  set_snd (snd_una c) (snd_nxt c + n) (snd_nxt c + n) (snd_wnd c) (set_rcv (rcv_nxt c) false c).

(** The globals that sending leaves alone. *)
Definition same_host (st st' : net) : Prop :=
  ip_address st' = ip_address st /\ mac_address st' = mac_address st.

(** Bytes behind the payload do not matter. *)
Lemma send_segment_prefix irq con flags ack payload n st :
  0 <= n <= zlen payload -> n < 2 ^ 15 ->
  send_segment irq con flags ack payload n st = send_segment irq con flags ack (ztake n payload) n st.
Proof.
  intros Hn Hb. unfold send_segment. pose proof (zlen_ztake n payload Hn) as Hz.
  assert (Hc : forall h, data_offset h = Ok 5 ->
    tcp_calculate_checksum (ip_address st) (tcp_out_ip con) payload n h (20 + n) =
    tcp_calculate_checksum (ip_address st) (tcp_out_ip con) (ztake n payload) n h (20 + n)).
  { intros h Ho. unfold tcp_calculate_checksum. rewrite Ho. cbn [mbind outcome_bind].
    assert (Hf : forall t, tcp_checksum_final t payload n = tcp_checksum_final t (ztake n payload) n).
    { intros t. rewrite <- (ztake_zdrop n payload) at 1. by apply checksum_final_app. }
    case_goal; [done|]. repeat (apply outcome_bind_ext; intros ?). by rewrite Hf. }
  rewrite Hc by done. apply outcome_bind_ext. intros c. apply outcome_bind_ext. intros [st1 buf].
  apply outcome_bind_ext. intros b1. unfold memcpy_at. rewrite !slice_from_0, Hz.
  assert (Ht : ztake n (ztake n payload) = ztake n payload) by (by apply ztake_all).
  rewrite Ht. destruct (Z.leb_spec (0 + n) (zlen payload)); [|lia]. destruct (Z.leb_spec (0 + n) n); [done|lia].
Qed.

Lemma can_send_bounds c : 0 <= tcp_can_send c < 2 ^ 16.
Proof. unfold tcp_can_send. case_decide; [lia|]. by apply Z.mod_pos_bound. Qed.

Lemma can_send_sent n c : n <= tcp_can_send c -> 0 <= n -> 0 < tcp_can_send c -> snd_nxt c = snd_max c ->
  tcp_can_send (sent n c) = tcp_can_send c - n.
Proof.
  unfold tcp_can_send. change (state (sent n c)) with (state c).
  destruct (decide (state c = CLOSED)); [lia|]. cbn [sent snd_una snd_wnd snd_max set_snd set_rcv].
  intros Hn Hp _ Hm. rewrite <- Hm in *. unfold u16, wrap in *.
  assert (E : (snd_una c + snd_wnd c - (snd_nxt c + n)) mod 2 ^ 16 =
    ((snd_una c + snd_wnd c - snd_nxt c) mod 2 ^ 16 - n) mod 2 ^ 16).
  { rewrite Zminus_mod_idemp_l. f_equal. lia. }
  rewrite E. apply Z.mod_small. pose proof (Z.mod_pos_bound (snd_una c + snd_wnd c - snd_nxt c) (2 ^ 16) eq_refl). lia.
Qed.

Lemma sender_sent mac n c st : sender mac c st -> 0 <= n -> sender mac (sent n c) st.
Proof. intros [Hw Ha Hm Hx] Hn. split; try done. cbn [sent snd_nxt set_snd set_rcv]. lia. Qed.

Lemma sender_net mac c st st' frame : sender mac c st -> sent_frame frame st st' -> sender mac c st'.
Proof.
  intros [Hw [A1 A2 A3 A4] Hm Hx] [Hs Ha Hi Hmac [Hg Hb] Hl Hw']. split; try done.
  split; rewrite ?Hi, ?Ha, ?Hmac; try done. unfold ip_inside_network in *. by rewrite Hg, Hb.
Qed.

Section Send.
Context (i : net -> net) (irq : list (net -> net)) (mac : list Z).

(** What a call that sent [data] leaves. *)
Record sent_data (c : TcpConnection) (st st' : net) (seq : Z) (data : list Z) : Prop := {
  st_frames : exists frames, transmitted st' = transmitted st ++ frames /\
    carries (ip_address st) (mac_address st) mac c (eq (rcv_nxt c)) seq data frames;
  st_host : same_host st st'
}.

(** One segment. *)
Lemma send_tcp_one_spec c payload n st :
  sender mac c st -> 0 < n <= 1000 -> n <= zlen payload -> snd_nxt c + n < 2 ^ 32 ->
  exists st', send_tcp_one (i :: irq) c payload n st = Ok (1, sent n c, st') /\
    sender mac (sent n c) st' /\ sent_data c st st' (snd_nxt c) (ztake n payload).
Proof.
  intros Hs Hn Hz Hb. unfold send_tcp_one. rewrite send_segment_prefix by lia.
  assert (Hl : zlen (ztake n payload) = n) by (apply zlen_ztake; lia).
  destruct (send_segment_spec i irq c (Z.lor PSH ACK) (rcv_nxt c) (ztake n payload) n st mac)
    as (st' & ck & hdr & -> & Hc & Hcf & Hh & Hf); [apply Hs|apply Hs|done|lia|].
  cbn [mbind outcome_bind]. exists st'. split_and!.
  - f_equal. f_equal. f_equal. unfold sent. destruct Hs as [_ _ Hm Hx].
    cbn [snd_una snd_nxt snd_max snd_wnd rcv_nxt set_rcv]. rewrite u32_small by lia. f_equal. lia.
  - eapply sender_sent; [|lia]. by eapply sender_net.
  - split; [|by destruct Hf]. exists [ethernet_frame mac (mac_address st) 0x0800
      (words_bytes hdr ++ con_header c (Z.lor PSH ACK) (rcv_nxt c) ck ++ ztake n payload)].
    split; [apply Hf|]. rewrite <- (app_nil_r (ztake n payload)) at 1. constructor; [|constructor].
    split; [lia|]. rewrite Hl. exists (rcv_nxt c), (rcv_wnd c), ck, hdr. by split_and!.
Qed.

Lemma sent_sent n m c : sent m (sent n c) = sent (n + m) c.
Proof. unfold sent. cbn [snd_una snd_nxt snd_wnd rcv_nxt set_rcv set_snd]. by rewrite Z.add_assoc. Qed.

Lemma sent_data_app c st st1 st2 n d1 d2 :
  sent_data c st st1 (snd_nxt c) d1 -> zlen d1 = n -> sent_data (sent n c) st1 st2 (snd_nxt c + n) d2 ->
  sent_data c st st2 (snd_nxt c) (d1 ++ d2).
Proof.
  intros [(f1 & E1 & C1) [I1 M1]] Hn [(f2 & E2 & C2) [I2 M2]]. split; [|split; congruence].
  exists (f1 ++ f2). split; [by rewrite E2, E1, app_assoc|]. apply carries_app; [done|].
  rewrite Hn. rewrite I1, M1 in C2. by eapply carries_ends, C2.
Qed.

Lemma send_tcp_fuel_spec fuel c payload n st :
  sender mac c st -> 0 < n <= tcp_can_send c -> n <= zlen payload -> snd_nxt c + n < 2 ^ 32 ->
  n <= 1000 * Z.of_nat fuel ->
  exists st', send_tcp_fuel fuel (i :: irq) c payload n st = Ok (1, sent n c, st') /\
    sender mac (sent n c) st' /\ sent_data c st st' (snd_nxt c) (ztake n payload).
Proof.
  revert c payload n st. induction fuel as [|fuel IH]; intros c payload n st Hs Hn Hz Hb Hf; [lia|].
  cbn [send_tcp_fuel]. destruct (Z.eqb_spec (tcp_can_send c) 0); [lia|].
  destruct (Z.ltb_spec (Z.min 1000 n) n).
  2: { apply send_tcp_one_spec; try done; lia. }
  rewrite Z.min_l by lia. destruct (IH c payload 1000 st) as (st1 & E1 & S1 & D1); try done; try lia.
  rewrite E1. cbn [mbind outcome_bind Z.eqb]. pose proof (can_send_bounds c).
  rewrite u16_small by lia.
  destruct (IH (sent 1000 c) (zdrop 1000 payload) (n - 1000) st1) as (st2 & E2 & S2 & D2); try done; try lia.
  { rewrite can_send_sent by (try apply Hs; lia). lia. }
  { rewrite zlen_zdrop; lia. }
  { cbn [sent snd_nxt set_snd set_rcv]. lia. }
  exists st2. rewrite E2, sent_sent in *. replace (1000 + (n - 1000)) with n in * by lia. split_and!; try done.
  replace (ztake n payload) with (ztake 1000 payload ++ ztake (n - 1000) (zdrop 1000 payload)).
  - eapply sent_data_app; [done|apply zlen_ztake; lia|exact D2].
  - unfold ztake, zdrop. rewrite take_take_drop. f_equal. lia.
Qed.

(** [send_tcp_packet] sends all it is given when the window has room for it. *)
Lemma send_tcp_packet_spec c payload n st :
  sender mac c st -> 0 < n <= tcp_can_send c -> n <= zlen payload -> snd_nxt c + n < 2 ^ 32 ->
  exists st', send_tcp_packet (i :: irq) c payload n st = Ok (1, sent n c, st') /\
    sender mac (sent n c) st' /\ sent_data c st st' (snd_nxt c) (ztake n payload).
Proof.
  intros. apply send_tcp_fuel_spec; try done. pose proof (Z.div_mod n 1000 ltac:(lia)). pose proof (Z.mod_pos_bound n 1000 eq_refl).
  assert (0 <= n / 1000) by (apply Z.div_pos; lia). lia.
Qed.
End Send.

(** ** Writing *)

Section Stream.
Context {H : Type} `{Allocator H}.
Context (i : net -> net) (irq : list (net -> net)) (mac : list Z).
Implicit Types (s : tcp_sys H) (c : TcpConnection).

(** Memory does not run out. *)
Hypothesis memory : forall n h, 0 <= n < 2 ^ 16 -> exists b h', alloc_bytes n h = (Some b, h').

(** The connection at [p] is open and [s] can send for it. *)
Record sending (p : Z) s c : Prop := {
  sg_con : conns s !! p = Some c;
  sg_state : state c = ESTABLISHED;
  sg_sender : sender mac c (sys_net s);
  sg_out : rb_inv (tcp_out c);
  sg_nodelay : no_delay c = true -> rb_contents (tcp_out c) = []
}.

(** [tcp_sync_buffer]: what the window has room for leaves the buffer, in order. *)
Lemma tcp_sync_buffer_spec p s c :
  let n := Z.min (tcp_can_send c) (ringbuffer_used (tcp_out c)) in
  sending p s c -> snd_nxt c + n < 2 ^ 32 ->
  exists s' rb, tcp_sync_buffer (i :: irq) p s =
      Ok (c_int ((0 <? ringbuffer_used (tcp_out c)) && (ringbuffer_used (tcp_out c) <=? tcp_can_send c)), s') /\
    rb_inv rb /\ rb_contents rb = zdrop n (rb_contents (tcp_out c)) /\
    sent_data mac c (sys_net s) (sys_net s') (snd_nxt c) (ztake n (rb_contents (tcp_out c))) /\
    exists c', sending p s' c' /\ tcp_out c' = rb /\ same_ends c c' /\ snd_nxt c' = snd_nxt c + n /\
      snd_una c' = snd_una c /\ snd_wnd c' = snd_wnd c /\ no_delay c' = no_delay c /\ rcv_nxt c' = rcv_nxt c /\
      tcp_in c' = tcp_in c.
Proof.
  intros n Hs Hb. destruct Hs as [Hp Hst Hsd Ho Hnd]. destruct (rb_room_contents _ Ho) as (_ & Hu & _ & _).
  pose proof (zlen_nonneg (rb_contents (tcp_out c))). pose proof (can_send_bounds c) as Hcs.
  unfold tcp_sync_buffer. rewrite Hp. cbn [deref mbind outcome_bind].
  destruct (decide (state c = CLOSED)); [congruence|].
  destruct (Z.eqb_spec (ringbuffer_used (tcp_out c)) 0) as [E0|E0].
  { assert (Hn0 : n = 0) by lia. rewrite E0. exists s, (tcp_out c). cbn [Z.ltb Z.compare andb c_int]. rewrite Hn0 in *.
    split_and!; try done. { split; [|done]. exists []. rewrite app_nil_r. split; [done|constructor]. }
    exists c. split_and!; try done; lia. }
  fold n. destruct (memory n (sys_heap s)) as (b & h' & ->); [lia|].
  destruct (rb_read_spec (tcp_out c) true n) as (rb & Hr & Hi & Hc & _); [done|lia|].
  rewrite bool_decide_eq_true_2, Hr by done. cbn [mbind outcome_bind].
  rewrite Z.min_l, Z.eqb_refl by lia. cbn [c_assert mbind outcome_bind default from_option id].
  rewrite Z.min_l in Hc by lia.
  assert (Hnd' : no_delay c = true -> rb_contents rb = []) by (intros Hd; rewrite Hc, Hnd by done; apply drop_nil).
  set (c1 := set_bufs (tcp_in c) rb c). assert (Hsd1 : sender mac c1 (sys_net s)) by (by destruct Hsd).
  assert (Hrc : (if n <? ringbuffer_used (tcp_out c) then 0 else 1) =
    c_int ((0 <? ringbuffer_used (tcp_out c)) && (ringbuffer_used (tcp_out c) <=? tcp_can_send c))).
  { unfold n. destruct (Z.ltb_spec 0 (ringbuffer_used (tcp_out c))); [|lia]. cbn [andb].
    destruct (Z.ltb_spec (Z.min (tcp_can_send c) (ringbuffer_used (tcp_out c))) (ringbuffer_used (tcp_out c))),
      (Z.leb_spec (ringbuffer_used (tcp_out c)) (tcp_can_send c)); cbn; lia. }
  destruct (Z.eqb_spec n 0) as [Hn0|Hn0].
  { assert (Hcan : tcp_can_send c1 = 0) by (change (tcp_can_send c1) with (tcp_can_send c); lia).
    unfold send_tcp_packet. cbn [send_tcp_fuel]. rewrite Hcan. cbn [Z.eqb mbind outcome_bind]. rewrite Hrc.
    eexists _, rb. split; [reflexivity|]. rewrite Hn0 in *. split_and!; try done.
    { split; [|done]. exists []. rewrite app_nil_r. split; [done|constructor]. }
    exists c1. split_and!; try done; try (cbn; lia). split; try done. apply lookup_insert_eq. }
  destruct (send_tcp_packet_spec i irq mac c1 (ztake n (rb_contents (tcp_out c))) n (sys_net s))
    as (st' & -> & Hsd' & Hd); try done; try lia.
  { change (tcp_can_send c1) with (tcp_can_send c). lia. } { rewrite zlen_ztake; lia. }
  cbn [mbind outcome_bind]. rewrite Hrc. eexists _, rb. split; [reflexivity|].
  rewrite (ztake_all n (ztake n _)) in Hd by (rewrite zlen_ztake; lia).
  split_and!; try done.
  { destruct Hd as [(f & E & C) Hh]. split; [|done]. exists f. split; [done|]. by eapply carries_ends, C. }
  exists (sent n c1). split_and!; try done. split; try done. apply lookup_insert_eq.
Qed.

(** A call that the window has no room for, while it has room for what is buffered:
    the code sends past the window, or stops half way and reports that it sent
    nothing ([overshoot_resends]). *)
Definition overshoots c (len : Z) : Prop :=
  let n := Z.min len (tcp_can_send c) in
  no_delay c = false /\ ringbuffer_unused (tcp_out c) < n /\
  ringbuffer_used (tcp_out c) < tcp_can_send c < ringbuffer_used (tcp_out c) + n.

(** [data] went out, and the stream grew by what the call reports. *)
Record stream_step (p : Z) s s' c c' (r : Z) (buf data : list Z) : Prop := {
  ss_next : sending p s' c';
  ss_ends : same_ends c c';
  ss_sent : sent_data mac c (sys_net s) (sys_net s') (snd_nxt c) data;
  ss_seq : snd_nxt c' = snd_nxt c + zlen data;
  ss_stream : data ++ rb_contents (tcp_out c') = rb_contents (tcp_out c) ++ ztake r buf;
  ss_same : no_delay c' = no_delay c /\ rcv_nxt c' = rcv_nxt c /\ tcp_in c' = tcp_in c
}.

Lemma step_nothing p s c r buf : sending p s c -> r <= 0 -> stream_step p s s c c r buf [].
Proof.
  intros Hs Hr. split; try done.
  - split; [|done]. exists []. rewrite app_nil_r. split; [done|constructor].
  - rewrite zlen_nil. lia.
  - unfold ztake. replace (Z.to_nat r) with 0%nat by lia. by rewrite take_0, app_nil_r.
Qed.

(** [send_tcp_packet] on behalf of a call with an empty buffer. *)
Lemma step_direct p s c buf n :
  sending p s c -> rb_contents (tcp_out c) = [] -> 0 < n <= tcp_can_send c -> n <= zlen buf -> snd_nxt c + n < 2 ^ 32 ->
  exists st', send_tcp_packet (i :: irq) c buf n (sys_net s) = Ok (1, sent n c, st') /\
    stream_step p s (set_con p (sent n c) (set_net st' s)) c (sent n c) n buf (ztake n buf).
Proof.
  intros [Hp Hst Hsd Ho Hnd] He Hn Hz Hb.
  destruct (send_tcp_packet_spec i irq mac c buf n (sys_net s)) as (st' & E & Hsd' & Hd); try done.
  exists st'. split; [done|]. split; try done.
  - split; try done. apply lookup_insert_eq.
  - rewrite zlen_ztake by lia. done.
  - change (tcp_out (sent n c)) with (tcp_out c). by rewrite He, app_nil_r.
Qed.

Lemma step_trans p s s1 s2 c c1 c2 r buf d1 d2 :
  stream_step p s s1 c c1 0 buf d1 -> stream_step p s1 s2 c1 c2 r buf d2 ->
  stream_step p s s2 c c2 r buf (d1 ++ d2).
Proof.
  intros [N1 E1 [(f1 & T1 & C1) [I1 M1]] Q1 S1 (A1 & R1 & B1)] [N2 E2 [(f2 & T2 & C2) [I2 M2]] Q2 S2 (A2 & R2 & B2)].
  split; try done.
  - destruct E1 as (? & ? & ?), E2 as (? & ? & ?). split_and!; congruence.
  - split; [|split; congruence]. exists (f1 ++ f2). split; [by rewrite T2, T1, app_assoc|].
    apply carries_app; [done|]. rewrite <- Q1. rewrite I1, M1, R1 in C2.
    eapply carries_ends, C2. destruct E1 as (? & ? & ?). by split_and!.
  - rewrite zlen_app. lia.
  - rewrite <- app_assoc, S2, app_assoc, S1. change (ztake 0 buf) with (@nil Z). by rewrite app_nil_r.
  - split_and!; congruence.
Qed.

Lemma step_sync p s c buf :
  sending p s c -> snd_nxt c + Z.min (tcp_can_send c) (ringbuffer_used (tcp_out c)) < 2 ^ 32 ->
  exists s' c' data, tcp_sync_buffer (i :: irq) p s =
      Ok (c_int ((0 <? ringbuffer_used (tcp_out c)) && (ringbuffer_used (tcp_out c) <=? tcp_can_send c)), s') /\
    stream_step p s s' c c' 0 buf data /\ zlen data = Z.min (tcp_can_send c) (ringbuffer_used (tcp_out c)) /\
    snd_una c' = snd_una c /\ snd_wnd c' = snd_wnd c.
Proof.
  intros Hs Hb. destruct (rb_room_contents _ (sg_out _ _ _ Hs)) as (_ & Hu & _ & _).
  pose proof (zlen_nonneg (rb_contents (tcp_out c))). pose proof (can_send_bounds c).
  destruct (tcp_sync_buffer_spec p s c Hs Hb) as (s' & rb & E & Hi & Hc & Hd & c' & Hs' & Ho & He & Hn & Hua & Hw & Hdl & Hr & Hin).
  set (n := Z.min _ _) in *. exists s', c', (ztake n (rb_contents (tcp_out c))).
  assert (Hz : zlen (ztake n (rb_contents (tcp_out c))) = n) by (apply zlen_ztake; lia).
  split_and!; try done. split; try done.
  - by rewrite Hz.
  - rewrite Ho, Hc, ztake_zdrop. change (ztake 0 buf) with (@nil Z). by rewrite app_nil_r.
Qed.

Lemma tcp_write_spec p s c buf len :
  sending p s c -> 0 <= len <= zlen buf -> ~ overshoots c len ->
  snd_nxt c + zlen (rb_contents (tcp_out c)) + len < 2 ^ 32 ->
  exists r s' c' data, tcp_write (i :: irq) p buf len s = Ok (r, s') /\ r <= len /\ stream_step p s s' c c' r buf data.
Proof.
  intros Hs Hl Hov Hb. pose proof Hs as [Hp Hst Hsd Ho Hnd]. destruct (rb_room_contents _ Ho) as (_ & Hu & Hun & _).
  pose proof (zlen_nonneg (rb_contents (tcp_out c))). pose proof (can_send_bounds c).
  unfold tcp_write. rewrite Hp. cbn [deref mbind outcome_bind]. case_decide; [done|].
  destruct (con_can_write c =? 0); [exists (- EAGAIN), s, c, []; split_and!; [done|unfold EAGAIN; lia|by apply step_nothing]|].
  destruct (Z.eqb_spec (Z.min len (tcp_can_send c)) 0) as [|Hn0];
    [exists (- EAGAIN), s, c, []; split_and!; [done|unfold EAGAIN; lia|by apply step_nothing]|].
  unfold overshoots in Hov. set (n := Z.min len (tcp_can_send c)) in *.
  destruct (no_delay c) eqn:Edl.
  { destruct (step_direct p s c buf n Hs) as (st' & -> & Hd); [by apply Hnd|lia..|]. cbn [mbind outcome_bind Z.eqb].
    exists n, (set_con p (sent n c) (set_net st' s)), (sent n c), (ztake n buf). split_and!; [done|lia|done]. }
  destruct (Z.ltb_spec (ringbuffer_unused (tcp_out c)) n) as [Hlt|Hge].
  2: { destruct (rb_write_spec (tcp_out c) buf n) as (rb & -> & Hi & Hc & _); [done|lia|lia|].
       rewrite Z.min_l in * by lia. cbn [mbind outcome_bind]. rewrite Z.eqb_refl. cbn [c_assert mbind outcome_bind].
       eexists n, _, (set_bufs (tcp_in c) rb c), []. split_and!; [done|lia|]. split; try done.
       - split; try done; [apply lookup_insert_eq|by destruct Hsd|]. intros Hd. cbn in Hd. congruence.
       - split; [|done]. exists []. rewrite app_nil_r. split; [done|constructor].
       - rewrite zlen_nil, Z.add_0_r. done. }
  destruct (step_sync p s c buf Hs) as (s1 & c1 & d1 & -> & Hstep & Hz1 & Hua & Hw); [lia|]. cbn [mbind outcome_bind].
  destruct (Z.ltb_spec 0 (ringbuffer_used (tcp_out c))) as [Hpos|]; cbn [andb];
    [destruct (Z.leb_spec (ringbuffer_used (tcp_out c)) (tcp_can_send c)) as [Hle|]|]; cbn [c_int Z.eqb].
  2,3: exists 0, s1, c1, d1; split_and!; try done; lia.
  pose proof Hstep as [Hs1 He1 _ Hq1 Hst1 (Hdl1 & _)]. rewrite (sg_con _ _ _ Hs1). cbn [deref mbind outcome_bind].
  rewrite Z.min_r in Hz1 by lia.
  assert (Hemp : rb_contents (tcp_out c1) = []).
  { apply (f_equal zlen) in Hst1. change (ztake 0 buf) with (@nil Z) in Hst1. rewrite app_nil_r, zlen_app in Hst1.
    destruct (rb_contents (tcp_out c1)); [done|]. unfold zlen in Hst1. cbn [length] in Hst1. unfold zlen in *. lia. }
  assert (Hcan : tcp_can_send c1 = tcp_can_send c - ringbuffer_used (tcp_out c)).
  { rewrite <- (can_send_sent (ringbuffer_used (tcp_out c)) c) by (try apply Hsd; lia). unfold tcp_can_send.
    change (state (sent _ c)) with (state c). rewrite Hst, (sg_state _ _ _ Hs1).
    cbn [sent snd_una snd_wnd snd_max set_snd set_rcv]. rewrite Hua, Hw, <- (sd_max _ _ _ (sg_sender _ _ _ Hs1)). do 2 f_equal. lia. }
  destruct (Z.eq_dec (tcp_can_send c1) 0) as [Hc0|Hc0].
  { unfold send_tcp_packet. cbn [send_tcp_fuel]. rewrite Hc0. cbn [Z.eqb mbind outcome_bind].
    exists (- EAGAIN), (set_con p c1 (set_net (sys_net s1) s1)), c1, (d1 ++ []).
    split_and!; [done|unfold EAGAIN; lia|]. eapply step_trans; [exact Hstep|].
    destruct (step_nothing p s1 c1 (- EAGAIN) buf Hs1) as [? ? ? ? ? ?]; [unfold EAGAIN; lia|]. split; try done.
    destruct Hs1. split; try done. apply lookup_insert_eq. }
  destruct (step_direct p s1 c1 buf n Hs1 Hemp) as (st' & -> & Hd); [lia|lia|lia|]. cbn [mbind outcome_bind Z.eqb].
  exists n, (set_con p (sent n c1) (set_net st' s1)), (sent n c1), (d1 ++ ztake n buf). split_and!; [done|lia|].
  by eapply step_trans.
Qed.

(** ** Sequences of calls *)

(** A segment without SYN and FIN changes neither what is to be sent nor its
    numbers. *)
Lemma tcp_process_send irq' p sg data len s s' c :
  conns s !! p = Some c -> state c = ESTABLISHED ->
  is_set (sg_flags sg) SYN = false -> is_set (sg_flags sg) FIN = false ->
  tcp_process irq' p sg data len s = Ok s' ->
  exists c', conns s' = <[p := c']> (conns s) /\ open_tcp_connections s' = open_tcp_connections s /\
    sys_net s' = sys_net s /\ state c' = ESTABLISHED /\ same_ends c c' /\ tcp_out c' = tcp_out c /\
    no_delay c' = no_delay c /\ snd_nxt c' = snd_nxt c /\ snd_max c' = snd_max c /\
    (snd_una c' = snd_una c \/ snd_una c' = sg_ack sg) /\
    (rb_inv (tcp_in c) -> 0 <= len < 2 ^ 32 -> len <= zlen data ->
     ringbuffer_capacity (tcp_in c') = ringbuffer_capacity (tcp_in c)).
Proof.
  intros Hp Hst Hsyn Hfin. unfold tcp_process. rewrite Hp. cbn [deref mbind outcome_bind]. rewrite Hst.
  change (bool_decide (ESTABLISHED = LISTEN) || bool_decide (ESTABLISHED = SYN_SENT)) with false. cbn iota.
  assert (Hkeep : forall cc, state cc = ESTABLISHED -> same_ends c cc -> tcp_out cc = tcp_out c ->
    no_delay cc = no_delay c -> snd_nxt cc = snd_nxt c -> snd_max cc = snd_max c ->
    (snd_una cc = snd_una c \/ snd_una cc = sg_ack sg) ->
    (rb_inv (tcp_in c) -> 0 <= len < 2 ^ 32 -> len <= zlen data ->
     ringbuffer_capacity (tcp_in cc) = ringbuffer_capacity (tcp_in c)) ->
    forall s0, conns s0 = conns s \/ (exists c0, conns s0 = <[p := c0]> (conns s)) ->
    open_tcp_connections s0 = open_tcp_connections s -> sys_net s0 = sys_net s -> Ok (set_con p cc s0) = Ok s' ->
    exists c', conns s' = <[p := c']> (conns s) /\ open_tcp_connections s' = open_tcp_connections s /\
      sys_net s' = sys_net s /\ state c' = ESTABLISHED /\ same_ends c c' /\ tcp_out c' = tcp_out c /\
      no_delay c' = no_delay c /\ snd_nxt c' = snd_nxt c /\ snd_max c' = snd_max c /\
      (snd_una c' = snd_una c \/ snd_una c' = sg_ack sg) /\
      (rb_inv (tcp_in c) -> 0 <= len < 2 ^ 32 -> len <= zlen data ->
       ringbuffer_capacity (tcp_in c') = ringbuffer_capacity (tcp_in c))).
  { intros cc H1 H2 H3 H4 H5 H6 H7 H8 s0 Hs0 Ho Hn [= <-]. exists cc. cbn [conns set_con open_tcp_connections sys_net].
    split_and!; try done. destruct Hs0 as [->|[c0 ->]]; [done|]. by rewrite insert_insert_eq. }
  destruct (snd_max c <? sg_ack sg); [by apply Hkeep; auto|].
  destruct (sg_ack sg <? snd_una c); [by apply Hkeep; auto|].
  destruct (rcv_nxt c =? sg_seq sg); cbn [negb]; [|by apply Hkeep; auto].
  rewrite Hsyn, Hfin. cbn [c_int]. set (c1 := set_rcv _ _ _). unfold tcp_receive.
  change (state c1) with (state c). rewrite Hst, Hfin.
  assert (Hk1 : exists c0, conns (set_con p c s) = <[p := c0]> (conns s)) by (by exists c).
  destruct (0 <? len); [|by apply Hkeep; auto].
  destruct (ringbuffer_unused (tcp_in c1) <? len); [by apply Hkeep; auto|].
  intros Hr. bind_ok Hr. destruct a as [rb rc]. bind_ok Hr. revert Hr. apply Hkeep; auto; [done|].
  intros Hrb Hl Hz. destruct (rb_write_spec (tcp_in c) data len Hrb Hl Hz) as (rb' & E' & _ & _ & Hcap).
  change (tcp_in c1) with (tcp_in c) in E. rewrite E' in E. injection E as -> _. exact Hcap.
Qed.

(** What happens to the sending side of an open connection: a program writes, the
    main loop sends what is buffered, a segment of the peer arrives.  The second
    component is what the program was told it has written. *)
Inductive sock_step (p : Z) : tcp_sys H * list Z -> tcp_sys H * list Z -> Prop :=
| do_write buf r s s' acc c :
    conns s !! p = Some c -> ~ overshoots c (zlen buf) ->
    snd_nxt c + zlen (rb_contents (tcp_out c)) + zlen buf < 2 ^ 32 ->
    tcp_write (i :: irq) p buf (zlen buf) s = Ok (r, s') -> sock_step p (s, acc) (s', acc ++ ztake r buf)
| do_flush r s s' acc :
    tcp_sync_buffer (i :: irq) p s = Ok (r, s') -> sock_step p (s, acc) (s', acc)
| do_segment irq' sg data s s' acc :
    is_set (sg_flags sg) SYN = false -> is_set (sg_flags sg) FIN = false ->
    tcp_process irq' p sg data (zlen data) s = Ok s' -> sock_step p (s, acc) (s', acc).

(** [acc] is what went out since [s0] and what the buffer holds. *)
Record stream_so_far (p : Z) s0 c0 s (acc : list Z) c : Prop := {
  sf_sending : sending p s c;
  sf_ends : same_ends c0 c;
  sf_host : same_host (sys_net s0) (sys_net s);
  sf_limit : snd_nxt c + zlen (rb_contents (tcp_out c)) < 2 ^ 32;
  sf_wire : exists data frames, transmitted (sys_net s) = transmitted (sys_net s0) ++ frames /\
    carries (ip_address (sys_net s0)) (mac_address (sys_net s0)) mac c0 (fun _ => True) (snd_nxt c0) data frames /\
    snd_nxt c = snd_nxt c0 + zlen data /\ acc = data ++ rb_contents (tcp_out c)
}.

Lemma carries_weaken ip src dst c (acks acks' : Z -> Prop) seq data frames :
  (forall a, acks a -> acks' a) -> carries ip src dst c acks seq data frames -> carries ip src dst c acks' seq data frames.
Proof.
  intros Hw. induction 1 as [|seq piece rest frame frames [Hz (a & w & ck & hdr & Ha & Hf)] _ IH]; constructor; [|done].
  split; [done|]. exists a, w, ck, hdr. split; [by apply Hw|done].
Qed.

(** A call of the program or of the main loop extends the stream. *)
Lemma stream_extends p s0 c0 s s' acc c c' r buf data :
  stream_so_far p s0 c0 s acc c -> stream_step p s s' c c' r buf data ->
  snd_nxt c + zlen (rb_contents (tcp_out c) ++ ztake r buf) < 2 ^ 32 ->
  stream_so_far p s0 c0 s' (acc ++ ztake r buf) c'.
Proof.
  intros [Hs (E1 & E2 & E3) [I1 M1] Hl (d & f & T & C & Q & A)] [N (F1 & F2 & F3) [(f' & T' & C') [I2 M2]] Q' S' _] Hlim.
  assert (Hends : same_ends c c0) by (split_and!; congruence). split; try done; try (split_and!; congruence).
  - rewrite <- S', zlen_app in Hlim. lia.
  - exists (d ++ data), (f ++ f'). split_and!.
    + by rewrite T', T, app_assoc.
    + apply carries_app; [done|]. rewrite <- Q, <- I1, <- M1.
      eapply carries_ends; [exact Hends|]. by eapply carries_weaken, C'.
    + rewrite zlen_app. lia.
    + by rewrite A, <- app_assoc, <- S', app_assoc.
Qed.

Lemma sock_step_stream p s0 c0 s acc s' acc' c :
  stream_so_far p s0 c0 s acc c -> sock_step p (s, acc) (s', acc') ->
  exists c', stream_so_far p s0 c0 s' acc' c'.
Proof.
  intros Hf Hstep. pose proof Hf as [Hs (E1 & E2 & E3) Hh Hl (d & f & T & C & Q & A)].
  inversion Hstep as [buf r ? ? ? cc Hp Hov Hlim Hw|r ? ? ? Hw|irq' sg data ? ? ? Hsyn Hfin Hw]; subst.
  - rewrite (sg_con _ _ _ Hs) in Hp. injection Hp as <-.
    destruct (tcp_write_spec p s c buf (zlen buf) Hs) as (r' & s1 & c1 & data & E & Hr & H1); try done.
    { pose proof (zlen_nonneg buf). lia. }
    rewrite E in Hw. injection Hw as <- <-. exists c1. eapply stream_extends; [exact Hf|exact H1|].
    rewrite zlen_app. assert (zlen (ztake r' buf) <= zlen buf) by (unfold ztake, zlen; rewrite length_take; lia). lia.
  - destruct (step_sync p s c [] Hs) as (s1 & c1 & data & E & H1 & _).
    { destruct (rb_room_contents _ (sg_out _ _ _ Hs)) as (_ & Hu & _). pose proof (can_send_bounds c). lia. }
    rewrite E in Hw. injection Hw as _ <-. exists c1.
    pose proof (stream_extends p s0 c0 s s1 (d ++ rb_contents (tcp_out c)) c c1 0 [] data Hf H1) as Hx.
    change (ztake 0 []) with (@nil Z) in Hx. rewrite !app_nil_r in Hx. by apply Hx.
  - destruct (tcp_process_send irq' p sg data (zlen data) s s' c (sg_con _ _ _ Hs) (sg_state _ _ _ Hs) Hsyn Hfin Hw)
      as (c1 & Hc & Ho & Hn & Hst & (F1 & F2 & F3) & Hout & Hdl & Hnx & Hmx & _ & _).
    exists c1. split; rewrite ?Hn, ?Hout, ?Hnx; try done; [|split_and!; congruence|by exists d, f].
    destruct Hs as [_ _ [A1 A2 A3 A4] Hrb Hnd]. split; rewrite ?Hout, ?Hdl; try done.
    { by rewrite Hc, lookup_insert_eq. }
    rewrite Hn. split; rewrite ?F3, ?Hnx, ?Hmx; done.
Qed.

Lemma sock_steps_stream p s0 c0 x y :
  rtc (sock_step p) x y -> (exists c, stream_so_far p s0 c0 x.1 x.2 c) -> exists c, stream_so_far p s0 c0 y.1 y.2 c.
Proof.
  induction 1 as [|[s1 a1] [s2 a2] y Hst _ IH]; [done|]. intros [c Hc]. apply IH.
  by eapply sock_step_stream.
Qed.


(** ** Delivery *)

(** What the receiving kernel does with the frames, in the order they come. *)
Fixpoint deliver (irq' : list (net -> net)) (junk : bool) (frames : list (list Z)) s : outcome (tcp_sys H) :=
  match frames with
  | [] => Ok s
  | f :: frames =>
    e ← handle_ethernet f (zlen f);
    match e with
    | EthIpv4 packet n =>
      e ← handle_ipv4 packet n;
      match e with
      | IpTcp src dst seg len => s ← handle_tcp irq' junk src dst seg len s; deliver irq' junk frames s
      | _ => deliver irq' junk frames s
      end
    | _ => deliver irq' junk frames s
    end
  end.

(** A frame with data reaches the connection. *)
Lemma deliver_frame irq' junk ip src dst con ak seq piece frame p s :
  zlen src = 6 -> zlen dst = 6 -> fits 32 ip -> fits 32 (tcp_out_ip con) ->
  fits 16 (tcp_in_port con) -> fits 16 (tcp_out_port con) -> fits 32 seq -> fits 32 ak ->
  data_segment ip src dst con (eq ak) seq piece frame ->
  tcp_find_connection (tcp_in_port con) (tcp_out_port con) s = Ok (Some p) ->
  exists crc wnd, forall frames, deliver irq' junk (frame :: frames) s =
    (s ← tcp_process irq' p (mkSegment (tcp_in_port con) (tcp_out_port con) seq ak (Z.lor PSH ACK) wnd)
           (piece ++ crc) (zlen piece) s;
     deliver irq' junk frames s).
Proof.
  intros Hsrc Hdst Hip Hoip Hsp Hdp Hsq Hak [Hz (ak' & wnd & ck & hdr & <- & Hckf & Hck & Hhdr & ->)] Hfind.
  set (th := tcp_header _ _ _ _ _ _ _). assert (Hthz : zlen th = 20) by apply zlen_tcp_header.
  set (body := words_bytes hdr ++ th ++ piece).
  assert (Hwz : zlen (words_bytes hdr) = 20).
  { destruct (ipv4_header_ok ip (tcp_out_ip con) 6 (20 + zlen piece)) as (x & E & _). rewrite E in Hhdr. by injection Hhdr as <-. }
  assert (Hbz : zlen body = 40 + zlen piece) by (unfold body; rewrite !zlen_app; lia).
  set (frame := ethernet_frame dst src 0x0800 body).
  assert (Hfz : zlen frame = 58 + zlen piece).
  { unfold frame, ethernet_frame. rewrite !zlen_app, Hbz, Hsrc, Hdst.
    change (zlen (le16_bytes _)) with 2. change (zlen (le32_bytes _)) with 4. lia. }
  destruct (handle_ethernet_frame dst src body (zlen frame)) as (crc & Hcz & He); [done|done|lia|].
  assert (Hpz : zlen (body ++ crc) = zlen frame - 14) by (rewrite zlen_app; lia). rewrite <- Hpz in He.
  assert (Hv : handle_ipv4 (body ++ crc) (zlen (body ++ crc)) =
    Ok (IpTcp ip (tcp_out_ip con) (th ++ piece ++ crc) (20 + zlen piece))).
  { unfold body. rewrite <- !app_assoc. rewrite (handle_ipv4_header ip (tcp_out_ip con) 6 (20 + zlen piece)); try done; try lia.
    rewrite !zlen_app. lia. }
  exists crc, (u16 wnd). intros frames. cbn [deliver]. fold th. fold body. fold frame. fold frame in He. rewrite He. cbn [mbind outcome_bind]. rewrite Hv. cbn [mbind outcome_bind].
  rewrite (handle_tcp_segment irq' junk ip (tcp_out_ip con) (tcp_in_port con) (tcp_out_port con) seq ak
    (Z.lor PSH ACK) wnd ck piece (zlen piece) crc s p eq_refl); try done; lia.
Qed.

Lemma find_con_same f (m m' : gmap Z TcpConnection) slots k :
  (forall q c, m !! q = Some c -> exists c', m' !! q = Some c' /\ f q c' = f q c) ->
  (forall q, m !! q = None -> m' !! q = None) ->
  find_con f m' slots k = find_con f m slots k.
Proof.
  intros H1 H2. revert k. induction slots as [|[q|] slots IH]; intros k; cbn [find_con]; [done| |apply IH].
  destruct (m !! q) as [c|] eqn:E.
  - destruct (H1 q c E) as (c' & -> & Hf). cbn [deref mbind outcome_bind]. rewrite Hf. by destruct (f q c).
  - by rewrite (H2 q E).
Qed.

(** The peer takes all the pieces, in order. *)
Lemma deliver_carries irq' junk ip src dst con ak seq data frames p s c :
  zlen src = 6 -> zlen dst = 6 -> fits 32 ip -> fits 32 (tcp_out_ip con) ->
  fits 16 (tcp_in_port con) -> fits 16 (tcp_out_port con) -> fits 32 ak ->
  carries ip src dst con (eq ak) seq data frames -> 0 <= seq -> seq + zlen data < 2 ^ 32 ->
  tcp_find_connection (tcp_in_port con) (tcp_out_port con) s = Ok (Some p) ->
  conns s !! p = Some c -> state c = ESTABLISHED -> rb_inv (tcp_in c) -> rcv_nxt c = seq ->
  snd_una c <= ak <= snd_max c -> zlen data <= ringbuffer_unused (tcp_in c) ->
  exists s' c', deliver irq' junk frames s = Ok s' /\ conns s' !! p = Some c' /\ state c' = ESTABLISHED /\
    rb_inv (tcp_in c') /\ rb_contents (tcp_in c') = rb_contents (tcp_in c) ++ data /\ rcv_nxt c' = seq + zlen data.
Proof.
  intros Hsrc Hdst Hip Hoip Hsp Hdp Hak Hc. revert s c.
  induction Hc as [seq|seq piece rest frame frames Hseg Hc IH]; intros s c Hs0 Hlim Hfind Hp Hst Hrb Hnx Hack Hroom.
  { exists s, c. rewrite app_nil_r, zlen_nil, Z.add_0_r. done. }
  rewrite zlen_app in Hlim, Hroom. pose proof (zlen_nonneg rest). pose proof (ds_size _ _ _ _ _ _ _ _ Hseg) as Hz.
  destruct (deliver_frame irq' junk ip src dst con ak seq piece frame p s) as (crc & wnd & E); try done; try (unfold fits; lia).
  rewrite E. set (sg := mkSegment _ _ _ _ _ _).
  destruct (tcp_process_data irq' p sg (piece ++ crc) (zlen piece) s c)
    as (s1 & c1 & Hpr & Hp1 & Hst1 & Hrb1 & Hor); try done; try (unfold fits; lia).
  { rewrite zlen_app. pose proof (zlen_nonneg crc). lia. }
  destruct (tcp_process_send irq' p sg (piece ++ crc) (zlen piece) s s1 c Hp Hst eq_refl eq_refl Hpr)
    as (c2 & Hcs & Hop & _ & _ & (F1 & F2 & F3) & _ & _ & _ & Hmx & Hua & Hcap2).
  rewrite Hcs, lookup_insert_eq in Hp1. injection Hp1 as ->.
  destruct Hor as [(_ & _ & Href)|(_ & Hn1 & Hd1)]; [cbn [sg sg_ack sg_seq] in Href; lia|].
  rewrite ztake_app_exact in Hd1 by done. rewrite u32_small in Hn1 by lia.
  destruct (rb_room_contents _ Hrb) as (Hu & _ & _ & Hcap). destruct (rb_room_contents _ Hrb1) as (Hu1 & _ & _ & Hcap1).
  destruct (IH s1 c1) as (s' & c' & E' & Hp' & Hst' & Hrb' & Hd' & Hn'); try done; try lia.
  - unfold tcp_find_connection in *. rewrite Hop. rewrite (find_con_same _ (conns s) (conns s1)); [done|..].
    + intros q cq Hq. rewrite Hcs. destruct (decide (q = p)) as [->|Hne].
      * rewrite lookup_insert_eq. exists c1. split; [done|]. rewrite Hp in Hq. injection Hq as <-. by rewrite F1, F2, Hst, Hst1.
      * rewrite lookup_insert_ne by done. by exists cq.
    + intros q Hq. rewrite Hcs, lookup_insert_ne; [done|]. intros ->. congruence.
  - by rewrite Hcs, lookup_insert_eq.
  - cbn [sg sg_ack] in Hua. lia.
  - assert (Hcc : ringbuffer_capacity (tcp_in c1) = ringbuffer_capacity (tcp_in c)) by (apply Hcap2; [done|lia|rewrite zlen_app; pose proof (zlen_nonneg crc); lia]).
    rewrite Hu1, Hcc, Hd1, zlen_app. lia.
  - exists s', c'. rewrite Hpr. cbn [mbind outcome_bind]. rewrite Hd', Hd1, <- app_assoc, zlen_app. split_and!; try done. lia.
Qed.

(** C4: what a program writes to a socket with TCP_NODELAY reaches the peer.  The
    call sends as much as the window allows, in segments of at most 1000 bytes; when
    the peer's kernel handles the frames in the order they were sent, each passes its
    Ethernet, IPv4 and TCP checks, and the stream of the peer grows by exactly the
    bytes the call reports, with both sides agreeing on the next sequence number. *)
Theorem tcp_write_delivered irq' junk p s con buf len ptwo stwo c :
  let n := Z.min len (tcp_can_send con) in
  sending p s con -> no_delay con = true -> 0 < n -> len <= zlen buf -> snd_nxt con + n < 2 ^ 32 ->
  fits 32 (ip_address (sys_net s)) -> fits 32 (tcp_out_ip con) ->
  fits 16 (tcp_in_port con) -> fits 16 (tcp_out_port con) -> fits 32 (rcv_nxt con) ->
  tcp_find_connection (tcp_in_port con) (tcp_out_port con) stwo = Ok (Some ptwo) ->
  conns stwo !! ptwo = Some c -> state c = ESTABLISHED -> rb_inv (tcp_in c) ->
  rcv_nxt c = snd_nxt con -> snd_una c <= rcv_nxt con <= snd_max c -> n <= ringbuffer_unused (tcp_in c) ->
  exists s' con' frames stwo' c',
    tcp_write (i :: irq) p buf len s = Ok (n, s') /\ conns s' !! p = Some con' /\
    transmitted (sys_net s') = transmitted (sys_net s) ++ frames /\
    deliver irq' junk frames stwo = Ok stwo' /\ conns stwo' !! ptwo = Some c' /\
    rb_contents (tcp_in c') = rb_contents (tcp_in c) ++ ztake n buf /\ rcv_nxt c' = snd_nxt con'.
Proof.
  intros n Hs Hnd Hn Hl Hb Hip Hoip Hsp Hdp Hak Hfind Hp Hst Hrb Hnx Hack Hroom.
  destruct (step_direct p s con buf n Hs) as (st' & E & [Hs' _ [(frames & T & C) _] _ _ _]); [by apply Hs|lia|lia|lia|].
  pose proof Hs as [Hp1 Hst1 [[_ _ _ Hmac _] [_ _ _ [Hm _]] _ Hsx] _ _].
  assert (Hz : zlen (ztake n buf) = n) by (apply zlen_ztake; lia).
  destruct (deliver_carries irq' junk _ _ _ con _ _ _ _ ptwo stwo c Hmac Hm Hip Hoip Hsp Hdp Hak C)
    as (stwo' & c' & D & Hp' & _ & _ & Hd & Hn'); try done; try lia.
  exists (set_con p (sent n con) (set_net st' s)), (sent n con), frames, stwo', c'. split_and!; try done; [|apply Hs'|].
  - unfold tcp_write. rewrite Hp1. cbn [deref mbind outcome_bind]. case_decide; [done|]. unfold con_can_write. rewrite Hnd.
    destruct (Z.eqb_spec (tcp_can_send con) 0); [lia|]. cbn [negb c_int Z.eqb]. fold n.
    destruct (Z.eqb_spec n 0); [lia|]. by rewrite E.
  - by rewrite Hn', Hz.
Qed.

(** A write that is larger than the outgoing buffer does nothing when the buffer is
    empty, however large the window is: [tcp_sync_buffer] has nothing to send and
    returns 0, which [tcp_write] takes for a full window. *)
Lemma tcp_large_write_stalls p s c buf len :
  sending p s c -> no_delay c = false -> rb_contents (tcp_out c) = [] ->
  ringbuffer_capacity (tcp_out c) < Z.min len (tcp_can_send c) ->
  tcp_write (i :: irq) p buf len s = Ok (0, s).
Proof.
  intros [Hp Hst _ Ho _] Hnd He Hlt. destruct (rb_room_contents _ Ho) as (Hu & Hus & Hun & _).
  rewrite He, zlen_nil in Hu, Hus. unfold tcp_write. rewrite Hp. cbn [deref mbind outcome_bind]. case_decide; [done|].
  unfold con_can_write. rewrite Hnd. destruct (Z.eqb_spec (tcp_can_send c) 0); [lia|]. rewrite orb_true_r. cbn [c_int Z.eqb].
  destruct (Z.eqb_spec (Z.min len (tcp_can_send c)) 0); [lia|].
  destruct (Z.ltb_spec (ringbuffer_unused (tcp_out c)) (Z.min len (tcp_can_send c))); [|lia].
  unfold tcp_sync_buffer. rewrite Hp. cbn [deref mbind outcome_bind]. case_decide; [congruence|]. by rewrite Hus.
Qed.
End Stream.

(** ** Choosing a port *)

Section Ports.
Context {H : Type} `{Allocator H}.
Implicit Types (s : tcp_sys H).

(** The ports of the open connections, and that none of them dangles. *)
Definition used_ports s : list Z :=
  omap (fun o => p ← o; (tcp_in_port <$> conns s !! p)) (open_tcp_connections s).
Definition no_dangling s : Prop :=
  Forall (fun o => forall p, o = Some p -> is_Some (conns s !! p)) (open_tcp_connections s).

Lemma length_omap_le {A B} (f : A -> option B) (l : list A) : (length (omap f l) <= length l)%nat.
Proof. induction l as [|x l IH]; [done|]. cbn [omap list_omap length]. destruct (f x); cbn [length]; lia. Qed.

Lemma find_port_spec port (m : gmap Z TcpConnection) slots k :
  Forall (fun o => forall p, o = Some p -> is_Some (m !! p)) slots ->
  exists r, find_con (fun _ c => tcp_in_port c =? port) m slots k = Ok r /\
    (r = None <-> port ∉ omap (fun o => p ← o; (tcp_in_port <$> m !! p)) slots).
Proof.
  intros Hv. revert k. induction Hv as [|[p|] slots Hp _ IH]; intros k; cbn [find_con].
  - exists None. split; [done|]. split; [|done]. intros _. apply not_elem_of_nil.
  - destruct (Hp p eq_refl) as [c E]. cbn [omap list_omap mbind option_bind]. rewrite E. cbn [deref mbind outcome_bind].
    change (tcp_in_port <$> Some c) with (Some (tcp_in_port c)). cbn iota.
    destruct (Z.eqb_spec (tcp_in_port c) port) as [<-|Hne].
    + eexists. split; [done|]. split; [done|]. intros Hn. destruct Hn. apply elem_of_cons. by left.
    + destruct (IH (S k)) as (r & -> & Hr). exists r. split; [done|]. rewrite Hr, not_elem_of_cons. naive_solver.
  - apply IH.
Qed.

Lemma find_free_port_run fuel port s :
  no_dangling s -> fits 16 port ->
  (exists q, find_free_port_fuel fuel port s = Ok q /\ q ∉ used_ports s /\ fits 16 q) \/
  (forall k, (k < fuel)%nat -> u16 (port + Z.of_nat k) ∈ used_ports s).
Proof.
  intros Hv. revert port. induction fuel as [|fuel IH]; intros port Hp; [right; lia|]. cbn [find_free_port_fuel].
  destruct (find_port_spec port (conns s) (open_tcp_connections s) 0 Hv) as (r & -> & Hr). cbn [mbind outcome_bind].
  destruct r as [[j q]|]; [|left; exists port; split_and!; try done; by apply Hr].
  destruct (IH (u16 (port + 1))) as [?|Hk]; [by apply wrap_fits|by left|].
  right. intros [|k] Hlt.
  - rewrite Z.add_0_r, u16_small by done. destruct (decide (port ∈ used_ports s)) as [|Hn]; [done|]. by apply Hr in Hn.
  - specialize (Hk k ltac:(lia)). unfold u16, wrap in *. rewrite Zplus_mod_idemp_l in Hk.
    by replace (port + Z.of_nat (S k)) with (port + 1 + Z.of_nat k) by lia.
Qed.

(** [tcp_find_free_port] returns, and the port it returns is used by no open
    connection, as long as there are fewer connections than ports. *)
Theorem tcp_find_free_port_free port s :
  no_dangling s -> fits 16 port -> zlen (open_tcp_connections s) < 2 ^ 16 ->
  exists q, tcp_find_free_port port s = Ok q /\ q ∉ used_ports s /\ fits 16 q.
Proof.
  intros Hv Hp Hl. destruct (find_free_port_run (S (length (open_tcp_connections s))) port s Hv Hp) as [?|Hk]; [done|].
  set (n := length (open_tcp_connections s)) in *. exfalso.
  set (l := (fun k => u16 (port + Z.of_nat k)) <$> seq 0 (S n)).
  assert (Hnd : NoDup l).
  { apply NoDup_fmap_2_strong; [|apply NoDup_seq]. intros x y Hx Hy Hxy. apply elem_of_seq in Hx, Hy.
    unfold zlen in Hl. unfold u16, wrap, fits in *. assert (Hz : (Z.of_nat x - Z.of_nat y) mod 2 ^ 16 = 0).
    { replace (Z.of_nat x - Z.of_nat y) with (port + Z.of_nat x - (port + Z.of_nat y)) by lia.
      rewrite Zminus_mod, Hxy, Z.sub_diag. done. }
    apply Z.mod_divide in Hz as [q Hq]; [|done]. fold n in Hl. change (2 ^ 16) with 65536 in *. lia. }
  assert (Hsub : l ⊆ used_ports s).
  { intros x Hx. apply list_elem_of_fmap in Hx as (k & -> & Hin). apply elem_of_seq in Hin. apply Hk. lia. }
  pose proof (submseteq_length _ _ (NoDup_submseteq _ _ Hnd Hsub)) as Hlen.
  unfold l in Hlen. rewrite length_fmap, length_seq in Hlen.
  pose proof (length_omap_le (fun o => p ← o; (tcp_in_port <$> conns s !! p)) (open_tcp_connections s)) as Hle.
  fold (used_ports s) in Hle. fold n in Hle. lia.
Qed.
End Ports.

(** ** Witnesses *)

Lemma tcp_sample_sending : sending [2; 0; 0; 0; 0; 9] 4096 tcp_sample_out tcp_sender.
Proof.
  split; [reflexivity|done| |exact tcp_rb_sample_inv|reflexivity].
  split; [exact net_sample_wf|exact net_sample_known|done|done].
Qed.

Lemma tcp_sample_memory (n h : Z) : 0 <= n < 2 ^ 16 -> exists b h', alloc_bytes n h = (Some b, h').
Proof. intros _. by eexists _, _. Qed.

Lemma tcp_write_delivered_witness :
  exists s' con' frames stwo' c',
    tcp_write [id] 4096 [7; 8; 9] 3 tcp_sample_out = Ok (3, s') /\ conns s' !! 4096 = Some con' /\
    transmitted (sys_net s') = transmitted (sys_net tcp_sample_out) ++ frames /\
    deliver [id] false frames tcp_sample = Ok stwo' /\ conns stwo' !! 4096 = Some c' /\
    rb_contents (tcp_in c') = [7; 8; 9] /\ rcv_nxt c' = snd_nxt con'.
Proof.
  exact (tcp_write_delivered id [] [2; 0; 0; 0; 0; 9] [id] false 4096 tcp_sample_out tcp_sender [7; 8; 9] 3
    4096 tcp_sample tcp_receiver tcp_sample_sending eq_refl ltac:(done) ltac:(done) ltac:(done) ltac:(done)
    ltac:(done) ltac:(done) ltac:(done) ltac:(done) eq_refl eq_refl eq_refl tcp_rb_sample_inv eq_refl
    ltac:(done) ltac:(done)).
Defined.

(** A connection without TCP_NODELAY. *)
Definition tcp_buffering : TcpConnection :=
  mkTcp ESTABLISHED 1337 (le32 10 0 0 2) (le32 10 0 0 9) 80 tcp_rb_sample tcp_rb_sample false
    65535 700 false 500 500 500 4096 [].
Definition tcp_sample_buffering : tcp_sys Z := mkSys {[ 4096 := tcp_buffering ]} [Some 4096] net_sample 8192.


Lemma tcp_find_free_port_free_witness :
  exists q, tcp_find_free_port 1337 tcp_sample_out = Ok q /\ q ∉ used_ports tcp_sample_out /\ fits 16 q.
Proof.
  apply tcp_find_free_port_free; [|done|reflexivity]. repeat constructor. intros p [= <-]. by eexists.
Defined.

(** ** What goes wrong *)

Definition after_write (o : outcome (Z * tcp_sys Z)) : option (Z * Z * list Z) :=
  match o with
  | Ok (r, s) => c ← conns s !! 4096; Some (r, snd_nxt c, rb_contents (tcp_out c))
  | _ => None
  end.

(** Two bytes are buffered and the window has room for 1002: of 1001 bytes more, 1000
    are sent and the call fails, so that the program sends them again. *)
Definition tcp_overshooting : tcp_sys Z :=
  mkSys {[ 4096 := set_snd 500 500 500 1002 (set_bufs tcp_rb_sample
     (mkRingbuffer (Some (Block 64 (replicate 16%nat 5))) 16 2 4) tcp_buffering) ]} [Some 4096] net_sample 8192.

Example overshoot_resends :
  after_write (tcp_write [id] 4096 (replicate 1001 7) 1001 tcp_overshooting) = Some (- EAGAIN, 1502, []).
Proof. vm_compute. reflexivity. Qed.

(** After TCP_NODELAY is set, later bytes overtake those that are still buffered. *)
Definition tcp_switched : tcp_sys Z :=
  mkSys {[ 4096 := set_bufs tcp_rb_sample
     (mkRingbuffer (Some (Block 64 (replicate 16%nat 5))) 16 2 4) tcp_sender ]} [Some 4096] net_sample 8192.

Example nodelay_overtakes :
  after_write (tcp_write [id] 4096 [7; 8; 9] 3 tcp_switched) = Some (3, 503, [5; 5]).
Proof. vm_compute. reflexivity. Qed.

(** A peer that closes its window before all is acknowledged is taken for one with
    a window of almost 64 KiB. *)
Example closed_window_wraps : tcp_can_send (set_snd 500 600 600 0 tcp_sender) = 65436.
Proof. reflexivity. Qed.
