(* ===== verification/Ext2Cache.v ===== *)
(** kernel/fs/ext2.c, first part: the globals of the file system, the device
    behind it and the write back cache of blocks.

    The mounted device is an array of bytes [disk]; [raw_vfs_pread] and
    [raw_vfs_pwrite] copy from and to it, an access outside it is a fault.
    [uptime] and [now_ms] are what the timer functions return.  The superblock
    is kept as the 1024 bytes that were read at mount time. *)

From stdpp Require Import base numbers list gmap.
From Stdlib Require Import ZArith Lia.
From S2P Require Import Prelude StateM Bytes.

Open Scope Z_scope.

Record block_cache : Type := mkCache {
  c_used : bool;
  last_use : Z;
  block_num : Z;
  c_block : list Z;
  has_write : bool
}.

Record ext2_open_file : Type := mkOpen {
  o_inode_num : Z;
  references : Z;
  is_removed : bool
}.

Record ext2 : Type := mkExt2 {
  disk : list Z;
  cache : list block_cache;
  sb_bytes : list Z;
  superblock_changed : bool;
  block_byte_size : Z;
  inode_size : Z;
  last_inode_read : Z;
  last_inode : list Z;
  files : list ext2_open_file;
  uptime : Z;
  now_ms : Z
}.

Abbreviation E := (SM ext2).

Definition set_disk (d : list Z) (st : ext2) : ext2 :=
  mkExt2 d (cache st) (sb_bytes st) (superblock_changed st) (block_byte_size st)
    (inode_size st) (last_inode_read st) (last_inode st) (files st) (uptime st) (now_ms st).
Definition set_cache (c : list block_cache) (st : ext2) : ext2 :=
  mkExt2 (disk st) c (sb_bytes st) (superblock_changed st) (block_byte_size st)
    (inode_size st) (last_inode_read st) (last_inode st) (files st) (uptime st) (now_ms st).
Definition set_superblock (b : list Z) (changed : bool) (st : ext2) : ext2 :=
  mkExt2 (disk st) (cache st) b changed (block_byte_size st)
    (inode_size st) (last_inode_read st) (last_inode st) (files st) (uptime st) (now_ms st).
Definition set_last_inode (n : Z) (b : list Z) (st : ext2) : ext2 :=
  mkExt2 (disk st) (cache st) (sb_bytes st) (superblock_changed st) (block_byte_size st)
    (inode_size st) n b (files st) (uptime st) (now_ms st).
Definition set_files (f : list ext2_open_file) (st : ext2) : ext2 :=
  mkExt2 (disk st) (cache st) (sb_bytes st) (superblock_changed st) (block_byte_size st)
    (inode_size st) (last_inode_read st) (last_inode st) f (uptime st) (now_ms st).

(** ** The device *)

Definition raw_pread (size offset : Z) : E (list Z) :=
  d ← gets disk; lift (bytes_at d offset size).

Definition raw_pwrite (data : list Z) (offset : Z) : E unit :=
  d ← gets disk;
  d ← lift (memcpy_at d offset data 0 (zlen data));
  modify (set_disk d).

(** ** The cache *)

(** The first loop of [cached_read_block]: the entry of the block, or the last
    unused entry ([-1] for none). *)
Fixpoint cache_scan (c : list block_cache) (block i free_found : Z) : Z + Z :=
  match c with
  | [] => inr free_found
  | e :: c =>
    if negb (c_used e) then cache_scan c block (i + 1) i else
    if block_num e =? block then inl i else cache_scan c block (i + 1) free_found
  end.

(** The second loop: the entry that was used least recently. *)
Fixpoint lru_scan (c : list block_cache) (i min_last_used min_index : Z) : Z :=
  match c with
  | [] => min_index
  | e :: c =>
    if last_use e <? min_last_used then lru_scan c (i + 1) (last_use e) i
    else lru_scan c (i + 1) min_last_used min_index
  end.

Definition cache_put (i : Z) (e : block_cache) : E unit :=
  c ← gets cache;
  c ← lift (awrite c i e);
  modify (set_cache c).

(** Writes back the victim if need be and loads [block] in its place. *)
Definition cache_load (i block : Z) : E unit :=
  cs ← gets cache;
  bbs ← gets block_byte_size;
  c ← lift (aread cs i);
  (if c_used c && has_write c
   then raw_pwrite (ztake bbs (c_block c)) (u32 (block_num c * bbs)) else ret tt) ;;
  now ← gets uptime;
  data ← raw_pread bbs (u32 (block * bbs));
  cache_put i (mkCache true (u32 now) block data false).

Fixpoint cached_read_fuel (fuel : nat) (block size offset : Z) : E (list Z) :=
  match fuel with
  | O => no_fuel
  | S fuel =>
    bbs ← gets block_byte_size;
    m_assert (u32 (offset + size) <=? bbs) ;;
    cs ← gets cache;
    match cache_scan cs block 0 (-1) with
    | inl i =>
      now ← gets uptime;
      c ← lift (aread cs i);
      cache_put i (mkCache (c_used c) (u32 now) (block_num c) (c_block c) (has_write c)) ;;
      lift (bytes_at (c_block c) offset size)
    | inr free_found =>
      let i := if free_found =? -1 then lru_scan cs 0 (2 ^ 32 - 1) 0 else free_found in
      cache_load i block ;;
      cached_read_fuel fuel block size offset
    end
  end.

(** The recursive call finds the block that was just loaded. *)
Definition cached_read_block : Z -> Z -> Z -> E (list Z) := cached_read_fuel 2.
Definition ext2_read_block : Z -> Z -> Z -> E (list Z) := cached_read_block.

(** The search of [ext2_write_block]. *)
Fixpoint cache_index (c : list block_cache) (block i : Z) : Z :=
  match c with
  | [] => -1
  | e :: c =>
    if negb (c_used e) then cache_index c block (i + 1) else
    if block_num e =? block then i else cache_index c block (i + 1)
  end.

Definition ext2_write_block (block : Z) (data : list Z) (size offset : Z) : E unit :=
  bbs ← gets block_byte_size;
  m_assert (u32 (offset + size) <=? bbs) ;;
  cs ← gets cache;
  let i := cache_index cs block 0 in
  if negb (i =? -1) then
    c ← lift (aread cs i);
    b ← lift (memcpy_at (c_block c) offset data 0 size);
    cache_put i (mkCache (c_used c) (last_use c) (block_num c) b true)
  else
    data ← lift (bytes_at data 0 size);
    raw_pwrite data (u32 (u32 (block * bbs) + offset)).

Definition flush_entry (i : Z) : E unit :=
  cs ← gets cache;
  bbs ← gets block_byte_size;
  c ← lift (aread cs i);
  if negb (c_used c) then ret tt else
  if negb (has_write c) then ret tt else
  raw_pwrite (ztake bbs (c_block c)) (u32 (block_num c * bbs)) ;;
  cache_put i (mkCache (c_used c) (last_use c) (block_num c) (c_block c) false).

Definition ext2_flush_writes : E unit :=
  cs ← gets cache;
  for_loop (R := unit) (length cs) 0 (fun i => flush_entry i ;; ret None) ;;
  changed ← gets superblock_changed;
  if changed : bool then
    sb ← gets sb_bytes;
    raw_pwrite (ztake 1024 sb) 0 ;;
    modify (set_superblock sb false)
  else ret tt.

(** ** What the cache and the device together hold *)

Definition find_entry (cs : list block_cache) (block : Z) : option block_cache :=
  List.find (fun e => c_used e && (block_num e =? block)) cs.

Definition on_disk (st : ext2) (block : Z) : list Z :=
  slice (block * block_byte_size st) (block_byte_size st) (disk st).

(** The contents of a block as every reader sees it. *)
Definition bview (st : ext2) (block : Z) : list Z :=
  match find_entry (cache st) block with
  | Some e => c_block e
  | None => on_disk st block
  end.

Definition block_ok (st : ext2) (block : Z) : Prop :=
  0 <= block /\ (block + 1) * block_byte_size st <= zlen (disk st).

Record entry_ok (st : ext2) (e : block_cache) : Prop := {
  eo_size : zlen (c_block e) = block_byte_size st;
  eo_block : c_used e = true -> block_ok st (block_num e);
  eo_clean : c_used e = true -> has_write e = false -> c_block e = on_disk st (block_num e)
}.

Record cache_inv (st : ext2) : Prop := {
  ci_bbs : 0 < block_byte_size st < 2 ^ 31;
  ci_disk : zlen (disk st) < 2 ^ 32;
  ci_some : cache st <> [];
  ci_entries : Forall (entry_ok st) (cache st);
  ci_unique : forall i j e e', cache st !! i = Some e -> cache st !! j = Some e' ->
    c_used e = true -> c_used e' = true -> block_num e = block_num e' -> i = j
}.

(** The globals the cache does not touch. *)
Definition same_globals (st st' : ext2) : Prop :=
  st' = set_cache (cache st') (set_disk (disk st') st).

Lemma find_entry_Some cs b e :
  find_entry cs b = Some e ->
  exists i, cs !! i = Some e /\ c_used e = true /\ block_num e = b.
Proof.
  intros Hf. apply find_some in Hf as [Hin Hb]. breflect.
  apply list_elem_of_In, list_elem_of_lookup in Hin as [i Hi]. by exists i.
Qed.

Lemma find_entry_None cs b i e :
  find_entry cs b = None -> cs !! i = Some e -> c_used e = true -> block_num e <> b.
Proof.
  intros Hf Hi Hu Hb. pose proof (find_none _ _ Hf e) as Hn.
  assert (In e cs) by (apply list_elem_of_In, list_elem_of_lookup; by exists i).
  specialize (Hn H). cbn in Hn. rewrite Hu in Hn. cbn in Hn. apply Z.eqb_neq in Hn. done.
Qed.

Section View.
Implicit Types st : ext2.

Lemma bview_cached st i e :
  cache_inv st -> cache st !! i = Some e -> c_used e = true ->
  bview st (block_num e) = c_block e.
Proof.
  intros Hinv Hi Hu. unfold bview.
  destruct (find_entry (cache st) (block_num e)) as [e'|] eqn:Hf.
  - destruct (find_entry_Some _ _ _ Hf) as (j & Hj & Hu' & Hb).
    assert (i = j) as <- by (by eapply ci_unique). congruence.
  - by destruct (find_entry_None _ _ _ _ Hf Hi Hu).
Qed.

Lemma bview_uncached st b :
  (forall i e, cache st !! i = Some e -> c_used e = true -> block_num e <> b) ->
  bview st b = on_disk st b.
Proof.
  intros Hn. unfold bview. destruct (find_entry (cache st) b) as [e|] eqn:Hf; [|done].
  destruct (find_entry_Some _ _ _ Hf) as (j & Hj & Hu & Hb). by destruct (Hn j e).
Qed.

(** Whether a block is cached. *)
Lemma cached_dec st b :
  (exists i e, cache st !! i = Some e /\ c_used e = true /\ block_num e = b) \/
  (forall i e, cache st !! i = Some e -> c_used e = true -> block_num e <> b).
Proof.
  destruct (find_entry (cache st) b) as [e|] eqn:Hf.
  - left. destruct (find_entry_Some _ _ _ Hf) as (i & Hi & Hu & Hb). by exists i, e.
  - right. intros i e. by apply find_entry_None.
Qed.

Lemma entry_at st i e : cache_inv st -> cache st !! i = Some e -> entry_ok st e.
Proof. intros Hinv Hi. exact (Forall_lookup_1 _ _ _ _ (ci_entries _ Hinv) Hi). Qed.

Lemma on_disk_len st b : cache_inv st -> block_ok st b -> zlen (on_disk st b) = block_byte_size st.
Proof. intros [Hb _ _ _ _] [H1 H2]. unfold on_disk. rewrite zlen_slice; nia. Qed.

Lemma bview_len st b : cache_inv st -> block_ok st b -> zlen (bview st b) = block_byte_size st.
Proof.
  intros Hinv Hb. destruct (cached_dec st b) as [(i & e & Hi & Hu & <-)|Hn].
  - rewrite (bview_cached _ _ _ Hinv Hi Hu). apply (entry_at _ _ _ Hinv Hi).
  - rewrite bview_uncached by done. by apply on_disk_len.
Qed.

Lemma entry_ok_cache st c e : entry_ok (set_cache c st) e <-> entry_ok st e.
Proof. split; intros [H1 H2 H3]; by split. Qed.

(** Replacing an entry: either one for the same block, or the first one for a
    block that is not cached. *)
Lemma replace_entry st i e e' :
  cache_inv st -> cache st !! i = Some e -> entry_ok st e' -> c_used e' = true ->
  (c_used e = true /\ block_num e' = block_num e \/
   forall j d, cache st !! j = Some d -> c_used d = true -> block_num d <> block_num e') ->
  let st' := set_cache (<[i := e']> (cache st)) st in
  cache_inv st' /\ bview st' (block_num e') = c_block e' /\
  (forall b, b <> block_num e' -> (c_used e = true -> b <> block_num e) ->
     bview st' b = bview st b) /\
  (c_used e = true -> block_num e <> block_num e' ->
     bview st' (block_num e) = on_disk st (block_num e)).
Proof.
  intros Hinv Hi Hok Hu Hor st'. pose proof Hinv as [Hb Hd Hne Hf Huniq].
  assert (Hlt : (i < length (cache st))%nat) by (by eapply lookup_lt_Some).
  assert (Hlk : forall j d, cache st' !! j = Some d ->
    (j = i /\ d = e') \/ (j <> i /\ cache st !! j = Some d)).
  { intros j d. cbn [cache set_cache st']. destruct (decide (j = i)) as [->|Hj].
    - rewrite list_lookup_insert_eq by done. intros [= ->]. by left.
    - rewrite list_lookup_insert_ne by done. by right. }
  assert (Hclash : forall j d, j <> i -> cache st !! j = Some d -> c_used d = true ->
    block_num d <> block_num e').
  { intros j d Hj Hjd Hdu. destruct Hor as [[Heu Hen]|Hno]; [|by apply (Hno j)].
    rewrite Hen. intros Heq. by destruct Hj; eapply Huniq. }
  assert (Hinv' : cache_inv st').
  { split; try done.
    - cbn. intros Hnil. apply (f_equal length) in Hnil. rewrite length_insert in Hnil.
      cbn in Hnil. lia.
    - unfold st'. apply (Forall_impl (entry_ok st)); [by apply Forall_insert|].
      intros d. by rewrite entry_ok_cache.
    - intros j k d d' Hj Hk Hdu Hdu' Heq.
      destruct (Hlk _ _ Hj) as [[-> ->]|[Hji Hjd]], (Hlk _ _ Hk) as [[-> ->]|[Hki Hkd]]; try done.
      + by destruct (Hclash _ _ Hki Hkd Hdu').
      + by destruct (Hclash _ _ Hji Hjd Hdu).
      + by eapply Huniq. }
  assert (Hi' : cache st' !! i = Some e') by (cbn; by rewrite list_lookup_insert_eq).
  split_and!; [done|by eapply bview_cached| |].
  - intros b Hbe Hbi. destruct (cached_dec st b) as [(j & d & Hj & Hdu & <-)|Hno].
    + assert (Hji : j <> i) by (intros ->; rewrite Hi in Hj; injection Hj as ->; by apply Hbi).
      rewrite (bview_cached st j d) by done. apply (bview_cached st' j d); [done| |done].
      cbn. by rewrite list_lookup_insert_ne.
    + rewrite (bview_uncached st) by done. apply (bview_uncached st').
      intros j d Hj Hdu. destruct (Hlk _ _ Hj) as [[-> ->]|[_ Hjd]]; [done|]. by apply (Hno j).
  - intros Heu Hen. apply (bview_uncached st').
    intros j d Hj Hdu. destruct (Hlk _ _ Hj) as [[-> ->]|[Hji Hjd]]; [done|].
    intros Heq. by destruct Hji; eapply Huniq.
Qed.

(** Writing part of a block to the device directly. *)
Lemma disk_write st b off data :
  cache_inv st -> block_ok st b -> 0 <= off -> off + zlen data <= block_byte_size st ->
  (forall i e, cache st !! i = Some e -> c_used e = true -> block_num e = b -> has_write e = true) ->
  exists st', raw_pwrite data (b * block_byte_size st + off) st = Ok (tt, st') /\
    st' = set_disk (disk st') st /\ cache_inv st' /\
    on_disk st' b = splice (on_disk st b) off data /\
    (forall b', block_ok st b' -> b' <> b -> on_disk st' b' = on_disk st b') /\
    zlen (disk st') = zlen (disk st).
Proof.
  intros Hinv [Hb1 Hb2] Ho Hl Hdirty. pose proof Hinv as [Hbb Hd Hne Hf Huniq].
  pose proof (zlen_nonneg data). set (bbs := block_byte_size st) in *.
  set (pos := b * bbs + off). assert (Hpos : 0 <= pos /\ pos + zlen data <= zlen (disk st)) by nia.
  unfold raw_pwrite. msimpl. rewrite memcpy_at_ok by lia. rewrite slice_all.
  rewrite lift_bind. unfold modify.
  set (st' := set_disk (splice (disk st) pos data) st).
  exists st'. assert (Hz : zlen (disk st') = zlen (disk st)) by (cbn; apply zlen_splice; lia).
  assert (Hother : forall b', block_ok st b' -> b' <> b -> on_disk st' b' = on_disk st b').
  { intros b' [Hb1' Hb2'] Hne'. unfold on_disk. cbn [block_byte_size disk st' set_disk].
    fold bbs in Hb2' |- *. apply slice_splice_disjoint; nia. }
  assert (Hsame : on_disk st' b = splice (on_disk st b) off data).
  { apply znth_ext; unfold on_disk; cbn [block_byte_size disk st' set_disk]; fold bbs.
    - rewrite zlen_slice by (rewrite ?zlen_splice; nia).
      rewrite zlen_splice by (rewrite ?zlen_slice; nia). rewrite zlen_slice; nia.
    - rewrite zlen_slice by (rewrite ?zlen_splice; nia). intros i Hi.
      rewrite znth_slice by lia. rewrite znth_splice by nia.
      rewrite znth_splice by (rewrite ?zlen_slice; nia).
      rewrite znth_slice by lia. unfold pos.
      destruct (Z.leb_spec (b * bbs + off) (b * bbs + i)), (Z.leb_spec off i); try nia;
        cbn [andb]; try done.
      destruct (Z.ltb_spec (b * bbs + i) (b * bbs + off + zlen data)),
        (Z.ltb_spec i (off + zlen data)); try nia; try done. f_equal. lia. }
  split_and!; try done. split; try done.
  - by rewrite Hz.
  - apply Forall_lookup_2. intros i e Hi. pose proof (Forall_lookup_1 _ _ _ _ Hf Hi) as [E1 E2 E3].
    split; [done| |].
    + intros Hu. destruct (E2 Hu) as [X1 X2]. split; [done|]. by rewrite Hz.
    + intros Hu Hc. rewrite (E3 Hu Hc). symmetry. apply Hother; [by apply E2|].
      intros Heq. rewrite (Hdirty i e) in Hc; done.
Qed.
End View.

(** ** The searches *)

Lemma cache_scan_spec cs b i free :
  match cache_scan cs b i free with
  | inl r => exists k e, r = i + Z.of_nat k /\ cs !! k = Some e /\ c_used e = true /\ block_num e = b
  | inr r => (forall k e, cs !! k = Some e -> c_used e = true -> block_num e <> b) /\
      (r = free \/ exists k e, r = i + Z.of_nat k /\ cs !! k = Some e /\ c_used e = false)
  end.
Proof.
  revert i free. induction cs as [|e cs IH]; intros i free; cbn [cache_scan].
  { split; [by intros|by left]. }
  destruct (c_used e) eqn:Hu; cbn [negb].
  - destruct (Z.eqb_spec (block_num e) b) as [Hb|Hb].
    { exists 0%nat, e. split_and!; (done || lia). }
    specialize (IH (i + 1) free). destruct (cache_scan cs b (i + 1) free) as [r|r].
    + destruct IH as (k & e' & -> & Hk & Hrest). exists (S k), e'. split; [lia|done].
    + destruct IH as [Hno Hr]. split.
      * intros [|k] e' Hk; [by injection Hk as <-|by apply (Hno k)].
      * destruct Hr as [->|(k & e' & -> & Hk & He)]; [by left|]. right.
        exists (S k), e'. split; [lia|done].
  - specialize (IH (i + 1) i). destruct (cache_scan cs b (i + 1) i) as [r|r].
    + destruct IH as (k & e' & -> & Hk & Hrest). exists (S k), e'. split; [lia|done].
    + destruct IH as [Hno Hr]. split.
      * intros [|k] e' Hk; [injection Hk as <-; congruence|by apply (Hno k)].
      * right. destruct Hr as [->|(k & e' & -> & Hk & He)].
        { exists 0%nat, e. split_and!; (done || lia). }
        exists (S k), e'. split; [lia|done].
Qed.

Lemma cache_index_spec cs b i :
  0 <= i ->
  (exists k e, cache_index cs b i = i + Z.of_nat k /\ cs !! k = Some e /\
     c_used e = true /\ block_num e = b) \/
  cache_index cs b i = -1 /\
    (forall k e, cs !! k = Some e -> c_used e = true -> block_num e <> b).
Proof.
  revert i. induction cs as [|e cs IH]; intros i Hi; cbn [cache_index]; [by right|].
  assert (Hstep : (c_used e = true -> block_num e <> b) ->
    (exists k e0, cache_index cs b (i + 1) = i + Z.of_nat k /\ (e :: cs) !! k = Some e0 /\
       c_used e0 = true /\ block_num e0 = b) \/
    cache_index cs b (i + 1) = -1 /\
      (forall k e0, (e :: cs) !! k = Some e0 -> c_used e0 = true -> block_num e0 <> b)).
  { intros Hno. destruct (IH (i + 1) ltac:(lia)) as [(k & e' & -> & Hk & Hrest)|[-> Hn]].
    - left. exists (S k), e'. split; [lia|done].
    - right. split; [done|]. intros [|k] e' Hk; [by injection Hk as <-|by apply (Hn k)]. }
  destruct (c_used e) eqn:Hu; cbn [negb]; [|by apply Hstep].
  destruct (Z.eqb_spec (block_num e) b) as [Hb|Hb]; [|by apply Hstep].
  left. exists 0%nat, e. split_and!; (done || lia).
Qed.

Lemma lru_scan_range cs i mn mi :
  lru_scan cs i mn mi = mi \/ i <= lru_scan cs i mn mi < i + Z.of_nat (length cs).
Proof.
  revert i mn mi. induction cs as [|e cs IH]; intros i mn mi; cbn [lru_scan length]; [by left|].
  case_goal.
  - destruct (IH (i + 1) (last_use e) i) as [->|H]; lia.
  - destruct (IH (i + 1) mn mi) as [->|H]; [by left|lia].
Qed.

(** ** Reading and writing through the cache *)

Section Cached.
Implicit Types st : ext2.

(** Nothing but the cache and the device changed, and no block looks different. *)
Record same_view (st st' : ext2) : Prop := {
  sv_globals : same_globals st st';
  sv_inv : cache_inv st';
  sv_disk : zlen (disk st') = zlen (disk st);
  sv_len : length (cache st') = length (cache st);
  sv_view : forall b, block_ok st b -> bview st' b = bview st b
}.

Lemma same_globals_cache st c : same_globals st (set_cache c st).
Proof. by destruct st. Qed.

Lemma same_globals_bbs st st' : same_globals st st' -> block_byte_size st' = block_byte_size st.
Proof. unfold same_globals. by intros ->. Qed.

Lemma block_ok_same st st' b :
  same_globals st st' -> zlen (disk st') = zlen (disk st) -> block_ok st' b <-> block_ok st b.
Proof. intros Hg Hz. unfold block_ok. by rewrite (same_globals_bbs _ _ Hg), Hz. Qed.

Lemma same_view_trans st1 st2 st3 : same_view st1 st2 -> same_view st2 st3 -> same_view st1 st3.
Proof.
  intros [G1 I1 D1 L1 V1] [G2 I2 D2 L2 V2]. split; [|done|congruence|congruence|].
  - unfold same_globals in *. rewrite G2. rewrite G1. done.
  - intros b Hb. rewrite V2, V1; [done..|]. by rewrite (block_ok_same st1 st2).
Qed.

Lemma same_view_refl st : cache_inv st -> same_view st st.
Proof. intros Hi. split; try done. by destruct st. Qed.

Lemma cache_put_ok i e st :
  (i < length (cache st))%nat ->
  cache_put (Z.of_nat i) e st = Ok (tt, set_cache (<[i := e]> (cache st)) st).
Proof.
  intros Hi. unfold cache_put. msimpl. rewrite awrite_ok by (unfold zlen; lia).
  rewrite lift_bind. unfold modify. by rewrite Nat2Z.id.
Qed.

Lemma cache_aread st i e : cache st !! i = Some e -> aread (cache st) (Z.of_nat i) = Ok e.
Proof.
  intros Hi. apply aread_ok. unfold znth. destruct (Z.leb_spec 0 (Z.of_nat i)); [|lia].
  by rewrite Nat2Z.id.
Qed.

(** Writing a cached block back. *)
Lemma write_back st i e :
  cache_inv st -> cache st !! i = Some e -> c_used e = true -> has_write e = true ->
  exists st', raw_pwrite (ztake (block_byte_size st) (c_block e))
      (u32 (block_num e * block_byte_size st)) st = Ok (tt, st') /\
    same_view st st' /\ cache st' = cache st /\ on_disk st' (block_num e) = c_block e /\
    (forall b, block_ok st b -> b <> block_num e -> on_disk st' b = on_disk st b).
Proof.
  intros Hinv Hi Hu Hw. pose proof (entry_at _ _ _ Hinv Hi) as [E1 E2 E3].
  destruct (E2 Hu) as [B1 B2]. pose proof Hinv as [Hb Hd _ _ Huniq].
  rewrite ztake_all by done. rewrite u32_small by nia.
  destruct (disk_write st (block_num e) 0 (c_block e)) as (st' & Hr & Hst' & Hi' & Ho & Hoth & Hz);
    [done|done|lia|lia| |].
  { intros j d Hj Hdu Hn. assert (j = i) as -> by (by eapply Huniq). congruence. }
  rewrite Z.add_0_r in Hr. exists st'. split; [exact Hr|].
  assert (Hc : cache st' = cache st) by (by rewrite Hst').
  assert (Hbl : on_disk st' (block_num e) = c_block e).
  { rewrite Ho. pose proof (on_disk_len st (block_num e) Hinv (conj B1 B2)) as Hl.
    unfold splice. rewrite E1. unfold ztake. cbn [Z.to_nat take app].
    unfold zdrop. rewrite drop_ge by (unfold zlen in Hl; lia). apply app_nil_r. }
  split_and!; try done. split; try done.
  - unfold same_globals. rewrite Hst'. by destruct st.
  - by rewrite Hc.
  - intros b Hbk. destruct (cached_dec st b) as [(j & d & Hj & Hdu & <-)|Hno].
    + rewrite (bview_cached st j d) by done. apply (bview_cached st' j d); [done|congruence|done].
    + rewrite !bview_uncached; [|done|by rewrite Hc]. apply Hoth; [done|].
      intros ->. by apply (Hno i e).
Qed.

Lemma cache_load_spec st i e b :
  cache_inv st -> cache st !! i = Some e -> block_ok st b ->
  (forall j d, cache st !! j = Some d -> c_used d = true -> block_num d <> b) ->
  exists st' e', cache_load (Z.of_nat i) b st = Ok (tt, st') /\ same_view st st' /\
    cache st' !! i = Some e' /\ c_used e' = true /\ block_num e' = b.
Proof.
  intros Hinv Hi Hbk Hno. pose proof Hinv as [Hb Hd _ _ _]. pose proof Hbk as [B1 B2].
  unfold cache_load. msimpl. rewrite (cache_aread _ _ _ Hi), lift_bind.
  (* the victim is written back *)
  assert (Hwb : exists st1, (if c_used e && has_write e
      then raw_pwrite (ztake (block_byte_size st) (c_block e))
             (u32 (block_num e * block_byte_size st)) else ret tt) st = Ok (tt, st1) /\
    same_view st st1 /\ cache st1 = cache st /\
    (c_used e = true -> on_disk st1 (block_num e) = c_block e) /\ on_disk st1 b = on_disk st b).
  { destruct (c_used e) eqn:Hu, (has_write e) eqn:Hw; cbn [andb].
    - destruct (write_back _ _ _ Hinv Hi Hu Hw) as (st1 & Hr & Hv & Hc & Ho & Hoth).
      exists st1. split_and!; try done. apply Hoth; [done|]. intros ->. by apply (Hno i e).
    - exists st. split_and!; try done; [by apply same_view_refl|]. intros _.
      symmetry. by apply (entry_at _ _ _ Hinv Hi).
    - exists st. split_and!; try done. by apply same_view_refl.
    - exists st. split_and!; try done. by apply same_view_refl. }
  destruct Hwb as (st1 & Hr & Hv & Hc & Hold & Hb1). mrun Hr. msimpl.
  pose proof (sv_inv _ _ Hv) as Hinv1.
  pose proof (same_globals_bbs _ _ (sv_globals _ _ Hv)) as Hbbs.
  assert (Hbk1 : block_ok st1 b) by (by rewrite (block_ok_same st st1) by apply Hv).
  unfold raw_pread at 1. rewrite (u32_small (b * block_byte_size st)) by nia.
  assert (Hrd : (d ← gets disk; lift (bytes_at d (b * block_byte_size st) (block_byte_size st))) st1
    = Ok (on_disk st1 b, st1)).
  { msimpl. unfold bytes_at. rewrite (sv_disk _ _ Hv).
    destruct (Z.leb_spec 0 (b * block_byte_size st)); [|nia].
    destruct (Z.leb_spec (b * block_byte_size st + block_byte_size st) (zlen (disk st))); [|nia].
    cbn [andb]. unfold lift. cbn [mbind outcome_bind]. unfold on_disk. by rewrite Hbbs. }
  mrun Hrd.
  set (e' := mkCache true (u32 (uptime st1)) b (on_disk st1 b) false).
  rewrite cache_put_ok by (rewrite Hc; by eapply lookup_lt_Some).
  assert (Hok : entry_ok st1 e').
  { split; cbn [c_used c_block block_num has_write e']; try done. by apply on_disk_len. }
  rewrite <- Hc in Hi.
  destruct (replace_entry st1 i e e' Hinv1 Hi Hok eq_refl) as (Hinv2 & Hnew & Hsame & Hev).
  { right. rewrite Hc. exact Hno. }
  eexists _, e'. split; [done|]. split_and!; try done.
  2: { cbn [cache set_cache]. rewrite list_lookup_insert_eq; [done|]. by eapply lookup_lt_Some. }
  apply (same_view_trans _ st1); [done|]. split; try done.
  - cbn [cache set_cache]. apply length_insert.
  - intros b' Hb'. destruct (decide (b' = b)) as [->|Hne].
    + transitivity (on_disk st1 b); [exact Hnew|].
      symmetry. apply bview_uncached. rewrite Hc. exact Hno.
    + destruct (c_used e) eqn:Hu; [|by apply Hsame].
      destruct (decide (b' = block_num e)) as [->|Hne'].
      * rewrite Hev by done. rewrite (Hold eq_refl). symmetry. by eapply bview_cached.
      * by apply Hsame.
Qed.

Lemma scan_target st b :
  cache_inv st ->
  match cache_scan (cache st) b 0 (-1) with
  | inl r => exists k e, r = Z.of_nat k /\ cache st !! k = Some e /\ c_used e = true /\ block_num e = b
  | inr r => (forall k e, cache st !! k = Some e -> c_used e = true -> block_num e <> b) /\
      exists k e, (if r =? -1 then lru_scan (cache st) 0 (2 ^ 32 - 1) 0 else r) = Z.of_nat k /\
        cache st !! k = Some e
  end.
Proof.
  intros Hinv. pose proof (cache_scan_spec (cache st) b 0 (-1)) as Hs.
  destruct (cache_scan (cache st) b 0 (-1)) as [r|r]; [exact Hs|].
  destruct Hs as [Hno Hr]. split; [done|].
  destruct Hr as [->|(k & e & -> & Hk & _)].
  - rewrite Z.eqb_refl. pose proof (ci_some _ Hinv) as Hne.
    assert (Hlen : (0 < length (cache st))%nat) by (destruct (cache st); [done|cbn; lia]).
    pose proof (lru_scan_range (cache st) 0 (2 ^ 32 - 1) 0) as Hl.
    set (m := lru_scan _ _ _ _) in *.
    destruct (lookup_lt_is_Some_2 (cache st) (Z.to_nat m)) as [e He]; [lia|].
    exists (Z.to_nat m), e. split; [lia|done].
  - destruct (Z.eqb_spec (0 + Z.of_nat k) (-1)); [lia|]. by exists k, e.
Qed.

(** The hit path: the time stamp changes, nothing else. *)
Lemma cached_read_hit fuel st b size offset k e :
  cache_inv st -> 0 <= size -> 0 <= offset -> offset + size <= block_byte_size st ->
  cache_scan (cache st) b 0 (-1) = inl (Z.of_nat k) ->
  cache st !! k = Some e -> c_used e = true -> block_num e = b ->
  exists st', cached_read_fuel (S fuel) b size offset st =
      Ok (slice offset size (bview st b), st') /\ same_view st st'.
Proof.
  intros Hinv Hs Ho Hl Hscan Hk Hu Hb. pose proof (ci_bbs _ Hinv). cbn [cached_read_fuel]. msimpl.
  rewrite u32_small by lia. destruct (Z.leb_spec (offset + size) (block_byte_size st)); [|lia].
  unfold m_assert. cbn [c_assert]. rewrite lift_bind. msimpl. rewrite Hscan. msimpl.
  rewrite (cache_aread _ _ _ Hk), lift_bind.
  set (e' := mkCache _ _ _ _ _).
  assert (Hlt : (k < length (cache st))%nat) by (by eapply lookup_lt_Some).
  rewrite (ok_bind _ _ _ _ _ (cache_put_ok k e' st Hlt)).
  pose proof (entry_at _ _ _ Hinv Hk) as Hok.
  assert (Hbv : bview st b = c_block e) by (rewrite <- Hb; by eapply bview_cached).
  unfold bytes_at. rewrite (eo_size _ _ Hok).
  destruct (Z.leb_spec 0 offset); [|lia].
  destruct (Z.leb_spec (offset + size) (block_byte_size st)); [|lia]. cbn [andb].
  eexists. rewrite Hbv. split; [reflexivity|].
  assert (Hok' : entry_ok st e') by (destruct Hok; by split).
  destruct (replace_entry st k e e' Hinv Hk Hok') as (Hinv2 & Hnew & Hsame & _); [done|by left|].
  split; try done.
  - cbn [cache set_cache]. apply length_insert.
  - intros b' _. destruct (decide (b' = b)) as [->|Hne].
    + rewrite Hbv. rewrite <- Hb. exact Hnew.
    + apply Hsame; cbn [block_num e']; congruence.
Qed.

Lemma ext2_read_block_spec st b size offset :
  cache_inv st -> block_ok st b -> 0 <= size -> 0 <= offset ->
  offset + size <= block_byte_size st ->
  exists st', ext2_read_block b size offset st = Ok (slice offset size (bview st b), st') /\
    same_view st st'.
Proof.
  intros Hinv Hbk Hs Ho Hl. pose proof (ci_bbs _ Hinv).
  pose proof (scan_target st b Hinv) as Hscan. unfold ext2_read_block, cached_read_block.
  destruct (cache_scan (cache st) b 0 (-1)) as [r|r] eqn:E.
  { destruct Hscan as (k & e & -> & Hk & Hu & Hb). by eapply cached_read_hit. }
  destruct Hscan as (Hno & k & e & Htgt & Hk).
  change 2%nat with (S 1). remember 1%nat as f eqn:Hf. cbn [cached_read_fuel]. msimpl.
  rewrite u32_small by lia. destruct (Z.leb_spec (offset + size) (block_byte_size st)); [|lia].
  unfold m_assert. cbn [c_assert]. rewrite lift_bind. msimpl. rewrite E. cbn zeta. rewrite Htgt.
  destruct (cache_load_spec st k e b Hinv Hk Hbk Hno) as (st1 & e1 & Hr & Hv & Hk1 & Hu1 & Hb1).
  mrun Hr. pose proof (sv_inv _ _ Hv) as Hinv1.
  pose proof (same_globals_bbs _ _ (sv_globals _ _ Hv)) as Hbbs.
  pose proof (scan_target st1 b Hinv1) as Hscan1.
  destruct (cache_scan (cache st1) b 0 (-1)) as [r1|r1] eqn:E1.
  2: { destruct Hscan1 as [Hno1 _]. by destruct (Hno1 k e1). }
  destruct Hscan1 as (k2 & e2 & -> & Hk2 & Hu2 & Hb2).
  destruct (cached_read_hit 0 st1 b size offset k2 e2) as (st2 & Hr2 & Hv2); try done; try lia.
  exists st2. rewrite <- (sv_view _ _ Hv) by done. rewrite Hf. split; [exact Hr2|].
  by eapply same_view_trans.
Qed.

Lemma ext2_write_block_spec st b data size offset :
  cache_inv st -> block_ok st b -> 0 <= size <= zlen data -> 0 <= offset ->
  offset + size <= block_byte_size st ->
  exists st', ext2_write_block b data size offset st = Ok (tt, st') /\
    same_globals st st' /\ cache_inv st' /\ zlen (disk st') = zlen (disk st) /\
    bview st' b = splice (bview st b) offset (ztake size data) /\
    (forall b', block_ok st b' -> b' <> b -> bview st' b' = bview st b').
Proof.
  intros Hinv Hbk Hs Ho Hl. pose proof (ci_bbs _ Hinv). pose proof (ci_disk _ Hinv).
  unfold ext2_write_block. msimpl.
  rewrite (u32_small (offset + size)) by lia.
  destruct (Z.leb_spec (offset + size) (block_byte_size st)); [|lia].
  unfold m_assert. cbn [c_assert]. rewrite lift_bind. msimpl.
  pose proof (zlen_ztake size data Hs) as Hzt.
  destruct (cache_index_spec (cache st) b 0 ltac:(lia)) as [(k & e & -> & Hk & Hu & Hb)|[-> Hno]].
  - rewrite Z.add_0_l. destruct (Z.eqb_spec (Z.of_nat k) (-1)); [lia|]. cbn [negb].
    rewrite (cache_aread _ _ _ Hk), lift_bind.
    pose proof (entry_at _ _ _ Hinv Hk) as Hok. pose proof (eo_size _ _ Hok) as Hez.
    rewrite memcpy_at_ok by lia. rewrite lift_bind. rewrite slice_from_0.
    assert (Hlt : (k < length (cache st))%nat) by (by eapply lookup_lt_Some).
    rewrite cache_put_ok by done. eexists. split; [reflexivity|].
    set (e' := mkCache _ _ _ _ _).
    assert (Hok' : entry_ok st e').
    { destruct Hok as [O1 O2 O3]. split; cbn [c_used c_block block_num has_write e']; try done.
      rewrite zlen_splice; lia. }
    destruct (replace_entry st k e e' Hinv Hk Hok') as (Hinv2 & Hnew & Hsame & _); [done|by left|].
    assert (Hbv : bview st b = c_block e) by (rewrite <- Hb; by eapply bview_cached).
    split_and!; try done.
    + rewrite Hbv. rewrite <- Hb. exact Hnew.
    + intros b' _ Hne. apply Hsame; cbn [block_num e']; congruence.
  - rewrite Z.eqb_refl. cbn [negb]. unfold bytes_at. cbn [Z.leb Z.compare andb].
    rewrite Z.add_0_l. destruct (Z.leb_spec size (zlen data)); [|lia]. rewrite lift_bind.
    rewrite slice_from_0. pose proof Hbk as [B1 B2].
    rewrite (u32_small (b * block_byte_size st)), u32_small by nia.
    destruct (disk_write st b offset (ztake size data)) as (st' & Hr & Hst' & Hi' & Hon & Hoth & Hz);
      [done|done|lia|lia|by intros i e Hi Hu Hb; destruct (Hno i e)|].
    exists st'. split; [exact Hr|].
    assert (Hc : cache st' = cache st) by (by rewrite Hst').
    split_and!; try done.
    + unfold same_globals. rewrite Hst'. by destruct st.
    + rewrite !bview_uncached; [exact Hon|done|by rewrite Hc].
    + intros b' Hb' Hne. destruct (cached_dec st b') as [(j & d & Hj & Hdu & <-)|Hn'].
      * rewrite (bview_cached st j d) by done. apply (bview_cached st' j d); [done|congruence|done].
      * rewrite !bview_uncached; [by apply Hoth|done|by rewrite Hc].
Qed.

(** ** Flushing *)

Definition clean (e : block_cache) : Prop := c_used e = true -> has_write e = false.

Lemma flush_entry_spec st k e :
  cache_inv st -> cache st !! k = Some e ->
  exists st', flush_entry (Z.of_nat k) st = Ok (tt, st') /\ same_view st st' /\
    (forall e', cache st' !! k = Some e' -> clean e') /\
    (forall j, j <> k -> cache st' !! j = cache st !! j).
Proof.
  intros Hinv Hk. unfold flush_entry. msimpl. rewrite (cache_aread _ _ _ Hk), lift_bind.
  assert (Hnop : clean e -> exists st', ret tt st = Ok (tt, st') /\ same_view st st' /\
    (forall e', cache st' !! k = Some e' -> clean e') /\
    (forall j, j <> k -> cache st' !! j = cache st !! j)).
  { intros Hc. exists st. split_and!; try done; [by apply same_view_refl|].
    intros e' He'. rewrite Hk in He'. by injection He' as <-. }
  destruct (c_used e) eqn:Hu; cbn [negb]; [|apply Hnop; unfold clean; congruence].
  destruct (has_write e) eqn:Hw; cbn [negb]; [|apply Hnop; by intros _].
  destruct (write_back _ _ _ Hinv Hk Hu Hw) as (st1 & Hr & Hv & Hc & Ho & _). mrun Hr.
  pose proof (sv_inv _ _ Hv) as Hinv1. rewrite <- Hc in Hk.
  assert (Hlt : (k < length (cache st1))%nat) by (by eapply lookup_lt_Some).
  rewrite cache_put_ok by done. set (e' := mkCache _ _ _ _ _).
  pose proof (entry_at _ _ _ Hinv1 Hk) as [O1 O2 O3].
  assert (Hok' : entry_ok st1 e') by (split; [exact O1|intros _; exact (O2 Hu)|intros _ _; symmetry; exact Ho]).
  destruct (replace_entry st1 k e e' Hinv1 Hk Hok') as (Hinv2 & Hnew & Hsame & _); [done|by left|].
  eexists. split; [reflexivity|]. split_and!.
  - apply (same_view_trans _ st1); [done|]. split; try done.
    + cbn [cache set_cache]. apply length_insert.
    + intros b _. destruct (decide (b = block_num e)) as [->|Hne].
      * transitivity (c_block e); [exact Hnew|]. symmetry. by eapply bview_cached.
      * by apply Hsame.
  - intros d. cbn [cache set_cache]. rewrite list_lookup_insert_eq by done.
    intros [= <-]. by intros _.
  - intros j Hj. cbn [cache set_cache]. rewrite list_lookup_insert_ne by done. by rewrite Hc.
Qed.

Lemma flush_loop_spec n i st :
  cache_inv st -> (i + n = length (cache st))%nat ->
  (forall j e, (j < i)%nat -> cache st !! j = Some e -> clean e) ->
  exists st', for_loop (R := unit) n (Z.of_nat i) (fun i => flush_entry i ;; ret None) st =
      Ok (None, st') /\
    same_view st st' /\ (forall j e, cache st' !! j = Some e -> clean e).
Proof.
  revert i st. induction n as [|n IH]; intros i st Hinv Hn Hcl; cbn [for_loop].
  { exists st. split_and!; [done|by apply same_view_refl|]. intros j e Hj.
    apply (Hcl j); [|done]. apply lookup_lt_Some in Hj. lia. }
  destruct (lookup_lt_is_Some_2 (cache st) i) as [e He]; [lia|].
  destruct (flush_entry_spec st i e Hinv He) as (st1 & Hr & Hv & Hnew & Hoth).
  assert (Hb : (flush_entry (Z.of_nat i) ;; ret None) st = Ok (@None unit, st1)).
  { mrun Hr. done. }
  mrun Hb. replace (Z.of_nat i + 1) with (Z.of_nat (S i)) by lia.
  destruct (IH (S i) st1) as (st2 & Hr2 & Hv2 & Hcl2).
  - apply Hv.
  - rewrite (sv_len _ _ Hv). lia.
  - intros j d Hj Hd. destruct (decide (j = i)) as [->|Hne]; [by apply Hnew|].
    rewrite Hoth in Hd by done. apply (Hcl j); [lia|done].
  - exists st2. split_and!; [done|by eapply same_view_trans|done].
Qed.

Lemma ext2_flush_writes_spec st :
  cache_inv st -> superblock_changed st = false ->
  exists st', ext2_flush_writes st = Ok (tt, st') /\ same_view st st' /\
    (forall b, block_ok st b -> on_disk st' b = bview st b).
Proof.
  intros Hinv Hsb. unfold ext2_flush_writes. msimpl.
  destruct (flush_loop_spec (length (cache st)) 0 st Hinv) as (st' & Hr & Hv & Hcl); [lia|lia|].
  change (Z.of_nat 0) with 0 in Hr. mrun Hr. msimpl.
  assert (superblock_changed st' = false) as ->.
  { pose proof (sv_globals _ _ Hv) as Hg. unfold same_globals in Hg. by rewrite Hg. }
  exists st'. split_and!; try done.
  intros b Hb. rewrite <- (sv_view _ _ Hv) by done. pose proof (sv_inv _ _ Hv) as Hinv'.
  destruct (cached_dec st' b) as [(j & e & Hj & Hu & <-)|Hno].
  - rewrite (bview_cached st' j e) by done. symmetry.
    apply (entry_at _ _ _ Hinv' Hj); [done|]. by apply (Hcl j e).
  - symmetry. by apply bview_uncached.
Qed.

(** ** A store of blocks *)

(** What the rest of the file system does with blocks. *)
Inductive block_op : Type :=
| ReadBlock (b size offset : Z)
| WriteBlock (b : Z) (data : list Z) (offset : Z)
| FlushWrites.

Definition run_op (o : block_op) : E (option (list Z)) :=
  match o with
  | ReadBlock b size offset => d ← ext2_read_block b size offset; ret (Some d)
  | WriteBlock b data offset => ext2_write_block b data (zlen data) offset ;; ret None
  | FlushWrites => ext2_flush_writes ;; ret None
  end.

Fixpoint run_ops (os : list block_op) : E (list (option (list Z))) :=
  match os with
  | [] => ret []
  | o :: os => r ← run_op o; rs ← run_ops os; ret (r :: rs)
  end.

(** The same operations on an array of blocks without cache or device. *)
Definition store : Type := Z -> list Z.

Definition spec_op (o : block_op) (s : store) : option (list Z) * store :=
  match o with
  | ReadBlock b size offset => (Some (slice offset size (s b)), s)
  | WriteBlock b data offset =>
      (None, fun b' => if decide (b' = b) then splice (s b) offset data else s b')
  | FlushWrites => (None, s)
  end.

Fixpoint spec_ops (os : list block_op) (s : store) : list (option (list Z)) * store :=
  match os with
  | [] => ([], s)
  | o :: os => let '(r, s) := spec_op o s in let '(rs, s) := spec_ops os s in (r :: rs, s)
  end.

Definition op_ok (st : ext2) (o : block_op) : Prop :=
  match o with
  | ReadBlock b size offset =>
      block_ok st b /\ 0 <= size /\ 0 <= offset /\ offset + size <= block_byte_size st
  | WriteBlock b data offset =>
      block_ok st b /\ 0 <= offset /\ offset + zlen data <= block_byte_size st
  | FlushWrites => True
  end.

(** The file system state represents the store. *)
Record represents (st : ext2) (s : store) : Prop := {
  rp_inv : cache_inv st;
  rp_sb : superblock_changed st = false;
  rp_view : forall b, block_ok st b -> bview st b = s b
}.

Lemma same_globals_sb st st' :
  same_globals st st' -> superblock_changed st' = superblock_changed st.
Proof. unfold same_globals. by intros ->. Qed.

Lemma run_op_spec o st s :
  represents st s -> op_ok st o ->
  exists st', run_op o st = Ok (fst (spec_op o s), st') /\ represents st' (snd (spec_op o s)) /\
    same_globals st st' /\ zlen (disk st') = zlen (disk st).
Proof.
  intros [Hinv Hsb Hview] Hok. destruct o as [b size off|b data off|]; cbn [run_op spec_op fst snd].
  - destruct Hok as (Hb & Hs & Ho & Hl).
    destruct (ext2_read_block_spec st b size off) as (st' & Hr & Hv); try done. mrun Hr.
    exists st'. rewrite Hview by done. split_and!; try done; try apply Hv.
    split; [apply Hv|by rewrite (same_globals_sb _ _ (sv_globals _ _ Hv))|].
    intros b' Hb'. rewrite (block_ok_same st st') in Hb' by apply Hv.
    rewrite (sv_view _ _ Hv) by done. by apply Hview.
  - destruct Hok as (Hb & Ho & Hl). pose proof (zlen_nonneg data).
    destruct (ext2_write_block_spec st b data (zlen data) off)
      as (st' & Hr & Hg & Hi & Hz & Hnew & Hoth); try done; try lia. mrun Hr.
    exists st'. split_and!; try done. split; [done|by rewrite (same_globals_sb _ _ Hg)|].
    intros b' Hb'. rewrite (block_ok_same st st') in Hb' by done.
    rewrite ztake_all in Hnew by done.
    destruct (decide (b' = b)) as [->|Hne]; [by rewrite Hnew, Hview|].
    rewrite Hoth by done. by apply Hview.
  - destruct (ext2_flush_writes_spec st Hinv Hsb) as (st' & Hr & Hv & _). mrun Hr.
    exists st'. split_and!; try done; try apply Hv.
    split; [apply Hv|by rewrite (same_globals_sb _ _ (sv_globals _ _ Hv))|].
    intros b' Hb'. rewrite (block_ok_same st st') in Hb' by apply Hv.
    rewrite (sv_view _ _ Hv) by done. by apply Hview.
Qed.

Lemma op_ok_same st st' o :
  same_globals st st' -> zlen (disk st') = zlen (disk st) -> op_ok st o -> op_ok st' o.
Proof.
  intros Hg Hz. pose proof (same_globals_bbs _ _ Hg) as Hb.
  destruct o; cbn [op_ok]; rewrite ?(block_ok_same st st'), ?Hb by done; done.
Qed.

(** C5: the cache is invisible: any sequence of block reads, partial block
    writes and flushes gives the results it has on a plain array of blocks, the
    recursion of a read that misses ends, and after a flush the device itself
    holds every block. *)
Theorem block_cache_transparent os st s :
  represents st s -> Forall (op_ok st) os ->
  exists st' st'', run_ops os st = Ok (fst (spec_ops os s), st') /\
    represents st' (snd (spec_ops os s)) /\
    ext2_flush_writes st' = Ok (tt, st'') /\
    (forall b, block_ok st b -> on_disk st'' b = snd (spec_ops os s) b).
Proof.
  intros Hr Hok.
  assert (Hrun : exists st', run_ops os st = Ok (fst (spec_ops os s), st') /\
    represents st' (snd (spec_ops os s)) /\ same_globals st st' /\
    zlen (disk st') = zlen (disk st)).
  { revert st s Hr Hok. induction os as [|o os IH]; intros st s Hr Hok; cbn [run_ops spec_ops].
    { exists st. split_and!; try done. by destruct st. }
    apply Forall_cons in Hok as [Ho Hos].
    destruct (run_op_spec o st s Hr Ho) as (st1 & E1 & Hr1 & Hg1 & Hz1).
    destruct (spec_op o s) as [r s1]. cbn [fst snd] in *. mrun E1.
    destruct (IH st1 s1 Hr1) as (st2 & E2 & Hr2 & Hg2 & Hz2).
    { eapply Forall_impl; [exact Hos|]. intros o'. by apply op_ok_same. }
    destruct (spec_ops os s1) as [rs s2]. cbn [fst snd] in *. mrun E2.
    exists st2. split_and!; try done; [|congruence].
    unfold same_globals in *. rewrite Hg2, Hg1. done. }
  destruct Hrun as (st' & E & Hrep & Hg & Hz).
  destruct (ext2_flush_writes_spec st') as (st'' & E2 & _ & Hd); [apply Hrep..|].
  exists st', st''. split_and!; try done. intros b Hb.
  assert (Hb' : block_ok st' b) by (by rewrite (block_ok_same st st')).
  rewrite Hd by done. by apply Hrep.
Qed.

(** The superblock is read from byte 1024 of the device at mount time, but
    written back to byte 0: what a mount after the flush reads is what was
    there before, and the boot block is gone. *)
Theorem superblock_written_elsewhere st :
  cache_inv st -> (forall i e, cache st !! i = Some e -> clean e) ->
  superblock_changed st = true -> zlen (sb_bytes st) = 1024 -> 2048 <= zlen (disk st) ->
  exists st', ext2_flush_writes st = Ok (tt, st') /\
    slice 0 1024 (disk st') = sb_bytes st /\
    slice 1024 1024 (disk st') = slice 1024 1024 (disk st).
Proof.
  intros Hinv Hcl Hsb Hz Hd. unfold ext2_flush_writes. msimpl.
  assert (Hloop : forall n i, (i + n <= length (cache st))%nat ->
    for_loop (R := unit) n (Z.of_nat i) (fun i => flush_entry i ;; ret None) st = Ok (None, st)).
  { induction n as [|n IH]; intros i Hi; cbn [for_loop]; [done|].
    destruct (lookup_lt_is_Some_2 (cache st) i) as [e He]; [lia|].
    assert (Hf : (flush_entry (Z.of_nat i) ;; ret None) st = Ok (@None unit, st)).
    { unfold flush_entry. assert (Hx : (gets cache ≫= λ cs, gets block_byte_size ≫= λ bbs,
        lift (aread cs (Z.of_nat i)) ≫= λ c, if negb (c_used c) then ret tt else
        if negb (has_write c) then ret tt else
        raw_pwrite (ztake bbs (c_block c)) (u32 (block_num c * bbs)) ;;
        cache_put (Z.of_nat i) (mkCache (c_used c) (last_use c) (block_num c) (c_block c) false))
        st = Ok (tt, st)); [|by mrun Hx].
      msimpl. rewrite (cache_aread _ _ _ He), lift_bind.
      destruct (c_used e) eqn:Hu; cbn [negb]; [|done]. by rewrite (Hcl i e He Hu). }
    mrun Hf. replace (Z.of_nat i + 1) with (Z.of_nat (S i)) by lia. apply IH. lia. }
  mrun (Hloop (length (cache st)) 0%nat ltac:(lia)). msimpl. rewrite Hsb. msimpl.
  rewrite ztake_all by done.
  assert (Hw : raw_pwrite (sb_bytes st) 0 st = Ok (tt, set_disk (splice (disk st) 0 (sb_bytes st)) st)).
  { unfold raw_pwrite. msimpl. rewrite memcpy_at_ok by lia. by rewrite lift_bind, slice_all. }
  mrun Hw. eexists. split; [reflexivity|]. cbn [disk set_superblock set_disk]. split.
  - rewrite <- Hz at 1. apply slice_splice_same; lia.
  - apply slice_splice_disjoint; lia.
Qed.
End Cached.

(** ** An example: three blocks of four bytes behind a cache of two entries *)

Definition tiny_ext2 : ext2 :=
  mkExt2 [1; 2; 3; 4; 5; 6; 7; 8; 9; 10; 11; 12]
    [mkCache true 7 1 [5; 6; 0; 0] true; mkCache false 0 0 [0; 0; 0; 0] false]
    [] false 4 128 (-1) [] [] 9 0.

Definition tiny_store : store := fun b =>
  if b =? 0 then [1; 2; 3; 4] else if b =? 1 then [5; 6; 0; 0] else [9; 10; 11; 12].

Definition tiny_ops : list block_op :=
  [ReadBlock 0 2 1; WriteBlock 2 [42] 3; ReadBlock 2 4 0; ReadBlock 1 4 0; FlushWrites].

Lemma tiny_represents : represents tiny_ext2 tiny_store.
Proof.
  split; [|done|].
  - split; [cbn; lia|vm_compute; done|done| |].
    + repeat constructor; cbn; try done; try lia.
    + intros [|[|i]] [|[|j]] e e' Hi Hj He He'; cbn in Hi, Hj; simplify_eq; done.
  - intros b [H1 H2]. change (zlen (disk tiny_ext2)) with 12 in H2.
    change (block_byte_size tiny_ext2) with 4 in H2.
    assert (b = 0 \/ b = 1 \/ b = 2) as [->|[->| ->]] by lia; vm_compute; reflexivity.
Qed.

Lemma tiny_ops_ok : Forall (op_ok tiny_ext2) tiny_ops.
Proof.
  assert (Hb : forall b, 0 <= b <= 2 -> block_ok tiny_ext2 b).
  { intros b Hb. split; [lia|]. change (zlen (disk tiny_ext2)) with 12. cbn. lia. }
  change (block_byte_size tiny_ext2) with 4 in *. unfold tiny_ops.
  assert (E : block_byte_size tiny_ext2 = 4) by done.
  apply Forall_cons_2; [cbn [op_ok]; rewrite E; split_and!; [apply Hb|..]; lia|].
  apply Forall_cons_2; [cbn [op_ok]; rewrite E; change (zlen [42]) with 1; split_and!; [apply Hb|..]; lia|].
  apply Forall_cons_2; [cbn [op_ok]; rewrite E; split_and!; [apply Hb|..]; lia|].
  apply Forall_cons_2; [cbn [op_ok]; rewrite E; split_and!; [apply Hb|..]; lia|].
  apply Forall_cons_2; [exact I|apply Forall_nil_2].
Qed.

Lemma block_cache_transparent_witness :
  exists st' st'', run_ops tiny_ops tiny_ext2 = Ok (fst (spec_ops tiny_ops tiny_store), st') /\
    represents st' (snd (spec_ops tiny_ops tiny_store)) /\
    ext2_flush_writes st' = Ok (tt, st'') /\
    (forall b, block_ok tiny_ext2 b -> on_disk st'' b = snd (spec_ops tiny_ops tiny_store) b).
Proof. exact (block_cache_transparent _ _ _ tiny_represents tiny_ops_ok). Defined.
