(* ===== verification/Ext2.v ===== *)
(** kernel/fs/ext2.c, second part: the superblock, group descriptors, inodes,
    bitmaps, block mapping, files and directories, on top of the block cache.

    On-disk structures are kept as the bytes they are; a field is read and
    written at its offset in the packed C structure.  An element of a local
    array that was never written is a fault to read. *)

From stdpp Require Import base numbers list gmap.
From Stdlib Require Import ZArith Lia.
From S2P Require Import Prelude StateM Bytes Bitmap KString Sv Ext2Cache.

Open Scope Z_scope.

(** Unsigned division and remainder. *)
Definition udiv (a b : Z) : outcome Z := if b =? 0 then Fault else Ok (a / b).
Definition umod (a b : Z) : outcome Z := if b =? 0 then Fault else Ok (a mod b).

(** Stores to a field of a structure. *)
Definition put32 (l : list Z) (off v : Z) : outcome (list Z) := memcpy_at l off (le32_bytes v) 0 4.
Definition put16 (l : list Z) (off v : Z) : outcome (list Z) := memcpy_at l off (le16_bytes v) 0 2.

(** [BLOCKS_REQUIRED(_a, _b)] *)
Definition BLOCKS_REQUIRED (a b : Z) : outcome Z :=
  q ← udiv a b; r ← umod a b; Ok (q + c_int (negb (r =? 0))).

(** [ALIGN(value, alignment)] *)
Definition ALIGN (value alignment : Z) : Z :=
  if negb (value mod alignment =? 0) then value + (alignment - value mod alignment) else value.

(** ** The superblock *)

Definition sb_field (off : Z) : E Z := b ← gets sb_bytes; lift (le32_at b off).
Definition sb_store (off v : Z) : E unit :=
  b ← gets sb_bytes;
  b ← lift (put32 b off (u32 v));
  c ← gets superblock_changed;
  modify (set_superblock b c).
Definition sb_mark : E unit := b ← gets sb_bytes; modify (set_superblock b true).

Definition SB_num_inodes : Z := 0.
Definition SB_num_blocks : Z := 4.
Definition SB_num_blocks_unallocated : Z := 12.
Definition SB_num_inodes_unallocated : Z := 16.
Definition SB_block_size : Z := 24.
Definition SB_num_blocks_in_group : Z := 32.
Definition SB_num_inodes_in_group : Z := 40.

(** ** Group descriptors *)

Definition BG_block_usage_bitmap : Z := 0.
Definition BG_inode_usage_bitmap : Z := 4.
Definition BG_starting_inode_table : Z := 8.
Definition BG_num_unallocated_blocks : Z := 12.
Definition BG_num_unallocated_inodes : Z := 14.
Definition BG_num_directories : Z := 16.

Definition descriptor_block : E Z :=
  bbs ← gets block_byte_size; ret (if bbs =? 1024 then 2 else 1).

Definition write_group_descriptor (group_index : Z) (block_group : list Z) : E unit :=
  b ← descriptor_block;
  ext2_write_block b block_group 32 (u32 (group_index * 32)).

Definition get_group_descriptor (group_index : Z) : E (list Z) :=
  b ← descriptor_block;
  ext2_read_block b 32 (u32 (group_index * 32)).

Definition num_block_groups : E Z :=
  num_blocks ← sb_field SB_num_blocks;
  in_group ← sb_field SB_num_blocks_in_group;
  b ← lift (BLOCKS_REQUIRED num_blocks in_group);
  num_inodes ← sb_field SB_num_inodes;
  inodes_in_group ← sb_field SB_num_inodes_in_group;
  i ← lift (BLOCKS_REQUIRED num_inodes inodes_in_group);
  m_assert (i =? b) ;;
  ret i.

(** ** Inodes *)

Definition sizeof_inode : Z := 120.
Definition I_types_permissions : Z := 0.
Definition I_user_id : Z := 2.
Definition I_low_32size : Z := 4.
Definition I_deletion_time : Z := 20.
Definition I_group_id : Z := 24.
Definition I_num_hard_links : Z := 26.
Definition I_num_disk_sectors : Z := 28.
Definition I_block_pointers : Z := 40.
Definition I_single : Z := 88.
Definition I_double : Z := 92.
Definition I_upper_32size : Z := 108.

Definition ext2_block_containing_inode (inode_index : Z) : E (Z * Z) :=
  m_assert (negb (inode_index =? 0)) ;;
  per_group ← sb_field SB_num_inodes_in_group;
  g ← lift (udiv (u32 (inode_index - 1)) per_group);
  block_group ← get_group_descriptor g;
  size ← gets inode_size;
  r ← lift (umod (u32 (inode_index - 1)) per_group);
  let full_offset := u32 (r * size) in
  start ← lift (le32_at block_group BG_starting_inode_table);
  shift ← sb_field SB_block_size;
  bbs ← gets block_byte_size;
  ret (u32 (start + Z.shiftr full_offset (shift + 10)), Z.land full_offset (bbs - 1)).

Definition ext2_get_inode_header (inode_index : Z) : E (list Z) :=
  last ← gets last_inode_read;
  size ← gets inode_size;
  (* [memset(data + 120, 0, inode_size - 120)] *)
  (if size <? sizeof_inode then lift Fault else ret tt) ;;
  if last =? inode_index then
    cached ← gets last_inode;
    ret (ztake sizeof_inode cached ++ replicate (Z.to_nat (size - sizeof_inode)) 0)
  else
    '(block_index, block_offset) ← ext2_block_containing_inode (u32 inode_index);
    mem_block ← ext2_read_block block_index size block_offset;
    head ← lift (bytes_at mem_block 0 sizeof_inode);
    modify (set_last_inode inode_index head) ;;
    ret mem_block.

Definition ext2_write_inode (inode_index : Z) (data : list Z) : E unit :=
  last ← gets last_inode_read;
  cached ← gets last_inode;
  (if last =? inode_index then modify (set_last_inode (-1) cached) else ret tt) ;;
  '(block_index, block_offset) ← ext2_block_containing_inode (u32 inode_index);
  size ← gets inode_size;
  mem_block ← lift (bytes_at data 0 size);
  ext2_write_block block_index mem_block size block_offset.

(** The size of a file as both halves of the inode give it. *)
Definition inode_file_size (inode : list Z) : outcome Z :=
  hi ← le32_at inode I_upper_32size;
  lo ← le32_at inode I_low_32size;
  Ok (Z.lor (Z.shiftl hi 32) lo).

(** ** Block mapping *)

Definition get_singly_block_index (singly_block_ptr i : Z) : E Z :=
  bbs ← gets block_byte_size;
  block ← ext2_read_block singly_block_ptr bbs 0;
  lift (le32_at block (i * 4)).

Definition get_block (inode : list Z) (i : Z) : E Z :=
  if i <? 12 then lift (le32_at inode (I_block_pointers + i * 4)) else
  let i := i - 12 in
  bbs ← gets block_byte_size;
  let singly := bbs / 4 in
  if i <? singly then
    p ← lift (le32_at inode I_single); get_singly_block_index p i
  else if i <? u32 (singly * singly) then
    let i := i - singly in
    p ← lift (le32_at inode I_double);
    entry ← get_singly_block_index p (i / singly);
    get_singly_block_index entry (i mod singly)
  else lift Panic.

Definition get_from_all_blocks (inode : list Z) (i : Z) : E Z :=
  if i <? 12 then lift (le32_at inode (I_block_pointers + i * 4)) else
  let i := i - 12 in
  bbs ← gets block_byte_size;
  let singly := bbs / 4 in
  if i =? 0 then lift (le32_at inode I_single) else
  let i := i - 1 in
  if i <? singly then
    p ← lift (le32_at inode I_single); get_singly_block_index p i
  else if i <? u32 (singly * singly) then
    let i := i - singly in
    if i =? 0 then lift (le32_at inode I_double) else
    let i := i - 1 in
    p ← lift (le32_at inode I_double);
    entry ← get_singly_block_index p (i / singly);
    let off := i mod singly in
    if off =? 0 then ret entry else get_singly_block_index entry (off - 1)
  else lift Panic.

(** ** Bitmaps *)

(** The inner loop over the bits [offset], [k] of them, of one byte. *)
Fixpoint scan_bits (k : nat) (byte offset want : Z) : Z * list Z :=
  match k with
  | O => (byte, [])
  | S k =>
    if want <=? 0 then (byte, []) else
    if is_set byte (Z.shiftl 1 offset) then scan_bits k byte (offset + 1) want else
    let '(byte, found) := scan_bits k (Z.lor byte (Z.shiftl 1 offset)) (offset + 1) (want - 1) in
    (byte, offset :: found)
  end.

(** The loop over the bytes of a bitmap: the bits that were clear, now set. *)
Fixpoint scan_bytes (bitmap : list Z) (index want : Z) : list Z * list Z :=
  match bitmap with
  | [] => ([], [])
  | b :: rest =>
    if want <=? 0 then (b :: rest, []) else
    if b =? 0xFF then
      let '(rest, found) := scan_bytes rest (index + 1) want in (b :: rest, found)
    else
      let '(b, here) := scan_bits 8 b 0 want in
      let '(rest, found) := scan_bytes rest (index + 1) (want - zlen here) in
      (b :: rest, ((fun o => index * 8 + o) <$> here) ++ found)
  end.

(** The loop over the groups; [entries] are the blocks found so far. *)
Fixpoint free_blocks_loop (n : nat) (allocate : bool) (num_entries group : Z)
    (entries : list Z) : E (list Z) :=
  match n with
  | O => ret entries
  | S n =>
    groups ← num_block_groups;
    if negb ((group <? groups) && (zlen entries <? num_entries)) then ret entries else
    block_group ← get_group_descriptor group;
    left ← lift (le16_at block_group BG_num_unallocated_blocks);
    if left =? 0 then free_blocks_loop n allocate num_entries (group + 1) entries else
    in_group ← sb_field SB_num_blocks_in_group;
    bm ← lift (le32_at block_group BG_block_usage_bitmap);
    bitmap ← ext2_read_block bm (in_group / 8) 0;
    let '(bitmap, found) := scan_bytes bitmap 0 (num_entries - zlen entries) in
    (if allocate && negb (bool_decide (found = [])) then
       ext2_write_block bm bitmap (in_group / 8) 0 ;;
       block_group ← lift (put16 block_group BG_num_unallocated_blocks (u16 (left - 1)));
       write_group_descriptor group block_group ;;
       free ← sb_field SB_num_blocks_unallocated;
       sb_store SB_num_blocks_unallocated (free - 1) ;;
       sb_mark
     else ret tt) ;;
    free_blocks_loop n allocate num_entries (group + 1)
      (entries ++ ((fun b => u32 (b + group * in_group)) <$> found))
  end.

Definition get_free_blocks (allocate : bool) (num_entries : Z) : E (list Z) :=
  free ← sb_field SB_num_blocks_unallocated;
  if free <? num_entries then ret [] else
  in_group ← sb_field SB_num_blocks_in_group;
  m_assert (in_group mod 8 =? 0) ;;
  groups ← num_block_groups;
  free_blocks_loop (S (Z.to_nat groups)) allocate num_entries 0 [].

(** [-1] for none. *)
Definition get_free_block (allocate : bool) : E Z :=
  bs ← get_free_blocks allocate 1;
  match bs with [] => ret (-1) | b :: _ => ret b end.

(** One bit of a bitmap block and the counters that go with it. *)
Definition write_bitmap (num value per_group bm_field bg_field sb_free : Z) : E unit :=
  group_index ← lift (udiv num per_group);
  index ← lift (umod num per_group);
  block_group ← get_group_descriptor group_index;
  bm ← lift (le32_at block_group bm_field);
  bitmap ← ext2_read_block bm (per_group / 8) 0;
  byte ← lift (aread bitmap (index / 8));
  free ← sb_field sb_free;
  left ← lift (le16_at block_group bg_field);
  let bit := Z.shiftl 1 (index mod 8) in
  let d := if value =? 0 then 1 else -1 in
  bitmap ← lift (awrite bitmap (index / 8)
                   (if value =? 0 then u8 (Z.ldiff byte bit) else u8 (Z.lor byte bit)));
  sb_store sb_free (free + d) ;;
  block_group ← lift (put16 block_group bg_field (u16 (left + d)));
  sb_mark ;;
  ext2_write_block bm bitmap (per_group / 8) 0 ;;
  write_group_descriptor group_index block_group.

Definition write_to_inode_bitmap (inode_num value : Z) : E unit :=
  per_group ← sb_field SB_num_inodes_in_group;
  write_bitmap inode_num value per_group BG_inode_usage_bitmap BG_num_unallocated_inodes
    SB_num_inodes_unallocated.

Definition write_to_block_bitmap (block_num value : Z) : E unit :=
  per_group ← sb_field SB_num_blocks_in_group;
  write_bitmap block_num value per_group BG_block_usage_bitmap BG_num_unallocated_blocks
    SB_num_blocks_unallocated.

Fixpoint free_inode_loop (n : nat) (allocate : bool) (group : Z) : E Z :=
  match n with
  | O => ret (-1)
  | S n =>
    groups ← num_block_groups;
    if negb (group <? groups) then ret (-1) else
    block_group ← get_group_descriptor group;
    left ← lift (le16_at block_group BG_num_unallocated_inodes);
    if left =? 0 then free_inode_loop n allocate (group + 1) else
    in_group ← sb_field SB_num_inodes_in_group;
    bm ← lift (le32_at block_group BG_inode_usage_bitmap);
    bitmap ← ext2_read_block bm (in_group / 8) 0;
    match scan_bytes bitmap 0 1 with
    | (bitmap, i :: _) =>
      (if allocate then
         ext2_write_block bm bitmap (in_group / 8) 0 ;;
         block_group ← lift (put16 block_group BG_num_unallocated_inodes (u16 (left - 1)));
         write_group_descriptor group block_group ;;
         free ← sb_field SB_num_inodes_unallocated;
         sb_store SB_num_inodes_unallocated (free - 1) ;;
         sb_mark ;;
         sb ← gets sb_bytes;
         raw_pwrite (ztake 1024 sb) 0
       else ret tt) ;;
      ret (i32 (u32 (i + group * in_group + 1)))
    | (_, []) => free_inode_loop n allocate (group + 1)
    end
  end.

Definition get_free_inode (allocate : bool) : E Z :=
  free ← sb_field SB_num_inodes_unallocated;
  if free =? 0 then ret (-1) else
  in_group ← sb_field SB_num_inodes_in_group;
  m_assert (in_group mod 8 =? 0) ;;
  groups ← num_block_groups;
  free_inode_loop (S (Z.to_nat groups)) allocate 0.

(** ** Allocating blocks to a file *)

Definition INDIRECT_BLOCK_CAPACITY : E Z := bbs ← gets block_byte_size; ret (bbs / 4).

Definition write_to_indirect_block (indirect_block index new_block : Z) : E unit :=
  cap ← INDIRECT_BLOCK_CAPACITY;
  index ← lift (umod index cap);
  ext2_write_block indirect_block (le32_bytes new_block) 4 (index * 4).

(** The inode, and whether the block was entered. *)
Definition ext2_allocate_block (inode : list Z) (index block : Z) : E (list Z * bool) :=
  if index <? 12 then
    inode ← lift (put32 inode (I_block_pointers + index * 4) block); ret (inode, true)
  else
  let index := index - 12 in
  cap ← INDIRECT_BLOCK_CAPACITY;
  if index <? cap then
    n ← (if index =? 0 then n ← get_free_block true; ret (Some n) else ret None);
    match n with
    | Some (-1) => ret (inode, false)
    | _ =>
      inode ← (match n with
               | Some n => lift (put32 inode I_single n)
               | None => ret inode
               end);
      p ← lift (le32_at inode I_single);
      write_to_indirect_block p index block ;;
      ret (inode, true)
    end
  else
  let index := index - cap in
  if index <? u32 (cap * cap) then
    n ← (if index =? 0 then n ← get_free_block true; ret (Some n) else ret None);
    match n with
    | Some (-1) => ret (inode, false)
    | _ =>
      inode ← (match n with
               | Some n => lift (put32 inode I_double n)
               | None => ret inode
               end);
      p ← lift (le32_at inode I_double);
      if index mod cap =? 0 then
        n ← get_free_block true;
        if n =? -1 then ret (inode, false) else
        write_to_indirect_block p (index / cap) n ;;
        write_to_indirect_block n index block ;;
        ret (inode, true)
      else
        value ← get_singly_block_index p (index / cap);
        write_to_indirect_block value index block ;;
        ret (inode, true)
    end
  else ret (inode, false).

(** ** Where the blocks of a file are

    A view gives every block its contents; [bview st] is the view the cache and
    the device of a state define. *)

Definition view : Type := Z -> list Z.

(** The pointer blocks on the way to block [i] of a file. *)
Definition path (v : view) (bbs : Z) (inode : list Z) (i : Z) : list Z :=
  if i <? 12 then [] else
  if i - 12 <? bbs / 4 then [word inode I_single] else
  [word inode I_double; word (v (word inode I_double)) ((i - 12 - bbs / 4) / (bbs / 4) * 4)].

(** The block that holds block [i] of a file. *)
Definition block_of (v : view) (bbs : Z) (inode : list Z) (i : Z) : Z :=
  if i <? 12 then word inode (I_block_pointers + i * 4) else
  if i - 12 <? bbs / 4 then word (v (word inode I_single)) ((i - 12) * 4) else
  word (v (word (v (word inode I_double)) ((i - 12 - bbs / 4) / (bbs / 4) * 4)))
    ((i - 12 - bbs / 4) mod (bbs / 4) * 4).

(** The indices [get_block] maps. *)
Definition index_ok (bbs i : Z) : Prop :=
  0 <= i /\ (i < 12 + bbs / 4 \/ i < 12 + u32 (bbs / 4 * (bbs / 4))).

Lemma block_of_stable v v' bbs inode i :
  (forall b, b ∈ path v bbs inode i -> v' b = v b) ->
  block_of v' bbs inode i = block_of v bbs inode i /\
  path v' bbs inode i = path v bbs inode i.
Proof.
  unfold block_of, path. intros H.
  destruct (i <? 12); [done|]. destruct (i - 12 <? bbs / 4).
  - by rewrite (H (word inode I_single)) by set_solver.
  - by rewrite !(H (word inode I_double)), (H (word (v _) _)) by set_solver.
Qed.

Section Mapping.
Implicit Types st : ext2.

Lemma get_singly_spec st p i :
  cache_inv st -> block_ok st p -> 0 <= i < block_byte_size st / 4 ->
  exists st', get_singly_block_index p i st = Ok (word (bview st p) (i * 4), st') /\
    same_view st st'.
Proof.
  intros Hinv Hp Hi. pose proof (ci_bbs _ Hinv).
  destruct (ext2_read_block_spec st p (block_byte_size st) 0) as (st' & Hr & Hv); try done; try lia.
  exists st'. split; [|done]. unfold get_singly_block_index. msimpl. mrun Hr.
  rewrite <- (bview_len st p) by done. rewrite slice_all.
  rewrite le32_at_word; [done|lia|]. rewrite bview_len by done.
  pose proof (Z.mul_div_le (block_byte_size st) 4). lia.
Qed.

Lemma same_view_bbs st st' : same_view st st' -> block_byte_size st' = block_byte_size st.
Proof. intros Hv. apply same_globals_bbs, Hv. Qed.

Lemma same_view_ok st st' b : same_view st st' -> block_ok st' b <-> block_ok st b.
Proof. intros Hv. apply block_ok_same; apply Hv. Qed.

Lemma get_block_spec st inode i :
  cache_inv st -> sizeof_inode <= zlen inode -> index_ok (block_byte_size st) i ->
  Forall (block_ok st) (path (bview st) (block_byte_size st) inode i) ->
  exists st', get_block inode i st =
      Ok (block_of (bview st) (block_byte_size st) inode i, st') /\ same_view st st'.
Proof.
  intros Hinv Hz [Hi0 Hi] Hp. unfold get_block, block_of, path, sizeof_inode in *.
  destruct (Z.ltb_spec i 12).
  { exists st. rewrite le32_at_word by (unfold I_block_pointers; lia).
    split; [done|by apply same_view_refl]. }
  msimpl. destruct (Z.ltb_spec (i - 12) (block_byte_size st / 4)) as [Hs|Hs].
  { rewrite le32_at_word by (unfold I_single; lia). rewrite lift_bind.
    apply Forall_cons in Hp as [Hp _]. apply get_singly_spec; [done..|lia]. }
  destruct (Z.ltb_spec (i - 12) (u32 (block_byte_size st / 4 * (block_byte_size st / 4)))) as [Hlt|]; [|lia].
  rewrite le32_at_word by (unfold I_double; lia). rewrite lift_bind.
  apply Forall_cons in Hp as [Hd Hp]. apply Forall_cons in Hp as [He _].
  set (c := block_byte_size st / 4) in *. set (j := i - 12 - c) in *.
  assert (Hc : 0 < c).
  { pose proof (ci_bbs _ Hinv). assert (0 <= c) by (apply Z.div_pos; lia).
    destruct (Z.eq_dec c 0) as [Hc0|]; [|lia]. rewrite Hc0 in Hlt. change (u32 (0 * 0)) with 0 in Hlt. lia. }
  assert (Hq : 0 <= j / c < c).
  { split; [apply Z.div_pos; lia|]. apply Z.div_lt_upper_bound; [lia|].
    pose proof (Z.mod_le (c * c) (2 ^ 32)). unfold u32, wrap in Hlt. nia. }
  destruct (get_singly_spec st (word inode I_double) (j / c)) as (st1 & E1 & V1); [done..|].
  mrun E1. set (e := word (bview st _) _) in *.
  destruct (get_singly_spec st1 e (j mod c)) as (st2 & E2 & V2).
  - apply V1.
  - by rewrite (same_view_ok _ _ _ V1).
  - rewrite (same_view_bbs _ _ V1). by apply Z.mod_pos_bound.
  - exists st2. split; [|by eapply same_view_trans]. rewrite E2.
    by rewrite (sv_view _ _ V1).
Qed.
End Mapping.
