(* ===== verification/Ext2Inode.v ===== *)
(** kernel/fs/ext2.c: where inodes are, and reading and writing their headers
    through the one-entry inode cache [ext2_last_inode]. *)

From stdpp Require Import base numbers list gmap.
From Stdlib Require Import ZArith Lia.
From S2P Require Import Prelude StateM Bytes Ext2Cache Ext2.

Open Scope Z_scope.

(** The globals that reading and writing files leaves alone. *)
Record fs_frame (st st' : ext2) : Prop := {
  fr_sb : sb_bytes st' = sb_bytes st;
  fr_changed : superblock_changed st' = superblock_changed st;
  fr_bbs : block_byte_size st' = block_byte_size st;
  fr_isz : inode_size st' = inode_size st;
  fr_files : files st' = files st;
  fr_uptime : uptime st' = uptime st;
  fr_now : now_ms st' = now_ms st;
  fr_len : zlen (disk st') = zlen (disk st)
}.

Lemma fs_frame_refl st : fs_frame st st.
Proof. by split. Qed.

Lemma fs_frame_trans st1 st2 st3 : fs_frame st1 st2 -> fs_frame st2 st3 -> fs_frame st1 st3.
Proof. intros [] []. split; congruence. Qed.

Lemma fs_frame_block_ok st st' b : fs_frame st st' -> block_ok st' b <-> block_ok st b.
Proof. intros F. unfold block_ok. by rewrite (fr_bbs _ _ F), (fr_len _ _ F). Qed.

Lemma globals_frame st st' :
  same_globals st st' -> zlen (disk st') = zlen (disk st) -> fs_frame st st'.
Proof. intros Hg Hz. rewrite Hg. by split. Qed.

Lemma view_frame st st' : same_view st st' -> fs_frame st st'.
Proof. intros V. apply globals_frame; apply V. Qed.

Section Inodes.
Implicit Types st : ext2.

Definition desc_block st : Z := if block_byte_size st =? 1024 then 2 else 1.
Definition inodes_per_group st : Z := word (sb_bytes st) SB_num_inodes_in_group.
Definition inode_group st (n : Z) : Z := (n - 1) / inodes_per_group st.

(** The block of an inode and its offset in it. *)
Definition inode_pos st (n : Z) : Z * Z :=
  let full_offset := u32 ((n - 1) mod inodes_per_group st * inode_size st) in
  (u32 (word (bview st (desc_block st)) (inode_group st n * 32 + BG_starting_inode_table)
        + Z.shiftr full_offset (word (sb_bytes st) SB_block_size + 10)),
   Z.land full_offset (block_byte_size st - 1)).

(** The first 120 bytes of an inode, [inode_t]. *)
Definition inode_at st (n : Z) : list Z :=
  slice (snd (inode_pos st n)) sizeof_inode (bview st (fst (inode_pos st n))).

Record inode_ok st (n : Z) : Prop := {
  io_n : 0 < n < 2 ^ 31;
  io_max : n <= word (sb_bytes st) SB_num_inodes;
  io_per : 0 < inodes_per_group st;
  io_desc : block_ok st (desc_block st);
  io_group : (inode_group st n + 1) * 32 <= block_byte_size st;
  io_block : block_ok st (fst (inode_pos st n));
  io_off : snd (inode_pos st n) + inode_size st <= block_byte_size st
}.

(** The inode cache holds what the inode table holds. *)
Definition last_ok st : Prop :=
  last_inode_read st = -1 \/
  inode_ok st (last_inode_read st) /\ last_inode st = inode_at st (last_inode_read st).

Record fs_ok st : Prop := {
  fo_cache : cache_inv st;
  fo_bbs : 1024 <= block_byte_size st <= 65536;
  fo_sb : zlen (sb_bytes st) = 1024;
  fo_isz : sizeof_inode <= inode_size st;
  fo_last : last_ok st
}.

Lemma inode_off_nonneg st n : fs_ok st -> 0 <= snd (inode_pos st n).
Proof.
  intros Hf. cbn. apply Z.land_nonneg. left. apply u32_fits.
Qed.

Lemma inode_at_len st n : fs_ok st -> inode_ok st n -> zlen (inode_at st n) = sizeof_inode.
Proof.
  intros Hf Hi. pose proof (inode_off_nonneg st n Hf). pose proof (io_off _ _ Hi).
  pose proof (fo_isz _ Hf). unfold inode_at. unfold sizeof_inode in *.
  apply zlen_slice; [done|lia|]. rewrite bview_len by (apply Hf || apply Hi). lia.
Qed.

(** Inodes stay where they are while the descriptors do, and keep their bytes
    while their block does. *)
Lemma inode_pos_stable st st' n :
  fs_frame st st' -> bview st' (desc_block st) = bview st (desc_block st) ->
  inode_pos st' n = inode_pos st n.
Proof.
  intros F Hd. unfold inode_pos, inode_group, inodes_per_group, desc_block in *.
  by rewrite (fr_sb _ _ F), (fr_bbs _ _ F), (fr_isz _ _ F), Hd.
Qed.

Lemma inode_ok_stable st st' n :
  fs_frame st st' -> bview st' (desc_block st) = bview st (desc_block st) ->
  inode_ok st n -> inode_ok st' n.
Proof.
  intros F Hd []. pose proof (inode_pos_stable _ _ n F Hd) as Hp.
  split; rewrite ?Hp, ?(fs_frame_block_ok _ _ _ F), ?(fr_bbs _ _ F), ?(fr_isz _ _ F);
    unfold inode_group, inodes_per_group, desc_block in *;
    rewrite ?(fr_sb _ _ F), ?(fr_bbs _ _ F); done.
Qed.

Lemma inode_at_stable st st' n :
  fs_frame st st' -> bview st' (desc_block st) = bview st (desc_block st) ->
  bview st' (fst (inode_pos st n)) = bview st (fst (inode_pos st n)) ->
  inode_at st' n = inode_at st n.
Proof. intros F Hd Hb. unfold inode_at. by rewrite (inode_pos_stable st st'), Hb. Qed.

(** What changes when only blocks, and not their contents, move. *)
Record same_fs st st' : Prop := {
  sf_frame : fs_frame st st';
  sf_ok : fs_ok st';
  sf_view : forall b, block_ok st b -> bview st' b = bview st b
}.

Lemma same_fs_refl st : fs_ok st -> same_fs st st.
Proof. intros Hf. split; [apply fs_frame_refl|done|done]. Qed.

Lemma same_fs_trans st1 st2 st3 : same_fs st1 st2 -> same_fs st2 st3 -> same_fs st1 st3.
Proof.
  intros [F1 O1 V1] [F2 O2 V2]. split; [by eapply fs_frame_trans|done|].
  intros b Hb. rewrite V2 by (by rewrite (fs_frame_block_ok _ _ _ F1)). by apply V1.
Qed.

Lemma same_view_last st st' :
  same_view st st' -> last_inode_read st' = last_inode_read st /\ last_inode st' = last_inode st.
Proof. intros V. by rewrite (sv_globals _ _ V). Qed.

Lemma same_fs_inode st st' n :
  same_fs st st' -> inode_ok st n ->
  inode_ok st' n /\ inode_at st' n = inode_at st n /\ inode_pos st' n = inode_pos st n.
Proof.
  intros [F _ V] Hi. pose proof (V _ (io_desc _ _ Hi)) as Hd.
  split_and!; [by apply (inode_ok_stable st)|apply inode_at_stable; try done|by apply inode_pos_stable].
  apply V, Hi.
Qed.

Lemma view_same_fs st st' : fs_ok st -> same_view st st' -> same_fs st st'.
Proof.
  intros [C B S I L] V. pose proof (view_frame _ _ V) as F. split; [done| |apply V].
  split; rewrite ?(fr_bbs _ _ F), ?(fr_sb _ _ F), ?(fr_isz _ _ F); try done; [apply V|].
  destruct (same_view_last _ _ V) as [E1 E2]. unfold last_ok. rewrite E1, E2.
  destruct L as [L|[Hi L]]; [by left|]. right.
  pose proof (sv_view _ _ V _ (io_desc _ _ Hi)) as Hd.
  split; [by apply (inode_ok_stable st)|].
  rewrite L. symmetry. apply inode_at_stable; [done..|]. apply V, Hi.
Qed.

Lemma sb_field_spec st off :
  zlen (sb_bytes st) = 1024 -> 0 <= off -> off + 4 <= 1024 ->
  sb_field off st = Ok (word (sb_bytes st) off, st).
Proof.
  intros Hz H1 H2. unfold sb_field. msimpl. rewrite le32_at_word; [done|done|]. by rewrite Hz.
Qed.

Lemma group_descriptor_spec st g :
  cache_inv st -> block_ok st (desc_block st) -> 0 <= g -> (g + 1) * 32 <= block_byte_size st ->
  wp (get_group_descriptor g) (fun d st' => d = (slice (g * 32) 32 (bview st (desc_block st))) /\
    same_view st st') st.
Proof.
  intros Hf Hd Hg Hb. pose proof (ci_bbs _ Hf). unfold get_group_descriptor, descriptor_block.
  rewrite u32_small by lia.
  destruct (ext2_read_block_spec st (desc_block st) 32 (g * 32)) as (st' & Hr & Hv);
    [done|done|lia..|].
  eapply wp_ok; [|done]. exact Hr.
Qed.

Lemma block_containing_spec st n :
  fs_ok st -> inode_ok st n ->
  wp (ext2_block_containing_inode n) (fun r st' => r = inode_pos st n /\ same_view st st') st.
Proof.
  intros Hf Hi. pose proof Hi as [Hn _ Hper Hd Hg Hb Ho]. unfold ext2_block_containing_inode.
  unfold inode_group, inodes_per_group in *.
  apply wp_assert. { apply negb_true_iff, Z.eqb_neq. lia. }
  apply wp_bind. eapply wp_ok; [by apply sb_field_spec; [apply Hf|..]|]. cbn beta.
  set (per := word _ _) in *.
  assert (Hper0 : (per =? 0) = false) by (apply Z.eqb_neq; lia).
  rewrite u32_small by lia. unfold udiv, umod. rewrite Hper0. wp_simpl.
  wp_use (group_descriptor_spec st) as d st1 [-> V]; [apply Hf|done|apply Z.div_pos; lia|done|].
  assert (Hq : 0 <= (n - 1) / per) by (apply Z.div_pos; lia).
  wp_simpl. pose proof (view_same_fs _ _ Hf V) as Hs. pose proof (sf_frame _ _ Hs) as F.
  assert (Hz : zlen (slice ((n - 1) / per * 32) 32 (bview st (desc_block st))) = 32).
  { apply zlen_slice; [lia..|]. rewrite bview_len by (apply Hf || done). lia. }
  eapply wp_lift. { apply le32_at_word; [done|]. rewrite Hz. done. }
  apply wp_bind. eapply wp_ok; [by apply sb_field_spec; [apply (fo_sb _ (sf_ok _ _ Hs))|..]|]. cbn beta. wp_simpl.
  apply wp_ret. split; [|done].
  rewrite word_slice by (unfold BG_starting_inode_table; nia).
  unfold inode_pos, inode_group, inodes_per_group. fold per.
  by rewrite (fr_sb _ _ F), (fr_bbs _ _ F), (fr_isz _ _ F).
Qed.

(** Distinct inodes do not overlap, and the inode tables are not in the block of
    the group descriptors. *)
Record layout_ok st : Prop := {
  lo_tables : forall m n, inode_ok st m -> inode_ok st n -> m <> n ->
    fst (inode_pos st m) <> fst (inode_pos st n) \/
    snd (inode_pos st m) + inode_size st <= snd (inode_pos st n) \/
    snd (inode_pos st n) + inode_size st <= snd (inode_pos st m);
  lo_desc : forall n, inode_ok st n -> fst (inode_pos st n) <> desc_block st
}.

Lemma layout_ok_stable st st' :
  fs_frame st st' -> bview st' (desc_block st) = bview st (desc_block st) ->
  layout_ok st -> layout_ok st'.
Proof.
  intros F Hd [T D].
  assert (Hb : forall n, inode_ok st' n -> inode_ok st n).
  { intros n Hn. assert (Hds : desc_block st' = desc_block st)
      by (unfold desc_block; by rewrite (fr_bbs _ _ F)).
    apply (inode_ok_stable st' st); [|by rewrite Hds|done]. destruct F. by split. }
  split.
  - intros m n Hm Hn. rewrite !(inode_pos_stable st st'), (fr_isz _ _ F) by done.
    by apply T; apply Hb.
  - intros n Hn. rewrite (inode_pos_stable st st') by done.
    unfold desc_block. rewrite (fr_bbs _ _ F). by apply D, Hb.
Qed.

(** The inode cache is not part of what the block cache promises. *)
Lemma cache_inv_last st n b : cache_inv st -> cache_inv (set_last_inode n b st).
Proof.
  intros [B D S F U]. split; try done. eapply Forall_impl; [exact F|].
  intros e [E1 E2 E3]. by split.
Qed.

(** Reading an inode, from the inode cache or from the table. *)
Lemma get_inode_header_spec st n :
  fs_ok st -> inode_ok st n ->
  wp (ext2_get_inode_header n) (fun h st' => zlen h = inode_size st /\
    ztake sizeof_inode h = inode_at st n /\ same_fs st st' /\ last_inode_read st' = n) st.
Proof.
  intros Hf Hi. pose proof (fo_isz _ Hf) as Hz. unfold ext2_get_inode_header. wp_simpl.
  destruct (Z.ltb_spec (inode_size st) sizeof_inode); [lia|]. wp_simpl.
  destruct (Z.eqb_spec (last_inode_read st) n) as [Hl|Hl].
  - wp_simpl. apply wp_ret. pose proof (io_n _ _ Hi).
    destruct (fo_last _ Hf) as [E|[_ E]]; [lia|]. rewrite E, Hl.
    pose proof (inode_at_len _ _ Hf Hi) as Hlen.
    rewrite (ztake_all sizeof_inode (inode_at st n)) by done.
    split_and!; [|by apply ztake_app_exact|by apply same_fs_refl|done].
    rewrite zlen_app, Hlen. unfold sizeof_inode in *. zlia.
  - rewrite u32_small by (pose proof (io_n _ _ Hi); lia).
    wp_use (block_containing_spec st n) as pos st1 [-> V]; [done..|].
    pose proof (view_same_fs _ _ Hf V) as S1.
    destruct (same_fs_inode _ _ n S1 Hi) as (Hi1 & Ha1 & Hp1).
    pose proof (inode_off_nonneg st n Hf) as Ho.
    destruct (inode_pos st n) as [blk off] eqn:Hp. cbn [fst snd] in *.
    pose proof (io_block _ _ Hi1) as B1. pose proof (io_off _ _ Hi1) as B2.
    rewrite Hp1 in B1, B2. cbn [fst snd] in B1, B2.
    rewrite (fr_isz _ _ (sf_frame _ _ S1)), (fr_bbs _ _ (sf_frame _ _ S1)) in B2.
    pose proof (fo_bbs _ Hf).
    destruct (ext2_read_block_spec st1 blk (inode_size st) off) as (st2 & Hr & V2);
      [apply V|done|unfold sizeof_inode in *; lia|done|rewrite (fr_bbs _ _ (sf_frame _ _ S1)); lia|].
    apply wp_bind. eapply wp_ok; [exact Hr|]. cbn beta.
    pose proof (view_same_fs _ _ (sf_ok _ _ S1) V2) as S2.
    pose proof (same_fs_trans _ _ _ S1 S2) as S.
    assert (Hbl : bview st1 blk = bview st blk).
    { apply (sf_view _ _ S1). by rewrite <- (fs_frame_block_ok _ _ _ (sf_frame _ _ S1)). }
    assert (Hlen : zlen (slice off (inode_size st) (bview st1 blk)) = inode_size st).
    { apply zlen_slice; [done|unfold sizeof_inode in *; lia|].
      rewrite bview_len by (apply S1 || done). rewrite (fr_bbs _ _ (sf_frame _ _ S1)). lia. }
    assert (Hhead : ztake sizeof_inode (slice off (inode_size st) (bview st1 blk)) = inode_at st n).
    { unfold inode_at. rewrite Hp. cbn [fst snd]. rewrite Hbl. unfold slice, ztake.
      rewrite take_take. f_equal. unfold sizeof_inode in *. lia. }
    eapply wp_lift.
    { unfold bytes_at. rewrite Hlen. cbn [Z.leb Z.compare andb].
      destruct (Z.leb_spec (0 + sizeof_inode) (inode_size st)); [|lia].
      by rewrite slice_from_0, Hhead. }
    wp_simpl. apply wp_ret. split_and!; [done|done| |done].
    destruct S as [F [C B Sb I L] V']. split.
    + destruct F. by split.
    + split; try done; [by apply cache_inv_last|]. right. cbn [last_inode_read last_inode set_last_inode].
      assert (Hv : bview st2 (desc_block st) = bview st (desc_block st)) by apply V', Hi.
      split; [apply (inode_ok_stable st); [destruct F; by split|done|done]|].
      symmetry. apply (inode_at_stable st); [destruct F; by split|done|].
      rewrite Hp. cbn [fst]. apply V'. pose proof (io_block _ _ Hi) as Hx. by rewrite Hp in Hx.
    + intros b Hb. by apply V'.
Qed.

(** One block has new contents, nothing else changed. *)
Record put_block st st' (b : Z) (c : list Z) : Prop := {
  pb_frame : fs_frame st st';
  pb_inv : cache_inv st';
  pb_new : bview st' b = c;
  pb_old : forall b', block_ok st b' -> b' <> b -> bview st' b' = bview st b'
}.

Lemma write_block_put st b data size offset :
  cache_inv st -> block_ok st b -> 0 <= size <= zlen data -> 0 <= offset ->
  offset + size <= block_byte_size st ->
  wp (ext2_write_block b data size offset) (fun _ st' =>
    same_globals st st' /\ put_block st st' b (splice (bview st b) offset (ztake size data))) st.
Proof.
  intros. destruct (ext2_write_block_spec st b data size offset)
    as (st' & Hr & Hg & Hi & Hz & Hn & Ho); [done..|].
  eapply wp_ok; [exact Hr|]. split; [done|]. split; try done. by apply globals_frame.
Qed.

(** An inode other than the one written keeps its bytes. *)
Lemma put_inode_other st st' n m data :
  fs_ok st -> layout_ok st -> inode_ok st n -> inode_ok st m -> m <> n ->
  zlen data = inode_size st ->
  put_block st st' (fst (inode_pos st n))
    (splice (bview st (fst (inode_pos st n))) (snd (inode_pos st n)) data) ->
  inode_ok st' m /\ inode_at st' m = inode_at st m.
Proof.
  intros Hf Hl Hn Hm Hne Hz [F _ Hnew Hold].
  pose proof (Hold _ (io_desc _ _ Hn) (not_eq_sym (lo_desc _ Hl _ Hn))) as Hd.
  split; [by apply (inode_ok_stable st)|].
  destruct (decide (fst (inode_pos st m) = fst (inode_pos st n))) as [E|E].
  2: { apply inode_at_stable; [done..|]. apply Hold; [apply Hm|done]. }
  unfold inode_at. rewrite (inode_pos_stable st st') by done. rewrite E, Hnew.
  pose proof (inode_off_nonneg st n Hf). pose proof (inode_off_nonneg st m Hf).
  pose proof (io_off _ _ Hn). pose proof (io_off _ _ Hm). pose proof (fo_isz _ Hf).
  pose proof (bview_len st _ (fo_cache _ Hf) (io_block _ _ Hn)) as Hb.
  unfold sizeof_inode in *. apply slice_splice_disjoint; try lia.
  destruct (lo_tables _ Hl m n Hm Hn Hne) as [?|[?|?]]; [done|lia..].
Qed.

Lemma same_fs_layout st st' n :
  inode_ok st n -> same_fs st st' -> layout_ok st -> layout_ok st'.
Proof. intros Hn [F _ V]. apply layout_ok_stable; [done|]. apply V, Hn. Qed.

Lemma forget_last st :
  fs_ok st -> same_fs st (set_last_inode (-1) (last_inode st) st).
Proof.
  intros [C B S I L]. split; [by split| |done]. split; try done; [by apply cache_inv_last|by left].
Qed.

(** Writing an inode back. *)
Lemma write_inode_header_spec st n data :
  fs_ok st -> layout_ok st -> inode_ok st n -> zlen data = inode_size st ->
  wp (ext2_write_inode n data) (fun _ st' => fs_ok st' /\
    put_block st st' (fst (inode_pos st n))
      (splice (bview st (fst (inode_pos st n))) (snd (inode_pos st n)) data)) st.
Proof.
  intros Hf Hl Hn Hz. unfold ext2_write_inode. wp_simpl.
  assert (H0 : wp (if last_inode_read st =? n then modify (set_last_inode (-1) (last_inode st))
                   else ret tt) (fun _ st0 => same_fs st st0 /\ last_inode_read st0 <> n) st).
  { pose proof (io_n _ _ Hn). destruct (Z.eqb_spec (last_inode_read st) n).
    - eapply wp_ok; [done|]. split; [by apply forget_last|]. cbn. lia.
    - apply wp_ret. split; [by apply same_fs_refl|done]. }
  wp_use H0 as [] st0 [S0 Hlast].
  rewrite u32_small by (pose proof (io_n _ _ Hn); lia).
  destruct (same_fs_inode _ _ n S0 Hn) as (Hn0 & _ & Hp0).
  pose proof (same_fs_layout _ _ n Hn S0 Hl) as Hl0.
  wp_use (block_containing_spec st0 n) as pos st1 [-> V]; [apply S0|done|].
  pose proof (view_same_fs _ _ (sf_ok _ _ S0) V) as S1.
  destruct (same_fs_inode _ _ n S1 Hn0) as (Hn1 & _ & Hp1).
  pose proof (same_fs_layout _ _ n Hn0 S1 Hl0) as Hl1.
  assert (Hlast1 : last_inode_read st1 <> n) by (by rewrite (proj1 (same_view_last _ _ V))).
  pose proof (same_fs_trans _ _ _ S0 S1) as S. pose proof (sf_frame _ _ S) as F.
  rewrite Hp0 in Hp1. rewrite Hp0. clear S0 S1 V Hl0 Hn0 Hp0 Hlast st0.
  destruct (inode_pos st n) as [blk off] eqn:Hp. cbn [fst snd].
  wp_simpl. rewrite (fr_isz _ _ F).
  pose proof (inode_off_nonneg st1 n (sf_ok _ _ S)) as Ho. pose proof (io_off _ _ Hn1) as Ho2.
  pose proof (io_block _ _ Hn1) as Hb. pose proof (io_block _ _ Hn) as Hb'.
  rewrite Hp1 in Ho, Ho2, Hb. rewrite Hp in Hb'. cbn [fst snd] in Ho, Ho2, Hb, Hb'.
  eapply wp_lift.
  { unfold bytes_at. rewrite Hz. cbn [Z.leb Z.compare andb].
    destruct (Z.leb_spec (0 + inode_size st) (inode_size st)); [|lia].
    rewrite <- Hz at 1. by rewrite slice_all. }
  pose proof (fo_isz _ Hf) as Hmin. unfold sizeof_inode in Hmin.
  eapply wp_mono; [apply write_block_put; [apply S|done|lia|done|rewrite <- (fr_isz _ _ F); lia]|].
  intros _ st2 [G P]. rewrite ztake_all in P by done.
  assert (Hfs2 : fs_ok st2).
  { pose proof (sf_ok _ _ S) as [C1 B1 S1 I1 L1]. pose proof P as [F2 C2 _ _].
    split; rewrite ?(fr_bbs _ _ F2), ?(fr_sb _ _ F2), ?(fr_isz _ _ F2); try done.
    unfold last_ok. rewrite G. cbn [last_inode_read last_inode set_cache set_disk].
    destruct L1 as [L1|[Hm L1]]; [by left|right]. rewrite <- G, L1.
    destruct (put_inode_other st1 st2 n (last_inode_read st1) data) as [X1 X2];
      [apply S|done|done|done|done|by rewrite (fr_isz _ _ F)|by rewrite Hp1|done]. }
  split; [done|]. destruct P as [F2 C2 N2 O2].
  split; [by eapply fs_frame_trans|done| |].
  - rewrite N2. by rewrite (sf_view _ _ S).
  - intros b Hb2 Hne. rewrite O2; [by apply S|by rewrite (fs_frame_block_ok _ _ _ F)|done].
Qed.
End Inodes.
