(* ===== verification/Ext2File.v ===== *)
(** kernel/fs/ext2.c, third part: reading, writing, truncating and removing
    files, and the list of open inodes. *)

From stdpp Require Import base numbers list gmap.
From Stdlib Require Import ZArith Lia.
From S2P Require Import Prelude StateM Bytes Ext2Cache Ext2 Ext2Inode.

Open Scope Z_scope.

(** An array of [size] bytes on the stack; one larger than the address space
    moves the stack pointer the wrong way. *)
Definition stack_array (size : Z) : E unit := if size <? 2 ^ 32 then ret tt else lift Fault.

(** ** Reading *)

(** The length of the part of an access of [size] bytes that lies in one block. *)
Definition part_len (bbs size block_offset : Z) : Z :=
  if bbs <? u64 (size + block_offset) then bbs - block_offset else size.

Fixpoint inode_read_loop (fuel : nat) (inode : list Z) (i size block_offset : Z) : E (list Z) :=
  match fuel with
  | O => no_fuel
  | S fuel =>
    if size =? 0 then ret [] else
    bbs ← gets block_byte_size;
    let read_len := part_len bbs size block_offset in
    block ← get_block inode i;
    part ← (if block =? 0 then ret (replicate (Z.to_nat read_len) 0)
            else ext2_read_block block read_len block_offset);
    rest ← inode_read_loop fuel inode (i + 1) (u64 (size - read_len)) 0;
    ret (part ++ rest)
  end.

(** The bytes stored at [data], as many as the function returns, and
    [*file_size]. *)
Definition read_inode (inode_num size offset : Z) : E (list Z * Z) :=
  inode ← ext2_get_inode_header inode_num;
  fsize ← lift (inode_file_size inode);
  let size := if u64 (fsize - offset) <? size
              then u64 (size - u64 (u64 (size + offset) - fsize)) else size in
  if size =? 0 then ret ([], fsize) else
  if fsize <? offset then ret ([], fsize) else
  bbs ← gets block_byte_size;
  block_start ← lift (udiv offset bbs);
  block_offset ← lift (umod offset bbs);
  data ← inode_read_loop (Z.to_nat (size / bbs) + 3) inode (u32 block_start) size block_offset;
  ret (data, fsize).

Definition get_inode_data_size (inode_num : Z) : E Z :=
  '(_, fsize) ← read_inode inode_num 0 0; ret fsize.

(** ** Writing *)

(** [for (i = num_blocks_used; i < num_blocks_required; i++)]; the list is what
    is left of [blocks], a turn without an element reads an uninitialised one. *)
Fixpoint allocate_loop (n : nat) (inode : list Z) (i : Z) (blocks : list Z) : E (list Z) :=
  match n with
  | O => ret inode
  | S n =>
    match blocks with
    | [] => lift Fault
    | b :: blocks =>
      '(inode, ok) ← ext2_allocate_block inode i b;
      m_assert ok ;;
      allocate_loop n inode (i + 1) blocks
    end
  end.

(** The number of bytes written. *)
Fixpoint inode_write_loop (fuel : nat) (inode data : list Z) (i size block_offset bytes_written : Z)
  : E Z :=
  match fuel with
  | O => no_fuel
  | S fuel =>
    if size =? 0 then ret bytes_written else
    bbs ← gets block_byte_size;
    block ← get_block inode i;
    if block =? 0 then ret bytes_written else
    let write_len := part_len bbs size block_offset in
    ext2_write_block block (zdrop bytes_written data) write_len block_offset ;;
    inode_write_loop fuel inode data (i + 1) (u64 (size - write_len)) 0 (bytes_written + write_len)
  end.

Definition SECTOR_SIZE : Z := 512.

Definition num_blocks_used (inode : list Z) : E Z :=
  bbs ← gets block_byte_size;
  sectors ← lift (le32_at inode I_num_disk_sectors);
  lift (udiv sectors (bbs / SECTOR_SIZE)).

(** The blocks a file of [required] blocks lacks. *)
Definition grow_file (inode : list Z) (used required : Z) : E (list Z) :=
  let delta := u32 (required - used) in
  if delta =? 0 then ret inode else
  stack_array (4 * delta) ;;
  blocks ← get_free_blocks true delta;
  allocate_loop (Z.to_nat (required - used)) inode used blocks.

Definition write_inode (inode_num : Z) (data : list Z) (size offset : Z) (append : bool) : E Z :=
  inode ← ext2_get_inode_header inode_num;
  fsize ← lift (inode_file_size inode);
  let offset := if append then fsize else offset in
  bbs ← gets block_byte_size;
  block_start ← lift (udiv offset bbs);
  block_offset ← lift (umod offset bbs);
  used ← num_blocks_used inode;
  let fsize := if fsize <? u64 (size + offset) then u64 (size + offset) else fsize in
  required ← lift (BLOCKS_REQUIRED fsize bbs);
  let required := u32 required in
  inode ← grow_file inode used required;
  inode ← lift (put32 inode I_num_disk_sectors (u32 (required * (bbs / SECTOR_SIZE))));
  bytes_written ← inode_write_loop (Z.to_nat (size / bbs) + 3) inode data (u32 block_start) size
                    block_offset 0;
  inode ← lift (put32 inode I_low_32size (u32 fsize));
  inode ← lift (put32 inode I_upper_32size (u32 (Z.shiftr fsize 32)));
  ext2_write_inode inode_num inode ;;
  ext2_flush_writes ;;
  ret bytes_written.

(** ** Truncating *)

Definition ext2_truncate (inode_num length : Z) : E Z :=
  inode ← ext2_get_inode_header inode_num;
  inode ← lift (put32 inode I_upper_32size 0);
  inode ← lift (put32 inode I_low_32size length);
  ext2_write_inode inode_num inode ;;
  ret 0.

(** [st_uid], [st_gid], [st_size], [st_mode] *)
Definition ext2_stat (inode_num : Z) : E (Z * Z * Z * Z) :=
  inode ← ext2_get_inode_header inode_num;
  uid ← lift (le16_at inode I_user_id);
  gid ← lift (le16_at inode I_group_id);
  lo ← lift (le32_at inode I_low_32size);
  hi ← lift (le32_at inode I_upper_32size);
  mode ← lift (le16_at inode I_types_permissions);
  ret (uid, gid, Z.lor lo hi, mode).

(** ** Removing *)

Definition remove_inode (inode_num : Z) : E unit :=
  inode ← ext2_get_inode_header inode_num;
  links ← lift (le16_at inode I_num_hard_links);
  let links := if negb (links =? 0) then links - 1 else links in
  inode ← lift (put16 inode I_num_hard_links links);
  if negb (links =? 0) then ret tt else
  used ← num_blocks_used inode;
  for_loop (R := unit) (Z.to_nat used) 0 (fun i =>
    block ← get_from_all_blocks inode i;
    (if block =? 0 then ret tt else write_to_block_bitmap block 0) ;;
    ret None) ;;
  now ← gets now_ms;
  inode ← lift (put32 inode I_deletion_time (u32 (now / 1000)));
  inode ← lift (put32 inode I_num_disk_sectors 0);
  ext2_write_inode inode_num inode ;;
  write_to_inode_bitmap (u32 (inode_num - 1)) 0.

(** ** Open inodes

    [files_head] is a doubly linked list; [files] holds its elements in order.
    [mem] says whether [kmalloc] succeeds. *)

(** The list with its first element for the inode changed by [f]. *)
Fixpoint update_open (fs : list ext2_open_file) (inode_num : Z)
    (f : ext2_open_file -> ext2_open_file) : list ext2_open_file :=
  match fs with
  | [] => []
  | o :: fs => if inode_num =? o_inode_num o then f o :: fs else o :: update_open fs inode_num f
  end.

Fixpoint unlink_open (fs : list ext2_open_file) (inode_num : Z) : list ext2_open_file :=
  match fs with
  | [] => []
  | o :: fs => if inode_num =? o_inode_num o then fs else o :: unlink_open fs inode_num
  end.

Definition find_open (fs : list ext2_open_file) (inode_num : Z) : option ext2_open_file :=
  List.find (fun o => inode_num =? o_inode_num o) fs.

Definition add_open_inode (mem : bool) (inode_num : Z) : E bool :=
  fs ← gets files;
  match find_open fs inode_num with
  | Some _ =>
    modify (set_files (update_open fs inode_num (fun o =>
      mkOpen (o_inode_num o) (u32 (references o + 1)) (is_removed o)))) ;;
    ret true
  | None =>
    if negb mem then ret false else
    modify (set_files (mkOpen inode_num 1 false :: fs)) ;;
    ret true
  end.

Definition remove_possibly_open_inode (inode_num : Z) : E unit :=
  fs ← gets files;
  match find_open fs inode_num with
  | None => remove_inode (i32 inode_num)
  | Some _ =>
    modify (set_files (update_open fs inode_num (fun o =>
      mkOpen (o_inode_num o) (references o) true)))
  end.

Definition deref_open_inode (inode_num : Z) : E Z :=
  fs ← gets files;
  match find_open fs inode_num with
  | None => ret 1
  | Some o =>
    m_assert (0 <? references o) ;;
    modify (set_files (update_open fs inode_num (fun o =>
      mkOpen (o_inode_num o) (references o - 1) (is_removed o)))) ;;
    if negb (references o - 1 =? 0) then ret 0 else
    modify (set_files (unlink_open fs inode_num)) ;;
    (if is_removed o then remove_inode (i32 inode_num) else ret tt) ;;
    ret 1
  end.

Definition ext2_close (inode_num : Z) : E unit := deref_open_inode inode_num ;; ret tt.

(** ** The contents of a file *)

Definition file_byte (v : view) (bbs : Z) (inode : list Z) (k : Z) : Z :=
  let b := block_of v bbs inode (k / bbs) in
  if b =? 0 then 0 else byte_of (v b) (k mod bbs).

(** The [n] bytes of a file from [off] on. *)
Definition file_range (v : view) (bbs : Z) (inode : list Z) (off n : Z) : list Z :=
  (fun k => file_byte v bbs inode (off + Z.of_nat k)) <$> seq 0 (Z.to_nat n).

Lemma zlen_file_range v bbs inode off n : 0 <= n -> zlen (file_range v bbs inode off n) = n.
Proof. intros. unfold zlen, file_range. rewrite length_fmap, length_seq. lia. Qed.

Lemma znth_file_range v bbs inode off n i :
  0 <= i < n -> znth (file_range v bbs inode off n) i = Some (file_byte v bbs inode (off + i)).
Proof.
  intros Hi. unfold znth, file_range. destruct (Z.leb_spec 0 i); [|lia].
  rewrite list_lookup_fmap, lookup_seq_lt by lia. cbn. do 2 f_equal. lia.
Qed.

Lemma file_range_app v bbs inode off n m :
  0 <= n -> 0 <= m ->
  file_range v bbs inode off n ++ file_range v bbs inode (off + n) m =
  file_range v bbs inode off (n + m).
Proof.
  intros. apply znth_ext; rewrite ?zlen_app, !zlen_file_range by lia; [lia|].
  intros i Hi. rewrite (znth_file_range _ _ _ _ (n + m)) by lia.
  destruct (Z.lt_ge_cases i n).
  - rewrite znth_app_l by (rewrite zlen_file_range; lia). by rewrite znth_file_range by lia.
  - rewrite znth_app_r by (rewrite zlen_file_range; lia). rewrite zlen_file_range by lia.
    rewrite znth_file_range by lia. do 2 f_equal. lia.
Qed.

Lemma file_range_ext v v' bbs inode inode' off n :
  (forall k, off <= k < off + n -> file_byte v bbs inode k = file_byte v' bbs inode' k) ->
  file_range v bbs inode off n = file_range v' bbs inode' off n.
Proof.
  intros H. apply list_fmap_ext. intros i x Hx. apply lookup_seq in Hx as [-> Hx].
  apply H. lia.
Qed.

(** The part of a file that lies in one block. *)
Lemma file_range_block v bbs inode i boff n :
  0 < bbs -> 0 <= i -> 0 <= boff -> 0 <= n -> boff + n <= bbs ->
  (block_of v bbs inode i <> 0 -> zlen (v (block_of v bbs inode i)) = bbs) ->
  file_range v bbs inode (i * bbs + boff) n =
  if block_of v bbs inode i =? 0 then replicate (Z.to_nat n) 0
  else slice boff n (v (block_of v bbs inode i)).
Proof.
  intros Hb Hi Hbo Hn Hfit Hlen.
  assert (Hk : forall k, 0 <= k < n -> (i * bbs + boff + k) / bbs = i /\
    (i * bbs + boff + k) mod bbs = boff + k).
  { intros k Hk. replace (i * bbs + boff + k) with (boff + k + i * bbs) by lia.
    rewrite Z.div_add, Z.mod_add, Z.div_small, Z.mod_small by lia. lia. }
  apply znth_ext.
  { rewrite zlen_file_range by done. destruct (Z.eqb_spec (block_of v bbs inode i) 0) as [E|E].
    - zlia.
    - rewrite zlen_slice; [done|done|done|]. rewrite Hlen by done. lia. }
  rewrite zlen_file_range by done. intros k Hkn. rewrite znth_file_range by done.
  destruct (Hk k Hkn) as [E1 E2]. unfold file_byte. rewrite E1, E2.
  destruct (Z.eqb_spec (block_of v bbs inode i) 0) as [E|E].
  - unfold znth. destruct (Z.leb_spec 0 k); [|lia]. by rewrite lookup_replicate_2 by lia.
  - rewrite znth_slice by lia. unfold byte_of.
    destruct (znth_Some (v (block_of v bbs inode i)) (boff + k)) as [x Hx];
      [rewrite Hlen by done; lia|]. by rewrite Hx.
Qed.

(** Block [j] of the file can be found, and is a hole or on the device. *)
Record mapped (st : ext2) (inode : list Z) (j : Z) : Prop := {
  mp_index : index_ok (block_byte_size st) j;
  mp_path : Forall (block_ok st) (path (bview st) (block_byte_size st) inode j);
  mp_block : let b := block_of (bview st) (block_byte_size st) inode j in b = 0 \/ block_ok st b
}.

Definition blocks_mapped (st : ext2) (inode : list Z) (off n : Z) : Prop :=
  forall k, off <= k < off + n -> mapped st inode (k / block_byte_size st).

Section Reading.
Implicit Types st : ext2.

(** A block is found in the same place while the pointer blocks to it stay. *)
Lemma mapped_stable st st' inode j :
  fs_frame st st' ->
  (forall b, b ∈ path (bview st) (block_byte_size st) inode j -> bview st' b = bview st b) ->
  mapped st inode j ->
  mapped st' inode j /\
  block_of (bview st') (block_byte_size st') inode j =
    block_of (bview st) (block_byte_size st) inode j.
Proof.
  intros F Hp [I P B]. destruct (block_of_stable _ _ _ _ _ Hp) as [Eb Ep].
  rewrite (fr_bbs _ _ F). split; [|done]. split; rewrite ?(fr_bbs _ _ F), ?Ep, ?Eb; [done| |].
  - eapply Forall_impl; [exact P|]. intros b. by rewrite (fs_frame_block_ok _ _ _ F).
  - cbn zeta in *. by rewrite (fs_frame_block_ok _ _ _ F).
Qed.

Lemma same_fs_mapped st st' inode j :
  fs_frame st st' -> (forall b, block_ok st b -> bview st' b = bview st b) -> mapped st inode j ->
  mapped st' inode j /\
  block_of (bview st') (block_byte_size st') inode j =
    block_of (bview st) (block_byte_size st) inode j.
Proof.
  intros F V M. apply mapped_stable; [done| |done]. intros b Hb. apply V.
  pose proof (mp_path _ _ _ M) as P. rewrite Forall_forall in P. by apply P.
Qed.

Lemma same_fs_byte st st' inode k :
  fs_frame st st' -> (forall b, block_ok st b -> bview st' b = bview st b) ->
  mapped st inode (k / block_byte_size st) ->
  file_byte (bview st') (block_byte_size st') inode k =
  file_byte (bview st) (block_byte_size st) inode k.
Proof.
  intros F V M. destruct (same_fs_mapped _ _ _ _ F V M) as [_ E]. unfold file_byte.
  rewrite (fr_bbs _ _ F) in *. rewrite E.
  destruct (mp_block _ _ _ M) as [H0|Hb]; [by rewrite H0|]. by rewrite V.
Qed.

Lemma part_len_spec bbs size boff :
  0 < bbs < 2 ^ 31 -> 0 <= boff < bbs -> 0 < size < 2 ^ 63 ->
  0 < part_len bbs size boff <= size /\ boff + part_len bbs size boff <= bbs /\
  (part_len bbs size boff < size -> boff + part_len bbs size boff = bbs).
Proof.
  intros. unfold part_len. rewrite u64_small by lia.
  destruct (Z.ltb_spec bbs (size + boff)); lia.
Qed.

Lemma inode_read_loop_spec fuel st inode i size boff :
  cache_inv st -> sizeof_inode <= zlen inode -> 0 <= i -> 0 <= boff < block_byte_size st ->
  0 <= size < 2 ^ 63 -> size + boff <= (Z.of_nat fuel - 1) * block_byte_size st ->
  blocks_mapped st inode (i * block_byte_size st + boff) size ->
  (1 <= fuel)%nat ->
  wp (inode_read_loop fuel inode i size boff) (fun d st' =>
    d = file_range (bview st) (block_byte_size st) inode (i * block_byte_size st + boff) size /\
    same_view st st') st.
Proof.
  revert st i size boff. induction fuel as [|fuel IH];
    intros st i size boff Hc Hz Hi Hbo Hs Hfuel Hm H1; [lia|].
  pose proof (ci_bbs _ Hc) as Hbbs. cbn [inode_read_loop].
  destruct (Z.eqb_spec size 0) as [->|Hne].
  { apply wp_ret. split; [done|by apply same_view_refl]. }
  wp_simpl. cbn zeta.
  destruct (part_len_spec (block_byte_size st) size boff) as (L1 & L2 & L3); [lia..|].
  set (len := part_len _ _ _) in *. set (bbs := block_byte_size st) in *.
  assert (Hmi : mapped st inode i).
  { specialize (Hm (i * bbs + boff) ltac:(lia)). fold bbs in Hm.
    replace ((i * bbs + boff) / bbs) with i in Hm; [done|].
    rewrite Z.add_comm, Z.div_add, Z.div_small by lia. lia. }
  destruct (get_block_spec st inode i) as (st1 & E1 & V1); [done|done|apply Hmi..|].
  apply wp_bind. eapply wp_ok; [exact E1|]. cbn beta. fold bbs.
  pose proof (same_view_bbs _ _ V1) as B1. fold bbs in B1.
  assert (Hpart : wp (if block_of (bview st) bbs inode i =? 0 then ret (replicate (Z.to_nat len) 0)
      else ext2_read_block (block_of (bview st) bbs inode i) len boff)
    (fun p st2 => p = file_range (bview st) bbs inode (i * bbs + boff) len /\ same_view st1 st2) st1).
  { rewrite file_range_block; [|lia..|].
    2: { intros Hb. destruct (mp_block _ _ _ Hmi) as [|Hok]; [done|]. by apply bview_len. }
    destruct (Z.eqb_spec (block_of (bview st) bbs inode i) 0) as [E|E].
    - apply wp_ret. split; [done|]. apply same_view_refl, V1.
    - destruct (mp_block _ _ _ Hmi) as [|Hok]; [done|]. fold bbs in Hok.
      destruct (ext2_read_block_spec st1 (block_of (bview st) bbs inode i) len boff)
        as (st2 & E2 & V2); [apply V1|by rewrite (same_view_ok _ _ _ V1)|lia..|].
      eapply wp_ok; [exact E2|]. split; [|done]. by rewrite (sv_view _ _ V1). }
  wp_use Hpart as p st2 [-> V2].
  pose proof (same_view_trans _ _ _ V1 V2) as V. pose proof (same_view_bbs _ _ V) as B.
  fold bbs in B. pose proof (view_frame _ _ V) as F.
  rewrite u64_small by lia. apply wp_bind.
  assert (Hrange : forall k, (i + 1) * bbs + 0 <= k < (i + 1) * bbs + 0 + (size - len) ->
    mapped st inode (k / bbs)).
  { intros k Hk. apply Hm. fold bbs. assert (len < size) by lia. lia. }
  eapply wp_mono; [apply IH; rewrite ?B|].
  - apply V.
  - done.
  - lia.
  - lia.
  - lia.
  - rewrite Z.add_0_r. destruct (Z.eq_dec len size); [|nia].
    assert (1 <= Z.of_nat fuel); nia.
  - intros k Hk. rewrite B. apply (same_fs_mapped st); [done|apply V|by apply Hrange].
  - destruct fuel; [|lia]. destruct (Z.eq_dec len size); nia.
  - intros d st3 [-> V3]. apply wp_ret. split; [|by eapply same_view_trans].
    destruct (Z.eq_dec len size) as [El|El].
    + rewrite El, Z.sub_diag. cbn [file_range seq Z.to_nat fmap list_fmap]. apply app_nil_r.
    + replace size with (len + (size - len)) at 2 by lia.
      rewrite <- file_range_app by lia. f_equal. rewrite B.
      replace (i * bbs + boff + len) with ((i + 1) * bbs + 0) by lia.
      apply file_range_ext. intros k Hk. rewrite <- B at 1.
      apply same_fs_byte; [done|apply V|by apply Hrange].
Qed.

(** The fields of an inode lie in its first 120 bytes. *)
Lemma word_head h h' o :
  ztake sizeof_inode h = h' -> 0 <= o -> o + 4 <= sizeof_inode -> word h o = word h' o.
Proof. intros <- H0 H1. symmetry. by apply word_ztake. Qed.

Lemma block_of_head v bbs h h' i :
  ztake sizeof_inode h = h' -> 0 <= i ->
  block_of v bbs h i = block_of v bbs h' i /\ path v bbs h i = path v bbs h' i.
Proof.
  intros Hh Hi. unfold block_of, path.
  rewrite !(word_head h h' I_single), !(word_head h h' I_double) by done.
  destruct (Z.ltb_spec i 12); [|done].
  by rewrite (word_head h h') by (done || (unfold I_block_pointers, sizeof_inode; lia)).
Qed.

Lemma mapped_head st h h' j :
  ztake sizeof_inode h = h' -> mapped st h' j -> mapped st h j.
Proof.
  intros Hh [I P B]. destruct (block_of_head (bview st) (block_byte_size st) h h' j) as [E1 E2];
    [done|apply I|]. split; [done|by rewrite E2|]. cbn zeta. by rewrite E1.
Qed.

Lemma file_byte_head v bbs h h' k :
  ztake sizeof_inode h = h' -> 0 < bbs -> 0 <= k -> file_byte v bbs h k = file_byte v bbs h' k.
Proof.
  intros Hh Hb Hk. unfold file_byte.
  by rewrite (proj1 (block_of_head v bbs h h' (k / bbs) Hh ltac:(by apply Z.div_pos))).
Qed.

Definition file_size (inode : list Z) : Z :=
  Z.lor (Z.shiftl (word inode I_upper_32size) 32) (word inode I_low_32size).

Lemma inode_file_size_ok h h' :
  ztake sizeof_inode h = h' -> sizeof_inode <= zlen h -> inode_file_size h = Ok (file_size h').
Proof.
  intros Hh Hz. unfold sizeof_inode in *. unfold inode_file_size, file_size.
  rewrite !le32_at_word by (unfold I_upper_32size, I_low_32size; lia). cbn [mbind outcome_bind].
  by rewrite !(word_head h h').
Qed.

(** What [read_inode] makes of the size it is asked for. *)
Lemma clamp_size fsize offset size :
  0 <= fsize < 2 ^ 63 -> 0 <= offset < 2 ^ 63 -> 0 <= size < 2 ^ 63 ->
  (if u64 (fsize - offset) <? size then u64 (size - u64 (u64 (size + offset) - fsize)) else size) =
  if fsize <? offset then size else Z.min size (fsize - offset).
Proof.
  intros Hf Ho Hs. destruct (Z.ltb_spec fsize offset).
  - replace (u64 (fsize - offset)) with (fsize - offset + 2 ^ 64).
    + destruct (Z.ltb_spec (fsize - offset + 2 ^ 64) size); lia.
    + unfold u64, wrap. rewrite <- (Z.mod_add (fsize - offset) 1) by lia.
      rewrite Z.mod_small; lia.
  - rewrite (u64_small (fsize - offset)) by lia.
    destruct (Z.ltb_spec (fsize - offset) size); [|lia].
    rewrite (u64_small (size + offset)), (u64_small (size + offset - fsize)), u64_small by lia. lia.
Qed.

Lemma index_u32 st i : fs_ok st -> index_ok (block_byte_size st) i -> 0 <= i < 2 ^ 31.
Proof.
  intros Hf [Hi Hx]. split; [done|]. pose proof (fo_bbs _ Hf) as Hb.
  assert (Hq : 0 <= block_byte_size st / 4 <= 16384).
  { split; [apply Z.div_pos; lia|]. apply Z.div_le_upper_bound; lia. }
  destruct Hx as [Hx|Hx]; [lia|]. rewrite u32_small in Hx by nia. nia.
Qed.

Lemma read_inode_spec st n size offset :
  fs_ok st -> inode_ok st n ->
  0 <= file_size (inode_at st n) < 2 ^ 63 ->
  blocks_mapped st (inode_at st n) 0 (file_size (inode_at st n)) ->
  0 <= size < 2 ^ 63 -> 0 <= offset < 2 ^ 63 ->
  wp (read_inode n size offset) (fun r st' =>
    r = (file_range (bview st) (block_byte_size st) (inode_at st n) offset
           (Z.min size (Z.max 0 (file_size (inode_at st n) - offset))),
         file_size (inode_at st n)) /\ same_fs st st') st.
Proof.
  intros Hf Hi Hfs Hm Hs Ho. pose proof (fo_bbs _ Hf) as Hb. unfold read_inode.
  wp_use (get_inode_header_spec st n) as h st1 (Hz & Hh & S1 & _); [done..|].
  pose proof (fo_isz _ Hf) as Hmin. set (fsize := file_size _) in *.
  eapply wp_lift; [apply (inode_file_size_ok _ _ Hh); lia|]. cbn zeta. fold fsize.
  rewrite clamp_size by done.
  destruct (Z.ltb_spec fsize offset) as [Hlt|Hle].
  { rewrite Z.max_l, Z.min_r by lia. destruct (size =? 0); by apply wp_ret. }
  rewrite Z.max_r by lia. set (len := Z.min size (fsize - offset)).
  destruct (Z.eqb_spec len 0) as [->|Hne]; [by apply wp_ret|].
  wp_simpl. pose proof (sf_frame _ _ S1) as F. rewrite (fr_bbs _ _ F).
  set (bbs := block_byte_size st) in *. unfold udiv, umod.
  destruct (Z.eqb_spec bbs 0); [lia|]. wp_simpl.
  assert (Hq : 0 <= offset / bbs < 2 ^ 31).
  { apply (index_u32 st); [done|]. apply (Hm offset). lia. }
  pose proof (Z.mod_pos_bound offset bbs ltac:(lia)) as Hr.
  pose proof (Z.div_mod offset bbs ltac:(lia)) as Hdm.
  rewrite u32_small by lia.
  wp_use (inode_read_loop_spec (Z.to_nat (len / bbs) + 3) st1 h) as d st2 [-> V].
  - apply S1.
  - lia.
  - lia.
  - by rewrite (fr_bbs _ _ F).
  - lia.
  - rewrite (fr_bbs _ _ F). fold bbs. pose proof (Z.mod_pos_bound len bbs ltac:(lia)).
    pose proof (Z.div_mod len bbs ltac:(lia)). pose proof (Z.div_pos len bbs). nia.
  - intros k Hk. rewrite (fr_bbs _ _ F) in *. fold bbs in Hk |- *.
    apply (same_fs_mapped st); [done|apply S1|].
    eapply mapped_head; [exact Hh|]. apply Hm. lia.
  - lia.
  - apply wp_ret. rewrite (fr_bbs _ _ F). fold bbs.
    split; [|eapply same_fs_trans; [exact S1|]; apply view_same_fs; [apply S1|done]].
    f_equal. replace (offset / bbs * bbs + offset mod bbs) with offset by lia.
    apply file_range_ext. intros k Hk.
    assert (Hk' : mapped st h (k / bbs)) by (eapply mapped_head; [exact Hh|]; apply Hm; lia).
    pose proof (same_fs_byte st st1 h k F (sf_view _ _ S1) Hk') as Hbyte.
    rewrite (fr_bbs _ _ F) in Hbyte. fold bbs in Hbyte. rewrite Hbyte.
    apply file_byte_head; [done|lia..].
Qed.
End Reading.

(** ** Overwriting part of a file *)

(** The first [N] blocks of a file are all there, distinct, and none of them is
    one of the pointer blocks. *)
Record file_blocks (st : ext2) (inode : list Z) (N : Z) : Prop := {
  fb_mapped : forall j, 0 <= j < N -> mapped st inode j;
  fb_nonzero : forall j, 0 <= j < N -> block_of (bview st) (block_byte_size st) inode j <> 0;
  fb_inj : forall i j, 0 <= i < N -> 0 <= j < N ->
    block_of (bview st) (block_byte_size st) inode i =
    block_of (bview st) (block_byte_size st) inode j -> i = j;
  fb_sep : forall i j, 0 <= i < N -> 0 <= j < N ->
    block_of (bview st) (block_byte_size st) inode i ∉
    path (bview st) (block_byte_size st) inode j
}.

(** Nothing but the blocks of the file changed; from [off] on it holds [d]. *)
Record file_write (st st' : ext2) (inode : list Z) (N off : Z) (d : list Z) : Prop := {
  fw_globals : same_globals st st';
  fw_frame : fs_frame st st';
  fw_inv : cache_inv st';
  fw_other : forall b, block_ok st b ->
    (forall j, 0 <= j < N -> b <> block_of (bview st) (block_byte_size st) inode j) ->
    bview st' b = bview st b;
  fw_bytes : forall k, 0 <= k < N * block_byte_size st ->
    file_byte (bview st') (block_byte_size st) inode k =
    if (off <=? k) && (k <? off + zlen d) then byte_of d (k - off)
    else file_byte (bview st) (block_byte_size st) inode k
}.

Section Writing.
Implicit Types st : ext2.

Lemma same_globals_trans st1 st2 st3 :
  same_globals st1 st2 -> same_globals st2 st3 -> same_globals st1 st3.
Proof. unfold same_globals. intros H1 H2. rewrite H2, H1. done. Qed.

(** The map of a file survives changes outside its pointer blocks. *)
Lemma file_blocks_paths st st' inode N :
  fs_frame st st' ->
  (forall j b, 0 <= j < N -> b ∈ path (bview st) (block_byte_size st) inode j ->
    bview st' b = bview st b) ->
  file_blocks st inode N ->
  file_blocks st' inode N /\
  (forall j, 0 <= j < N -> block_of (bview st') (block_byte_size st) inode j =
                           block_of (bview st) (block_byte_size st) inode j).
Proof.
  intros F Hp [M Z0 I S].
  assert (Hst : forall j, 0 <= j < N -> mapped st' inode j /\
    block_of (bview st') (block_byte_size st') inode j =
      block_of (bview st) (block_byte_size st) inode j /\
    path (bview st') (block_byte_size st') inode j = path (bview st) (block_byte_size st) inode j).
  { intros j Hj. destruct (mapped_stable st st' inode j F (fun b => Hp j b Hj) (M j Hj)) as [H1 H2].
    split_and!; [done..|]. rewrite (fr_bbs _ _ F). apply block_of_stable. intros b. by apply Hp. }
  split.
  - split.
    + intros j Hj. by apply Hst.
    + intros j Hj. destruct (Hst j Hj) as (_ & -> & _). by apply Z0.
    + intros i j Hi Hj. destruct (Hst i Hi) as (_ & -> & _), (Hst j Hj) as (_ & -> & _).
      by apply I.
    + intros i j Hi Hj. destruct (Hst i Hi) as (_ & -> & _), (Hst j Hj) as (_ & _ & ->).
      by apply S.
  - intros j Hj. destruct (Hst j Hj) as (_ & E & _). by rewrite (fr_bbs _ _ F) in E.
Qed.

Lemma path_block st inode N j b :
  file_blocks st inode N -> 0 <= j < N ->
  b ∈ path (bview st) (block_byte_size st) inode j ->
  block_ok st b /\
  forall i, 0 <= i < N -> b <> block_of (bview st) (block_byte_size st) inode i.
Proof.
  intros Hfb Hj Hb. pose proof (mp_path _ _ _ (fb_mapped _ _ _ Hfb j Hj)) as P.
  rewrite Forall_forall in P. split; [by apply P|]. intros i Hi ->.
  by apply (fb_sep _ _ _ Hfb i j).
Qed.

Lemma file_blocks_stable st st' inode N :
  fs_frame st st' ->
  (forall b, block_ok st b ->
    (forall j, 0 <= j < N -> b <> block_of (bview st) (block_byte_size st) inode j) ->
    bview st' b = bview st b) ->
  file_blocks st inode N ->
  file_blocks st' inode N /\
  (forall j, 0 <= j < N -> block_of (bview st') (block_byte_size st) inode j =
                           block_of (bview st) (block_byte_size st) inode j).
Proof.
  intros F Ho Hfb. apply file_blocks_paths; [done| |done].
  intros j b Hj Hb. destruct (path_block _ _ _ _ _ Hfb Hj Hb). by apply Ho.
Qed.

Lemma byte_block k bbs N : 0 < bbs -> 0 <= k < N * bbs -> 0 <= k / bbs < N.
Proof. intros. split; [apply Z.div_pos; lia|]. apply Z.div_lt_upper_bound; lia. Qed.

(** Writing within one block. *)
Lemma write_part st inode N i boff data len :
  cache_inv st -> file_blocks st inode N -> 0 <= i < N -> 0 <= boff -> 0 <= len <= zlen data ->
  boff + len <= block_byte_size st ->
  wp (ext2_write_block (block_of (bview st) (block_byte_size st) inode i) data len boff)
    (fun _ st' => file_write st st' inode N (i * block_byte_size st + boff) (ztake len data)) st.
Proof.
  intros Hc Hfb Hi Hbo Hlen Hfit. pose proof (ci_bbs _ Hc) as Hbbs.
  set (bbs := block_byte_size st) in *. set (b := block_of (bview st) bbs inode i).
  destruct (mp_block _ _ _ (fb_mapped _ _ _ Hfb i Hi)) as [H0|Hok].
  { by destruct (fb_nonzero _ _ _ Hfb i Hi). } fold bbs b in Hok.
  eapply wp_mono; [by apply write_block_put|]. intros _ st' [G [F C N1 O1]].
  assert (Hother : forall b', block_ok st b' ->
    (forall j, 0 <= j < N -> b' <> block_of (bview st) bbs inode j) -> bview st' b' = bview st b').
  { intros b' Hb' Hne. apply O1; [done|]. by apply Hne. }
  destruct (file_blocks_stable st st' inode N F Hother Hfb) as [_ Hsame]. fold bbs in Hsame.
  split; try done. fold bbs. intros k Hk. pose proof (byte_block k bbs N ltac:(lia) Hk) as Hq.
  unfold file_byte at 1. rewrite Hsame by done.
  pose proof (fb_nonzero _ _ _ Hfb _ Hq) as Hnz. fold bbs in Hnz.
  pose proof (zlen_ztake len data Hlen) as Hz. rewrite Hz.
  pose proof (Z.div_mod k bbs ltac:(lia)) as Hdm. pose proof (Z.mod_pos_bound k bbs ltac:(lia)) as Hmb.
  destruct (Z.eqb_spec (block_of (bview st) bbs inode (k / bbs)) 0); [done|].
  unfold file_byte. destruct (Z.eqb_spec (block_of (bview st) bbs inode (k / bbs)) 0); [done|].
  pose proof (bview_len st b Hc Hok) as Hbl. fold bbs in Hbl.
  destruct (decide (k / bbs = i)) as [E|E].
  - rewrite E. fold b. rewrite N1.
    destruct (Z.leb_spec (i * bbs + boff) k), (Z.ltb_spec k (i * bbs + boff + len)); cbn [andb];
      apply byte_of_ext; rewrite znth_splice by lia; rewrite Hz;
      destruct (Z.leb_spec boff (k mod bbs)), (Z.ltb_spec (k mod bbs) (boff + len));
      cbn [andb]; try nia; try done; f_equal; nia.
  - assert (Hne : block_of (bview st) bbs inode (k / bbs) <> b).
    { intros Heq. apply E. by apply (fb_inj _ _ _ Hfb). }
    destruct (mp_block _ _ _ (fb_mapped _ _ _ Hfb _ Hq)) as [|Hok']; [done|]. fold bbs in Hok'.
    rewrite O1 by done.
    destruct (Z.leb_spec (i * bbs + boff) k), (Z.ltb_spec k (i * bbs + boff + len)); cbn [andb];
      try done. exfalso. apply E. rewrite <- (Z.div_unique k bbs i (k - i * bbs)); lia.
Qed.

Lemma file_write_app st st1 st2 inode N off d1 d2 :
  file_blocks st inode N -> 0 <= off ->
  file_write st st1 inode N off d1 -> file_write st1 st2 inode N (off + zlen d1) d2 ->
  file_write st st2 inode N off (d1 ++ d2).
Proof.
  intros Hfb Hoff [G1 F1 C1 O1 B1] [G2 F2 C2 O2 B2]. pose proof (fr_bbs _ _ F1) as Eb.
  destruct (file_blocks_stable st st1 inode N F1 O1 Hfb) as [_ Hsame].
  rewrite Eb in *. split.
  - by eapply same_globals_trans.
  - by eapply fs_frame_trans.
  - done.
  - intros b Hb Hne. rewrite O2; [by apply O1|by rewrite (fs_frame_block_ok _ _ _ F1)|].
    intros j Hj. rewrite Hsame by done. by apply Hne.
  - intros k Hk. rewrite B2, B1 by done. rewrite zlen_app.
    pose proof (zlen_nonneg d1). pose proof (zlen_nonneg d2).
    destruct (Z.leb_spec (off + zlen d1) k), (Z.ltb_spec k (off + zlen d1 + zlen d2)),
      (Z.leb_spec off k), (Z.ltb_spec k (off + (zlen d1 + zlen d2))),
      (Z.ltb_spec k (off + zlen d1)); cbn [andb]; try lia; try done.
    + apply byte_of_ext. rewrite znth_app_r by lia. f_equal. lia.
    + apply byte_of_ext. by rewrite znth_app_l by lia.
Qed.

(** Looking at blocks writes nothing. *)
Lemma file_write_view st st' inode N off :
  file_blocks st inode N -> cache_inv st -> same_view st st' -> file_write st st' inode N off [].
Proof.
  intros Hfb Hc V. pose proof (ci_bbs _ Hc). pose proof (view_frame _ _ V) as F.
  split; [apply V|done|apply V|intros b Hb _; by apply V|].
  intros k Hk. change (zlen []) with 0.
  destruct (Z.leb_spec off k), (Z.ltb_spec k (off + 0)); cbn [andb]; try lia;
    rewrite <- (fr_bbs _ _ F) at 1;
    (apply same_fs_byte; [done|apply V|apply Hfb; apply byte_block; [lia|done]]).
Qed.

Lemma inode_write_loop_spec fuel st inode data i size boff w N :
  cache_inv st -> sizeof_inode <= zlen inode -> file_blocks st inode N ->
  0 <= i -> 0 <= boff < block_byte_size st -> 0 <= size < 2 ^ 63 ->
  size + boff <= (Z.of_nat fuel - 1) * block_byte_size st -> (1 <= fuel)%nat ->
  i * block_byte_size st + boff + size <= N * block_byte_size st ->
  0 <= w -> w + size <= zlen data ->
  wp (inode_write_loop fuel inode data i size boff w) (fun r st' => r = w + size /\
    file_write st st' inode N (i * block_byte_size st + boff) (slice w size data)) st.
Proof.
  revert st i size boff w. induction fuel as [|fuel IH];
    intros st i size boff w Hc Hz Hfb Hi Hbo Hs Hfuel H1 HN Hw Hd; [lia|].
  pose proof (ci_bbs _ Hc) as Hbbs. cbn [inode_write_loop].
  destruct (Z.eqb_spec size 0) as [->|Hne].
  { apply wp_ret. split; [lia|]. rewrite slice_0. apply file_write_view; [done..|].
    by apply same_view_refl. }
  wp_simpl. set (bbs := block_byte_size st) in *.
  assert (HiN : 0 <= i < N) by nia.
  destruct (get_block_spec st inode i) as (st1 & E1 & V1); [done|done|by apply Hfb..|].
  apply wp_bind. eapply wp_ok; [exact E1|]. cbn beta. fold bbs.
  destruct (Z.eqb_spec (block_of (bview st) bbs inode i) 0) as [E0|_];
    [by destruct (fb_nonzero _ _ _ Hfb i HiN)|]. cbn zeta.
  destruct (part_len_spec bbs size boff) as (L1 & L2 & L3); [lia..|].
  set (len := part_len _ _ _) in *.
  pose proof (file_write_view st st1 inode N (i * bbs + boff) Hfb Hc V1) as W1.
  destruct (file_blocks_stable st st1 inode N (fw_frame _ _ _ _ _ _ W1) (fw_other _ _ _ _ _ _ W1) Hfb)
    as [Hfb1 Hsame]. fold bbs in Hsame.
  pose proof (fr_bbs _ _ (fw_frame _ _ _ _ _ _ W1)) as B1. fold bbs in B1.
  rewrite <- (Hsame i HiN). rewrite <- B1 at 1.
  wp_use (write_part st1 inode N i boff) as [] st2 W2.
  - apply V1.
  - done.
  - done.
  - lia.
  - split; [lia|]. rewrite zlen_zdrop; lia.
  - lia.
  - rewrite B1 in W2. change (ztake len (zdrop w data)) with (slice w len data) in W2.
    rewrite <- (Z.add_0_r (i * bbs + boff)) in W2.
    pose proof (file_write_app st st1 st2 inode N (i * bbs + boff) [] _ Hfb ltac:(nia) W1 W2) as W.
    cbn [app] in W. rewrite Z.add_0_r in W2. clear W1 W2 V1 E1 Hfb1 Hsame B1 st1.
    destruct (file_blocks_stable st st2 inode N (fw_frame _ _ _ _ _ _ W) (fw_other _ _ _ _ _ _ W) Hfb)
      as [Hfb2 _].
    pose proof (fr_bbs _ _ (fw_frame _ _ _ _ _ _ W)) as B2. fold bbs in B2.
    rewrite u64_small by lia.
    assert (Hcase : len = size \/ len < size /\ boff + len = bbs) by lia.
    assert (Hf0 : size + boff <= Z.of_nat fuel * bbs) by lia.
    assert (Hf1 : 1 <= Z.of_nat fuel) by nia.
    eapply wp_mono; [apply (IH st2 (i + 1) (size - len) 0 (w + len)); rewrite ?B2|].
    + apply W.
    + done.
    + done.
    + lia.
    + lia.
    + lia.
    + destruct Hcase as [->|[? ?]]; nia.
    + lia.
    + destruct Hcase as [->|[? ?]]; nia.
    + lia.
    + lia.
    + intros r st3 [-> W3]. split; [lia|]. rewrite B2 in W3.
      destruct Hcase as [E|[E1 E2]].
      * subst len. rewrite E in *. rewrite Z.sub_diag, slice_0 in W3.
        rewrite <- (app_nil_r (slice w size data)).
        eapply file_write_app; [done|nia|exact W|].
        destruct W3 as [G3 F3 C3 O3 B3]. split; try done.
        intros k Hk. rewrite B3 by done. change (zlen []) with 0.
        destruct (Z.leb_spec ((i + 1) * bbs + 0) k), (Z.ltb_spec k ((i + 1) * bbs + 0 + 0)),
          (Z.leb_spec (i * bbs + boff + zlen (slice w size data)) k),
          (Z.ltb_spec k (i * bbs + boff + zlen (slice w size data) + 0)); cbn [andb]; (done || lia).
      * replace size with (len + (size - len)) by lia. rewrite <- slice_app by lia.
        eapply file_write_app; [done|nia|exact W|].
        rewrite zlen_slice by lia.
        by replace (i * bbs + boff + len) with ((i + 1) * bbs + 0) by lia.
Qed.

(** ** Writing a file in place *)

Lemma put32_ok l off v :
  0 <= off -> off + 4 <= zlen l -> put32 l off v = Ok (splice l off (le32_bytes v)).
Proof.
  intros. unfold put32. assert (Hz : zlen (le32_bytes v) = 4) by done.
  by rewrite memcpy_at_ok by lia.
Qed.

(** What [write_inode] stores in the inode. *)
Definition sized (inode : list Z) (sectors fsize : Z) : list Z :=
  splice (splice (splice inode I_num_disk_sectors (le32_bytes sectors))
            I_low_32size (le32_bytes (u32 fsize)))
    I_upper_32size (le32_bytes (u32 (Z.shiftr fsize 32))).

Lemma zlen_sized inode sectors fsize :
  sizeof_inode <= zlen inode -> zlen (sized inode sectors fsize) = zlen inode.
Proof.
  intros Hz. unfold sizeof_inode in Hz. unfold sized, I_num_disk_sectors, I_low_32size, I_upper_32size.
  assert (H4 : forall v, zlen (le32_bytes v) = 4) by done.
  rewrite !zlen_splice; rewrite ?H4, ?zlen_splice; rewrite ?H4, ?zlen_splice; rewrite ?H4; lia.
Qed.

Lemma ztake_sized inode sectors fsize :
  sizeof_inode <= zlen inode ->
  ztake sizeof_inode (sized inode sectors fsize) = sized (ztake sizeof_inode inode) sectors fsize.
Proof.
  intros Hz. unfold sized. assert (H4 : forall v, zlen (le32_bytes v) = 4) by done.
  unfold sizeof_inode, I_num_disk_sectors, I_low_32size, I_upper_32size in *.
  rewrite !ztake_splice; rewrite ?zlen_splice; rewrite ?H4, ?zlen_splice; rewrite ?H4; (done || lia).
Qed.

Lemma file_size_sized inode sectors fsize :
  sizeof_inode <= zlen inode -> 0 <= fsize < 2 ^ 63 -> file_size (sized inode sectors fsize) = fsize.
Proof.
  intros Hz Hf. unfold file_size, sized. assert (H4 : forall v, zlen (le32_bytes v) = 4) by done.
  unfold sizeof_inode, I_num_disk_sectors, I_low_32size, I_upper_32size in *.
  rewrite word_splice_same; [|apply u32_fits|lia|rewrite !zlen_splice; rewrite ?H4, ?zlen_splice; rewrite ?H4; lia].
  rewrite word_splice_other;
    [|lia|rewrite ?H4, !zlen_splice; rewrite ?H4, ?zlen_splice; rewrite ?H4; lia|lia
     |rewrite !zlen_splice; rewrite ?H4, ?zlen_splice; rewrite ?H4; lia|lia].
  rewrite word_splice_same; [|apply u32_fits|lia|rewrite zlen_splice; rewrite ?H4; lia].
  rewrite Z.shiftr_div_pow2, Z.shiftl_mul_pow2 by lia.
  rewrite (u32_small (fsize / 2 ^ 32)).
  2: { split; [apply Z.div_pos; lia|apply Z.div_lt_upper_bound; lia]. }
  rewrite Z.lor_comm, lor_disjoint_add by (lia || apply u32_fits).
  unfold u32, wrap. pose proof (Z.div_mod fsize (2 ^ 32)). lia.
Qed.

(** The pointers are not among the fields it stores. *)
Lemma block_of_sized v bbs inode sectors fsize i :
  sizeof_inode <= zlen inode -> 0 <= i ->
  block_of v bbs (sized inode sectors fsize) i = block_of v bbs inode i /\
  path v bbs (sized inode sectors fsize) i = path v bbs inode i.
Proof.
  intros Hz Hi.
  assert (Hw : forall o, 32 <= o <= 104 -> word (sized inode sectors fsize) o = word inode o).
  { intros o Ho. unfold sized. assert (H4 : forall v, zlen (le32_bytes v) = 4) by done.
    unfold sizeof_inode, I_num_disk_sectors, I_low_32size, I_upper_32size in *.
    rewrite !word_splice_other; rewrite ?H4, ?zlen_splice; rewrite ?H4, ?zlen_splice; rewrite ?H4;
      (done || lia). }
  unfold block_of, path. rewrite !(Hw I_single), !(Hw I_double) by done.
  destruct (Z.ltb_spec i 12); [|done]. by rewrite Hw by (unfold I_block_pointers; lia).
Qed.

(** A file whose blocks, pointer blocks and inode are apart, and its blocks not
    in the way of the other inodes. *)
Record file_ok st (n N : Z) : Prop := {
  fk_inode : inode_ok st n;
  fk_blocks : file_blocks st (inode_at st n) N;
  fk_table : forall j, 0 <= j < N ->
    block_of (bview st) (block_byte_size st) (inode_at st n) j <> fst (inode_pos st n);
  fk_desc : forall j, 0 <= j < N ->
    block_of (bview st) (block_byte_size st) (inode_at st n) j <> desc_block st;
  fk_path : forall j, 0 <= j < N ->
    fst (inode_pos st n) ∉ path (bview st) (block_byte_size st) (inode_at st n) j
}.

Lemma file_blocks_head st h h' N :
  (forall j, 0 <= j < N ->
    block_of (bview st) (block_byte_size st) h j = block_of (bview st) (block_byte_size st) h' j /\
    path (bview st) (block_byte_size st) h j = path (bview st) (block_byte_size st) h' j) ->
  file_blocks st h' N -> file_blocks st h N.
Proof.
  intros E [M Z0 I S]. split.
  - intros j Hj. destruct (E j Hj) as [E1 E2]. destruct (M j Hj) as [A B C].
    split; [done|by rewrite E2|]. cbn zeta. by rewrite E1.
  - intros j Hj. destruct (E j Hj) as [-> _]. by apply Z0.
  - intros i j Hi Hj. destruct (E i Hi) as [-> _], (E j Hj) as [-> _]. by apply I.
  - intros i j Hi Hj. destruct (E i Hi) as [-> _], (E j Hj) as [_ ->]. by apply S.
Qed.

(** Blocks needed for [x] bytes. *)
Definition blocks_for (x bbs : Z) : Z := x / bbs + c_int (negb (x mod bbs =? 0)).

Lemma blocks_for_bound x bbs :
  0 < bbs -> 0 <= x -> x <= blocks_for x bbs * bbs /\ 0 <= blocks_for x bbs /\
  (0 < x -> (blocks_for x bbs - 1) * bbs < x).
Proof.
  intros Hb Hx. unfold blocks_for. pose proof (Z.div_mod x bbs ltac:(lia)).
  pose proof (Z.mod_pos_bound x bbs Hb). pose proof (Z.div_pos x bbs Hx Hb).
  destruct (Z.eqb_spec (x mod bbs) 0); cbn [negb c_int]; nia.
Qed.

(** The state after the data was written: the inode and its cache are as before. *)
Lemma file_write_fs st st' n h N off d :
  fs_ok st -> last_inode_read st = n -> file_ok st n N -> ztake sizeof_inode h = inode_at st n ->
  file_write st st' h N off d ->
  fs_ok st' /\ inode_ok st' n /\ inode_at st' n = inode_at st n /\ inode_pos st' n = inode_pos st n /\
  bview st' (desc_block st) = bview st (desc_block st).
Proof.
  intros Hf Hl [Hi _ Ht Hd _] Hh [G F C O _].
  assert (Hsep : forall b, (forall j, 0 <= j < N ->
      block_of (bview st) (block_byte_size st) (inode_at st n) j <> b) -> block_ok st b ->
      bview st' b = bview st b).
  { intros b Hne Hb. apply O; [done|]. intros j Hj ->. apply (Hne j Hj).
    symmetry. apply block_of_head; [done|lia]. }
  assert (Ed : bview st' (desc_block st) = bview st (desc_block st)) by (apply Hsep; [done|apply Hi]).
  assert (Eb : bview st' (fst (inode_pos st n)) = bview st (fst (inode_pos st n)))
    by (apply Hsep; [done|apply Hi]).
  pose proof (inode_ok_stable st st' n F Ed Hi) as Hi'.
  pose proof (inode_at_stable st st' n F Ed Eb) as Ha.
  split_and!; [|done|done|by apply inode_pos_stable|done].
  destruct Hf as [C0 B0 S0 I0 L0].
  split; rewrite ?(fr_bbs _ _ F), ?(fr_sb _ _ F), ?(fr_isz _ _ F); try done.
  unfold last_ok. rewrite G. cbn [last_inode_read last_inode set_cache set_disk].
  rewrite <- G, Hl. destruct L0 as [L0|[_ L0]]; [left; congruence|].
  right. split; [done|]. rewrite L0, Hl. by rewrite Ha.
Qed.

(** The final state of [write_inode] when the file has the blocks it needs. *)
Record file_overwritten st st' (n N off : Z) (d : list Z) (fsize sectors : Z) : Prop := {
  ow_fs : fs_ok st';
  ow_frame : fs_frame st st';
  ow_inode : inode_ok st' n;
  ow_desc : bview st' (desc_block st) = bview st (desc_block st);
  ow_head : inode_at st' n = sized (inode_at st n) sectors fsize;
  ow_blocks : file_blocks st' (inode_at st' n) N;
  ow_map : forall j, 0 <= j < N ->
    block_of (bview st') (block_byte_size st) (inode_at st' n) j =
      block_of (bview st) (block_byte_size st) (inode_at st n) j /\
    path (bview st') (block_byte_size st) (inode_at st' n) j =
      path (bview st) (block_byte_size st) (inode_at st n) j;
  ow_bytes : forall k, 0 <= k < N * block_byte_size st ->
    file_byte (bview st') (block_byte_size st) (inode_at st' n) k =
    if (off <=? k) && (k <? off + zlen d) then byte_of d (k - off)
    else file_byte (bview st) (block_byte_size st) (inode_at st n) k;
  ow_other : forall b, block_ok st b -> b <> fst (inode_pos st n) ->
    (forall j, 0 <= j < N ->
       b <> block_of (bview st) (block_byte_size st) (inode_at st n) j) ->
    bview st' b = bview st b;
  ow_inodes : forall m, inode_ok st m -> m <> n ->
    (forall j, 0 <= j < N -> fst (inode_pos st m) <>
       block_of (bview st) (block_byte_size st) (inode_at st n) j) ->
    inode_ok st' m /\ inode_at st' m = inode_at st m
}.

(** The header that [ext2_write_inode] stored. *)
Lemma stored_head st st' n data :
  fs_ok st -> inode_ok st n -> layout_ok st -> zlen data = inode_size st ->
  put_block st st' (fst (inode_pos st n))
    (splice (bview st (fst (inode_pos st n))) (snd (inode_pos st n)) data) ->
  bview st' (desc_block st) = bview st (desc_block st) /\ inode_ok st' n /\
  inode_at st' n = ztake sizeof_inode data.
Proof.
  intros Hf Hi Hl Hz [F C N O]. pose proof (fo_isz _ Hf). pose proof (io_off _ _ Hi).
  assert (Hd : bview st' (desc_block st) = bview st (desc_block st)).
  { apply O; [apply Hi|]. by apply not_eq_sym, lo_desc. }
  split_and!; [done|by apply (inode_ok_stable st)|].
  unfold inode_at. rewrite (inode_pos_stable st st'), N by done.
  apply slice_splice_prefix; [by apply inode_off_nonneg| |unfold sizeof_inode in *; lia].
  rewrite bview_len by (apply Hf || apply Hi). lia.
Qed.

(** The inode is stored after the data. *)
Lemma store_header st st' n h N off d sectors fsize :
  fs_ok st -> layout_ok st -> last_inode_read st = n -> file_ok st n N ->
  ztake sizeof_inode h = inode_at st n -> zlen h = inode_size st ->
  file_write st st' h N off d ->
  wp (ext2_write_inode n (sized h sectors fsize)) (fun _ st'' =>
    file_overwritten st st'' n N off d fsize sectors) st'.
Proof.
  intros Hf Hlay Hl Hk Hh Hz W. pose proof (fo_isz _ Hf) as Hmin. pose proof (fo_bbs _ Hf) as Hbbs.
  destruct (file_write_fs _ _ _ _ _ _ _ Hf Hl Hk Hh W) as (Hf' & Hi' & Ha' & Hp' & Hd').
  pose proof W as [G F C O B]. pose proof (layout_ok_stable _ _ F Hd' Hlay) as Hlay'.
  assert (Hsz : zlen (sized h sectors fsize) = inode_size st').
  { rewrite zlen_sized by lia. by rewrite (fr_isz _ _ F). }
  eapply wp_mono; [by apply write_inode_header_spec|]. intros _ st2 [Hf2 P].
  destruct (stored_head _ _ _ _ Hf' Hi' Hlay' Hsz P) as (Hd2 & Hi2 & Hhead).
  rewrite ztake_sized, Hh in Hhead by lia.
  pose proof Hk as [Hi Hfb Ht Hds Hpa].
  assert (Eds : desc_block st' = desc_block st) by (unfold desc_block; by rewrite (fr_bbs _ _ F)).
  rewrite Eds in Hd2. set (bbs := block_byte_size st) in *.
  assert (Heq : forall v j, 0 <= j ->
    block_of v bbs (inode_at st2 n) j = block_of v bbs (inode_at st n) j /\
    path v bbs (inode_at st2 n) j = path v bbs (inode_at st n) j).
  { intros v j Hj. rewrite Hhead. apply block_of_sized; [by rewrite inode_at_len|done]. }
  assert (Hfile : forall b, block_ok st b ->
    (forall j, 0 <= j < N -> b <> block_of (bview st) bbs (inode_at st n) j) ->
    bview st' b = bview st b).
  { intros b Hb Hne. apply O; [done|]. intros j Hj ->. apply (Hne j Hj).
    apply block_of_head; [done|lia]. }
  assert (Hinodes : forall m, inode_ok st m -> m <> n ->
    (forall j, 0 <= j < N -> fst (inode_pos st m) <> block_of (bview st) bbs (inode_at st n) j) ->
    inode_ok st2 m /\ inode_at st2 m = inode_at st m).
  { intros m Hm Hne Hsep. pose proof (Hfile _ (io_block _ _ Hm) Hsep) as Hbm.
    rewrite <- (inode_at_stable st st' m F Hd' Hbm).
    by eapply (put_inode_other st' st2 n m); [..|exact P];
      [|done|done|apply (inode_ok_stable st)|done|]. }
  destruct P as [F2 C2 N2 O2]. rewrite Hp' in O2. pose proof (fs_frame_trans _ _ _ F F2) as F02.
  assert (Ho : forall b, block_ok st b -> b <> fst (inode_pos st n) -> bview st2 b = bview st' b).
  { intros b Hb. apply O2. by rewrite (fs_frame_block_ok _ _ _ F). }
  destruct (file_blocks_stable st st' (inode_at st n) N F Hfile Hfb) as [Hfb' Hsame].
  assert (Hpaths : forall j b, 0 <= j < N -> b ∈ path (bview st) bbs (inode_at st n) j ->
    bview st2 b = bview st b).
  { intros j b Hj Hb. destruct (path_block _ _ _ _ _ Hfb Hj Hb) as [Hb1 Hb2].
    rewrite Ho; [by apply Hfile|done|]. intros ->. by apply (Hpa j Hj). }
  destruct (file_blocks_paths st st2 (inode_at st n) N F02 Hpaths Hfb) as [Hfb2 Hsame2].
  split; try done; [congruence| | | |].
  - eapply file_blocks_head; [|exact Hfb2]. rewrite (fr_bbs _ _ F02). intros j Hj. apply Heq. lia.
  - intros j Hj. fold bbs. destruct (Heq (bview st2) j (proj1 Hj)) as [-> ->].
    split; [by apply Hsame2|]. apply block_of_stable. intros b. by apply Hpaths.
  - intros k Hkb. pose proof (byte_block k bbs N ltac:(lia) Hkb) as Hq. fold bbs.
    rewrite <- (file_byte_head (bview st) _ h) by (done || lia).
    rewrite <- B by done. rewrite (file_byte_head (bview st') _ h (inode_at st n)) by (done || lia).
    unfold file_byte. rewrite (proj1 (Heq _ _ (proj1 Hq))), Hsame2, Hsame by done.
    destruct (mp_block _ _ _ (fb_mapped _ _ _ Hfb _ Hq)) as [E|Hok].
    { fold bbs in E |- *. by rewrite E. }
    fold bbs in Hok |- *. by rewrite Ho by (done || by apply Ht).
  - intros b Hb Hb1 Hb2. rewrite Ho by done. by apply Hfile.
Qed.

(** None of this depends on where the cache keeps the blocks. *)
Lemma file_blocks_same_fs st st' inode N :
  same_fs st st' -> file_blocks st inode N ->
  file_blocks st' inode N /\
  (forall j, 0 <= j < N -> block_of (bview st') (block_byte_size st) inode j =
                           block_of (bview st) (block_byte_size st) inode j).
Proof.
  intros S Hfb. apply file_blocks_paths; [apply S| |done].
  intros j b Hj Hb. apply S. by apply (path_block _ _ _ _ _ Hfb Hj Hb).
Qed.

Lemma file_ok_same_fs st st' n N : same_fs st st' -> file_ok st n N -> file_ok st' n N.
Proof.
  intros S [Hi Hfb Ht Hd Hp]. destruct (same_fs_inode _ _ _ S Hi) as (Hi' & Ha & Hpos).
  destruct (file_blocks_same_fs _ _ _ _ S Hfb) as [Hfb' Hs].
  pose proof (fr_bbs _ _ (sf_frame _ _ S)) as Eb.
  split; rewrite ?Ha, ?Hpos, ?Eb; try done.
  - intros j Hj. rewrite Hs by done. by apply Ht.
  - intros j Hj. rewrite Hs by done. unfold desc_block. rewrite Eb. by apply Hd.
  - intros j Hj. destruct (block_of_stable (bview st) (bview st') (block_byte_size st) (inode_at st n) j)
      as [_ ->]; [|by apply Hp].
    intros b Hb. apply S. by apply (path_block _ _ _ _ _ Hfb Hj Hb).
Qed.

Lemma overwritten_view st st' st'' n N off d fsize sectors :
  fs_ok st -> inode_ok st n ->
  file_overwritten st st' n N off d fsize sectors -> same_view st' st'' ->
  file_overwritten st st'' n N off d fsize sectors.
Proof.
  intros Hf Hi [O1 O2 O3 O4 O5 O6 OM O7 O8 O9] V. pose proof (view_same_fs _ _ O1 V) as S.
  destruct (same_fs_inode _ _ _ S O3) as (Hi' & Ha & Hpos).
  pose proof (fo_bbs _ Hf).
  assert (Hv : forall b, block_ok st b -> bview st'' b = bview st' b).
  { intros b Hb. apply V. by rewrite (fs_frame_block_ok _ _ _ O2). }
  split; rewrite ?Ha; try done.
  - apply S.
  - eapply fs_frame_trans; [exact O2|apply S].
  - rewrite Hv by apply Hi. done.
  - by apply (file_blocks_same_fs st').
  - intros j Hj. destruct (OM j Hj) as [<- <-]. destruct (file_blocks_same_fs _ _ _ _ S O6) as [_ Hs].
    rewrite (fr_bbs _ _ O2) in Hs. split; [by apply Hs|]. apply block_of_stable.
    intros b Hb. apply S. rewrite <- (fr_bbs _ _ O2) in Hb. by apply (path_block _ _ _ _ _ O6 Hj Hb).
  - intros k Hk. rewrite <- O7 by done. rewrite <- (fr_bbs _ _ O2).
    rewrite <- (fr_bbs _ _ (sf_frame _ _ S)) at 1.
    apply same_fs_byte; [apply S|apply S|]. apply O6.
    rewrite (fr_bbs _ _ O2). apply byte_block; [lia|done].
  - intros b Hb Hb1 Hb2. rewrite Hv by done. by apply O8.
  - intros m Hm Hne Hsep. destruct (O9 m Hm Hne Hsep) as [X1 <-]. split; by apply (same_fs_inode st').
Qed.

Lemma overwritten_from st st1 st' n N off d fsize sectors :
  fs_ok st -> file_ok st n N -> same_fs st st1 ->
  file_overwritten st1 st' n N off d fsize sectors ->
  file_overwritten st st' n N off d fsize sectors.
Proof.
  intros Hf [Hi Hfb _ _ _] S [O1 O2 O3 O4 O5 O6 OM O7 O8 O9]. pose proof (sf_frame _ _ S) as F.
  destruct (same_fs_inode _ _ _ S Hi) as (Hi' & Ha & Hpos). pose proof (fr_bbs _ _ F) as Eb.
  destruct (file_blocks_same_fs _ _ _ _ S Hfb) as [_ Hs]. pose proof (fo_bbs _ Hf).
  assert (Ed : desc_block st1 = desc_block st) by (unfold desc_block; by rewrite Eb).
  rewrite ?Ed, ?Ha, ?Hpos, ?Eb in *.
  split; try done.
  - by eapply fs_frame_trans.
  - rewrite O4. apply S, Hi.
  - intros j Hj. destruct (OM j Hj) as [-> ->]. split; [by apply Hs|]. apply block_of_stable.
    intros b Hb. apply S. by apply (path_block _ _ _ _ _ Hfb Hj Hb).
  - intros k Hk. rewrite O7 by done.
    assert (Hby : file_byte (bview st1) (block_byte_size st) (inode_at st n) k =
                  file_byte (bview st) (block_byte_size st) (inode_at st n) k).
    { rewrite <- Eb at 1. apply same_fs_byte; [done|apply S|]. apply Hfb, byte_block; [lia|done]. }
    by rewrite Hby.
  - intros b Hb Hb1 Hb2. rewrite O8; [by apply S|by rewrite (fs_frame_block_ok _ _ _ F)|done|].
    intros j Hj. rewrite Hs by done. by apply Hb2.
  - intros m Hm Hne Hsep. destruct (same_fs_inode _ _ _ S Hm) as (Hm' & <- & Hpm).
    apply O9; [done|done|]. intros j Hj. rewrite Hpm, Hs by done. by apply Hsep.
Qed.

Lemma file_write_same_map st st' h h' N off d :
  0 < block_byte_size st ->
  (forall v j, 0 <= j ->
    block_of v (block_byte_size st) h j = block_of v (block_byte_size st) h' j) ->
  file_write st st' h N off d -> file_write st st' h' N off d.
Proof.
  intros Hb E [G F C O B]. split; try done.
  - intros b Hok Hne. apply O; [done|]. intros j Hj. rewrite E by lia. by apply Hne.
  - intros k Hk. specialize (B k Hk). unfold file_byte in *.
    assert (0 <= k / block_byte_size st) by (apply Z.div_pos; lia).
    by rewrite !E in B by done.
Qed.

Lemma num_blocks_used_spec st h h' :
  fs_ok st -> ztake sizeof_inode h = h' -> sizeof_inode <= zlen h ->
  num_blocks_used h st =
    Ok (word h' I_num_disk_sectors / (block_byte_size st / SECTOR_SIZE), st).
Proof.
  intros Hf Hh Hz. pose proof (fo_bbs _ Hf). unfold num_blocks_used. msimpl.
  unfold sizeof_inode in Hz. rewrite le32_at_word by (unfold I_num_disk_sectors; lia).
  rewrite lift_bind, (word_head h h') by done. unfold udiv.
  assert (2 <= block_byte_size st / SECTOR_SIZE)
    by (apply Z.div_le_lower_bound; unfold SECTOR_SIZE; lia).
  by destruct (Z.eqb_spec (block_byte_size st / SECTOR_SIZE) 0); [lia|].
Qed.

Lemma block_of_sectors v bbs h sectors i :
  sizeof_inode <= zlen h -> 0 <= i ->
  block_of v bbs (splice h I_num_disk_sectors (le32_bytes sectors)) i = block_of v bbs h i /\
  path v bbs (splice h I_num_disk_sectors (le32_bytes sectors)) i = path v bbs h i.
Proof.
  intros Hz Hi. unfold sizeof_inode in Hz.
  assert (Hw : forall o, 32 <= o <= 104 ->
    word (splice h I_num_disk_sectors (le32_bytes sectors)) o = word h o).
  { intros o Ho. unfold I_num_disk_sectors. apply word_splice_other;
      change (zlen (le32_bytes sectors)) with 4; lia. }
  unfold block_of, path. rewrite !(Hw I_single), !(Hw I_double) by done.
  destruct (Z.ltb_spec i 12); [|done]. by rewrite Hw by (unfold I_block_pointers; lia).
Qed.

(** The second half of [write_inode], from the data to the flush. *)
Lemma store_file st n h data size offset N sectors fsize fuel :
  fs_ok st -> layout_ok st -> superblock_changed st = false -> last_inode_read st = n ->
  file_ok st n N -> ztake sizeof_inode h = inode_at st n -> zlen h = inode_size st ->
  0 <= size <= zlen data -> 0 <= offset -> size < 2 ^ 63 ->
  offset + size <= N * block_byte_size st ->
  (Z.to_nat (size / block_byte_size st) + 3 <= fuel)%nat ->
  wp (w ← inode_write_loop fuel (splice h I_num_disk_sectors (le32_bytes sectors)) data
            (offset / block_byte_size st) size (offset mod block_byte_size st) 0;
      i ← lift (put32 (splice h I_num_disk_sectors (le32_bytes sectors)) I_low_32size (u32 fsize));
      i ← lift (put32 i I_upper_32size (u32 (Z.shiftr fsize 32)));
      ext2_write_inode n i ;; ext2_flush_writes ;; ret w)
    (fun r st' => r = size /\ file_overwritten st st' n N offset (ztake size data) fsize sectors /\
      (forall b, block_ok st b -> on_disk st' b = bview st' b)) st.
Proof.
  intros Hf Hlay Hsb Hl Hk Hh Hz Hsize Hoff Hs63 HN Hfuel. pose proof (fo_bbs _ Hf) as Hb.
  pose proof (fo_isz _ Hf) as Hisz. set (bbs := block_byte_size st) in *.
  set (h1 := splice h _ _).
  assert (Hz1 : zlen h1 = zlen h).
  { unfold h1, I_num_disk_sectors, sizeof_inode in *. apply zlen_splice; [done|].
    change (zlen (le32_bytes sectors)) with 4. lia. }
  assert (Hmap : forall v j, 0 <= j -> block_of v bbs h1 j = block_of v bbs h j /\
    path v bbs h1 j = path v bbs h j) by (intros v j Hj; apply block_of_sectors; lia).
  assert (Hfb1 : file_blocks st h1 N).
  { eapply file_blocks_head; [|exact (fk_blocks _ _ _ Hk)]. intros j Hj. fold bbs.
    destruct (Hmap (bview st) j ltac:(lia)) as [-> ->]. apply block_of_head; [done|lia]. }
  pose proof (Z.mod_pos_bound offset bbs ltac:(lia)). pose proof (Z.div_mod offset bbs ltac:(lia)).
  pose proof (Z.mod_pos_bound size bbs ltac:(lia)). pose proof (Z.div_mod size bbs ltac:(lia)).
  pose proof (Z.div_pos size bbs ltac:(lia) ltac:(lia)).
  wp_use (inode_write_loop_spec fuel st h1 data (offset / bbs) size (offset mod bbs) 0 N) as r st2 [-> W].
  all: try (fold bbs; lia). all: try (fold bbs; nia).
  { apply Hf. }
  { done. }
  fold bbs in W. replace (offset / bbs * bbs + offset mod bbs) with offset in W by lia.
  rewrite slice_from_0 in W.
  assert (W' : file_write st st2 h N offset (ztake size data)).
  { eapply file_write_same_map; [fold bbs; lia| |exact W]. intros v j Hj. by apply Hmap. }
  unfold sizeof_inode in *.
  eapply wp_lift; [apply put32_ok; unfold I_low_32size; lia|].
  eapply wp_lift.
  { apply put32_ok; unfold I_low_32size, I_upper_32size; [lia|].
    rewrite zlen_splice; change (zlen (le32_bytes (u32 fsize))) with 4; lia. }
  change (splice (splice h1 I_low_32size _) I_upper_32size _) with (sized h sectors fsize).
  wp_use (store_header st st2 n h N offset (ztake size data) sectors fsize) as [] st3 O; [done..|].
  assert (Hsb3 : superblock_changed st3 = false) by (by rewrite (fr_changed _ _ (ow_frame _ _ _ _ _ _ _ _ O))).
  destruct (ext2_flush_writes_spec st3) as (st4 & E4 & V4 & D4); [apply O|done|].
  apply wp_bind. eapply wp_ok; [exact E4|]. cbn beta. apply wp_ret. split_and!; [lia| |].
  - eapply overwritten_view; [done|apply Hk|done|done].
  - intros b Hbk. assert (block_ok st3 b) by (by rewrite (fs_frame_block_ok _ _ _ (ow_frame _ _ _ _ _ _ _ _ O))).
    rewrite D4 by done. symmetry. by apply V4.
Qed.

(** Writing a file that has the blocks it needs: all data is stored, the size
    grows if the data ends behind it, and the blocks reach the device. *)
Lemma write_inode_spec st n data size offset fsize N :
  fsize = Z.max (file_size (inode_at st n)) (size + offset) ->
  N = blocks_for fsize (block_byte_size st) ->
  fs_ok st -> layout_ok st -> superblock_changed st = false -> file_ok st n N ->
  word (inode_at st n) I_num_disk_sectors / (block_byte_size st / SECTOR_SIZE) = N ->
  0 <= file_size (inode_at st n) -> fsize < 2 ^ 63 -> 0 <= size <= zlen data -> 0 <= offset ->
  wp (write_inode n data size offset false) (fun r st' => r = size /\
    file_overwritten st st' n N offset (ztake size data) fsize
      (u32 (N * (block_byte_size st / SECTOR_SIZE))) /\
    (forall b, block_ok st b -> on_disk st' b = bview st' b)) st.
Proof.
  intros Efs EN Hf Hlay Hsb Hk Hused Hfs0 Hfs Hsize Hoff. pose proof (fo_bbs _ Hf) as Hb.
  pose proof (fo_isz _ Hf) as Hisz.
  destruct (blocks_for_bound fsize (block_byte_size st)) as (HN1 & HN2 & HN3); [lia..|].
  rewrite <- EN in HN1, HN2, HN3.
  assert (HN : N < 2 ^ 32).
  { destruct (Z.eq_dec N 0); [lia|].
    pose proof (index_u32 st (N - 1) Hf
      (mp_index _ _ _ (fb_mapped _ _ _ (fk_blocks _ _ _ Hk) (N - 1) ltac:(lia)))). lia. }
  unfold write_inode.
  wp_use (get_inode_header_spec st n) as h st1 (Hz & Hh & S1 & Hl1); [done|apply Hk|].
  destruct (same_fs_inode _ _ n S1 (fk_inode _ _ _ Hk)) as (Hi1 & Ha1 & Hp1).
  pose proof (file_ok_same_fs _ _ _ _ S1 Hk) as Hk1. pose proof (sf_frame _ _ S1) as F1.
  pose proof (fr_bbs _ _ F1) as B1.
  eapply wp_lift; [apply (inode_file_size_ok _ _ Hh); lia|]. cbn zeta iota beta.
  wp_simpl. unfold udiv, umod. destruct (Z.eqb_spec (block_byte_size st1) 0); [lia|]. wp_simpl.
  apply wp_bind. eapply wp_ok; [apply (num_blocks_used_spec _ _ _ (sf_ok _ _ S1) Hh); lia|].
  cbn beta. rewrite (u64_small (size + offset)) by lia.
  replace (if file_size (inode_at st n) <? size + offset then size + offset
           else file_size (inode_at st n)) with fsize
    by (destruct (Z.ltb_spec (file_size (inode_at st n)) (size + offset)); lia).
  eapply wp_lift.
  { unfold BLOCKS_REQUIRED, udiv, umod. destruct (Z.eqb_spec (block_byte_size st1) 0); [lia|].
    reflexivity. }
  fold (blocks_for fsize (block_byte_size st1)). rewrite B1, Hused, <- EN, (u32_small N) by lia.
  apply wp_bind. unfold grow_file. rewrite Z.sub_diag. change (u32 0 =? 0) with true.
  apply wp_ret. eapply wp_lift; [apply put32_ok; unfold I_num_disk_sectors, sizeof_inode in *; lia|].
  assert (Hq : 0 <= offset / block_byte_size st <= N).
  { split; [apply Z.div_pos; lia|]. apply Z.div_le_upper_bound; lia. }
  rewrite (u32_small (offset / _)), <- B1 by lia.
  eapply wp_mono; [apply (store_file st1 n h data size offset N); try done; try lia|].
  - apply S1.
  - by apply (same_fs_layout st st1 n); [apply Hk| |].
  - by rewrite (fr_changed _ _ F1).
  - congruence.
  - by rewrite (fr_isz _ _ F1).
  - intros r st' (-> & O & D). split_and!; [done|eapply overwritten_from; [done|done|exact S1|exact O]|].
    intros b Hbk. apply D. by rewrite (fs_frame_block_ok _ _ _ F1).
Qed.
End Writing.

(** ** Files as byte arrays *)

(** A file that shares no block with the first [N] blocks of file [n] nor with
    its inode. *)
Record files_apart (st : ext2) (n N m : Z) : Prop := {
  ap_inode : inode_ok st m;
  ap_other : m <> n;
  ap_table : forall j, 0 <= j < N -> fst (inode_pos st m) <>
    block_of (bview st) (block_byte_size st) (inode_at st n) j;
  ap_mapped : blocks_mapped st (inode_at st m) 0 (file_size (inode_at st m));
  ap_blocks : forall k b, 0 <= k < file_size (inode_at st m) ->
    b ∈ block_of (bview st) (block_byte_size st) (inode_at st m) (k / block_byte_size st) ::
        path (bview st) (block_byte_size st) (inode_at st m) (k / block_byte_size st) ->
    b <> fst (inode_pos st n) /\
    forall j, 0 <= j < N -> b <> block_of (bview st) (block_byte_size st) (inode_at st n) j
}.

Section Files.
Implicit Types st : ext2.

Lemma overwritten_apart st st' n N off d fsize sectors m :
  fs_ok st -> file_overwritten st st' n N off d fsize sectors -> files_apart st n N m ->
  inode_at st' m = inode_at st m /\
  file_range (bview st') (block_byte_size st) (inode_at st' m) 0 (file_size (inode_at st m)) =
  file_range (bview st) (block_byte_size st) (inode_at st m) 0 (file_size (inode_at st m)).
Proof.
  intros Hf O [A1 A2 A3 A4 A5]. destruct (ow_inodes _ _ _ _ _ _ _ _ O m A1 A2 A3) as [_ ->].
  split; [done|]. apply file_range_ext. intros k Hk. rewrite Z.add_0_l in Hk.
  pose proof (A4 k Hk) as M.
  assert (Hb : forall b, b ∈ block_of (bview st) (block_byte_size st) (inode_at st m) (k / block_byte_size st) ::
        path (bview st) (block_byte_size st) (inode_at st m) (k / block_byte_size st) ->
        block_ok st b -> bview st' b = bview st b).
  { intros b Hb Hok. destruct (A5 k b Hk Hb). by apply O. }
  pose proof (mp_path _ _ _ M) as P. rewrite Forall_forall in P.
  destruct (block_of_stable (bview st) (bview st') (block_byte_size st) (inode_at st m)
    (k / block_byte_size st)) as [E _].
  { intros b Hb'. apply Hb; [by right|by apply P]. }
  unfold file_byte. rewrite E. destruct (mp_block _ _ _ M) as [E0|Hok]; [by rewrite E0|].
  rewrite Hb; [done|by left|done].
Qed.

(** C6: reading a file: [read_inode] returns the bytes the block map of the
    inode designates, holes as zeros, cut off at the end of the file, through
    direct, single and double indirect blocks; it terminates, and neither the
    contents of the blocks nor the file system state change. *)
Theorem read_inode_contents st n size offset :
  fs_ok st -> inode_ok st n -> 0 <= file_size (inode_at st n) < 2 ^ 63 ->
  blocks_mapped st (inode_at st n) 0 (file_size (inode_at st n)) ->
  0 <= size < 2 ^ 63 -> 0 <= offset < 2 ^ 63 ->
  exists st', read_inode n size offset st =
    Ok ((file_range (bview st) (block_byte_size st) (inode_at st n) offset
           (Z.min size (Z.max 0 (file_size (inode_at st n) - offset))),
         file_size (inode_at st n)), st') /\ same_fs st st'.
Proof.
  intros Hf Hi Hs Hm H1 H2.
  destruct (read_inode_spec st n size offset Hf Hi Hs Hm H1 H2) as (r & st' & E & -> & S).
  by exists st'.
Qed.

(** C7: writing into the blocks a file has: [write_inode] stores the data and
    nothing else, extends the size when the data ends behind it, leaves every
    file that shares no block with this one as it was, and all blocks are on the
    device when it returns. *)
Theorem write_inode_overwrites st n data size offset fsize N :
  fsize = Z.max (file_size (inode_at st n)) (size + offset) ->
  N = blocks_for fsize (block_byte_size st) ->
  fs_ok st -> layout_ok st -> superblock_changed st = false -> file_ok st n N ->
  word (inode_at st n) I_num_disk_sectors / (block_byte_size st / SECTOR_SIZE) = N ->
  0 <= file_size (inode_at st n) -> fsize < 2 ^ 63 -> 0 <= size <= zlen data -> 0 <= offset ->
  exists st', write_inode n data size offset false st = Ok (size, st') /\
    fs_ok st' /\ layout_ok st' /\ file_size (inode_at st' n) = fsize /\
    (forall k, 0 <= k < fsize ->
      file_byte (bview st') (block_byte_size st) (inode_at st' n) k =
      if (offset <=? k) && (k <? offset + size) then byte_of data (k - offset)
      else file_byte (bview st) (block_byte_size st) (inode_at st n) k) /\
    (forall m, files_apart st n N m ->
      file_range (bview st') (block_byte_size st) (inode_at st' m) 0 (file_size (inode_at st' m)) =
      file_range (bview st) (block_byte_size st) (inode_at st m) 0 (file_size (inode_at st m))) /\
    (forall b, block_ok st b -> on_disk st' b = bview st' b).
Proof.
  intros Efs EN Hf Hlay Hsb Hk Hused Hfs0 Hfs Hsize Hoff.
  destruct (write_inode_spec st n data size offset fsize N)
    as (r & st' & E & -> & O & D); [done..|].
  exists st'. pose proof (fo_bbs _ Hf).
  destruct (blocks_for_bound fsize (block_byte_size st)) as (HN & _ & _); [lia..|]. rewrite <- EN in HN.
  pose proof (zlen_ztake size data Hsize) as Hz.
  split_and!; [done|apply O| | | | |done].
  - eapply layout_ok_stable; [apply O|apply O|done].
  - rewrite (ow_head _ _ _ _ _ _ _ _ O). apply file_size_sized; [|lia].
    rewrite inode_at_len; [done|done|apply Hk].
  - intros k Hkr. rewrite (ow_bytes _ _ _ _ _ _ _ _ O) by lia. rewrite Hz.
    destruct (Z.leb_spec offset k), (Z.ltb_spec k (offset + size)); cbn [andb]; try done.
    apply byte_of_ext, znth_ztake. lia.
  - intros m Hm. destruct (overwritten_apart st st' n N offset _ _ _ m Hf O Hm) as [-> E2]. done.
Qed.

(** A file that has more blocks than its size needs, which truncating leaves
    behind: the number of missing blocks wraps around, and the array for them on
    the stack is larger than memory. *)
Theorem write_shrunk_file_faults st n data size offset :
  fs_ok st -> inode_ok st n -> 0 <= file_size (inode_at st n) -> 0 <= size -> 0 <= offset ->
  Z.max (file_size (inode_at st n)) (size + offset) < 2 ^ 32 ->
  Forall (fits 8) (inode_at st n) ->
  blocks_for (Z.max (file_size (inode_at st n)) (size + offset)) (block_byte_size st) <
    word (inode_at st n) I_num_disk_sectors / (block_byte_size st / SECTOR_SIZE) ->
  write_inode n data size offset false st = Fault.
Proof.
  intros Hf Hi Hfs0 Hs Ho Hfs Hby Hlt. set (fsize := Z.max _ _) in *. pose proof (fo_bbs _ Hf).
  pose proof (fo_isz _ Hf). unfold write_inode.
  destruct (get_inode_header_spec st n Hf Hi) as (h & st1 & E1 & Hz & Hh & S1 & _). mrun E1.
  rewrite (inode_file_size_ok _ _ Hh) by lia. msimpl. cbn zeta iota beta.
  pose proof (fr_bbs _ _ (sf_frame _ _ S1)) as B1.
  unfold udiv, umod. destruct (Z.eqb_spec (block_byte_size st1) 0); [lia|]. msimpl.
  assert (E2 : num_blocks_used h st1 =
    Ok (word (inode_at st n) I_num_disk_sectors / (block_byte_size st / SECTOR_SIZE), st1)).
  { rewrite <- B1. by apply (num_blocks_used_spec _ _ _ (sf_ok _ _ S1) Hh); lia. }
  mrun E2. rewrite (u64_small (size + offset)) by lia.
  replace (if file_size (inode_at st n) <? size + offset then size + offset
           else file_size (inode_at st n)) with fsize
    by (unfold fsize; destruct (Z.ltb_spec (file_size (inode_at st n)) (size + offset)); lia).
  unfold BLOCKS_REQUIRED, udiv, umod. destruct (Z.eqb_spec (block_byte_size st1) 0); [lia|].
  cbn [mbind outcome_bind]. rewrite lift_bind.
  fold (blocks_for fsize (block_byte_size st1)). rewrite B1.
  destruct (blocks_for_bound fsize (block_byte_size st)) as (_ & HN & HN3); [lia..|].
  set (used := word _ _ / _) in *. set (N := blocks_for _ _) in *.
  assert (Hu : used < 2 ^ 31).
  { pose proof (word_fits _ I_num_disk_sectors Hby) as [_ Hw].
    assert (2 <= block_byte_size st / SECTOR_SIZE)
      by (apply Z.div_le_lower_bound; unfold SECTOR_SIZE; lia).
    apply Z.div_lt_upper_bound; lia. }
  rewrite (u32_small N) by lia.
  assert (E3 : grow_file h used N st1 = Fault); [|by unfold mbind, SM_bind; rewrite E3].
  unfold grow_file. assert (Ed : u32 (N - used) = N - used + 2 ^ 32).
  { unfold u32, wrap. rewrite <- (Z.mod_add (N - used) 1) by lia. rewrite Z.mod_small; lia. }
  cbn zeta. rewrite Ed. destruct (Z.eqb_spec (N - used + 2 ^ 32) 0); [lia|].
  unfold stack_array. by destruct (Z.ltb_spec (4 * (N - used + 2 ^ 32)) (2 ^ 32)); [lia|].
Qed.
End Files.

(** ** An example: eight blocks, one group, a file of 1500 bytes *)

Definition ex_inode : list Z :=
  replicate 4 0 ++ le32_bytes 1500 ++ replicate 20 0 ++ le32_bytes 4 ++ replicate 8 0 ++
  le32_bytes 6 ++ le32_bytes 7 ++ replicate 80 0.
Definition ex_desc : list Z :=
  le32_bytes 3 ++ le32_bytes 4 ++ le32_bytes 5 ++ replicate 1012 0.
Definition ex_sb : list Z :=
  le32_bytes 8 ++ le32_bytes 8 ++ replicate 16 0 ++ le32_bytes 0 ++ le32_bytes 0 ++ le32_bytes 8 ++
  le32_bytes 0 ++ le32_bytes 8 ++ replicate 980 0.
Definition ex_fs : ext2 :=
  mkExt2 (replicate 2048 0 ++ ex_desc ++ replicate 2048 0 ++
          (replicate 256 0 ++ ex_inode ++ replicate 640 0) ++ replicate 2048 65)
    (replicate 4 (mkCache false 0 0 (replicate 1024 0) false))
    ex_sb false 1024 128 (-1) [] [] 5 0.

Lemma ex_uncached b : bview ex_fs b = on_disk ex_fs b.
Proof. reflexivity. Qed.

Lemma ex_disk_len : zlen (disk ex_fs) = 8192.
Proof. vm_compute. reflexivity. Qed.

Lemma ex_block b : 0 <= b < 8 -> block_ok ex_fs b.
Proof.
  intros Hb. split; [lia|]. rewrite ex_disk_len. change (block_byte_size ex_fs) with 1024. lia.
Qed.

Lemma ex_fs_ok : fs_ok ex_fs.
Proof.
  split; [|cbn; lia|vm_compute; done|vm_compute; done|by left].
  split; [cbn; lia|rewrite ex_disk_len; lia|done| |].
  - repeat constructor; try done; vm_compute; reflexivity.
  - intros i j e e' Hi Hj He. apply list_elem_of_lookup_2, elem_of_replicate in Hi as [-> _]. done.
Qed.

Lemma ex_pos n : 0 < n <= 8 -> inode_pos ex_fs n = (5, (n - 1) * 128).
Proof.
  intros Hn. assert (n = 1 \/ n = 2 \/ n = 3 \/ n = 4 \/ n = 5 \/ n = 6 \/ n = 7 \/ n = 8) as Hc by lia.
  repeat destruct Hc as [->|Hc]; try subst n; vm_compute; reflexivity.
Qed.

Lemma ex_num_inodes : word (sb_bytes ex_fs) SB_num_inodes = 8.
Proof. vm_compute. reflexivity. Qed.

Lemma ex_inode_ok n : 0 < n <= 8 -> inode_ok ex_fs n.
Proof.
  intros Hn. pose proof (ex_pos n Hn) as Hp.
  assert (Hper : inodes_per_group ex_fs = 8) by (vm_compute; reflexivity).
  split; rewrite ?Hp, ?ex_num_inodes, ?Hper; cbn [fst snd].
  - lia.
  - lia.
  - lia.
  - apply ex_block. cbn. lia.
  - unfold inode_group. rewrite Hper, Z.div_small by lia. cbn. lia.
  - apply ex_block. lia.
  - change (block_byte_size ex_fs) with 1024. change (inode_size ex_fs) with 128. lia.
Qed.

Lemma ex_layout : layout_ok ex_fs.
Proof.
  assert (Hr : forall n, inode_ok ex_fs n -> 0 < n <= 8).
  { intros n Hn. pose proof (io_max _ _ Hn) as Hm. rewrite ex_num_inodes in Hm.
    pose proof (io_n _ _ Hn). lia. }
  split.
  - intros m n Hm%Hr Hn%Hr Hne. rewrite !ex_pos by done. right. cbn [snd].
    change (inode_size ex_fs) with 128. lia.
  - intros n Hn%Hr. rewrite ex_pos by done. change (desc_block ex_fs) with 2. cbn [fst]. lia.
Qed.

Lemma ex_size : file_size (inode_at ex_fs 3) = 1500.
Proof. vm_compute. reflexivity. Qed.

Lemma ex_block_of j : 0 <= j < 2 ->
  block_of (bview ex_fs) (block_byte_size ex_fs) (inode_at ex_fs 3) j = 6 + j /\
  path (bview ex_fs) (block_byte_size ex_fs) (inode_at ex_fs 3) j = [].
Proof. intros Hj. assert (j = 0 \/ j = 1) as [->| ->] by lia; split; vm_compute; reflexivity. Qed.

Lemma ex_file_ok : file_ok ex_fs 3 2.
Proof.
  assert (Hb : forall j, 0 <= j < 2 ->
    block_of (bview ex_fs) (block_byte_size ex_fs) (inode_at ex_fs 3) j = 6 + j) by apply ex_block_of.
  assert (Hp : forall j, 0 <= j < 2 ->
    path (bview ex_fs) (block_byte_size ex_fs) (inode_at ex_fs 3) j = []) by apply ex_block_of.
  split; [by apply ex_inode_ok| | | |].
  - split.
    + intros j Hj. split; [|by rewrite Hp|cbn zeta; rewrite Hb by done; right; apply ex_block; lia].
      split; [lia|left]. change (block_byte_size ex_fs / 4) with 256. lia.
    + intros j Hj. rewrite Hb by done. lia.
    + intros i j Hi Hj. rewrite !Hb by done. lia.
    + intros i j Hi Hj. rewrite Hp by done. apply not_elem_of_nil.
  - intros j Hj. rewrite Hb, ex_pos by done. cbn [fst]. lia.
  - intros j Hj. rewrite Hb by done. change (desc_block ex_fs) with 2. lia.
  - intros j Hj. rewrite Hp by done. apply not_elem_of_nil.
Qed.

Lemma ex_mapped : blocks_mapped ex_fs (inode_at ex_fs 3) 0 (file_size (inode_at ex_fs 3)).
Proof.
  rewrite ex_size. intros k Hk. apply (fb_mapped _ _ _ (fk_blocks _ _ _ ex_file_ok)).
  apply byte_block; [done|]. change (block_byte_size ex_fs) with 1024. lia.
Qed.

Lemma ex_size_range : 0 <= file_size (inode_at ex_fs 3) < 2 ^ 63.
Proof. rewrite ex_size. lia. Qed.

Lemma read_inode_contents_witness :
  exists st', read_inode 3 2000 1000 ex_fs =
    Ok ((file_range (bview ex_fs) (block_byte_size ex_fs) (inode_at ex_fs 3) 1000
           (Z.min 2000 (Z.max 0 (file_size (inode_at ex_fs 3) - 1000))),
         file_size (inode_at ex_fs 3)), st') /\ same_fs ex_fs st'.
Proof.
  assert (H3 : inode_ok ex_fs 3) by (apply ex_inode_ok; lia).
  refine (read_inode_contents ex_fs 3 2000 1000 ex_fs_ok H3 ex_size_range ex_mapped _ _); lia.
Defined.

Definition ex_data : list Z := replicate 600 66.

Lemma ex_fsize : 1600 = Z.max (file_size (inode_at ex_fs 3)) (600 + 1000).
Proof. rewrite ex_size. reflexivity. Qed.
Lemma ex_blocks : 2 = blocks_for 1600 (block_byte_size ex_fs).
Proof. reflexivity. Qed.
Lemma ex_used : word (inode_at ex_fs 3) I_num_disk_sectors / (block_byte_size ex_fs / SECTOR_SIZE) = 2.
Proof. vm_compute. reflexivity. Qed.
Lemma ex_data_len : 0 <= 600 <= zlen ex_data.
Proof. split; [done|]. vm_compute. discriminate. Qed.

Lemma write_inode_overwrites_witness :
  exists st', write_inode 3 ex_data 600 1000 false ex_fs = Ok (600, st') /\
    fs_ok st' /\ layout_ok st' /\ file_size (inode_at st' 3) = 1600 /\
    (forall k, 0 <= k < 1600 ->
      file_byte (bview st') (block_byte_size ex_fs) (inode_at st' 3) k =
      if (1000 <=? k) && (k <? 1000 + 600) then byte_of ex_data (k - 1000)
      else file_byte (bview ex_fs) (block_byte_size ex_fs) (inode_at ex_fs 3) k) /\
    (forall m, files_apart ex_fs 3 2 m ->
      file_range (bview st') (block_byte_size ex_fs) (inode_at st' m) 0 (file_size (inode_at st' m)) =
      file_range (bview ex_fs) (block_byte_size ex_fs) (inode_at ex_fs m) 0 (file_size (inode_at ex_fs m))) /\
    (forall b, block_ok ex_fs b -> on_disk st' b = bview st' b).
Proof.
  refine (write_inode_overwrites ex_fs 3 ex_data 600 1000 1600 2 ex_fsize ex_blocks ex_fs_ok ex_layout
    eq_refl ex_file_ok ex_used (proj1 ex_size_range) _ ex_data_len _); lia.
Defined.
