(* ===== verification/Ext2Alloc.v ===== *)
(** kernel/fs/ext2.c: the block and inode bitmaps.  What the searches of
    [get_free_blocks] and [get_free_inode] find, and that a block that was handed
    out is not handed out again. *)

From stdpp Require Import base numbers list gmap.
From Stdlib Require Import ZArith Lia.
From S2P Require Import Prelude StateM Bytes Bitmap Ext2Cache Ext2 Ext2Inode.

Open Scope Z_scope.

(** ** One byte *)

Lemma scan_bits_spec k byte offset want byte' found :
  scan_bits k byte offset want = (byte', found) -> 0 <= offset -> offset + Z.of_nat k <= 8 ->
  fits 8 byte ->
  fits 8 byte' /\ NoDup found /\ zlen found <= Z.max 0 want /\
  (forall o, o ∈ found -> offset <= o < offset + Z.of_nat k /\ Z.testbit byte o = false) /\
  (forall o, 0 <= o -> Z.testbit byte' o = Z.testbit byte o || bool_decide (o ∈ found)) /\
  (zlen found < want -> forall o, offset <= o < offset + Z.of_nat k -> Z.testbit byte' o = true).
Proof.
  revert byte offset want byte' found.
  induction k as [|k IH]; intros byte offset want byte' found Hs Ho Hk Hb; cbn [scan_bits] in Hs.
  { injection Hs as <- <-. split_and!; [done|apply NoDup_nil_2|change (zlen (@nil Z)) with 0; lia| | |].
    - intros o Ho'. by apply not_elem_of_nil in Ho'.
    - intros o _. by rewrite orb_false_r.
    - intros _ o Ho'. lia. }
  destruct (Z.leb_spec want 0).
  { injection Hs as <- <-. split_and!; [done|apply NoDup_nil_2|change (zlen (@nil Z)) with 0; lia| | |].
    - intros o Ho'. by apply not_elem_of_nil in Ho'.
    - intros o _. by rewrite orb_false_r.
    - change (zlen (@nil Z)) with 0. lia. }
  rewrite is_set_shiftl in Hs by done. destruct (Z.testbit byte offset) eqn:Hbit.
  - destruct (IH _ _ _ _ _ Hs) as (H1 & H2 & H3 & H4 & H5 & H6); [lia|lia|done|].
    split_and!; try done.
    + intros o Ho'. destruct (H4 o Ho'). split; [lia|done].
    + intros Hlt o Hor. destruct (decide (o = offset)) as [->|]; [by rewrite H5, Hbit by done|].
      apply H6; [done|lia].
  - destruct (scan_bits k (Z.lor byte (Z.shiftl 1 offset)) (offset + 1) (want - 1)) as [b1 f1] eqn:E.
    injection Hs as <- <-.
    assert (Hb1 : fits 8 (Z.lor byte (Z.shiftl 1 offset))).
    { rewrite shiftl_1 by done. apply fits_set_bit; [lia|done]. }
    destruct (IH _ _ _ _ _ E) as (H1 & H2 & H3 & H4 & H5 & H6); [lia|lia|done|].
    assert (Hnew : offset ∉ f1) by (intros Hin; destruct (H4 _ Hin); lia).
    split_and!; try done.
    + by constructor.
    + unfold zlen in *. cbn [length]. lia.
    + intros o [->|Hin]%elem_of_cons; [split; [lia|done]|]. destruct (H4 _ Hin) as [Hr Ht].
      split; [lia|]. rewrite set_bit_view in Ht by done.
      destruct (Z.eqb_spec o offset); [done|done].
    + intros o Ho'. rewrite H5 by done. rewrite set_bit_view by done.
      destruct (Z.eqb_spec o offset) as [->|Hne].
      * cbn [orb]. rewrite bool_decide_true; [by rewrite orb_true_r|by left].
      * f_equal. apply bool_decide_ext. rewrite elem_of_cons.
        split; [by right|by intros [?|?]].
    + intros Hlt o Hor. destruct (decide (o = offset)) as [->|].
      * rewrite H5 by done. rewrite set_bit_view, Z.eqb_refl by done. done.
      * apply H6; [|lia]. unfold zlen in *. cbn [length] in Hlt. lia.
Qed.

(** ** The bytes of a bitmap *)

Lemma scan_bytes_spec bitmap index want bitmap' found :
  scan_bytes bitmap index want = (bitmap', found) -> Forall (fits 8) bitmap ->
  Forall (fits 8) bitmap' /\ zlen bitmap' = zlen bitmap /\
  NoDup found /\ zlen found <= Z.max 0 want /\
  (forall f, f ∈ found -> 0 <= f - 8 * index < 8 * zlen bitmap /\
     bit_at 8 bitmap (f - 8 * index) = false) /\
  (forall j, 0 <= j -> bit_at 8 bitmap' j = bit_at 8 bitmap j || bool_decide (8 * index + j ∈ found)) /\
  (zlen found < want -> forall j, 0 <= j < 8 * zlen bitmap -> bit_at 8 bitmap' j = true).
Proof.
  revert index want bitmap' found.
  induction bitmap as [|b rest IH]; intros index want bitmap' found Hs Hf; cbn [scan_bytes] in Hs.
  { injection Hs as <- <-.
    split_and!; [done|done|apply NoDup_nil_2|change (zlen (@nil Z)) with 0; lia| | |].
    - intros f Hin. by apply not_elem_of_nil in Hin.
    - intros j _. by rewrite orb_false_r.
    - intros _ j Hj. change (zlen (@nil Z)) with 0 in Hj. lia. }
  pose proof Hf as [Hb Hrest]%Forall_cons.
  assert (Hz : forall l : list Z, zlen (b :: l) = 1 + zlen l) by (intros; unfold zlen; cbn [length]; lia).
  pose proof (zlen_nonneg rest) as Hzr.
  destruct (Z.leb_spec want 0).
  { injection Hs as <- <-.
    split_and!; [done|done|apply NoDup_nil_2|change (zlen (@nil Z)) with 0; lia| | |].
    - intros f Hin. by apply not_elem_of_nil in Hin.
    - intros j _. by rewrite orb_false_r.
    - change (zlen (@nil Z)) with 0. lia. }
  (* what the first byte contributes, in both cases *)
  assert (Hstep : exists b' here rest' tl,
    bitmap' = b' :: rest' /\ found = ((fun o => index * 8 + o) <$> here) ++ tl /\
    scan_bytes rest (index + 1) (want - zlen here) = (rest', tl) /\
    fits 8 b' /\ NoDup here /\ zlen here <= want /\
    (forall o, o ∈ here -> 0 <= o < 8 /\ Z.testbit b o = false) /\
    (forall o, 0 <= o -> Z.testbit b' o = Z.testbit b o || bool_decide (o ∈ here)) /\
    (zlen here < want -> forall o, 0 <= o < 8 -> Z.testbit b' o = true)).
  { destruct (Z.eqb_spec b 255) as [->|Hne].
    - destruct (scan_bytes rest (index + 1) want) as [r f] eqn:E. injection Hs as <- <-.
      exists 255, [], r, f. rewrite Z.sub_0_r.
      split_and!; [done..|apply NoDup_nil_2|change (zlen (@nil Z)) with 0; lia| | |].
      + intros o Ho. by apply not_elem_of_nil in Ho.
      + intros o _. by rewrite orb_false_r.
      + intros _ o Ho. apply (ones_bits 8). lia.
    - destruct (scan_bits 8 b 0 want) as [b1 here] eqn:E1.
      destruct (scan_bytes rest (index + 1) (want - zlen here)) as [r f] eqn:E2.
      injection Hs as <- <-.
      destruct (scan_bits_spec _ _ _ _ _ _ E1) as (H1 & H2 & H3 & H4 & H5 & H6); [lia|lia|done|].
      exists b1, here, r, f. split_and!; try done. lia. }
  destruct Hstep as (b' & here & rest' & tl & -> & -> & E & G1 & G2 & G3 & G4 & G5 & G6).
  destruct (IH _ _ _ _ E Hrest) as (R1 & R2 & R3 & R4 & R5 & R6 & R7).
  assert (Hzb : zlen (b' :: rest') = 1 + zlen rest) by (unfold zlen in *; cbn [length]; lia).
  assert (Hin : forall f, f ∈ ((fun o => index * 8 + o) <$> here) <-> f - 8 * index ∈ here).
  { intros f. rewrite list_elem_of_fmap. split.
    - intros (o & -> & Ho). by replace (index * 8 + o - 8 * index) with o by lia.
    - intros Ho. exists (f - 8 * index). split; [lia|done]. }
  split_and!.
  - by constructor.
  - rewrite Hz. done.
  - apply NoDup_app. split_and!; [|intros f Hf1%Hin Hf2|done].
    + apply NoDup_fmap_2; [|done]. intros x y Hxy. lia.
    + destruct (G4 _ Hf1), (R5 _ Hf2). lia.
  - rewrite zlen_app. unfold zlen in *. rewrite length_fmap. lia.
  - intros f [Hf1%Hin|Hf2]%elem_of_app; rewrite Hz.
    + destruct (G4 _ Hf1) as [Hr Ht]. split; [lia|]. rewrite bit_at_cons by lia.
      destruct (Z.ltb_spec (f - 8 * index) 8); [done|lia].
    + destruct (R5 _ Hf2) as [Hr Ht]. split; [lia|]. rewrite bit_at_cons by lia.
      destruct (Z.ltb_spec (f - 8 * index) 8); [lia|].
      by replace (f - 8 * index - 8) with (f - 8 * (index + 1)) by lia.
  - intros j Hj. rewrite !bit_at_cons by lia. destruct (Z.ltb_spec j 8).
    + rewrite G5 by done. f_equal. apply bool_decide_ext. rewrite elem_of_app, Hin.
      replace (8 * index + j - 8 * index) with j by lia. split; [by left|].
      intros [?|Ht]; [done|]. destruct (R5 _ Ht). lia.
    + rewrite R6 by lia. f_equal. apply bool_decide_ext. rewrite elem_of_app, Hin.
      replace (8 * (index + 1) + (j - 8)) with (8 * index + j) by lia. split; [by right|].
      intros [Ht|?]; [|done]. destruct (G4 _ Ht). lia.
  - intros Hlt j Hj. rewrite zlen_app in Hlt. rewrite Hz in Hj.
    assert (Hl : zlen ((fun o => index * 8 + o) <$> here) = zlen here) by (unfold zlen; by rewrite length_fmap).
    pose proof (zlen_nonneg here). pose proof (zlen_nonneg tl).
    rewrite bit_at_cons by lia. destruct (Z.ltb_spec j 8); [apply G6; lia|apply R7; lia].
Qed.

(** A search that finds nothing changes nothing. *)
Lemma scan_bytes_none bitmap index want bitmap' :
  scan_bytes bitmap index want = (bitmap', []) -> bitmap = bitmap'.
Proof.
  revert index want bitmap'. induction bitmap as [|b rest IH]; intros index want bitmap' Hs;
    cbn [scan_bytes] in Hs; [by injection Hs|].
  destruct (want <=? 0); [by injection Hs|]. destruct (b =? 255).
  - destruct (scan_bytes rest (index + 1) want) as [r f] eqn:E. injection Hs as <- ->.
    f_equal. by eapply IH.
  - destruct (scan_bits 8 b 0 want) as [b1 here] eqn:E1.
    destruct (scan_bytes rest (index + 1) (want - zlen here)) as [r f] eqn:E2.
    injection Hs as <- Hnil. apply app_eq_nil in Hnil as [Hh ->]. apply fmap_nil_inv in Hh as ->.
    f_equal; [|by eapply IH].
    clear -E1. revert E1. generalize 0 at 1. generalize 8%nat. intros k. revert b.
    induction k as [|k IHk]; intros b o E1; cbn [scan_bits] in E1; [by injection E1|].
    destruct (want <=? 0); [by injection E1|]. destruct (is_set b (Z.shiftl 1 o)); [by eapply IHk|].
    destruct (scan_bits k _ _ _); by injection E1.
Qed.

(** ** The groups *)

Section Groups.
Implicit Types st : ext2.

Definition blocks_per_group st : Z := word (sb_bytes st) SB_num_blocks_in_group.
Definition bitmap_block st (g : Z) : Z := word (bview st (desc_block st)) (g * 32).

(** The counter of free blocks in the descriptor of a group. *)
Definition free_in_group st (g : Z) : Z :=
  half (bview st (desc_block st)) (g * 32 + BG_num_unallocated_blocks).

(** The bit of a block in the bitmap of its group. *)
Definition block_used st (b : Z) : bool :=
  bit_at 8 (bview st (bitmap_block st (b / blocks_per_group st))) (b mod blocks_per_group st).

(** [G] groups whose bitmaps are blocks of their own. *)
Record groups_ok st (G : Z) : Prop := {
  go_cache : cache_inv st;
  go_bbs : 1024 <= block_byte_size st <= 65536;
  go_sb : zlen (sb_bytes st) = 1024;
  go_count : num_block_groups st = Ok (G, st);
  go_per : 0 < blocks_per_group st;
  go_mod : blocks_per_group st mod 8 = 0;
  go_fits : blocks_per_group st / 8 <= block_byte_size st;
  go_max : G * blocks_per_group st < 2 ^ 32;
  go_desc : block_ok st (desc_block st);
  go_room : G * 32 <= block_byte_size st;
  go_bitmap : forall g, 0 <= g < G -> block_ok st (bitmap_block st g) /\
    bitmap_block st g <> desc_block st /\ Forall (fits 8) (bview st (bitmap_block st g));
  go_inj : forall g h, 0 <= g < G -> 0 <= h < G -> bitmap_block st g = bitmap_block st h -> g = h
}.

(** What allocating leaves as it was. *)
Record alloc_frame st st' (G : Z) : Prop := {
  af_bbs : block_byte_size st' = block_byte_size st;
  af_isz : inode_size st' = inode_size st;
  af_files : files st' = files st;
  af_last : last_inode_read st' = last_inode_read st /\ last_inode st' = last_inode st;
  af_len : zlen (disk st') = zlen (disk st);
  af_sb : zlen (sb_bytes st') = zlen (sb_bytes st);
  af_fields : forall o, 0 <= o -> o + 4 <= 1024 ->
    o + 4 <= SB_num_blocks_unallocated \/ SB_num_blocks_unallocated + 4 <= o ->
    word (sb_bytes st') o = word (sb_bytes st) o;
  af_pointers : forall g o, 0 <= g < G -> 0 <= o <= 8 ->
    word (bview st' (desc_block st)) (g * 32 + o) = word (bview st (desc_block st)) (g * 32 + o);
  af_blocks : forall b, block_ok st b -> b <> desc_block st ->
    (forall g, 0 <= g < G -> b <> bitmap_block st g) -> bview st' b = bview st b
}.

Lemma alloc_frame_refl st G : alloc_frame st st G.
Proof. by split. Qed.

Lemma alloc_desc st st' G : alloc_frame st st' G -> desc_block st' = desc_block st.
Proof. intros F. unfold desc_block. by rewrite (af_bbs _ _ _ F). Qed.

Lemma alloc_bitmap st st' G g :
  alloc_frame st st' G -> 0 <= g < G -> bitmap_block st' g = bitmap_block st g.
Proof.
  intros F Hg. unfold bitmap_block. rewrite (alloc_desc _ _ _ F).
  rewrite <- (Z.add_0_r (g * 32)). by apply F.
Qed.

Lemma alloc_per st st' G : alloc_frame st st' G -> blocks_per_group st' = blocks_per_group st.
Proof. intros F. apply (af_fields _ _ _ F); [done|done|by right]. Qed.

Lemma alloc_block_ok st st' G b : alloc_frame st st' G -> block_ok st' b <-> block_ok st b.
Proof. intros F. unfold block_ok. by rewrite (af_bbs _ _ _ F), (af_len _ _ _ F). Qed.

Lemma alloc_frame_trans st1 st2 st3 G :
  groups_ok st1 G -> alloc_frame st1 st2 G -> alloc_frame st2 st3 G -> alloc_frame st1 st3 G.
Proof.
  intros Hg F1 F2. pose proof (alloc_desc _ _ _ F1) as Ed.
  pose proof F1 as [A1 A2 A3 [A4 A5] A6 A7 A8 A9 A10].
  pose proof F2 as [B1 B2 B3 [B4 B5] B6 B7 B8 B9 B10]. rewrite Ed in *.
  split; try congruence; [by rewrite B4, B5|..].
  - intros o H1 H2 H3. rewrite B8, A8 by done. done.
  - intros g o Hgg Ho. rewrite B9, A9 by done. done.
  - intros b Hb Hd Hne. rewrite B10; [by apply A10|by rewrite (alloc_block_ok st1 st2 G)|done|].
    intros g Hgg. rewrite (alloc_bitmap st1 st2 G) by done. by apply Hne.
Qed.

(** The number of groups is a matter of fields that stay. *)
Lemma num_block_groups_fields st :
  zlen (sb_bytes st) = 1024 ->
  num_block_groups st =
    (b ← BLOCKS_REQUIRED (word (sb_bytes st) SB_num_blocks) (word (sb_bytes st) SB_num_blocks_in_group);
     i ← BLOCKS_REQUIRED (word (sb_bytes st) SB_num_inodes) (word (sb_bytes st) SB_num_inodes_in_group);
     c_assert (i =? b) ;; Ok (i, st)).
Proof.
  intros Hz. unfold num_block_groups.
  mrun (sb_field_spec st SB_num_blocks Hz ltac:(done) ltac:(done)).
  mrun (sb_field_spec st SB_num_blocks_in_group Hz ltac:(done) ltac:(done)).
  destruct (BLOCKS_REQUIRED (word (sb_bytes st) SB_num_blocks) _) as [b| | |]; try done.
  rewrite lift_bind.
  mrun (sb_field_spec st SB_num_inodes Hz ltac:(done) ltac:(done)).
  mrun (sb_field_spec st SB_num_inodes_in_group Hz ltac:(done) ltac:(done)).
  cbn [mbind outcome_bind].
  destruct (BLOCKS_REQUIRED (word (sb_bytes st) SB_num_inodes) _) as [i| | |]; try done.
  rewrite lift_bind. unfold m_assert. cbn [mbind outcome_bind]. destruct (i =? b); reflexivity.
Qed.

Lemma num_groups_frame st st' G :
  groups_ok st G -> alloc_frame st st' G -> num_block_groups st' = Ok (G, st').
Proof.
  intros Hg F. pose proof (go_count _ _ Hg) as Hc. pose proof (go_sb _ _ Hg) as Hz.
  rewrite num_block_groups_fields in Hc by done.
  rewrite num_block_groups_fields by (by rewrite (af_sb _ _ _ F)).
  rewrite !(af_fields _ _ _ F) by (first [by vm_compute|by left|by right]).
  destruct (BLOCKS_REQUIRED (word (sb_bytes st) SB_num_blocks) _) as [b| | |]; try done.
  destruct (BLOCKS_REQUIRED (word (sb_bytes st) SB_num_inodes) _) as [i| | |]; try done.
  cbn [mbind outcome_bind] in *. destruct (i =? b); [|done]. by injection Hc as ->.
Qed.

Lemma groups_ok_frame st st' G :
  groups_ok st G -> alloc_frame st st' G -> cache_inv st' ->
  (forall g, 0 <= g < G -> Forall (fits 8) (bview st' (bitmap_block st g))) -> groups_ok st' G.
Proof.
  intros Hg F Hc Hb. pose proof Hg as [A1 A2 A3 A4 A5 A6 A7 A8 A9 A10 A11 A12].
  pose proof (num_groups_frame _ _ _ Hg F) as Hn. pose proof (alloc_per _ _ _ F) as Ep.
  pose proof (alloc_desc _ _ _ F) as Ed.
  split; rewrite ?(af_bbs _ _ _ F), ?(af_sb _ _ _ F), ?Ep, ?Ed, ?(alloc_block_ok _ _ _ _ F); try done.
  - intros g Hgg. rewrite (alloc_bitmap st st' G) by done. rewrite (alloc_block_ok _ _ _ _ F).
    destruct (A11 g Hgg) as (B1 & B2 & _). split_and!; [done|done|by apply Hb].
  - intros g h Hgg Hhh. rewrite !(alloc_bitmap st st' G) by done. by apply A12.
Qed.

Lemma globals_last st st' :
  same_globals st st' ->
  files st' = files st /\ last_inode_read st' = last_inode_read st /\ last_inode st' = last_inode st.
Proof. intros G. by rewrite G. Qed.

(** A bitmap block changed. *)
Lemma bitmap_frame st st' G g c :
  groups_ok st G -> 0 <= g < G -> same_globals st st' -> put_block st st' (bitmap_block st g) c ->
  alloc_frame st st' G.
Proof.
  intros Hg Hgg Hs [F C N O]. destruct (globals_last _ _ Hs) as (L1 & L2 & L3).
  destruct (go_bitmap _ _ Hg g Hgg) as (B1 & B2 & _).
  assert (Hd : bview st' (desc_block st) = bview st (desc_block st)) by (apply O; [apply Hg|done]).
  split; try apply F; try done; try by split. { by rewrite (fr_sb _ _ F). }
  - intros o _ _ _. by rewrite (fr_sb _ _ F).
  - intros h o _ _. by rewrite Hd.
  - intros b Hb _ Hne. apply O; [done|]. by apply Hne.
Qed.

(** The counter in a descriptor changed. *)
Lemma descriptor_frame st st' G g v :
  groups_ok st G -> 0 <= g < G -> same_globals st st' ->
  put_block st st' (desc_block st)
    (splice (bview st (desc_block st)) (g * 32)
       (splice (slice (g * 32) 32 (bview st (desc_block st))) BG_num_unallocated_blocks (le16_bytes v))) ->
  alloc_frame st st' G.
Proof.
  intros Hg Hgg Hs [F C N O]. destruct (globals_last _ _ Hs) as (L1 & L2 & L3).
  pose proof (go_room _ _ Hg) as Hr.
  pose proof (bview_len _ _ (go_cache _ _ Hg) (go_desc _ _ Hg)) as Hl.
  assert (Hz : zlen (slice (g * 32) 32 (bview st (desc_block st))) = 32) by (apply zlen_slice; lia).
  assert (H2 : zlen (le16_bytes v) = 2) by done.
  assert (Hz2 : zlen (splice (slice (g * 32) 32 (bview st (desc_block st))) BG_num_unallocated_blocks
    (le16_bytes v)) = 32) by (rewrite zlen_splice; unfold BG_num_unallocated_blocks; lia).
  split; try apply F; try done; try by split. { by rewrite (fr_sb _ _ F). }
  - intros o _ _ _. by rewrite (fr_sb _ _ F).
  - intros h o Hh Ho. rewrite N. destruct (decide (h = g)) as [->|Hne].
    + apply word_ext. intros k Hk. rewrite znth_splice by lia. rewrite Hz2.
      destruct (Z.leb_spec (g * 32) (g * 32 + o + k)),
        (Z.ltb_spec (g * 32 + o + k) (g * 32 + 32)); try lia. cbn [andb].
      rewrite znth_splice by (unfold BG_num_unallocated_blocks; lia). rewrite H2.
      unfold BG_num_unallocated_blocks.
      destruct (Z.leb_spec 12 (g * 32 + o + k - g * 32)); [lia|]. cbn [andb].
      rewrite znth_slice by lia. f_equal. lia.
    + apply word_splice_other; lia.
  - intros b Hb Hd _. by apply O.
Qed.

Lemma superblock_frame st G v c :
  groups_ok st G ->
  alloc_frame st (set_superblock (splice (sb_bytes st) SB_num_blocks_unallocated (le32_bytes v)) c st) G.
Proof.
  intros Hg. pose proof (go_sb _ _ Hg) as Hz. assert (H4 : zlen (le32_bytes v) = 4) by done.
  split; try done; cbn [sb_bytes set_superblock]; unfold SB_num_blocks_unallocated.
  - apply zlen_splice; lia.
  - intros o H1 H2 H3. apply word_splice_other; lia.
Qed.

Lemma cache_inv_sb st b c : cache_inv st -> cache_inv (set_superblock b c st).
Proof.
  intros [B D S F U]. split; try done. eapply Forall_impl; [exact F|].
  intros e [E1 E2 E3]. by split.
Qed.

(** Bits of a bitmap stored at the front of a block. *)
Lemma bit_at_prefix blk n j : 0 <= j < 8 * n -> bit_at 8 (slice 0 n blk) j = bit_at 8 blk j.
Proof.
  intros Hj. unfold bit_at. assert (Hq : 0 <= j / 8 < n).
  { split; [apply Z.div_pos; lia|]. apply Z.div_lt_upper_bound; lia. }
  by rewrite znth_slice by lia.
Qed.

Lemma bit_at_splice blk bm j :
  zlen bm <= zlen blk -> 0 <= j < 8 * zlen bm -> bit_at 8 (splice blk 0 bm) j = bit_at 8 bm j.
Proof.
  intros Hz Hj. unfold bit_at. assert (Hq : 0 <= j / 8 < zlen bm).
  { split; [apply Z.div_pos; lia|]. apply Z.div_lt_upper_bound; lia. }
  rewrite znth_splice by lia. rewrite Z.sub_0_r.
  by destruct (Z.leb_spec 0 (j / 8)), (Z.ltb_spec (j / 8) (0 + zlen bm)); try lia.
Qed.

Lemma put16_ok l off v :
  0 <= off -> off + 2 <= zlen l -> put16 l off v = Ok (splice l off (le16_bytes v)).
Proof.
  intros. unfold put16. assert (Hz : zlen (le16_bytes v) = 2) by done. by rewrite memcpy_at_ok by lia.
Qed.

(** The stores of [get_free_blocks] for a group it took blocks of. *)
Definition take_group st (g left : Z) (bitmap : list Z) : E unit :=
  ext2_write_block (bitmap_block st g) bitmap (blocks_per_group st / 8) 0 ;;
  block_group ← lift (put16 (slice (g * 32) 32 (bview st (desc_block st)))
                        BG_num_unallocated_blocks (u16 (left - 1)));
  write_group_descriptor g block_group ;;
  free ← sb_field SB_num_blocks_unallocated;
  sb_store SB_num_blocks_unallocated (free - 1) ;;
  sb_mark.

Lemma take_group_stores st G g left bitmap :
  groups_ok st G -> 0 <= g < G -> zlen bitmap = blocks_per_group st / 8 -> Forall (fits 8) bitmap ->
  wp (take_group st g left bitmap) (fun _ st' => groups_ok st' G /\ alloc_frame st st' G /\
    bview st' (bitmap_block st g) = splice (bview st (bitmap_block st g)) 0 bitmap /\
    forall h, 0 <= h < G -> h <> g ->
      bview st' (bitmap_block st h) = bview st (bitmap_block st h) /\
      free_in_group st' h = free_in_group st h) st.
Proof.
  intros Hg Hgg Hz Hby. unfold take_group. pose proof (go_per _ _ Hg). pose proof (go_bbs _ _ Hg).
  destruct (go_bitmap _ _ Hg g Hgg) as (B1 & B2 & B3). pose proof (go_room _ _ Hg).
  assert (0 <= blocks_per_group st / 8) by (apply Z.div_pos; lia). pose proof (go_fits _ _ Hg).
  wp_use (write_block_put st) as [] st1 [S1 P1]; [apply Hg|done|lia|lia|lia|].
  rewrite ztake_all in P1 by done.
  pose proof (bitmap_frame _ _ _ _ _ Hg Hgg S1 P1) as F1. destruct P1 as [F1' C1 N1 O1].
  assert (Hoth1 : forall h, 0 <= h < G -> h <> g -> bview st1 (bitmap_block st h) = bview st (bitmap_block st h)).
  { intros h Hh Hne. apply O1; [by apply Hg|]. intros Heq. by apply Hne, (go_inj _ _ Hg). }
  assert (Hg1 : groups_ok st1 G).
  { apply (groups_ok_frame st); [done..|]. intros h Hh. destruct (decide (h = g)) as [->|Hne].
    - rewrite N1. by apply splice_fits.
    - rewrite Hoth1 by done. by apply Hg. }
  assert (Hd1 : bview st1 (desc_block st) = bview st (desc_block st)) by (apply O1; [apply Hg|done]).
  assert (Hdz : zlen (slice (g * 32) 32 (bview st (desc_block st))) = 32).
  { apply zlen_slice; [lia..|]. rewrite bview_len by apply Hg. lia. }
  eapply wp_lift; [apply put16_ok; unfold BG_num_unallocated_blocks; lia|].
  set (bg := splice _ _ _).
  assert (Hbg : zlen bg = 32).
  { unfold bg, BG_num_unallocated_blocks. rewrite zlen_splice; [done|lia|]. change (zlen (le16_bytes _)) with 2. lia. }
  assert (Hw2 : wp (write_group_descriptor g bg) (fun _ st2 => same_globals st1 st2 /\
    put_block st1 st2 (desc_block st1) (splice (bview st1 (desc_block st1)) (g * 32) bg)) st1).
  { unfold write_group_descriptor, descriptor_block. rewrite u32_small by lia.
    pose proof (write_block_put st1 (desc_block st1) bg 32 (g * 32)) as Hx.
    rewrite (ztake_all 32 bg) in Hx by done. apply Hx; [done|apply Hg1|lia|lia|].
    rewrite (af_bbs _ _ _ F1). lia. }
  wp_use Hw2 as [] st2 [S2 P2]. unfold bg in P2. rewrite <- Hd1, <- (alloc_desc _ _ _ F1) in P2.
  pose proof (descriptor_frame _ _ _ _ _ Hg1 Hgg S2 P2) as F2. destruct P2 as [F2' C2 N2 O2].
  assert (Hbm2 : forall h, 0 <= h < G -> bview st2 (bitmap_block st h) = bview st1 (bitmap_block st h)).
  { intros h Hh. rewrite <- (alloc_bitmap _ _ _ _ F1 Hh). apply O2; by apply Hg1. }
  assert (Hg2 : groups_ok st2 G).
  { apply (groups_ok_frame st1); [done..|]. intros h Hh. rewrite (alloc_bitmap _ _ _ _ F1 Hh), Hbm2 by done.
    rewrite <- (alloc_bitmap _ _ _ _ F1 Hh). by apply Hg1. }
  apply wp_bind. eapply wp_ok; [by apply sb_field_spec; [apply Hg2|..]|]. cbn beta.
  apply wp_bind. unfold sb_store. wp_simpl. eapply wp_lift.
  { unfold put32. apply memcpy_at_ok; rewrite ?(go_sb _ _ Hg2); unfold SB_num_blocks_unallocated; done. }
  wp_simpl. eapply wp_ok; [reflexivity|]. cbn beta. unfold sb_mark. wp_simpl. eapply wp_ok; [reflexivity|].
  pose proof (superblock_frame st2 G (u32 (word (sb_bytes st2) SB_num_blocks_unallocated - 1)) true Hg2) as F3.
  split_and!.
  - apply (groups_ok_frame st2); [done|exact F3|by apply cache_inv_sb, cache_inv_sb|]. intros h Hh. by apply Hg2.
  - eapply alloc_frame_trans; [done|exact F1|]. eapply alloc_frame_trans; [done|exact F2|exact F3].
  - change (bview st2 (bitmap_block st g) = splice (bview st (bitmap_block st g)) 0 bitmap).
    by rewrite Hbm2, N1.
  - intros h Hh Hne. split.
    + change (bview st2 (bitmap_block st h) = bview st (bitmap_block st h)).
      rewrite Hbm2 by done. by apply Hoth1.
    + change (free_in_group st2 h = free_in_group st h). unfold free_in_group.
      rewrite (alloc_desc _ _ _ F2), N2, (alloc_desc _ _ _ F1), Hd1. fold bg.
      pose proof (bview_len _ _ (go_cache _ _ Hg) (go_desc _ _ Hg)).
      apply half_splice_other; unfold BG_num_unallocated_blocks; lia.
Qed.

Lemma take_group_used st st' G g bitmap want found :
  groups_ok st G -> 0 <= g < G ->
  scan_bytes (slice 0 (blocks_per_group st / 8) (bview st (bitmap_block st g))) 0 want = (bitmap, found) ->
  alloc_frame st st' G ->
  bview st' (bitmap_block st g) = splice (bview st (bitmap_block st g)) 0 bitmap ->
  (forall h, 0 <= h < G -> h <> g -> bview st' (bitmap_block st h) = bview st (bitmap_block st h)) ->
  forall b, 0 <= b < G * blocks_per_group st ->
    block_used st' b = block_used st b ||
      bool_decide (b ∈ ((fun f => f + g * blocks_per_group st) <$> found)).
Proof.
  intros Hg Hgg Hscan F Hnew Hold b Hb. pose proof (go_per _ _ Hg) as Hp. pose proof (go_mod _ _ Hg) as Hm.
  destruct (go_bitmap _ _ Hg g Hgg) as (B1 & _ & B3). pose proof (go_fits _ _ Hg).
  set (per := blocks_per_group st) in *. pose proof (Z.div_mod per 8 ltac:(lia)) as H8.
  pose proof (bview_len _ _ (go_cache _ _ Hg) B1) as Hbl.
  assert (Hq : 0 <= per / 8) by (apply Z.div_pos; lia).
  assert (Hsz : zlen (slice 0 (per / 8) (bview st (bitmap_block st g))) = per / 8).
  { apply zlen_slice; lia. }
  destruct (scan_bytes_spec _ _ _ _ _ Hscan) as (_ & R2 & _ & _ & R5 & R6 & _).
  { unfold slice, ztake, zdrop. by apply Forall_take, Forall_drop. }
  rewrite Hsz in R2, R5. pose proof (Z.div_mod b per ltac:(lia)) as Hdm.
  pose proof (Z.mod_pos_bound b per Hp) as Hmb.
  assert (Hh : 0 <= b / per < G).
  { split; [apply Z.div_pos; lia|]. apply Z.div_lt_upper_bound; lia. }
  assert (Hin : b ∈ ((fun f => f + g * per) <$> found) <-> b / per = g /\ b mod per ∈ found).
  { rewrite list_elem_of_fmap. split.
    - intros (f & -> & Hf). destruct (R5 f Hf) as [Hr _].
      rewrite Z.div_add, Z.mod_add, Z.div_small, Z.mod_small by lia. split; [lia|done].
    - intros [E Hf]. exists (b mod per). split; [rewrite <- E; lia|done]. }
  unfold block_used. rewrite (alloc_per _ _ _ F). fold per. rewrite (alloc_bitmap _ _ _ _ F Hh).
  destruct (decide (b / per = g)) as [E|E].
  - rewrite E, Hnew. rewrite bit_at_splice by lia. rewrite R6 by lia.
    rewrite bit_at_prefix by lia. f_equal. apply bool_decide_ext. rewrite Hin.
    replace (8 * 0 + b mod per) with (b mod per) by lia. tauto.
  - rewrite Hold by done. rewrite bool_decide_false by (rewrite Hin; tauto). by rewrite orb_false_r.
Qed.

(** Looking changes nothing. *)
Lemma view_groups st st' G :
  groups_ok st G -> same_view st st' ->
  groups_ok st' G /\ alloc_frame st st' G /\
  (forall b, 0 <= b < G * blocks_per_group st -> block_used st' b = block_used st b) /\
  (forall h, free_in_group st' h = free_in_group st h).
Proof.
  intros Hg V. pose proof (view_frame _ _ V) as F. destruct (same_view_last _ _ V) as [L1 L2].
  pose proof (sv_view _ _ V _ (go_desc _ _ Hg)) as Hd.
  assert (A : alloc_frame st st' G).
  { split; try apply F; try done; try by split. { by rewrite (fr_sb _ _ F). }
    - intros o _ _ _. by rewrite (fr_sb _ _ F).
    - intros h o _ _. by rewrite Hd.
    - intros b Hb _ _. by apply V. }
  assert (Hbm : forall h, 0 <= h < G -> bview st' (bitmap_block st h) = bview st (bitmap_block st h)).
  { intros h Hh. apply V. by apply Hg. }
  split_and!; [|done| |].
  - apply (groups_ok_frame st); [done|done|apply V|]. intros h Hh. rewrite Hbm by done. by apply Hg.
  - intros b Hb. unfold block_used. rewrite (alloc_per _ _ _ A).
    assert (0 <= b / blocks_per_group st < G).
    { pose proof (go_per _ _ Hg). split; [apply Z.div_pos; lia|]. apply Z.div_lt_upper_bound; lia. }
    by rewrite (alloc_bitmap _ _ _ _ A), Hbm.
  - intros h. unfold free_in_group. by rewrite (alloc_desc _ _ _ A), Hd.
Qed.

(** [r] has been allocated on the way from [st0] to [st]. *)
Record allocated st0 st (G : Z) (r : list Z) : Prop := {
  al_groups : groups_ok st G;
  al_frame : alloc_frame st0 st G;
  al_nodup : NoDup r;
  al_fresh : forall b, b ∈ r -> 0 <= b < G * blocks_per_group st0 /\ block_used st0 b = false;
  al_used : forall b, 0 <= b < G * blocks_per_group st0 ->
    block_used st b = block_used st0 b || bool_decide (b ∈ r)
}.

(** The groups from [g] on have not been searched yet. *)
Record searched st0 st (G g num : Z) (r : list Z) : Prop := {
  se_alloc : allocated st0 st G r;
  se_below : forall b, b ∈ r -> b < g * blocks_per_group st0;
  se_free : forall h, g <= h < G -> free_in_group st h = free_in_group st0 h;
  se_full : zlen r < num -> forall b, 0 <= b < G * blocks_per_group st0 -> b < g * blocks_per_group st0 ->
    free_in_group st0 (b / blocks_per_group st0) <> 0 -> block_used st b = true
}.

Lemma allocated_view st0 st st' G r :
  groups_ok st0 G -> allocated st0 st G r -> same_view st st' -> allocated st0 st' G r.
Proof.
  intros H0 [A1 A2 A3 A4 A5] V. destruct (view_groups _ _ _ A1 V) as (B1 & B2 & B3 & _).
  split; try done; [by eapply alloc_frame_trans|].
  intros b Hb. rewrite B3 by (by rewrite (alloc_per _ _ _ A2)). by apply A5.
Qed.

Lemma searched_view st0 st st' G g num r :
  groups_ok st0 G -> searched st0 st G g num r -> same_view st st' -> searched st0 st' G g num r.
Proof.
  intros H0 [A1 A2 A3 A4] V. pose proof (al_groups _ _ _ _ A1) as Hg.
  destruct (view_groups _ _ _ Hg V) as (B1 & B2 & B3 & B4).
  split; [by eapply allocated_view|done| |].
  - intros h Hh. rewrite B4. by apply A3.
  - intros Hlt b Hb1 Hb2 Hf. rewrite B3 by (by rewrite (alloc_per _ _ _ (al_frame _ _ _ _ A1))).
    by apply A4.
Qed.

(** A group without a free block by its counter is passed over. *)
Lemma searched_skip st0 st G g num r :
  groups_ok st0 G -> searched st0 st G g num r -> 0 <= g < G -> free_in_group st g = 0 ->
  searched st0 st G (g + 1) num r.
Proof.
  intros H0 [A1 A2 A3 A4] Hg Hz. pose proof (go_per _ _ H0). split; [done| | |].
  - intros b Hb. specialize (A2 b Hb). nia.
  - intros h Hh. apply A3. lia.
  - intros Hlt b Hb1 Hb2 Hf. apply A4; [done|done| |done].
    destruct (Z.lt_ge_cases b (g * blocks_per_group st0)); [done|]. exfalso. apply Hf.
    assert (b / blocks_per_group st0 = g) as ->.
    { symmetry. apply (Z.div_unique_pos _ _ _ (b - g * blocks_per_group st0)); lia. }
    rewrite <- A3 by lia. done.
Qed.

(** The blocks found in a group, once they are marked, are allocated. *)
Lemma searched_take st0 st st' G g num r bitmap found :
  groups_ok st0 G -> searched st0 st G g num r -> 0 <= g < G -> zlen r < num ->
  scan_bytes (slice 0 (blocks_per_group st / 8) (bview st (bitmap_block st g))) 0 (num - zlen r)
    = (bitmap, found) ->
  groups_ok st' G -> alloc_frame st st' G ->
  bview st' (bitmap_block st g) = splice (bview st (bitmap_block st g)) 0 bitmap ->
  (forall h, 0 <= h < G -> h <> g -> bview st' (bitmap_block st h) = bview st (bitmap_block st h) /\
     free_in_group st' h = free_in_group st h) ->
  searched st0 st' G (g + 1) num (r ++ ((fun f => f + g * blocks_per_group st0) <$> found)) /\
  zlen (r ++ ((fun f => f + g * blocks_per_group st0) <$> found)) <= num.
Proof.
  intros H0 [[A1 A2 A3 A4 A5] S2 S3 S4] Hg Hlt Hscan Hg' F Hnew Hold.
  pose proof (alloc_per _ _ _ A2) as Ep. pose proof (go_per _ _ H0) as Hp.
  assert (Hused := take_group_used st st' G g bitmap _ found A1 Hg Hscan F Hnew
    (fun h Hh Hne => proj1 (Hold h Hh Hne))). rewrite Ep in *.
  set (per := blocks_per_group st0) in *. set (ids := (fun f => f + g * per) <$> found) in *.
  destruct (go_bitmap _ _ A1 g Hg) as (B1 & _ & B3). pose proof (go_fits _ _ A1) as Hfit. rewrite Ep in Hfit.
  pose proof (go_mod _ _ A1) as Hm. rewrite Ep in Hm. pose proof (Z.div_mod per 8 ltac:(lia)) as H8.
  assert (Hsz : zlen (slice 0 (per / 8) (bview st (bitmap_block st g))) = per / 8).
  { apply zlen_slice; [lia|apply Z.div_pos; lia|]. by rewrite (bview_len _ _ (go_cache _ _ A1) B1). }
  destruct (scan_bytes_spec _ _ _ _ _ Hscan) as (_ & R2 & R3 & R4 & R5 & R6 & R7).
  { unfold slice, ztake, zdrop. by apply Forall_take, Forall_drop. }
  rewrite Hsz in R2, R5, R7.
  assert (Hids : forall b, b ∈ ids -> g * per <= b < (g + 1) * per /\ block_used st b = false).
  { intros b Hb. apply list_elem_of_fmap in Hb as (f & -> & Hf). destruct (R5 f Hf) as [Hr Hbit].
    split; [lia|]. unfold block_used. rewrite Ep. fold per.
    rewrite Z.div_add, Z.mod_add, Z.div_small, Z.mod_small by lia.
    rewrite bit_at_prefix in Hbit by lia. by replace (f - 8 * 0) with f in Hbit by lia. }
  assert (Hzi : zlen ids = zlen found) by (unfold zlen, ids; by rewrite length_fmap).
  split; [|rewrite zlen_app; lia]. split.
  - split; [done|by eapply alloc_frame_trans| | |].
    + apply NoDup_app. split_and!; [done| |].
      * intros b Hb1 Hb2. destruct (Hids b Hb2). specialize (S2 b Hb1). fold per in S2. lia.
      * apply NoDup_fmap_2; [|done]. intros x y Hxy. lia.
    + intros b [Hb|Hb]%elem_of_app; [by apply A4|]. destruct (Hids b Hb) as [Hr Hu].
      assert (Hbr : 0 <= b < G * per) by nia. split; [done|].
      rewrite A5 in Hu by done. by apply orb_false_iff in Hu as [Hu _].
    + intros b Hb. rewrite Hused, A5 by done. rewrite <- orb_assoc. f_equal.
      rewrite <- bool_decide_or. apply bool_decide_ext. by rewrite elem_of_app.
  - intros b [Hb|Hb]%elem_of_app.
    + specialize (S2 b Hb). fold per in S2 |- *. nia.
    + fold per. apply Hids in Hb. lia.
  - intros h Hh. rewrite (proj2 (Hold h ltac:(lia) ltac:(lia))). apply S3. lia.
  - intros Hlt' b Hb1 Hb2 Hf. fold per in Hb1, Hb2, Hf. rewrite zlen_app in Hlt'.
    pose proof (zlen_nonneg ids).
    destruct (Z.lt_ge_cases b (g * per)) as [Hlow|Hhigh].
    + rewrite Hused by done. rewrite S4; [done|lia|done|done|done].
    + assert (Hbq : b / per = g).
      { symmetry. apply (Z.div_unique_pos _ _ _ (b - g * per)); lia. }
      assert (Hbm : b mod per = b - g * per).
      { symmetry. apply (Z.mod_unique_pos _ _ g); lia. }
      unfold block_used. rewrite (alloc_per _ _ _ F), Ep. fold per. rewrite Hbq, Hbm.
      rewrite (alloc_bitmap _ _ _ _ F Hg), Hnew. rewrite bit_at_splice.
      * apply R7; lia.
      * rewrite R2. by rewrite (bview_len _ _ (go_cache _ _ A1) B1).
      * rewrite R2. lia.
Qed.

(** What a search in the bitmap of a group gives. *)
Lemma group_scan st G g want bitmap found :
  groups_ok st G -> 0 <= g < G ->
  scan_bytes (slice 0 (blocks_per_group st / 8) (bview st (bitmap_block st g))) 0 want = (bitmap, found) ->
  Forall (fits 8) bitmap /\ zlen bitmap = blocks_per_group st / 8 /\
  ((fun b => u32 (b + g * blocks_per_group st)) <$> found) =
  ((fun f => f + g * blocks_per_group st) <$> found).
Proof.
  intros Hg Hgg Hscan. destruct (go_bitmap _ _ Hg g Hgg) as (B1 & _ & B3).
  pose proof (bview_len _ _ (go_cache _ _ Hg) B1) as Hbl. pose proof (go_fits _ _ Hg) as Hfit.
  pose proof (go_per _ _ Hg). pose proof (go_max _ _ Hg). set (per := blocks_per_group st) in *.
  assert (Hsz : zlen (slice 0 (per / 8) (bview st (bitmap_block st g))) = per / 8).
  { apply zlen_slice; [lia|apply Z.div_pos; lia|lia]. }
  destruct (scan_bytes_spec _ _ _ _ _ Hscan) as (R1 & R2 & _ & _ & R5 & _ & _).
  { unfold slice, ztake, zdrop. by apply Forall_take, Forall_drop. }
  rewrite Hsz in R2, R5. split_and!; [done|done|].
  apply list_fmap_ext. intros i f Hf%list_elem_of_lookup_2. destruct (R5 f Hf) as [Hr _].
  pose proof (Z.mul_div_le per 8). apply u32_small. nia.
Qed.

(** Marking what was found. *)
Lemma mark_found st0 st G g num r left bitmap found :
  groups_ok st0 G -> searched st0 st G g num r -> 0 <= g < G -> zlen r < num ->
  scan_bytes (slice 0 (blocks_per_group st / 8) (bview st (bitmap_block st g))) 0 (num - zlen r)
    = (bitmap, found) ->
  wp (if negb (bool_decide (found = [])) then take_group st g left bitmap else ret tt) (fun _ st' =>
    searched st0 st' G (g + 1) num (r ++ ((fun f => f + g * blocks_per_group st0) <$> found)) /\
    zlen (r ++ ((fun f => f + g * blocks_per_group st0) <$> found)) <= num) st.
Proof.
  intros H0 S Hgg Hlt Hscan. pose proof (al_groups _ _ _ _ (se_alloc _ _ _ _ _ _ S)) as Hg.
  destruct (group_scan _ _ _ _ _ _ Hg Hgg Hscan) as (G1 & G2 & _).
  destruct (go_bitmap _ _ Hg g Hgg) as (B1 & _ & B3).
  case_bool_decide as Hf; cbn [negb].
  - apply wp_ret. eapply searched_take; [done|done|done|done|exact Hscan|done|apply alloc_frame_refl| |done].
    (* nothing found: the bitmap is as it was *)
    pose proof (bview_len _ _ (go_cache _ _ Hg) B1) as Hbl. pose proof (go_fits _ _ Hg).
    pose proof (go_per _ _ Hg).
    assert (bitmap = slice 0 (blocks_per_group st / 8) (bview st (bitmap_block st g))) as ->.
    { subst found. symmetry. eapply scan_bytes_none, Hscan. }
    unfold splice. rewrite Z.add_0_l, zlen_slice by (lia || (apply Z.div_pos; lia)).
    rewrite slice_from_0. cbn [ztake Z.to_nat take app]. by rewrite ztake_zdrop.
  - eapply wp_mono; [by apply (take_group_stores st G)|]. intros _ st' (Hg' & F & Hnew & Hold).
    by eapply searched_take.
Qed.

Lemma free_blocks_loop_spec n st0 st G g num r :
  groups_ok st0 G -> searched st0 st G g num r -> 0 <= g -> G - g < Z.of_nat n -> zlen r <= num ->
  wp (free_blocks_loop n true num g r) (fun r' st' =>
    allocated st0 st' G r' /\ zlen r' <= num /\
    (zlen r' < num -> forall b, 0 <= b < G * blocks_per_group st0 ->
       free_in_group st0 (b / blocks_per_group st0) <> 0 -> block_used st' b = true)) st.
Proof.
  revert st g r. induction n as [|n IH]; intros st g r H0 S Hg0 Hn Hz; cbn [free_blocks_loop];
    pose proof (go_per _ _ H0) as Hp.
  { apply wp_ret. split_and!; [apply S|done|]. intros Hlt b Hb. apply S; [done|done|]. nia. }
  pose proof (al_groups _ _ _ _ (se_alloc _ _ _ _ _ _ S)) as Hgs.
  pose proof (alloc_per _ _ _ (al_frame _ _ _ _ (se_alloc _ _ _ _ _ _ S))) as Ep.
  apply wp_bind. eapply wp_ok; [apply Hgs|]. cbn beta.
  destruct (Z.ltb_spec g G) as [Hg|Hg]; [|apply wp_ret; cbn [andb negb]].
  2: { split_and!; [apply S|done|]. intros Hlt b Hb. apply S; [done|done|]. nia. }
  cbn [andb]. destruct (Z.ltb_spec (zlen r) num) as [Hlt|Hge]; cbn [negb].
  2: { apply wp_ret. split_and!; [apply S|done|lia]. }
  pose proof (go_room _ _ Hgs). pose proof (bview_len _ _ (go_cache _ _ Hgs) (go_desc _ _ Hgs)) as Hdl.
  wp_use (group_descriptor_spec st g) as d st1 [-> V1]; [apply Hgs..|done|lia|].
  assert (Hsl : zlen (slice (g * 32) 32 (bview st (desc_block st))) = 32) by (apply zlen_slice; lia).
  eapply wp_lift; [apply le16_at_half; unfold BG_num_unallocated_blocks; lia|].
  rewrite half_slice by (unfold BG_num_unallocated_blocks; lia). fold (free_in_group st g).
  pose proof (searched_view _ _ _ _ _ _ _ H0 S V1) as S1.
  destruct (view_groups _ _ _ Hgs V1) as (Hg1 & F1 & _ & Hfree1).
  destruct (Z.eqb_spec (free_in_group st g) 0) as [Hz0|Hnz].
  { apply IH; [done| |lia|lia|done]. apply searched_skip; [done|done|lia|]. by rewrite Hfree1. }
  apply wp_bind. eapply wp_ok; [by apply sb_field_spec; [apply Hg1|..]|]. cbn beta.
  fold (blocks_per_group st1).
  eapply wp_lift; [apply le32_at_word; unfold BG_block_usage_bitmap; lia|].
  rewrite word_slice by (unfold BG_block_usage_bitmap; lia). replace (g * 32 + BG_block_usage_bitmap) with (g * 32)
    by (unfold BG_block_usage_bitmap; lia). fold (bitmap_block st g).
  destruct (go_bitmap _ _ Hg1 g ltac:(lia)) as (B1 & _ & B3). rewrite (alloc_bitmap _ _ _ g F1) in B1, B3 by lia.
  pose proof (go_fits _ _ Hg1) as Hfit. pose proof (go_per _ _ Hg1).
  destruct (ext2_read_block_spec st1 (bitmap_block st g) (blocks_per_group st1 / 8) 0) as (st2 & E2 & V2);
    [apply Hg1|done|apply Z.div_pos; lia|lia|lia|].
  apply wp_bind. eapply wp_ok; [exact E2|]. cbn beta.
  pose proof (searched_view _ _ _ _ _ _ _ H0 S1 V2) as S2.
  destruct (view_groups _ _ _ Hg1 V2) as (Hg2 & F2 & _ & _).
  (* everything in terms of the state after the reads *)
  pose proof (alloc_per _ _ _ F2) as Ep2. pose proof (alloc_per _ _ _ F1) as Ep1.
  assert (Ebm : bitmap_block st g = bitmap_block st2 g) by (by rewrite (alloc_bitmap _ _ _ g F2), (alloc_bitmap _ _ _ g F1) by lia).
  assert (Edb : bview st (desc_block st) = bview st2 (desc_block st2)).
  { rewrite (alloc_desc _ _ _ F2), (alloc_desc _ _ _ F1). rewrite (sv_view _ _ V2), (sv_view _ _ V1); [done|apply Hgs|].
    rewrite <- (alloc_desc _ _ _ F1). apply Hg1. }
  rewrite <- (sv_view _ _ V2) by done. rewrite Ebm, Edb, <- Ep2.
  destruct (scan_bytes _ 0 (num - zlen r)) as [bitmap found] eqn:Hscan.
  destruct (group_scan _ _ _ _ _ _ Hg2 (conj Hg0 Hg) Hscan) as (_ & _ & ->). cbn [andb].
  apply wp_bind. eapply wp_mono; [eapply (mark_found st0 st2 G g num r); [done..|lia|done|exact Hscan]|].
  intros _ st3 [S3 Hz3]. rewrite Ep2, Ep1, Ep. apply IH; [done|done|lia|lia|done].
Qed.

Lemma allocated_nil st G : groups_ok st G -> allocated st st G [].
Proof.
  intros Hg. split; [done|apply alloc_frame_refl|apply NoDup_nil_2| |].
  - intros b Hb. by apply not_elem_of_nil in Hb.
  - intros b _. by rewrite orb_false_r.
Qed.

Lemma get_free_blocks_spec st G num :
  groups_ok st G -> 0 <= num <= word (sb_bytes st) SB_num_blocks_unallocated ->
  wp (get_free_blocks true num) (fun r st' => allocated st st' G r /\ zlen r <= num /\
    (zlen r < num -> forall b, 0 <= b < G * blocks_per_group st ->
       free_in_group st (b / blocks_per_group st) <> 0 -> block_used st' b = true)) st.
Proof.
  intros Hg Hnum. pose proof (go_per _ _ Hg). unfold get_free_blocks.
  apply wp_bind. eapply wp_ok; [by apply sb_field_spec; [apply Hg|..]|]. cbn beta.
  destruct (Z.ltb_spec (word (sb_bytes st) SB_num_blocks_unallocated) num); [lia|].
  apply wp_bind. eapply wp_ok; [by apply sb_field_spec; [apply Hg|..]|]. cbn beta.
  apply wp_assert; [apply Z.eqb_eq, Hg|].
  apply wp_bind. eapply wp_ok; [apply Hg|]. cbn beta.
  eapply wp_mono; [apply (free_blocks_loop_spec _ st st G 0 num []); [done| |lia|lia|]|done].
  - split; [by apply allocated_nil| |done|].
    + intros b Hb. by apply not_elem_of_nil in Hb.
    + intros _ b Hb1 Hb2. lia.
  - change (zlen (@nil Z)) with 0. lia.
Qed.

(** [get_free_blocks] returns, hands out at most the number of blocks asked
    for, all different and all unused before; exactly their bits are set, the
    contents of every block other than bitmaps and descriptors stay, and when it
    hands out fewer, every block of a group whose counter is not zero is in use. *)
Theorem get_free_blocks_allocates st G num :
  groups_ok st G -> 0 <= num <= word (sb_bytes st) SB_num_blocks_unallocated ->
  exists r st', get_free_blocks true num st = Ok (r, st') /\
    groups_ok st' G /\ zlen r <= num /\ NoDup r /\
    (forall b, b ∈ r -> 0 <= b < G * blocks_per_group st /\ block_used st b = false) /\
    (forall b, 0 <= b < G * blocks_per_group st ->
       block_used st' b = block_used st b || bool_decide (b ∈ r)) /\
    (forall b, block_ok st b -> b <> desc_block st ->
       (forall g, 0 <= g < G -> b <> bitmap_block st g) -> bview st' b = bview st b) /\
    (zlen r < num -> forall b, 0 <= b < G * blocks_per_group st ->
       free_in_group st (b / blocks_per_group st) <> 0 -> block_used st' b = true).
Proof.
  intros Hg Hn. destruct (get_free_blocks_spec st G num Hg Hn) as (r & st' & E & A & Hz & Hfull).
  exists r, st'. split; [done|]. split; [apply A|]. split; [done|]. split; [apply A|].
  split; [apply A|]. split; [apply A|]. split; [apply A|done].
Qed.

(** C9: no block is handed out twice: the blocks of two successive allocations are
    all different. *)
Theorem blocks_allocated_once st G n m :
  groups_ok st G -> 0 <= n <= word (sb_bytes st) SB_num_blocks_unallocated -> 0 <= m ->
  exists r1 r2 st', (r1 ← get_free_blocks true n; r2 ← get_free_blocks true m; ret (r1, r2)) st =
      Ok ((r1, r2), st') /\ NoDup (r1 ++ r2) /\
    forall b, b ∈ r1 ++ r2 -> block_used st b = false.
Proof.
  intros Hg Hn Hm. destruct (get_free_blocks_spec st G n Hg Hn) as (r1 & st1 & E1 & A1 & _ & _).
  pose proof (al_groups _ _ _ _ A1) as Hg1. pose proof (alloc_per _ _ _ (al_frame _ _ _ _ A1)) as Ep.
  assert (Hnodup := al_nodup _ _ _ _ A1).
  destruct (Z.lt_ge_cases (word (sb_bytes st1) SB_num_blocks_unallocated) m) as [Hlt|Hge].
  { exists r1, [], st1. rewrite app_nil_r. split_and!; [|done|intros b Hb; by apply A1].
    mrun E1. assert (E2 : get_free_blocks true m st1 = Ok ([], st1)).
    { unfold get_free_blocks. mrun (sb_field_spec st1 SB_num_blocks_unallocated (go_sb _ _ Hg1)
        ltac:(done) ltac:(done)). by destruct (Z.ltb_spec (word (sb_bytes st1) SB_num_blocks_unallocated) m); [|lia]. }
    by mrun E2. }
  destruct (get_free_blocks_spec st1 G m Hg1) as (r2 & st2 & E2 & A2 & _ & _); [lia|].
  exists r1, r2, st2. split; [by mrun E1; mrun E2|].
  assert (Hfresh : forall b, b ∈ r2 -> (b ∉ r1) /\ block_used st b = false).
  { intros b Hb. destruct (al_fresh _ _ _ _ A2 b Hb) as [Hr Hu]. rewrite Ep in Hr.
    rewrite (al_used _ _ _ _ A1 b Hr) in Hu. apply orb_false_iff in Hu as [Hu Hd].
    by apply bool_decide_eq_false in Hd. }
  split.
  - apply NoDup_app. split_and!; [done|intros b Hb1 Hb2; by destruct (Hfresh b Hb2)|apply A2].
  - intros b [Hb|Hb]%elem_of_app; [by apply A1|by apply Hfresh].
Qed.
End Groups.

(** ** An example: one group of sixteen blocks, six of them in use *)

Definition ax_sb : list Z :=
  le32_bytes 8 ++ le32_bytes 16 ++ replicate 4 0 ++ le32_bytes 10 ++ replicate 8 0 ++
  le32_bytes 0 ++ le32_bytes 0 ++ le32_bytes 16 ++ le32_bytes 0 ++ le32_bytes 8 ++ replicate 980 0.
Definition ax_fs : ext2 :=
  mkExt2 (replicate 2048 0 ++
          (le32_bytes 3 ++ le32_bytes 4 ++ le32_bytes 5 ++ le16_bytes 10 ++ replicate 1010 0) ++
          (63 :: replicate 1023 0) ++ replicate 2048 0)
    (replicate 4 (mkCache false 0 0 (replicate 1024 0) false))
    ax_sb false 1024 128 (-1) [] [] 5 0.

Lemma ax_disk_len : zlen (disk ax_fs) = 6144.
Proof. vm_compute. reflexivity. Qed.

Lemma ax_block b : 0 <= b < 6 -> block_ok ax_fs b.
Proof.
  intros Hb. split; [lia|]. rewrite ax_disk_len. change (block_byte_size ax_fs) with 1024. lia.
Qed.

Lemma ax_groups : groups_ok ax_fs 1.
Proof.
  assert (Hp : blocks_per_group ax_fs = 16) by (vm_compute; reflexivity).
  assert (Hb0 : bitmap_block ax_fs 0 = 3) by (vm_compute; reflexivity).
  split; rewrite ?Hp.
  - split; [cbn; lia|rewrite ax_disk_len; lia|done| |].
    + repeat constructor; try done; vm_compute; reflexivity.
    + intros i j e e' Hi Hj He. apply list_elem_of_lookup_2, elem_of_replicate in Hi as [-> _]. done.
  - change (block_byte_size ax_fs) with 1024. lia.
  - vm_compute. reflexivity.
  - vm_compute. reflexivity.
  - lia.
  - reflexivity.
  - change (block_byte_size ax_fs) with 1024. change (16 / 8) with 2. lia.
  - lia.
  - apply ax_block. change (desc_block ax_fs) with 2. lia.
  - change (block_byte_size ax_fs) with 1024. lia.
  - intros g Hg. assert (g = 0) as -> by lia. rewrite Hb0. split_and!.
    + apply ax_block. lia.
    + discriminate.
    + apply Forall_forall. intros x Hx. assert (Hall : forallb (fun x => (0 <=? x) && (x <? 256)) (bview ax_fs 3) = true)
        by (vm_compute; reflexivity).
      rewrite forallb_forall in Hall. specialize (Hall x). rewrite <- list_elem_of_In in Hall.
      specialize (Hall Hx). breflect. split; [done|]. change (2 ^ 8) with 256. lia.
  - intros g h Hg Hh _. lia.
Qed.

Lemma ax_free : word (sb_bytes ax_fs) SB_num_blocks_unallocated = 10.
Proof. vm_compute. reflexivity. Qed.

Lemma ax_num : 0 <= 3 <= word (sb_bytes ax_fs) SB_num_blocks_unallocated.
Proof. rewrite ax_free. lia. Qed.

Lemma get_free_blocks_allocates_witness :
  exists r st', get_free_blocks true 3 ax_fs = Ok (r, st') /\
    groups_ok st' 1 /\ zlen r <= 3 /\ NoDup r /\
    (forall b, b ∈ r -> 0 <= b < 1 * blocks_per_group ax_fs /\ block_used ax_fs b = false) /\
    (forall b, 0 <= b < 1 * blocks_per_group ax_fs ->
       block_used st' b = block_used ax_fs b || bool_decide (b ∈ r)) /\
    (forall b, block_ok ax_fs b -> b <> desc_block ax_fs ->
       (forall g, 0 <= g < 1 -> b <> bitmap_block ax_fs g) -> bview st' b = bview ax_fs b) /\
    (zlen r < 3 -> forall b, 0 <= b < 1 * blocks_per_group ax_fs ->
       free_in_group ax_fs (b / blocks_per_group ax_fs) <> 0 -> block_used st' b = true).
Proof. exact (get_free_blocks_allocates ax_fs 1 3 ax_groups ax_num). Defined.

Lemma blocks_allocated_once_witness :
  exists r1 r2 st', (r1 ← get_free_blocks true 3; r2 ← get_free_blocks true 2; ret (r1, r2)) ax_fs =
      Ok ((r1, r2), st') /\ NoDup (r1 ++ r2) /\
    forall b, b ∈ r1 ++ r2 -> block_used ax_fs b = false.
Proof. refine (blocks_allocated_once ax_fs 1 3 2 ax_groups ax_num _). lia. Defined.

(** The counters of free blocks go down by one per group and call, however many
    blocks were taken: here by one for three blocks. *)
Theorem free_counters_drift :
  exists st', get_free_blocks true 3 ax_fs = Ok ([6; 7; 8], st') /\
    word (sb_bytes st') SB_num_blocks_unallocated = 9 /\ free_in_group st' 0 = 9.
Proof. eexists. split; [vm_compute; reflexivity|]. split; vm_compute; reflexivity. Qed.
