(* ===== verification/Ext2Dir.v ===== *)
(** kernel/fs/ext2.c, fourth part: directories, path lookup, creating and
    removing entries, and the functions the virtual file system calls.

    A path is a C string, its bytes with the terminator.  The [kmalloc] of a copy
    of a directory is taken to succeed; [mem] says whether the allocation for an
    open file succeeds. *)

From stdpp Require Import base numbers list gmap.
From Stdlib Require Import ZArith Lia.
From S2P Require Import Prelude StateM Bytes KString Sv Ext2Cache Ext2 Ext2Inode Ext2File.

Open Scope Z_scope.

Definition EXT2_ROOT_INODE : Z := 2.
Definition TYPE_INDICATOR_REGULAR : Z := 1.
Definition TYPE_INDICATOR_DIRECTORY : Z := 2.
Definition DIRECTORY : Z := 0x4000.
Definition FS_TYPE_FILE : Z := 0.
Definition FS_TYPE_DIRECTORY : Z := 4.
Definition FS_TYPE_LINK : Z := 7.
Definition ENOENT : Z := 45.
Definition EPERM : Z := 67.

(** [direntry_header_t] *)
Record direntry_header : Type := mkEntry {
  e_inode : Z;
  e_size : Z;
  name_length : Z;
  type_indicator : Z
}.

Definition sizeof_direntry : Z := 8.

Definition entry_at (data : list Z) (pos : Z) : outcome direntry_header :=
  inode ← le32_at data pos;
  size ← le16_at data (pos + 4);
  len ← aread data (pos + 6);
  type ← aread data (pos + 7);
  Ok (mkEntry inode size len type).

Definition entry_bytes (e : direntry_header) : list Z :=
  le32_bytes (e_inode e) ++ le16_bytes (e_size e) ++ [name_length e; type_indicator e].

(** ** Lookup *)

(** The loop of [ext2_get_inode_in_directory]: the inode and the entry found. *)
Fixpoint dir_lookup (fuel : nat) (data : list Z) (pos : Z) (file : sv)
  : outcome (Z * option direntry_header) :=
  match fuel with
  | O => NoFuel
  | S fuel =>
    if negb (pos <=? zlen data - sizeof_direntry) then Ok (0, None) else
    dir ← entry_at data pos;
    if e_inode dir =? 0 then Ok (0, None) else
    if e_size dir =? 0 then Ok (0, None) else
    if name_length dir =? 0 then dir_lookup fuel data (pos + e_size dir) file else
    if negb (sv_length file =? name_length dir) then dir_lookup fuel data (pos + e_size dir) file else
    c_assert (pos + sizeof_direntry + name_length dir <=? zlen data) ;;
    c ← memcmp (zdrop (pos + sizeof_direntry) data) (sv_s file) (name_length dir);
    if c =? 0 then Ok (i32 (e_inode dir), Some dir)
    else dir_lookup fuel data (pos + e_size dir) file
  end.

(** The contents of a directory, in an array on the stack. *)
Definition directory_data (dir_inode : Z) : E (list Z) :=
  file_size ← get_inode_data_size dir_inode;
  stack_array file_size ;;
  '(data, _) ← read_inode dir_inode file_size 0;
  ret data.

Definition ext2_get_inode_in_directory (dir_inode : Z) (file : sv)
  : E (Z * option direntry_header) :=
  if sv_isempty file then ret (dir_inode, None) else
  data ← directory_data dir_inode;
  lift (dir_lookup (S (length data)) data 0 file).

(** The loop of [ext2_find_inode]: the inode and [*parent_directory].  The entry
    is not set when the name is empty. *)
Fixpoint find_inode_loop (fuel : nat) (cur_path_inode : Z) (p : sv) : E (Z * Z) :=
  match fuel with
  | O => no_fuel
  | S fuel =>
    '(start, rest) ← lift (sv_split_delim p (Some p) 47);
    let p := default p rest in
    let final := sv_isempty p in
    '(inode, a) ← ext2_get_inode_in_directory cur_path_inode start;
    if inode =? 0 then ret (0, u32 cur_path_inode) else
    if final then ret (u32 inode, u32 cur_path_inode) else
    a ← lift (deref a);
    if negb (TYPE_INDICATOR_DIRECTORY =? type_indicator a) then ret (0, u32 cur_path_inode) else
    find_inode_loop fuel inode p
  end.

Definition ext2_find_inode (file : list Z) : E (Z * Z) :=
  c0 ← lift (aread file 0);
  c1 ← (if c0 =? 47 then lift (aread file 1) else ret 1);
  if (c0 =? 47) && (c1 =? 0) then ret (EXT2_ROOT_INODE, EXT2_ROOT_INODE) else
  len ← lift (strlen file);
  '(_, p) ← lift (sv_try_eat (mkSv file len) (mkSv [47; 0] 1));
  find_inode_loop (S (length file)) EXT2_ROOT_INODE p.

Definition ext2_read_file_offset (file : list Z) (size offset : Z) : E (list Z * Z) :=
  '(inode, _) ← ext2_find_inode file;
  read_inode (i32 inode) size offset.

Definition ext2_read_file (file : list Z) (size : Z) : E (list Z * Z) :=
  ext2_read_file_offset file size 0.

(** The text of a link is in the place of the block pointers; the size computed
    from the buffer before it is read is zero whatever it holds. *)
Definition resolve_link (inode_num : Z) : E Z :=
  tmp_inode_buffer ← ext2_get_inode_header inode_num;
  b ← lift (awrite tmp_inode_buffer 39 47);
  '(r, _) ← ext2_find_inode (zdrop 39 b);
  ret (i32 r).

(** ** Listing *)

Definition sizeof_dirent : Z := 258.

(** The loop of [ext2_read_dir].  [tmp] is [tmp_entry], whose bytes are unknown
    until they are set; the result is what is copied to the buffer. *)
Fixpoint read_dir_loop (fuel : nat) (data : list Z) (pos n_dir len offset : Z)
    (tmp : list (option Z)) : outcome (list (option Z)) :=
  match fuel with
  | O => NoFuel
  | S fuel =>
    if negb (pos <=? zlen data - sizeof_direntry) then Ok [] else
    dir ← entry_at data pos;
    if (e_inode dir =? 0) || negb (0 <? len) then Ok [] else
    if e_size dir =? 0 then Ok [] else
    let next := read_dir_loop fuel data (pos + e_size dir) (n_dir + 1) in
    if name_length dir =? 0 then next len offset tmp else
    if n_dir <? offset / sizeof_dirent then next len offset tmp else
    name ← bytes_at data (pos + sizeof_direntry) (name_length dir);
    tmp ← memcpy_at tmp 2 (Some <$> name) 0 (name_length dir);
    tmp ← awrite tmp (2 + name_length dir) (Some 0);
    let l := Z.min len sizeof_dirent in
    rest ← next (len - l) offset tmp;
    Ok (ztake l tmp ++ rest)
  end.

Definition ext2_read_dir (dir_inode len offset : Z) : E (list (option Z)) :=
  data ← directory_data dir_inode;
  lift (read_dir_loop (S (length data)) data 0 0 len offset
          (replicate (Z.to_nat sizeof_dirent) None)).

(** ** What the virtual file system calls

    [type] and [inode_num] are those of [fd->inode]. *)

Definition ext2_write (buffer : list Z) (offset len inode_num type : Z) : E Z :=
  m_assert (negb (type =? FS_TYPE_DIRECTORY)) ;;
  inode_num ← (if type =? FS_TYPE_LINK then resolve_link inode_num else ret inode_num);
  write_inode inode_num buffer len offset false.

Definition ext2_read (offset len inode_num type : Z) : E (list (option Z)) :=
  inode_num ← (if type =? FS_TYPE_LINK then resolve_link inode_num else ret inode_num);
  inode ← ext2_get_inode_header inode_num;
  mode ← lift (le16_at inode I_types_permissions);
  if is_set mode DIRECTORY then ext2_read_dir inode_num (u32 len) (u32 offset)
  else '(d, _) ← read_inode inode_num len offset; ret (Some <$> d).

(** Inode number, type and size of the file that was opened; [mem2]: whether the
    allocation of the [vfs_inode_t] succeeds. *)
Definition ext2_open (mem mem2 : bool) (path : list Z) : E (option (Z * Z * Z)) :=
  '(inode_num, _) ← ext2_find_inode path;
  if inode_num =? 0 then ret None else
  inode ← ext2_get_inode_header (i32 inode_num);
  size ← lift (inode_file_size inode);
  mode ← lift (le16_at inode I_types_permissions);
  let type := if mode / 0x1000 =? 0xA then FS_TYPE_LINK else
              if mode / 0x1000 =? 0x4 then FS_TYPE_DIRECTORY else FS_TYPE_FILE in
  ok ← add_open_inode mem inode_num;
  if negb ok then ret None else
  if negb mem2 then deref_open_inode inode_num ;; ret None else
  ret (Some (inode_num, type, size)).

(** ** Creating entries *)

(** The loop of [find_free_position]: where the entry with room for the new one
    is, its header and its padding. *)
Fixpoint free_position_loop (fuel : nat) (data : list Z) (bbs pos entry_size : Z)
  : outcome (option (Z * direntry_header * Z)) :=
  match fuel with
  | O => NoFuel
  | S fuel =>
    if negb (pos <? zlen data) then Ok None else
    size ← le16_at data (pos + 4);
    if size =? 0 then Ok None else
    len ← aread data (pos + 6);
    let padding := u64 (size - ALIGN (sizeof_direntry + len) 4) in
    r ← (if entry_size <=? padding then
           if bbs <? u32 (u32 pos mod bbs + entry_size) then Ok None
           else dir ← entry_at data pos; Ok (Some (pos, dir, u32 padding))
         else Ok None);
    match r with
    | Some r => Ok (Some r)
    | None => free_position_loop fuel data bbs (pos + size) entry_size
    end
  end.

(** [*entry_offset], [*meta] if found, [*entry_padding]. *)
Definition find_free_position (dir_inode entry_size : Z) : E (Z * option direntry_header * Z) :=
  file_size ← get_inode_data_size dir_inode;
  '(data, _) ← read_inode dir_inode file_size 0;
  bbs ← gets block_byte_size;
  r ← lift (free_position_loop (S (length data)) data bbs 0 entry_size);
  match r with
  | Some (pos, dir, padding) => ret (pos, Some dir, padding)
  | None => ret (file_size, None, bbs)
  end.

Definition set_size (e : direntry_header) (size : Z) : direntry_header :=
  mkEntry (e_inode e) size (name_length e) (type_indicator e).

Definition ext2_create_entry (directory_inode : Z) (entry_header : direntry_header) (name : list Z)
  : E unit :=
  let wanted := ALIGN (sizeof_direntry + name_length entry_header) 4 in
  '(entry_offset, meta, entry_padding) ← find_free_position directory_inode wanted;
  bbs ← gets block_byte_size;
  let entry_padding := if entry_padding =? 0 then bbs else entry_padding in
  let entry_header := set_size entry_header (u16 entry_padding) in
  new_entry_offset ←
    (match meta with
     | Some meta =>
       let meta := set_size meta (ALIGN (sizeof_direntry + name_length meta) 4) in
       write_inode directory_inode (entry_bytes meta) sizeof_direntry entry_offset false ;;
       ret (u32 (entry_offset + e_size meta))
     | None => ret (u32 entry_offset)
     end);
  let buffer := replicate (Z.to_nat (e_size entry_header)) 0 in
  buffer ← lift (memcpy_at buffer 0 (entry_bytes entry_header) 0 sizeof_direntry);
  buffer ← lift (memcpy_at buffer sizeof_direntry name 0 (name_length entry_header));
  write_inode directory_inode buffer (e_size entry_header) new_entry_offset false ;;
  ret tt.

(** [for (; *e != '/'; e--)] from index [e] on. *)
Fixpoint last_slash (path : list Z) (e : nat) : outcome nat :=
  c ← aread path (Z.of_nat e);
  if c =? 47 then Ok e else match e with O => Fault | S e => last_slash path e end.

(** [*parent_inode] if there is one, and [*filename]. *)
Definition ext2_find_parent (path : list Z) : E (option Z * list Z) :=
  len ← lift (strlen path);
  e ← lift (last_slash path (Z.to_nat len));
  path ← lift (awrite path (Z.of_nat e) 0);
  let filename := drop (S e) path in
  c ← lift (aread path 0);
  if c =? 0 then ret (Some EXT2_ROOT_INODE, filename) else
  '(r, _) ← ext2_find_inode path;
  if r =? 0 then ret (None, filename) else ret (Some r, filename).

(** The steps common to [ext2_create_file] and [ext2_create_directory]: the new
    inode and the parent, or what the function returns early. *)
Definition create_inode (path : list Z) (type mode links : Z) : E (Z + Z * Z) :=
  '(inode_num, _) ← ext2_find_inode path;
  if negb (inode_num =? 0) then ret (inl (i32 inode_num)) else
  '(parent, filename) ← ext2_find_parent path;
  match parent with
  | None => ret (inl (-1))
  | Some parent_inode =>
    new_file_inode ← get_free_inode true;
    if new_file_inode =? -1 then ret (inl (-1)) else
    m_assert (negb (new_file_inode =? 0)) ;;
    len ← lift (strlen filename);
    ext2_create_entry (i32 parent_inode) (mkEntry (u32 new_file_inode) 0 (u8 len) type) filename ;;
    isz ← gets inode_size;
    inode ← lift (put16 (replicate (Z.to_nat isz) 0) I_types_permissions mode);
    inode ← lift (put16 inode I_num_hard_links links);
    ext2_write_inode new_file_inode inode ;;
    ret (inr (new_file_inode, parent_inode))
  end.

Definition ext2_create_file (path : list Z) : E Z :=
  r ← create_inode path TYPE_INDICATOR_REGULAR 0x8000 1;
  match r with inl rc => ret rc | inr (new_file_inode, _) => ret new_file_inode end.

Definition ext2_create_directory (path : list Z) : E Z :=
  r ← create_inode path TYPE_INDICATOR_DIRECTORY DIRECTORY 2;
  match r with
  | inl rc => ret rc
  | inr (new_file_inode, parent_inode) =>
    per_group ← sb_field SB_num_inodes_in_group;
    group_index ← lift (udiv (u32 (new_file_inode - 1)) per_group);
    block_group ← get_group_descriptor group_index;
    dirs ← lift (le16_at block_group BG_num_directories);
    block_group ← lift (put16 block_group BG_num_directories (u16 (dirs + 1)));
    write_group_descriptor group_index block_group ;;
    ext2_create_entry new_file_inode
      (mkEntry (u32 new_file_inode) 0 1 TYPE_INDICATOR_DIRECTORY) [46; 0] ;;
    ext2_create_entry new_file_inode
      (mkEntry parent_inode 0 2 TYPE_INDICATOR_DIRECTORY) [46; 46; 0] ;;
    parent ← ext2_get_inode_header (i32 parent_inode);
    links ← lift (le16_at parent I_num_hard_links);
    parent ← lift (put16 parent I_num_hard_links (u16 (links + 1)));
    ext2_write_inode (i32 parent_inode) parent ;;
    ext2_flush_writes ;;
    ret new_file_inode
  end.

(** ** Removing entries *)

(** The next entry and [*left]. *)
Definition directory_ptr_next (data : list Z) (ptr left : Z) : outcome (option (Z * Z)) :=
  size ← le16_at data (ptr + 4);
  if size =? 0 then Ok None else
  if left <? size then Ok None else
  let left := left - size in
  if left <? sizeof_direntry then Ok None else
  next_size ← le16_at data (ptr + size + 4);
  if next_size =? 0 then Ok None else
  Ok (Some (ptr + size, left)).

(** The loop of [ext2_unlink]: the new contents if the entry was found. *)
Fixpoint unlink_loop (fuel : nat) (data : list Z) (inode_num current left : Z)
  : outcome (option (list Z)) :=
  match fuel with
  | O => NoFuel
  | S fuel =>
    inode ← le32_at data current;
    if inode_num =? inode then Ok None else
    next ← directory_ptr_next data current left;
    match next with
    | None => Ok None
    | Some (next, remaining) =>
      inode ← le32_at data next;
      if inode_num =? inode then
        size ← le16_at data (current + 4);
        next_size ← le16_at data (next + 4);
        data ← put16 data (current + 4) (u16 (size + next_size));
        next_size ← le16_at data (next + 4);
        data ← memcpy_at data next (replicate (Z.to_nat next_size) 0) 0 next_size;
        Ok (Some data)
      else unlink_loop fuel data inode_num next remaining
    end
  end.

Definition ext2_unlink (path : list Z) : E Z :=
  '(inode_num, parent_directory) ← ext2_find_inode path;
  if inode_num =? 0 then ret (- ENOENT) else
  if inode_num =? EXT2_ROOT_INODE then ret (- EPERM) else
  file_size ← get_inode_data_size (i32 parent_directory);
  '(data, _) ← read_inode (i32 parent_directory) file_size 0;
  r ← lift (unlink_loop (S (length data)) data inode_num 0 file_size);
  match r with
  | None => ret (- ENOENT)
  | Some data =>
    write_inode (i32 parent_directory) data file_size 0 false ;;
    remove_possibly_open_inode inode_num ;;
    ext2_flush_writes ;;
    ret 0
  end.

(** ** Mounting *)

Definition set_params (sb : list Z) (bbs isz : Z) (c : list block_cache) (st : ext2) : ext2 :=
  mkExt2 (disk st) c sb (superblock_changed st) bbs isz (last_inode_read st) (last_inode st)
    (files st) (uptime st) (now_ms st).

Definition num_block_cache : Z := 4.

(** A wrong signature leaves the function in an endless loop. *)
Definition parse_superblock : E unit :=
  superblock ← raw_pread 1024 1024;
  shift ← lift (le32_at superblock SB_block_size);
  let bbs := u32 (Z.shiftl 1024 shift) in
  signature ← lift (le16_at superblock 56);
  if negb (signature =? 0xEF53) then no_fuel else
  major_version ← lift (le32_at superblock 76);
  isz ← (if 1 <=? major_version then lift (le16_at superblock 88) else gets inode_size);
  _ ← lift (udiv bbs isz);
  modify (set_params superblock bbs isz
            (replicate (Z.to_nat num_block_cache) (mkCache false 0 0 [] false))).

(** The part of [ext2_mount] behind the opening of the device: the cache gets its
    blocks, whose bytes do not matter before they are loaded. *)
Definition ext2_mount : E unit :=
  parse_superblock ;;
  sb ← gets sb_bytes;
  bbs ← gets block_byte_size;
  isz ← gets inode_size;
  modify (set_params sb bbs isz
    (replicate (Z.to_nat num_block_cache) (mkCache false 0 0 (replicate (Z.to_nat bbs) 0) false))).
