(* ===== verification/Ext2Names.v ===== *)
(** kernel/fs/ext2.c: directories as lists of names.  Lookup, path resolution,
    insertion and removal of entries, proved against the bytes of a directory. *)

From stdpp Require Import base numbers list gmap.
From Stdlib Require Import ZArith Lia.
From S2P Require Import Prelude StateM Bytes KString Sv Ext2Cache Ext2 Ext2Inode Ext2File Ext2Dir.

Open Scope Z_scope.

(** ** Entries and their bytes *)

(** An entry; [d_slack] are the bytes behind the name that belong to it. *)
Record dent : Type := mkDent {
  d_ino : Z;
  d_type : Z;
  d_name : list Z;
  d_slack : list Z
}.

Definition d_size (e : dent) : Z := sizeof_direntry + zlen (d_name e) + zlen (d_slack e).
Definition d_header (e : dent) : direntry_header :=
  mkEntry (d_ino e) (d_size e) (zlen (d_name e)) (d_type e).
Definition enc (e : dent) : list Z := entry_bytes (d_header e) ++ d_name e ++ d_slack e.
Definition dir_data (es : list dent) : list Z := concat (enc <$> es).

Record dent_ok (e : dent) : Prop := {
  dk_ino : 0 < d_ino e < 2 ^ 31;
  dk_name : 0 < zlen (d_name e) < 256;
  dk_size : d_size e < 2 ^ 16;
  dk_room : ALIGN (sizeof_direntry + zlen (d_name e)) 4 <= d_size e
}.

Definition dir_find (es : list dent) (name : list Z) : option dent :=
  List.find (fun e => bool_decide (d_name e = name)) es.

Lemma zlen_entry_bytes e : zlen (entry_bytes e) = 8.
Proof. done. Qed.

Lemma zlen_enc e : zlen (enc e) = d_size e.
Proof. unfold enc, d_size, sizeof_direntry. rewrite !zlen_app, zlen_entry_bytes. lia. Qed.

Lemma d_size_pos e : 8 <= d_size e.
Proof.
  unfold d_size, sizeof_direntry. pose proof (zlen_nonneg (d_name e)).
  pose proof (zlen_nonneg (d_slack e)). lia.
Qed.

Lemma dir_data_cons e es : dir_data (e :: es) = enc e ++ dir_data es.
Proof. done. Qed.

Lemma dir_data_app es fs : dir_data (es ++ fs) = dir_data es ++ dir_data fs.
Proof. unfold dir_data. by rewrite fmap_app, concat_app. Qed.

(** Bytes at the front of what follows a prefix. *)
Lemma aread_app_r {A} (pre l : list A) k : 0 <= k -> aread (pre ++ l) (zlen pre + k) = aread l k.
Proof.
  intros Hk. unfold aread. rewrite znth_app_r by lia. do 2 f_equal. lia.
Qed.

Lemma le32_at_shift pre l k : 0 <= k -> le32_at (pre ++ l) (zlen pre + k) = le32_at l k.
Proof.
  intros Hk. unfold le32_at. rewrite <- !Z.add_assoc. by rewrite !aread_app_r by lia.
Qed.

Lemma le16_at_shift pre l k : 0 <= k -> le16_at (pre ++ l) (zlen pre + k) = le16_at l k.
Proof.
  intros Hk. unfold le16_at. rewrite <- !Z.add_assoc. by rewrite !aread_app_r by lia.
Qed.

Lemma entry_at_shift pre l : entry_at (pre ++ l) (zlen pre) = entry_at l 0.
Proof.
  unfold entry_at. rewrite <- (Z.add_0_r (zlen pre)) at 1.
  by rewrite le32_at_shift, le16_at_shift, !aread_app_r by lia.
Qed.

Lemma entry_at_bytes e l :
  fits 32 (e_inode e) -> fits 16 (e_size e) -> entry_at (entry_bytes e ++ l) 0 = Ok e.
Proof.
  intros H1 H2. destruct e as [i s n t]. cbn [e_inode e_size] in H1, H2.
  transitivity (Ok (mkEntry
    (le32 (i mod 2 ^ 8) (i / 2 ^ 8 mod 2 ^ 8) (i / 2 ^ 16 mod 2 ^ 8) (i / 2 ^ 24 mod 2 ^ 8))
    (le16 (s mod 2 ^ 8) (s / 2 ^ 8 mod 2 ^ 8)) n t)); [reflexivity|].
  by rewrite le32_split, le16_le16_bytes.
Qed.

Lemma d_header_fits e : dent_ok e -> fits 32 (d_ino e) /\ fits 16 (d_size e).
Proof. intros [H1 H2 H3 _]. pose proof (d_size_pos e). split; split; lia. Qed.

Lemma entry_at_enc pre e l :
  dent_ok e -> entry_at (pre ++ enc e ++ l) (zlen pre) = Ok (d_header e).
Proof.
  intros He. destruct (d_header_fits e He). rewrite entry_at_shift. unfold enc. rewrite <- app_assoc.
  by apply entry_at_bytes.
Qed.

(** ** Lookup *)

Lemma zdrop_enc pre e l :
  zdrop (zlen pre + sizeof_direntry) (pre ++ enc e ++ l) = d_name e ++ d_slack e ++ l.
Proof.
  unfold enc. rewrite <- !app_assoc, app_assoc. apply zdrop_app_exact.
  by rewrite zlen_app, zlen_entry_bytes.
Qed.

Lemma memcmp_name name l file :
  sv_ok file -> sv_length file = zlen name -> zlen name < 256 ->
  exists c, memcmp (name ++ l) (sv_s file) (zlen name) = Ok c /\ (c = 0 <-> name = text file).
Proof.
  intros [Hl _] He Hn. unfold memcmp.
  destruct (memcmp_loop_spec (Z.to_nat (zlen name)) (name ++ l) (sv_s file) 0) as (c & -> & _ & Hc); [zlia..|].
  exists c. split; [done|]. rewrite Hc. unfold text, ztake. rewrite He.
  replace (Z.to_nat (zlen name)) with (length name) by (unfold zlen; lia).
  by rewrite take_app_length.
Qed.

Lemma dir_lookup_spec fuel pre es file :
  Forall dent_ok es -> sv_ok file -> (length es < fuel)%nat ->
  dir_lookup fuel (pre ++ dir_data es) (zlen pre) file =
  Ok (match dir_find es (text file) with
      | Some e => (d_ino e, Some (d_header e))
      | None => (0, None)
      end).
Proof.
  revert pre fuel. induction es as [|e es IH]; intros pre [|fuel] Hes Hf Hfuel;
    cbn [length] in Hfuel; try lia; cbn [dir_lookup].
  { rewrite app_nil_r. destruct (Z.leb_spec (zlen pre) (zlen pre - sizeof_direntry)); [|done].
    unfold sizeof_direntry in *. lia. }
  pose proof Hes as [He Hes']%Forall_cons. pose proof (d_size_pos e) as Hs.
  rewrite dir_data_cons.
  assert (Hz : zlen (pre ++ enc e ++ dir_data es) = zlen pre + d_size e + zlen (dir_data es)).
  { rewrite !zlen_app, zlen_enc. lia. }
  pose proof (zlen_nonneg (dir_data es)). rewrite Hz.
  destruct (Z.leb_spec (zlen pre) (zlen pre + d_size e + zlen (dir_data es) - sizeof_direntry));
    [|unfold sizeof_direntry in *; lia].
  cbn [negb]. rewrite entry_at_enc by done. cbn [mbind outcome_bind d_header e_inode e_size name_length].
  pose proof He as [K1 K2 K3 _].
  destruct (Z.eqb_spec (d_ino e) 0); [lia|]. destruct (Z.eqb_spec (d_size e) 0); [lia|].
  destruct (Z.eqb_spec (zlen (d_name e)) 0); [lia|].
  assert (Hnext : dir_lookup fuel (pre ++ enc e ++ dir_data es) (zlen pre + d_size e) file =
    Ok (match dir_find es (text file) with
        | Some e => (d_ino e, Some (d_header e)) | None => (0, None) end)).
  { rewrite app_assoc. rewrite <- (zlen_enc e), <- zlen_app. apply IH; [done|done|lia]. }
  unfold dir_find in *. cbn [List.find].
  destruct (Z.eqb_spec (sv_length file) (zlen (d_name e))) as [El|El]; cbn [negb].
  2: { rewrite Hnext, bool_decide_false; [done|]. intros En. apply El. rewrite En.
       symmetry. by apply text_len. }
  destruct (Z.leb_spec (zlen pre + sizeof_direntry + zlen (d_name e))
    (zlen pre + d_size e + zlen (dir_data es))).
  2: { unfold d_size in *. pose proof (zlen_nonneg (d_slack e)). lia. }
  cbn [c_assert mbind outcome_bind]. rewrite zdrop_enc.
  destruct (memcmp_name (d_name e) (d_slack e ++ dir_data es) file Hf El ltac:(lia)) as (c & -> & Hc).
  cbn [mbind outcome_bind]. destruct (Z.eqb_spec c 0) as [->|Hc0].
  - rewrite bool_decide_true by (by apply Hc). by rewrite i32_small by lia.
  - rewrite Hnext, bool_decide_false; [done|]. intros En. by apply Hc0, Hc.
Qed.

(** ** Directories of a file system *)

Record dir_at (st : ext2) (n : Z) (es : list dent) : Prop := {
  da_inode : inode_ok st n;
  da_size : 0 <= file_size (inode_at st n) < 2 ^ 32;
  da_mapped : blocks_mapped st (inode_at st n) 0 (file_size (inode_at st n));
  da_data : file_range (bview st) (block_byte_size st) (inode_at st n) 0 (file_size (inode_at st n)) =
    dir_data es;
  da_ok : Forall dent_ok es
}.

Lemma length_dir_data es : (length es <= length (dir_data es))%nat.
Proof.
  induction es as [|e es IH]; [done|]. rewrite dir_data_cons, length_app. cbn [length].
  pose proof (zlen_enc e) as Hz. pose proof (d_size_pos e). unfold zlen in Hz at 1. lia.
Qed.

Section Directories.
Implicit Types st : ext2.

Lemma dir_at_same_fs st st' n es : fs_ok st -> same_fs st st' -> dir_at st n es -> dir_at st' n es.
Proof.
  intros Hf S [D1 D2 D3 D4 D5]. pose proof (sf_frame _ _ S) as F. pose proof (fr_bbs _ _ F) as B.
  destruct (same_fs_inode _ _ _ S D1) as (Hi & Ha & _).
  split; rewrite ?Ha; try done.
  - intros k Hk. rewrite B. by apply (same_fs_mapped st); [|apply S|apply D3].
  - rewrite <- D4, B. apply file_range_ext. intros k Hk. rewrite <- B at 1.
    by apply same_fs_byte; [|apply S|apply D3].
Qed.

(** Reading a directory. *)
Lemma directory_data_spec st n es :
  fs_ok st -> dir_at st n es ->
  wp (directory_data n) (fun d st' => d = dir_data es /\ same_fs st st') st.
Proof.
  intros Hf D. pose proof D as [D1 D2 D3 D4 D5]. unfold directory_data, get_inode_data_size.
  apply wp_bind. wp_use (read_inode_spec st n 0 0) as r st1 [-> S1]; [done|done|lia|done|lia|lia|].
  apply wp_ret. apply wp_bind. unfold stack_array.
  destruct (Z.ltb_spec (file_size (inode_at st n)) (2 ^ 32)); [|lia]. apply wp_ret.
  pose proof (dir_at_same_fs _ _ _ _ Hf S1 D) as [E1 E2 E3 E4 E5].
  destruct (same_fs_inode _ _ _ S1 D1) as (_ & Ha & _). rewrite Ha in *.
  pose proof (sf_ok _ _ S1) as Hf1.
  wp_use (read_inode_spec st1 n (file_size (inode_at st n)) 0) as r st2 [-> S2];
    [done|done|rewrite Ha; lia|by rewrite Ha|lia|lia|].
  apply wp_ret. split; [|by eapply same_fs_trans]. rewrite Ha, Z.sub_0_r, Z.max_r, Z.min_id by lia. done.
Qed.

Lemma lookup_spec st n es file :
  fs_ok st -> dir_at st n es -> sv_ok file -> text file <> [] ->
  wp (ext2_get_inode_in_directory n file) (fun r st' =>
    r = match dir_find es (text file) with
        | Some e => (d_ino e, Some (d_header e))
        | None => (0, None)
        end /\ same_fs st st') st.
Proof.
  intros Hf D Hv Hne. unfold ext2_get_inode_in_directory, sv_isempty.
  destruct (Z.eqb_spec (sv_length file) 0) as [E|_].
  { exfalso. apply Hne. pose proof (text_len _ Hv) as Hl. rewrite E in Hl.
    destruct (text file); [done|]. unfold zlen in Hl. cbn [length] in Hl. lia. }
  wp_use (directory_data_spec st n es) as d st1 [-> S1]; [done..|].
  eapply wp_lift_end; [|by split].
  apply (dir_lookup_spec _ [] es file); [apply D|done|]. pose proof (length_dir_data es). lia.
Qed.

(** ** Paths *)

Definition name_ok (n : list Z) : Prop := n <> [] /\ (47 ∉ n) /\ (0 ∉ n).

Fixpoint join (names : list (list Z)) : list Z :=
  match names with
  | [] => []
  | n :: rest => match rest with [] => n | _ => n ++ 47 :: join rest end
  end.

(** The inode a path leads to, 0 for none, and the last directory visited. *)
Fixpoint walk (dirs : Z -> option (list dent)) (cur : Z) (names : list (list Z)) : Z * Z :=
  match names with
  | [] => (cur, cur)
  | n :: rest =>
    match dir_find (default [] (dirs cur)) n with
    | None => (0, cur)
    | Some e =>
      match rest with
      | [] => (d_ino e, cur)
      | _ => if d_type e =? TYPE_INDICATOR_DIRECTORY then walk dirs (d_ino e) rest else (0, cur)
      end
    end
  end.

(** [dirs] are directories of the file system, the root and all their
    subdirectories among them. *)
Record tree_ok st (dirs : Z -> option (list dent)) : Prop := {
  tk_dirs : forall n es, dirs n = Some es -> dir_at st n es;
  tk_closed : forall n es e, dirs n = Some es -> In e es -> d_type e = TYPE_INDICATOR_DIRECTORY ->
    is_Some (dirs (d_ino e));
  tk_root : is_Some (dirs EXT2_ROOT_INODE)
}.

Lemma tree_same_fs st st' dirs : fs_ok st -> same_fs st st' -> tree_ok st dirs -> tree_ok st' dirs.
Proof.
  intros Hf S [T1 T2 T3]. split; [|done|done]. intros n es Hn.
  by apply (dir_at_same_fs st); [| |apply T1].
Qed.

Lemma find_first_hit f n c t len i :
  Forall (fun x => f x = false) n -> f c = true -> (length n < len)%nat ->
  find_first f (n ++ c :: t) len i = Ok (Some (i + zlen n)).
Proof.
  revert len i. induction n as [|x n IH]; intros len i Hn Hc Hl; (destruct len; cbn [length] in Hl; [lia|]);
    cbn [app find_first].
  - rewrite Hc. unfold zlen. cbn [length]. do 2 f_equal. lia.
  - apply Forall_cons in Hn as [-> Hn]. rewrite IH by (done || lia). unfold zlen. cbn [length].
    do 2 f_equal. lia.
Qed.

Lemma find_first_miss f n t i :
  Forall (fun x => f x = false) n -> find_first f (n ++ t) (length n) i = Ok None.
Proof.
  revert i. induction n as [|x n IH]; intros i Hn; cbn [app find_first length]; [done|].
  apply Forall_cons in Hn as [-> Hn]. by apply IH.
Qed.

Lemma not_slash n : 47 ∉ n -> Forall (fun c => (47 =? c) = false) n.
Proof.
  intros Hn. apply Forall_forall. intros c Hc. apply Z.eqb_neq. by intros <-.
Qed.

(** The bytes of a view, split at its end. *)
Lemma sv_bytes v : sv_ok v -> exists tail, sv_s v = text v ++ tail /\ sv_length v = zlen (text v).
Proof.
  intros Hv. exists (zdrop (sv_length v) (sv_s v)). split; [symmetry; apply ztake_zdrop|].
  symmetry. by apply text_len.
Qed.

Lemma split_path v n t :
  sv_ok v -> text v = n ++ 47 :: t -> 47 ∉ n ->
  exists r rest, sv_split_delim v (Some v) 47 = Ok (r, Some rest) /\
    sv_ok r /\ text r = n /\ sv_ok rest /\ text rest = t.
Proof.
  intros Hv Ht Hn. destruct (sv_bytes v Hv) as (tail & Hs & Hl). pose proof Hv as [_ Hmax].
  rewrite Ht in Hs, Hl. rewrite zlen_app in Hl. unfold zlen in Hl. cbn [length] in Hl.
  unfold sv_split_delim. rewrite Hs. rewrite <- app_assoc. cbn [app].
  rewrite find_first_hit; [|by apply not_slash|by apply Z.eqb_refl|lia].
  cbn [mbind outcome_bind fmap option_fmap option_map]. unfold sv_advance. rewrite Z.add_0_l.
  eexists _, _. split; [reflexivity|]. rewrite u32_small by (unfold zlen; lia).
  assert (Hz : zlen (n ++ 47 :: t ++ tail) = zlen n + 1 + zlen t + zlen tail).
  { rewrite zlen_app. unfold zlen. cbn [length]. rewrite length_app. lia. }
  pose proof (zlen_nonneg n). pose proof (zlen_nonneg t). pose proof (zlen_nonneg tail).
  assert (Hdrop : zdrop (zlen n + 1) (sv_s v) = t ++ tail).
  { rewrite Hs. replace ((n ++ 47 :: t) ++ tail) with ((n ++ [47]) ++ t ++ tail).
    - apply zdrop_app_exact. by rewrite zlen_app.
    - by rewrite <- !app_assoc. }
  split_and!.
  - split; cbn [sv_length sv_s]; [rewrite Hz; lia|]. unfold zlen in *. lia.
  - unfold text. cbn [sv_length sv_s]. by apply ztake_app_exact.
  - split; cbn [sv_length sv_s]; rewrite ?Hdrop, ?zlen_app; unfold zlen in *; lia.
  - unfold text. cbn [sv_length sv_s]. rewrite Hdrop. apply ztake_app_exact. unfold zlen in *. lia.
Qed.

Lemma split_last v :
  sv_ok v -> 47 ∉ text v -> sv_split_delim v (Some v) 47 = Ok (v, Some sv_null).
Proof.
  intros Hv Hn. destruct (sv_bytes v Hv) as (tail & Hs & Hl). unfold sv_split_delim. rewrite Hs, Hl.
  replace (Z.to_nat (zlen (text v))) with (length (text v)) by (unfold zlen; lia).
  by rewrite find_first_miss by (by apply not_slash).
Qed.

Lemma join_nonempty names : names <> [] -> Forall name_ok names -> join names <> [].
Proof.
  destruct names as [|n rest]; [done|]. intros _ [Hn _]%Forall_cons. destruct Hn as [Hn _].
  cbn [join]. destruct rest; [done|]. by destruct n.
Qed.

Lemma dir_find_in es n e : dir_find es n = Some e -> In e es.
Proof. intros H. by apply find_some in H as [H _]. Qed.

Lemma find_inode_loop_spec fuel st dirs cur v names :
  fs_ok st -> tree_ok st dirs -> is_Some (dirs cur) -> sv_ok v -> text v = join names ->
  names <> [] -> Forall name_ok names -> (length names <= fuel)%nat ->
  wp (find_inode_loop fuel cur v) (fun r st' => r = walk dirs cur names /\ same_fs st st') st.
Proof.
  revert st cur v names. induction fuel as [|fuel IH];
    intros st cur v names Hf T [es Hcur] Hv Ht Hne Hn Hfuel;
    (destruct names as [|n rest]; [done|]); cbn [length] in Hfuel; [lia|].
  pose proof (tk_dirs _ _ T _ _ Hcur) as D. pose proof (io_n _ _ (da_inode _ _ _ D)) as Hc.
  pose proof Hn as [[Hn1 [Hn2 Hn3]] Hrest]%Forall_cons.
  cbn [find_inode_loop walk]. rewrite Hcur. change (default [] (Some es)) with es.
  assert (Hino : forall e, dir_find es n = Some e -> 0 < d_ino e < 2 ^ 31).
  { intros e He%dir_find_in. pose proof (da_ok _ _ _ D) as Hok. rewrite Forall_forall in Hok.
    apply Hok. by apply list_elem_of_In. }
  destruct rest as [|m rest].
  - cbn [join] in Ht.
    eapply wp_lift; [apply split_last; [done|by rewrite Ht]|]. cbn [default from_option sv_isempty sv_null sv_length].
    change (0 =? 0) with true.
    wp_use (lookup_spec st cur es v) as r st1 [-> S1]; [done..|by rewrite Ht|].
    rewrite Ht. destruct (dir_find es n) as [e|] eqn:He.
    + pose proof (Hino e eq_refl). destruct (Z.eqb_spec (d_ino e) 0); [lia|].
      apply wp_ret. split; [|done]. by rewrite !u32_small by lia.
    + cbn [Z.eqb]. apply wp_ret. split; [by rewrite u32_small by lia|done].
  - change (join (n :: m :: rest)) with (n ++ 47 :: join (m :: rest)) in Ht.
    destruct (split_path v n (join (m :: rest)) Hv Ht Hn2) as (r & p & -> & Hr & Htr & Hp & Htp).
    eapply wp_lift; [reflexivity|]. cbn beta iota zeta. change (default v (Some p)) with p.
    assert (Hemp : sv_isempty p = false).
    { unfold sv_isempty. apply Z.eqb_neq. rewrite <- (text_len p Hp), Htp.
      pose proof (join_nonempty (m :: rest) ltac:(done) Hrest) as Hj.
      destruct (join (m :: rest)); [done|]. unfold zlen. cbn [length]. lia. }
    rewrite Hemp.
    wp_use (lookup_spec st cur es r) as x st1 [-> S1]; [done..|by rewrite Htr|].
    rewrite Htr. destruct (dir_find es n) as [e|] eqn:He.
    2: { cbn [Z.eqb]. apply wp_ret. split; [by rewrite u32_small by lia|done]. }
    pose proof (Hino e eq_refl). destruct (Z.eqb_spec (d_ino e) 0); [lia|]. cbn [deref].
    eapply wp_lift; [reflexivity|]. cbn [type_indicator d_header].
    rewrite Z.eqb_sym. destruct (Z.eqb_spec (d_type e) TYPE_INDICATOR_DIRECTORY) as [Hty|Hty]; cbn [negb].
    2: { apply wp_ret. split; [by rewrite u32_small by lia|done]. }
    eapply wp_mono; [apply (IH st1 (d_ino e) p (m :: rest))|].
    + apply S1.
    + by apply (tree_same_fs st).
    + apply (tk_closed _ _ T cur es e Hcur); [by eapply dir_find_in|done].
    + done.
    + done.
    + done.
    + done.
    + lia.
    + intros w st2 [-> S2]. split; [done|]. by eapply same_fs_trans.
Qed.

Lemma strlen_join names : Forall name_ok names -> strlen (47 :: join names ++ [0]) = Ok (1 + zlen (join names)).
Proof.
  intros Hn. assert (Hz : Forall (fun c => c <> 0) (join names)).
  { induction names as [|n rest IH]; [constructor|]. apply Forall_cons in Hn as [[_ [_ Hn]] Hr].
    assert (Hn' : Forall (fun c => c <> 0) n) by (apply Forall_forall; intros c Hc ->; done).
    cbn [join]. destruct rest; [done|]. apply Forall_app. split; [done|]. constructor; [done|by apply IH]. }
  unfold strlen. cbn [strlen_loop]. change (47 =? 0) with false.
  assert (Hl : forall l k, Forall (fun c => c <> 0) l -> strlen_loop (l ++ [0]) k = Ok (k + zlen l)).
  { induction l as [|x l IH]; intros k Hl; cbn [app strlen_loop].
    - change (0 =? 0) with true. change (zlen (@nil Z)) with 0. by rewrite Z.add_0_r.
    - apply Forall_cons in Hl as [Hx Hl]. destruct (Z.eqb_spec x 0); [done|].
      rewrite IH by done. unfold zlen. cbn [length]. f_equal. lia. }
  rewrite Hl by done. f_equal.
Qed.

Lemma length_join names : (length names <= S (length (join names)))%nat.
Proof.
  induction names as [|n rest IH]; [cbn; lia|]. cbn [join length]. destruct rest as [|m rest]; [cbn; lia|].
  rewrite length_app. cbn [length] in *. lia.
Qed.

Lemma find_inode_spec st dirs names :
  fs_ok st -> tree_ok st dirs -> names <> [] -> Forall name_ok names -> zlen (join names) < 2 ^ 31 ->
  wp (ext2_find_inode (47 :: join names ++ [0])) (fun r st' =>
    r = walk dirs EXT2_ROOT_INODE names /\ same_fs st st') st.
Proof.
  intros Hf T Hne Hn Hl. pose proof (join_nonempty names Hne Hn) as Hj.
  set (file := 47 :: join names ++ [0]).
  assert (Hc1 : exists c, aread file 1 = Ok c /\ c <> 0).
  { destruct names as [|[|c n] rest]; [done| |]; apply Forall_cons in Hn as [[H1 [H2 H3]] _]; [done|].
    exists c. split; [|intros ->; apply H3; by left].
    unfold file. cbn [join]. destruct rest; reflexivity. }
  destruct Hc1 as (c & Hc & Hc0).
  assert (Hp : sv_try_eat (mkSv file (1 + zlen (join names))) (mkSv [47; 0] 1) =
    Ok (true, mkSv (join names ++ [0]) (zlen (join names)))).
  { unfold sv_try_eat. cbn [sv_length sv_s]. pose proof (zlen_nonneg (join names)).
    destruct (Z.ltb_spec (1 + zlen (join names)) 1); [lia|]. unfold file.
    change (Z.to_nat 1) with 1%nat. cbn [same_bytes]. change (47 =? 47) with true.
    cbn [negb mbind outcome_bind]. do 3 f_equal. lia. }
  assert (Hwp : wp (find_inode_loop (S (length file)) EXT2_ROOT_INODE (mkSv (join names ++ [0]) (zlen (join names))))
    (fun r st' => r = walk dirs EXT2_ROOT_INODE names /\ same_fs st st') st).
  { assert (Ht : text (mkSv (join names ++ [0]) (zlen (join names))) = join names).
    { unfold text. cbn [sv_length sv_s]. by apply ztake_app_exact. }
    apply find_inode_loop_spec; try done; [apply T| |].
    - split; cbn [sv_length sv_s]; [|lia]. rewrite zlen_app. pose proof (zlen_nonneg (join names)).
      change (zlen [0]) with 1. lia.
    - pose proof (length_join names). unfold file. cbn [length]. rewrite length_app. cbn [length]. lia. }
  destruct Hwp as (r & st' & E & -> & S). exists (walk dirs EXT2_ROOT_INODE names), st'. split; [|done].
  unfold ext2_find_inode. change (aread file 0) with (@Ok Z 47). rewrite lift_bind.
  change (47 =? 47) with true. cbn iota. rewrite Hc, lift_bind.
  destruct (Z.eqb_spec c 0); [done|]. cbn [andb]. assert (Hsl : strlen file = Ok (1 + zlen (join names))) by (by apply strlen_join). rewrite Hsl.
  rewrite lift_bind, Hp, lift_bind. exact E.
Qed.

(** C12: [ext2_find_inode] resolves absolute paths: each component is looked up in
    the directory reached so far, all but the last must be directories, and the
    result is the inode of the last entry, or 0 when a name is missing; the
    search terminates and changes nothing. *)
Theorem find_inode_resolves st dirs names :
  fs_ok st -> tree_ok st dirs -> names <> [] -> Forall name_ok names -> zlen (join names) < 2 ^ 31 ->
  exists st', ext2_find_inode (47 :: join names ++ [0]) st =
      Ok (walk dirs EXT2_ROOT_INODE names, st') /\ same_fs st st'.
Proof.
  intros Hf T Hne Hn Hl. destruct (find_inode_spec st dirs names) as (r & st' & E & -> & S); [done..|].
  by exists st'.
Qed.
End Directories.

(** ** An example: a root directory with one file *)

Definition rt_entries : list dent :=
  [mkDent 2 2 [46] [0; 0; 0]; mkDent 2 2 [46; 46] [0; 0]; mkDent 3 1 [97] (replicate 991 0)].
Definition rt_inode : list Z :=
  replicate 4 0 ++ le32_bytes 1024 ++ replicate 20 0 ++ le32_bytes 2 ++ replicate 8 0 ++
  le32_bytes 6 ++ replicate 84 0.
Definition rt_fs : ext2 :=
  mkExt2 (replicate 2048 0 ++ ex_desc ++ replicate 2048 0 ++
          (replicate 128 0 ++ rt_inode ++ replicate 768 0) ++ dir_data rt_entries ++ replicate 1024 65)
    (replicate 4 (mkCache false 0 0 (replicate 1024 0) false))
    ex_sb false 1024 128 (-1) [] [mkOpen 3 1 false] 5 0.

Lemma rt_disk_len : zlen (disk rt_fs) = 8192.
Proof. vm_compute. reflexivity. Qed.

Lemma rt_block b : 0 <= b < 8 -> block_ok rt_fs b.
Proof.
  intros Hb. split; [lia|]. rewrite rt_disk_len. change (block_byte_size rt_fs) with 1024. lia.
Qed.

Lemma rt_fs_ok : fs_ok rt_fs.
Proof.
  split; [|cbn; lia|vm_compute; done|vm_compute; done|by left].
  split; [cbn; lia|rewrite rt_disk_len; lia|done| |].
  - repeat constructor; try done; vm_compute; reflexivity.
  - intros i j e e' Hi Hj He. apply list_elem_of_lookup_2, elem_of_replicate in Hi as [-> _]. done.
Qed.

Lemma rt_pos n : 0 < n <= 8 -> inode_pos rt_fs n = (5, (n - 1) * 128).
Proof.
  intros Hn. assert (n = 1 \/ n = 2 \/ n = 3 \/ n = 4 \/ n = 5 \/ n = 6 \/ n = 7 \/ n = 8) as Hc by lia.
  repeat destruct Hc as [->|Hc]; try subst n; vm_compute; reflexivity.
Qed.

Lemma rt_inode_ok n : 0 < n <= 8 -> inode_ok rt_fs n.
Proof.
  intros Hn. pose proof (rt_pos n Hn) as Hp.
  assert (Hper : inodes_per_group rt_fs = 8) by (vm_compute; reflexivity).
  assert (Hnum : word (sb_bytes rt_fs) SB_num_inodes = 8) by (vm_compute; reflexivity).
  split; rewrite ?Hp, ?Hnum, ?Hper; cbn [fst snd]; try lia.
  - apply rt_block. cbn. lia.
  - unfold inode_group. rewrite Hper, Z.div_small by lia. cbn. lia.
  - apply rt_block. lia.
  - change (block_byte_size rt_fs) with 1024. change (inode_size rt_fs) with 128. lia.
Qed.

Lemma rt_size : file_size (inode_at rt_fs 2) = 1024.
Proof. vm_compute. reflexivity. Qed.

Lemma rt_root j : 0 <= j < 1 ->
  block_of (bview rt_fs) (block_byte_size rt_fs) (inode_at rt_fs 2) j = 6 /\
  path (bview rt_fs) (block_byte_size rt_fs) (inode_at rt_fs 2) j = [].
Proof. intros Hj. assert (j = 0) as -> by lia. split; vm_compute; reflexivity. Qed.

Lemma rt_mapped j : 0 <= j < 1 -> mapped rt_fs (inode_at rt_fs 2) j.
Proof.
  intros Hj. destruct (rt_root j Hj) as [Hb Hp].
  split; [|by rewrite Hp|cbn zeta; rewrite Hb; right; by apply rt_block].
  split; [lia|left]. change (block_byte_size rt_fs / 4) with 256. lia.
Qed.

Lemma rt_entries_ok : Forall dent_ok rt_entries.
Proof.
  constructor; [|constructor; [|constructor; [|constructor]]].
  all: split; [split; reflexivity|split; reflexivity|vm_compute; reflexivity|vm_compute; discriminate].
Qed.

Lemma rt_data : file_range (bview rt_fs) (block_byte_size rt_fs) (inode_at rt_fs 2) 0
  (file_size (inode_at rt_fs 2)) = dir_data rt_entries.
Proof. vm_compute. reflexivity. Qed.

Lemma rt_dir_at : dir_at rt_fs 2 rt_entries.
Proof.
  split; [by apply rt_inode_ok|rewrite rt_size; lia| |apply rt_data|apply rt_entries_ok].
  rewrite rt_size. intros k Hk. change (block_byte_size rt_fs) with 1024.
  apply rt_mapped. rewrite Z.div_small by lia. lia.
Qed.

Definition rt_dirs (n : Z) : option (list dent) := if n =? 2 then Some rt_entries else None.

Lemma rt_tree : tree_ok rt_fs rt_dirs.
Proof.
  assert (Hd : forall n es, rt_dirs n = Some es -> n = 2 /\ es = rt_entries).
  { intros n es. unfold rt_dirs. destruct (Z.eqb_spec n 2); [|done]. by intros [= <-]. }
  split; [intros n es [-> ->]%Hd; apply rt_dir_at| |done].
  intros n es e [-> ->]%Hd [<-|[<-|[<-|[]]]]; by intros.
Qed.

Lemma rt_names : Forall name_ok [[97]].
Proof.
  constructor; [|constructor]. split_and!; [done|..]; rewrite list_elem_of_singleton; lia.
Qed.

Lemma find_inode_resolves_witness :
  exists st', ext2_find_inode [47; 97; 0] rt_fs = Ok ((3, 2), st') /\ same_fs rt_fs st'.
Proof.
  refine (find_inode_resolves rt_fs rt_dirs [[97]] rt_fs_ok rt_tree _ rt_names _); done.
Defined.
