(* ===== verification/Ext2Entries.v ===== *)
(** kernel/fs/ext2.c: adding names to directories and removing them. *)

From stdpp Require Import base numbers list gmap.
From Stdlib Require Import ZArith Lia.
From S2P Require Import Prelude StateM Bytes KString Sv Ext2Cache Ext2 Ext2Inode Ext2File Ext2Dir Ext2Names.

Open Scope Z_scope.

(** ** Inserting an entry *)

Definition real_size (e : dent) : Z := ALIGN (sizeof_direntry + zlen (d_name e)) 4.
Definition padding (e : dent) : Z := d_size e - real_size e.

Lemma ALIGN_4 x : 0 <= x -> x <= ALIGN x 4 < x + 4.
Proof.
  intros Hx. unfold ALIGN. pose proof (Z.mod_pos_bound x 4 ltac:(lia)).
  destruct (Z.eqb_spec (x mod 4) 0); cbn [negb]; lia.
Qed.

(** The first entry with room for [want] more bytes, where they do not reach the
    next block. *)
Fixpoint find_slot (es : list dent) (bbs pos want : Z) : option (list dent * dent * list dent) :=
  match es with
  | [] => None
  | e :: es =>
    if (want <=? padding e) && (u32 pos mod bbs + want <=? bbs) then Some ([], e, es) else
    match find_slot es bbs (pos + d_size e) want with
    | Some (es1, f, es2) => Some (e :: es1, f, es2)
    | None => None
    end
  end.

Lemma find_slot_split es bbs pos want es1 e es2 :
  find_slot es bbs pos want = Some (es1, e, es2) -> es = es1 ++ e :: es2 /\ want <= padding e.
Proof.
  revert pos es1. induction es as [|f es IH]; intros pos es1 H; cbn [find_slot] in H; [done|].
  destruct ((want <=? padding f) && (u32 pos mod bbs + want <=? bbs)) eqn:E.
  - injection H as <- <- <-. breflect. split; [done|lia].
  - destruct (find_slot es bbs (pos + d_size f) want) as [[[l g] r]|] eqn:F; [|done].
    injection H as <- <- <-. destruct (IH _ _ F) as [-> ?]. done.
Qed.

Lemma le16_size pre e l : dent_ok e -> le16_at (pre ++ enc e ++ l) (zlen pre + 4) = Ok (d_size e).
Proof.
  intros He. destruct (d_header_fits e He) as [_ Hf]. rewrite le16_at_shift by lia.
  change (le16_at (enc e ++ l) 4) with (@Ok Z (le16 (d_size e mod 2 ^ 8) (d_size e / 2 ^ 8 mod 2 ^ 8))).
  by rewrite le16_le16_bytes.
Qed.

Lemma aread_namelen pre e l : aread (pre ++ enc e ++ l) (zlen pre + 6) = Ok (zlen (d_name e)).
Proof. by rewrite aread_app_r by lia. Qed.

Lemma free_position_spec fuel pre es bbs want :
  Forall dent_ok es -> 0 < bbs < 2 ^ 31 -> 0 <= want < 2 ^ 31 -> (length es < fuel)%nat ->
  free_position_loop fuel (pre ++ dir_data es) bbs (zlen pre) want =
  Ok (match find_slot es bbs (zlen pre) want with
      | Some (es1, e, _) => Some (zlen pre + zlen (dir_data es1), d_header e, padding e)
      | None => None
      end).
Proof.
  revert pre fuel. induction es as [|e es IH]; intros pre [|fuel] Hes Hb Hw Hfuel;
    cbn [length] in Hfuel; try lia; cbn [free_position_loop find_slot].
  { rewrite app_nil_r. by destruct (Z.ltb_spec (zlen pre) (zlen pre)); [lia|]. }
  pose proof Hes as [He Hes']%Forall_cons. pose proof (d_size_pos e) as Hs.
  rewrite dir_data_cons. pose proof (zlen_nonneg (dir_data es)).
  assert (Hz : zlen (pre ++ enc e ++ dir_data es) = zlen pre + d_size e + zlen (dir_data es)).
  { rewrite !zlen_app, zlen_enc. lia. }
  rewrite Hz. destruct (Z.ltb_spec (zlen pre) (zlen pre + d_size e + zlen (dir_data es))); [|lia].
  cbn [negb]. rewrite le16_size by done. cbn [mbind outcome_bind].
  destruct (Z.eqb_spec (d_size e) 0); [lia|]. rewrite aread_namelen. cbn [mbind outcome_bind].
  pose proof He as [K1 K2 K3 K4]. pose proof (ALIGN_4 (sizeof_direntry + zlen (d_name e))) as Ha.
  fold (real_size e) in K4, Ha |- *. unfold sizeof_direntry in Ha.
  rewrite (u64_small (d_size e - real_size e)) by lia. fold (padding e).
  pose proof (Z.mod_pos_bound (u32 (zlen pre)) bbs ltac:(lia)) as Hm.
  rewrite (u32_small (u32 (zlen pre) mod bbs + want)) by lia.
  rewrite (Z.leb_antisym bbs).
  assert (Hnext : free_position_loop fuel (pre ++ enc e ++ dir_data es) bbs (zlen pre + d_size e) want =
    Ok (match find_slot es bbs (zlen pre + d_size e) want with
        | Some (es1, f, _) => Some (zlen pre + d_size e + zlen (dir_data es1), d_header f, padding f)
        | None => None end)).
  { assert (Hp : zlen (pre ++ enc e) = zlen pre + d_size e) by (by rewrite zlen_app, zlen_enc).
    rewrite app_assoc, <- Hp, IH by (done || lia). destruct (find_slot es bbs _ want) as [[[??]?]|]; [|done].
    by rewrite Hp. }
  assert (Hres : Ok (match (match find_slot es bbs (zlen pre + d_size e) want with
        | Some (es1, f, es2) => Some (e :: es1, f, es2) | None => None end) with
        | Some (es1, e, _) => Some (zlen pre + zlen (dir_data es1), d_header e, padding e)
        | None => None end) =
    Ok (match find_slot es bbs (zlen pre + d_size e) want with
        | Some (es1, f, _) => Some (zlen pre + d_size e + zlen (dir_data es1), d_header f, padding f)
        | None => None end)).
  { destruct (find_slot es bbs (zlen pre + d_size e) want) as [[[l g] r]|]; [|done].
    rewrite dir_data_cons, zlen_app, zlen_enc. do 4 f_equal. lia. }
  destruct (want <=? padding e) eqn:Ew; cbn [andb]; [|cbn [mbind outcome_bind]; by rewrite Hnext, Hres].
  destruct (bbs <? u32 (zlen pre) mod bbs + want) eqn:Eb; cbn [negb].
  - cbn [mbind outcome_bind]. by rewrite Hnext, Hres.
  - rewrite entry_at_enc by done. cbn [mbind outcome_bind]. rewrite u32_small.
    + change (zlen (dir_data [])) with 0. by rewrite Z.add_0_r.
    + unfold padding. breflect. lia.
Qed.

(** The entry without the room behind it, and the new entry in that room. *)
Definition shrink (e : dent) : dent :=
  mkDent (d_ino e) (d_type e) (d_name e) (ztake (real_size e - sizeof_direntry - zlen (d_name e)) (d_slack e)).
Definition new_dent (ino type : Z) (name : list Z) (room : Z) : dent :=
  mkDent ino type name (replicate (Z.to_nat (room - sizeof_direntry - zlen name)) 0).

Lemma splice_mid {A} (a x c y : list A) :
  zlen x = zlen y -> splice (a ++ x ++ c) (zlen a) y = a ++ y ++ c.
Proof.
  intros Hz. unfold splice. rewrite ztake_app_exact by done. f_equal. f_equal.
  rewrite app_assoc. apply zdrop_app_exact. rewrite zlen_app. lia.
Qed.

Lemma d_size_shrink e : dent_ok e -> d_size (shrink e) = real_size e.
Proof.
  intros [_ K2 _ K4]. fold (real_size e) in K4. unfold shrink, d_size in *. cbn [d_name d_slack].
  pose proof (ALIGN_4 (sizeof_direntry + zlen (d_name e))) as Ha. fold (real_size e) in Ha.
  unfold sizeof_direntry in *. rewrite zlen_ztake; lia.
Qed.

Lemma d_size_new ino type name room :
  sizeof_direntry + zlen name <= room -> d_size (new_dent ino type name room) = room.
Proof.
  intros Hr. unfold new_dent, d_size. cbn [d_name d_slack]. unfold zlen at 2. rewrite length_replicate. lia.
Qed.

(** The two stores of [ext2_create_entry] into the bytes of a directory. *)
Lemma insert_data es1 e es2 ino type name :
  dent_ok e -> sizeof_direntry + zlen name <= padding e ->
  let data := dir_data (es1 ++ e :: es2) in
  let pos := zlen (dir_data es1) in
  splice (splice data pos (entry_bytes (d_header (shrink e)))) (pos + real_size e)
    (enc (new_dent ino type name (padding e))) =
  dir_data (es1 ++ shrink e :: new_dent ino type name (padding e) :: es2).
Proof.
  intros He Hp data pos. set (nw := new_dent ino type name (padding e)).
  set (k := real_size e - sizeof_direntry - zlen (d_name e)).
  pose proof (ALIGN_4 (sizeof_direntry + zlen (d_name e))) as Ha. fold (real_size e) in Ha.
  pose proof (zlen_nonneg name). unfold sizeof_direntry in *.
  assert (Hk : 0 <= k <= zlen (d_slack e)).
  { pose proof (zlen_nonneg (d_name e)). unfold padding, d_size, sizeof_direntry in Hp. unfold k. lia. }
  assert (Henc : enc e ++ dir_data es2 =
    entry_bytes (d_header e) ++ d_name e ++ ztake k (d_slack e) ++ zdrop k (d_slack e) ++ dir_data es2).
  { unfold enc. by rewrite (app_assoc (ztake k _)), ztake_zdrop, <- !app_assoc. }
  assert (Hsh : forall l, entry_bytes (d_header (shrink e)) ++ d_name e ++ ztake k (d_slack e) ++ l =
    enc (shrink e) ++ l) by (intros l; unfold enc; by rewrite <- !app_assoc).
  unfold data. rewrite !dir_data_app, !dir_data_cons, Henc.
  fold pos. unfold pos at 1. rewrite splice_mid, Hsh by done.
  rewrite (app_assoc (dir_data es1)).
  replace (pos + real_size e) with (zlen (dir_data es1 ++ enc (shrink e)))
    by (rewrite zlen_app, zlen_enc, d_size_shrink by done; done).
  rewrite splice_mid; [by rewrite <- app_assoc|].
  rewrite zlen_enc. unfold nw. rewrite d_size_new by (unfold sizeof_direntry; lia).
  rewrite zlen_zdrop by done. unfold padding, d_size, sizeof_direntry, k. lia.
Qed.

(** What lookups find afterwards. *)
Lemma dir_find_app es1 es2 n :
  dir_find (es1 ++ es2) n = match dir_find es1 n with Some e => Some e | None => dir_find es2 n end.
Proof.
  unfold dir_find. induction es1 as [|e es1 IH]; [done|]. cbn [app List.find]. by case_bool_decide.
Qed.

Lemma dir_find_cons e es n : dir_find (e :: es) n = if bool_decide (d_name e = n) then Some e else dir_find es n.
Proof. done. Qed.

Lemma dir_find_insert es1 e es2 ino type name other :
  dir_find (es1 ++ e :: es2) name = None ->
  d_ino <$> dir_find (es1 ++ shrink e :: new_dent ino type name (padding e) :: es2) other =
  if bool_decide (name = other) then Some ino else d_ino <$> dir_find (es1 ++ e :: es2) other.
Proof.
  rewrite !dir_find_app, !dir_find_cons. cbn [shrink new_dent d_name]. intros Hn.
  destruct (bool_decide (name = other)) eqn:E.
  - apply bool_decide_eq_true in E as <-. destruct (dir_find es1 name); [done|].
    by destruct (bool_decide (d_name e = name)).
  - by repeat case_match.
Qed.

(** ** Files written in place *)

Definition contents (st : ext2) (n : Z) : list Z :=
  file_range (bview st) (block_byte_size st) (inode_at st n) 0 (file_size (inode_at st n)).

(** A file with the blocks its size calls for, below 4 GiB. *)
Record writable (st : ext2) (n : Z) : Prop := {
  wr_fs : fs_ok st;
  wr_layout : layout_ok st;
  wr_sb : superblock_changed st = false;
  wr_size : 0 <= file_size (inode_at st n) < 2 ^ 32;
  wr_file : file_ok st n (blocks_for (file_size (inode_at st n)) (block_byte_size st));
  wr_sectors : word (inode_at st n) I_num_disk_sectors / (block_byte_size st / SECTOR_SIZE) =
    blocks_for (file_size (inode_at st n)) (block_byte_size st)
}.

(** [st'] differs from [st] in the contents of file [n] and in its inode only. *)
Record only_file (st st' : ext2) (n : Z) : Prop := {
  of_frame : fs_frame st st';
  of_pos : inode_pos st' n = inode_pos st n;
  of_size : file_size (inode_at st' n) = file_size (inode_at st n);
  of_map : forall j, 0 <= j < blocks_for (file_size (inode_at st n)) (block_byte_size st) ->
    block_of (bview st') (block_byte_size st) (inode_at st' n) j =
    block_of (bview st) (block_byte_size st) (inode_at st n) j;
  of_other : forall b, block_ok st b -> b <> fst (inode_pos st n) ->
    (forall j, 0 <= j < blocks_for (file_size (inode_at st n)) (block_byte_size st) ->
       b <> block_of (bview st) (block_byte_size st) (inode_at st n) j) ->
    bview st' b = bview st b;
  of_desc : bview st' (desc_block st) = bview st (desc_block st);
  of_inodes : forall m, inode_ok st m -> m <> n ->
    (forall j, 0 <= j < blocks_for (file_size (inode_at st n)) (block_byte_size st) ->
       fst (inode_pos st m) <> block_of (bview st) (block_byte_size st) (inode_at st n) j) ->
    inode_at st' m = inode_at st m
}.

Lemma zlen_contents st n : 0 <= file_size (inode_at st n) -> zlen (contents st n) = file_size (inode_at st n).
Proof. intros. by apply zlen_file_range. Qed.

Lemma only_file_trans st1 st2 st3 n : only_file st1 st2 n -> only_file st2 st3 n -> only_file st1 st3 n.
Proof.
  intros [F1 P1 S1 M1 O1 D1 I1] [F2 P2 S2 M2 O2 D2 I2].
  assert (Ed : desc_block st2 = desc_block st1) by (unfold desc_block; by rewrite (fr_bbs _ _ F1)).
  rewrite S1, (fr_bbs _ _ F1) in *. rewrite Ed in D2.
  split; [by eapply fs_frame_trans|congruence|congruence| | |congruence|].
  - intros j Hj. by rewrite M2, M1.
  - intros b Hb Hp Hj. rewrite O2; [by apply O1|by rewrite (fs_frame_block_ok _ _ _ F1)|congruence|].
    intros j Hj'. rewrite M1 by done. by apply Hj.
  - intros m Hm Hne Hj. rewrite I2; [by apply I1|by apply (inode_ok_stable st1)|done|].
    intros j Hj'. rewrite M1, (inode_pos_stable st1 st2) by done. by apply Hj.
Qed.

Lemma only_file_same_fs st st' n : writable st n -> same_fs st st' -> only_file st st' n.
Proof.
  intros W S. destruct (same_fs_inode _ _ n S (fk_inode _ _ _ (wr_file _ _ W))) as (_ & Ha & Hp).
  destruct (file_blocks_same_fs _ _ _ _ S (fk_blocks _ _ _ (wr_file _ _ W))) as [_ Hm].
  split; rewrite ?Ha; try done; [apply S| |apply S, (fk_inode _ _ _ (wr_file _ _ W))|].
  - intros b Hb _ _. by apply S.
  - intros m Hi _ _. by destruct (same_fs_inode _ _ m S Hi) as (_ & ? & _).
Qed.

Lemma writable_same_fs st st' n : writable st n -> same_fs st st' -> writable st' n.
Proof.
  intros W S. pose proof W as [W1 W2 W3 W4 W5 W6]. pose proof (sf_frame _ _ S) as F.
  destruct (same_fs_inode _ _ n S (fk_inode _ _ _ W5)) as (_ & Ha & Hp).
  split; rewrite ?Ha, ?(fr_bbs _ _ F); try done.
  - apply S.
  - eapply layout_ok_stable; [exact F| |done]. apply S, (io_desc _ _ (fk_inode _ _ _ W5)).
  - by rewrite (fr_changed _ _ F).
  - by apply (file_ok_same_fs st).
Qed.

Lemma contents_splice st st' n off d :
  0 <= off -> off + zlen d <= file_size (inode_at st n) -> block_byte_size st' = block_byte_size st ->
  file_size (inode_at st' n) = file_size (inode_at st n) ->
  (forall k, 0 <= k < file_size (inode_at st n) ->
    file_byte (bview st') (block_byte_size st) (inode_at st' n) k =
    if (off <=? k) && (k <? off + zlen d) then byte_of d (k - off)
    else file_byte (bview st) (block_byte_size st) (inode_at st n) k) ->
  contents st' n = splice (contents st n) off d.
Proof.
  intros Ho Hd B Sz H. pose proof (zlen_nonneg d). unfold contents. rewrite B, Sz.
  apply znth_ext; rewrite ?zlen_splice; rewrite ?zlen_file_range by lia; try lia.
  intros i Hi. rewrite znth_file_range, H by lia. rewrite znth_splice by (rewrite ?zlen_file_range; lia).
  rewrite Z.add_0_l. destruct (Z.leb_spec off i), (Z.ltb_spec i (off + zlen d)); cbn [andb].
  2-4: by rewrite znth_file_range by lia.
  unfold byte_of. by destruct (znth_Some d (i - off) ltac:(lia)) as [x ->].
Qed.

Lemma word_sized_sectors inode sectors fsize :
  sizeof_inode <= zlen inode -> fits 32 sectors ->
  word (sized inode sectors fsize) I_num_disk_sectors = sectors.
Proof.
  intros Hz Hs. unfold sized. assert (H4 : forall v, zlen (le32_bytes v) = 4) by done.
  unfold sizeof_inode, I_num_disk_sectors, I_low_32size, I_upper_32size in *.
  rewrite 2!word_splice_other; rewrite ?H4, ?zlen_splice; rewrite ?H4, ?zlen_splice; rewrite ?H4; try lia.
  apply word_splice_same; [done|lia|lia].
Qed.

Lemma writable_after st st' n off d sectors :
  writable st n ->
  file_overwritten st st' n (blocks_for (file_size (inode_at st n)) (block_byte_size st)) off d
    (file_size (inode_at st n)) sectors ->
  sectors / (block_byte_size st / SECTOR_SIZE) =
    blocks_for (file_size (inode_at st n)) (block_byte_size st) -> fits 32 sectors ->
  file_size (inode_at st' n) = file_size (inode_at st n) /\ writable st' n /\ only_file st st' n.
Proof.
  intros W O Hs Hs32. pose proof W as [W1 W2 W3 W4 W5 W6]. pose proof (fo_bbs _ W1) as Hb.
  pose proof (ow_frame _ _ _ _ _ _ _ _ O) as F. pose proof (fr_bbs _ _ F) as B.
  set (N := blocks_for _ _) in *. set (fsize := file_size (inode_at st n)) in *.
  assert (Hlen : zlen (inode_at st n) = sizeof_inode) by (apply inode_at_len; [done|apply W5]).
  assert (Hsz : file_size (inode_at st' n) = fsize).
  { rewrite (ow_head _ _ _ _ _ _ _ _ O). apply file_size_sized; lia. }
  assert (Hpos : inode_pos st' n = inode_pos st n) by (apply inode_pos_stable; [done|apply O]).
  split_and!; [done| |].
  - split; rewrite ?Hsz, ?B; fold N; try done; [apply O| | | |].
    + eapply layout_ok_stable; [apply O|apply O|done].
    + by rewrite (fr_changed _ _ F).
    + destruct W5 as [K1 K2 K3 K4 K5]. split; rewrite ?B, ?Hpos.
      * apply O.
      * apply O.
      * intros j Hj. destruct (ow_map _ _ _ _ _ _ _ _ O j Hj) as [-> _]. by apply K3.
      * intros j Hj. unfold desc_block. rewrite B. destruct (ow_map _ _ _ _ _ _ _ _ O j Hj) as [-> _]. by apply K4.
      * intros j Hj. destruct (ow_map _ _ _ _ _ _ _ _ O j Hj) as [_ ->]. by apply K5.
    + rewrite (ow_head _ _ _ _ _ _ _ _ O). rewrite <- Hs. f_equal. apply word_sized_sectors; [lia|done].
  - split; fold fsize; fold N; try done.
    + intros j Hj. by destruct (ow_map _ _ _ _ _ _ _ _ O j Hj).
    + intros b Hb1 Hb2 Hb3. by apply O.
    + apply O.
    + intros m Hm Hne Hj. by apply (ow_inodes _ _ _ _ _ _ _ _ O m Hm Hne Hj).
Qed.

(** A file of which no block moved. *)
Lemma contents_stable st st' m :
  block_byte_size st' = block_byte_size st -> inode_at st' m = inode_at st m ->
  blocks_mapped st (inode_at st m) 0 (file_size (inode_at st m)) ->
  (forall k b, 0 <= k < file_size (inode_at st m) ->
    b ∈ block_of (bview st) (block_byte_size st) (inode_at st m) (k / block_byte_size st) ::
        path (bview st) (block_byte_size st) (inode_at st m) (k / block_byte_size st) ->
    block_ok st b -> bview st' b = bview st b) ->
  contents st' m = contents st m.
Proof.
  intros B A Hm Hv. unfold contents. rewrite A, B. apply file_range_ext. intros k Hk. rewrite Z.add_0_l in Hk.
  pose proof (Hm k Hk) as M. pose proof (mp_path _ _ _ M) as P. rewrite Forall_forall in P.
  destruct (block_of_stable (bview st) (bview st') (block_byte_size st) (inode_at st m)
    (k / block_byte_size st)) as [E _].
  { intros b Hb. apply (Hv k); [done|by right|by apply P]. }
  unfold file_byte. rewrite E. destruct (mp_block _ _ _ M) as [E0|Hok]; [by rewrite E0|].
  rewrite (Hv k); [done|done|by left|done].
Qed.

Lemma write_in_place st n d off :
  writable st n -> 0 <= off -> off + zlen d <= file_size (inode_at st n) ->
  wp (write_inode n d (zlen d) off false) (fun r st' => r = zlen d /\ writable st' n /\
    only_file st st' n /\ contents st' n = splice (contents st n) off d) st.
Proof.
  intros W Ho Hd. pose proof W as [W1 W2 W3 W4 W5 W6]. pose proof (zlen_nonneg d). pose proof (fo_bbs _ W1) as Hb.
  set (N := blocks_for (file_size (inode_at st n)) (block_byte_size st)).
  destruct (blocks_for_bound (file_size (inode_at st n)) (block_byte_size st)) as (HN1 & HN2 & HN3); [lia..|].
  fold N in HN1, HN2, HN3. fold N in W5, W6.
  eapply wp_mono; [apply (write_inode_spec st n d (zlen d) off (file_size (inode_at st n)) N)|]; try done; try lia.
  intros r st' (-> & O & _). rewrite ztake_all in O by lia.
  destruct (writable_after st st' n off d _ W O) as (Hsz & W' & OF).
  - fold N. assert (2 <= block_byte_size st / SECTOR_SIZE)
      by (apply Z.div_le_lower_bound; unfold SECTOR_SIZE; lia).
    rewrite u32_small; [by apply Z.div_mul; lia|].
    assert (block_byte_size st / SECTOR_SIZE * SECTOR_SIZE <= block_byte_size st)
      by (rewrite Z.mul_comm; apply Z.mul_div_le; done).
    unfold SECTOR_SIZE in *. set (q := block_byte_size st / 512) in *.
    assert (N * (q * 512) <= N * block_byte_size st) by (apply Z.mul_le_mono_nonneg_l; lia).
    assert (0 <= N * q) by (apply Z.mul_nonneg_nonneg; lia).
    destruct (Z.eq_dec N 0) as [->|]; [lia|]. destruct (Z.eq_dec (file_size (inode_at st n)) 0) as [E0|]; [|lia].
    exfalso. unfold N in *. rewrite E0 in *. done.
  - apply u32_fits.
  - split_and!; [done|done|done|]. apply contents_splice; try done; [apply (ow_frame _ _ _ _ _ _ _ _ O)|].
    intros k Hk. apply (ow_bytes _ _ _ _ _ _ _ _ O). lia.
Qed.

Section Entries.
Implicit Types st : ext2.

(** A directory that can be written in place. *)
Record directory st (n : Z) (es : list dent) : Prop := {
  dr_writable : writable st n;
  dr_data : contents st n = dir_data es;
  dr_ok : Forall dent_ok es
}.

Lemma directory_dir_at st n es : directory st n es -> dir_at st n es.
Proof.
  intros [[W1 W2 W3 W4 W5 W6] D O]. pose proof (fo_bbs _ W1).
  split; try done; [apply W5|]. intros k Hk. apply (fk_blocks _ _ _ W5).
  apply byte_block; [lia|].
  destruct (blocks_for_bound (file_size (inode_at st n)) (block_byte_size st)) as (HN1 & _ & _); lia.
Qed.

Lemma directory_size st n es : directory st n es -> file_size (inode_at st n) = zlen (dir_data es).
Proof. intros [W D _]. rewrite <- D. symmetry. apply zlen_contents, W. Qed.

Lemma contents_same_fs st st' n es : fs_ok st -> same_fs st st' -> dir_at st n es -> contents st' n = contents st n.
Proof.
  intros Hf S D. unfold contents. rewrite (da_data _ _ _ D).
  apply (da_data _ _ _ (dir_at_same_fs _ _ _ _ Hf S D)).
Qed.

Lemma directory_same_fs st st' n es : same_fs st st' -> directory st n es -> directory st' n es.
Proof.
  intros S D. pose proof (directory_dir_at _ _ _ D). destruct D as [W D O]. split; [by apply (writable_same_fs st)| |done].
  rewrite <- D. by eapply contents_same_fs; [apply W| |].
Qed.

(** The size and the bytes of a directory, as its functions fetch them. *)
Lemma read_directory_spec {B} st n es (k : Z -> list Z -> E B) Q :
  directory st n es ->
  (forall st', same_fs st st' -> wp (k (zlen (dir_data es)) (dir_data es)) Q st') ->
  wp (file_size ← get_inode_data_size n; '(data, _) ← read_inode n file_size 0; k file_size data) Q st.
Proof.
  intros D Hk. pose proof (directory_dir_at _ _ _ D) as [D1 D2 D3 D4 D5].
  pose proof (directory_size _ _ _ D) as Hs. unfold get_inode_data_size. apply wp_bind.
  wp_use (read_inode_spec st n 0 0) as r st1 [-> S1]; [apply D|done|lia|done|lia|lia|]. apply wp_ret.
  pose proof (directory_same_fs _ _ _ _ S1 D) as D'. pose proof (directory_dir_at _ _ _ D') as [E1 E2 E3 E4 E5].
  pose proof (directory_size _ _ _ D') as Hs'.
  assert (Hss : file_size (inode_at st n) = file_size (inode_at st1 n)) by lia. rewrite Hss.
  wp_use (read_inode_spec st1 n (file_size (inode_at st1 n)) 0) as r st2 [-> S2]; [apply D'|done|lia|done|lia|lia|].
  rewrite Z.sub_0_r, Z.max_r, Z.min_l by lia. rewrite E4, Hs'.
  apply Hk. by eapply same_fs_trans.
Qed.

Lemma find_slot_want es bbs pos want :
  0 < want -> find_slot es bbs pos want = None \/
  exists es1 e es2, find_slot es bbs pos want = Some (es1, e, es2) /\ es = es1 ++ e :: es2 /\ want <= padding e.
Proof.
  intros Hw. destruct (find_slot es bbs pos want) as [[[es1 e] es2]|] eqn:E; [|by left].
  right. exists es1, e, es2. split; [done|]. by eapply find_slot_split.
Qed.

Lemma find_free_position_spec st n es want :
  directory st n es -> 0 <= want < 2 ^ 31 ->
  wp (find_free_position n want) (fun r st' => same_fs st st' /\
    r = match find_slot es (block_byte_size st) 0 want with
        | Some (es1, e, _) => (zlen (dir_data es1), Some (d_header e), padding e)
        | None => (zlen (dir_data es), None, block_byte_size st)
        end) st.
Proof.
  intros D Hw. unfold find_free_position. pose proof (fo_bbs _ (wr_fs _ _ (dr_writable _ _ _ D))).
  apply (read_directory_spec st n es); [done|]. intros st1 S1. wp_simpl.
  rewrite (fr_bbs _ _ (sf_frame _ _ S1)).
  eapply wp_lift; [apply (free_position_spec _ [] es); [apply D|lia|lia|]|].
  { pose proof (length_dir_data es). cbn [app]. lia. }
  change (zlen []) with 0.
  destruct (find_slot es (block_byte_size st) 0 want) as [[[es1 e] es2]|]; apply wp_ret; done.
Qed.

(** The buffer [ext2_create_entry] builds. *)
Lemma entry_buffer ino type nm tl room :
  0 < zlen nm < 256 -> sizeof_direntry + zlen nm <= room < 2 ^ 16 ->
  exists b, memcpy_at (replicate (Z.to_nat room) 0) 0 (entry_bytes (mkEntry ino room (zlen nm) type)) 0
      sizeof_direntry = Ok b /\
    memcpy_at b sizeof_direntry (nm ++ tl) 0 (zlen nm) = Ok (enc (new_dent ino type nm room)).
Proof.
  intros Hn Hr. pose proof (zlen_nonneg tl). set (h := entry_bytes _). unfold sizeof_direntry in *.
  replace (replicate (Z.to_nat room) 0) with ([] ++ replicate (Z.to_nat 8) 0 ++ replicate (Z.to_nat (room - 8)) 0).
  2: { cbn [app]. rewrite <- replicate_add. f_equal. lia. }
  assert (Hh : zlen h = 8) by done.
  rewrite memcpy_at_app by done. eexists. split; [reflexivity|]. cbn [app]. rewrite ztake_all by lia.
  replace (replicate (Z.to_nat (room - 8)) 0) with
    (replicate (Z.to_nat (zlen nm)) 0 ++ replicate (Z.to_nat (room - 8 - zlen nm)) 0).
  2: { rewrite <- replicate_add. f_equal. lia. }
  rewrite memcpy_at_app.
  - rewrite ztake_app_exact by done. f_equal. unfold enc, h, d_header.
    rewrite d_size_new by (unfold sizeof_direntry; lia). done.
  - done.
  - unfold zlen. rewrite length_replicate. lia.
  - rewrite zlen_app. lia.
Qed.

(** A write leaves no superblock waiting: [ext2_create_directory] adds the entry [..]
    in such a state, whatever it allocated before. *)
Lemma flush_settles st r st' : ext2_flush_writes st = Ok (r, st') -> superblock_changed st' = false.
Proof.
  unfold ext2_flush_writes. intros (cs & s1 & _ & H)%bind_inv. apply bind_inv in H as (u & s2 & _ & H).
  apply bind_inv in H as (changed & s3 & E & H). injection E as <- <-. destruct (superblock_changed s2) eqn:Es.
  - apply bind_inv in H as (sb & s4 & _ & H). apply bind_inv in H as (u' & s5 & _ & H). by injection H as <- <-.
  - by injection H as <- <-.
Qed.

Lemma write_inode_settles n data size offset append st r st' :
  write_inode n data size offset append st = Ok (r, st') -> superblock_changed st' = false.
Proof.
  unfold write_inode. intros H. do 13 (apply bind_inv in H as (? & ? & _ & H)).
  apply bind_inv in H as (u & s1 & E & H). injection H as <- <-. by apply flush_settles in E.
Qed.

Lemma dent_ok_shrink e : dent_ok e -> dent_ok (shrink e).
Proof.
  intros K. pose proof (d_size_shrink e K) as Hs. destruct K as [K1 K2 K3 K4].
  fold (real_size e) in K4. split; rewrite ?Hs; cbn [shrink d_ino d_name]; try done. lia.
Qed.

Lemma dent_ok_new ino type nm room :
  0 < ino < 2 ^ 31 -> 0 < zlen nm < 256 -> ALIGN (sizeof_direntry + zlen nm) 4 <= room < 2 ^ 16 ->
  dent_ok (new_dent ino type nm room).
Proof.
  intros Hi Hn Hr. pose proof (ALIGN_4 (sizeof_direntry + zlen nm)). unfold sizeof_direntry in *.
  split; try done; rewrite d_size_new; try (unfold sizeof_direntry; lia).
  cbn [new_dent d_name]. unfold sizeof_direntry. lia.
Qed.

Lemma create_entry_spec st n es es1 e es2 ino type nm tl :
  directory st n es -> 0 < ino < 2 ^ 31 -> 0 < zlen nm < 256 ->
  find_slot es (block_byte_size st) 0 (ALIGN (sizeof_direntry + zlen nm) 4) = Some (es1, e, es2) ->
  let es' := es1 ++ shrink e :: new_dent ino type nm (padding e) :: es2 in
  wp (ext2_create_entry n (mkEntry ino 0 (zlen nm) type) (nm ++ tl))
    (fun _ st' => directory st' n es' /\ only_file st st' n) st.
Proof.
  intros D Hi Hn Hslot es'. pose proof D as [W Hdata Hok].
  destruct (find_slot_split _ _ _ _ _ _ _ Hslot) as [Hes Hpad].
  assert (Hal : 8 + zlen nm <= ALIGN (sizeof_direntry + zlen nm) 4 < 12 + zlen nm)
    by (pose proof (ALIGN_4 (sizeof_direntry + zlen nm)); unfold sizeof_direntry in *; lia).
  assert (He : dent_ok e) by (rewrite Hes in Hok; by apply Forall_app in Hok as [_ [? _]%Forall_cons]).
  assert (Hreal : 8 < real_size e).
  { pose proof (ALIGN_4 (sizeof_direntry + zlen (d_name e))) as Ha. fold (real_size e) in Ha.
    pose proof (dk_name _ He). unfold sizeof_direntry in Ha. lia. }
  assert (Hp16 : padding e < 2 ^ 16 - 8) by (pose proof (dk_size _ He); unfold padding; lia).
  unfold ext2_create_entry. cbn [name_length e_size set_size].
  wp_use (find_free_position_spec st n es (ALIGN (sizeof_direntry + zlen nm) 4)) as r st1 [S1 ->];
    [done|lia|]. rewrite Hslot. wp_simpl.
  destruct (Z.eqb_spec (padding e) 0); [lia|]. rewrite u16_small by lia.
  cbn [d_header name_length e_inode type_indicator e_size set_size].
  fold (real_size e).
  pose proof (directory_same_fs _ _ _ _ S1 D) as D1. pose proof (directory_size _ _ _ D1) as Hs1.
  assert (Htot : zlen (dir_data es) = zlen (dir_data es1) + d_size e + zlen (dir_data es2)).
  { rewrite Hes, dir_data_app, dir_data_cons, !zlen_app, zlen_enc. lia. }
  pose proof (zlen_nonneg (dir_data es1)). pose proof (zlen_nonneg (dir_data es2)).
  pose proof (wr_size _ _ (dr_writable _ _ _ D1)) as Hr1.
  replace (set_size (d_header e) (real_size e)) with (d_header (shrink e))
    by (unfold d_header, set_size; by rewrite d_size_shrink).
  change sizeof_direntry with (zlen (entry_bytes (d_header (shrink e)))) at 1.
  apply wp_bind. wp_use (write_in_place st1 n (entry_bytes (d_header (shrink e))) (zlen (dir_data es1)))
    as r st2 (-> & W2 & O2 & C2); [apply D1|lia|rewrite zlen_entry_bytes; unfold padding in *; lia|].
  apply wp_ret. cbn [e_size d_header]. rewrite ?d_size_shrink by done.
  unfold padding in Hpad.
  rewrite u32_small by lia.
  change (set_size _ (padding e)) with (mkEntry ino (padding e) (zlen nm) type).
  destruct (entry_buffer ino type nm tl (padding e)) as (b & Eb & Hbuf);
    [done|unfold sizeof_direntry, padding in *; lia|].
  eapply wp_lift; [exact Eb|]. eapply wp_lift; [exact Hbuf|].
  set (nw := new_dent ino type nm (padding e)) in *.
  assert (Hnw : zlen (enc nw) = padding e)
    by (rewrite zlen_enc; apply d_size_new; unfold sizeof_direntry, padding in *; lia).
  change (e_size _) with (padding e). rewrite <- Hnw.
  wp_use (write_in_place st2 n (enc nw) (zlen (dir_data es1) + real_size e)) as r st3 (-> & W3 & O3 & C3);
    [done|lia|rewrite Hnw, (of_size _ _ _ O2); unfold padding; lia|].
  apply wp_ret. split.
  - split; [done| |].
    + rewrite C3, C2, (dr_data _ _ _ D1), Hes.
      apply insert_data; [done|]. unfold padding, sizeof_direntry in *. lia.
    + unfold es'. rewrite Hes in Hok. apply Forall_app in Hok as [Ho1 [_ Ho2]%Forall_cons].
      apply Forall_app. split; [done|]. apply Forall_cons; split; [by apply dent_ok_shrink|]. apply Forall_cons; split; [|done].
      apply dent_ok_new; [done|done|]. unfold padding in *. lia.
  - eapply only_file_trans; [by apply only_file_same_fs|]. by eapply only_file_trans.
Qed.

(** Adding a name to a directory with room, when no superblock waits to be written
    ([write_inode_settles]): [ext2_create_entry] cuts the first entry with enough padding
    down to its real size and stores the new entry in the room behind it.  Afterwards the
    directory holds the old entries and the new one, the new name leads to the new inode,
    every other name to the inode it led to before, and no other file changed; the
    directory is ready for the next name.  When the superblock waits, as it does for the
    first entry after [get_free_inode], the first write also stores it at the start of the
    device, which this theorem does not cover. *)
Theorem create_entry_inserts st n es es1 e es2 ino type nm tl :
  directory st n es -> dir_find es nm = None ->
  0 < ino < 2 ^ 31 -> 0 < zlen nm < 256 ->
  find_slot es (block_byte_size st) 0 (ALIGN (sizeof_direntry + zlen nm) 4) = Some (es1, e, es2) ->
  let es' := es1 ++ shrink e :: new_dent ino type nm (padding e) :: es2 in
  exists st', ext2_create_entry n (mkEntry ino 0 (zlen nm) type) (nm ++ tl) st = Ok (tt, st') /\
    directory st' n es' /\ only_file st st' n /\
    forall other, d_ino <$> dir_find es' other =
      if bool_decide (nm = other) then Some ino else d_ino <$> dir_find es other.
Proof.
  intros D Hnone Hi Hn Hslot es'.
  destruct (create_entry_spec st n es es1 e es2 ino type nm tl) as ([] & st' & E & D' & O'); [done..|].
  exists st'. split_and!; [done..|]. intros other.
  destruct (find_slot_split _ _ _ _ _ _ _ Hslot) as [-> _]. by apply dir_find_insert.
Qed.
End Entries.

(** ** Removing an entry *)

(** The entry with the following one merged into it, whose bytes are cleared. *)
Definition absorb (c e : dent) : dent :=
  mkDent (d_ino c) (d_type c) (d_name c) (d_slack c ++ replicate (Z.to_nat (d_size e)) 0).

(** Entries up to the first one for the inode, which its predecessor absorbs. *)
Fixpoint remove_inode_entry (es : list dent) (ino : Z) : option (list dent) :=
  match es with
  | [] => None
  | c :: rest =>
    if d_ino c =? ino then None else
    match rest with
    | [] => None
    | e :: es2 => if d_ino e =? ino then Some (absorb c e :: es2) else cons c <$> remove_inode_entry rest ino
    end
  end.

(** Sizes of neighbours add up to 16 bits. *)
Fixpoint sizes_ok (es : list dent) : Prop :=
  match es with
  | c :: ((e :: _) as rest) => d_size c + d_size e < 2 ^ 16 /\ sizes_ok rest
  | _ => True
  end.

Lemma le32_inode pre e l : dent_ok e -> le32_at (pre ++ enc e ++ l) (zlen pre) = Ok (d_ino e).
Proof.
  intros He. destruct (d_header_fits e He) as [Hf _]. rewrite <- (Z.add_0_r (zlen pre)), le32_at_shift by lia.
  transitivity (@Ok Z (le32 (d_ino e mod 2 ^ 8) (d_ino e / 2 ^ 8 mod 2 ^ 8) (d_ino e / 2 ^ 16 mod 2 ^ 8)
    (d_ino e / 2 ^ 24 mod 2 ^ 8))); [reflexivity|]. by rewrite le32_split.
Qed.

Lemma ptr_next_spec pre c es :
  Forall dent_ok (c :: es) ->
  directory_ptr_next (pre ++ dir_data (c :: es)) (zlen pre) (zlen (dir_data (c :: es))) =
  Ok (match es with [] => None | _ => Some (zlen (pre ++ enc c), zlen (dir_data es)) end).
Proof.
  intros [Hc Hes]%Forall_cons. unfold directory_ptr_next. rewrite dir_data_cons, le16_size by done.
  cbn [mbind outcome_bind]. pose proof (d_size_pos c). pose proof (zlen_nonneg (dir_data es)).
  destruct (Z.eqb_spec (d_size c) 0); [lia|]. rewrite zlen_app, zlen_enc.
  destruct (Z.ltb_spec (d_size c + zlen (dir_data es)) (d_size c)); [lia|].
  replace (d_size c + zlen (dir_data es) - d_size c) with (zlen (dir_data es)) by lia.
  destruct es as [|e es]; [done|]. apply Forall_cons in Hes as [He _].
  pose proof (d_size_pos e). rewrite dir_data_cons, zlen_app, zlen_enc.
  pose proof (zlen_nonneg (dir_data es)). unfold sizeof_direntry.
  destruct (Z.ltb_spec (d_size e + zlen (dir_data es)) 8); [lia|].
  rewrite <- (zlen_enc c), <- zlen_app, app_assoc, le16_size by done. cbn [mbind outcome_bind].
  by destruct (Z.eqb_spec (d_size e) 0); [lia|].
Qed.

Lemma d_size_absorb c e : d_size (absorb c e) = d_size c + d_size e.
Proof.
  pose proof (d_size_pos e).
  assert (Hr : zlen (replicate (Z.to_nat (d_size e)) 0) = d_size e)
    by (unfold zlen; rewrite length_replicate; lia).
  unfold absorb, d_size in *. cbn [d_name d_slack]. rewrite zlen_app. lia.
Qed.

(** The two stores of the removal. *)
Lemma absorb_data pre c e l :
  dent_ok c -> dent_ok e -> d_size c + d_size e < 2 ^ 16 ->
  exists d, put16 (pre ++ enc c ++ enc e ++ l) (zlen pre + 4) (d_size c + d_size e) = Ok d /\
    le16_at d (zlen (pre ++ enc c) + 4) = Ok (d_size e) /\
    memcpy_at d (zlen (pre ++ enc c)) (replicate (Z.to_nat (d_size e)) 0) 0 (d_size e) =
      Ok (pre ++ enc (absorb c e) ++ l).
Proof.
  intros Hc He Hs. pose proof (d_size_pos c). pose proof (d_size_pos e).
  set (c' := entry_bytes (set_size (d_header c) (d_size c + d_size e)) ++ d_name c ++ d_slack c).
  assert (Hc' : zlen c' = zlen (enc c)) by (unfold c', enc; by rewrite !zlen_app).
  exists (pre ++ c' ++ enc e ++ l). split_and!.
  - set (i4 := le32_bytes (d_ino c)). set (s2 := le16_bytes (d_size c)).
    set (rest := [zlen (d_name c); d_type c] ++ (d_name c ++ d_slack c) ++ enc e ++ l).
    assert (E1 : pre ++ enc c ++ enc e ++ l = (pre ++ i4) ++ s2 ++ rest).
    { unfold enc at 1, entry_bytes, d_header. unfold i4, s2, rest. cbn [e_inode e_size name_length type_indicator].
      by rewrite <- !app_assoc. }
    assert (E2 : pre ++ c' ++ enc e ++ l = (pre ++ i4) ++ ztake 2 (le16_bytes (d_size c + d_size e)) ++ rest).
    { unfold c', entry_bytes, set_size, d_header. unfold i4, rest. cbn [e_inode e_size name_length type_indicator].
      by rewrite <- !app_assoc. }
    unfold put16. rewrite E1, E2. apply memcpy_at_app; [by rewrite zlen_app|done|done].
  - replace (zlen (pre ++ enc c)) with (zlen (pre ++ c')) by (rewrite !zlen_app; lia).
    rewrite (app_assoc pre). by apply le16_size.
  - replace (zlen (pre ++ enc c)) with (zlen (pre ++ c')) by (rewrite !zlen_app; lia).
    rewrite (app_assoc pre), memcpy_at_app.
    + rewrite ztake_all by (unfold zlen; rewrite length_replicate; lia). f_equal.
      unfold enc, d_header. rewrite d_size_absorb. unfold c', set_size, d_header, absorb.
      cbn [d_ino d_type d_name d_slack e_inode name_length type_indicator]. by rewrite <- !app_assoc.
    + done.
    + by rewrite zlen_enc.
    + unfold zlen. rewrite length_replicate. lia.
Qed.

Lemma dent_ok_absorb c e :
  dent_ok c -> d_size c + d_size e < 2 ^ 16 -> dent_ok (absorb c e).
Proof.
  intros [K1 K2 K3 K4] Hs. pose proof (d_size_pos e).
  split; rewrite ?d_size_absorb; cbn [absorb d_ino d_name]; try done. lia.
Qed.

Lemma unlink_loop_spec fuel pre es ino :
  Forall dent_ok es -> es <> [] -> sizes_ok es -> (length es <= fuel)%nat ->
  unlink_loop fuel (pre ++ dir_data es) ino (zlen pre) (zlen (dir_data es)) =
  Ok ((fun l => pre ++ dir_data l) <$> remove_inode_entry es ino).
Proof.
  revert pre fuel. induction es as [|c es IH]; intros pre [|fuel] Hok Hne Hs Hf;
    cbn [length] in Hf; try lia; [done..|]. cbn [unlink_loop remove_inode_entry].
  pose proof Hok as [Hc Hes]%Forall_cons.
  assert (Hino : le32_at (pre ++ dir_data (c :: es)) (zlen pre) = Ok (d_ino c)) by (by apply le32_inode).
  rewrite Hino. cbn [mbind outcome_bind]. rewrite Z.eqb_sym.
  destruct (Z.eqb_spec (d_ino c) ino); [done|].
  rewrite ptr_next_spec by done. cbn [mbind outcome_bind].
  destruct es as [|e es]; [done|]. pose proof Hes as [He Hes2]%Forall_cons. destruct Hs as [Hs1 Hs2].
  assert (Hino2 : le32_at (pre ++ dir_data (c :: e :: es)) (zlen (pre ++ enc c)) = Ok (d_ino e)).
  { rewrite !dir_data_cons, app_assoc. by apply le32_inode. }
  rewrite Hino2. cbn [mbind outcome_bind]. rewrite (Z.eqb_sym ino).
  destruct (Z.eqb_spec (d_ino e) ino).
  - rewrite !dir_data_cons. rewrite (le16_size pre) by done. cbn [mbind outcome_bind].
    rewrite (app_assoc pre), le16_size by done. cbn [mbind outcome_bind]. rewrite <- (app_assoc pre).
    pose proof (d_size_pos c). pose proof (d_size_pos e). rewrite u16_small by lia.
    destruct (absorb_data pre c e (dir_data es)) as (d & -> & Hd1 & Hd2); [done..|].
    cbn [mbind outcome_bind]. rewrite Hd1. cbn [mbind outcome_bind]. by rewrite Hd2.
  - rewrite (dir_data_cons c), (app_assoc pre), IH by (done || (cbn [length] in *; lia)).
    destruct (remove_inode_entry (e :: es) ino); [|done]. cbn [fmap option_fmap option_map].
    by rewrite dir_data_cons, app_assoc.
Qed.

Lemma remove_first es1 c e es2 :
  Forall (fun f => d_ino f <> d_ino e) (es1 ++ [c]) ->
  remove_inode_entry (es1 ++ c :: e :: es2) (d_ino e) = Some (es1 ++ absorb c e :: es2).
Proof.
  induction es1 as [|f es1 IH]; intros [Hf Hr]%Forall_cons.
  - cbn [app remove_inode_entry]. destruct (Z.eqb_spec (d_ino c) (d_ino e)); [done|]. by rewrite Z.eqb_refl.
  - change ((f :: es1) ++ c :: e :: es2) with (f :: es1 ++ c :: e :: es2). cbn [remove_inode_entry].
    destruct (Z.eqb_spec (d_ino f) (d_ino e)); [done|]. rewrite IH by done.
    destruct es1 as [|g es1]; cbn [app].
    + destruct (Z.eqb_spec (d_ino c) (d_ino e)); [|done]. by apply Forall_cons in Hr as [].
    + destruct (Z.eqb_spec (d_ino g) (d_ino e)); [|done]. by apply Forall_cons in Hr as [].
Qed.

(** What lookups find afterwards. *)
Lemma dir_find_remove es1 c e es2 other :
  NoDup (d_name <$> es1 ++ c :: e :: es2) ->
  d_ino <$> dir_find (es1 ++ absorb c e :: es2) other =
  if bool_decide (d_name e = other) then None else d_ino <$> dir_find (es1 ++ c :: e :: es2) other.
Proof.
  intros Hnd. rewrite !dir_find_app, !dir_find_cons. cbn [absorb d_name].
  destruct (bool_decide (d_name e = other)) eqn:E; [|by repeat case_match].
  apply bool_decide_eq_true in E as <-. rewrite fmap_app in Hnd. apply NoDup_app in Hnd as (_ & N1 & N2).
  cbn [fmap list_fmap] in N1, N2. apply NoDup_cons in N2 as [N2 N3]. apply NoDup_cons in N3 as [N3 _].
  assert (Hf : forall es, d_name e ∉ d_name <$> es -> dir_find es (d_name e) = None).
  { intros es Hn. destruct (dir_find es (d_name e)) eqn:F; [|done]. exfalso. apply Hn.
    apply find_some in F as [Hin Hb%bool_decide_eq_true]. rewrite <- Hb.
    by apply list_elem_of_fmap_2, list_elem_of_In. }
  rewrite Hf, Hf; [|done|].
  - rewrite bool_decide_false; [done|]. intros Heq. apply N2. rewrite Heq. by left.
  - intros Hin. apply (N1 _ Hin). right. by left.
Qed.

(** The list of open inodes plays no part in the state of the blocks. *)
Lemma cache_inv_files f st : cache_inv st -> cache_inv (set_files f st).
Proof. intros [C1 C2 C3 C4 C5]. split; try done. eapply Forall_impl; [exact C4|]. by intros e []; split. Qed.

Lemma inode_ok_files f st n : inode_ok (set_files f st) n <-> inode_ok st n.
Proof. by split; intros []; split. Qed.

Lemma bview_files f st : bview (set_files f st) = bview st.
Proof. reflexivity. Qed.

Lemma inode_at_files f st n : inode_at (set_files f st) n = inode_at st n.
Proof. reflexivity. Qed.

Lemma contents_files f st n : contents (set_files f st) n = contents st n.
Proof. unfold contents. by rewrite inode_at_files, bview_files. Qed.

Lemma writable_files f st n : writable st n -> writable (set_files f st) n.
Proof.
  intros [W1 W2 W3 W4 W5 W6]. split; try done.
  - destruct W1 as [F1 F2 F3 F4 F5]. split; try done; [by apply cache_inv_files|].
    destruct F5 as [F5|[F5 F6]]; [by left|right]. split; [by apply (inode_ok_files f)|done].
  - destruct W2 as [L1 L2]. pose proof (fun i => proj1 (inode_ok_files f st i)) as Hi.
    split; [intros i j H1 H2; apply (L1 i j); by apply Hi|]. intros i H1. by apply (L2 i), Hi.
  - destruct W5 as [K1 [M1 M2 M3 M4] K3 K4 K5]. split; try done; [by apply (inode_ok_files f)|].
    split; try done. intros j Hj. by destruct (M1 j Hj); split.
Qed.

Lemma directory_files f st n es : directory st n es -> directory (set_files f st) n es.
Proof. intros [W D O]. split; [by apply writable_files|by rewrite contents_files|done]. Qed.

Lemma removed_ok es1 c e es2 :
  Forall dent_ok (es1 ++ c :: e :: es2) -> sizes_ok (es1 ++ c :: e :: es2) ->
  Forall dent_ok (es1 ++ absorb c e :: es2).
Proof.
  intros [H1 [Hc [_ H2]%Forall_cons]%Forall_cons]%Forall_app Hs.
  apply Forall_app. split; [done|]. apply Forall_cons. split; [|done]. apply dent_ok_absorb; [done|].
  clear H1. induction es1 as [|f es1 IH]; [apply Hs|].
  apply IH. destruct es1; apply Hs.
Qed.

Lemma splice_all {A} (l d : list A) : zlen l = zlen d -> splice l 0 d = d.
Proof.
  intros Hz. unfold splice. rewrite Z.add_0_l, <- Hz. change (ztake 0 l) with (@nil A).
  unfold zdrop, zlen. rewrite Nat2Z.id, drop_all. by rewrite app_nil_r.
Qed.

Definition mark_removed (fs : list ext2_open_file) (ino : Z) : list ext2_open_file :=
  update_open fs ino (fun o => mkOpen (o_inode_num o) (references o) true).

(** Unlinking a file that is open: the name goes, the file stays until it is
    closed. *)
Lemma unlink_open_spec st dirs names n es1 c e es2 :
  let es := es1 ++ c :: e :: es2 in
  tree_ok st dirs -> names <> [] -> Forall name_ok names -> zlen (join names) < 2 ^ 31 ->
  walk dirs EXT2_ROOT_INODE names = (d_ino e, n) -> d_ino e <> EXT2_ROOT_INODE ->
  directory st n es -> sizes_ok es -> Forall (fun f => d_ino f <> d_ino e) (es1 ++ [c]) ->
  is_Some (find_open (files st) (d_ino e)) ->
  wp (ext2_unlink (47 :: join names ++ [0])) (fun r st' => r = 0 /\
    directory st' n (es1 ++ absorb c e :: es2) /\ files st' = mark_removed (files st) (d_ino e) /\
    (forall b, block_ok st b -> b <> fst (inode_pos st n) ->
       (forall j, 0 <= j < blocks_for (file_size (inode_at st n)) (block_byte_size st) ->
          b <> block_of (bview st) (block_byte_size st) (inode_at st n) j) ->
       bview st' b = bview st b) /\
    (forall m, files_apart st n (blocks_for (file_size (inode_at st n)) (block_byte_size st)) m ->
       inode_at st' m = inode_at st m /\ contents st' m = contents st m) /\
    (forall b, block_ok st b -> on_disk st' b = bview st' b)) st.
Proof.
  intros es T Hne Hn Hl Hw Hroot D Hsz Hfirst [o Ho]. unfold ext2_unlink.
  pose proof (wr_fs _ _ (dr_writable _ _ _ D)) as Hf.
  wp_use (find_inode_spec st dirs names) as r st1 [-> S1]; [done..|]. rewrite Hw.
  pose proof (dr_ok _ _ _ D) as Hok.
  assert (He : dent_ok e) by (unfold es in Hok; by apply Forall_app in Hok as [_ [_ [? _]%Forall_cons]%Forall_cons]).
  pose proof (dk_ino _ He). destruct (Z.eqb_spec (d_ino e) 0); [lia|].
  destruct (Z.eqb_spec (d_ino e) EXT2_ROOT_INODE); [done|].
  pose proof (io_n _ _ (da_inode _ _ _ (directory_dir_at _ _ _ D))). rewrite i32_small by lia.
  apply (read_directory_spec st1 n es); [by apply (directory_same_fs st)|]. intros st2 S2.
  pose proof (same_fs_trans _ _ _ S1 S2) as S.
  pose proof (directory_same_fs _ _ _ _ S D) as D2.
  assert (Hrm : remove_inode_entry es (d_ino e) = Some (es1 ++ absorb c e :: es2)) by (by apply remove_first).
  eapply wp_lift.
  { apply (unlink_loop_spec _ [] es); [done|by destruct es1|done|]. pose proof (length_dir_data es). cbn [app]. lia. }
  rewrite Hrm. cbn [fmap option_fmap option_map app].
  assert (Hlen : zlen (dir_data es) = zlen (dir_data (es1 ++ absorb c e :: es2))).
  { unfold es. rewrite !dir_data_app, !dir_data_cons, !zlen_app, !zlen_enc, d_size_absorb. lia. }
  rewrite Hlen. pose proof (directory_size _ _ _ D2) as Hs2.
  wp_use (write_in_place st2 n (dir_data (es1 ++ absorb c e :: es2)) 0) as r st3 (-> & W3 & O3 & C3);
    [apply D2|lia|lia|].
  pose proof (only_file_trans _ _ _ _ (only_file_same_fs _ _ _ (dr_writable _ _ _ D) S) O3) as O.
  assert (D3 : directory st3 n (es1 ++ absorb c e :: es2)).
  { split; [done| |by apply removed_ok]. rewrite C3. apply splice_all.
    rewrite zlen_contents by (rewrite Hs2; apply zlen_nonneg). lia. }
  unfold remove_possibly_open_inode. apply wp_bind. wp_simpl. rewrite (fr_files _ _ (of_frame _ _ _ O)), Ho.
  eapply wp_ok; [reflexivity|]. cbn beta. set (st4 := set_files _ st3).
  assert (D4 : directory st4 n (es1 ++ absorb c e :: es2)) by (by apply directory_files).
  destruct (ext2_flush_writes_spec st4) as (st5 & E5 & V5 & Hd5); [apply D4|apply D4|].
  apply wp_bind. eapply wp_ok; [exact E5|]. cbn beta. apply wp_ret.
  pose proof (view_same_fs _ _ (wr_fs _ _ (dr_writable _ _ _ D4)) V5) as S5.
  assert (Hb4 : forall b, block_ok st b -> block_ok st4 b).
  { intros b Hb. apply (fs_frame_block_ok _ _ b (of_frame _ _ _ O)) in Hb. done. }
  assert (Hother : forall b, block_ok st b -> b <> fst (inode_pos st n) ->
       (forall j, 0 <= j < blocks_for (file_size (inode_at st n)) (block_byte_size st) ->
          b <> block_of (bview st) (block_byte_size st) (inode_at st n) j) -> bview st5 b = bview st b).
  { intros b Hb H1 H2. rewrite (sf_view _ _ S5) by (by apply Hb4). by apply O. }
  split_and!; [done|by apply (directory_same_fs st4)| |done| |].
  - by rewrite (fr_files _ _ (sf_frame _ _ S5)).
  - intros m [A1 A2 A3 A4 A5].
    assert (Hm4 : inode_ok st4 m) by (apply inode_ok_files, (inode_ok_stable st); [apply O|exact (of_desc _ _ _ O)|done]).
    destruct (same_fs_inode _ _ m S5 Hm4) as (_ & E & _).
    assert (Ei : inode_at st5 m = inode_at st m) by (rewrite E; by apply (of_inodes _ _ _ O)). split; [done|]. apply contents_stable; [|done|done|].
    + by rewrite (fr_bbs _ _ (sf_frame _ _ S5)), <- (fr_bbs _ _ (of_frame _ _ _ O)).
    + intros k b Hk Hb Hok'. destruct (A5 k b Hk Hb). by apply Hother.
  - intros b Hb. rewrite Hd5 by (by apply Hb4). symmetry. apply S5. by apply Hb4.
Qed.

(** C11: unlinking an open file: [ext2_unlink] returns 0, the entry before the name takes
    over its bytes, the name is gone and every other name still leads to its inode; the
    open file is marked, so that its last close removes it, and until then it and every
    other file that shares no block with the directory keep their inode and contents;
    the change is on the device.  The name is the first one of its directory for that
    inode, since the code removes the first one, and the superblock is not waiting to be
    written. *)
Theorem unlink_removes_name st dirs names n es1 c e es2 :
  let es := es1 ++ c :: e :: es2 in
  let es' := es1 ++ absorb c e :: es2 in
  tree_ok st dirs -> names <> [] -> Forall name_ok names -> zlen (join names) < 2 ^ 31 ->
  walk dirs EXT2_ROOT_INODE names = (d_ino e, n) -> d_ino e <> EXT2_ROOT_INODE ->
  directory st n es -> NoDup (d_name <$> es) -> sizes_ok es ->
  Forall (fun f => d_ino f <> d_ino e) (es1 ++ [c]) ->
  is_Some (find_open (files st) (d_ino e)) ->
  exists st', ext2_unlink (47 :: join names ++ [0]) st = Ok (0, st') /\
    directory st' n es' /\ files st' = mark_removed (files st) (d_ino e) /\
    (forall other, d_ino <$> dir_find es' other =
       if bool_decide (d_name e = other) then None else d_ino <$> dir_find es other) /\
    (forall m, files_apart st n (blocks_for (file_size (inode_at st n)) (block_byte_size st)) m ->
       inode_at st' m = inode_at st m /\ contents st' m = contents st m) /\
    (forall b, block_ok st b -> on_disk st' b = bview st' b).
Proof.
  intros es es' T Hne Hn Hl Hw Hr D Hnd Hsz Hf Ho.
  destruct (unlink_open_spec st dirs names n es1 c e es2) as (r & st' & E & -> & D' & F & _ & C & Hd); [done..|].
  exists st'. split_and!; try done. intros other. by apply dir_find_remove.
Qed.

(** ** The example directory *)

Lemma rt_num_inodes n : inode_ok rt_fs n -> 0 < n <= 8.
Proof.
  intros Hn. pose proof (io_max _ _ Hn) as Hm.
  assert (Hw : word (sb_bytes rt_fs) SB_num_inodes = 8) by (vm_compute; reflexivity).
  rewrite Hw in Hm. pose proof (io_n _ _ Hn). lia.
Qed.

Lemma rt_layout : layout_ok rt_fs.
Proof.
  split.
  - intros m n Hm%rt_num_inodes Hn%rt_num_inodes Hne. rewrite !rt_pos by done. right. cbn [snd].
    change (inode_size rt_fs) with 128. lia.
  - intros n Hn%rt_num_inodes. rewrite rt_pos by done. change (desc_block rt_fs) with 2. cbn [fst]. lia.
Qed.

Lemma rt_file_ok : file_ok rt_fs 2 1.
Proof.
  pose proof (fun j Hj => proj1 (rt_root j Hj)) as Hb. pose proof (fun j Hj => proj2 (rt_root j Hj)) as Hp.
  split; [by apply rt_inode_ok| | | |].
  - split.
    + intros j Hj. by apply rt_mapped.
    + intros j Hj. by rewrite Hb.
    + intros i j Hi Hj _. lia.
    + intros i j Hi Hj. rewrite Hp by done. apply not_elem_of_nil.
  - intros j Hj. by rewrite Hb, rt_pos by done.
  - intros j Hj. by rewrite Hb by done.
  - intros j Hj. rewrite Hp by done. apply not_elem_of_nil.
Qed.

Lemma rt_writable : writable rt_fs 2.
Proof.
  split; [apply rt_fs_ok|apply rt_layout|done|rewrite rt_size; lia| |].
  - rewrite rt_size. apply rt_file_ok.
  - vm_compute. reflexivity.
Qed.

Lemma rt_directory : directory rt_fs 2 rt_entries.
Proof. split; [apply rt_writable|apply rt_data|apply rt_entries_ok]. Qed.

Definition rt_dot : dent := mkDent 2 2 [46] [0; 0; 0].
Definition rt_dotdot : dent := mkDent 2 2 [46; 46] [0; 0].
Definition rt_file : dent := mkDent 3 1 [97] (replicate 991 0).

Lemma create_entry_inserts_witness :
  let es' := [rt_dot; rt_dotdot] ++ shrink rt_file :: new_dent 4 1 [98] (padding rt_file) :: [] in
  exists st', ext2_create_entry 2 (mkEntry 4 0 (zlen [98]) 1) ([98] ++ [0]) rt_fs = Ok (tt, st') /\
    directory st' 2 es' /\ only_file rt_fs st' 2 /\
    forall other, d_ino <$> dir_find es' other =
      if bool_decide ([98] = other) then Some 4 else d_ino <$> dir_find rt_entries other.
Proof.
  refine (create_entry_inserts rt_fs 2 rt_entries [rt_dot; rt_dotdot] rt_file [] 4 1 [98] [0]
    rt_directory eq_refl _ _ _); [lia|done|vm_compute; reflexivity].
Defined.

Lemma unlink_removes_name_witness :
  let es' := [rt_dot; absorb rt_dotdot rt_file] in
  exists st', ext2_unlink [47; 97; 0] rt_fs = Ok (0, st') /\
    directory st' 2 es' /\ files st' = mark_removed (files rt_fs) 3 /\
    (forall other, d_ino <$> dir_find es' other =
       if bool_decide ([97] = other) then None else d_ino <$> dir_find rt_entries other) /\
    (forall m, files_apart rt_fs 2 (blocks_for (file_size (inode_at rt_fs 2)) (block_byte_size rt_fs)) m ->
       inode_at st' m = inode_at rt_fs m /\ contents st' m = contents rt_fs m) /\
    (forall b, block_ok rt_fs b -> on_disk st' b = bview st' b).
Proof.
  refine (unlink_removes_name rt_fs rt_dirs [[97]] 2 [rt_dot] rt_dotdot rt_file []
    rt_tree _ rt_names _ eq_refl _ rt_directory _ _ _ _); [done|done|done| | | |by eexists].
  - by apply (bool_decide_eq_true (NoDup _)).
  - vm_compute. done.
  - repeat (apply Forall_cons; split; [done|]). done.
Defined.
