(* ===== verification/Ext2Bytes.v ===== *)
(** kernel/fs/ext2.c: a regular file seen as a sequence of bytes.

    [Ext2File] says what one call of [read_inode] or [write_inode] does to the blocks;
    here any sequence of calls on a file is compared with the same operations on a list
    of bytes. *)

From stdpp Require Import base numbers list.
From Stdlib Require Import ZArith Lia.
From S2P Require Import Prelude StateM Bytes Ext2Cache Ext2 Ext2Inode Ext2File Ext2Entries.

Open Scope Z_scope.

(** ** The operations, on the file system and on a list *)

Inductive file_op : Type :=
| FRead (size offset : Z)
| FWrite (d : list Z) (offset : Z)
| FAppend (d : list Z).

(** What is read, and the size or the number of bytes that is returned. *)
Definition file_result : Type := list Z * Z.

Definition file_step (n : Z) (o : file_op) : E file_result :=
  match o with
  | FRead size offset => read_inode n size offset
  | FWrite d offset => w ← write_inode n d (zlen d) offset false; ret ([], w)
  | FAppend d => w ← write_inode n d (zlen d) 0 true; ret ([], w)
  end.

Fixpoint file_run (n : Z) (os : list file_op) : E (list file_result) :=
  match os with
  | [] => ret []
  | o :: os => r ← file_step n o; rs ← file_run n os; ret (r :: rs)
  end.

(** The bytes in front of [off] and behind the new ones stay. *)
Definition overwrite (c : list Z) (off : Z) (d : list Z) : list Z :=
  ztake off c ++ d ++ zdrop (off + zlen d) c.

Definition bytes_step (o : file_op) (c : list Z) : file_result * list Z :=
  match o with
  | FRead size offset => (ztake size (zdrop offset c), zlen c, c)
  | FWrite d offset => ([], zlen d, overwrite c offset d)
  | FAppend d => ([], zlen d, c ++ d)
  end.

Fixpoint bytes_run (os : list file_op) (c : list Z) : list file_result * list Z :=
  match os with
  | [] => ([], c)
  | o :: os => let '(r, c) := bytes_step o c in let '(rs, c) := bytes_run os c in (r :: rs, c)
  end.

(** Writing [len] bytes at [off], not behind the end of a file of [size] bytes, below
    4 GiB and within the blocks the file has. *)
Definition fits_in (bbs size off len : Z) : Prop :=
  0 <= off <= size /\ off + len < 2 ^ 32 /\ blocks_for (Z.max size (off + len)) bbs = blocks_for size bbs.

Definition op_ok (bbs : Z) (o : file_op) (c : list Z) : Prop :=
  match o with
  | FRead size offset => 0 <= size < 2 ^ 63 /\ 0 <= offset < 2 ^ 63
  | FWrite d offset => fits_in bbs (zlen c) offset (zlen d)
  | FAppend d => fits_in bbs (zlen c) (zlen c) (zlen d)
  end.

Fixpoint ops_ok (bbs : Z) (os : list file_op) (c : list Z) : Prop :=
  match os with
  | [] => True
  | o :: os => op_ok bbs o c /\ ops_ok bbs os (snd (bytes_step o c))
  end.

(** ** Lists *)

Lemma zlen_overwrite c off d :
  0 <= off <= zlen c -> zlen (overwrite c off d) = Z.max (zlen c) (off + zlen d).
Proof.
  intros Ho. pose proof (zlen_nonneg d). unfold overwrite. rewrite !zlen_app, zlen_ztake by lia.
  destruct (Z.leb_spec (off + zlen d) (zlen c)).
  - rewrite zlen_zdrop by lia. lia.
  - unfold zdrop. rewrite drop_ge by zlia. rewrite zlen_nil. lia.
Qed.

Lemma znth_overwrite c off d k :
  0 <= off <= zlen c -> 0 <= k ->
  znth (overwrite c off d) k = if (off <=? k) && (k <? off + zlen d) then znth d (k - off) else znth c k.
Proof.
  intros Ho Hk. pose proof (zlen_nonneg d). unfold overwrite.
  assert (Ht : zlen (ztake off c) = off) by (apply zlen_ztake; lia).
  destruct (Z.leb_spec off k) as [H1|H1]; cbn [andb].
  - rewrite znth_app_r by lia. rewrite Ht. destruct (Z.ltb_spec k (off + zlen d)) as [H2|H2].
    + by rewrite znth_app_l by lia.
    + rewrite znth_app_r by lia. rewrite znth_zdrop by lia. f_equal. lia.
  - rewrite znth_app_l by lia. apply znth_ztake. lia.
Qed.

Lemma overwrite_end c d : overwrite c (zlen c) d = c ++ d.
Proof.
  pose proof (zlen_nonneg d). unfold overwrite. rewrite ztake_all by done. unfold zdrop.
  rewrite drop_ge by zlia. by rewrite app_nil_r.
Qed.

(** ** A file *)

Section Files.
Implicit Types st : ext2.

(** A file of its blocks, with the bytes [c]. *)
Record has_bytes st (n : Z) (c : list Z) : Prop := {
  hb_writable : writable st n;
  hb_contents : contents st n = c
}.

Lemma has_bytes_size st n c : has_bytes st n c -> file_size (inode_at st n) = zlen c.
Proof. intros [W <-]. symmetry. apply zlen_contents, W. Qed.

(** The file after a write that stays within its blocks. *)
Lemma writable_within st st' n off d fsize sectors :
  writable st n -> 0 <= fsize < 2 ^ 32 ->
  blocks_for fsize (block_byte_size st) = blocks_for (file_size (inode_at st n)) (block_byte_size st) ->
  file_overwritten st st' n (blocks_for fsize (block_byte_size st)) off d fsize sectors ->
  sectors / (block_byte_size st / SECTOR_SIZE) = blocks_for fsize (block_byte_size st) -> fits 32 sectors ->
  file_size (inode_at st' n) = fsize /\ writable st' n.
Proof.
  intros W Hfs EN O Hs Hs32. pose proof W as [W1 W2 W3 W4 W5 W6]. pose proof (fo_bbs _ W1) as Hb.
  pose proof (ow_frame _ _ _ _ _ _ _ _ O) as F. pose proof (fr_bbs _ _ F) as B. rewrite <- EN in W5.
  set (N := blocks_for fsize _) in *.
  assert (Hlen : zlen (inode_at st n) = sizeof_inode) by (apply inode_at_len; [done|apply W5]).
  assert (Hsz : file_size (inode_at st' n) = fsize).
  { rewrite (ow_head _ _ _ _ _ _ _ _ O). apply file_size_sized; lia. }
  assert (Hpos : inode_pos st' n = inode_pos st n) by (apply inode_pos_stable; [done|apply O]).
  split; [done|]. split; rewrite ?Hsz, ?B; fold N; try done; [apply O| | | |].
  - eapply layout_ok_stable; [apply O|apply O|done].
  - by rewrite (fr_changed _ _ F).
  - destruct W5 as [K1 K2 K3 K4 K5]. split; rewrite ?B, ?Hpos.
    + apply O.
    + apply O.
    + intros j Hj. destruct (ow_map _ _ _ _ _ _ _ _ O j Hj) as [-> _]. by apply K3.
    + intros j Hj. unfold desc_block. rewrite B. destruct (ow_map _ _ _ _ _ _ _ _ O j Hj) as [-> _]. by apply K4.
    + intros j Hj. destruct (ow_map _ _ _ _ _ _ _ _ O j Hj) as [_ ->]. by apply K5.
  - rewrite (ow_head _ _ _ _ _ _ _ _ O). rewrite <- Hs. f_equal. apply word_sized_sectors; [lia|done].
Qed.

Lemma sectors_of st N :
  1024 <= block_byte_size st -> 0 <= N -> N * (block_byte_size st / SECTOR_SIZE) < 2 ^ 32 ->
  u32 (N * (block_byte_size st / SECTOR_SIZE)) / (block_byte_size st / SECTOR_SIZE) = N.
Proof.
  intros Hb HN Hl. assert (2 <= block_byte_size st / SECTOR_SIZE)
    by (apply Z.div_le_lower_bound; unfold SECTOR_SIZE; lia).
  rewrite u32_small by nia. apply Z.div_mul. lia.
Qed.

Lemma write_bytes st n c d off :
  has_bytes st n c -> fits_in (block_byte_size st) (zlen c) off (zlen d) ->
  wp (write_inode n d (zlen d) off false) (fun r st' => r = zlen d /\ has_bytes st' n (overwrite c off d) /\
    block_byte_size st' = block_byte_size st) st.
Proof.
  intros H (Ho & Hl & EN). pose proof (has_bytes_size _ _ _ H) as Hsz. destruct H as [W Hc].
  pose proof W as [W1 W2 W3 W4 W5 W6]. pose proof (fo_bbs _ W1) as Hb. pose proof (zlen_nonneg d).
  rewrite Hsz in W4, W5, W6. set (fsize := Z.max (zlen c) (off + zlen d)) in *.
  destruct (blocks_for_bound fsize (block_byte_size st)) as (HN1 & HN2 & HN3); [lia..|].
  rewrite <- EN in W5, W6. set (N := blocks_for fsize (block_byte_size st)) in *.
  pose proof (zlen_nonneg c). assert (Hfs : 0 <= fsize < 2 ^ 32) by (unfold fsize; lia).
  eapply wp_mono; [apply (write_inode_spec st n d (zlen d) off fsize N)|]; try done; try lia.
  intros r st' (-> & O & _). rewrite ztake_all in O by lia. pose proof (ow_frame _ _ _ _ _ _ _ _ O) as F.
  destruct (writable_within st st' n off d fsize (u32 (N * (block_byte_size st / SECTOR_SIZE))) W) as (Hs' & W');
    [lia|by rewrite Hsz|exact O| |apply u32_fits|].
  { fold N. apply sectors_of; [lia|done|]. assert (block_byte_size st / SECTOR_SIZE * SECTOR_SIZE <= block_byte_size st)
      by (rewrite Z.mul_comm; apply Z.mul_div_le; done).
    unfold SECTOR_SIZE in *. set (q := block_byte_size st / 512) in *.
    assert (N * (q * 512) <= N * block_byte_size st) by (apply Z.mul_le_mono_nonneg_l; lia).
    destruct (Z.eq_dec N 0) as [E0|]; [rewrite E0; lia|]. destruct (Z.eq_dec fsize 0) as [E0|]; [|lia].
    exfalso. unfold N in *. rewrite E0 in *. done. }
  split_and!; [done| |apply (fr_bbs _ _ F)]. split; [done|].
  pose proof (zlen_contents st' n ltac:(lia)) as Hz'. rewrite Hs' in Hz'.
  apply znth_ext; [by rewrite Hz', zlen_overwrite by lia|]. rewrite Hz'. intros k Hk.
  rewrite znth_overwrite by lia. unfold contents. rewrite Hs', (fr_bbs _ _ F), znth_file_range by lia. rewrite Z.add_0_l.
  rewrite (ow_bytes _ _ _ _ _ _ _ _ O) by lia.
  destruct (Z.leb_spec off k), (Z.ltb_spec k (off + zlen d)); cbn [andb].
  2-4: rewrite <- Hc; unfold contents; rewrite Hsz, znth_file_range by lia; by rewrite Z.add_0_l.
  unfold byte_of. by destruct (znth_Some d (k - off) ltac:(lia)) as [x ->].
Qed.

(** Appending is writing at the end. *)
Lemma append_writes st n d size off :
  fs_ok st -> inode_ok st n -> 0 <= file_size (inode_at st n) ->
  write_inode n d size off true st = write_inode n d size (file_size (inode_at st n)) false st.
Proof.
  intros Hf Hi Hs. unfold write_inode.
  destruct (get_inode_header_spec st n Hf Hi) as (h & st1 & E1 & Hz & Hh & _). mrun E1. mrun E1.
  rewrite (inode_file_size_ok _ _ Hh) by (pose proof (fo_isz _ Hf); lia). by msimpl.
Qed.

Lemma read_bytes st n c size offset :
  has_bytes st n c -> 0 <= size < 2 ^ 63 -> 0 <= offset < 2 ^ 63 ->
  wp (read_inode n size offset) (fun r st' => r = (ztake size (zdrop offset c), zlen c) /\ has_bytes st' n c /\
    block_byte_size st' = block_byte_size st) st.
Proof.
  intros H Hs Ho. pose proof (has_bytes_size _ _ _ H) as Hsz. destruct H as [W Hc].
  pose proof W as [W1 W2 W3 W4 W5 W6]. pose proof (fo_bbs _ W1) as Hb. rewrite Hsz in W4.
  assert (Hm : blocks_mapped st (inode_at st n) 0 (file_size (inode_at st n))).
  { intros k Hk. rewrite Hsz in Hk. apply (fk_blocks _ _ _ W5). apply byte_block; [lia|].
    destruct (blocks_for_bound (file_size (inode_at st n)) (block_byte_size st)) as (? & _ & _); lia. }
  eapply wp_mono; [apply (read_inode_spec st n size offset); [done|apply W5|lia|done|lia|lia]|].
  intros r st' [-> S]. pose proof (writable_same_fs _ _ _ W S) as W'.
  assert (Hcc : contents st' n = contents st n).
  { apply contents_stable; [apply (fr_bbs _ _ (sf_frame _ _ S))| |done|].
    - by destruct (same_fs_inode _ _ n S (fk_inode _ _ _ W5)) as (_ & ? & _).
    - intros k b _ _ Hb'. by apply S. }
  split_and!; [|split; [done|congruence]|apply (fr_bbs _ _ (sf_frame _ _ S))].
  rewrite Hsz. f_equal. set (m := Z.min size (Z.max 0 (zlen c - offset))).
  assert (Hz : zlen (ztake size (zdrop offset c)) = m).
  { unfold m, ztake, zdrop, zlen. rewrite length_take, length_drop. unfold zlen. lia. }
  apply znth_ext; [by rewrite Hz, zlen_file_range by (unfold m; lia)|]. rewrite zlen_file_range by (unfold m; lia).
  intros i Hi. rewrite znth_file_range, znth_ztake, znth_zdrop by (unfold m in Hi; lia).
  rewrite <- Hc. unfold contents. rewrite Hsz, znth_file_range by (unfold m in Hi; lia). by rewrite Z.add_0_l.
Qed.

Lemma step_bytes st n c o :
  has_bytes st n c -> op_ok (block_byte_size st) o c ->
  wp (file_step n o) (fun r st' => r = fst (bytes_step o c) /\ has_bytes st' n (snd (bytes_step o c)) /\
    block_byte_size st' = block_byte_size st) st.
Proof.
  intros H Hok. destruct o as [size offset|d offset|d]; cbn [op_ok file_step bytes_step fst snd] in *.
  - destruct Hok. by apply read_bytes.
  - apply wp_bind. eapply wp_mono; [by apply write_bytes|]. intros r st' (-> & H' & B). by apply wp_ret.
  - pose proof (has_bytes_size _ _ _ H) as Hsz. apply wp_bind. unfold wp at 1.
    pose proof (hb_writable _ _ _ H) as W. rewrite (append_writes st n d (zlen d) 0 (wr_fs _ _ W) (fk_inode _ _ _ (wr_file _ _ W)) (proj1 (wr_size _ _ W))), Hsz.
    destruct (write_bytes st n c d (zlen c) H Hok) as (r & st' & E & -> & H' & B). exists (zlen d), st'. split; [exact E|].
    rewrite overwrite_end in H'. by apply wp_ret.
Qed.

(** C8: a file is a sequence of bytes: any sequence of reads, writes and appends gives the
    results it has on a list of bytes, and leaves the file with the bytes of the list.
    The writes start within the file and stay within the blocks it has, those that make
    it longer included; allocating blocks is not part of this, and no superblock waits
    to be written. *)
Theorem file_behaves_like_bytes st n c os :
  has_bytes st n c -> ops_ok (block_byte_size st) os c ->
  exists st', file_run n os st = Ok (fst (bytes_run os c), st') /\ has_bytes st' n (snd (bytes_run os c)).
Proof.
  revert st c. induction os as [|o os IH]; intros st c H Hok; [by exists st|].
  destruct Hok as [Ho Hos]. destruct (step_bytes st n c o H Ho) as (r & st1 & E & -> & H1 & B).
  rewrite <- B in Hos. destruct (IH st1 _ H1 Hos) as (st2 & E2 & H2). exists st2.
  cbn [file_run bytes_run]. mrun E. mrun E2.
  destruct (bytes_step o c) as [r1 c1]. cbn [fst snd] in *. by destruct (bytes_run os c1).
Qed.
End Files.

(** ** The example file *)

Definition ex_ops : list file_op := [FWrite (replicate 600 66) 1000; FAppend [1; 2; 3]; FRead 5 1598].

Lemma file_behaves_like_bytes_witness :
  exists st', file_run 3 ex_ops ex_fs = Ok ([([], 600); ([], 3); ([66; 66; 1; 2; 3], 1603)], st') /\
    has_bytes st' 3 (replicate 1000 65 ++ replicate 600 66 ++ [1; 2; 3]).
Proof.
  assert (Hc : contents ex_fs 3 = replicate 1500 65) by (vm_compute; reflexivity).
  assert (H : has_bytes ex_fs 3 (replicate 1500 65)).
  { split; [|done]. split; [apply ex_fs_ok|apply ex_layout|done|rewrite ex_size; lia| |].
    - rewrite ex_size. apply ex_file_ok.
    - rewrite ex_size. apply ex_used. }
  destruct (file_behaves_like_bytes ex_fs 3 (replicate 1500 65) ex_ops H) as (st' & E & H').
  - split; [split_and!; vm_compute; (done || reflexivity)|]. split; [split_and!; vm_compute; (done || reflexivity)|].
    split; [split_and!; lia|done].
  - exists st'. split; [exact E|exact H'].
Defined.
