(* ===== verification/CryptoSpec.v ===== *)
(** The standards the cryptographic code implements: SHA-1 as FIPS 180-4 defines it and
    the block function of ChaCha20 as RFC 8439 defines it.

    Nothing here is taken from the code: words are numbers, rotations and additions are
    arithmetic modulo 2^32, and the constants are derived.  [Sha1] and [Random] prove that
    the code computes these functions. *)

From stdpp Require Import base numbers list.
From Stdlib Require Import ZArith Lia.
From S2P Require Import Prelude.

Open Scope Z_scope.

(** ** Words of 32 bits *)

Module Word32.
Definition add (x y : Z) : Z := (x + y) mod 2 ^ 32.
Definition rotate (n x : Z) : Z := (x * 2 ^ n) mod 2 ^ 32 + x / 2 ^ (32 - n).
Definition complement (x : Z) : Z := 2 ^ 32 - 1 - x.

(** Four bytes, the most or the least significant first. *)
Definition big_endian (l : list Z) : Z := fold_left (fun x b => 256 * x + b) l 0.
Definition little_endian (l : list Z) : Z := big_endian (rev l).

(** The bytes of a word, the most significant first. *)
Definition bytes (x : Z) : list Z := [x / 256 ^ 3 mod 256; x / 256 ^ 2 mod 256; x / 256 mod 256; x mod 256].

(** The [i]th group of four bytes. *)
Definition group (l : list Z) (i : nat) : list Z := take 4 (drop (4 * i) l).
End Word32.

Import Word32.

(** ** FIPS 180-4: SHA-1 *)

Module Sha1Standard.
(** Section 4.1.1 *)
Definition Ch (x y z : Z) : Z := Z.lxor (Z.land x y) (Z.land (complement x) z).
Definition Parity (x y z : Z) : Z := Z.lxor (Z.lxor x y) z.
Definition Maj (x y z : Z) : Z := Z.lxor (Z.lxor (Z.land x y) (Z.land x z)) (Z.land y z).

Definition f (t : nat) : Z -> Z -> Z -> Z :=
  match (t / 20)%nat with 0%nat => Ch | 1%nat => Parity | 2%nat => Maj | _ => Parity end.

(** Section 4.2.1: 2^30 times the square roots of 2, 3, 5 and 10. *)
Definition K (t : nat) : Z := Z.sqrt (([2; 3; 5; 10] !!! (t / 20)%nat) * 2 ^ 60).

(** Section 5.3.1: the nibbles count up, down, and back and forth. *)
Definition H0 : list Z :=
  [little_endian [0x01; 0x23; 0x45; 0x67]; little_endian [0x89; 0xab; 0xcd; 0xef]; little_endian [0xfe; 0xdc; 0xba; 0x98];
   little_endian [0x76; 0x54; 0x32; 0x10]; little_endian [0xf0; 0xe1; 0xd2; 0xc3]].

(** Section 5.1.1: a one bit, zeros up to 56 bytes modulo 64, and the length in bits. *)
Definition zeros (n : Z) : Z := (55 - n) mod 64.
Definition pad (m : list Z) : list Z :=
  let bits := 8 * zlen m in
  m ++ [128] ++ replicate (Z.to_nat (zeros (zlen m))) 0 ++ bytes (bits / 2 ^ 32) ++ bytes bits.

(** Section 6.1.2, step 1: the message schedule, word by word. *)
Definition W (M : list Z) : list Z :=
  fold_left (fun w t =>
    w ++ [if (t <? 16)%nat then M !!! t
          else rotate 1 (Z.lxor (Z.lxor (Z.lxor (w !!! (t - 3)%nat) (w !!! (t - 8)%nat)) (w !!! (t - 14)%nat)) (w !!! (t - 16)%nat))])
    (seq 0 80) [].

(** Step 3: one round on the working variables. *)
Definition round (w : list Z) (v : Z * Z * Z * Z * Z) (t : nat) : Z * Z * Z * Z * Z :=
  let '(a, b, c, d, e) := v in
  ((rotate 5 a + f t b c d + e + K t + w !!! t) mod 2 ^ 32, a, rotate 30 b, c, d).

(** Steps 2 to 4. *)
Definition compress (H M : list Z) : list Z :=
  let '(a, b, c, d, e) :=
    fold_left (round (W M)) (seq 0 80) (H !!! 0%nat, H !!! 1%nat, H !!! 2%nat, H !!! 3%nat, H !!! 4%nat) in
  zip_with add H [a; b; c; d; e].

(** The sixteen words of the first block of a message. *)
Definition block_of (m : list Z) : list Z := (fun i => big_endian (group m i)) <$> seq 0 16.

Fixpoint hash (n : nat) (H m : list Z) : list Z :=
  match n with
  | O => H
  | S n => hash n (compress H (block_of m)) (drop 64 m)
  end.

Definition sha1 (m : list Z) : list Z :=
  let p := pad m in concat (bytes <$> hash (length p / 64) H0 p).

(** The example "abc" of the standard. *)
Example sha1_abc : sha1 [97; 98; 99] =
  [0xa9; 0x99; 0x3e; 0x36; 0x47; 0x06; 0x81; 0x6a; 0xba; 0x3e; 0x25; 0x71; 0x78; 0x50; 0xc2; 0x6c; 0x9c; 0xd0; 0xd8; 0x9d].
Proof. vm_compute. reflexivity. Qed.
End Sha1Standard.

(** ** RFC 8439: ChaCha20 *)

Module ChaCha20.
(** Section 2.1 *)
Definition quarter_round (q : Z * Z * Z * Z) : Z * Z * Z * Z :=
  let '(a, b, c, d) := q in
  let a := add a b in let d := rotate 16 (Z.lxor d a) in
  let c := add c d in let b := rotate 12 (Z.lxor b c) in
  let a := add a b in let d := rotate 8 (Z.lxor d a) in
  let c := add c d in let b := rotate 7 (Z.lxor b c) in
  (a, b, c, d).

(** Section 2.2: on four words of the state. *)
Definition QUARTERROUND (s : list Z) (i : nat * nat * nat * nat) : list Z :=
  let '(x, y, z, w) := i in
  let '(a, b, c, d) := quarter_round (s !!! x, s !!! y, s !!! z, s !!! w) in
  <[w := d]> (<[z := c]> (<[y := b]> (<[x := a]> s))).

(** Section 2.3: the columns and the diagonals of the state. *)
Definition column (i : nat) : nat * nat * nat * nat := (i, 4 + i, 8 + i, 12 + i)%nat.
Definition diagonal (i : nat) : nat * nat * nat * nat :=
  (i, 4 + (i + 1) mod 4, 8 + (i + 2) mod 4, 12 + (i + 3) mod 4)%nat.
Definition inner_block (s : list Z) : list Z :=
  fold_left QUARTERROUND (map column (seq 0 4) ++ map diagonal (seq 0 4)) s.

(** The key has eight words, the nonce three. *)
Record cipher : Type := mkCipher { key : list Z; counter : Z; nonce : list Z }.

(** The text "expand 32-byte k" *)
Definition sigma : list Z := [101; 120; 112; 97; 110; 100; 32; 51; 50; 45; 98; 121; 116; 101; 32; 107].
Definition state (c : cipher) : list Z :=
  ((fun i => little_endian (group sigma i)) <$> seq 0 4) ++ key c ++ [counter c] ++ nonce c.

(** The block function, as words and as bytes. *)
Definition block_words (c : cipher) : list Z := zip_with add (Nat.iter 10 inner_block (state c)) (state c).
Definition block (c : cipher) : list Z := concat ((fun x => rev (bytes x)) <$> block_words c).

Definition set_counter (n : Z) (c : cipher) : cipher := mkCipher (key c) n (nonce c).

(** The block of section 2.3.2. *)
Example block_rfc8439 :
  take 8 (block (mkCipher (map (fun i => little_endian (group (map Z.of_nat (seq 0 32)) i)) (seq 0 8)) 1 [0x09000000; 0x4a000000; 0])) =
  [0x10; 0xf1; 0xe7; 0xe4; 0xd1; 0x3b; 0x59; 0x15].
Proof. vm_compute. reflexivity. Qed.
End ChaCha20.
