(* ===== verification/Crypto.v ===== *)
(** kernel/crypto: the ChaCha20 block function and the xoshiro256++ generator.

    Arrays of words are lists; every index the code uses is a constant below the
    length of its array. *)

From stdpp Require Import base numbers list.
From Stdlib Require Import ZArith Lia.
From S2P Require Import Prelude Bytes CryptoSpec.

Open Scope Z_scope.

(** ** Rotations *)

(** [(x << k) | (x >> (w - k))] on words of [w] bits. *)
Definition rotl (w x k : Z) : Z := Z.lor (wrap w (Z.shiftl x k)) (Z.shiftr x (w - k)).

Lemma testbit_wrap w x n : 0 <= w -> 0 <= n -> Z.testbit (wrap w x) n = (n <? w) && Z.testbit x n.
Proof.
  intros Hw Hn. unfold wrap. destruct (Z.ltb_spec n w); cbn [andb].
  - by rewrite Z.mod_pow2_bits_low.
  - by rewrite Z.mod_pow2_bits_high by lia.
Qed.

Lemma testbit_rotl w x k n :
  0 < k < w -> 0 <= n < w -> fits w x ->
  Z.testbit (rotl w x k) n = Z.testbit x (if n <? k then n + w - k else n - k).
Proof.
  intros Hk Hn Hx. unfold rotl. rewrite Z.lor_spec, testbit_wrap, Z.shiftr_spec by lia.
  destruct (Z.ltb_spec n w); [|lia]. cbn [andb]. destruct (Z.ltb_spec n k).
  - rewrite Z.shiftl_spec_low by lia. cbn [orb]. f_equal. lia.
  - rewrite Z.shiftl_spec by lia. rewrite (testbit_fits w x (n + (w - k))) by (done || lia).
    apply orb_false_r.
Qed.

Lemma lor_fits w x y : 0 <= w -> fits w x -> fits w y -> fits w (Z.lor x y).
Proof.
  intros Hw Hx Hy. apply fits_bits; [done|apply Z.lor_nonneg; split; [apply Hx|apply Hy]|].
  intros n Hn. by rewrite Z.lor_spec, (testbit_fits w x), (testbit_fits w y).
Qed.

Lemma lxor_fits w x y : 0 <= w -> fits w x -> fits w y -> fits w (Z.lxor x y).
Proof.
  intros Hw Hx Hy. apply fits_bits; [done|apply Z.lxor_nonneg; destruct Hx, Hy; lia|].
  intros n Hn. by rewrite Z.lxor_spec, (testbit_fits w x), (testbit_fits w y).
Qed.

Lemma shiftr_fits w x k : 0 <= k -> fits w x -> fits w (Z.shiftr x k).
Proof.
  intros Hk [H1 H2]. rewrite Z.shiftr_div_pow2 by done. pose proof (Z.pow_pos_nonneg 2 k).
  split; [apply Z.div_pos; lia|]. apply Z.div_lt_upper_bound; [lia|]. nia.
Qed.

Lemma rotl_fits w x k : 0 <= k <= w -> fits w x -> fits w (rotl w x k).
Proof.
  intros Hk Hx. apply lor_fits; [lia|apply wrap_fits; lia|apply shiftr_fits; [lia|done]].
Qed.

Lemma fits_ext w x y :
  0 <= w -> fits w x -> fits w y -> (forall n, 0 <= n < w -> Z.testbit x n = Z.testbit y n) -> x = y.
Proof.
  intros Hw Hx Hy H. apply Z.bits_inj'. intros n Hn. destruct (Z.lt_ge_cases n w); [by apply H|].
  by rewrite (testbit_fits w x), (testbit_fits w y).
Qed.

(** A rotation is undone by the rest of the full turn. *)
Lemma rotl_inverse w x k : 0 < k < w -> fits w x -> rotl w (rotl w x k) (w - k) = x.
Proof.
  intros Hk Hx. assert (fits w (rotl w x k)) by (apply rotl_fits; [lia|done]).
  apply (fits_ext w); [lia|apply rotl_fits; [lia|done]|done|].
  intros n Hn. rewrite testbit_rotl by (done || lia).
  destruct (Z.ltb_spec n (w - k)).
  - rewrite testbit_rotl by (done || lia). destruct (Z.ltb_spec (n + w - (w - k)) k); [lia|]. f_equal. lia.
  - rewrite testbit_rotl by (done || lia). destruct (Z.ltb_spec (n - (w - k)) k); [|lia]. f_equal. lia.
Qed.

Lemma lxor_cancel x y : Z.lxor (Z.lxor x y) y = x.
Proof. by rewrite Z.lxor_assoc, Z.lxor_nilpotent, Z.lxor_0_r. Qed.

Lemma u32_add_sub a b : fits 32 a -> u32 (u32 (a + b) - b) = a.
Proof.
  intros Ha. unfold u32, wrap. rewrite Zminus_mod_idemp_l. replace (a + b - b) with a by lia.
  by apply Z.mod_small.
Qed.

(** ** ChaCha20 *)

Definition ROTL (a b : Z) : Z := rotl 32 a b.

(** The macro [QR] on four words. *)
Definition quarter_round (q : Z * Z * Z * Z) : Z * Z * Z * Z :=
  let '(a, b, c, d) := q in
  let a := u32 (a + b) in let d := Z.lxor d a in let d := ROTL d 16 in
  let c := u32 (c + d) in let b := Z.lxor b c in let b := ROTL b 12 in
  let a := u32 (a + b) in let d := Z.lxor d a in let d := ROTL d 8 in
  let c := u32 (c + d) in let b := Z.lxor b c in let b := ROTL b 7 in
  (a, b, c, d).

(** ... on the words of [x] at four indices. *)
Definition QR (x : list Z) (a b c d : nat) : list Z :=
  let '(va, vb, vc, vd) := quarter_round (x !!! a, x !!! b, x !!! c, x !!! d) in
  <[d := vd]> (<[c := vc]> (<[b := vb]> (<[a := va]> x))).

Definition double_round (x : list Z) : list Z :=
  let x := QR x 0 4 8 12 in
  let x := QR x 1 5 9 13 in
  let x := QR x 2 6 10 14 in
  let x := QR x 3 7 11 15 in
  let x := QR x 0 5 10 15 in
  let x := QR x 1 6 11 12 in
  let x := QR x 2 7 8 13 in
  QR x 3 4 9 14.

Definition ROUNDS : nat := 20.

(** The loop over the rounds. *)
Definition rounds (x : list Z) : list Z := Nat.iter (ROUNDS / 2) double_round x.

Definition chacha_block (input : list Z) : list Z :=
  zip_with (fun a b => u32 (a + b)) (rounds input) input.

(** A state of the cipher: sixteen 32 bit words. *)
Definition words (w : Z) (n : nat) (x : list Z) : Prop := length x = n /\ Forall (fits w) x.

Lemma u32_fit x : fits 32 (u32 x).
Proof. apply u32_fits. Qed.

Lemma ROTL_fits a b : 0 < b < 32 -> fits 32 a -> fits 32 (ROTL a b).
Proof. intros. apply rotl_fits; [lia|done]. Qed.

Definition quad_ok (q : Z * Z * Z * Z) : Prop :=
  let '(a, b, c, d) := q in fits 32 a /\ fits 32 b /\ fits 32 c /\ fits 32 d.

Ltac words_fit :=
  repeat first [assumption | apply u32_fit | apply ROTL_fits; [lia|] | apply lxor_fits; [lia| |]].

Lemma quarter_round_ok q : quad_ok q -> quad_ok (quarter_round q).
Proof.
  destruct q as [[[a b] c] d]. intros (Ha & Hb & Hc & Hd). cbn [quarter_round quad_ok].
  split_and!; words_fit.
Qed.

(** The steps of the quarter round backwards. *)
Definition quarter_back (q : Z * Z * Z * Z) : Z * Z * Z * Z :=
  let '(a, b, c, d) := q in
  let b := Z.lxor (ROTL b 25) c in let c := u32 (c - d) in
  let d := Z.lxor (ROTL d 24) a in let a := u32 (a - b) in
  let b := Z.lxor (ROTL b 20) c in let c := u32 (c - d) in
  let d := Z.lxor (ROTL d 16) a in let a := u32 (a - b) in
  (a, b, c, d).

Lemma ROTL_back x k : 0 < k < 32 -> fits 32 x -> ROTL (ROTL x k) (32 - k) = x.
Proof. apply rotl_inverse. Qed.

Lemma quarter_back_round q : quad_ok q -> quarter_back (quarter_round q) = q.
Proof.
  destruct q as [[[a b] c] d]. intros (Ha & Hb & Hc & Hd). unfold quarter_round. cbv zeta.
  set (a1 := u32 (a + b)). set (d1 := ROTL (Z.lxor d a1) 16).
  set (c1 := u32 (c + d1)). set (b1 := ROTL (Z.lxor b c1) 12).
  set (a2 := u32 (a1 + b1)). set (d2 := ROTL (Z.lxor d1 a2) 8).
  set (c2 := u32 (c1 + d2)). set (b2 := ROTL (Z.lxor b1 c2) 7).
  assert (Hd1 : fits 32 d1) by (subst d1 a1; words_fit).
  assert (Hb1 : fits 32 b1) by (subst b1 c1; words_fit).
  assert (E1 : Z.lxor (ROTL b2 25) c2 = b1).
  { subst b2. change 25 with (32 - 7). rewrite ROTL_back by (lia || (subst c2; words_fit)). apply lxor_cancel. }
  assert (E2 : u32 (c2 - d2) = c1) by (apply u32_add_sub; subst c1; words_fit).
  assert (E3 : Z.lxor (ROTL d2 24) a2 = d1).
  { subst d2. change 24 with (32 - 8). rewrite ROTL_back by (lia || (subst a2; words_fit)). apply lxor_cancel. }
  assert (E4 : u32 (a2 - b1) = a1) by (apply u32_add_sub; subst a1; words_fit).
  assert (E5 : Z.lxor (ROTL b1 20) c1 = b).
  { subst b1. change 20 with (32 - 12). rewrite ROTL_back by (lia || (subst c1; words_fit)). apply lxor_cancel. }
  assert (E6 : u32 (c1 - d1) = c) by (by apply u32_add_sub).
  assert (E7 : Z.lxor (ROTL d1 16) a1 = d).
  { subst d1. change 16 with (32 - 16) at 2. rewrite ROTL_back by (lia || (subst a1; words_fit)). apply lxor_cancel. }
  assert (E8 : u32 (a1 - b) = a) by (by apply u32_add_sub).
  unfold quarter_back. cbv zeta. by rewrite E1, E2, E3, E4, E5, E6, E7, E8.
Qed.

(** ** The cipher's state as a whole *)

Definition four (a b c d : nat) : Prop := NoDup [a; b; c; d] /\ (a < 16 /\ b < 16 /\ c < 16 /\ d < 16)%nat.

Definition get4 (x : list Z) (a b c d : nat) : Z * Z * Z * Z := (x !!! a, x !!! b, x !!! c, x !!! d).
Definition put4 (x : list Z) (a b c d : nat) (q : Z * Z * Z * Z) : list Z :=
  let '(va, vb, vc, vd) := q in <[d := vd]> (<[c := vc]> (<[b := vb]> (<[a := va]> x))).

Lemma length_put4 x a b c d q : length (put4 x a b c d q) = length x.
Proof. destruct q as [[[??]?]?]. cbn [put4]. by rewrite !length_insert. Qed.

Lemma four_distinct a b c d :
  four a b c d -> a <> b /\ a <> c /\ a <> d /\ b <> c /\ b <> d /\ c <> d.
Proof.
  intros [H _]. apply NoDup_cons in H as [H1 H]. apply NoDup_cons in H as [H2 H].
  apply NoDup_cons in H as [H3 _]. do 3 rewrite not_elem_of_cons in H1.
  do 2 rewrite not_elem_of_cons in H2. rewrite not_elem_of_cons in H3.
  destruct H1 as (? & ? & ? & _), H2 as (? & ? & _), H3 as (? & _). auto 10.
Qed.

Lemma get4_put4 x a b c d q : length x = 16%nat -> four a b c d -> get4 (put4 x a b c d q) a b c d = q.
Proof.
  intros Hl H. pose proof (four_distinct _ _ _ _ H) as (? & ? & ? & ? & ? & ?). destruct H as [_ (? & ? & ? & ?)].
  destruct q as [[[va vb] vc] vd]. unfold get4, put4.
  repeat (first [rewrite list_lookup_total_insert_eq by (rewrite ?length_insert; lia)
                |rewrite list_lookup_total_insert_ne by congruence]). done.
Qed.

Lemma lookup_put4 x a b c d q i :
  i <> a -> i <> b -> i <> c -> i <> d -> put4 x a b c d q !! i = x !! i.
Proof.
  intros. destruct q as [[[va vb] vc] vd]. unfold put4. by rewrite !list_lookup_insert_ne.
Qed.

Lemma put4_get4 x a b c d q :
  length x = 16%nat -> four a b c d -> put4 (put4 x a b c d q) a b c d (get4 x a b c d) = x.
Proof.
  intros Hl H. pose proof (four_distinct _ _ _ _ H) as (? & ? & ? & ? & ? & ?).
  pose proof (get4_put4 (put4 x a b c d q) a b c d (get4 x a b c d)
    ltac:(by rewrite length_put4) H) as G. destruct H as [_ (? & ? & ? & ?)].
  set (y := put4 (put4 x a b c d q) a b c d (get4 x a b c d)) in *.
  assert (Hly : length y = 16%nat) by (subst y; by rewrite !length_put4).
  assert (Hv : forall i, (i < 16)%nat -> y !!! i = x !!! i -> y !! i = x !! i).
  { intros i Hi E. by rewrite !list_lookup_lookup_total_lt, E by lia. }
  injection G as G1 G2 G3 G4. apply list_eq. intros i.
  destruct (decide (i = a)) as [->|]; [by apply Hv|]. destruct (decide (i = b)) as [->|]; [by apply Hv|].
  destruct (decide (i = c)) as [->|]; [by apply Hv|]. destruct (decide (i = d)) as [->|]; [by apply Hv|].
  subst y. by rewrite !lookup_put4.
Qed.

Lemma words_lookup w n x i : words w n x -> (i < n)%nat -> fits w (x !!! i).
Proof.
  intros [Hl Hf] Hi. rewrite Forall_forall in Hf. apply Hf.
  apply (list_elem_of_lookup_2 _ i). apply list_lookup_lookup_total_lt. lia.
Qed.

Lemma get4_ok x a b c d : words 32 16 x -> four a b c d -> quad_ok (get4 x a b c d).
Proof. intros Hx [_ (? & ? & ? & ?)]. split_and!; by apply (words_lookup 32 16). Qed.

Lemma put4_ok x a b c d q : words 32 16 x -> quad_ok q -> words 32 16 (put4 x a b c d q).
Proof.
  intros [Hl Hf] Hq. split; [by rewrite length_put4|]. destruct q as [[[va vb] vc] vd].
  destruct Hq as (? & ? & ? & ?). cbn [put4]. by repeat apply Forall_insert.
Qed.

Lemma QR_put x a b c d : QR x a b c d = put4 x a b c d (quarter_round (get4 x a b c d)).
Proof. done. Qed.

Definition QR_back (x : list Z) (a b c d : nat) : list Z := put4 x a b c d (quarter_back (get4 x a b c d)).

Lemma QR_words x a b c d : four a b c d -> words 32 16 x -> words 32 16 (QR x a b c d).
Proof. intros Hf Hx. rewrite QR_put. by apply put4_ok, quarter_round_ok, get4_ok. Qed.

Lemma QR_back_QR x a b c d : four a b c d -> words 32 16 x -> QR_back (QR x a b c d) a b c d = x.
Proof.
  intros Hf Hx. rewrite QR_put. unfold QR_back. rewrite get4_put4 by (done || apply Hx).
  rewrite quarter_back_round by (by apply get4_ok). apply put4_get4; [apply Hx|done].
Qed.

Definition double_round_back (x : list Z) : list Z :=
  let x := QR_back x 3 4 9 14 in
  let x := QR_back x 2 7 8 13 in
  let x := QR_back x 1 6 11 12 in
  let x := QR_back x 0 5 10 15 in
  let x := QR_back x 3 7 11 15 in
  let x := QR_back x 2 6 10 14 in
  let x := QR_back x 1 5 9 13 in
  QR_back x 0 4 8 12.

Ltac is_four := split; [apply (bool_decide_unpack _); vm_compute; exact I|lia].

Lemma double_round_words x : words 32 16 x -> words 32 16 (double_round x).
Proof. intros Hx. unfold double_round. repeat (apply QR_words; [is_four|]). done. Qed.

(** Names the state after one quarter round, with its type and its way back. *)
Tactic Notation "undo_step" constr(x) constr(a) constr(b) constr(c) constr(d)
    "as" ident(y) ident(H) ident(E) :=
  assert (E : QR_back (QR x a b c d) a b c d = x) by (apply QR_back_QR; [is_four|assumption]);
  assert (H : words 32 16 (QR x a b c d)) by (apply QR_words; [is_four|assumption]);
  revert H E; generalize (QR x a b c d); intros y H E.

Lemma double_round_inverse x : words 32 16 x -> double_round_back (double_round x) = x.
Proof.
  intros Hx. unfold double_round.
  undo_step x 0%nat 4%nat 8%nat 12%nat as x1 H1 E1.
  undo_step x1 1%nat 5%nat 9%nat 13%nat as x2 H2 E2.
  undo_step x2 2%nat 6%nat 10%nat 14%nat as x3 H3 E3.
  undo_step x3 3%nat 7%nat 11%nat 15%nat as x4 H4 E4.
  undo_step x4 0%nat 5%nat 10%nat 15%nat as x5 H5 E5.
  undo_step x5 1%nat 6%nat 11%nat 12%nat as x6 H6 E6.
  undo_step x6 2%nat 7%nat 8%nat 13%nat as x7 H7 E7.
  undo_step x7 3%nat 4%nat 9%nat 14%nat as x8 H8 E8.
  unfold double_round_back. by rewrite E8, E7, E6, E5, E4, E3, E2, E1.
Qed.

Lemma iter_words n x : words 32 16 x -> words 32 16 (Nat.iter n double_round x).
Proof. intros Hx. induction n as [|n IH]; [done|]. rewrite Nat.iter_succ. by apply double_round_words. Qed.

Lemma iter_inverse n x :
  words 32 16 x -> Nat.iter n double_round_back (Nat.iter n double_round x) = x.
Proof.
  intros Hx. induction n as [|n IH]; [done|]. rewrite Nat.iter_succ_r.
  rewrite (Nat.iter_succ n _ double_round).
  rewrite double_round_inverse by (by apply iter_words). done.
Qed.

Lemma rounds_words x : words 32 16 x -> words 32 16 (rounds x).
Proof. unfold rounds. apply iter_words. Qed.

Definition rounds_back (x : list Z) : list Z := Nat.iter (ROUNDS / 2) double_round_back x.

(** The rounds of the cipher are a permutation of its states of sixteen 32 bit
    words: they can be run backwards, so that no two states are merged before
    the final addition. *)
Theorem chacha_rounds_invertible x :
  words 32 16 x -> words 32 16 (rounds x) /\ rounds_back (rounds x) = x.
Proof.
  intros Hx. split; [by apply rounds_words|]. unfold rounds_back, rounds.
  generalize (ROUNDS / 2)%nat. intros n. by apply iter_inverse.
Qed.

Lemma add_words x y : length x = length y ->
  words 32 (length y) (zip_with (fun a b => u32 (a + b)) x y).
Proof.
  intros Hl. split; [rewrite length_zip_with; lia|]. apply Forall_forall. intros v Hv.
  apply elem_of_lookup_zip_with in Hv as (i & a & b & -> & _). apply u32_fit.
Qed.

Lemma chacha_block_words x : words 32 16 x -> words 32 16 (chacha_block x).
Proof.
  intros Hx. pose proof (rounds_words x Hx) as [Hl _]. unfold chacha_block. revert Hl.
  generalize (rounds x). intros y Hl. destruct Hx as [Hx _]. rewrite <- Hx. apply add_words. congruence.
Qed.

(** ** The standard *)

Lemma rotl_rotate x k : 0 < k < 32 -> fits 32 x -> ROTL x k = Word32.rotate k x.
Proof.
  intros Hk [H0 H1]. unfold ROTL, rotl, Word32.rotate, wrap. rewrite Z.shiftl_mul_pow2, Z.shiftr_div_pow2 by lia.
  assert (E : (x * 2 ^ k) mod 2 ^ 32 = (x mod 2 ^ (32 - k)) * 2 ^ k).
  { replace (2 ^ 32) with (2 ^ (32 - k) * 2 ^ k) by (rewrite <- Z.pow_add_r by lia; f_equal; lia). apply Z.mul_mod_distr_r; lia. }
  rewrite E, Z.lor_comm, lor_disjoint_add; [lia|lia|]. split; [apply Z.div_pos; lia|].
  apply Z.div_lt_upper_bound; [lia|]. rewrite <- Z.pow_add_r by lia. by replace (32 - k + k) with 32 by lia.
Qed.

Lemma rotate_fits x k : 0 < k < 32 -> fits 32 x -> fits 32 (Word32.rotate k x).
Proof. intros Hk Hx. rewrite <- rotl_rotate by done. by apply ROTL_fits. Qed.

Ltac rotations_fit := repeat first [assumption | apply u32_fit | apply rotate_fits; [lia|] | apply lxor_fits; [lia| |]].

Lemma quarter_standard q : quad_ok q -> quarter_round q = ChaCha20.quarter_round q.
Proof.
  destruct q as [[[a b] c] d]. intros (Ha & Hb & Hc & Hd). unfold quarter_round, ChaCha20.quarter_round.
  change Word32.add with (fun x y => u32 (x + y)). cbn beta zeta. rewrite !rotl_rotate by (lia || rotations_fit).
  done.
Qed.

Lemma QR_standard x a b c d : four a b c d -> words 32 16 x ->
  QR x a b c d = ChaCha20.QUARTERROUND x (a, b, c, d) /\ words 32 16 (QR x a b c d).
Proof.
  intros Hf Hx. split; [|by apply QR_words]. unfold QR, ChaCha20.QUARTERROUND. rewrite quarter_standard; [done|].
  by apply (get4_ok x a b c d).
Qed.

Lemma double_round_standard x : words 32 16 x -> double_round x = ChaCha20.inner_block x.
Proof.
  intros Hx. unfold double_round, ChaCha20.inner_block.
  change (map ChaCha20.column (seq 0 4) ++ map ChaCha20.diagonal (seq 0 4)) with
    [(0, 4, 8, 12); (1, 5, 9, 13); (2, 6, 10, 14); (3, 7, 11, 15); (0, 5, 10, 15); (1, 6, 11, 12); (2, 7, 8, 13); (3, 4, 9, 14)]%nat.
  cbn [fold_left]. cbv zeta.
  repeat (match goal with |- context [QR ?y ?a ?b ?c ?d] =>
    lazymatch y with context [QR] => fail | _ => idtac end;
    let E := fresh in let Hw := fresh in
    destruct (QR_standard y a b c d) as [E Hw]; [is_four|assumption|]; rewrite E in *; clear E end).
  done.
Qed.

(** The block function is the one of the standard, on every state of words. *)
Lemma chacha_block_standard x : words 32 16 x ->
  chacha_block x = zip_with Word32.add (Nat.iter 10 ChaCha20.inner_block x) x.
Proof.
  intros Hx. unfold chacha_block, rounds. change (ROUNDS / 2)%nat with 10%nat.
  assert (E : forall n, Nat.iter n double_round x = Nat.iter n ChaCha20.inner_block x).
  { induction n as [|n IH]; [done|]. rewrite (Nat.iter_succ n _ double_round), (Nat.iter_succ n _ ChaCha20.inner_block), <- IH.
    by apply double_round_standard, iter_words. }
  by rewrite E.
Qed.

(** The block of RFC 8439, section 2.3.2. *)
Definition rfc_block : list Z :=
  [0x61707865; 0x3320646e; 0x79622d32; 0x6b206574; 0x03020100; 0x07060504; 0x0b0a0908; 0x0f0e0d0c;
   0x13121110; 0x17161514; 0x1b1a1918; 0x1f1e1d1c; 0x00000001; 0x09000000; 0x4a000000; 0x00000000].

Example chacha_rfc8439 : chacha_block rfc_block =
  [0xe4e7f110; 0x15593bd1; 0x1fdd0f50; 0xc47120a3; 0xc7f4d1c7; 0x0368c033; 0x9aaa2204; 0x4e6cd4c3;
   0x466482d2; 0x09aa9f07; 0x05d7c214; 0xa2028bd9; 0xd19c12b5; 0xb94e16de; 0xe883d0cb; 0x4e3c50a2].
Proof. vm_compute. reflexivity. Qed.

(** ** xoshiro256++ *)

(** The four words of the state. *)
Record xoshiro : Type := mkXoshiro { x0 : Z; x1 : Z; x2 : Z; x3 : Z }.

(** [memcpy(s, input, sizeof(s))] *)
Definition seed_xoshiro_256_pp (input : list Z) : outcome xoshiro :=
  a ← aread input 0; b ← aread input 1; c ← aread input 2; d ← aread input 3;
  Ok (mkXoshiro a b c d).

Definition xoshiro_256_pp (s : xoshiro) : Z * xoshiro :=
  let result := u64 (rotl 64 (u64 (x0 s + x3 s)) 23 + x0 s) in
  let t := u64 (Z.shiftl (x1 s) 17) in
  let s2 := Z.lxor (x2 s) (x0 s) in
  let s3 := Z.lxor (x3 s) (x1 s) in
  let s1 := Z.lxor (x1 s) s2 in
  let s0 := Z.lxor (x0 s) s3 in
  let s2 := Z.lxor s2 t in
  let s3 := rotl 64 s3 45 in
  (result, mkXoshiro s0 s1 s2 s3).

Definition xoshiro_ok (s : xoshiro) : Prop :=
  fits 64 (x0 s) /\ fits 64 (x1 s) /\ fits 64 (x2 s) /\ fits 64 (x3 s).

Lemma u64_fit x : fits 64 (u64 x).
Proof. by apply wrap_fits. Qed.

Lemma xoshiro_step_ok s : xoshiro_ok s -> xoshiro_ok (snd (xoshiro_256_pp s)).
Proof.
  intros (H0 & H1 & H2 & H3). cbn [xoshiro_256_pp snd].
  split_and!; cbn [x0 x1 x2 x3]; [| | |apply rotl_fits; [lia|]];
    repeat first [assumption | apply u64_fit | apply lxor_fits; [lia| |]].
Qed.

(** A word is determined by its sum with itself shifted. *)
Lemma shift_xor_inj w k x y :
  0 < k -> 0 <= w -> fits w x -> fits w y ->
  Z.lxor x (wrap w (Z.shiftl x k)) = Z.lxor y (wrap w (Z.shiftl y k)) -> x = y.
Proof.
  intros Hk Hw Hx Hy E. apply (fits_ext w); [done..|]. intros n Hn.
  assert (Hn0 : 0 <= n) by lia. revert n Hn0 Hn. apply (Z_lt_induction (fun n => 0 <= n < w -> Z.testbit x n = Z.testbit y n)).
  intros n IH Hn. pose proof (f_equal (fun z => Z.testbit z n) E) as En. cbn beta in En.
  rewrite !Z.lxor_spec, !testbit_wrap in En by lia. destruct (Z.ltb_spec n w); [|lia]. cbn [andb] in En.
  destruct (Z.lt_ge_cases n k).
  - rewrite !Z.shiftl_spec_low in En by lia. by rewrite !xorb_false_r in En.
  - rewrite !Z.shiftl_spec in En by lia. rewrite (IH (n - k)) in En by lia.
    destruct (Z.testbit x n), (Z.testbit y n), (Z.testbit y (n - k)); done.
Qed.

Lemma rotl_inj w k x y : 0 < k < w -> fits w x -> fits w y -> rotl w x k = rotl w y k -> x = y.
Proof.
  intros Hk Hx Hy E. rewrite <- (rotl_inverse w x k), <- (rotl_inverse w y k) by done. by rewrite E.
Qed.

Lemma lxor_inj_r x y z : Z.lxor x z = Z.lxor y z -> x = y.
Proof. intros E. rewrite <- (lxor_cancel x z), <- (lxor_cancel y z). by rewrite E. Qed.

Lemma xoshiro_step_inj s t :
  xoshiro_ok s -> xoshiro_ok t -> snd (xoshiro_256_pp s) = snd (xoshiro_256_pp t) -> s = t.
Proof.
  destruct s as [a b c d], t as [a' b' c' d']. intros (Ha & Hb & Hc & Hd) (Ha' & Hb' & Hc' & Hd') E.
  cbn [xoshiro_256_pp snd x0 x1 x2 x3] in *. injection E as E0 E1 E2 E3.
  apply rotl_inj in E3; [|lia|apply lxor_fits; (done || lia)..].
  rewrite E3 in E0. apply lxor_inj_r in E0 as ->.
  assert (Eb : b = b').
  { apply (shift_xor_inj 64 17); [lia|lia|done|done|].
    assert (Ey : Z.lxor (Z.lxor b (Z.lxor c a')) (Z.lxor (Z.lxor c a') (u64 (Z.shiftl b 17))) =
                 Z.lxor (Z.lxor b' (Z.lxor c' a')) (Z.lxor (Z.lxor c' a') (u64 (Z.shiftl b' 17))))
      by (by rewrite E1, E2).
    assert (Hs : forall p q r, Z.lxor (Z.lxor p q) (Z.lxor q r) = Z.lxor p r).
    { intros p q r. rewrite Z.lxor_assoc, <- (Z.lxor_assoc q q r), Z.lxor_nilpotent. by rewrite Z.lxor_0_l. }
    by rewrite !Hs in Ey. }
  subst b'. apply lxor_inj_r in E3 as ->. rewrite !(Z.lxor_comm b) in E1. apply lxor_inj_r in E1.
  by apply lxor_inj_r in E1 as ->.
Qed.

(** C38: the generator never reaches the all zero state it could not leave: from
    any other state of 64 bit words the next state is another one too, and
    distinct states have distinct successors. *)
Theorem xoshiro_never_zero s :
  xoshiro_ok s -> s <> mkXoshiro 0 0 0 0 ->
  xoshiro_ok (snd (xoshiro_256_pp s)) /\ snd (xoshiro_256_pp s) <> mkXoshiro 0 0 0 0.
Proof.
  intros Hs Hne. split; [by apply xoshiro_step_ok|]. intros E. apply Hne.
  apply xoshiro_step_inj; [done|by repeat split|done].
Qed.

Lemma xoshiro_never_zero_witness :
  xoshiro_ok (snd (xoshiro_256_pp (mkXoshiro 1 2 3 4))) /\
  snd (xoshiro_256_pp (mkXoshiro 1 2 3 4)) <> mkXoshiro 0 0 0 0.
Proof. apply xoshiro_never_zero; [repeat split; cbn; lia|discriminate]. Defined.

Lemma rfc_words : words 32 16 rfc_block.
Proof. split; [done|]. repeat (apply Forall_cons; split; [split; reflexivity || discriminate|]). constructor. Qed.

Lemma chacha_rounds_invertible_witness :
  words 32 16 (rounds rfc_block) /\ rounds_back (rounds rfc_block) = rfc_block.
Proof. exact (chacha_rounds_invertible rfc_block rfc_words). Defined.
