(* ===== verification/Random.v ===== *)
(** kernel/random.c: random numbers from ChaCha20 keyed by a pool of entropy, and
    the fast generator.

    The hash function of the pool is not part of the sources: its context and its
    three functions are parameters, as is the length of its digests. *)

From stdpp Require Import base numbers list.
From Stdlib Require Import ZArith Lia.
From S2P Require Import Prelude StateM Bytes CryptoSpec Crypto.

Open Scope Z_scope.

Definition KEY : Z := 4.
Definition KEY_SIZE : Z := 32.
Definition COUNT : Z := 12.
Definition COUNT_MAX : Z := 2 ^ 32 - 1.
Definition NONCE : Z := 13.
Definition NONCE_SIZE : Z := 8.
Definition BLOCK_SIZE : Z := 64.

(** Words in memory, and back. *)
Definition words_bytes (ws : list Z) : list Z := concat (le32_bytes <$> ws).
Definition bytes_words (n : nat) (l : list Z) : list Z := (fun i => word l (4 * Z.of_nat i)) <$> seq 0 n.
Definition le64_bytes (x : Z) : list Z := le32_bytes x ++ le32_bytes (x / 2 ^ 32).
Definition bytes_dwords (n : nat) (l : list Z) : list Z :=
  (fun i => word l (8 * Z.of_nat i) + 2 ^ 32 * word l (8 * Z.of_nat i + 4)) <$> seq 0 n.

Definition internal_chacha_block : list Z :=
  [0x61707865; 0x3320646e; 0x79622d32; 0x6b206574] ++ replicate 12 0.

Section Random.
Context {ctx : Type} (SHA1_Init : ctx) (SHA1_Update : ctx -> list Z -> ctx)
  (SHA1_Final : ctx -> ctx * list Z) (HASH_LEN : Z).

(** The globals of the file and the state of xoshiro. *)
Record random : Type := mkRandom {
  chacha : list Z;
  fast_state : xoshiro;
  is_fast_random_seeded : bool;
  hash_pool : ctx;
  hash_pool_size : Z;
  entropy_fast_state : Z
}.

Abbreviation R := (SM random).

Definition set_chacha (b : list Z) (r : random) : random :=
  mkRandom b (fast_state r) (is_fast_random_seeded r) (hash_pool r) (hash_pool_size r) (entropy_fast_state r).
Definition set_fast (x : xoshiro) (s : bool) (r : random) : random :=
  mkRandom (chacha r) x s (hash_pool r) (hash_pool_size r) (entropy_fast_state r).
Definition set_pool (c : ctx) (n : Z) (r : random) : random :=
  mkRandom (chacha r) (fast_state r) (is_fast_random_seeded r) c n (entropy_fast_state r).
Definition set_entropy (e : Z) (r : random) : random :=
  mkRandom (chacha r) (fast_state r) (is_fast_random_seeded r) (hash_pool r) (hash_pool_size r) e.

(** [internal_chacha_block[COUNT]++] *)
Definition bump_count : R unit :=
  b ← gets chacha;
  c ← lift (aread b COUNT);
  b ← lift (awrite b COUNT (u32 (c + 1)));
  modify (set_chacha b).

(** [memcpy(internal_chacha_block + k, data, 4 * n)] *)
Definition store_words (k : Z) (n : nat) (data : list Z) : R unit :=
  data ← lift (bytes_at data 0 (4 * Z.of_nat n));
  b ← gets chacha;
  b ← lift (memcpy_at b k (bytes_words n data) 0 (Z.of_nat n));
  modify (set_chacha b).

(** [mix_chacha] once the random data is there. *)
Definition rekey (rand_data : list Z) : R unit :=
  store_words KEY 8 rand_data ;;
  store_words NONCE 2 (zdrop KEY_SIZE rand_data) ;;
  b ← gets chacha;
  b ← lift (awrite b COUNT 0);
  modify (set_chacha b).

(** The loop of [get_random]; [mix] is [mix_chacha]. *)
Fixpoint random_loop (mix : R unit) (fuel : nat) (len : Z) : R (list Z) :=
  match fuel with
  | O => no_fuel
  | S fuel =>
    if negb (0 <? len) then ret [] else
    b ← gets chacha;
    count ← lift (aread b COUNT);
    (if COUNT_MAX - 1 =? count then bump_count ;; mix else ret tt) ;;
    let read_len := if BLOCK_SIZE <? len then BLOCK_SIZE else len in
    b ← gets chacha;
    let rand_data := words_bytes (chacha_block b) in
    bump_count ;;
    rest ← random_loop mix fuel (len - read_len);
    ret (ztake read_len rand_data ++ rest)
  end.

(** [get_random] and [mix_chacha] call each other; [depth] bounds the nesting. *)
Fixpoint get_random_depth (depth : nat) (len : Z) : R (list Z) :=
  match depth with
  | O => no_fuel
  | S depth =>
    random_loop (rand_data ← get_random_depth depth BLOCK_SIZE; rekey rand_data)
      (S (Z.to_nat len)) len
  end.

Definition get_random : Z -> R (list Z) := get_random_depth 2.

Definition mix_chacha : R unit := rand_data ← get_random BLOCK_SIZE; rekey rand_data.

(** ** The fast generator *)

Definition next_fast : R Z :=
  s ← gets fast_state;
  let '(v, s) := xoshiro_256_pp s in
  modify (fun r => set_fast s (is_fast_random_seeded r) r) ;;
  ret v.

Fixpoint fast_words (n : nat) : R (list Z) :=
  match n with
  | O => ret []
  | S n => v ← next_fast; rest ← fast_words n; ret (le64_bytes v ++ rest)
  end.

Fixpoint fast_bytes (n : nat) : R (list Z) :=
  match n with
  | O => ret []
  | S n => v ← next_fast; rest ← fast_bytes n; ret (Z.land v 0xFF :: rest)
  end.

Definition seed_fast : R unit :=
  seed ← get_random 32;
  s ← lift (seed_xoshiro_256_pp (bytes_dwords 4 seed));
  modify (set_fast s true).

Definition get_fast_insecure_random (len : Z) : R (list Z) :=
  seeded ← gets is_fast_random_seeded;
  (if seeded : bool then ret tt else seed_fast) ;;
  a ← fast_words (Z.to_nat (len / 8));
  b ← fast_bytes (Z.to_nat (len mod 8));
  ret (a ++ b).

(** ** The pool *)

(** [new_chacha_key[i % KEY_SIZE] ^= hash_buffer[i]] for all [i]; the macro
    [KEY_SIZE] is [8 * sizeof(u32)] without parentheses. *)
Fixpoint mix_key (key hash : list Z) (i : Z) : outcome (list Z) :=
  match hash with
  | [] => Ok key
  | h :: hash =>
    let k := i mod 8 * 4 in
    v ← aread key k;
    key ← awrite key k (Z.lxor v h);
    mix_key key hash (i + 1)
  end.

Definition add_hash_pool : R unit :=
  new_chacha_key ← get_random KEY_SIZE;
  pool ← gets hash_pool;
  let '(_, hash_buffer) := SHA1_Final pool in
  new_chacha_key ← lift (mix_key new_chacha_key (ztake HASH_LEN hash_buffer) 0);
  let pool := SHA1_Update SHA1_Init (ztake HASH_LEN hash_buffer) in
  modify (fun r => set_pool pool (hash_pool_size r) r) ;;
  block ← get_random BLOCK_SIZE;
  modify (fun r => set_pool (SHA1_Update (hash_pool r) block) (hash_pool_size r) r) ;;
  store_words KEY 8 new_chacha_key ;;
  mix_chacha ;;
  seed ← get_random 32;
  s ← lift (seed_xoshiro_256_pp (bytes_dwords 4 seed));
  modify (fun r => set_fast s (is_fast_random_seeded r) r).

Definition xorshift64 : R unit :=
  x ← gets entropy_fast_state;
  let x := Z.lxor x (u64 (Z.shiftl x 13)) in
  let x := Z.lxor x (Z.shiftr x 7) in
  let x := Z.lxor x (u64 (Z.shiftl x 17)) in
  modify (set_entropy x).

Definition random_add_entropy (buffer : list Z) : R unit :=
  e ← gets entropy_fast_state;
  modify (fun r => set_pool (SHA1_Update (hash_pool r) (le64_bytes e)) (hash_pool_size r) r) ;;
  xorshift64 ;;
  modify (fun r => set_pool (SHA1_Update (hash_pool r) buffer) (u32 (hash_pool_size r + zlen buffer)) r) ;;
  n ← gets hash_pool_size;
  if HASH_LEN * 2 <=? n then add_hash_pool else ret tt.

Fixpoint entropy_loop (buffer : list Z) (i : Z) : R unit :=
  match buffer with
  | [] => ret tt
  | b :: buffer =>
    e ← gets entropy_fast_state;
    modify (set_entropy (Z.lxor e (Z.shiftl b (8 * (i mod 8))))) ;;
    (if i mod 8 =? 0 then xorshift64 else ret tt) ;;
    entropy_loop buffer (i + 1)
  end.

Definition random_add_entropy_fast (buffer : list Z) : R unit :=
  entropy_loop buffer 0 ;;
  xorshift64.

Definition setup_random : R unit := modify (fun r => set_pool SHA1_Init (hash_pool_size r) r).

Definition random_write (buffer : list Z) : R Z :=
  random_add_entropy buffer ;;
  ret (i32 (zlen buffer)).

Definition random_read (len : Z) : R (list Z * Z) :=
  d ← get_random len;
  ret (d, i32 len).

(** ** The stream of the cipher *)

Definition count_of (b : list Z) : Z := b !!! 12%nat.
Definition with_count (b : list Z) (c : Z) : list Z := <[12%nat := c]> b.

(** The state with a fresh key and nonce from the last block of the old one. *)
Definition rekeyed (b : list Z) : list Z :=
  let d := words_bytes (chacha_block (with_count b COUNT_MAX)) in
  with_count (splice (splice (with_count b 0) KEY (bytes_words 8 (ztake KEY_SIZE d)))
                NONCE (bytes_words 2 (slice KEY_SIZE NONCE_SIZE d))) 0.

(** The state the next block of output comes from. *)
Definition current (b : list Z) : list Z :=
  if COUNT_MAX - 1 =? count_of b then rekeyed b else b.

(** [n] blocks of output and the state behind them. *)
Fixpoint keystream (n : nat) (b : list Z) : list Z * list Z :=
  match n with
  | O => ([], b)
  | S n =>
    let b := current b in
    let '(s, e) := keystream n (with_count b (u32 (count_of b + 1))) in
    (words_bytes (chacha_block b) ++ s, e)
  end.

Implicit Types r : random.

Lemma zlen_words_bytes ws : zlen (words_bytes ws) = 4 * zlen ws.
Proof.
  unfold words_bytes. induction ws as [|w ws IH]; [done|]. cbn [fmap list_fmap concat].
  rewrite zlen_app, IH. unfold zlen. cbn [length le32_bytes]. lia.
Qed.

Lemma zlen_block b : words 32 16 b -> zlen (words_bytes (chacha_block b)) = 64.
Proof.
  intros Hb. rewrite zlen_words_bytes. destruct (chacha_block_words b Hb) as [Hl _]. unfold zlen. lia.
Qed.

Lemma with_count_words b c : words 32 16 b -> fits 32 c -> words 32 16 (with_count b c).
Proof. intros [Hl Hf] Hc. split; [unfold with_count; by rewrite length_insert|by apply Forall_insert]. Qed.

Lemma count_fits b : words 32 16 b -> fits 32 (count_of b).
Proof. intros Hb. apply (words_lookup 32 16); [done|lia]. Qed.

Lemma count_with_count b c : words 32 16 b -> count_of (with_count b c) = c.
Proof. intros [Hl _]. apply list_lookup_total_insert_eq. lia. Qed.

Lemma with_count_twice b c c' : with_count (with_count b c) c' = with_count b c'.
Proof. apply list_insert_insert_eq. Qed.

Lemma length_bytes_words n l : zlen (bytes_words n l) = Z.of_nat n.
Proof. unfold zlen, bytes_words. by rewrite length_fmap, length_seq. Qed.

Lemma bytes_words_fits n l : Forall (fits 8) l -> Forall (fits 32) (bytes_words n l).
Proof. intros Hl. apply Forall_fmap, Forall_forall. intros i _. by apply word_fits. Qed.

Lemma words_bytes_fits ws : Forall (fits 8) (words_bytes ws).
Proof. apply Forall_concat, Forall_fmap, Forall_forall. intros w _. apply le32_bytes_fits. Qed.

Lemma splice_words b k ws :
  words 32 16 b -> Forall (fits 32) ws -> 0 <= k -> k + zlen ws <= 16 -> words 32 16 (splice b k ws).
Proof.
  intros [Hl Hf] Hw Hk Hz. assert (zlen b = 16) by (unfold zlen; lia). split.
  - pose proof (zlen_splice b k ws Hk ltac:(lia)) as E. unfold zlen in *. lia.
  - unfold splice, ztake, zdrop. rewrite !Forall_app. auto using Forall_take, Forall_drop.
Qed.

Lemma rekeyed_words b : words 32 16 b -> words 32 16 (rekeyed b).
Proof.
  intros Hb. apply with_count_words; [|done].
  pose proof (words_bytes_fits (chacha_block (with_count b COUNT_MAX))) as Hd.
  apply splice_words; [apply splice_words| | |]; try done.
  - by apply with_count_words.
  - apply bytes_words_fits, Forall_take, Hd.
  - apply bytes_words_fits. by apply Forall_take, Forall_drop.
Qed.

Lemma current_words b : words 32 16 b -> words 32 16 (current b).
Proof. intros Hb. unfold current. destruct (_ =? _); [by apply rekeyed_words|done]. Qed.

Lemma read_count r : words 32 16 (chacha r) -> aread (chacha r) COUNT = Ok (count_of (chacha r)).
Proof.
  intros [Hl _]. apply aread_ok. unfold znth, COUNT, count_of. cbn [Z.leb Z.compare].
  change (Z.to_nat 12) with 12%nat. apply list_lookup_lookup_total_lt. lia.
Qed.

Lemma write_count b c : words 32 16 b -> awrite b COUNT c = Ok (with_count b c).
Proof. intros [Hl _]. apply awrite_ok. unfold COUNT, zlen. lia. Qed.

Lemma bump_count_spec r :
  words 32 16 (chacha r) ->
  bump_count r = Ok (tt, set_chacha (with_count (chacha r) (u32 (count_of (chacha r) + 1))) r).
Proof.
  intros Hb. unfold bump_count. msimpl. rewrite read_count, lift_bind by done.
  by rewrite write_count, lift_bind by done.
Qed.

Lemma store_words_spec r k n d :
  words 32 16 (chacha r) -> 0 <= k -> k + Z.of_nat n <= 16 -> 4 * Z.of_nat n <= zlen d ->
  store_words k n d r =
    Ok (tt, set_chacha (splice (chacha r) k (bytes_words n (ztake (4 * Z.of_nat n) d))) r).
Proof.
  intros [Hl _] Hk Hn Hd. unfold store_words, bytes_at.
  rewrite (proj2 (Z.leb_le 0 0)), (proj2 (Z.leb_le (0 + 4 * Z.of_nat n) (zlen d))) by lia. cbn [andb]. msimpl.
  rewrite memcpy_at_ok by (rewrite ?length_bytes_words; unfold zlen in *; lia). rewrite lift_bind.
  rewrite slice_from_0, ztake_all by (by rewrite length_bytes_words). done.
Qed.

Lemma rekey_spec r d :
  words 32 16 (chacha r) -> zlen d = 64 -> Forall (fits 8) d ->
  rekey d r = Ok (tt, set_chacha (with_count
    (splice (splice (chacha r) KEY (bytes_words 8 (ztake KEY_SIZE d)))
            NONCE (bytes_words 2 (slice KEY_SIZE NONCE_SIZE d))) 0) r).
Proof.
  intros Hb Hd Hf. unfold rekey. unfold KEY, NONCE.
  assert (E1 := store_words_spec r 4 8 d Hb ltac:(lia) ltac:(lia) ltac:(lia)). mrun E1.
  set (b1 := splice (chacha r) 4 _) in *.
  assert (Hb1 : words 32 16 b1).
  { apply splice_words; [done| |lia|by rewrite length_bytes_words]. by apply bytes_words_fits, Forall_take. }
  assert (E2 := store_words_spec (set_chacha b1 r) 13 2 (zdrop KEY_SIZE d) Hb1 ltac:(lia) ltac:(lia)
    ltac:(rewrite zlen_zdrop; unfold KEY_SIZE; lia)). mrun E2.
  set (b2 := splice (chacha (set_chacha b1 r)) 13 _) in *.
  assert (Hb2 : words 32 16 b2).
  { apply splice_words; [done| |lia|by rewrite length_bytes_words].
    by apply bytes_words_fits, Forall_take, Forall_drop. }
  msimpl. change (chacha (set_chacha b2 (set_chacha b1 r))) with b2.
  by rewrite write_count, lift_bind by done.
Qed.

#[local] Opaque chacha_block words_bytes.

(** What [get_random] does when the counter is used up. *)
Definition mix_ok (mix : R unit) : Prop := forall r,
  words 32 16 (chacha r) -> COUNT_MAX - 1 = count_of (chacha r) ->
  (bump_count ;; mix) r = Ok (tt, set_chacha (rekeyed (chacha r)) r).

Lemma set_chacha_id r : set_chacha (chacha r) r = r.
Proof. by destruct r. Qed.

Lemma random_loop_spec mix fuel len r n :
  mix_ok mix -> words 32 16 (chacha r) -> 0 <= len -> n = Z.to_nat ((len + 63) / 64) ->
  (n < fuel)%nat ->
  random_loop mix fuel len r =
    Ok (ztake len (fst (keystream n (chacha r))), set_chacha (snd (keystream n (chacha r))) r) /\
  words 32 16 (snd (keystream n (chacha r))) /\ len <= zlen (fst (keystream n (chacha r))).
Proof.
  intros Hmix. revert len r n. induction fuel as [|fuel IH]; intros len r n Hb Hlen Hn Hf; [lia|].
  cbn [random_loop]. destruct (Z.ltb_spec 0 len); cbn [negb].
  2: { assert (len = 0) as -> by lia. change (Z.to_nat ((0 + 63) / 64)) with 0%nat in Hn. subst n.
       cbn [keystream fst snd]. split_and!; [by rewrite set_chacha_id|done|done]. }
  destruct n as [|n].
  { pose proof (Z.div_le_lower_bound (len + 63) 64 1). lia. }
  assert (Hcur : (if COUNT_MAX - 1 =? count_of (chacha r) then bump_count ;; mix else ret tt) r =
    Ok (tt, set_chacha (current (chacha r)) r)).
  { unfold current. destruct (Z.eqb_spec (COUNT_MAX - 1) (count_of (chacha r))) as [E|E]; [by apply Hmix|].
    by rewrite set_chacha_id. }
  msimpl. rewrite read_count, lift_bind by done. mrun Hcur. msimpl.
  pose proof (current_words _ Hb) as Hw. cbn [keystream]. set (b := current (chacha r)) in *.
  change (chacha (set_chacha b r)) with b.
  pose proof (bump_count_spec (set_chacha b r) Hw) as Eb. mrun Eb.
  change (chacha (set_chacha b r)) with b.
  set (b' := with_count b (u32 (count_of b + 1))).
  assert (Hw' : words 32 16 b') by (apply with_count_words; [done|apply u32_fit]).
  clear Hcur Eb. clearbody b'. clearbody b.
  set (rl := if BLOCK_SIZE <? len then BLOCK_SIZE else len).
  assert (Hrl : rl = Z.min 64 len) by (unfold rl, BLOCK_SIZE; destruct (Z.ltb_spec 64 len); lia).
  change (set_chacha b' (set_chacha b r)) with (set_chacha b' r).
  destruct (IH (len - rl) (set_chacha b' r) n) as (E & Hk & Hz); [done|lia| |lia|].
  { replace (len - rl + 63) with (len + 63 + - rl) by lia. destruct (Z.le_ge_cases 64 len).
    - rewrite Hrl, Z.min_l by lia. change (-(64)) with ((-1) * 64). rewrite Z.div_add by lia. lia.
    - rewrite Hrl, Z.min_r by lia. replace (len + 63 + - len) with 63 by lia. change (63 / 64) with 0.
      assert ((len + 63) / 64 < 2) by (apply Z.div_lt_upper_bound; lia). lia. }
  mrun E. change (chacha (set_chacha b' r)) with b' in *.
  destruct (keystream n b') as [ks e] eqn:Ek. cbn [fst snd] in *.
  change (set_chacha e (set_chacha b' r)) with (set_chacha e r).
  pose proof (zlen_block b Hw) as H64. split_and!; [|done|rewrite zlen_app; lia].
  unfold ret, mret, SM_ret. do 2 f_equal. destruct (Z.le_ge_cases 64 len).
  - rewrite Hrl, Z.min_l, ztake_all by lia. unfold ztake. rewrite take_app_ge by (unfold zlen in *; lia).
    do 2 f_equal. unfold zlen in *. lia.
  - rewrite Hrl, Z.min_r by lia. replace (len - len) with 0 by lia. change (ztake 0 ks) with (@nil Z).
    rewrite app_nil_r. unfold ztake. by rewrite take_app_le by (unfold zlen in *; lia).
Qed.

Lemma mix_chacha_ok : mix_ok (rand_data ← get_random_depth 1 BLOCK_SIZE; rekey rand_data).
Proof.
  intros r Hb Hc. pose proof (bump_count_spec r Hb) as E1. mrun E1. rewrite <- Hc.
  change (u32 (COUNT_MAX - 1 + 1)) with COUNT_MAX. set (b := with_count (chacha r) COUNT_MAX).
  assert (Hw : words 32 16 b) by (by apply with_count_words).
  assert (Hcb : count_of b = COUNT_MAX) by (by apply count_with_count).
  cbn [get_random_depth]. set (r1 := set_chacha b r).
  assert (E2 : random_loop (rand_data ← get_random_depth 0 BLOCK_SIZE; rekey rand_data)
      (S (Z.to_nat BLOCK_SIZE)) BLOCK_SIZE r1 =
    Ok (words_bytes (chacha_block b), set_chacha (with_count b 0) r)).
  { change (S (Z.to_nat BLOCK_SIZE)) with (S (S 63)). generalize 63%nat. intros f. cbn [random_loop].
    change (0 <? BLOCK_SIZE) with true. cbn [negb]. msimpl. rewrite (read_count r1), lift_bind by done.
    change (chacha r1) with b. rewrite Hcb.
    change (COUNT_MAX - 1 =? COUNT_MAX) with false. cbn iota. msimpl. cbn zeta.
    pose proof (bump_count_spec r1 Hw) as E3. mrun E3. change (chacha r1) with b.
    rewrite Hcb.
    change (BLOCK_SIZE - _) with 0. change (0 <? 0) with false. cbn [negb]. msimpl.
    rewrite app_nil_r, ztake_all by (by rewrite zlen_block). done. }
  mrun E2. rewrite rekey_spec; [|by apply with_count_words|by apply zlen_block|apply words_bytes_fits].
  change (chacha (set_chacha (with_count b 0) r)) with (with_count b 0).
  unfold rekeyed. fold b. assert (E4 : with_count b 0 = with_count (chacha r) 0) by apply with_count_twice.
  by rewrite E4.
Qed.

(** [get_random] in terms of the functions of the code. *)
Lemma get_random_spec r len :
  words 32 16 (chacha r) -> 0 <= len ->
  let k := keystream (Z.to_nat ((len + 63) / 64)) (chacha r) in
  get_random len r = Ok (ztake len (fst k), set_chacha (snd k) r) /\ zlen (ztake len (fst k)) = len.
Proof.
  intros Hb Hl. assert (Hn : (Z.to_nat ((len + 63) / 64) < S (Z.to_nat len))%nat).
  { destruct (Z.eq_dec len 0) as [->|]; [change (Z.to_nat ((0 + 63) / 64)) with 0%nat; lia|].
    assert ((len + 63) / 64 <= len) by (apply Z.div_le_upper_bound; lia). lia. }
  destruct (random_loop_spec _ _ len r _ mix_chacha_ok Hb Hl eq_refl Hn) as (E & Hk & Hz).
  split; [exact E|]. apply zlen_ztake. lia.
Qed.

(** ** The stream, for the cipher of the standard *)

#[local] Transparent chacha_block words_bytes.

Import ChaCha20.

(** Eight words of key, three of nonce; the counter never reaches its last value. *)
Record cipher_ok (c : cipher) : Prop := {
  co_key : words 32 8 (key c);
  co_nonce : words 32 3 (nonce c);
  co_counter : 0 <= counter c < 2 ^ 32 - 1
}.

(** The new key and two words of the nonce are the block with the last counter. *)
Definition renew (c : cipher) : cipher :=
  let d := block_words (set_counter (2 ^ 32 - 1) c) in
  mkCipher (take 8 d) 0 (take 2 (drop 8 d) ++ drop 2 (nonce c)).

Definition usable (c : cipher) : cipher := if counter c =? 2 ^ 32 - 2 then renew c else c.

(** [n] blocks, and the cipher behind them. *)
Fixpoint stream (n : nat) (c : cipher) : list Z :=
  match n with
  | O => []
  | S n => let c := usable c in block c ++ stream n (set_counter (counter c + 1) c)
  end.

Fixpoint advance (n : nat) (c : cipher) : cipher :=
  match n with
  | O => c
  | S n => let c := usable c in advance n (set_counter (counter c + 1) c)
  end.

Ltac explicit l H := repeat (destruct l as [|? l]; [try discriminate H|]; try discriminate H).

Lemma state_words c : words 32 8 (key c) -> words 32 3 (nonce c) -> fits 32 (counter c) -> words 32 16 (state c).
Proof.
  intros [Hk Fk] [Hn Fn] Hc. split.
  - unfold state. rewrite !length_app, length_fmap, length_seq, Hk, Hn. done.
  - unfold state. apply Forall_app. split; [by repeat (constructor; [split; done|])|]. apply Forall_app. split; [done|].
    by constructor.
Qed.

Lemma count_state c : length (key c) = 8%nat -> count_of (state c) = counter c.
Proof. destruct c as [k n v]. cbn [key counter]. intros Hk. explicit k Hk. done. Qed.

Lemma with_count_state c n : length (key c) = 8%nat -> with_count (state c) n = state (set_counter n c).
Proof. destruct c as [k m v]. cbn [key]. intros Hk. explicit k Hk. done. Qed.

Lemma word_bytes_rev x : le32_bytes x = rev (Word32.bytes x).
Proof. done. Qed.

Lemma block_state c : words 32 16 (state c) -> words_bytes (chacha_block (state c)) = block c.
Proof. intros Hw. unfold words_bytes, block, block_words. rewrite (chacha_block_standard _ Hw). reflexivity. Qed.

Lemma word_shift w l o : 0 <= o -> word (le32_bytes w ++ l) (4 + o) = word l o.
Proof.
  intros Ho. assert (Hz : zlen (le32_bytes w) = 4) by done. unfold word. assert (E : forall k, 0 <= k -> byte_of (le32_bytes w ++ l) (4 + o + k) = byte_of l (o + k)).
  { intros k Hk. apply byte_of_ext. rewrite znth_app_r by lia.
    f_equal. lia. }
  pose proof (E 0 ltac:(lia)) as E0. rewrite !Z.add_0_r in E0. by rewrite E0, !E by lia.
Qed.

Lemma bytes_words_back n ws : Forall (fits 32) ws -> (n <= length ws)%nat -> bytes_words n (words_bytes ws) = take n ws.
Proof.
  intros Hf. revert n. induction Hf as [|w ws Hw _ IH]; intros n Hn; [by assert (n = 0%nat) as -> by (cbn in Hn; lia)|].
  destruct n as [|n]; [done|]. cbn [take]. rewrite <- (IH n) by (cbn in Hn; lia). unfold bytes_words.
  change (words_bytes (w :: ws)) with (le32_bytes w ++ words_bytes ws). cbn [seq fmap list_fmap]. f_equal.
  - change (word (le32_bytes w ++ words_bytes ws) (4 * Z.of_nat 0)) with (le32 (w mod 2 ^ 8) (w / 2 ^ 8 mod 2 ^ 8) (w / 2 ^ 16 mod 2 ^ 8) (w / 2 ^ 24 mod 2 ^ 8)).
    by apply le32_split.
  - rewrite <- fmap_S_seq, <- list_fmap_compose. apply list_fmap_ext. intros _ i _. cbn [compose].
    rewrite <- (word_shift w (words_bytes ws)) by lia. f_equal. lia.
Qed.

Lemma words_bytes_app a b : words_bytes (a ++ b) = words_bytes a ++ words_bytes b.
Proof. unfold words_bytes. by rewrite fmap_app, concat_app. Qed.

Lemma part_of_block n k ws : Forall (fits 32) ws -> (k + n <= length ws)%nat ->
  bytes_words n (slice (4 * Z.of_nat k) (4 * Z.of_nat n) (words_bytes ws)) = take n (drop k ws).
Proof.
  intros Hf Hn. rewrite <- (take_drop k ws) at 1. rewrite <- (take_drop n (drop k ws)) at 1.
  rewrite !words_bytes_app. assert (Hk : zlen (words_bytes (take k ws)) = 4 * Z.of_nat k).
  { rewrite zlen_words_bytes. unfold zlen. rewrite length_take. lia. }
  assert (Hm : zlen (words_bytes (take n (drop k ws))) = 4 * Z.of_nat n).
  { rewrite zlen_words_bytes. unfold zlen. rewrite length_take, length_drop. lia. }
  unfold slice. rewrite zdrop_app_exact, ztake_app_exact by done.
  rewrite bytes_words_back; [by rewrite take_take, Nat.min_id|by apply Forall_take, Forall_drop|rewrite length_take, length_drop; lia].
Qed.

Lemma rekey_words c d : length (key c) = 8%nat -> length (nonce c) = 3%nat -> words 32 16 d ->
  with_count (splice (splice (state (set_counter 0 c)) KEY (bytes_words 8 (ztake KEY_SIZE (words_bytes d))))
    NONCE (bytes_words 2 (slice KEY_SIZE NONCE_SIZE (words_bytes d)))) 0 =
  state (mkCipher (take 8 d) 0 (take 2 (drop 8 d) ++ drop 2 (nonce c))).
Proof.
  intros Hk Hn [Hd Fd]. rewrite <- slice_from_0.
  change (slice 0 KEY_SIZE (words_bytes d)) with (slice (4 * Z.of_nat 0) (4 * Z.of_nat 8) (words_bytes d)).
  change (slice KEY_SIZE NONCE_SIZE (words_bytes d)) with (slice (4 * Z.of_nat 8) (4 * Z.of_nat 2) (words_bytes d)).
  rewrite !part_of_block by (done || lia). destruct c as [k n v]. cbn [key nonce] in *.
  explicit k Hk. explicit v Hn. explicit d Hd. reflexivity.
Qed.

Lemma block_words_fit c : words 32 16 (state c) ->
  chacha_block (state c) = block_words c /\ words 32 16 (block_words c).
Proof.
  intros Hw. pose proof (chacha_block_standard _ Hw) as E. unfold block_words. rewrite <- E.
  split; [done|by apply chacha_block_words].
Qed.

Lemma rekeyed_state c : words 32 8 (key c) -> words 32 3 (nonce c) -> rekeyed (state c) = state (renew c).
Proof.
  intros Hk Hn. unfold rekeyed, renew. rewrite !with_count_state by apply Hk. fold COUNT_MAX.
  assert (Hw : words 32 16 (state (set_counter COUNT_MAX c))) by (by apply state_words).
  destruct (block_words_fit _ Hw) as [-> Hd]. apply rekey_words; [apply Hk|apply Hn|exact Hd].
Qed.

Lemma renew_ok c : cipher_ok c -> cipher_ok (renew c).
Proof.
  intros [[Hk Fk] [Hn Fn] Hc].
  assert (Hw : words 32 16 (state (set_counter (2 ^ 32 - 1) c))) by (by apply state_words).
  destruct (block_words_fit _ Hw) as [_ [Hd Fd]]. split; cbn [renew key nonce counter]; [|split|lia].
  - split; [rewrite length_take; lia|by apply Forall_take].
  - rewrite length_app, length_take, !length_drop. lia.
  - apply Forall_app. split; [by apply Forall_take, Forall_drop|by apply Forall_drop].
Qed.

Lemma usable_ok c : cipher_ok c -> cipher_ok (usable c) /\ counter (usable c) < 2 ^ 32 - 2.
Proof.
  intros Hc. unfold usable. destruct (Z.eqb_spec (counter c) (2 ^ 32 - 2)).
  - split; [by apply renew_ok|cbn; lia].
  - split; [done|]. destruct Hc. lia.
Qed.

Lemma next_ok c : cipher_ok c -> cipher_ok (set_counter (counter (usable c) + 1) (usable c)).
Proof. intros Hc. destruct (usable_ok c Hc) as [[Hk Hn H0] Hl]. split; [done|done|cbn [set_counter counter]; lia]. Qed.

Lemma keystream_standard n c : cipher_ok c ->
  keystream n (state c) = (stream n c, state (advance n c)) /\ cipher_ok (advance n c).
Proof.
  revert c. induction n as [|n IH]; intros c Hc; [done|]. pose proof Hc as [Hk Hn Hcnt]. cbn [keystream stream advance].
  assert (Ecur : current (state c) = state (usable c)).
  { unfold current, usable. rewrite count_state by apply Hk. unfold COUNT_MAX. rewrite (Z.eqb_sym (counter c)).
    change (2 ^ 32 - 1 - 1) with (2 ^ 32 - 2). destruct (_ =? _); [by apply rekeyed_state|done]. }
  rewrite Ecur. destruct (usable_ok c Hc) as [[Hku Hnu Hcu] Hl]. rewrite count_state by apply Hku. rewrite u32_small by lia.
  rewrite with_count_state by apply Hku. destruct (IH _ (next_ok c Hc)) as [E Ho]. rewrite E.
  rewrite block_state by (apply state_words; [done|done|split; lia]). done.
Qed.

(** C37: [get_random] returns for every length and gives the key stream of the cipher of
    RFC 8439: from a state with a key, a counter and a nonce, blocks with increasing counters;
    a counter two below its end gives way to a new key, taken with two words of nonce from the
    block with the last counter, and a counter of 0, so that no counter is used twice with a
    key for output.  The state stays one of a key, a counter below its last value and a nonce. *)
Theorem get_random_keystream r len c :
  chacha r = state c -> cipher_ok c -> 0 <= len ->
  let n := Z.to_nat ((len + 63) / 64) in
  get_random len r = Ok (ztake len (stream n c), set_chacha (state (advance n c)) r) /\
  zlen (ztake len (stream n c)) = len /\ cipher_ok (advance n c).
Proof.
  intros Hr Hc Hl n. assert (Hb : words 32 16 (chacha r)).
  { rewrite Hr. destruct Hc. apply state_words; [done|done|split; lia]. }
  destruct (get_random_spec r len Hb Hl) as (E & Hz). destruct (keystream_standard n c Hc) as [Ek Ho].
  fold n in E, Hz. rewrite Hr, Ek in E, Hz. split_and!; [exact E|exact Hz|exact Ho].
Qed.

(** Only every fourth byte of the key depends on the pool. *)
Lemma mix_key_untouched key hash i key' j :
  mix_key key hash i = Ok key' -> j mod 4 <> 0 -> znth key' j = znth key j.
Proof.
  revert key i. induction hash as [|h hash IH]; intros key i; cbn [mix_key].
  - by intros [= ->].
  - intros E Hj. destruct (aread key (i mod 8 * 4)) as [v| | |]; try done. cbn [mbind outcome_bind] in E.
    destruct (awrite key (i mod 8 * 4) (Z.lxor v h)) as [k| | |] eqn:Ek; try done.
    cbn [mbind outcome_bind] in E. rewrite (IH _ _ E Hj).
    unfold awrite in Ek. destruct ((0 <=? i mod 8 * 4) && (i mod 8 * 4 <? zlen key)) eqn:Eb; [|done].
    injection Ek as <-. breflect. destruct (Z.lt_ge_cases j 0); [by rewrite !znth_None by lia|].
    rewrite znth_insert by lia. destruct (Z.eqb_spec j (i mod 8 * 4)) as [->|]; [|done].
    exfalso. apply Hj. by apply Z.mod_mul.
Qed.
End Random.

(** The state the kernel starts with. *)
Lemma get_random_keystream_witness :
  let r := mkRandom internal_chacha_block (mkXoshiro 1 2 3 4) false tt 0 0 in
  let c := ChaCha20.mkCipher (replicate 8 0) 0 (replicate 3 0) in
  get_random 100 r = Ok (ztake 100 (stream 2 c), set_chacha (ChaCha20.state (advance 2 c)) r) /\
  cipher_ok (advance 2 c).
Proof.
  destruct (get_random_keystream (mkRandom internal_chacha_block (mkXoshiro 1 2 3 4) false tt 0 0) 100
    (ChaCha20.mkCipher (replicate 8 0) 0 (replicate 3 0))) as (E & _ & Ho); [reflexivity| |lia|split; [exact E|exact Ho]].
  split; [split; [reflexivity|]|split; [reflexivity|]|cbn; lia]; apply Forall_replicate; split; done.
Defined.
