(* ===== verification/Sha1.v ===== *)
(** userland/libc/tb/sha1.c: SHA-1 over a stream of updates, and HMAC.

    The machine is little endian: a word read from memory is reversed to get the
    big endian word of the standard. *)

From stdpp Require Import base numbers list.
From Stdlib Require Import ZArith Lia.
From S2P Require Import Prelude Bytes CryptoSpec Crypto.

Open Scope Z_scope.

Definition BLOCK_BYTES : Z := 64.
Definition SHA1_LEN : Z := 20.

Definition SHA1_CONSTANT_H : list Z := [0x67452301; 0xefcdab89; 0x98badcfe; 0x10325476; 0xc3d2e1f0].

Record SHA1_CTX : Type := mkSha1 {
  h : list Z;
  block : list Z;
  active_len : Z;
  len : Z
}.

Definition SHA1_Init : SHA1_CTX := mkSha1 SHA1_CONSTANT_H (replicate 64 0) 0 0.

Definition reverse_32 (v : Z) : Z :=
  Z.lor (Z.lor (Z.lor (u32 (Z.shiftl (Z.land v 0x000000FF) 24)) (u32 (Z.shiftl (Z.land v 0x0000FF00) 8)))
    (Z.shiftr (Z.land v 0x00FF0000) 8)) (Z.shiftr (Z.land v 0xFF000000) 24).

(** [(_loc / 8) + !(0 == (_loc % 8))] *)
Definition ARRAY_NUM (loc : Z) : Z := loc / 8 + c_int (negb (loc mod 8 =? 0)).

(** The number of zero bits behind the message and its final one. *)
Definition pad_bits (active_l : Z) : Z :=
  let rest := u64 (active_l + 1) mod 512 in
  if rest <? 448 then 448 - rest else 512 - rest + 448.

(** [memset(d + off, 0, n)] *)
Definition clear_at (d : list Z) (off n : Z) : outcome (list Z) :=
  memcpy_at d off (replicate (Z.to_nat n) 0) 0 n.

Definition pad_sha1_message (M : list Z) (l active_l : Z) : outcome (list Z) :=
  let blk := replicate 128 0 in
  blk ← memcpy_at blk 0 M 0 (active_l / 8);
  blk ← awrite blk (ARRAY_NUM active_l) 128;
  let k := pad_bits active_l in
  blk ← clear_at blk (ARRAY_NUM active_l + 2) (k / 8);
  let final := active_l / 8 + k / 8 + 1 in
  blk ← memcpy_at blk final (le32_bytes (reverse_32 (u32 (Z.shiftr l 32)))) 0 4;
  memcpy_at blk (final + 4) (le32_bytes (reverse_32 (u32 (Z.land l 0xFFFFFFFF)))) 0 4.

Definition sha1_f (t x y z : Z) : Z :=
  if t <=? 19 then Z.lxor (Z.land x y) (Z.land (u32 (Z.lnot x)) z) else
  if (t <=? 39) || (60 <=? t) then Z.lxor (Z.lxor x y) z else
  if t <=? 59 then Z.lxor (Z.lxor (Z.land x y) (Z.land x z)) (Z.land y z) else 0.

Definition sha1_get_k (t : Z) : Z :=
  if t <=? 19 then 0x5a827999 else if t <=? 39 then 0x6ed9eba1 else
  if t <=? 59 then 0x8f1bbcdc else if t <=? 79 then 0xca62c1d6 else 0.

(** The message schedule, one word at a time. *)
Definition schedule_step (W : list Z) : list Z :=
  let t := length W in
  W ++ [ROTL (Z.lxor (Z.lxor (Z.lxor (W !!! (t - 3)%nat) (W !!! (t - 8)%nat)) (W !!! (t - 14)%nat))
                     (W !!! (t - 16)%nat)) 1].
Definition schedule (M : list Z) : list Z := Nat.iter 64 schedule_step M.

Definition sha1_round (W : list Z) (v : Z * Z * Z * Z * Z) (t : nat) : Z * Z * Z * Z * Z :=
  let '(a, b, c, d, e) := v in
  let T := u32 (ROTL a 5 + sha1_f (Z.of_nat t) b c d + e + sha1_get_k (Z.of_nat t) + W !!! t) in
  (T, a, ROTL b 30, c, d).

(** The rounds over one block of sixteen words. *)
Definition sha1_compress (hs M : list Z) : list Z :=
  let W := schedule M in
  let '(a, b, c, d, e) :=
    fold_left (sha1_round W) (seq 0 80) (hs !!! 0%nat, hs !!! 1%nat, hs !!! 2%nat, hs !!! 3%nat, hs !!! 4%nat) in
  [u32 (a + hs !!! 0%nat); u32 (b + hs !!! 1%nat); u32 (c + hs !!! 2%nat); u32 (d + hs !!! 3%nat);
   u32 (e + hs !!! 4%nat)].

(** The words of a block after [block[i] = reverse_32(block[i])]. *)
Definition reversed_words (blk : list Z) : list Z :=
  (fun i => reverse_32 (word blk (4 * Z.of_nat i))) <$> seq 0 16.

(** [add_block]: the new hash value and the bytes of the block it reversed. *)
Definition add_block (hs blk : list Z) : outcome (list Z * list Z) :=
  if zlen blk <? BLOCK_BYTES then Fault else
  let M := reversed_words blk in
  Ok (sha1_compress hs M, concat (le32_bytes <$> M) ++ zdrop BLOCK_BYTES blk).

Definition SHA1_Final (ctx : SHA1_CTX) : outcome (SHA1_CTX * list Z) :=
  blk ← pad_sha1_message (block ctx) (u64 (len ctx * 8)) (u64 (active_len ctx * 8));
  '(hs, _) ← add_block (h ctx) (ztake BLOCK_BYTES blk);
  hs ← (if 448 <=? u64 (u64 (active_len ctx * 8) + 1) mod 512
        then '(hs, _) ← add_block hs (zdrop BLOCK_BYTES blk); Ok hs else Ok hs);
  let hs := reverse_32 <$> hs in
  Ok (mkSha1 hs (block ctx) (active_len ctx) (len ctx), concat (le32_bytes <$> hs)).

Fixpoint update_loop (fuel : nat) (ctx : SHA1_CTX) (data : list Z) (n : Z) : outcome SHA1_CTX :=
  match fuel with
  | O => NoFuel
  | S fuel =>
    if negb (0 <? n) then Ok ctx else
    let write_len := if BLOCK_BYTES <? u64 (active_len ctx + n) then u32 (BLOCK_BYTES - active_len ctx) else u32 n in
    blk ← memcpy_at (block ctx) (active_len ctx) data 0 write_len;
    let len := u64 (len ctx + write_len) in
    let active := u64 (active_len ctx + write_len) in
    if negb (BLOCK_BYTES =? active) then Ok (mkSha1 (h ctx) blk active len) else
    '(hs, _) ← add_block (h ctx) blk;
    update_loop fuel (mkSha1 hs (replicate 64 0) 0 len) (zdrop write_len data) (u64 (n - write_len))
  end.

Definition SHA1_Update (ctx : SHA1_CTX) (data : list Z) (n : Z) : outcome SHA1_CTX :=
  update_loop (S (Z.to_nat n)) ctx data n.

(** Init, one update, final. *)
Definition sha1_of (data : list Z) (n : Z) : outcome (list Z) :=
  ctx ← SHA1_Update SHA1_Init data n;
  '(_, d) ← SHA1_Final ctx;
  Ok d.

(** [pad[i] ^= key[i]] on a pad of 64 equal bytes. *)
Definition key_pad (v : Z) (key : list Z) : list Z :=
  (Z.lxor v <$> key) ++ replicate (64 - length key) v.

Definition SHA1_HMAC (message : list Z) (message_len : Z) (key : list Z) (key_len : Z) : outcome (list Z) :=
  key ← (if 64 <? key_len then sha1_of key key_len else bytes_at key 0 key_len);
  first ← SHA1_Update SHA1_Init (key_pad 0x36 key) 64;
  first ← SHA1_Update first message message_len;
  '(_, output) ← SHA1_Final first;
  second ← SHA1_Update SHA1_Init (key_pad 0x5C key) 64;
  second ← SHA1_Update second output SHA1_LEN;
  '(_, output) ← SHA1_Final second;
  Ok output.

Example sha1_code_abc : sha1_of [97; 98; 99] 3 =
  Ok [0xa9; 0x99; 0x3e; 0x36; 0x47; 0x06; 0x81; 0x6a; 0xba; 0x3e; 0x25; 0x71; 0x78; 0x50; 0xc2; 0x6c;
      0x9c; 0xd0; 0xd8; 0x9d].
Proof. vm_compute. reflexivity. Qed.

Example hmac_rfc2202 : SHA1_HMAC [0x48; 0x69; 0x20; 0x54; 0x68; 0x65; 0x72; 0x65] 8 (replicate 20 0x0b) 20 =
  Ok [0xb6; 0x17; 0x31; 0x86; 0x55; 0x05; 0x72; 0x64; 0xe2; 0x8b; 0xc0; 0xb6; 0xfb; 0x37; 0x8c; 0x8e;
      0xf1; 0x46; 0xbe; 0x00].
Proof. vm_compute. reflexivity. Qed.

(** ** The digest in terms of the code's compression *)

Definition be32 (a b c d : Z) : Z := 2 ^ 24 * a + 2 ^ 16 * b + 2 ^ 8 * c + d.
Definition be32_bytes (x : Z) : list Z := [x / 2 ^ 24 mod 2 ^ 8; x / 2 ^ 16 mod 2 ^ 8; x / 2 ^ 8 mod 2 ^ 8; x mod 2 ^ 8].
Definition be_word (l : list Z) (o : Z) : Z :=
  be32 (byte_of l o) (byte_of l (o + 1)) (byte_of l (o + 2)) (byte_of l (o + 3)).

(** The message, a one bit, zeros up to 56 bytes modulo 64, and the length in
    bits as a big endian 64 bit number. *)
Definition zeros_behind (n : Z) : Z := (55 - n) mod 64.
Definition pad (m : list Z) : list Z :=
  let n := zlen m in
  m ++ [128] ++ replicate (Z.to_nat (zeros_behind n)) 0 ++ be32_bytes (8 * n / 2 ^ 32) ++ be32_bytes (8 * n).

(** The hash of a sequence of blocks of 64 bytes. *)
Fixpoint hash_blocks (n : nat) (hs m : list Z) : list Z :=
  match n with
  | O => hs
  | S n => hash_blocks n (sha1_compress hs ((fun i => be_word m (4 * Z.of_nat i)) <$> seq 0 16)) (zdrop 64 m)
  end.

Definition sha1 (m : list Z) : list Z :=
  let p := pad m in concat (be32_bytes <$> hash_blocks (Z.to_nat (zlen p / 64)) SHA1_CONSTANT_H p).

(** ** Byte order *)

Lemma reverse_32_le32 a b c d :
  fits 8 a -> fits 8 b -> fits 8 c -> fits 8 d -> reverse_32 (le32 a b c d) = be32 a b c d.
Proof.
  intros Ha Hb Hc Hd. unfold reverse_32. set (v := le32 a b c d).
  assert (Hf : forall n, 0 <= n -> Z.land v (Z.ones 8 * 2 ^ n) = (v / 2 ^ n mod 2 ^ 8) * 2 ^ n)
    by (intros n Hn; by apply land_field).
  change 0xFF with (Z.ones 8 * 2 ^ 0). change 0xFF00 with (Z.ones 8 * 2 ^ 8).
  change 0xFF0000 with (Z.ones 8 * 2 ^ 16). change 0xFF000000 with (Z.ones 8 * 2 ^ 24).
  rewrite !Hf by lia.
  assert (E0 : v / 2 ^ 0 mod 2 ^ 8 = a). { unfold v, le32, fits in *. Z.to_euclidean_division_equations. lia. }
  assert (E1 : v / 2 ^ 8 mod 2 ^ 8 = b). { unfold v, le32, fits in *. Z.to_euclidean_division_equations. lia. }
  assert (E2 : v / 2 ^ 16 mod 2 ^ 8 = c). { unfold v, le32, fits in *. Z.to_euclidean_division_equations. lia. }
  assert (E3 : v / 2 ^ 24 mod 2 ^ 8 = d). { unfold v, le32, fits in *. Z.to_euclidean_division_equations. lia. }
  rewrite E0, E1, E2, E3. rewrite !Z.shiftl_mul_pow2, !Z.shiftr_div_pow2 by lia.
  unfold fits in *. rewrite (u32_small (a * 2 ^ 0 * 2 ^ 24)), (u32_small (b * 2 ^ 8 * 2 ^ 8)) by lia.
  replace (c * 2 ^ 16 / 2 ^ 8) with (c * 2 ^ 8) by (Z.to_euclidean_division_equations; lia).
  replace (d * 2 ^ 24 / 2 ^ 24) with d by (Z.to_euclidean_division_equations; lia).
  replace (a * 2 ^ 0 * 2 ^ 24) with (a * 2 ^ 24) by lia. replace (b * 2 ^ 8 * 2 ^ 8) with (b * 2 ^ 16) by lia.
  rewrite (Z.lor_comm _ d), (Z.lor_comm _ (c * 2 ^ 8)), (Z.lor_comm (a * 2 ^ 24)).
  rewrite Z.lor_assoc. rewrite (lor_disjoint_add 8 d c) by (unfold fits; lia).
  rewrite Z.lor_assoc. rewrite (lor_disjoint_add 16) by (unfold fits; lia).
  rewrite (lor_disjoint_add 24) by (unfold fits; lia). unfold be32. lia.
Qed.

Lemma reversed_bytes x : fits 32 x -> le32_bytes (reverse_32 x) = be32_bytes x.
Proof.
  intros Hx. pose proof (Z.mod_pos_bound x (2 ^ 8)). pose proof (Z.mod_pos_bound (x / 2 ^ 8) (2 ^ 8)).
  pose proof (Z.mod_pos_bound (x / 2 ^ 16) (2 ^ 8)). pose proof (Z.mod_pos_bound (x / 2 ^ 24) (2 ^ 8)).
  rewrite <- (le32_split x Hx) at 1. rewrite reverse_32_le32 by (unfold fits; lia).
  unfold le32_bytes, be32_bytes, be32.
  set (a := x mod 2 ^ 8) in *. set (b := x / 2 ^ 8 mod 2 ^ 8) in *. set (c := x / 2 ^ 16 mod 2 ^ 8) in *.
  set (d := x / 2 ^ 24 mod 2 ^ 8) in *. clearbody a b c d.
  repeat f_equal; Z.to_euclidean_division_equations; lia.
Qed.

Lemma reversed_words_be blk :
  Forall (fits 8) blk -> reversed_words blk = (fun i => be_word blk (4 * Z.of_nat i)) <$> seq 0 16.
Proof.
  intros Hb. unfold reversed_words. apply list_fmap_ext. intros i k _.
  unfold word, be_word. apply reverse_32_le32; by apply byte_of_fits.
Qed.

(** ** Blocks of a stream *)

Definition block_words (m : list Z) : list Z := (fun i => be_word m (4 * Z.of_nat i)) <$> seq 0 16.

Lemma block_words_app a b : 64 <= zlen a -> block_words (a ++ b) = block_words a.
Proof.
  intros Ha. apply list_fmap_ext. intros i k Hk. apply lookup_seq in Hk as [-> Hk].
  unfold be_word. f_equal; apply byte_of_ext, znth_app_l; lia.
Qed.

Lemma hash_blocks_app n k hs a b :
  zlen a = 64 * Z.of_nat n -> hash_blocks (n + k) hs (a ++ b) = hash_blocks k (hash_blocks n hs a) b.
Proof.
  revert hs a. induction n as [|n IH]; intros hs a Ha.
  - destruct a; [done|]. unfold zlen in Ha. cbn [length] in Ha. lia.
  - cbn [Nat.add hash_blocks]. fold (block_words (a ++ b)) (block_words a).
    rewrite block_words_app by lia.
    assert (Hd : zdrop 64 (a ++ b) = zdrop 64 a ++ b).
    { unfold zdrop. rewrite drop_app_le; [done|]. unfold zlen in Ha. lia. }
    rewrite Hd. apply IH. rewrite zlen_zdrop; lia.
Qed.

Lemma hash_blocks_prefix n hs a b :
  64 * Z.of_nat n <= zlen a -> hash_blocks n hs (a ++ b) = hash_blocks n hs a.
Proof.
  revert hs a. induction n as [|n IH]; intros hs a Ha; [done|].
  cbn [hash_blocks]. fold (block_words (a ++ b)) (block_words a). rewrite block_words_app by lia.
  assert (Hd : zdrop 64 (a ++ b) = zdrop 64 a ++ b).
  { unfold zdrop. rewrite drop_app_le; [done|]. unfold zlen in Ha. lia. }
  rewrite Hd. apply IH. rewrite zlen_zdrop; lia.
Qed.

(** The context after a message [m]: [rest] is what has not filled a block yet. *)
Record after (m : list Z) (ctx : SHA1_CTX) : Prop := {
  af_h : h ctx = hash_blocks (Z.to_nat (zlen m / 64)) SHA1_CONSTANT_H m;
  af_block : block ctx = zdrop (64 * (zlen m / 64)) m ++ replicate (Z.to_nat (64 - zlen m mod 64)) 0;
  af_active : active_len ctx = zlen m mod 64;
  af_len : len ctx = zlen m
}.

Lemma after_init : after [] SHA1_Init.
Proof. by split. Qed.

Lemma add_block_be hs blk :
  Forall (fits 8) blk -> zlen blk = 64 -> exists b, add_block hs blk = Ok (sha1_compress hs (block_words blk), b).
Proof.
  intros Hf Hz. unfold add_block, BLOCK_BYTES. destruct (Z.ltb_spec (zlen blk) 64); [lia|].
  rewrite reversed_words_be by done. eexists. reflexivity.
Qed.

Lemma zlen_replicate {A} n (x : A) : 0 <= n -> zlen (replicate (Z.to_nat n) x) = n.
Proof. intros. unfold zlen. rewrite length_replicate. lia. Qed.

(** The bytes of [d] behind those of the block. *)
Lemma fill_block m d n :
  0 <= n <= zlen d -> zlen m mod 64 + n <= 64 ->
  memcpy_at (zdrop (64 * (zlen m / 64)) m ++ replicate (Z.to_nat (64 - zlen m mod 64)) 0) (zlen m mod 64) d 0 n =
  Ok ((zdrop (64 * (zlen m / 64)) m ++ ztake n d) ++ replicate (Z.to_nat (64 - (zlen m mod 64 + n))) 0).
Proof.
  intros Hn Hm. pose proof (Z.mod_pos_bound (zlen m) 64 ltac:(lia)). pose proof (Z.div_mod (zlen m) 64 ltac:(lia)).
  pose proof (zlen_nonneg m).
  assert (Hr : zlen (zdrop (64 * (zlen m / 64)) m) = zlen m mod 64) by (rewrite zlen_zdrop; lia).
  replace (replicate (Z.to_nat (64 - zlen m mod 64)) 0) with
    (replicate (Z.to_nat n) 0 ++ replicate (Z.to_nat (64 - (zlen m mod 64 + n))) 0).
  2: { rewrite <- replicate_add. f_equal. lia. }
  rewrite memcpy_at_app; [by rewrite <- app_assoc|lia|by rewrite zlen_replicate by lia|lia].
Qed.

Lemma update_loop_spec fuel m ctx data n :
  after m ctx -> Forall (fits 8) m -> Forall (fits 8) data -> 0 <= n <= zlen data ->
  zlen m + n < 2 ^ 61 -> n < Z.of_nat fuel ->
  exists ctx', update_loop fuel ctx data n = Ok ctx' /\ after (m ++ ztake n data) ctx'.
Proof.
  revert m ctx data n. induction fuel as [|fuel IH]; intros m ctx data n [A1 A2 A3 A4] Hm Hd Hn Hl Hf; [lia|].
  cbn [update_loop]. destruct (Z.ltb_spec 0 n) as [Hn0|Hn0]; cbn [negb].
  2: { exists ctx. assert (n = 0) as -> by lia. change (ztake 0 data) with (@nil Z). rewrite app_nil_r. done. }
  pose proof (Z.mod_pos_bound (zlen m) 64 ltac:(lia)) as Hmod. pose proof (Z.div_mod (zlen m) 64 ltac:(lia)) as Hdiv.
  pose proof (zlen_nonneg m) as Hm0.
  rewrite A3. set (r := zlen m mod 64) in *. set (q := zlen m / 64) in *.
  assert (Hq : 0 <= q) by (apply Z.div_pos; lia).
  set (wl := if BLOCK_BYTES <? u64 (r + n) then u32 (BLOCK_BYTES - r) else u32 n).
  assert (Hwl : wl = Z.min (64 - r) n).
  { unfold wl, BLOCK_BYTES. rewrite u64_small by lia. destruct (Z.ltb_spec 64 (r + n)); rewrite u32_small; lia. }
  rewrite A2. subst r q. rewrite (fill_block m data wl) by lia. cbn [mbind outcome_bind].
  set (r := zlen m mod 64) in *. set (q := zlen m / 64) in *.
  rewrite (u64_small (r + wl)) by lia. rewrite A4, (u64_small (zlen m + wl)) by lia. unfold BLOCK_BYTES.
  assert (Hzt : zlen (m ++ ztake wl data) = zlen m + wl) by (rewrite zlen_app, zlen_ztake; lia).
  destruct (Z.eqb_spec 64 (r + wl)) as [Efull|Efull]; cbn [negb].
  - (* the block is full *)
    replace (Z.to_nat (64 - (r + wl))) with 0%nat by lia. cbn [replicate]. rewrite app_nil_r.
    set (blk := zdrop (64 * q) m ++ ztake wl data).
    assert (Hbf : Forall (fits 8) blk) by (apply Forall_app; split; [by apply Forall_drop|by apply Forall_take]).
    assert (Hbz : zlen blk = 64) by (unfold blk; rewrite zlen_app, zlen_zdrop, zlen_ztake; lia).
    destruct (add_block_be (h ctx) blk Hbf Hbz) as [b ->]. cbn [mbind outcome_bind].
    rewrite (u64_small (n - wl)) by lia.
    assert (Hq1 : (zlen m + wl) / 64 = q + 1).
    { replace (zlen m + wl) with ((q + 1) * 64) by lia. by apply Z.div_mul. }
    assert (Hr1 : (zlen m + wl) mod 64 = 0).
    { replace (zlen m + wl) with ((q + 1) * 64) by lia. by apply Z.mod_mul. }
    assert (Hm1 : m ++ ztake wl data = ztake (64 * q) m ++ blk).
    { unfold blk. by rewrite app_assoc, ztake_zdrop. }
    destruct (IH (m ++ ztake wl data) (mkSha1 (sha1_compress (h ctx) (block_words blk)) (replicate 64 0) 0 (zlen m + wl))
      (zdrop wl data) (n - wl)) as (ctx' & E & A).
    + split; cbn [h block active_len len]; rewrite ?Hzt, ?Hq1, ?Hr1; try done.
      * rewrite Hm1. replace (Z.to_nat (q + 1)) with (Z.to_nat q + 1)%nat by lia.
        rewrite hash_blocks_app by (rewrite zlen_ztake; lia). cbn [hash_blocks]. fold (block_words blk). f_equal.
        rewrite A1. rewrite <- (ztake_zdrop (64 * q) m) at 1. apply hash_blocks_prefix. rewrite zlen_ztake; lia.
      * unfold zdrop. rewrite drop_ge by (unfold zlen in *; lia). done.
    + apply Forall_app. split; [done|by apply Forall_take].
    + by apply Forall_drop.
    + rewrite zlen_zdrop; lia.
    + lia.
    + lia.
    + exists ctx'. split; [done|]. rewrite <- app_assoc in A. replace (ztake n data) with (ztake wl data ++ ztake (n - wl) (zdrop wl data)); [done|].
      unfold ztake, zdrop. rewrite take_take_drop. f_equal. lia.
  - (* it is not, and all data is in *)
    assert (wl = n) as -> by lia. eexists. split; [reflexivity|].
    assert (Hq1 : (zlen m + n) / 64 = q).
    { symmetry. apply (Z.div_unique _ _ q (r + n)); lia. }
    assert (Hr1 : (zlen m + n) mod 64 = r + n).
    { symmetry. apply (Z.mod_unique _ _ q (r + n)); lia. }
    split; cbn [h block active_len len]; rewrite ?Hzt, ?Hq1, ?Hr1; try done.
    + rewrite A1. symmetry. apply hash_blocks_prefix. lia.
    + f_equal. unfold zdrop. rewrite drop_app_le; [done|]. unfold zlen in *. lia.
Qed.

(** ** The last blocks *)

Lemma replicate_split n k (x : Z) :
  0 <= k <= n -> replicate (Z.to_nat n) x = replicate (Z.to_nat k) x ++ replicate (Z.to_nat (n - k)) x.
Proof. intros. rewrite <- replicate_add. f_equal. lia. Qed.

(** Where the length goes. *)
Definition length_at (r : Z) : Z := if r <? 56 then 56 else 120.

Lemma pad_bits_spec r : 0 <= r < 64 -> pad_bits (8 * r) / 8 = length_at r - r - 1.
Proof.
  intros Hr. unfold pad_bits, length_at. rewrite u64_small, Z.mod_small by lia.
  destruct (Z.ltb_spec (8 * r + 1) 448), (Z.ltb_spec r 56); try lia;
    Z.to_euclidean_division_equations; lia.
Qed.

Lemma pad_message_spec rest tl l r :
  zlen rest = r -> 0 <= r < 64 -> 0 <= l < 2 ^ 64 ->
  pad_sha1_message (rest ++ tl) l (8 * r) =
  Ok ((rest ++ [128] ++ replicate (Z.to_nat (length_at r - r - 1)) 0 ++ be32_bytes (l / 2 ^ 32) ++ be32_bytes l) ++
      replicate (Z.to_nat (128 - length_at r - 8)) 0).
Proof.
  intros Hz Hr Hl. unfold pad_sha1_message. rewrite pad_bits_spec by done.
  assert (Hn : ARRAY_NUM (8 * r) = r).
  { unfold ARRAY_NUM. rewrite Z.mul_comm, Z.mod_mul, Z.div_mul by lia. cbn. lia. }
  rewrite Hn, (Z.mul_comm 8 r), Z.div_mul by lia. set (f := length_at r).
  assert (Hf : r < f <= 120) by (unfold f, length_at; destruct (Z.ltb_spec r 56); lia).
  pose proof (zlen_nonneg tl).
  change (replicate 128 0) with (replicate (Z.to_nat 128) 0).
  (* the message *)
  rewrite (replicate_split 128 r) by lia.
  pose proof (memcpy_at_app [] (replicate (Z.to_nat r) 0) (replicate (Z.to_nat (128 - r)) 0) (rest ++ tl) 0 r) as E1.
  cbn [app] in E1. rewrite E1 by (rewrite ?zlen_replicate, ?zlen_app; (done || lia)).
  cbn [mbind outcome_bind]. rewrite ztake_app_exact by done.
  (* the one bit *)
  rewrite (replicate_split (128 - r) 1) by lia. change (Z.to_nat 1) with 1%nat. cbn [replicate].
  rewrite awrite_ok by (rewrite !zlen_app, zlen_replicate by lia; change (zlen [0]) with 1; lia).
  cbn [mbind outcome_bind]. rewrite insert_app_r_alt by (unfold zlen in Hz; lia).
  replace (Z.to_nat r - length rest)%nat with 0%nat by (unfold zlen in Hz; lia). cbn [app list_insert insert].
  (* the zeros behind it *)
  unfold clear_at.
  assert (Hclear : forall n, rest ++ 128 :: replicate (Z.to_nat n) 0 = (rest ++ [128]) ++ replicate (Z.to_nat n) 0)
    by (intros n; by rewrite <- app_assoc).
  rewrite Hclear, (replicate_split (128 - r - 1) 1) by lia. change (Z.to_nat 1) with 1%nat. cbn [replicate].
  rewrite (replicate_split (128 - r - 1 - 1) (f - r - 1)) by lia. rewrite (app_assoc _ [0]).
  rewrite (memcpy_at_app _ _ _ (replicate (Z.to_nat (f - r - 1)) 0) (r + 2))
    by (rewrite ?zlen_app, ?zlen_replicate by lia; change (zlen [128]) with 1; change (zlen [0]) with 1; lia).
  cbn [mbind outcome_bind]. rewrite ztake_all by (by rewrite zlen_replicate by lia).
  replace (((rest ++ [128]) ++ [0]) ++ replicate (Z.to_nat (f - r - 1)) 0 ++ replicate (Z.to_nat (128 - r - 1 - 1 - (f - r - 1))) 0)
    with (((rest ++ [128]) ++ replicate (Z.to_nat (f - r - 1)) 0) ++ replicate (Z.to_nat 4) 0 ++ replicate (Z.to_nat 4) 0 ++ replicate (Z.to_nat (128 - f - 8)) 0).
  2: { rewrite <- !app_assoc. do 2 f_equal. change [0] with (replicate (Z.to_nat 1) 0). rewrite <- !replicate_add. f_equal. lia. }
  (* the length *)
  replace (r + (f - r - 1) + 1) with f by lia.
  assert (Hpos : zlen ((rest ++ [128]) ++ replicate (Z.to_nat (f - r - 1)) 0) = f).
  { rewrite !zlen_app, zlen_replicate by lia. change (zlen [128]) with 1. lia. }
  rewrite Z.shiftr_div_pow2 by lia. rewrite (u32_small (l / 2 ^ 32)) by (split; [apply Z.div_pos; lia|apply Z.div_lt_upper_bound; lia]).
  change 0xFFFFFFFF with (Z.ones 32). rewrite Z.land_ones by lia.
  rewrite (u32_small (l mod 2 ^ 32)) by (apply Z.mod_pos_bound; lia).
  rewrite !reversed_bytes
    by (first [apply Z.mod_pos_bound; lia|split; [apply Z.div_pos; lia|apply Z.div_lt_upper_bound; lia]]).
  set (w1 := be32_bytes (l / 2 ^ 32)).
  rewrite (memcpy_at_app _ (replicate (Z.to_nat 4) 0) _ w1 f 4) by done. cbn [mbind outcome_bind].
  change (ztake 4 w1) with w1. rewrite (app_assoc _ w1).
  rewrite (memcpy_at_app _ (replicate (Z.to_nat 4) 0) _ (be32_bytes (l mod 2 ^ 32)) (f + 4) 4)
    by (first [done|rewrite zlen_app; change (zlen w1) with 4; lia]).
  change (ztake 4 (be32_bytes (l mod 2 ^ 32))) with (be32_bytes (l mod 2 ^ 32)).
  assert (Hlow : be32_bytes (l mod 2 ^ 32) = be32_bytes l).
  { assert (Hb : forall k, 0 <= k <= 24 -> l mod 2 ^ 32 / 2 ^ k mod 2 ^ 8 = l / 2 ^ k mod 2 ^ 8).
    { intros k Hk. rewrite <- !Z.shiftr_div_pow2, <- !Z.land_ones by lia. apply Z.bits_inj'. intros m Hm.
      rewrite !Z.land_spec, !Z.shiftr_spec, Z.land_spec by lia. destruct (Z.lt_ge_cases m 8).
      - rewrite (Z.ones_spec_low 32) by lia. by rewrite andb_true_r.
      - rewrite (Z.ones_spec_high 8) by lia. by rewrite !andb_false_r. }
    pose proof (Hb 0 ltac:(lia)) as H0. change (2 ^ 0) with 1 in H0. rewrite !Z.div_1_r in H0.
    unfold be32_bytes. by rewrite H0, (Hb 8), (Hb 16), (Hb 24) by lia. }
  rewrite Hlow, <- !app_assoc. cbn [app]. by rewrite <- !app_assoc.
Qed.

Lemma be32_bytes_fits x : Forall (fits 8) (be32_bytes x).
Proof. repeat (apply Forall_cons; split; [apply Z.mod_pos_bound; lia|]). constructor. Qed.

Lemma pad_fits m : Forall (fits 8) m -> Forall (fits 8) (pad m).
Proof.
  intros Hm. unfold pad. rewrite !Forall_app. split_and!; try apply be32_bytes_fits; [done| |].
  - by repeat constructor.
  - by apply Forall_replicate.
Qed.

Lemma zeros_length_at n :
  0 <= n -> zeros_behind n = length_at (n mod 64) - n mod 64 - 1.
Proof.
  intros Hn. unfold zeros_behind, length_at. pose proof (Z.mod_pos_bound n 64 ltac:(lia)).
  pose proof (Z.div_mod n 64 ltac:(lia)).
  destruct (Z.ltb_spec (n mod 64) 56); symmetry.
  - apply (Z.mod_unique _ _ (- (n / 64))); lia.
  - apply (Z.mod_unique _ _ (- (n / 64) - 1)); lia.
Qed.

Lemma compress_words hs M : Forall (fits 32) (sha1_compress hs M).
Proof.
  unfold sha1_compress. destruct (fold_left _ _ _) as [[[[a b] c] d] e].
  repeat (apply Forall_cons; split; [apply u32_fit|]). constructor.
Qed.

Lemma hash_blocks_words n hs m : Forall (fits 32) hs -> Forall (fits 32) (hash_blocks n hs m).
Proof.
  revert hs m. induction n as [|n IH]; intros hs m Hh; cbn [hash_blocks]; [done|]. apply IH, compress_words.
Qed.

Lemma digest_bytes hs : Forall (fits 32) hs ->
  concat (le32_bytes <$> (reverse_32 <$> hs)) = concat (be32_bytes <$> hs).
Proof.
  induction hs as [|x hs IH]; intros Hh; [done|]. apply Forall_cons in Hh as [Hx Hh].
  cbn [fmap list_fmap concat]. by rewrite reversed_bytes, IH.
Qed.

(** ** The code and the standard *)

Lemma complement_lnot x : fits 32 x -> u32 (Z.lnot x) = Word32.complement x.
Proof.
  intros [H0 H1]. unfold Word32.complement, u32, wrap. unfold Z.lnot.
  symmetry. apply (Z.mod_unique _ _ (-1)); lia.
Qed.

Lemma third (t k : nat) : (20 * k <= t < 20 * k + 20)%nat -> (t / 20 = k)%nat.
Proof. intros Ht. symmetry. apply (Nat.div_unique t 20 k (t - 20 * k)); lia. Qed.

Lemma f_standard t x y z : (t < 80)%nat -> fits 32 x -> sha1_f (Z.of_nat t) x y z = Sha1Standard.f t x y z.
Proof.
  intros Ht Hx. unfold sha1_f, Sha1Standard.f.
  destruct (Z.leb_spec (Z.of_nat t) 19), (Z.leb_spec (Z.of_nat t) 39), (Z.leb_spec 60 (Z.of_nat t)), (Z.leb_spec (Z.of_nat t) 59);
    try lia; cbn [orb].
  - rewrite (third t 0) by lia. rewrite complement_lnot by done. done.
  - by rewrite (third t 1) by lia.
  - by rewrite (third t 3) by lia.
  - by rewrite (third t 2) by lia.
Qed.

Lemma k_standard t : (t < 80)%nat -> sha1_get_k (Z.of_nat t) = Sha1Standard.K t.
Proof.
  intros Ht. assert (H : forallb (fun t => sha1_get_k (Z.of_nat t) =? Sha1Standard.K t) (seq 0 80) = true) by (vm_compute; reflexivity).
  rewrite forallb_forall in H. apply Z.eqb_eq, H, in_seq. lia.
Qed.

Lemma schedule_words n M : words 32 16 M ->
  words 32 (16 + n) (Nat.iter n schedule_step M) /\
  Nat.iter n schedule_step M =
    fold_left (fun w t => w ++ [if (t <? 16)%nat then M !!! t
      else Word32.rotate 1 (Z.lxor (Z.lxor (Z.lxor (w !!! (t - 3)%nat) (w !!! (t - 8)%nat)) (w !!! (t - 14)%nat)) (w !!! (t - 16)%nat))])
    (seq 16 n) M.
Proof.
  intros HM. induction n as [|n [Hw IH]]; [done|]. rewrite seq_S, fold_left_app, <- IH. cbn [fold_left Nat.iter nat_rect].
  set (w := Nat.iter n schedule_step M) in *. change (nat_rect (fun _ => list Z) M (fun _ => schedule_step) n) with w.
  destruct (Nat.ltb_spec (16 + n) 16); [lia|]. unfold schedule_step. destruct Hw as [Hl Hf]. rewrite Hl.
  assert (Hx : fits 32 (Z.lxor (Z.lxor (Z.lxor (w !!! (16 + n - 3)%nat) (w !!! (16 + n - 8)%nat)) (w !!! (16 + n - 14)%nat)) (w !!! (16 + n - 16)%nat))).
  { repeat apply lxor_fits; try lia; apply (words_lookup 32 (16 + n)); try lia; done. }
  split; [split|].
  - rewrite length_app, Hl. cbn. lia.
  - apply Forall_app. split; [done|]. constructor; [by apply ROTL_fits|constructor].
  - by rewrite rotl_rotate.
Qed.

Lemma schedule_standard M : words 32 16 M -> schedule M = Sha1Standard.W M /\ words 32 80 (schedule M).
Proof.
  intros HM. destruct (schedule_words 64 M HM) as [Hw E]. split; [|exact Hw]. unfold schedule, Sha1Standard.W. rewrite E.
  change (seq 0 80) with (seq 0 16 ++ seq 16 64). rewrite fold_left_app. f_equal. destruct HM as [Hl _]. clear E Hw.
  repeat (destruct M as [|? M]; [try discriminate Hl|]; try discriminate Hl). reflexivity.
Qed.

Definition five_ok (v : Z * Z * Z * Z * Z) : Prop :=
  let '(a, b, c, d, e) := v in fits 32 a /\ fits 32 b /\ fits 32 c /\ fits 32 d /\ fits 32 e.

Lemma round_standard W v t : (t < 80)%nat -> five_ok v -> sha1_round W v t = Sha1Standard.round W v t /\ five_ok (sha1_round W v t).
Proof.
  destruct v as [[[[a b] c] d] e]. intros Ht (Ha & Hb & Hc & Hd & He). unfold sha1_round, Sha1Standard.round. split.
  - rewrite f_standard, k_standard, !rotl_rotate by (done || lia). done.
  - cbn [five_ok]. split_and!; [apply u32_fit|done|by apply ROTL_fits|done|done].
Qed.

Lemma rounds_standard W l v : Forall (fun t => t < 80)%nat l -> five_ok v ->
  fold_left (sha1_round W) l v = fold_left (Sha1Standard.round W) l v.
Proof.
  intros Hl. revert v. induction Hl as [|t l Ht _ IH]; intros v Hv; [done|]. cbn [fold_left].
  destruct (round_standard W v t Ht Hv) as [E Hv']. by rewrite IH, E.
Qed.

Lemma compress_standard hs M : words 32 5 hs -> words 32 16 M -> sha1_compress hs M = Sha1Standard.compress hs M.
Proof.
  intros Hh HM. unfold sha1_compress, Sha1Standard.compress. destruct (schedule_standard M HM) as [-> _].
  rewrite rounds_standard; [|apply Forall_forall; intros t Ht%elem_of_seq; lia|split_and!; by apply (words_lookup 32 5 hs); [|lia]].
  destruct (fold_left (Sha1Standard.round _) _ _) as [[[[a b] c] d] e]. destruct Hh as [Hl _].
  repeat (destruct hs as [|? hs]; [try discriminate Hl|]; try discriminate Hl).
  cbn [zip_with]. unfold Word32.add. by rewrite !(Z.add_comm _ a), !(Z.add_comm _ b), !(Z.add_comm _ c), !(Z.add_comm _ d), !(Z.add_comm _ e).
Qed.

Lemma group_bytes m i : 4 * Z.of_nat i + 4 <= zlen m ->
  Word32.group m i = [byte_of m (4 * Z.of_nat i); byte_of m (4 * Z.of_nat i + 1); byte_of m (4 * Z.of_nat i + 2); byte_of m (4 * Z.of_nat i + 3)].
Proof.
  intros Hi. unfold Word32.group. assert (H : forall k, (k < 4)%nat -> exists x, m !! (4 * i + k)%nat = Some x /\ byte_of m (4 * Z.of_nat i + Z.of_nat k) = x).
  { intros k Hk. destruct (lookup_lt_is_Some_2 m (4 * i + k)) as [x Hx]; [unfold zlen in Hi; lia|]. exists x. split; [done|].
    unfold byte_of, znth. destruct (Z.leb_spec 0 (4 * Z.of_nat i + Z.of_nat k)); [|lia].
    replace (Z.to_nat (4 * Z.of_nat i + Z.of_nat k)) with (4 * i + k)%nat by lia. by rewrite Hx. }
  destruct (H 0%nat ltac:(lia)) as (a & Ea & <-), (H 1%nat ltac:(lia)) as (b & Eb & <-),
    (H 2%nat ltac:(lia)) as (c & Ec & <-), (H 3%nat ltac:(lia)) as (d & Ed & <-).
  rewrite Nat.add_0_r in Ea. rewrite (drop_S _ _ _ Ea). replace (S (4 * i)) with (4 * i + 1)%nat by lia. rewrite (drop_S _ _ _ Eb).
  replace (S (4 * i + 1)) with (4 * i + 2)%nat by lia. rewrite (drop_S _ _ _ Ec).
  replace (S (4 * i + 2)) with (4 * i + 3)%nat by lia. rewrite (drop_S _ _ _ Ed). cbn [take]. by rewrite Z.add_0_r.
Qed.

Lemma block_standard m : 64 <= zlen m -> block_words m = Sha1Standard.block_of m.
Proof.
  intros Hm. apply list_fmap_ext. intros i k Hk. apply lookup_seq in Hk as [-> Hk]. rewrite group_bytes by lia.
  unfold be_word, be32, Word32.big_endian. cbn [fold_left]. lia.
Qed.

Lemma sha1_words_fit m : Forall (fits 8) m -> words 32 16 (block_words m).
Proof.
  intros Hm. split; [unfold block_words; by rewrite length_fmap, length_seq|]. apply Forall_fmap, Forall_forall. intros i _.
  cbn [compose]. unfold be_word, be32. pose proof (byte_of_fits m (4 * Z.of_nat i) Hm). pose proof (byte_of_fits m (4 * Z.of_nat i + 1) Hm).
  pose proof (byte_of_fits m (4 * Z.of_nat i + 2) Hm). pose proof (byte_of_fits m (4 * Z.of_nat i + 3) Hm). unfold fits in *. lia.
Qed.

Lemma hash_standard n hs m : words 32 5 hs -> Forall (fits 8) m -> 64 * Z.of_nat n <= zlen m ->
  hash_blocks n hs m = Sha1Standard.hash n hs m.
Proof.
  revert hs m. induction n as [|n IH]; intros hs m Hh Hm Hl; [done|]. cbn [hash_blocks Sha1Standard.hash].
  fold (block_words m). rewrite IH.
  - f_equal. rewrite compress_standard; [|done|by apply sha1_words_fit]. by rewrite block_standard by lia.
  - split; [|apply compress_words]. unfold sha1_compress. by destruct (fold_left _ _ _) as [[[[? ?] ?] ?] ?].
  - by apply Forall_drop.
  - rewrite zlen_zdrop; lia.
Qed.

(** The digest of the code's functions is the one of the standard. *)
Lemma sha1_standard m : Forall (fits 8) m -> sha1 m = Sha1Standard.sha1 m.
Proof.
  intros Hm. unfold sha1, Sha1Standard.sha1. change (Sha1Standard.pad m) with (pad m). change Word32.bytes with be32_bytes.
  do 2 f_equal. assert (E : Z.to_nat (zlen (pad m) / 64) = (length (pad m) / 64)%nat).
  { unfold zlen. change 64 with (Z.of_nat 64). by rewrite <- Nat2Z.inj_div, Nat2Z.id. }
  rewrite E. change Sha1Standard.H0 with SHA1_CONSTANT_H. apply hash_standard.
  - split; [done|]. repeat (apply Forall_cons; split; [done|]). constructor.
  - by apply pad_fits.
  - unfold zlen. pose proof (Nat.Div0.mul_div_le (length (pad m)) 64). lia.
Qed.

#[local] Opaque sha1_compress.

(** The tail of the padded message is what [pad_sha1_message] leaves in the one or
    two blocks that are hashed. *)
Lemma final_spec m ctx :
  after m ctx -> Forall (fits 8) m -> zlen m < 2 ^ 60 ->
  exists ctx', SHA1_Final ctx = Ok (ctx', sha1 m).
Proof.
  intros [A1 A2 A3 A4] Hm Hl. pose proof (zlen_nonneg m) as Hm0.
  pose proof (Z.mod_pos_bound (zlen m) 64 ltac:(lia)) as Hr. pose proof (Z.div_mod (zlen m) 64 ltac:(lia)) as Hd.
  assert (Hq : 0 <= zlen m / 64) by (apply Z.div_pos; lia).
  set (r := zlen m mod 64) in *. set (q := zlen m / 64) in *. set (rest := zdrop (64 * q) m) in *.
  assert (Hrest : zlen rest = r) by (unfold rest; rewrite zlen_zdrop; lia).
  unfold SHA1_Final. rewrite A2, A3, A4, !u64_small by (rewrite ?u64_small; lia).
  rewrite (Z.mul_comm r 8), (pad_message_spec rest _ _ r) by (done || lia). cbn [mbind outcome_bind].
  set (tail := rest ++ [128] ++ replicate (Z.to_nat (length_at r - r - 1)) 0 ++ be32_bytes (zlen m * 8 / 2 ^ 32) ++
    be32_bytes (zlen m * 8)).
  assert (Hf : length_at r = 56 /\ r < 56 \/ length_at r = 120 /\ 56 <= r)
    by (unfold length_at; destruct (Z.ltb_spec r 56); auto).
  assert (Htail : zlen tail = length_at r + 8).
  { unfold tail. rewrite !zlen_app, zlen_replicate by lia.
    change (zlen [128]) with 1. change (zlen (be32_bytes _)) with 4. lia. }
  assert (Hpad : pad m = ztake (64 * q) m ++ tail).
  { unfold pad, tail, rest. rewrite zeros_length_at by lia. fold r.
    by rewrite (app_assoc (ztake (64 * q) m)), ztake_zdrop, (Z.mul_comm 8). }
  assert (Hsha : forall hs, hs = hash_blocks (Z.to_nat ((length_at r + 8) / 64)) (h ctx) tail ->
    concat (le32_bytes <$> (reverse_32 <$> hs)) = sha1 m).
  { intros hs ->. rewrite digest_bytes.
    2: { apply hash_blocks_words. rewrite A1. apply hash_blocks_words.
         repeat (apply Forall_cons; split; [done|]). constructor. }
    unfold sha1. f_equal. f_equal. rewrite Hpad, zlen_app, zlen_ztake, Htail by lia.
    replace (64 * q + (length_at r + 8)) with (length_at r + 8 + q * 64) by lia. rewrite Z.div_add by lia.
    assert (0 <= (length_at r + 8) / 64) by (apply Z.div_pos; lia).
    rewrite Z2Nat.inj_add, Nat.add_comm by lia.
    rewrite hash_blocks_app by (rewrite zlen_ztake; lia). f_equal. rewrite A1.
    rewrite <- (ztake_zdrop (64 * q) m) at 1. apply hash_blocks_prefix. rewrite zlen_ztake; lia. }
  assert (Htf : Forall (fits 8) tail).
  { pose proof (pad_fits m Hm) as Hp. rewrite Hpad in Hp. by apply Forall_app in Hp as [_ Hp]. }
  assert (Hcond : (448 <=? (8 * r + 1) mod 512) = (56 <=? r)).
  { rewrite Z.mod_small by lia. destruct (Z.leb_spec 448 (8 * r + 1)), (Z.leb_spec 56 r); lia. }
  rewrite Hcond. set (z := replicate (Z.to_nat (128 - length_at r - 8)) 0).
  destruct Hf as [[Ef Hlt]|[Ef Hge]]; rewrite Ef in Hsha, Htail.
  - assert (Ht : ztake BLOCK_BYTES (tail ++ z) = tail) by (by apply ztake_app_exact). rewrite Ht.
    destruct (add_block_be (h ctx) tail Htf Htail) as [b ->]. cbn [mbind outcome_bind].
    destruct (Z.leb_spec 56 r); [lia|]. cbn [mbind outcome_bind]. eexists. do 2 f_equal. apply Hsha.
    change (Z.to_nat ((56 + 8) / 64)) with 1%nat. cbn [hash_blocks]. fold (block_words tail). reflexivity.
  - assert (Ez : z = []) by (unfold z; by rewrite Ef). rewrite Ez, app_nil_r.
    assert (Ht1 : zlen (ztake BLOCK_BYTES tail) = 64) by (apply zlen_ztake; unfold BLOCK_BYTES; lia).
    assert (Ht2 : zlen (zdrop BLOCK_BYTES tail) = 64) by (rewrite zlen_zdrop; unfold BLOCK_BYTES; lia).
    destruct (add_block_be (h ctx) (ztake BLOCK_BYTES tail)) as [b1 ->]; [by apply Forall_take|done|].
    cbn [mbind outcome_bind]. destruct (Z.leb_spec 56 r); [|lia].
    destruct (add_block_be (sha1_compress (h ctx) (block_words (ztake BLOCK_BYTES tail))) (zdrop BLOCK_BYTES tail))
      as [b2 ->]; [by apply Forall_drop|done|].
    cbn [mbind outcome_bind]. eexists. do 2 f_equal. apply Hsha.
    change (Z.to_nat ((120 + 8) / 64)) with 2%nat. cbn [hash_blocks]. fold (block_words tail).
    rewrite <- (ztake_zdrop BLOCK_BYTES tail) at 3. rewrite block_words_app by lia. done.
Qed.

(** Any sequence of updates. *)
Fixpoint updates (ctx : SHA1_CTX) (ds : list (list Z)) : outcome SHA1_CTX :=
  match ds with
  | [] => Ok ctx
  | d :: ds => ctx ← SHA1_Update ctx d (zlen d); updates ctx ds
  end.

Lemma updates_spec ds m ctx :
  after m ctx -> Forall (fits 8) m -> Forall (Forall (fits 8)) ds -> zlen m + zlen (concat ds) < 2 ^ 60 ->
  exists ctx', updates ctx ds = Ok ctx' /\ after (m ++ concat ds) ctx'.
Proof.
  revert m ctx. induction ds as [|d ds IH]; intros m ctx A Hm Hds Hl; cbn [updates concat].
  { exists ctx. by rewrite app_nil_r. }
  apply Forall_cons in Hds as [Hd Hds]. cbn [concat] in Hl. rewrite zlen_app in Hl.
  pose proof (zlen_nonneg (concat ds)). pose proof (zlen_nonneg d). unfold SHA1_Update.
  destruct (update_loop_spec (S (Z.to_nat (zlen d))) m ctx d (zlen d)) as (ctx' & -> & A'); try done; try lia.
  cbn [mbind outcome_bind]. rewrite ztake_all in A' by done.
  destruct (IH (m ++ d) ctx') as (ctx2 & -> & A2); [done|by apply Forall_app|done|rewrite zlen_app; lia|].
  exists ctx2. split; [done|]. by rewrite app_assoc.
Qed.

(** C36: SHA-1 of a stream: whatever the sizes of the pieces a message of less than 2^60
    bytes is fed in, [SHA1_Final] returns the digest FIPS 180-4 defines for the whole
    message, padding, schedule, rounds and constants included, and no piece or block
    overruns its buffer. *)
Theorem sha1_stream_digest ds :
  Forall (Forall (fits 8)) ds -> zlen (concat ds) < 2 ^ 60 ->
  exists ctx ctx', updates SHA1_Init ds = Ok ctx /\ SHA1_Final ctx = Ok (ctx', Sha1Standard.sha1 (concat ds)).
Proof.
  intros Hds Hl. destruct (updates_spec ds [] SHA1_Init after_init) as (ctx & E & A); [constructor|done|done|].
  destruct (final_spec _ _ A) as [ctx' E'].
  - apply Forall_concat. done.
  - done.
  - exists ctx, ctx'. rewrite <- sha1_standard; [done|by apply Forall_concat].
Qed.

Lemma sha1_stream_digest_witness :
  exists ctx ctx', updates SHA1_Init [[97]; []; replicate 100 98] = Ok ctx /\
    SHA1_Final ctx = Ok (ctx', Sha1Standard.sha1 (concat [[97]; []; replicate 100 98])).
Proof.
  apply sha1_stream_digest; [|done].
  apply Forall_cons; split; [by repeat constructor|]. apply Forall_cons; split; [constructor|].
  apply Forall_cons; split; [apply Forall_replicate; split; done|constructor].
Defined.
