(* ===== verification/Pipe.v ===== *)
(** kernel/fs/fifo.c and kernel/fs/tmpfs.c: byte queues and the pipes built from
    two of them.

    The two ends of a pipe are inodes that point at each other; they are modelled
    as the pair they form.  A buffer passed to a read or write is the list of its
    bytes. *)

From stdpp Require Import base numbers list.
From Stdlib Require Import ZArith Lia.
From S2P Require Import Prelude Bytes Alloc.

Open Scope Z_scope.

Definition STARTING_SIZE : Z := 4096.
Definition EAGAIN : Z := 6.
Definition EPIPE : Z := 68.
Definition sizeof_FIFO_FILE : Z := 24.

Record FIFO_FILE : Type := mkFifo {
  buffer : option (block Z);
  buffer_len : Z;
  write_len : Z;
  is_blocking : Z;
  has_data : Z;
  can_write : Z
}.

Section Fifo.
Context {H : Type} `{Allocator H}.

Definition fifo_realloc (file : FIFO_FILE) (h : H) : FIFO_FILE * H :=
  let n := u64 (buffer_len file + 4096) in
  let '(b, h) := realloc_bytes (buffer file) (u32 n) h in
  (mkFifo b n (write_len file) (is_blocking file) (has_data file) (can_write file), h).

(** The result of a write is an [int]. *)
Definition fifo_object_write (data : list Z) (file : FIFO_FILE) (h : H)
  : outcome (Z * FIFO_FILE * H) :=
  let n := zlen data in
  if buffer_len file <=? u64 (write_len file + n) then
    let file := mkFifo (buffer file) (buffer_len file) (write_len file) (is_blocking file) 1 0 in
    let '(file, h) := fifo_realloc file h in
    Ok (- EAGAIN, file, h)
  else
    d ← memcpy_at (data_of (buffer file)) (write_len file) data 0 n;
    Ok (i32 n, mkFifo (set_data (buffer file) d) (buffer_len file) (u64 (write_len file + n))
                 (is_blocking file) 1 (can_write file), h).

(** The bytes that were copied out; the shift to the left copies forwards, so
    that the overlap of source and destination does no harm. *)
Definition fifo_object_read (len : Z) (file : FIFO_FILE) : outcome (Z * list Z * FIFO_FILE) :=
  if write_len file =? 0 then
    Ok (- EAGAIN, [], mkFifo (buffer file) (buffer_len file) (write_len file) (is_blocking file) 0 (can_write file))
  else
  if len =? 0 then Ok (0, [], file) else
  let n := if write_len file <? len then write_len file else len in
  let b := data_of (buffer file) in
  out ← bytes_at b 0 n;
  b ← memcpy_at b 0 b n (buffer_len file - n);
  let w := write_len file - n in
  Ok (i32 n, out, mkFifo (set_data (buffer file) b) (buffer_len file) w (is_blocking file)
                    (if w =? 0 then 0 else has_data file) 1).

(** The flags are not set: they are what [kmalloc] left in the object. *)
Definition create_fifo_object (h : H) : outcome (FIFO_FILE * H) :=
  match kmalloc sizeof_FIFO_FILE h with
  | (None, _) => Fault
  | (Some _, h) =>
    let raw := kbytes h sizeof_FIFO_FILE in
    let '(b, h) := alloc_bytes STARTING_SIZE h in
    Ok (mkFifo b STARTING_SIZE 0 (byte_of raw 20) (byte_of raw 21) (byte_of raw 22), h)
  end.

(** ** Pipes *)

(** An end: [is_open] of its inode, and its [tmp_inode]. *)
Record tmp_inode : Type := mkEnd {
  is_open : bool;
  is_closed : bool;
  fifo : FIFO_FILE
}.

(** The [read_inode] of each end is the other one. *)
Record pipe_pair : Type := mkPipe { end0 : tmp_inode; end1 : tmp_inode }.

Definition this_end (p : pipe_pair) (s : bool) : tmp_inode := if s then end1 p else end0 p.
Definition other_end (p : pipe_pair) (s : bool) : tmp_inode := this_end p (negb s).
Definition set_end (p : pipe_pair) (s : bool) (e : tmp_inode) : pipe_pair :=
  if s then mkPipe (end0 p) e else mkPipe e (end1 p).
Definition set_fifo (e : tmp_inode) (f : FIFO_FILE) : tmp_inode := mkEnd (is_open e) (is_closed e) f.
Definition shut (e : tmp_inode) : tmp_inode := mkEnd false (is_closed e) (fifo e).

Definition tmp_close (s : bool) (p : pipe_pair) : pipe_pair :=
  if negb (is_open (this_end p s)) then p else
  let p := set_end p s (shut (this_end p s)) in
  set_end p (negb s) (shut (other_end p s)).

Definition tmp_has_data (s : bool) (p : pipe_pair) : Z := has_data (fifo (this_end p s)).
Definition tmp_can_write (s : bool) (p : pipe_pair) : Z := can_write (fifo (this_end p s)).

Definition tmp_write (s : bool) (data : list Z) (p : pipe_pair) (h : H) : outcome (Z * pipe_pair * H) :=
  if negb (is_open (this_end p s)) then Ok (- EPIPE, p, h) else
  let child := other_end p s in
  if is_closed child then Ok (- EPIPE, p, h) else
  '(rc, f, h) ← fifo_object_write data (fifo child) h;
  Ok (rc, set_end p (negb s) (set_fifo child f), h).

Definition tmp_read (s : bool) (len : Z) (p : pipe_pair) : outcome (Z * list Z * pipe_pair) :=
  if negb (is_open (this_end p s)) then Ok (- EPIPE, [], p) else
  let e := this_end p s in
  if is_closed e then Ok (- EPIPE, [], p) else
  '(rc, out, f) ← fifo_object_read len (fifo e);
  Ok (rc, out, set_end p s (set_fifo e f)).

(** The two ends of [pipe] and of [dual_pipe], which differ in the flags of the
    descriptors only; [kmalloc] of a [tmp_inode] is not checked for NULL. *)
Definition create_end (h : H) : outcome (tmp_inode * H) :=
  match kmalloc 12 h with
  | (None, _) => Fault
  | (Some _, h) => '(f, h) ← create_fifo_object h; Ok (mkEnd true false f, h)
  end.

Definition pipe (h : H) : outcome (pipe_pair * H) :=
  '(a, h) ← create_end h;
  '(b, h) ← create_end h;
  Ok (mkPipe a b, h).
End Fifo.

(** ** The bytes in a queue *)

Record fifo_ok (f : FIFO_FILE) : Prop := {
  fo_buffer : is_Some (buffer f);
  fo_len : zlen (data_of (buffer f)) = buffer_len f;
  fo_write : 0 <= write_len f <= buffer_len f;
  fo_size : 0 < buffer_len f < 2 ^ 31
}.

Definition queue (f : FIFO_FILE) : list Z := ztake (write_len f) (data_of (buffer f)).

Lemma zlen_queue f : fifo_ok f -> zlen (queue f) = write_len f.
Proof. intros [_ L W _]. apply zlen_ztake. lia. Qed.

Section Queues.
Context {H : Type} `{AllocatorBytes H}.

(** A write that fits. *)
Lemma fifo_write_ok data f (h : H) :
  fifo_ok f -> write_len f + zlen data < buffer_len f ->
  exists f', fifo_object_write data f h = Ok (zlen data, f', h) /\ fifo_ok f' /\
    queue f' = queue f ++ data /\ buffer_len f' = buffer_len f /\ has_data f' = 1 /\ can_write f' = can_write f.
Proof.
  intros [B L W S] Hn. pose proof (zlen_nonneg data). unfold fifo_object_write.
  rewrite u64_small by lia. destruct (Z.leb_spec (buffer_len f) (write_len f + zlen data)); [lia|].
  rewrite memcpy_at_ok by lia. rewrite slice_all. cbn [mbind outcome_bind]. rewrite i32_small by lia.
  assert (Hz : zlen (splice (data_of (buffer f)) (write_len f) data) = zlen (data_of (buffer f)))
    by (apply zlen_splice; lia).
  assert (Hd : data_of (set_data (buffer f) (splice (data_of (buffer f)) (write_len f) data)) =
    splice (data_of (buffer f)) (write_len f) data) by (by apply data_of_set).
  eexists. split_and!; [reflexivity| | |done..].
  - split; cbn [buffer buffer_len write_len]; [by destruct B as [b ->]|rewrite Hd; lia|lia|lia].
  - unfold queue. cbn [buffer write_len]. rewrite Hd. unfold splice. rewrite app_assoc.
    apply ztake_app_exact. rewrite zlen_app, zlen_ztake; lia.
Qed.

(** A write that does not fit is refused, and the buffer grows. *)
Lemma fifo_write_full data f (h : H) :
  fifo_ok f -> buffer_len f + 4096 < 2 ^ 31 -> zlen data < 2 ^ 63 -> buffer_len f <= write_len f + zlen data ->
  (forall b n h', is_Some (fst (realloc_bytes b n h'))) ->
  exists f' h', fifo_object_write data f h = Ok (- EAGAIN, f', h') /\ fifo_ok f' /\
    queue f' = queue f /\ buffer_len f' = buffer_len f + 4096 /\ has_data f' = 1 /\ can_write f' = 0.
Proof.
  intros [B L W S] Hs Hd Hn Hmem. pose proof (zlen_nonneg data). unfold fifo_object_write.
  rewrite u64_small by lia. destruct (Z.leb_spec (buffer_len f) (write_len f + zlen data)); [|lia].
  unfold fifo_realloc. cbn [buffer buffer_len write_len is_blocking has_data can_write].
  rewrite u64_small, u32_small by lia.
  destruct (realloc_bytes (buffer f) (buffer_len f + 4096) h) as [[b|] h'] eqn:E.
  2: { specialize (Hmem (buffer f) (buffer_len f + 4096) h). rewrite E in Hmem. by destruct Hmem. }
  destruct (realloc_bytes_grow (buffer f) (buffer_len f + 4096) h b h' ltac:(lia) E) as [Hz Hk].
  eexists _, _. split_and!; [reflexivity| | |done..].
  - split; cbn [buffer buffer_len write_len data_of]; [by eexists|lia|lia|lia].
  - unfold queue. cbn [buffer write_len data_of].
    transitivity (ztake (write_len f) (ztake (zlen (data_of (buffer f))) (blk_data b))); [|by rewrite Hk].
    unfold ztake. rewrite take_take. f_equal. unfold zlen in *. lia.
Qed.

Lemma fifo_read_ok len f :
  fifo_ok f -> 0 < write_len f -> 0 < len < 2 ^ 63 ->
  exists f', fifo_object_read len f = Ok (Z.min len (write_len f), ztake len (queue f), f') /\ fifo_ok f' /\
    queue f' = zdrop len (queue f) /\ buffer_len f' = buffer_len f /\ can_write f' = 1.
Proof.
  intros Hf Hw Hl. pose proof Hf as [B L W S]. unfold fifo_object_read.
  destruct (Z.eqb_spec (write_len f) 0) as [|_]; [lia|]. destruct (Z.eqb_spec len 0) as [|_]; [lia|].
  set (n := if write_len f <? len then write_len f else len).
  assert (Hn : n = Z.min len (write_len f)) by (unfold n; destruct (Z.ltb_spec (write_len f) len); lia).
  unfold bytes_at. rewrite (proj2 (Z.leb_le 0 0)), (proj2 (Z.leb_le (0 + n) (zlen (data_of (buffer f))))) by lia.
  cbn [andb mbind outcome_bind]. rewrite memcpy_at_ok by lia. cbn [mbind outcome_bind]. rewrite i32_small by lia.
  set (d := data_of (buffer f)) in *. set (d' := splice d 0 _).
  assert (Hsl : zlen (slice n (buffer_len f - n) d) = buffer_len f - n) by (apply zlen_slice; lia).
  assert (Hz : zlen d' = zlen d) by (apply zlen_splice; lia).
  assert (Hd : data_of (set_data (buffer f) d') = d') by (by apply data_of_set).
  eexists. split_and!; [rewrite Hn; do 3 f_equal| | |done|done].
  - rewrite slice_from_0. unfold queue, ztake. rewrite take_take. f_equal. lia.
  - split; cbn [buffer buffer_len write_len]; [by destruct B as [b ->]|rewrite Hd; lia|lia|lia].
  - unfold queue. cbn [buffer write_len]. rewrite Hd. unfold d', splice.
    change (ztake 0 d) with (@nil Z). cbn [app]. unfold ztake at 1. rewrite take_app_le by (unfold zlen in *; lia).
    unfold slice, ztake, zdrop. rewrite take_take, skipn_firstn_comm. fold d.
    destruct (Z.le_ge_cases len (write_len f)).
    + rewrite Hn, Z.min_l by lia. f_equal. lia.
    + rewrite Hn, Z.min_r by lia. rewrite Z.sub_diag. replace (Z.to_nat (write_len f) - Z.to_nat len)%nat with 0%nat by lia.
      done.
Qed.

Lemma fifo_read_empty len f :
  write_len f = 0 ->
  exists f', fifo_object_read len f = Ok (- EAGAIN, [], f') /\
    buffer f' = buffer f /\ write_len f' = 0 /\ buffer_len f' = buffer_len f /\ can_write f' = can_write f /\ has_data f' = 0.
Proof. intros E. unfold fifo_object_read. rewrite E. by eexists. Qed.
End Queues.

(** ** Pipes keep the order *)

Inductive pipe_op : Type :=
| Write (s : bool) (d : list Z)
| Read (s : bool) (n : Z)
| Close (s : bool).

(** An operation, its return value and the bytes read. *)
Definition event : Type := pipe_op * Z * list Z.

(** The abstract pipe: whether it is open, and the bytes that wait at each end.  A write
    adds all its bytes to the queue of the other end or is refused, which needs a queue
    that is nearly full; a read takes what there is; closing one end ends the traffic. *)
Definition pipe_step (open : bool) (q : bool -> list Z) (e : event) (open' : bool) (q' : bool -> list Z) : Prop :=
  match e with
  | (Write s d, rc, out) =>
    out = [] /\ open' = open /\ q' s = q s /\
    if open then
      (rc = zlen d /\ q' (negb s) = q (negb s) ++ d) \/
      (rc = - EAGAIN /\ q' (negb s) = q (negb s) /\ STARTING_SIZE <= zlen (q (negb s)) + zlen d)
    else rc = - EPIPE /\ q' (negb s) = q (negb s)
  | (Read s n, rc, out) =>
    open' = open /\ q' (negb s) = q (negb s) /\
    if open then
      out = ztake n (q s) /\ q' s = zdrop n (q s) /\ rc = (if bool_decide (q s = []) then - EAGAIN else zlen out)
    else rc = - EPIPE /\ out = [] /\ q' s = q s
  | (Close s, rc, out) => rc = 0 /\ out = [] /\ open' = false /\ forall t, q' t = q t
  end.

Inductive pipe_trace (open : bool) (q : bool -> list Z) : list event -> bool -> (bool -> list Z) -> Prop :=
| trace_nil : pipe_trace open q [] open q
| trace_cons e evs open1 q1 open2 q2 : pipe_step open q e open1 q1 -> pipe_trace open1 q1 evs open2 q2 ->
    pipe_trace open q (e :: evs) open2 q2.

(** Bytes accepted for end [s], and bytes read there. *)
Definition accepted (s : bool) (e : event) : list Z :=
  match e with
  | (Write w d, rc, _) => if bool_decide (w <> s) && (0 <=? rc) then d else []
  | _ => []
  end.
Definition delivered (s : bool) (e : event) : list Z :=
  match e with
  | (Read r _, _, out) => if bool_decide (r = s) then out else []
  | _ => []
  end.

Lemma step_queue open q e open' q' s : pipe_step open q e open' q' -> q s ++ accepted s e = delivered s e ++ q' s.
Proof.
  destruct e as [[[w d|r n|c] rc] out]; cbn [pipe_step accepted delivered].
  - intros (-> & _ & Hs & Hq). destruct (decide (s = w)) as [->|Hne].
    + rewrite bool_decide_false by (by intros []). by rewrite Hs, app_nil_r.
    + assert (s = negb w) as -> by (by destruct s, w). rewrite bool_decide_true by (by destruct w). cbn [andb app]. pose proof (zlen_nonneg d).
      destruct open; [destruct Hq as [[-> ->]|(-> & -> & _)]|destruct Hq as [-> ->]].
      * by destruct (Z.leb_spec 0 (zlen d)); [|lia].
      * by rewrite app_nil_r.
      * by rewrite app_nil_r.
  - intros (_ & Hs & Hq). rewrite app_nil_r. destruct (decide (r = s)) as [->|Hne].
    + rewrite bool_decide_true by done. destruct open; [|by destruct Hq as (_ & -> & ->)].
      destruct Hq as (-> & -> & _). symmetry. apply ztake_zdrop.
    + rewrite bool_decide_false by done. assert (s = negb r) as -> by (by destruct s, r). by rewrite Hs.
  - intros (_ & _ & _ & Hq). by rewrite Hq, app_nil_r.
Qed.

Lemma trace_queue open q evs open' q' s : pipe_trace open q evs open' q' ->
  q s ++ concat (accepted s <$> evs) = concat (delivered s <$> evs) ++ q' s.
Proof.
  induction 1 as [open q|open q e evs o1 q1 o2 q2 Hs _ IH]; [by rewrite app_nil_r|].
  cbn [fmap list_fmap concat]. rewrite app_assoc, (step_queue _ _ _ _ _ s Hs), <- !app_assoc. f_equal. apply IH.
Qed.

Section Pipes.
Context {H : Type} `{AllocatorBytes H}.

Definition run_pipe_op (o : pipe_op) (p : pipe_pair) (h : H) : outcome (Z * list Z * pipe_pair * H) :=
  match o with
  | Write s d => '(rc, p, h) ← tmp_write s d p h; Ok (rc, [], p, h)
  | Read s n => '(rc, out, p) ← tmp_read s n p; Ok (rc, out, p, h)
  | Close s => Ok (0, [], tmp_close s p, h)
  end.

Fixpoint run_pipe (ops : list pipe_op) (p : pipe_pair) (h : H) : outcome (list event * pipe_pair * H) :=
  match ops with
  | [] => Ok ([], p, h)
  | o :: ops =>
    '(rc, out, p, h) ← run_pipe_op o p h;
    '(evs, p, h) ← run_pipe ops p h;
    Ok ((o, rc, out) :: evs, p, h)
  end.

Record end_ok (e : tmp_inode) (open : bool) (room : Z) : Prop := {
  eo_open : is_open e = open;
  eo_closed : is_closed e = false;
  eo_fifo : fifo_ok (fifo e);
  eo_size : STARTING_SIZE <= buffer_len (fifo e);
  eo_room : buffer_len (fifo e) + room < 2 ^ 31
}.

(** Both ends are open or both are closed. *)
Definition pipe_ok (p : pipe_pair) (open : bool) (room : Z) : Prop := forall s, end_ok (this_end p s) open room.

(** The queues of a pipe. *)
Definition queues (p : pipe_pair) (s : bool) : list Z := queue (fifo (this_end p s)).

Definition op_ok (o : pipe_op) : Prop :=
  match o with Write _ d => zlen d < 2 ^ 31 | Read _ n => 0 <= n < 2 ^ 63 | Close _ => True end.

Context (Hmem : forall b n (h : H), is_Some (fst (realloc_bytes b n h))).

Lemma this_set_same p s e : this_end (set_end p s e) s = e.
Proof. by destruct s. Qed.
Lemma this_set_other p s e : this_end (set_end p s e) (negb s) = this_end p (negb s).
Proof. by destruct s. Qed.

Lemma room_less p open room room' : pipe_ok p open room -> room' <= room -> pipe_ok p open room'.
Proof. intros Hp Hr s. destruct (Hp s). split; [done..|lia]. Qed.

Lemma set_end_ok p s f open room room' :
  pipe_ok p open room -> room' <= room -> fifo_ok f -> STARTING_SIZE <= buffer_len f -> buffer_len f + room' < 2 ^ 31 ->
  pipe_ok (set_end p s (set_fifo (this_end p s) f)) open room'.
Proof.
  intros Hp Hr Hf Hs Hb t. destruct (decide (t = s)) as [->|Hne].
  - rewrite this_set_same. destruct (Hp s) as [O C _ _ _]. by split.
  - assert (t = negb s) as -> by (destruct t, s; done). rewrite this_set_other.
    destruct (Hp (negb s)) as [O C F S B]. split; [done..|lia].
Qed.

Lemma write_step p s d (h : H) room :
  pipe_ok p true (room + 4096) -> zlen d < 2 ^ 31 -> 0 <= room ->
  exists rc p' h', tmp_write s d p h = Ok (rc, p', h') /\ pipe_ok p' true room /\
    pipe_step true (queues p) (Write s d, rc, []) true (queues p').
Proof.
  intros Hp Hd Hr. pose proof (zlen_nonneg d). unfold tmp_write. rewrite (eo_open _ _ _ (Hp s)). cbn [negb].
  unfold other_end. destruct (Hp (negb s)) as [_ C F S B]. rewrite C. set (f := fifo (this_end p (negb s))) in *.
  assert (Hset : forall f', fifo_ok f' -> buffer_len f <= buffer_len f' <= buffer_len f + 4096 ->
    pipe_ok (set_end p (negb s) (set_fifo (this_end p (negb s)) f')) true room).
  { intros f' Hf' Hl. apply (set_end_ok p (negb s) f' true (room + 4096)); [done|lia|done|lia|lia]. }
  assert (Hq : forall f', queues (set_end p (negb s) (set_fifo (this_end p (negb s)) f')) (negb s) = queue f' /\
    queues (set_end p (negb s) (set_fifo (this_end p (negb s)) f')) s = queues p s) by (intros f'; by destruct s).
  destruct (Z.lt_ge_cases (write_len f + zlen d) (buffer_len f)) as [Hlt|Hge].
  - destruct (fifo_write_ok d f h F Hlt) as (f' & -> & F' & Q & L & _). cbn [mbind outcome_bind]. destruct (Hq f') as [Q1 Q2].
    eexists _, _, _. split; [reflexivity|]. split; [apply Hset; [done|lia]|]. cbn [pipe_step]. split_and!; [done|done|done|].
    left. split; [done|]. by rewrite Q1, Q.
  - destruct (fifo_write_full d f h F) as (f' & h' & -> & F' & Q & L & _); [lia|lia|lia|done|]. cbn [mbind outcome_bind].
    destruct (Hq f') as [Q1 Q2]. eexists _, _, _. split; [reflexivity|]. split; [apply Hset; [done|lia]|]. cbn [pipe_step].
    split_and!; [done|done|done|]. right. split_and!; [done|by rewrite Q1, Q|]. unfold queues. fold f.
    rewrite zlen_queue by done. lia.
Qed.

Lemma read_step p s n room :
  pipe_ok p true room -> 0 <= n < 2 ^ 63 ->
  exists rc out p', tmp_read s n p = Ok (rc, out, p') /\ pipe_ok p' true room /\
    pipe_step true (queues p) (Read s n, rc, out) true (queues p').
Proof.
  intros Hp Hn. unfold tmp_read. destruct (Hp s) as [O C F S B]. rewrite O, C. cbn [negb]. set (f := fifo (this_end p s)) in *.
  assert (Hq : forall f', queues (set_end p s (set_fifo (this_end p s) f')) s = queue f' /\
    queues (set_end p s (set_fifo (this_end p s) f')) (negb s) = queues p (negb s)) by (intros f'; by destruct s).
  pose proof (zlen_queue f F) as Hz. change (queue f) with (queues p s) in Hz.
  assert (Hstep : forall rc out f', fifo_ok f' -> buffer_len f' = buffer_len f -> out = ztake n (queues p s) ->
    queue f' = zdrop n (queues p s) -> rc = (if bool_decide (queues p s = []) then - EAGAIN else zlen out) ->
    exists rc' out' p', Ok (rc, out, set_end p s (set_fifo (this_end p s) f')) = Ok (rc', out', p') /\ pipe_ok p' true room /\
      pipe_step true (queues p) (Read s n, rc', out') true (queues p')).
  { intros rc out f' F' L Ho Hd Hrc. eexists _, _, _. split; [reflexivity|]. destruct (Hq f') as [Q1 Q2].
    split; [apply (set_end_ok p s f' true room); [done|lia|done|lia|lia]|]. cbn [pipe_step]. rewrite Q1. by split_and!. }
  destruct (Z.eq_dec (write_len f) 0) as [E0|E0].
  - destruct (fifo_read_empty n f E0) as (f' & -> & B1 & W1 & L1 & _). cbn [mbind outcome_bind].
    assert (Eq : queues p s = []) by (destruct (queues p s); [done|zlia]). destruct F as [F1 F2 F3 F4].
    apply Hstep; rewrite ?Eq; [split; rewrite ?B1, ?W1, ?L1; try done; lia|done| | |done].
    + unfold ztake. by rewrite take_nil.
    + unfold queue. rewrite W1. unfold zdrop. by rewrite drop_nil.
  - assert (Hne : bool_decide (queues p s = []) = false).
    { apply bool_decide_eq_false_2. intros Eq. rewrite Eq in Hz. change (zlen (@nil Z)) with 0 in Hz. lia. }
    destruct (Z.eq_dec n 0) as [->|Hn0].
    + unfold fifo_object_read. destruct (Z.eqb_spec (write_len f) 0); [lia|]. cbn [Z.eqb mbind outcome_bind].
      apply Hstep; [done|done|done|done|by rewrite Hne].
    + destruct (fifo_read_ok n f F) as (f' & -> & F' & Q & L & _); [destruct F; lia|lia|]. cbn [mbind outcome_bind].
      apply Hstep; [done|done|done|done|]. rewrite Hne. change (queue f) with (queues p s). unfold ztake, zlen in *.
      rewrite length_take. lia.
Qed.

Lemma closed_step o p (h : H) room : pipe_ok p false room ->
  exists rc out p' h', run_pipe_op o p h = Ok (rc, out, p', h') /\ p' = p /\
    pipe_step false (queues p) (o, rc, out) false (queues p').
Proof.
  intros Hp. destruct o as [s d|s n|s]; cbn [run_pipe_op]; unfold tmp_write, tmp_read, tmp_close;
    rewrite (eo_open _ _ _ (Hp s)); cbn [negb mbind outcome_bind]; eexists _, _, _, _; (split; [reflexivity|]); by cbn.
Qed.

Lemma run_op_pipe o p open (h : H) room :
  pipe_ok p open (room + 4096) -> op_ok o -> 0 <= room ->
  exists rc out p' open' h', run_pipe_op o p h = Ok (rc, out, p', h') /\ pipe_ok p' open' room /\
    pipe_step open (queues p) (o, rc, out) open' (queues p').
Proof.
  intros Hp Ho Hr. destruct open.
  - destruct o as [s d|s n|s]; cbn [run_pipe_op op_ok] in *.
    + destruct (write_step p s d h room Hp Ho Hr) as (rc & p' & h' & -> & Hp' & Hs). by exists rc, [], p', true, h'.
    + destruct (read_step p s n room) as (rc & out & p' & -> & Hp' & Hs); [eapply room_less; [done|lia]|done|].
      by exists rc, out, p', true, h.
    + exists 0, [], (tmp_close s p), false, h. split; [done|]. unfold tmp_close. rewrite (eo_open _ _ _ (Hp s)). cbn [negb].
      split; [|split_and!; [done..|by intros []; destruct s]].
      intros t. destruct (Hp t). by destruct t, s; split; try done; cbn in *; lia.
  - destruct (closed_step o p h (room + 4096) Hp) as (rc & out & p' & h' & -> & -> & Hs). exists rc, out, p, false, h'.
    split_and!; [done|eapply room_less; [done|lia]|done].
Qed.

Lemma run_pipe_trace ops p open (h : H) :
  Forall op_ok ops -> pipe_ok p open (4096 * Z.of_nat (length ops)) ->
  exists evs p' open' h', run_pipe ops p h = Ok (evs, p', h') /\ pipe_trace open (queues p) evs open' (queues p') /\
    map (fun e => e.1.1) evs = ops.
Proof.
  intros Ho. revert p open h. induction Ho as [|o ops Ho _ IH]; intros p open h Hp.
  { exists [], p, open, h. split_and!; [done|constructor|done]. }
  cbn [length] in Hp. destruct (run_op_pipe o p open h (4096 * Z.of_nat (length ops))) as (rc & out & p1 & o1 & h1 & E1 & P1 & Q1);
    [eapply room_less; [done|lia]|done|lia|].
  destruct (IH p1 o1 h1 P1) as (evs & p2 & o2 & h2 & E2 & Q2 & M). cbn [run_pipe]. rewrite E1. cbn [mbind outcome_bind].
  rewrite E2. cbn [mbind outcome_bind]. exists ((o, rc, out) :: evs), p2, o2, h2.
  split_and!; [done|by econstructor|cbn; by rewrite M].
Qed.

(** C29: a pipe is a pair of queues.  Over any sequence of writes, reads and closes on both
    ends, while there is memory to enlarge the buffers, every call returns and does what
    it does on the abstract pipe: a write is accepted whole or refused with [-EAGAIN], a
    read takes the oldest bytes, and once an end is closed every call gives [-EPIPE].
    In particular the bytes one end reads are, in order and without loss or duplication, the
    first of those that waited there and those the writes on the other end accepted. *)
Theorem pipe_delivers_in_order ops p open (h : H) :
  Forall op_ok ops -> pipe_ok p open (4096 * Z.of_nat (length ops)) ->
  exists evs p' open' h', run_pipe ops p h = Ok (evs, p', h') /\ map (fun e => e.1.1) evs = ops /\
    pipe_trace open (queues p) evs open' (queues p') /\
    forall s, queues p s ++ concat (accepted s <$> evs) = concat (delivered s <$> evs) ++ queues p' s.
Proof.
  intros Ho Hp. destruct (run_pipe_trace ops p open h Ho Hp) as (evs & p' & open' & h' & E & Ht & M).
  exists evs, p', open', h'. split_and!; [done|done|done|]. intros s. by eapply trace_queue.
Qed.
End Pipes.

(** ** A write that is too long for the buffer *)

Fixpoint read_all (f : FIFO_FILE) (lens : list Z) : outcome FIFO_FILE :=
  match lens with
  | [] => Ok f
  | n :: lens => '(_, _, f) ← fifo_object_read n f; read_all f lens
  end.

Section Stuck.
Context {H : Type} `{AllocatorBytes H}.

(** A blocked writer is never woken: a write of at least the buffer's size to
    an empty pipe is refused and clears [can_write], and no number of reads of
    the still empty pipe ever sets it again, although the buffer has grown. *)
Theorem large_write_never_ready data f (h : H) lens :
  fifo_ok f -> write_len f = 0 -> buffer_len f + 4096 < 2 ^ 31 -> buffer_len f <= zlen data < 2 ^ 31 ->
  (forall b n h', is_Some (fst (realloc_bytes b n h'))) ->
  exists f' h' f'', fifo_object_write data f h = Ok (- EAGAIN, f', h') /\
    buffer_len f' = buffer_len f + 4096 /\ read_all f' lens = Ok f'' /\ can_write f'' = 0.
Proof.
  intros Hf Hw Hb Hd Hmem.
  destruct (fifo_write_full data f h Hf Hb) as (f' & h' & E & F' & Q & L & _ & Cw); [lia|lia|done|].
  assert (Hw' : write_len f' = 0).
  { rewrite <- zlen_queue, Q, zlen_queue by done. done. }
  assert (Hr : exists f'', read_all f' lens = Ok f'' /\ can_write f'' = 0).
  { clear - Hw' Cw. revert f' Hw' Cw. induction lens as [|n lens IH]; intros f' Hw Cw; [by exists f'|].
    destruct (fifo_read_empty n f' Hw) as (f1 & E1 & _ & W1 & _ & C1 & _). cbn [read_all]. rewrite E1.
    cbn [mbind outcome_bind]. apply IH; [done|congruence]. }
  destruct Hr as (f'' & Er & C''). by exists f', h', f''.
Qed.

(** Closing one end makes the other refuse to read what is still queued. *)
Theorem close_discards_data s p len :
  is_open (this_end p s) = true ->
  tmp_read (negb s) len (tmp_close s p) = Ok (- EPIPE, [], tmp_close s p).
Proof.
  intros Ho. unfold tmp_close. rewrite Ho. cbn [negb]. unfold tmp_read.
  by destruct s.
Qed.
End Stuck.

(** ** An example *)

Definition empty_fifo : FIFO_FILE := mkFifo (Some (Block 0 (replicate 4096 0))) 4096 0 0 0 1.
Definition empty_pipe : pipe_pair := mkPipe (mkEnd true false empty_fifo) (mkEnd true false empty_fifo).

Lemma empty_fifo_ok : fifo_ok empty_fifo.
Proof. split; [by eexists|done|cbn; lia|cbn; lia]. Qed.

Lemma endless_realloc b n (h : Z) : is_Some (fst (realloc_bytes b n h)).
Proof. by eexists. Qed.

(** Two of three bytes are read, and the pipe is closed. *)
Lemma pipe_delivers_in_order_witness :
  let ops := [Write false [1; 2; 3]; Read true 2; Close false; Read true 5] in
  exists evs p' open' h', run_pipe ops empty_pipe 0 = Ok (evs, p', h') /\
    pipe_trace true (queues empty_pipe) evs open' (queues p') /\
    evs = [(Write false [1; 2; 3], 3, []); (Read true 2, 2, [1; 2]); (Close false, 0, []); (Read true 5, - EPIPE, [])].
Proof.
  destruct (pipe_delivers_in_order (H := Z) endless_realloc
    [Write false [1; 2; 3]; Read true 2; Close false; Read true 5] empty_pipe true 0) as (evs & p' & open' & h' & E & _ & Ht & _).
  - repeat (apply Forall_cons; split; [first [reflexivity|exact I|split; [discriminate|reflexivity]]|]). constructor.
  - intros s. destruct s; (split; [done|done|exact empty_fifo_ok|done|cbn; lia]).
  - exists evs, p', open', h'. split; [exact E|]. split; [exact Ht|]. vm_compute in E. injection E as <- _ _. reflexivity.
Defined.

Lemma large_write_never_ready_witness :
  exists f' h' f'', fifo_object_write (replicate 5000 0) empty_fifo 0 = Ok (- EAGAIN, f', h') /\
    buffer_len f' = 4096 + 4096 /\ read_all f' [1; 100] = Ok f'' /\ can_write f'' = 0.
Proof.
  apply (large_write_never_ready (replicate 5000 0) empty_fifo 0 [1; 100]);
    [exact empty_fifo_ok|done|done|split; [vm_compute; discriminate|reflexivity]|exact endless_realloc].
Defined.
