(* ===== verification/VfsPath.v ===== *)
(** kernel/fs/vfs.c, first part: paths.  Canonical absolute paths, the root and
    working directory of the process in front of a path, and the choice of the
    mount a path belongs to.

    A pointer into a path is the rest of the array it points to; the result of
    [vfs_clean_path] is an array and an index.  '/' is 47 and '.' is 46. *)

From stdpp Require Import base numbers list.
From Stdlib Require Import ZArith Lia.
From S2P Require Import Prelude Bytes KString.

Open Scope Z_scope.

(** ** [vfs_clean_path] *)

(** [for (; '/' == *path; path++); path--;] on a path that starts with a slash:
    the rest from its last leading slash on. *)
Fixpoint skip_slashes (path : list Z) : outcome (list Z) :=
  match path with
  | 47 :: rest =>
    c ← aread rest 0;
    if c =? 47 then skip_slashes rest else Ok path
  | _ => Fault
  end.

(** [for (; result_start <= result && '/' != *result; result--);] *)
Fixpoint back_to_slash (k : nat) (buf : list Z) (result : Z) : outcome Z :=
  match k with
  | O => NoFuel
  | S k =>
    if negb (0 <=? result) then Ok result else
    c ← aread buf result;
    if negb (47 =? c) then back_to_slash k buf (result - 1) else Ok result
  end.

Definition at_path (path : list Z) (pat : list Z) : outcome bool :=
  c ← memcmp path pat (zlen pat);
  Ok (c =? 0).

(** The state of the loop: the path pointer, the array and index of the result and
    the two flags. *)
Record clean : Type := mkClean {
  c_path : list Z;
  c_buf : list Z;
  c_result : Z;
  c_slash : bool
}.

(** What happens at the start of a directory name; [None] is the [return 0]. *)
Definition clean_name (s : clean) : outcome (option clean) :=
  c ← aread (c_path s) 0;
  if c =? 47 then Ok (Some (mkClean (zdrop 1 (c_path s)) (c_buf s) (c_result s) (c_slash s))) else
  d1 ← at_path (c_path s) [46; 47];
  d2 ← (if d1 : bool then Ok true else at_path (c_path s) [46; 0]);
  if d2 : bool then Ok (Some (mkClean (zdrop 1 (c_path s)) (c_buf s) (c_result s) (c_slash s))) else
  p1 ← at_path (c_path s) [46; 46; 47];
  p2 ← (if p1 : bool then Ok true else at_path (c_path s) [46; 46; 0]);
  if negb p2 then Ok (Some s) else
  let path := zdrop 2 (c_path s) in
  c ← aread path 0;
  if c_result s <? 2 then
    if c =? 47 then
      if c_result s =? 0 then Ok None
      else Ok (Some (mkClean path (c_buf s) (c_result s - 1) (c_slash s)))
    else Ok (Some (mkClean path (c_buf s) (c_result s) (c_slash s)))
  else
    r ← back_to_slash (S (length (c_buf s))) (c_buf s) (c_result s - 2);
    Ok (Some (mkClean path (c_buf s) r (c_slash s || negb (c =? 47)))).

(** The loop over the path; [start] is [start_directory]. *)
Fixpoint clean_loop (fuel : nat) (start : bool) (s : clean) : outcome (option clean) :=
  match fuel with
  | O => NoFuel
  | S fuel =>
    c ← aread (c_path s) 0;
    if c =? 0 then Ok (Some s) else
    s ← (if start then clean_name s else Ok (Some s));
    match s with
    | None => Ok None
    | Some s =>
      c ← aread (c_path s) 0;
      if c =? 0 then Ok (Some s) else
      buf ← awrite (c_buf s) (c_result s) c;
      clean_loop fuel (c =? 47) (mkClean (zdrop 1 (c_path s)) buf (c_result s + 1) (c_slash s))
    end
  end.

(** The result array, or [None] for the return value 0. *)
Definition vfs_clean_path (path result : list Z) : outcome (option (list Z)) :=
  c ← aread path 0;
  if negb (c =? 47) then Ok None else
  path ← skip_slashes path;
  s ← clean_loop (S (length path)) false (mkClean path result 0 false);
  match s with
  | None => Ok None
  | Some s =>
    '(buf, r) ← (if c_slash s then b ← awrite (c_buf s) (c_result s) 47; Ok (b, c_result s + 1)
                 else Ok (c_buf s, c_result s));
    buf ← awrite buf r 0;
    Ok (Some buf)
  end.

(** ** [vfs_resolve_path] *)

(** [root] and [cwd] are arrays of the process; [resolved] the caller's array.
    The local array is written before it is read. *)
Definition vfs_resolve_path (root cwd file resolved : list Z) : outcome (list Z) :=
  l1 ← strlen root;
  c_assert (0 <? l1) ;;
  c ← aread root (l1 - 1);
  c_assert (c =? 47) ;;
  l2 ← strlen cwd;
  c_assert (0 <? l2) ;;
  c ← aread cwd (l2 - 1);
  c_assert (c =? 47) ;;
  '(r, _) ← strlcpy (replicate 256 0) root 256;
  c ← aread file 0;
  '(r, _) ← (if negb (c =? 47) then strlcat r cwd 256 else Ok (r, 0));
  '(r, _) ← strlcat r file 256;
  res ← vfs_clean_path r resolved;
  match res with
  | None => Panic
  | Some resolved =>
    c ← memcmp resolved root l1;
    if negb (c =? 0) then strcpy resolved root else Ok resolved
  end.

(** ** Mounts *)

(** A mount: its path and its root, an inode. *)
Record vfs_mounts : Type := mkMount { m_path : list Z; local_root : Z }.

Fixpoint mount_loop (mounts : list vfs_mounts) (path : list Z) (length : Z) (best : option vfs_mounts)
  : outcome (Z * option vfs_mounts) :=
  match mounts with
  | [] => Ok (length, best)
  | m :: mounts =>
    path_len ← strlen (m_path m);
    if path_len <=? length then mount_loop mounts path length best else
    eq ← isequal_n (m_path m) path (Z.to_nat path_len);
    if eq : bool then mount_loop mounts path path_len (Some m) else mount_loop mounts path length best
  end.

(** The mount and [*file], the path below it. *)
Definition vfs_get_mount (mounts : list vfs_mounts) (path : list Z) : outcome (option vfs_mounts * list Z) :=
  '(length, best) ← mount_loop mounts path 0 None;
  Ok (best, if negb (length =? 1) then zdrop length path else path).

(** [mounts] has room for ten. *)
Definition vfs_mount (mounts : list vfs_mounts) (path : list Z) (root : Z) : outcome (list vfs_mounts) :=
  len ← strlen path;
  if 10 <=? zlen mounts then Fault else
  p ← bytes_at path 0 len;
  Ok (mounts ++ [mkMount (p ++ [0]) root]).

(** ** Canonical paths *)

Definition DOTDOT : list Z := [46; 46].

(** A name between slashes. *)
Record name_ok (c : list Z) : Prop := {
  nm_some : c <> [];
  nm_slash : 47 ∉ c;
  nm_nul : 0 ∉ c;
  nm_dot : c <> [46]
}.

(** [c1/c2/.../cn] *)
Fixpoint slashed (cs : list (list Z)) : list Z :=
  match cs with
  | [] => []
  | c :: cs => match cs with [] => c | _ => c ++ 47 :: slashed cs end
  end.

(** [/c1/c2/.../cn/] *)
Definition directory (st : list (list Z)) : list Z := 47 :: concat ((fun c => c ++ [47]) <$> st).

Definition enter (st : list (list Z)) (c : list Z) : list (list Z) :=
  if bool_decide (c = DOTDOT) then removelast st else st ++ [c].

(** The canonical form of [cs] below the directory [st]. *)
Fixpoint canonical (st : list (list Z)) (cs : list (list Z)) : list Z :=
  match cs with
  | [] => directory st
  | c :: cs =>
    match cs with
    | [] => if bool_decide (c = DOTDOT) then directory (removelast st) else directory st ++ c
    | _ => canonical (enter st c) cs
    end
  end.

(** The bytes written so far. *)
Definition out_is (buf : list Z) (r : Z) (out : list Z) : Prop := zlen out = r /\ ztake r buf = out.

Lemma out_write buf r out c :
  out_is buf r out -> r < zlen buf ->
  exists buf', awrite buf r c = Ok buf' /\ out_is buf' (r + 1) (out ++ [c]) /\ zlen buf' = zlen buf.
Proof.
  intros [Hz Ht] Hr. pose proof (zlen_nonneg out). exists (<[Z.to_nat r := c]> buf).
  split_and!; [by apply awrite_ok; lia| |apply zlen_insert]. split; [rewrite zlen_app; change (zlen [c]) with 1; lia|].
  unfold ztake. replace (Z.to_nat (r + 1)) with (S (Z.to_nat r)) by lia.
  rewrite (take_S_r _ _ c); [|apply list_lookup_insert_eq; unfold zlen in Hr; lia].
  rewrite take_insert_ge by lia. f_equal. exact Ht.
Qed.

Lemma out_back buf r a b : out_is buf r (a ++ b) -> out_is buf (zlen a) a.
Proof.
  intros [Hz Ht]. split; [done|]. rewrite zlen_app in Hz. pose proof (zlen_nonneg a). pose proof (zlen_nonneg b).
  assert (Ha : ztake (zlen a) (ztake r buf) = ztake (zlen a) buf).
  { unfold ztake. rewrite take_take. f_equal. lia. }
  rewrite <- Ha, Ht. by apply ztake_app_exact.
Qed.

Lemma out_read buf r a c b : out_is buf r (a ++ c :: b) -> aread buf (zlen a) = Ok c.
Proof.
  intros [Hz Ht]. rewrite zlen_app, zlen_cons in Hz. pose proof (zlen_nonneg a). pose proof (zlen_nonneg b).
  apply aread_ok. rewrite <- (znth_ztake r) by lia. rewrite Ht, znth_app_r by lia. by rewrite Z.sub_diag.
Qed.

(** One character is copied. *)
Lemma clean_copy fuel start p buf r sl out c :
  out_is buf r out -> r < zlen buf -> c <> 0 ->
  (start = true -> clean_name (mkClean (c :: p) buf r sl) = Ok (Some (mkClean (c :: p) buf r sl))) ->
  exists buf', clean_loop (S fuel) start (mkClean (c :: p) buf r sl) =
      clean_loop fuel (c =? 47) (mkClean p buf' (r + 1) sl) /\
    out_is buf' (r + 1) (out ++ [c]) /\ zlen buf' = zlen buf.
Proof.
  intros Ho Hr Hc Hs. destruct (out_write buf r out c Ho Hr) as (buf' & E & Ho' & Hz). exists buf'.
  split; [|done]. cbn [clean_loop c_path c_buf c_result c_slash].
  change (aread (c :: p) 0) with (@Ok Z c). cbn [mbind outcome_bind].
  destruct (Z.eqb_spec c 0); [done|].
  assert (Hn : (if start then clean_name (mkClean (c :: p) buf r sl) else Ok (Some (mkClean (c :: p) buf r sl))) =
    Ok (Some (mkClean (c :: p) buf r sl))) by (destruct start; [by apply Hs|done]).
  rewrite Hn. cbn [mbind outcome_bind c_path c_buf c_result c_slash].
  change (aread (c :: p) 0) with (@Ok Z c). cbn [mbind outcome_bind]. destruct (Z.eqb_spec c 0); [done|].
  rewrite E. done.
Qed.

(** A run of characters that are not slashes. *)
Lemma clean_copy_run cs fuel p buf r sl out :
  out_is buf r out -> r + zlen cs <= zlen buf -> 47 ∉ cs -> 0 ∉ cs ->
  exists buf', clean_loop (length cs + fuel) false (mkClean (cs ++ p) buf r sl) =
      clean_loop fuel false (mkClean p buf' (r + zlen cs) sl) /\
    out_is buf' (r + zlen cs) (out ++ cs) /\ zlen buf' = zlen buf.
Proof.
  revert buf r out. induction cs as [|c cs IH]; intros buf r out Ho Hr Hs Hn.
  { exists buf. rewrite app_nil_r. change (zlen (@nil Z)) with 0. by rewrite Z.add_0_r. }
  apply not_elem_of_cons in Hs as [Hs1 Hs2], Hn as [Hn1 Hn2]. rewrite zlen_cons in *. pose proof (zlen_nonneg cs).
  destruct (clean_copy (length cs + fuel) false (cs ++ p) buf r sl out c) as (b1 & E1 & O1 & Z1);
    [done|lia|congruence|done|].
  destruct (IH b1 (r + 1) (out ++ [c]) O1) as (b2 & E2 & O2 & Z2); [lia|done|done|].
  exists b2. cbn [length Nat.add app]. rewrite E1. destruct (Z.eqb_spec c 47); [congruence|].
  rewrite E2. replace (r + (1 + zlen cs)) with (r + 1 + zlen cs) by lia.
  split_and!; [done| |congruence]. by rewrite <- app_assoc in O2.
Qed.

(** [memcmp] at a name. *)
Lemma at_path_spec path pat :
  zlen pat <= zlen path -> zlen pat < 2 ^ 31 -> at_path path pat = Ok (bool_decide (ztake (zlen pat) path = pat)).
Proof.
  intros Hl Hp. pose proof (zlen_nonneg pat). unfold at_path, memcmp.
  destruct (memcmp_loop_spec (Z.to_nat (zlen pat)) path pat 0) as (c & -> & _ & Hc); [unfold zlen in *; lia..|].
  cbn [mbind outcome_bind]. f_equal. unfold ztake in *. rewrite (take_ge pat) in Hc by (unfold zlen; lia).
  destruct (Z.eqb_spec c 0) as [E|E]; symmetry; [apply bool_decide_eq_true|apply bool_decide_eq_false]; tauto.
Qed.

Lemma at_path_no path pat :
  zlen pat < 2 ^ 31 -> zlen pat <= zlen path -> ztake (zlen pat) path <> pat -> at_path path pat = Ok false.
Proof. intros H1 H2 H3. rewrite at_path_spec by done. by rewrite bool_decide_false. Qed.

Lemma name_head c : name_ok c -> exists x c', c = x :: c' /\ x <> 47 /\ x <> 0 /\ (47 ∉ c') /\ (0 ∉ c').
Proof.
  intros [H1 H2 H3 _]. destruct c as [|x c']; [done|].
  apply not_elem_of_cons in H2 as [? ?], H3 as [? ?]. by exists x, c'.
Qed.

Definition ends (d : Z) : Prop := d = 47 \/ d = 0.

(** A name that is not special is left to the copying. *)
Lemma clean_name_plain c d tl buf r sl :
  name_ok c -> c <> DOTDOT -> ends d -> 2 <= zlen tl ->
  clean_name (mkClean (c ++ d :: tl) buf r sl) = Ok (Some (mkClean (c ++ d :: tl) buf r sl)).
Proof.
  intros Hc Hd He Ht. destruct (name_head c Hc) as (x & c' & -> & Hx & Hx0 & Hs & Hn).
  unfold clean_name. cbn [c_path c_buf c_result c_slash].
  change (aread ((x :: c') ++ d :: tl) 0) with (@Ok Z x). cbn [mbind outcome_bind].
  destruct (Z.eqb_spec x 47); [done|].
  assert (Hl : 3 <= zlen ((x :: c') ++ d :: tl)).
  { rewrite zlen_app, !zlen_cons. pose proof (zlen_nonneg c'). lia. }
  assert (H2 : forall e, ends e -> ztake 2 ((x :: c') ++ d :: tl) <> [46; e]).
  { intros e Hends. destruct c' as [|y c']; cbn.
    - intros [= ->]. by apply (nm_dot _ Hc).
    - intros [= -> ->]. destruct Hends as [->| ->]; [apply Hs|apply Hn]; by left. }
  assert (H3 : forall e, ends e -> ztake 3 ((x :: c') ++ d :: tl) <> [46; 46; e]).
  { intros e Hends. destruct c' as [|y [|z c']]; cbn.
    - intros [= ->]. destruct He as [->| ->]; done.
    - intros [= -> ->]. by apply Hd.
    - intros [= -> -> ->]. destruct Hends as [->| ->]; [apply Hs|apply Hn]; right; by left. }
  rewrite (at_path_no _ [46; 47]); [|done|change (zlen [46; 47]) with 2; lia|apply H2; by left].
  cbn [mbind outcome_bind].
  rewrite (at_path_no _ [46; 0]); [|done|change (zlen [46; 0]) with 2; lia|apply H2; by right].
  cbn [mbind outcome_bind].
  rewrite (at_path_no _ [46; 46; 47]); [|done|done|apply H3; by left]. cbn [mbind outcome_bind].
  by rewrite (at_path_no _ [46; 46; 0]); [|done|done|apply H3; by right].
Qed.

Lemma back_to_slash_spec k buf r a c :
  out_is buf r (a ++ 47 :: c) -> 47 ∉ c -> (length c < k)%nat ->
  back_to_slash k buf (zlen a + zlen c) = Ok (zlen a).
Proof.
  revert k r. induction c as [|x c IH] using rev_ind; intros k r Ho Hc Hk.
  - destruct k as [|k]; cbn [length] in Hk; [lia|]. cbn [back_to_slash].
    change (zlen (@nil Z)) with 0. rewrite Z.add_0_r. pose proof (zlen_nonneg a).
    destruct (Z.leb_spec 0 (zlen a)); [|lia]. cbn [negb]. by rewrite (out_read _ _ _ _ _ Ho).
  - rewrite length_app in Hk. cbn [length] in Hk. destruct k as [|k]; [lia|]. cbn [back_to_slash].
    assert (Hz : zlen a + zlen (c ++ [x]) = zlen (a ++ 47 :: c)).
    { zlia. }
    assert (Ho' : out_is buf r ((a ++ 47 :: c) ++ x :: [])) by (by rewrite <- app_assoc).
    rewrite Hz. pose proof (zlen_nonneg (a ++ 47 :: c)). destruct (Z.leb_spec 0 (zlen (a ++ 47 :: c))); [|lia].
    cbn [negb]. rewrite (out_read _ _ _ _ _ Ho'). cbn [mbind outcome_bind].
    assert (Hx : x <> 47). { intros ->. apply Hc, elem_of_app. right. by left. }
    destruct (Z.eqb_spec 47 x); [congruence|]. cbn [negb].
    replace (zlen (a ++ 47 :: c) - 1) with (zlen a + zlen c) by (rewrite zlen_app, zlen_cons; lia).
    apply (IH k (zlen (a ++ 47 :: c))).
    + by eapply out_back.
    + intros Hin. apply Hc, elem_of_app. by left.
    + lia.
Qed.

Lemma directory_snoc st c : directory (st ++ [c]) = directory st ++ c ++ [47].
Proof. unfold directory. rewrite fmap_app, concat_app. cbn. by rewrite app_nil_r. Qed.

(** A directory ends in a slash. *)
Lemma directory_slash st : exists a, directory st = a ++ [47].
Proof.
  destruct st as [|c st _] using rev_ind; [by exists []|]. rewrite directory_snoc, app_assoc. by eexists.
Qed.

Lemma removelast_snoc {A} (l : list A) x : removelast (l ++ [x]) = l.
Proof. apply removelast_last. Qed.

(** [..] below the directory [st]: where the pointer into the result stands. *)
Lemma clean_name_dotdot st d tl buf r :
  Forall name_ok st -> out_is buf r (directory st) -> ends d -> 1 <= zlen tl ->
  exists r' sl' out, clean_name (mkClean (DOTDOT ++ d :: tl) buf r false) =
      Ok (Some (mkClean (d :: tl) buf r' sl')) /\ out_is buf r' out /\
    (if d =? 47 then sl' = false /\ out ++ [47] = directory (removelast st)
     else out ++ (if sl' : bool then [47] else []) = directory (removelast st)).
Proof.
  intros Hst Ho Hd Ht. unfold clean_name. cbn [c_path c_buf c_result c_slash].
  change (aread (DOTDOT ++ d :: tl) 0) with (@Ok Z 46). cbn [mbind outcome_bind]. change (46 =? 47) with false.
  assert (Hl : 3 <= zlen (DOTDOT ++ d :: tl)).
  { rewrite zlen_app, zlen_cons. change (zlen DOTDOT) with 2. lia. }
  rewrite (at_path_no _ [46; 47]); [|done|change (zlen [46; 47]) with 2; lia|done]. cbn [mbind outcome_bind].
  rewrite (at_path_no _ [46; 0]); [|done|change (zlen [46; 0]) with 2; lia|done]. cbn [mbind outcome_bind].
  assert (Hp : (p1 ← at_path (DOTDOT ++ d :: tl) [46; 46; 47];
      if p1 : bool then Ok true else at_path (DOTDOT ++ d :: tl) [46; 46; 0]) = @Ok bool true).
  { rewrite !at_path_spec by (done || exact Hl).
    change (ztake (zlen [46; 46; 47]) (DOTDOT ++ d :: tl)) with [46; 46; d].
    change (ztake (zlen [46; 46; 0]) (DOTDOT ++ d :: tl)) with [46; 46; d]. by destruct Hd as [->| ->]. }
  destruct (at_path (DOTDOT ++ d :: tl) [46; 46; 47]) as [p1| | |]; cbn [mbind outcome_bind] in Hp |- *; try done.
  rewrite Hp.
  cbn [mbind outcome_bind negb]. change (zdrop 2 (DOTDOT ++ d :: tl)) with (d :: tl).
  change (aread (d :: tl) 0) with (@Ok Z d). cbn [mbind outcome_bind].
  destruct st as [|c st _] using rev_ind.
  - destruct Ho as [Hz Ho]. change (zlen (directory [])) with 1 in Hz. subst r. cbn [Z.ltb Z.compare Pos.compare Pos.compare_cont].
    destruct Hd as [->| ->]; cbn.
    + eexists _, _, []. split_and!; [reflexivity|split; [done|]; reflexivity|done|done].
    + eexists _, _, [47]. split_and!; [reflexivity|by split|done].
  - apply Forall_app in Hst as [Hst [Hc _]%Forall_cons]. rewrite removelast_snoc.
    rewrite directory_snoc in Ho. destruct (directory_slash st) as [a Ea]. rewrite Ea, <- app_assoc in Ho. cbn [app] in Ho.
    pose proof Ho as [Hz _]. rewrite zlen_app, zlen_cons, zlen_app in Hz. change (zlen [47]) with 1 in Hz.
    destruct (name_head c Hc) as (x & c' & Ec & _). pose proof (zlen_nonneg c'). pose proof (zlen_nonneg a).
    assert (1 <= zlen c) by (rewrite Ec, zlen_cons; lia).
    destruct (Z.ltb_spec r 2); [lia|].
    assert (Ho' : out_is buf (zlen (a ++ 47 :: c)) (a ++ 47 :: c)).
    { eapply (out_back _ r _ [47]). rewrite <- app_assoc. done. }
    replace (r - 2) with (zlen a + zlen c) by lia.
    assert (Hlen : zlen buf >= zlen c).
    { pose proof Ho' as [_ Hq]. assert (Hb : zlen (a ++ 47 :: c) <= zlen buf).
      { rewrite <- Hq at 1. unfold ztake, zlen. rewrite length_take. lia. }
      rewrite zlen_app, zlen_cons in Hb. lia. }
    rewrite (back_to_slash_spec _ _ _ a c Ho') by (apply Hc || (unfold zlen in Hlen; lia)).
    cbn [mbind outcome_bind orb]. eexists _, _, a. split_and!; [reflexivity|by eapply out_back|].
    destruct Hd as [->| ->]; cbn [Z.eqb Pos.eqb negb]; [by rewrite Ea|by rewrite Ea].
Qed.

(** A plain name is copied. *)
Lemma clean_plain c fuel d tl buf r out :
  name_ok c -> c <> DOTDOT -> ends d -> 2 <= zlen tl -> out_is buf r out -> r + zlen c <= zlen buf ->
  exists buf', clean_loop (length c + fuel) true (mkClean (c ++ d :: tl) buf r false) =
      clean_loop fuel false (mkClean (d :: tl) buf' (r + zlen c) false) /\
    out_is buf' (r + zlen c) (out ++ c) /\ zlen buf' = zlen buf.
Proof.
  intros Hc Hd He Ht Ho Hr. destruct (name_head c Hc) as (x & c' & Ec & Hx & Hx0 & Hs & Hn).
  pose proof (clean_name_plain c d tl buf r false Hc Hd He Ht) as Hname. subst c. rewrite zlen_cons in *.
  pose proof (zlen_nonneg c').
  destruct (clean_copy (length c' + fuel) true (c' ++ d :: tl) buf r false out x) as (b1 & E1 & O1 & Z1);
    [done|lia|done|done|].
  destruct (clean_copy_run c' fuel (d :: tl) b1 (r + 1) false (out ++ [x]) O1) as (b2 & E2 & O2 & Z2); [lia|done|done|].
  exists b2. cbn [length Nat.add app]. rewrite E1. destruct (Z.eqb_spec x 47); [done|]. rewrite E2.
  replace (r + (1 + zlen c')) with (r + 1 + zlen c') by lia. split_and!; [done| |congruence].
  by rewrite <- app_assoc in O2.
Qed.

Lemma zlen_removelast_directory st : zlen (directory (removelast st)) <= zlen (directory st).
Proof.
  destruct st as [|c st _] using rev_ind; [done|]. rewrite removelast_snoc, directory_snoc, zlen_app.
  pose proof (zlen_nonneg (c ++ [47])). lia.
Qed.

Lemma enter_ok st c : Forall name_ok st -> name_ok c -> Forall name_ok (enter st c).
Proof.
  intros Hst Hc. unfold enter. case_bool_decide.
  - destruct st as [|x st _] using rev_ind; [done|]. rewrite removelast_snoc. by apply Forall_app in Hst as [? _].
  - apply Forall_app. split; [done|]. by apply Forall_singleton.
Qed.

(** [..] followed by more. *)
Lemma clean_up fuel st tl buf :
  Forall name_ok st -> out_is buf (zlen (directory st)) (directory st) -> 1 <= zlen tl ->
  zlen (directory st) < zlen buf ->
  exists buf', clean_loop (S fuel) true (mkClean (DOTDOT ++ 47 :: tl) buf (zlen (directory st)) false) =
      clean_loop fuel true (mkClean tl buf' (zlen (directory (removelast st))) false) /\
    out_is buf' (zlen (directory (removelast st))) (directory (removelast st)) /\ zlen buf' = zlen buf.
Proof.
  intros Hst Ho Ht Hb.
  destruct (clean_name_dotdot st 47 tl buf _ Hst Ho) as (r' & sl' & out & E & O & Eq); [by left|done|].
  cbn [Z.eqb Pos.eqb] in Eq. destruct Eq as [-> Eq]. pose proof (zlen_removelast_directory st) as Hle.
  rewrite <- Eq, zlen_app in Hle. change (zlen [47]) with 1 in Hle.
  destruct (out_write buf r' out 47 O) as (b & Ew & Ow & Zw); [destruct O; lia|].
  exists b. cbn [clean_loop c_path]. change (aread (DOTDOT ++ 47 :: tl) 0) with (@Ok Z 46). cbn [mbind outcome_bind].
  change (46 =? 0) with false. cbn iota. rewrite E. cbn [mbind outcome_bind c_path c_buf c_result c_slash].
  change (aread (47 :: tl) 0) with (@Ok Z 47). cbn [mbind outcome_bind]. change (47 =? 0) with false. cbn iota.
  rewrite Ew. cbn [mbind outcome_bind]. rewrite Eq in Ow. destruct O as [Hz _].
  assert (Hr : r' + 1 = zlen (directory (removelast st))).
  { rewrite <- Eq, zlen_app. change (zlen [47]) with 1. lia. }
  rewrite <- Hr. done.
Qed.

Lemma slashed_cons c cs : cs <> [] -> slashed (c :: cs) = c ++ 47 :: slashed cs.
Proof. by destruct cs. Qed.

Lemma slashed_some cs : cs <> [] -> Forall name_ok cs -> 1 <= zlen (slashed cs).
Proof.
  intros Hne Hok. destruct cs as [|c cs]; [done|]. apply Forall_cons in Hok as [Hc _].
  destruct (name_head c Hc) as (x & c' & -> & _). pose proof (zlen_nonneg c').
  cbn [slashed]. destruct cs; rewrite ?zlen_app, zlen_cons; [lia|]. pose proof (zlen_nonneg (47 :: slashed (l :: cs))). lia.
Qed.

Lemma clean_names cs fuel st buf tl :
  cs <> [] -> Forall name_ok cs -> Forall name_ok st -> 2 <= zlen tl ->
  out_is buf (zlen (directory st)) (directory st) ->
  zlen (directory st) + zlen (slashed cs) + 1 < zlen buf -> (length (slashed cs) < fuel)%nat ->
  exists buf' r sl out,
    clean_loop fuel true (mkClean (slashed cs ++ 0 :: tl) buf (zlen (directory st)) false) =
      Ok (Some (mkClean (0 :: tl) buf' r sl)) /\
    out_is buf' r out /\ zlen buf' = zlen buf /\ out ++ (if sl : bool then [47] else []) = canonical st cs /\
    r + 1 < zlen buf.
Proof.
  revert fuel st buf. induction cs as [|c cs IH]; intros fuel st buf Hne Hcs Hst Ht Ho Hb Hf; [done|].
  apply Forall_cons in Hcs as [Hc Hcs]. destruct cs as [|c2 cs].
  - cbn [slashed canonical] in *. case_bool_decide as Ed.
    + subst c. destruct fuel as [|fuel]; [lia|].
      destruct (clean_name_dotdot st 0 tl buf _ Hst Ho) as (r' & sl' & out & E & O & Eq); [by right|lia|].
      cbn [Z.eqb] in Eq. exists buf, r', sl', out. cbn [clean_loop c_path].
      change (aread (DOTDOT ++ 0 :: tl) 0) with (@Ok Z 46). cbn [mbind outcome_bind].
      change (46 =? 0) with false. cbn iota. rewrite E. cbn [mbind outcome_bind c_path].
      split_and!; [done|done|done|done|].
      pose proof (zlen_removelast_directory st) as Hle. rewrite <- Eq, zlen_app in Hle. destruct O as [Hz _].
      pose proof (zlen_nonneg (if sl' then [47] else [])). change (zlen DOTDOT) with 2 in Hb. lia.
    + replace fuel with (length c + (fuel - length c))%nat by lia.
      destruct (clean_plain c (fuel - length c) 0 tl buf (zlen (directory st)) (directory st)) as (b & E & O & Hzb);
        [done|done|by right|done|done|lia|].
      rewrite E. destruct (fuel - length c)%nat as [|f] eqn:Ef; [lia|].
      exists b, (zlen (directory st) + zlen c), false, (directory st ++ c). cbn [clean_loop c_path].
      change (aread (0 :: tl) 0) with (@Ok Z 0). cbn [mbind outcome_bind]. change (0 =? 0) with true. cbn iota.
      split_and!; [done|done|done|by rewrite app_nil_r|lia].
  - rewrite slashed_cons in * by done. change (canonical st (c :: c2 :: cs)) with (canonical (enter st c) (c2 :: cs)).
    rewrite zlen_app, zlen_cons in Hb. rewrite length_app in Hf. cbn [length] in Hf.
    pose proof (slashed_some (c2 :: cs) ltac:(done) Hcs) as Hsl. pose proof (zlen_nonneg tl).
    assert (Htl : 3 <= zlen (slashed (c2 :: cs) ++ 0 :: tl)) by (rewrite zlen_app, zlen_cons; lia).
    rewrite <- app_assoc. cbn [app]. set (rest := slashed (c2 :: cs)) in *.
    destruct (decide (c = DOTDOT)) as [->|Hd].
    + destruct fuel as [|fuel]; [lia|]. change (zlen DOTDOT) with 2 in Hb.
      destruct (clean_up fuel st (rest ++ 0 :: tl) buf Hst Ho) as (b & E & O & Hzb); [lia|lia|].
      assert (He : enter st DOTDOT = removelast st) by done. rewrite E, He.
      pose proof (zlen_removelast_directory st).
      assert (Hst' : Forall name_ok (removelast st)) by (rewrite <- He; by apply enter_ok).
      destruct (IH fuel (removelast st) b) as (b' & r & sl & out & E' & O' & Z' & Q & R); [done|done|done|done|done|lia| |].
      { change (length DOTDOT) with 2%nat in Hf. lia. }
      exists b', r, sl, out. split_and!; [done|done|congruence|done|lia].
    + replace fuel with (length c + S (fuel - length c - 1))%nat by lia.
      destruct (clean_plain c (S (fuel - length c - 1)) 47 (rest ++ 0 :: tl) buf (zlen (directory st)) (directory st))
        as (b & E & O & Hzb); [done|done|by left|lia|done|lia|].
      rewrite E. destruct (clean_copy (fuel - length c - 1) false (rest ++ 0 :: tl) b (zlen (directory st) + zlen c) false
        (directory st ++ c) 47 O) as (b2 & E2 & O2 & Z2); [lia|done|done|].
      rewrite E2. change (47 =? 47) with true.
      assert (He : enter st c = st ++ [c]) by (unfold enter; by rewrite bool_decide_false). rewrite He.
      assert (Hdir : directory (st ++ [c]) = (directory st ++ c) ++ [47]) by (by rewrite directory_snoc, app_assoc).
      assert (Hz : zlen (directory st) + zlen c + 1 = zlen (directory (st ++ [c]))).
      { rewrite Hdir, !zlen_app. change (zlen [47]) with 1. lia. }
      rewrite Hz in *. rewrite <- Hdir in O2.
      destruct (IH (fuel - length c - 1)%nat (st ++ [c]) b2) as (b' & r & sl & out & E' & O' & Z' & Q & R);
        [done|done|rewrite <- He; by apply enter_ok|done|done|lia|lia|].
      exists b', r, sl, out. split_and!; [done|done|congruence|done|lia].
Qed.

Lemma directory_nul st : Forall name_ok st -> Forall (fun c => c <> 0) (directory st).
Proof.
  intros Hst. constructor; [done|]. apply Forall_concat, Forall_fmap. eapply Forall_impl; [exact Hst|].
  intros c Hc. apply Forall_app. split; [|by repeat constructor].
  apply Forall_forall. intros x Hx ->. by apply (nm_nul _ Hc).
Qed.

Lemma canonical_nul st cs :
  Forall name_ok st -> Forall name_ok cs -> Forall (fun c => c <> 0) (canonical st cs).
Proof.
  revert st. induction cs as [|c cs IH]; intros st Hst Hcs; [by apply directory_nul|].
  apply Forall_cons in Hcs as [Hc Hcs]. destruct cs as [|c2 cs].
  - cbn [canonical]. case_bool_decide as E.
    + apply directory_nul. pose proof (enter_ok st c Hst Hc) as He. unfold enter in He. by rewrite bool_decide_true in He.
    + apply Forall_app. split; [by apply directory_nul|].
      apply Forall_forall. intros x Hx ->. by apply (nm_nul _ Hc).
  - apply (IH (enter st c)); [by apply enter_ok|done].
Qed.

(** C30: canonical paths: for an absolute path of non-empty names other than [.],
    [vfs_clean_path] writes the path in which every [..] has removed the name in
    front of it and [..] of the root is the root, without leaving its buffer. *)
Theorem clean_path_canonical cs tl result :
  cs <> [] -> Forall name_ok cs -> 2 <= zlen tl -> zlen (slashed cs) + 2 < zlen result ->
  exists buf, vfs_clean_path (47 :: slashed cs ++ 0 :: tl) result = Ok (Some buf) /\
    cstr buf (canonical [] cs).
Proof.
  intros Hne Hcs Ht Hr. pose proof (slashed_some cs Hne Hcs) as Hs. pose proof (zlen_nonneg tl).
  assert (Hfirst : exists x p, slashed cs ++ 0 :: tl = x :: p /\ x <> 47).
  { destruct cs as [|c cs]; [done|]. apply Forall_cons in Hcs as [Hc _].
    destruct (name_head c Hc) as (x & c' & -> & Hx & _). cbn [slashed]. destruct cs; eexists x, _; by split. }
  destruct Hfirst as (x & p & Ep & Hx). unfold vfs_clean_path. set (path := slashed cs ++ 0 :: tl) in *.
  change (aread (47 :: path) 0) with (@Ok Z 47). cbn [mbind outcome_bind]. change (negb (47 =? 47)) with false. cbn iota.
  assert (Hskip : skip_slashes (47 :: path) = Ok (47 :: path)).
  { cbn [skip_slashes]. rewrite Ep. change (aread (x :: p) 0) with (@Ok Z x). cbn [mbind outcome_bind].
    by destruct (Z.eqb_spec x 47). }
  rewrite Hskip. cbn [mbind outcome_bind].
  destruct (clean_copy (length (47 :: path)) false path result 0 false [] 47) as (b1 & E1 & O1 & Z1);
    [by split|lia|done|done|].
  rewrite E1. change (47 =? 47) with true.
  assert (Hd : zlen (directory []) = 1) by done.
  destruct (clean_names cs (length (47 :: path)) [] b1 tl) as (b2 & r & sl & out & E2 & O2 & Z2 & Q & R); try done.
  { rewrite Hd. lia. }
  { unfold path. cbn [length]. rewrite length_app. cbn [length]. lia. }
  rewrite Hd in E2. fold path in E2. change (0 + 1) with 1. rewrite E2. cbn [mbind outcome_bind c_slash c_buf c_result].
  assert (Hw : exists b3 r3, (if sl : bool then b ← awrite b2 r 47; Ok (b, r + 1) else Ok (b2, r)) = Ok (b3, r3) /\
    out_is b3 r3 (canonical [] cs) /\ r3 < zlen b3).
  { destruct sl.
    - destruct (out_write b2 r out 47 O2) as (b3 & E3 & O3 & Z3); [lia|]. rewrite E3. cbn [mbind outcome_bind].
      exists b3, (r + 1). rewrite <- Q. split_and!; [done|done|lia].
    - exists b2, r. rewrite <- Q, app_nil_r. split_and!; [done|done|lia]. }
  destruct Hw as (b3 & r3 & -> & O3 & Hlt). cbn [mbind outcome_bind].
  destruct (out_write b3 r3 _ 0 O3 Hlt) as (b4 & -> & O4 & Z4). cbn [mbind outcome_bind]. exists b4. split; [done|].
  destruct O4 as [Hz4 Ht4]. exists (zdrop (r3 + 1) b4). split.
  - rewrite <- (ztake_zdrop (r3 + 1) b4) at 1. by rewrite Ht4, <- app_assoc.
  - apply canonical_nul; [constructor|done].
Qed.

Lemma clean_path_canonical_witness :
  exists buf, vfs_clean_path (47 :: slashed [[97]; [98]; DOTDOT; [99]] ++ [0; 0; 0]) (replicate 16 0) = Ok (Some buf) /\
    cstr buf (canonical [] [[97]; [98]; DOTDOT; [99]]).
Proof.
  apply clean_path_canonical.
  - done.
  - repeat (constructor; [split; [done|by rewrite list_elem_of_In; intros Hin; repeat destruct Hin as [?|Hin]|by rewrite list_elem_of_In; intros Hin; repeat destruct Hin as [?|Hin]|done]|]).
    constructor.
  - by vm_compute.
  - by vm_compute.
Defined.

(** ** The root of a process *)

(** A process whose root is [/jail/] resolves [/../etc/passwd] to
    [/jail/../etc/passwd]: the slash of the root and that of the path make a
    double slash, and the name behind a double slash is copied unchecked.  The
    comparison with the root that follows accepts the result. *)
Lemma resolve_path_escapes :
  exists rest, vfs_resolve_path
      (* /jail/ *) [47; 106; 97; 105; 108; 47; 0; 0] (* / *) [47; 0]
      (* /../etc/passwd *) [47; 46; 46; 47; 101; 116; 99; 47; 112; 97; 115; 115; 119; 100; 0]
      (replicate 256 0) =
    Ok ([47; 106; 97; 105; 108; 47; 46; 46; 47; 101; 116; 99; 47; 112; 97; 115; 115; 119; 100] ++ rest).
Proof. eexists. vm_compute. reflexivity. Qed.

(** ** The mount of a path *)

Lemma isequal_n_whole m1 m2 t1 t2 :
  cstr m1 t1 -> cstr m2 t2 -> isequal_n m1 m2 (length t1) = Ok (bool_decide (t1 `prefix_of` t2)).
Proof.
  intros H1. revert m2 t2. destruct H1 as (r1 & -> & Hf1).
  induction t1 as [|a t1 IH]; intros m2 t2 H2; cbn.
  { by rewrite bool_decide_eq_true_2 by apply prefix_nil. }
  apply Forall_cons in Hf1 as [Ha Hf1]. destruct (Z.eqb_spec a 0); [done|].
  apply cstr_inv in H2 as [(r & -> & ->)|(b & m' & t' & -> & -> & Hb & H2)].
  - by rewrite (proj2 (Z.eqb_neq a 0)) by done.
  - destruct (Z.eqb_spec a b) as [->|Hne]; cbn [negb].
    + rewrite (IH Hf1 m' t') by done. f_equal. apply bool_decide_ext.
      split; [apply prefix_cons|]. by intros ?%prefix_cons_inv_2.
    + symmetry. f_equal. apply bool_decide_eq_false_2. by intros ?%prefix_cons_inv_1.
Qed.

(** The mounts and the paths they hold. *)
Definition mounted (m : vfs_mounts) (t : list Z) : Prop := cstr (m_path m) t.

(** [m] is at [t], [t] is in front of [p], and no mount of [ts] is a longer prefix. *)
Definition best_mount (ms : list vfs_mounts) (ts : list (list Z)) (p : list Z) (len : Z) (b : option vfs_mounts) : Prop :=
  match b with
  | None => len = 0
  | Some m => exists i t, ms !! i = Some m /\ ts !! i = Some t /\ t `prefix_of` p /\ zlen t = len /\ 0 < len
  end /\
  Forall (fun t => t `prefix_of` p -> zlen t <= len) ts.

Lemma mount_loop_spec ms ts path p ms0 ts0 len b :
  cstr path p -> Forall2 mounted ms ts -> length ms0 = length ts0 -> best_mount ms0 ts0 p len b ->
  exists len' b', mount_loop ms path len b = Ok (len', b') /\ best_mount (ms0 ++ ms) (ts0 ++ ts) p len' b'.
Proof.
  intros Hp. revert ts ms0 ts0 len b. induction ms as [|m ms IH]; intros ts ms0 ts0 len b HF Hl Hb.
  { apply Forall2_nil_inv_l in HF as ->. exists len, b. by rewrite !app_nil_r. }
  destruct ts as [|t ts]; [by apply Forall2_cons_nil_inv in HF|]. apply Forall2_cons in HF as [Hm HF].
  cbn [mount_loop]. rewrite (strlen_spec _ _ Hm). cbn [mbind outcome_bind].
  rewrite (cons_middle m), (cons_middle t), !app_assoc.
  assert (Hl' : length (ms0 ++ [m]) = length (ts0 ++ [t])) by (rewrite !length_app; cbn; lia).
  assert (Hkeep : (t `prefix_of` p -> zlen t <= len) -> best_mount (ms0 ++ [m]) (ts0 ++ [t]) p len b).
  { destruct Hb as [Hb1 Hb2]. intros Ht. split; [|apply Forall_app; split; [done|by constructor]].
    destruct b as [m'|]; [|done]. destruct Hb1 as (i & t' & ? & ? & ? & ? & ?). exists i, t'.
    split_and!; [by apply lookup_app_l_Some|by apply lookup_app_l_Some|done..]. }
  destruct (Z.leb_spec (zlen t) len) as [Hle|Hgt]; [by apply IH, Hkeep|].
  replace (Z.to_nat (zlen t)) with (length t) by (unfold zlen; lia). rewrite (isequal_n_whole _ _ _ _ Hm Hp).
  cbn [mbind outcome_bind]. case_bool_decide as Hpre; [|by apply IH, Hkeep].
  apply IH; [done|done|]. destruct Hb as [Hb1 Hb2]. split.
  - exists (length ms0), t. rewrite list_lookup_middle by done. rewrite list_lookup_middle by done.
    split_and!; try done. destruct b; [destruct Hb1 as (? & ? & _ & _ & _ & _ & ?); lia|lia].
  - apply Forall_app. split; [|by constructor]. eapply Forall_impl; [exact Hb2|]. intros t' H1 H2. specialize (H1 H2). lia.
Qed.

(** The mount of a path is the one with the longest path in front of it, and
    the file is what follows, except that below [/] it keeps its slash; a path no
    mount is in front of has none. *)
Theorem get_mount_longest mounts ts path p :
  Forall2 mounted mounts ts -> cstr path p ->
  exists m len, vfs_get_mount mounts path = Ok (m, if len =? 1 then path else zdrop len path) /\
    best_mount mounts ts p len m.
Proof.
  intros HF Hp. destruct (mount_loop_spec mounts ts path p [] [] 0 None) as (len & b & E & Hb); [done|done|done|by split|].
  exists b, len. unfold vfs_get_mount. rewrite E. cbn [mbind outcome_bind]. split; [by destruct (len =? 1)|done].
Qed.

Lemma get_mount_longest_witness :
  exists m len, vfs_get_mount [mkMount [47; 0] 1; mkMount [47; 100; 101; 118; 0] 2]
      [47; 100; 101; 118; 47; 97; 0] =
      Ok (m, if len =? 1 then [47; 100; 101; 118; 47; 97; 0] else zdrop len [47; 100; 101; 118; 47; 97; 0]) /\
    best_mount [mkMount [47; 0] 1; mkMount [47; 100; 101; 118; 0] 2] [[47]; [47; 100; 101; 118]]
      [47; 100; 101; 118; 47; 97] len m.
Proof.
  apply get_mount_longest.
  - repeat constructor; exists []; (split; [reflexivity|repeat constructor; done]).
  - exists []. split; [reflexivity|repeat constructor; done].
Defined.

(** The boundary of a name is not looked at: [/devices] belongs to the mount [/dev]. *)
Lemma mount_ignores_boundary :
  vfs_get_mount [mkMount [47; 0] 1; mkMount [47; 100; 101; 118; 0] 2] [47; 100; 101; 118; 105; 99; 101; 115; 0] =
  Ok (Some (mkMount [47; 100; 101; 118; 0] 2), [105; 99; 101; 115; 0]).
Proof. reflexivity. Qed.
