(* ===== verification/Process.v ===== *)
(** kernel/sched/scheduler.h and kernel/fs/vfs.h: processes, open files and the
    state of the kernel the virtual file system, poll, the event queue and the
    scheduler work on.

    Objects are named by numbers: [files] holds the [vfs_fd_t] objects and [procs]
    the [process_t] objects that are allocated, so that a pointer to a freed object
    designates nothing.  The table of descriptors of a process, the inodes and the
    address spaces are used through their interfaces. *)

From stdpp Require Import base numbers list gmap.
From Stdlib Require Import ZArith Lia.
From S2P Require Import Prelude Alloc StateM KList SlotTable.

Open Scope Z_scope.

(** ** Open files *)

(** [struct vfs_fd]; [inode] names the inode. *)
Record vfs_fd : Type := mkFd {
  offset : Z;
  flags : Z;
  mode : Z;
  is_tty : Z;
  reference_count : Z;
  inode : Z
}.

Definition set_offset (o : Z) (f : vfs_fd) : vfs_fd :=
  mkFd o (flags f) (mode f) (is_tty f) (reference_count f) (inode f).
Definition set_refs (n : Z) (f : vfs_fd) : vfs_fd :=
  mkFd (offset f) (flags f) (mode f) (is_tty f) n (inode f).

(** What a file system promises: the function pointers and fields of an inode that
    vfs.c, poll.c, queue.c and scheduler.c use.  [None] is a NULL pointer.  A read
    gives the return value and the bytes stored in the buffer, [i_stat] the mode of
    the file; [i_vm_object] names an object that can be mapped, [vm_size],
    [vm_pages] and [vm_refs] are its fields. *)
Class Inodes (F : Type) : Type := {
  i_read : F -> Z -> option (Z -> Z -> vfs_fd -> SM F (Z * list Z));
  i_write : F -> Z -> option (list Z -> Z -> vfs_fd -> SM F Z);
  i_close : F -> Z -> option (vfs_fd -> SM F unit);
  i_truncate : F -> Z -> option (vfs_fd -> Z -> SM F Z);
  i_has_data : F -> Z -> option Z;
  i_can_write : F -> Z -> option Z;
  i_is_open_op : F -> Z -> option Z;
  i_is_open : F -> Z -> Z;
  i_type : F -> Z -> Z;
  i_object_type : F -> Z -> Z;
  i_file_size : F -> Z -> Z;
  i_vm_object : F -> Z -> option (Z -> Z -> vfs_fd -> SM F (option Z));
  vm_size : F -> Z -> Z;
  vm_pages : F -> Z -> list Z;
  vm_refs : F -> Z -> Z;
  set_vm_refs : Z -> Z -> F -> F;
  i_stat : F -> Z -> option (vfs_fd -> SM F Z);
  i_open : F -> Z -> option (list Z -> SM F (option Z));
  i_create_file : F -> Z -> option (list Z -> Z -> SM F Z);
  i_create_directory : F -> Z -> option (list Z -> Z -> SM F Z);
  i_unlink : F -> Z -> option (list Z -> SM F Z);
  i_free : Z -> F -> F
}.

(** What arch/i386/mmu.c promises the scheduler.  A directory is named by its
    address; [None] and [false] are failures for lack of memory. *)
Class AddressSpaces (V : Type) : Type := {
  clone_directory : Z -> SM V (option Z);
  free_pagedirectory : Z -> SM V unit;
  get_active_pagedirectory : V -> Z;
  set_active_directory : Z -> V -> V;
  allocate_region : Z -> Z -> SM V bool;
  map_physical : Z -> Z -> SM V bool;
  remove_mapping : Z -> Z -> SM V unit
}.

(** [i_live f i]: the inode is allocated.  Closing a file returns and frees no
    inode; freeing an inode leaves the others alone. *)
Class InodeLaws (F : Type) `{Inodes F} : Type := {
  i_live : F -> Z -> Prop;
  i_close_total : forall f d close, i_live f (inode d) -> i_close f (inode d) = Some close ->
    exists f', close d f = Ok (tt, f') /\ forall j, i_live f j -> i_live f' j;
  i_free_others : forall f i j, i_live f j -> j <> i -> i_live (i_free i f) j
}.

Class SpaceLaws (V : Type) `{AddressSpaces V} : Prop := {
  clone_directory_total : forall d v, exists r v', clone_directory d v = Ok (r, v');
  free_pagedirectory_total : forall d v, exists v', free_pagedirectory d v = Ok (tt, v')
}.

(** ** Processes *)

(** [MemoryMap]; the object is named by a number. *)
Record MemoryMap : Type := mkMap {
  u_address : Z;
  map_length : Z;
  map_fd : Z;
  underlying_object : option Z
}.

(** What a process waits for. *)
Record waiting : Type := mkWait {
  read_list : KList.klist;
  write_list : KList.klist;
  disconnect_list : KList.klist;
  halts : list Z;
  is_interrupted : bool;
  is_halted_flag : bool;
  sleep_until : Z
}.

(** Handlers (0 is NULL), and the two stacks of saved contexts and of pending
    signals, the top first. *)
Record signals : Type := mkSignals {
  signal_handlers : list Z;
  restore_context_stack : list (list Z);
  signal_stack : list Z
}.

Record user_memory : Type := mkUser {
  cr3 : Z;
  data_segment_end : Z;
  maps : list (option MemoryMap)
}.

(** The links between processes. *)
Record links : Type := mkLinks {
  next : option Z;
  parent : option Z;
  child : option Z;
  child_rc : Z;
  dead : bool;
  proc_refs : Z
}.

Record process (T : Type) : Type := mkProcess {
  pid : Z;
  program_name : list Z;
  root_path : list Z;
  current_working_directory : list Z;
  file_descriptors : T;
  p_wait : waiting;
  p_signals : signals;
  p_memory : user_memory;
  p_links : links
}.
Arguments mkProcess {T} _ _ _ _ _ _ _ _ _.
Arguments pid {T} _.
Arguments program_name {T} _.
Arguments root_path {T} _.
Arguments current_working_directory {T} _.
Arguments file_descriptors {T} _.
Arguments p_wait {T} _.
Arguments p_signals {T} _.
Arguments p_memory {T} _.
Arguments p_links {T} _.

(** ** The state *)

(** [F]: inodes; [H]: the heap; [T]: descriptor tables; [V]: address spaces. *)
Record kernel (F H T V : Type) : Type := mkKernel {
  files : gmap Z vfs_fd;
  procs : gmap Z (process T);
  current_task : Z;
  ready_queue : option Z;
  next_pid : Z;
  uptime : Z;
  k_fs : F;
  k_heap : H;
  k_memory : V
}.
Arguments mkKernel {F H T V} _ _ _ _ _ _ _ _ _.
Arguments files {F H T V} _.
Arguments procs {F H T V} _.
Arguments current_task {F H T V} _.
Arguments ready_queue {F H T V} _.
Arguments next_pid {F H T V} _.
Arguments uptime {F H T V} _.
Arguments k_fs {F H T V} _.
Arguments k_heap {F H T V} _.
Arguments k_memory {F H T V} _.

Section Updates.
Context {T : Type}.

Definition set_table (t : T) (p : process T) : process T :=
  mkProcess (pid p) (program_name p) (root_path p) (current_working_directory p) t (p_wait p) (p_signals p)
    (p_memory p) (p_links p).
Definition set_wait (w : waiting) (p : process T) : process T :=
  mkProcess (pid p) (program_name p) (root_path p) (current_working_directory p) (file_descriptors p) w
    (p_signals p) (p_memory p) (p_links p).
Definition set_signals (s : signals) (p : process T) : process T :=
  mkProcess (pid p) (program_name p) (root_path p) (current_working_directory p) (file_descriptors p) (p_wait p)
    s (p_memory p) (p_links p).
Definition set_memory (m : user_memory) (p : process T) : process T :=
  mkProcess (pid p) (program_name p) (root_path p) (current_working_directory p) (file_descriptors p) (p_wait p)
    (p_signals p) m (p_links p).
Definition set_links (l : links) (p : process T) : process T :=
  mkProcess (pid p) (program_name p) (root_path p) (current_working_directory p) (file_descriptors p) (p_wait p)
    (p_signals p) (p_memory p) l.
Definition set_cwd (c : list Z) (p : process T) : process T :=
  mkProcess (pid p) (program_name p) (root_path p) c (file_descriptors p) (p_wait p) (p_signals p) (p_memory p)
    (p_links p).
Definition set_root (r : list Z) (p : process T) : process T :=
  mkProcess (pid p) (program_name p) r (current_working_directory p) (file_descriptors p) (p_wait p) (p_signals p)
    (p_memory p) (p_links p).

Definition set_next (n : option Z) (l : links) : links :=
  mkLinks n (parent l) (child l) (child_rc l) (dead l) (proc_refs l).
Definition set_proc_refs (n : Z) (l : links) : links :=
  mkLinks (next l) (parent l) (child l) (child_rc l) (dead l) n.

Definition set_lists (r w d : KList.klist) (x : waiting) : waiting :=
  mkWait r w d (halts x) (is_interrupted x) (is_halted_flag x) (sleep_until x).
Definition set_interrupted (i : bool) (x : waiting) : waiting :=
  mkWait (read_list x) (write_list x) (disconnect_list x) (halts x) i (is_halted_flag x) (sleep_until x).
Definition set_halted (b : bool) (x : waiting) : waiting :=
  mkWait (read_list x) (write_list x) (disconnect_list x) (halts x) (is_interrupted x) b (sleep_until x).
Definition set_halts (l : list Z) (x : waiting) : waiting :=
  mkWait (read_list x) (write_list x) (disconnect_list x) l (is_interrupted x) (is_halted_flag x) (sleep_until x).
End Updates.

Section State.
Context {F H T V : Type} `{Inodes F, Allocator H, SlotTable T H}.
Abbreviation state := (kernel F H T V).
Abbreviation K := (SM state).

Definition set_files (m : gmap Z vfs_fd) (k : state) : state :=
  mkKernel m (procs k) (current_task k) (ready_queue k) (next_pid k) (uptime k) (k_fs k) (k_heap k) (k_memory k).
Definition set_procs (m : gmap Z (process T)) (k : state) : state :=
  mkKernel (files k) m (current_task k) (ready_queue k) (next_pid k) (uptime k) (k_fs k) (k_heap k) (k_memory k).
Definition set_current (c : Z) (k : state) : state :=
  mkKernel (files k) (procs k) c (ready_queue k) (next_pid k) (uptime k) (k_fs k) (k_heap k) (k_memory k).
Definition set_ready (r : option Z) (k : state) : state :=
  mkKernel (files k) (procs k) (current_task k) r (next_pid k) (uptime k) (k_fs k) (k_heap k) (k_memory k).
Definition set_next_pid (n : Z) (k : state) : state :=
  mkKernel (files k) (procs k) (current_task k) (ready_queue k) n (uptime k) (k_fs k) (k_heap k) (k_memory k).
Definition set_fs (f : F) (k : state) : state :=
  mkKernel (files k) (procs k) (current_task k) (ready_queue k) (next_pid k) (uptime k) f (k_heap k) (k_memory k).
Definition set_heap (h : H) (k : state) : state :=
  mkKernel (files k) (procs k) (current_task k) (ready_queue k) (next_pid k) (uptime k) (k_fs k) h (k_memory k).
Definition set_space (v : V) (k : state) : state :=
  mkKernel (files k) (procs k) (current_task k) (ready_queue k) (next_pid k) (uptime k) (k_fs k) (k_heap k) v.

(** Reading and writing the objects behind pointers. *)
Definition proc_at (p : Z) : K (process T) := fun k => x ← deref (procs k !! p); Ok (x, k).
Definition put_proc (p : Z) (x : process T) : K unit := modify (fun k => set_procs (<[p := x]> (procs k)) k).
Definition on_proc (p : Z) (f : process T -> process T) : K unit := x ← proc_at p; put_proc p (f x).
Definition fd_at (a : Z) : K vfs_fd := fun k => x ← deref (files k !! a); Ok (x, k).
Definition put_fd (a : Z) (x : vfs_fd) : K unit := modify (fun k => set_files (<[a := x]> (files k)) k).

(** A call of the file system, and one of the address spaces. *)
Definition in_fs {A} (m : SM F A) : K A := fun k => '(a, f) ← m (k_fs k); Ok (a, set_fs f k).
Definition in_space {A} (m : SM V A) : K A := fun k => '(a, v) ← m (k_memory k); Ok (a, set_space v k).

(** [p ? p : current_task] *)
Definition or_current (p : option Z) : K Z :=
  match p with Some p => ret p | None => gets current_task end.

Definition get_vfs_fd (fd : Z) (p : option Z) : K (option Z) :=
  if fd <? 0 then ret None else
  p ← or_current p;
  x ← proc_at p;
  '(r, _) ← lift (slot_get (file_descriptors x) fd);
  ret r.

(** [relist_add] on the descriptors of a process. *)
Definition add_slot (p a : Z) : K (option Z) :=
  x ← proc_at p;
  h ← gets k_heap;
  '(r, t, h) ← lift (slot_add (file_descriptors x) a h);
  modify (set_heap h) ;;
  put_proc p (set_table t x) ;;
  ret r.

(** The object gets a name no other object has.  Its index is not initialised
    when the table cannot grow. *)
Definition vfs_create_fd (flags mode is_tty inode : Z) : K (Z * Z) :=
  a ← gets (fun k => fresh (dom (files k)));
  put_fd a (mkFd 0 flags mode is_tty 1 inode) ;;
  c ← gets current_task;
  index ← add_slot c a;
  i ← lift (deref index);
  ret (i, a).

Lemma wp_proc_at {B} p x (m : process T -> K B) Q k :
  procs k !! p = Some x -> wp (m x) Q k -> wp (proc_at p ≫= m) Q k.
Proof. intros E W. apply wp_bind, (wp_ok _ _ _ x k); [|done]. unfold proc_at. by rewrite E. Qed.

Lemma wp_fd_at {B} a d (m : vfs_fd -> K B) Q k :
  files k !! a = Some d -> wp (m d) Q k -> wp (fd_at a ≫= m) Q k.
Proof. intros E W. apply wp_bind, (wp_ok _ _ _ d k); [|done]. unfold fd_at. by rewrite E. Qed.

Lemma wp_in_fs {A B} (c : SM F A) a f' (m : A -> K B) Q k :
  c (k_fs k) = Ok (a, f') -> wp (m a) Q (set_fs f' k) -> wp (in_fs c ≫= m) Q k.
Proof. intros E W. apply wp_bind, (wp_ok _ _ _ a (set_fs f' k)); [|done]. unfold in_fs. by rewrite E. Qed.

Lemma wp_in_space {A B} (c : SM V A) a v' (m : A -> K B) Q k :
  c (k_memory k) = Ok (a, v') -> wp (m a) Q (set_space v' k) -> wp (in_space c ≫= m) Q k.
Proof. intros E W. apply wp_bind, (wp_ok _ _ _ a (set_space v' k)); [|done]. unfold in_space. by rewrite E. Qed.

Lemma wp_on_proc {B} p x f (m : unit -> K B) Q k :
  procs k !! p = Some x -> wp (m tt) Q (set_procs (<[p := f x]> (procs k)) k) -> wp (on_proc p f ≫= m) Q k.
Proof.
  intros E W. apply wp_bind, (wp_ok _ _ _ tt (set_procs (<[p := f x]> (procs k)) k)); [|done].
  unfold on_proc. unfold mbind, SM_bind at 1. unfold proc_at. by rewrite E.
Qed.
End State.
