(* ===== verification/Poll.v ===== *)
(** kernel/poll.c: which of a list of descriptors are ready, and waiting until one
    is. *)

From stdpp Require Import base numbers list gmap.
From Stdlib Require Import ZArith Lia.
From S2P Require Import Prelude Alloc StateM KList SlotTable Process.

Open Scope Z_scope.

Definition POLLIN : Z := Z.shiftl 1 0.
Definition POLLPRI : Z := Z.shiftl 1 1.
Definition POLLOUT : Z := Z.shiftl 1 2.
Definition POLLHUP : Z := Z.shiftl 1 3.
Definition EINTR : Z := 27.

Record pollfd : Type := mkPollfd { p_fd : Z; events : Z; revents : Z }.

Section Poll.
Context {F H T V : Type} `{Inodes F, Allocator H, SlotTable T H}.
Abbreviation K := (SM (kernel F H T V)).

(** The state in which the process runs again after it gave up the processor. *)
Variable switch_task : K unit.

(** [if ((events & bit) && op) { if (op(inode)) revents |= bit; }] *)
Definition ready_bit (events bit : Z) (op : option Z) : Z :=
  if is_set events bit then
    match op with Some v => if v =? 0 then 0 else bit | None => 0 end
  else 0.

(** [revents] of one entry. *)
Definition poll_one (f : pollfd) : K Z :=
  if p_fd f <? 0 then ret 0 else
  a ← get_vfs_fd (p_fd f) None;
  match a with
  | None => ret (if is_set (events f) POLLHUP then POLLHUP else 0)
  | Some a =>
    d ← fd_at a;
    fs ← gets k_fs;
    ret (Z.lor (Z.lor (ready_bit (events f) POLLIN (i_has_data fs (inode d)))
                      (ready_bit (events f) POLLOUT (i_can_write fs (inode d))))
               (if is_set (events f) POLLHUP && (i_is_open fs (inode d) =? 0) then POLLHUP else 0))
  end.

Fixpoint poll_check (fds : list pollfd) : K (Z * list pollfd) :=
  match fds with
  | [] => ret (0, [])
  | f :: fds =>
    r ← poll_one f;
    '(rc, fds) ← poll_check fds;
    ret (c_int (negb (r =? 0)) + rc, mkPollfd (p_fd f) (events f) r :: fds)
  end.

(** [list_add] with its result ignored. *)
Definition wait_add (l : KList.klist) (wanted : bool) (i : Z) : K KList.klist :=
  if wanted then
    h ← gets k_heap;
    '(_, l, h) ← lift (KList.list_add l i h);
    modify (set_heap h) ;;
    ret l
  else ret l.

(** The lists of the process get the inodes it waits for. *)
Fixpoint wait_for (fds : list pollfd) : K unit :=
  match fds with
  | [] => ret tt
  | f :: fds =>
    a ← (if p_fd f <? 0 then ret None else get_vfs_fd (p_fd f) None);
    match a with
    | None => wait_for fds
    | Some a =>
      d ← fd_at a;
      c ← gets current_task;
      x ← proc_at c;
      r ← wait_add (read_list (p_wait x)) (is_set (events f) POLLIN) (inode d);
      w ← wait_add (write_list (p_wait x)) (is_set (events f) POLLOUT) (inode d);
      s ← wait_add (disconnect_list (p_wait x)) (is_set (events f) POLLHUP) (inode d);
      on_proc c (fun x => set_wait (set_lists r w s (p_wait x)) x) ;;
      wait_for fds
    end
  end.

Definition poll (fds : list pollfd) : K (Z * list pollfd) :=
  '(rc, fds) ← poll_check fds;
  if 0 <? rc then ret (rc, fds) else
  c ← gets current_task;
  wait_for fds ;;
  switch_task ;;
  on_proc c (fun x => let w := p_wait x in
    set_wait (set_lists (KList.list_reset (read_list w)) (KList.list_reset (write_list w))
      (KList.list_reset (disconnect_list w)) w) x) ;;
  c ← gets current_task;
  x ← proc_at c;
  if is_interrupted (p_wait x) then
    put_proc c (set_wait (set_halted false (set_interrupted false (p_wait x))) x) ;;
    ret (- EINTR, fds)
  else poll_check fds.
End Poll.
