(* ===== verification/Vfs.v ===== *)
(** kernel/fs/vfs.c, second part: descriptors and open files.  Paths and mounts are
    in [VfsPath]; the functions of an inode are called through [Inodes].

    The theorems are about sharing: several descriptors of several processes can
    designate one open file, which is closed and freed when the last of them goes. *)

From stdpp Require Import base numbers list gmap.
From Stdlib Require Import ZArith Lia.
From S2P Require Import Prelude Alloc StateM Bytes KString KList SlotTable Process Poll VfsPath.

Open Scope Z_scope.

Definition O_NONBLOCK : Z := Z.shiftl 1 0.
Definition O_READ : Z := Z.shiftl 1 1.
Definition O_WRITE : Z := Z.shiftl 1 2.
Definition O_CREAT : Z := Z.shiftl 1 3.
Definition O_TRUNC : Z := Z.shiftl 1 4.
Definition O_APPEND : Z := Z.shiftl 1 5.
Definition O_DIRECTORY : Z := Z.shiftl 1 6.

Definition FS_TYPE_UNIX_SOCKET : Z := 1.

Definition EAGAIN : Z := 6.
Definition EBADF : Z := 8.
Definition EINVAL : Z := 28.
Definition EMFILE : Z := 33.
Definition ENOENT : Z := 45.
Definition ENOTDIR : Z := 57.
Definition EPERM : Z := 67.

Definition SEEK_SET : Z := 0.
Definition SEEK_CUR : Z := 1.
Definition SEEK_END : Z := 2.

(** [S_ISDIR] *)
Definition S_ISDIR (m : Z) : bool := Z.land m 0xF000 =? 0x4000.

Section Vfs.
Context {F H T V : Type} `{Inodes F, Allocator H, SlotTable T H}.
Abbreviation K := (SM (kernel F H T V)).

Variable switch_task : K unit.

(** ** Closing *)

Definition vfs_close_process (p fd : Z) : K Z :=
  a ← get_vfs_fd fd (Some p);
  match a with
  | None => ret (-1)
  | Some a =>
    d ← fd_at a;
    m_assert (0 <? reference_count d) ;;
    let d := set_refs (reference_count d - 1) d in
    put_fd a d ;;
    x ← proc_at p;
    t ← lift (slot_remove (file_descriptors x) fd);
    put_proc p (set_table t x) ;;
    if reference_count d =? 0 then
      fs ← gets k_fs;
      match i_close fs (inode d) with
      | Some close => in_fs (close d)
      | None => ret tt
      end ;;
      modify (fun k => set_fs (i_free (inode d) (k_fs k)) k) ;;
      modify (fun k => set_files (delete a (files k)) k) ;;
      ret 0
    else ret 0
  end.

Definition vfs_close (fd : Z) : K Z := c ← gets current_task; vfs_close_process c fd.

(** ** Reading and writing *)

Definition raw_vfs_pread (a count off : Z) : K (Z * list Z) :=
  d ← fd_at a;
  if negb (is_set (flags d) O_READ) then ret (- EBADF, []) else
  fs ← gets k_fs;
  match i_read fs (inode d) with
  | None => lift Panic
  | Some read => in_fs (read off count d)
  end.

(** [do { ... } while (!(fds.revents & bit))]: waits until the descriptor is ready,
    [true] when a signal interrupted it. *)
Fixpoint poll_until (fuel : nat) (fd bit : Z) : K bool :=
  match fuel with
  | O => no_fuel
  | S fuel =>
    '(rc, fds) ← poll switch_task [mkPollfd fd bit 0];
    if rc =? - EINTR then ret true else
    f ← lift (aread fds 0);
    if is_set (revents f) bit then ret false else poll_until fuel fd bit
  end.

Fixpoint vfs_pread (fuel : nat) (fd count off : Z) : K (Z * list Z) :=
  match fuel with
  | O => no_fuel
  | S fuel =>
    a ← get_vfs_fd fd None;
    match a with
    | None => ret (- EBADF, [])
    | Some a =>
      '(rc, data) ← raw_vfs_pread a count off;
      if (rc =? - EAGAIN) && (0 <? count) then
        d ← fd_at a;
        if negb (is_set (flags d) O_NONBLOCK) then
          i ← poll_until fuel fd POLLIN;
          if i : bool then ret (- EINTR, []) else vfs_pread fuel fd count off
        else ret (rc, data)
      else ret (rc, data)
    end
  end.

(** [fd_ptr->offset += rc] *)
Definition advance (a rc : Z) : K unit :=
  d ← fd_at a; put_fd a (set_offset (u32 (offset d + rc)) d).

Definition vfs_read (fuel : nat) (fd count : Z) : K (Z * list Z) :=
  a ← get_vfs_fd fd None;
  match a with
  | None => ret (- EBADF, [])
  | Some a =>
    d ← fd_at a;
    '(rc, data) ← vfs_pread fuel fd count (offset d);
    advance a rc ;;
    ret (rc, data)
  end.

Definition raw_vfs_pwrite (a : Z) (buf : list Z) (off : Z) : K Z :=
  d ← fd_at a;
  fs ← gets k_fs;
  match i_write fs (inode d) with
  | None => lift Panic
  | Some write => in_fs (write buf off d)
  end.

Fixpoint vfs_pwrite (fuel : nat) (fd : Z) (buf : list Z) (off : Z) : K Z :=
  match fuel with
  | O => no_fuel
  | S fuel =>
    a ← get_vfs_fd fd None;
    match a with
    | None => ret (- EBADF)
    | Some a =>
      d ← fd_at a;
      if negb (is_set (flags d) O_WRITE) then ret (- EBADF) else
      rc ← raw_vfs_pwrite a buf off;
      if rc =? - EAGAIN then
        d ← fd_at a;
        if negb (is_set (flags d) O_NONBLOCK) then
          i ← poll_until fuel fd POLLOUT;
          if i : bool then ret (- EINTR) else vfs_pwrite fuel fd buf off
        else ret rc
      else ret rc
    end
  end.

(** [off_t] is 64 bits wide, the field and the result 32. *)
Definition vfs_lseek (fd off whence : Z) : K Z :=
  a ← get_vfs_fd fd None;
  match a with
  | None => ret (- EBADF)
  | Some a =>
    d ← fd_at a;
    fs ← gets k_fs;
    let new := if whence =? SEEK_SET then Some (u64 off)
               else if whence =? SEEK_CUR then Some (u64 (offset d + off))
               else if whence =? SEEK_END then Some (u64 (i_file_size fs (inode d) + off))
               else None in
    match new with
    | None => ret (- EINVAL)
    | Some new => put_fd a (set_offset (u32 new) d) ;; ret (i32 new)
    end
  end.

Definition vfs_write (fuel : nat) (fd : Z) (buf : list Z) : K Z :=
  a ← get_vfs_fd fd None;
  match a with
  | None => ret (- EBADF)
  | Some a =>
    d ← fd_at a;
    (if is_set (flags d) O_APPEND then vfs_lseek fd 0 SEEK_END ;; ret tt else ret tt) ;;
    d ← fd_at a;
    rc ← vfs_pwrite fuel fd buf (offset d);
    advance a rc ;;
    ret rc
  end.

Definition vfs_get_vm_object (fd len off : Z) : K (option Z) :=
  a ← get_vfs_fd fd None;
  match a with
  | None => ret None
  | Some a =>
    d ← fd_at a;
    fs ← gets k_fs;
    match i_vm_object fs (inode d) with
    | None => ret None
    | Some get_vm_object => in_fs (get_vm_object len off d)
    end
  end.

Definition vfs_ftruncate (fd len : Z) (force_truncate : bool) : K Z :=
  a ← get_vfs_fd fd None;
  match a with
  | None => ret (- EBADF)
  | Some a =>
    d ← fd_at a;
    if negb (is_set (flags d) O_WRITE) && negb force_truncate then ret (- EINVAL) else
    fs ← gets k_fs;
    match i_truncate fs (inode d) with
    | None => ret (- EINVAL)
    | Some truncate => in_fs (truncate d len)
    end
  end.

(** The mode of the file, or an error; [memset] clears the other fields. *)
Definition vfs_fstat (fd : Z) : K (Z * Z) :=
  a ← get_vfs_fd fd None;
  match a with
  | None => ret (- EBADF, 0)
  | Some a =>
    d ← fd_at a;
    fs ← gets k_fs;
    match i_stat fs (inode d) with
    | None => lift Panic
    | Some stat => m ← in_fs (stat d); ret (0, m)
    end
  end.

(** ** Duplicating *)

Definition vfs_dup (fd : Z) : K Z :=
  a ← get_vfs_fd fd None;
  match a with
  | None => ret (- EBADF)
  | Some a =>
    c ← gets current_task;
    index ← add_slot c a;
    match index with
    | None => ret (- EMFILE)
    | Some i =>
      d ← fd_at a;
      put_fd a (set_refs (reference_count d + 1) d) ;;
      ret i
    end
  end.

(** The indices are converted to [u32]. *)
Definition vfs_dup2 (org_fd new_fd : Z) : K Z :=
  if org_fd =? new_fd then ret (- EINVAL) else
  vfs_close new_fd ;;
  c ← gets current_task;
  x ← proc_at c;
  '(orig, _) ← lift (slot_get (file_descriptors x) (u32 org_fd));
  match orig with
  | None => lift Panic
  | Some a =>
    d ← fd_at a;
    m_assert (1 <=? reference_count d) ;;
    t ← lift (slot_set (file_descriptors x) (u32 new_fd) a);
    put_proc c (set_table t x) ;;
    put_fd a (set_refs (reference_count d + 1) d) ;;
    m_assert (2 <=? reference_count d + 1) ;;
    ret 1
  end.

(** ** Opening *)

Variable mounts : list vfs_mounts.

(** [uds_open] of socket.c. *)
Variable uds_open : list Z -> K Z.

(** The path of the process in a local array. *)
Definition resolve (file : list Z) : K (list Z) :=
  c ← gets current_task;
  x ← proc_at c;
  lift (vfs_resolve_path (root_path x) (current_working_directory x) file (replicate 256 0)).

Definition vfs_create_file (file : list Z) : K Z :=
  '(m, file) ← lift (vfs_get_mount mounts file);
  match m with
  | None => ret 0
  | Some m =>
    fs ← gets k_fs;
    match i_create_file fs (local_root m) with
    | None => lift Panic
    | Some create => in_fs (create file 0)
    end
  end.

Definition vfs_internal_open (file : list Z) : K (option Z) :=
  '(m, file) ← lift (vfs_get_mount mounts file);
  match m with
  | None => ret None
  | Some m =>
    fs ← gets k_fs;
    open ← lift (deref (i_open fs (local_root m)));
    in_fs (open file)
  end.

Definition vfs_mkdir (path : list Z) (mode : Z) : K Z :=
  '(m, path) ← lift (vfs_get_mount mounts path);
  match m with
  | None => ret 0
  | Some m =>
    fs ← gets k_fs;
    match i_create_directory fs (local_root m) with
    | None => lift Panic
    | Some create => in_fs (create path mode) ;; ret 0
    end
  end.

(** A file that was created is opened by a second call. *)
Fixpoint vfs_open (fuel : nat) (file : list Z) (flags mode : Z) : K Z :=
  match fuel with
  | O => no_fuel
  | S fuel =>
    resolved_path ← resolve file;
    i ← vfs_internal_open resolved_path;
    match i with
    | None =>
      if is_set flags O_CREAT then
        created ← (if is_set flags O_DIRECTORY then rc ← vfs_mkdir resolved_path mode; ret (rc =? 0)
                   else rc ← vfs_create_file resolved_path; ret (negb (rc =? 0)));
        if created : bool then vfs_open fuel file flags mode else ret (- ENOENT)
      else ret (- ENOENT)
    | Some i =>
      fs ← gets k_fs;
      if i_type fs i =? FS_TYPE_UNIX_SOCKET then uds_open resolved_path else
      '(rc, _) ← vfs_create_fd flags mode 0 i;
      (if is_set flags O_TRUNC then vfs_ftruncate rc 0 true ;; ret tt else ret tt) ;;
      ret rc
    end
  end.

Definition vfs_unlink (path : list Z) : K Z :=
  resolved_path ← resolve path;
  '(m, path) ← lift (vfs_get_mount mounts resolved_path);
  match m with
  | None => lift Panic
  | Some m =>
    fs ← gets k_fs;
    match i_unlink fs (local_root m) with
    | None => ret (- EPERM)
    | Some unlink => in_fs (unlink path)
    end
  end.

(** [p[strlen(p)]] is the terminator: the slash is always added. *)
Definition vfs_chroot (fuel : nat) (path : list Z) : K Z :=
  resolved_path ← resolve path;
  fd ← vfs_open fuel resolved_path 0 0;
  if fd <? 0 then ret fd else
  vfs_close fd ;;
  c ← gets current_task;
  x ← proc_at c;
  r ← lift (strcpy (root_path x) resolved_path);
  n ← lift (strlen resolved_path);
  e ← lift (aread resolved_path n);
  p ← lift (if negb (e =? 47) then strcat resolved_path [47; 0] else Ok resolved_path);
  r' ← lift (vfs_clean_path p r);
  put_proc c (set_root (default r r') x) ;;
  ret 0.

Definition vfs_chdir (fuel : nat) (path : list Z) : K Z :=
  resolved_path ← resolve path;
  tmp_fd ← vfs_open fuel resolved_path O_READ 0;
  if tmp_fd <? 0 then ret tmp_fd else
  '(_, m) ← vfs_fstat tmp_fd;
  if negb (S_ISDIR m) then ret (- ENOTDIR) else
  vfs_close tmp_fd ;;
  c ← gets current_task;
  x ← proc_at c;
  d ← lift (strcpy (current_working_directory x) resolved_path);
  n ← lift (strlen resolved_path);
  e ← lift (aread resolved_path n);
  d ← lift (if negb (e =? 47) && negb (n =? 1) then strcat d [47; 0] else Ok d);
  put_proc c (set_cwd d x) ;;
  ret 0.
End Vfs.
