(* ===== verification/Sched.v ===== *)
(** kernel/sched/scheduler.c: processes, their life cycle, signals, the choice of
    the next process and memory maps.  The switch of registers and stacks is
    assembly; a process that calls [switch_task] stops there, and [current_task]
    says who runs.  Process and context objects are taken to be allocated; copying
    descriptors and address spaces can fail. *)

From stdpp Require Import base numbers list gmap.
From Stdlib Require Import ZArith Lia.
From S2P Require Import Prelude Alloc StateM Bytes KString KList SlotTable Mmu Process Poll Vfs.

Open Scope Z_scope.

Definition ENODEV : Z := 44.
Definition ENOMEM : Z := 49.
Definition EOVERFLOW : Z := 65.
Definition ESRCH : Z := 75.

Definition SIGSEGV : Z := 5.
Definition SIGTERM : Z := 15.

Definition KEYBOARD_HALT : nat := 0.
Definition WAIT_CHILD_HALT : nat := 1.

Section Sched.
Context {F H T V : Type} `{Inodes F, Allocator H, SlotTable T H, SlotView T, AddressSpaces V}.
Abbreviation state := (kernel F H T V).
Abbreviation K := (SM state).

(** ** Signals and saved contexts *)

Definition process_push_restore_context (p : option Z) (r : list Z) : K unit :=
  p ← or_current p;
  on_proc p (fun x => let s := p_signals x in
    set_signals (mkSignals (signal_handlers s) (r :: restore_context_stack s) (signal_stack s)) x).

Definition process_pop_restore_context (p : option Z) : K (list Z) :=
  p ← or_current p;
  x ← proc_at p;
  let s := p_signals x in
  match restore_context_stack s with
  | [] => lift Panic
  | r :: rest =>
    put_proc p (set_signals (mkSignals (signal_handlers s) rest (signal_stack s)) x) ;; ret r
  end.

Definition process_push_signal (p : option Z) (handler_ip : Z) : K unit :=
  p ← or_current p;
  on_proc p (fun x =>
    let w := p_wait x in
    let s := p_signals x in
    set_signals (mkSignals (signal_handlers s) (restore_context_stack s) (handler_ip :: signal_stack s))
      (set_wait (if is_halted_flag w then set_interrupted true w else w) x)).

Definition process_pop_signal (p : option Z) : K (option Z) :=
  p ← or_current p;
  x ← proc_at p;
  let s := p_signals x in
  match signal_stack s with
  | [] => ret None
  | h :: rest =>
    put_proc p (set_signals (mkSignals (signal_handlers s) (restore_context_stack s) rest) x) ;; ret (Some h)
  end.

Definition set_signal_handler (sig handler : Z) : K unit :=
  if (20 <=? sig) || (sig <? 0) then ret tt else
  if 9 =? sig then ret tt else
  c ← gets current_task;
  x ← proc_at c;
  let s := p_signals x in
  hs ← lift (awrite (signal_handlers s) sig handler);
  put_proc c (set_signals (mkSignals hs (restore_context_stack s) (signal_stack s)) x).

(** ** The queue *)

(** [for (tmp = from; tmp; tmp = tmp->next)] with a test that ends the loop. *)
Fixpoint walk (fuel : nat) (from : option Z) (stop : Z -> process T -> bool) : K (option Z) :=
  match from with
  | None => ret None
  | Some p =>
    match fuel with
    | O => no_fuel
    | S fuel =>
      x ← proc_at p;
      if stop p x then ret (Some p) else walk fuel (next (p_links x)) stop
    end
  end.

(** A queue has at most as many members as there are processes. *)
Definition queue_fuel : K nat := gets (fun k => S (size (procs k))).

Definition get_task_from_pid (n : Z) : K (option Z) :=
  fuel ← queue_fuel;
  q ← gets ready_queue;
  walk fuel q (fun _ x => pid x =? n).

(** ** Memory maps *)

(** [get_map] and the store in [add_memory_map]: the first free entry. *)
Fixpoint first_free (i : nat) (l : list (option MemoryMap)) : option nat :=
  match l with
  | [] => None
  | None :: _ => Some i
  | Some _ :: l => first_free (S i) l
  end.

Definition get_map : K nat :=
  c ← gets current_task;
  x ← proc_at c;
  match first_free 0 (maps (p_memory x)) with Some i => ret i | None => lift Panic end.

Definition set_map (p : Z) (i : nat) (m : option MemoryMap) : K unit :=
  on_proc p (fun x => let u := p_memory x in
    set_memory (mkUser (cr3 u) (data_segment_end u) (<[i := m]> (maps u))) x).

Definition add_memory_map (m : MemoryMap) : K unit :=
  i ← get_map;
  c ← gets current_task;
  set_map c i (Some m).

Definition get_free_virtual_memory (len : Z) : K Z :=
  c ← gets current_task;
  x ← proc_at c;
  let u := p_memory x in
  let n := u32 (data_segment_end u + len + 0x1000) in
  put_proc c (set_memory (mkUser (cr3 u) (align_page n) (maps u)) x) ;;
  ret (data_segment_end u).

Definition allocate_virtual_user_memory (len : Z) : K (option Z) :=
  rc ← get_free_virtual_memory len;
  if rc =? 0 then ret None else
  ok ← in_space (allocate_region rc len);
  ret (if ok : bool then Some rc else None).

Fixpoint map_pages (rc : Z) (pages : list Z) : K bool :=
  match pages with
  | [] => ret true
  | p :: pages =>
    ok ← in_space (map_physical rc p);
    if ok : bool then map_pages (u32 (rc + 0x1000)) pages else ret false
  end.

(** The array has an address for every page. *)
Definition create_physical_mapping (physical_addresses : list Z) (len : Z) : K (option Z) :=
  rc ← get_free_virtual_memory len;
  if rc =? 0 then ret None else
  let n := align_page len / 0x1000 in
  pages ← lift (bytes_at physical_addresses 0 n);
  ok ← map_pages rc pages;
  ret (if ok : bool then Some rc else None).

(** The loop looks at the maps of the current process. *)
Fixpoint munmap_loop (n : nat) (i : Z) (addr : Z) : K Z :=
  match n with
  | O => ret 0
  | S n =>
    c ← gets current_task;
    x ← proc_at c;
    m ← lift (aread (maps (p_memory x)) i);
    match m with
    | None => munmap_loop n (i + 1) addr
    | Some m =>
      if negb (addr =? u_address m) then munmap_loop n (i + 1) addr else
      match underlying_object m with
      | None => lift Panic
      | Some o =>
        fs ← gets k_fs;
        m_assert (0 <? vm_refs fs o) ;;
        modify (fun k => set_fs (set_vm_refs o (vm_refs fs o - 1) (k_fs k)) k) ;;
        in_space (remove_mapping (u_address m) (map_length m)) ;;
        set_map c (Z.to_nat i) None ;;
        ret 0
      end
    end
  end.

Definition munmap (addr : Z) : K Z := munmap_loop 100 0 addr.

(** The address, or the negative error. *)
Definition mmap (len : Z) (fd off : Z) : K Z :=
  if len =? 0 then ret (- EINVAL) else
  if fd =? -1 then
    rc ← allocate_virtual_user_memory len;
    ret (default (- ENOMEM) rc)
  else
  o ← vfs_get_vm_object fd len off;
  match o with
  | None => ret (- ENODEV)
  | Some o =>
    fs ← gets k_fs;
    if vm_size fs o <? len then ret (- EOVERFLOW) else
    rc ← create_physical_mapping (vm_pages fs o) len;
    match rc with
    | None => ret (- ENOMEM)
    | Some rc =>
      modify (fun k => set_fs (set_vm_refs o (u32 (vm_refs fs o + 1)) (k_fs k)) k) ;;
      add_memory_map (mkMap rc len fd (Some o)) ;;
      ret rc
    end
  end.

(** ** Creating processes *)

(** [for (int i = 0;; i++)] over the descriptors of a table: one more reference to
    every open file.  NULL is never stored. *)
Fixpoint share_files (n : nat) (i : Z) (t : T) : K unit :=
  match n with
  | O => no_fuel
  | S n =>
    '(out, empty) ← lift (slot_get t i);
    match out with
    | None => if empty : bool then ret tt else share_files n (i + 1) t
    | Some a =>
      d ← fd_at a;
      put_fd a (set_refs (reference_count d + 1) d) ;;
      share_files n (i + 1) t
    end
  end.

Definition no_list : KList.klist := KList.mkList None 0 (-1).

(** [list_init] of the three lists. *)
Definition init_lists : K waiting :=
  h ← gets k_heap;
  let '(r, h) := KList.list_init h in
  let '(w, h) := KList.list_init h in
  let '(d, h) := KList.list_init h in
  modify (set_heap h) ;;
  ret (mkWait r w d [0; 0] false false 0).

Definition no_signals : signals := mkSignals (replicate 32 0) [] [].

Definition NAME_SIZE : Z := 100.

(** "[kernel]" and "[child]" *)
Definition KERNEL_NAME : list Z := [91; 107; 101; 114; 110; 101; 108; 93; 0].
Definition CHILD_NAME : list Z := [91; 99; 104; 105; 108; 100; 93; 0].

Definition take_pid : K Z :=
  n ← gets next_pid; modify (set_next_pid (u32 (n + 1))) ;; ret n.

(** A child of [p]; [None] when memory runs out. *)
Definition create_child (p : Z) : K (option Z) :=
  r ← gets (fun k => fresh (dom (procs k)));
  n ← take_pid;
  '(name, _) ← lift (strlcpy (replicate (Z.to_nat NAME_SIZE) 0) CHILD_NAME NAME_SIZE);
  x ← proc_at p;
  name ← lift (strcat name (program_name x));
  h ← gets k_heap;
  '(ok, t, h) ← lift (slot_clone (file_descriptors x) h);
  modify (set_heap h) ;;
  if negb ok then ret None else
  share_files (S (Z.to_nat (slot_size t))) 0 t ;;
  d ← in_space (clone_directory (cr3 (p_memory x)));
  match d with
  | None => ret None
  | Some d =>
    on_proc p (fun x => set_links (set_proc_refs (proc_refs (p_links x) + 1) (p_links x)) x) ;;
    w ← init_lists;
    cwd ← lift (strcpy (replicate 256 0) (current_working_directory x));
    root ← lift (strcpy (replicate 256 0) (root_path x));
    put_proc r (mkProcess n name root cwd t w no_signals
      (mkUser d (data_segment_end (p_memory x)) (replicate 100 None))
      (mkLinks None (Some p) None 0 false 2)) ;;
    ret (Some r)
  end.

(** The first process. *)
Definition create_kernel_process : K Z :=
  r ← gets (fun k => fresh (dom (procs k)));
  n ← take_pid;
  m_assert (n =? 0) ;;
  '(name, _) ← lift (strlcpy (replicate (Z.to_nat NAME_SIZE) 0) KERNEL_NAME NAME_SIZE);
  h ← gets k_heap;
  let '(t, h) := slot_init h in
  modify (set_heap h) ;;
  v ← gets k_memory;
  w ← init_lists;
  cwd ← lift (strcpy (replicate 256 0) [47; 0]);
  root ← lift (strcpy (replicate 256 0) [47; 0]);
  put_proc r (mkProcess n name root cwd t w no_signals
    (mkUser (get_active_pagedirectory v) 0 (replicate 100 None))
    (mkLinks None None None 0 false 1)) ;;
  ret r.

Definition create_process (p : option Z) : K (option Z) :=
  match p with
  | Some p => create_child p
  | None => r ← create_kernel_process; ret (Some r)
  end.

Definition tasking_init : K unit :=
  r ← create_process None;
  r ← lift (deref r);
  modify (set_ready (Some r)) ;;
  modify (set_current r).

(** The return value in the parent: the number of the child. *)
Definition fork : K Z :=
  c ← gets current_task;
  new_task ← create_process (Some c);
  match new_task with
  | None => ret (- ENOMEM)
  | Some new_task =>
    fuel ← queue_fuel;
    q ← gets ready_queue;
    last ← walk fuel q (fun _ x => match next (p_links x) with None => true | Some _ => false end);
    last ← lift (deref last);
    on_proc last (fun x => set_links (set_next (Some new_task) (p_links x)) x) ;;
    on_proc new_task (fun x => let l := p_links x in
      set_links (mkLinks (next l) (Some c) (child l) (-1) (dead l) (proc_refs l)) x) ;;
    on_proc c (fun x => let l := p_links x in
      set_links (mkLinks (next l) (parent l) (Some new_task) (child_rc l) (dead l) (proc_refs l)) x) ;;
    x ← proc_at new_task;
    ret (pid x)
  end.

(** ** The next process *)

(** One list of [isset_fdhalt]: [None] when an inode is ready, else whether the
    list has a member. *)
Fixpoint halt_loop (n : nat) (i : Z) (l : KList.klist) (ready : Z -> bool) : outcome (option bool) :=
  match n with
  | O => NoFuel
  | S n =>
    e ← KList.list_get l i;
    match e with
    | None => Ok (Some (negb (i =? 0)))
    | Some inode => if ready inode then Ok None else halt_loop n (i + 1) l ready
    end
  end.

Definition op_set (op : option Z) : bool := match op with Some v => negb (v =? 0) | None => false end.

Definition list_fuel (l : KList.klist) : nat := S (S (Z.to_nat (KList.tail_index l))).

(** Whether the process waits, and [*empty]. *)
Definition isset_fdhalt (p : option Z) : K (bool * bool) :=
  p ← or_current p;
  x ← proc_at p;
  if dead (p_links x) then ret (true, true) else
  fs ← gets k_fs;
  let w := p_wait x in
  r ← lift (halt_loop (list_fuel (read_list w)) 0 (read_list w) (fun i => op_set (i_has_data fs i)));
  match r with
  | None => ret (false, false)
  | Some b1 =>
    r ← lift (halt_loop (list_fuel (write_list w)) 0 (write_list w) (fun i => op_set (i_can_write fs i)));
    match r with
    | None => ret (false, false)
    | Some b2 =>
      r ← lift (halt_loop (list_fuel (disconnect_list w)) 0 (disconnect_list w) (fun i => i_is_open fs i =? 0));
      match r with
      | None => ret (false, false)
      | Some b3 => let b := b1 || b2 || b3 in ret (b, negb b)
      end
    end
  end.

Definition is_halted (p : Z) : K bool :=
  x ← proc_at p;
  if existsb (fun h => negb (h =? 0)) (take 2 (halts (p_wait x))) then ret true else
  '(b, fd_empty) ← isset_fdhalt (Some p);
  ret (b && negb fd_empty).

(** What an interrupt that ends the wait changes. *)
Variable wait_for_interrupt : K unit.

(** Whether [c] can run at time [ms_time]. *)
Definition runnable (c ms_time : Z) : K bool :=
  x ← proc_at c;
  if ms_time <? sleep_until (p_wait x) then ret false else
  if is_interrupted (p_wait x) then ret true else
  if dead (p_links x) then ret false else
  h ← is_halted c;
  ret (negb h).

(** The loop of [next_task]; [i] counts the rounds. *)
Fixpoint next_loop (fuel : nat) (s : Z) (c : option Z) (i : Z) (ms_time : Z) : K Z :=
  match fuel with
  | O => no_fuel
  | S fuel =>
    c ← (match c with Some c => ret c | None => q ← gets ready_queue; lift (deref q) end);
    ms_time ← (if s =? c then gets uptime else ret ms_time);
    let i := if s =? c then i + 1 else i in
    (if 10 <? i then wait_for_interrupt else ret tt) ;;
    let i := if 10 <? i then 0 else i in
    r ← runnable c ms_time;
    if r : bool then ret c else
    x ← proc_at c;
    next_loop fuel s (next (p_links x)) i ms_time
  end.

Definition next_task (fuel : nat) (s : Z) : K Z :=
  ms_time ← gets uptime;
  x ← proc_at s;
  next_loop fuel s (next (p_links x)) 0 ms_time.

Definition switch_task (fuel : nat) : K unit :=
  c ← gets current_task;
  x ← proc_at c;
  (if dead (p_links x) then
     match next (p_links x) with
     | Some n => modify (set_current n)
     | None => q ← gets ready_queue; q ← lift (deref q); modify (set_current q)
     end
   else n ← next_task fuel c; modify (set_current n)) ;;
  c ← gets current_task;
  x ← proc_at c;
  modify (fun k => set_space (set_active_directory (cr3 (p_memory x)) (k_memory k)) k).

(** ** Ending processes *)

(** Descriptors and maps with an index below 100; [munmap] works on the current
    process, whichever [p] is. *)
Fixpoint free_loop (n : nat) (i : Z) (p : Z) : K unit :=
  match n with
  | O => ret tt
  | S n =>
    vfs_close_process p i ;;
    x ← proc_at p;
    m ← lift (aread (maps (p_memory x)) i);
    match m with
    | None => free_loop n (i + 1) p
    | Some m => munmap (u_address m) ;; free_loop n (i + 1) p
    end
  end.

Definition free_process (p : Z) : K unit :=
  free_loop 100 0 p ;;
  x ← proc_at p;
  h ← gets k_heap;
  let w := p_wait x in
  let '(r, h) := KList.list_free (read_list w) h in
  let '(wl, h) := KList.list_free (write_list w) h in
  let '(d, h) := KList.list_free (disconnect_list w) h in
  let '(t, h) := slot_free (file_descriptors x) h in
  modify (set_heap h) ;;
  put_proc p (set_table t (set_wait (set_lists r wl d w) x)) ;;
  in_space (free_pagedirectory (cr3 (p_memory x))).

Definition process_remove_reference (p : Z) : K unit :=
  x ← proc_at p;
  let n := proc_refs (p_links x) in
  m_assert (negb (n =? 0)) ;;
  put_proc p (set_links (set_proc_refs (n - 1) (p_links x)) x) ;;
  if n - 1 =? 0 then
    fuel ← queue_fuel;
    q ← gets ready_queue;
    t ← walk fuel q (fun t _ => t =? p);
    m_assert (match t with None => true | Some _ => false end) ;;
    modify (fun k => set_procs (delete p (procs k)) k)
  else ret tt.

(** [for (; new_task == p;)]: the value it computes is not used. *)
Fixpoint leave_loop (fuel : nat) (p : Z) (new_task : option Z) : K unit :=
  match fuel with
  | O => no_fuel
  | S fuel =>
    match new_task with
    | None => ret tt
    | Some n =>
      if negb (n =? p) then ret tt else
      x ← proc_at n;
      n ← (match next (p_links x) with Some _ => ret n | None => q ← gets ready_queue; lift (deref q) end);
      x ← proc_at n;
      leave_loop fuel p (next (p_links x))
    end
  end.

(** Takes [p] out of the queue. *)
Definition dequeue (p : Z) : K unit :=
  fuel ← queue_fuel;
  q ← gets ready_queue;
  t ← walk fuel q (fun t x => (t =? p) || bool_decide (next (p_links x) = Some p));
  match t with
  | None => ret tt
  | Some t =>
    x ← proc_at p;
    let n := next (p_links x) in
    if t =? p then modify (set_ready n)
    else on_proc t (fun x => set_links (set_next n (p_links x)) x)
  end.

Definition notify_parent (p status : Z) : K unit :=
  x ← proc_at p;
  match parent (p_links x) with
  | None => ret tt
  | Some q =>
    on_proc q (fun x => let l := p_links x in
      set_links (mkLinks (next l) (parent l) (child l) status (dead l) (proc_refs l))
        (set_wait (set_halts (<[WAIT_CHILD_HALT := 0]> (halts (p_wait x))) (p_wait x)) x))
  end.

Definition exit_process (fuel : nat) (p status : Z) : K unit :=
  x ← proc_at p;
  m_assert (negb (pid x =? 1)) ;;
  on_proc p (fun x => let l := p_links x in
    set_links (mkLinks (next l) (parent l) (child l) (child_rc l) true (proc_refs l)) x) ;;
  notify_parent p status ;;
  leave_loop fuel p (Some p) ;;
  dequeue p ;;
  free_process p ;;
  c ← gets current_task;
  if negb (c =? p) then process_remove_reference p else
  x ← proc_at p;
  let n := proc_refs (p_links x) in
  m_assert (negb (n =? 0)) ;;
  put_proc p (set_links (set_proc_refs (n - 1) (p_links x)) x) ;;
  if negb (n - 1 =? 0) then switch_task fuel else
  q ← gets ready_queue;
  m_assert (negb (bool_decide (q = Some p))) ;;
  q ← lift (deref q);
  modify (set_current q) ;;
  modify (fun k => set_procs (delete p (procs k)) k) ;;
  switch_task fuel.

(** [exit] does not return: the process is not chosen again. *)
Definition exit (fuel : nat) (status : Z) : K unit :=
  c ← gets current_task; exit_process fuel c status.

(** ** Sending signals *)

Definition signal_process (fuel : nat) (p sig : Z) : K unit :=
  m_assert (sig <? 32) ;;
  c ← gets current_task;
  let talking_to_itself := p =? c in
  x ← proc_at p;
  h ← lift (aread (signal_handlers (p_signals x)) sig);
  if h =? 0 then
    if (SIGTERM =? sig) || (SIGSEGV =? sig) then exit_process fuel p 1
    else m_assert (negb talking_to_itself)
  else process_push_signal (Some p) h.

(** [p->next], the first process behind the last one. *)
Definition next_cyclic (x : process T) : K Z :=
  match next (p_links x) with Some n => ret n | None => q ← gets ready_queue; lift (deref q) end.

Fixpoint kill_loop (fuel : nat) (n p : Z) : K Z :=
  match fuel with
  | O => no_fuel
  | S fuel =>
    x ← proc_at p;
    if pid x =? n then ret p else
    c ← gets current_task;
    if p =? c then ret p else
    p ← next_cyclic x;
    kill_loop fuel n p
  end.

Definition kill (fuel : nat) (n sig : Z) : K Z :=
  c ← gets current_task;
  x ← proc_at c;
  p ← next_cyclic x;
  qf ← queue_fuel;
  p ← kill_loop qf n p;
  x ← proc_at p;
  if negb (pid x =? n) then ret (- ESRCH) else
  signal_process fuel p sig ;;
  ret 0.
End Sched.
