(* ===== verification/Descriptors.v ===== *)
(** Sharing of open files: the descriptors of all processes, the reference counts
    of the open files and the inodes behind them, over [vfs_create_fd], [vfs_dup],
    [vfs_dup2], [vfs_close], the copy of a table in [create_process] and the end of
    a process in [free_process].  Proved for every implementation of the descriptor
    table, the inodes and the address spaces that keeps its promises. *)

From stdpp Require Import base numbers list gmap.
From Stdlib Require Import ZArith Lia.
From S2P Require Import Prelude Alloc StateM Bytes KString KList SlotTable Bitmap Relist Process Poll Vfs Sched.

Open Scope Z_scope.

(** ** Counting *)

(** How many of the first [n] slots hold [a]. *)
Fixpoint cnt (n : nat) (f : Z -> option Z) (a : Z) : Z :=
  match n with
  | O => 0
  | S n => cnt n f a + c_int (bool_decide (f (Z.of_nat n) = Some a))
  end.

Lemma cnt_nonneg n f a : 0 <= cnt n f a.
Proof. induction n as [|n IH]; cbn [cnt]; [lia|]. unfold c_int. case_bool_decide; lia. Qed.

Lemma cnt_beyond n m f a :
  (n <= m)%nat -> (forall i, Z.of_nat n <= i -> f i <> Some a) -> cnt m f a = cnt n f a.
Proof.
  intros Hle Hf. induction Hle as [|m Hle IH]; [done|]. cbn [cnt].
  rewrite IH, bool_decide_false by (apply Hf; lia). cbn. lia.
Qed.

Lemma cnt_ext n f g a : (forall i, 0 <= i < Z.of_nat n -> f i = g i) -> cnt n f a = cnt n g a.
Proof.
  induction n as [|n IH]; intros Hf; [done|]. cbn [cnt]. rewrite IH by (intros; apply Hf; lia).
  by rewrite (Hf (Z.of_nat n)) by lia.
Qed.

Lemma cnt_update n f g i v a :
  0 <= i < Z.of_nat n -> (forall j, g j = if j =? i then v else f j) ->
  cnt n g a = cnt n f a - c_int (bool_decide (f i = Some a)) + c_int (bool_decide (v = Some a)).
Proof.
  induction n as [|n IH]; intros Hi Hg; [lia|]. cbn [cnt]. rewrite Hg.
  destruct (Z.eqb_spec (Z.of_nat n) i) as [<-|Hne].
  - rewrite (cnt_ext n g f); [lia|]. intros j Hj. rewrite Hg. by destruct (Z.eqb_spec j (Z.of_nat n)); [lia|].
  - rewrite IH by (done || lia). lia.
Qed.

Lemma cnt_pos n f a i : 0 <= i < Z.of_nat n -> f i = Some a -> 0 < cnt n f a.
Proof.
  induction n as [|n IH]; intros Hi Hf; [lia|]. cbn [cnt]. pose proof (cnt_nonneg n f a).
  destruct (Z.eq_dec i (Z.of_nat n)) as [->|]; [rewrite bool_decide_true by done; cbn; lia|].
  specialize (IH ltac:(lia) Hf). unfold c_int. case_bool_decide; lia.
Qed.

Section Descriptors.
Context {F H T V : Type} `{Inodes F, Allocator H, SlotTable T H, SlotView T, AddressSpaces V}.
Context `{!SlotLaws T H}.
Abbreviation state := (kernel F H T V).
Abbreviation K := (SM state).

Definition count (t : T) (a : Z) : Z := cnt (Z.to_nat (slot_size t)) (slot_view t) a.

Lemma count_changed t t' i v a :
  slot_ok t -> slot_changed t t' i v -> slot_size t <= slot_size t' -> 0 <= i < slot_size t' ->
  count t' a = count t a - c_int (bool_decide (slot_view t i = Some a)) + c_int (bool_decide (v = Some a)).
Proof.
  intros Ht [Ht' Hv] Hs Hi. unfold count. pose proof (slot_size_bound _ Ht).
  rewrite <- (cnt_beyond (Z.to_nat (slot_size t)) (Z.to_nat (slot_size t')) (slot_view t)).
  - apply cnt_update; [lia|done].
  - lia.
  - intros j Hj E. pose proof (slot_view_range _ _ _ Ht E). lia.
Qed.

Lemma count_pos t i a : slot_ok t -> slot_view t i = Some a -> 0 < count t a.
Proof.
  intros Ht E. pose proof (slot_view_range _ _ _ Ht E). apply (cnt_pos _ _ _ i); [lia|done].
Qed.

Lemma count_empty t a : (forall i, slot_view t i = None) -> count t a = 0.
Proof.
  intros E. unfold count. apply (cnt_beyond 0); [lia|]. intros i _. by rewrite E.
Qed.

(** All processes. *)
Definition total (ps : gmap Z (process T)) (a : Z) : Z :=
  map_fold (fun _ x acc => count (file_descriptors x) a + acc) 0 ps.

Lemma total_delete ps p x a :
  ps !! p = Some x -> total ps a = count (file_descriptors x) a + total (delete p ps) a.
Proof.
  intros Hp. unfold total. rewrite (map_fold_delete_L _ _ p x) by (done || (intros; lia)). done.
Qed.

Lemma total_insert ps p x y a :
  ps !! p = Some x ->
  total (<[p := y]> ps) a = total ps a - count (file_descriptors x) a + count (file_descriptors y) a.
Proof.
  intros Hp. rewrite (total_delete ps p x a Hp), (total_delete (<[p := y]> ps) p y a) by apply lookup_insert_eq.
  rewrite delete_insert_eq. lia.
Qed.

Lemma total_new ps p y a :
  ps !! p = None -> total (<[p := y]> ps) a = total ps a + count (file_descriptors y) a.
Proof.
  intros Hp. rewrite (total_delete (<[p := y]> ps) p y a) by apply lookup_insert_eq.
  rewrite delete_insert_eq, delete_id by done. lia.
Qed.

Lemma total_same ps p x y a :
  ps !! p = Some x -> file_descriptors y = file_descriptors x -> total (<[p := y]> ps) a = total ps a.
Proof. intros Hp E. rewrite (total_insert _ _ _ _ _ Hp), E. lia. Qed.

Lemma total_nonneg ps a : 0 <= total ps a.
Proof.
  unfold total. apply (map_fold_weak_ind (fun r _ => 0 <= r)); [lia|]. intros p x m r _ Hr.
  pose proof (cnt_nonneg (Z.to_nat (slot_size (file_descriptors x))) (slot_view (file_descriptors x)) a).
  unfold count. lia.
Qed.

Lemma total_pos ps p x i a :
  ps !! p = Some x -> slot_ok (file_descriptors x) -> slot_view (file_descriptors x) i = Some a -> 0 < total ps a.
Proof.
  intros Hp Ht E. rewrite (total_delete _ _ _ _ Hp). pose proof (total_nonneg (delete p ps) a).
  pose proof (count_pos _ _ _ Ht E). lia.
Qed.

(** ** Consistency of open files and descriptors *)

Record consistent (m : gmap Z vfs_fd) (ps : gmap Z (process T)) : Prop := {
  con_tables : forall p x, ps !! p = Some x -> slot_ok (file_descriptors x);
  con_refs : forall a d, m !! a = Some d -> reference_count d = total ps a /\ 0 < reference_count d;
  con_live : forall a, 0 < total ps a -> is_Some (m !! a);
  con_inodes : forall a b d e, m !! a = Some d -> m !! b = Some e -> inode d = inode e -> a = b
}.

Lemma consistent_slot m ps p x i a :
  consistent m ps -> ps !! p = Some x -> slot_view (file_descriptors x) i = Some a -> is_Some (m !! a).
Proof. intros Hc Hp E. apply (con_live _ _ Hc). eapply total_pos; [done|by eapply con_tables|done]. Qed.

(** The count of one open file changes. *)
Lemma consistent_update m ps ps' a d :
  consistent m ps -> (forall p x, ps' !! p = Some x -> slot_ok (file_descriptors x)) ->
  (forall b, b <> a -> total ps' b = total ps b) ->
  0 < total ps' a -> reference_count d = total ps' a ->
  (forall b e, b <> a -> m !! b = Some e -> inode e <> inode d) ->
  consistent (<[a := d]> m) ps'.
Proof.
  intros Hc Ht Hb Ha Hd Hi. split; [done|..].
  - intros b e [[<- <-]|[Hne E]]%lookup_insert_Some; [lia|]. rewrite Hb by done. by apply (con_refs _ _ Hc).
  - intros b Hp. destruct (decide (b = a)) as [->|Hne]; [rewrite lookup_insert_eq; eauto|].
    rewrite lookup_insert_ne by done. apply (con_live _ _ Hc). by rewrite <- Hb.
  - intros b c e e' [[<- <-]|[Hne E]]%lookup_insert_Some [[<- <-]|[Hne' E']]%lookup_insert_Some Ei; [done|..].
    + by destruct (Hi c e').
    + by destruct (Hi b e).
    + by apply (con_inodes _ _ Hc _ _ e e').
Qed.

(** The last descriptor of an open file goes. *)
Lemma consistent_delete m ps ps' a :
  consistent m ps -> (forall p x, ps' !! p = Some x -> slot_ok (file_descriptors x)) ->
  (forall b, b <> a -> total ps' b = total ps b) -> total ps' a = 0 -> consistent (delete a m) ps'.
Proof.
  intros Hc Ht Hb Ha. split; [done|..].
  - intros b e [Hne E]%lookup_delete_Some. rewrite Hb by done. by apply (con_refs _ _ Hc).
  - intros b Hp. assert (b <> a) by (intros ->; lia). rewrite lookup_delete_ne by done.
    apply (con_live _ _ Hc). by rewrite <- Hb.
  - intros b c e e' [Hne E]%lookup_delete_Some [Hne' E']%lookup_delete_Some. by apply (con_inodes _ _ Hc).
Qed.

(** What a change of one slot does to the counts. *)
Lemma total_changed (ps : gmap Z (process T)) p x t' i v a :
  ps !! p = Some x -> slot_ok (file_descriptors x) -> slot_changed (file_descriptors x) t' i v ->
  slot_size (file_descriptors x) <= slot_size t' -> 0 <= i < slot_size t' ->
  total (<[p := set_table t' x]> ps) a =
    total ps a - c_int (bool_decide (slot_view (file_descriptors x) i = Some a)) + c_int (bool_decide (v = Some a)).
Proof.
  intros Hp Hx Hc Hs Hi. rewrite (total_insert _ _ _ _ _ Hp). cbn [file_descriptors set_table].
  rewrite (count_changed _ _ _ _ _ Hx Hc Hs Hi). lia.
Qed.

Lemma tables_changed (ps : gmap Z (process T)) p x t' :
  (forall q y, ps !! q = Some y -> slot_ok (file_descriptors y)) -> slot_ok t' ->
  forall q y, <[p := set_table t' x]> ps !! q = Some y -> slot_ok (file_descriptors y).
Proof. intros Ht Hok q y [[<- <-]|[_ E]]%lookup_insert_Some; [done|by eapply Ht]. Qed.

(** ** The state between two calls *)

Context `{!InodeLaws F, !SpaceLaws V}.

Record fds_ok (k : state) : Prop := {
  fo_consistent : consistent (files k) (procs k);
  fo_inodes : forall a d, files k !! a = Some d -> i_live (k_fs k) (inode d);
  fo_current : is_Some (procs k !! current_task k)
}.

Lemma wp_get_vfs_fd {B} fd p q x (m : option Z -> K B) Q k :
  fds_ok k -> q = default (current_task k) p -> procs k !! q = Some x ->
  wp (m (if fd <? 0 then None else slot_view (file_descriptors x) fd)) Q k ->
  wp (get_vfs_fd fd p ≫= m) Q k.
Proof.
  intros Hk -> Hp W. unfold get_vfs_fd. destruct (Z.ltb_spec fd 0); [done|].
  apply wp_bind, wp_bind. apply (wp_ok _ _ _ (default (current_task k) p) k); [by destruct p|].
  apply (wp_proc_at _ x); [done|].
  pose proof (con_tables _ _ (fo_consistent _ Hk) _ _ Hp) as Ht.
  eapply wp_lift; [by apply slot_get_view; [|lia]|]. apply wp_ret. exact W.
Qed.

(** The call of [inode->close]. *)
Lemma close_inode (k : state) d :
  i_live (k_fs k) (inode d) ->
  wp (match i_close (k_fs k) (inode d) with Some close => in_fs (close d) | None => ret tt end)
    (fun _ k' => exists f', k' = set_fs f' k /\ forall j, i_live (k_fs k) j -> i_live f' j) k.
Proof.
  intros Hl. destruct (i_close (k_fs k) (inode d)) as [close|] eqn:Ec.
  - destruct (i_close_total _ _ _ Hl Ec) as (f' & E & Hf). apply (wp_ok _ _ _ tt (set_fs f' k)); [|by exists f'].
    unfold in_fs. by rewrite E.
  - apply wp_ret. exists (k_fs k). split; [by destruct k|done].
Qed.

Lemma current_stays (ps : gmap Z (process T)) p y c : is_Some (ps !! c) -> is_Some (<[p := y]> ps !! c).
Proof.
  intros Hc. destruct (decide (p = c)) as [->|]; [rewrite lookup_insert_eq; eauto|by rewrite lookup_insert_ne].
Qed.

(** Closing a descriptor of [p] that designates [a]. *)
Definition closed (k k' : state) (p fd a : Z) : Prop :=
  exists x d t', procs k !! p = Some x /\ files k !! a = Some d /\
    slot_changed (file_descriptors x) t' fd None /\ slot_size t' = slot_size (file_descriptors x) /\
    procs k' = <[p := set_table t' x]> (procs k) /\ current_task k' = current_task k /\
    ready_queue k' = ready_queue k /\ next_pid k' = next_pid k /\
    files k' = (if reference_count d =? 1 then delete a (files k)
                else <[a := set_refs (reference_count d - 1) d]> (files k)).

Lemma vfs_close_process_spec (k : state) p fd x :
  fds_ok k -> procs k !! p = Some x ->
  wp (vfs_close_process p fd) (fun rc k' =>
    match (if fd <? 0 then None else slot_view (file_descriptors x) fd) with
    | None => rc = -1 /\ k' = k
    | Some a => rc = 0 /\ fds_ok k' /\ closed k k' p fd a
    end) k.
Proof.
  intros Hk Hp. unfold vfs_close_process. eapply wp_get_vfs_fd; [done|reflexivity|done|].
  destruct (Z.ltb_spec fd 0) as [|Hfd]; [by apply wp_ret|].
  destruct (slot_view (file_descriptors x) fd) as [a|] eqn:Ev; [|by apply wp_ret].
  destruct (consistent_slot _ _ _ _ _ _ (fo_consistent _ Hk) Hp Ev) as [d Hd].
  pose proof Hk as [Hc Hi Hcur]. destruct (con_refs _ _ Hc _ _ Hd) as [Hr Hr0].
  pose proof (con_tables _ _ Hc _ _ Hp) as Ht.
  destruct (slot_remove_one _ _ _ Ht Ev) as (t' & Er & Hch & Hsz).
  pose proof (slot_view_range _ _ _ Ht Ev) as Hrange.
  assert (Htot : forall b, total (<[p := set_table t' x]> (procs k)) b =
    total (procs k) b - c_int (bool_decide (Some a = Some b))).
  { intros b. rewrite (total_changed _ _ _ _ _ _ _ Hp Ht Hch) by lia. rewrite Ev.
    rewrite (bool_decide_false (None = Some b)) by done. cbn. lia. }
  assert (Hne : forall b, b <> a -> total (<[p := set_table t' x]> (procs k)) b = total (procs k) b).
  { intros b Hb. rewrite Htot, bool_decide_false by congruence. cbn. lia. }
  specialize (Htot a). rewrite bool_decide_true in Htot by done. cbn [c_int] in Htot.
  apply (wp_fd_at _ d); [done|]. apply wp_assert; [by apply Z.ltb_lt|]. cbn zeta. apply wp_modify.
  apply (wp_proc_at _ x); [done|]. eapply wp_lift; [exact Er|]. apply wp_modify.
  cbn [reference_count set_refs inode]. pose proof (tables_changed _ p x t' (con_tables _ _ Hc) (proj1 Hch)) as Htab.
  destruct (Z.eqb_spec (reference_count d - 1) 0) as [Hz|Hnz].
  - apply wp_gets. apply wp_bind.
    eapply wp_mono; [apply (close_inode _ (set_refs (reference_count d - 1) d)); exact (Hi a d Hd)|]. intros _ k1 (f' & -> & Hl). apply wp_modify, wp_modify, wp_ret.
    split; [done|]. split.
    + split; cbn [files procs current_task set_files set_procs set_fs k_fs].
      * rewrite delete_insert_eq. apply (consistent_delete _ (procs k)); [done|done|done|lia].
      * rewrite delete_insert_eq. intros b e [Hb E]%lookup_delete_Some. apply i_free_others; [by eapply Hl, Hi|].
        intros Ei. by apply Hb, (con_inodes _ _ Hc _ _ d e).
      * by apply current_stays.
    + exists x, d, t'. split_and!; try done. cbn [files set_files set_fs set_procs]. rewrite delete_insert_eq.
      by destruct (Z.eqb_spec (reference_count d) 1); [|lia].
  - apply wp_ret. split; [done|]. split.
    + split; cbn [files procs current_task set_files set_procs k_fs].
      * apply (consistent_update _ (procs k)); [done|done|done|lia|cbn [reference_count set_refs]; lia|].
        intros b e Hb E Ei. by apply Hb, (con_inodes _ _ Hc _ _ e d).
      * intros b e [[<- <-]|[_ E]]%lookup_insert_Some; [exact (Hi a d Hd)|by apply (Hi b)].
      * by apply current_stays.
    + exists x, d, t'. split_and!; try done. cbn [files set_files set_procs].
      by destruct (Z.eqb_spec (reference_count d) 1); [lia|].
Qed.

(** Another slot of [p] designates [a]. *)
Definition gained (k k' : state) (p i a : Z) : Prop :=
  exists x t', procs k !! p = Some x /\ slot_view (file_descriptors x) i = None /\ 0 <= i /\
    (forall j, 0 <= j < i -> slot_view (file_descriptors x) j <> None) /\
    slot_changed (file_descriptors x) t' i (Some a) /\ procs k' = <[p := set_table t' x]> (procs k) /\
    current_task k' = current_task k /\ k_fs k' = k_fs k /\ ready_queue k' = ready_queue k /\
    slot_size (file_descriptors x) <= slot_size t' <= slot_size (file_descriptors x) + 64.

Lemma add_slot_spec (k : state) p x a :
  slot_ok (file_descriptors x) -> slot_size (file_descriptors x) + 64 < 2 ^ 32 -> procs k !! p = Some x ->
  wp (add_slot p a) (fun r k' => files k' = files k /\
    match r with
    | Some i => gained k k' p i a /\
        (forall b, total (procs k') b = total (procs k) b + c_int (bool_decide (a = b))) /\
        (forall q y, q <> p -> procs k' !! q = Some y -> procs k !! q = Some y) /\
        (forall y, procs k' !! p = Some y -> slot_ok (file_descriptors y))
    | None => (procs k' = procs k \/
          exists t h, slot_add (file_descriptors x) a (k_heap k) = Ok (None, t, h) /\ ~ slot_ok t) /\
        current_task k' = current_task k /\ k_fs k' = k_fs k /\
        forall j, 0 <= j < slot_size (file_descriptors x) -> slot_view (file_descriptors x) j <> None
    end) k.
Proof.
  intros Ht Hroom Hp. unfold add_slot. apply (wp_proc_at _ x); [done|]. apply wp_gets.
  destruct (slot_add_lowest (file_descriptors x) a (k_heap k) Ht Hroom) as (r & t' & h' & E & Hr).
  eapply wp_lift; [exact E|]. apply wp_modify, wp_modify, wp_ret. split; [done|].
  destruct r as [i|]; cbn [procs current_task k_fs set_procs set_heap].
  - destruct Hr as (Hi & Hv & Hlow & Hch & Hsz). split_and!; [by exists x, t'|..].
    + intros b. assert (i < slot_size t') by (pose proof (slot_view_range t' i a (proj1 Hch));
        destruct Hch as [_ Hch]; rewrite Hch, Z.eqb_refl in *; intuition lia).
      rewrite (total_changed _ _ _ _ _ _ _ Hp Ht Hch) by lia. rewrite Hv.
      rewrite (bool_decide_false (None = Some b)) by done.
      rewrite (bool_decide_ext (Some a = Some b) (a = b)) by (split; congruence). cbn [c_int]. lia.
    + intros q y Hq E'. by rewrite lookup_insert_ne in E'.
    + intros y E'. rewrite lookup_insert_eq in E'. injection E' as <-. by destruct Hch.
  - destruct Hr as [[->|Hbad] Hfull]; (split_and!; [|done..]); [left|right; by exists t', h'].
    rewrite <- (insert_id (procs k) p x) at 2 by done. by destruct x.
Qed.

Lemma add_slot_tables (k k' : state) p :
  consistent (files k) (procs k) ->
  (forall q y, q <> p -> procs k' !! q = Some y -> procs k !! q = Some y) ->
  (forall y, procs k' !! p = Some y -> slot_ok (file_descriptors y)) ->
  forall q y, procs k' !! q = Some y -> slot_ok (file_descriptors y).
Proof.
  intros Hc Ho Hp q y E. destruct (decide (q = p)) as [->|Hq]; [by apply Hp|].
  by eapply con_tables, Ho.
Qed.

Lemma vfs_dup_spec (k : state) fd x :
  fds_ok k -> procs k !! current_task k = Some x -> slot_size (file_descriptors x) + 64 < 2 ^ 32 ->
  (forall a t h, slot_add (file_descriptors x) a (k_heap k) = Ok (None, t, h) -> slot_ok t) ->
  wp (vfs_dup fd) (fun rc k' => fds_ok k' /\
    match (if fd <? 0 then None else slot_view (file_descriptors x) fd) with
    | None => rc = - EBADF /\ k' = k
    | Some a => (rc = - EMFILE /\ files k' = files k /\ procs k' = procs k) \/ gained k k' (current_task k) rc a
    end) k.
Proof.
  intros Hk Hp Hroom Husable. unfold vfs_dup. eapply wp_get_vfs_fd; [done|reflexivity|done|].
  destruct (Z.ltb_spec fd 0) as [|Hfd]; [by apply wp_ret|].
  destruct (slot_view (file_descriptors x) fd) as [a|] eqn:Ev; [|by apply wp_ret].
  pose proof Hk as [Hc Hi Hcur]. destruct (consistent_slot _ _ _ _ _ _ Hc Hp Ev) as [d Hd].
  pose proof (con_tables _ _ Hc _ _ Hp) as Ht. destruct (con_refs _ _ Hc _ _ Hd) as [Hr Hr0].
  apply wp_gets, wp_bind. eapply wp_mono; [by apply (add_slot_spec k _ x a)|].
  intros r k' (Ef & Hm). destruct r as [i|]; cycle 1.
  { destruct Hm as ([Ep|(t & h & E & Hbad)] & Ec & Es & _); [|by destruct Hbad; eapply Husable].
    apply wp_ret. split; [|by left].
    split; rewrite ?Ef, ?Ep, ?Ec, ?Es; done. }
  destruct Hm as (Hg & Htot & Ho & Hnew). pose proof (add_slot_tables _ _ _ Hc Ho Hnew) as Htab.
  apply (wp_fd_at _ d); [by rewrite Ef|]. apply wp_modify, wp_ret.
  pose proof Hg as (x' & t' & Hp' & Hv & Hi0 & Hlow & Hch & Ep & Ec & Es & Eq). split.
  - split; cbn [files procs current_task k_fs set_files].
    + rewrite Ef. apply (consistent_update _ (procs k)); [done|done|..].
      * intros b Hb. rewrite Htot, bool_decide_false by done. cbn. lia.
      * rewrite Htot, bool_decide_true by done. cbn. lia.
      * rewrite Htot, bool_decide_true by done. cbn [c_int reference_count set_refs]. lia.
      * intros b e Hb E Ei. by apply Hb, (con_inodes _ _ Hc _ _ e d).
    + rewrite Ef, Es. intros b e [[<- <-]|[_ E]]%lookup_insert_Some; [exact (Hi a d Hd)|by apply (Hi b)].
    + rewrite Ep, Ec. by apply current_stays.
  - right. by exists x', t'.
Qed.

(** A new open file for the inode [i], which no other open file has. *)
Lemma vfs_create_fd_spec (k : state) fl md tty i x :
  fds_ok k -> procs k !! current_task k = Some x -> slot_size (file_descriptors x) + 64 < 2 ^ 32 ->
  (exists j, 0 <= j < slot_size (file_descriptors x) /\ slot_view (file_descriptors x) j = None) ->
  i_live (k_fs k) i -> (forall a d, files k !! a = Some d -> inode d <> i) ->
  wp (vfs_create_fd fl md tty i) (fun '(fd, a) k' => fds_ok k' /\ files k !! a = None /\
    gained k k' (current_task k) fd a /\ files k' = <[a := mkFd 0 fl md tty 1 i]> (files k)) k.
Proof.
  intros Hk Hp Hroom (j & Hj & Hfree) Hl Hnew. pose proof Hk as [Hc Hi Hcur].
  unfold vfs_create_fd. apply wp_gets, wp_modify, wp_gets, wp_bind.
  set (a := fresh (dom (files k))). assert (Ha : files k !! a = None) by apply not_elem_of_dom, is_fresh.
  assert (Hz : total (procs k) a = 0).
  { pose proof (total_nonneg (procs k) a). destruct (Z.eq_dec (total (procs k) a) 0) as [|Hn]; [done|].
    destruct (con_live _ _ Hc a ltac:(lia)) as [d Hd]. congruence. }
  pose proof (con_tables _ _ Hc _ _ Hp) as Ht.
  eapply wp_mono; [by apply (add_slot_spec _ _ x a)|]. intros r k' (Ef & Hm). destruct r as [fd|]; cycle 1.
  { destruct Hm as (_ & _ & _ & Hfull). by destruct (Hfull j Hj). }
  destruct Hm as (Hg & Htot & Ho & Hn). apply (wp_lift _ fd); [done|]. apply wp_ret.
  pose proof (add_slot_tables k k' _ Hc Ho Hn) as Htab. cbn [files procs set_files] in *.
  pose proof Hg as (x' & t' & Hp' & Hv & Hi0 & Hlow & Hch & Ep & Ec & Es & Eq). cbn [procs current_task k_fs set_files] in *.
  split_and!; [split|done|by exists x', t'|done].
  - rewrite Ef. apply (consistent_update _ (procs k)); [done|done|..].
    + intros b Hb. rewrite Htot, bool_decide_false by done. cbn. lia.
    + rewrite Htot, bool_decide_true by done. cbn. lia.
    + rewrite Htot, bool_decide_true by done. cbn. lia.
    + intros b e Hb E. by apply (Hnew b e).
  - rewrite Ef, Es. intros b e [[<- <-]|[_ E]]%lookup_insert_Some; [done|by apply (Hi b)].
  - rewrite Ep, Ec. by apply current_stays.
Qed.

(** After a descriptor was closed its slot is empty and the others are as they were. *)
Lemma close_slot (k : state) p fd x :
  fds_ok k -> procs k !! p = Some x -> 0 <= fd ->
  wp (vfs_close_process p fd) (fun _ k' => fds_ok k' /\ current_task k' = current_task k /\
    exists x', procs k' !! p = Some x' /\ slot_size (file_descriptors x') = slot_size (file_descriptors x) /\
      (forall j, slot_view (file_descriptors x') j = if j =? fd then None else slot_view (file_descriptors x) j) /\
      p_memory x' = p_memory x /\ p_wait x' = p_wait x) k.
Proof.
  intros Hk Hp Hfd. eapply wp_mono; [by apply (vfs_close_process_spec k p fd x)|].
  intros rc k' Hm. destruct (Z.ltb_spec fd 0); [lia|].
  destruct (slot_view (file_descriptors x) fd) as [a|] eqn:Ev.
  - destruct Hm as (_ & Hk' & x' & d & t' & Hp' & Hd & [Hok Hch] & Hsz & Ep & Ec & _). assert (x' = x) as -> by congruence.
    split_and!; [done|done|]. exists (set_table t' x). rewrite Ep, lookup_insert_eq. by split_and!.
  - destruct Hm as [_ ->]. split_and!; [done|done|]. exists x. split_and!; try done.
    intros j. by destruct (Z.eqb_spec j fd) as [->|].
Qed.

Lemma vfs_dup2_spec (k : state) org new x a :
  fds_ok k -> procs k !! current_task k = Some x -> 0 <= org -> slot_view (file_descriptors x) org = Some a ->
  0 <= new < slot_size (file_descriptors x) -> org <> new ->
  wp (vfs_dup2 org new) (fun rc k' => rc = 1 /\ fds_ok k' /\ current_task k' = current_task k /\
    exists x', procs k' !! current_task k = Some x' /\
      forall j, slot_view (file_descriptors x') j = if j =? new then Some a else slot_view (file_descriptors x) j) k.
Proof.
  intros Hk Hp Ho Ev Hn Hne. unfold vfs_dup2. destruct (Z.eqb_spec org new); [done|].
  unfold vfs_close. apply wp_bind, wp_gets. eapply wp_mono; [by apply (close_slot k _ new x); [| |lia]|].
  intros _ k1 (Hk1 & Ec & x1 & Hp1 & Hsz & Hv1 & _). pose proof Hk1 as [Hc Hi Hcur].
  pose proof (con_tables _ _ (fo_consistent _ Hk) _ _ Hp) as Ht.
  pose proof (slot_view_range _ _ _ Ht Ev) as Hr. pose proof (slot_size_bound _ Ht) as Hb.
  assert (Ev1 : slot_view (file_descriptors x1) org = Some a).
  { rewrite Hv1. by destruct (Z.eqb_spec org new). }
  assert (En1 : slot_view (file_descriptors x1) new = None) by (by rewrite Hv1, Z.eqb_refl).
  pose proof (con_tables _ _ Hc _ _ Hp1) as Ht1.
  apply wp_gets. rewrite Ec. apply (wp_proc_at _ x1); [done|]. rewrite !u32_small by lia.
  eapply wp_lift; [by apply slot_get_view; [|lia]|]. rewrite Ev1. cbn iota.
  destruct (consistent_slot _ _ _ _ _ _ Hc Hp1 Ev1) as [d Hd]. destruct (con_refs _ _ Hc _ _ Hd) as [Hr1 Hr0].
  apply (wp_fd_at _ d); [done|]. apply wp_assert; [apply Z.leb_le; lia|].
  destruct (slot_set_one (file_descriptors x1) new a Ht1 ltac:(lia)) as (t' & Es & Hch & Hsz').
  eapply wp_lift; [exact Es|]. apply wp_modify, wp_modify, wp_assert; [apply Z.leb_le; lia|]. apply wp_ret.
  assert (Htot : forall b, total (<[current_task k := set_table t' x1]> (procs k1)) b =
    total (procs k1) b + c_int (bool_decide (Some a = Some b))).
  { intros b. rewrite (total_changed _ _ _ _ _ _ _ Hp1 Ht1 Hch), En1 by lia.
    rewrite (bool_decide_false (None = Some b)) by done. cbn. lia. }
  split_and!; [done| |by rewrite <- Ec|].
  - split; cbn [files procs current_task k_fs set_files set_procs].
    + apply (consistent_update _ (procs k1)); [done|apply tables_changed; [apply Hc|apply Hch]|..].
      * intros b Hb'. rewrite Htot, bool_decide_false by congruence. cbn. lia.
      * rewrite Htot, bool_decide_true by done. cbn. lia.
      * rewrite Htot, bool_decide_true by done. cbn [c_int reference_count set_refs]. lia.
      * intros b e Hb' E Ei. by apply Hb', (con_inodes _ _ Hc _ _ e d).
    + intros b e [[<- <-]|[_ E]]%lookup_insert_Some; [exact (Hi a d Hd)|by apply (Hi b)].
    + rewrite Ec in *. by apply current_stays.
  - exists (set_table t' x1). cbn [procs set_files set_procs]. rewrite lookup_insert_eq. split; [done|].
    intros j. destruct Hch as [_ Hch]. cbn [file_descriptors set_table]. rewrite Hch, Hv1. by destruct (j =? new).
Qed.

(** The arguments a program can pass to make the kernel panic. *)
Lemma dup2_panics (k : state) org new x :
  fds_ok k -> procs k !! current_task k = Some x -> org <> new -> 0 <= org < 2 ^ 31 -> 0 <= new < 2 ^ 31 ->
  slot_view (file_descriptors x) org = None \/ slot_size (file_descriptors x) <= new ->
  vfs_dup2 org new k = Panic.
Proof.
  intros Hk Hp Hne Ho Hn Hbad. unfold vfs_dup2. destruct (Z.eqb_spec org new); [done|].
  unfold vfs_close. destruct (close_slot k (current_task k) new x Hk Hp ltac:(lia))
    as (rc & k1 & E & Hk1 & Ec & x1 & Hp1 & Hsz & Hv1 & _).
  rewrite (ok_bind _ _ k rc k1) by (by rewrite gets_bind). rewrite gets_bind, Ec.
  rewrite (ok_bind (proc_at _) _ k1 x1 k1) by (unfold proc_at; by rewrite Hp1).
  pose proof (con_tables _ _ (fo_consistent _ Hk1) _ _ Hp1) as Ht1. rewrite !u32_small by lia.
  rewrite (slot_get_view _ org Ht1) by lia. rewrite lift_bind. cbn beta iota.
  assert (Eo : slot_view (file_descriptors x1) org = slot_view (file_descriptors x) org).
  { rewrite Hv1. by destruct (Z.eqb_spec org new). }
  destruct (slot_view (file_descriptors x1) org) as [a|] eqn:Ev; [|done].
  destruct Hbad as [Hnone|Hout]; [congruence|].
  destruct (consistent_slot _ _ _ _ _ _ (fo_consistent _ Hk1) Hp1 Ev) as [d Hd].
  destruct (con_refs _ _ (fo_consistent _ Hk1) _ _ Hd) as [_ Hr0].
  rewrite (ok_bind (fd_at a) _ k1 d k1) by (unfold fd_at; by rewrite Hd).
  rewrite (ok_bind (m_assert _) _ k1 tt k1) by (unfold m_assert, lift; rewrite (proj2 (Z.leb_le 1 _)) by lia; done).
  rewrite (slot_set_outside _ new a Ht1) by lia. done.
Qed.

(** ** Copying a table *)

(** Every open file [a] gets [g a] more references. *)
Definition shared (g : Z -> Z) (m : gmap Z vfs_fd) : gmap Z vfs_fd :=
  map_imap (fun a d => Some (set_refs (reference_count d + g a) d)) m.

Lemma shared_lookup g m a : shared g m !! a = (fun d => set_refs (reference_count d + g a) d) <$> m !! a.
Proof. unfold shared. rewrite map_lookup_imap. by destruct (m !! a). Qed.

Lemma shared_none g m : (forall a, g a = 0) -> shared g m = m.
Proof.
  intros Hg. apply map_eq. intros a. rewrite shared_lookup, Hg. destruct (m !! a) as [d|]; [|done].
  cbn. rewrite Z.add_0_r. by destruct d.
Qed.

Lemma shared_step g g' m a d :
  m !! a = Some d -> (forall b, g b = g' b + c_int (bool_decide (a = b))) ->
  shared g' (<[a := set_refs (reference_count d + 1) d]> m) = shared g m.
Proof.
  intros Hd Hg. apply map_eq. intros b. rewrite !shared_lookup, Hg. destruct (decide (a = b)) as [->|Hne].
  - rewrite lookup_insert_eq, Hd, bool_decide_true by done. unfold set_refs. cbn.
    by replace (reference_count d + 1 + g' b) with (reference_count d + (g' b + 1)) by lia.
  - rewrite lookup_insert_ne, bool_decide_false by done. cbn [c_int]. by rewrite Z.add_0_r.
Qed.

Lemma share_files_spec (t : T) n i (k : state) :
  slot_ok t -> 0 <= i <= slot_size t -> slot_size t - i < Z.of_nat n ->
  (forall j a, slot_view t j = Some a -> is_Some (files k !! a)) ->
  wp (share_files n i t) (fun _ k' =>
    k' = set_files (shared (fun a => count t a - cnt (Z.to_nat i) (slot_view t) a) (files k)) k) k.
Proof.
  intros Ht. revert i k. induction n as [|n IH]; intros i k Hi Hn Hl; [lia|]. cbn [share_files].
  eapply wp_lift; [by apply slot_get_view; [|lia]|]. cbn beta iota.
  assert (Hs : i < slot_size t -> forall a, cnt (Z.to_nat (i + 1)) (slot_view t) a =
    cnt (Z.to_nat i) (slot_view t) a + c_int (bool_decide (slot_view t i = Some a))).
  { intros Hlt a. replace (Z.to_nat (i + 1)) with (S (Z.to_nat i)) by lia. cbn [cnt].
    by rewrite Z2Nat.id by lia. }
  destruct (slot_view t i) as [a|] eqn:Ev.
  - pose proof (slot_view_range _ _ _ Ht Ev) as Hr. destruct (Hl _ _ Ev) as [d Hd].
    apply (wp_fd_at _ d); [done|]. apply wp_modify. eapply wp_mono; [apply IH|]; [lia|lia|..].
    + intros j b Hj. cbn [files set_files]. destruct (Hl _ _ Hj) as [e He].
      destruct (decide (a = b)) as [->|]; [rewrite lookup_insert_eq; eauto|rewrite lookup_insert_ne by done; eauto].
    + intros _ k' ->. unfold set_files. cbn [files procs current_task ready_queue next_pid uptime k_fs k_heap k_memory].
      f_equal. apply shared_step; [done|]. intros b. rewrite (Hs ltac:(lia)).
      rewrite (bool_decide_ext (Some a = Some b) (a = b)) by (split; congruence). lia.
  - destruct (Z.leb_spec (slot_size t) i).
    + apply wp_ret. rewrite shared_none; [by destruct k|]. intros a. unfold count.
      replace i with (slot_size t) by lia. lia.
    + eapply wp_mono; [by apply IH; [lia|lia|]|]. intros _ k' ->. unfold set_files. f_equal.
      apply map_eq. intros a. rewrite !shared_lookup. destruct (files k !! a) as [d|]; [|done]. cbn.
      rewrite (Hs ltac:(lia)), bool_decide_false by done. cbn. do 2 f_equal. lia.
Qed.

(** A table with the slots of that of [p] is added. *)
Lemma consistent_fork m ps r y t :
  consistent m ps -> ps !! r = None -> file_descriptors y = t -> slot_ok t ->
  (forall a, 0 < count t a -> 0 < total ps a) -> (forall a, 0 <= count t a) ->
  consistent (shared (count t) m) (<[r := y]> ps).
Proof.
  intros Hc Hr Ey Ht Hsub Hpos. split.
  - intros p x [[<- <-]|[_ E]]%lookup_insert_Some; [by rewrite Ey|by eapply con_tables].
  - intros a d. rewrite shared_lookup, (total_new _ _ _ _ Hr), Ey. intros (e & He & ->)%fmap_Some.
    destruct (con_refs _ _ Hc _ _ He). specialize (Hpos a). cbn [reference_count set_refs]. lia.
  - intros a Ha. rewrite shared_lookup. rewrite (total_new _ _ _ _ Hr), Ey in Ha. apply fmap_is_Some.
    apply (con_live _ _ Hc). specialize (Hsub a). specialize (Hpos a). pose proof (total_nonneg ps a).
    destruct (Z.eq_dec (total ps a) 0); lia.
  - intros a b d e. rewrite !shared_lookup. intros (d' & Hd & ->)%fmap_Some (e' & He & ->)%fmap_Some. cbn.
    by apply (con_inodes _ _ Hc).
Qed.

(** The strings of a process and the memory a copy of it needs. *)
Record can_fork (k : state) (p : Z) (x : process T) (name cwd root : list Z) : Prop := {
  cf_name : cstr (program_name x) name;
  cf_name_len : zlen name + 7 < NAME_SIZE;
  cf_cwd : cstr (current_working_directory x) cwd;
  cf_cwd_len : zlen cwd < 256;
  cf_root : cstr (root_path x) root;
  cf_root_len : zlen root < 256;
  cf_space : exists d v, clone_directory (cr3 (p_memory x)) (k_memory k) = Ok (Some d, v)
}.

Lemma init_lists_spec (k : state) : wp init_lists (fun _ k' => exists h, k' = set_heap h k) k.
Proof.
  unfold init_lists. apply wp_gets. destruct (KList.list_init (k_heap k)) as [l1 h1].
  destruct (KList.list_init h1) as [l2 h2]. destruct (KList.list_init h2) as [l3 h3].
  apply wp_modify, wp_ret. by exists h3.
Qed.

Lemma count_same t t' a :
  (forall i, slot_view t' i = slot_view t i) -> slot_size t' = slot_size t -> count t' a = count t a.
Proof. intros Hv Hs. unfold count. rewrite Hs. by apply cnt_ext. Qed.

Lemma child_name : strlcpy (replicate (Z.to_nat NAME_SIZE) 0) CHILD_NAME NAME_SIZE =
  Ok (CHILD_NAME ++ replicate 92 0, 7).
Proof. vm_compute. reflexivity. Qed.

(** The names before the copy of the table. *)
Lemma child_strings (k : state) p x name cwd root :
  can_fork k p x name cwd root ->
  exists nm cw rt, strcat (CHILD_NAME ++ replicate 92 0) (program_name x) = Ok nm /\
    strcpy (replicate 256 0) (current_working_directory x) = Ok cw /\ strcpy (replicate 256 0) (root_path x) = Ok rt.
Proof.
  intros [Hn Hnl Hc Hcl Hr Hrl _]. unfold strcat, strcpy. pose proof (zlen_nonneg name).
  rewrite (strlen_spec _ (take 7 CHILD_NAME)) by (exists (replicate 92 0); split; [done|repeat constructor; done]).
  cbn [mbind outcome_bind]. change (zlen (take 7 CHILD_NAME)) with 7.
  destruct (strcpy_at_fits (CHILD_NAME ++ replicate 92 0) 7 _ _ Hn) as (nm & E1 & _);
    [lia|change (zlen (CHILD_NAME ++ replicate 92 0)) with NAME_SIZE; lia|].
  destruct (strcpy_at_fits (replicate 256 0) 0 _ _ Hc) as (cw & E2 & _); [lia|change (zlen (replicate 256 0)) with 256; lia|].
  destruct (strcpy_at_fits (replicate 256 0) 0 _ _ Hr) as (rt & E3 & _); [lia|change (zlen (replicate 256 0)) with 256; lia|].
  by exists nm, cw, rt.
Qed.

(** [k'] has the process [c], whose descriptors are those of [x], and the others as
    they were. *)
Definition forked (k k' : state) (x : process T) (c : Z) : Prop :=
  procs k !! c = None /\
  ready_queue k' = ready_queue k /\
  exists y, procs k' !! c = Some y /\ (forall j, slot_view (file_descriptors y) j = slot_view (file_descriptors x) j) /\
    pid y = next_pid k /\ next (p_links y) = None /\
    forall q z, procs k !! q = Some z ->
      exists z', procs k' !! q = Some z' /\ file_descriptors z' = file_descriptors z /\ p_wait z' = p_wait z /\
        pid z' = pid z /\ next (p_links z') = next (p_links z).

Lemma create_child_spec (k : state) p x name cwd root :
  fds_ok k -> procs k !! p = Some x -> can_fork k p x name cwd root ->
  wp (create_child p) (fun r k' => fds_ok k' /\ current_task k' = current_task k /\
    match r with
    | None => files k' = files k /\ procs k' = procs k /\ ready_queue k' = ready_queue k
    | Some c => forked k k' x c
    end) k.
Proof.
  intros Hk Hp Hf. destruct (child_strings _ _ _ _ _ _ Hf) as (nm & cw & rt & E1 & E2 & E3).
  pose proof Hk as [Hc Hi Hcur]. pose proof (con_tables _ _ Hc _ _ Hp) as Ht.
  unfold create_child, take_pid. apply wp_gets. set (r := fresh (dom (procs k))).
  assert (Hr : procs k !! r = None) by apply not_elem_of_dom, is_fresh.
  apply wp_bind, wp_gets, wp_modify, wp_ret. eapply wp_lift; [exact child_name|]. cbn beta iota.
  apply (wp_proc_at _ x); [done|]. eapply wp_lift; [exact E1|]. apply wp_gets.
  cbn [k_heap set_next_pid].
  destruct (slot_clone_same (file_descriptors x) (k_heap k) Ht) as (ok & t' & h' & E4 & Hcl).
  eapply wp_lift; [exact E4|]. cbn beta iota. apply wp_modify. destruct ok; cbn [negb]; cycle 1.
  { apply wp_ret. by split_and!; [split|..]. }
  destruct (Hcl eq_refl) as (Ht' & Hv' & Hs'). pose proof (slot_size_bound _ Ht').
  apply wp_bind. eapply wp_mono; [apply share_files_spec; [done|lia|lia|]|].
  { intros j a. cbn [files set_heap set_next_pid]. rewrite Hv'. by apply consistent_slot with (ps := procs k) (p := p). }
  intros _ k1 ->. destruct (cf_space _ _ _ _ _ _ Hf) as (d & v & Ed).
  eapply wp_in_space; [exact Ed|]. apply (wp_on_proc _ x); [done|]. apply wp_bind.
  eapply wp_mono; [apply init_lists_spec|]. intros w k2 (h2 & ->).
  eapply wp_lift; [exact E2|]. eapply wp_lift; [exact E3|]. apply wp_modify, wp_ret.
  cbn [files procs current_task k_fs set_files set_procs set_heap set_space set_next_pid].
  set (px := set_links _ x). set (y := mkProcess _ _ _ _ _ _ _ _ _).
  assert (Hrp : r <> p) by (intros E; congruence).
  assert (Hg : shared (fun a => count t' a - cnt (Z.to_nat 0) (slot_view t') a) (files k) = shared (count t') (files k)).
  { apply map_eq. intros a. rewrite !shared_lookup. cbn [Z.to_nat cnt]. by rewrite Z.sub_0_r. }
  assert (Hcp : consistent (files k) (<[p := px]> (procs k))).
  { destruct Hc as [C1 C2 C3 C4]. assert (Hsame : forall a, total (<[p := px]> (procs k)) a = total (procs k) a)
      by (intros a; by apply (total_same _ _ x)).
    split; [|intros a e; rewrite Hsame; apply C2|intros a; rewrite Hsame; apply C3|done].
    intros q z [[<- <-]|[_ E]]%lookup_insert_Some; [by apply (C1 p x)|by eapply C1]. }
  split_and!; [split; cbn [files procs current_task k_fs set_files set_procs set_heap set_space set_next_pid]|done|].
  - rewrite Hg. apply consistent_fork; [done| |done|done|..].
    + rewrite lookup_insert_ne by done. done.
    + intros a Ha. rewrite (total_same _ _ x) by done. rewrite (count_same (file_descriptors x)) in Ha by done.
      rewrite (total_delete _ _ _ _ Hp). pose proof (total_nonneg (delete p (procs k)) a). lia.
    + intros a. apply cnt_nonneg.
  - intros a e. rewrite shared_lookup. intros (e' & He & ->)%fmap_Some. exact (Hi a e' He).
  - by apply current_stays, current_stays.
  - split; [done|]. split; [done|]. exists y. cbn [procs set_procs]. rewrite lookup_insert_eq. split_and!; [done..|].
    intros q z Hq. assert (r <> q) by (intros ->; congruence). rewrite lookup_insert_ne by done.
    destruct (decide (p = q)) as [->|]; [rewrite lookup_insert_eq; exists px; simplify_eq; by split_and!|].
    rewrite lookup_insert_ne by done. by exists z.
Qed.

(** ** The end of a process *)

Lemma close_all_spec n i (k : state) p x :
  fds_ok k -> procs k !! p = Some x -> maps (p_memory x) = replicate 100 None -> 0 <= i -> i + Z.of_nat n <= 100 ->
  wp (free_loop n i p) (fun _ k' => fds_ok k' /\ current_task k' = current_task k /\
    exists x', procs k' !! p = Some x' /\
      forall j, slot_view (file_descriptors x') j =
        if (i <=? j) && (j <? i + Z.of_nat n) then None else slot_view (file_descriptors x) j) k.
Proof.
  revert i k x. induction n as [|n IH]; intros i k x Hk Hp Hm Hi Hn; cbn [free_loop].
  { apply wp_ret. split_and!; [done|done|]. exists x. split; [done|]. intros j.
    by destruct (Z.leb_spec i j), (Z.ltb_spec j (i + Z.of_nat 0)); try lia. }
  apply wp_bind. eapply wp_mono; [by apply (close_slot k p i x)|].
  intros _ k1 (Hk1 & Ec & x1 & Hp1 & _ & Hv & Hmem & _). apply (wp_proc_at _ x1); [done|].
  rewrite Hmem, Hm. apply (wp_lift _ None).
  { unfold aread, znth. destruct (Z.leb_spec 0 i); [|lia]. by rewrite lookup_replicate_2 by lia. }
  eapply wp_mono; [apply (IH (i + 1) k1 x1); [done|done|by rewrite Hmem|lia|lia]|].
  intros _ k2 (Hk2 & Ec2 & x2 & Hp2 & Hv2). split_and!; [done|congruence|]. exists x2. split; [done|].
  intros j. rewrite Hv2, Hv. destruct (Z.eqb_spec j i), (Z.leb_spec (i + 1) j), (Z.leb_spec i j),
    (Z.ltb_spec j (i + 1 + Z.of_nat n)), (Z.ltb_spec j (i + Z.of_nat (S n))); cbn [andb]; try lia; done.
Qed.

(** A table without descriptors can be replaced by another one. *)
Lemma consistent_empty m ps p x y :
  consistent m ps -> ps !! p = Some x -> (forall i, slot_view (file_descriptors x) i = None) ->
  slot_ok (file_descriptors y) -> (forall i, slot_view (file_descriptors y) i = None) ->
  consistent m (<[p := y]> ps).
Proof.
  intros [C1 C2 C3 C4] Hp Hx Hy Hv. assert (Hsame : forall a, total (<[p := y]> ps) a = total ps a).
  { intros a. rewrite (total_insert _ _ _ _ _ Hp), !count_empty by done. lia. }
  split; [|intros a e; rewrite Hsame; apply C2|intros a; rewrite Hsame; apply C3|done].
  intros q z [[<- <-]|[_ E]]%lookup_insert_Some; [done|by eapply C1].
Qed.

Lemma free_process_spec (k : state) p x :
  fds_ok k -> procs k !! p = Some x -> maps (p_memory x) = replicate 100 None ->
  (forall j a, slot_view (file_descriptors x) j = Some a -> j < 100) ->
  wp (free_process p) (fun _ k' => fds_ok k' /\ current_task k' = current_task k /\
    exists x', procs k' !! p = Some x' /\ forall j, slot_view (file_descriptors x') j = None) k.
Proof.
  intros Hk Hp Hm Hlow. unfold free_process. apply wp_bind.
  eapply wp_mono; [by apply (close_all_spec 100 0 k p x)|]. intros _ k1 (Hk1 & Ec & x1 & Hp1 & Hv).
  assert (Hnone : forall j, slot_view (file_descriptors x1) j = None).
  { intros j. rewrite Hv. destruct (Z.leb_spec 0 j), (Z.ltb_spec j (0 + Z.of_nat 100)); cbn [andb]; [done|..];
      destruct (slot_view (file_descriptors x) j) as [a|] eqn:E; try done; exfalso;
      pose proof (Hlow _ _ E); pose proof (slot_view_range _ _ _ (con_tables _ _ (fo_consistent _ Hk) _ _ Hp) E); lia. }
  apply (wp_proc_at _ x1); [done|]. apply wp_gets.
  destruct (KList.list_free (read_list (p_wait x1)) (k_heap k1)) as [l1 h1].
  destruct (KList.list_free (write_list (p_wait x1)) h1) as [l2 h2].
  destruct (KList.list_free (disconnect_list (p_wait x1)) h2) as [l3 h3].
  destruct (slot_free (file_descriptors x1) h3) as [t' h4] eqn:Ef.
  destruct (slot_free_empty _ _ _ _ Ef) as (Ht' & Hv' & _). apply wp_modify, wp_modify.
  destruct (free_pagedirectory_total (cr3 (p_memory x1)) (k_memory k1)) as (v' & Ev).
  set (y := set_table t' _). apply (wp_ok _ _ _ tt (set_space v' (set_procs (<[p := y]> (procs k1)) (set_heap h4 k1)))).
  { unfold in_space. cbn [k_memory set_procs set_heap]. by rewrite Ev. }
  pose proof Hk1 as [Hc Hi Hcur]. split_and!; [split; cbn [files procs current_task k_fs set_space set_procs set_heap]|done|].
  - by apply (consistent_empty _ _ _ x1).
  - done.
  - by apply current_stays.
  - exists y. cbn [procs set_space set_procs set_heap]. by rewrite lookup_insert_eq.
Qed.

(** ** All operations *)

Inductive fd_op : Type :=
| OpCreate (fl md tty i : Z)
| OpDup (fd : Z)
| OpDup2 (org new : Z)
| OpClose (fd : Z)
| OpFork
| OpFree (p : Z)
| OpSchedule (p : Z).

Definition run_fd_op (o : fd_op) : K unit :=
  match o with
  | OpCreate fl md tty i => vfs_create_fd fl md tty i ;; ret tt
  | OpDup fd => vfs_dup fd ;; ret tt
  | OpDup2 org new => vfs_dup2 org new ;; ret tt
  | OpClose fd => vfs_close fd ;; ret tt
  | OpFork => c ← gets current_task; create_process (Some c) ;; ret tt
  | OpFree p => free_process p
  | OpSchedule p => modify (set_current p)
  end.

(** The conditions under which an operation is carried out: there is room in the
    table, a table that cannot grow is left usable (relist.c loses the bitmap when the
    second of its two allocations fails), a new inode is not in use, [dup2] gets good descriptors, a process that
    ends has no descriptor above 99 and no maps. *)
Definition fd_op_ok (o : fd_op) (k : state) : Prop :=
  forall x, procs k !! current_task k = Some x ->
  let t := file_descriptors x in
  match o with
  | OpCreate _ _ _ i => slot_size t + 64 < 2 ^ 32 /\
      (exists j, 0 <= j < slot_size t /\ slot_view t j = None) /\
      i_live (k_fs k) i /\ (forall a d, files k !! a = Some d -> inode d <> i)
  | OpDup _ => slot_size t + 64 < 2 ^ 32 /\
      (forall a t' h, slot_add t a (k_heap k) = Ok (None, t', h) -> slot_ok t')
  | OpDup2 org new => (0 <= org /\ is_Some (slot_view t org) /\ 0 <= new < slot_size t) \/ org = new
  | OpClose _ => True
  | OpFork => exists name cwd root, can_fork k (current_task k) x name cwd root
  | OpFree p => exists y, procs k !! p = Some y /\ maps (p_memory y) = replicate 100 None /\
      (forall j a, slot_view (file_descriptors y) j = Some a -> j < 100)
  | OpSchedule p => is_Some (procs k !! p)
  end.

Lemma wp_drop {A} (m : K A) (P : state -> Prop) k : wp m (fun _ k' => P k') k -> wp (m ;; ret tt) (fun _ k' => P k') k.
Proof. intros W. apply wp_bind. eapply wp_mono; [exact W|]. intros a k' Hk. by apply wp_ret. Qed.

Lemma fd_op_keeps (k : state) o : fds_ok k -> fd_op_ok o k -> wp (run_fd_op o) (fun _ k' => fds_ok k') k.
Proof.
  intros Hk Ho. pose proof Hk as [_ _ [x Hx]]. specialize (Ho x Hx). cbn zeta in Ho.
  destruct o as [fl md tty i|fd|org new|fd| |p|p]; cbn [run_fd_op].
  - destruct Ho as (Hr & Hj & Hl & Hn). apply wp_drop. eapply wp_mono; [by apply (vfs_create_fd_spec k _ _ _ _ x)|].
    by intros [fd a] k' (? & _).
  - destruct Ho. apply wp_drop. eapply wp_mono; [by apply (vfs_dup_spec k fd x)|]. by intros rc k' [? _].
  - apply wp_drop. destruct (decide (org = new)) as [->|Hne].
    { unfold vfs_dup2. rewrite Z.eqb_refl. by apply wp_ret. }
    destruct Ho as [(? & [a Ha] & ?)|]; [|done].
    eapply wp_mono; [by apply (vfs_dup2_spec k org new x a)|]. by intros rc k' (_ & ? & _).
  - apply wp_drop. unfold vfs_close. apply wp_gets. eapply wp_mono; [by apply (vfs_close_process_spec k _ fd x)|].
    intros rc k' Hm. destruct (if fd <? 0 then None else slot_view (file_descriptors x) fd); [by destruct Hm as (_ & ? & _)|].
    by destruct Hm as [_ ->].
  - apply wp_gets, wp_drop. destruct Ho as (name & cwd & root & Hf). cbn [create_process].
    eapply wp_mono; [by apply (create_child_spec k _ x name cwd root)|]. by intros r k' (? & _).
  - destruct Ho as (y & Hy & Hm & Hlow). eapply wp_mono; [by apply (free_process_spec k p y)|]. by intros _ k' (? & _).
  - destruct Ho as [y Hy]. apply (wp_ok _ _ _ tt (set_current p k)); [done|]. destruct Hk as [Hc Hi _].
    by split; [|..|exists y].
Qed.

(** One operation that returns. *)
Definition fd_step (k k' : state) : Prop := exists o, fd_op_ok o k /\ run_fd_op o k = Ok (tt, k').

End Descriptors.

(** ** An instance: inodes without functions, in one address space *)

#[export] Instance plain_inodes : Inodes (gset Z) := {
  i_read _ _ := None; i_write _ _ := None; i_close _ _ := None; i_truncate _ _ := None;
  i_has_data _ _ := None; i_can_write _ _ := None; i_is_open_op _ _ := None; i_is_open _ _ := 1;
  i_type _ _ := 0; i_object_type _ _ := 0; i_file_size _ _ := 0; i_vm_object _ _ := None;
  vm_size _ _ := 0; vm_pages _ _ := []; vm_refs _ _ := 0; set_vm_refs _ _ f := f;
  i_stat _ _ := None; i_open _ _ := None; i_create_file _ _ := None; i_create_directory _ _ := None;
  i_unlink _ _ := None; i_free i f := f ∖ {[i]}
}.

#[export] Instance plain_laws : InodeLaws (gset Z).
Proof.
  refine {| i_live := fun f i => i ∈ f |}.
  - intros f d close _ [=].
  - intros f i j Hj Hne. change (j ∈ f ∖ {[i]}). set_solver.
Defined.

#[export] Instance one_space : AddressSpaces unit := {
  clone_directory _ v := Ok (Some 0, v); free_pagedirectory _ v := Ok (tt, v); get_active_pagedirectory _ := 0;
  set_active_directory _ v := v; allocate_region _ _ v := Ok (true, v); map_physical _ _ v := Ok (true, v);
  remove_mapping _ _ v := Ok (tt, v)
}.

#[export] Instance one_space_laws : SpaceLaws unit.
Proof. split; [intros d []; by exists (Some 0), tt|intros d []; by exists tt]. Qed.

(** A process with one descriptor, in slot 0. *)
Definition one_table : relist := mkRelist (Some (Block 4096 (replicate 64 7))) 1 1 (Some (Block 8192 [1])).

Definition one_process : process relist :=
  mkProcess 0 (KERNEL_NAME ++ replicate 91 0) (47 :: replicate 255 0) (47 :: replicate 255 0) one_table
    (mkWait no_list no_list no_list [0; 0] false false 0) no_signals (mkUser 0 0 (replicate 100 None))
    (mkLinks None None None 0 false 1).

Definition one_kernel : kernel (gset Z) Z relist unit :=
  mkKernel {[ 7 := mkFd 0 6 0 0 1 3 ]} {[ 1 := one_process ]} 1 (Some 1) 1 0 {[ 3; 4 ]} 4096 tt.

Lemma one_table_ok : rl_inv one_table.
Proof. split; cbn; [lia|reflexivity| |reflexivity]. repeat constructor; lia. Qed.

Lemma one_table_view i : rl_view one_table i = if i =? 0 then Some 7 else None.
Proof.
  pose proof one_table_ok as Hok. destruct (Z.eqb_spec i 0) as [->|Hne]; [reflexivity|].
  destruct (Z.leb_spec 0 i); [|unfold rl_view; by destruct (Z.leb_spec 0 i); [lia|]].
  apply rl_view_used; [done|done|]. destruct (used one_table i) eqn:E; [|done].
  pose proof (used_range _ _ Hok ltac:(done) E) as Hr. cbn in Hr. unfold used, bit_at in E. cbn [bitmap data_of blk_data one_table] in E.
  rewrite Z.div_small, Z.mod_small in E by lia. change (znth [1] 0) with (Some 1) in E.
  cbn beta iota in E. by rewrite (Z.bits_above_log2 1 i) in E by (cbn; lia).
Qed.

Lemma one_kernel_total a : total (procs one_kernel) a = c_int (bool_decide (7 = a)).
Proof.
  unfold one_kernel. cbn [procs]. rewrite <- insert_empty, total_new by done.
  unfold total. rewrite map_fold_empty. unfold count. cbn [file_descriptors one_process].
  rewrite (cnt_update _ (fun _ => None) _ 0 (Some 7)); [| cbn; lia | exact one_table_view].
  rewrite (cnt_beyond 0) by (lia || done). cbn [cnt]. rewrite (bool_decide_false (None = Some a)) by done.
  rewrite (bool_decide_ext (Some 7 = Some a) (7 = a)) by (split; congruence). cbn [c_int]. lia.
Qed.

Lemma one_kernel_ok : fds_ok one_kernel.
Proof.
  split; [split|..]; cbn [files procs k_fs current_task one_kernel].
  - intros p x [<- <-]%lookup_singleton_Some. exact one_table_ok.
  - intros a d [<- <-]%lookup_singleton_Some. rewrite (one_kernel_total : forall a, total {[1 := one_process]} a = _). rewrite bool_decide_true by done. cbn. lia.
  - intros a. rewrite (one_kernel_total : forall a, total {[1 := one_process]} a = _). case_bool_decide as E; [subst a|cbn; lia]. intros _.
    rewrite lookup_singleton_eq. eauto.
  - intros a b d e [<- <-]%lookup_singleton_Some [<- <-]%lookup_singleton_Some _. done.
  - intros a d [<- <-]%lookup_singleton_Some. cbn. set_solver.
  - rewrite lookup_singleton_eq. eauto.
Qed.

Lemma one_dup_ok : fd_op_ok (OpDup 0) one_kernel.
Proof.
  intros x Hx. cbn [procs current_task one_kernel] in Hx. rewrite lookup_singleton_eq in Hx. injection Hx as <-.
  split; [by vm_compute|]. intros a t h E. vm_compute in E. discriminate E.
Qed.


(** The second call of [dup] of a file that has a descriptor gives slot 1, and
    closing both frees it. *)
Example dup_then_close :
  (fd ← vfs_dup 0; vfs_close 0 ;; n ← gets (fun k => size (files k)); vfs_close fd ;;
   m ← gets (fun k => size (files k)); ret (fd, n, m)) one_kernel ≫= (fun '(r, _) => Ok r) = Ok (1, 1%nat, 0%nat).
Proof. vm_compute. reflexivity. Qed.

(** [dup2] of a descriptor that is not open ends in a failed assertion. *)
Example dup2_bad_descriptor : vfs_dup2 5 6 one_kernel = Panic.
Proof. vm_compute. reflexivity. Qed.
