(* ===== verification/Scheduling.v ===== *)
(** The queue of processes: which process runs next, that every process that can
    run does, how processes enter and leave the queue, and who gets a signal. *)

From stdpp Require Import base numbers list gmap sets.
From Stdlib Require Import ZArith Lia.
From S2P Require Import Prelude Alloc StateM Bytes KString KList SlotTable Bitmap Relist Process Poll Vfs Sched Descriptors.

Open Scope Z_scope.

Section Scheduling.
Context {F H T V : Type} `{Inodes F, Allocator H, SlotTable T H, SlotView T, AddressSpaces V}.
Abbreviation state := (kernel F H T V).
Abbreviation K := (SM state).

(** [q] is a pointer to the first of the linked processes [l]. *)
Fixpoint chain (ps : gmap Z (process T)) (q : option Z) (l : list Z) : Prop :=
  match l with
  | [] => q = None
  | p :: l => q = Some p /\ exists x, ps !! p = Some x /\ chain ps (next (p_links x)) l
  end.

(** The queue of the state, without repetition. *)
Record queue_is (k : state) (l : list Z) : Prop := {
  qi_chain : chain (procs k) (ready_queue k) l;
  qi_nodup : NoDup l
}.

(** The links lead from [q] over [l] to [r]. *)
Fixpoint segment (ps : gmap Z (process T)) (q : option Z) (l : list Z) (r : option Z) : Prop :=
  match l with
  | [] => q = r
  | p :: l => q = Some p /\ exists x, ps !! p = Some x /\ segment ps (next (p_links x)) l r
  end.

Lemma chain_app ps q l1 l2 : chain ps q (l1 ++ l2) <-> exists r, chain ps r l2 /\ segment ps q l1 r.
Proof.
  revert q. induction l1 as [|p l1 IH]; intros q; cbn [app chain segment].
  - split; [intros Hc; by exists q|by intros (r & Hc & ->)].
  - split.
    + intros (-> & x & Hx & Hc). apply IH in Hc as (r & Hr & Hs). exists r. split; [done|]. split; [done|]. by exists x.
    + intros (r & Hr & -> & x & Hx & Hs). split; [done|]. exists x. split; [done|]. apply IH. by exists r.
Qed.

(** Where the walk stands behind [l1]. *)
Lemma chain_at ps q l1 p l2 :
  chain ps q (l1 ++ p :: l2) -> exists x, ps !! p = Some x /\ chain ps (next (p_links x)) l2.
Proof. intros (r & Hr & _)%chain_app. by destruct Hr as (_ & x & Hx & Hc); exists x. Qed.

Lemma chain_live ps q l p : chain ps q l -> p ∈ l -> is_Some (ps !! p).
Proof.
  intros Hc (l1 & l2 & ->)%list_elem_of_split. destruct (chain_at _ _ _ _ _ Hc) as (x & Hx & _). eauto.
Qed.

(** ** Waiting *)

Definition wait_ok (w : waiting) : Prop :=
  KList.inv (read_list w) /\ KList.inv (write_list w) /\ KList.inv (disconnect_list w).

Lemma zdrop_at {A} (l : list A) i v : znth l i = Some v -> zdrop i l = v :: zdrop (i + 1) l.
Proof.
  unfold znth, zdrop. destruct (Z.leb_spec 0 i); [|done]. intros E. rewrite (drop_S l v) by done.
  do 2 f_equal. lia.
Qed.

Lemma halt_loop_spec (l : KList.klist) ready n i :
  KList.inv l -> 0 <= i <= zlen (KList.contents l) -> zlen (KList.contents l) - i < Z.of_nat n ->
  halt_loop n i l ready = Ok (if existsb ready (zdrop i (KList.contents l)) then None
                              else Some (negb (zlen (KList.contents l) =? 0))).
Proof.
  intros Hl. revert i. induction n as [|n IH]; intros i Hi Hn; [lia|]. cbn [halt_loop].
  rewrite KList.list_get_spec by (done || lia). cbn [mbind outcome_bind].
  destruct (znth (KList.contents l) i) as [v|] eqn:E.
  - pose proof (znth_Some_inv _ _ _ E). rewrite (zdrop_at _ _ _ E). cbn [existsb].
    destruct (ready v); [done|]. cbn [orb]. apply IH; lia.
  - assert (i = zlen (KList.contents l)) as ->.
    { destruct (Z.lt_ge_cases i (zlen (KList.contents l))); [|lia].
      destruct (znth_Some (KList.contents l) i) as [v Hv]; [lia|]. congruence. }
    replace (zdrop _ (KList.contents l)) with (@nil Z); [done|].
    unfold zdrop, zlen. symmetry. apply drop_ge. lia.
Qed.

Lemma halt_list_spec (l : KList.klist) ready :
  KList.inv l ->
  halt_loop (list_fuel l) 0 l ready = Ok (if existsb ready (KList.contents l) then None
                                          else Some (negb (zlen (KList.contents l) =? 0))).
Proof.
  intros Hl. pose proof (KList.contents_len _ Hl) as Hz. pose proof (KList.inv_tail _ Hl).
  rewrite (halt_loop_spec l ready); [by change (zdrop 0 (KList.contents l)) with (KList.contents l)|done|lia|].
  unfold list_fuel. lia.
Qed.

(** Whether a process waits for an inode, and none of those it waits for is ready. *)
Definition blocked (fs : F) (w : waiting) : bool :=
  negb (existsb (fun i => op_set (i_has_data fs i)) (KList.contents (read_list w)) ||
        existsb (fun i => op_set (i_can_write fs i)) (KList.contents (write_list w)) ||
        existsb (fun i => i_is_open fs i =? 0) (KList.contents (disconnect_list w))) &&
  (negb (zlen (KList.contents (read_list w)) =? 0) || negb (zlen (KList.contents (write_list w)) =? 0) ||
   negb (zlen (KList.contents (disconnect_list w)) =? 0)).

(** Whether a process can run at time [t]. *)
Definition can_run (fs : F) (t : Z) (x : process T) : bool :=
  if t <? sleep_until (p_wait x) then false
  else if is_interrupted (p_wait x) then true
  else if dead (p_links x) then false
  else negb (existsb (fun h => negb (h =? 0)) (take 2 (halts (p_wait x))) || blocked fs (p_wait x)).

Lemma isset_fdhalt_spec (k : state) p x :
  procs k !! p = Some x -> wait_ok (p_wait x) -> dead (p_links x) = false ->
  exists e, isset_fdhalt (Some p) k = Ok ((blocked (k_fs k) (p_wait x), e), k) /\
    (blocked (k_fs k) (p_wait x) = true -> e = false).
Proof.
  intros Hp (Hr & Hw & Hd) Hdead. unfold isset_fdhalt. cbn [or_current]. rewrite ret_bind.
  rewrite (ok_bind (proc_at p) _ k x k) by (unfold proc_at; by rewrite Hp). rewrite Hdead, gets_bind. cbn zeta.
  rewrite !halt_list_spec by done. rewrite lift_bind. unfold blocked.
  destruct (existsb _ (KList.contents (read_list _))); [by exists false|]. rewrite lift_bind.
  destruct (existsb _ (KList.contents (write_list _))); [by exists false|]. rewrite lift_bind.
  destruct (existsb _ (KList.contents (disconnect_list _))); [by exists false|]. cbn [orb negb andb].
  eexists. split; [done|]. by intros ->.
Qed.

Lemma runnable_spec (k : state) p x t :
  procs k !! p = Some x -> wait_ok (p_wait x) -> runnable p t k = Ok (can_run (k_fs k) t x, k).
Proof.
  intros Hp Hw. unfold runnable, can_run.
  rewrite (ok_bind (proc_at p) _ k x k) by (unfold proc_at; by rewrite Hp).
  destruct (t <? sleep_until (p_wait x)); [done|]. destruct (is_interrupted (p_wait x)); [done|].
  destruct (dead (p_links x)) eqn:Ed; [done|].
  assert (E : is_halted p k = Ok (existsb (fun h => negb (h =? 0)) (take 2 (halts (p_wait x))) ||
    blocked (k_fs k) (p_wait x), k)).
  { unfold is_halted. rewrite (ok_bind (proc_at p) _ k x k) by (unfold proc_at; by rewrite Hp).
    destruct (existsb _ _); [done|]. destruct (isset_fdhalt_spec k p x Hp Hw Ed) as (e & E & He).
    rewrite (ok_bind _ _ _ _ _ E). cbn. destruct (blocked (k_fs k) (p_wait x)); [by rewrite He|done]. }
  by rewrite (ok_bind _ _ _ _ _ E).
Qed.

(** ** Round robin *)

(** [q] follows [p] in the queue, whose last member is followed by the first. *)
Definition step_to (k : state) (p q : Z) : Prop :=
  exists x, procs k !! p = Some x /\
    (next (p_links x) = Some q \/ (next (p_links x) = None /\ ready_queue k = Some q)).

Fixpoint path (k : state) (p : Z) (l : list Z) : Prop :=
  match l with
  | [] => True
  | q :: l => step_to k p q /\ path k q l
  end.

(** [o] is the queue [l] from behind [s] up to [s]. *)
Definition order (l : list Z) (s : Z) (o : list Z) : Prop := exists l1 l2, l = l1 ++ s :: l2 /\ o = l2 ++ l1 ++ [s].

Lemma order_exists l s : s ∈ l -> exists o, order l s o.
Proof. intros (l1 & l2 & ->)%list_elem_of_split. by exists (l2 ++ l1 ++ [s]), l1, l2. Qed.

Lemma order_perm l s o : order l s o -> o ≡ₚ l.
Proof. intros (l1 & l2 & -> & ->). by rewrite (Permutation_app_comm l2), <- app_assoc. Qed.

(** Behind [s'] the rest of the round comes first. *)
Lemma order_next l s s' pre rest : order l s (pre ++ s' :: rest) -> order l s' (rest ++ pre ++ [s']).
Proof.
  intros (l1 & l2 & -> & E). apply app_eq_inv in E as [(m & -> & E)|(m & -> & E)].
  - apply app_eq_inv in E as [(m' & -> & E)|(m' & -> & E)].
    + destruct m' as [|y m']; cbn in E; injection E as -> ->.
      * rewrite app_nil_r. exists m, l2. split; [done|]. cbn. by rewrite <- app_assoc.
      * exists m, (m' ++ s :: l2). split; [by rewrite <- app_assoc|]. by rewrite <- !app_assoc.
    + destruct m' as [|y m']; cbn in E; [|by apply (f_equal length) in E; cbn in E; rewrite length_app in E; cbn in E; lia].
      injection E as -> <-. rewrite app_nil_r. exists l1, l2. split; [done|]. cbn. by rewrite <- app_assoc.
  - destruct m as [|y m]; cbn in E.
    + rewrite app_nil_r in *. destruct l1 as [|z l1]; cbn in E; injection E as -> ->.
      * by exists [], pre.
      * exists [], (l1 ++ s :: pre). split; [done|]. by rewrite <- !app_assoc.
    + injection E as -> ->. exists (l1 ++ s :: pre), m. split; [by rewrite <- app_assoc|]. by rewrite <- !app_assoc.
Qed.

Lemma chain_path (k : state) h r rest : chain (procs k) (Some h) (h :: r ++ rest) -> path k h r.
Proof.
  revert h. induction r as [|q r IH]; intros h Hc; [done|]. destruct Hc as (_ & x & Hx & Hc).
  cbn [app] in Hc. pose proof Hc as (E & _). split; [by exists x; auto|]. rewrite E in Hc. by apply (IH q).
Qed.

Lemma chain_wrap (k : state) p x l h r :
  procs k !! p = Some x -> chain (procs k) (next (p_links x)) l -> ready_queue k = Some h -> path k h r ->
  path k p (l ++ h :: r).
Proof.
  intros Hx Hc Hq Hr. revert p x Hx Hc. induction l as [|q l IH]; intros p x Hx Hc; cbn [app path].
  - split; [|done]. exists x. by auto.
  - destruct Hc as (E & y & Hy & Hc). split; [exists x; by auto|]. by apply (IH q y).
Qed.

Lemma order_path (k : state) l s o : queue_is k l -> order l s o -> path k s o.
Proof.
  intros [Hc _] (l1 & l2 & -> & ->). destruct (chain_at _ _ _ _ _ Hc) as (x & Hx & Hc2).
  destruct l1 as [|h l1]; cbn [app] in *.
  - apply (chain_wrap k s x l2 s []); [done|done|by destruct Hc|done].
  - apply (chain_wrap k s x l2 h (l1 ++ [s])); [done|done|by destruct Hc|].
    assert (Hh : ready_queue k = Some h) by (by destruct Hc). rewrite Hh in Hc.
    apply (chain_path k h (l1 ++ [s]) l2). by rewrite <- app_assoc.
Qed.

(** Every process of the queue has its lists. *)
Definition queue_ready (k : state) (l : list Z) : Prop :=
  forall p x, p ∈ l -> procs k !! p = Some x -> wait_ok (p_wait x).

(** [p] can run now. *)
Definition runs (k : state) (p : Z) : bool :=
  match procs k !! p with Some x => can_run (k_fs k) (uptime k) x | None => false end.

Variable wait_for_interrupt : K unit.

Lemma next_loop_visit (k : state) s p x pre c post i f :
  procs k !! p = Some x -> path k p (pre ++ c :: post) -> queue_ready k (pre ++ [c]) -> s ∉ pre ->
  Forall (fun q => runs k q = false) pre -> runs k c = true -> 0 <= i < 10 ->
  next_loop wait_for_interrupt (S (length pre + f)) s (next (p_links x)) i (uptime k) k = Ok (c, k).
Proof.
  revert p x. induction pre as [|q pre IH]; intros p x Hp Hpath Hw Hs Hno Hc Hi.
  - destruct Hpath as ((x' & Hx' & Hn) & _). assert (x' = x) as -> by congruence.
    cbn [length Nat.add next_loop].
    assert (E : (match next (p_links x) with Some c0 => ret c0 | None => gets ready_queue ≫= fun q => lift (deref q) end) k = Ok (c, k)).
    { destruct Hn as [->|[-> Hq]]; [done|]. rewrite gets_bind, Hq. done. }
    rewrite (ok_bind _ _ _ _ _ E). destruct (Z.eqb_spec s c) as [<-|Hsc]; rewrite ?gets_bind, ?ret_bind; cbn zeta.
    all: rewrite (proj2 (Z.ltb_ge 10 _)) by lia; rewrite ret_bind.
    all: unfold runs in Hc; destruct (procs k !! _) as [y|] eqn:Hy in Hc; [|done].
    all: rewrite (ok_bind _ _ _ _ _ (runnable_spec k _ y _ Hy (Hw _ y ltac:(by left) Hy))), Hc; done.
  - destruct Hpath as ((x' & Hx' & Hn) & Hpath). assert (x' = x) as -> by congruence.
    apply Forall_cons in Hno as [Hq Hno]. apply not_elem_of_cons in Hs as [Hsq Hs].
    cbn [length Nat.add]. set (g := S (length pre + f)). cbn [next_loop].
    assert (E : (match next (p_links x) with Some c0 => ret c0 | None => gets ready_queue ≫= fun q => lift (deref q) end) k = Ok (q, k)).
    { destruct Hn as [->|[-> E]]; [done|]. rewrite gets_bind, E. done. }
    rewrite (ok_bind _ _ _ _ _ E). destruct (Z.eqb_spec s q) as [->|_]; [done|]. rewrite !ret_bind. cbn zeta.
    rewrite (proj2 (Z.ltb_ge 10 _)) by lia. rewrite ret_bind.
    assert (Hy : exists y, procs k !! q = Some y).
    { destruct pre as [|r pre]; destruct Hpath as ((y & Hy & _) & _); by exists y. }
    destruct Hy as [y Hy]. unfold runs in Hq. rewrite Hy in Hq.
    rewrite (ok_bind _ _ _ _ _ (runnable_spec k q y _ Hy (Hw _ y ltac:(by left) Hy))), Hq.
    rewrite (ok_bind (proc_at q) _ k y k) by (unfold proc_at; by rewrite Hy).
    apply (IH q y); try done. intros r z Hr. apply Hw. by right.
Qed.

(** The process that is chosen: the first that can run, in the order of the queue
    from behind the current one. *)
Lemma next_task_first (k : state) l s pre c post fuel :
  queue_is k l -> queue_ready k l -> order l s (pre ++ c :: post) ->
  Forall (fun q => runs k q = false) pre -> runs k c = true -> (length l <= fuel)%nat ->
  next_task wait_for_interrupt fuel s k = Ok (c, k).
Proof.
  intros Hq Hw Ho Hno Hc Hf. pose proof (order_path _ _ _ _ Hq Ho) as Hp. pose proof (order_perm _ _ _ Ho) as Hperm.
  assert (Hx : exists x, procs k !! s = Some x).
  { destruct Ho as (l1 & l2 & -> & _). destruct (chain_at _ _ _ _ _ (qi_chain _ _ Hq)) as (x & Hx & _). by exists x. }
  destruct Hx as [x Hx]. unfold next_task. rewrite gets_bind.
  rewrite (ok_bind (proc_at s) _ k x k) by (unfold proc_at; by rewrite Hx).
  assert (Hlen : length l = length (pre ++ c :: post)) by (by rewrite Hperm). rewrite length_app in Hlen. cbn [length] in Hlen.
  replace fuel with (S (length pre + (fuel - S (length pre))))%nat by lia.
  apply (next_loop_visit k s s x pre c post); try done; try lia.
  - intros p y Hin. apply Hw. rewrite <- Hperm. set_solver.
  - destruct Ho as (l1 & l2 & -> & E). assert (Hnd : NoDup (pre ++ c :: post)) by (rewrite Hperm; apply Hq).
    rewrite E, app_assoc in Hnd. intros Hin. 
    assert (Hlast : pre ++ c :: post = (l2 ++ l1) ++ [s]) by (by rewrite E, app_assoc).
    destruct (exists_last (l := c :: post) ltac:(done)) as (b & z & Eb). rewrite Eb, app_assoc in Hlast.
    apply app_inj_tail in Hlast as [Hpre _]. apply NoDup_app in Hnd as (_ & Hd & _).
    apply (Hd s); [|set_solver]. rewrite <- Hpre. set_solver.
Qed.

Lemma switch_task_first (k : state) l pre c post fuel :
  queue_is k l -> queue_ready k l -> order l (current_task k) (pre ++ c :: post) ->
  (forall x, procs k !! current_task k = Some x -> dead (p_links x) = false) ->
  Forall (fun q => runs k q = false) pre -> runs k c = true -> (length l <= fuel)%nat ->
  exists k', switch_task wait_for_interrupt fuel k = Ok (tt, k') /\ current_task k' = c /\ procs k' = procs k.
Proof.
  intros Hq Hw Ho Hd Hno Hc Hf. unfold runs in Hc. destruct (procs k !! c) as [y|] eqn:Hy; [|done].
  assert (Hx : exists x, procs k !! current_task k = Some x).
  { destruct Ho as (l1 & l2 & -> & _). destruct (chain_at _ _ _ _ _ (qi_chain _ _ Hq)) as (x & Hx & _). by exists x. }
  destruct Hx as [x Hx]. unfold switch_task. rewrite gets_bind.
  rewrite (ok_bind (proc_at _) _ k x k) by (unfold proc_at; by rewrite Hx). rewrite (Hd x Hx).
  assert (E : next_task wait_for_interrupt fuel (current_task k) k = Ok (c, k)).
  { apply (next_task_first k l _ pre c post); try done. unfold runs. by rewrite Hy. }
  rewrite (ok_bind _ _ k tt (set_current c k)) by (by rewrite (ok_bind _ _ _ _ _ E)).
  rewrite gets_bind, (ok_bind (proc_at _) _ (set_current c k) y (set_current c k)) by (unfold proc_at; cbn; by rewrite Hy).
  eexists. by split.
Qed.

Lemma first_runnable (k : state) pre :
  Forall (fun q => runs k q = false) pre \/
  exists pre' s mid, pre = pre' ++ s :: mid /\ Forall (fun q => runs k q = false) pre' /\ runs k s = true.
Proof.
  induction pre as [|p pre IH]; [by left|]. destruct (runs k p) eqn:E.
  - right. by exists [], p, pre.
  - destruct IH as [Hno|(pre' & s & mid & -> & Hno & Hs)]; [left; by constructor|].
    right. exists (p :: pre'), s, mid. split_and!; [done|by constructor|done].
Qed.

(** A run of the system: [ks n] is the state in which the [n]-th call of
    [switch_task] is made; in between anything may happen to the processes, but the
    queue keeps its members and the caller is alive. *)
Record schedule (ks : nat -> state) (l : list Z) (fuel : nat) : Prop := {
  sr_queue : forall n, queue_is (ks n) l;
  sr_ready : forall n, queue_ready (ks n) l;
  sr_current : forall n, current_task (ks n) ∈ l;
  sr_alive : forall n x, procs (ks n) !! current_task (ks n) = Some x -> dead (p_links x) = false;
  sr_switch : forall n k', switch_task wait_for_interrupt fuel (ks n) = Ok (tt, k') ->
    current_task (ks (S n)) = current_task k'
}.

Lemma reached_within ks l fuel c m :
  schedule ks l fuel -> (length l <= fuel)%nat -> (forall n, runs (ks n) c = true) ->
  forall n pre post, order l (current_task (ks n)) (pre ++ c :: post) -> (length pre <= m)%nat ->
  exists j, (1 <= j <= S m)%nat /\ current_task (ks (n + j)%nat) = c.
Proof.
  intros [Hq Hw _ Hd Hs] Hf Hc. induction m as [m IH] using lt_wf_ind. intros n pre post Ho Hm.
  destruct (first_runnable (ks n) pre) as [Hno|(pre' & s & mid & -> & Hno & Hrun)].
  - destruct (switch_task_first (ks n) l pre c post fuel) as (k' & E & Ec & _); try done; [apply Hd|].
    exists 1%nat. split; [lia|]. rewrite Nat.add_1_r, (Hs _ _ E). done.
  - rewrite <- app_assoc in Ho. cbn [app] in Ho. rewrite length_app in Hm. cbn [length] in Hm.
    destruct (switch_task_first (ks n) l pre' s (mid ++ c :: post) fuel) as (k' & E & Ec & _); try done; [apply Hd|].
    apply order_next in Ho. rewrite <- app_assoc in Ho. cbn [app] in Ho. rewrite <- Ec, <- (Hs _ _ E) in Ho.
    destruct (IH (length mid) ltac:(lia) (S n) mid _ Ho ltac:(lia)) as (j & Hj & Ej).
    exists (S j). split; [lia|]. by rewrite Nat.add_succ_r.
Qed.

(** C17: no process is passed over: a process of the queue that can always run is
    given the processor within as many calls of [switch_task] as the queue has
    members, whatever the other processes do. *)
Theorem runnable_process_scheduled ks l fuel c n :
  schedule ks l fuel -> (length l <= fuel)%nat -> c ∈ l -> (forall n, runs (ks n) c = true) ->
  exists j, (1 <= j <= length l)%nat /\ current_task (ks (n + j)%nat) = c.
Proof.
  intros Hs Hf Hc Hr. destruct (order_exists l _ (sr_current _ _ _ Hs n)) as [o Ho].
  pose proof (order_perm _ _ _ Ho) as Hp. rewrite <- Hp in Hc. apply list_elem_of_split in Hc as (pre & post & ->).
  destruct (reached_within ks l fuel c (length pre) Hs Hf Hr n pre post Ho ltac:(lia)) as (j & Hj & E).
  exists j. split; [|done]. rewrite <- Hp, length_app. cbn [length]. lia.
Qed.

(** ** Sending a signal *)

Definition has_pid (k : state) (n p : Z) : bool :=
  match procs k !! p with Some x => pid x =? n | None => false end.

Lemma queue_size (k : state) l : queue_is k l -> (length l <= size (procs k))%nat.
Proof.
  intros [Hc Hn]. rewrite <- (size_dom (D := gset Z) (procs k)), <- (size_list_to_set (C := gset Z) l) by done.
  apply subseteq_size. intros p Hp. apply elem_of_list_to_set in Hp. apply elem_of_dom. by apply (chain_live _ _ _ _ Hc).
Qed.

(** The process behind [p]. *)
Lemma next_cyclic_spec (k : state) p q x : procs k !! p = Some x -> step_to k p q -> next_cyclic x k = Ok (q, k).
Proof.
  intros Hp (x' & Hx' & Hn). assert (x' = x) as -> by congruence. unfold next_cyclic.
  destruct Hn as [->|[-> Hq]]; [done|]. by rewrite gets_bind, Hq.
Qed.

(** The search stops at the first process with the number, or at the caller. *)
Lemma kill_loop_visit (k : state) n p q pre post f :
  path k p (pre ++ q :: post) -> current_task k ∉ pre -> Forall (fun r => has_pid k n r = false) pre ->
  is_Some (procs k !! q) -> has_pid k n q = true \/ q = current_task k ->
  exists h, step_to k p h /\ kill_loop (S (length pre + f)) n h k = Ok (q, k).
Proof.
  revert p. induction pre as [|r pre IH]; intros p [Hs Hp] Hcur Hno [y Hy] Hq.
  - exists q. split; [done|]. cbn [length Nat.add kill_loop].
    rewrite (ok_bind (proc_at q) _ k y k) by (unfold proc_at; by rewrite Hy).
    destruct (pid y =? n) eqn:E; [done|]. rewrite gets_bind. destruct Hq as [Hq| ->].
    + unfold has_pid in Hq. rewrite Hy in Hq. congruence.
    + by rewrite Z.eqb_refl.
  - exists r. split; [done|]. apply Forall_cons in Hno as [Hr Hno]. apply not_elem_of_cons in Hcur as [Hne Hcur].
    destruct (IH r Hp Hcur Hno ltac:(eauto) Hq) as (h & Hh & E). pose proof Hh as (x & Hx & _).
    cbn [length Nat.add]. set (g := S (length pre + f)) in *. cbn [kill_loop].
    rewrite (ok_bind (proc_at r) _ k x k) by (unfold proc_at; by rewrite Hx).
    unfold has_pid in Hr. rewrite Hx in Hr. rewrite Hr, gets_bind. destruct (Z.eqb_spec r (current_task k)); [congruence|].
    by rewrite (ok_bind _ _ _ _ _ (next_cyclic_spec _ _ _ _ Hx Hh)).
Qed.

(** The search as a whole: the first process behind the caller that has the number. *)
Lemma kill_found (k : state) l n q pre post fuel sig :
  queue_is k l -> order l (current_task k) (pre ++ q :: post) ->
  Forall (fun r => has_pid k n r = false) pre -> has_pid k n q = true ->
  kill wait_for_interrupt fuel n sig k = (signal_process wait_for_interrupt fuel q sig ;; ret 0) k.
Proof.
  intros Hq Ho Hno Hp. pose proof (order_path _ _ _ _ Hq Ho) as Hpath. pose proof (order_perm _ _ _ Ho) as Hperm.
  assert (Hlive : forall r, r ∈ pre ++ q :: post -> is_Some (procs k !! r)).
  { intros r Hr. rewrite Hperm in Hr. by apply (chain_live _ _ _ _ (qi_chain _ _ Hq)). }
  assert (Hcur : current_task k ∉ pre).
  { destruct Ho as (l1 & l2 & -> & E). assert (Hnd : NoDup (pre ++ q :: post)) by (rewrite Hperm; apply Hq).
    destruct (exists_last (l := q :: post) ltac:(done)) as (b & z & Eb). rewrite Eb in E, Hnd. rewrite !app_assoc in E.
    apply app_inj_tail in E as [E ->]. rewrite app_assoc in Hnd. apply NoDup_app in Hnd as (_ & Hd & _).
    intros Hin. apply (Hd (current_task k)); [|by left]. apply elem_of_app. by left. }
  pose proof (queue_size _ _ Hq) as Hsz. assert (Hlen : length (pre ++ q :: post) = length l) by (by rewrite Hperm).
  rewrite length_app in Hlen. cbn [length] in Hlen.
  destruct (Hlive q) as [y Hy]; [apply elem_of_app; right; by left|].
  destruct (kill_loop_visit k n (current_task k) q pre post (size (procs k) - length pre)) as (h & Hh & E);
    [done|done|done|eauto|by left|].
  pose proof Hh as (x & Hx & _). unfold kill. rewrite gets_bind.
  rewrite (ok_bind (proc_at _) _ k x k) by (unfold proc_at; by rewrite Hx).
  rewrite (ok_bind _ _ _ _ _ (next_cyclic_spec _ _ _ _ Hx Hh)). unfold queue_fuel. rewrite gets_bind.
  replace (length pre + (size (procs k) - length pre))%nat with (size (procs k)) in E by lia.
  rewrite (ok_bind _ _ _ _ _ E), (ok_bind (proc_at q) _ k y k) by (unfold proc_at; by rewrite Hy).
  unfold has_pid in Hp. rewrite Hy in Hp. by rewrite Hp.
Qed.

Lemma kill_missing (k : state) l n fuel sig :
  queue_is k l -> current_task k ∈ l -> Forall (fun r => has_pid k n r = false) l ->
  kill wait_for_interrupt fuel n sig k = Ok (- ESRCH, k).
Proof.
  intros Hq Hc Hno. destruct (order_exists _ _ Hc) as [o Ho]. pose proof (order_path _ _ _ _ Hq Ho) as Hpath.
  pose proof (order_perm _ _ _ Ho) as Hperm. rewrite <- Hperm in Hno. destruct Ho as (l1 & l2 & -> & ->).
  rewrite app_assoc in Hpath, Hno, Hperm. set (pre := l2 ++ l1) in *. apply Forall_app in Hno as [Hno Hlast].
  apply Forall_cons in Hlast as [Hlast _]. pose proof (queue_size _ _ Hq) as Hsz.
  assert (Hnd : NoDup (pre ++ [current_task k])) by (rewrite Hperm; apply Hq).
  apply NoDup_app in Hnd as (_ & Hd & _).
  rewrite <- Hperm, length_app in Hsz. cbn [length] in Hsz.
  destruct (chain_live _ _ _ _ (qi_chain _ _ Hq) Hc) as [y Hy].
  destruct (kill_loop_visit k n (current_task k) (current_task k) pre [] (size (procs k) - length pre)) as (h & Hh & E);
    [done|intros Hin; apply (Hd _ Hin); by left|done|eauto|by right|].
  pose proof Hh as (x & Hx & _). assert (x = y) as -> by congruence. unfold kill. rewrite gets_bind.
  rewrite (ok_bind (proc_at _) _ k y k) by (unfold proc_at; by rewrite Hx).
  rewrite (ok_bind _ _ _ _ _ (next_cyclic_spec _ _ _ _ Hx Hh)). unfold queue_fuel. rewrite gets_bind.
  replace (length pre + (size (procs k) - length pre))%nat with (size (procs k)) in E by lia.
  rewrite (ok_bind _ _ _ _ _ E), (ok_bind (proc_at _) _ k y k) by (unfold proc_at; by rewrite Hy).
  unfold has_pid in Hlast. rewrite Hy in Hlast. by rewrite Hlast.
Qed.

(** A process with the handler [h] on top of its signals; one that waits for a child
    is interrupted. *)
Definition signalled (h : Z) (x : process T) : process T :=
  set_signals (mkSignals (signal_handlers (p_signals x)) (restore_context_stack (p_signals x))
      (h :: signal_stack (p_signals x)))
    (set_wait (if is_halted_flag (p_wait x) then set_interrupted true (p_wait x) else p_wait x) x).

(** Signals reach their process: [kill] with a number no process of the queue has
    reports that and changes nothing; otherwise exactly the process with the number
    gets the handler it installed pushed on its signals, and no other process
    changes. *)
Theorem kill_reaches_process (k : state) l n sig fuel :
  queue_is k l -> current_task k ∈ l ->
  (Forall (fun r => has_pid k n r = false) l -> kill wait_for_interrupt fuel n sig k = Ok (- ESRCH, k)) /\
  (forall q x h, q ∈ l -> procs k !! q = Some x -> pid x = n -> (forall r, r ∈ l -> has_pid k n r = true -> r = q) ->
     0 <= sig < 32 -> znth (signal_handlers (p_signals x)) sig = Some h -> h <> 0 ->
     kill wait_for_interrupt fuel n sig k = Ok (0, set_procs (<[q := signalled h x]> (procs k)) k)).
Proof.
  intros Hq Hc. split; [by apply kill_missing|]. intros q x h Hin Hx Hn Huniq Hsig Hh Hh0.
  destruct (order_exists _ _ Hc) as [o Ho]. pose proof (order_perm _ _ _ Ho) as Hperm.
  pose proof Hin as Hin'. rewrite <- Hperm in Hin'. apply list_elem_of_split in Hin' as (pre & post & ->).
  assert (Hnd : NoDup (pre ++ q :: post)) by (rewrite Hperm; apply Hq).
  rewrite (kill_found k l n q pre post); [|done|done| |].
  - unfold signal_process. rewrite (ok_bind _ _ k tt (set_procs (<[q := signalled h x]> (procs k)) k)); [done|].
    rewrite (ok_bind (m_assert _) _ k tt k) by (unfold m_assert; rewrite (proj2 (Z.ltb_lt _ _)) by lia; done).
    rewrite gets_bind. cbn zeta. rewrite (ok_bind (proc_at q) _ k x k) by (unfold proc_at; by rewrite Hx).
    rewrite (aread_ok _ _ _ Hh), lift_bind. destruct (Z.eqb_spec h 0); [done|].
    unfold process_push_signal. cbn [or_current]. rewrite ret_bind. unfold on_proc.
    by rewrite (ok_bind (proc_at q) _ k x k) by (unfold proc_at; by rewrite Hx).
  - apply Forall_forall. intros r Hr. destruct (has_pid k n r) eqn:E; [|done]. exfalso.
    apply NoDup_app in Hnd as (_ & Hd & _). apply (Hd r Hr).
    rewrite (Huniq r); [by left| |done]. rewrite <- Hperm. apply elem_of_app. by left.
  - unfold has_pid. rewrite Hx. by apply Z.eqb_eq.
Qed.

(** ** Entering and leaving the queue *)

(** The links of [l] do not depend on a process outside it. *)
Lemma chain_insert ps q l p x : p ∉ l -> chain ps q l -> chain (<[p := x]> ps) q l.
Proof.
  revert q. induction l as [|r l IH]; intros q Hp Hc; [done|]. apply not_elem_of_cons in Hp as [Hne Hp].
  destruct Hc as (-> & y & Hy & Hc). split; [done|]. exists y. rewrite lookup_insert_ne by done. split; [done|by apply IH].
Qed.

(** ... nor on anything but the links of its members. *)
Lemma chain_relink ps ps' q l :
  (forall p x, p ∈ l -> ps !! p = Some x -> exists x', ps' !! p = Some x' /\ next (p_links x') = next (p_links x)) ->
  chain ps q l -> chain ps' q l.
Proof.
  revert q. induction l as [|p l IH]; intros q Hs Hc; [done|]. destruct Hc as (-> & x & Hx & Hc).
  destruct (Hs p x) as (x' & Hx' & E); [by left|done|]. split; [done|]. exists x'. split; [done|]. rewrite E.
  apply IH; [|done]. intros r y Hr. apply Hs. by right.
Qed.

Lemma walk_to (k : state) q l1 p l2 stop n x :
  chain (procs k) q (l1 ++ p :: l2) -> procs k !! p = Some x -> stop p x = true ->
  (forall r y, r ∈ l1 -> procs k !! r = Some y -> stop r y = false) -> (length l1 < n)%nat ->
  walk n q stop k = Ok (Some p, k).
Proof.
  revert q n. induction l1 as [|r l1 IH]; intros q n Hc Hx Hs Hno Hn; destruct Hc as (-> & y & Hy & Hc);
    (destruct n as [|n]; [cbn in Hn; lia|]); cbn [walk]; rewrite (ok_bind (proc_at _) _ k y k) by (unfold proc_at; by rewrite Hy).
  - assert (y = x) as -> by congruence. by rewrite Hs.
  - rewrite (Hno r y) by (done || by left). apply IH; [done|done|done| |cbn in Hn; lia].
    intros r' y' Hr. apply Hno. by right.
Qed.

Lemma segment_insert ps q l r p x : p ∉ l -> segment ps q l r -> segment (<[p := x]> ps) q l r.
Proof.
  revert q. induction l as [|s l IH]; intros q Hp Hc; [done|]. apply not_elem_of_cons in Hp as [Hne Hp].
  destruct Hc as (-> & y & Hy & Hc). split; [done|]. exists y. rewrite lookup_insert_ne by done. split; [done|by apply IH].
Qed.

(** [tmp->next = n] for [tmp] behind [l1], where [n] starts [l2]. *)
Lemma chain_set_next ps q l1 h l l2 y n :
  chain ps q (l1 ++ h :: l) -> ps !! h = Some y -> h ∉ l1 -> h ∉ l2 -> chain ps n l2 ->
  chain (<[h := set_links (set_next n (p_links y)) y]> ps) q (l1 ++ h :: l2).
Proof.
  intros (r & (-> & _) & Hs)%chain_app Hy Hh1 Hh2 Hn. apply chain_app. exists (Some h). split; [|by apply segment_insert].
  split; [done|]. eexists. rewrite lookup_insert_eq. split; [done|]. cbn [p_links set_links next set_next].
  by apply chain_insert.
Qed.

(** The process in front of [p]. *)
Lemma unique_predecessor ps q l1 h p l2 r z :
  chain ps q (l1 ++ h :: p :: l2) -> NoDup (l1 ++ h :: p :: l2) -> r ∈ l1 -> ps !! r = Some z ->
  r <> p /\ next (p_links z) <> Some p.
Proof.
  intros Hc Hnd Hr Hz. apply list_elem_of_split in Hr as (a & b & ->). rewrite <- app_assoc in Hc, Hnd. cbn [app] in Hc, Hnd.
  destruct (chain_at _ _ _ _ _ Hc) as (z' & Hz' & Hcz). assert (z' = z) as -> by congruence.
  apply NoDup_app in Hnd as (_ & _ & Hnd). apply NoDup_cons in Hnd as [Hr Hnd]. split.
  - intros ->. apply Hr, elem_of_app. right. right. by left.
  - intros E. rewrite E in Hcz. destruct b as [|w b]; destruct Hcz as ([= Ew] & _); subst.
    + apply NoDup_cons in Hnd as [Hw _]. apply Hw. by left.
    + cbn [app] in Hnd. apply NoDup_cons in Hnd as [Hw _]. apply Hw, elem_of_app. right. right. by left.
Qed.

(** Leaving: [exit_process] takes exactly the process that ends out of the queue. *)
Lemma dequeue_spec (k : state) l1 p l2 :
  queue_is k (l1 ++ p :: l2) ->
  exists k', dequeue p k = Ok (tt, k') /\ queue_is k' (l1 ++ l2) /\ procs k' !! p = procs k !! p /\
    current_task k' = current_task k /\ files k' = files k.
Proof.
  intros [Hc Hnd]. pose proof (queue_size k _ (Build_queue_is _ _ Hc Hnd)) as Hsz.
  destruct (chain_at _ _ _ _ _ Hc) as (x & Hx & Hc2). assert (Hnd' : NoDup (l1 ++ l2)).
  { rewrite <- Permutation_middle in Hnd. by apply NoDup_cons in Hnd as [_ Hnd]. }
  unfold dequeue, queue_fuel. rewrite !gets_bind. destruct l1 as [|h l1 _] using rev_ind.
  - rewrite (ok_bind _ _ k (Some p) k); cycle 1.
    { apply (walk_to k _ [] p l2 _ _ x); [done|done|by rewrite Z.eqb_refl| |cbn; lia]. intros r y Hr. by apply elem_of_nil in Hr. }
    rewrite (ok_bind (proc_at p) _ k x k) by (unfold proc_at; by rewrite Hx). cbn zeta. rewrite Z.eqb_refl.
    eexists. split; [done|]. by split_and!.
  - rewrite <- app_assoc in Hc, Hnd, Hnd'. cbn [app] in Hc, Hnd, Hnd'.
    destruct (chain_at _ _ _ _ _ Hc) as (y & Hy & Hcy). assert (Ey : next (p_links y) = Some p) by (by destruct Hcy).
    pose proof Hnd' as (_ & Hd & Hh2)%NoDup_app. apply NoDup_cons in Hh2 as [Hh2 _].
    assert (Hhp : h <> p).
    { intros ->. apply NoDup_app in Hnd as (_ & _ & Hn). apply NoDup_cons in Hn as [Hn _]. apply Hn. by left. }
    rewrite (ok_bind _ _ k (Some h) k); cycle 1.
    { apply (walk_to k _ l1 h (p :: l2) _ _ y); [done|done|by rewrite Ey, bool_decide_true, orb_true_r| |].
      - intros r z Hr Hz. destruct (unique_predecessor _ _ _ _ _ _ _ _ Hc Hnd Hr Hz).
        by rewrite (proj2 (Z.eqb_neq r p)), bool_decide_false.
      - rewrite !length_app in Hsz. cbn [length] in Hsz. lia. }
    rewrite (ok_bind (proc_at p) _ k x k) by (unfold proc_at; by rewrite Hx). cbn zeta.
    destruct (Z.eqb_spec h p); [done|]. unfold on_proc.
    rewrite (ok_bind (proc_at h) _ k y k) by (unfold proc_at; by rewrite Hy).
    eexists. split; [done|]. cbn [procs current_task files set_procs]. split_and!; [|by rewrite lookup_insert_ne|done|done].
    split; rewrite <- app_assoc; [|done]. cbn [procs ready_queue set_procs app].
    apply (chain_set_next _ _ _ _ (p :: l2)); [done|done| |done|done]. intros Hin. apply (Hd h Hin). by left.
Qed.

Lemma inner_next ps q l0 t r z :
  chain ps q (l0 ++ [t]) -> r ∈ l0 -> ps !! r = Some z -> next (p_links z) <> None.
Proof.
  intros Hc (a & b & ->)%list_elem_of_split Hz. rewrite <- app_assoc in Hc. cbn [app] in Hc.
  destruct (chain_at _ _ _ _ _ Hc) as (z' & Hz' & Hcz). assert (z' = z) as -> by congruence.
  intros E. rewrite E in Hcz. by destruct b; destruct Hcz.
Qed.

Context `{!SlotLaws T H, !InodeLaws F, !SpaceLaws V}.

(** A change of links leaves the descriptors alone. *)
Lemma fds_ok_relinked (k : state) p x y :
  fds_ok k -> procs k !! p = Some x -> file_descriptors y = file_descriptors x ->
  fds_ok (set_procs (<[p := y]> (procs k)) k).
Proof.
  intros [[C1 C2 C3 C4] Hi Hc] Hp E. assert (Hsame : forall a, total (<[p := y]> (procs k)) a = total (procs k) a)
    by (intros a; by apply (total_same _ _ x)).
  split; [split|done|by apply current_stays]; cbn [procs files set_procs].
  - intros q z [[<- <-]|[_ Hz]]%lookup_insert_Some; [rewrite E; by apply (C1 p)|by eapply C1].
  - intros a d. rewrite Hsame. apply C2.
  - intros a. rewrite Hsame. apply C3.
  - done.
Qed.

Lemma wp_relink {B} (k : state) p x f (m : unit -> K B) Q :
  fds_ok k -> procs k !! p = Some x -> file_descriptors (f x) = file_descriptors x ->
  (fds_ok (set_procs (<[p := f x]> (procs k)) k) -> wp (m tt) Q (set_procs (<[p := f x]> (procs k)) k)) ->
  wp (on_proc p f ≫= m) Q k.
Proof. intros Hk Hp E W. apply (wp_on_proc _ x); [done|]. apply W. by apply (fds_ok_relinked k p x). Qed.

(** What a successful [fork] does: the child is the last of the queue, has a number
    of its own and designates the same open files as its parent. *)
Definition fork_done (k k' : state) (l : list Z) (x : process T) (rc : Z) : Prop :=
  exists c y, rc = next_pid k /\ procs k !! c = None /\ queue_is k' (l ++ [c]) /\ procs k' !! c = Some y /\
    pid y = next_pid k /\ (forall j, slot_view (file_descriptors y) j = slot_view (file_descriptors x) j) /\
    current_task k' = current_task k.

(** [fork] returns; the new process is last in the queue and shares every
    descriptor of its parent, every open file still counts its descriptors, and when
    memory runs out before the copy nothing has changed. *)
Theorem fork_shares_descriptors (k : state) l x name cwd root :
  fds_ok k -> queue_is k l -> current_task k ∈ l -> procs k !! current_task k = Some x ->
  can_fork k (current_task k) x name cwd root ->
  exists rc k', fork k = Ok (rc, k') /\ fds_ok k' /\
    (fork_done k k' l x rc \/ (rc = - ENOMEM /\ files k' = files k /\ procs k' = procs k /\ queue_is k' l)).
Proof.
  intros Hk [Hc Hnd] Hcur Hx Hf. change (wp fork (fun rc k' => fds_ok k' /\ (fork_done k k' l x rc \/
    (rc = - ENOMEM /\ files k' = files k /\ procs k' = procs k /\ queue_is k' l))) k).
  unfold fork. apply wp_gets. cbn [create_process]. apply wp_bind.
  eapply wp_mono; [by apply (create_child_spec k _ x name cwd root)|]. intros [c|] k1 (Hk1 & Ec & Hm); cycle 1.
  { destruct Hm as (Ef & Ep & Eq). apply wp_ret. split; [done|]. right. split_and!; [done..|]. split; [|done]. by rewrite Ep, Eq. }
  destruct Hm as (Hnew & Eq & y & Hy & Hv & Hpid & Hnext & Hothers).
  assert (Hcl : c ∉ l) by (intros Hin; destruct (chain_live _ _ _ _ Hc Hin); congruence).
  assert (Hc1 : chain (procs k1) (ready_queue k1) l).
  { rewrite Eq. apply (chain_relink (procs k)); [|done]. intros p z _ Hz. destruct (Hothers p z Hz) as (z' & ? & _ & _ & _ & ?).
    by exists z'. }
  destruct (exists_last (l := l)) as (l0 & t & ->); [intros ->; by apply elem_of_nil in Hcur|].
  destruct (chain_at _ _ _ _ _ Hc1) as (z & Hz & Hcz). cbn in Hcz.
  unfold queue_fuel. apply wp_gets, wp_gets, wp_bind. apply (wp_ok _ _ _ (Some t) k1).
  { apply (walk_to k1 _ l0 t [] _ _ z); [done|done|by rewrite Hcz| |].
    - intros r w Hr Hw. pose proof (inner_next _ _ _ _ _ _ Hc1 Hr Hw). by destruct (next (p_links w)).
    - pose proof (queue_size k1 _ (Build_queue_is _ _ Hc1 Hnd)) as Hsz. rewrite length_app in Hsz. cbn [length] in Hsz. lia. }
  apply (wp_lift _ t); [done|]. apply (wp_relink _ t z); [done|done|done|]. intros Hk2.
  assert (Htc : t <> c) by (intros ->; apply Hcl, elem_of_app; right; by left).
  assert (Hq2 : chain (<[t := set_links (set_next (Some c) (p_links z)) z]> (procs k1)) (ready_queue k1) (l0 ++ t :: [c])).
  { apply (chain_set_next _ _ _ _ []); [done|done| | |].
    - apply NoDup_app in Hnd as (_ & Hd & _). intros Hin. apply (Hd t Hin). by left.
    - intros [?|?%elem_of_nil]%elem_of_cons; done.
    - split; [done|]. exists y. by rewrite Hnext. }
  set (k2 := set_procs _ k1) in *. apply (wp_relink k2 c y); [done|cbn; by rewrite lookup_insert_ne|done|]. intros Hk3.
  set (k3 := set_procs _ k2) in *.
  assert (Hcur3 : exists w, procs k3 !! current_task k = Some w).
  { pose proof (fo_current _ Hk3) as [w Hw]. exists w. cbn [current_task k3 k2 set_procs] in Hw. by rewrite Ec in Hw. }
  destruct Hcur3 as [w Hw]. apply (wp_relink k3 _ w); [done|done|done|]. intros Hk4.
  assert (Hcc : current_task k <> c) by (intros E; rewrite E in Hx; congruence).
  eapply wp_proc_at; [cbn [procs set_procs]; rewrite lookup_insert_ne by done; cbn; apply lookup_insert_eq|].
  apply wp_ret. split; [done|]. left. exists c. eexists. cbn [pid set_links]. split_and!; [done|done| |
    cbn [procs set_procs]; rewrite lookup_insert_ne by done; cbn; apply lookup_insert_eq|done|done|done].
  split; [|apply NoDup_app; split_and!; [done| |apply NoDup_singleton]].
  - cbn [procs ready_queue set_procs]. rewrite <- app_assoc. eapply chain_relink; [|exact Hq2].
    intros p u _ Hu. destruct (decide (p = current_task k)) as [->|Hp].
    + eexists. rewrite lookup_insert_eq. split; [done|]. cbn [p_links set_links next].
      cbn [k3 k2 procs set_procs] in Hw. rewrite lookup_insert_ne in Hw by done. congruence.
    + rewrite lookup_insert_ne by done. cbn [k3 procs set_procs]. destruct (decide (p = c)) as [->|].
      * eexists. rewrite lookup_insert_eq. split; [done|]. cbn [p_links set_links next].
        rewrite lookup_insert_ne in Hu by done. congruence.
      * rewrite lookup_insert_ne by done. by exists u.
  - intros p Hp [->|?%elem_of_nil]%elem_of_cons; done.
Qed.

(** ** Where the code fails *)

(** The last of two processes cannot leave: the search for another process goes from
    it to the first one and back. *)
Lemma two_processes_hang (k : state) h p x y fuel :
  procs k !! h = Some x -> procs k !! p = Some y -> ready_queue k = Some h -> next (p_links x) = Some p ->
  next (p_links y) = None -> leave_loop fuel p (Some p) k = NoFuel.
Proof.
  intros Hh Hp Hq Hx Hy. induction fuel as [|fuel IH]; [done|]. cbn [leave_loop]. rewrite Z.eqb_refl. cbn [negb].
  rewrite (ok_bind (proc_at p) _ k y k) by (unfold proc_at; by rewrite Hp). rewrite Hy.
  rewrite (ok_bind _ _ k h k) by (by rewrite gets_bind, Hq).
  rewrite (ok_bind (proc_at h) _ k x k) by (unfold proc_at; by rewrite Hh). rewrite Hx. exact IH.
Qed.

(** A child of a process with a long name is written over what follows the name. *)
Lemma long_name_overruns (k : state) p x name :
  procs k !! p = Some x -> cstr (program_name x) name -> 93 <= zlen name -> create_child p k = Fault.
Proof.
  intros Hp Hn Hl. unfold create_child, take_pid. rewrite gets_bind.
  rewrite (ok_bind _ _ k (next_pid k) (set_next_pid (u32 (next_pid k + 1)) k)) by done.
  rewrite child_name, lift_bind. cbn beta iota.
  rewrite (ok_bind (proc_at p) _ _ x (set_next_pid (u32 (next_pid k + 1)) k)) by (unfold proc_at; cbn; by rewrite Hp).
  assert (E : strcat (CHILD_NAME ++ replicate 92 0) (program_name x) = Fault); [|by rewrite E].
  unfold strcat.
  rewrite (strlen_spec _ (take 7 CHILD_NAME)) by (exists (replicate 92 0); split; [done|repeat constructor; done]).
  cbn [mbind outcome_bind]. apply (strcpy_at_overruns _ _ _ name); [done|..];
    change (zlen (CHILD_NAME ++ replicate 92 0)) with 100; change (zlen (take 7 CHILD_NAME)) with 7; lia.
Qed.
End Scheduling.

(** ** Examples *)

Abbreviation example := (kernel (gset Z) Z relist unit).

(** Two processes that can run: 1 and 2, with the numbers 10 and 20; the second has a
    handler for signal 1. *)
Definition null_table : relist := mkRelist None 0 0 None.

Definition empty_list : KList.klist := KList.mkList (Some (Block 0 [0])) 1 (-1).

Definition task (n : Z) (nxt : option Z) (halted : bool) : process relist :=
  mkProcess n [0] [47; 0] [47; 0] null_table (mkWait empty_list empty_list empty_list [0; 0] false halted 0)
    (mkSignals (<[1%nat := 77]> (replicate 32 0)) [] []) (mkUser 0 0 (replicate 100 None)) (mkLinks nxt None None 0 false 1).

Definition two_tasks (c : Z) : example :=
  mkKernel ∅ {[ 1 := task 10 (Some 2) false; 2 := task 20 None true ]} c (Some 1) 3 0 ∅ 4096 tt.

Lemma task_lookup c p x : procs (two_tasks c) !! p = Some x -> (p = 1 /\ x = task 10 (Some 2) false) \/ (p = 2 /\ x = task 20 None true).
Proof.
  cbn [procs two_tasks]. intros [[<- <-]|[_ E]]%lookup_insert_Some; [by left|].
  apply lookup_singleton_Some in E as [<- <-]. by right.
Qed.

Lemma empty_list_inv : KList.inv empty_list.
Proof. split; cbn; [reflexivity|lia|lia]. Qed.

Lemma two_tasks_queue c : queue_is (two_tasks c) [1; 2].
Proof.
  split; [|by apply NoDup_cons; split; [intros [=]%list_elem_of_singleton|apply NoDup_singleton]].
  split; [done|]. exists (task 10 (Some 2) false). split; [done|]. split; [done|]. by exists (task 20 None true).
Qed.

Lemma two_tasks_ready c : queue_ready (two_tasks c) [1; 2].
Proof. intros p x _ [[_ ->]|[_ ->]]%task_lookup; by split_and!; apply empty_list_inv. Qed.

(** Nothing happens in between: the two take turns. *)
Definition turns (n : nat) : example := two_tasks (if Nat.even n then 1 else 2).

Lemma turns_schedule : schedule (ret tt) turns [1; 2] 2.
Proof.
  split.
  - intros n. apply two_tasks_queue.
  - intros n. apply two_tasks_ready.
  - intros n. unfold turns. cbn [current_task two_tasks]. destruct (Nat.even n); [by left|right; by left].
  - intros n x [[_ ->]|[_ ->]]%task_lookup; done.
  - intros n k' E. unfold turns in *. rewrite Nat.even_succ, <- Nat.negb_even. destruct (Nat.even n).
    + assert (Ok (tt, k') = Ok (tt, two_tasks 2)) as [= ->] by (rewrite <- E; by vm_compute). done.
    + assert (Ok (tt, k') = Ok (tt, two_tasks 1)) as [= ->] by (rewrite <- E; by vm_compute). done.
Qed.

Lemma runnable_process_scheduled_witness :
  exists j, (1 <= j <= 2)%nat /\ current_task (turns (1 + j)) = 2.
Proof.
  apply (runnable_process_scheduled (ret tt) turns [1; 2] 2 2 1).
  - exact turns_schedule.
  - reflexivity.
  - right. left.
  - intros n. unfold turns. destruct (Nat.even n); vm_compute; reflexivity.
Defined.

Lemma kill_reaches_process_witness :
  kill (ret tt) 2 99 1 (two_tasks 1) = Ok (- ESRCH, two_tasks 1) /\
  kill (ret tt) 2 20 1 (two_tasks 1) =
    Ok (0, set_procs (<[2 := signalled 77 (task 20 None true)]> (procs (two_tasks 1))) (two_tasks 1)).
Proof.
  split.
  - apply (kill_reaches_process (ret tt) (two_tasks 1) [1; 2] 99 1 2); [apply two_tasks_queue|left|].
    repeat constructor; reflexivity.
  - apply (kill_reaches_process (ret tt) (two_tasks 1) [1; 2] 20 1 2); try done; [apply two_tasks_queue|left|right; left|].
    intros r [->|[->|?%elem_of_nil]%elem_of_cons]%elem_of_cons; done.
Defined.

Lemma fork_shares_descriptors_witness :
  exists rc k', fork one_kernel = Ok (rc, k') /\ fds_ok k' /\
    (fork_done one_kernel k' [1] one_process rc \/
     (rc = - ENOMEM /\ files k' = files one_kernel /\ procs k' = procs one_kernel /\ queue_is k' [1])).
Proof.
  apply (fork_shares_descriptors one_kernel [1] one_process (take 8 KERNEL_NAME) [47] [47]).
  - exact one_kernel_ok.
  - split; [|apply NoDup_singleton]. split; [reflexivity|]. exists one_process. by split.
  - left.
  - reflexivity.
  - constructor.
    + exists (replicate 91 0). split; [reflexivity|repeat constructor; done].
    + vm_compute. reflexivity.
    + exists (replicate 254 0). split; [reflexivity|repeat constructor; done].
    + vm_compute. reflexivity.
    + exists (replicate 254 0). split; [reflexivity|repeat constructor; done].
    + vm_compute. reflexivity.
    + exists 0, tt. reflexivity.
Defined.
