(* ===== verification/Qsort.v ===== *)
(** userland/libc/stdlib/qsort.c.  An array is a list of its elements; [compar] is
    the function the caller passes.  The two loops compare every element with every
    other one and exchange them whenever the outer one is smaller, which looks as if
    it sorted downwards. *)

From stdpp Require Import base numbers list.
From Stdlib Require Import ZArith Lia Sorted.
From S2P Require Import Prelude.

Open Scope Z_scope.

Section Qsort.
Context {A : Type} (compar : A -> A -> Z).

(** The body of the loops. *)
Definition compare_exchange (p : list A) (i j : Z) : outcome (list A) :=
  a ← aread p i;
  b ← aread p j;
  if compar a b <? 0 then p ← awrite p i b; awrite p j a else Ok p.

(** [for (j = ...; j < nel; j++)], [n] turns. *)
Fixpoint qsort_row (n : nat) (i j : Z) (p : list A) : outcome (list A) :=
  match n with
  | O => Ok p
  | S n => p ← compare_exchange p i j; qsort_row n i (j + 1) p
  end.

(** [for (i = ...; i < nel; i++)], [n] turns. *)
Fixpoint qsort_rows (n : nat) (i : Z) (p : list A) : outcome (list A) :=
  match n with
  | O => Ok p
  | S n => p ← qsort_row (length p) i 0 p; qsort_rows n (i + 1) p
  end.

Definition qsort (p : list A) : outcome (list A) :=
  if zlen p =? 0 then Ok p else qsort_rows (length p - 1) 1 p.

(** ** One row *)

(** What a row does to the elements [l] it compares [x] with: the new elements, and
    what ends up in the place of [x]. *)
Fixpoint sweep (x : A) (l : list A) : list A * A :=
  match l with
  | [] => ([], x)
  | y :: l => if compar x y <? 0 then let '(r, z) := sweep y l in (x :: r, z)
              else let '(r, z) := sweep x l in (y :: r, z)
  end.

Lemma sweep_length x l : length (fst (sweep x l)) = length l.
Proof.
  revert x. induction l as [|y l IH]; intros x; [done|]. cbn [sweep].
  destruct (compar x y <? 0); [specialize (IH y); destruct (sweep y l)|specialize (IH x); destruct (sweep x l)]; cbn in *; lia.
Qed.

Lemma aread_mid (l1 : list A) x l2 i : i = zlen l1 -> aread (l1 ++ x :: l2) i = Ok x.
Proof.
  intros ->. unfold aread, znth, zlen. destruct (Z.leb_spec 0 (Z.of_nat (length l1))); [|lia].
  rewrite Nat2Z.id, list_lookup_middle; done.
Qed.

Lemma awrite_mid (l1 : list A) x y l2 i : i = zlen l1 -> awrite (l1 ++ x :: l2) i y = Ok (l1 ++ y :: l2).
Proof.
  intros ->. assert (0 <= zlen l1 < zlen (l1 ++ x :: l2)) by (unfold zlen; rewrite length_app; cbn [length]; lia).
  rewrite awrite_ok by done. f_equal. unfold zlen. rewrite Nat2Z.id. by rewrite insert_app_r_alt, Nat.sub_diag by lia.
Qed.

(** The places in front of [i] ... *)
Lemma row_before done_ l x post n :
  qsort_row (length l + n) (zlen (done_ ++ l)) (zlen done_) (done_ ++ l ++ x :: post) =
  qsort_row n (zlen (done_ ++ l)) (zlen (done_ ++ l))
    (done_ ++ fst (sweep x l) ++ snd (sweep x l) :: post).
Proof.
  revert done_ x. induction l as [|y l IH]; intros done_ x.
  { cbn [length Nat.add app sweep fst snd]. by rewrite app_nil_r. }
  cbn [length Nat.add qsort_row]. unfold compare_exchange.
  rewrite (app_assoc done_), (aread_mid (done_ ++ y :: l) _ _ (zlen (done_ ++ y :: l))) by done. cbn [mbind outcome_bind].
  rewrite <- (app_assoc done_). cbn [app]. rewrite (aread_mid done_) by done. cbn [mbind outcome_bind sweep].
  assert (Hd : zlen done_ + 1 = zlen (done_ ++ [y])) by (rewrite zlen_app; reflexivity).
  assert (Hd' : zlen done_ + 1 = zlen (done_ ++ [x])) by (rewrite zlen_app; reflexivity).
  destruct (compar x y <? 0).
  - change (done_ ++ y :: l ++ x :: post) with (done_ ++ (y :: l) ++ x :: post).
    rewrite (app_assoc done_), awrite_mid by done. cbn [mbind outcome_bind].
    rewrite <- (app_assoc done_). cbn [app]. rewrite awrite_mid by done. cbn [mbind outcome_bind]. rewrite Hd'.
    specialize (IH (done_ ++ [x]) y). rewrite <- !app_assoc in IH. cbn [app] in IH.
    assert (Hz : zlen (done_ ++ x :: l) = zlen (done_ ++ y :: l)) by (unfold zlen; rewrite !length_app; done).
    rewrite Hz in IH. rewrite IH. destruct (sweep y l) as [r z]. cbn [fst snd app]. done.
  - cbn [mbind outcome_bind]. rewrite Hd. specialize (IH (done_ ++ [y]) x). rewrite <- !app_assoc in IH. cbn [app] in IH.
    rewrite IH. destruct (sweep x l) as [r z]. cbn [fst snd app]. done.
Qed.

(** ... and those behind it. *)
Lemma row_behind pre x mid l :
  qsort_row (length l) (zlen pre) (zlen (pre ++ x :: mid)) (pre ++ x :: mid ++ l) =
  Ok (pre ++ snd (sweep x l) :: mid ++ fst (sweep x l)).
Proof.
  revert x mid. induction l as [|y l IH]; intros x mid; [done|]. cbn [length qsort_row]. unfold compare_exchange.
  rewrite (aread_mid pre _ _ (zlen pre)) by done. cbn [mbind outcome_bind].
  change (pre ++ x :: mid ++ y :: l) with (pre ++ (x :: mid) ++ y :: l).
  rewrite (app_assoc pre), aread_mid by done. cbn [mbind outcome_bind sweep].
  assert (Hz : forall w v, zlen (pre ++ w :: mid) + 1 = zlen (pre ++ w :: mid ++ [v])).
  { intros w v. unfold zlen. rewrite !length_app. cbn [length]. rewrite length_app. cbn [length]. lia. }
  assert (Hz' : zlen (pre ++ x :: mid) = zlen (pre ++ y :: mid)) by (unfold zlen; rewrite !length_app; done).
  destruct (compar x y <? 0).
  - rewrite <- (app_assoc pre). cbn [app]. rewrite awrite_mid by done. cbn [mbind outcome_bind].
    change (pre ++ y :: mid ++ y :: l) with (pre ++ (y :: mid) ++ y :: l).
    rewrite (app_assoc pre), awrite_mid by done. cbn [mbind outcome_bind]. rewrite Hz', (Hz y x).
    specialize (IH y (mid ++ [x])). rewrite <- !app_assoc in IH |- *. cbn [app] in *. rewrite IH. destruct (sweep y l) as [r z]. cbn [fst snd]. by rewrite <- app_assoc.
  - cbn [mbind outcome_bind]. rewrite (Hz x y). specialize (IH x (mid ++ [y])). rewrite <- !app_assoc in IH |- *. cbn [app] in *.
    rewrite IH. destruct (sweep x l) as [r z]. cbn [fst snd]. by rewrite <- app_assoc.
Qed.

Lemma row_spec pre x post :
  qsort_row (length (pre ++ x :: post)) (zlen pre) 0 (pre ++ x :: post) =
  Ok (fst (sweep x pre) ++ snd (sweep (snd (sweep x pre)) post) :: fst (sweep (snd (sweep x pre)) post)).
Proof.
  rewrite length_app. cbn [length]. pose proof (row_before [] pre x post (S (length post))) as Hr.
  change (zlen (@nil A)) with 0 in Hr. cbn [app] in Hr. rewrite Hr. clear Hr.
  set (pre' := fst (sweep x pre)). set (c := snd (sweep x pre)).
  assert (Hz : zlen pre = zlen pre') by (unfold zlen, pre'; by rewrite sweep_length). rewrite Hz.
  cbn [qsort_row]. assert (E : compare_exchange (pre' ++ c :: post) (zlen pre') (zlen pre') = Ok (pre' ++ c :: post)).
  { unfold compare_exchange. rewrite !aread_mid by done. cbn [mbind outcome_bind].
    destruct (compar c c <? 0); [|done]. rewrite awrite_mid by done. cbn [mbind outcome_bind]. by rewrite awrite_mid. }
  rewrite E. cbn [mbind outcome_bind]. pose proof (row_behind pre' c [] post) as Hb. cbn [app] in Hb.
  replace (zlen pre' + 1) with (zlen (pre' ++ [c])) by (rewrite zlen_app; reflexivity). exact Hb.
Qed.

(** ** Sorting *)

(** What POSIX asks of [compar]: it orders the elements totally.  [le a b] is: [b] is
    not smaller than [a]. *)
Definition le (a b : A) : Prop := 0 <= compar b a.

Hypothesis le_total : forall a b, le a b \/ le b a.
Hypothesis le_trans : forall a b c, le a b -> le b c -> le a c.

Lemma le_refl a : le a a.
Proof. by destruct (le_total a a). Qed.

Lemma sweep_perm x l : x :: l ≡ₚ fst (sweep x l) ++ [snd (sweep x l)].
Proof.
  revert x. induction l as [|y l IH]; intros x; [done|]. cbn [sweep]. destruct (compar x y <? 0).
  - specialize (IH y). destruct (sweep y l) as [r z]. cbn [fst snd app] in *. by rewrite IH.
  - specialize (IH x). destruct (sweep x l) as [r z]. cbn [fst snd app] in *. rewrite Permutation_swap. by rewrite IH.
Qed.

(** The element that is left is a largest one. *)
Lemma sweep_max x l : le x (snd (sweep x l)) /\ Forall (fun y => le y (snd (sweep x l))) (fst (sweep x l)).
Proof.
  revert x. induction l as [|y l IH]; intros x; cbn [sweep]; [by split; [apply le_refl|]|].
  destruct (Z.ltb_spec (compar x y) 0) as [Hlt|Hge].
  - specialize (IH y). destruct (sweep y l) as [r z]. cbn [fst snd] in *. destruct IH as [Hy Hr].
    assert (le x y) by (destruct (le_total x y); [done|unfold le in *; lia]). split; [by eapply le_trans|].
    constructor; [by eapply le_trans|done].
  - specialize (IH x). destruct (sweep x l) as [r z]. cbn [fst snd] in *. destruct IH as [Hx Hr].
    split; [done|]. constructor; [|done]. by apply (le_trans y x z).
Qed.

(** A sorted prefix stays sorted when an element is swept through it. *)
Lemma sweep_sorted x l : StronglySorted le l -> StronglySorted le (fst (sweep x l)).
Proof.
  revert x. induction l as [|y l IH]; intros x Hs; [constructor|]. cbn [sweep].
  apply StronglySorted_inv in Hs as [Hs Hy]. destruct (Z.ltb_spec (compar x y) 0) as [Hlt|Hge].
  - specialize (IH y Hs). pose proof (sweep_perm y l) as Hp. destruct (sweep y l) as [r z]. cbn [fst snd] in *.
    constructor; [done|]. assert (le x y) by (destruct (le_total x y); [done|unfold le in *; lia]).
    apply Forall_forall. intros w Hw. apply (le_trans x y w); [done|].
    assert (Hin : w ∈ y :: l) by (rewrite Hp; apply elem_of_app; by left).
    apply elem_of_cons in Hin as [->|Hin]; [apply le_refl|]. by eapply Forall_forall in Hy.
  - specialize (IH x Hs). pose proof (sweep_perm x l) as Hp. destruct (sweep x l) as [r z]. cbn [fst snd] in *.
    constructor; [done|]. apply Forall_forall. intros w Hw.
    assert (Hin : w ∈ x :: l) by (rewrite Hp; apply elem_of_app; by left).
    apply elem_of_cons in Hin as [->|Hin]; [done|]. by eapply Forall_forall in Hy.
Qed.

Lemma sorted_snoc l x : StronglySorted le l -> Forall (fun y => le y x) l -> StronglySorted le (l ++ [x]).
Proof.
  induction l as [|y l IH]; intros Hs Hx; cbn [app]; [by repeat constructor|].
  apply StronglySorted_inv in Hs as [Hs Hy]. apply Forall_cons in Hx as [Hyx Hx].
  constructor; [by apply IH|]. apply Forall_app. split; [done|by constructor].
Qed.

(** After the row of [i] the first [i + 1] elements are sorted. *)
Lemma rows_spec n s post :
  length post = n -> StronglySorted le s ->
  exists r, qsort_rows n (zlen s) (s ++ post) = Ok r /\ r ≡ₚ s ++ post /\ StronglySorted le r.
Proof.
  revert s post. induction n as [|n IH]; intros s post Hn Hs.
  { apply nil_length_inv in Hn as ->. rewrite app_nil_r. by exists s. }
  destruct post as [|x post]; [done|]. injection Hn as Hn. cbn [qsort_rows]. rewrite row_spec. cbn [mbind outcome_bind].
  pose proof (sweep_perm x s) as Hp1. pose proof (sweep_max x s) as [_ Hm1]. pose proof (sweep_sorted x s Hs) as Hs1.
  pose proof (sweep_length x s) as Hl1.
  set (s1 := fst (sweep x s)) in *. set (c := snd (sweep x s)) in *.
  pose proof (sweep_perm c post) as Hp2. pose proof (sweep_max c post) as [Hm2 _]. pose proof (sweep_length c post) as Hl2.
  set (post1 := fst (sweep c post)) in *. set (d := snd (sweep c post)) in *.
  assert (Hsd : StronglySorted le (s1 ++ [d])).
  { apply sorted_snoc; [done|]. eapply Forall_impl; [exact Hm1|]. intros y Hy. by apply (le_trans y c d). }
  destruct (IH (s1 ++ [d]) post1) as (r & E & Hr & Hsr); [lia|done|].
  assert (Hz : zlen (s1 ++ [d]) = zlen s + 1) by (unfold zlen; rewrite length_app; cbn [length]; lia).
  rewrite Hz, <- app_assoc in E. exists r. split; [done|]. split; [|done]. rewrite Hr, <- app_assoc. cbn [app].
  assert (Hq : post1 ++ [d] ≡ₚ c :: post) by (by rewrite Hp2).
  rewrite <- (Permutation_cons_append post1 d) in Hq. rewrite Hq.
  rewrite (cons_middle c s1 post), app_assoc, <- Hp1. cbn [app]. by rewrite Permutation_middle.
Qed.

(** C39: for every function that orders the elements totally, [qsort] returns, and
    what it leaves is a sorted rearrangement of the array. *)
Theorem qsort_sorts p : exists r, qsort p = Ok r /\ r ≡ₚ p /\ StronglySorted le r.
Proof.
  unfold qsort. destruct p as [|x p]; [exists []; by split_and!; [| |constructor]|].
  destruct (Z.eqb_spec (zlen (x :: p)) 0) as [E|_]; [unfold zlen in E; cbn in E; lia|].
  cbn [length]. rewrite Nat.sub_succ, Nat.sub_0_r. apply (rows_spec (length p) [x] p); [done|by repeat constructor].
Qed.
End Qsort.

Lemma qsort_sorts_witness :
  exists r, qsort Z.sub [3; 1; 2; 1] = Ok r /\ r ≡ₚ [3; 1; 2; 1] /\ StronglySorted (le Z.sub) r.
Proof. apply (qsort_sorts Z.sub); unfold le; intros; lia. Defined.

Example qsort_example : qsort Z.sub [5; 3; 9; 1; 3] = Ok [1; 3; 3; 5; 9].
Proof. reflexivity. Qed.
