(* ===== verification/Clock.v ===== *)
(** kernel/drivers/cmos.c: the date in the registers of the real time clock, and the
    clock of kernel/timer.c that is started from it.

    The reference is the Gregorian calendar in closed form ([day_number]). *)

From stdpp Require Import base numbers list gmap.
From Stdlib Require Import ZArith Lia.
From S2P Require Import Prelude KString Print Sv.

Open Scope Z_scope.

Definition CMOS_SECONDS : Z := 0x00.
Definition CMOS_MINUTES : Z := 0x02.
Definition CMOS_HOURS : Z := 0x04.
Definition CMOS_WEEKDAY : Z := 0x06.
Definition CMOS_DAY_OF_MONTH : Z := 0x07.
Definition CMOS_MONTH : Z := 0x08.
Definition CMOS_YEAR : Z := 0x09.
Definition CMOS_CENTURY : Z := 0x32.
Definition CMOS_REG_B : Z := 0x0B.

(** The registers, and the call in progress: [cmos_done] and [cmos_time] are what the
    two pointers designate. *)
Record cmos : Type := mkCmos {
  registers : gmap Z Z;
  cmos_has_command : bool;
  cmos_command_is_read : bool;
  cmos_done : Z;
  cmos_time : Z
}.

Definition cmos_get_register (st : cmos) (reg : Z) : Z := default 0 (registers st !! reg).
Definition cmos_set_register (reg value : Z) (st : cmos) : cmos :=
  mkCmos (<[reg := value]> (registers st)) (cmos_has_command st) (cmos_command_is_read st)
    (cmos_done st) (cmos_time st).

(** An [int] has at most ten digits. *)
Fixpoint bcd_loop (fuel : nat) (binary shift result : Z) : Z :=
  match fuel with
  | O => result
  | S fuel =>
    if 0 <? binary
    then bcd_loop fuel (binary / 10) (shift + 1) (i32 (Z.lor result (Z.shiftl (binary mod 10) (Z.shiftl shift 2))))
    else result
  end.

Definition binary_to_bcd (binary : Z) : Z := u8 (bcd_loop 10 binary 0 0).
Definition bcd_to_binary (bcd : Z) : Z := u8 (bcd / 16 * 10 + Z.land bcd 0xf).

Definition days_in_month : list Z := [31; 28; 31; 30; 31; 30; 31; 31; 30; 31; 30; 31].
Definition seconds_in_a_day : Z := 24 * 60 * 60.

(** ** Reading *)

(** [for (int i = 1970; i < year; i++)] *)
Fixpoint get_years (n : nat) (i : Z) (second_sum : Z) : Z :=
  match n with
  | O => second_sum
  | S n =>
    let second_sum := u64 (second_sum + 365 * seconds_in_a_day) in
    get_years n (i + 1) (if i mod 4 =? 0 then u64 (second_sum + seconds_in_a_day) else second_sum)
  end.

(** [for (int i = 0; i < (int)month - 1; i++)] *)
Fixpoint get_months (n : nat) (i year : Z) (second_sum : Z) : outcome Z :=
  match n with
  | O => Ok second_sum
  | S n =>
    d ← aread days_in_month i;
    let second_sum := u64 (second_sum + d * seconds_in_a_day) in
    get_months n (i + 1) year
      (if (year mod 4 =? 0) && (i =? 1) then u64 (second_sum + seconds_in_a_day) else second_sum)
  end.

(** Seconds and minutes are used as they are, also when the other registers hold BCD. *)
Definition cmos_get_time (st : cmos) : outcome Z :=
  let get := cmos_get_register st in
  let reg_b := get CMOS_REG_B in
  let conv x := if is_set reg_b (Z.shiftl 1 2) then x else bcd_to_binary x in
  let hours := conv (get CMOS_HOURS) in
  let day_of_month := conv (get CMOS_DAY_OF_MONTH) in
  let month := conv (get CMOS_MONTH) in
  let incomplete_year := conv (get CMOS_YEAR) in
  let century := conv (get CMOS_CENTURY) in
  if negb (is_set reg_b (Z.shiftl 1 1)) then Ok 0 else
  let year := u16 (century * 100 + incomplete_year) in
  sum ← get_months (Z.to_nat (month - 1)) 0 year (get_years (Z.to_nat (year - 1970)) 1970 0);
  let sum := u64 (sum + u32 ((day_of_month - 1) * seconds_in_a_day)) in
  let sum := u64 (sum + hours * 60 * 60) in
  let sum := u64 (sum + get CMOS_MINUTES * 60) in
  Ok (i64 (u64 (sum + get CMOS_SECONDS))).

(** ** Setting *)

(** [s] of the first loop. *)
Definition year_seconds (year : Z) : Z :=
  let s := 365 * seconds_in_a_day in
  if year mod 4 =? 0 then
    let s := s + seconds_in_a_day in
    if (year mod 100 =? 0) && negb (year mod 400 =? 0) then s - seconds_in_a_day else s
  else s.

Fixpoint set_years (fuel : nat) (year time : Z) : outcome (Z * Z) :=
  match fuel with
  | O => NoFuel
  | S fuel =>
    if time <? year_seconds year then Ok (year, time)
    else set_years fuel (u16 (year + 1)) (time - year_seconds year)
  end.

(** [s] of the second loop. *)
Definition month_seconds (year days month : Z) : Z :=
  let s := days * seconds_in_a_day in
  if (year mod 4 =? 0) && (month =? 1) && (negb (year mod 100 =? 0) || (year mod 400 =? 0))
  then s + seconds_in_a_day else s.

Fixpoint set_months (fuel : nat) (year month time : Z) : outcome (Z * Z) :=
  match fuel with
  | O => NoFuel
  | S fuel =>
    d ← aread days_in_month month;
    if time <? month_seconds year d month then Ok (month, time)
    else set_months fuel year (u8 (month + 1)) (time - month_seconds year d month)
  end.

(** A year is at least 365 days, and there are twelve months to look up. *)
Definition cmos_set_time (time : Z) (st : cmos) : outcome cmos :=
  c_assert (0 <=? time) ;;
  let reg_b := cmos_get_register st CMOS_REG_B in
  let weekday := u8 ((time / seconds_in_a_day + 4) mod 7 + 1) in
  if negb (is_set reg_b (Z.shiftl 1 1)) then Ok st else
  '(year, time) ← set_years (S (Z.to_nat (time / (365 * seconds_in_a_day)))) 1970 time;
  '(month, time) ← set_months 13 year 0 time;
  let month := u8 (month + 1) in
  let day_of_month := u8 (u8 (time / seconds_in_a_day) + 1) in
  let time := time mod seconds_in_a_day in
  let hours := u8 (time / (60 * 60)) in
  let time := time mod (60 * 60) in
  let minutes := u8 (time / 60) in
  let seconds := u8 (time mod 60) in
  let s_year := u8 (year mod 100) in
  let century := u8 ((year - year mod 100) / 100) in
  let conv x := if is_set reg_b (Z.shiftl 1 2) then x else binary_to_bcd x in
  Ok (cmos_set_register CMOS_WEEKDAY (conv weekday)
     (cmos_set_register CMOS_CENTURY (conv century)
     (cmos_set_register CMOS_YEAR (conv s_year)
     (cmos_set_register CMOS_MONTH (conv month)
     (cmos_set_register CMOS_DAY_OF_MONTH (conv day_of_month)
     (cmos_set_register CMOS_HOURS (conv hours)
     (cmos_set_register CMOS_MINUTES (conv minutes)
     (cmos_set_register CMOS_SECONDS (conv seconds) st)))))))).

(** ** Calls *)

Definition finish_call (st : cmos) : cmos :=
  let st := mkCmos (registers st) false (cmos_command_is_read st) (cmos_done st) (cmos_time st) in
  cmos_set_register CMOS_REG_B (Z.land (cmos_get_register st CMOS_REG_B) (Z.lnot 0x40)) st.

Definition cmos_handler (st : cmos) : outcome cmos :=
  if negb (cmos_has_command st) then Ok (finish_call st) else
  if cmos_command_is_read st then
    t ← cmos_get_time st;
    Ok (finish_call (mkCmos (registers st) (cmos_has_command st) (cmos_command_is_read st) 1 t))
  else
    st ← cmos_set_time (cmos_time st) st;
    Ok (finish_call (mkCmos (registers st) (cmos_has_command st) (cmos_command_is_read st) 1 (cmos_time st))).

(** [time] is what the caller's variable holds. *)
Definition cmos_start_call (is_read : bool) (time : Z) (st : cmos) : Z * cmos :=
  if cmos_has_command st then (0, st) else
  let st := mkCmos (registers st) true is_read 0 time in
  (1, cmos_set_register CMOS_REG_B (Z.lor (cmos_get_register st CMOS_REG_B) 0x40) st).

(** ** kernel/timer.c and kernel/arch/i386/tsc.c *)

(** [tsc] is the value of the processor's counter at the time of a call. *)
Record timer : Type := mkTimer { start_unix_time : Z; start_tsc_time : Z; cpu_mhz : Z }.

Definition tsc_calculate_ms (t : timer) (tsc : Z) : outcome Z :=
  let d := u64 (cpu_mhz t * 1000) in
  if d =? 0 then Fault else Ok (tsc / d).

Definition timer_offset (t : timer) (tsc : Z) : outcome Z := tsc_calculate_ms t (u64 (tsc - start_tsc_time t)).

(** [tv_sec] and [tv_nsec] *)
Definition timer_get (t : timer) (tsc : Z) : outcome (Z * Z) :=
  ms ← timer_offset t tsc;
  Ok (i64 (start_unix_time t + ms / 1000), ms).

Definition timer_get_ms (t : timer) (tsc : Z) : outcome Z :=
  ms ← timer_offset t tsc;
  Ok (u64 (start_unix_time t * 1000 + ms)).

(** [clock_write] spins until the interrupt of the clock has been handled. *)
Definition clock_write (buffer : list Z) (offset len : Z) (tsc : Z) (t : timer) (st : cmos)
  : outcome (Z * timer * cmos) :=
  if negb (offset =? 0) then Ok (0, t, st) else
  '(new_value_ms, _, _) ← sv_parse_unsigned_number (sv_init buffer len);
  let new_value_seconds := new_value_ms / 1000 in
  ms ← timer_offset t tsc;
  let delta := i64 (new_value_seconds - i64 (start_unix_time t + ms / 1000)) in
  let t := mkTimer (i64 (start_unix_time t + delta)) (start_tsc_time t) (cpu_mhz t) in
  let '(started, st) := cmos_start_call false new_value_seconds st in
  if started =? 0 then NoFuel else
  st ← cmos_handler st;
  Ok (8, t, st).

(** ** The calendar *)

Definition leap (y : Z) : bool := (y mod 4 =? 0) && (negb (y mod 100 =? 0) || (y mod 400 =? 0)).

(** Days from the first of January of the year 1 to that of year [y]. *)
Definition days_before_year (y : Z) : Z :=
  let n := y - 1 in 365 * n + n / 4 - n / 100 + n / 400.

(** Days from the first of January to the first of month [m]. *)
Definition days_before_month (y m : Z) : Z :=
  default 0 (znth [0; 31; 59; 90; 120; 151; 181; 212; 243; 273; 304; 334; 365] (m - 1)) +
  (if leap y && (2 <? m) then 1 else 0).

Definition days_of_month (y m : Z) : Z := days_before_month y (m + 1) - days_before_month y m.

(** Days since the first of January of 1970. *)
Definition day_number (y m d : Z) : Z :=
  days_before_year y - days_before_year 1970 + days_before_month y m + (d - 1).

Record valid_date (y m d : Z) : Prop := {
  vd_month : 1 <= m <= 12;
  vd_day : 1 <= d <= days_of_month y m
}.

(** ** Lemmas *)

Lemma days_before_next_year y :
  days_before_year (y + 1) = days_before_year y + 365 + (if leap y then 1 else 0).
Proof.
  unfold days_before_year, leap. replace (y + 1 - 1) with y by lia.
  destruct (Z.eqb_spec (y mod 4) 0), (Z.eqb_spec (y mod 100) 0), (Z.eqb_spec (y mod 400) 0); cbn [andb orb negb];
    Z.to_euclidean_division_equations; lia.
Qed.

Lemma year_seconds_days y :
  year_seconds y = seconds_in_a_day * (days_before_year (y + 1) - days_before_year y).
Proof.
  rewrite days_before_next_year. unfold year_seconds, leap, seconds_in_a_day.
  destruct (y mod 4 =? 0), (y mod 100 =? 0), (y mod 400 =? 0); cbn [andb orb negb]; lia.
Qed.

Lemma year_seconds_bounds y : 365 * seconds_in_a_day <= year_seconds y <= 366 * seconds_in_a_day.
Proof. rewrite year_seconds_days, days_before_next_year. unfold seconds_in_a_day. destruct (leap y); lia. Qed.

Lemma set_years_spec fuel y time :
  0 <= time < 365 * seconds_in_a_day * Z.of_nat fuel -> 0 <= y -> y + Z.of_nat fuel < 2 ^ 16 ->
  exists y' t, set_years fuel y time = Ok (y', t) /\ y <= y' < y + Z.of_nat fuel /\ 0 <= t < year_seconds y' /\
    time = seconds_in_a_day * (days_before_year y' - days_before_year y) + t.
Proof.
  revert y time. induction fuel as [|fuel IH]; intros y time Ht Hy Hb; [lia|]. cbn [set_years].
  pose proof (year_seconds_bounds y). destruct (Z.ltb_spec time (year_seconds y)).
  { exists y, time. split_and!; try done; lia. }
  rewrite u16_small by lia. destruct (IH (y + 1) (time - year_seconds y)) as (y' & t & E & Hy' & Hlt & Heq); try lia.
  exists y', t. rewrite E. split_and!; try done; try lia. rewrite year_seconds_days in Heq. lia.
Qed.

Lemma months_cases m :
  0 <= m <= 11 -> m = 0 \/ m = 1 \/ m = 2 \/ m = 3 \/ m = 4 \/ m = 5 \/ m = 6 \/ m = 7 \/ m = 8 \/ m = 9 \/ m = 10 \/ m = 11.
Proof. lia. Qed.

(** The table and the February rule, of a year that is leap or not. *)
Lemma month_table y m b : leap y = b -> 0 <= m <= 11 ->
  exists d, aread days_in_month m = Ok d /\ d + c_int (b && (m =? 1)) = days_of_month y (m + 1) /\ 28 <= d <= 31 /\
    28 <= days_of_month y (m + 1) <= 31.
Proof.
  intros Hb Hm. unfold days_of_month, days_before_month. rewrite Hb.
  apply months_cases in Hm. repeat destruct Hm as [->|Hm]; [..|subst m];
    (first [exists 31; split; [reflexivity|] | exists 30; split; [reflexivity|] | exists 28; split; [reflexivity|]];
     destruct b; split_and!; first [reflexivity | by vm_compute]).
Qed.

Lemma month_seconds_days y d m :
  month_seconds y d m = (d + c_int (leap y && (m =? 1))) * seconds_in_a_day.
Proof.
  unfold month_seconds, leap. destruct (y mod 4 =? 0), (m =? 1), (negb (y mod 100 =? 0) || (y mod 400 =? 0)); cbn [andb c_int]; lia.
Qed.

Lemma days_before_month_mono y m : 0 <= m <= 11 -> days_before_month y (m + 1) < days_before_month y (m + 2).
Proof.
  intros Hm. destruct (month_table y m (leap y) eq_refl Hm) as (d & _ & Hd & Hr & _). unfold days_of_month in Hd.
  replace (m + 1 + 1) with (m + 2) in Hd by lia. unfold c_int in Hd. destruct (leap y && (m =? 1)); lia.
Qed.

Lemma set_months_spec fuel y m time :
  0 <= m <= 11 -> 12 - m <= Z.of_nat fuel ->
  0 <= time < seconds_in_a_day * (days_before_month y 13 - days_before_month y (m + 1)) ->
  exists m' t, set_months fuel y m time = Ok (m', t) /\ m <= m' <= 11 /\
    0 <= t < seconds_in_a_day * days_of_month y (m' + 1) /\
    time = seconds_in_a_day * (days_before_month y (m' + 1) - days_before_month y (m + 1)) + t.
Proof.
  revert m time. induction fuel as [|fuel IH]; intros m time Hm Hf Ht; [lia|]. cbn [set_months].
  destruct (month_table y m (leap y) eq_refl Hm) as (d & -> & Hd & _). cbn [mbind outcome_bind].
  rewrite month_seconds_days, Hd. destruct (Z.ltb_spec time (days_of_month y (m + 1) * seconds_in_a_day)) as [Hlt|Hge].
  { exists m, time. split_and!; try done; lia. }
  unfold days_of_month in Hge. destruct (Z.eq_dec m 11) as [->|Hne].
  { change (11 + 1 + 1) with 13 in Hge. lia. }
  rewrite u8_small by lia. unfold days_of_month at 1.
  destruct (IH (m + 1) (time - days_of_month y (m + 1) * seconds_in_a_day)) as (m' & t & E & Hm' & Hlt & Heq); try lia.
  { unfold days_of_month. lia. }
  exists m', t. unfold days_of_month in *. rewrite E. split_and!; try done; lia.
Qed.

Lemma days_in_year y : days_before_month y 13 = days_before_year (y + 1) - days_before_year y.
Proof.
  rewrite days_before_next_year. assert (E : days_before_month y 13 = 365 + (if leap y then 1 else 0)).
  { unfold days_before_month. by destruct (leap y). }
  lia.
Qed.

Lemma days_before_month_first y : days_before_month y 1 = 0.
Proof. unfold days_before_month. by destruct (leap y). Qed.

(** ** The date that is set *)

(** The first second of the year 10000: the century has two digits. *)
Definition LIMIT : Z := 253402300800.

(** The way a register holds a number below 100: in binary, or a decimal digit in each
    half of the byte. *)
Definition encode (reg_b x : Z) : Z := if is_set reg_b (Z.shiftl 1 2) then x else 16 * (x / 10) + x mod 10.

Lemma binary_to_bcd_digits x : 0 <= x < 100 -> binary_to_bcd x = 16 * (x / 10) + x mod 10.
Proof.
  intros Hx. assert (H : forallb (fun n => binary_to_bcd (Z.of_nat n) =? 16 * (Z.of_nat n / 10) + Z.of_nat n mod 10) (seq 0 100) = true)
    by (vm_compute; reflexivity).
  rewrite forallb_forall in H. specialize (H (Z.to_nat x)). rewrite Z2Nat.id in H by lia.
  apply Z.eqb_eq, H, in_seq. lia.
Qed.

Lemma encode_register reg_b x : 0 <= x < 100 -> (if is_set reg_b (Z.shiftl 1 2) then x else binary_to_bcd x) = encode reg_b x.
Proof. intros Hx. unfold encode. by rewrite binary_to_bcd_digits. Qed.

Lemma days_before_year_mono y y' : y <= y' -> days_before_year y <= days_before_year y'.
Proof. intros Hy. unfold days_before_year. Z.to_euclidean_division_equations; lia. Qed.

(** The registers hold a date and a time of day. *)
Record holds (st : cmos) (y m d h mi s : Z) : Prop := {
  h_century : cmos_get_register st CMOS_CENTURY = encode (cmos_get_register st CMOS_REG_B) (y / 100);
  h_year : cmos_get_register st CMOS_YEAR = encode (cmos_get_register st CMOS_REG_B) (y mod 100);
  h_month : cmos_get_register st CMOS_MONTH = encode (cmos_get_register st CMOS_REG_B) m;
  h_day : cmos_get_register st CMOS_DAY_OF_MONTH = encode (cmos_get_register st CMOS_REG_B) d;
  h_hours : cmos_get_register st CMOS_HOURS = encode (cmos_get_register st CMOS_REG_B) h;
  h_minutes : cmos_get_register st CMOS_MINUTES = encode (cmos_get_register st CMOS_REG_B) mi;
  h_seconds : cmos_get_register st CMOS_SECONDS = encode (cmos_get_register st CMOS_REG_B) s;
  h_weekday : cmos_get_register st CMOS_WEEKDAY =
    encode (cmos_get_register st CMOS_REG_B) ((day_number y m d + 4) mod 7 + 1)
}.

Lemma get_set reg reg' v st :
  cmos_get_register (cmos_set_register reg v st) reg' = if reg' =? reg then v else cmos_get_register st reg'.
Proof.
  unfold cmos_get_register, cmos_set_register. cbn [registers].
  destruct (Z.eqb_spec reg' reg) as [->|]; [by rewrite lookup_insert_eq|by rewrite lookup_insert_ne].
Qed.

Lemma cmos_set_time_spec time st :
  is_set (cmos_get_register st CMOS_REG_B) (Z.shiftl 1 1) = true -> 0 <= time < LIMIT ->
  exists st' y m d h mi s, cmos_set_time time st = Ok st' /\
    cmos_get_register st' CMOS_REG_B = cmos_get_register st CMOS_REG_B /\ holds st' y m d h mi s /\
    valid_date y m d /\ day_number y m d = time / seconds_in_a_day /\
    0 <= h < 24 /\ 0 <= mi < 60 /\ 0 <= s < 60 /\ h * 3600 + mi * 60 + s = time mod seconds_in_a_day /\
    1970 <= y < 10000.
Proof.
  intros H24 Ht. unfold cmos_set_time. destruct (Z.leb_spec 0 time); [|lia]. cbn [c_assert mbind outcome_bind].
  rewrite H24. cbn [negb]. unfold LIMIT in Ht. set (n := time / (365 * seconds_in_a_day)).
  assert (Hn : 0 <= n < 20000).
  { unfold n. split; [apply Z.div_pos; [lia|done]|]. apply Z.div_lt_upper_bound; [done|unfold seconds_in_a_day; lia]. }
  assert (Hn' : time < 365 * seconds_in_a_day * (n + 1)).
  { unfold n. pose proof (Z.mul_succ_div_gt time (365 * seconds_in_a_day) eq_refl). unfold seconds_in_a_day in *. lia. }
  destruct (set_years_spec (S (Z.to_nat n)) 1970 time) as (y & t & -> & Hy & Ht1 & Heq1); [unfold seconds_in_a_day in *; lia|lia|lia|].
  cbn [mbind outcome_bind]. assert (Hy4 : y < 10000).
  { destruct (Z.lt_ge_cases y 10000) as [|Hge]; [done|]. pose proof (days_before_year_mono 10000 y Hge) as Hm.
    change (days_before_year 10000) with 3652059 in Hm. change (days_before_year 1970) with 719162 in Heq1.
    unfold seconds_in_a_day in Heq1. lia. }
  rewrite year_seconds_days, <- days_in_year in Ht1.
  destruct (set_months_spec 13 y 0 t) as (m & t2 & -> & Hm & Ht2 & Heq2); [lia|lia| |].
  { rewrite (days_before_month_first y : days_before_month y (0 + 1) = 0). lia. }
  cbn [mbind outcome_bind]. rewrite (days_before_month_first y : days_before_month y (0 + 1) = 0) in Heq2. assert (Hdm : 28 <= days_of_month y (m + 1) <= 31).
  { by destruct (month_table y m (leap y) eq_refl Hm) as (d & _ & _ & _ & Hd). }
  set (day := t2 / seconds_in_a_day). assert (Hday : 0 <= day < days_of_month y (m + 1)).
  { unfold day. split; [apply Z.div_pos; [lia|done]|]. apply Z.div_lt_upper_bound; [done|lia]. }
  set (sod := t2 mod seconds_in_a_day). assert (Hsod : 0 <= sod < seconds_in_a_day) by (by apply Z.mod_pos_bound).
  assert (Ht2' : t2 = seconds_in_a_day * day + sod) by (by apply Z.div_mod).
  assert (Hdn : day_number y (m + 1) (day + 1) = time / seconds_in_a_day /\ sod = time mod seconds_in_a_day).
  { unfold day_number. apply Z.div_mod_unique with seconds_in_a_day; [by left|left; by apply Z.mod_pos_bound|].
    rewrite <- Z.div_mod by done. lia. }
  destruct Hdn as [Hdn Hs']. unfold seconds_in_a_day in Hsod. set (r1 := sod mod (60 * 60)).
  assert (Hr1 : 0 <= r1 < 3600) by (by apply Z.mod_pos_bound). set (h := sod / (60 * 60)).
  assert (Hh : sod = 3600 * h + r1) by (by apply Z.div_mod). set (mi := r1 / 60). set (se := r1 mod 60).
  assert (Hse : 0 <= se < 60) by (by apply Z.mod_pos_bound). assert (Hmi : r1 = 60 * mi + se) by (by apply Z.div_mod).
  assert (Hyr : (y - y mod 100) / 100 = y / 100) by (Z.to_euclidean_division_equations; lia).
  pose proof (Z.mod_pos_bound y 100 eq_refl). assert (0 <= y / 100 < 256) by (Z.to_euclidean_division_equations; lia).
  pose proof (Z.mod_pos_bound (time / seconds_in_a_day + 4) 7 eq_refl).
  rewrite Hyr, !u8_small by (rewrite ?u8_small by lia; lia).
  eexists _, y, (m + 1), (day + 1), h, mi, se. split; [reflexivity|].
  split; [by rewrite !get_set|]. split; [|split_and!; try done; try lia; split; lia].
  assert (0 <= y / 100 < 100) by (Z.to_euclidean_division_equations; lia).
  split; rewrite !get_set, ?Hdn; apply encode_register; lia.
Qed.

(** C25: setting the clock stores the Gregorian date.  For every time before the year
    10000, when the clock is in 24 hour mode, in binary and in BCD, [cmos_set_time] returns and the registers
    hold the day of the week, the valid date whose day number is the number of whole
    days since 1970, and the time of day. *)
Theorem cmos_set_time_gregorian time st :
  is_set (cmos_get_register st CMOS_REG_B) (Z.shiftl 1 1) = true -> 0 <= time < LIMIT ->
  exists st' y m d h mi s, cmos_set_time time st = Ok st' /\ holds st' y m d h mi s /\
    valid_date y m d /\ day_number y m d = time / seconds_in_a_day /\
    0 <= h < 24 /\ 0 <= mi < 60 /\ 0 <= s < 60 /\ h * 3600 + mi * 60 + s = time mod seconds_in_a_day.
Proof.
  intros H24 Ht. destruct (cmos_set_time_spec time st H24 Ht)
    as (st' & y & m & d & h & mi & s & E & _ & Hh & Hv & Hd & H1 & H2 & H3 & H4 & _).
  exists st', y, m, d, h, mi, s. split_and!; try done; lia.
Qed.

(** ** Reading it back *)

Lemma leap_before_2100 y : 1970 <= y < 2100 -> leap y = (y mod 4 =? 0).
Proof.
  intros Hy. unfold leap. destruct (Z.eqb_spec (y mod 4) 0) as [E4|]; [|done]. cbn [andb].
  destruct (Z.eqb_spec (y mod 100) 0) as [E|]; [|done]. cbn [negb orb]. apply Z.eqb_eq.
  assert (y = 2000) as -> by (Z.to_euclidean_division_equations; lia). done.
Qed.

Lemma get_years_spec n i s :
  1970 <= i -> i + Z.of_nat n <= 2100 -> 0 <= s <= 366 * seconds_in_a_day * (i - 1970) ->
  get_years n i s = s + seconds_in_a_day * (days_before_year (i + Z.of_nat n) - days_before_year i).
Proof.
  revert i s. induction n as [|n IH]; intros i s Hi Hn Hs; cbn [get_years].
  { replace (i + Z.of_nat 0) with i by lia. lia. }
  unfold seconds_in_a_day in Hs. rewrite (u64_small (s + _)), (u64_small (_ + seconds_in_a_day)) by (unfold seconds_in_a_day; lia).
  pose proof (days_before_next_year i) as Hd. rewrite leap_before_2100 in Hd by lia.
  replace (i + Z.of_nat (S n)) with (i + 1 + Z.of_nat n) by lia.
  rewrite IH by (unfold seconds_in_a_day; destruct (i mod 4 =? 0); lia). rewrite Hd.
  unfold seconds_in_a_day. destruct (i mod 4 =? 0); lia.
Qed.

Lemma get_months_spec n i y s :
  1970 <= y < 2100 -> 0 <= i -> i + Z.of_nat n <= 11 -> 0 <= s <= 2 ^ 40 + 2 ^ 30 * i ->
  get_months n i y s =
    Ok (s + seconds_in_a_day * (days_before_month y (i + Z.of_nat n + 1) - days_before_month y (i + 1))).
Proof.
  intros Hy. revert i s. induction n as [|n IH]; intros i s Hi Hn Hs; cbn [get_months].
  { f_equal. replace (i + Z.of_nat 0 + 1) with (i + 1) by lia. lia. }
  destruct (month_table y i (leap y) eq_refl) as (d & -> & Hd & Hr & _); [lia|]. cbn [mbind outcome_bind].
  unfold days_of_month in Hd. rewrite leap_before_2100 in Hd by lia.
  rewrite (u64_small (s + _)), (u64_small (_ + seconds_in_a_day)) by (unfold seconds_in_a_day; lia).
  replace (i + Z.of_nat (S n) + 1) with (i + 1 + Z.of_nat n + 1) by lia.
  rewrite IH by (unfold seconds_in_a_day; destruct ((y mod 4 =? 0) && (i =? 1)); lia). f_equal. unfold seconds_in_a_day, c_int in *.
  destruct ((y mod 4 =? 0) && (i =? 1)); lia.
Qed.

Lemma days_before_month_bounds y m : 1 <= m <= 12 -> 0 <= days_before_month y m <= 335.
Proof.
  intros Hm. unfold days_before_month. assert (Hc : 0 <= m - 1 <= 11) by lia. apply months_cases in Hc.
  replace m with (m - 1 + 1) by lia. repeat destruct Hc as [->|Hc]; [..|rewrite Hc]; destruct (leap y); by vm_compute.
Qed.

Lemma i64_nonneg x : 0 <= x < 2 ^ 63 -> i64 x = x.
Proof.
  intros Hx. unfold i64, sext, wrap. rewrite Z.mod_small by lia. destruct (Z.ltb_spec x (2 ^ (64 - 1))); lia.
Qed.

Lemma i64_signed x : - 2 ^ 63 <= x < 2 ^ 63 -> i64 x = x.
Proof.
  intros Hx. destruct (Z.lt_ge_cases x 0); [|apply i64_nonneg; lia].
  unfold i64, sext, wrap. replace (x mod 2 ^ 64) with (x + 2 ^ 64).
  - destruct (Z.ltb_spec (x + 2 ^ 64) (2 ^ (64 - 1))); lia.
  - symmetry. rewrite <- (Z.mod_add x 1 (2 ^ 64)) by lia. apply Z.mod_small. lia.
Qed.

(** In binary mode the clock gives back what it was set to, for every time before
    the year 2100. *)
Theorem cmos_set_get time st :
  is_set (cmos_get_register st CMOS_REG_B) (Z.shiftl 1 1) = true ->
  is_set (cmos_get_register st CMOS_REG_B) (Z.shiftl 1 2) = true ->
  0 <= time < seconds_in_a_day * day_number 2100 1 1 ->
  exists st', cmos_set_time time st = Ok st' /\ cmos_get_time st' = Ok time.
Proof.
  intros H24 Hbin Ht. destruct (cmos_set_time_spec time st H24)
    as (st' & y & m & d & h & mi & s & E & HB & [C1 C2 C3 C4 C5 C6 C7 _] & [Hm Hd] & Hdn & Hh & Hmi & Hs & Hsod & Hy).
  { split; [lia|]. eapply Z.lt_trans; [apply Ht|]. by vm_compute. }
  exists st'. split; [done|]. unfold encode in *. rewrite HB, Hbin in *.
  unfold cmos_get_time. rewrite HB, Hbin, H24, C1, C2, C3, C4, C5, C6, C7. cbn [negb].
  pose proof (Z.div_mod time seconds_in_a_day ltac:(done)) as Htime.
  pose proof (days_before_month_bounds y m Hm) as Hbm.
  assert (Hdm : days_of_month y m <= 31).
  { destruct (month_table y (m - 1) (leap y) eq_refl) as (? & _ & _ & _ & Hx); [lia|]. replace (m - 1 + 1) with m in Hx by lia. lia. }
  assert (Hdlt : time / seconds_in_a_day < day_number 2100 1 1) by (apply Z.div_lt_upper_bound; [done|lia]).
  assert (Hylt : y < 2100).
  { destruct (Z.lt_ge_cases y 2100) as [|Hge]; [done|]. apply days_before_year_mono in Hge. unfold day_number in *.
    change (days_before_month 2100 1) with 0 in Hdlt. lia. }
  assert (Hyy : u16 (y / 100 * 100 + y mod 100) = y).
  { rewrite <- (Z.mul_comm 100), <- Z.div_mod, u16_small by lia. done. }
  rewrite Hyy, get_years_spec by lia. replace (1970 + Z.of_nat (Z.to_nat (y - 1970))) with y by lia.
  pose proof (days_before_year_mono 1970 y ltac:(lia)). pose proof (days_before_year_mono y 2100 ltac:(lia)) as H2100.
  change (days_before_year 2100) with 766644 in H2100. change (days_before_year 1970) with 719162 in *.
  rewrite get_months_spec by (unfold seconds_in_a_day; lia). cbn [mbind outcome_bind].
  change (0 + 1) with 1. rewrite days_before_month_first. replace (0 + Z.of_nat (Z.to_nat (m - 1)) + 1) with m by lia.
  unfold day_number in Hdn. change (days_before_year 1970) with 719162 in Hdn. unfold seconds_in_a_day in *.
  rewrite u32_small by lia.
  repeat match goal with |- context [u64 ?x] =>
    lazymatch x with context [u64 _] => fail | _ => rewrite (u64_small x) by lia end end.
  rewrite i64_nonneg by lia. f_equal. lia.
Qed.

(** ** Setting the system time *)

Lemma is_set_lor_other x b : is_set x (Z.shiftl 1 b) = true -> is_set (Z.lor x 0x40) (Z.shiftl 1 b) = true.
Proof.
  unfold is_set. rewrite !negb_true_iff, !Z.eqb_neq. intros Hx E. apply Hx.
  rewrite Z.land_lor_distr_l in E. by apply Z.lor_eq_0_iff in E as [E _].
Qed.

(** Writing a number of milliseconds to the clock sets the time of the system and
    that of the hardware: at the same instant the system reports the second that was
    written, and the registers hold its date. *)
Theorem clock_write_sets buffer len ms tsc t st :
  sv_parse_unsigned_number (sv_init buffer len) = Ok (ms, mkSv [] 0, true) ->
  0 <= ms < 1000 * LIMIT -> 0 < cpu_mhz t < 2 ^ 50 -> 0 <= start_tsc_time t <= tsc -> tsc < 2 ^ 62 ->
  0 <= start_unix_time t < 2 ^ 50 -> cmos_has_command st = false ->
  is_set (cmos_get_register st CMOS_REG_B) (Z.shiftl 1 1) = true ->
  exists t' st' y m d h mi s sec nsec,
    clock_write buffer 0 len tsc t st = Ok (8, t', st') /\
    timer_get t' tsc = Ok (sec, nsec) /\ sec = ms / 1000 /\
    cmos_has_command st' = false /\ valid_date y m d /\ day_number y m d = sec / seconds_in_a_day /\
    h * 3600 + mi * 60 + s = sec mod seconds_in_a_day /\
    cmos_get_register st' CMOS_YEAR = encode (Z.lor (cmos_get_register st CMOS_REG_B) 0x40) (y mod 100) /\
    cmos_get_register st' CMOS_MONTH = encode (Z.lor (cmos_get_register st CMOS_REG_B) 0x40) m /\
    cmos_get_register st' CMOS_DAY_OF_MONTH = encode (Z.lor (cmos_get_register st CMOS_REG_B) 0x40) d.
Proof.
  intros Hparse Hms Hmhz Htsc Htsc2 Hst Hcmd H24.
  set (off := (tsc - start_tsc_time t) / (cpu_mhz t * 1000)).
  assert (Hoff : timer_offset t tsc = Ok off).
  { unfold timer_offset, tsc_calculate_ms. rewrite (u64_small (cpu_mhz t * 1000)), u64_small by lia.
    destruct (Z.eqb_spec (cpu_mhz t * 1000) 0); [lia|done]. }
  assert (Hob : 0 <= off < 2 ^ 62).
  { unfold off. split; [apply Z.div_pos; lia|]. apply Z.div_lt_upper_bound; nia. }
  set (sec := ms / 1000). assert (Hsec : 0 <= sec < LIMIT).
  { unfold sec. split; [apply Z.div_pos; lia|]. apply Z.div_lt_upper_bound; lia. }
  assert (Ho2 : 0 <= off / 1000 < 2 ^ 53).
  { split; [apply Z.div_pos; lia|]. apply Z.div_lt_upper_bound; lia. }
  assert (HL : LIMIT < 2 ^ 50) by done.
  set (regb := Z.lor (cmos_get_register st CMOS_REG_B) 0x40).
  set (st1 := cmos_set_register CMOS_REG_B regb (mkCmos (registers st) true false 0 sec)).
  assert (Hb1 : cmos_get_register st1 CMOS_REG_B = regb) by (unfold st1; by rewrite get_set).
  destruct (cmos_set_time_spec sec st1) as (st2 & y & m & d & h & mi & s & E & HB & Hh & Hv & Hdn & _ & _ & _ & Hsod & _);
    [rewrite Hb1; by apply (is_set_lor_other _ 1)|done|].
  unfold clock_write. cbn [Z.eqb negb]. rewrite Hparse. cbn [mbind outcome_bind]. rewrite Hoff. cbn [mbind outcome_bind].
  unfold cmos_start_call. rewrite Hcmd. cbn [Z.eqb]. fold sec.
  change (cmos_get_register (mkCmos (registers st) true false 0 sec) CMOS_REG_B) with (cmos_get_register st CMOS_REG_B).
  fold regb. fold st1. unfold cmos_handler. change (cmos_has_command st1) with true. change (cmos_command_is_read st1) with false.
  change (cmos_time st1) with sec. cbn [negb]. rewrite E. cbn [mbind outcome_bind].
  eexists _, _, y, m, d, h, mi, s, sec, off. split; [reflexivity|]. rewrite Hb1 in HB. destruct Hh as [_ C2 C3 C4 _ _ _ _].
  rewrite HB in *. split_and!; try done.
  - unfold timer_get, timer_offset in *. cbn [start_tsc_time]. unfold tsc_calculate_ms in *. cbn [cpu_mhz].
    rewrite Hoff. cbn [mbind outcome_bind start_unix_time]. do 2 f_equal.
    rewrite (i64_nonneg (start_unix_time t + off / 1000)) by lia.
    rewrite (i64_signed (sec - _)), (i64_signed (start_unix_time t + _)), i64_nonneg by lia. lia.
  - unfold finish_call. by rewrite get_set.
  - unfold finish_call. by rewrite get_set.
  - unfold finish_call. by rewrite get_set.
Qed.

(** ** Witnesses *)

Definition cmos_sample (reg_b : Z) : cmos := mkCmos {[ CMOS_REG_B := reg_b ]} false false 0 0.

(** Leap day of 2024, 12:34:56. *)
Lemma cmos_set_time_gregorian_witness :
  exists st' y m d h mi s, cmos_set_time 1709210096 (cmos_sample 2) = Ok st' /\ holds st' y m d h mi s /\
    valid_date y m d /\ day_number y m d = 1709210096 / seconds_in_a_day /\
    0 <= h < 24 /\ 0 <= mi < 60 /\ 0 <= s < 60 /\ h * 3600 + mi * 60 + s = 1709210096 mod seconds_in_a_day.
Proof. apply cmos_set_time_gregorian; [reflexivity|by vm_compute]. Defined.

Lemma cmos_set_get_witness :
  exists st', cmos_set_time 1709210096 (cmos_sample 6) = Ok st' /\ cmos_get_time st' = Ok 1709210096.
Proof. apply cmos_set_get; [reflexivity|reflexivity|by vm_compute]. Defined.

Lemma clock_write_sets_witness :
  exists t' st' y m d h mi s sec nsec,
    clock_write [53; 48; 48; 48] 0 4 123456789 (mkTimer 7 0 2000) (cmos_sample 2) = Ok (8, t', st') /\
    timer_get t' 123456789 = Ok (sec, nsec) /\ sec = 5000 / 1000 /\
    cmos_has_command st' = false /\ valid_date y m d /\ day_number y m d = sec / seconds_in_a_day /\
    h * 3600 + mi * 60 + s = sec mod seconds_in_a_day /\
    cmos_get_register st' CMOS_YEAR = encode 0x42 (y mod 100) /\
    cmos_get_register st' CMOS_MONTH = encode 0x42 m /\
    cmos_get_register st' CMOS_DAY_OF_MONTH = encode 0x42 d.
Proof.
  exact (clock_write_sets [53; 48; 48; 48] 4 5000 123456789 (mkTimer 7 0 2000) (cmos_sample 2)
    eq_refl ltac:(by vm_compute) ltac:(by vm_compute) ltac:(by vm_compute) ltac:(by vm_compute)
    ltac:(by vm_compute) eq_refl eq_refl).
Defined.

Example leap_day_registers :
  match cmos_set_time 1709210096 (cmos_sample 2) with
  | Ok st => map (cmos_get_register st) [CMOS_CENTURY; CMOS_YEAR; CMOS_MONTH; CMOS_DAY_OF_MONTH; CMOS_WEEKDAY; CMOS_HOURS]
  | _ => []
  end = [0x20; 0x24; 0x02; 0x29; 5; 0x12].
Proof. vm_compute. reflexivity. Qed.

(** In BCD mode seconds and minutes are read without conversion: ten minutes past
    midnight are read back as sixteen. *)
Example bcd_minutes_wrong : (st ← cmos_set_time 600 (cmos_sample 2); cmos_get_time st) = Ok 960.
Proof. vm_compute. reflexivity. Qed.

(** The two directions disagree on the year 2100, which is no leap year. *)
Example year_2100_wrong :
  (st ← cmos_set_time (seconds_in_a_day * day_number 2100 3 1) (cmos_sample 6); cmos_get_time st) =
  Ok (seconds_in_a_day * day_number 2100 3 1 + seconds_in_a_day).
Proof. vm_compute. reflexivity. Qed.
