(* ===== verification/Sh.v ===== *)
(** userland/minibox/utilities/sh: the lexer, the parser and the control flow of the
    shell.

    Tokens and syntax trees are linked lists in the code and lists here.  A string is
    a view into the text ([Sv]); the theorems speak about the texts. *)

From stdpp Require Import base numbers list gmap.
From Stdlib Require Import ZArith Lia.
From S2P Require Import Prelude Bytes Alloc StateM KString Print Sv.

Open Scope Z_scope.

(** ** Characters (userland/libc/ctype) *)

Definition isprint (c : Z) : bool := (0x20 <? c) && negb (c =? 0x7F).
Definition toupper (c : Z) : Z := if (97 <=? c) && (c <=? 122) then c - 97 + 65 else c.
Definition isalpha (c : Z) : bool := (65 <=? toupper c) && (toupper c <=? 90).
Definition isalnum (c : Z) : bool := isalpha c || isdigit c.

(** [c] is a byte of the text, a [char] is signed. *)
Definition is_special_char (b : Z) : bool :=
  let c := sext 8 b in
  if negb (isprint c) then true else
  if isspace c then true else
  if isalnum c then false else
  (c =? 62) || (c =? 124) || (c =? 38) || (c =? 61).

(** ** Lexer *)

Inductive token_type : Type :=
| TOKEN_CHARS | TOKEN_AND | TOKEN_NOT | TOKEN_PIPE | TOKEN_STREAM | TOKEN_STREAM_APPEND
| TOKEN_BACKGROUND | TOKEN_EQUAL | TOKEN_NEWLINE.

#[export] Instance token_type_eq_dec : EqDecision token_type.
Proof. solve_decision. Defined.

Record TOKEN : Type := mkToken { tk_type : token_type; string_rep : sv }.

(** [None]: not a word. *)
Definition parse_chars (code : sv) : outcome (option (TOKEN * sv)) :=
  q ← sv_partial_eq code (C_TO_SV [34]);
  if q : bool then
    let code := default code (snd (sv_take code (Some code) 1)) in
    '(s, rest) ← sv_split_delim code (Some code) 34;
    Ok (Some (mkToken TOKEN_CHARS s, default code rest))
  else
    c ← sv_peek code;
    if is_special_char c then Ok None else
    '(s, rest) ← sv_split_function code (Some code) is_special_char;
    Ok (Some (mkToken TOKEN_CHARS s, default code rest)).

(** The operators, in the order they are tried. *)
Definition operands : list (list Z * token_type) :=
  [([38; 38], TOKEN_AND); ([124; 124], TOKEN_NOT); ([62; 62], TOKEN_STREAM_APPEND); ([62], TOKEN_STREAM);
   ([124], TOKEN_PIPE); ([38], TOKEN_BACKGROUND); ([61], TOKEN_EQUAL); ([10], TOKEN_NEWLINE)].

Fixpoint try_operands (ops : list (list Z * token_type)) (code : sv) : outcome (option (TOKEN * sv)) :=
  match ops with
  | [] => Ok None
  | (s, t) :: ops =>
    eq ← sv_partial_eq code (C_TO_SV s);
    if eq : bool then
      let '(r, rest) := sv_take code (Some code) (zlen s) in Ok (Some (mkToken t r, default code rest))
    else try_operands ops code
  end.

Definition parse_operand (code : sv) : outcome (option (TOKEN * sv)) := try_operands operands code.

(** [do { ... } while (start.length != s->length);] *)
Fixpoint skip_whitespace_fuel (fuel : nat) (s : sv) : outcome sv :=
  match fuel with
  | O => NoFuel
  | S fuel =>
    let start := s in
    s ← sv_skip_chars s [32; 9; 13; 0];
    comment ← sv_partial_eq s (C_TO_SV [35]);
    if negb comment then Ok s else
    '(_, rest) ← sv_split_delim s (Some s) 10;
    let s := default s rest in
    if negb (sv_length start =? sv_length s) then skip_whitespace_fuel fuel s else Ok s
  end.

(** Every turn takes a comment away. *)
Definition skip_whitespace_and_comment (s : sv) : outcome sv :=
  skip_whitespace_fuel (S (Z.to_nat (sv_length s))) s.

Fixpoint lex_fuel (fuel : nat) (code : sv) : outcome (list TOKEN) :=
  match fuel with
  | O => NoFuel
  | S fuel =>
    if sv_isempty code then Ok [] else
    code ← skip_whitespace_and_comment code;
    if sv_isempty code then Ok [] else
    w ← parse_chars code;
    match w with
    | Some (t, code) => ts ← lex_fuel fuel code; Ok (t :: ts)
    | None =>
      o ← parse_operand code;
      match o with
      | Some (t, code) => ts ← lex_fuel fuel code; Ok (t :: ts)
      | None => Panic
      end
    end
  end.

(** Every turn takes a character away. *)
Definition lex (code : sv) : outcome (list TOKEN) := lex_fuel (S (Z.to_nat (sv_length code))) code.

(** ** Parser *)

Inductive ast_type : Type := AST_COMMAND | AST_SET | AST_EXPRESSION | AST_CONDITIONAL_AND | AST_CONDITIONAL_NOT.

Inductive AST : Type := mkAST {
  ast_kind : ast_type;
  ast_val : sv;
  children : list AST;
  pipe_rhs : option AST;
  file_out_append : bool;
  should_background : bool;
  file_out : sv
}.

(** All bytes zero: a command without a name. *)
Definition allocate_ast : AST := mkAST AST_COMMAND sv_null [] None false false sv_null.

Definition ast_expression (s : sv) : AST := mkAST AST_EXPRESSION s [] None false false sv_null.

Definition token_is (t : token_type) (ts : list TOKEN) : bool :=
  match ts with x :: _ => bool_decide (tk_type x = t) | [] => false end.

(** [ts] starts with the token the pointer designates. *)
Definition parse_set (ts : list TOKEN) : outcome (option (AST * list TOKEN)) :=
  match ts with
  | [] => Fault
  | t :: ts =>
    if negb (bool_decide (tk_type t = TOKEN_CHARS)) then Ok None else
    export ← sv_eq (C_TO_SV [101; 120; 112; 111; 114; 116]) (string_rep t);
    if negb export then Ok None else
    match ts with
    | name :: eq :: value :: nl :: rest =>
      if bool_decide (tk_type name = TOKEN_CHARS) && bool_decide (tk_type eq = TOKEN_EQUAL) &&
         bool_decide (tk_type value = TOKEN_CHARS) && bool_decide (tk_type nl = TOKEN_NEWLINE)
      then Ok (Some (mkAST AST_SET (string_rep name) [ast_expression (string_rep value)] None false false sv_null, rest))
      else Ok None
    | _ => Ok None
    end
  end.

(** The words in front. *)
Fixpoint parse_arguments (ts : list TOKEN) : list AST * list TOKEN :=
  match ts with
  | t :: rest =>
    if bool_decide (tk_type t = TOKEN_CHARS)
    then let '(args, rest) := parse_arguments rest in (ast_expression (string_rep t) :: args, rest)
    else ([], ts)
  | [] => ([], [])
  end.

(** ["> file"]: [append], the file and what follows.  The token behind the operator
    is not looked at. *)
Definition parse_stream (ts : list TOKEN) : outcome (bool * sv * list TOKEN) :=
  if token_is TOKEN_STREAM ts || token_is TOKEN_STREAM_APPEND ts then
    match ts with
    | _ :: f :: rest => Ok (token_is TOKEN_STREAM_APPEND ts, string_rep f, rest)
    | _ => Fault
    end
  else Ok (false, sv_null, ts).

Definition skip_token (t : token_type) (ts : list TOKEN) : list TOKEN := if token_is t ts then tail ts else ts.

(** [NoCommand] leaves the tokens, [Exited] is [exit(1)]. *)
Inductive command_result : Type := NoCommand | Exited | Command (a : AST) (rest : list TOKEN).

Fixpoint parse_command_fuel (fuel : nat) (ts : list TOKEN) : outcome command_result :=
  match fuel with
  | O => NoFuel
  | S fuel =>
    match ts with
    | [] => Fault
    | t :: ts =>
      if negb (bool_decide (tk_type t = TOKEN_CHARS)) then Ok NoCommand else
      let '(args, ts) := parse_arguments ts in
      '(append, out, ts) ← parse_stream ts;
      let background := token_is TOKEN_BACKGROUND ts in
      let ts := skip_token TOKEN_BACKGROUND ts in
      let finish rhs ts :=
        Ok (Command (mkAST AST_COMMAND (string_rep t) args rhs append background out) (skip_token TOKEN_NEWLINE ts)) in
      if token_is TOKEN_PIPE ts then
        r ← parse_command_fuel fuel (tail ts);
        match r with
        | Command rhs ts => finish (Some rhs) ts
        | _ => Ok Exited
        end
      else finish None ts
    end
  end.

Definition parse_command (ts : list TOKEN) : outcome command_result := parse_command_fuel (length ts) ts.

(** [None] is [exit(1)]. *)
Fixpoint generate_ast_fuel (fuel : nat) (ts : list TOKEN) : outcome (option (list AST)) :=
  match fuel with
  | O => NoFuel
  | S fuel =>
    match ts with
    | [] => Ok (Some [])
    | t :: rest =>
      let go (a : AST) (ts : list TOKEN) : outcome (option (list AST)) :=
        (r ← generate_ast_fuel fuel ts; Ok (option_map (cons a) r)) in
      s ← parse_set ts;
      match s with
      | Some (a, ts) => go a ts
      | None =>
        c ← parse_command ts;
        match c with
        | Exited => Ok None
        | Command a ts => go a ts
        | NoCommand =>
          if bool_decide (tk_type t = TOKEN_AND) then go (mkAST AST_CONDITIONAL_AND sv_null [] None false false sv_null) rest else
          if bool_decide (tk_type t = TOKEN_NOT) then go (mkAST AST_CONDITIONAL_NOT sv_null [] None false false sv_null) rest else
          go allocate_ast rest
        end
      end
    end
  end.

Definition generate_ast (ts : list TOKEN) : outcome (option (list AST)) := generate_ast_fuel (S (length ts)) ts.

(** ** Execution *)

Section Execute.
Context {S : Type}.

(** [execute_command(ast, STDIN_FILENO)] and [set_env_from_ast]. *)
Context (execute_command : AST -> SM S Z) (set_env_from_ast : AST -> SM S unit).

Fixpoint execute_loop (asts : list AST) (rc : Z) : SM S Z :=
  match asts with
  | [] => mret rc
  | a :: asts =>
    match ast_kind a with
    | AST_SET => set_env_from_ast a ;; execute_loop asts rc
    | AST_COMMAND => rc ← execute_command a; execute_loop asts rc
    | AST_CONDITIONAL_AND =>
      if negb (rc =? 0) then match asts with [] => mret rc | _ :: asts => execute_loop asts rc end
      else execute_loop asts rc
    | AST_CONDITIONAL_NOT =>
      if rc =? 0 then match asts with [] => mret rc | _ :: asts => execute_loop asts rc end
      else execute_loop asts rc
    | AST_EXPRESSION => execute_loop asts rc
    end
  end.

(** The function has no result. *)
Definition execute_ast (asts : list AST) : SM S unit := execute_loop asts (-1) ;; mret tt.
End Execute.

(** [char *argv[100]] of [execute_binary]: the name, the arguments, NULL. *)
Fixpoint fill_argv (argv : list (option (list Z))) (i : Z) (args : list (list Z)) : outcome (list (option (list Z))) :=
  match args with
  | [] => awrite argv i None
  | a :: args => argv ← awrite argv i (Some a); fill_argv argv (i + 1) args
  end.

Definition execute_binary_argv (a : AST) : outcome (list (option (list Z))) :=
  fill_argv (replicate 100 None) 0 (text (ast_val a) :: map (fun c => text (ast_val c)) (children a)).

(** ** The lexer on texts *)

Definition white (c : Z) : bool := (c =? 32) || (c =? 9) || (c =? 13).

Lemma in_chars_white c : in_chars [32; 9; 13; 0] c = Ok (white c).
Proof.
  cbn [in_chars]. unfold white. change (32 =? 0) with false. change (9 =? 0) with false. change (13 =? 0) with false.
  cbn iota. destruct (Z.eqb_spec 32 c) as [<-|H1]; [done|]. destruct (Z.eqb_spec 9 c) as [<-|H2]; [done|].
  destruct (Z.eqb_spec 13 c) as [<-|H3]; [done|].
  by rewrite !(proj2 (Z.eqb_neq c _)) by congruence.
Qed.

Lemma skip_loop_spec p n :
  (n <= length p)%nat ->
  exists k, (k <= n)%nat /\ skip_loop p [32; 9; 13; 0] n = Ok (drop k p, (n - k)%nat) /\
    Forall (fun c => white c = true) (take k p) /\
    (k = n \/ exists c, p !! k = Some c /\ white c = false).
Proof.
  revert p. induction n as [|n IH]; intros p Hn.
  { exists 0%nat. split_and!; [done|done|constructor|by left]. }
  destruct p as [|c p]; cbn in Hn; [lia|]. cbn [skip_loop]. rewrite in_chars_white. cbn [mbind outcome_bind].
  destruct (white c) eqn:Ew.
  - destruct (IH p) as (k & Hk & E & Hf & Hs); [lia|]. exists (S k). split_and!; [lia|by rewrite E|by constructor|].
    destruct Hs as [->|?]; [by left|by right].
  - exists 0%nat. split_and!; [lia|done|constructor|]. right. by exists c.
Qed.

Lemma skip_chars_spec v : sv_ok v ->
  exists ws r, sv_skip_chars v [32; 9; 13; 0] = Ok r /\ sv_ok r /\ text v = ws ++ text r /\
    Forall (fun c => white c = true) ws /\ match text r with [] => True | c :: _ => white c = false end.
Proof.
  intros Hok. pose proof Hok as [Hl Hb]. unfold sv_skip_chars.
  destruct (skip_loop_spec (sv_s v) (Z.to_nat (sv_length v))) as (k & Hk & -> & Hf & Hs); [zlia|].
  cbn [mbind outcome_bind]. set (r := mkSv (drop k (sv_s v)) (Z.of_nat (Z.to_nat (sv_length v) - k))).
  assert (Er : r = mkSv (zdrop (Z.of_nat k) (sv_s v)) (sv_length v - Z.of_nat k)).
  { unfold r, zdrop. rewrite Nat2Z.id. f_equal. lia. }
  assert (Ht : text r = drop k (text v)).
  { rewrite Er, text_suffix by lia. unfold zdrop. by rewrite Nat2Z.id. }
  exists (take k (text v)), r. split_and!; [done| | | |].
  - rewrite Er. apply suffix_ok; [done|lia].
  - by rewrite Ht, take_drop.
  - unfold text, ztake. rewrite take_take. by replace (k `min` _)%nat with k by lia.
  - rewrite Ht. destruct Hs as [->|(c & Hc & Hw)].
    + unfold text, ztake. rewrite drop_ge; [done|]. rewrite length_take. lia.
    + destruct (decide (k < Z.to_nat (sv_length v))%nat) as [Hlt|Hge].
      * rewrite (drop_S _ c k); [done|]. unfold text, ztake. by rewrite lookup_take_lt.
      * unfold text, ztake. rewrite drop_ge; [done|]. rewrite length_take. lia.
Qed.

Lemma literal_ok s : zlen s < 2 ^ 32 -> sv_ok (C_TO_SV s) /\ text (C_TO_SV s) = s.
Proof.
  intros Hs. unfold C_TO_SV. split.
  - split; cbn [sv_length sv_s]; [|done]. rewrite zlen_app. pose proof (zlen_nonneg s). change (zlen [0]) with 1. lia.
  - unfold text. cbn [sv_length sv_s]. by apply ztake_app_exact.
Qed.

Lemma starts_with v s : sv_ok v -> zlen s < 2 ^ 32 ->
  sv_partial_eq v (C_TO_SV s) = Ok (bool_decide (s `prefix_of` text v)).
Proof.
  intros Hv Hs. destruct (literal_ok s Hs) as [Hl Ht]. destruct (sv_comparisons v (C_TO_SV s) Hv Hl) as (_ & E & _).
  by rewrite E, Ht.
Qed.

Lemma take_spec v n : sv_ok v -> 0 <= n <= sv_length v ->
  exists r rest, sv_take v (Some v) n = (r, Some rest) /\ sv_ok r /\ sv_ok rest /\
    text r = ztake n (text v) /\ text rest = zdrop n (text v).
Proof.
  intros Hok Hn. unfold sv_take. destruct (Z.ltb_spec (sv_length v) n); [lia|].
  eexists _, _. split; [reflexivity|]. rewrite advance_suffix by done. split_and!.
  - destruct Hok. split; cbn [sv_length sv_s]; lia.
  - by apply suffix_ok.
  - by apply text_prefix.
  - by apply text_suffix.
Qed.

Lemma isempty_text v : sv_ok v -> sv_isempty v = bool_decide (text v = []).
Proof.
  intros Hok. pose proof (text_len _ Hok) as Hl. unfold sv_isempty.
  destruct (Z.eqb_spec (sv_length v) 0) as [E|E], (bool_decide_reflect (text v = [])) as [Et|Et]; try done.
  - destruct Et. destruct (text v); [done|]. rewrite E in Hl. zlia.
  - rewrite Et, zlen_nil in Hl. lia.
Qed.

Lemma peek_text v c t : sv_ok v -> text v = c :: t -> sv_peek v = Ok c.
Proof.
  intros Hok Ht. pose proof (text_len _ Hok) as Hl. rewrite Ht in Hl. unfold sv_peek.
  destruct (Z.eqb_spec (sv_length v) 0) as [E|E]; [rewrite E in Hl; zlia|].
  unfold text, ztake in Ht. destruct (sv_s v) as [|c' p] eqn:Ep; [by rewrite take_nil in Ht|].
  destruct (Z.to_nat (sv_length v)); [done|]. by injection Ht as -> _.
Qed.

(** A word: plain up to a special character, or quoted. *)
Lemma parse_chars_spec v c t : sv_ok v -> text v = c :: t ->
  (c <> 34 /\ is_special_char c = true /\ parse_chars v = Ok None) \/
  (exists s rest, parse_chars v = Ok (Some (mkToken TOKEN_CHARS s, rest)) /\ sv_ok s /\ sv_ok rest /\
     ((c = 34 /\ 34 ∉ text s /\ (t = text s ++ 34 :: text rest \/ (t = text s /\ text rest = []))) \/
      (c <> 34 /\ is_special_char c = false /\ Forall (fun c => is_special_char c = false) (text s) /\
       c :: t = text s ++ text rest /\
       (text rest = [] \/ exists d u, text rest = d :: u /\ is_special_char d = true)))).
Proof.
  intros Hok Ht. unfold parse_chars. rewrite starts_with by done. cbn [mbind outcome_bind]. rewrite Ht.
  assert (Hq : bool_decide ([34] `prefix_of` c :: t) = (c =? 34)).
  { destruct (Z.eqb_spec c 34) as [->|Hne]; [apply bool_decide_eq_true_2; by exists t|].
    apply bool_decide_eq_false_2. intros [k E]. by injection E as ->. }
  rewrite Hq. pose proof (text_len _ Hok) as Hl. rewrite Ht in Hl.
  destruct (Z.eqb_spec c 34) as [->|Hne].
  - right. destruct (take_spec v 1 Hok) as (r & v1 & E & _ & Hv1 & _ & Ht1); [zlia|]. rewrite E. cbn [snd default from_option id].
    rewrite Ht in Ht1. change (zdrop 1 (34 :: t)) with t in Ht1.
    destruct (sv_split_partitions v1 34 isspace Hv1) as [(s & rest & -> & Hn & Hs & Hs1 & Hs2) _].
    cbn [mbind outcome_bind default from_option id]. exists s, rest. split_and!; [done..|]. left. split_and!; [done..|].
    rewrite <- Ht1. destruct Hs as [Hs|[Hs ->]]; [by left|by right].
  - rewrite (peek_text v c t) by done. cbn [mbind outcome_bind]. destruct (is_special_char c) eqn:Es; [by left|]. right.
    destruct (sv_split_partitions v 34 is_special_char Hok) as [_ (s & rest & -> & Hf & Hs & Hr & Hs1 & Hs2)].
    cbn [mbind outcome_bind default from_option id]. exists s, rest. split_and!; [done..|]. right. split_and!; try done.
    by rewrite <- Ht.
Qed.

(** The first operator the text starts with. *)
Fixpoint first_operand (ops : list (list Z * token_type)) (t : list Z) : option (list Z * token_type) :=
  match ops with
  | [] => None
  | (s, k) :: ops => if bool_decide (s `prefix_of` t) then Some (s, k) else first_operand ops t
  end.

Lemma try_operands_spec ops v : sv_ok v -> Forall (fun o => zlen o.1 < 2 ^ 32) ops ->
  match first_operand ops (text v) with
  | None => try_operands ops v = Ok None
  | Some (s, k) => exists r rest, try_operands ops v = Ok (Some (mkToken k r, rest)) /\ sv_ok r /\ sv_ok rest /\
      text r = s /\ text v = s ++ text rest
  end.
Proof.
  intros Hok Hops. induction Hops as [|[s k] ops Hs _ IH]; [done|]. cbn [first_operand try_operands].
  rewrite starts_with by done. cbn [mbind outcome_bind].
  destruct (bool_decide_reflect (s `prefix_of` text v)) as [[u Hu]|Hn]; [|exact IH].
  pose proof (text_len _ Hok) as Hl. rewrite Hu, zlen_app in Hl. pose proof (zlen_nonneg s). pose proof (zlen_nonneg u).
  destruct (take_spec v (zlen s) Hok) as (r & rest & -> & Hr & Hrest & E1 & E2); [lia|].
  cbn [default from_option id]. exists r, rest. rewrite Hu in E1, E2.
  rewrite ztake_app_exact in E1 by done. rewrite zdrop_app_exact in E2 by done. split_and!; try done. by rewrite E2.
Qed.

Lemma operands_short : Forall (fun o : list Z * token_type => zlen o.1 < 2 ^ 32) operands.
Proof. repeat constructor. Qed.

(** The longest prefix of characters of a kind is determined. *)
Lemma span_unique (f : Z -> bool) ws u ws' u' :
  Forall (fun c => f c = true) ws -> Forall (fun c => f c = true) ws' ->
  match u with [] => True | c :: _ => f c = false end ->
  match u' with [] => True | c :: _ => f c = false end ->
  ws ++ u = ws' ++ u' -> ws = ws' /\ u = u'.
Proof.
  intros Hw. revert ws'. induction Hw as [|c ws Hc _ IH]; intros ws' Hw' Hu Hu' E; cbn [app] in E.
  - destruct ws' as [|d ws']; [done|]. apply Forall_cons in Hw' as [Hd _]. subst u. cbn in Hu. congruence.
  - destruct ws' as [|d ws'].
    + cbn [app] in E. subst u'. cbn in Hu'. congruence.
    + apply Forall_cons in Hw' as [_ Hw']. injection E as -> E. destruct (IH ws' Hw' Hu Hu' E) as [-> ->]. done.
Qed.

(** The result of [first_operand] on a text with a known head, computed. *)
Fixpoint starts (s t : list Z) : bool :=
  match s, t with
  | [], _ => true
  | x :: s, y :: t => (x =? y) && starts s t
  | _, [] => false
  end.

Lemma starts_prefix s t : bool_decide (s `prefix_of` t) = starts s t.
Proof.
  revert t. induction s as [|x s IH]; intros t; cbn [starts]; [apply bool_decide_eq_true_2; by exists t|].
  destruct t as [|y t]; [apply bool_decide_eq_false_2; by intros [k E]|]. rewrite <- IH.
  destruct (Z.eqb_spec x y) as [->|Hne]; cbn [andb].
  - apply bool_decide_ext. split; [apply prefix_cons_inv_2|apply prefix_cons].
  - apply bool_decide_eq_false_2. intros Hp. by apply prefix_cons_inv_1 in Hp.
Qed.

Definition tok_text (t : TOKEN) : token_type * list Z := (tk_type t, text (string_rep t)).

(** ** The language of tokens *)

(** Characters of a word that needs no quotes. *)
Definition word_char (c : Z) : bool :=
  (33 <=? c) && (c <=? 126) && negb (bool_decide (c ∈ [62; 124; 38; 61])).

Definition two_char (c : Z) : option token_type :=
  if c =? 38 then Some TOKEN_AND else if c =? 124 then Some TOKEN_NOT
  else if c =? 62 then Some TOKEN_STREAM_APPEND else None.

Definition one_char (c : Z) : option token_type :=
  if c =? 62 then Some TOKEN_STREAM else if c =? 124 then Some TOKEN_PIPE
  else if c =? 38 then Some TOKEN_BACKGROUND else if c =? 61 then Some TOKEN_EQUAL
  else if c =? 10 then Some TOKEN_NEWLINE else None.

(** A word does not go on in [t]. *)
Definition word_ends (t : list Z) : Prop := match t with [] => True | c :: _ => word_char c = false end.

(** The tokens of a text.  A comment includes the end of its line; the quote of a word
    at the end of the text can be missing; operators of two characters come first. *)
Inductive lexes : list Z -> list (token_type * list Z) -> Prop :=
| lexes_end : lexes [] []
| lexes_white c t ts : c ∈ [32; 9; 13] -> lexes t ts -> lexes (c :: t) ts
| lexes_comment s t ts : 10 ∉ s -> lexes t ts -> lexes (35 :: s ++ 10 :: t) ts
| lexes_last_comment s : 10 ∉ s -> lexes (35 :: s) []
| lexes_quoted s t ts : 34 ∉ s -> lexes t ts -> lexes (34 :: s ++ 34 :: t) ((TOKEN_CHARS, s) :: ts)
| lexes_open_quote s : 34 ∉ s -> lexes (34 :: s) [(TOKEN_CHARS, s)]
| lexes_word c s t ts : c ∉ [34; 35] -> Forall (fun c => word_char c = true) (c :: s) -> word_ends t ->
    lexes t ts -> lexes (c :: s ++ t) ((TOKEN_CHARS, c :: s) :: ts)
| lexes_two c k t ts : two_char c = Some k -> lexes t ts -> lexes (c :: c :: t) ((k, [c; c]) :: ts)
| lexes_one c k t ts : one_char c = Some k -> two_char c = None \/ head t <> Some c ->
    lexes t ts -> lexes (c :: t) ((k, [c]) :: ts).

Lemma special_word c : fits 8 c -> is_special_char c = negb (word_char c).
Proof.
  intros Hc. assert (H : forallb (fun n => Bool.eqb (is_special_char (Z.of_nat n)) (negb (word_char (Z.of_nat n)))) (seq 0 256) = true)
    by (vm_compute; reflexivity).
  rewrite forallb_forall in H. specialize (H (Z.to_nat c)). rewrite Z2Nat.id in H by apply Hc.
  apply eqb_prop, H, in_seq. destruct Hc as [H0 H1]. change (2 ^ 8) with 256 in H1. lia.
Qed.

Lemma white_in c : white c = true <-> c ∈ [32; 9; 13].
Proof.
  unfold white. rewrite !elem_of_cons, elem_of_nil.
  destruct (Z.eqb_spec c 32), (Z.eqb_spec c 9), (Z.eqb_spec c 13); cbn [orb]; intuition congruence.
Qed.

Definition follows (x : token_type * list Z) (t : list Z) (l : list (token_type * list Z)) : Prop :=
  exists l', l = x :: l' /\ lexes t l'.

Lemma operator_not_word c k : one_char c = Some k \/ two_char c = Some k ->
  word_char c = false /\ c <> 34 /\ c <> 35 /\ white c = false.
Proof.
  unfold one_char, two_char. intros H.
  repeat match type of H with context [Z.eqb c ?n] => destruct (Z.eqb_spec c n) as [->|?] end;
    try (by destruct H); (split_and!; [reflexivity|lia|lia|reflexivity]).
Qed.

Lemma white_not_word c : white c = true -> word_char c = false /\ c <> 34 /\ c <> 35.
Proof.
  intros Hw%white_in. rewrite !elem_of_cons, elem_of_nil in Hw. by destruct Hw as [->|[->|[->|[]]]].
Qed.

(** What the first character says about the tokens. *)
Lemma lexes_cases c t l : lexes (c :: t) l ->
  (white c = true /\ lexes t l) \/
  (c = 35 /\ ((exists s u, (10 ∉ s) /\ t = s ++ 10 :: u /\ lexes u l) \/ ((10 ∉ t) /\ l = []))) \/
  (c = 34 /\ ((exists s u, (34 ∉ s) /\ t = s ++ 34 :: u /\ follows (TOKEN_CHARS, s) u l) \/ ((34 ∉ t) /\ follows (TOKEN_CHARS, t) [] l))) \/
  (word_char c = true /\ c <> 34 /\ c <> 35 /\ exists s u, Forall (fun c => word_char c = true) s /\ word_ends u /\
     t = s ++ u /\ follows (TOKEN_CHARS, c :: s) u l) \/
  (word_char c = false /\ c <> 34 /\ c <> 35 /\ white c = false /\
     ((exists k u, two_char c = Some k /\ t = c :: u /\ follows (k, [c; c]) u l) \/
      (exists k, one_char c = Some k /\ (two_char c = None \/ head t <> Some c) /\ follows (k, [c]) t l))).
Proof.
  inversion 1 as [|c' t' ts Hc Hl|s u ts Hs Hl|s Hs|s u ts Hs Hl|s Hs|c' s u ts Hc Hs Hu Hl|c' k u ts Hk Hl|c' k u ts Hk Hn Hl]; subst.
  - left. by rewrite white_in.
  - right; left. split; [done|]. left. by exists s, u.
  - right; left. split; [done|]. by right.
  - right; right; left. split; [done|]. left. exists s, u. split_and!; [done|done|by exists ts].
  - right; right; left. split; [done|]. right. split; [done|]. exists []. split; [done|constructor].
  - right; right; right; left. apply Forall_cons in Hs as [Hcw Hs]. rewrite !elem_of_cons, elem_of_nil in Hc.
    split_and!; [done|tauto|tauto|]. exists s, u. split_and!; [done..|by exists ts].
  - right; right; right; right. destruct (operator_not_word c k) as (? & ? & ? & ?); [by right|]. split_and!; [done..|]. left.
    exists k, u. split_and!; [done..|by exists ts].
  - right; right; right; right. destruct (operator_not_word c k) as (? & ? & ? & ?); [by left|]. split_and!; [done..|]. right.
    exists k. split_and!; [done..|by exists ts].
Qed.

Lemma lexes_nil l : lexes [] l <-> l = [].
Proof. split; [by inversion 1|intros ->; constructor]. Qed.

Lemma lexes_white_iff c t l : white c = true -> lexes (c :: t) l <-> lexes t l.
Proof.
  intros Hw. split; [|apply lexes_white; by apply white_in]. destruct (white_not_word c Hw) as (Hn & H34 & H35).
  intros [[_ H]|[[E _]|[[E _]|[(E & _)|(_ & _ & _ & E & _)]]]]%lexes_cases; [done|congruence..].
Qed.

Lemma lexes_whites ws t l : Forall (fun c => white c = true) ws -> lexes (ws ++ t) l <-> lexes t l.
Proof. induction 1 as [|c ws Hc _ IH]; [done|]. cbn [app]. by rewrite lexes_white_iff. Qed.

Lemma not_in_span (d : Z) s : d ∉ s <-> Forall (fun c => negb (c =? d) = true) s.
Proof.
  rewrite Forall_forall. split.
  - intros Hd c Hc. destruct (Z.eqb_spec c d) as [->|]; done.
  - intros H Hd. specialize (H d Hd). by rewrite Z.eqb_refl in H.
Qed.

(** The first place of a character is determined. *)
Lemma split_unique (d : Z) s t s' t' : d ∉ s -> d ∉ s' -> s ++ d :: t = s' ++ d :: t' -> s = s' /\ t = t'.
Proof.
  intros Hs Hs' E. rewrite not_in_span in Hs, Hs'. destruct (span_unique (fun c => negb (c =? d)) s (d :: t) s' (d :: t')) as [-> Et];
    rewrite ?Z.eqb_refl; try done. by injection Et as ->.
Qed.

Lemma not_in_split (d : Z) (s t : list Z) : (d ∉ s ++ d :: t) -> False.
Proof. intros Hn. apply Hn, elem_of_app. right. by left. Qed.

Lemma lexes_comment_iff s t l : 10 ∉ s -> lexes (35 :: s ++ 10 :: t) l <-> lexes t l.
Proof.
  intros Hs. split; [|by apply lexes_comment].
  intros [[E _]|[[_ [(s' & u & Hs' & Et & Hl)|[Hn _]]]|[[E _]|[(_ & _ & E & _)|(_ & _ & E & _)]]]]%lexes_cases; try done.
  - by destruct (split_unique 10 s t s' u) as [_ ->].
  - by destruct (not_in_split 10 s t).
Qed.

Lemma lexes_last_iff s l : 10 ∉ s -> lexes (35 :: s) l <-> l = [].
Proof.
  intros Hs. split; [|intros ->; by apply lexes_last_comment].
  intros [[E _]|[[_ [(s' & u & Hs' & -> & Hl)|[_ Hn]]]|[[E _]|[(_ & _ & E & _)|(_ & _ & E & _)]]]]%lexes_cases; try done.
  by destruct (not_in_split 10 s' u).
Qed.

Lemma lexes_quoted_iff s t l : 34 ∉ s -> lexes (34 :: s ++ 34 :: t) l <-> follows (TOKEN_CHARS, s) t l.
Proof.
  intros Hs. split; [|intros (l' & -> & Hl); by constructor].
  intros [[E _]|[[E _]|[[_ [(s' & u & Hs' & Et & Hl)|[Hn _]]]|[(_ & E & _)|(_ & E & _)]]]]%lexes_cases; try done.
  - by destruct (split_unique 34 s t s' u) as [-> ->].
  - by destruct (not_in_split 34 s t).
Qed.

Lemma lexes_open_iff s l : 34 ∉ s -> lexes (34 :: s) l <-> follows (TOKEN_CHARS, s) [] l.
Proof.
  intros Hs. split; [|intros (l' & -> & Hl%lexes_nil); subst; by constructor].
  intros [[E _]|[[E _]|[[_ [(s' & u & Hs' & -> & Hl)|[_ Hn]]]|[(_ & E & _)|(_ & E & _)]]]]%lexes_cases; try done.
  by destruct (not_in_split 34 s' u).
Qed.

Lemma lexes_word_iff c s t l : c ∉ [34; 35] -> Forall (fun c => word_char c = true) (c :: s) -> word_ends t ->
  lexes (c :: s ++ t) l <-> follows (TOKEN_CHARS, c :: s) t l.
Proof.
  intros Hc Hs Ht. split; [|intros (l' & -> & Hl); by constructor]. apply Forall_cons in Hs as [Hcw Hs].
  intros [[E%white_not_word _]|[[-> _]|[[-> _]|[(_ & _ & _ & s' & u & Hs' & Hu & E & Hl)|(E & _)]]]]%lexes_cases;
    [destruct E; congruence|destruct Hc; set_solver|destruct Hc; set_solver| |congruence].
  by destruct (span_unique word_char s t s' u) as [-> ->].
Qed.

Lemma lexes_operator c k t l : one_char c = Some k \/ two_char c = Some k -> lexes (c :: t) l ->
  (exists k' u, two_char c = Some k' /\ t = c :: u /\ follows (k', [c; c]) u l) \/
  (exists k', one_char c = Some k' /\ (two_char c = None \/ head t <> Some c) /\ follows (k', [c]) t l).
Proof.
  intros Hk. destruct (operator_not_word c k Hk) as (Hw & H34 & H35 & Hws).
  intros [[E _]|[[E _]|[[E _]|[(E & _)|(_ & _ & _ & _ & H)]]]]%lexes_cases; try congruence.
Qed.

Lemma lexes_two_iff c k t l : two_char c = Some k -> lexes (c :: c :: t) l <-> follows (k, [c; c]) t l.
Proof.
  intros Hk. split; [|intros (l' & -> & Hl); by constructor]. intros H.
  destruct (lexes_operator c k _ _ (or_intror Hk) H) as [(k' & u & Hk' & [= <-] & Hl)|(k' & _ & [E|E] & _)]; [|congruence|done].
  rewrite Hk in Hk'. by injection Hk' as <-.
Qed.

Lemma lexes_one_iff c k t l : one_char c = Some k -> two_char c = None \/ head t <> Some c ->
  lexes (c :: t) l <-> follows (k, [c]) t l.
Proof.
  intros Hk Hn. split; [|intros (l' & -> & Hl); by constructor]. intros H.
  destruct (lexes_operator c k _ _ (or_introl Hk) H) as [(k' & u & Hk' & -> & Hl)|(k' & Hk' & _ & Hl)].
  - destruct Hn; [congruence|done].
  - rewrite Hk in Hk'. by injection Hk' as <-.
Qed.

Lemma lexes_none c t l : word_char c = false -> c ∉ [34; 35] -> white c = false -> one_char c = None -> ~ lexes (c :: t) l.
Proof.
  intros Hw Hc Hs Ho. assert (Ht : two_char c = None).
  { unfold one_char, two_char in *. by destruct (c =? 62), (c =? 124), (c =? 38). }
  intros [[E _]|[[-> _]|[[-> _]|[(E & _)|(_ & _ & _ & _ & [(k & u & E & _)|(k & E & _)])]]]]%lexes_cases; try congruence; set_solver.
Qed.

(** The operators, in the order of the code. *)
Lemma first_operand_char c t : first_operand operands (c :: t) =
  match two_char c, bool_decide (head t = Some c) with
  | Some k, true => Some ([c; c], k)
  | _, _ => (fun k => ([c], k)) <$> one_char c
  end.
Proof.
  assert (Hh : forall d, starts [d] t = bool_decide (head t = Some d)).
  { intros d. destruct t as [|x t]; [done|]. cbn [starts head]. rewrite andb_true_r. destruct (Z.eqb_spec d x) as [->|Hne].
    - by rewrite bool_decide_eq_true_2. - rewrite bool_decide_eq_false_2; [done|congruence]. }
  unfold operands, two_char, one_char. cbn [first_operand]. rewrite !starts_prefix.
  change (starts [38; 38] (c :: t)) with ((38 =? c) && starts [38] t). change (starts [124; 124] (c :: t)) with ((124 =? c) && starts [124] t).
  change (starts [62; 62] (c :: t)) with ((62 =? c) && starts [62] t). rewrite !Hh. cbn [starts]. rewrite !andb_true_r.
  rewrite !(Z.eqb_sym _ c).
  destruct (Z.eqb_spec c 38) as [->|]; [cbn [andb]; by destruct (bool_decide _)|]; cbn [andb].
  destruct (Z.eqb_spec c 124) as [->|]; [cbn [andb]; by destruct (bool_decide _)|]; cbn [andb].
  destruct (Z.eqb_spec c 62) as [->|]; [cbn [andb]; by destruct (bool_decide _)|]; cbn [andb].
  destruct (Z.eqb_spec c 61) as [->|]; [done|]. by destruct (Z.eqb_spec c 10) as [->|].
Qed.

(** What the lexer can start a token with. *)
Definition token_start (t : list Z) : Prop := match t with [] => True | c :: _ => white c = false /\ c <> 35 end.

Lemma comment_test v : sv_ok v ->
  sv_partial_eq v (C_TO_SV [35]) = Ok (match text v with c :: _ => c =? 35 | [] => false end).
Proof.
  intros Hok. rewrite starts_with by done. f_equal. destruct (text v) as [|c t].
  - apply bool_decide_eq_false_2. intros [k E]. done.
  - destruct (Z.eqb_spec c 35) as [->|Hne]; [apply bool_decide_eq_true_2; by exists t|].
    apply bool_decide_eq_false_2. intros [k E]. by injection E as ->.
Qed.

Lemma skip_fuel_spec fuel v : sv_ok v -> (length (text v) < fuel)%nat ->
  exists pre r, skip_whitespace_fuel fuel v = Ok r /\ sv_ok r /\ text v = pre ++ text r /\ token_start (text r) /\
    forall l, lexes (text v) l <-> lexes (text r) l.
Proof.
  revert v. induction fuel as [|fuel IH]; intros v Hok Hf; [lia|]. cbn [skip_whitespace_fuel].
  destruct (skip_chars_spec v Hok) as (ws & r & -> & Hr & Ht & Hws & Hs). cbn [mbind outcome_bind].
  assert (Hskip : forall l, lexes (text v) l <-> lexes (text r) l) by (intros l; rewrite Ht; by apply lexes_whites).
  rewrite comment_test by done. cbn [mbind outcome_bind]. destruct (text r) as [|c t] eqn:Er.
  { exists ws, r. rewrite Er. by split_and!. }
  destruct (Z.eqb_spec c 35) as [->|Hne]; cbn [negb]; [|exists ws, r; rewrite Er; by split_and!].
  destruct (sv_split_partitions r 10 isspace Hr) as [(s & rest & -> & Hsn & Hp & _ & Hrest) _].
  cbn [mbind outcome_bind default from_option id].
  assert (Hlen : (length (text rest) < length (text v))%nat /\ (exists pre, text v = pre ++ text rest) /\
    forall l, lexes (text r) l <-> lexes (text rest) l).
  { rewrite Er in *. rewrite Ht. destruct Hp as [Hp|[Hp ->]].
    - rewrite Hp. split_and!; [rewrite !length_app; cbn; lia|exists (ws ++ text s ++ [10]); by rewrite <- !app_assoc|].
      intros l. destruct (text s) as [|d u] eqn:Es; [done|]. injection Hp as <- Hp. rewrite <- app_comm_cons. apply lexes_comment_iff. set_solver.
    - change (text sv_null) with (@nil Z). split_and!; [rewrite length_app; cbn; lia|exists (ws ++ 35 :: t); by rewrite app_nil_r|].
      intros l. rewrite lexes_nil. apply lexes_last_iff. rewrite <- Hp in Hsn. set_solver. }
  destruct Hlen as (Hlen & [pre Hpre] & Hiff).
  pose proof (text_len _ Hok) as L1. pose proof (text_len _ Hrest) as L2.
  destruct (Z.eqb_spec (sv_length v) (sv_length rest)); cbn [negb]; [unfold zlen in *; lia|].
  destruct (IH rest Hrest) as (pre' & r' & E & Hr' & Ht' & Hs' & Hiff'); [lia|].
  exists (pre ++ pre'), r'. split_and!; [done|done|by rewrite Hpre, Ht', app_assoc|done|].
  intros l. rewrite Hskip. rewrite <- Er. by rewrite Hiff, Hiff'.
Qed.

Lemma skip_spec v : sv_ok v ->
  exists pre r, skip_whitespace_and_comment v = Ok r /\ sv_ok r /\ text v = pre ++ text r /\ token_start (text r) /\
    forall l, lexes (text v) l <-> lexes (text r) l.
Proof.
  intros Hok. apply skip_fuel_spec; [done|]. pose proof (text_len _ Hok). unfold zlen in *. lia.
Qed.

(** White space in front of a token. *)
Lemma skip_white v ws u : sv_ok v -> text v = ws ++ u -> Forall (fun c => white c = true) ws -> token_start u ->
  exists r, skip_whitespace_and_comment v = Ok r /\ sv_ok r /\ text r = u.
Proof.
  intros Hok Ht Hw Hu. unfold skip_whitespace_and_comment. cbn [skip_whitespace_fuel].
  destruct (skip_chars_spec v Hok) as (ws' & r & -> & Hr & Ht' & Hw' & Hs). cbn [mbind outcome_bind].
  assert (E : text r = u).
  { symmetry. eapply (span_unique white); [exact Hw|exact Hw'| |exact Hs|congruence]. destruct u; [done|]. by destruct Hu. }
  rewrite comment_test, E by done. cbn [mbind outcome_bind]. exists r.
  destruct u as [|c u]; [done|]. destruct Hu as [_ Hc]. by destruct (Z.eqb_spec c 35).
Qed.

(** ** Every text is lexed *)

(** One token of the code is one of the language. *)
Lemma token_step v c t : sv_ok v -> Forall (fits 8) (text v) -> text v = c :: t -> white c = false -> c <> 35 ->
  (exists tk rest, (parse_chars v = Ok (Some (tk, rest)) \/ (parse_chars v = Ok None /\ parse_operand v = Ok (Some (tk, rest)))) /\
     sv_ok rest /\ (exists p, text v = p ++ text rest) /\ (length (text rest) < length (text v))%nat /\
     forall l, lexes (text v) l <-> follows (tok_text tk) (text rest) l) \/
  (parse_chars v = Ok None /\ parse_operand v = Ok None /\ forall l, ~ lexes (text v) l).
Proof.
  intros Hok Hb Ht Hw Hh. unfold tok_text.
  assert (Hsw : forall x, x ∈ text v -> is_special_char x = negb (word_char x)).
  { intros x Hx. rewrite Forall_forall in Hb. by apply special_word, Hb. }
  destruct (parse_chars_spec v c t Hok Ht) as [(Hq & Hsp & ->)|(s & rest & -> & _ & Hrest & Hcase)].
  - rewrite Hsw in Hsp by (rewrite Ht; by left). apply negb_true_iff in Hsp.
    pose proof (try_operands_spec operands v Hok operands_short) as Hop. rewrite Ht, first_operand_char in Hop.
    assert (Hone : forall k, one_char c = Some k -> two_char c = None \/ head t <> Some c ->
      (exists r rest, try_operands operands v = Ok (Some (mkToken k r, rest)) /\ sv_ok r /\ sv_ok rest /\ text r = [c] /\ c :: t = [c] ++ text rest) ->
      exists tk rest, (@Ok (option (TOKEN * sv)) None = Ok (Some (tk, rest)) \/ (@Ok (option (TOKEN * sv)) None = Ok None /\ parse_operand v = Ok (Some (tk, rest)))) /\
        sv_ok rest /\ (exists p, c :: t = p ++ text rest) /\ (length (text rest) < length (c :: t))%nat /\
        forall l, lexes (c :: t) l <-> follows (tk_type tk, text (string_rep tk)) (text rest) l).
    { intros k Hk Hn (r & rest & E & _ & Hrest & Hr & Et). exists (mkToken k r), rest. injection Et as ->.
      split_and!; [by right|done|by exists [c]|cbn; lia|]. intros l. cbn [tk_type string_rep]. rewrite Hr. by apply lexes_one_iff. }
    rewrite Ht. destruct (two_char c) as [k|] eqn:E2.
    + assert (Eone : exists k', one_char c = Some k').
      { unfold two_char, one_char in *. destruct (c =? 62), (c =? 124), (c =? 38); eauto. by destruct (c =? 61), (c =? 10). }
      destruct Eone as [k' Ek']. case_bool_decide as Ehd; rewrite ?Ek' in Hop; left.
      * destruct Hop as (r & rest & E & _ & Hrest & Hr & Et). destruct t as [|d t]; [done|]. injection Ehd as ->. injection Et as ->.
        exists (mkToken k r), rest. split_and!; [by right|done|by exists [c; c]|cbn; lia|].
        intros l. cbn [tk_type string_rep]. rewrite Hr. by apply lexes_two_iff.
      * apply (Hone k'); [done|by right|done].
    + destruct (one_char c) as [k|] eqn:E1; cbn [fmap option_fmap option_map] in Hop.
      * left. apply (Hone k); [done|by left|done].
      * right. split_and!; [done|done|]. intros l. apply lexes_none; [done| |done|done]. set_solver.
  - left. exists (mkToken TOKEN_CHARS s), rest. cbn [tk_type string_rep]. split; [by left|]. split; [done|].
    rewrite Ht. destruct Hcase as [(-> & Hs & Hp)|(Hq & Hns & HF & Hp & Hend)].
    + destruct Hp as [->|[-> Hr]].
      * split_and!; [exists (34 :: text s ++ [34]); by rewrite <- app_comm_cons, <- app_assoc|cbn; rewrite length_app; cbn; lia|].
        intros l. by apply lexes_quoted_iff.
      * rewrite Hr. split_and!; [exists (34 :: text s); by rewrite app_nil_r|cbn; lia|]. intros l. by apply lexes_open_iff.
    + destruct (text s) as [|d u] eqn:Es.
      { exfalso. cbn [app] in Hp. destruct Hend as [E|(d & u & E & Hd)]; rewrite E in Hp; [done|]. injection Hp as -> _. congruence. }
      injection Hp as <- Hp. split_and!; [exists (c :: u); by rewrite Hp|rewrite Hp; cbn; rewrite length_app; lia|].
      intros l. rewrite Hp. apply lexes_word_iff; [set_solver| |].
      * apply Forall_forall. intros x Hx. rewrite Forall_forall in HF. specialize (HF x Hx). rewrite Hsw in HF; [by apply negb_false_iff in HF|].
        rewrite Ht, Hp. set_solver.
      * destruct Hend as [->|(d & w & E & Hd)]; [done|]. rewrite E. rewrite Hsw in Hd; [by apply negb_true_iff in Hd|].
        rewrite Ht, Hp, E. set_solver.
Qed.

Lemma lex_fuel_spec fuel v : sv_ok v -> Forall (fits 8) (text v) -> (length (text v) < fuel)%nat ->
  (exists ts, lex_fuel fuel v = Ok ts /\ forall l, lexes (text v) l <-> l = map tok_text ts) \/
  (lex_fuel fuel v = Panic /\ forall l, ~ lexes (text v) l).
Proof.
  revert v. induction fuel as [|fuel IH]; intros v Hok Hb Hf; [lia|]. cbn [lex_fuel].
  rewrite isempty_text by done. case_bool_decide as E0; [left; exists []; rewrite E0; split; [done|apply lexes_nil]|].
  destruct (skip_spec v Hok) as (pre & v1 & -> & Hv1 & Ht & Hs & Hiff). cbn [mbind outcome_bind].
  rewrite isempty_text by done. case_bool_decide as E1.
  { left. exists []. split; [done|]. intros l. rewrite Hiff, E1. apply lexes_nil. }
  assert (Hb1 : Forall (fits 8) (text v1)) by (rewrite Ht in Hb; by apply Forall_app in Hb as [_ Hb]).
  assert (Hlen : (length (text v1) <= length (text v))%nat) by (rewrite Ht, length_app; lia).
  destruct (text v1) as [|c t] eqn:Ev1; [done|]. destruct Hs as [Hwh Hhash]. rewrite <- Ev1 in *.
  destruct (token_step v1 c t Hv1 Hb1 Ev1 Hwh Hhash) as [(tk & rest & Hcode & Hrest & [p Hp] & Hl & Hf')|(-> & E & Hno)].
  - assert (Hgo : (exists ts, (ts ← lex_fuel fuel rest; Ok (tk :: ts)) = Ok ts /\ forall l, lexes (text v) l <-> l = map tok_text ts) \/
      ((ts ← lex_fuel fuel rest; Ok (tk :: ts)) = Panic /\ forall l, ~ lexes (text v) l)).
    { destruct (IH rest Hrest) as [(ts & -> & Hts)|[-> Hno]]; [rewrite Hp in Hb1; by apply Forall_app in Hb1 as [_ Hb1]|lia|left|right].
      - exists (tk :: ts). split; [done|]. intros l. rewrite Hiff, Hf'. cbn [map]. split.
        + intros (l' & -> & Hl'). f_equal. by apply Hts.
        + intros ->. eexists. split; [done|]. by apply Hts.
      - split; [done|]. intros l. rewrite Hiff, Hf'. intros (l' & _ & Hl'). by apply (Hno l'). }
    destruct Hcode as [->|[-> ->]]; cbn [mbind outcome_bind]; exact Hgo.
  - cbn [mbind outcome_bind]. rewrite E. cbn [mbind outcome_bind]. right. split; [done|]. intros l. rewrite Hiff. apply Hno.
Qed.

(** C24: the lexer implements the language of tokens: for every text it returns or stops
    the program, and it returns exactly when the text is one of the language, with its
    tokens, which are the only ones the text has. *)
Theorem lex_total v : sv_ok v -> Forall (fits 8) (text v) ->
  ((exists ts, lex v = Ok ts) \/ lex v = Panic) /\
  forall l, lexes (text v) l <-> exists ts, lex v = Ok ts /\ map tok_text ts = l.
Proof.
  intros Hok Hb. unfold lex. pose proof (text_len _ Hok).
  destruct (lex_fuel_spec (S (Z.to_nat (sv_length v))) v Hok Hb) as [(ts & -> & Hts)|[-> Hno]]; [unfold zlen in *; lia|split..].
  - left. by exists ts.
  - intros l. rewrite Hts. split; [intros ->; by exists ts|by intros (ts' & [= ->] & <-)].
  - by right.
  - intros l. split; [intros Hl; by destruct (Hno l)|by intros (ts & [=] & _)].
Qed.

(** A word in quotes and one that is not closed, and a byte no token starts with. *)
Example lexes_sample : lexes [108; 115; 32; 34; 97] [(TOKEN_CHARS, [108; 115]); (TOKEN_CHARS, [97])].
Proof.
  apply (lexes_word 108 [115] [32; 34; 97]); [set_solver|repeat constructor|done|].
  apply lexes_white; [set_solver|]. apply lexes_open_quote. set_solver.
Qed.

(** ** Lexing what was printed *)

(** Words that need no quotes. *)
Definition plain (w : list Z) : bool :=
  match w with
  | [] => false
  | c :: _ => negb (c =? 34) && negb (c =? 35) && forallb (fun c => negb (is_special_char c)) w
  end.

Definition render_token (t : token_type * list Z) : list Z :=
  let '(k, w) := t in
  if bool_decide (k = TOKEN_CHARS) then if plain w then w else 34 :: w ++ [34] else w.

(** Tokens with a space behind each. *)
Definition render_tokens (ts : list (token_type * list Z)) : list Z :=
  concat (map (fun t => render_token t ++ [32]) ts).

Definition printable_token (t : token_type * list Z) : Prop :=
  let '(k, w) := t in
  if bool_decide (k = TOKEN_CHARS) then plain w = true \/ 34 ∉ w else (w, k) ∈ operands.

Lemma white_special c : white c = true -> is_special_char c = true.
Proof.
  unfold white. destruct (Z.eqb_spec c 32) as [->|]; [done|]. destruct (Z.eqb_spec c 9) as [->|]; [done|].
  by destruct (Z.eqb_spec c 13) as [->|].
Qed.

Lemma operand_recognised w k R : (w, k) ∈ operands -> first_operand operands (w ++ 32 :: R) = Some (w, k).
Proof.
  unfold operands. intros Hin. rewrite !elem_of_cons in Hin.
  repeat destruct Hin as [[= -> ->]|Hin]; [..|by apply elem_of_nil in Hin];
    cbn [first_operand app]; rewrite !starts_prefix; reflexivity.
Qed.

Lemma operand_special w k : (w, k) ∈ operands ->
  exists c u, w = c :: u /\ is_special_char c = true /\ c <> 34 /\ c <> 35 /\ white c = false.
Proof.
  unfold operands. intros Hin. rewrite !elem_of_cons in Hin.
  repeat destruct Hin as [[= -> ->]|Hin]; [..|by apply elem_of_nil in Hin]; by eexists _, _.
Qed.

Lemma render_nonempty t : printable_token t -> (0 < length (render_token t))%nat.
Proof.
  destruct t as [k w]. unfold printable_token, render_token. case_bool_decide.
  - intros _. destruct (plain w) eqn:E; [|cbn; lia]. destruct w; [done|cbn; lia].
  - intros Hp. destruct (operand_special w k Hp) as (c & u & -> & _). cbn. lia.
Qed.

(** The view of a whole text. *)
Lemma whole_ok l : zlen l < 2 ^ 32 -> sv_ok (mkSv l (zlen l)) /\ text (mkSv l (zlen l)) = l.
Proof.
  intros Hl. pose proof (zlen_nonneg l). split; [split; cbn [sv_length sv_s]; lia|]. unfold text. by apply ztake_all.
Qed.

(** One printed token in front of a text. *)
Lemma lex_one v t R : sv_ok v -> printable_token t -> text v = render_token t ++ 32 :: R ->
  token_start (text v) /\
  exists tk rest, tok_text tk = t /\ sv_ok rest /\ sv_ok (string_rep tk) /\ text rest = 32 :: R /\
    (parse_chars v = Ok (Some (tk, rest)) \/
     (parse_chars v = Ok None /\ parse_operand v = Ok (Some (tk, rest)))).
Proof.
  intros Hok Hp Ht. destruct t as [k w]. unfold printable_token, render_token in *. case_bool_decide as Hk; [subst k|].
  - destruct (plain w) eqn:Epl.
    + destruct w as [|c w]; [done|]. cbn [plain] in Epl. apply andb_true_iff in Epl as [Epl Hns].
      apply andb_true_iff in Epl as [Hq Hh]. breflect. rewrite forallb_forall in Hns.
      assert (Hall : Forall (fun c => negb (is_special_char c) = true) (c :: w)).
      { apply Forall_forall. intros x Hx. apply Hns. by apply list_elem_of_In. }
      assert (Hc : is_special_char c = false) by (apply Forall_cons in Hall as [Hc _]; by apply negb_true_iff in Hc).
      rewrite Ht. cbn [app]. split.
      { split; [|done]. destruct (white c) eqn:Ew; [|done]. apply white_special in Ew. congruence. }
      destruct (parse_chars_spec v c (w ++ 32 :: R) Hok Ht) as [(_ & Hs & _)|(s & rest & E & Hs & Hr & Hcase)]; [congruence|].
      destruct Hcase as [[-> _]|(_ & _ & HF & Hsplit & Hend)]; [done|].
      destruct (span_unique (fun c => negb (is_special_char c)) (c :: w) (32 :: R) (text s) (text rest)) as [E1 E2]; try done.
      { eapply Forall_impl; [exact HF|]. intros x Hx. cbn in Hx. by rewrite Hx. }
      { destruct Hend as [->|(d & u & -> & Hd)]; [done|]. by rewrite Hd. }
      exists (mkToken TOKEN_CHARS s), rest. unfold tok_text. cbn [tk_type string_rep]. rewrite <- E1, <- E2. split_and!; try done. by left.
    + destruct Hp as [?|Hn]; [done|]. rewrite <- app_comm_cons, <- app_assoc in Ht. cbn [app] in Ht. rewrite Ht. split; [done|].
      destruct (parse_chars_spec v 34 (w ++ 34 :: 32 :: R) Hok Ht) as [(? & _)|(s & rest & E & Hs & Hr & Hcase)]; [done|].
      destruct Hcase as [(_ & Hns & Hsplit)|(? & _)]; [|done].
      assert (Hno : forall l, 34 ∉ l -> Forall (fun c => negb (c =? 34) = true) l).
      { intros l Hl. apply Forall_forall. intros x Hx. destruct (Z.eqb_spec x 34) as [->|]; done. }
      destruct Hsplit as [Hsplit|[Hsplit _]].
      * destruct (span_unique (fun c => negb (c =? 34)) w (34 :: 32 :: R) (text s) (34 :: text rest)) as [E1 E2]; auto.
        injection E2 as E2. exists (mkToken TOKEN_CHARS s), rest. unfold tok_text. cbn [tk_type string_rep].
        rewrite <- E1, <- E2. split_and!; try done. by left.
      * destruct Hns. rewrite <- Hsplit. apply elem_of_app. right. apply elem_of_cons. by left.
  - destruct (operand_special w k Hp) as (c & u & -> & Hs & H34 & H35 & Hw). rewrite Ht. split; [done|]. cbn [app] in Ht.
    destruct (parse_chars_spec v c (u ++ 32 :: R) Hok Ht) as [(_ & _ & E)|(s & rest & E & _ & _ & Hcase)].
    2: { destruct Hcase as [[? _]|(_ & ? & _)]; congruence. }
    pose proof (try_operands_spec operands v Hok operands_short) as Hop.
    rewrite Ht in Hop. change (c :: u ++ 32 :: R) with ((c :: u) ++ 32 :: R) in Hop. rewrite (operand_recognised (c :: u) k R Hp) in Hop.
    destruct Hop as (r & rest & E2 & Hr & Hrest & E3 & E4). apply app_inv_head in E4.
    exists (mkToken k r), rest. unfold tok_text. cbn [tk_type string_rep]. rewrite E3, <- E4. split_and!; try done. by right.
Qed.

Lemma lex_fuel_render fuel v ws ts : sv_ok v -> Forall printable_token ts ->
  text v = ws ++ render_tokens ts -> Forall (fun c => white c = true) ws -> (length (text v) < fuel)%nat ->
  exists ts', lex_fuel fuel v = Ok ts' /\ map tok_text ts' = ts /\ Forall (fun t => sv_ok (string_rep t)) ts'.
Proof.
  intros Hok Hp. revert v ws fuel Hok. induction Hp as [|t ts Ht Hp IH]; intros v ws fuel Hok Hv Hw Hf;
    (destruct fuel as [|fuel]; [lia|]); cbn [lex_fuel].
  - change (render_tokens []) with (@nil Z) in Hv. rewrite isempty_text by done. case_bool_decide; [by exists []|].
    destruct (skip_white v ws [] Hok Hv Hw) as (r & -> & Hr & Er); [done|]. cbn [mbind outcome_bind].
    rewrite isempty_text, Er by done. by exists [].
  - unfold render_tokens in Hv. cbn [map concat] in Hv. fold (render_tokens ts) in Hv.
    rewrite <- app_assoc in Hv. cbn [app] in Hv.
    rewrite isempty_text by done. rewrite bool_decide_eq_false_2.
    2: { rewrite Hv. intros E. apply app_eq_nil in E as [_ E]. by apply app_eq_nil in E as [_ E]. }
    (* the view behind the white space *)
    assert (Hst : token_start (render_token t ++ 32 :: render_tokens ts)).
    { set (l := render_token t ++ 32 :: render_tokens ts) in *.
      assert (Hl : zlen l < 2 ^ 32).
      { pose proof (text_len v Hok) as Hl. destruct Hok as [_ Hb]. rewrite Hv, zlen_app in Hl. pose proof (zlen_nonneg ws). lia. }
      destruct (whole_ok l Hl) as [Hlo Hlt]. destruct (lex_one (mkSv l (zlen l)) t (render_tokens ts) Hlo Ht Hlt) as [Hs _].
      by rewrite Hlt in Hs. }
    destruct (skip_white v ws _ Hok Hv Hw Hst) as (r & -> & Hr & Er). cbn [mbind outcome_bind].
    rewrite isempty_text, Er by done. rewrite bool_decide_eq_false_2 by (intros E; by apply app_eq_nil in E as [_ E]).
    destruct (lex_one r t (render_tokens ts) Hr Ht Er) as [_ (tk & rest & Htk & Hrest & Hsv & Et & Hor)].
    destruct (IH rest [32] fuel Hrest) as (ts' & E & Em & HF); [done|by repeat constructor| |].
    { rewrite Et. rewrite Hv in Hf. rewrite !length_app in Hf. pose proof (render_nonempty t Ht). cbn [length] in *. lia. }
    exists (tk :: ts'). cbn [map]. rewrite Em, Htk. split_and!; [|done|by constructor].
    destruct Hor as [->|[-> ->]]; cbn [mbind outcome_bind]; by rewrite E.
Qed.

Lemma lex_render v ts : sv_ok v -> Forall printable_token ts -> text v = render_tokens ts ->
  exists ts', lex v = Ok ts' /\ map tok_text ts' = ts /\ Forall (fun t => sv_ok (string_rep t)) ts'.
Proof.
  intros Hok Hp Hv. apply (lex_fuel_render _ v [] ts Hok Hp); [done|constructor|].
  pose proof (text_len _ Hok). unfold zlen in *. lia.
Qed.

Lemma lex_total_witness :
  exists ts, lex (mkSv [108; 115; 32; 34; 97] 5) = Ok ts /\ map tok_text ts = [(TOKEN_CHARS, [108; 115]); (TOKEN_CHARS, [97])].
Proof.
  apply (lex_total (mkSv [108; 115; 32; 34; 97] 5)); [by vm_compute|repeat constructor; by vm_compute|exact lexes_sample].
Defined.
