(* ===== verification/ShScript.v ===== *)
(** The shell from text to commands: what the parser of [Sh] makes of a printed
    script, and which commands it runs. *)

From stdpp Require Import base numbers list gmap.
From Stdlib Require Import ZArith Lia.
From S2P Require Import Prelude Bytes Alloc StateM KString Print Sv Sh.

Open Scope Z_scope.

(** ** Scripts *)

(** A command with its arguments, redirection ([true] to append), whether it runs in
    the background, and the command its output is piped to. *)
Inductive cmd : Type :=
| Cmd (name : list Z) (args : list (list Z)) (out : option (bool * list Z)) (background : bool) (pipe : option cmd).

Inductive item : Type := ICmd (c : cmd) | ISet (name value : list Z) | IAnd | INot.

Definition T_chars (w : list Z) : token_type * list Z := (TOKEN_CHARS, w).
Definition T_newline : token_type * list Z := (TOKEN_NEWLINE, [10]).

Fixpoint cmd_tokens (c : cmd) : list (token_type * list Z) :=
  let 'Cmd name args out background pipe := c in
  T_chars name :: map T_chars args ++
  (match out with
   | Some (true, f) => [(TOKEN_STREAM_APPEND, [62; 62]); T_chars f]
   | Some (false, f) => [(TOKEN_STREAM, [62]); T_chars f]
   | None => []
   end) ++
  (if background then [(TOKEN_BACKGROUND, [38])] else []) ++
  (match pipe with Some p => (TOKEN_PIPE, [124]) :: cmd_tokens p | None => [] end).

(** A command ends with its line unless [&&] or [||] follows. *)
Definition ends_line (rest : list item) : bool :=
  match rest with IAnd :: _ | INot :: _ => false | _ => true end.

Fixpoint script_tokens (l : list item) : list (token_type * list Z) :=
  match l with
  | [] => []
  | ICmd c :: rest => cmd_tokens c ++ (if ends_line rest then [T_newline] else []) ++ script_tokens rest
  | ISet n v :: rest =>
    [T_chars [101; 120; 112; 111; 114; 116]; T_chars n; (TOKEN_EQUAL, [61]); T_chars v; T_newline] ++ script_tokens rest
  | IAnd :: rest => (TOKEN_AND, [38; 38]) :: script_tokens rest
  | INot :: rest => (TOKEN_NOT, [124; 124]) :: script_tokens rest
  end.

(** The tree of a command and of a script. *)
Definition word_ast (w : list Z) (a : AST) : Prop := exists s, a = ast_expression s /\ text s = w.

Fixpoint cmd_ast (c : cmd) (a : AST) : Prop :=
  let 'Cmd name args out background pipe := c in
  ast_kind a = AST_COMMAND /\ text (ast_val a) = name /\ Forall2 word_ast args (children a) /\
  file_out_append a = match out with Some (app, _) => app | None => false end /\
  text (file_out a) = match out with Some (_, f) => f | None => [] end /\
  should_background a = background /\
  match pipe, pipe_rhs a with
  | Some p, Some b => cmd_ast p b
  | None, None => True
  | _, _ => False
  end.

Definition item_ast (i : item) (a : AST) : Prop :=
  match i with
  | ICmd c => cmd_ast c a
  | ISet n v => ast_kind a = AST_SET /\ text (ast_val a) = n /\ Forall2 word_ast [v] (children a)
  | IAnd => ast_kind a = AST_CONDITIONAL_AND
  | INot => ast_kind a = AST_CONDITIONAL_NOT
  end.

(** ** Parsing *)

Lemma map_cons_inv {A B} (f : A -> B) l y ys : map f l = y :: ys -> exists x l', l = x :: l' /\ f x = y /\ map f l' = ys.
Proof. destruct l as [|x l]; [done|]. intros [= <- <-]. by exists x, l. Qed.

Lemma map_app_inv {A B} (f : A -> B) l ys zs : map f l = ys ++ zs -> exists l1 l2, l = l1 ++ l2 /\ map f l1 = ys /\ map f l2 = zs.
Proof.
  revert l. induction ys as [|y ys IH]; intros l E; [by exists [], l|]. cbn [app] in E.
  apply map_cons_inv in E as (x & l' & -> & <- & E). destruct (IH l' E) as (l1 & l2 & -> & <- & <-). by exists (x :: l1), l2.
Qed.

(** What can follow the words of a command. *)
Definition no_word (ts : list (token_type * list Z)) : Prop :=
  match ts with [] => True | (k, _) :: _ => k <> TOKEN_CHARS end.

Lemma parse_arguments_spec args ts rest : map tok_text ts = map T_chars args ++ rest -> no_word rest ->
  exists as_ ts', parse_arguments ts = (as_, ts') /\ Forall2 word_ast args as_ /\ map tok_text ts' = rest.
Proof.
  intros E Hr. revert ts E. induction args as [|w args IH]; intros ts E; cbn [map app] in E.
  - destruct ts as [|t ts]; [by exists [], []|]. cbn [map] in E. subst rest. cbn [parse_arguments].
    rewrite bool_decide_eq_false_2 by exact Hr. by exists [], (t :: ts).
  - apply map_cons_inv in E as (t & ts' & -> & Et & E). injection Et as Ek Ew. cbn [parse_arguments].
    rewrite bool_decide_eq_true_2 by done. destruct (IH ts' E) as (as_ & ts2 & -> & Hf & Hm).
    exists (ast_expression (string_rep t) :: as_), ts2. split_and!; [done| |done]. constructor; [|done]. by exists (string_rep t).
Qed.

Definition first_type (ts : list (token_type * list Z)) : option token_type := fst <$> head ts.

Lemma token_is_first k ts : token_is k ts = bool_decide (first_type (map tok_text ts) = Some k).
Proof. destruct ts as [|t ts]; [done|]. cbn. apply bool_decide_ext. naive_solver. Qed.

Lemma skip_token_no k ts : first_type (map tok_text ts) <> Some k -> skip_token k ts = ts.
Proof. intros Hn. unfold skip_token. rewrite token_is_first. by rewrite bool_decide_eq_false_2. Qed.

Lemma skip_token_yes k w ts rest : map tok_text ts = (k, w) :: rest -> map tok_text (skip_token k ts) = rest.
Proof.
  intros E. unfold skip_token. rewrite token_is_first, E, bool_decide_eq_true_2 by done.
  destruct ts; [done|]. by injection E as _ E.
Qed.

Lemma parse_stream_spec out ts rest :
  map tok_text ts = (match out with
   | Some (true, f) => [(TOKEN_STREAM_APPEND, [62; 62]); T_chars f]
   | Some (false, f) => [(TOKEN_STREAM, [62]); T_chars f]
   | None => [] end) ++ rest ->
  first_type rest <> Some TOKEN_STREAM -> first_type rest <> Some TOKEN_STREAM_APPEND ->
  exists s ts', parse_stream ts = Ok (match out with Some (app, _) => app | None => false end, s, ts') /\
    text s = match out with Some (_, f) => f | None => [] end /\ map tok_text ts' = rest.
Proof.
  intros E H1 H2. unfold parse_stream. rewrite !token_is_first, E. destruct out as [[[] f]|]; cbn [app].
  - apply map_cons_inv in E as (t & ts1 & -> & Et & E). apply map_cons_inv in E as (t2 & ts2 & -> & Et2 & E).
    cbn [first_type head fmap option_fmap option_map fst bool_decide]. injection Et2 as _ Et2. by exists (string_rep t2), ts2.
  - apply map_cons_inv in E as (t & ts1 & -> & Et & E). apply map_cons_inv in E as (t2 & ts2 & -> & Et2 & E).
    injection Et2 as _ Et2. by exists (string_rep t2), ts2.
  - rewrite !bool_decide_eq_false_2 by done. by exists sv_null, ts.
Qed.

(** What follows a command: its tokens end there. *)
Definition ends_command (rest : list (token_type * list Z)) : Prop :=
  match first_type rest with
  | None | Some TOKEN_NEWLINE | Some TOKEN_AND | Some TOKEN_NOT => True
  | _ => False
  end.

(** A newline behind the command goes with it. *)
Definition drop_newline (ts : list (token_type * list Z)) : list (token_type * list Z) :=
  match ts with (TOKEN_NEWLINE, _) :: ts => ts | _ => ts end.

Fixpoint cmd_depth (c : cmd) : nat :=
  let 'Cmd _ _ _ _ pipe := c in match pipe with Some p => S (cmd_depth p) | None => 1 end.

Lemma skip_newline ts : map tok_text (skip_token TOKEN_NEWLINE ts) = drop_newline (map tok_text ts).
Proof.
  destruct ts as [|[k w] ts]; [done|]. unfold skip_token, drop_newline. cbn [token_is map tail tk_type].
  case_bool_decide as E; [by subst k|]. by destruct k.
Qed.

Lemma parse_command_spec c fuel ts rest :
  map tok_text ts = cmd_tokens c ++ rest -> ends_command rest -> first_type (drop_newline rest) <> Some TOKEN_NEWLINE ->
  (cmd_depth c <= fuel)%nat ->
  exists a ts', parse_command_fuel fuel ts = Ok (Command a ts') /\ cmd_ast c a /\ map tok_text ts' = drop_newline rest.
Proof.
  revert c ts. induction fuel as [|fuel IH]; intros [name args out bg pipe] ts E He Hn Hf; [destruct pipe; cbn in Hf; lia|].
  cbn [cmd_tokens app] in E. rewrite <- !app_assoc in E. apply map_cons_inv in E as (t & ts1 & -> & Et & E).
  injection Et as Ek Ew. cbn [parse_command_fuel]. rewrite bool_decide_eq_true_2 by done. cbn [negb].
  set (tail_ := (match pipe with Some p => (TOKEN_PIPE, [124]) :: cmd_tokens p | None => [] end) ++ rest) in *.
  assert (Hpipe : first_type tail_ = match pipe with Some _ => Some TOKEN_PIPE | None => first_type rest end)
    by (unfold tail_; by destruct pipe).
  assert (Hrest : forall k, k <> TOKEN_NEWLINE -> k <> TOKEN_AND -> k <> TOKEN_NOT -> first_type rest <> Some k).
  { intros k H1 H2 H3 Hk. unfold ends_command in He. rewrite Hk in He. by destruct k. }
  assert (Htail : forall k, k <> TOKEN_NEWLINE -> k <> TOKEN_AND -> k <> TOKEN_NOT -> k <> TOKEN_PIPE -> first_type tail_ <> Some k).
  { intros k H1 H2 H3 H4. rewrite Hpipe. destruct pipe; [congruence|by apply Hrest]. }
  set (bgt := (if bg then [(TOKEN_BACKGROUND, [38])] else []) ++ tail_) in *.
  assert (Hbgt : forall k, k <> TOKEN_NEWLINE -> k <> TOKEN_AND -> k <> TOKEN_NOT -> k <> TOKEN_PIPE -> k <> TOKEN_BACKGROUND ->
    first_type bgt <> Some k).
  { intros k H1 H2 H3 H4 H5. unfold bgt. destruct bg; cbn [app]; [cbn; congruence|by apply Htail]. }
  destruct (parse_arguments_spec args ts1 _ E) as (as_ & ts2 & -> & Has & E2).
  { destruct out as [[[] ?]|]; cbn [app]; [done|done|]. specialize (Hbgt TOKEN_CHARS). unfold no_word.
    destruct bgt as [|[k w] bgt']; [done|]. intros ->. by apply Hbgt. }
  destruct (parse_stream_spec out ts2 bgt E2) as (s & ts3 & -> & Hs & E3); [by apply Hbgt..|]. cbn [mbind outcome_bind].
  assert (Hb : token_is TOKEN_BACKGROUND ts3 = bg /\ map tok_text (skip_token TOKEN_BACKGROUND ts3) = tail_).
  { rewrite token_is_first, E3. unfold bgt in *. destruct bg; cbn [app] in *.
    - split; [by apply bool_decide_eq_true_2|]. by eapply skip_token_yes.
    - split; [apply bool_decide_eq_false_2; by apply Htail|]. rewrite skip_token_no; [done|]. rewrite E3. by apply Htail. }
  destruct Hb as [-> E4]. set (ts4 := skip_token TOKEN_BACKGROUND ts3) in *. rewrite token_is_first, E4, Hpipe.
  destruct pipe as [p|]; cbn [app] in tail_.
  - rewrite bool_decide_eq_true_2 by done. apply map_cons_inv in E4 as (tp & ts5 & -> & _ & E5). cbn [tail].
    destruct (IH p ts5 E5 He Hn) as (b & ts6 & -> & Hcb & E6); [cbn in Hf; lia|]. cbn [mbind outcome_bind].
    eexists _, _. split; [done|]. split; [by split_and!|]. rewrite skip_newline, E6.
    destruct (drop_newline rest) as [|[[] ?] ?]; try done.
  - rewrite bool_decide_eq_false_2 by (by apply Hrest). eexists _, _. split; [done|]. split; [by split_and!|].
    rewrite skip_newline, E4. done.
Qed.

Lemma depth_tokens : forall c, (cmd_depth c <= length (cmd_tokens c))%nat.
Proof.
  fix IH 1. intros [name args out bg pipe]. cbn [cmd_depth cmd_tokens length]. rewrite !length_app.
  destruct pipe as [p|]; [|lia]. specialize (IH p). cbn [length]. lia.
Qed.

(** A command starts with words, and neither a word nor [=] follows them. *)
Lemma cmd_words c rest : ends_command rest ->
  exists name args F, cmd_tokens c ++ rest = T_chars name :: map T_chars args ++ F /\
    first_type F <> Some TOKEN_CHARS /\ first_type F <> Some TOKEN_EQUAL.
Proof.
  intros He. destruct c as [name args out bg pipe]. cbn [cmd_tokens app]. eexists name, args, _. rewrite <- !app_assoc.
  split; [reflexivity|]. destruct out as [[[] f]|]; [by split|by split|]. destruct bg; [by split|]. destruct pipe; [by split|].
  cbn [app]. unfold ends_command in He. destruct (first_type rest) as [[]|]; by split.
Qed.

Lemma export_text : sv_ok (C_TO_SV [101; 120; 112; 111; 114; 116]) /\
  text (C_TO_SV [101; 120; 112; 111; 114; 116]) = [101; 120; 112; 111; 114; 116].
Proof. by apply literal_ok. Qed.

Lemma parse_set_no ts name args F :
  map tok_text ts = T_chars name :: map T_chars args ++ F -> first_type F <> Some TOKEN_CHARS ->
  first_type F <> Some TOKEN_EQUAL -> Forall (fun t => sv_ok (string_rep t)) ts -> parse_set ts = Ok None.
Proof.
  intros E H1 H2 Hok. apply map_cons_inv in E as (t & ts1 & -> & Et & E). injection Et as Ek _. apply Forall_cons in Hok as [Ht Hok].
  unfold parse_set. rewrite bool_decide_eq_true_2 by done. cbn [negb]. destruct export_text as [Hx _].
  destruct (sv_comparisons _ (string_rep t) Hx Ht) as (-> & _). cbn [mbind outcome_bind]. case_bool_decide; [|done]. cbn [negb].
  destruct ts1 as [|n [|q [|v [|nl rest]]]]; try done.
  destruct args as [|w [|w2 args]]; cbn [map app] in E.
  - rewrite <- E in H1. cbn in H1. by rewrite (bool_decide_eq_false_2 (tk_type n = TOKEN_CHARS)) by congruence.
  - injection E as _ _ E. rewrite <- E in H2. cbn in H2.
    rewrite (bool_decide_eq_false_2 (tk_type q = TOKEN_EQUAL)) by congruence. by rewrite andb_false_r.
  - injection E as _ _ Eq _. rewrite (bool_decide_eq_false_2 (tk_type q = TOKEN_EQUAL)) by congruence. by rewrite andb_false_r.
Qed.

Lemma script_first l : first_type (script_tokens l) <> Some TOKEN_NEWLINE.
Proof. by destruct l as [|[[]| | |] l]. Qed.

(** What a command leaves is the end of what it was given. *)
Lemma parse_arguments_suffix ts as_ ts' : parse_arguments ts = (as_, ts') -> exists pre, ts = pre ++ ts'.
Proof.
  revert as_. induction ts as [|t ts IH]; intros as_; cbn [parse_arguments]; [intros [= _ <-]; by exists []|].
  case_bool_decide; [|intros [= _ <-]; by exists []]. destruct (parse_arguments ts) as [b r].
  intros [= _ <-]. destruct (IH b eq_refl) as [pre ->]. by exists (t :: pre).
Qed.

Lemma skip_token_suffix k ts : exists pre, ts = pre ++ skip_token k ts.
Proof. unfold skip_token. destruct (token_is k ts); [|by exists []]. destruct ts as [|t ts]; [by exists []|by exists [t]]. Qed.

Lemma parse_stream_suffix ts r ts' : parse_stream ts = Ok (r, ts') -> exists pre, ts = pre ++ ts'.
Proof.
  unfold parse_stream. destruct (_ || _); [|intros [= _ <-]; by exists []].
  destruct ts as [|t [|f ts]]; try done. intros [= _ <-]. by exists [t; f].
Qed.

Lemma parse_command_suffix fuel ts a ts' :
  parse_command_fuel fuel ts = Ok (Command a ts') -> exists pre, ts = pre ++ ts' /\ pre <> [].
Proof.
  revert ts a ts'. induction fuel as [|fuel IH]; intros ts a ts'; [done|]. cbn [parse_command_fuel].
  destruct ts as [|t ts]; [done|]. case_bool_decide; cbn [negb]; [|done]. destruct (parse_arguments ts) as [as_ ts1] eqn:E1.
  apply parse_arguments_suffix in E1 as [p1 ->]. destruct (parse_stream ts1) as [[[apd out] ts2]| | |] eqn:E2; try done.
  apply parse_stream_suffix in E2 as [p2 ->]. cbn [mbind outcome_bind].
  destruct (skip_token_suffix TOKEN_BACKGROUND ts2) as [p3 E3]. set (ts3 := skip_token TOKEN_BACKGROUND ts2) in *. rewrite E3.
  destruct (token_is TOKEN_PIPE ts3).
  - destruct (parse_command_fuel fuel (tail ts3)) as [[| |b ts4]| | |] eqn:E4; try done. apply IH in E4 as (p4 & E4 & H4).
    cbn [mbind outcome_bind]. intros [= _ <-]. destruct (skip_token_suffix TOKEN_NEWLINE ts4) as [p5 E5].
    destruct ts3 as [|t3 ts3]; [by destruct p4|]. cbn [tail] in E4. rewrite E5 in E4. rewrite E4.
    exists (t :: p1 ++ p2 ++ p3 ++ t3 :: p4 ++ p5). split; [|done]. cbn [app]. by rewrite <- !app_assoc; cbn [app]; rewrite <- !app_assoc.
  - intros [= _ <-]. destruct (skip_token_suffix TOKEN_NEWLINE ts3) as [p5 E5].
    exists (t :: p1 ++ p2 ++ p3 ++ p5). split; [|done]. cbn [app]. rewrite <- !app_assoc. by rewrite <- E5.
Qed.

Lemma generate_spec l fuel ts :
  map tok_text ts = script_tokens l -> Forall (fun t => sv_ok (string_rep t)) ts -> (length ts < fuel)%nat ->
  exists asts, generate_ast_fuel fuel ts = Ok (Some asts) /\ Forall2 item_ast l asts.
Proof.
  revert fuel ts. induction l as [|i l IH]; intros fuel ts E Hok Hf; (destruct fuel as [|fuel]; [lia|]); cbn [generate_ast_fuel].
  { apply map_eq_nil in E as ->. by exists []. }
  destruct i as [c|n v| |]; cbn [script_tokens] in E.
  - set (after := (if ends_line l then [T_newline] else []) ++ script_tokens l) in *.
    assert (Ha : ends_command after /\ drop_newline after = script_tokens l).
    { unfold after. destruct (ends_line l) eqn:El; [done|]. cbn [app]. by destruct l as [|[] l]. }
    destruct Ha as [Ha Hd]. destruct (cmd_words c after Ha) as (name & args & F & Ew & H1 & H2).
    pose proof E as E'. rewrite Ew in E'. rewrite (parse_set_no ts name args F E' H1 H2 Hok).
    destruct (parse_command_spec c (length ts) ts after E Ha) as (a & ts' & Ep & Hc & Em).
    { rewrite Hd. apply script_first. }
    { rewrite <- (length_map tok_text), E, length_app. pose proof (depth_tokens c). lia. }
    assert (Hsuf : exists pre, ts = pre ++ ts' /\ pre <> []).
    { apply parse_command_suffix in Ep. done. }
    destruct Hsuf as (pre & -> & Hpre). apply Forall_app in Hok as [_ Hok]. rewrite length_app in Hf.
    destruct (IH fuel ts') as (asts & Eg & Hg); [congruence|done|destruct pre; [done|cbn in Hf; lia]|].
    exists (a :: asts). destruct (pre ++ ts') as [|t rest] eqn:Et; [by destruct pre|].
    cbn [mbind outcome_bind]. rewrite <- Et in *. unfold parse_command. rewrite Ep. cbn [mbind outcome_bind]. rewrite Eg.
    split; [done|]. by constructor.
  - cbn [app] in E. apply map_cons_inv in E as (t & ts1 & -> & Et & E). apply map_cons_inv in E as (t2 & ts2 & -> & Et2 & E).
    apply map_cons_inv in E as (t3 & ts3 & -> & Et3 & E). apply map_cons_inv in E as (t4 & ts4 & -> & Et4 & E).
    apply map_cons_inv in E as (t5 & ts5 & -> & Et5 & E). injection Et as Ek Ew. injection Et2 as Ek2 Ew2. injection Et3 as Ek3 _.
    injection Et4 as Ek4 Ew4. injection Et5 as Ek5 _. do 5 apply Forall_cons in Hok as [? Hok].
    destruct (IH fuel ts5 E Hok) as (asts & Eg & Hg); [cbn in Hf; lia|].
    unfold parse_set. rewrite (bool_decide_eq_true_2 (tk_type t = TOKEN_CHARS)) by done. cbn [negb].
    destruct export_text as [Hx Hxt]. destruct (sv_comparisons _ (string_rep t) Hx) as (-> & _); [done|].
    rewrite Hxt, Ew. cbn [mbind outcome_bind]. rewrite (bool_decide_eq_true_2 (tk_type t2 = _) Ek2),
      (bool_decide_eq_true_2 (tk_type t3 = _) Ek3), (bool_decide_eq_true_2 (tk_type t4 = _) Ek4),
      (bool_decide_eq_true_2 (tk_type t5 = _) Ek5), (bool_decide_eq_true_2 _ (eq_refl [101; 120; 112; 111; 114; 116])).
    cbn [negb andb mbind outcome_bind]. rewrite Eg. eexists. split; [reflexivity|].
    constructor; [|done]. split_and!; [done|done|]. constructor; [|constructor]. by exists (string_rep t4).
  - apply map_cons_inv in E as (t & ts1 & -> & Et & E). injection Et as Ek _. apply Forall_cons in Hok as [_ Hok].
    destruct (IH fuel ts1 E Hok) as (asts & Eg & Hg); [cbn in Hf; lia|].
    unfold parse_set, parse_command. cbn [length parse_command_fuel]. rewrite (bool_decide_eq_false_2 (tk_type t = TOKEN_CHARS)) by congruence.
    cbn [negb mbind outcome_bind]. rewrite bool_decide_eq_true_2 by done. rewrite Eg. eexists. split; [reflexivity|]. by constructor.
  - apply map_cons_inv in E as (t & ts1 & -> & Et & E). injection Et as Ek _. apply Forall_cons in Hok as [_ Hok].
    destruct (IH fuel ts1 E Hok) as (asts & Eg & Hg); [cbn in Hf; lia|].
    unfold parse_set, parse_command. cbn [length parse_command_fuel]. rewrite (bool_decide_eq_false_2 (tk_type t = TOKEN_CHARS)) by congruence.
    cbn [negb mbind outcome_bind]. rewrite (bool_decide_eq_false_2 (tk_type t = TOKEN_AND)) by congruence.
    rewrite bool_decide_eq_true_2 by done. rewrite Eg. eexists. split; [reflexivity|]. by constructor.
Qed.

(** C22: the shell understands what is written: the text of a script, its words quoted
    where necessary, is read as exactly the commands of the script, with their
    arguments, redirections, pipes, background marks, assignments and conditions. *)
Theorem script_roundtrip v l :
  sv_ok v -> Forall printable_token (script_tokens l) -> text v = render_tokens (script_tokens l) ->
  exists ts asts, lex v = Ok ts /\ generate_ast ts = Ok (Some asts) /\ Forall2 item_ast l asts.
Proof.
  intros Hok Hp Hv. destruct (lex_render v (script_tokens l) Hok Hp Hv) as (ts & El & Em & HF).
  destruct (generate_spec l (S (length ts)) ts Em HF) as (asts & Eg & Hg); [lia|]. by exists ts, asts.
Qed.

(** ** Running *)

Section Run.
Context {S : Type} (execute_command : AST -> SM S Z) (set_env_from_ast : AST -> SM S unit).

(** A list of commands joined by [&&] ([true]) and [||]. *)
Definition and_or : Type := AST * list (bool * AST).

Definition op_node (conj_ : bool) : AST :=
  mkAST (if conj_ then AST_CONDITIONAL_AND else AST_CONDITIONAL_NOT) sv_null [] None false false sv_null.

Definition and_or_nodes (x : and_or) : list AST := x.1 :: concat (map (fun '(b, a) => [op_node b; a]) x.2).

Definition runs (a : AST) : Prop := ast_kind a = AST_COMMAND \/ ast_kind a = AST_SET.

(** One command with its exit status; an assignment succeeds. *)
Definition run_one (a : AST) : SM S Z :=
  match ast_kind a with AST_SET => set_env_from_ast a ;; mret 0 | _ => execute_command a end.

(** The meaning of the operators: the right side runs if what was run last succeeded
    or failed, respectively. *)
Fixpoint run_rest (l : list (bool * AST)) (rc : Z) : SM S Z :=
  match l with
  | [] => mret rc
  | (b, a) :: l => if Bool.eqb b (rc =? 0) then rc ← run_one a; run_rest l rc else run_rest l rc
  end.

Fixpoint run_script (l : list and_or) : SM S unit :=
  match l with
  | [] => mret tt
  | (a, r) :: l => rc ← run_one a; run_rest r rc ;; run_script l
  end.

(** The shell does not set the exit status for an assignment.  This makes no difference
    when no operator follows, or when the assignment stands behind [&&]. *)
Fixpoint joined (l : list (bool * AST)) : Prop :=
  match l with
  | [] => True
  | (b, a) :: l => runs a /\ (ast_kind a = AST_SET -> b = true \/ l = []) /\ joined l
  end.

Definition and_or_ok (x : and_or) : Prop :=
  runs x.1 /\ (ast_kind x.1 = AST_SET -> x.2 = []) /\ joined x.2.

Abbreviation loop := (execute_loop execute_command set_env_from_ast).

Lemma sm_ext {A B} (m : SM S A) (k k' : A -> SM S B) : (forall a st, k a st = k' a st) -> forall st, (m ≫= k) st = (m ≫= k') st.
Proof. intros E st. unfold mbind, SM_bind. destruct (m st) as [[a st']| | |]; [apply E|done..]. Qed.

Lemma sm_assoc {A B C} (m : SM S A) (k : A -> SM S B) (k' : B -> SM S C) st :
  (m ≫= (fun a => k a ≫= k')) st = ((m ≫= k) ≫= k') st.
Proof. unfold mbind, SM_bind. by destruct (m st) as [[a st']| | |]. Qed.

(** The loop without its exit status. *)
Abbreviation run_loop asts rc := (loop asts rc ;; mret tt).

Lemma loop_command a rest rc st : ast_kind a = AST_COMMAND ->
  run_loop (a :: rest) rc st = (execute_command a ≫= (fun rc => run_loop rest rc)) st.
Proof. intros E. cbn [execute_loop]. rewrite E. symmetry. apply sm_assoc. Qed.

Lemma loop_set a rest rc st : ast_kind a = AST_SET ->
  run_loop (a :: rest) rc st = (set_env_from_ast a ≫= (fun _ => run_loop rest rc)) st.
Proof. intros E. cbn [execute_loop]. rewrite E. symmetry. apply sm_assoc. Qed.

Lemma loop_op b a rest rc st :
  run_loop (op_node b :: a :: rest) rc st =
  (if Bool.eqb b (rc =? 0) then run_loop (a :: rest) rc st else run_loop rest rc st).
Proof.
  destruct b; cbn [execute_loop op_node ast_kind]; by destruct (rc =? 0).
Qed.

(** The rest of a list: the status of the loop and that of the reference only have to
    agree in being 0. *)
Lemma loop_rest l next (script : SM S unit) rc rc' st : joined l -> (rc =? 0) = (rc' =? 0) ->
  (forall rc st, run_loop next rc st = script st) ->
  run_loop (concat (map (fun '(b, a) => [op_node b; a]) l) ++ next) rc st = (run_rest l rc' ;; script) st.
Proof.
  intros Hl Hrc Hnext. revert rc rc' st Hl Hrc. induction l as [|[b a] l IH]; intros rc rc' st Hl Hrc; [apply Hnext|].
  destruct Hl as (Ha & Hset & Hl). cbn [map concat app run_rest]. rewrite loop_op, Hrc.
  destruct (Bool.eqb b (rc' =? 0)) eqn:Eb; [|by apply IH]. rewrite <- sm_assoc. unfold run_one.
  destruct Ha as [E|E]; rewrite E.
  - rewrite loop_command by done. apply sm_ext. intros r s'. by apply IH.
  - rewrite loop_set by done. rewrite <- sm_assoc. apply sm_ext. intros [] s'. cbn.
    destruct (Hset E) as [->| ->]; [|apply Hnext]. apply eqb_prop in Eb. apply IH; [done|]. by rewrite Hrc, <- Eb.
Qed.

(** C23: the shell runs the commands a script asks for, whatever they do and return: the
    nodes of [&&] and [||] lists are executed as the shell language says, with 0 for
    the status of an assignment, in every script in which an assignment that an
    operator follows stands behind [&&]. *)
Theorem execute_ast_and_or (l : list and_or) st :
  Forall and_or_ok l ->
  execute_ast execute_command set_env_from_ast (concat (map and_or_nodes l)) st = run_script l st.
Proof.
  unfold execute_ast. generalize (-1). intros rc Hl. revert rc st.
  induction Hl as [|[a r] l (Ha & Hset & Hr) _ IH]; intros rc st; [done|].
  cbn [map concat run_script]. unfold and_or_nodes, run_one. cbn [fst snd app] in *. destruct Ha as [E|E]; rewrite E.
  - rewrite loop_command by done. apply sm_ext. intros rc' st'. by apply loop_rest.
  - rewrite loop_set by done. rewrite <- sm_assoc. apply sm_ext. intros [] st'. rewrite (Hset E). apply IH.
Qed.
End Run.

(** ** Witnesses *)

(** [ls -l "a b" | wc > x && export A=B ; c &] in the notation above. *)
Definition script_sample : list item :=
  [ICmd (Cmd [108; 115] [[45; 108]; [97; 32; 98]] None false (Some (Cmd [119; 99] [] (Some (false, [120])) false None)));
   IAnd; ISet [65] [66]; ICmd (Cmd [99] [] None true None)].

Lemma script_roundtrip_witness :
  let l := render_tokens (script_tokens script_sample) in
  exists ts asts, lex (mkSv l (zlen l)) = Ok ts /\ generate_ast ts = Ok (Some asts) /\ Forall2 item_ast script_sample asts.
Proof.
  apply script_roundtrip; [by vm_compute| |reflexivity].
  cbn [script_tokens script_sample cmd_tokens map app ends_line].
  repeat (apply Forall_cons; split); [..|by apply Forall_nil];
    first [by left | right; apply (bool_decide_eq_true _); vm_compute; reflexivity | apply (bool_decide_eq_true _); vm_compute; reflexivity].
Defined.

(** A command fails after [&&]; the command behind [||] runs. *)
Definition named (c : Z) : AST := mkAST AST_COMMAND (mkSv [c] 1) [] None false false sv_null.

Lemma execute_ast_and_or_witness :
  execute_ast (fun a log => Ok (if bool_decide (text (ast_val a) = [97]) then 0 else 1, log ++ text (ast_val a)))
    (fun _ => mret tt) [named 98; op_node true; named 99; op_node false; named 97; op_node false; named 100] ([] : list Z) =
  Ok (tt, [98; 97]).
Proof.
  rewrite (execute_ast_and_or _ _ [(named 98, [(true, named 99); (false, named 97); (false, named 100)])]).
  - vm_compute. reflexivity.
  - repeat constructor; cbn; discriminate.
Defined.

(** ** What goes wrong *)

(** An assignment does not set the exit status: [export A=B && ls] does not run [ls] at
    the start of a script, whose status is -1. *)
Definition assigns : AST := mkAST AST_SET (mkSv [65] 1) [named 66] None false false sv_null.

Example assignment_without_status :
  let run (a : AST) (log : list Z) : outcome (Z * list Z) := Ok (0, log ++ text (ast_val a)) in
  execute_ast run (fun _ => mret tt) [assigns; op_node true; named 97] [] = Ok (tt, []) /\
  run_script run (fun _ => mret tt) [(assigns, [(true, named 97)])] [] = Ok (tt, [97]).
Proof. vm_compute. done. Qed.

Definition as_text (s : list Z) : sv := mkSv s (zlen s).

(** A comment takes the end of its line with it: ["ls # x\npwd"] is one command. *)
Example comment_joins_lines :
  (ts ← lex (as_text [108; 115; 32; 35; 32; 120; 10; 112; 119; 100]); Ok (map tok_text ts)) =
  Ok [T_chars [108; 115]; T_chars [112; 119; 100]].
Proof. vm_compute. reflexivity. Qed.

(** An empty line is a command without a name, which is run. *)
Example empty_line_runs :
  (ts ← lex (as_text [10]); generate_ast ts) = Ok (Some [allocate_ast]).
Proof. vm_compute. reflexivity. Qed.

(** [>] at the end of a script: the file name is read through a NULL pointer; at the end
    of a line the file is called newline. *)
Example stream_without_file :
  (ts ← lex (as_text [108; 115; 32; 62]); generate_ast ts) = Fault /\
  (ts ← lex (as_text [108; 115; 32; 62; 10]); a ← generate_ast ts; Ok (map (fun a => text (file_out a)) (default [] a))) =
  Ok [[10]].
Proof. vm_compute. done. Qed.

(** A byte outside of ASCII ends the shell. *)
Example non_ascii_aborts : lex (as_text [0xC3; 0xA5]) = Panic.
Proof. vm_compute. reflexivity. Qed.

(** [argv] has 100 places. *)
Lemma many_arguments_overrun a : (99 < length (children a))%nat -> execute_binary_argv a = Fault.
Proof.
  assert (Hfill : forall args argv i, 0 <= i -> zlen argv < i + zlen args + 1 -> fill_argv argv i args = Fault).
  { induction args as [|x args IH]; intros argv i Hi Hlt; cbn [fill_argv].
    - rewrite zlen_nil in Hlt. unfold awrite. destruct (Z.ltb_spec i (zlen argv)); [lia|]. by rewrite andb_false_r.
    - assert (Hz : zlen (x :: args) = 1 + zlen args) by (unfold zlen; cbn [length]; lia).
      destruct (decide (i < zlen argv)) as [Hin|Hout].
      + rewrite awrite_ok by lia. cbn [mbind outcome_bind]. apply IH; [lia|]. rewrite zlen_insert. lia.
      + unfold awrite. destruct (Z.ltb_spec i (zlen argv)); [lia|]. by rewrite andb_false_r. }
  intros Hn. apply Hfill; [lia|]. unfold zlen. cbn [length]. rewrite length_map, length_replicate. lia.
Qed.
