(* ===== verification/Exec.v ===== *)
(** kernel/elf.c and [setup_stack] and [exec_shebang] of kernel/sched/scheduler.c: how
    a program gets into memory and how its arguments reach it.

    User memory is used through an interface, which says what arch/i386/mmu.c promises
    about mapped pages; a file is the bytes [vfs_pread] gives. *)

From stdpp Require Import base numbers list gmap.
From Stdlib Require Import ZArith Lia.
From S2P Require Import Prelude Bytes KString Mmu.

Open Scope Z_scope.

(** ** User memory *)

Definition page_of (a : Z) : Z := a / 0x1000.

(** [um_store] gives [None] on a page fault; [um_allocate] is [mmu_allocate_region]. *)
Class UserMemory (M : Type) : Type := {
  um_load : M -> Z -> option Z;
  um_store : M -> Z -> Z -> option M;
  um_allocate : Z -> Z -> M -> bool * M
}.

Class UserMemoryLaws (M : Type) `{UserMemory M} : Prop := {
  um_store_mapped : forall m a v, is_Some (um_load m a) ->
    exists m', um_store m a v = Some m' /\ um_load m' a = Some v /\ forall b, b <> a -> um_load m' b = um_load m b;
  um_allocate_keeps : forall p n m m' a v, um_allocate p n m = (true, m') -> um_load m a = Some v -> um_load m' a = Some v;
  um_allocate_maps : forall p n m m' a, um_allocate p n m = (true, m') -> 0 <= n -> 0 <= p -> p + n < 2 ^ 32 ->
    page_of p <= page_of a <= page_of p + n / 0x1000 -> is_Some (um_load m' a)
}.

Section Memory.
Context {M : Type} `{UserMemory M}.

(** [memcpy] and [memset] with a destination in user memory. *)
Fixpoint write_bytes (m : M) (a : Z) (l : list Z) : outcome M :=
  match l with
  | [] => Ok m
  | v :: l => m ← deref (um_store m a v); write_bytes m (a + 1) l
  end.

Definition store32 (m : M) (a v : Z) : outcome M := write_bytes m a (le32_bytes v).

(** ** The stack of a new program *)

Definition STACK_LOCATION : Z := 0x90000000.
Definition STACK_SIZE : Z := 0x80000.

(** The first loop: the strings, downwards; the pointers to them. *)
Fixpoint push_strings (argv : list (list Z)) (ptr : Z) (m : M) : outcome (list Z * Z * M) :=
  match argv with
  | [] => Ok ([], ptr, m)
  | s :: argv =>
    let ptr := u32 (ptr - (zlen s + 1)) in
    m ← write_bytes m ptr s;
    m ← write_bytes m (u32 (ptr + zlen s)) [0];
    '(ptrs, e, m) ← push_strings argv ptr m;
    Ok (ptr :: ptrs, e, m)
  end.

(** The second loop, from the NULL at the end to the first pointer; [ptrs] is the
    array of pointers backwards. *)
Fixpoint push_pointers (ptrs : list Z) (ptr : Z) (m : M) : outcome (Z * M) :=
  match ptrs with
  | [] => Ok (ptr, m)
  | p :: ptrs =>
    let ptr := u32 (ptr - 4) in
    m ← store32 m ptr p;
    push_pointers ptrs ptr m
  end.

(** [None]: [*err] is 1, there is no memory for the stack. *)
Definition setup_stack (stack_pointer : Z) (argv : list (list Z)) (m : M) : outcome (option Z * M) :=
  match um_allocate (STACK_LOCATION - STACK_SIZE) STACK_SIZE m with
  | (false, m) => Ok (None, m)
  | (true, m) =>
    '(argv_ptrs, ptr, m) ← push_strings argv stack_pointer m;
    '(ptr, m) ← push_pointers (0 :: rev argv_ptrs) ptr m;
    let s := ptr in
    let ptr := u32 (ptr - 4) in
    m ← store32 m ptr s;
    let ptr := u32 (ptr - 4) in
    m ← store32 m ptr (zlen argv);
    Ok (Some ptr, m)
  end.

(** What the started program reads. *)
Definition load32 (m : M) (a : Z) : option Z :=
  b0 ← um_load m a; b1 ← um_load m (a + 1); b2 ← um_load m (a + 2); b3 ← um_load m (a + 3);
  Some (le32 b0 b1 b2 b3).

Fixpoint load_string (n : nat) (m : M) (a : Z) : option (list Z) :=
  match n with
  | O => None
  | S n => c ← um_load m a; if c =? 0 then Some [] else s ← load_string n m (a + 1); Some (c :: s)
  end.

(** [argv[0] ... argv[n - 1]] from the address of the array, strings of at most [max]
    bytes with their terminator. *)
Fixpoint load_argv (max n : nat) (m : M) (a : Z) : option (list (list Z)) :=
  match n with
  | O => Some []
  | S n =>
    p ← load32 m a;
    s ← load_string max m p;
    l ← load_argv max n m (a + 4);
    Some (s :: l)
  end.

(** ** Loading an ELF file *)

(** [vfs_pread] of a regular file: the result and the bytes. *)
Definition file_pread (file : list Z) (count off : Z) : Z * list Z :=
  let d := ztake count (zdrop off file) in (zlen d, d).

Definition ELF_MAGIC : list Z := [0x7F; 0x45; 0x4C; 0x46].
(** [sizeof(ELFHeader)] and [sizeof(Elf32_Phdr)] *)
Definition ehdr_size : Z := 52.
Definition phdr_size : Z := 32.

Record Elf32_Phdr : Type := mkPhdr {
  p_type : Z; p_offset : Z; p_vaddr : Z; p_filesz : Z; p_memsz : Z
}.

Definition parse_phdr (d : list Z) : outcome Elf32_Phdr :=
  ty ← le32_at d 0; off ← le32_at d 4; va ← le32_at d 8; fs ← le32_at d 16; ms ← le32_at d 20;
  Ok (mkPhdr ty off va fs ms).

(** One program header: the end of the code, or [None] when there is no memory. *)
Definition load_segment (file : list Z) (ph : Elf32_Phdr) (end_of_code : Z) (m : M) : outcome (option Z * M) :=
  c_assert (p_type ph =? 1) ;;
  let pages := align_page (u32 (p_vaddr ph + p_memsz ph)) in
  let pages := u32 (pages - (p_vaddr ph - p_vaddr ph mod 0x1000)) / 0x1000 in
  match um_allocate (p_vaddr ph) (u32 (pages * 0x1000)) m with
  | (false, m) => Ok (None, m)
  | (true, m) =>
    let e := u32 (p_vaddr ph + p_memsz ph) in
    let end_of_code := if end_of_code <? e then e else end_of_code in
    m ← write_bytes m (p_vaddr ph) (replicate (Z.to_nat (p_memsz ph)) 0);
    let '(rc, d) := file_pread file (p_filesz ph) (p_offset ph) in
    m ← write_bytes m (p_vaddr ph) d;
    c_assert (i32 rc =? i32 (p_filesz ph)) ;;
    Ok (Some end_of_code, m)
  end.

(** [buf] is the local variable [program_header]: a short read leaves the rest of it. *)
Fixpoint load_segments (n : nat) (file : list Z) (buf : list Z) (header_offset end_of_code : Z) (m : M)
  : outcome (option Z * M) :=
  match n with
  | O => Ok (Some end_of_code, m)
  | S n =>
    let '(rc, d) := file_pread file phdr_size header_offset in
    if rc <=? 0 then Ok (None, m) else
    let buf := d ++ zdrop rc buf in
    ph ← parse_phdr buf;
    r ← load_segment file ph end_of_code m;
    match r with
    | (None, m) => Ok (None, m)
    | (Some end_of_code, m) => load_segments n file buf (u32 (header_offset + phdr_size)) end_of_code m
    end
  end.

(** The entry point and the end of the code ([None]: NULL); [junk] is the uninitialised
    variable [program_header]. *)
Definition load_elf_file (junk : list Z) (f : option (list Z)) (m : M) : outcome (option (Z * Z) * M) :=
  match f with
  | None => Ok (None, m)
  | Some file =>
    let '(rc, h) := file_pread file ehdr_size 0 in
    if negb (rc =? ehdr_size) then Ok (None, m) else
    if negb (bool_decide (ztake 4 h = ELF_MAGIC)) then Ok (None, m) else
    entry ← le32_at h 24; phoff ← le32_at h 28; phentsize ← le16_at h 42; phnum ← le16_at h 44;
    c_assert (phdr_size =? phentsize) ;;
    r ← load_segments (Z.to_nat phnum) file junk phoff 0 m;
    match r with
    | (None, m) => Ok (None, m)
    | (Some e, m) => Ok (Some (entry, e), m)
    end
  end.
End Memory.

(** ** Scripts *)

(** A pointer of [new_argv]: into [buffer], or to another string. *)
Inductive arg_ptr : Type := InBuffer (i : Z) | Other (s : list Z).

Definition push_arg (a : list (option arg_ptr)) (n : Z) (p : arg_ptr) : outcome (list (option arg_ptr)) :=
  awrite a n (Some p).

(** The loop over the first line.  [buffer] holds [rc] bytes that were read and zeros. *)
Fixpoint split_line (fuel : nat) (buffer : list Z) (rc i start : Z) (new_argv : list (option arg_ptr)) (new_argc : Z)
  : outcome (list Z * list (option arg_ptr) * Z) :=
  match fuel with
  | O => NoFuel
  | S fuel =>
    if rc <=? i then
      new_argv ← push_arg new_argv new_argc (InBuffer start);
      Ok (buffer, new_argv, new_argc + 1)
    else
      c ← aread buffer i;
      if c =? 10 then
        buffer ← awrite buffer i 0;
        new_argv ← push_arg new_argv new_argc (InBuffer start);
        Ok (buffer, new_argv, new_argc + 1)
      else if c =? 32 then
        buffer ← awrite buffer i 0;
        new_argv ← push_arg new_argv new_argc (InBuffer start);
        split_line fuel buffer rc (i + 1) i new_argv (new_argc + 1)
      else split_line fuel buffer rc (i + 1) start new_argv new_argc
  end.

(** [for (int i = 0; argv[i] && i < 256 - new_argc; i++, new_argc++)] *)
Fixpoint copy_args (argv : list (list Z)) (i : Z) (new_argv : list (option arg_ptr)) (new_argc : Z)
  : outcome (list (option arg_ptr) * Z) :=
  match argv with
  | [] => Ok (new_argv, new_argc)
  | s :: argv =>
    if i <? 256 - new_argc then
      new_argv ← push_arg new_argv new_argc (Other s);
      copy_args argv (i + 1) new_argv (new_argc + 1)
    else Ok (new_argv, new_argc)
  end.

(** The C string at an index of the buffer. *)
Fixpoint string_from (l : list Z) : list Z :=
  match l with [] => [] | c :: l => if c =? 0 then [] else c :: string_from l end.

Definition arg_string (buffer : list Z) (p : option arg_ptr) : option (list Z) :=
  match p with
  | Some (InBuffer i) => Some (string_from (zdrop i buffer))
  | Some (Other s) => Some s
  | None => None
  end.

(** The arguments [exec] is called with, for a file that starts with ["#!"] ([None]: it
    does not, and the result is 0).  The file is [None] when [vfs_open] gives an error
    number, which is not -1: [vfs_pread] of it then fails. *)
Definition exec_shebang (f : option (list Z)) (filename : list Z) (argv : list (list Z)) : outcome (option (list (list Z))) :=
  match f with None => Ok None | Some file =>
  let '(rc, two_chars) := file_pread file 2 0 in
  if negb (rc =? 2) then Ok None else
  if negb (bool_decide (two_chars = [35; 33])) then Ok None else
  let '(rc, d) := file_pread file (8192 - 1) 2 in
  if rc =? 0 then Ok None else
  let buffer := d ++ replicate (Z.to_nat (8192 - rc)) 0 in
  '(buffer, new_argv, new_argc) ← split_line (S (Z.to_nat rc)) buffer rc 0 0 (replicate 256 None) 0;
  new_argv ← push_arg new_argv new_argc (Other filename);
  '(new_argv, new_argc) ← copy_args argv 0 new_argv (new_argc + 1);
  new_argv ← awrite new_argv new_argc None;
  Ok (Some (omap (arg_string buffer) (ztake new_argc new_argv)))
  end.

(** [exec].  [files] is [vfs_open] with the contents; [Started]: the jump to user mode,
    with the bytes of [program_name] and of [root_path], which follows it in the process,
    the end of the data segment, the entry point and the stack pointer. *)
Inductive exec_end (M : Type) : Type :=
| Started (names : list Z) (data_segment_end entry ptr : Z) (m : M)
| Returned (rc : Z) (m : M).
Arguments Started {M} _ _ _ _ _.
Arguments Returned {M} _ _.

Definition ENOEXEC : Z := 46.
(** [sizeof(current_task->program_name)] *)
Definition program_name_size : Z := 100.

Section Exec.
Context {M : Type} `{UserMemory M} (files : list Z -> option (list Z)) (junk names : list Z).

Fixpoint exec (fuel : nat) (filename : list Z) (argv : list (list Z)) (m : M) : outcome (exec_end M) :=
  match fuel with
  | O => NoFuel
  | S fuel =>
    '(r, m) ← load_elf_file junk (files filename) m;
    match r with
    | Some (entry, end_of_code) =>
      if entry =? 0 then exec_script fuel filename argv m else
      '(names, _) ← strlcpy names (filename ++ [0]) program_name_size;
      '(ptr, m') ← setup_stack STACK_LOCATION argv m;
      match ptr with
      | None => Ok (Returned 0 m')
      | Some ptr => Ok (Started names (align_page end_of_code) entry ptr m')
      end
    | None => exec_script fuel filename argv m
    end
  end
with exec_script (fuel : nat) (filename : list Z) (argv : list (list Z)) (m : M) : outcome (exec_end M) :=
  match fuel with
  | O => NoFuel
  | S fuel =>
    a ← exec_shebang (files filename) filename argv;
    match a with
    | None => Ok (Returned 0 m)
    | Some new_argv =>
      new0 ← aread new_argv 0;
      r ← exec fuel new0 new_argv m;
      match r with
      | Returned rc m => if rc =? 0 then Ok (Returned 0 m) else Ok (Returned (- ENOEXEC) m)
      | Started _ _ _ _ _ => Ok r
      end
    end
  end.
End Exec.

(** ** Lemmas on memory *)

Section Laws.
Context {M : Type} `{UserMemoryLaws M}.
Implicit Types (m : M).

(** The bytes [l] are at [a]. *)
Definition holds_at m (a : Z) (l : list Z) : Prop := forall k, 0 <= k < zlen l -> um_load m (a + k) = znth l k.

Definition mapped m (lo hi : Z) : Prop := forall x, lo <= x < hi -> is_Some (um_load m x).

(** Only [lo, hi) changed, and it is still mapped. *)
Definition changed_in m m' (lo hi : Z) : Prop :=
  (forall x, x < lo \/ hi <= x -> um_load m' x = um_load m x) /\ (forall x, is_Some (um_load m x) -> is_Some (um_load m' x)).

Lemma changed_refl m lo : changed_in m m lo lo.
Proof. by split. Qed.

Lemma changed_trans m m1 m2 lo mid hi : lo <= mid <= hi ->
  changed_in m m1 mid hi -> changed_in m1 m2 lo mid -> changed_in m m2 lo hi.
Proof. intros Hle [O1 I1] [O2 I2]. split; [|by auto]. intros x Hx. rewrite O2, O1 by lia. done. Qed.

Lemma changed_mapped m m' lo hi a b : changed_in m m' lo hi -> mapped m a b -> mapped m' a b.
Proof. intros [_ I] Hm x Hx. by apply I, Hm. Qed.

Lemma changed_holds m m' lo hi a l : changed_in m m' lo hi -> a + zlen l <= lo \/ hi <= a -> holds_at m a l -> holds_at m' a l.
Proof. intros [O _] Hd Hh k Hk. rewrite O by lia. by apply Hh. Qed.

Lemma zlen_cons' {A} (x : A) l : zlen (x :: l) = 1 + zlen l.
Proof. unfold zlen. cbn [length]. lia. Qed.

Lemma znth_cons_if {A} (x : A) l k : znth (x :: l) k = if k =? 0 then Some x else znth l (k - 1).
Proof.
  unfold znth. destruct (Z.eqb_spec k 0) as [->|]; [done|]. destruct (Z.leb_spec 0 k), (Z.leb_spec 0 (k - 1)); try lia; [|done].
  replace (Z.to_nat k) with (S (Z.to_nat (k - 1))) by lia. done.
Qed.

Lemma write_bytes_ok m a l : mapped m a (a + zlen l) ->
  exists m', write_bytes m a l = Ok m' /\ holds_at m' a l /\ changed_in m m' a (a + zlen l).
Proof.
  revert m a. induction l as [|v l IH]; intros m a Hm; cbn [write_bytes].
  { exists m. rewrite zlen_nil, Z.add_0_r. split_and!; [done| |apply changed_refl]. intros k Hk. change (zlen (@nil Z)) with 0 in Hk; lia. }
  rewrite zlen_cons' in *. pose proof (zlen_nonneg l).
  destruct (um_store_mapped m a v) as (m1 & -> & Hv & Ho); [apply Hm; lia|]. cbn [deref mbind outcome_bind].
  destruct (IH m1 (a + 1)) as (m2 & E & Hh & [O2 I2]).
  { intros x Hx. rewrite Ho by lia. apply Hm. lia. }
  exists m2. split_and!; [done| |split].
  - intros k Hk. rewrite znth_cons_if. destruct (Z.eqb_spec k 0) as [->|].
    + rewrite Z.add_0_r, O2 by lia. done.
    + rewrite ?zlen_cons' in Hk. replace (a + k) with (a + 1 + (k - 1)) by lia. apply Hh. lia.
  - intros x Hx. rewrite O2, Ho by lia. done.
  - intros x Hx. apply I2. destruct (Z.eq_dec x a) as [->|Hne]; [by rewrite Hv|by rewrite Ho].
Qed.

Lemma holds_app m a l1 l2 : holds_at m a l1 -> holds_at m (a + zlen l1) l2 -> holds_at m a (l1 ++ l2).
Proof.
  intros H1 H2 k Hk. rewrite zlen_app in Hk. destruct (Z.lt_ge_cases k (zlen l1)).
  - rewrite znth_app_l by done. apply H1. lia.
  - rewrite znth_app_r by lia. replace (a + k) with (a + zlen l1 + (k - zlen l1)) by lia. apply H2. lia.
Qed.

Lemma holds_app_inv m a l1 l2 : holds_at m a (l1 ++ l2) -> holds_at m a l1 /\ holds_at m (a + zlen l1) l2.
Proof.
  intros Hh. pose proof (zlen_nonneg l1). pose proof (zlen_nonneg l2). split; intros k Hk.
  - rewrite <- (znth_app_l l1 l2) by lia. apply Hh. rewrite zlen_app. lia.
  - replace (znth l2 k) with (znth (l1 ++ l2) (zlen l1 + k)); [|rewrite znth_app_r by lia; f_equal; lia].
    rewrite <- Z.add_assoc. apply Hh. rewrite zlen_app. lia.
Qed.

Lemma load32_holds m a v : fits 32 v -> holds_at m a (le32_bytes v) -> load32 m a = Some v.
Proof.
  intros Hv Hh. unfold load32. pose proof (Hh 0) as E0. pose proof (Hh 1) as E1. pose proof (Hh 2) as E2. pose proof (Hh 3) as E3.
  rewrite Z.add_0_r in E0. change (zlen (le32_bytes v)) with 4 in *.
  rewrite E0, E1, E2, E3 by lia.
  change (Some (le32 (v mod 2 ^ 8) ((v / 2 ^ 8) mod 2 ^ 8) ((v / 2 ^ 16) mod 2 ^ 8) ((v / 2 ^ 24) mod 2 ^ 8)) = Some v).
  f_equal. by apply le32_split.
Qed.

(** A C string. *)
Definition string_at m (a : Z) (s : list Z) : Prop := holds_at m a (s ++ [0]).

Lemma load_string_at n m a s : Forall (fun c => c <> 0) s -> string_at m a s -> (length s < n)%nat -> load_string n m a = Some s.
Proof.
  intros Hs. revert n a. induction Hs as [|c s Hc _ IH]; intros [|n] a Hh Hn; cbn in Hn; try lia; cbn [load_string].
  - specialize (Hh 0). rewrite Z.add_0_r in Hh. rewrite Hh by done. done.
  - pose proof (Hh 0) as E0. rewrite Z.add_0_r in E0. rewrite E0 by (cbn [app]; rewrite zlen_cons'; pose proof (zlen_nonneg (s ++ [0])); lia).
    change (znth ((c :: s) ++ [0]) 0) with (Some c). cbn [mbind option_bind]. rewrite (proj2 (Z.eqb_neq c 0) Hc). rewrite IH; [done| |lia].
    intros k Hk. unfold string_at, holds_at in Hh. cbn [app] in Hh. specialize (Hh (k + 1)). rewrite zlen_cons', znth_cons_if in Hh. replace (a + (k + 1)) with (a + 1 + k) in Hh by lia.
    rewrite Hh by lia. destruct (Z.eqb_spec (k + 1) 0); [lia|]. f_equal. lia.
Qed.

(** ** The stack *)

Definition strings_size (argv : list (list Z)) : Z := fold_right (fun s n => zlen s + 1 + n) 0 argv.

Lemma strings_size_nonneg argv : 0 <= strings_size argv.
Proof. induction argv as [|s argv IH]; cbn; [lia|]. pose proof (zlen_nonneg s). fold (strings_size argv). lia. Qed.

Lemma push_strings_spec argv ptr m lo :
  0 <= lo -> lo + strings_size argv <= ptr < 2 ^ 32 -> mapped m lo ptr ->
  exists ptrs m', push_strings argv ptr m = Ok (ptrs, ptr - strings_size argv, m') /\
    changed_in m m' (ptr - strings_size argv) ptr /\
    Forall2 (fun p s => string_at m' p s /\ ptr - strings_size argv <= p < ptr) ptrs argv.
Proof.
  intros Hlo. revert ptr m. induction argv as [|s argv IH]; intros ptr m Hp Hm; cbn [push_strings].
  { exists [], m. change (strings_size []) with 0. rewrite Z.sub_0_r. split_and!; [done|apply changed_refl|constructor]. }
  change (strings_size (s :: argv)) with (zlen s + 1 + strings_size argv) in *. pose proof (strings_size_nonneg argv).
  pose proof (zlen_nonneg s). set (p := ptr - (zlen s + 1)). rewrite u32_small by lia. fold p.
  destruct (write_bytes_ok m p s) as (m1 & -> & Hh1 & C1); [intros x Hx; apply Hm; lia|]. cbn [mbind outcome_bind].
  rewrite u32_small by lia.
  destruct (write_bytes_ok m1 (p + zlen s) [0]) as (m2 & -> & Hh2 & C2).
  { change (zlen [0]) with 1. eapply changed_mapped; [exact C1|]. intros x Hx. apply Hm. lia. }
  change (zlen [0]) with 1 in C2. cbn [mbind outcome_bind].
  assert (C12 : changed_in m m2 p ptr).
  { destruct C1 as [O1 I1], C2 as [O2 I2]. split; [|by auto]. intros x Hx. rewrite O2, O1 by lia. done. }
  assert (Hs2 : string_at m2 p s).
  { apply holds_app; [|done]. eapply changed_holds; [exact C2|lia|done]. }
  destruct (IH p m2) as (ptrs & m3 & -> & C3 & HF); [lia|eapply changed_mapped; [exact C12|]; intros x Hx; apply Hm; lia|].
  cbn [mbind outcome_bind]. exists (p :: ptrs), m3. replace (ptr - (zlen s + 1 + strings_size argv)) with (p - strings_size argv) by lia.
  split_and!; [done| |].
  - eapply changed_trans; [|exact C12|exact C3]. lia.
  - constructor.
    + split; [|lia]. eapply changed_holds; [exact C3|right; lia|done].
    + eapply Forall2_impl; [exact HF|]. intros q t [Hq Hr]. split; [done|lia].
Qed.

Definition words_of (ps : list Z) : list Z := concat (map le32_bytes ps).

Lemma zlen_words ps : zlen (words_of ps) = 4 * zlen ps.
Proof.
  induction ps as [|p ps IH]; [done|]. unfold words_of in *. cbn [map concat]. rewrite zlen_app, IH, zlen_cons'.
  change (zlen (le32_bytes p)) with 4. lia.
Qed.

Lemma push_pointers_spec ps ptr m lo :
  0 <= lo -> lo + 4 * zlen ps <= ptr < 2 ^ 32 -> mapped m lo ptr ->
  exists m', push_pointers ps ptr m = Ok (ptr - 4 * zlen ps, m') /\
    changed_in m m' (ptr - 4 * zlen ps) ptr /\ holds_at m' (ptr - 4 * zlen ps) (words_of (rev ps)).
Proof.
  intros Hlo. revert ptr m. induction ps as [|p ps IH]; intros ptr m Hp Hm; cbn [push_pointers].
  { exists m. change (ptr - 4 * zlen (@nil Z)) with (ptr - 0). rewrite Z.sub_0_r. split_and!; [done|apply changed_refl|].
    intros k Hk. change (zlen (words_of (rev []))) with 0 in Hk. lia. }
  rewrite zlen_cons' in *. pose proof (zlen_nonneg ps). rewrite u32_small by lia. unfold store32.
  destruct (write_bytes_ok m (ptr - 4) (le32_bytes p)) as (m1 & -> & Hh1 & C1).
  { change (zlen (le32_bytes p)) with 4. intros x Hx. apply Hm. lia. }
  change (zlen (le32_bytes p)) with 4 in C1. replace (ptr - 4 + 4) with ptr in C1 by lia. cbn [mbind outcome_bind].
  destruct (IH (ptr - 4) m1) as (m2 & -> & C2 & Hh2); [lia|eapply changed_mapped; [exact C1|]; intros x Hx; apply Hm; lia|].
  replace (ptr - 4 * (1 + zlen ps)) with (ptr - 4 - 4 * zlen ps) by lia. exists m2. split_and!; [done| |].
  - eapply changed_trans; [|exact C1|exact C2]. lia.
  - cbn [rev]. unfold words_of in *. rewrite map_app, concat_app. apply holds_app; [done|].
    pose proof (zlen_words (rev ps)) as Hz. unfold words_of in Hz. rewrite Hz.
    assert (Hr : zlen (rev ps) = zlen ps) by (unfold zlen; by rewrite length_rev). rewrite Hr.
    replace (ptr - 4 - 4 * zlen ps + 4 * zlen ps) with (ptr - 4) by lia. cbn [map concat]. rewrite app_nil_r.
    eapply changed_holds; [exact C2|right; lia|done].
Qed.

Lemma load_argv_words max m a ptrs argv :
  Forall (fun s => Forall (fun c => c <> 0) s /\ (length s < max)%nat) argv -> Forall (fits 32) ptrs ->
  holds_at m a (words_of ptrs) -> Forall2 (string_at m) ptrs argv -> load_argv max (length argv) m a = Some argv.
Proof.
  intros Hv Hf Hh HF. revert a Hv Hf Hh. induction HF as [|p s ptrs argv Hs _ IH]; intros a Hv Hf Hh; [done|].
  apply Forall_cons in Hv as [[Hnz Hl] Hv]. apply Forall_cons in Hf as [Hp Hf].
  change (words_of (p :: ptrs)) with (le32_bytes p ++ words_of ptrs) in Hh. apply holds_app_inv in Hh as [H1 H2].
  cbn [length load_argv]. rewrite (load32_holds m a p) by done. cbn [mbind option_bind].
  rewrite (load_string_at _ m p s) by done. cbn [mbind option_bind].
  rewrite (IH (a + 4)) by done. done.
Qed.

(** The bytes [setup_stack] writes. *)
Definition stack_size (argv : list (list Z)) : Z := strings_size argv + 4 * (zlen argv + 1) + 8.

Lemma strings_fit argv s : s ∈ argv -> zlen s + 1 <= strings_size argv.
Proof.
  induction argv as [|t argv IH]; intros Hin; [by apply not_elem_of_nil in Hin|].
  change (strings_size (t :: argv)) with (zlen t + 1 + strings_size argv). pose proof (strings_size_nonneg argv). pose proof (zlen_nonneg t).
  apply elem_of_cons in Hin as [->|Hin]; [lia|]. specialize (IH Hin). lia.
Qed.

(** The two halves of the stack: the strings and the array of pointers. *)
Lemma push_args_spec argv ptr m lo :
  0 <= lo -> lo + strings_size argv + 4 * (zlen argv + 1) <= ptr < 2 ^ 32 -> mapped m lo ptr ->
  let base := ptr - strings_size argv - 4 * (zlen argv + 1) in
  exists ptrs m1 m2, push_strings argv ptr m = Ok (ptrs, ptr - strings_size argv, m1) /\
    push_pointers (0 :: rev ptrs) (ptr - strings_size argv) m1 = Ok (base, m2) /\
    changed_in m m2 base ptr /\ holds_at m2 base (words_of (ptrs ++ [0])) /\ zlen ptrs = zlen argv /\
    Forall2 (fun p s => string_at m2 p s /\ base <= p < ptr) ptrs argv.
Proof.
  intros Hlo Hp Hm base. pose proof (strings_size_nonneg argv). pose proof (zlen_nonneg argv).
  destruct (push_strings_spec argv ptr m lo) as (ptrs & m1 & E1 & C1 & F1); [done|lia|done|].
  assert (Hz : zlen ptrs = zlen argv) by (unfold zlen; by rewrite (Forall2_length _ _ _ F1)).
  assert (Hz2 : zlen (0 :: rev ptrs) = zlen argv + 1) by (rewrite zlen_cons'; unfold zlen in *; rewrite length_rev; lia).
  destruct (push_pointers_spec (0 :: rev ptrs) (ptr - strings_size argv) m1 lo) as (m2 & E2 & C2 & Hw);
    [done|lia|eapply changed_mapped; [exact C1|]; intros x Hx; apply Hm; lia|].
  rewrite Hz2 in *. fold base in E2, C2, Hw. cbn [rev] in Hw. rewrite rev_involutive in Hw.
  exists ptrs, m1, m2. split_and!; try done.
  - eapply changed_trans; [|exact C1|exact C2]. unfold base. lia.
  - eapply Forall2_impl; [exact F1|]. intros p s [Hs Hr]. split; [|unfold base; lia].
    eapply changed_holds; [exact C2|right; lia|done].
Qed.

Lemma setup_stack_spec argv m m0 :
  um_allocate (STACK_LOCATION - STACK_SIZE) STACK_SIZE m = (true, m0) -> stack_size argv <= STACK_SIZE ->
  let ptr := STACK_LOCATION - stack_size argv in
  exists ptrs m', setup_stack STACK_LOCATION argv m = Ok (Some ptr, m') /\
    changed_in m0 m' ptr STACK_LOCATION /\ holds_at m' ptr (words_of (zlen argv :: (ptr + 8) :: ptrs ++ [0])) /\
    Forall2 (fun p s => string_at m' p s /\ fits 32 p) ptrs argv.
Proof.
  intros Ha Hsz ptr. unfold setup_stack. rewrite Ha.
  pose proof (strings_size_nonneg argv) as Hs0. pose proof (zlen_nonneg argv) as Hn0.
  unfold stack_size, STACK_SIZE, STACK_LOCATION in *.
  assert (Hm : mapped m0 0x8FF80000 0x90000000).
  { intros x Hx. eapply um_allocate_maps; [exact Ha|lia|lia|lia|]. unfold page_of. split; [apply Z.div_le_mono; lia|].
    change ((0x90000000 - 0x80000) / 0x1000 + 0x80000 / 0x1000) with (0x90000000 / 0x1000). apply Z.div_le_mono; lia. }
  destruct (push_args_spec argv 0x90000000 m0 0x8FF80000) as (ptrs & m1 & m2 & -> & E2 & C2 & H2 & Hz & F2); [lia|lia|done|].
  cbn [mbind outcome_bind]. rewrite E2. cbn [mbind outcome_bind].
  replace (0x90000000 - strings_size argv - 4 * (zlen argv + 1)) with (ptr + 8) in * by (unfold ptr; lia).
  rewrite (u32_small (ptr + 8 - 4)) by (unfold ptr; lia). replace (ptr + 8 - 4) with (ptr + 4) by lia. unfold store32.
  destruct (write_bytes_ok m2 (ptr + 4) (le32_bytes (ptr + 8))) as (m3 & -> & H3 & C3).
  { eapply changed_mapped; [exact C2|]. intros x Hx. apply Hm. change (zlen (le32_bytes (ptr + 8))) with 4 in Hx. unfold ptr in *. lia. }
  cbn [mbind outcome_bind]. rewrite (u32_small (ptr + 4 - 4)) by (unfold ptr; lia). replace (ptr + 4 - 4) with ptr by lia.
  change (zlen (le32_bytes (ptr + 8))) with 4 in C3. replace (ptr + 4 + 4) with (ptr + 8) in C3 by lia.
  destruct (write_bytes_ok m3 ptr (le32_bytes (zlen argv))) as (m4 & -> & H4 & C4).
  { eapply changed_mapped; [exact C3|]. eapply changed_mapped; [exact C2|]. intros x Hx. apply Hm.
    change (zlen (le32_bytes (zlen argv))) with 4 in Hx. unfold ptr in *. lia. }
  change (zlen (le32_bytes (zlen argv))) with 4 in C4. cbn [mbind outcome_bind].
  assert (C23 : changed_in m0 m3 (ptr + 4) 0x90000000) by (eapply changed_trans; [|exact C2|exact C3]; unfold ptr; lia).
  exists ptrs, m4. split_and!; [done|eapply changed_trans; [|exact C23|exact C4]; unfold ptr; lia| |].
  - change (words_of (zlen argv :: (ptr + 8) :: ptrs ++ [0])) with (le32_bytes (zlen argv) ++ le32_bytes (ptr + 8) ++ words_of (ptrs ++ [0])).
    apply holds_app; [done|]. change (zlen (le32_bytes (zlen argv))) with 4.
    apply holds_app; [eapply changed_holds; [exact C4|right; lia|done]|].
    change (zlen (le32_bytes (ptr + 8))) with 4. replace (ptr + 4 + 4) with (ptr + 8) by lia.
    eapply changed_holds; [exact C4|right; lia|]. eapply changed_holds; [exact C3|right; lia|done].
  - eapply Forall2_impl; [exact F2|]. intros p s [Hp Hr]. split; [|unfold fits, ptr in *; lia].
    eapply changed_holds; [exact C4|right; unfold ptr in *; lia|]. eapply changed_holds; [exact C3|right; lia|done].
Qed.

(** What [setup_stack] leaves is what a C program expects at its entry.  At the
    stack pointer it gets there is [argc], then the address of an array of [argc] pointers
    to the argument strings that ends in a NULL pointer, and everything above the stack
    pointer, and nothing below it, was written: memory outside the stack is as the
    allocation left it. *)
Lemma setup_stack_passes_arguments argv m m0 :
  um_allocate (STACK_LOCATION - STACK_SIZE) STACK_SIZE m = (true, m0) ->
  Forall (Forall (fun c => c <> 0)) argv -> stack_size argv <= STACK_SIZE ->
  exists ptr m' argv_ptr, setup_stack STACK_LOCATION argv m = Ok (Some ptr, m') /\
    load32 m' ptr = Some (zlen argv) /\ load32 m' (ptr + 4) = Some argv_ptr /\
    load_argv (Z.to_nat (stack_size argv)) (length argv) m' argv_ptr = Some argv /\ load32 m' (argv_ptr + 4 * zlen argv) = Some 0 /\
    STACK_LOCATION - STACK_SIZE <= ptr < STACK_LOCATION /\ forall x, x < ptr \/ STACK_LOCATION <= x -> um_load m' x = um_load m0 x.
Proof.
  intros Ha Hnz Hsz. destruct (setup_stack_spec argv m m0 Ha Hsz) as (ptrs & m' & E & [O _] & Hh & HF).
  set (ptr := STACK_LOCATION - stack_size argv) in *. exists ptr, m', (ptr + 8).
  pose proof (strings_size_nonneg argv) as Hs0. pose proof (zlen_nonneg argv) as Hn0.
  assert (Hz : zlen ptrs = zlen argv) by (unfold zlen; by rewrite (Forall2_length _ _ _ HF)).
  assert (Hb : fits 32 (ptr + 8) /\ 0 <= ptr < 2 ^ 32 /\ fits 32 (zlen argv))
    by (unfold fits, ptr, STACK_LOCATION, STACK_SIZE, stack_size in *; lia).
  destruct Hb as (Hp8 & Hpr & Hf).
  change (words_of (zlen argv :: (ptr + 8) :: ptrs ++ [0])) with (le32_bytes (zlen argv) ++ le32_bytes (ptr + 8) ++ words_of (ptrs ++ [0])) in Hh.
  apply holds_app_inv in Hh as [H1 H2]. apply holds_app_inv in H2 as [H2 H3].
  change (zlen (le32_bytes (zlen argv))) with 4 in *. change (zlen (le32_bytes (ptr + 8))) with 4 in *.
  replace (ptr + 4 + 4) with (ptr + 8) in H3 by lia.
  unfold words_of in H3. rewrite map_app, concat_app in H3. apply holds_app_inv in H3 as [H3 H4].
  fold (words_of ptrs) in H3, H4. rewrite zlen_words, Hz in H4. cbn [map concat] in H4.
  split_and!; [done|by apply load32_holds|by apply load32_holds| | |unfold ptr; lia|unfold ptr, stack_size; lia|done].
  - apply (load_argv_words _ _ _ ptrs); [|eapply Forall2_Forall_l; [exact HF|]; apply Forall_true; by intros ? ? [_ ?]|done|].
    + apply Forall_forall. intros s Hin. split; [by apply (Forall_forall _ argv)|].
      pose proof (strings_fit argv s Hin). unfold stack_size, zlen in *. lia.
    + eapply Forall2_impl; [exact HF|]. by intros ? ? [].
  - apply load32_holds; [done|]. by rewrite app_nil_r in H4.
Qed.
(** ** ELF files *)

Lemma align_page_up x : 0 <= x -> x + 0x1000 < 2 ^ 32 ->
  x <= align_page x < x + 0x1000 /\ align_page x mod 0x1000 = 0.
Proof.
  intros Hx Hs. unfold align_page, PAGE_SIZE. change (0x1000 - 1) with (Z.ones 12). rewrite Z.land_ones by lia.
  change (2 ^ 12) with 0x1000. pose proof (Z.mod_pos_bound x 0x1000). pose proof (Z.div_mod x 0x1000).
  destruct (Z.ltb_spec 0 (x mod 0x1000)); [|split; lia]. rewrite u32_small by lia. split; [lia|].
  replace (x + (0x1000 - x mod 0x1000)) with ((x / 0x1000 + 1) * 0x1000) by lia. by rewrite Z.mod_mul.
Qed.

Definition segment_image (file : list Z) (ph : Elf32_Phdr) : list Z :=
  ztake (p_filesz ph) (zdrop (p_offset ph) file) ++ replicate (Z.to_nat (p_memsz ph - p_filesz ph)) 0.

(** A segment that lies in the address space and in the file. *)
Definition segment_ok (file : list Z) (ph : Elf32_Phdr) : Prop :=
  p_type ph = 1 /\ 0 <= p_vaddr ph /\ 0 <= p_filesz ph <= p_memsz ph /\ p_memsz ph < 2 ^ 31 /\
  p_vaddr ph + p_memsz ph + 0x2000 < 2 ^ 32 /\ 0 <= p_offset ph /\ p_offset ph + p_filesz ph <= zlen file.

Definition segment_end (ph : Elf32_Phdr) : Z := p_vaddr ph + p_memsz ph.

Lemma zlen_image file ph : segment_ok file ph -> zlen (segment_image file ph) = p_memsz ph.
Proof.
  intros (_ & Hv & Hf & Hm & _ & Ho & Hl). unfold segment_image. rewrite zlen_app, zlen_ztake; [|rewrite zlen_zdrop; lia].
  unfold zlen. rewrite length_replicate. lia.
Qed.

(** The pages of a segment are mapped after the allocation. *)
Lemma segment_mapped file ph m m' : segment_ok file ph ->
  um_allocate (p_vaddr ph) (u32 (u32 (align_page (u32 (segment_end ph)) - (p_vaddr ph - p_vaddr ph mod 0x1000)) / 0x1000 * 0x1000)) m = (true, m') ->
  mapped m' (p_vaddr ph) (segment_end ph).
Proof.
  intros (_ & Hv & Hf & Hm & Hs & _) Ha x Hx. unfold segment_end in *. rewrite (u32_small (_ + _)) in Ha by lia.
  destruct (align_page_up (p_vaddr ph + p_memsz ph)) as [Hal Hmod]; [lia|lia|].
  set (e := align_page (p_vaddr ph + p_memsz ph)) in *. pose proof (Z.mod_pos_bound (p_vaddr ph) 0x1000).
  pose proof (Z.div_mod (p_vaddr ph) 0x1000) as Hdm. pose proof (Z.div_mod e 0x1000) as Hde.
  replace (e - (p_vaddr ph - p_vaddr ph mod 0x1000)) with ((e / 0x1000 - p_vaddr ph / 0x1000) * 0x1000) in Ha by lia.
  rewrite (u32_small ((_ - _) * _)), Z.div_mul, u32_small in Ha by lia.
  eapply um_allocate_maps; [exact Ha|lia|lia|lia|]. unfold page_of. rewrite Z.div_mul by lia.
  split; [apply Z.div_le_mono; lia|]. replace (p_vaddr ph / 0x1000 + (e / 0x1000 - p_vaddr ph / 0x1000)) with (e / 0x1000) by lia.
  apply Z.div_le_mono; lia.
Qed.

Lemma load_segment_spec file ph e m m0 : segment_ok file ph ->
  um_allocate (p_vaddr ph) (u32 (u32 (align_page (u32 (segment_end ph)) - (p_vaddr ph - p_vaddr ph mod 0x1000)) / 0x1000 * 0x1000)) m = (true, m0) ->
  exists m', load_segment file ph e m = Ok (Some (Z.max e (segment_end ph)), m') /\
    holds_at m' (p_vaddr ph) (segment_image file ph) /\ changed_in m0 m' (p_vaddr ph) (segment_end ph).
Proof.
  intros Hok Ha. pose proof (segment_mapped file ph m m0 Hok Ha) as Hm. pose proof Hok as (Ht & Hv & Hf & Hms & Hs & Ho & Hl).
  unfold load_segment. rewrite Ht. cbn [c_assert mbind outcome_bind Z.eqb Pos.eqb]. fold (segment_end ph). rewrite Ha.
  rewrite (u32_small (segment_end ph)) by (unfold segment_end; lia).
  destruct (write_bytes_ok m0 (p_vaddr ph) (replicate (Z.to_nat (p_memsz ph)) 0)) as (m1 & -> & H1 & C1).
  { unfold zlen. rewrite length_replicate, Z2Nat.id by lia. exact Hm. }
  unfold zlen in C1. rewrite length_replicate, Z2Nat.id in C1 by lia. fold (segment_end ph) in C1. cbn [mbind outcome_bind file_pread].
  set (d := ztake (p_filesz ph) (zdrop (p_offset ph) file)).
  assert (Hd : zlen d = p_filesz ph) by (unfold d; rewrite zlen_ztake; [done|rewrite zlen_zdrop; lia]).
  destruct (write_bytes_ok m1 (p_vaddr ph) d) as (m2 & -> & H2 & C2).
  { eapply changed_mapped; [exact C1|]. intros x Hx. apply Hm. unfold segment_end. lia. }
  cbn [mbind outcome_bind]. rewrite Hd, Z.eqb_refl in *. cbn [c_assert mbind outcome_bind]. exists m2. split_and!.
  - do 3 f_equal. destruct (Z.ltb_spec e (segment_end ph)); lia.
  - unfold segment_image. fold d. apply holds_app; [done|]. rewrite Hd. intros k Hk.
    unfold zlen in Hk. rewrite length_replicate in Hk. destruct C2 as [O2 _]. rewrite O2 by lia.
    replace (p_vaddr ph + p_filesz ph + k) with (p_vaddr ph + (p_filesz ph + k)) by lia.
    rewrite H1 by (unfold zlen; rewrite length_replicate; lia). unfold znth.
    rewrite (proj2 (Z.leb_le _ _)), (proj2 (Z.leb_le 0 k)) by lia. rewrite !lookup_replicate_2 by lia. done.
  - destruct C1 as [O1 I1], C2 as [O2 I2]. split; [|by auto]. intros x Hx. unfold segment_end in *. rewrite O2, O1 by lia. done.
Qed.

(** [ph] is at [off] in the table of the file. *)
Definition phdr_at (file : list Z) (off : Z) (ph : Elf32_Phdr) : Prop :=
  0 <= off /\ off + phdr_size <= zlen file /\ parse_phdr (ztake phdr_size (zdrop off file)) = Ok ph.

Definition apart (p q : Elf32_Phdr) : Prop := segment_end p <= p_vaddr q \/ segment_end q <= p_vaddr p.

Fixpoint table_at (file : list Z) (off : Z) (phs : list Elf32_Phdr) : Prop :=
  match phs with
  | [] => True
  | ph :: phs => phdr_at file off ph /\ segment_ok file ph /\ Forall (apart ph) phs /\ table_at file (off + phdr_size) phs
  end.

Definition code_end (phs : list Elf32_Phdr) (e : Z) : Z := fold_left (fun e ph => Z.max e (segment_end ph)) phs e.

(** What the segments do not cover stays. *)
Lemma load_segments_spec phs file buf off e m : zlen file < 2 ^ 31 -> zlen buf = phdr_size ->
  (forall p n m, exists m', um_allocate p n m = (true, m')) -> table_at file off phs ->
  exists m', load_segments (length phs) file buf off e m = Ok (Some (code_end phs e), m') /\
    Forall (fun ph => holds_at m' (p_vaddr ph) (segment_image file ph)) phs /\
    forall x v, um_load m x = Some v -> Forall (fun ph => x < p_vaddr ph \/ segment_end ph <= x) phs -> um_load m' x = Some v.
Proof.
  intros Hf Hbuf Hal. revert buf off e m Hbuf. induction phs as [|ph phs IH]; intros buf off e m Hbuf HT.
  { exists m. split_and!; [done|constructor|done]. }
  destruct HT as ((Ho & Hl & Hp) & Hok & Hap & HT). unfold phdr_size in *. cbn [length load_segments file_pread].
  change phdr_size with 32 in *.
  assert (Hd : zlen (ztake 32 (zdrop off file)) = 32) by (rewrite zlen_ztake; [done|rewrite zlen_zdrop; lia]).
  rewrite Hd. cbn [Z.leb Z.compare]. assert (Hdrop : zdrop 32 buf = []) by (apply drop_ge; unfold zlen in Hbuf; lia). rewrite Hdrop.
  rewrite app_nil_r, Hp. cbn [mbind outcome_bind].
  edestruct Hal as (m0 & Ha). destruct (load_segment_spec file ph e m m0 Hok Ha) as (m1 & -> & H1 & C1). cbn [mbind outcome_bind].
  rewrite u32_small by lia. destruct (IH (ztake 32 (zdrop off file)) (off + 32) (Z.max e (segment_end ph)) m1 Hd HT) as (m2 & -> & H2 & K2).
  exists m2. split_and!; [done| |].
  - constructor; [|done]. intros k Hk. pose proof (zlen_image file ph Hok) as Hz.
    rewrite <- (H1 k Hk). destruct (um_load m1 (p_vaddr ph + k)) as [v|] eqn:Ev.
    + apply K2; [done|]. eapply Forall_impl; [exact Hap|]. intros q Hq. unfold apart, segment_end in *. lia.
    + exfalso. rewrite H1 in Ev by done. destruct (znth_Some (segment_image file ph) k) as [w Hw]; [lia|congruence].
  - intros x v Hx HF. apply Forall_cons in HF as [Hout HF]. apply K2; [|done]. destruct C1 as [O1 _]. rewrite O1 by lia.
    by eapply um_allocate_keeps.
Qed.

(** [load_elf_file] on a well-formed file whose segments do not overlap, with memory
    for all of them, puts every segment at its address, the bytes of the file followed by
    zeros up to [p_memsz], returns the entry point and the first address after all
    segments, and leaves memory that belongs to no segment as it was. *)
Lemma load_elf_places_segments junk file phs entry phoff m :
  zlen junk = phdr_size -> ehdr_size <= zlen file < 2 ^ 31 -> ztake 4 file = ELF_MAGIC ->
  le32_at file 24 = Ok entry -> le32_at file 28 = Ok phoff -> le16_at file 42 = Ok phdr_size -> le16_at file 44 = Ok (zlen phs) ->
  table_at file phoff phs -> (forall p n m, exists m', um_allocate p n m = (true, m')) ->
  exists m', load_elf_file junk (Some file) m = Ok (Some (entry, code_end phs 0), m') /\
    Forall (fun ph => holds_at m' (p_vaddr ph) (segment_image file ph)) phs /\
    forall x v, um_load m x = Some v -> Forall (fun ph => x < p_vaddr ph \/ segment_end ph <= x) phs -> um_load m' x = Some v.
Proof.
  intros Hj Hlen Hmag He Hpo Hps Hpn HT Hal. unfold load_elf_file, file_pread. change (zdrop 0 file) with file.
  unfold ehdr_size in *. assert (Hh : zlen (ztake 52 file) = 52) by (rewrite zlen_ztake; lia). rewrite Hh. cbn [Z.eqb Pos.eqb negb].
  assert (Hb : forall i, 0 <= i < 52 -> byte_of (ztake 52 file) i = byte_of file i).
  { intros i Hi. apply byte_of_ext. rewrite <- (ztake_zdrop 52 file) at 2. by rewrite znth_app_l by lia. }
  rewrite !le32_at_word in He, Hpo by lia. rewrite !le16_at_half in Hps, Hpn by lia.
  rewrite !le32_at_word, !le16_at_half by lia. unfold word, half in *. rewrite !Hb by lia.
  injection He as ->. injection Hpo as ->. injection Hps as ->. injection Hpn as ->.
  replace (ztake 4 (ztake 52 file)) with (ztake 4 file) by (unfold ztake; rewrite take_take; done).
  rewrite bool_decide_eq_true_2 by done. cbn [negb mbind outcome_bind]. rewrite Z.eqb_refl. cbn [c_assert mbind outcome_bind].
  assert (Hn : Z.to_nat (zlen phs) = length phs) by (unfold zlen; lia). rewrite Hn.
  destruct (load_segments_spec phs file junk phoff 0 m) as (m' & -> & HF & HK); [lia|done|done|done|]. by exists m'.
Qed.
End Laws.

(** ** Scripts *)

Lemma split_line_finds interp rest rc new_argv : forall i fuel,
  Forall (fun c => c <> 10 /\ c <> 32) interp -> 0 <= i <= zlen interp -> zlen interp < rc ->
  (Z.to_nat (zlen interp - i) < fuel)%nat -> 0 < zlen new_argv ->
  split_line fuel (interp ++ 10 :: rest) rc i 0 new_argv 0 =
    Ok (interp ++ 0 :: rest, <[0%nat := Some (InBuffer 0)]> new_argv, 1).
Proof.
  intros i fuel Hc. revert i. induction fuel as [|fuel IH]; intros i Hi Hrc Hf Ha; [lia|]. cbn [split_line].
  destruct (Z.leb_spec rc i); [lia|]. unfold aread. destruct (Z.eq_dec i (zlen interp)) as [->|Hne].
  - rewrite znth_app_r, Z.sub_diag by lia. cbn [znth Z.leb Z.compare Z.to_nat lookup list_lookup deref mbind outcome_bind Z.eqb Pos.eqb].
    unfold awrite, push_arg. rewrite (proj2 (Z.leb_le 0 (zlen interp))) by lia.
    assert (Hl : (zlen interp <? zlen (interp ++ 10 :: rest)) = true)
      by (apply Z.ltb_lt; rewrite zlen_app, zlen_cons'; pose proof (zlen_nonneg rest); lia).
    rewrite Hl. cbn [andb mbind outcome_bind]. unfold awrite. cbn [Z.leb Z.compare andb].
    rewrite (proj2 (Z.ltb_lt 0 (zlen new_argv))) by done. cbn [mbind outcome_bind]. repeat f_equal.
    unfold zlen. rewrite Nat2Z.id. rewrite insert_app_r_alt, Nat.sub_diag by lia. done.
  - rewrite znth_app_l by lia. destruct (znth_Some interp i) as [c Ec]; [lia|]. rewrite Ec. cbn [deref mbind outcome_bind].
    assert (c <> 10 /\ c <> 32) as [H1 H2].
    { unfold znth in Ec. destruct (0 <=? i); [|done]. by apply (Forall_lookup_1 _ _ _ _ Hc Ec). }
    rewrite (proj2 (Z.eqb_neq c 10) H1), (proj2 (Z.eqb_neq c 32) H2). apply IH; lia.
Qed.

Lemma copy_args_spec argv : forall i l1 l2 n,
  zlen l1 = n -> n = 2 + i -> 0 <= i -> i + zlen argv <= 127 -> zlen l1 + zlen l2 = 256 -> zlen argv <= zlen l2 ->
  copy_args argv i (l1 ++ l2) n = Ok (l1 ++ (Some ∘ Other <$> argv) ++ zdrop (zlen argv) l2, n + zlen argv).
Proof.
  induction argv as [|s argv IH]; intros i l1 l2 n Hn Hi H0 H1 H2 H3; cbn [copy_args].
  { change (zlen []) with 0. rewrite Z.add_0_r. done. }
  rewrite zlen_cons' in *. pose proof (zlen_nonneg argv). rewrite (proj2 (Z.ltb_lt i (256 - n))) by lia.
  destruct l2 as [|x l2]; [change (zlen []) with 0 in *; lia|]. rewrite zlen_cons' in *.
  unfold push_arg, awrite. rewrite zlen_app, zlen_cons', (proj2 (Z.leb_le 0 n)), (proj2 (Z.ltb_lt n _)) by (pose proof (zlen_nonneg l2); lia). cbn [andb mbind outcome_bind].
  assert (E : <[Z.to_nat n := Some (Other s)]> (l1 ++ x :: l2) = (l1 ++ [Some (Other s)]) ++ l2).
  { rewrite <- Hn. unfold zlen. rewrite Nat2Z.id. rewrite insert_app_r_alt, Nat.sub_diag, <- app_assoc by lia. done. }
  rewrite E, (IH (i + 1) (l1 ++ [Some (Other s)]) l2 (n + 1)); try (rewrite ?zlen_app, ?zlen_cons'; change (zlen []) with 0; lia).
  rewrite <- app_assoc, <- Z.add_assoc. cbn [app fmap list_fmap]. do 5 f_equal.
  unfold zdrop. replace (Z.to_nat (1 + zlen argv)) with (S (Z.to_nat (zlen argv))) by lia. done.
Qed.

Lemma string_from_app s l : Forall (fun c => c <> 0) s -> string_from (s ++ 0 :: l) = s.
Proof. induction 1 as [|c s Hc _ IH]; [done|]. cbn [app string_from]. by rewrite (proj2 (Z.eqb_neq c 0) Hc), IH. Qed.

Lemma omap_args buf (argv : list (list Z)) : omap (arg_string buf) (Some ∘ Other <$> argv) = argv.
Proof. induction argv as [|s argv IH]; [done|]. cbn in *. by rewrite IH. Qed.

(** A script whose first line is ["#!"] and the path of an interpreter without
    arguments is run by the interpreter, with the script's name as the first argument after
    the interpreter and the caller's arguments behind it, at most 127 of them. *)
Lemma exec_shebang_interpreter interp rest filename argv :
  Forall (fun c => c <> 0 /\ c <> 10 /\ c <> 32) interp -> zlen interp < 8191 -> zlen argv <= 127 ->
  exec_shebang (Some ([35; 33] ++ interp ++ 10 :: rest)) filename argv = Ok (Some (interp :: filename :: argv)).
Proof.
  intros Hc Hi Ha. unfold exec_shebang, file_pread.
  change (ztake 2 (zdrop 0 ([35; 33] ++ interp ++ 10 :: rest))) with [35; 33]. change (zlen [35; 33] =? 2) with true. cbn [negb].
  rewrite bool_decide_eq_true_2 by done. cbn [negb].
  change (zdrop 2 ([35; 33] ++ interp ++ 10 :: rest)) with (interp ++ 10 :: rest). pose proof (zlen_nonneg interp) as Hi0.
  assert (E : exists r, ztake (8192 - 1) (interp ++ 10 :: rest) = interp ++ 10 :: r).
  { exists (take (Z.to_nat 8190 - length interp) rest). unfold ztake, zlen in *. rewrite take_app_ge by lia.
    replace (Z.to_nat (8192 - 1) - length interp)%nat with (S (Z.to_nat 8190 - length interp)) by lia. done. }
  destruct E as [r ->]. assert (Hz : zlen (interp ++ 10 :: r) = zlen interp + 1 + zlen r) by (rewrite zlen_app, zlen_cons'; lia).
  rewrite Hz. pose proof (zlen_nonneg r). destruct (Z.eqb_spec (zlen interp + 1 + zlen r) 0); [lia|].
  set (pad := replicate _ 0). rewrite <- app_assoc. cbn [app]. rewrite split_line_finds; [| |lia|lia|lia|done].
  2: { eapply Forall_impl; [exact Hc|]. by intros c (? & ? & ?). }
  cbn [mbind outcome_bind]. set (buf := interp ++ 0 :: r ++ pad).
  change (push_arg (<[0%nat:=Some (InBuffer 0)]> (replicate 256 None)) 1 (Other filename))
    with (Ok ([Some (InBuffer 0); Some (Other filename)] ++ replicate 254 (@None arg_ptr))).
  cbn [mbind outcome_bind]. change (1 + 1) with 2. rewrite (copy_args_spec argv 0); try done; try lia; [|by change (zlen (replicate 254 None)) with 254; lia].
  cbn [mbind outcome_bind]. set (front := [Some (InBuffer 0); Some (Other filename)] ++ (Some ∘ Other <$> argv)).
  assert (Hfr : zlen front = 2 + zlen argv) by (unfold front, zlen; rewrite length_app, length_fmap; cbn [length]; lia).
  rewrite app_assoc. fold front. unfold awrite.
  assert (Hl : zlen (zdrop (zlen argv) (replicate 254 (@None arg_ptr))) = 254 - zlen argv).
  { pose proof (zlen_nonneg argv). rewrite zlen_zdrop; change (zlen (replicate 254 None)) with 254; lia. }
  pose proof (zlen_nonneg argv). rewrite zlen_app, Hfr, Hl, (proj2 (Z.leb_le 0 _)), (proj2 (Z.ltb_lt _ _)) by lia.
  cbn [andb mbind outcome_bind]. do 2 f_equal. rewrite <- Hfr. unfold ztake, zlen. rewrite Nat2Z.id.
  rewrite insert_app_r_alt, take_app_length by lia. unfold front.
  cbn [app omap list_omap arg_string]. change (zdrop 0 buf) with buf. unfold buf at 1.
  rewrite string_from_app by (eapply Forall_impl; [exact Hc|]; by intros c (? & ? & ?)).
  rewrite <- (omap_args buf argv) at 2. done.
Qed.

(** ** The whole of [exec] *)

Section Starts.
Context {M : Type} `{UserMemoryLaws M} (files : list Z -> option (list Z)) (junk names : list Z).
Implicit Types (m : M).

(** A loadable program: what [load_elf_places_segments] asks of a file, below the stack. *)
Definition program (file : list Z) (entry phoff : Z) (phs : list Elf32_Phdr) : Prop :=
  ehdr_size <= zlen file < 2 ^ 31 /\ ztake 4 file = ELF_MAGIC /\ entry <> 0 /\
  le32_at file 24 = Ok entry /\ le32_at file 28 = Ok phoff /\ le16_at file 42 = Ok phdr_size /\ le16_at file 44 = Ok (zlen phs) /\
  table_at file phoff phs /\ Forall (fun ph => segment_end ph <= STACK_LOCATION - STACK_SIZE) phs.

Lemma table_segments file off phs : table_at file off phs -> Forall (segment_ok file) phs.
Proof. revert off. induction phs as [|ph phs IH]; intros off; [constructor|]. intros (_ & Hok & _ & HT). constructor; [done|by eapply IH]. Qed.

Lemma name_stored filename : zlen names = program_name_size + 256 -> Forall (fun c => c <> 0) filename ->
  zlen filename < program_name_size ->
  strlcpy names (filename ++ [0]) program_name_size = Ok (splice names 0 (filename ++ [0]), zlen filename).
Proof.
  intros Hn Hf Hl. change program_name_size with 100 in *.
  apply strlcpy_strlcat_fit; [by exists []|lia|lia|done].
Qed.

(** C21: [exec] of a loadable program whose file name fits [program_name], with enough
    memory, starts it at its entry point with what a C program expects, and stores the
    name.  Every segment is at its address, the bytes of the file
    followed by zeros up to [p_memsz]; at the stack pointer are [argc] and the address of an
    array of [argc] pointers to the argument strings, which ends in a NULL pointer. *)
Theorem exec_starts_program fuel filename file entry phoff phs argv m :
  zlen junk = phdr_size -> zlen names = program_name_size + 256 ->
  Forall (fun c => c <> 0) filename -> zlen filename < program_name_size ->
  (forall p n m, exists m', um_allocate p n m = (true, m')) ->
  files filename = Some file -> program file entry phoff phs ->
  Forall (Forall (fun c => c <> 0)) argv -> stack_size argv <= STACK_SIZE ->
  exists data_end ptr m' argv_ptr,
    exec files junk names (S fuel) filename argv m = Ok (Started (splice names 0 (filename ++ [0])) data_end entry ptr m') /\
    data_end = align_page (code_end phs 0) /\
    Forall (fun ph => holds_at m' (p_vaddr ph) (segment_image file ph)) phs /\
    load32 m' ptr = Some (zlen argv) /\ load32 m' (ptr + 4) = Some argv_ptr /\
    load_argv (Z.to_nat (stack_size argv)) (length argv) m' argv_ptr = Some argv /\
    load32 m' (argv_ptr + 4 * zlen argv) = Some 0.
Proof.
  intros Hj Hn Hfn Hfl Hal Hf (Hlen & Hmag & Hne & He & Hpo & Hps & Hpn & HT & Hlow) Hnz Hsz.
  destruct (load_elf_places_segments junk file phs entry phoff m) as (m1 & E1 & HF & _); try done.
  cbn [exec]. rewrite Hf, E1. cbn [mbind outcome_bind]. rewrite (proj2 (Z.eqb_neq entry 0) Hne), name_stored by done. cbn [mbind outcome_bind].
  destruct (Hal (STACK_LOCATION - STACK_SIZE) STACK_SIZE m1) as (m2 & Ha).
  destruct (setup_stack_passes_arguments argv m1 m2 Ha Hnz Hsz) as (ptr & m3 & q & -> & A1 & A2 & A3 & A4 & Hp & O).
  cbn [mbind outcome_bind]. exists (align_page (code_end phs 0)), ptr, m3, q. split_and!; try done.
  apply Forall_forall. intros ph Hin k Hk. rewrite Forall_forall in HF, Hlow.
  pose proof (table_segments _ _ _ HT) as Hoks. rewrite Forall_forall in Hoks. pose proof (zlen_image file ph (Hoks ph Hin)) as Hz.
  specialize (HF ph Hin k Hk). specialize (Hlow ph Hin). unfold segment_end in Hlow.
  destruct (znth_Some (segment_image file ph) k Hk) as [v Hv]. rewrite Hv in *.
  rewrite O by (left; lia). by eapply um_allocate_keeps.
Qed.

(** A script is run by its interpreter. *)
Lemma exec_of_script fuel filename interp rest argv m :
  Forall (fun c => c <> 0 /\ c <> 10 /\ c <> 32) interp -> zlen interp < 8191 -> zlen argv <= 127 ->
  files filename = Some ([35; 33] ++ interp ++ 10 :: rest) ->
  exec files junk names (S (S fuel)) filename argv m =
    (r ← exec files junk names fuel interp (interp :: filename :: argv) m;
     match r with
     | Returned rc m => if rc =? 0 then Ok (Returned 0 m) else Ok (Returned (- ENOEXEC) m)
     | Started _ _ _ _ _ => Ok r
     end).
Proof.
  intros Hi Hl Ha Hf. cbn [exec]. rewrite Hf.
  assert (E : load_elf_file junk (Some ([35; 33] ++ interp ++ 10 :: rest)) m = Ok (None, m)).
  { unfold load_elf_file. destruct (file_pread _ _ _) as [rc h] eqn:Eh. destruct (negb (rc =? ehdr_size)); [done|].
    unfold file_pread in Eh. injection Eh as <- <-.
    rewrite bool_decide_eq_false_2; [done|]. cbn [app zdrop Z.to_nat drop ehdr_size ztake Pos.to_nat Pos.iter_op Nat.add take]. discriminate. }
  rewrite E. cbn [mbind outcome_bind exec_script]. rewrite ?Hf, exec_shebang_interpreter by done. done.
Qed.

Lemma exec_S fuel filename argv m :
  exec files junk names (S fuel) filename argv m =
    ('(r, m) ← load_elf_file junk (files filename) m;
     match r with
     | Some (entry, end_of_code) =>
       if entry =? 0 then exec_script files junk names fuel filename argv m else
       '(names, _) ← strlcpy names (filename ++ [0]) program_name_size;
       '(ptr, m') ← setup_stack STACK_LOCATION argv m;
       match ptr with
       | None => Ok (Returned 0 m')
       | Some ptr => Ok (Started names (align_page end_of_code) entry ptr m')
       end
     | None => exec_script files junk names fuel filename argv m
     end).
Proof. done. Qed.

Lemma exec_script_S fuel filename argv m :
  exec_script files junk names (S fuel) filename argv m =
    (a ← exec_shebang (files filename) filename argv;
     match a with
     | None => Ok (Returned 0 m)
     | Some new_argv =>
       new0 ← aread new_argv 0;
       r ← exec files junk names fuel new0 new_argv m;
       match r with
       | Returned rc m => if rc =? 0 then Ok (Returned 0 m) else Ok (Returned (- ENOEXEC) m)
       | Started _ _ _ _ _ => Ok r
       end
     end).
Proof. done. Qed.

(** [exec] reports every failure as 0: [-ENOEXEC] is returned only when the call for the
    interpreter returned something else. *)
Lemma exec_returns_zero fuel filename argv m rc m' :
  exec files junk names fuel filename argv m = Ok (Returned rc m') \/ exec_script files junk names fuel filename argv m = Ok (Returned rc m') -> rc = 0.
Proof.
  revert filename argv m rc m'. induction fuel as [|fuel IH]; intros filename argv m rc m'; [by intros [|]|].
  rewrite exec_S, exec_script_S. intros [E|E].
  - destruct (load_elf_file _ _ _) as [[r m1]| | |]; try done. cbn [mbind outcome_bind] in E.
    destruct r as [[entry e]|]; [|by eapply IH; right]. destruct (entry =? 0); [by eapply IH; right|].
    destruct (strlcpy _ _ _) as [[names' len]| | |]; try done. cbn [mbind outcome_bind] in E.
    destruct (setup_stack _ _ _) as [[[ptr|] m2]| | |]; cbn in E; by simplify_eq.
  - destruct (exec_shebang _ _ _) as [[a|]| | |]; cbn [mbind outcome_bind] in E; simplify_eq; [|done].
    destruct (aread a 0) as [n| | |]; try done. cbn [mbind outcome_bind] in E.
    destruct (exec _ _ _ fuel n a m) as [[|rc1 m1]| | |] eqn:E1; cbn [mbind outcome_bind] in E; simplify_eq.
    rewrite (IH n a m rc1 m1) in E by (by left). cbn in E. by simplify_eq.
Qed.
End Starts.

(** ** A memory *)

(** Ranges of mapped pages, and the bytes that are not zero. *)
Record flat : Type := mkFlat { ranges : list (Z * Z); cells : gmap Z Z }.

Definition in_ranges (l : list (Z * Z)) (p : Z) : bool := existsb (fun r => (r.1 <=? p) && (p <=? r.2)) l.

Global Instance flat_memory : UserMemory flat := {
  um_load m a := if in_ranges (ranges m) (page_of a) then Some (default 0 (cells m !! a)) else None;
  um_store m a v := if in_ranges (ranges m) (page_of a) then Some (mkFlat (ranges m) (<[a := v]> (cells m))) else None;
  um_allocate p n m := (true, mkFlat ((page_of p, page_of p + n / 0x1000) :: ranges m) (cells m))
}.

Global Instance flat_laws : UserMemoryLaws flat.
Proof.
  split.
  - intros [r c] a v. cbn -[page_of in_ranges]. destruct (in_ranges r (page_of a)) eqn:E; [|by intros [? ?]]. intros _.
    eexists. split; [done|]. cbn -[page_of in_ranges].
    rewrite E, lookup_insert_eq. split; [done|]. intros b Hb. destruct (in_ranges r (page_of b)); [|done]. by rewrite lookup_insert_ne by congruence.
  - intros p n [r c] m' a v [= <-]. cbn -[page_of in_ranges]. unfold in_ranges. cbn [existsb].
    destruct (existsb _ r) eqn:E; [|done]. by rewrite orb_true_r.
  - intros p n [r c] m' a [= <-] Hn Hp Hs [H1 H2]. cbn -[page_of].
    rewrite (proj2 (Z.leb_le _ _) H1), (proj2 (Z.leb_le _ _) H2). done.
Qed.

(** A file with two segments, of 4 bytes at 0x1000 (8 in memory) and 2 bytes at 0x3000. *)
Definition sample_elf : list Z :=
  ELF_MAGIC ++ replicate 20 0 ++ le32_bytes 0x1000 ++ le32_bytes 52 ++ replicate 10 0 ++ [32; 0; 2; 0] ++ replicate 6 0 ++
  le32_bytes 1 ++ le32_bytes 116 ++ le32_bytes 0x1000 ++ le32_bytes 0 ++ le32_bytes 4 ++ le32_bytes 8 ++ replicate 8 0 ++
  le32_bytes 1 ++ le32_bytes 120 ++ le32_bytes 0x3000 ++ le32_bytes 0 ++ le32_bytes 2 ++ le32_bytes 2 ++ replicate 8 0 ++
  [1; 2; 3; 4; 5; 6].

Definition sample_phdrs : list Elf32_Phdr := [mkPhdr 1 116 0x1000 4 8; mkPhdr 1 120 0x3000 2 2].

Definition sample_files (f : list Z) : option (list Z) :=
  if bool_decide (f = [108; 115]) then Some sample_elf
  else if bool_decide (f = [115]) then Some [35; 33; 115; 10]
  else if bool_decide (f = [120]) then Some [35; 33; 108; 115; 10] else None.

Lemma sample_table : table_at sample_elf 52 sample_phdrs.
Proof.
  cbn [table_at sample_phdrs]. unfold phdr_at, segment_ok, apart, segment_end. change (zlen sample_elf) with 122.
  change phdr_size with 32. cbn [p_type p_offset p_vaddr p_filesz p_memsz].
  repeat split; try lia; repeat constructor; cbn [p_vaddr p_memsz]; lia.
Qed.

(** The names of a process with the root ["/"]. *)
Definition sample_names : list Z := replicate 100 0 ++ 47 :: replicate 255 0.

Lemma exec_starts_program_witness :
  exists data_end ptr m' argv_ptr,
    exec sample_files (replicate 32 0xAA) sample_names 1 [108; 115] [[108; 115]; [45; 108]; []] (mkFlat [] ∅) =
      Ok (Started ([108; 115] ++ replicate 98 0 ++ 47 :: replicate 255 0) data_end 0x1000 ptr m') /\
    load32 m' ptr = Some 3 /\ load32 m' (ptr + 4) = Some argv_ptr /\
    load_argv 31 3 m' argv_ptr = Some [[108; 115]; [45; 108]; []].
Proof.
  destruct (exec_starts_program sample_files (replicate 32 0xAA) sample_names 0 [108; 115] sample_elf 0x1000 52 sample_phdrs
    [[108; 115]; [45; 108]; []] (mkFlat [] ∅)) as (e & ptr & m' & q & E & _ & _ & H1 & H2 & H3 & _).
  - reflexivity.
  - reflexivity.
  - repeat constructor; lia.
  - reflexivity.
  - intros p n m. eexists. reflexivity.
  - reflexivity.
  - unfold program. change (zlen sample_elf) with 122. change ehdr_size with 52.
    refine (conj _ (conj eq_refl (conj _ (conj eq_refl (conj eq_refl (conj eq_refl (conj eq_refl (conj sample_table _)))))))); [lia|lia|].
    repeat constructor; vm_compute; congruence.
  - repeat constructor; lia.
  - vm_compute. congruence.
  - exists e, ptr, m', q. split; [exact E|]. split; [exact H1|]. split; [exact H2|exact H3].
Defined.

(** The script ["x"], whose first line is ["#!ls"]. *)
Example script_runs :
  match exec sample_files (replicate 32 0xAA) sample_names 3 [120] [[120]; [97]] (mkFlat [] ∅) with
  | Ok (Started name _ entry ptr m) => ztake 3 name = [108; 115; 0] /\ entry = 0x1000 /\ load32 m ptr = Some 4
  | _ => False
  end.
Proof. vm_compute. done. Qed.

(** ** Behaviour that is not as meant *)

(** The [strlcpy] of the kernel stores its terminator behind a name of 100 characters or
    more: the root directory of the process becomes the empty string. *)
Lemma long_name_clears_root names filename : zlen names = program_name_size + 256 ->
  Forall (fun c => c <> 0) filename -> program_name_size <= zlen filename ->
  exists names' n, strlcpy names (filename ++ [0]) program_name_size = Ok (names', n) /\
    znth names' program_name_size = Some 0.
Proof.
  intros Hn Hf Hl. change program_name_size with 100 in *. unfold strlcpy.
  rewrite strlcpy_loop_full by (done || zlia). cbn [mbind outcome_bind].
  assert (Ht : zlen (take (Z.to_nat 100) filename) = 100) by zlia.
  change (100 =? 0) with false. cbn iota.
  assert (Hz : zlen (splice names 0 (take (Z.to_nat 100) filename)) = 356) by (rewrite zlen_splice by zlia; lia).
  rewrite awrite_ok by lia. cbn [mbind outcome_bind].
  assert (Hc : cstr (drop (Z.to_nat 100) filename ++ [0]) (drop (Z.to_nat 100) filename)) by (exists []; split; [done|by apply Forall_drop]).
  rewrite (strlen_spec _ _ Hc). cbn [mbind outcome_bind]. do 2 eexists. split; [done|].
  rewrite znth_insert by lia. by rewrite Z.eqb_refl.
Qed.

Example long_name_exec :
  match exec (fun _ => Some sample_elf) (replicate 32 0) sample_names 1 (replicate 120 97) [] (mkFlat [] ∅) with
  | Ok (Started names _ _ _ _) => znth sample_names 100 = Some 47 /\ znth names 100 = Some 0
  | _ => False
  end.
Proof. vm_compute. done. Qed.

(** An argument on the first line is lost: [start] points at the byte that was just
    overwritten, so ["#!sh -e"] passes an empty string in place of ["-e"]. *)
Example shebang_argument_lost :
  exec_shebang (Some [35; 33; 115; 104; 32; 45; 101; 10]) [102] [] = Ok (Some [[115; 104]; []; [102]]).
Proof. reflexivity. Qed.

(** A first line of 300 words is stored past the 256 pointers of [new_argv]. *)
Example shebang_overruns : exec_shebang (Some ([35; 33] ++ replicate 300 32 ++ [10])) [102] [] = Fault.
Proof. vm_compute. reflexivity. Qed.

(** Nothing keeps the address of a segment out of the kernel: a file can overwrite any
    mapped page, here one at 0xC0000000. *)
Example elf_overwrites_kernel :
  let elf := ELF_MAGIC ++ replicate 20 0 ++ le32_bytes 0 ++ le32_bytes 52 ++ replicate 10 0 ++ [32; 0; 1; 0] ++ replicate 6 0 ++
    le32_bytes 1 ++ le32_bytes 84 ++ le32_bytes 0xC0000000 ++ le32_bytes 0 ++ le32_bytes 1 ++ le32_bytes 1 ++ replicate 8 0 ++ [0x90] in
  let kernel := mkFlat [(0xC0000, 0xC0000)] {[0xC0000000 := 0x55]} in
  match load_elf_file (replicate 32 0) (Some elf) kernel with
  | Ok (Some _, m) => um_load kernel 0xC0000000 = Some 0x55 /\ um_load m 0xC0000000 = Some 0x90
  | _ => False
  end.
Proof. vm_compute. done. Qed.

(** A script that is its own interpreter is executed again and again, every time deeper
    on the kernel stack. *)
Example self_script_recurses : exec sample_files (replicate 32 0) sample_names 300 [115] [[115]] (mkFlat [] ∅) = NoFuel.
Proof. vm_compute. reflexivity. Qed.

(** A file that does not exist is reported like a success, as 0. *)
Example missing_file_returns_zero : exec sample_files (replicate 32 0) sample_names 2 [121] [] (mkFlat [] ∅) = Ok (Returned 0 (mkFlat [] ∅)).
Proof. reflexivity. Qed.
