(* ===== verification/UMalloc.v ===== *)
(** userland/libc/malloc/malloc.c: the heap of a user program.

    The layout of the headers, the search for a free block, the splitting and the merging
    of blocks are line by line those of kernel/kmalloc.c, and KMalloc.v models them; this
    file models what differs.  The heap grows by [sbrk], the class [Sbrk] of KMalloc.v,
    whose failure is -1; memory that cannot be had ends the program. *)

From stdpp Require Import base numbers list gmap.
From Stdlib Require Import ZArith Lia.
From S2P Require Import Prelude Alloc KMalloc.

Open Scope Z_scope.

Module User.
Section User.
Context {S : Type} `{SbrkOk S}.

Abbreviation uheap := (@heap S).
Abbreviation blocks := (list (Z * MallocHeader)).

Definition NEW_ALLOC_SIZE : Z := 0x20000.

(** The result of [sbrk] is not looked at: a refused heap is written at address -1. *)
Definition init_heap (h : uheap) : outcome uheap :=
  match ksbrk NEW_ALLOC_SIZE (brk h) with
  | (None, b) => Fault
  | (Some p, b) =>
    let h := set_brk (NEW_ALLOC_SIZE - HDR) b (set_head p h) in
    Ok (set_final p (put p (mkHeader MAGIC (NEW_ALLOC_SIZE - HDR) (Z.lor IS_FREE IS_FINAL) 0) h))
  end.

Definition add_heap_memory (min_desired : Z) (h : uheap) : outcome (bool * uheap) :=
  let min_desired := u32 (min_desired + (HDR + 0x1000)) in
  let allocation_size := Z.max min_desired NEW_ALLOC_SIZE in
  let allocation_size := u32 (allocation_size + delta_page allocation_size) in
  match ksbrk allocation_size (brk h) with
  | (None, b) => Ok (false, set_brk 0 b h)
  | (Some p, b) =>
    let h := set_brk (u32 (allocation_size - HDR)) b h in
    f ← get (final h) h;
    let e := u32 (final h + h_size f) in
    if p =? e then
      Ok (true, put (final h)
            (mkHeader (h_magic f) (u32 (h_size f + (allocation_size - HDR))) (h_flags f) (h_n f)) h)
    else
      let h := put p (mkHeader MAGIC (u32 (allocation_size - HDR)) (Z.lor IS_FREE IS_FINAL) 0) h in
      f ← get (final h) h;
      let h := put (final h) (mkHeader (h_magic f) (h_size f) (h_flags f) p) h in
      Ok (true, set_final p h)
  end.

Definition find_free_entry (s : Z) (h : uheap) : outcome (Z * uheap) :=
  let s := u32 (s + HDR) in
  h ← (if head h =? 0 then init_heap h else Ok h);
  find_loop (chain_fuel h) s (head h) h.

(** [recursion] is set by the call the function makes to itself after the heap has grown,
    and is then an assertion: the recursion ends. *)
Definition int_malloc_with (again : Z -> uheap -> outcome (Z * uheap)) (s : Z) (recursion : bool) (h : uheap)
  : outcome (Z * uheap) :=
  '(free_entry, h) ← find_free_entry s h;
  if free_entry =? 0 then
    '(ok, h) ← add_heap_memory s h;
    c_assert ok ;;
    c_assert (negb recursion) ;;
    again s h
  else
    '(rc, h) ← split_entry free_entry s h;
    Ok (rc, fill rc s h).

Definition int_malloc (s : Z) (h : uheap) : outcome (Z * uheap) :=
  int_malloc_with (fun s => int_malloc_with (fun _ _ => NoFuel) s true) s false h.

Definition malloc (s : Z) (h : uheap) : outcome (Z * uheap) := int_malloc s h.

Definition free (p : Z) (h : uheap) : outcome uheap :=
  if p =? 0 then Ok h else
  let a := p - HDR in
  hd ← get a h;
  c_assert (h_magic hd =? MAGIC) ;;
  c_assert (negb (is_set (h_flags hd) IS_FREE)) ;;
  let h := fill p (h_size hd) h in
  let h := put a (mkHeader (h_magic hd) (h_size hd) (Z.lor (h_flags hd) IS_FREE) (h_n hd)) h in
  '(_, h) ← merge_headers a h;
  Ok h.

Definition realloc (p sz : Z) (h : uheap) : outcome (Z * uheap) :=
  '(rc, h) ← malloc sz h;
  if rc =? 0 then Ok (0, h) else
  if p =? 0 then Ok (rc, h) else
  l ← get_mem_size p h;
  let h := fill rc (Z.min l sz) h in
  h ← free p h;
  Ok (rc, h).

Definition reallocarray (p nmemb sz : Z) (h : uheap) : outcome (Z * uheap) :=
  if mul_overflows nmemb sz then Ok (0, h) else realloc p (u32 (nmemb * sz)) h.

Definition allocarray (nmemb sz : Z) (h : uheap) : outcome (Z * uheap) := reallocarray 0 nmemb sz h.

Definition calloc (nelem elsize : Z) (h : uheap) : outcome (Z * uheap) :=
  '(rc, h) ← allocarray nelem elsize h;
  if rc =? 0 then Ok (0, h) else Ok (rc, fill rc (u32 (nelem * elsize)) h).

(** ** Correctness *)

Definition ready (h : uheap) (l : blocks) : Prop :=
  heap_inv h l \/ (head h = 0 /\ l = [] /\ exists p b, ksbrk NEW_ALLOC_SIZE (brk h) = (Some p, b)).

(** What an allocation of [s] bytes asks [sbrk] for: a page more than the block and two
    headers need, at least 128 KiB, up to the next page boundary. *)
Definition growth (s : Z) : Z := (Z.max (s + HDR + 0x1000) NEW_ALLOC_SIZE / 0x1000 + 1) * 0x1000.

(** No free block has room for [s] bytes, and [sbrk] refuses what the allocation asks
    for, after the heap was set up if it was not. *)
Definition refused (s : Z) (h : uheap) (l : blocks) : Prop :=
  Forall (small_free (s + HDR)) l /\
  exists b b', ksbrk (growth s) b = (None, b') /\
    ((head h <> 0 /\ b = brk h) \/ (head h = 0 /\ exists p, ksbrk NEW_ALLOC_SIZE (brk h) = (Some p, b))).

Lemma init_heap_ok h p b : ksbrk NEW_ALLOC_SIZE (brk h) = (Some p, b) ->
  exists h' l', init_heap h = Ok h' /\ heap_inv h' l' /\ live l' = [] /\ brk h' = b.
Proof.
  intros Hk. unfold init_heap. rewrite Hk.
  pose proof (ksbrk_fresh NEW_ALLOC_SIZE _ _ _ ltac:(done) Hk) as (Hp & _ & Hend & Htop & Hmap).
  set (hd := mkHeader _ _ _ _). eexists _, [(p, hd)]. split_and!; [done| |done|done].
  split; cbn; [|done|done| |done].
  - constructor; [|constructor]. apply lookup_insert_eq.
  - unfold HDR, NEW_ALLOC_SIZE in *. split_and!; try done; cbn; [lia|]. intros x Hx. apply Hmap. lia.
Qed.

Lemma find_entry_inv h l s : heap_inv h l -> 0 <= s < 2 ^ 31 -> found (s + HDR) h l l (find_free_entry s h).
Proof.
  intros Hi Hs. unfold find_free_entry. rewrite (u32_small (s + HDR)) by (unfold HDR; lia). pose proof (heap_inv_head _ _ Hi).
  destruct (Z.eqb_spec (head h) 0); [done|]. cbn [mbind outcome_bind]. rewrite (hi_head _ _ Hi).
  apply (find_loop_spec _ _ _ []); [done|by apply chain_fuel_enough].
Qed.

Lemma find_free_entry_ready h l s : ready h l -> 0 <= s < 2 ^ 31 ->
  exists h0 l0, heap_inv h0 l0 /\ live l0 = live l /\ found (s + HDR) h0 l0 l0 (find_free_entry s h) /\
    (l = l0 \/ l = []) /\
    ((head h <> 0 /\ brk h0 = brk h) \/ (head h = 0 /\ exists p, ksbrk NEW_ALLOC_SIZE (brk h) = (Some p, brk h0))).
Proof.
  intros [Hi|(Hz & -> & p & b & Hk)] Hs.
  - exists h, l. split_and!; [done|done|by apply find_entry_inv|by left|left; by split; [eapply heap_inv_head|]].
  - destruct (init_heap_ok _ _ _ Hk) as (h' & l' & He & Hi & Hl & Hb).
    exists h', l'. split_and!; [done|done| |by right|right; split; [done|]; exists p; by rewrite Hb].
    pose proof (find_entry_inv _ _ _ Hi Hs) as Hf. unfold find_free_entry in *. rewrite Hz, He.
    pose proof (heap_inv_head _ _ Hi). by destruct (Z.eqb_spec (head h') 0).
Qed.

Lemma grown s : 0 <= s < 2 ^ 31 ->
  let a := Z.max (u32 (s + (HDR + 0x1000))) NEW_ALLOC_SIZE in
  let n := u32 (a + delta_page a) in
  s + HDR + HDR <= n - HDR /\ 0 <= n < 2 ^ 32 /\ n = growth s.
Proof.
  intros Hs. cbv zeta. rewrite (u32_small (s + (HDR + 0x1000))) by (unfold HDR; lia). unfold delta_page.
  set (m := Z.max _ _). pose proof (Z.mod_pos_bound m 4096 ltac:(lia)).
  assert (s + HDR + 0x1000 <= m <= 2 ^ 31 + HDR + 0x1000) by (unfold m, HDR, NEW_ALLOC_SIZE; lia).
  pose proof (Z.div_mod m 4096 ltac:(lia)) as Hd. assert (Em : Z.max (s + HDR + 0x1000) NEW_ALLOC_SIZE = m) by (unfold m; f_equal; lia).
  unfold growth. rewrite Em. change 0x1000 with 4096 in *. unfold HDR, NEW_ALLOC_SIZE in *. rewrite u32_small by lia. lia.
Qed.

(** The new memory is never joined to the last block: the address compared is the last
    block's without its header, inside the heap. *)
Lemma add_heap_memory_ok h l s : heap_inv h l -> 0 <= s < 2 ^ 31 ->
  (exists h' l', add_heap_memory s h = Ok (true, h') /\ heap_inv h' l' /\ live l' = live l /\ ~ Forall (small_free (s + HDR)) l') \/
  (exists b h', ksbrk (growth s) (brk h) = (None, b) /\ add_heap_memory s h = Ok (false, h')).
Proof.
  intros Hinv Hs. unfold add_heap_memory. pose proof (grown s Hs) as (Hg1 & Hg2 & Hg). cbv zeta in Hg1, Hg2, Hg.
  set (n := u32 (Z.max _ _ + _)) in *. rewrite <- Hg. destruct (ksbrk n (brk h)) as [[p|] b] eqn:Hk; [left|right; by eauto].
  destruct (ksbrk_fresh n _ _ _ Hg2 Hk) as (Hp & Hptop & Hpend & Htop & Hmap).
  destruct (heap_inv_last _ _ Hinv) as (l1 & hf & ->).
  pose proof (wf_chain_mid _ _ _ _ _ (hi_wf _ _ Hinv)) as (Hf0 & _ & Hsz & Hend & _ & _).
  rewrite (u32_small (n - HDR)) by (unfold HDR in *; lia).
  pose proof (heap_inv_set_brk _ (n - HDR) _ _ _ _ Hinv Hk) as Hinv1. set (h1 := set_brk _ b h) in *.
  assert (Hn : HDR <= n) by (unfold HDR in *; lia). change (final h1) with (final h).
  rewrite (heap_inv_get _ _ _ _ _ Hinv1). cbn [mbind outcome_bind].
  rewrite u32_small by (unfold HDR in *; lia). destruct (Z.eqb_spec p (final h + h_size hf)); [unfold HDR in *; lia|].
  destruct (append_block h1 l1 hf p n) as [He Hinv']; [done|cbn; lia|done..|].
  set (h2 := put p _ h1) in *. change (final h2) with (final h1). rewrite He.
  eexists _, _. split_and!; [done|exact Hinv'|by rewrite !live_app, !live_cons|].
  intros HF. apply Forall_app in HF as [_ HF]. apply Forall_cons_1 in HF as [_ HF].
  apply Forall_cons_1 in HF as [HF _]. specialize (HF eq_refl). cbn [snd h_size] in HF. unfold HDR in *. lia.
Qed.

(** A block that was found is split and filled. *)
Lemma found_alloc s h l p h' l' : 0 <= s -> same_live h h' l l' ->
  (exists l1 hd r, l' = l1 ++ (p, hd) :: r /\ is_free hd = true /\ s + HDR <= h_size hd) ->
  exists rc h'' l'', p <> 0 /\ ('(rc, h) ← split_entry p s h'; Ok (rc, fill rc s h)) = Ok (rc, h'') /\ 0 < rc /\
    heap_inv h'' l'' /\ live l'' ≡ₚ (rc, s) :: live l.
Proof.
  intros Hs Hsl Hp. destruct (found_split _ _ _ _ _ _ Hs Hsl Hp) as (rc & h2 & l2 & Hp0 & -> & Hrc & Ha).
  exists rc, (fill rc s h2), l2. cbn [mbind outcome_bind]. pose proof (allocated_fill _ _ _ _ _ Ha) as [Hi _].
  destruct (Z.eqb_spec rc 0); [lia|]. destruct Ha as [_ [[? _]|[_ HP]]]; [lia|]. by split_and!.
Qed.

Definition obtained (s : Z) (h : uheap) (l : blocks) (r : outcome (Z * uheap)) : Prop :=
  (exists rc h' l', r = Ok (rc, h') /\ 0 < rc /\ heap_inv h' l' /\ live l' ≡ₚ (rc, s) :: live l) \/
  (r = Panic /\ refused s h l).

Lemma malloc_ok h l s : ready h l -> 0 <= s < 2 ^ 31 -> obtained s h l (malloc s h).
Proof.
  intros Hr Hs. unfold malloc, int_malloc, int_malloc_with at 1.
  destruct (find_free_entry_ready _ _ _ Hr Hs) as (h0 & l0 & Hi0 & Hl0 & (p & h1 & l1 & -> & Hsl & Hp) & Hll & Hb0).
  cbn [mbind outcome_bind]. unfold obtained. rewrite <- Hl0. destruct Hp as [[-> Hno]|Hp].
  2: { left. destruct (found_alloc _ _ _ _ _ _ (proj1 Hs) Hsl Hp) as (rc & h2 & l2 & Hp0 & He & H1 & H2 & H3).
       destruct (Z.eqb_spec p 0); [done|]. by exists rc, h2, l2. }
  cbn [Z.eqb]. destruct Hsl as [Hi1 Hb1 Hl1]. rewrite <- Hl1.
  destruct (add_heap_memory_ok _ _ _ Hi1 Hs) as [(h2 & l2 & -> & Hi2 & Hl2 & Hbig)|(b & h2 & Hk & ->)].
  2: { right. split; [done|]. split; [destruct Hll as [->| ->]; [done|constructor]|]. exists (brk h1), b. split; [done|].
       rewrite Hb1. exact Hb0. }
  left. cbn [c_assert negb mbind outcome_bind]. unfold int_malloc_with.
  destruct (find_entry_inv _ _ _ Hi2 Hs) as (q & h4 & l4 & -> & Hsl4 & [[_ HF]|Hq]); [by destruct Hbig|].
  cbn [mbind outcome_bind]. rewrite <- Hl2.
  destruct (found_alloc _ _ _ _ _ _ (proj1 Hs) Hsl4 Hq) as (rc & h5 & l5 & Hq0 & He & H1 & H2 & H3).
  destruct (Z.eqb_spec q 0); [done|]. by exists rc, h5, l5.
Qed.

(** [free] is [kfree]. *)
Lemma free_ok h l p n : heap_inv h l -> (p, n) ∈ live l ->
  exists h' l', free p h = Ok h' /\ heap_inv h' l' /\ live l ≡ₚ (p, n) :: live l'.
Proof. intros Hi Hin. destruct (hk_free_spec _ _ _ _ Hi Hin) as (h' & l' & E & Hi' & _ & HP). by exists h', l'. Qed.

Lemma realloc_ok h l p n sz : heap_inv h l -> (p, n) ∈ live l -> 0 <= sz < 2 ^ 31 ->
  (exists rc h' l' rest, realloc p sz h = Ok (rc, h') /\ 0 < rc /\ heap_inv h' l' /\
    live l ≡ₚ (p, n) :: rest /\ live l' ≡ₚ (rc, sz) :: rest) \/
  (realloc p sz h = Panic /\ refused sz h l).
Proof.
  intros Hi Hin Hs. unfold realloc.
  destruct (malloc_ok h l sz (or_introl Hi) Hs) as [(rc & h1 & l1 & -> & Hrc & Hi1 & HP)|[-> Hr]]; [left|by right].
  cbn [mbind outcome_bind]. destruct (Z.eqb_spec rc 0); [lia|].
  destruct (get_mem_size_spec _ _ _ _ Hi Hin) as [_ Hp]. destruct (Z.eqb_spec p 0); [lia|].
  assert (Hin1 : (p, n) ∈ live l1) by (rewrite HP; by right).
  destruct (get_mem_size_spec _ _ _ _ Hi1 Hin1) as [-> _]. cbn [mbind outcome_bind].
  destruct (move_spec _ _ _ _ _ _ _ Hin Hrc Hi1 HP) as (h2 & l2 & E & Hi2 & [[? _]|(_ & rest & H1 & H2)]); [lia|].
  change (hk_free p) with (free p) in E. rewrite E. by exists rc, h2, l2, rest.
Qed.

Lemma calloc_ok h l nelem elsize : ready h l -> fits 32 nelem -> fits 32 elsize -> nelem * elsize < 2 ^ 31 ->
  obtained (nelem * elsize) h l (calloc nelem elsize h).
Proof.
  intros Hr Hn He Hs. unfold calloc, allocarray, reallocarray.
  destruct (mul_overflows nelem elsize) eqn:Eo; [apply mul_overflows_spec in Eo; [lia|done..]|].
  assert (0 <= nelem * elsize) by (unfold fits in *; nia). rewrite u32_small by lia. unfold realloc.
  destruct (malloc_ok h l (nelem * elsize) Hr) as [(rc & h1 & l1 & -> & Hrc & Hi1 & HP)|[-> Hf]]; [lia|left|by right].
  cbn [mbind outcome_bind]. destruct (Z.eqb_spec rc 0); [lia|]. cbn [Z.eqb mbind outcome_bind].
  destruct (Z.eqb_spec rc 0); [lia|]. eexists rc, _, l1. split_and!; [done|done| |done].
  apply heap_inv_fill; [done|]. rewrite HP. left.
Qed.

(** What a program calls, and the stores it makes into its objects. *)
Inductive ucall : Type :=
| UMalloc (s : Z) | UCalloc (nelem elsize : Z) | UFree (p : Z) | URealloc (p sz : Z) | UStore (p off n : Z).

Definition exec_call (c : ucall) (h : uheap) : outcome (Z * uheap) :=
  match c with
  | UMalloc s => malloc s h
  | UCalloc n e => calloc n e h
  | UFree p => h ← free p h; Ok (0, h)
  | URealloc p sz => realloc p sz h
  | UStore p off n => Ok (0, fill (p + off) n h)
  end.

Definition permitted_call (o : list (Z * Z)) (c : ucall) : Prop :=
  match c with
  | UMalloc s => 0 <= s < 2 ^ 31
  | UCalloc n e => fits 32 n /\ fits 32 e /\ n * e < 2 ^ 31
  | UFree p => p = 0 \/ exists n, (p, n) ∈ o
  | URealloc p sz => (p = 0 \/ exists n, (p, n) ∈ o) /\ 0 <= sz < 2 ^ 31
  | UStore p off n => exists m, (p, m) ∈ o /\ 0 <= off /\ 0 <= n /\ off + n <= m
  end.

(** A new object of [s] bytes apart from the objects [o]. *)
Definition new_object (s : Z) (o : list (Z * Z)) (p : Z) (o' : list (Z * Z)) : Prop :=
  0 < p /\ Forall (apart (p, s)) o /\ o' ≡ₚ (p, s) :: o.

(** The abstract allocator: disjoint objects; an allocation never gives NULL. *)
Inductive call_step (o : list (Z * Z)) : ucall -> Z -> list (Z * Z) -> Prop :=
| step_malloc s p o' : new_object s o p o' -> call_step o (UMalloc s) p o'
| step_calloc n e p o' : new_object (n * e) o p o' -> call_step o (UCalloc n e) p o'
| step_free_null : call_step o (UFree 0) 0 o
| step_free p n o' : o ≡ₚ (p, n) :: o' -> call_step o (UFree p) 0 o'
| step_realloc_null sz q o' : new_object sz o q o' -> call_step o (URealloc 0 sz) q o'
| step_realloc p n sz q rest o' : o ≡ₚ (p, n) :: rest -> new_object sz rest q o' -> call_step o (URealloc p sz) q o'
| step_store p off n : call_step o (UStore p off n) 0 o.

Lemma obtained_new s l (h' : uheap) l' rc :
  0 < rc -> heap_inv h' l' -> live l' ≡ₚ (rc, s) :: live l ->
  ready h' l' /\ new_object s (live l) rc (live l').
Proof. intros Hrc Hi HP. split; [by left|]. split_and!; [done| |done]. by eapply live_apart_head. Qed.

(** The bytes a call allocates. *)
Definition request (c : ucall) : option Z :=
  match c with
  | UMalloc s => Some s
  | UCalloc n e => Some (n * e)
  | URealloc p sz => Some sz
  | UFree _ | UStore _ _ _ => None
  end.

(** C26: the heap of a user program refines the abstract allocator.  Whatever the list of
    blocks holds, and also before the first allocation, whose [sbrk] is assumed to succeed, every [malloc], [calloc], [free] or
    [realloc] a correct program makes, and every store into an object it owns, keeps the
    headers well formed and has the effect of the abstract operation, with a new object apart
    from all others and never a null pointer.  The only other end is the failed assertion
    of an allocation for which no free block has room and whose own call of [sbrk] is refused.
    In particular one growth of the heap is always enough. *)
Theorem malloc_refines h l c :
  ready h l -> permitted_call (live l) c ->
  (exists r h' l', exec_call c h = Ok (r, h') /\ ready h' l' /\ call_step (live l) c r (live l')) \/
  (exec_call c h = Panic /\ exists s, request c = Some s /\ refused s h l).
Proof.
  intros Hr Hp. assert (Hi : forall x, x ∈ live l -> heap_inv h l).
  { destruct Hr as [Hi|(_ & -> & _)]; [done|]. intros x Hx. inversion Hx. }
  destruct c as [s|n e|p|p sz|p off n]; cbn [exec_call permitted_call] in *.
  - destruct (malloc_ok h l s Hr Hp) as [(rc & h' & l' & -> & Hrc & Hi' & HP)|[-> Href]]; [left|right; by eauto].
    destruct (obtained_new s l h' l' rc Hrc Hi' HP). exists rc, h', l'. split_and!; [done|done|by constructor].
  - destruct Hp as (Hn & He & Hs).
    destruct (calloc_ok h l n e Hr Hn He Hs) as [(rc & h' & l' & -> & Hrc & Hi' & HP)|[-> Href]]; [left|right; by eauto].
    destruct (obtained_new _ l h' l' rc Hrc Hi' HP). exists rc, h', l'. split_and!; [done|done|by constructor].
  - left. destruct Hp as [->|[n Hin]]; [exists 0, h, l; split_and!; [done|done|constructor]|].
    destruct (free_ok _ _ _ _ (Hi _ Hin) Hin) as (h' & l' & -> & Hi' & HP).
    exists 0, h', l'. split_and!; [done|by left|by eapply step_free].
  - destruct Hp as [[->|[n Hin]] Hs].
    + unfold realloc. destruct (malloc_ok h l sz Hr Hs) as [(rc & h' & l' & -> & Hrc & Hi' & HP)|[-> Href]]; [left|right; by eauto].
      destruct (obtained_new sz l h' l' rc Hrc Hi' HP). exists rc, h', l'. cbn [mbind outcome_bind].
      destruct (Z.eqb_spec rc 0); [lia|]. split_and!; [done|done|by constructor].
    + destruct (realloc_ok h l p n sz (Hi _ Hin) Hin Hs) as [(rc & h' & l' & rest & -> & Hrc & Hi' & H1 & H2)|[-> Href]]; [left|right; by eauto].
      exists rc, h', l'. split_and!; [done|by left|]. eapply step_realloc; [exact H1|]. split_and!; [done| |done].
      by eapply live_apart_head.
  - destruct Hp as (m & Hin & Ho & Hn & Hm). left.
    exists 0, (fill (p + off) n h), l. split_and!; [done| |by constructor].
    left. by apply (heap_inv_fill_part _ _ p m); [apply (Hi _ Hin)|done|lia..].
Qed.
End User.

Lemma malloc_refines_witness :
  (exists r h' l', exec_call (UMalloc 100) empty_heap = Ok (r, h') /\ ready h' l' /\ call_step (live []) (UMalloc 100) r (live l')) \/
  (exec_call (UMalloc 100) empty_heap = Panic /\ exists s, request (UMalloc 100) = Some s /\ refused s empty_heap []).
Proof.
  apply (malloc_refines empty_heap []).
  - right. split_and!; [reflexivity..|]. by eexists _, _.
  - cbn. lia.
Defined.

(** [merge_headers] does not add the room of the header it removes: after an object is
    allocated and freed the free block is 20 bytes shorter, every time. *)
Example merge_loses_header :
  match malloc 100 empty_heap with
  | Ok (p, h) =>
    match free p h with
    | Ok h => get (p - HDR) h = Ok (mkHeader MAGIC (NEW_ALLOC_SIZE - HDR - HDR) 3 0)
    | _ => False
    end
  | _ => False
  end.
Proof. vm_compute. reflexivity. Qed.
End User.
