(* ===== verification/Queue.v ===== *)
(** kernel/queue.c: event queues, by which a program waits for any of a set of
    descriptors.

    The entries are in a table of slots ([SlotTable]); [objs] holds the entry objects the
    slots point to.  The abstract queue is the list of entries in the order of their
    slots. *)

From stdpp Require Import base numbers list gmap.
From Stdlib Require Import ZArith Lia.
From S2P Require Import Prelude Alloc StateM KList SlotTable Process Relist Sched Descriptors.

Open Scope Z_scope.

Module EventQueue.

Definition OBJECT_QUEUE : Z := 0x1337.
Definition QUEUE_WAIT_READ : Z := Z.shiftl 1 0.
Definition QUEUE_WAIT_WRITE : Z := Z.shiftl 1 1.
Definition QUEUE_WAIT_CLOSE : Z := Z.shiftl 1 2.
Definition QUEUE_MOD_ADD : Z := 0.
Definition QUEUE_MOD_CHANGE : Z := 1.
Definition QUEUE_MOD_DELETE : Z := 2.
Definition sizeof_queue_entry : Z := 16.

Record queue_entry : Type := mkEntry { q_fd : Z; listen : Z; data_type : Z; data : Z }.

Record queue_list (T : Type) : Type := mkQueue {
  q_entries : T;
  objs : gmap Z queue_entry;
  q_process : Z
}.
Arguments mkQueue {T} _ _ _.
Arguments q_entries {T} _.
Arguments objs {T} _.
Arguments q_process {T} _.

Section Queue.
Context {F H T V : Type} `{Inodes F, Allocator H, SlotTable T H}.
Abbreviation K := (SM (kernel F H T V)).
Abbreviation queue := (queue_list T).

Variable switch_task : K unit.

Definition set_entries (t : T) (o : gmap Z queue_entry) (q : queue) : queue := mkQueue t o (q_process q).

(** A queue of the process [p]. *)
Definition new_queue (p : Z) (h : H) : queue * H := let '(t, h) := slot_init h in (mkQueue t ∅ p, h).

(** *** Reading *)

(** [should_add] for the open file of an entry. *)
Definition file_ready (listen : Z) (fs : F) (i : Z) : bool :=
  (is_set listen QUEUE_WAIT_READ && op_set (i_has_data fs i)) ||
  (is_set listen QUEUE_WAIT_WRITE && op_set (i_can_write fs i)) ||
  (is_set listen QUEUE_WAIT_CLOSE && match i_is_open_op fs i with Some v => v =? 0 | None => false end).

Definition entry_ready (p : Z) (e : queue_entry) : K bool :=
  if listen e =? 0 then ret false else
  a ← get_vfs_fd (q_fd e) (Some p);
  match a with
  | None => ret false
  | Some a =>
    d ← fd_at a;
    fs ← gets k_fs;
    ret (file_ready (listen e) fs (inode d))
  end.

(** The entries stored in [events]; the result of the function is their number. *)
Fixpoint get_entries_loop (fuel : nat) (i rc num_events : Z) (q : queue) : K (list queue_entry) :=
  match fuel with
  | O => no_fuel
  | S fuel =>
    if num_events <=? rc then ret [] else
    '(entry, at_end) ← lift (slot_get (q_entries q) i);
    match entry with
    | None => if at_end : bool then ret [] else get_entries_loop fuel (i + 1) rc num_events q
    | Some a =>
      e ← lift (deref (objs q !! a));
      should_add ← entry_ready (q_process q) e;
      if should_add : bool then
        l ← get_entries_loop fuel (i + 1) (rc + 1) num_events q;
        ret (e :: l)
      else get_entries_loop fuel (i + 1) rc num_events q
    end
  end.

Definition queue_get_entries (fuel : nat) (num_events : Z) (q : queue) : K (list queue_entry) :=
  get_entries_loop fuel 0 0 num_events q.

Definition queue_has_data (fuel : nat) (q : queue) : K bool :=
  l ← queue_get_entries fuel 1 q; ret (zlen l =? 1).

(** *** Changing *)

(** The number of entries added.  An object gets a name no other object has. *)
Fixpoint queue_add (entries : list queue_entry) (q : queue) (h : H) : outcome (Z * queue * H) :=
  match entries with
  | [] => Ok (0, q, h)
  | e :: entries =>
    match kmalloc sizeof_queue_entry h with
    | (None, h) => Ok (0, q, h)
    | (Some copy, h) =>
      let a := fresh (dom (objs q)) in
      '(r, t, h) ← slot_add (q_entries q) a h;
      match r with
      | None => Ok (0, set_entries t (objs q) q, kfree (Some copy) h)
      | Some _ =>
        '(n, q, h) ← queue_add entries (set_entries t (<[a := e]> (objs q)) q) h;
        Ok (n + 1, q, h)
      end
    end
  end.

(** The first of [entries] for the descriptor of [e]. *)
Definition entry_for (entries : list queue_entry) (e : queue_entry) : option queue_entry :=
  find (fun x => q_fd e =? q_fd x) entries.

Fixpoint queue_change (fuel : nat) (i changes : Z) (entries : list queue_entry) (q : queue) : outcome (Z * queue) :=
  match fuel with
  | O => NoFuel
  | S fuel =>
    if zlen entries <=? changes then Ok (changes, q) else
    '(entry, at_end) ← slot_get (q_entries q) i;
    match entry with
    | None => if at_end : bool then Ok (changes, q) else queue_change fuel (i + 1) changes entries q
    | Some a =>
      e ← deref (objs q !! a);
      match entry_for entries e with
      | Some x =>
        queue_change fuel (i + 1) (changes + 1) entries
          (set_entries (q_entries q) (<[a := mkEntry (q_fd e) (listen x) (data_type x) (data x)]> (objs q)) q)
      | None => queue_change fuel (i + 1) changes entries q
      end
    end
  end.

(** [changes] is never incremented. *)
Fixpoint queue_delete (fuel : nat) (i : Z) (entries : list queue_entry) (q : queue) (h : H) : outcome (Z * queue * H) :=
  match fuel with
  | O => NoFuel
  | S fuel =>
    if zlen entries <=? 0 then Ok (0, q, h) else
    '(entry, at_end) ← slot_get (q_entries q) i;
    match entry with
    | None => if at_end : bool then Ok (0, q, h) else queue_delete fuel (i + 1) entries q h
    | Some a =>
      e ← deref (objs q !! a);
      match entry_for entries e with
      | Some _ =>
        t ← slot_remove (q_entries q) i;
        queue_delete fuel (i + 1) entries (set_entries t (delete a (objs q)) q) (kfree (Some a) h)
      | None => queue_delete fuel (i + 1) entries q h
      end
    end
  end.

Definition queue_modify (fuel : nat) (flag : Z) (entries : list queue_entry) (q : queue) (h : H) : outcome (Z * queue * H) :=
  if flag =? QUEUE_MOD_ADD then queue_add entries q h
  else if flag =? QUEUE_MOD_CHANGE then '(n, q) ← queue_change fuel 0 0 entries q; Ok (n, q, h)
  else if flag =? QUEUE_MOD_DELETE then queue_delete fuel 0 entries q h
  else Panic.

(** The queue a descriptor designates. *)
Definition queue_of (fd : Z) : K vfs_fd :=
  a ← get_vfs_fd fd None;
  match a with
  | None => lift Panic
  | Some a =>
    d ← fd_at a;
    fs ← gets k_fs;
    m_assert (i_object_type fs (inode d) =? OBJECT_QUEUE) ;;
    ret d
  end.

Definition queue_mod_entries (fuel : nat) (fd flag : Z) (entries : list queue_entry) (q : queue) : K (Z * queue) :=
  queue_of fd ;;
  h ← gets k_heap;
  '(n, q, h) ← lift (queue_modify fuel flag entries q h);
  modify (set_heap h) ;;
  ret (n, q).

(** What other processes do to the queue while this one waits is [woken]. *)
Definition queue_wait (fuel : nat) (fd num_events : Z) (q : queue) (woken : queue -> queue) : K (list queue_entry) :=
  d ← queue_of fd;
  l ← queue_get_entries fuel num_events q;
  if zlen l =? 0 then
    c ← gets current_task;
    x ← proc_at c;
    h ← gets k_heap;
    '(_, r, h) ← lift (KList.list_add (read_list (p_wait x)) (inode d) h);
    modify (set_heap h) ;;
    on_proc c (fun x => let w := p_wait x in set_wait (set_lists r (write_list w) (disconnect_list w) w) x) ;;
    switch_task ;;
    c ← gets current_task;
    on_proc c (fun x => let w := p_wait x in
      set_wait (set_lists (KList.list_reset (read_list w)) (write_list w) (disconnect_list w) w) x) ;;
    queue_get_entries fuel num_events (woken q)
  else ret l.
End Queue.

(** ** The abstract queue *)

(** The values [f] has between [i] and [i + n]. *)
Fixpoint collect (f : Z -> option queue_entry) (i : Z) (n : nat) : list queue_entry :=
  match n with
  | O => []
  | S n => match f i with Some e => e :: collect f (i + 1) n | None => collect f (i + 1) n end
  end.

Lemma collect_ext f g i n : (forall j, i <= j < i + Z.of_nat n -> f j = g j) -> collect f i n = collect g i n.
Proof.
  revert i. induction n as [|n IH]; intros i Hfg; [done|]. cbn [collect]. rewrite (Hfg i) by lia.
  rewrite (IH (i + 1)); [done|]. intros j Hj. apply Hfg. lia.
Qed.

Lemma collect_none f i n : (forall j, i <= j < i + Z.of_nat n -> f j = None) -> collect f i n = [].
Proof.
  revert i. induction n as [|n IH]; intros i Hf; [done|]. cbn [collect]. rewrite (Hf i) by lia.
  apply IH. intros j Hj. apply Hf. lia.
Qed.

Lemma collect_app f i n m : collect f i (n + m) = collect f i n ++ collect f (i + Z.of_nat n) m.
Proof.
  revert i. induction n as [|n IH]; intros i; [by rewrite Z.add_0_r|]. cbn [Nat.add collect].
  replace (i + Z.of_nat (S n)) with (i + 1 + Z.of_nat n) by lia. rewrite IH. by destruct (f i).
Qed.

Lemma collect_insert f g i n j e : i <= j < i + Z.of_nat n -> f j = None -> g j = Some e -> (forall k, k <> j -> g k = f k) ->
  collect g i n ≡ₚ e :: collect f i n.
Proof.
  intros Hj Hf Hg Ho. revert i Hj. induction n as [|n IH]; intros i Hj; [lia|]. cbn [collect].
  destruct (Z.eq_dec i j) as [->|Hne].
  - rewrite Hf, Hg. rewrite (collect_ext g f (j + 1)); [done|]. intros k Hk. apply Ho. lia.
  - rewrite (Ho i Hne). assert (E : collect g (i + 1) n ≡ₚ e :: collect f (i + 1) n) by (apply IH; lia).
    destruct (f i); [|done]. rewrite E. constructor.
Qed.

(** The first [n] entries with a change in [es] get it. *)
Fixpoint change_list (n : Z) (es l : list queue_entry) : list queue_entry :=
  match l with
  | [] => []
  | e :: l =>
    if n <=? 0 then e :: l else
    match entry_for es e with
    | Some x => mkEntry (q_fd e) (listen x) (data_type x) (data x) :: change_list (n - 1) es l
    | None => e :: change_list n es l
    end
  end.

(** The entry with its change. *)
Definition change (es : list queue_entry) (e : queue_entry) : queue_entry :=
  match entry_for es e with
  | Some x => mkEntry (q_fd e) (listen x) (data_type x) (data x)
  | None => e
  end.

Definition matched (es l : list queue_entry) : list queue_entry := filter (fun e => is_Some (entry_for es e)) l.
Definition unmatched (es l : list queue_entry) : list queue_entry := filter (fun e => entry_for es e = None) l.

Lemma entry_for_fd es e x : entry_for es e = Some x -> q_fd e ∈ q_fd <$> es.
Proof.
  intros E. apply find_some in E as [Hx Ef%Z.eqb_eq]. rewrite Ef. by apply list_elem_of_fmap_2, list_elem_of_In.
Qed.

(** With distinct descriptors no more entries match than there are changes. *)
Lemma matched_length es l : NoDup (q_fd <$> l) -> zlen (matched es l) <= zlen es.
Proof.
  intros Hnd. enough (length (q_fd <$> matched es l) <= length (q_fd <$> es))%nat by (rewrite !length_fmap in *; unfold zlen; lia).
  apply NoDup_incl_length.
  - apply NoDup_ListNoDup. unfold matched. induction l as [|e l IH]; [constructor|].
    apply NoDup_cons in Hnd as [He Hnd]. destruct (decide (is_Some (entry_for es e))).
    + rewrite filter_cons_True by done. apply NoDup_cons. split; [|by apply IH]. intros Hin. apply He.
      apply list_elem_of_fmap in Hin as (x & -> & [_ Hx]%list_elem_of_filter). by apply list_elem_of_fmap_2.
    + rewrite filter_cons_False by done. by apply IH.
  - intros f Hf. apply list_elem_of_In, list_elem_of_fmap in Hf as (e & -> & He).
    apply list_elem_of_filter in He as [[x Ex] _]. apply list_elem_of_In. by eapply entry_for_fd.
Qed.

Lemma change_list_all n es l : zlen (matched es l) <= n -> change_list n es l = change es <$> l.
Proof.
  revert n. induction l as [|e l IH]; intros n Hn; [done|]. cbn [change_list fmap list_fmap]. unfold change at 1.
  unfold matched in *. destruct (entry_for es e) as [x|] eqn:Ex.
  - rewrite filter_cons_True in Hn by eauto. unfold zlen in *. cbn [length] in Hn.
    rewrite (proj2 (Z.leb_gt _ _)) by lia. rewrite IH by lia. done.
  - rewrite filter_cons_False in Hn by (rewrite Ex; by intros []).
    destruct (Z.leb_spec n 0); [|by rewrite IH]. f_equal.
    assert (Hz : forall m, m <= 0 -> change_list m es l = l).
    { intros m Hm. destruct l; [done|]. cbn [change_list]. by rewrite (proj2 (Z.leb_le _ _)). }
    rewrite <- (IH n Hn). by rewrite Hz.
Qed.

Section Abstract.
Context {F H T V : Type} `{Inodes F, Allocator H, SlotLaws T H}.
Abbreviation queue := (queue_list T).
Implicit Types (q : queue) (k : kernel F H T V).

Definition entry_at q (i : Z) : option queue_entry := a ← slot_view (q_entries q) i; objs q !! a.

Record queue_ok q : Prop := {
  qo_slots : slot_ok (q_entries q);
  qo_objs : forall i a, slot_view (q_entries q) i = Some a -> is_Some (objs q !! a);
  qo_apart : forall i j a, slot_view (q_entries q) i = Some a -> slot_view (q_entries q) j = Some a -> i = j
}.

Definition capacity q : nat := Z.to_nat (slot_size (q_entries q)).
Definition contents q : list queue_entry := collect (entry_at q) 0 (capacity q).

Lemma entry_at_outside q i : queue_ok q -> slot_size (q_entries q) <= i -> entry_at q i = None.
Proof.
  intros Hq Hi. unfold entry_at. destruct (slot_view (q_entries q) i) as [a|] eqn:E; [|done].
  pose proof (slot_view_range _ _ _ (qo_slots _ Hq) E). lia.
Qed.

Lemma contents_upto q n : queue_ok q -> (capacity q <= n)%nat -> collect (entry_at q) 0 n = contents q.
Proof.
  intros Hq Hn. unfold contents. replace n with (capacity q + (n - capacity q))%nat by lia.
  rewrite collect_app, (collect_none _ (0 + _)); [by rewrite app_nil_r|]. intros j Hj. apply entry_at_outside; [done|].
  pose proof (slot_size_bound _ (qo_slots _ Hq)). unfold capacity in *. lia.
Qed.

(** What [slot_get] finds at [i], and the rest of the table. *)
Lemma slot_step q i n : queue_ok q -> 0 <= i -> n = Z.to_nat (slot_size (q_entries q) - i) ->
  match slot_view (q_entries q) i with
  | Some a => exists e m, objs q !! a = Some e /\ entry_at q i = Some e /\ n = S m /\
      slot_get (q_entries q) i = Ok (Some a, false)
  | None => entry_at q i = None /\
      (slot_get (q_entries q) i = Ok (None, true) /\ n = O \/ exists m, slot_get (q_entries q) i = Ok (None, false) /\ n = S m)
  end.
Proof.
  intros Hq Hi ->. pose proof (slot_get_view _ i (qo_slots _ Hq) Hi) as E. unfold entry_at.
  destruct (slot_view (q_entries q) i) as [a|] eqn:Ev.
  - destruct (qo_objs _ Hq _ _ Ev) as [e Ee]. pose proof (slot_view_range _ _ _ (qo_slots _ Hq) Ev).
    exists e, (Z.to_nat (slot_size (q_entries q) - i) - 1)%nat. cbn [mbind option_bind]. split_and!; [done|done|lia|].
    rewrite E. destruct (Z.leb_spec (slot_size (q_entries q)) i); [lia|done].
  - split; [done|]. rewrite E. destruct (Z.leb_spec (slot_size (q_entries q)) i); [left; split; [done|lia]|right].
    exists (Z.to_nat (slot_size (q_entries q) - i) - 1)%nat. split; [done|lia].
Qed.

(** *** Reading *)

Definition is_ready k (p : Z) (e : queue_entry) : bool :=
  negb (listen e =? 0) && negb (q_fd e <? 0) &&
  match (x ← procs k !! p; a ← slot_view (file_descriptors x) (q_fd e); files k !! a) with
  | Some d => file_ready (listen e) (k_fs k) (inode d)
  | None => false
  end.

(** The process of the queue exists and its descriptors designate open files. *)
Definition process_ok k (p : Z) : Prop :=
  exists x, procs k !! p = Some x /\ slot_ok (file_descriptors x) /\
    forall i a, slot_view (file_descriptors x) i = Some a -> is_Some (files k !! a).

Lemma entry_ready_spec k p e : process_ok k p -> entry_ready p e k = Ok (is_ready k p e, k).
Proof.
  intros (x & Hx & Hok & Hf). unfold entry_ready, is_ready. destruct (listen e =? 0); [done|]. cbn [negb andb].
  destruct (Z.ltb_spec (q_fd e) 0) as [Hn|Hn]; cbn [negb andb].
  { unfold get_vfs_fd. by rewrite (proj2 (Z.ltb_lt _ _) Hn). }
  assert (E : get_vfs_fd (q_fd e) (Some p) k = Ok (slot_view (file_descriptors x) (q_fd e), k)).
  { unfold get_vfs_fd. rewrite (proj2 (Z.ltb_ge _ _) Hn). cbn [or_current]. msimpl.
    assert (Ep : proc_at p k = Ok (x, k)) by (unfold proc_at; by rewrite Hx). mrun Ep.
    rewrite (slot_get_view _ (q_fd e) Hok Hn). done. }
  mrun E. rewrite Hx. cbn [mbind option_bind].
  destruct (slot_view (file_descriptors x) (q_fd e)) as [a|] eqn:Ev; [|done]. cbn [mbind option_bind].
  destruct (Hf _ _ Ev) as [d Hd]. assert (Ed : fd_at a k = Ok (d, k)) by (unfold fd_at; by rewrite Hd). mrun Ed. by rewrite Hd.
Qed.

Lemma get_entries_loop_spec fuel k q i rc num : queue_ok q -> process_ok k (q_process q) -> 0 <= i ->
  (Z.to_nat (slot_size (q_entries q) - i) < fuel)%nat ->
  get_entries_loop fuel i rc num q k =
    Ok (take (Z.to_nat (num - rc)) (filter (is_ready k (q_process q)) (collect (entry_at q) i (Z.to_nat (slot_size (q_entries q) - i)))), k).
Proof.
  intros Hq Hp. revert i rc. induction fuel as [|fuel IH]; intros i rc Hi Hf; [lia|]. cbn [get_entries_loop].
  destruct (Z.leb_spec num rc). { replace (Z.to_nat (num - rc)) with O by lia. done. }
  pose proof (slot_step q i _ Hq Hi eq_refl) as Hst.
  destruct (slot_view (q_entries q) i) as [a|] eqn:Ev.
  - destruct Hst as (e & m & Eo & Ea & En & Eg). rewrite En in *. rewrite Eg. msimpl. rewrite Eo. cbn [deref]. msimpl.
    mrun (entry_ready_spec k (q_process q) e Hp). cbn [collect]. rewrite Ea.
    assert (Hm : Z.to_nat (slot_size (q_entries q) - (i + 1)) = m) by lia.
    destruct (is_ready k (q_process q) e) eqn:Er.
    + pose proof (IH (i + 1) (rc + 1) ltac:(lia) ltac:(lia)) as E. mrun E. rewrite filter_cons_True by (rewrite Er; exact I).
      replace (Z.to_nat (num - rc)) with (S (Z.to_nat (num - (rc + 1)))) by lia. by rewrite Hm.
    + rewrite IH by lia. rewrite filter_cons_False by (rewrite Er; by intros []). by rewrite Hm.
  - destruct Hst as (Ea & [[Eg En]|(m & Eg & En)]); rewrite En in *; rewrite Eg; msimpl; cbn [collect].
    + unfold ret, mret, SM_ret. do 2 f_equal. symmetry. apply take_nil.
    + rewrite Ea, IH by lia. by replace m with (Z.to_nat (slot_size (q_entries q) - (i + 1))) by lia.
Qed.

(** *** Changing *)

(** One entry more, in a slot that was free. *)
Lemma add_one q t a e i : queue_ok q -> objs q !! a = None -> slot_view (q_entries q) i = None -> 0 <= i ->
  slot_changed (q_entries q) t i (Some a) -> slot_size (q_entries q) <= slot_size t ->
  let q' := set_entries t (<[a := e]> (objs q)) q in
  queue_ok q' /\ contents q' ≡ₚ e :: contents q.
Proof.
  intros Hq Ha Hi Hi0 [Hok Hv] Hsz q'.
  assert (Hna : forall j, slot_view (q_entries q) j = Some a -> False).
  { intros j Hj. destruct (qo_objs _ Hq _ _ Hj). congruence. }
  assert (Hq' : queue_ok q').
  { split; cbn [q' set_entries q_entries objs]; [done| |].
    - intros j b. rewrite Hv. destruct (Z.eqb_spec j i) as [->|].
      + intros [= <-]. rewrite lookup_insert_eq. eauto.
      + intros Hj. destruct (decide (a = b)) as [->|]; [by destruct (Hna j)|]. rewrite lookup_insert_ne by done. by apply (qo_objs _ Hq j).
    - intros j l b. rewrite !Hv. destruct (Z.eqb_spec j i), (Z.eqb_spec l i); subst; [done| | |apply (qo_apart _ Hq)].
      + intros [= <-] Hl. by destruct (Hna l).
      + intros Hj [= <-]. by destruct (Hna j). }
  assert (Hcap : (capacity q <= capacity q')%nat) by (unfold capacity; cbn [q' set_entries q_entries]; lia).
  split; [done|]. rewrite <- (contents_upto q (capacity q')) by done.
  apply (collect_insert _ _ _ _ i); [|unfold entry_at; by rewrite Hi| |].
  - assert (Hin : slot_view t i = Some a) by (rewrite Hv; by rewrite Z.eqb_refl).
    pose proof (slot_view_range t i a Hok Hin). unfold capacity. cbn [q' set_entries q_entries]. lia.
  - unfold entry_at. cbn [q' set_entries q_entries objs]. rewrite Hv, Z.eqb_refl. cbn [mbind option_bind]. apply lookup_insert_eq.
  - intros j Hj. unfold entry_at. cbn [q' set_entries q_entries objs]. rewrite Hv. destruct (Z.eqb_spec j i); [done|].
    destruct (slot_view (q_entries q) j) as [b|] eqn:Eb; [|done]. cbn [mbind option_bind]. apply lookup_insert_ne.
    intros ->. by destruct (Hna j).
Qed.

(** Adding stores a prefix of the entries.  When the table is full and only the second
    of its two allocations fails, its bitmap is lost. *)
Definition table_lost (q q' : queue) : Prop :=
  exists a h h', slot_add (q_entries q) a h = Ok (None, q_entries q', h') /\ ~ slot_ok (q_entries q').

Definition added (es : list queue_entry) (q q' : queue) (n : Z) : Prop :=
  0 <= n <= zlen es /\ exists q1, queue_ok q1 /\ contents q1 ≡ₚ contents q ++ ztake n es /\
    (q' = q1 \/ table_lost q1 q' /\ n < zlen es).

Lemma queue_add_spec es q h : queue_ok q -> slot_size (q_entries q) + 64 * (zlen es + 1) < 2 ^ 32 ->
  exists n q' h', queue_add es q h = Ok (n, q', h') /\ added es q q' n.
Proof.
  revert q h. induction es as [|e es IH]; intros q h Hq Hsz; cbn [queue_add].
  { exists 0, q, h. do 2 (split; [done|]). exists q. rewrite app_nil_r. split_and!; [done|done|by left]. }
  assert (Hz : zlen (e :: es) = zlen es + 1) by (unfold zlen; cbn [length]; lia). rewrite Hz in *. pose proof (zlen_nonneg es).
  assert (Hstop : forall h' : H, exists n q' h'', Ok (0, q, h') = Ok (n, q', h'') /\ added (e :: es) q q' n).
  { intros h'. exists 0, q, h'. split; [done|]. split; [lia|]. exists q. rewrite app_nil_r. split_and!; [done|done|by left]. }
  destruct (kmalloc sizeof_queue_entry h) as [[copy|] h1]; [|apply Hstop].
  set (a := fresh (dom (objs q))).
  destruct (slot_add_lowest (q_entries q) a h1 (qo_slots _ Hq)) as (r & t & h2 & E & Hr); [lia|]. rewrite E. cbn [mbind outcome_bind].
  destruct r as [i|].
  - destruct Hr as (Hi & Hv & _ & Hch & Hs1 & Hs2). assert (Ha : objs q !! a = None) by (apply not_elem_of_dom, is_fresh).
    destruct (add_one q t a e i Hq Ha Hv Hi Hch Hs1) as [Hq' HP]. set (q1 := set_entries t _ q) in *.
    destruct (IH q1 h2 Hq') as (n & q' & h' & -> & Hn & q2 & Hok & HP' & Hq2); [cbn [q1 set_entries q_entries]; lia|].
    cbn [mbind outcome_bind]. exists (n + 1), q', h'. split; [done|]. split; [lia|]. exists q2.
    split_and!; [done| |destruct Hq2 as [->|[]]; [by left|right; split; [done|lia]]].
    rewrite HP', HP. unfold ztake. replace (Z.to_nat (n + 1)) with (S (Z.to_nat n)) by lia. cbn [take].
    apply Permutation_middle.
  - destruct Hr as [[->|Hbad] _]; [destruct q as [t0 o p]; apply Hstop|].
    exists 0, (set_entries t (objs q) q), (kfree (Some copy) h2). split; [done|]. split; [lia|].
    exists q. rewrite app_nil_r. split_and!; [done|done|right]. split; [|lia]. by exists a, h1, h2.
Qed.

Lemma queue_change_spec fuel es q i ch : queue_ok q -> 0 <= i -> (Z.to_nat (slot_size (q_entries q) - i) < fuel)%nat -> ch <= zlen es ->
  exists ch' q', queue_change fuel i ch es q = Ok (ch', q') /\ queue_ok q' /\ q_entries q' = q_entries q /\
    let l := collect (entry_at q) i (Z.to_nat (slot_size (q_entries q) - i)) in
    collect (entry_at q') i (Z.to_nat (slot_size (q_entries q) - i)) = change_list (zlen es - ch) es l /\
    ch' = ch + Z.min (zlen es - ch) (zlen (matched es l)) /\
    (forall j, j < i -> entry_at q' j = entry_at q j).
Proof.
  revert q i ch. induction fuel as [|fuel IH]; intros q i ch Hq Hi Hf Hch; [lia|]. cbn [queue_change].
  destruct (Z.leb_spec (zlen es) ch).
  { exists ch, q. split_and!; try done; cbv zeta.
    - destruct (collect _ _ _); [done|]. cbn [change_list]. by rewrite (proj2 (Z.leb_le _ _)) by lia.
    - pose proof (zlen_nonneg (matched es (collect (entry_at q) i (Z.to_nat (slot_size (q_entries q) - i))))). lia. }
  pose proof (slot_step q i _ Hq Hi eq_refl) as Hst. destruct (slot_view (q_entries q) i) as [a|] eqn:Ev.
  - destruct Hst as (e & m & Eo & Ea & En & Eg). rewrite Eg. cbn [mbind outcome_bind]. rewrite Eo. cbn [deref mbind outcome_bind].
    rewrite En in *. assert (Hm : Z.to_nat (slot_size (q_entries q) - (i + 1)) = m) by lia. cbn [collect]. rewrite Ea. unfold matched.
    cbn [change_list]. rewrite (proj2 (Z.leb_gt _ _)) by lia. destruct (entry_for es e) as [x|] eqn:Ex.
    + set (e' := mkEntry _ _ _ _). set (q1 := set_entries (q_entries q) (<[a := e']> (objs q)) q).
      assert (Hq1 : queue_ok q1).
      { split; cbn [q1 set_entries q_entries objs]; [apply Hq| |apply (qo_apart _ Hq)]. intros j b Hj.
        destruct (decide (a = b)) as [->|]; [rewrite lookup_insert_eq; eauto|]. rewrite lookup_insert_ne by done. by apply (qo_objs _ Hq j). }
      assert (Ho1 : forall j, j <> i -> entry_at q1 j = entry_at q j).
      { intros j Hj. unfold entry_at. cbn [q1 set_entries q_entries objs]. destruct (slot_view (q_entries q) j) as [b|] eqn:Eb; [|done].
        cbn [mbind option_bind]. apply lookup_insert_ne. intros ->. apply Hj. by eapply (qo_apart _ Hq). }
      destruct (IH q1 (i + 1) (ch + 1) Hq1) as (ch' & q' & -> & Hok & He & Hc & Hn & Hlow); [lia|cbn [q1 set_entries q_entries]; lia|lia|].
      cbn [q1 set_entries q_entries] in *. rewrite Hm in *. rewrite (collect_ext (entry_at q1) (entry_at q) (i + 1)) in Hc, Hn by (intros j Hj; apply Ho1; lia).
      exists ch', q'. rewrite filter_cons_True by eauto. split_and!; try done.
      * rewrite Hlow by lia. assert (E1 : entry_at q1 i = Some e').
        { unfold entry_at. cbn [q1 set_entries q_entries objs]. rewrite Ev. cbn [mbind option_bind]. apply lookup_insert_eq. }
        rewrite E1, Hc. do 2 f_equal. lia.
      * rewrite Hn. unfold matched, zlen. cbn [length]. lia.
      * intros j Hj. rewrite Hlow by lia. apply Ho1. lia.
    + destruct (IH q (i + 1) ch Hq) as (ch' & q' & -> & Hok & He & Hc & Hn & Hlow); [lia|lia|lia|]. rewrite Hm in *.
      exists ch', q'. rewrite filter_cons_False by (rewrite Ex; by intros [? ?]). split_and!; try done.
      * rewrite Hlow, Ea by lia. by rewrite Hc.
      * intros j Hj. apply Hlow. lia.
  - destruct Hst as (Ea & [[Eg En]|(m & Eg & En)]); rewrite Eg; cbn [mbind outcome_bind]; rewrite En in *; cbn [collect].
    + exists ch, q. split_and!; try done. change (zlen (matched es [])) with 0. lia.
    + rewrite Ea. destruct (IH q (i + 1) ch Hq) as (ch' & q' & -> & Hok & He & Hc & Hn & Hlow); [lia|lia|lia|].
      assert (Hm : Z.to_nat (slot_size (q_entries q) - (i + 1)) = m) by lia. rewrite Hm in *.
      exists ch', q'. split_and!; try done; [by rewrite Hlow, Ea by lia|]. intros j Hj. apply Hlow. lia.
Qed.

Lemma remove_one q i a t : queue_ok q -> slot_view (q_entries q) i = Some a ->
  slot_changed (q_entries q) t i None -> slot_size t = slot_size (q_entries q) ->
  let q' := set_entries t (delete a (objs q)) q in
  queue_ok q' /\ entry_at q' i = None /\ forall j, j <> i -> entry_at q' j = entry_at q j.
Proof.
  intros Hq Hi [Hok Hv] Hsz q'.
  assert (Hna : forall j b, j <> i -> slot_view (q_entries q) j = Some b -> a <> b).
  { intros j b Hj Hb ->. apply Hj. by eapply (qo_apart _ Hq). }
  split_and!; [split|..]; unfold entry_at; cbn [q' set_entries q_entries objs]; [done| | | |].
  - intros j b. rewrite Hv. destruct (Z.eqb_spec j i) as [->|Hj]; [done|]. intros Hb.
    rewrite lookup_delete_ne by (by apply (Hna j)). by apply (qo_objs _ Hq j).
  - intros j l b. rewrite !Hv. destruct (Z.eqb_spec j i), (Z.eqb_spec l i); subst; try done. apply (qo_apart _ Hq).
  - by rewrite Hv, Z.eqb_refl.
  - intros j Hj. rewrite Hv. destruct (Z.eqb_spec j i); [done|]. destruct (slot_view (q_entries q) j) as [b|] eqn:Eb; [|done].
    cbn [mbind option_bind]. apply lookup_delete_ne. by apply (Hna j).
Qed.

Lemma queue_delete_spec fuel es q h i : queue_ok q -> 0 <= i -> (Z.to_nat (slot_size (q_entries q) - i) < fuel)%nat -> es <> [] ->
  exists q' h', queue_delete fuel i es q h = Ok (0, q', h') /\ queue_ok q' /\ slot_size (q_entries q') = slot_size (q_entries q) /\
    collect (entry_at q') i (Z.to_nat (slot_size (q_entries q) - i)) =
      unmatched es (collect (entry_at q) i (Z.to_nat (slot_size (q_entries q) - i))) /\
    (forall j, j < i -> entry_at q' j = entry_at q j).
Proof.
  intros Hq Hi Hf Hne. revert q h i Hq Hi Hf. induction fuel as [|fuel IH]; intros q h i Hq Hi Hf; [lia|]. cbn [queue_delete].
  destruct (Z.leb_spec (zlen es) 0); [destruct es; [done|unfold zlen in *; cbn in *; lia]|].
  pose proof (slot_step q i _ Hq Hi eq_refl) as Hst. destruct (slot_view (q_entries q) i) as [a|] eqn:Ev.
  - destruct Hst as (e & m & Eo & Ea & En & Eg). rewrite Eg. cbn [mbind outcome_bind]. rewrite Eo. cbn [deref mbind outcome_bind].
    rewrite En in *. assert (Hm : Z.to_nat (slot_size (q_entries q) - (i + 1)) = m) by lia. cbn [collect]. rewrite Ea. unfold unmatched.
    destruct (entry_for es e) as [x|] eqn:Ex.
    + destruct (slot_remove_one _ _ _ (qo_slots _ Hq) Ev) as (t & -> & Hch & Hsz). cbn [mbind outcome_bind].
      destruct (remove_one q i a t Hq Ev Hch Hsz) as (Hq1 & Hi1 & Ho1). set (q1 := set_entries t _ q) in *.
      destruct (IH q1 (kfree (Some a) h) (i + 1) Hq1) as (q' & h' & -> & Hok & He & Hc & Hlow); [lia|cbn [q1 set_entries q_entries]; lia|].
      cbn [q1 set_entries q_entries] in *. rewrite Hsz, Hm in *.
      rewrite (collect_ext (entry_at q1) (entry_at q) (i + 1)) in Hc by (intros j Hj; apply Ho1; lia).
      exists q', h'. rewrite filter_cons_False by congruence. split_and!; try done.
      * by rewrite Hlow, Hi1 by lia.
      * intros j Hj. rewrite Hlow by lia. apply Ho1. lia.
    + destruct (IH q h (i + 1) Hq) as (q' & h' & -> & Hok & He & Hc & Hlow); [lia|lia|]. rewrite Hm in *.
      exists q', h'. rewrite filter_cons_True by done. split_and!; try done.
      * rewrite Hlow, Ea by lia. by rewrite Hc.
      * intros j Hj. apply Hlow. lia.
  - destruct Hst as (Ea & [[Eg En]|(m & Eg & En)]); rewrite Eg; cbn [mbind outcome_bind]; rewrite En in *; cbn [collect].
    + exists q, h. by split_and!.
    + rewrite Ea. destruct (IH q h (i + 1) Hq) as (q' & h' & -> & Hok & He & Hc & Hlow); [lia|lia|].
      assert (Hm : Z.to_nat (slot_size (q_entries q) - (i + 1)) = m) by lia. rewrite Hm in *.
      exists q', h'. split_and!; try done; [by rewrite Hlow, Ea by lia|]. intros j Hj. apply Hlow. lia.
Qed.

(** What [queue_mod_entries] does to the list of entries, and its result.  Entries of
    one descriptor each all get their change. *)
Definition modified (flag : Z) (es l l' : list queue_entry) (n : Z) : Prop :=
  (flag = QUEUE_MOD_ADD -> 0 <= n <= zlen es /\ l' ≡ₚ l ++ ztake n es) /\
  (flag = QUEUE_MOD_CHANGE -> l' = change_list (zlen es) es l /\ n = Z.min (zlen es) (zlen (matched es l)) /\
     (NoDup (q_fd <$> l) -> l' = change es <$> l /\ n = zlen (matched es l))) /\
  (flag = QUEUE_MOD_DELETE -> l' = unmatched es l /\ n = 0).

Lemma unmatched_nil l : unmatched [] l = l.
Proof. unfold unmatched. induction l as [|e l IH]; [done|]. rewrite filter_cons_True by done. by rewrite IH. Qed.

(** An allocation that fails in the middle of growing the table. *)
Definition lost_while_adding (flag : Z) (es : list queue_entry) (q q' : queue) (n : Z) : Prop :=
  flag = QUEUE_MOD_ADD /\ 0 <= n < zlen es /\
  exists q1, queue_ok q1 /\ contents q1 ≡ₚ contents q ++ ztake n es /\ table_lost q1 q'.

Lemma queue_modify_spec fuel flag es q h :
  queue_ok q -> slot_size (q_entries q) + 64 * (zlen es + 1) < 2 ^ 32 -> (capacity q < fuel)%nat ->
  flag = QUEUE_MOD_ADD \/ flag = QUEUE_MOD_CHANGE \/ flag = QUEUE_MOD_DELETE ->
  exists n q' h', queue_modify fuel flag es q h = Ok (n, q', h') /\
    (queue_ok q' /\ modified flag es (contents q) (contents q') n \/ lost_while_adding flag es q q' n).
Proof.
  intros Hq Hsz Hf Hflag. unfold queue_modify. unfold capacity in Hf.
  assert (Hcap : Z.to_nat (slot_size (q_entries q) - 0) = Z.to_nat (slot_size (q_entries q))) by (f_equal; lia).
  destruct Hflag as [->|[->| ->]]; unfold modified; cbn [Z.eqb QUEUE_MOD_ADD QUEUE_MOD_CHANGE QUEUE_MOD_DELETE Pos.eqb].
  - destruct (queue_add_spec es q h Hq Hsz) as (n & q' & h' & -> & Hn & q1 & Hok & HP & Hq1). exists n, q', h'. split; [done|].
    destruct Hq1 as [->|[Hl Hlt]]; [left; by split_and!|right]. split_and!; [done|lia|lia|by exists q1].
  - destruct (queue_change_spec fuel es q 0 0 Hq) as (n & q' & -> & Hok & He & Hc & Hn & _); [lia|lia|apply zlen_nonneg|].
    cbn [mbind outcome_bind]. exists n, q', h. split; [done|left]. rewrite Hcap in *. unfold contents, capacity. rewrite He.
    rewrite !Z.sub_0_r, Z.add_0_l in *. split_and!; try done. intros _. split_and!; [done|done|].
    intros Hnd. pose proof (matched_length es _ Hnd) as Hm. rewrite Hc, Hn. split; [by apply change_list_all|lia].
  - destruct es as [|e es].
    + destruct fuel as [|fuel]; [lia|]. exists 0, q, h. split; [done|left]. split_and!; try done. intros _. by rewrite unmatched_nil.
    + destruct (queue_delete_spec fuel (e :: es) q h 0 Hq) as (q' & h' & -> & Hok & He & Hc & _); [lia|lia|done|].
      exists 0, q', h'. split; [done|left]. rewrite Hcap in *. unfold contents, capacity. rewrite He. by split_and!.
Qed.

End Abstract.

(** ** An instance *)

(** Inode 3 always has data; it is never closed. *)
#[local] Instance readable_inodes : Inodes (gset Z) := {
  i_read _ _ := None; i_write _ _ := None; i_close _ _ := None; i_truncate _ _ := None;
  i_has_data _ i := if i =? 3 then Some 1 else None; i_can_write _ _ := None; i_is_open_op _ _ := Some 1; i_is_open _ _ := 1;
  i_type _ _ := 0; i_object_type _ _ := OBJECT_QUEUE; i_file_size _ _ := 0; i_vm_object _ _ := None;
  vm_size _ _ := 0; vm_pages _ _ := []; vm_refs _ _ := 0; set_vm_refs _ _ f := f;
  i_stat _ _ := None; i_open _ _ := None; i_create_file _ _ := None; i_create_directory _ _ := None;
  i_unlink _ _ := None; i_free i f := f ∖ {[i]}
}.

(** A queue that waits for data on descriptor 0, its entry in slot 0. *)
Definition sample_queue : queue_list relist := mkQueue one_table {[ 7 := mkEntry 0 1 5 0 ]} 1.

Lemma sample_queue_ok : queue_ok sample_queue.
Proof.
  split; cbn [sample_queue q_entries objs].
  - exact one_table_ok.
  - intros i a. change (slot_view one_table i) with (rl_view one_table i). rewrite one_table_view. destruct (i =? 0); [|done].
    intros [= <-]. rewrite lookup_singleton_eq. eauto.
  - intros i j a. change (slot_view one_table i) with (rl_view one_table i). change (slot_view one_table j) with (rl_view one_table j).
    rewrite !one_table_view. destruct (Z.eqb_spec i 0), (Z.eqb_spec j 0); congruence.
Qed.

Lemma sample_contents : contents sample_queue = [mkEntry 0 1 5 0].
Proof. vm_compute. reflexivity. Qed.


(** The entry is reported when the file has data. *)
Example queue_reports :
  exists k, queue_get_entries 100 10 sample_queue one_kernel = Ok ([mkEntry 0 1 5 0], k).
Proof. eexists. vm_compute. reflexivity. Qed.

(** [QUEUE_MOD_DELETE] removes the entry and reports that it removed none. *)
Example delete_reports_nothing :
  match queue_modify 100 QUEUE_MOD_DELETE [mkEntry 0 0 0 0] sample_queue 4096 with
  | Ok (n, q', _) => n = 0 /\ contents q' = []
  | _ => False
  end.
Proof. vm_compute. done. Qed.

(** A descriptor that is not a queue, or not open, stops the kernel. *)
Example queue_wait_panics : queue_wait (ret tt) 100 5 1 sample_queue id one_kernel = Panic.
Proof. vm_compute. reflexivity. Qed.
End EventQueue.
