(* ===== verification/Shm.v ===== *)
(** kernel/fs/shm.c: shared memory objects, found by name.

    An object has the bytes that are mapped at its address; taking and giving back a
    region of the kernel's memory is an interface, which says what arch/i386/mmu.c
    promises.  Creating the inode and the descriptor for an object is the business of
    vfs.c; here a descriptor is the object it designates. *)

From stdpp Require Import base numbers list gmap.
From Stdlib Require Import ZArith Lia.
From S2P Require Import Prelude Bytes Alloc KString Mmu Hashmap Vfs.

Open Scope Z_scope.

Module Shm.

Definition EFBIG : Z := 22.
Definition ENOMEM : Z := 49.

(** [struct vfs_vm_object]; [o_bytes] is what is mapped at [virtual_object], [o_array] the
    address of the array of frames. *)
Record vm_object : Type := mkObject {
  real_pointer : Z;
  o_bytes : list Z;
  o_array : option Z;
  o_frames : list Z;
  o_size : Z;
  num_of_references : Z
}.

(** [region_new n]: the address of a free range, and its bytes and frames if there was
    memory for it. *)
Class Regions (M : Type) : Type := {
  region_new : Z -> M -> Z * option (list Z * list Z) * M;
  region_free : Z -> Z -> M -> M
}.

Class RegionLaws (M : Type) `{Regions M} : Prop := {
  region_new_size : forall n m p b f m', region_new n m = (p, Some (b, f), m') -> 0 < p /\ zlen b = n
}.

Section Shm.
Context {M H : Type} `{Regions M, Allocator H}.

Record shm : Type := mkShm {
  shared_memory_objects : HashMap;
  objects : gmap Z vm_object;
  s_memory : M;
  s_heap : H
}.

Definition shm_init (m : M) (h : H) : shm := mkShm (hashmap_create 10) ∅ m h.

Definition obj_at (i : Z) (st : shm) : outcome vm_object := deref (objects st !! i).
Definition put_obj (i : Z) (o : vm_object) (st : shm) : shm :=
  mkShm (shared_memory_objects st) (<[i := o]> (objects st)) (s_memory st) (s_heap st).

(** The part of a transfer that lies in the object; [None]: it starts behind it. *)
Definition clamp_len (o : vm_object) (offset len : Z) : option Z :=
  if o_size o <? offset then None
  else if o_size o <? u64 (offset + len) then Some (u64 (o_size o - offset)) else Some len.

Definition shm_write (i : Z) (buffer : list Z) (offset len : Z) (st : shm) : outcome (Z * shm) :=
  o ← obj_at i st;
  match clamp_len o offset len with
  | None => Ok (- EFBIG, st)
  | Some len =>
    b ← memcpy_at (o_bytes o) offset buffer 0 len;
    Ok (i32 len, put_obj i (mkObject (real_pointer o) b (o_array o) (o_frames o) (o_size o) (num_of_references o)) st)
  end.

Definition shm_read (i : Z) (buffer : list Z) (offset len : Z) (st : shm) : outcome (Z * list Z) :=
  o ← obj_at i st;
  match clamp_len o offset len with
  | None => Ok (- EFBIG, buffer)
  | Some len => b ← memcpy_at buffer 0 (o_bytes o) offset len; Ok (i32 len, b)
  end.

(** The old memory is given back before the new is asked for; the size and
    [virtual_object] stay when there is none. *)
Definition shm_ftruncate (i length : Z) (st : shm) : outcome (Z * shm) :=
  o ← obj_at i st;
  let m := if real_pointer o =? 0 then s_memory st else region_free (real_pointer o) (align_page (o_size o)) (s_memory st) in
  let kept := if real_pointer o =? 0 then o_bytes o else [] in
  match region_new length m with
  | (p, None, m) =>
    Ok (- ENOMEM, mkShm (shared_memory_objects st)
      (<[i := mkObject p kept (o_array o) (o_frames o) (o_size o) (num_of_references o)]> (objects st)) m (s_heap st))
  | (p, Some (b, frames), m) =>
    let n := align_page length / 0x1000 in
    match krealloc (o_array o) (4 * n) (s_heap st) with
    | (None, h) => if n =? 0 then
        Ok (0, mkShm (shared_memory_objects st) (<[i := mkObject p b None [] length (num_of_references o)]> (objects st)) m h)
        else Fault
    | (Some a, h) =>
      Ok (0, mkShm (shared_memory_objects st) (<[i := mkObject p b (Some a) frames length (num_of_references o)]> (objects st)) m h)
    end
  end.

Definition shm_close (i : Z) (st : shm) : outcome shm :=
  o ← obj_at i st;
  c_assert (0 <? num_of_references o) ;;
  Ok (put_obj i (mkObject (real_pointer o) (o_bytes o) (o_array o) (o_frames o) (o_size o) (num_of_references o - 1)) st).

(** The object of the new descriptor, or an error.  [alloc_object], [alloc_entry],
    [alloc_key]: whether the three allocations succeed; a failure of the first is not
    noticed. *)
Definition shm_open (alloc_object alloc_entry alloc_key : bool) (name : list Z) (oflag : Z) (st : shm)
  : outcome ((Z + Z) * shm) :=
  let count (i : Z) (st : shm) : outcome ((Z + Z) * shm) :=
    o ← obj_at i st;
    Ok (inl i, put_obj i (mkObject (real_pointer o) (o_bytes o) (o_array o) (o_frames o) (o_size o) (u32 (num_of_references o + 1))) st) in
  found ← hashmap_get_entry (shared_memory_objects st) name;
  match found with
  | Some i => count i st
  | None =>
    if negb (is_set oflag O_CREAT) then Ok (inr (- ENOENT), st) else
    if negb alloc_object then Fault else
    let i := fresh (dom (objects st)) in
    '(_, map) ← hashmap_add_entry alloc_entry alloc_key (shared_memory_objects st) name i None false;
    count i (mkShm map (<[i := mkObject 0 [] None [] 0 0]> (objects st)) (s_memory st) (s_heap st))
  end.

Definition shm_unlink (name : list Z) (st : shm) : outcome (Z * shm) :=
  found ← hashmap_get_entry (shared_memory_objects st) name;
  match found with
  | None => Ok (- ENOENT, st)
  | Some i =>
    o ← obj_at i st;
    let refs := if num_of_references o =? 0 then 0 else num_of_references o - 1 in
    let '(o, m) := if (refs =? 0) && negb (real_pointer o =? 0) then
        (mkObject 0 [] (o_array o) (o_frames o) 0 refs, region_free (real_pointer o) (align_page (o_size o)) (s_memory st))
      else (mkObject (real_pointer o) (o_bytes o) (o_array o) (o_frames o) (o_size o) refs, s_memory st) in
    '(deleted, map, _) ← hashmap_delete_entry (shared_memory_objects st) name;
    c_assert deleted ;;
    Ok (0, mkShm map (<[i := o]> (objects st)) m (s_heap st))
  end.

(** ** Correctness *)

(** An object whose memory is there. *)
Definition object_ok (o : vm_object) : Prop := zlen (o_bytes o) = o_size o /\ 0 <= o_size o < 2 ^ 31.

Record shm_ok (st : shm) : Prop := {
  so_map : inv (shared_memory_objects st);
  so_named : forall name i, lookup (shared_memory_objects st) name = Some i -> is_Some (objects st !! i);
  so_objects : forall i o, objects st !! i = Some o -> object_ok o
}.

Lemma put_obj_ok st i o o' : shm_ok st -> objects st !! i = Some o -> object_ok o' -> shm_ok (put_obj i o' st).
Proof.
  intros [Hm Hn Ho] Hi Ho'. split; cbn [put_obj shared_memory_objects objects]; [done| |].
  - intros name j Hj. apply lookup_insert_is_Some. destruct (decide (i = j)); [by left|right]. split; [done|by eapply Hn].
  - intros j q. destruct (decide (i = j)) as [->|]; [rewrite lookup_insert_eq; by intros [= <-]|].
    rewrite lookup_insert_ne by done. apply Ho.
Qed.

Lemma clamp_len_spec o offset len : object_ok o -> 0 <= offset <= o_size o -> 0 <= len < 2 ^ 31 ->
  clamp_len o offset len = Some (Z.min len (o_size o - offset)).
Proof.
  intros [_ Hs] Ho Hl. unfold clamp_len. destruct (Z.ltb_spec (o_size o) offset); [lia|].
  rewrite u64_small by lia. destruct (Z.ltb_spec (o_size o) (offset + len)).
  - rewrite u64_small by lia. f_equal. lia.
  - f_equal. lia.
Qed.

(** What [shm_write] stores: the bytes that fit, at the offset, and nothing else. *)
Lemma shm_write_spec st i o data offset : shm_ok st -> objects st !! i = Some o -> 0 <= offset <= o_size o -> zlen data < 2 ^ 31 ->
  let n := Z.min (zlen data) (o_size o - offset) in
  let o' := mkObject (real_pointer o) (splice (o_bytes o) offset (ztake n data)) (o_array o) (o_frames o) (o_size o) (num_of_references o) in
  shm_write i data offset (zlen data) st = Ok (n, put_obj i o' st) /\ shm_ok (put_obj i o' st).
Proof.
  intros Hst Hi Hoff Hd n o'. pose proof (so_objects _ Hst _ _ Hi) as Hok. pose proof Hok as [Hb Hs]. pose proof (zlen_nonneg data).
  unfold shm_write, obj_at. rewrite Hi. cbn [deref mbind outcome_bind]. rewrite clamp_len_spec by (done || lia). fold n.
  rewrite memcpy_at_ok by (unfold n; lia). cbn [mbind outcome_bind]. unfold slice. change (zdrop 0 data) with data.
  rewrite i32_small by (unfold n; lia). split; [done|]. eapply put_obj_ok; [done|exact Hi|]. split; [|done].
  cbn [o' o_bytes o_size]. rewrite zlen_splice; [done|lia|]. rewrite zlen_ztake by (unfold n; lia). unfold n. lia.
Qed.

Lemma shm_read_spec st i o buffer offset : shm_ok st -> objects st !! i = Some o -> 0 <= offset <= o_size o -> zlen buffer < 2 ^ 31 ->
  let n := Z.min (zlen buffer) (o_size o - offset) in
  shm_read i buffer offset (zlen buffer) st = Ok (n, slice offset n (o_bytes o) ++ zdrop n buffer).
Proof.
  intros Hst Hi Hoff Hd n. pose proof (so_objects _ Hst _ _ Hi) as Hok. pose proof Hok as [Hb Hs]. pose proof (zlen_nonneg buffer).
  unfold shm_read, obj_at. rewrite Hi. cbn [deref mbind outcome_bind]. rewrite clamp_len_spec by (done || lia). fold n.
  rewrite memcpy_at_ok by (unfold n; lia). cbn [mbind outcome_bind]. rewrite i32_small by (unfold n; lia). do 2 f_equal.
  unfold splice. assert (Hz : zlen (slice offset n (o_bytes o)) = n).
  { unfold slice. rewrite zlen_ztake; [done|]. rewrite zlen_zdrop; unfold n; lia. }
  rewrite Hz. done.
Qed.

(** Opening by a name that exists. *)
Lemma shm_open_found a b c name oflag st i o : shm_ok st -> lookup (shared_memory_objects st) name = Some i -> objects st !! i = Some o ->
  let o' := mkObject (real_pointer o) (o_bytes o) (o_array o) (o_frames o) (o_size o) (u32 (num_of_references o + 1)) in
  shm_open a b c name oflag st = Ok (inl i, put_obj i o' st) /\ shm_ok (put_obj i o' st).
Proof.
  intros Hst Hn Hi o'. unfold shm_open. rewrite (proj1 (hashmap_add_get _ name 0 None false (so_map _ Hst)) name). cbn [mbind outcome_bind]. rewrite Hn.
  unfold obj_at. rewrite Hi. split; [done|]. eapply put_obj_ok; [done|exact Hi|]. exact (so_objects _ Hst _ _ Hi).
Qed.

(** Opening by a new name: an empty object, and no other name changes its object. *)
Lemma shm_open_creates name oflag st : shm_ok st -> lookup (shared_memory_objects st) name = None -> is_set oflag O_CREAT = true ->
  exists i st', shm_open true true true name oflag st = Ok (inl i, st') /\ shm_ok st' /\
    objects st !! i = None /\ objects st' = <[i := mkObject 0 [] None [] 0 1]> (objects st) /\
    forall name', lookup (shared_memory_objects st') name' = if bool_decide (name' = name) then Some i else lookup (shared_memory_objects st) name'.
Proof.
  intros Hst Hn Ho. set (i := fresh (dom (objects st))).
  destruct (hashmap_add_get _ name i None false (so_map _ Hst)) as (Hg & m' & Ea & Hinv & _ & Hl).
  assert (Hi : objects st !! i = None) by (apply not_elem_of_dom, is_fresh).
  unfold shm_open. rewrite Hg, Hn. cbn [mbind outcome_bind]. rewrite Ho. cbn [negb]. fold i. rewrite Ea. clearbody i. cbn [mbind outcome_bind].
  unfold obj_at. cbn [objects]. rewrite lookup_insert_eq. cbn [deref mbind outcome_bind]. unfold put_obj.
  cbn [objects shared_memory_objects s_memory s_heap real_pointer o_bytes o_array o_frames o_size num_of_references].
  rewrite insert_insert_eq. change (u32 (0 + 1)) with 1.
  exists i. eexists. split; [reflexivity|]. assert (Hl' : forall name', lookup m' name' = if bool_decide (name' = name) then Some i else lookup (shared_memory_objects st) name').
  { intros k. rewrite Hl, Hn, (bool_decide_eq_false_2 (is_Some None)) by (by intros [? ?]). by destruct (bool_decide (k = name)). }
  split_and!; [|done|done|exact Hl']. split; cbn [shared_memory_objects objects]; [done| |].
  - intros k j. rewrite Hl'. destruct (bool_decide (k = name)); intros Hj; [injection Hj as ->; rewrite lookup_insert_eq; eauto|].
    apply lookup_insert_is_Some. destruct (decide (i = j)); [by left|right]. split; [done|by eapply (so_named _ Hst)].
  - intros j o. destruct (decide (i = j)) as [->|]; [rewrite lookup_insert_eq; intros [= <-]; split; cbn; [done|lia]|].
    rewrite lookup_insert_ne by done. apply (so_objects _ Hst).
Qed.

(** Shared memory is shared.  What one program writes into an object is what another
    one reads that opens the object by its name: [shm_write] stores the bytes that lie in the
    object, and nothing else; opening the name gives the same object, and [shm_read] returns
    these bytes.  No transfer leaves the memory of the object, and other objects do not
    change. *)
Theorem shm_shared a b c st name oflag i o data offset :
  shm_ok st -> lookup (shared_memory_objects st) name = Some i -> objects st !! i = Some o ->
  0 <= offset <= o_size o -> zlen data < 2 ^ 31 ->
  let n := Z.min (zlen data) (o_size o - offset) in
  exists st1 st2 o2, shm_write i data offset (zlen data) st = Ok (n, st1) /\
    shm_open a b c name oflag st1 = Ok (inl i, st2) /\ shm_ok st2 /\ objects st2 !! i = Some o2 /\
    (forall buffer, zlen buffer = n -> shm_read i buffer offset n st2 = Ok (n, ztake n data)) /\
    o_bytes o2 = splice (o_bytes o) offset (ztake n data) /\
    (forall j, j <> i -> objects st2 !! j = objects st !! j).
Proof.
  intros Hst Hn Hi Hoff Hd n. pose proof (so_objects _ Hst _ _ Hi) as [Hb Hs]. pose proof (zlen_nonneg data).
  destruct (shm_write_spec st i o data offset Hst Hi Hoff Hd) as [E1 Hok1]. fold n in E1, Hok1.
  set (o1 := mkObject (real_pointer o) (splice (o_bytes o) offset (ztake n data)) _ _ _ _) in *. set (st1 := put_obj i o1 st) in *.
  assert (Hi1 : objects st1 !! i = Some o1) by (cbn [st1 put_obj objects]; apply lookup_insert_eq).
  destruct (shm_open_found a b c name oflag st1 i o1 Hok1 Hn Hi1) as [E2 Hok2]. set (o2 := mkObject _ _ _ _ _ (u32 (num_of_references o1 + 1))) in *. set (st2 := put_obj i o2 st1) in *.
  assert (Hi2 : objects st2 !! i = Some o2) by (cbn [st2 put_obj objects]; apply lookup_insert_eq).
  assert (Hzt : zlen (ztake n data) = n) by (rewrite zlen_ztake; unfold n; lia).
  exists st1, st2, o2. split_and!; [done|done|done|done| |done|].
  - intros buffer Hz. rewrite <- Hz at 1. rewrite (shm_read_spec st2 i o2 buffer offset Hok2 Hi2); cbn [o2 o1 o_size o_bytes]; [|lia|unfold n in *; lia].
    rewrite Hz. replace (Z.min n (o_size o - offset)) with n by (unfold n; lia). do 2 f_equal.
    unfold zdrop at 1. rewrite drop_ge by (unfold zlen in Hz; lia). rewrite app_nil_r. rewrite <- Hzt at 1. apply slice_splice_same; [lia|]. rewrite Hzt. unfold n. lia.
  - intros j Hj. cbn [st2 st1 put_obj objects]. by rewrite !lookup_insert_ne by done.
Qed.
End Shm.

(** ** An instance *)

#[local] Instance endless_regions : Regions Z := {
  region_new n m := (m, Some (replicate (Z.to_nat n) 0, replicate (Z.to_nat (align_page n / 0x1000)) m), m + align_page n);
  region_free _ _ m := m
}.

(** One object of 16 bytes under the name "a". *)
Definition one_object : vm_object := mkObject 0x1000 (replicate 16 0) (Some 4096) [0x1000] 16 1.
Definition one_shm : shm (M := Z) (H := Z) :=
  mkShm (mkMap ([[Hashmap.mkEntry [97] true 5 None]]) 1 1 (fun _ => 0)) {[ 5 := one_object ]} 0x2000 8192.

Lemma one_shm_ok : shm_ok one_shm.
Proof.
  split; cbn [one_shm shared_memory_objects objects].
  - split; cbn; [lia|reflexivity].
  - intros name i. unfold lookup, get_linkedlist_value. change (bucket _ name) with [Hashmap.mkEntry [97] true 5 None].
    cbn [get_linkedlist_entry key]. case_bool_decide; cbn; [|done]. intros [= <-]. rewrite lookup_singleton_eq. eauto.
  - intros i o [<- <-]%lookup_singleton_Some. split; cbn; [reflexivity|lia].
Qed.

Lemma shm_shared_witness :
  exists st1 st2 o2, shm_write 5 [1; 2; 3] 14 3 one_shm = Ok (2, st1) /\
    shm_open true true true [97] 0 st1 = Ok (inl 5, st2) /\ shm_ok st2 /\ objects st2 !! 5 = Some o2 /\
    shm_read 5 [9; 9] 14 2 st2 = Ok (2, [1; 2]).
Proof.
  destruct (shm_shared true true true one_shm [97] 0 5 one_object [1; 2; 3] 14) as (st1 & st2 & o2 & E1 & E2 & Hok & Ho & Hr & _).
  - exact one_shm_ok.
  - reflexivity.
  - reflexivity.
  - cbn. lia.
  - reflexivity.
  - exists st1, st2, o2. split; [exact E1|]. split; [exact E2|]. split; [exact Hok|]. split; [exact Ho|].
    exact (Hr [9; 9] eq_refl).
Defined.

(** ** Behaviour that is not as meant *)

(** [shm_unlink] takes back the reference of a descriptor that is open: closing it fails
    an assertion of the kernel. *)
Example unlink_then_close_panics :
  match shm_unlink [97] one_shm with Ok (0, st) => shm_close 5 st = Panic | _ => False end.
Proof. vm_compute. reflexivity. Qed.

(** [shm_ftruncate] does not keep the contents. *)
Example truncate_loses_contents :
  match shm_write 5 [1; 2; 3] 0 3 one_shm with
  | Ok (_, st) => match shm_ftruncate 5 32 st with Ok (0, st) => shm_read 5 [9; 9; 9] 0 3 st = Ok (3, [0; 0; 0]) | _ => False end
  | _ => False
  end.
Proof. vm_compute. reflexivity. Qed.
End Shm.
