(* ===== verification/UnixSock.v ===== *)
(** Unix domain sockets of kernel/socket.c, with kernel/fs/devfs.c, in which a bound socket
    appears as a file, and [dual_pipe] of kernel/fs/tmpfs.c, the connection itself.

    A socket object is named by a number; [u_sock_of] is [inode->internal_object] of its
    inode.  The inodes of the ends of a pipe are made through an interface beside
    [Inodes]. *)

From stdpp Require Import base numbers list gmap.
From Stdlib Require Import ZArith Lia.
From S2P Require Import Prelude Alloc StateM Bitmap KList SlotTable Relist Process Pipe Poll Vfs Sched Descriptors.

Open Scope Z_scope.

(** ** Device files *)

Module Devfs.

Definition MAX_FILES : Z := 20.

(** The first [num_files] entries of [files]: names and inodes. *)
Abbreviation devfs := (list (list Z * Z)).

(** There is no check of the size of the array. *)
Definition devfs_add_file (path : list Z) (inode : Z) (d : devfs) : outcome devfs :=
  if zlen d <? MAX_FILES then Ok (d ++ [(path, inode)]) else Fault.

(** [isequal_n(name, file, strlen(name))] *)
Fixpoint name_matches (name file : list Z) : bool :=
  match name, file with
  | [], _ => true
  | c :: name, b :: file => (c =? b) && name_matches name file
  | _ :: _, [] => false
  end.

(** The inode whose copy the caller gets. *)
Fixpoint devfs_open (file : list Z) (d : devfs) : option Z :=
  match d with
  | [] => None
  | (name, i) :: d => if name_matches name file then Some i else devfs_open file d
  end.

Lemma name_matches_prefix name file : name_matches name file = true <-> name `prefix_of` file.
Proof.
  revert file. induction name as [|c name IH]; intros file; cbn [name_matches].
  { split; [intros _; apply prefix_nil|done]. }
  destruct file as [|b file]; [split; [done|intros Hp; by apply prefix_nil_not in Hp]|].
  rewrite andb_true_iff, Z.eqb_eq, IH. split.
  - intros [-> Hp]. by apply prefix_cons.
  - intros Hp. split; [by eapply prefix_cons_inv_1|by eapply prefix_cons_inv_2].
Qed.

(** A file is found under its own name when no file added before it has a name that
    begins the name. *)
Lemma devfs_open_found d1 name i d2 :
  Forall (fun f => ~ f.1 `prefix_of` name) d1 -> devfs_open name (d1 ++ (name, i) :: d2) = Some i.
Proof.
  induction 1 as [|[n j] d1 Hn _ IH]; cbn [app devfs_open].
  - by rewrite (proj2 (name_matches_prefix name name)).
  - destruct (name_matches n name) eqn:E; [by apply name_matches_prefix in E|done].
Qed.

(** Every name that begins with the name of a device opens the device. *)
Example devfs_open_prefix : devfs_open [47; 97; 98] [([47; 97], 1); ([47; 97; 98], 2)] = Some 1.
Proof. reflexivity. Qed.

Example devfs_overrun : devfs_add_file [47] 1 (replicate 20 ([], 0)) = Fault.
Proof. reflexivity. Qed.
End Devfs.

(** ** Sockets *)

Module Unix.
Import Devfs.

Record SOCKET : Type := mkSocket { s_fifo : FIFO_FILE; s_path : option (list Z); incoming_fd : option Z }.

(** [un_sockets]: path and socket. *)
Record sockets : Type := mkSockets {
  un_sockets : list (option (list Z * Z));
  u_socks : gmap Z SOCKET;
  u_sock_of : gmap Z Z;
  u_dev : devfs
}.

Definition set_sock (i : Z) (s : SOCKET) (u : sockets) : sockets :=
  mkSockets (un_sockets u) (<[i := s]> (u_socks u)) (u_sock_of u) (u_dev u).

(** [vfs_create_inode] for an end of a pipe, for a socket, for a device file; the links
    between two ends. *)
Class SocketInodes (F : Type) : Type := {
  new_end : SM F Z;
  link_ends : Z -> Z -> F -> F;
  new_socket_inode : SM F Z;
  new_device_inode : SM F Z;
  i_peer : F -> Z -> option Z
}.

Definition new_inode {F} `{Inodes F, !InodeLaws F} (m : SM F Z) : Prop :=
  forall f, exists i f', m f = Ok (i, f') /\ ~ i_live f i /\ i_live f' i /\ forall j, i_live f j -> i_live f' j.

Class SocketLaws (F : Type) `{Inodes F, !InodeLaws F, !SocketInodes F} : Prop := {
  new_end_fresh : new_inode new_end;
  new_socket_fresh : new_inode new_socket_inode;
  link_ends_live : forall i j f x, i_live f x -> i_live (link_ends i j f) x;
  link_ends_peer : forall i j f, i_peer (link_ends i j f) i = Some j /\ i_peer (link_ends i j f) j = Some i
}.

Definition O_RDWR : Z := Z.lor O_READ O_WRITE.
Definition ENOTSOCK : Z := 60.

Section Unix.
Context {F H T V : Type} `{Inodes F, Allocator H, SlotTable T H, SocketInodes F}.
Abbreviation state := (kernel F H T V).
Abbreviation K := (SM state).

(** [dual_pipe] *)
Definition dual_end : K (Z * Z) :=
  i ← in_fs new_end;
  '(fd, _) ← vfs_create_fd (Z.lor O_RDWR O_NONBLOCK) 0 0 i;
  m_assert (negb (fd =? -1)) ;;
  ret (fd, i).

Definition dual_pipe : K (Z * Z) :=
  '(fd0, f_inode) ← dual_end;
  '(fd1, s_inode) ← dual_end;
  modify (fun k => set_fs (link_ends f_inode s_inode (k_fs k)) k) ;;
  ret (fd0, fd1).

(** [for (; e != p && *e != '/'; e--)] from the terminator on. *)
Fixpoint last_part (n : nat) (path : list Z) : list Z :=
  match n with
  | O => path
  | S m => if bool_decide (path !! n = Some 47) then drop n path else last_part m path
  end.

Fixpoint find_socket (name : list Z) (l : list (option (list Z * Z))) : option Z :=
  match l with
  | [] => None
  | Some (path, s) :: l => if bool_decide (name = path) then Some s else find_socket name l
  | None :: l => find_socket name l
  end.

(** The open file of a descriptor is kept while the descriptor is closed. *)
Definition hold_fd (fd : Z) : K Z :=
  a ← get_vfs_fd fd None;
  a ← lift (deref a);
  d ← fd_at a;
  put_fd a (set_refs (reference_count d + 1) d) ;;
  vfs_close fd ;;
  ret a.

(** The call of [fifo_object_write] passes the length as the offset and 0 as the length. *)
Definition uds_open (path : list Z) (u : sockets) : K (Z * sockets) :=
  match find_socket (last_part (length path) path) (un_sockets u) with
  | None => ret (-1, u)
  | Some si =>
    '(fd0, fd1) ← dual_pipe;
    s ← lift (deref (u_socks u !! si));
    h ← gets k_heap;
    '(_, fifo, h) ← lift (fifo_object_write [] (s_fifo s) h);
    modify (set_heap h) ;;
    a ← hold_fd fd1;
    ret (fd0, set_sock si (mkSocket fifo (s_path s) (Some a)) u)
  end.

(** [socket(AF_UNIX, ...)] *)
Definition socket_unix (u : sockets) : K (Z * sockets) :=
  i ← in_fs new_socket_inode;
  '(n, _) ← vfs_create_fd (Z.lor O_RDWR O_NONBLOCK) 0 0 i;
  h ← gets k_heap;
  '(fifo, h) ← lift (create_fifo_object h);
  modify (set_heap h) ;;
  let si := fresh (dom (u_socks u)) in
  ret (n, mkSockets (un_sockets u) (<[si := mkSocket fifo None None]> (u_socks u)) (<[i := si]> (u_sock_of u)) (u_dev u)).

Fixpoint free_socket (l : list (option (list Z * Z))) : nat :=
  match l with None :: _ => O | Some _ :: l => S (free_socket l) | [] => O end.

(** [bind] of a unix socket; the array of 100 sockets has no check either. *)
Definition bind_unix (sockfd : Z) (sun_path : list Z) (u : sockets) : K (Z * sockets) :=
  a ← get_vfs_fd sockfd None;
  match a with
  | None => ret (- EBADF, u)
  | Some a =>
    d ← fd_at a;
    fs ← gets k_fs;
    if negb (i_type fs (inode d) =? FS_TYPE_UNIX_SOCKET) then ret (- ENOTSOCK, u) else
    si ← lift (deref (u_sock_of u !! inode d));
    s ← lift (deref (u_socks u !! si));
    l ← lift (awrite (un_sockets u) (Z.of_nat (free_socket (un_sockets u))) (Some (sun_path, si)));
    i ← in_fs new_device_inode;
    dev ← lift (devfs_add_file sun_path i (u_dev u));
    ret (0, mkSockets l (<[si := mkSocket (s_fifo s) (Some sun_path) (incoming_fd s)]> (u_socks u)) (u_sock_of u) dev)
  end.

Definition bind_has_data (si : Z) (u : sockets) : bool :=
  match u_socks u !! si with Some s => bool_decide (is_Some (incoming_fd s)) | None => false end.

(** [for (; NULL == s->incoming_fd;) poll(...)]; [tasks] is what the other processes do
    each time this one waits. *)
Fixpoint await_incoming (tasks : list (sockets -> state -> sockets * state)) (si : Z) (u : sockets) : K (Z * sockets) :=
  s ← lift (deref (u_socks u !! si));
  match incoming_fd s with
  | Some a => ret (a, u)
  | None =>
    match tasks with
    | [] => no_fuel
    | t :: tasks => fun k => let '(u, k) := t u k in await_incoming tasks si u k
    end
  end.

Definition accept_unix (tasks : list (sockets -> state -> sockets * state)) (socket : Z) (u : sockets) : K (Z * sockets) :=
  a ← get_vfs_fd socket None;
  a ← lift (match a with Some a => Ok a | None => Panic end);
  d ← fd_at a;
  si ← lift (deref (u_sock_of u !! inode d));
  '(b, u) ← await_incoming tasks si u;
  c ← gets current_task;
  index ← add_slot c b;
  index ← lift (match index with Some i => Ok i | None => Panic end);
  e ← fd_at b;
  m_assert (1 <=? reference_count e) ;;
  s ← lift (deref (u_socks u !! si));
  ret (index, set_sock si (mkSocket (s_fifo s) (s_path s) None) u).

(** [socket_write], [socket_read] and [socket_has_data] work on the queue of the socket. *)
Definition socket_write (si : Z) (data : list Z) (u : sockets) : K (Z * sockets) :=
  s ← lift (deref (u_socks u !! si));
  h ← gets k_heap;
  '(rc, fifo, h) ← lift (fifo_object_write data (s_fifo s) h);
  modify (set_heap h) ;;
  ret (rc, set_sock si (mkSocket fifo (s_path s) (incoming_fd s)) u).

Definition socket_read (si len : Z) (u : sockets) : K (Z * list Z * sockets) :=
  s ← lift (deref (u_socks u !! si));
  '(rc, out, fifo) ← lift (fifo_object_read len (s_fifo s));
  ret (rc, out, set_sock si (mkSocket fifo (s_path s) (incoming_fd s)) u).

Definition socket_has_data (si : Z) (u : sockets) : outcome Z := s ← deref (u_socks u !! si); Ok (has_data (s_fifo s)).
End Unix.

(** ** Connecting *)

Section Connect.
Context {F H T V : Type} `{Inodes F, Allocator H, SlotTable T H, SlotView T, AddressSpaces V}.
Context `{!SlotLaws T H, !InodeLaws F, !SpaceLaws V, !SocketInodes F, !SocketLaws F}.
Abbreviation state := (kernel F H T V).
Abbreviation K := (SM state).
Implicit Types (k : state).

Definition has_room (t : T) : Prop :=
  slot_size t + 192 < 2 ^ 32 /\
  exists i j, i <> j /\ 0 <= i < slot_size t /\ slot_view t i = None /\ 0 <= j < slot_size t /\ slot_view t j = None.

(** The current process, whose state was [x], has a new descriptor [fd] for the new open
    file [a] of the inode [i]. *)
Record entered k k' (x : process T) (fd a i : Z) : Prop := {
  en_ok : fds_ok k';
  en_fresh : files k !! a = None;
  en_files : files k' = <[a := mkFd 0 (Z.lor O_RDWR O_NONBLOCK) 0 0 1 i]> (files k);
  en_current : current_task k' = current_task k;
  en_new : ~ i_live (k_fs k) i;
  en_table : exists t', procs k' = <[current_task k := set_table t' x]> (procs k) /\
    slot_view (file_descriptors x) fd = None /\ 0 <= fd /\ slot_changed (file_descriptors x) t' fd (Some a) /\
    slot_size (file_descriptors x) <= slot_size t' <= slot_size (file_descriptors x) + 64
}.

Lemma dual_end_spec k x : fds_ok k -> procs k !! current_task k = Some x -> slot_size (file_descriptors x) + 64 < 2 ^ 32 ->
  (exists j, 0 <= j < slot_size (file_descriptors x) /\ slot_view (file_descriptors x) j = None) ->
  wp dual_end (fun '(fd, i) k' => exists a, entered k k' x fd a i) k.
Proof.
  intros Hk Hx Hr Hj. pose proof Hk as [Hc Hi Hcur]. unfold dual_end.
  destruct (new_end_fresh (k_fs k)) as (i & f' & E & Hn & Hl & Hall). apply (wp_in_fs _ i f'); [done|].
  assert (Hk1 : fds_ok (set_fs f' k)) by (split; [done|intros a d Hd; by apply Hall, (Hi a)|done]).
  apply wp_bind. eapply wp_mono; [apply (vfs_create_fd_spec (set_fs f' k) _ _ _ i x); try done|].
  { intros a d Hd <-. by apply Hn, (Hi a). }
  intros [fd a] k' (Hok & Ha & (x' & t' & Hp' & Hv & Hi0 & Hlow & Hch & Ep & Ec & Es & Eq & Hsz) & Ef).
  assert (x' = x) as -> by (cbn in Hp'; congruence).
  apply wp_assert; [destruct (Z.eqb_spec fd (-1)); [lia|done]|]. apply wp_ret. exists a. split; try done. by exists t'.
Qed.

(** A second descriptor of the same process. *)
Lemma dual_pipe_spec k x : fds_ok k -> procs k !! current_task k = Some x -> has_room (file_descriptors x) ->
  wp dual_pipe (fun '(fd0, fd1) k' => exists k1 k2 x1 a0 a1 i0 i1,
    entered k k1 x fd0 a0 i0 /\ procs k1 !! current_task k = Some x1 /\ entered k1 k2 x1 fd1 a1 i1 /\
    k' = set_fs (link_ends i0 i1 (k_fs k2)) k2 /\ fds_ok k') k.
Proof.
  intros Hk Hx (Hr & i & j & Hij & Hi & Hvi & Hj & Hvj). unfold dual_pipe. apply wp_bind.
  eapply wp_mono; [apply (dual_end_spec k x); [done|done|lia|by exists i]|]. intros [fd0 i0] k1 (a0 & E0).
  destruct (en_table _ _ _ _ _ _ E0) as (t1 & Ep1 & Hv0 & Hfd0 & [Hok1 Hch1] & Hs1).
  set (x1 := set_table t1 x) in *.
  assert (Hx1 : procs k1 !! current_task k1 = Some x1) by (rewrite Ep1, (en_current _ _ _ _ _ _ E0); apply lookup_insert_eq).
  apply wp_bind. eapply wp_mono; [apply (dual_end_spec k1 x1); [by apply (en_ok _ _ _ _ _ _ E0)|done|cbn [x1 set_table file_descriptors]; lia|]|].
  { cbn [x1 set_table file_descriptors]. destruct (Z.eq_dec fd0 i) as [->|].
    - exists j. rewrite Hch1. destruct (Z.eqb_spec j i); [by subst|]. split; [lia|done].
    - exists i. rewrite Hch1. destruct (Z.eqb_spec i fd0); [by subst|]. split; [lia|done]. }
  intros [fd1 i1] k2 (a1 & E1). apply wp_modify, wp_ret. exists k1, k2, x1, a0, a1, i0, i1.
  rewrite (en_current _ _ _ _ _ _ E0) in Hx1. split_and!; try done.
  destruct (en_ok _ _ _ _ _ _ E1) as [Hc2 Hi2 Hcur2]. split; [done| |done].
  intros a d Hd. by apply link_ends_live, (Hi2 a).
Qed.

Lemma fifo_write_nothing (f : FIFO_FILE) (h : H) : 0 <= write_len f <= zlen (data_of (buffer f)) ->
  exists rc f' h', fifo_object_write [] f h = Ok (rc, f', h').
Proof.
  intros Hw. unfold fifo_object_write. destruct (buffer_len f <=? _).
  - destruct (fifo_realloc _ h) as [f' h']. by eexists _, _, _.
  - rewrite memcpy_at_ok by (change (zlen (@nil Z)) with 0; lia). by eexists _, _, _.
Qed.

(** Between [uds_open] of the process [c] and [accept]: the socket holds the open file
    [a1], which no descriptor designates. *)
Record pending k k' (c : Z) (x : process T) (fd0 a0 a1 i0 i1 : Z) : Prop := {
  pe_files : exists d0 d1, files k' = <[a1 := d1]> (<[a0 := d0]> (files k)) /\ inode d0 = i0 /\ inode d1 = i1 /\ reference_count d1 = 1 /\
    consistent (<[a0 := d0]> (files k)) (procs k') /\ (<[a0 := d0]> (files k)) !! a1 = None;
  pe_new : files k !! a0 = None;
  pe_total : total (procs k') a1 = 0;
  pe_live : forall a d, files k' !! a = Some d -> i_live (k_fs k') (inode d);
  pe_inode : forall a d, (exists e, files k !! a = Some e /\ d = e) \/ (a = a0 /\ files k' !! a = Some d) -> inode d <> i1;
  pe_table : exists x', procs k' = <[c := x']> (procs k) /\ slot_view (file_descriptors x') fd0 = Some a0 /\ 0 <= fd0 /\
    slot_ok (file_descriptors x');
  pe_peer : i_peer (k_fs k') i0 = Some i1 /\ i_peer (k_fs k') i1 = Some i0;
  pe_current : current_task k' = c
}.

(** [reference_count++] and [vfs_close]: the descriptor goes, the open file stays. *)
Lemma hand_over k c x fd a d : fds_ok k -> current_task k = c -> procs k !! c = Some x -> 0 <= fd ->
  slot_view (file_descriptors x) fd = Some a -> files k !! a = Some d -> reference_count d = 1 ->
  wp (hold_fd fd)
    (fun a' k' => a' = a /\ files k' = files k /\ k_fs k' = k_fs k /\ current_task k' = c /\
       exists t', slot_changed (file_descriptors x) t' fd None /\ procs k' = <[c := set_table t' x]> (procs k) /\
         consistent (delete a (files k)) (procs k') /\ total (procs k') a = 0) k.
Proof.
  intros Hk Hc Hx Hfd Hv Hd Hr. unfold hold_fd. pose proof Hk as [Hcon _ _]. pose proof (con_tables _ _ Hcon _ _ Hx) as Ht.
  eapply wp_get_vfs_fd; [done|reflexivity|cbn; by rewrite Hc|]. destruct (Z.ltb_spec fd 0); [lia|]. rewrite Hv.
  apply (wp_lift _ a); [done|]. apply (wp_fd_at _ d); [done|]. apply wp_modify.
  set (k1 := set_files _ k). unfold vfs_close. apply wp_bind, wp_gets. cbn [k1 set_files current_task]. rewrite Hc. fold k1.
  destruct (slot_remove_one _ _ _ Ht Hv) as (t' & Er & Hch & Hsz). pose proof (slot_view_range _ _ _ Ht Hv).
  unfold vfs_close_process.
  assert (Eg : get_vfs_fd fd (Some c) k1 = Ok (Some a, k1)).
  { unfold get_vfs_fd. destruct (Z.ltb_spec fd 0); [lia|]. cbn [or_current]. msimpl.
    assert (Ep : proc_at c k1 = Ok (x, k1)) by (unfold proc_at; cbn [k1 set_files procs]; by rewrite Hx). mrun Ep.
    rewrite (slot_get_view _ fd Ht Hfd), Hv. done. }
  apply wp_bind, (wp_ok _ _ _ (Some a) k1); [done|]. cbn beta iota.
  apply (wp_fd_at _ (set_refs 2 d)); [cbn [k1 set_files files]; rewrite Hr; apply lookup_insert_eq|].
  cbn [reference_count set_refs]. apply wp_assert; [done|]. apply wp_modify.
  apply (wp_proc_at _ x); [done|]. eapply wp_lift; [exact Er|]. apply wp_modify. cbn [Z.sub Z.eqb Pos.eqb Z.add Z.opp Z.pos_sub Pos.pred_double].
  apply wp_ret, wp_ret. cbn [files k_fs current_task procs set_files set_procs k1].
  assert (Htot : forall b, total (<[c := set_table t' x]> (procs k)) b = total (procs k) b - c_int (bool_decide (Some a = Some b))).
  { intros b. rewrite (total_changed _ _ _ _ _ _ _ Hx Ht Hch) by lia. rewrite Hv, (bool_decide_false (None = Some b)) by done. cbn [c_int]. lia. }
  destruct (con_refs _ _ Hcon _ _ Hd) as [Hrt _].
  split_and!; [done| |done|done|].
  - rewrite insert_insert_eq. apply insert_id. rewrite Hd. f_equal. destruct d. cbn in *. by subst.
  - exists t'. assert (Hz : total (<[c := set_table t' x]> (procs k)) a = 0) by (rewrite Htot, bool_decide_true by done; cbn [c_int]; lia).
    split_and!; [done|done| |done]. apply (consistent_delete _ (procs k)); [done|by apply tables_changed; [apply (con_tables _ _ Hcon)|apply Hch]| |done].
    intros b Hb. rewrite Htot, bool_decide_false by congruence. cbn [c_int]. lia.
Qed.

Lemma uds_open_spec k x path u si s :
  fds_ok k -> procs k !! current_task k = Some x -> has_room (file_descriptors x) ->
  find_socket (last_part (length path) path) (un_sockets u) = Some si -> u_socks u !! si = Some s ->
  0 <= write_len (s_fifo s) <= zlen (data_of (buffer (s_fifo s))) ->
  wp (uds_open path u) (fun '(fd0, u') k' => exists a0 a1 i0 i1 fifo,
    pending k k' (current_task k) x fd0 a0 a1 i0 i1 /\ u' = set_sock si (mkSocket fifo (s_path s) (Some a1)) u) k.
Proof.
  intros Hk Hx Hroom Hf Hs Hw. unfold uds_open. rewrite Hf. apply wp_bind.
  eapply wp_mono; [by apply (dual_pipe_spec k x)|]. intros [fd0 fd1] k' (k1 & k2 & x1 & a0 & a1 & i0 & i1 & E0 & Hx1 & E1 & -> & Hok).
  rewrite Hs. apply (wp_lift _ s); [done|]. apply wp_gets.
  destruct (fifo_write_nothing (s_fifo s) (k_heap (set_fs (link_ends i0 i1 (k_fs k2)) k2)) Hw) as (rc & fifo & h' & Ew).
  eapply wp_lift; [exact Ew|]. apply wp_modify. set (kh := set_heap h' _). set (c := current_task k) in *.
  assert (Hc1 : current_task k1 = c) by apply (en_current _ _ _ _ _ _ E0).
  assert (Hc2 : current_task kh = c) by (change (current_task k2 = c); by rewrite (en_current _ _ _ _ _ _ E1)).
  destruct (en_table _ _ _ _ _ _ E0) as (t1 & Ep1 & Hv0 & Hfd0 & [Hok1 Hch1] & Hs1). fold c in Ep1.
  assert (x1 = set_table t1 x) as -> by (rewrite Ep1, lookup_insert_eq in Hx1; congruence).
  destruct (en_table _ _ _ _ _ _ E1) as (t2 & Ep2 & Hv1 & Hfd1 & [Hok2 Hch2] & Hs2). rewrite Hc1 in Ep2.
  cbn [set_table file_descriptors] in *. set (x2 := set_table t2 (set_table t1 x)) in *.
  assert (Hx2 : procs kh !! c = Some x2) by (change (procs k2 !! c = Some x2); rewrite Ep2; apply lookup_insert_eq).
  set (d1 := mkFd 0 (Z.lor O_RDWR O_NONBLOCK) 0 0 1 i1) in *. set (d0 := mkFd 0 (Z.lor O_RDWR O_NONBLOCK) 0 0 1 i0) in *.
  pose proof (en_files _ _ _ _ _ _ E0) as Ef1. pose proof (en_files _ _ _ _ _ _ E1) as Ef2. fold d0 in Ef1. fold d1 in Ef2.
  assert (Hv2 : slot_view (file_descriptors x2) fd1 = Some a1) by (cbn [x2 set_table file_descriptors]; rewrite Hch2; by rewrite Z.eqb_refl).
  apply wp_bind. eapply wp_mono; [apply (hand_over kh c x2 fd1 a1 d1); try done|].
  { destruct Hok as [A B C]. by split. }
  { change (files k2 !! a1 = Some d1). rewrite Ef2. apply lookup_insert_eq. }
  intros a k3 (-> & Ef3 & Es3 & Ec3 & t3 & [Hok3 Hch3] & Ep3 & Hcon & Htot). apply wp_ret.
  exists a0, a1, i0, i1, fifo. split; [|done].
  change (files kh) with (files k2) in *. change (procs kh) with (procs k2) in *. rewrite Ef2, Ef1 in *.
  pose proof (en_fresh _ _ _ _ _ _ E1) as Hf1. rewrite Ef1 in Hf1.
  rewrite delete_insert_id in Hcon by done.
  assert (Hne : a0 <> a1) by (intros ->; by rewrite lookup_insert_eq in Hf1).
  pose proof (en_ok _ _ _ _ _ _ E0) as [_ Hl1 _].
  split.
  - exists d0, d1. by split_and!.
  - apply (en_fresh _ _ _ _ _ _ E0).
  - done.
  - rewrite Ef3, Es3. intros b d Hb. destruct Hok as [_ Hl _]. by apply (Hl b); cbn; rewrite Ef2.
  - intros b d Hb Ei. apply (en_new _ _ _ _ _ _ E1). rewrite <- Ei. destruct Hb as [(e & He & ->)|[-> Hb]].
    + apply (Hl1 b). rewrite Ef1. destruct (decide (a0 = b)) as [->|]; [|by rewrite lookup_insert_ne]. by rewrite (en_fresh _ _ _ _ _ _ E0) in He.
    + apply (Hl1 a0). rewrite Ef1, lookup_insert_eq. rewrite Ef3, lookup_insert_ne, lookup_insert_eq in Hb by done. done.
  - exists (set_table t3 x2). split_and!; [|cbn [set_table file_descriptors]|done|done].
    + rewrite Ep3, Ep2, Ep1. by rewrite !insert_insert_eq.
    + rewrite Hch3. destruct (Z.eqb_spec fd0 fd1) as [->|].
      { rewrite Hch1, Z.eqb_refl in Hv1. done. }
      cbn [x2 set_table file_descriptors]. rewrite Hch2. destruct (Z.eqb_spec fd0 fd1); [done|]. by rewrite Hch1, Z.eqb_refl.
  - rewrite Es3. cbn [kh set_heap k_fs set_fs]. apply link_ends_peer.
  - done.
Qed.

(** The server: its descriptor [socket] designates the open file [b] of the socket [si], and
    there is a free slot. *)
Definition listens k (p : Z) (y : process T) (socket b : Z) (db : vfs_fd) (si : Z) (u : sockets) : Prop :=
  procs k !! p = Some y /\ 0 <= socket /\ slot_view (file_descriptors y) socket = Some b /\ files k !! b = Some db /\
  u_sock_of u !! inode db = Some si /\ slot_size (file_descriptors y) + 64 < 2 ^ 32 /\
  exists j, 0 <= j < slot_size (file_descriptors y) /\ slot_view (file_descriptors y) j = None.

Lemma accept_spec k k3 c x p y socket b db si s u fd0 a0 a1 i0 i1 fifo tasks :
  fds_ok k -> p <> c -> pending k k3 c x fd0 a0 a1 i0 i1 -> listens k p y socket b db si u -> u_socks u !! si = Some s ->
  let u' := set_sock si (mkSocket fifo (s_path s) (Some a1)) u in
  wp (accept_unix tasks socket u') (fun '(index, u'') k5 => fds_ok k5 /\
    (exists xc d0, procs k5 !! c = Some xc /\ slot_view (file_descriptors xc) fd0 = Some a0 /\ files k5 !! a0 = Some d0 /\ inode d0 = i0) /\
    (exists ys d1, procs k5 !! p = Some ys /\ slot_view (file_descriptors ys) index = Some a1 /\ files k5 !! a1 = Some d1 /\ inode d1 = i1) /\
    i_peer (k_fs k5) i0 = Some i1 /\ i_peer (k_fs k5) i1 = Some i0 /\
    u'' = set_sock si (mkSocket fifo (s_path s) None) u) (set_current p k3).
Proof.
  intros Hk Hpc [Hfiles Hnew Htot Hlive Hino Htab Hpeer Hcur] (Hy & Hs0 & Hvs & Hb & Hsi & Hsz & Hfree) Hs u'.
  destruct Hfiles as (d0 & d1 & Ef & Ei0 & Ei1 & Hr1 & Hcon & Ha1). destruct Htab as (x' & Ep & Hv0 & Hfd0 & Hokx).
  set (k4 := set_current p k3). assert (Hy3 : procs k4 !! p = Some y) by (change (procs k3 !! p = Some y); rewrite Ep; by rewrite lookup_insert_ne).
  pose proof (con_tables _ _ Hcon _ _ Hy3) as Hoky.
  assert (Hb4 : files k4 !! b = Some db).
  { change (files k3 !! b = Some db). rewrite Ef. assert (a1 <> b).
    { intros ->. destruct (decide (a0 = b)) as [->|]; [by rewrite lookup_insert_eq in Ha1|]. rewrite lookup_insert_ne in Ha1 by done. congruence. }
    assert (a0 <> b) by (intros ->; congruence). by rewrite !lookup_insert_ne. }
  assert (Ha0 : a0 <> a1) by (intros ->; by rewrite lookup_insert_eq in Ha1).
  unfold accept_unix.
  assert (Eg : get_vfs_fd socket None k4 = Ok (Some b, k4)).
  { unfold get_vfs_fd. destruct (Z.ltb_spec socket 0); [lia|]. cbn [or_current]. msimpl.
    assert (Epr : proc_at (current_task k4) k4 = Ok (y, k4)) by (unfold proc_at; change (current_task k4) with p; by rewrite Hy3). mrun Epr.
    rewrite (slot_get_view _ socket Hoky Hs0), Hvs. done. }
  apply wp_bind, (wp_ok _ _ _ (Some b) k4); [done|]. apply (wp_lift _ b); [done|]. apply (wp_fd_at _ db); [done|].
  change (u_sock_of u') with (u_sock_of u). rewrite Hsi. apply (wp_lift _ si); [done|].
  assert (Ew : await_incoming tasks si u' k4 = Ok ((a1, u'), k4)).
  { destruct tasks; cbn [await_incoming u' set_sock u_socks]; rewrite lookup_insert_eq; done. }
  apply wp_bind, (wp_ok _ _ _ (a1, u') k4); [done|]. cbn beta iota. apply wp_gets. change (current_task k4) with p.
  apply wp_bind. eapply wp_mono; [by apply (add_slot_spec k4 p y a1)|]. intros r k5 (Ef5 & Hm). destruct r as [index|]; cycle 1.
  { destruct Hm as (_ & _ & _ & Hfull). destruct Hfree as (j & Hj & Hvj). by destruct (Hfull j Hj). }
  destruct Hm as ((y' & t' & Hy' & Hvi & Hi0 & Hlow & [Hokt Hch] & Ep5 & Ec5 & Es5 & _ & _) & Htot5 & _ & _).
  assert (y' = y) as -> by congruence. apply (wp_lift _ index); [done|].
  change (files k4) with (files k3) in *. change (procs k4) with (procs k3) in *. change (k_fs k4) with (k_fs k3) in *.
  assert (Hd1 : files k5 !! a1 = Some d1) by (rewrite Ef5, Ef; apply lookup_insert_eq).
  apply (wp_fd_at _ d1); [done|]. apply wp_assert; [by rewrite Hr1|]. cbn [u' set_sock u_socks]. rewrite lookup_insert_eq.
  eapply wp_lift; [done|]. apply wp_ret. cbn beta iota.
  assert (Hc5 : procs k5 !! c = Some x') by (rewrite Ep5, lookup_insert_ne by done; rewrite Ep; apply lookup_insert_eq).
  assert (Hp5 : procs k5 !! p = Some (set_table t' y)) by (rewrite Ep5; apply lookup_insert_eq).
  split_and!; [|exists x', d0; split_and!; [done|done| |done]|exists (set_table t' y), d1; split_and!; [done| |done|done]|by rewrite Es5; apply Hpeer..|].
  - split.
    + rewrite Ef5, Ef. apply (consistent_update _ (procs k3)); [done| |..].
      * rewrite Ep5. by apply tables_changed; [apply (con_tables _ _ Hcon)|].
      * intros e He. rewrite Htot5, bool_decide_false by congruence. cbn [c_int]. lia.
      * rewrite Htot5, bool_decide_true, Htot by done. cbn [c_int]. lia.
      * rewrite Htot5, bool_decide_true, Htot by done. cbn [c_int]. lia.
      * rewrite Ei1. intros e d He Hd. apply (Hino e). destruct (decide (a0 = e)) as [->|].
        { right. split; [done|]. rewrite Ef, lookup_insert_ne by done. done. }
        left. exists d. rewrite lookup_insert_ne in Hd by done. done.
    + rewrite Ef5, Es5. exact Hlive.
    + rewrite Ec5. change (current_task k4) with p. rewrite Hp5. eauto.
  - rewrite Ef5, Ef, lookup_insert_ne, lookup_insert_eq by done. done.
  - cbn [set_table file_descriptors]. by rewrite Hch, Z.eqb_refl.
  - unfold u', set_sock. cbn [un_sockets u_socks u_sock_of u_dev s_fifo s_path]. by rewrite insert_insert_eq.
Qed.

(** C27: a client and a server meet.  When a process opens the path a unix socket is bound
    to and the process that owns the socket then accepts, each has a descriptor for one of
    the two ends of a new pipe, the ends are linked to each other, the counts of all open
    files are again exact, and the socket is ready for the next connection. *)
Theorem connect_accept_meet k x path u si s p y socket b db tasks :
  fds_ok k -> procs k !! current_task k = Some x -> has_room (file_descriptors x) -> p <> current_task k ->
  find_socket (last_part (length path) path) (un_sockets u) = Some si -> u_socks u !! si = Some s ->
  0 <= write_len (s_fifo s) <= zlen (data_of (buffer (s_fifo s))) -> listens k p y socket b db si u ->
  exists fd index u1 u2 k1 k2 a0 a1 xc ys d0 d1,
    uds_open path u k = Ok ((fd, u1), k1) /\ accept_unix tasks socket u1 (set_current p k1) = Ok ((index, u2), k2) /\ fds_ok k2 /\
    procs k2 !! current_task k = Some xc /\ slot_view (file_descriptors xc) fd = Some a0 /\ files k2 !! a0 = Some d0 /\
    procs k2 !! p = Some ys /\ slot_view (file_descriptors ys) index = Some a1 /\ files k2 !! a1 = Some d1 /\
    i_peer (k_fs k2) (inode d0) = Some (inode d1) /\ i_peer (k_fs k2) (inode d1) = Some (inode d0) /\
    incoming_fd <$> u_socks u2 !! si = Some None.
Proof.
  intros Hk Hx Hroom Hp Hf Hs Hw Hl.
  destruct (uds_open_spec k x path u si s Hk Hx Hroom Hf Hs Hw) as ([fd u1] & k1 & E1 & a0 & a1 & i0 & i1 & fifo & Hpe & ->).
  destruct (accept_spec k k1 _ x p y socket b db si s u fd a0 a1 i0 i1 fifo tasks Hk Hp Hpe Hl Hs)
    as ([index u2] & k2 & E2 & Hok & (xc & d0 & Hc & Hv0 & Hd0 & Ei0) & (ys & d1 & Hy & Hv1 & Hd1 & Ei1) & P0 & P1 & ->).
  eexists fd, index, _, _, k1, k2, a0, a1, xc, ys, d0, d1. rewrite Ei0, Ei1. split_and!; try done.
  cbn [set_sock u_socks]. by rewrite lookup_insert_eq.
Qed.
End Connect.

(** ** An instance *)

(** Live inodes, and the other ends. *)
Abbreviation ends := (gset Z * gmap Z Z)%type.

#[local] Instance end_inodes : Inodes ends := {
  i_read _ _ := None; i_write _ _ := None; i_close _ _ := None; i_truncate _ _ := None;
  i_has_data _ _ := None; i_can_write _ _ := None; i_is_open_op _ _ := None; i_is_open _ _ := 1;
  i_type _ _ := FS_TYPE_UNIX_SOCKET; i_object_type _ _ := 0; i_file_size _ _ := 0; i_vm_object _ _ := None;
  vm_size _ _ := 0; vm_pages _ _ := []; vm_refs _ _ := 0; set_vm_refs _ _ f := f;
  i_stat _ _ := None; i_open _ _ := None; i_create_file _ _ := None; i_create_directory _ _ := None;
  i_unlink _ _ := None; i_free i f := (f.1 ∖ {[i]}, f.2)
}.

#[local] Instance end_laws : InodeLaws ends.
Proof.
  refine {| i_live := fun f i => i ∈ f.1 |}.
  - intros f d close _ [=].
  - intros f i j Hj Hne. change (j ∈ f.1 ∖ {[i]}). set_solver.
Defined.

Definition add_inode : SM ends Z := fun f => Ok (fresh f.1, ({[ fresh f.1 ]} ∪ f.1, f.2)).

#[local] Instance end_sockets : SocketInodes ends := {
  new_end := add_inode; new_socket_inode := add_inode; new_device_inode := add_inode;
  link_ends i j f := (f.1, <[i := j]> (<[j := i]> f.2));
  i_peer f i := f.2 !! i
}.

Lemma add_inode_new : new_inode add_inode.
Proof.
  intros f. eexists _, _. split; [reflexivity|]. unfold i_live, end_laws. cbn [fst]. split_and!; [apply is_fresh|set_solver|set_solver].
Qed.

#[local] Instance end_socket_laws : SocketLaws ends.
Proof.
  split; [apply add_inode_new|apply add_inode_new|done|].
  intros i j f. cbn. rewrite lookup_insert_eq. split; [done|]. destruct (decide (i = j)) as [->|]; [by rewrite lookup_insert_eq|].
  by rewrite lookup_insert_ne, lookup_insert_eq.
Qed.

(** A table with [v] in slot 0. *)
Definition slot0 (v : Z) : relist := mkRelist (Some (Block 4096 (replicate 64 v))) 1 1 (Some (Block 8192 [1])).

Lemma slot0_ok v : 0 <= v < 2 ^ 32 -> rl_inv (slot0 v).
Proof. intros Hv. split; cbn; [lia|reflexivity| |reflexivity]. repeat constructor; lia. Qed.

Lemma slot0_view v i : 0 <= v < 2 ^ 32 -> rl_view (slot0 v) i = if i =? 0 then Some v else None.
Proof.
  intros Hv. pose proof (slot0_ok v Hv) as Hok. destruct (Z.eqb_spec i 0) as [->|Hne]; [reflexivity|].
  destruct (Z.leb_spec 0 i); [|unfold rl_view; by destruct (Z.leb_spec 0 i); [lia|]].
  apply rl_view_used; [done|done|]. destruct (used (slot0 v) i) eqn:E; [|done].
  pose proof (used_range _ _ Hok ltac:(done) E) as Hr. cbn in Hr. unfold used, bit_at in E. cbn [bitmap data_of blk_data slot0] in E.
  rewrite Z.div_small, Z.mod_small in E by lia. change (znth [1] 0) with (Some 1) in E.
  cbn beta iota in E. by rewrite (Z.bits_above_log2 1 i) in E by (cbn; lia).
Qed.

Definition proc0 (v : Z) : process relist := set_table (slot0 v) one_process.

(** A client, process 1, and a server, process 2, whose descriptor 0 is a socket. *)
Definition two_kernel : kernel ends Z relist unit :=
  mkKernel {[ 7 := mkFd 0 6 0 0 1 3; 8 := mkFd 0 6 0 0 1 4 ]} {[ 1 := proc0 7; 2 := proc0 8 ]} 1 (Some 1) 3 0 ({[ 3; 4 ]}, ∅) 65536 tt.

Lemma two_kernel_total a : total (procs two_kernel) a = c_int (bool_decide (7 = a)) + c_int (bool_decide (8 = a)).
Proof.
  assert (Hc : forall v, 0 <= v < 2 ^ 32 -> count (slot0 v) a = c_int (bool_decide (v = a))).
  { intros v Hv. unfold count. rewrite (cnt_update _ (fun _ => None) _ 0 (Some v)); [|cbn; lia|intros j; by apply slot0_view].
    rewrite (cnt_beyond 0) by (lia || done). cbn [cnt]. rewrite (bool_decide_false (None = Some a)) by done.
    rewrite (bool_decide_ext (Some v = Some a) (v = a)) by (split; congruence). cbn [c_int]. lia. }
  unfold two_kernel. cbn [procs]. rewrite total_new by done. rewrite <- insert_empty, total_new by done.
  unfold total. rewrite map_fold_empty. cbn [file_descriptors proc0 set_table]. rewrite !Hc by lia. lia.
Qed.

Lemma two_kernel_ok : fds_ok two_kernel.
Proof.
  assert (Hf : forall a d, files two_kernel !! a = Some d -> (a = 7 /\ d = mkFd 0 6 0 0 1 3) \/ (a = 8 /\ d = mkFd 0 6 0 0 1 4)).
  { intros a d. cbn [files two_kernel]. intros [[<- <-]|[_ [<- <-]%lookup_singleton_Some]]%lookup_insert_Some; auto. }
  split; [split|..].
  - intros p x. cbn [procs two_kernel]. intros [[<- <-]|[_ [<- <-]%lookup_singleton_Some]]%lookup_insert_Some; cbn; apply slot0_ok; lia.
  - intros a d Hd. rewrite two_kernel_total. destruct (Hf a d Hd) as [[-> ->]|[-> ->]]; vm_compute; done.
  - intros a. rewrite two_kernel_total. intros Ht. cbn [files two_kernel]. destruct (decide (7 = a)) as [<-|]; [rewrite lookup_insert_eq; eauto|].
    destruct (decide (8 = a)) as [<-|]; [rewrite lookup_insert_ne by done; rewrite lookup_singleton_eq; eauto|].
    rewrite !bool_decide_false in Ht by done. cbn in Ht. lia.
  - intros a b d e Ha Hb Hi. destruct (Hf a d Ha) as [[-> ->]|[-> ->]], (Hf b e Hb) as [[-> ->]|[-> ->]]; done.
  - intros a d Hd. destruct (Hf a d Hd) as [[-> ->]|[-> ->]]; cbn; set_solver.
  - cbn. rewrite lookup_insert_eq. eauto.
Qed.

(** A socket bound to "/w". *)
Definition bound : sockets :=
  mkSockets (Some ([47; 119], 9) :: replicate 99 None) {[ 9 := mkSocket empty_fifo (Some [47; 119]) None ]} {[ 4 := 9 ]} [([47; 119], 6)].

Lemma slot0_room v : 0 <= v < 2 ^ 32 -> has_room (slot0 v).
Proof.
  intros Hv. split; [cbn; lia|]. exists 1, 2. change (slot_size (slot0 v)) with 64. change (slot_view (slot0 v)) with (rl_view (slot0 v)).
  rewrite !slot0_view by done. split_and!; done.
Qed.

Lemma connect_accept_meet_witness :
  exists fd index u1 u2 k1 k2,
    uds_open [47; 100; 47; 119] bound two_kernel = Ok ((fd, u1), k1) /\
    accept_unix [] 0 u1 (set_current 2 k1) = Ok ((index, u2), k2) /\ fds_ok k2.
Proof.
  destruct (connect_accept_meet two_kernel (proc0 7) [47; 100; 47; 119] bound 9 (mkSocket empty_fifo (Some [47; 119]) None) 2 (proc0 8) 0 8
    (mkFd 0 6 0 0 1 4) []) as (fd & index & u1 & u2 & k1 & k2 & a0 & a1 & xc & ys & d0 & d1 & E1 & E2 & Hok & _).
  - exact two_kernel_ok.
  - reflexivity.
  - apply slot0_room. lia.
  - discriminate.
  - reflexivity.
  - reflexivity.
  - split; vm_compute; discriminate.
  - split_and!; try reflexivity; try (cbn; lia). exists 1. split; [cbn; lia|].
    change (slot_view (file_descriptors (proc0 8)) 1) with (rl_view (slot0 8) 1). by rewrite slot0_view by lia.
  - exists fd, index, u1, u2, k1, k2. split; [exact E1|]. split; [exact E2|exact Hok].
Defined.

(** ** Behaviour that is not as meant *)

(** A second client that connects before the server accepts replaces the first, whose
    connection nobody accepts. *)
Example second_connection_replaces_first :
  match uds_open [47; 119] bound two_kernel with
  | Ok ((_, u1), k1) =>
    match uds_open [47; 119] u1 k1 with
    | Ok ((_, u2), _) => (incoming_fd <$> u_socks u1 !! 9, incoming_fd <$> u_socks u2 !! 9) = (Some (Some 10), Some (Some 12))
    | _ => False
    end
  | _ => False
  end.
Proof. vm_compute. reflexivity. Qed.

(** The hundred and first bound socket is stored behind the array. *)
Example bind_overruns :
  bind_unix 0 [47] (mkSockets (replicate 100 (Some ([47], 9))) {[ 9 := mkSocket empty_fifo None None ]} {[ 4 := 9 ]} [])
    (set_current 2 two_kernel) = Fault.
Proof. vm_compute. reflexivity. Qed.
End Unix.
