(* ===== verification/Syscall.v ===== *)
(** kernel/cpu/syscall.c and the user string check of kernel/arch/i386/mmu.c: the
    system calls that do more than pass their arguments on.

    A pointer of the caller is its address; user memory is read through the interface
    [UserPages].  A variable of the caller that a call changes is its value before the
    call, and its value afterwards is a part of the result. *)

From stdpp Require Import base numbers list gmap.
From Stdlib Require Import ZArith Lia Sorted.
From S2P Require Import Prelude Alloc StateM Bytes KString KList SlotTable Relist Mmu Process Poll Vfs Sched Descriptors.

Open Scope Z_scope.

Definition EFAULT : Z := 21.
Definition ENAMETOOLONG : Z := 37.
Definition ENOTTY : Z := 62.
Definition F_GETFL : Z := 0.
Definition F_SETFL : Z := 1.
Definition MSG_WAITALL : Z := 1.

(** ** User memory *)

(** The memory a program sees: the byte at an address, [None] for a page fault, and
    [mmu_is_valid_userpointer]. *)
Class UserPages (V : Type) : Type := {
  user_load : V -> Z -> option Z;
  valid_userpointer : V -> Z -> Z -> bool
}.

(** What [mmu_is_valid_userpointer] is proved to mean for the start of a page. *)
Class UserPagesLaws (V : Type) `{UserPages V} : Prop := {
  valid_page_loads : forall v p a, p mod 0x1000 = 0 -> valid_userpointer v p 0x1000 = true ->
    p <= a < p + 0x1000 -> is_Some (user_load v a)
}.

Definition PAGE_MASK : Z := 0xFFF.

Section UserStrings.
Context {V : Type} `{UserPages V}.

(** The inner loop: the length at the terminator, or the pointer and the count at the
    end of the page. *)
Fixpoint scan_page (n : nat) (v : V) (ptr s : Z) : outcome (Z + Z * Z) :=
  if Z.land ptr PAGE_MASK =? 0 then Ok (inr (ptr, s)) else
  match n with
  | O => NoFuel
  | S n =>
    c ← deref (user_load v ptr);
    if c =? 0 then Ok (inl s) else scan_page n v (u32 (ptr + 1)) (u32 (s + 1))
  end.

(** A page is 0x1000 bytes, and the string is looked at in two pages at most. *)
Fixpoint user_string_loop (fuel : nat) (v : V) (r ptr s : Z) : outcome (option Z) :=
  match fuel with
  | O => NoFuel
  | S fuel =>
    if u32 (ptr - r) <? 0x1000 then
      let page := Z.land ptr (u32 (Z.lnot PAGE_MASK)) in
      if negb (valid_userpointer v page 0x1000) then Ok None else
      let '(ptr, s) := if Z.land ptr PAGE_MASK =? 0 then (u32 (ptr + 1), u32 (s + 1)) else (ptr, s) in
      e ← scan_page 0x1000 v ptr s;
      match e with
      | inl s => Ok (Some s)
      | inr (ptr, s) => user_string_loop fuel v r ptr s
      end
    else Panic
  end.

(** [None]: not valid; else the length stored through [size]. *)
Definition mmu_is_valid_user_c_string (v : V) (ptr : Z) : outcome (option Z) :=
  user_string_loop 3 v ptr ptr 0.

(** [strlen] and [memcpy] with a source in user memory. *)
Fixpoint user_strlen (fuel : nat) (v : V) (ptr i : Z) : outcome Z :=
  match fuel with
  | O => NoFuel
  | S fuel =>
    c ← deref (user_load v (u32 (ptr + i)));
    if c =? 0 then Ok i else user_strlen fuel v ptr (i + 1)
  end.

Fixpoint user_bytes (n : nat) (v : V) (ptr : Z) : outcome (list Z) :=
  match n with
  | O => Ok []
  | S n =>
    c ← deref (user_load v ptr);
    r ← user_bytes n v (u32 (ptr + 1));
    Ok (c :: r)
  end.

Definition copy_and_allocate_user_string {H} `{Allocator H} (v : V) (s : Z) (h : H)
  : outcome (option (block Z) * H) :=
  r ← mmu_is_valid_user_c_string v s;
  match r with
  | None => Ok (None, h)
  | Some len =>
    real_len ← user_strlen 0x2000 v s 0;
    c_assert (real_len =? len) ;;
    match alloc_bytes (u32 (len + 1)) h with
    | (None, h) => Ok (None, h)
    | (Some b, h) =>
      d ← user_bytes (Z.to_nat (len + 1)) v s;
      Ok (Some (Block (blk_addr b) d), h)
    end
  end.
End UserStrings.

Section Syscalls.
Context {F H T V : Type} `{Inodes F, Allocator H, SlotTable T H, AddressSpaces V, UserPages V}.
Abbreviation state := (kernel F H T V).
Abbreviation K := (SM state).

(** What happens until the caller runs again. *)
Variable switch_task : K unit.

(** ** Paths *)

(** The guard of the calls that take a path: the string and its terminator, or the
    error. *)
Definition user_path (ptr : Z) : K (list Z + Z) :=
  v ← gets k_memory;
  r ← lift (mmu_is_valid_user_c_string v ptr);
  match r with
  | None => ret (inr (- EFAULT))
  | Some len =>
    if 256 - 1 <? len then ret (inr (- ENAMETOOLONG)) else
    n ← lift (user_strlen 0x2000 v ptr 0);
    s ← lift (user_bytes (Z.to_nat (n + 1)) v ptr);
    ret (inl s)
  end.

Section Paths.
Variable mounts : list VfsPath.vfs_mounts.
Variable uds_open : list Z -> K Z.

Definition syscall_open (fuel : nat) (file flags mode : Z) : K Z :=
  p ← user_path file;
  match p with
  | inr e => ret e
  | inl path => vfs_open mounts uds_open fuel path flags mode
  end.

Definition syscall_unlink (path : Z) : K Z :=
  p ← user_path path;
  match p with
  | inr e => ret e
  | inl path => vfs_unlink mounts path
  end.

Definition syscall_chroot (fuel : nat) (path : Z) : K Z :=
  p ← user_path path;
  match p with
  | inr e => ret e
  | inl path => vfs_chroot mounts uds_open fuel path
  end.
End Paths.

(** The buffer of the caller after the call. *)
Definition syscall_getcwd (buf : list Z) (size : Z) : K (list Z) :=
  c ← gets current_task;
  x ← proc_at c;
  let cwd := current_working_directory x in
  n ← lift (strlen cwd);
  '(buf, _) ← lift (strlcpy buf cwd (Z.min size n));
  ret buf.

(** ** Descriptors *)

Definition syscall_isatty (fd : Z) : K Z :=
  a ← get_vfs_fd fd None;
  match a with
  | None => ret (- EBADF)
  | Some a =>
    d ← fd_at a;
    if is_tty d =? 0 then ret (- ENOTTY) else ret 1
  end.

Definition syscall_fcntl (fd cmd arg : Z) : K Z :=
  a ← get_vfs_fd fd None;
  match a with
  | None => ret (- EBADF)
  | Some a =>
    d ← fd_at a;
    if F_GETFL =? cmd then ret (flags d)
    else if F_SETFL =? cmd then
      put_fd a (mkFd (offset d) arg (mode d) (is_tty d) (reference_count d) (inode d)) ;; ret 0
    else ret (- EINVAL)
  end.

Definition syscall_fstat (fd buf : Z) : K (Z * Z) :=
  v ← gets k_memory;
  if negb (valid_userpointer v buf 56) then ret (- EFAULT, 0) else vfs_fstat fd.

(** ** sendfile *)

(** The return value, [*offset] and [*error_rc] after the call. *)
Record sent := mkSent { sent_rc : Z; sent_offset : option Z; sent_error : option Z }.

Definition SENDFILE_BUFFER : Z := 8192.

(** [offset] is the variable of the caller, [has_error] says whether [error_rc] is not
    NULL; [vf] is the fuel of the waits inside. *)
Fixpoint sendfile_loop (fuel vf : nat) (out_fd in_fd in_ptr out_ptr : Z) (is_inf has_error : bool)
    (count read_offset real_rc : Z) (offset : option Z) : K sent :=
  match fuel with
  | O => no_fuel
  | S fuel =>
    let stop e := ret (mkSent real_rc offset (if has_error then Some e else None)) in
    if negb ((0 <? count) || is_inf) then stop 0 else
    let read_amount := if is_inf then SENDFILE_BUFFER else Z.min SENDFILE_BUFFER count in
    '(rc, data) ← vfs_pread switch_task vf in_fd read_amount read_offset;
    if rc <? 0 then stop rc else
    if rc =? 0 then stop 0 else
    buffer ← lift (bytes_at data 0 rc);
    d ← fd_at out_ptr;
    rc2 ← vfs_pwrite switch_task vf out_fd buffer (Process.offset d);
    if rc2 <? 0 then stop rc2 else
    let real_rc := i32 (real_rc + rc2) in
    let count := if is_inf then count else u32 (count - rc2) in
    advance out_ptr rc2 ;;
    let read_offset := u64 (read_offset + rc2) in
    offset ← (match offset with
              | Some _ => ret (Some read_offset)
              | None => d ← fd_at in_ptr; put_fd in_ptr (set_offset (u32 read_offset) d) ;; ret None
              end);
    if rc <? read_amount then ret (mkSent real_rc offset (if has_error then Some 0 else None))
    else sendfile_loop fuel vf out_fd in_fd in_ptr out_ptr is_inf has_error count read_offset real_rc offset
  end.

(** [offset]: the address and the value of the variable; [error_rc]: the address. *)
Definition syscall_sendfile (fuel vf : nat) (out_fd in_fd : Z) (offset : option (Z * Z)) (count : Z)
    (error_rc : option Z) : K sent :=
  v ← gets k_memory;
  let fail e := ret (mkSent (u32 (- e)) (snd <$> offset) None) in
  if match offset with Some (p, _) => negb (valid_userpointer v p 8) | None => false end then fail EFAULT else
  if match error_rc with Some p => negb (valid_userpointer v p 4) | None => false end then fail EFAULT else
  a ← get_vfs_fd in_fd None;
  match a with
  | None => fail EBADF
  | Some in_ptr =>
    b ← get_vfs_fd out_fd None;
    match b with
    | None => fail EBADF
    | Some out_ptr =>
      d ← fd_at in_ptr;
      let read_offset := match offset with Some (_, o) => o | None => Process.offset d end in
      r ← sendfile_loop fuel vf out_fd in_fd in_ptr out_ptr (count =? 0) (bool_decide (error_rc <> None))
            count read_offset 0 (snd <$> offset);
      ret (mkSent (u32 (sent_rc r)) (sent_offset r) (sent_error r))
    end
  end.

(** ** recvfrom *)

(** The return value, the bytes stored at [buffer] and at [address], and
    [*address_len]. *)
Record received := mkReceived { r_rc : Z; r_buffer : list Z; r_address : list Z; r_address_len : Z }.

(** [for (; rest;)] with reads of [chunk rest] bytes into [devnull]. *)
Fixpoint discard (fuel vf : nat) (socket rest : Z) (chunk : Z -> Z) : K unit :=
  match fuel with
  | O => no_fuel
  | S fuel =>
    if rest =? 0 then ret tt else
    '(rc, _) ← vfs_pread switch_task vf socket (chunk rest) 0;
    m_assert (0 <=? rc) ;;
    discard fuel vf socket (i32 (rest - rc)) chunk
  end.

(** [address] says whether that pointer is not NULL. *)
Definition syscall_recvfrom (fuel vf : nat) (socket len flags : Z) (address : bool) : K received :=
  (if is_set flags MSG_WAITALL then poll switch_task [mkPollfd socket POLLIN 0] ;; ret tt else ret tt) ;;
  '(_, d) ← vfs_pread switch_task vf socket 4 0;
  n ← lift (le32_at d 0);
  let tmp_socklen := i32 n in
  addr ← (if address then '(_, a) ← vfs_pread switch_task vf socket (u64 tmp_socklen) 0; ret a
          else discard fuel vf socket tmp_socklen (fun r => u64 (Z.min r 100)) ;; ret []);
  '(_, d) ← vfs_pread switch_task vf socket 2 0;
  data_length ← lift (le16_at d 0);
  let read_len := Z.min len data_length in
  '(rc, data) ← vfs_pread switch_task vf socket read_len 0;
  discard fuel vf socket (data_length - read_len) (fun _ => 100) ;;
  ret (mkReceived rc data addr tmp_socklen).

(** ** Waiting and sleeping *)

Definition child_halt (w : waiting) : outcome Z := aread (halts w) (Z.of_nat WAIT_CHILD_HALT).

Fixpoint wait_loop (fuel : nat) : K unit :=
  match fuel with
  | O => no_fuel
  | S fuel =>
    c ← gets current_task;
    on_proc c (fun x => set_wait (set_halted true (set_halts (<[WAIT_CHILD_HALT := 1]> (halts (p_wait x))) (p_wait x))) x) ;;
    switch_task ;;
    c ← gets current_task;
    x ← proc_at c;
    if is_interrupted (p_wait x) then ret tt else
    h ← lift (child_halt (p_wait x));
    if h =? 0 then ret tt else wait_loop fuel
  end.

(** [process_remove_reference(current_task->child); current_task->child = NULL] *)
Definition drop_child : K unit :=
  c ← gets current_task;
  x ← proc_at c;
  ch ← lift (deref (child (p_links x)));
  process_remove_reference ch ;;
  on_proc c (fun x => let l := p_links x in
    set_links (mkLinks (next l) (parent l) None (child_rc l) (dead l) (proc_refs l)) x).

(** What is stored through [status]; [None]: nothing. *)
Definition syscall_wait (fuel : nat) : K (option Z) :=
  c ← gets current_task;
  x ← proc_at c;
  match child (p_links x) with
  | None => ret (Some (-1))
  | Some ch =>
    y ← proc_at ch;
    if dead (p_links y) then drop_child ;; ret (Some (child_rc (p_links x)))
    else
    wait_loop fuel ;;
    c ← gets current_task;
    x ← proc_at c;
    if is_interrupted (p_wait x) then
      put_proc c (set_wait (set_interrupted false (p_wait x)) x) ;; ret None
    else
    ch ← lift (deref (child (p_links x)));
    y ← proc_at ch;
    (if dead (p_links y) then drop_child else ret tt) ;;
    ret (Some (child_rc (p_links x)))
  end.

Definition syscall_msleep (ms : Z) : K unit :=
  c ← gets current_task;
  t ← gets uptime;
  on_proc c (fun x => let w := p_wait x in
    set_wait (mkWait (read_list w) (write_list w) (disconnect_list w) (halts w) (is_interrupted w)
      (is_halted_flag w) (u32 (t + ms))) x) ;;
  switch_task.

Definition syscall_getpid : K Z := c ← gets current_task; x ← proc_at c; ret (pid x).

(** ** The break *)

Definition set_break (e : Z) (x : process T) : process T :=
  set_memory (mkUser (cr3 (p_memory x)) e (maps (p_memory x))) x.

Definition syscall_brk (addr : Z) : K Z :=
  c ← gets current_task;
  x ← proc_at c;
  let e := data_segment_end (p_memory x) in
  ok ← in_space (allocate_region e (u32 (addr - e)));
  if negb ok then ret (- ENOMEM) else
  on_proc c (set_break (align_page addr)) ;;
  ret 0.

(** The old break, or the error as a pointer. *)
Definition syscall_sbrk (increment : Z) : K Z :=
  c ← gets current_task;
  x ← proc_at c;
  let rc := data_segment_end (p_memory x) in
  rc2 ← syscall_brk (u32 (rc + increment));
  if rc2 <? 0 then ret (u32 rc2) else ret rc.

(** ** exec *)

Section ExecCall.
(** [exec] of scheduler.c, with the copies of the path and of the arguments; NULL is
    [None]. *)
Variable exec : option (list Z) -> list (option (list Z)) -> K unit.

(** [for (; args->argv[argc];) argc++]: the pointers in front of the NULL. *)
Fixpoint count_args (fuel : nat) (v : V) (argv : Z) : outcome (list Z) :=
  match fuel with
  | O => NoFuel
  | S fuel =>
    b ← user_bytes 4 v argv;
    p ← le32_at b 0;
    if p =? 0 then Ok [] else r ← count_args fuel v (u32 (argv + 4)); Ok (p :: r)
  end.

Definition copy_user_string (s : Z) : K (option (block Z)) :=
  v ← gets k_memory;
  h ← gets k_heap;
  '(r, h) ← lift (copy_and_allocate_user_string v s h);
  modify (set_heap h) ;;
  ret r.

Fixpoint copy_user_strings (l : list Z) : K (list (option (block Z))) :=
  match l with
  | [] => ret []
  | s :: l => b ← copy_user_string s; r ← copy_user_strings l; ret (b :: r)
  end.

(** [kfree] of the copies. *)
Fixpoint free_all (l : list (option (block Z))) : K unit :=
  match l with
  | [] => ret tt
  | b :: l => modify (fun k => set_heap (kfree (ptr_of b) (k_heap k)) k) ;; free_all l
  end.

(** When [exec] comes back it has failed. *)
Definition syscall_exec (fuel : nat) (path argv : Z) : K Z :=
  filename ← copy_user_string path;
  v ← gets k_memory;
  ptrs ← lift (count_args fuel v argv);
  new_argv ← copy_user_strings ptrs;
  exec (blk_data <$> filename) (fmap (M := option) blk_data <$> new_argv) ;;
  free_all (filename :: new_argv) ;;
  ret (-1).
End ExecCall.
End Syscalls.

(** ** User strings *)

Lemma land_page ptr : Z.land ptr PAGE_MASK = ptr mod 0x1000.
Proof. change PAGE_MASK with (Z.ones 12). by rewrite Z.land_ones by lia. Qed.

Lemma land_page_start ptr : 0 <= ptr < 2 ^ 32 -> Z.land ptr (u32 (Z.lnot PAGE_MASK)) = ptr - ptr mod 0x1000.
Proof.
  intros Hp. change (u32 (Z.lnot PAGE_MASK)) with (Z.shiftl (Z.ones 20) 12).
  rewrite Z.mod_eq by lia. transitivity (Z.shiftl (Z.shiftr ptr 12) 12).
  2:{ rewrite Z.shiftl_mul_pow2, Z.shiftr_div_pow2 by lia. change (2 ^ 12) with 0x1000. lia. }
  apply Z.bits_inj'. intros n Hn. rewrite Z.land_spec, !Z.shiftl_spec by done.
  destruct (Z.ltb_spec n 12); [rewrite !(Z.testbit_neg_r _ (n - 12)) by lia; by rewrite andb_false_r|].
  rewrite Z.shiftr_spec, Z.sub_add by lia.
  destruct (Z.ltb_spec n 32); [rewrite Z.ones_spec_low by lia; by rewrite andb_true_r|].
  rewrite Z.ones_spec_high, andb_false_r by lia. symmetry.
  destruct (Z.eq_dec ptr 0) as [->|]; [by rewrite Z.bits_0|].
  apply Z.bits_above_log2; [lia|]. apply Z.lt_le_trans with 32; [|lia]. apply Z.log2_lt_pow2; lia.
Qed.

Section UserStringLaws.
Context {V : Type} `{UserPagesLaws V}.
Implicit Types v : V.

(** The page of an address is one of the user's. *)
Definition user_ok v (a : Z) : Prop := valid_userpointer v (a - a mod 0x1000) 0x1000 = true.

(** A terminator the check looks at: not in the first byte of a page. *)
Definition seen_end v (a : Z) : Prop := user_load v a = Some 0 /\ a mod 0x1000 <> 0.

Lemma page_address b i : b mod 0x1000 = 0 -> 0 <= i < 0x1000 -> (b + i) mod 0x1000 = i /\ (b + i) - (b + i) mod 0x1000 = b.
Proof.
  intros Hb Hi. assert ((b + i) mod 0x1000 = i).
  { rewrite Z.add_mod, Hb, Z.add_0_l, Z.mod_mod by lia. by apply Z.mod_small. }
  lia.
Qed.

Lemma scan_page_spec v b i s r n :
  b mod 0x1000 = 0 -> 0 <= b -> b + 0x1000 < 2 ^ 32 -> valid_userpointer v b 0x1000 = true ->
  0 < i <= 0x1000 -> 0 <= s -> r + s = b + i -> 0 <= r -> (Z.to_nat (0x1000 - i) <= n)%nat ->
  match scan_page n v (b + i) s with
  | Ok (inl e) => s <= e /\ r + e < b + 0x1000 /\ seen_end v (r + e) /\ (forall j, s <= j < e -> ~ seen_end v (r + j))
  | Ok (inr (ptr, e)) => ptr = b + 0x1000 /\ r + e = ptr /\ (forall j, s <= j < e -> ~ seen_end v (r + j))
  | _ => False
  end.
Proof.
  intros Hb Hb0 Hb1 Hv. revert i s. induction n as [|n IH]; intros i s Hi Hs Hr Hr0 Hn.
  { assert (i = 0x1000) by lia. subst i. cbn [scan_page]. rewrite land_page.
    replace (b + 0x1000) with (b + 1 * 0x1000) by lia. rewrite Z.mod_add, Hb by lia. cbn. split_and!; [lia|lia|]. intros; lia. }
  cbn [scan_page]. rewrite land_page. destruct (Z.eqb_spec i 0x1000) as [->|Hne].
  { replace (b + 0x1000) with (b + 1 * 0x1000) by lia. rewrite Z.mod_add, Hb by lia. cbn. split_and!; [lia|lia|]. intros; lia. }
  destruct (page_address b i Hb ltac:(lia)) as [Hm Hp]. rewrite Hm, (proj2 (Z.eqb_neq i 0)) by lia.
  destruct (valid_page_loads v b (b + i) Hb Hv ltac:(lia)) as [c Hc]. rewrite Hc. cbn [deref mbind outcome_bind].
  destruct (Z.eqb_spec c 0) as [->|Hc0].
  - split_and!; [lia|lia| |intros; lia]. split; [by rewrite Hr|rewrite Hr; lia].
  - rewrite !u32_small by lia. specialize (IH (i + 1) (s + 1) ltac:(lia) ltac:(lia) ltac:(lia) Hr0 ltac:(lia)).
    replace (b + i + 1) with (b + (i + 1)) by lia.
    assert (Hnot : forall j, j = s -> ~ seen_end v (r + j)) by (intros j -> [E _]; rewrite Hr in E; congruence).
    destruct (scan_page n v (b + (i + 1)) (s + 1)) as [[e|[ptr e]]| | |]; try done.
    + destruct IH as (? & ? & ? & Hall). split_and!; [lia|done|done|]. intros j Hj.
      destruct (Z.eq_dec j s); [by apply Hnot|apply Hall; lia].
    + destruct IH as (? & ? & Hall). split_and!; [done|done|]. intros j Hj.
      destruct (Z.eq_dec j s); [by apply Hnot|apply Hall; lia].
Qed.

(** What the check says about the string at [r]. *)
Definition string_verdict v (r : Z) (o : outcome (option Z)) : Prop :=
  match o with
  | Ok (Some n) => 0 <= n /\ (forall j, 0 <= j <= n -> user_ok v (r + j)) /\ seen_end v (r + n) /\
      forall j, 0 <= j < n -> ~ seen_end v (r + j)
  | Ok None => exists m, 0 <= m < 0x1000 /\ ~ user_ok v (r + m) /\
      forall j, 0 <= j < m -> user_ok v (r + j) /\ ~ seen_end v (r + j)
  | Panic => forall j, 0 <= j < 0x1000 -> user_ok v (r + j) /\ ~ seen_end v (r + j)
  | _ => False
  end.

Lemma user_string_loop_spec v r fuel s :
  0 <= r -> r + 0x2000 <= 2 ^ 32 -> 0 <= s -> r + s < 2 ^ 32 -> (0 < fuel)%nat ->
  0x1000 <= s + 0x1000 * (Z.of_nat fuel - 1) - (r + s) mod 0x1000 ->
  (forall j, 0 <= j < s -> user_ok v (r + j) /\ ~ seen_end v (r + j)) ->
  string_verdict v r (user_string_loop fuel v r (r + s) s).
Proof.
  intros Hr Hr1. revert s. induction fuel as [|fuel IH]; intros s Hs Hs1 Hf Hm Hall; [lia|].
  cbn [user_string_loop]. replace (r + s - r) with s by lia. rewrite u32_small by lia.
  pose proof (Z.mod_pos_bound (r + s) 0x1000 ltac:(lia)) as Hmod.
  destruct (Z.ltb_spec s 0x1000); [|intros j Hj; apply Hall; lia].
  rewrite land_page_start, land_page by lia.
  set (i := (r + s) mod 0x1000) in *. set (b := r + s - i) in *.
  assert (Hb : b mod 0x1000 = 0).
  { unfold b, i. rewrite Zminus_mod_idemp_r, Z.sub_diag. done. }
  assert (Hb0 : 0 <= b) by (unfold b, i; pose proof (Z.mod_le (r + s) 0x1000); lia).
  destruct (valid_userpointer v b 0x1000) eqn:Hv; cbn [negb].
  2:{ exists s. split_and!; [lia|lia| |done]. unfold user_ok. fold i. fold b. by rewrite Hv. }
  assert (Hpage : forall j, r + s <= r + j < b + 0x1000 -> user_ok v (r + j)).
  { intros j Hj. unfold user_ok. destruct (page_address b (r + j - b) Hb ltac:(lia)) as [_ E].
    replace (b + (r + j - b)) with (r + j) in E by lia. by rewrite E. }
  set (i' := if i =? 0 then 1 else i). set (s' := if i =? 0 then s + 1 else s).
  replace (if i =? 0 then _ else _) with (b + i', s').
  2:{ unfold i', s'. destruct (Z.eqb_spec i 0) as [E|]; rewrite ?u32_small by lia; f_equal; unfold b; lia. }
  assert (Hskip : forall j, s <= j < s' -> ~ seen_end v (r + j)).
  { unfold s'. destruct (Z.eqb_spec i 0) as [E|]; [|intros; lia]. intros j Hj [_ Hx].
    assert (j = s) by lia. subst j. by apply Hx. }
  assert (Hlow : forall e j, (forall j, s' <= j < e -> ~ seen_end v (r + j)) -> s <= j < e -> ~ seen_end v (r + j)).
  { intros e j Hx Hj. destruct (Z.ltb_spec j s'); [apply Hskip; lia|apply Hx; lia]. }
  assert (Hs' : s <= s' <= s + 1 /\ 0 < i' <= 0x1000 /\ r + s' = b + i').
  { unfold s', i'. destruct (Z.eqb_spec i 0); unfold b; lia. }
  pose proof (scan_page_spec v b i' s' r 0x1000 Hb Hb0 ltac:(lia) Hv ltac:(lia) ltac:(lia) ltac:(lia) Hr ltac:(lia)) as Hscan.
  destruct (scan_page 0x1000 v (b + i') s') as [[e|[ptr e]]| | |]; try done; cbn [mbind outcome_bind].
  - destruct Hscan as (He & Hlt & Hend & Hno). split_and!; [lia| |done|].
    + intros j Hj. destruct (Z.ltb_spec j s); [by apply Hall; lia|apply Hpage; lia].
    + intros j Hj. destruct (Z.ltb_spec j s); [by apply Hall; lia|]. by apply (Hlow e); [|lia].
  - destruct Hscan as (-> & He & Hno). rewrite <- He.
    assert (Hi : (r + e) mod 0x1000 = 0) by (rewrite He; replace (b + 0x1000) with (b + 1 * 0x1000) by lia; by rewrite Z.mod_add by lia).
    apply IH; [lia|lia|lia|rewrite Hi; lia|].
    intros j Hj. destruct (Z.ltb_spec j s); [by apply Hall; lia|]. split; [apply Hpage; lia|]. by apply (Hlow e); [|lia].
Qed.

(** C19: the check of a path or an argument, for a pointer at least 8192 bytes below the
    end of the address space, has one of three outcomes: a string it accepts lies with
    its terminator in pages of the user and has the length it reports, apart from zeros
    in the first byte of a page; a string it refuses leaves the user's pages within 4096
    bytes; and it stops the kernel only if 4096 bytes of the user's pages hold no
    terminator ([long_path_panics]).  There is no other outcome. *)
Theorem user_c_string_checked v ptr :
  0 <= ptr -> ptr + 0x2000 <= 2 ^ 32 -> string_verdict v ptr (mmu_is_valid_user_c_string v ptr).
Proof.
  intros Hp Hp1. unfold mmu_is_valid_user_c_string. pose proof (Z.mod_pos_bound ptr 0x1000 ltac:(lia)).
  replace ptr with (ptr + 0) at 3 by lia. apply user_string_loop_spec; [done|done|lia|lia|lia| |intros; lia].
  rewrite Z.add_0_r. lia.
Qed.
End UserStringLaws.

(** ** sendfile: the bytes that arrive *)

(** What is relied on of the two files: [i] is a regular file with fixed contents, and
    [o] takes some of the bytes of every write. *)
Class SourceSink (F : Type) `{Inodes F} (i o : Z) : Type := {
  ss_data : F -> list Z;
  ss_sink : F -> list Z;
  ss_read : forall f, exists rd, i_read f i = Some rd /\ forall off n d, 0 <= off -> 0 <= n ->
    rd off n d f = Ok (zlen (slice off n (ss_data f)), slice off n (ss_data f), f);
  ss_write : forall f, exists wr, i_write f o = Some wr /\ forall buf off d, buf <> [] ->
    exists n f', wr buf off d f = Ok (n, f') /\ 0 < n <= zlen buf /\
      ss_sink f' = ss_sink f ++ ztake n buf /\ ss_data f' = ss_data f
}.

(** A write takes all bytes. *)
Definition takes_all {F} `{Inodes F} (o : Z) : Prop :=
  forall f wr buf off d n f', i_write f o = Some wr -> wr buf off d f = Ok (n, f') -> n = zlen buf.

Section Sendfile.
Context {F H T V : Type} `{HI : Inodes F, HA : Allocator H, HT : SlotTable T H, HS : AddressSpaces V, HU : UserPages V}.
Context (i o : Z) `{HSS : !SourceSink F i o}.
Abbreviation state := (kernel F H T V).
Abbreviation K := (SM state).
Variable switch_task : K unit.
Implicit Types k : state.

(** Descriptor [fd] of the current process is the open file [a]. *)
Definition designates k (fd a : Z) : Prop :=
  0 <= fd /\ exists x e, procs k !! current_task k = Some x /\ slot_get (file_descriptors x) fd = Ok (Some a, e).

Lemma wp_designated {B} k fd a (m : option Z -> K B) Q :
  designates k fd a -> wp (m (Some a)) Q k -> wp (get_vfs_fd fd None ≫= m) Q k.
Proof.
  intros (Hfd & x & e & Hx & Hg) W. unfold get_vfs_fd. rewrite (proj2 (Z.ltb_ge fd 0)) by done.
  apply wp_bind, wp_bind, (wp_ok _ _ _ (current_task k) k); [done|].
  apply (wp_proc_at _ x); [done|]. eapply wp_lift; [exact Hg|]. by apply wp_ret.
Qed.

Lemma pread_source k fd a d vf n off :
  designates k fd a -> files k !! a = Some d -> is_set (flags d) O_READ = true -> inode d = i -> 0 <= off -> 0 <= n ->
  let s := slice off n (ss_data (k_fs k)) in
  vfs_pread switch_task (S vf) fd n off k = Ok ((zlen s, s), k).
Proof.
  intros Hd Hf Hr Hi Ho Hn s.
  enough (W : wp (vfs_pread switch_task (S vf) fd n off) (fun r k' => r = (zlen s, s) /\ k' = k) k).
  { destruct W as (r & k' & E & -> & ->). exact E. }
  cbn [vfs_pread]. apply (wp_designated k fd a); [done|]. unfold raw_vfs_pread.
  apply wp_bind, (wp_fd_at _ d); [done|]. rewrite Hr. cbn [negb]. apply wp_gets. rewrite Hi.
  destruct (ss_read (k_fs k)) as (rd & -> & Hrd).
  apply (wp_ok _ _ _ (zlen s, s) k); [unfold in_fs; rewrite Hrd by done; by destruct k|].
  pose proof (zlen_nonneg s). rewrite (proj2 (Z.eqb_neq (zlen s) (- EAGAIN))) by (unfold EAGAIN; lia). by apply wp_ret.
Qed.

Lemma pwrite_sink k fd b d vf buf off :
  designates k fd b -> files k !! b = Some d -> is_set (flags d) O_WRITE = true -> inode d = o -> buf <> [] ->
  exists n f', vfs_pwrite switch_task (S vf) fd buf off k = Ok (n, set_fs f' k) /\ 0 < n <= zlen buf /\
    ss_sink f' = ss_sink (k_fs k) ++ ztake n buf /\ ss_data f' = ss_data (k_fs k) /\ (takes_all o -> n = zlen buf).
Proof.
  intros Hd Hf Hw Ho Hb. destruct (ss_write (k_fs k)) as (wr & Ewr & Hwr).
  destruct (Hwr buf off d Hb) as (n & f' & E & Hn & Hs & Hdat). exists n, f'.
  split_and!; [|lia|lia|done|done|intros Hall; by eapply Hall].
  enough (W : wp (vfs_pwrite switch_task (S vf) fd buf off) (fun r k' => r = n /\ k' = set_fs f' k) k).
  { destruct W as (r & k' & E' & -> & ->). exact E'. }
  cbn [vfs_pwrite]. apply (wp_designated k fd b); [done|]. apply (wp_fd_at _ d); [done|]. rewrite Hw. cbn [negb].
  unfold raw_vfs_pwrite. apply wp_bind, (wp_fd_at _ d); [done|]. apply wp_gets. rewrite Ho, Ewr.
  apply (wp_ok _ _ _ n (set_fs f' k)); [unfold in_fs; by rewrite E|].
  rewrite (proj2 (Z.eqb_neq n (- EAGAIN))) by (unfold EAGAIN; lia). by apply wp_ret.
Qed.

(** How many bytes there are to send. *)
Definition to_send (data : list Z) (pos count : Z) (is_inf : bool) : Z :=
  let rest := Z.max 0 (zlen data - pos) in if is_inf then rest else Z.min count rest.

(** The states in which the loop runs. *)
Record sending k (in_fd out_fd a b : Z) (da db : vfs_fd) : Prop := {
  sn_in : designates k in_fd a;
  sn_out : designates k out_fd b;
  sn_apart : a <> b;
  sn_source : files k !! a = Some da;
  sn_target : files k !! b = Some db;
  sn_read : is_set (flags da) O_READ = true /\ inode da = i;
  sn_write : is_set (flags db) O_WRITE = true /\ inode db = o;
  sn_small : zlen (ss_data (k_fs k)) < 2 ^ 31;
  sn_offset : 0 <= Process.offset db < 2 ^ 32
}.

(** What [n] bytes sent from [pos] have changed. *)
Record was_sent k k' (a b : Z) (da db : vfs_fd) (pos n : Z) (given : bool) : Prop := {
  ws_bytes : ss_sink (k_fs k') = ss_sink (k_fs k) ++ slice pos n (ss_data (k_fs k));
  ws_data : ss_data (k_fs k') = ss_data (k_fs k);
  ws_source : files k' !! a = Some (if given then da else set_offset (pos + n) da);
  ws_target : files k' !! b = Some (set_offset (u32 (Process.offset db + n)) db);
  ws_others : forall c, c <> a -> c <> b -> files k' !! c = files k !! c;
  ws_procs : procs k' = procs k /\ current_task k' = current_task k
}.

Lemma set_offset_same d : set_offset (Process.offset d) d = d.
Proof. by destruct d. Qed.

Lemma set_offset_twice d x y : set_offset x (set_offset y d) = set_offset x d.
Proof. by destruct d. Qed.

Lemma was_sent_nothing k in_fd out_fd a b da db pos given :
  sending k in_fd out_fd a b da db -> (given = false -> Process.offset da = pos) ->
  was_sent k k a b da db pos 0 given.
Proof.
  intros [] Hpos. split; try done.
  - by rewrite slice_0, app_nil_r.
  - destruct given; [done|]. rewrite Z.add_0_r, <- Hpos, set_offset_same by done. done.
  - rewrite Z.add_0_r, u32_small, set_offset_same by done. done.
Qed.

Lemma was_sent_more k k1 k' a b da db pos n m given :
  0 <= pos -> 0 <= n -> 0 <= m -> pos + n <= zlen (ss_data (k_fs k)) ->
  was_sent k k1 a b da db pos n given ->
  was_sent k1 k' a b (if given then da else set_offset (pos + n) da)
    (set_offset (u32 (Process.offset db + n)) db) (pos + n) m given ->
  was_sent k k' a b da db pos (n + m) given.
Proof.
  intros Hp Hn Hm Hl [E1 E2 E3 E4 E5 E6] [F1 F2 F3 F4 F5 F6]. split.
  - rewrite F1, E1, E2, <- app_assoc. f_equal. rewrite <- slice_app by lia. done.
  - congruence.
  - rewrite F3. destruct given; [done|]. by rewrite set_offset_twice, Z.add_assoc.
  - rewrite F4, set_offset_twice. f_equal. f_equal. unfold u32, wrap. destruct db; cbn [Process.offset set_offset].
    rewrite Zplus_mod_idemp_l. f_equal. lia.
  - intros c Hca Hcb. rewrite F5, E5 by done. done.
  - destruct F6, E6. split; congruence.
Qed.

Lemma zlen_slice_cut {A} off n (l : list A) : 0 <= off -> 0 <= n -> zlen (slice off n l) = Z.min n (Z.max 0 (zlen l - off)).
Proof. intros. unfold slice, ztake, zdrop, zlen. rewrite length_take, length_drop. lia. Qed.

Lemma bytes_at_all s : bytes_at s 0 (zlen s) = Ok s.
Proof. rewrite <- (app_nil_r s) at 1. by apply bytes_at_app. Qed.

(** One turn that moved [n] bytes: the store of the write, and the two offsets. *)
Lemma turn_sent k in_fd out_fd a b da db pos n f' (given : bool) :
  sending k in_fd out_fd a b da db -> 0 <= pos -> 0 < n -> pos + n <= zlen (ss_data (k_fs k)) ->
  ss_sink f' = ss_sink (k_fs k) ++ slice pos n (ss_data (k_fs k)) -> ss_data f' = ss_data (k_fs k) ->
  let db' := set_offset (u32 (Process.offset db + n)) db in
  let da' := if given then da else set_offset (pos + n) da in
  let k1 := set_files (if given then <[b := db']> (files k) else <[a := da']> (<[b := db']> (files k))) (set_fs f' k) in
  was_sent k k1 a b da db pos n given /\ sending k1 in_fd out_fd a b da' db'.
Proof.
  intros [[? (x & e & Hx)] [? (y & e' & Hy)] Hab Ha Hb Hr Hw Hl Ho] Hp Hn Hle Hs Hd db' da' k1. split.
  - split; [done|done|..].
    + destruct given; cbn; [by rewrite lookup_insert_ne|by rewrite lookup_insert_eq].
    + destruct given; cbn; [by rewrite lookup_insert_eq|]. by rewrite lookup_insert_ne, lookup_insert_eq.
    + intros c Hca Hcb. destruct given; cbn; by rewrite !lookup_insert_ne.
    + done.
  - split; try done.
    + split; [done|]. by exists x, e.
    + split; [done|]. by exists y, e'.
    + destruct given; cbn; [by rewrite lookup_insert_ne|by rewrite lookup_insert_eq].
    + destruct given; cbn; [by rewrite lookup_insert_eq|]. by rewrite lookup_insert_ne, lookup_insert_eq.
    + by destruct given.
    + cbn. by rewrite Hd.
    + cbn. apply Z.mod_pos_bound. lia.
Qed.

Lemma sendfile_loop_spec vf in_fd out_fd a b is_inf he fuel :
  forall k da db count pos real off,
  sending k in_fd out_fd a b da db ->
  0 <= pos < 2 ^ 32 -> 0 <= count < 2 ^ 32 -> 0 <= real ->
  real + Z.max 0 (zlen (ss_data (k_fs k)) - pos) < 2 ^ 31 ->
  match off with Some x => x = pos | None => Process.offset da = pos end ->
  let total := to_send (ss_data (k_fs k)) pos count is_inf in
  (Z.to_nat total < fuel)%nat ->
  wp (sendfile_loop switch_task fuel (S vf) out_fd in_fd a b is_inf he count pos real off)
    (fun r k' => exists n, 0 <= n <= total /\
       r = mkSent (real + n) ((fun _ => pos + n) <$> off) (if he then Some 0 else None) /\
       was_sent k k' a b da db pos n (bool_decide (off <> None)) /\ (takes_all o -> n = total)) k.
Proof.
  induction fuel as [|fuel IH]; intros k da db count pos real off Hk Hpos Hc Hreal Hmax Hoff total Hf; [lia|].
  pose proof Hk as [Hin Hout Hab Ha Hb [Hr Hi] [Hw Ho] Hsmall Hdb].
  assert (Hgiven : bool_decide (off <> None) = false -> Process.offset da = pos) by (by destruct off).
  assert (Hstop : total = 0 -> forall k', k' = k -> exists n, 0 <= n <= total /\
     mkSent real off (if he then Some 0 else None) =
       mkSent (real + n) ((fun _ => pos + n) <$> off) (if he then Some 0 else None) /\
     was_sent k k' a b da db pos n (bool_decide (off <> None)) /\ (takes_all o -> n = total)).
  { intros Ht k' ->. exists 0. split_and!; [lia|lia| |by eapply was_sent_nothing|lia].
    rewrite !Z.add_0_r. destruct off; cbn; by subst. }
  cbn [sendfile_loop]. destruct ((0 <? count) || is_inf) eqn:Eloop; cbn [negb].
  2:{ apply wp_ret, Hstop; [|done]. apply orb_false_elim in Eloop as [Ec ->]. unfold total, to_send. lia. }
  set (amount := if is_inf then SENDFILE_BUFFER else Z.min SENDFILE_BUFFER count).
  assert (Ham : 0 < amount <= SENDFILE_BUFFER /\ (is_inf = false -> amount <= count)).
  { unfold amount, SENDFILE_BUFFER. destruct is_inf; [done|]. rewrite orb_false_r in Eloop. lia. }
  apply wp_bind, (wp_ok _ _ _ _ _ (pread_source k in_fd a da vf amount pos Hin Ha Hr Hi ltac:(lia) ltac:(lia))).
  cbn beta iota.
  set (s := slice pos amount (ss_data (k_fs k))).
  assert (Hs : zlen s = Z.min amount (Z.max 0 (zlen (ss_data (k_fs k)) - pos))) by (by apply zlen_slice_cut; lia).
  rewrite (proj2 (Z.ltb_ge (zlen s) 0)) by lia. destruct (Z.eqb_spec (zlen s) 0) as [Hs0|Hs0].
  { apply wp_ret, Hstop; [|done]. unfold total, to_send. destruct is_inf; lia. }
  apply (wp_lift _ _ _ _ _ (bytes_at_all s)).
  apply (wp_fd_at _ db); [done|].
  destruct (pwrite_sink k out_fd b db vf s (Process.offset db)) as (n & f' & Ew & Hn & Hsink & Hdata & Hall);
    [done|done|done|done|by intros ->|].
  apply wp_bind. eapply wp_ok; [exact Ew|]. cbn beta. rewrite (proj2 (Z.ltb_ge n 0)) by lia.
  assert (Hcut : ztake n s = slice pos n (ss_data (k_fs k))).
  { unfold s, slice, ztake. rewrite take_take. f_equal. lia. }
  rewrite Hcut in Hsink.
  assert (Hle : pos + n <= zlen (ss_data (k_fs k))) by lia.
  destruct (turn_sent k in_fd out_fd a b da db pos n f' (bool_decide (off <> None)) Hk ltac:(lia) ltac:(lia) Hle Hsink Hdata)
    as [Hsent Hk1]. set (k1 := set_files _ _) in Hsent, Hk1.
  unfold advance. apply wp_bind, (wp_fd_at _ db); [done|]. eapply wp_ok; [reflexivity|]. cbn beta.
  rewrite i32_small, (u64_small (pos + n)) by lia. apply wp_bind, (wp_ok _ _ _ ((fun _ => pos + n) <$> off) k1).
  { destruct off; [done|]. unfold mbind, SM_bind at 1. unfold fd_at. cbn [files set_files set_fs].
    rewrite lookup_insert_ne, Ha by done. cbn. by rewrite u32_small by lia. }
  assert (Hfin : forall m, 0 <= m -> n + m <= total -> (takes_all o -> n + m = total) -> forall k',
    was_sent k1 k' a b (if bool_decide (off <> None) then da else set_offset (pos + n) da)
      (set_offset (u32 (Process.offset db + n)) db) (pos + n) m (bool_decide (off <> None)) ->
    exists m', 0 <= m' <= total /\ real + n + m = real + m' /\ pos + n + m = pos + m' /\
      was_sent k k' a b da db pos m' (bool_decide (off <> None)) /\ (takes_all o -> m' = total)).
  { intros m Hm Hmt Hma k' Hw'. exists (n + m). split_and!; [lia..| |done]. apply (was_sent_more k k1); [lia|lia|lia|lia|done|done]. }
  assert (Htot : to_send (ss_data (k_fs k1)) (pos + n) (if is_inf then count else u32 (count - n)) is_inf = total - n).
  { cbn [k_fs k1 set_files set_fs]. rewrite Hdata. unfold total, to_send. destruct is_inf; [lia|].
    rewrite u32_small by lia. lia. }
  assert (Hnt : n <= total) by (unfold total, to_send, amount in *; destruct is_inf; lia).
  destruct (Z.ltb_spec (zlen s) amount) as [Hlt|Hge].
  - apply wp_ret. destruct (Hfin 0) with (k' := k1) as (m & Hm & E1 & E2 & Hm1 & Hm2); [lia|..].
    + unfold total, to_send. destruct is_inf; lia.
    + intros Hta. rewrite (Hall Hta). unfold total, to_send, amount in *. destruct is_inf; lia.
    + eapply was_sent_nothing; [exact Hk1|]. intros E. by rewrite E.
    + exists m. rewrite Z.add_0_r in E1, E2. rewrite E1, E2. done.
  - eapply wp_mono.
    + apply (IH k1 _ _ (if is_inf then count else u32 (count - n)) (pos + n) (real + n) ((fun _ => pos + n) <$> off) Hk1).
      * lia.
      * destruct is_inf; [done|]. rewrite u32_small by lia. lia.
      * lia.
      * cbn [k_fs k1 set_files set_fs]. rewrite Hdata. lia.
      * by destruct off.
      * cbv zeta. rewrite Htot. lia.
    + cbv zeta. rewrite Htot. intros r k' (m & Hm & -> & Hw' & Hta).
      replace (bool_decide ((fun _ => pos + n) <$> off <> None)) with (bool_decide (off <> None)) in Hw'
        by (apply bool_decide_ext; by destruct off).
      destruct (Hfin m) with (k' := k') as (m' & Hm' & E1 & E2 & ? & ?); [lia|lia|intros Hx; rewrite (Hta Hx); lia|done|].
      exists m'. split_and!; [lia|lia| |done|done]. rewrite E1. f_equal. destruct off; cbn; by rewrite ?E2.
Qed.

(** C18: [sendfile] copies a contiguous part of the file, from [*offset] or from the offset
    of the descriptor, to the output in order: the return value is the number of bytes
    the output took, both offsets advance by it, no other open file changes, and
    [*error_rc] is 0.  It returns however little a write takes; when writes take all
    they are given, everything up to [count] or the end of the file is sent. *)
Theorem sendfile_copies k vf fuel in_fd out_fd a b da db off count err :
  sending k in_fd out_fd a b da db -> 0 <= Process.offset da < 2 ^ 32 -> 0 <= count < 2 ^ 32 ->
  match off with Some (p, x) => valid_userpointer (k_memory k) p 8 = true /\ 0 <= x < 2 ^ 32 | None => True end ->
  match err with Some p => valid_userpointer (k_memory k) p 4 = true | None => True end ->
  let pos := match off with Some (_, x) => x | None => Process.offset da end in
  let total := to_send (ss_data (k_fs k)) pos count (count =? 0) in
  (Z.to_nat total < fuel)%nat ->
  wp (syscall_sendfile switch_task fuel (S vf) out_fd in_fd off count err)
    (fun r k' => exists n, 0 <= n <= total /\
       r = mkSent n ((fun _ => pos + n) <$> off) ((fun _ => 0) <$> err) /\
       was_sent k k' a b da db pos n (bool_decide (off <> None)) /\ (takes_all o -> n = total)) k.
Proof.
  intros Hk Hda Hc Hoff Herr pos total Hf. pose proof Hk as [Hin Hout _ Ha _ _ _ Hsmall _].
  unfold syscall_sendfile. apply wp_gets.
  replace (match off with Some (p, _) => _ | None => false end) with false by (by destruct off as [[? ?]|]; [destruct Hoff as [-> _]|]).
  replace (match err with Some p => _ | None => false end) with false by (by destruct err; [rewrite Herr|]).
  apply (wp_designated k in_fd a); [done|]. apply (wp_designated k out_fd b); [done|]. apply (wp_fd_at _ da); [done|].
  apply wp_bind. eapply wp_mono.
  - apply (sendfile_loop_spec vf in_fd out_fd a b (count =? 0) (bool_decide (err <> None)) fuel k da db count pos 0 (snd <$> off) Hk);
      [unfold pos; destruct off as [[? ?]|]; [by destruct Hoff|done]|done|lia| |by destruct off as [[? ?]|]|exact Hf].
    assert (0 <= pos) by (unfold pos; destruct off as [[? ?]|]; lia). lia.
  - intros r k' (n & Hn & -> & Hw & Ht). apply wp_ret. exists n. cbn [sent_rc sent_offset sent_error].
    assert (total < 2 ^ 31).
    { assert (0 <= pos) by (unfold pos; destruct off as [[? ?]|]; lia). pose proof (zlen_nonneg (ss_data (k_fs k))).
      unfold total, to_send. destruct (count =? 0); lia. }
    split_and!; [lia|lia| |by destruct off as [[? ?]|]|done].
    rewrite Z.add_0_l, u32_small by lia. f_equal; [by destruct off as [[? ?]|]|by destruct err].
Qed.
End Sendfile.

(** ** sbrk: the memory it hands out *)

(** What [mmu_allocate_region] promises for a range that starts at a page: it returns,
    the pages below the range keep their contents, and after a success every byte of
    the range can be used. *)
Class RegionLaws (V : Type) `{AddressSpaces V, UserPages V} : Prop := {
  region_total : forall p n v, exists ok v', allocate_region p n v = Ok (ok, v');
  region_keeps : forall p n v ok v' a c, allocate_region p n v = Ok (ok, v') -> p mod 0x1000 = 0 -> a < p ->
    user_load v a = Some c -> user_load v' a = Some c;
  region_maps : forall p n v v' a, allocate_region p n v = Ok (true, v') -> p mod 0x1000 = 0 ->
    0 <= p -> 0 <= n -> p + n < 2 ^ 32 -> p <= a < p + n -> is_Some (user_load v' a)
}.

Section Break.
Context {F H T V : Type} `{HS : AddressSpaces V, HU : UserPages V, HR : !RegionLaws V}.
Abbreviation state := (kernel F H T V).
Abbreviation K := (SM state).
Implicit Types k : state.

Definition REFUSED : Z := u32 (- ENOMEM).

Definition round_up (n : Z) : Z := (n + 4095) / 4096 * 4096.

Lemma round_up_spec n : n <= round_up n < n + 4096 /\ round_up n mod 0x1000 = 0.
Proof.
  unfold round_up. pose proof (Z.div_mod (n + 4095) 4096 ltac:(lia)). pose proof (Z.mod_pos_bound (n + 4095) 4096 ltac:(lia)).
  split; [lia|]. change 0x1000 with 4096. by rewrite Z.mod_mul by lia.
Qed.

(** The current process has its break at [e]. *)
Definition break_at k (e : Z) : Prop :=
  exists x, procs k !! current_task k = Some x /\ data_segment_end (p_memory x) = e.

Lemma sbrk_step k e n :
  break_at k e -> e mod 0x1000 = 0 -> 0 <= e -> 0 <= n -> e + n <= 0xFFFFF000 ->
  wp (syscall_sbrk n) (fun r k' =>
    (forall a c, a < e -> user_load (k_memory k) a = Some c -> user_load (k_memory k') a = Some c) /\
    ((r = REFUSED /\ break_at k' e) \/
     (r = e /\ break_at k' (round_up (e + n)) /\ forall a, e <= a < e + n -> is_Some (user_load (k_memory k') a)))) k.
Proof.
  intros (x & Hx & He) Hal He0 Hn Hend. unfold syscall_sbrk. apply wp_gets, (wp_proc_at _ x); [done|]. rewrite He.
  unfold syscall_brk. apply wp_bind, wp_gets, (wp_proc_at _ x); [done|]. rewrite He.
  rewrite (u32_small (e + n)) by lia. replace (e + n - e) with n by lia. rewrite u32_small by lia.
  destruct (region_total e n (k_memory k)) as (ok & v' & E). apply (wp_in_space _ ok v'); [done|].
  destruct ok; cbn [negb].
  - eapply wp_on_proc; [exact Hx|]. apply wp_ret. cbn [Z.ltb Z.compare]. apply wp_ret.
    split; [intros a c Ha Hl; by apply (region_keeps e n _ _ _ a c E)|]. right. split_and!; [done| |].
    + eexists. split; [apply lookup_insert_eq|]. cbn [p_memory set_break set_memory data_segment_end]. apply align_page_spec. lia.
    + intros a Ha. by apply (region_maps e n (k_memory k) v' a E); [..|lia|].
  - apply wp_ret. cbn. apply wp_ret. split; [intros a c Ha Hl; by apply (region_keeps e n _ _ _ a c E)|].
    left. split; [done|]. by exists x.
Qed.

(** A program that calls [sbrk] again and again. *)
Fixpoint sbrk_run (ns : list Z) : K (list Z) :=
  match ns with
  | [] => ret []
  | n :: ns => p ← syscall_sbrk n; ps ← sbrk_run ns; ret (p :: ps)
  end.

(** The regions it got. *)
Definition granted (ps ns : list Z) : list (Z * Z) := filter (fun r => r.1 <> REFUSED) (zip ps ns).

(** C20: the regions [sbrk] hands out lie one behind the other above the old break, each
    starts at a page, and all their bytes can be used, whatever calls in between were
    refused. *)
Theorem sbrk_regions k e ns :
  break_at k e -> e mod 0x1000 = 0 -> 0 <= e -> Forall (fun n => 0 <= n) ns ->
  e + foldr (fun n s => n + 0x1000 + s) 0 ns <= 0xFFFFF000 ->
  wp (sbrk_run ns) (fun ps k' =>
    StronglySorted (fun r1 r2 => r1.1 + r1.2 <= r2.1) (granted ps ns) /\
    Forall (fun r => e <= r.1 /\ r.1 mod 0x1000 = 0 /\
      forall a, r.1 <= a < r.1 + r.2 -> is_Some (user_load (k_memory k') a)) (granted ps ns) /\
    (forall a c, a < e -> user_load (k_memory k) a = Some c -> user_load (k_memory k') a = Some c)) k.
Proof.
  intros Hk Hal He Hns. revert k e Hk Hal He. induction Hns as [|n ns Hn Hns IH]; intros k e Hk Hal He Hsum; cbn [sbrk_run foldr] in *.
  { apply wp_ret. split_and!; [constructor|constructor|done]. }
  assert (Hpos : 0 <= foldr (fun n s => n + 0x1000 + s) 0 ns) by (clear -Hns; induction Hns; cbn; lia).
  apply wp_bind. eapply wp_mono; [apply (sbrk_step k e n); [done|done|done|done|lia]|].
  intros p k1 (Hkeep & Hp). apply wp_bind. destruct Hp as [[-> Hb]|(-> & Hb & Hmap)].
  - eapply wp_mono; [apply (IH k1 e); [done..|lia]|]. intros ps k' (Hs & Ha & Hk'). apply wp_ret.
    unfold granted. cbn [zip zip_with]. rewrite filter_cons_False by (cbn; tauto).
    split_and!; [done|done|]. intros a c Ha' Hl. by apply Hk', Hkeep.
  - destruct (round_up_spec (e + n)) as [Hr Hr2]. eapply wp_mono; [apply (IH k1 (round_up (e + n))); [done|done|lia|lia]|].
    intros ps k' (Hs & Ha & Hk'). apply wp_ret. unfold granted. cbn [zip zip_with].
    assert (e <> REFUSED) by (change REFUSED with (2 ^ 32 - 49); lia).
    rewrite filter_cons_True by done. fold (granted ps ns). split_and!.
    + constructor; [done|]. eapply Forall_impl; [exact Ha|]. cbn. intros r (Hr1 & _). lia.
    + constructor; [cbn|].
      * split_and!; [lia|done|]. intros a Har. destruct (Hmap a Har) as [c Hc]. exists c. apply Hk'; [lia|done].
      * eapply Forall_impl; [exact Ha|]. cbn. intros r (Hr1 & Hr3 & Hr4). split_and!; [lia|done|done].
    + intros a c Ha' Hl. apply Hk'; [lia|]. by apply Hkeep.
Qed.
End Break.

(** ** The working directory *)

Section Directory.
Context {F H T V : Type}.
Abbreviation state := (kernel F H T V).
Implicit Types k : state.

(** [getcwd] stores the path with its terminator in a buffer that is larger; in a
    buffer that is not, it stores the terminator behind the buffer. *)
Lemma getcwd_stores k x t buf size :
  procs k !! current_task k = Some x -> cstr (current_working_directory x) t -> t <> [] ->
  zlen buf = size -> 0 < size ->
  syscall_getcwd buf size k = if zlen t <? size then Ok (splice buf 0 (t ++ [0]), k) else Fault.
Proof.
  intros Hx Ht Hne Hb Hsize. unfold syscall_getcwd. rewrite gets_bind. unfold mbind at 1, SM_bind at 1. unfold proc_at. rewrite Hx.
  cbn [deref mbind outcome_bind]. rewrite (strlen_spec _ t Ht).
  rewrite lift_bind. pose proof (zlen_nonneg t). destruct (Z.ltb_spec (zlen t) size) as [Hlt|Hge].
  - rewrite Z.min_r by lia. destruct Ht as (rest & -> & Hf). unfold strlcpy.
    rewrite strlcpy_loop_full by (done || zlia). cbn [mbind outcome_bind].
    assert (0 < zlen t) by (destruct t; [done|zlia]). rewrite (proj2 (Z.eqb_neq (zlen t) 0)) by lia.
    rewrite awrite_splice by (rewrite zlen_splice; zlia). cbn [mbind outcome_bind].
    rewrite take_ge by zlia. rewrite splice_snoc by zlia.
    rewrite drop_ge by zlia. cbn [app]. done.
  - rewrite Z.min_l by lia. by rewrite (strlcpy_overruns _ _ t size).
Qed.
End Directory.

(** ** Examples *)

(** Two files: the contents of inode 1, and what was written to inode 2, which takes at
    most three bytes of a write. *)
#[local] Instance copy_inodes : Inodes (list Z * list Z) := {
  i_read f i := if i =? 1 then Some (fun off n _ f => Ok (zlen (slice off n (fst f)), slice off n (fst f), f)) else None;
  i_write f i := if i =? 2 then Some (fun buf _ _ f => Ok (Z.min 3 (zlen buf), (fst f, snd f ++ ztake (Z.min 3 (zlen buf)) buf)))
                 else None;
  i_close _ _ := None; i_truncate _ _ := None;
  i_has_data _ _ := None; i_can_write _ _ := None; i_is_open_op _ _ := None; i_is_open _ _ := 1;
  i_type _ _ := 0; i_object_type _ _ := 0; i_file_size _ _ := 0; i_vm_object _ _ := None;
  vm_size _ _ := 0; vm_pages _ _ := []; vm_refs _ _ := 0; set_vm_refs _ _ f := f;
  i_stat _ _ := None; i_open _ _ := None; i_create_file _ _ := None; i_create_directory _ _ := None;
  i_unlink _ _ := None; i_free _ f := f
}.

#[local] Instance copy_source_sink : SourceSink (list Z * list Z) 1 2.
Proof.
  refine {| ss_data := fst; ss_sink := snd |}.
  - intros f. eexists. split; [reflexivity|]. done.
  - intros f. eexists. split; [reflexivity|]. intros buf off d Hb. eexists _, _. split; [reflexivity|].
    assert (0 < zlen buf) by (destruct buf; [done|zlia]). split_and!; [lia|lia|done|done].
Defined.

(** Memory in which every byte of the first 16 pages is a 0. *)
#[local] Instance zero_pages : UserPages unit := {
  user_load _ a := if (0 <=? a) && (a <? 0x10000) then Some 0 else None;
  valid_userpointer _ p n := (0 <=? p) && (p + n <=? 0x10000)
}.

#[local] Instance zero_pages_laws : UserPagesLaws unit.
Proof.
  split. intros v p a _ Hv Ha. cbn in *. apply andb_prop in Hv as [H1 H2].
  rewrite (proj2 (Z.leb_le 0 a)), (proj2 (Z.ltb_lt a 0x10000)) by lia. cbn. eauto.
Qed.

(** A process whose descriptors 0 and 1 are the two files. *)
Definition copy_table : relist := mkRelist (Some (Block 4096 (7 :: 8 :: replicate 62 7))) 1 2 (Some (Block 8192 [3])).

Definition copy_process (e : Z) : process relist :=
  mkProcess 0 (KERNEL_NAME ++ replicate 91 0) (47 :: replicate 255 0) (47 :: replicate 255 0) copy_table
    (mkWait no_list no_list no_list [0; 0] false false 0) no_signals (mkUser 0 e (replicate 100 None))
    (mkLinks None None None 0 false 1).

Definition copy_kernel (data : list Z) : kernel (list Z * list Z) Z relist unit :=
  mkKernel {[ 7 := mkFd 1 2 0 0 1 1; 8 := mkFd 0 4 0 0 1 2 ]} {[ 1 := copy_process 0x2000 ]} 1 (Some 1) 1 0 (data, []) 4096 tt.

Lemma copy_kernel_sending : sending 1 2 (copy_kernel [10; 11; 12; 13; 14; 15]) 0 1 7 8 (mkFd 1 2 0 0 1 1) (mkFd 0 4 0 0 1 2).
Proof.
  split; try done.
  - split; [lia|]. eexists _, _. split; [reflexivity|]. vm_compute. reflexivity.
  - split; [lia|]. eexists _, _. split; [reflexivity|]. vm_compute. reflexivity.
Qed.

(** A write of three bytes at a time: the first turn reads five bytes, sends three and
    ends, because it read less than it asked for. *)
Lemma sendfile_copies_witness :
  wp (syscall_sendfile (ret tt) 6 1 1 0 None 0 (Some 0x1000)) (fun r k' => exists n, 0 <= n <= 5 /\
    r = mkSent n None (Some 0) /\
    was_sent 1 2 (copy_kernel [10; 11; 12; 13; 14; 15]) k' 7 8 (mkFd 1 2 0 0 1 1) (mkFd 0 4 0 0 1 2) 1 n false /\
    (takes_all (F := list Z * list Z) 2 -> n = 5)) (copy_kernel [10; 11; 12; 13; 14; 15]).
Proof.
  assert (Ht : to_send [10; 11; 12; 13; 14; 15] 1 0 true = 5) by (vm_compute; reflexivity). rewrite <- Ht.
  eapply wp_mono.
  - apply (sendfile_copies 1 2 (ret tt) (copy_kernel [10; 11; 12; 13; 14; 15]) 0 6 0 1 7 8
      (mkFd 1 2 0 0 1 1) (mkFd 0 4 0 0 1 2) None 0 (Some 0x1000)).
    + exact copy_kernel_sending.
    + cbn. lia.
    + lia.
    + exact I.
    + reflexivity.
    + vm_compute. lia.
  - intros r k' Hn. exact Hn.
Defined.

Lemma user_c_string_checked_witness : string_verdict tt 0x1001 (Ok (Some 0)) /\
  mmu_is_valid_user_c_string tt 0x1001 = Ok (Some 0).
Proof.
  assert (E : mmu_is_valid_user_c_string tt 0x1001 = Ok (Some 0)) by (vm_compute; reflexivity).
  split; [|exact E]. rewrite <- E. apply (user_c_string_checked tt 0x1001); lia.
Defined.

(** Memory up to an address, all of it 0, which grows as it is asked to. *)
#[local] Instance growing_space : AddressSpaces Z := {
  clone_directory _ v := Ok (Some 0, v); free_pagedirectory _ v := Ok (tt, v); get_active_pagedirectory _ := 0;
  set_active_directory _ v := v; allocate_region p n v := Ok (true, Z.max v (p + n)); map_physical _ _ v := Ok (true, v);
  remove_mapping _ _ v := Ok (tt, v)
}.

#[local] Instance growing_pages : UserPages Z := {
  user_load v a := if (0 <=? a) && (a <? v) then Some 0 else None;
  valid_userpointer v p n := (0 <=? p) && (p + n <=? v)
}.

#[local] Instance growing_laws : RegionLaws Z.
Proof.
  split.
  - intros p n v. by eexists _, _.
  - intros p n v ok v' a c [= <- <-] _ _. cbn. destruct (Z.leb_spec 0 a); [|done]. cbn.
    destruct (Z.ltb_spec a v); [|done]. by rewrite (proj2 (Z.ltb_lt a _)) by lia.
  - intros p n v v' a [= <-] _ Hp Hn _ Ha. cbn. rewrite (proj2 (Z.leb_le 0 a)), (proj2 (Z.ltb_lt a _)) by lia. cbn. eauto.
Qed.

Definition break_kernel : kernel (list Z * list Z) Z relist Z :=
  mkKernel ∅ {[ 1 := copy_process 0x2000 ]} 1 (Some 1) 1 0 ([], []) 4096 0x2000.

Lemma sbrk_regions_witness :
  wp (sbrk_run [5; 0x3000]) (fun ps k' =>
    StronglySorted (fun r1 r2 => r1.1 + r1.2 <= r2.1) (granted ps [5; 0x3000]) /\
    Forall (fun r => 0x2000 <= r.1 /\ r.1 mod 0x1000 = 0 /\
      forall a, r.1 <= a < r.1 + r.2 -> is_Some (user_load (k_memory k') a)) (granted ps [5; 0x3000]) /\
    (forall a c, a < 0x2000 -> user_load (k_memory break_kernel) a = Some c -> user_load (k_memory k') a = Some c)) break_kernel.
Proof.
  apply (sbrk_regions break_kernel 0x2000 [5; 0x3000]).
  - by exists (copy_process 0x2000).
  - reflexivity.
  - lia.
  - repeat constructor; lia.
  - cbn. lia.
Defined.

(** A child that ends while its parent waits: the parent gets its status, and the
    process and its references to open files are gone. *)
Definition family : kernel (gset Z) Z relist unit :=
  set_next_pid 5 (set_procs {[ 1 := set_links (mkLinks (Some 2) None None 0 false 1) one_process;
                               2 := set_table (mkRelist None 0 0 None) one_process ]} one_kernel).

Lemma fork_exit_wait :
  match (fork ≫= fun child_pid =>
         c ← gets (fun k => child (p_links (default one_process (procs k !! 1))));
         r ← syscall_wait (modify (set_current (default 0 c)) ;; Sched.exit (ret tt) 5 42) 3;
         ret (child_pid, r)) family with
  | Ok (child_pid, r, k) => (child_pid, r, size (procs k), current_task k, reference_count <$> files k !! 7)
  | _ => (0, None, O, 0, None)
  end = (5, Some 42, 2%nat, 1, Some 1).
Proof. vm_compute. reflexivity. Qed.

(** ** What the code gets wrong *)

(** All of memory is the user's. *)
#[local] Instance all_pages : UserPages (Z -> Z) := {
  user_load v a := Some (v a);
  valid_userpointer _ _ _ := true
}.

(** The first byte of a page is not compared with 0: an empty string there is given the
    length of what follows it, and the copy of it fails an assertion. *)
Definition page_start (a : Z) : Z := if a =? 0x1001 then 97 else 0.

Lemma empty_string_at_page :
  mmu_is_valid_user_c_string page_start 0x1000 = Ok (Some 2) /\ user_strlen 9 page_start 0x1000 0 = Ok 0 /\
  copy_and_allocate_user_string page_start 0x1000 4096 = Panic.
Proof. split_and!; vm_compute; reflexivity. Qed.

(** A program stops the kernel with a path of 4096 characters. *)
Lemma long_path_panics : mmu_is_valid_user_c_string (fun _ => 97) 0x1001 = Panic.
Proof. vm_compute. reflexivity. Qed.

(** [F_SETFL] sets the access mode too: a file that was opened for reading can be
    written afterwards. *)
Definition read_only_kernel : kernel (list Z * list Z) Z relist unit :=
  set_files {[ 8 := mkFd 0 O_READ 0 0 1 2 ]} (copy_kernel []).

Lemma fcntl_grants_write :
  vfs_pwrite (ret tt) 1 1 [1; 2] 0 read_only_kernel = Ok (- EBADF, read_only_kernel) /\
  match (syscall_fcntl 1 F_SETFL (Z.lor O_READ O_WRITE) ;; vfs_pwrite (ret tt) 1 1 [1; 2] 0) read_only_kernel with
  | Ok (rc, k) => (rc, snd (k_fs k)) = (2, [1; 2])
  | _ => False
  end.
Proof. split; vm_compute; reflexivity. Qed.

(** An anonymous [mmap] that fails has moved the break by the length it was asked for:
    the next [sbrk] maps pages at an address the program has chosen, those of the
    kernel among them. *)
Lemma failed_mmap_moves_break {F H T V} `{Inodes F, Allocator H, SlotTable T H, AddressSpaces V}
    (k : kernel F H T V) e len v' :
  break_at k e -> len <> 0 -> e <> 0 -> allocate_region e len (k_memory k) = Ok (false, v') ->
  wp (mmap len (-1) 0) (fun r k' => r = - ENOMEM /\ break_at k' (align_page (u32 (e + len + 0x1000)))) k.
Proof.
  intros (x & Hx & He) Hl He0 E. unfold mmap. rewrite (proj2 (Z.eqb_neq len 0)) by done. cbn [Z.eqb Pos.eqb].
  unfold allocate_virtual_user_memory, get_free_virtual_memory.
  apply wp_bind, wp_bind, wp_gets, (wp_proc_at _ x); [done|]. apply wp_modify, wp_ret. rewrite He.
  rewrite (proj2 (Z.eqb_neq e 0)) by done. apply (wp_in_space _ false v'); [exact E|]. apply wp_ret, wp_ret.
  split; [done|]. eexists. split; [apply lookup_insert_eq|]. done.
Qed.
