(* ===== verification/ULibc.v ===== *)
(** userland/libc: the string functions, number parsing, option parsing and the
    environment of a user program.

    As in [KString] a pointer into an object is the list of bytes from it to the end
    of the object, and reading past the object is a [Fault].  A function that returns
    a pointer into its argument returns that suffix, NULL is [None].  [char] is signed
    on this target, but the functions below only compare characters for equality or
    with ASCII characters. *)

From stdpp Require Import base numbers list gmap.
From Stdlib Require Import ZArith Lia.
From S2P Require Import Prelude Alloc KString.

Open Scope Z_scope.

(** The character a pointer designates. *)
Definition chr (s : list Z) : outcome Z := deref (head s).

(** ** Character classes (userland/libc/ctype and isspace.c) *)

Definition toupper (c : Z) : Z := if (97 <=? c) && (c <=? 122) then c - 97 + 65 else c.
Definition isalpha (c : Z) : bool := (65 <=? toupper c) && (toupper c <=? 90).
Definition isalnum (c : Z) : bool := isalpha c || isdigit c.
Definition isascii (c : Z) : bool := c <? 128.
Definition isblank (c : Z) : bool := (c =? 32) || (c =? 9).
Definition iscntrl (c : Z) : bool := (u32 c <? 32) || (c =? 127).
Definition isgraph (c : Z) : bool := u32 (c - 33) <? 94.
Definition islower (c : Z) : bool := (97 <=? c) && (c <=? 122).
Definition isprint (c : Z) : bool := (32 <? c) && negb (127 =? c).
Definition ispunct (c : Z) : bool := c =? 46.
Definition isupper (c : Z) : bool := (65 <=? c) && (c <=? 90).
Definition isxdigit (c : Z) : bool := isdigit c || (toupper c <=? 65) && (90 <=? toupper c).

(** ** Comparison

    The loops of [strcmp], [strncmp], [strcasecmp] and [strncasecmp] have the same
    text up to [tolower] around the characters, which is [key], and the bound [n > 0],
    which is [limited].  A pointer that has reached the terminator stays there. *)

Definition advance (s : list Z) : list Z :=
  match s with c :: r => if c =? 0 then s else r | [] => [] end.

Definition result (l1 l2 rc : Z) : Z := if l1 <? l2 then - rc else rc.

Fixpoint compare_loop (key : Z -> Z) (limited : bool) (n : nat) (s1 s2 : list Z) (l1 l2 rc : Z)
  : outcome Z :=
  a ← chr s1;
  b ← chr s2;
  if (a =? 0) && (b =? 0) then Ok (result l1 l2 rc)
  else
    match n with
    | O => if limited then Ok (result l1 l2 rc) else NoFuel
    | S n =>
        compare_loop key limited n (advance s1) (advance s2)
          (l1 + c_int (negb (a =? 0))) (l2 + c_int (negb (b =? 0)))
          (rc + c_int (negb (key a =? key b)))
    end.

Definition u_strcmp (s1 s2 : list Z) : outcome Z :=
  compare_loop (fun c => c) false (length s1 + length s2) s1 s2 0 0 0.
Definition strcasecmp (s1 s2 : list Z) : outcome Z :=
  compare_loop tolower false (length s1 + length s2) s1 s2 0 0 0.
Definition strncmp (s1 s2 : list Z) (n : Z) : outcome Z :=
  compare_loop (fun c => c) true (Z.to_nat n) s1 s2 0 0 0.
Definition strncasecmp (s1 s2 : list Z) (n : Z) : outcome Z :=
  compare_loop tolower true (Z.to_nat n) s1 s2 0 0 0.

(** ** Searching *)

Fixpoint strchr (s : list Z) (c : Z) : outcome (option (list Z)) :=
  match s with
  | [] => Fault
  | a :: r =>
      if a =? 0 then Ok (if u8 c =? 0 then Some s else None)
      else if a =? u8 c then Ok (Some s) else strchr r c
  end.

Fixpoint strrchr_loop (s : list Z) (c : Z) (last : option (list Z)) : outcome (option (list Z)) :=
  match s with
  | [] => Fault
  | a :: r =>
      if a =? 0 then Ok (if u8 c =? 0 then Some s else last)
      else strrchr_loop r c (if a =? u8 c then Some s else last)
  end.

Definition strrchr (s : list Z) (c : Z) : outcome (option (list Z)) := strrchr_loop s c None.

(** Whether [*t == c] for a [t] of the inner loops over the set [s2]. *)
Fixpoint in_set (c : Z) (s2 : list Z) : outcome bool :=
  match s2 with
  | [] => Fault
  | b :: r => if b =? 0 then Ok false else if c =? b then Ok true else in_set c r
  end.

Fixpoint strpbrk (s1 s2 : list Z) : outcome (option (list Z)) :=
  match s1 with
  | [] => Fault
  | a :: r =>
      if a =? 0 then Ok None else
      hit ← in_set a s2;
      if hit : bool then Ok (Some s1) else strpbrk r s2
  end.

Fixpoint strspn_loop (s1 s2 : list Z) (r : Z) : outcome Z :=
  match s1 with
  | [] => Fault
  | a :: s1 =>
      if a =? 0 then Ok r else
      e ← in_set a s2;
      if e : bool then strspn_loop s1 s2 (r + 1) else Ok r
  end.

Definition strspn (s1 s2 : list Z) : outcome Z := strspn_loop s1 s2 0.

(** The inner loop of [strcspn] compares with [*s2], not with [*t]. *)
Fixpoint strcspn_loop (s1 s2 : list Z) (r : Z) : outcome Z :=
  match s1 with
  | [] => Fault
  | a :: s1 =>
      if a =? 0 then Ok r else
      b ← chr s2;
      strcspn_loop s1 s2 (if negb (b =? 0) && (a =? b) then r + 1 else r)
  end.

Definition strcspn (s1 s2 : list Z) : outcome Z := strcspn_loop s1 s2 0.

(** The inner loop of [strstr]: whether no difference is found before one of the
    strings ends. *)
Fixpoint no_difference (t1 t2 : list Z) : outcome bool :=
  match t2, t1 with
  | b :: r2, a :: r1 =>
      if (b =? 0) || (a =? 0) then Ok true
      else if negb (b =? a) then Ok false else no_difference r1 r2
  | b :: _, [] => if b =? 0 then Ok true else Fault
  | [], _ => Fault
  end.

Fixpoint strstr_loop (s1 s2 : list Z) : outcome (option (list Z)) :=
  match s1 with
  | [] => Fault
  | a :: r =>
      if a =? 0 then Ok None else
      same ← no_difference s1 s2;
      if same : bool then Ok (Some s1) else strstr_loop r s2
  end.

Definition strstr (s1 s2 : list Z) : outcome (option (list Z)) :=
  b ← chr s2;
  if b =? 0 then Ok (Some s1) else strstr_loop s1 s2.

Fixpoint strnlen_loop (n : nat) (s : list Z) (i : Z) : outcome Z :=
  match n with
  | O => Ok i
  | S n =>
      c ← chr s;
      if c =? 0 then Ok i else strnlen_loop n (tail s) (i + 1)
  end.

Definition strnlen (s : list Z) (maxlen : Z) : outcome Z := strnlen_loop (Z.to_nat maxlen) s 0.

(** [*p == c] compares a signed [char] with an [int]. *)
Fixpoint memchr_loop (n : nat) (p : list Z) (c : Z) : outcome (option (list Z)) :=
  match n with
  | O => Ok None
  | S n =>
      a ← chr p;
      if sext 8 a =? c then Ok (Some p) else memchr_loop n (tail p) c
  end.

Definition memchr (s : list Z) (c n : Z) : outcome (option (list Z)) := memchr_loop (Z.to_nat n) s c.

(** ** Copying *)

(** Both loops of [strncpy]: [done] once the terminator has been copied. *)
Fixpoint strncpy_loop (n : nat) (d s : list Z) (i : Z) : outcome (list Z) :=
  match n with
  | O => Ok d
  | S n' =>
      c ← chr s;
      d ← awrite d i c;
      if c =? 0 then memset_loop n d i 0 else strncpy_loop n' d (tail s) (i + 1)
  end.

Definition strncpy (d s : list Z) (n : Z) : outcome (list Z) := strncpy_loop (Z.to_nat n) d s 0.

(** The copying loop of the kernel's [strlcpy] has the same text; here its result is
    the distance [s2] has moved, less one. *)
Definition u_strlcpy (d s : list Z) (n : Z) : outcome (list Z * Z) :=
  '(d, s, i, k) ← strlcpy_loop (Z.to_nat n) d s 0;
  match k with
  | S _ => Ok (d, i - 1)
  | O =>
      d ← (if n =? 0 then Ok d else awrite d i 0);
      l ← strlen s;
      Ok (d, i + l)
  end.

Section Duplicates.
Context {H : Type} `{Allocator H}.

Definition strdup (s : list Z) (h : H) : outcome (option (block Z) * H) :=
  l ← strlen s;
  match alloc_bytes (u32 (l + 1)) h with
  | (None, h) => Ok (None, h)
  | (Some b, h) => d ← strcpy (blk_data b) s; Ok (Some (Block (blk_addr b) d), h)
  end.

Definition strndup (s : list Z) (size : Z) (h : H) : outcome (option (block Z) * H) :=
  l ← strlen s;
  let real_l := Z.min l size in
  match alloc_bytes (u32 (real_l + 1)) h with
  | (None, h) => Ok (None, h)
  | (Some b, h) => '(d, _) ← u_strlcpy (blk_data b) s real_l; Ok (Some (Block (blk_addr b) d), h)
  end.
End Duplicates.

(** ** strtok

    The string that is cut up is one object [buf]; [strtok_s] and the results are
    indices into it. *)

Record strtok_state := { tok_buf : list Z; strtok_s : option Z }.

Definition strtok_next (st : strtok_state) (sep : list Z) : outcome (option Z * strtok_state) :=
  match strtok_s st with
  | None => Ok (None, st)
  | Some p =>
      e ← strpbrk (zdrop p (tok_buf st)) sep;
      match e with
      | None => Ok (Some p, {| tok_buf := tok_buf st; strtok_s := None |})
      | Some rest =>
          let e := zlen (tok_buf st) - zlen rest in
          buf ← awrite (tok_buf st) e 0;
          l ← strlen sep;
          Ok (Some p, {| tok_buf := buf; strtok_s := Some (e - 1 + l + 1) |})
      end
  end.

Definition strtok (st : strtok_state) (s : option Z) (sep : list Z) : outcome (option Z * strtok_state) :=
  match s with
  | Some p => strtok_next {| tok_buf := tok_buf st; strtok_s := Some p |} sep
  | None => strtok_next st sep
  end.

(** ** Numbers (stdlib/strtol.c, strtoul.c, strtoll.c, atoi.c, atol.c, atoll.c) *)

Definition LONG_MAX : Z := 2147483647.
Definition LLONG_MAX : Z := 9223372036854775807.
Definition ULONG_MAX : Z := 4294967295.
Definition E_INVAL : Z := 28.
Definition E_RANGE : Z := 72.

Definition get_value (c base : Z) : Z :=
  let l := tolower c in
  let r := if (48 <=? l) && (l <=? 57) then l - 48
           else if (97 <=? l) && (l <=? 122) then l - 97 + 10 else -1 in
  if r =? -1 then -1 else if base <=? r then -1 else r.

Fixpoint skip_space (s : list Z) : outcome (list Z) :=
  match s with
  | [] => Fault
  | c :: r => if negb (c =? 0) && isspace c then skip_space r else Ok s
  end.

(** What the three functions do before the digits: the sign and the prefix that
    chooses the base.  A minus sign is not supported. *)
Definition number_sign (s : list Z) : outcome (list Z) :=
  c ← chr s;
  if c =? 45 then Panic else if c =? 43 then Ok (tail s) else Ok s.

Definition number_base (s : list Z) (base : Z) : outcome (list Z * Z) :=
  if negb (base =? 0) then Ok (s, base) else
  c ← chr s;
  if c =? 48 then
    x ← chr (tail s);
    if tolower x =? 120 then Ok (tail (tail s), 16) else Ok (tail s, 8)
  else Ok (s, 10).

(** The result of a conversion: the value, [*endptr], and [errno] if it was set. *)
Record number := { num_value : Z; num_end : list Z; num_errno : option Z }.

(** The digit loop of [strtol] and [strtoll]; [inr] is the early return. *)
Fixpoint signed_digits (max base : Z) (s : list Z) (v : Z) : outcome (list Z * Z + unit) :=
  match s with
  | [] => Fault
  | c :: r =>
      if c =? 0 then Ok (inl (s, v)) else
      let val := get_value c base in
      if val =? -1 then Ok (inl (s, v))
      else if max / base <? v then Ok (inr tt)
      else if max - val <? v * base then Ok (inr tt)
      else signed_digits max base r (v * base + val)
  end.

Definition strto_signed (max : Z) (str : list Z) (base : Z) : outcome number :=
  s ← skip_space str;
  c ← chr s;
  if c =? 0 then Ok {| num_value := 0; num_end := str; num_errno := None |} else
  s ← number_sign s;
  '(s, base) ← number_base s base;
  if (2 <=? base) && (base <=? 36) then
    r ← signed_digits max base s 0;
    Ok match r with
       | inl (s, v) => {| num_value := v; num_end := s; num_errno := None |}
       | inr _ => {| num_value := max; num_end := str; num_errno := Some E_RANGE |}
       end
  else Ok {| num_value := 0; num_end := str; num_errno := Some E_INVAL |}.

Definition strtol : list Z -> Z -> outcome number := strto_signed LONG_MAX.
Definition strtoll : list Z -> Z -> outcome number := strto_signed LLONG_MAX.

(** The multiplication of [strtoul] wraps without notice. *)
Fixpoint unsigned_digits (base : Z) (s : list Z) (v : Z) : outcome (list Z * Z + unit) :=
  match s with
  | [] => Fault
  | c :: r =>
      if c =? 0 then Ok (inl (s, v)) else
      let val := get_value c base in
      if val =? -1 then Ok (inl (s, v))
      else if ULONG_MAX - val <? u32 (v * base) then Ok (inr tt)
      else unsigned_digits base r (u32 (v * base) + val)
  end.

Definition strtoul (str : list Z) (base : Z) : outcome number :=
  s ← skip_space str;
  c ← chr s;
  if c =? 0 then Ok {| num_value := 0; num_end := str; num_errno := None |} else
  s ← number_sign s;
  '(s, base) ← number_base s base;
  if (2 <=? base) && (base <=? 36) then
    r ← unsigned_digits base s 0;
    Ok match r with
       | inl (s, v) => {| num_value := v; num_end := s; num_errno := None |}
       | inr _ => {| num_value := 0; num_end := str; num_errno := Some E_RANGE |}
       end
  else Ok {| num_value := 0; num_end := str; num_errno := Some E_INVAL |}.

Definition atoi (str : list Z) : outcome Z := r ← strtol str 10; Ok (i32 (num_value r)).
Definition atol (str : list Z) : outcome Z := r ← strtol str 10; Ok (num_value r).
Definition atoll (str : list Z) : outcome Z := r ← strtoll str 10; Ok (num_value r).

(** ** Options (unistd/getopt.c) *)

Record options := { optind : Z; optopt : Z; optarg : option (list Z) }.

Fixpoint find_option (p : list Z) (option : Z) : outcome (list Z) :=
  match p with
  | [] => Fault
  | c :: r => if c =? 0 then Ok p else if option =? c then Ok p else find_option r option
  end.

(** [argv] is the array with its NULL entry. *)
Definition getopt (st : options) (argc : Z) (argv : list (option (list Z))) (optstring : list Z)
  : outcome (Z * options) :=
  if argc <? optind st then Ok (-1, st) else
  a ← aread argv (optind st);
  match a with
  | None => Ok (-1, st)
  | Some arg =>
      c ← chr arg;
      if negb (c =? 45) then Ok (-1, st) else
      option ← chr (tail arg);
      if option =? 0 then Ok (-1, st) else
      d ← u_strcmp arg [45; 45; 0];
      if d =? 0 then Ok (-1, st) else
      p ← find_option optstring option;
      let st := {| optind := optind st; optopt := sext 8 option; optarg := optarg st |} in
      c ← chr p;
      if c =? 0 then Ok (63, st) else
      let st := {| optind := optind st + 1; optopt := optopt st; optarg := optarg st |} in
      colon ← chr (tail p);
      if colon =? 58 then
        v ← aread argv (optind st);
        Ok (optopt st, {| optind := optind st + 1; optopt := optopt st; optarg := v |})
      else Ok (optopt st, st)
  end.

(** ** The environment (stdlib/setenv.c, getenv.c)

    The list of [struct env], newest first; strings are kept with their terminator. *)

Record env := { env_name : list Z; env_value : list Z }.

Fixpoint internal_getenv (envs : list env) (name : list Z) : outcome (option nat) :=
  match envs with
  | [] => Ok None
  | p :: r =>
      d ← u_strcmp (env_name p) name;
      if d =? 0 then Ok (Some O)
      else i ← internal_getenv r name; Ok (option_map S i)
  end.

Definition getenv (envs : list env) (name : list Z) : outcome (option (list Z)) :=
  i ← internal_getenv envs name;
  match i with
  | None => Ok None
  | Some i => p ← deref (envs !! i); Ok (Some (env_value p))
  end.

(** A copy of the string at [s], with its terminator. *)
Definition string_copy (s : list Z) : outcome (list Z) :=
  n ← strlen s; strcpy (replicate (Z.to_nat (n + 1)) 0) s.

Definition ENOMEM : Z := 49.

(** [mem] says which of the allocations succeed, in their order. *)
Definition setenv (mem : nat -> bool) (envs : list env) (name : option (list Z)) (value : list Z) (overwrite : Z)
  : outcome (Z * list env) :=
  match name with
  | None => Ok (-1, envs)
  | Some name =>
      name_length ← strlen name;
      if name_length =? 0 then Ok (-1, envs) else
      _ ← strlen value;
      i ← internal_getenv envs name;
      match i with
      | Some i =>
          if overwrite =? 0 then Ok (0, envs)
          else if mem 0%nat then
            p ← deref (envs !! i);
            v ← string_copy value;
            Ok (0, <[i := {| env_name := env_name p; env_value := v |}]> envs)
          else Ok (-1, envs)
      | None =>
          if mem 0%nat && mem 1%nat && mem 2%nat then
            n ← string_copy name;
            v ← string_copy value;
            Ok (0, {| env_name := n; env_value := v |} :: envs)
          else Ok (- ENOMEM, envs)
      end
  end.

(** ** Paths (libgen/basename.c, dirname.c)

    The result is one of the two constant strings or an index into the path, which
    the functions change. *)

Inductive path_result := PDot | PSlash | PAt (i : Z).

(** [for (; path != start && '/' != *path; path--)]. *)
Fixpoint back_to_slash (p : list Z) (i : nat) : outcome Z :=
  match i with
  | O => Ok 0
  | S j =>
      c ← aread p (Z.of_nat i);
      if c =? 47 then Ok (Z.of_nat i) else back_to_slash p j
  end.

Definition basename (path : option (list Z)) : outcome (path_result * list Z) :=
  match path with
  | None => Ok (PDot, [])
  | Some p =>
      c ← chr p;
      if c =? 0 then Ok (PDot, p) else
      n ← strlen p;
      let i := n - 1 in
      c ← aread p i;
      p ← (if c =? 47 then awrite p i 0 else Ok p);
      i ← back_to_slash p (Z.to_nat i);
      c ← aread p (i + 1);
      Ok (if c =? 0 then PSlash else PAt (i + 1), p)
  end.

Definition dirname (path : option (list Z)) : outcome (path_result * list Z) :=
  match path with
  | None => Ok (PDot, [])
  | Some p =>
      c ← chr p;
      if c =? 0 then Ok (PDot, p) else
      n ← strlen p;
      let i := n - 1 in
      c ← aread p i;
      if (c =? 47) && (i =? 0) then Ok (PAt i, p) else
      let i := if c =? 47 then i - 1 else i in
      i ← back_to_slash p (Z.to_nat i);
      c ← aread p i;
      if negb (c =? 47) then Ok (PDot, p)
      else if i =? 0 then Ok (PSlash, p)
      else
        p ← awrite p i 0;
        i ← back_to_slash p (Z.to_nat (i - 1));
        c ← aread p i;
        if negb (c =? 47) then Ok (PDot, p) else Ok (PAt (i + 1), p)
  end.

(** ** Comparison: equal strings and only they compare as 0 *)

Fixpoint diff (key : Z -> Z) (t1 t2 : list Z) : Z :=
  match t1, t2 with
  | [], _ => zlen t2
  | _, [] => zlen t1
  | a :: t1, b :: t2 => c_int (negb (key a =? key b)) + diff key t1 t2
  end.

Lemma diff_nonneg key t1 t2 : 0 <= diff key t1 t2.
Proof.
  revert t2. induction t1 as [|a t1 IH]; intros [|b t2]; cbn [diff]; try apply zlen_nonneg.
  specialize (IH t2). destruct (key a =? key b); cbn; lia.
Qed.

Lemma diff_zero key t1 t2 : diff key t1 t2 = 0 <-> key <$> t1 = key <$> t2.
Proof.
  revert t2. induction t1 as [|a t1 IH]; intros [|b t2]; cbn [diff]; [by split|..].
  - split; [|intros [=]]. rewrite zlen_cons. pose proof (zlen_nonneg t2). lia.
  - split; [|intros [=]]. rewrite zlen_cons. pose proof (zlen_nonneg t1). lia.
  - pose proof (diff_nonneg key t1 t2). cbn. destruct (Z.eqb_spec (key a) (key b)) as [E|E]; cbn.
    + rewrite Z.add_0_l, IH, E. split; [by intros ->|by intros [=]].
    + split; [lia|by intros [= ? ?]].
Qed.

Lemma diff_nil_r key t : diff key t [] = zlen t.
Proof. by destruct t. Qed.

Lemma chr_cstr m t : cstr m t -> chr m = Ok (default 0 (head t)).
Proof. intros [(r & -> & ->)|(c & m' & t' & -> & -> & _)]%cstr_inv; done. Qed.

Lemma advance_cstr m t : cstr m t -> cstr (advance m) (tail t).
Proof.
  intros [(r & -> & ->)|(c & m' & t' & -> & -> & Hc & H')]%cstr_inv; cbn.
  - by exists r.
  - destruct (Z.eqb_spec c 0); [done|]. done.
Qed.

Lemma head_cstr m t c : cstr m t -> head t = Some c -> c <> 0.
Proof. intros (r & -> & Hf) Ht. destruct t; [done|]. by apply Forall_cons in Hf as [? _]; simplify_eq/=. Qed.

Lemma compare_loop_spec key limited n m1 m2 t1 t2 l1 l2 rc :
  (forall c, key c = key 0 -> c = 0) -> cstr m1 t1 -> cstr m2 t2 ->
  (limited = false -> length t1 <= n /\ length t2 <= n)%nat ->
  compare_loop key limited n m1 m2 l1 l2 rc =
    Ok (result (l1 + zlen (take n t1)) (l2 + zlen (take n t2)) (rc + diff key (take n t1) (take n t2))).
Proof.
  intros Hkey. revert m1 m2 t1 t2 l1 l2 rc. induction n as [|n IH]; intros m1 m2 t1 t2 l1 l2 rc H1 H2 Hn;
    cbn [compare_loop]; rewrite (chr_cstr _ _ H1), (chr_cstr _ _ H2); cbn [mbind outcome_bind].
  - rewrite !take_0. change (zlen (@nil Z)) with 0. cbn [diff]. change (zlen (@nil Z)) with 0.
    rewrite !Z.add_0_r. destruct limited; [by case_goal|]. destruct (Hn eq_refl) as [Ha Hb].
    destruct t1, t2; cbn in Ha, Hb; try lia. done.
  - destruct ((default 0 (head t1) =? 0) && (default 0 (head t2) =? 0)) eqn:E.
    + apply andb_true_iff in E as [E1%Z.eqb_eq E2%Z.eqb_eq].
      destruct t1 as [|a t1]; [|by edestruct (head_cstr _ _ a H1)].
      destruct t2 as [|b t2]; [|by edestruct (head_cstr _ _ b H2)].
      cbn. by rewrite !Z.add_0_r.
    + rewrite (IH _ _ (tail t1) (tail t2)); [|by apply advance_cstr|by apply advance_cstr|].
      2:{ intros Hl. destruct (Hn Hl). destruct t1, t2; cbn in *; lia. }
      f_equal. destruct t1 as [|a t1], t2 as [|b t2]; cbn [take tail head from_option id diff] in *;
        rewrite ?take_nil, ?diff_nil_r, ?zlen_cons; cbn [diff]; change (zlen (@nil Z)) with 0.
      * done.
      * pose proof (head_cstr _ _ b H2 eq_refl). rewrite (proj2 (Z.eqb_neq b 0)) by done.
        destruct (Z.eqb_spec (key 0) (key b)); [by edestruct (Hkey b)|]. cbn [negb c_int Z.eqb].
        f_equal; lia.
      * pose proof (head_cstr _ _ a H1 eq_refl). rewrite (proj2 (Z.eqb_neq a 0)) by done.
        destruct (Z.eqb_spec (key a) (key 0)); [by edestruct (Hkey a)|]. cbn [negb c_int Z.eqb].
        f_equal; lia.
      * pose proof (head_cstr _ _ b H2 eq_refl). pose proof (head_cstr _ _ a H1 eq_refl).
        rewrite (proj2 (Z.eqb_neq b 0)), (proj2 (Z.eqb_neq a 0)) by done. cbn [negb c_int Z.eqb].
        f_equal; lia.
Qed.

Lemma result_zero l1 l2 rc : result l1 l2 rc = 0 <-> rc = 0.
Proof. unfold result. case_goal; lia. Qed.

Lemma cstr_length m t : cstr m t -> (length t < length m)%nat.
Proof. intros (r & -> & _). rewrite length_app. cbn. lia. Qed.

Lemma tolower_key c : tolower c = tolower 0 -> c = 0.
Proof. unfold tolower. cbn. case_goal; breflect; lia. Qed.

(** For the string functions of the C library 0 means equal: [strcmp] and
    [strcasecmp] on whole strings, [strncmp] and [strncasecmp] on their first [n]
    characters; the functions always return. *)
Theorem strcmp_zero m1 m2 t1 t2 n :
  cstr m1 t1 -> cstr m2 t2 -> 0 <= n ->
  (exists r, u_strcmp m1 m2 = Ok r /\ (r = 0 <-> t1 = t2)) /\
  (exists r, strcasecmp m1 m2 = Ok r /\ (r = 0 <-> tolower <$> t1 = tolower <$> t2)) /\
  (exists r, strncmp m1 m2 n = Ok r /\ (r = 0 <-> ztake n t1 = ztake n t2)) /\
  (exists r, strncasecmp m1 m2 n = Ok r /\
     (r = 0 <-> tolower <$> ztake n t1 = tolower <$> ztake n t2)).
Proof.
  intros H1 H2 Hn. pose proof (cstr_length _ _ H1). pose proof (cstr_length _ _ H2).
  unfold u_strcmp, strcasecmp, strncmp, strncasecmp.
  rewrite !(compare_loop_spec _ _ _ _ _ t1 t2) by (done || apply tolower_key || (intros; lia)).
  rewrite !(take_ge t1), !(take_ge t2) by lia. fold (ztake n t1) (ztake n t2).
  split_and!; eexists; (split; [done|]); rewrite result_zero, Z.add_0_l, diff_zero, ?list_fmap_id; done.
Qed.

Lemma u_strcmp_spec m1 m2 t1 t2 :
  cstr m1 t1 -> cstr m2 t2 -> exists r, u_strcmp m1 m2 = Ok r /\ (r = 0 <-> t1 = t2).
Proof.
  intros H1 H2. pose proof (cstr_length _ _ H1). pose proof (cstr_length _ _ H2). unfold u_strcmp.
  rewrite (compare_loop_spec _ _ _ _ _ t1 t2) by (done || (intros; lia)).
  rewrite (take_ge t1), (take_ge t2) by lia. eexists. split; [done|].
  by rewrite result_zero, Z.add_0_l, diff_zero, !list_fmap_id.
Qed.

(** The sign says which string is longer, not which comes first: [strcmp] orders
    neither of two different strings of the same length before the other. *)
Lemma strcmp_no_order :
  u_strcmp [97; 0] [98; 0] = Ok 1 /\ u_strcmp [98; 0] [97; 0] = Ok 1.
Proof. done. Qed.

(** ** Searching *)

Lemma cstr_app t1 t2 rest :
  Forall (fun c => c <> 0) (t1 ++ t2) -> cstr (t1 ++ t2 ++ 0 :: rest) (t1 ++ t2).
Proof. intros Hf. exists rest. by rewrite <- app_assoc. Qed.

Lemma in_set_spec c m t : cstr m t -> in_set c m = Ok (bool_decide (c ∈ t)).
Proof.
  revert m. induction t as [|b t IH]; intros m Hm.
  - destruct Hm as (r & -> & _). done.
  - apply cstr_inv in Hm as [(r & -> & ?)|(b' & m' & t' & -> & [= <- <-] & Hb & Hm)]; [done|]. cbn [in_set].
    destruct (Z.eqb_spec b 0); [done|]. rewrite (IH m' Hm). destruct (Z.eqb_spec c b) as [->|Hne].
    + rewrite bool_decide_eq_true_2; [done|by left].
    + f_equal. apply bool_decide_ext. rewrite elem_of_cons. naive_solver.
Qed.

Lemma strpbrk_spec m t sep seps :
  cstr m t -> cstr sep seps ->
  match list_find (.∈ seps) t with
  | None => strpbrk m sep = Ok None
  | Some (i, _) => strpbrk m sep = Ok (Some (drop i m))
  end.
Proof.
  intros Hm Hs. revert m Hm. induction t as [|a t IH]; intros m Hm.
  - by destruct Hm as (r & -> & _).
  - apply cstr_inv in Hm as [(r & -> & ?)|(b' & m' & t' & -> & [= <- <-] & Ha & Hm)]; [done|]. cbn.
    destruct (Z.eqb_spec a 0); [done|]. rewrite (in_set_spec _ _ _ Hs). cbn. specialize (IH m' Hm).
    destruct (decide (a ∈ seps)) as [Hi|Hi].
    + by rewrite bool_decide_eq_true_2.
    + rewrite bool_decide_eq_false_2 by done. by destruct (list_find _ t) as [[i x]|]; cbn.
Qed.

(** [strspn] counts the leading characters that are in the set. *)
Lemma strspn_spec m t sep seps :
  cstr m t -> cstr sep seps ->
  exists k, strspn m sep = Ok (Z.of_nat k) /\ Forall (.∈ seps) (take k t) /\
    (forall c, head (drop k t) = Some c -> c ∉ seps) /\ (k <= length t)%nat.
Proof.
  intros Hm Hs. unfold strspn.
  enough (G : forall r, exists k, strspn_loop m sep r = Ok (r + Z.of_nat k) /\ Forall (.∈ seps) (take k t) /\
    (forall c, head (drop k t) = Some c -> c ∉ seps) /\ (k <= length t)%nat) by apply (G 0).
  revert m Hm. induction t as [|a t IH]; intros m Hm r.
  - destruct Hm as (rest & -> & _). exists O. cbn. split_and!; [f_equal; lia|done..].
  - apply cstr_inv in Hm as [(? & -> & ?)|(b' & m' & t' & -> & [= <- <-] & Ha & Hm)]; [done|].
    cbn [strspn_loop]. destruct (Z.eqb_spec a 0); [done|]. rewrite (in_set_spec _ _ _ Hs). cbn [mbind outcome_bind].
    case_bool_decide as Hi.
    + destruct (IH m' Hm (r + 1)) as (k & E & Hk & Hd & Hl). exists (S k). rewrite E. cbn [take drop length].
      split_and!; [f_equal; lia|by constructor|done|lia].
    + exists O. rewrite Z.add_0_r. cbn. split_and!; [done..| |lia]. by intros c [= ->].
Qed.

(** [strstr] also reports a proper prefix of the second string at the end of the
    first one; apart from that it finds the first occurrence. *)
Lemma no_difference_spec m1 m2 t1 t2 :
  cstr m1 t1 -> cstr m2 t2 ->
  no_difference m1 m2 = Ok (bool_decide (t1 `prefix_of` t2 \/ t2 `prefix_of` t1)).
Proof.
  intros H1. revert m2 t2. destruct H1 as (r1 & -> & Hf1).
  induction t1 as [|a t1 IH]; intros m2 t2 H2.
  - rewrite bool_decide_eq_true_2 by (left; apply prefix_nil).
    apply cstr_inv in H2 as [(r & -> & ->)|(b & m' & t' & -> & -> & Hb & H2)]; cbn; by rewrite ?orb_true_r.
  - apply Forall_cons in Hf1 as [Ha Hf1].
    apply cstr_inv in H2 as [(r & -> & ->)|(b & m' & t' & -> & -> & Hb & H2)]; cbn [no_difference app].
    + cbn. by rewrite bool_decide_eq_true_2 by (right; apply prefix_nil).
    + rewrite (proj2 (Z.eqb_neq a 0)), (proj2 (Z.eqb_neq b 0)) by done. cbn [orb].
      destruct (Z.eqb_spec b a) as [->|Hne]; cbn [negb].
      * rewrite (IH Hf1 m' t' H2). f_equal. apply bool_decide_ext. split; intros [H|H].
        -- left. by apply prefix_cons.
        -- right. by apply prefix_cons.
        -- left. by eapply prefix_cons_inv_2.
        -- right. by eapply prefix_cons_inv_2.
      * rewrite bool_decide_eq_false_2; [done|].
        intros [H%prefix_cons_inv_1|H%prefix_cons_inv_1]; congruence.
Qed.

Lemma strstr_spec m1 m2 t1 t2 :
  cstr m1 t1 -> cstr m2 t2 -> t2 <> [] ->
  match strstr m1 m2 with
  | Ok (Some p) => exists a b, t1 = a ++ b /\ cstr p b /\ b <> [] /\ (b `prefix_of` t2 \/ t2 `prefix_of` b) /\
      (forall a' b', t1 = a' ++ b' -> (length a' < length a)%nat -> ~ t2 `prefix_of` b')
  | Ok None => forall a b, t1 = a ++ b -> ~ t2 `prefix_of` b
  | _ => False
  end.
Proof.
  intros H1 H2 Hne. unfold strstr. rewrite (chr_cstr _ _ H2). cbn [mbind outcome_bind].
  destruct t2 as [|c2 t2']; [done|]. cbn [head from_option id].
  rewrite (proj2 (Z.eqb_neq c2 0)) by (by eapply head_cstr). set (t2 := c2 :: t2') in *.
  revert m1 H1. induction t1 as [|x t1 IH]; intros m1 H1.
  - destruct H1 as (r & -> & _). cbn. intros a b [-> ->]%symmetry%app_eq_nil [k ?]. done.
  - assert (H1' := H1). apply cstr_inv in H1 as [(? & -> & ?)|(b' & m' & t' & -> & [= <- <-] & Hx & Hm)]; [done|].
    cbn [strstr_loop]. destruct (Z.eqb_spec x 0); [done|].
    rewrite (no_difference_spec _ _ _ _ H1' H2). cbn [mbind outcome_bind]. case_bool_decide as Hp.
    + exists [], (x :: t1). split_and!; [done..| |cbn; lia]. done.
    + specialize (IH m' Hm). destruct (strstr_loop m' m2) as [[p|]| | |]; [|..|done|done|done].
      * destruct IH as (a & b & -> & Hb & Hbne & Hpre & Hfirst). exists (x :: a), b. split_and!; [done..|].
        intros a' b' E Hl Hp'. destruct a' as [|y a'].
        -- cbn in E. subst b'. apply Hp. by right.
        -- injection E as -> E. apply (Hfirst a' b' E); [cbn in Hl; lia|done].
      * intros a b E Hp'. destruct a as [|y a].
        -- cbn in E. subst b. apply Hp. by right.
        -- injection E as -> E. by apply (IH a b).
Qed.

Lemma strstr_end_matches : strstr [97; 98; 0] [98; 99; 0] = Ok (Some [98; 0]).
Proof. done. Qed.

(** [strcspn] counts how often the first character of the set occurs. *)
Lemma strcspn_counts_first : strcspn [97; 98; 99; 97; 0] [97; 0] = Ok 2 /\ strcspn [120; 97; 0] [98; 97; 0] = Ok 0.
Proof. done. Qed.

(** ** strtok: with one separating character, the fields of the text *)

Fixpoint fields (c : Z) (t : list Z) : list (list Z) :=
  match t with
  | [] => [[]]
  | a :: t =>
      if a =? c then [] :: fields c t
      else match fields c t with f :: fs => (a :: f) :: fs | [] => [[a]] end
  end.

(** The loop of a caller: [p = strtok(s, sep); p; p = strtok(NULL, sep)]. *)
Fixpoint strtok_rest (fuel : nat) (st : strtok_state) (sep : list Z) (r : option Z)
  : outcome (list Z * strtok_state) :=
  match r with
  | None => Ok ([], st)
  | Some p =>
      match fuel with
      | O => NoFuel
      | S fuel =>
          '(r, st) ← strtok st None sep;
          '(ps, st) ← strtok_rest fuel st sep r;
          Ok (p :: ps, st)
      end
  end.

Definition strtok_all (buf sep : list Z) : outcome (list Z * strtok_state) :=
  '(r, st) ← strtok {| tok_buf := buf; strtok_s := None |} (Some 0) sep;
  strtok_rest (S (length buf)) st sep r.

Lemma fields_split c t1 t2 : c ∉ t1 -> fields c (t1 ++ c :: t2) = t1 :: fields c t2.
Proof.
  induction t1 as [|a t1 IH]; intros Hn; cbn.
  - by rewrite Z.eqb_refl.
  - apply not_elem_of_cons in Hn as [Ha Hn]. rewrite (proj2 (Z.eqb_neq a c)) by done. by rewrite (IH Hn).
Qed.

Lemma fields_last c t : c ∉ t -> fields c t = [t].
Proof.
  induction t as [|a t IH]; intros Hn; cbn; [done|].
  apply not_elem_of_cons in Hn as [Ha Hn]. rewrite (proj2 (Z.eqb_neq a c)) by done. by rewrite (IH Hn).
Qed.

(** The text with its separators overwritten. *)
Definition cut (c : Z) (t : list Z) : list Z := (fun a => if a =? c then 0 else a) <$> t.

Lemma cut_id c t : c ∉ t -> cut c t = t.
Proof.
  induction t as [|a t IH]; intros Hn; [done|]. apply not_elem_of_cons in Hn as [Ha Hn].
  cbn. rewrite (proj2 (Z.eqb_neq a c)) by done. f_equal. by apply IH.
Qed.

Lemma drop_zlen_app {A} (l1 l2 : list A) : zdrop (zlen l1) (l1 ++ l2) = l2.
Proof. unfold zdrop, zlen. rewrite Nat2Z.id. apply drop_app_length. Qed.

(** A step from the start of a field. *)
Lemma strtok_step c pre t rest :
  c <> 0 -> Forall (fun a => a <> 0) t ->
  let st := {| tok_buf := pre ++ t ++ 0 :: rest; strtok_s := Some (zlen pre) |} in
  ((c ∉ t) /\ strtok st None [c; 0] = Ok (Some (zlen pre), {| tok_buf := tok_buf st; strtok_s := None |})) \/
  exists t1 t2, t = t1 ++ c :: t2 /\ (c ∉ t1) /\
    strtok st None [c; 0] = Ok (Some (zlen pre),
      {| tok_buf := (pre ++ t1 ++ [0]) ++ t2 ++ 0 :: rest; strtok_s := Some (zlen (pre ++ t1 ++ [0])) |}).
Proof.
  intros Hc Hf st. subst st. unfold strtok, strtok_next. cbn [strtok_s tok_buf].
  rewrite drop_zlen_app.
  assert (Hm : cstr (t ++ 0 :: rest) t) by by exists rest.
  assert (Hsep : cstr [c; 0] [c]) by (exists []; split; [done|by repeat constructor]).
  pose proof (strpbrk_spec _ _ _ _ Hm Hsep) as Hp.
  destruct (list_find (.∈ [c]) t) as [[i x]|] eqn:E; rewrite Hp; cbn [mbind outcome_bind].
  - right. apply list_find_Some in E as (Hi & ->%list_elem_of_singleton & Hfirst).
    exists (take i t), (drop (S i) t).
    assert (Ht : t = take i t ++ c :: drop (S i) t) by (symmetry; by apply take_drop_middle).
    pose proof (lookup_lt_Some _ _ _ Hi) as Hlt. split_and!; [done| |].
    { intros [j [Hj Hjl]%lookup_take_Some]%list_elem_of_lookup. by destruct (Hfirst j c Hj Hjl); left. }
    assert (He : zlen (pre ++ t ++ 0 :: rest) - zlen (drop i (t ++ 0 :: rest)) = zlen (pre ++ take i t)) by zlia.
    rewrite He. rewrite awrite_ok by zlia. cbn [mbind outcome_bind].
    change (strlen [c; 0]) with (strlen_loop [c; 0] 0). rewrite (strlen_loop_spec _ _ 0 Hsep).
    cbn [mbind outcome_bind]. repeat f_equal.
    + revert Ht. generalize (take i t), (drop (S i) t). intros t1 t2 ->.
      replace (pre ++ (t1 ++ c :: t2) ++ 0 :: rest) with ((pre ++ t1) ++ c :: t2 ++ 0 :: rest)
        by (by rewrite <- !app_assoc).
      unfold zlen. rewrite Nat2Z.id, insert_app_r_alt by lia. rewrite Nat.sub_diag. cbn.
      by rewrite <- !app_assoc.
    + zlia.
  - left. apply list_find_None in E. split; [|done].
    intros [j Hj]%list_elem_of_lookup. eapply Forall_lookup in E; [|done]. by destruct E; left.
Qed.

Lemma strtok_rest_fields c pre t rest fuel :
  c <> 0 -> Forall (fun a => a <> 0) t -> (length t < fuel)%nat ->
  let st := {| tok_buf := pre ++ t ++ 0 :: rest; strtok_s := Some (zlen pre) |} in
  exists r st' ps st'', strtok st None [c; 0] = Ok (r, st') /\ strtok_rest fuel st' [c; 0] r = Ok (ps, st'') /\
    tok_buf st'' = pre ++ cut c t ++ 0 :: rest /\
    Forall2 (fun p f => cstr (zdrop p (tok_buf st'')) f) ps (fields c t).
Proof.
  intros Hc. revert pre t. induction fuel as [|fuel IH]; intros pre t Hf Hl st; [lia|].
  destruct (strtok_step c pre t rest Hc Hf) as [[Hn E]|(t1 & t2 & -> & Hn & E)]; subst st; rewrite E.
  - exists (Some (zlen pre)), {| tok_buf := pre ++ t ++ 0 :: rest; strtok_s := None |}. cbn [strtok_rest].
    cbn [strtok strtok_next strtok_s mbind outcome_bind]. destruct fuel; cbn [strtok_rest mbind outcome_bind];
      (do 2 eexists; split_and!; [done..| |]; [by rewrite cut_id|];
       rewrite fields_last by done; repeat constructor; cbn [tok_buf]; rewrite drop_zlen_app; by exists rest).
  - apply Forall_app in Hf as [Hf1 [_ Hf2]%Forall_cons].
    destruct (IH (pre ++ t1 ++ [0]) t2 Hf2) as (r & st' & ps & st'' & E1 & E2 & Hb & HF).
    { rewrite length_app in Hl. cbn in Hl. lia. }
    do 2 eexists. exists (zlen pre :: ps), st''. split; [done|]. cbn [strtok_rest]. rewrite E1.
    cbn [mbind outcome_bind]. rewrite E2. cbn [mbind outcome_bind]. split_and!; [done| |].
    + rewrite Hb. unfold cut. rewrite fmap_app. cbn. rewrite Z.eqb_refl. fold (cut c t1) (cut c t2).
      rewrite (cut_id c t1) by done. by rewrite <- !app_assoc.
    + rewrite fields_split by done. constructor; [|done]. rewrite Hb, <- app_assoc, drop_zlen_app.
      rewrite <- app_assoc. by exists (cut c t2 ++ 0 :: rest).
Qed.

(** Cutting up a string with [strtok] and a separator of one character gives its
    fields in order, empty ones too, as strings inside the buffer. *)
Theorem strtok_fields c t rest :
  c <> 0 -> Forall (fun a => a <> 0) t ->
  exists ps st, strtok_all (t ++ 0 :: rest) [c; 0] = Ok (ps, st) /\
    Forall2 (fun p f => cstr (zdrop p (tok_buf st)) f) ps (fields c t).
Proof.
  intros Hc Hf. unfold strtok_all, strtok at 1. cbn [tok_buf].
  destruct (strtok_rest_fields c [] t rest (S (length (t ++ 0 :: rest))) Hc Hf)
    as (r & st' & ps & st'' & E1 & E2 & _ & HF); [rewrite length_app; lia|].
  cbn [app] in E1. change (zlen (@nil Z)) with 0 in E1. unfold strtok in E1. rewrite E1.
  cbn [mbind outcome_bind]. rewrite E2. by exists ps, st''.
Qed.

Lemma strtok_fields_witness :
  exists ps st, strtok_all [97; 44; 98; 0] [44; 0] = Ok (ps, st) /\
    Forall2 (fun p f => cstr (zdrop p (tok_buf st)) f) ps [[97]; [98]].
Proof. apply (strtok_fields 44 [97; 44; 98] []); [done|by repeat constructor]. Defined.

(** With a separator set of two characters the character behind the separator is
    lost: cutting "ab,cd" at ", " gives "ab" and "d". *)
Lemma strtok_two_separators :
  strtok_all [97; 98; 44; 99; 100; 0] [44; 32; 0] =
    Ok ([0; 4], {| tok_buf := [97; 98; 0; 99; 100; 0]; strtok_s := None |}).
Proof. done. Qed.

(** ** Numbers *)

(** The value of a sequence of digits. *)
Definition digits_value (base : Z) (ds : list Z) : Z :=
  fold_left (fun v c => v * base + get_value c base) ds 0.

Lemma get_value_range c base : get_value c base = -1 \/ 0 <= get_value c base < base.
Proof.
  unfold get_value.
  match goal with |- context [if (48 <=? ?l) && ?b then ?x else ?y] =>
    set (r := if (48 <=? l) && b then x else y) end.
  assert (-1 <= r).
  { subst r. repeat case_goal; breflect; lia. }
  destruct (Z.eqb_spec r (-1)); [by left|]. destruct (Z.leb_spec base r); [by left|]. right. lia.
Qed.

Lemma get_value_nonzero c base : get_value c base <> -1 -> c <> 0 /\ isspace c = false.
Proof.
  unfold get_value, isspace, tolower. intros H. split; [by intros ->|].
  destruct (Z.eqb_spec c 32); [subst; done|]. cbn. apply Z.ltb_ge. unfold u32, wrap.
  destruct ((65 <=? c) && (c <=? 90)) eqn:E; [breflect; rewrite Z.mod_small by lia; lia|].
  destruct ((48 <=? c) && (c <=? 57)) eqn:E1; [breflect; rewrite Z.mod_small by lia; lia|].
  destruct ((97 <=? c) && (c <=? 122)) eqn:E2; [breflect; rewrite Z.mod_small by lia; lia|]. done.
Qed.

Lemma digits_value_mono base ds v :
  2 <= base -> 0 <= v -> Forall (fun c => get_value c base <> -1) ds ->
  v <= fold_left (fun v c => v * base + get_value c base) ds v.
Proof.
  intros Hb. revert v. induction ds as [|c ds IH]; intros v Hv Hf; cbn; [lia|].
  apply Forall_cons in Hf as [Hc Hf]. destruct (get_value_range c base) as [?|Hr]; [done|].
  etransitivity; [|apply IH; [nia|done]]. nia.
Qed.

Lemma signed_digits_spec max base ds c rest v :
  2 <= base <= 36 -> 0 <= v <= max -> Forall (fun c => get_value c base <> -1) ds -> get_value c base = -1 ->
  let w := fold_left (fun v c => v * base + get_value c base) ds v in
  signed_digits max base (ds ++ c :: rest) v =
    Ok (if w <=? max then inl (c :: rest, w) else inr tt).
Proof.
  intros Hb. revert v. induction ds as [|d ds IH]; intros v Hv Hf Hc w; subst w; cbn [signed_digits app fold_left].
  - rewrite (proj2 (Z.leb_le _ _)) by lia. rewrite Hc, Z.eqb_refl. by destruct (c =? 0).
  - apply Forall_cons in Hf as [Hd Hf]. destruct (get_value_nonzero _ _ Hd) as [Hd0 _].
    destruct (get_value_range d base) as [?|Hr]; [done|].
    rewrite (proj2 (Z.eqb_neq d 0)), (proj2 (Z.eqb_neq _ _) Hd) by done.
    pose proof (digits_value_mono base ds (v * base + get_value d base) ltac:(lia) ltac:(nia) Hf) as Hm.
    destruct (Z.ltb_spec (max / base) v) as [Ho|Ho]; [|destruct (Z.ltb_spec (max - get_value d base) (v * base)) as [Ho'|Ho']].
    + assert (max < v * base) by (pose proof (Z.mul_succ_div_gt max base); nia).
      destruct (Z.leb_spec (fold_left (λ v0 c0, v0 * base + get_value c0 base) ds (v * base + get_value d base)) max); [lia|done].
    + destruct (Z.leb_spec (fold_left (λ v0 c0, v0 * base + get_value c0 base) ds (v * base + get_value d base)) max); [lia|done].
    + apply IH; [|done..]. nia.
Qed.

Lemma skip_space_spec ws c rest :
  Forall (fun a => isspace a = true /\ a <> 0) ws -> c = 0 \/ isspace c = false ->
  skip_space (ws ++ c :: rest) = Ok (c :: rest).
Proof.
  intros Hw Hc. induction Hw as [|a ws [Ha Ha0] _ IH]; cbn.
  - destruct (Z.eqb_spec c 0); [done|]. by destruct Hc as [?|Hc]; [|rewrite Hc].
  - by rewrite (proj2 (Z.eqb_neq a 0)), Ha by done.
Qed.

(** A numeral as [strtol] accepts it: white space, an optional plus sign and digits. *)
Definition numeral (base : Z) (ws : list Z) (plus : bool) (ds : list Z) : list Z :=
  ws ++ (if plus then [43] else []) ++ ds.

Lemma strto_signed_spec max base ws plus ds c rest :
  2 <= base <= 36 -> 0 <= max -> Forall (fun a => isspace a = true /\ a <> 0) ws ->
  ds <> [] -> Forall (fun d => get_value d base <> -1) ds -> get_value c base = -1 ->
  let m := numeral base ws plus ds ++ c :: rest in
  strto_signed max m base =
    Ok (if digits_value base ds <=? max
        then {| num_value := digits_value base ds; num_end := c :: rest; num_errno := None |}
        else {| num_value := max; num_end := m; num_errno := Some E_RANGE |}).
Proof.
  intros Hb Hmax Hw Hne Hf Hc m. destruct ds as [|d ds]; [done|].
  assert (Hd := Hf). apply Forall_cons in Hd as [Hd _]. destruct (get_value_nonzero _ _ Hd) as [Hd0 Hds].
  assert (Hsign : d <> 45 /\ d <> 43).
  { split; intros ->; apply Hd; unfold get_value, tolower; cbn; done. }
  assert (Hdig : signed_digits max base (d :: ds ++ c :: rest) 0 =
    Ok (if digits_value base (d :: ds) <=? max then inl (c :: rest, digits_value base (d :: ds)) else inr tt))
    by (apply (signed_digits_spec max base (d :: ds) c rest 0); done || lia).
  unfold strto_signed, m, numeral. destruct plus; rewrite <- !app_assoc; cbn [app].
  - rewrite skip_space_spec by (done || by right). cbn [mbind outcome_bind chr deref head].
    cbn [number_sign chr deref head mbind outcome_bind tail Z.eqb Pos.eqb].
    unfold number_base. rewrite (proj2 (Z.eqb_neq base 0)) by lia. cbn [negb mbind outcome_bind].
    rewrite !(proj2 (Z.leb_le _ _)) by lia. cbn [andb].
    rewrite Hdig. cbn [mbind outcome_bind]. by case_goal.
  - rewrite skip_space_spec by (done || by right). cbn [mbind outcome_bind chr deref head].
    rewrite (proj2 (Z.eqb_neq d 0)) by done.
    cbn [number_sign chr deref head mbind outcome_bind tail].
    rewrite (proj2 (Z.eqb_neq d 45)), (proj2 (Z.eqb_neq d 43)) by tauto. cbn [mbind outcome_bind].
    unfold number_base. rewrite (proj2 (Z.eqb_neq base 0)) by lia. cbn [negb mbind outcome_bind].
    rewrite !(proj2 (Z.leb_le _ _)) by lia. cbn [andb].
    rewrite Hdig. cbn [mbind outcome_bind]. by case_goal.
Qed.

(** [strtol] and [strtoll] read a numeral up to the first character that is no digit
    of the base; a value that does not fit gives the largest one, sets [errno] and
    leaves [*endptr] at the start. *)
Theorem strtol_numeral base ws plus ds c rest :
  2 <= base <= 36 -> Forall (fun a => isspace a = true /\ a <> 0) ws ->
  ds <> [] -> Forall (fun d => get_value d base <> -1) ds -> get_value c base = -1 ->
  let m := numeral base ws plus ds ++ c :: rest in
  let v := digits_value base ds in
  strtol m base =
    Ok (if v <=? LONG_MAX then {| num_value := v; num_end := c :: rest; num_errno := None |}
        else {| num_value := LONG_MAX; num_end := m; num_errno := Some E_RANGE |}) /\
  strtoll m base =
    Ok (if v <=? LLONG_MAX then {| num_value := v; num_end := c :: rest; num_errno := None |}
        else {| num_value := LLONG_MAX; num_end := m; num_errno := Some E_RANGE |}).
Proof. intros. split; apply strto_signed_spec; done. Qed.

(** [strtoul] does not notice that a product wraps: 9999999999 is read as 1410065407. *)
Lemma strtoul_wraps :
  strtoul (replicate 10 57 ++ [0]) 10 =
    Ok {| num_value := 1410065407; num_end := [0]; num_errno := None |}.
Proof. reflexivity. Qed.

Lemma strtol_numeral_witness :
  strtol [32; 43; 52; 50; 59; 0] 10 =
    Ok {| num_value := 42; num_end := [59; 0]; num_errno := None |} /\
  strtoll [32; 43; 52; 50; 59; 0] 10 =
    Ok {| num_value := 42; num_end := [59; 0]; num_errno := None |}.
Proof.
  apply (strtol_numeral 10 [32] true [52; 50] 59 [0]);
    [lia|by repeat constructor|done|by repeat constructor|done].
Defined.

(** ** Options *)

(** A description of the options a program takes, and the string for it. *)
Definition opt_spec := list (Z * bool).

Definition optstring_of (spec : opt_spec) : list Z :=
  concat ((fun '(c, arg) => c :: if arg : bool then [58] else []) <$> spec) ++ [0].

(** Options as given on a command line, and their words. *)
Definition opt_words (o : Z * option (list Z)) : list (option (list Z)) :=
  Some [45; o.1; 0] :: match o.2 with Some a => [Some a] | None => [] end.

(** The calls of [getopt] in the loop [while (-1 != (c = getopt(...)))]: what each
    call returned, and [optarg] behind it. *)
Fixpoint getopt_loop (fuel : nat) (st : options) (argc : Z) (argv : list (option (list Z))) (optstring : list Z)
  : outcome (list (Z * option (list Z)) * options) :=
  match fuel with
  | O => NoFuel
  | S fuel =>
      '(c, st) ← getopt st argc argv optstring;
      if c =? -1 then Ok ([], st) else
      '(os, st') ← getopt_loop fuel st argc argv optstring;
      Ok ((c, optarg st) :: os, st')
  end.

(** What the loop of a program sees of an option: [optarg] counts only if it takes an
    argument. *)
Definition sees (o got : Z * option (list Z)) : Prop := got.1 = o.1 /\ (o.2 <> None -> got.2 = o.2).

Definition spec_char (c : Z) : Prop := 0 < c < 128 /\ c <> 45 /\ c <> 58.

(** Whether the option [c] takes an argument, if the program knows it. *)
Fixpoint takes (spec : opt_spec) (c : Z) : option bool :=
  match spec with
  | [] => None
  | (d, arg) :: spec => if d =? c then Some arg else takes spec c
  end.

Lemma optstring_head spec :
  Forall (fun s => spec_char s.1) spec -> exists x r, optstring_of spec = x :: r /\ x <> 58.
Proof.
  intros Hs. destruct spec as [|[d a] spec]; [by exists 0, []|].
  apply Forall_cons in Hs as [(? & ? & ?) _]. unfold optstring_of. cbn. eexists _, _. split; [done|done].
Qed.

Lemma optstring_cons d (a : bool) spec :
  optstring_of ((d, a) :: spec) = d :: (if a then [58] else []) ++ optstring_of spec.
Proof. unfold optstring_of. cbn. by rewrite <- app_assoc. Qed.

Lemma find_option_spec spec c arg :
  Forall (fun s => spec_char s.1) spec -> spec_char c -> takes spec c = Some arg ->
  exists x r, find_option (optstring_of spec) c = Ok (c :: x :: r) /\ (x =? 58) = arg.
Proof.
  intros Hs Hc Ht. assert (c <> 58) by apply Hc.
  induction spec as [|[d a] spec IH]; [done|]. rewrite optstring_cons. cbn [takes] in Ht. cbn [find_option].
  apply Forall_cons in Hs as [Hd Hs]. assert (d <> 0) by (destruct Hd as [? _]; cbn in *; lia).
  rewrite (proj2 (Z.eqb_neq d 0)) by done. destruct (Z.eqb_spec d c) as [->|Hne].
  - injection Ht as ->. rewrite Z.eqb_refl. destruct arg; [by eexists 58, _|].
    destruct (optstring_head spec Hs) as (x & r & -> & Hx). exists x, r. split; [done|]. by apply Z.eqb_neq.
  - rewrite (proj2 (Z.eqb_neq c d)) by done. destruct a; cbn [app find_option].
    + rewrite (proj2 (Z.eqb_neq c 58)) by done. cbn. by apply IH.
    + by apply IH.
Qed.

(** One call at an option, with its argument or without one. *)
Lemma getopt_step spec st argc argv c arg :
  Forall (fun s => spec_char s.1) spec -> spec_char c -> takes spec c = Some (bool_decide (arg <> None)) ->
  optind st <= argc -> znth argv (optind st) = Some (Some [45; c; 0]) ->
  (forall a, arg = Some a -> znth argv (optind st + 1) = Some (Some a)) ->
  exists st', getopt st argc argv (optstring_of spec) = Ok (c, st') /\
    optind st' = optind st + zlen (opt_words (c, arg)) /\ (arg <> None -> optarg st' = arg).
Proof.
  intros Hs Hc Ht Hi Ha Harg. assert (Hc' := Hc). destruct Hc' as (Hc0 & Hc45 & Hc58). unfold getopt.
  rewrite (proj2 (Z.ltb_ge _ _)) by lia. rewrite (aread_ok _ _ _ Ha).
  cbn [mbind outcome_bind chr deref head tail]. cbn [Z.eqb Pos.eqb negb].
  rewrite (proj2 (Z.eqb_neq c 0)) by lia.
  destruct (u_strcmp_spec [45; c; 0] [45; 45; 0] [45; c] [45; 45]) as (d & -> & Hd).
  { exists []. split; [done|]. repeat constructor; lia. }
  { exists []. split; [done|]. by repeat constructor. }
  cbn [mbind outcome_bind]. rewrite (proj2 (Z.eqb_neq d 0)) by (intros [= ?]%Hd; done).
  destruct (find_option_spec spec c _ Hs Hc Ht) as (x & r & -> & Hx).
  cbn [mbind outcome_bind chr deref head tail optind optopt optarg].
  rewrite (proj2 (Z.eqb_neq c 0)) by lia. rewrite Hx.
  assert (Hsx : sext 8 c = c).
  { unfold sext, wrap. rewrite Z.mod_small by lia. rewrite (proj2 (Z.ltb_lt _ _)) by (cbn; lia). done. }
  rewrite Hsx. case_bool_decide as Hn.
  - destruct arg as [a|]; [|done]. rewrite (aread_ok _ _ _ (Harg a eq_refl)). cbn [mbind outcome_bind].
    eexists. split_and!; [done|cbn; unfold opt_words; cbn; zlia|done].
  - destruct arg as [a|]; [done|]. eexists. split_and!; [done|cbn; unfold opt_words; cbn; zlia|done].
Qed.

(** A word at which [getopt] stops: it is no option, or the end of the options. *)
Definition no_option (w : list Z) : Prop :=
  exists t, cstr w t /\ (head t <> Some 45 \/ t = [45] \/ t = [45; 45]).

Lemma getopt_stops st argc argv optstring w :
  optind st <= argc -> znth argv (optind st) = Some w -> (forall a, w = Some a -> no_option a) ->
  getopt st argc argv optstring = Ok (-1, st).
Proof.
  intros Hi Ha Hw. unfold getopt. rewrite (proj2 (Z.ltb_ge _ _)) by lia. rewrite (aread_ok _ _ _ Ha).
  cbn [mbind outcome_bind]. destruct w as [a|]; [|done]. destruct (Hw a eq_refl) as (t & Ht & Hcase).
  rewrite (chr_cstr _ _ Ht). cbn [mbind outcome_bind]. destruct Hcase as [Hh|[->| ->]].
  - destruct t as [|c t]; [done|]. cbn. rewrite (proj2 (Z.eqb_neq c 45)) by (intros ->; by apply Hh). done.
  - destruct Ht as (r & -> & _). done.
  - assert (Ht' := Ht). destruct Ht' as (r & -> & _). cbn [chr deref head tail app mbind outcome_bind from_option id].
    cbn [Z.eqb Pos.eqb negb].
    destruct (u_strcmp_spec (45 :: 45 :: 0 :: r) [45; 45; 0] [45; 45] [45; 45]) as (d & -> & Hd); [done| |].
    { exists []. split; [done|]. by repeat constructor. }
    by rewrite (proj2 Hd eq_refl).
Qed.

Lemma getopt_loop_reads spec pre os rest st argc :
  Forall (fun s => spec_char s.1) spec ->
  Forall (fun o => spec_char o.1 /\ takes spec o.1 = Some (bool_decide (o.2 <> None))) os ->
  (forall a, head rest = Some (Some a) -> no_option a) -> rest <> [] ->
  optind st = zlen pre ->
  let argv := pre ++ concat (opt_words <$> os) ++ rest in
  argc = zlen argv - 1 ->
  exists got st', getopt_loop (S (length os)) st argc argv (optstring_of spec) = Ok (got, st') /\
    Forall2 sees os got /\ optind st' = zlen pre + zlen (concat (opt_words <$> os)).
Proof.
  intros Hs Hos Hstop Hne. revert pre st. induction os as [|[c arg] os IH]; intros pre st Hi argv Hargc.
  - destruct rest as [|w rest]; [done|]. cbn [length getopt_loop].
    rewrite (getopt_stops st argc argv _ w); [|subst argv; rewrite Hargc, Hi; zlia| |].
    + cbn. exists [], st. split_and!; [done|constructor|]. rewrite Hi. cbn. zlia.
    + subst argv. rewrite Hi. rewrite znth_app_r by lia. by rewrite Z.sub_diag.
    + intros a ->. by apply Hstop.
  - apply Forall_cons in Hos as [[Hc Ht] Hos]. cbn [fst snd] in *.
    assert (Hv : argv = (pre ++ opt_words (c, arg)) ++ concat (opt_words <$> os) ++ rest)
      by (subst argv; cbn; by rewrite <- !app_assoc).
    destruct (getopt_step spec st argc argv c arg Hs Hc Ht) as (st1 & E & Hi1 & Ha1).
    { rewrite Hargc, Hi. subst argv. destruct rest; [done|]. unfold opt_words. zlia. }
    { rewrite Hi. subst argv. rewrite znth_app_r by lia. by rewrite Z.sub_diag. }
    { intros a ->. rewrite Hi. subst argv. rewrite znth_app_r by lia. replace (zlen pre + 1 - zlen pre) with 1 by lia. done. }
    cbn [length]. remember (S (length os)) as fuel eqn:Ef. cbn [getopt_loop]. rewrite E.
    cbn [mbind outcome_bind]. rewrite (proj2 (Z.eqb_neq c (-1))) by (destruct Hc; lia).
    destruct (IH Hos (pre ++ opt_words (c, arg)) st1) as (got & st' & E' & HF & Hi').
    { rewrite Hi1, Hi. zlia. }
    { rewrite Hargc, Hv. done. }
    rewrite Hv. subst fuel. rewrite E'. cbn [mbind outcome_bind].
    eexists _, st'. split_and!; [done| |].
    + constructor; [|done]. split; [done|apply Ha1].
    + rewrite Hi'.
      change (concat (opt_words <$> (c, arg) :: os)) with (opt_words (c, arg) ++ concat (opt_words <$> os)).
      rewrite !zlen_app. lia.
Qed.

(** The loop of a program over [getopt] sees the options of its command line, one by
    one and with their arguments, and stops at the first word that is none with
    [optind] at it.  Every option is one the program knows, a word of its own, [-x], and
    its argument is the next word: of [-ab] only [a] is seen
    ([getopt_group_loses]), and an unknown option is
    seen again for ever ([getopt_unknown_repeats]). *)
Theorem getopt_reads_options spec prog os rest opt arg :
  Forall (fun s => spec_char s.1) spec ->
  Forall (fun o => spec_char o.1 /\ takes spec o.1 = Some (bool_decide (o.2 <> None))) os ->
  (forall w, head rest = Some w -> no_option w) ->
  let argv := Some prog :: concat (opt_words <$> os) ++ (Some <$> rest) ++ [None] in
  let argc := zlen argv - 1 in
  exists got st,
    getopt_loop (S (length os)) {| optind := 1; optopt := opt; optarg := arg |} argc argv (optstring_of spec)
      = Ok (got, st) /\
    Forall2 sees os got /\ zdrop (optind st) argv = (Some <$> rest) ++ [None].
Proof.
  intros Hs Hos Hr argv argc.
  destruct (getopt_loop_reads spec [Some prog] os ((Some <$> rest) ++ [None])
    {| optind := 1; optopt := opt; optarg := arg |} argc Hs Hos) as (got & st & E & HF & Hi).
  { intros a. destruct rest as [|w rest]; [done|]. cbn. intros [= <-]. by apply Hr. }
  { by destruct rest. }
  { done. }
  { done. }
  exists got, st. split_and!; [exact E|done|]. rewrite Hi.
  change argv with ([Some prog] ++ concat (opt_words <$> os) ++ (Some <$> rest) ++ [None]).
  rewrite <- zlen_app, app_assoc. apply drop_zlen_app.
Qed.

Lemma getopt_reads_options_witness :
  exists got st,
    getopt_loop 3 {| optind := 1; optopt := 0; optarg := None |} 5
      [Some [120; 0]; Some [45; 112; 0]; Some [56; 48; 0]; Some [45; 118; 0]; Some [102; 0]; None]
      [112; 58; 118; 0] = Ok (got, st) /\
    Forall2 sees [(112, Some [56; 48; 0]); (118, None)] got /\
    zdrop (optind st) [Some [120; 0]; Some [45; 112; 0]; Some [56; 48; 0]; Some [45; 118; 0]; Some [102; 0]; None]
      = [Some [102; 0]; None].
Proof.
  apply (getopt_reads_options [(112, true); (118, false)] [120; 0] [(112, Some [56; 48; 0]); (118, None)] [[102; 0]] 0 None).
  - repeat constructor; cbn; lia.
  - repeat constructor; cbn; try lia; done.
  - intros w [= <-]. exists [102]. split; [|by left]. exists []. split; [done|by repeat constructor].
Defined.

(** Of two options in one word the second is not seen. *)
Lemma getopt_group_loses :
  exists st, getopt_loop 2 {| optind := 1; optopt := 0; optarg := None |} 2 [Some [120; 0]; Some [45; 97; 98; 0]; None] [97; 98; 0]
    = Ok ([(97, None)], st).
Proof. eexists. vm_compute. reflexivity. Qed.

(** An unknown option does not advance [optind]: the loop of a program that goes on
    after '?' sees the same option for ever. *)
Lemma getopt_unknown_repeats st argc argv optstring st' :
  getopt st argc argv optstring = Ok (63, st') -> optopt st' <> 63 -> optind st' = optind st.
Proof.
  unfold getopt. intros E Ho.
  repeat match type of E with
  | context [if ?b then _ else _] => destruct b
  | context [?m ≫= _] => destruct m eqn:?; cbn [mbind outcome_bind] in E
  | context [match ?o with Some _ => _ | None => _ end] => destruct o
  end; try done; simplify_eq/=; done.
Qed.

(** ** The environment is a map from names to values *)

(** The strings of an environment end where they should. *)
Definition env_ok (envs : list env) : Prop :=
  Forall (fun e => exists n v, env_name e = n ++ [0] /\ env_value e = v ++ [0] /\
                    Forall (fun c => c <> 0) n /\ Forall (fun c => c <> 0) v) envs.

Definition text_of (s : list Z) : list Z := take (length s - 1) s.

Arguments text_of : simpl never.

Definition env_lookup (envs : list env) (name : list Z) : option (list Z) :=
  text_of ∘ env_value <$> (snd <$> list_find (fun e => text_of (env_name e) = name) envs).

Lemma text_of_app t c : text_of (t ++ [c]) = t.
Proof. unfold text_of. rewrite length_app. cbn. by rewrite Nat.add_sub, take_app_length. Qed.

Lemma cstr_terminated t : Forall (fun c => c <> 0) t -> cstr (t ++ [0]) t.
Proof. by exists []. Qed.

Lemma internal_getenv_spec envs m name :
  env_ok envs -> cstr m name ->
  internal_getenv envs m = Ok (fst <$> list_find (fun e => text_of (env_name e) = name) envs).
Proof.
  intros Hok Hm. induction Hok as [|e envs (n & v & Hn & Hv & Hfn & Hfv) _ IH]; [done|].
  cbn [internal_getenv list_find]. rewrite Hn.
  destruct (u_strcmp_spec (n ++ [0]) m n name) as (d & -> & Hd); [by apply cstr_terminated|done|].
  cbn [mbind outcome_bind]. rewrite text_of_app. destruct (decide (n = name)) as [->|Hne].
  - by rewrite (proj2 Hd eq_refl).
  - rewrite (proj2 (Z.eqb_neq d 0)) by (by intros ?%Hd). rewrite IH. cbn [mbind outcome_bind].
    by destruct (list_find _ envs) as [[i x]|].
Qed.

Lemma getenv_spec envs m name :
  env_ok envs -> cstr m name ->
  getenv envs m = Ok ((fun v => v ++ [0]) <$> env_lookup envs name).
Proof.
  intros Hok Hm. unfold getenv, env_lookup. rewrite (internal_getenv_spec envs m name Hok Hm).
  cbn [mbind outcome_bind]. destruct (list_find _ envs) as [[i e]|] eqn:E; [|done]. cbn.
  apply list_find_Some in E as (Hi & _ & _). rewrite Hi. cbn.
  destruct (proj1 (Forall_lookup _ _) Hok i e Hi) as (n & v & _ & -> & _). by rewrite text_of_app.
Qed.

Lemma splice_prefix {A} (d x : list A) : zlen x = zlen d -> splice d 0 x = x.
Proof.
  intros Hl. unfold splice. rewrite Z.add_0_l, Hl. change (ztake 0 d) with (@nil A).
  unfold zdrop, zlen. rewrite Nat2Z.id, drop_all. by rewrite app_nil_r.
Qed.

Lemma insert_splice {A} (d : list A) off c :
  0 <= off < zlen d -> <[Z.to_nat off := c]> d = splice d off [c].
Proof.
  intros Ho. assert (zlen [c] = 1) by done.
  apply znth_ext; rewrite ?zlen_insert, ?zlen_splice by lia; [done|].
  intros i Hi. rewrite znth_insert, znth_splice by lia. destruct (Z.eqb_spec i off) as [->|Hne].
  - rewrite (proj2 (Z.leb_le _ _)), (proj2 (Z.ltb_lt _ _)) by lia. by rewrite Z.sub_diag.
  - destruct (Z.leb_spec off i), (Z.ltb_spec i (off + zlen [c])); cbn; (lia || done).
Qed.

Lemma strcpy_at_spec d off m t :
  cstr m t -> 0 <= off -> off + zlen t < zlen d -> strcpy_at d off m = Ok (splice d off (t ++ [0])).
Proof.
  intros (rest & -> & Hf). revert d off. induction Hf as [|c t Hc Hf IH]; intros d off Ho Hl; cbn [strcpy_at app].
  - change (zlen (@nil Z)) with 0 in Hl. rewrite awrite_ok by lia. cbn. by rewrite insert_splice by lia.
  - rewrite zlen_cons in Hl. pose proof (zlen_nonneg t). rewrite awrite_ok by lia. cbn [mbind outcome_bind].
    rewrite (proj2 (Z.eqb_neq c 0)) by done. rewrite IH by (rewrite ?zlen_insert; lia).
    rewrite insert_splice by lia. by rewrite (splice_snoc d off (off + 1) [c] (t ++ [0])); [|lia|zlia..].
Qed.

Lemma string_copy_spec m t : cstr m t -> string_copy m = Ok (t ++ [0]).
Proof.
  intros Hm. unfold string_copy, strcpy. rewrite (strlen_spec _ _ Hm). cbn [mbind outcome_bind].
  pose proof (zlen_nonneg t). rewrite (strcpy_at_spec _ _ _ t) by (done || zlia). f_equal.
  apply splice_prefix. zlia.
Qed.

Lemma list_find_insert {A} (P : A -> Prop) `{forall x, Decision (P x)} (l : list A) i x y :
  list_find P l = Some (i, x) -> P y -> list_find P (<[i := y]> l) = Some (i, y).
Proof.
  intros (Hi & _ & Hbefore)%list_find_Some Hy. apply list_find_Some. split_and!; [|done|].
  - apply list_lookup_insert_eq. by eapply lookup_lt_Some.
  - intros j z Hj Hlt. rewrite list_lookup_insert_ne in Hj by lia. by eapply Hbefore.
Qed.

Lemma list_find_insert_ne {A} (P : A -> Prop) `{forall x, Decision (P x)} (l : list A) i x y :
  l !! i = Some x -> ~ P x -> ~ P y -> list_find P (<[i := y]> l) = list_find P l.
Proof.
  revert i. induction l as [|a l IH]; intros i Hi Hx Hy; [done|]. destruct i as [|i].
  - injection Hi as ->. change (<[0%nat := y]> (x :: l)) with (y :: l). cbn [list_find]. by rewrite !decide_False.
  - change (<[S i := y]> (a :: l)) with (a :: <[i := y]> l). cbn [list_find]. destruct (decide (P a)); [done|].
    by rewrite (IH i).
Qed.

(** What a call of [setenv] leaves in the environment. *)
Definition env_after (envs : list env) (name value : list Z) (overwrite : Z) (x : list Z) : option (list Z) :=
  if bool_decide (x = name) then
    match env_lookup envs name with
    | Some v => Some (if overwrite =? 0 then v else value)
    | None => Some value
    end
  else env_lookup envs x.

Lemma setenv_spec mem envs m name mv value overwrite :
  env_ok envs -> cstr m name -> cstr mv value -> name <> [] ->
  exists rc envs', setenv mem envs (Some m) mv overwrite = Ok (rc, envs') /\ env_ok envs' /\
    (rc = 0 -> forall x, env_lookup envs' x = env_after envs name value overwrite x) /\
    (rc <> 0 -> envs' = envs) /\ ((forall i, mem i = true) -> rc = 0).
Proof.
  intros Hok Hm Hv Hne. assert (Hm' := Hm). destruct Hm' as (rm & _ & Hfn). assert (Hv' := Hv). destruct Hv' as (rv & _ & Hfv).
  unfold setenv. rewrite (strlen_spec _ _ Hm). cbn [mbind outcome_bind].
  rewrite (proj2 (Z.eqb_neq _ _)) by (destruct name; [done|zlia]).
  rewrite (strlen_spec _ _ Hv). cbn [mbind outcome_bind]. rewrite (internal_getenv_spec _ _ _ Hok Hm).
  cbn [mbind outcome_bind]. unfold env_after, env_lookup at 2.
  destruct (list_find (fun e => text_of (env_name e) = name) envs) as [[i e]|] eqn:E; cbn [fmap option_fmap option_map fst snd].
  - assert (Hi := E). apply list_find_Some in Hi as (Hi & Hname & _).
    destruct (Z.eqb_spec overwrite 0).
    { eexists _, _. split_and!; [done..| |done|done]. intros _ x. case_bool_decide as Hx; [|done]. subst x.
      unfold env_lookup. by rewrite E. }
    destruct (mem 0%nat) eqn:Em.
    2:{ eexists _, _. split_and!; [done|done|intros [=]|done|]. intros Hall. by rewrite Hall in Em. }
    rewrite Hi. cbn [deref mbind outcome_bind]. rewrite (string_copy_spec _ _ Hv). cbn [mbind outcome_bind].
    destruct (proj1 (Forall_lookup _ _) Hok i e Hi) as (en & ev & Hn & Hve & Hfe & _).
    eexists _, _. split_and!; [done| | |done|done].
    + apply Forall_insert; [done|]. by exists en, value.
    + intros _ x. unfold env_lookup. case_bool_decide as Hx.
      * subst x. rewrite (list_find_insert _ _ _ e) by done. cbn. by rewrite text_of_app.
      * rewrite (list_find_insert_ne _ _ _ e); [done..| |]; cbn; congruence.
  - destruct (mem 0%nat && mem 1%nat && mem 2%nat) eqn:Em.
    2:{ eexists _, _. split_and!; [done|done|intros [=]|done|]. intros Hall. by rewrite !Hall in Em. }
    rewrite (string_copy_spec _ _ Hm), (string_copy_spec _ _ Hv). cbn [mbind outcome_bind].
    eexists _, _. split_and!; [done| | |done|done].
    + constructor; [|done]. by exists name, value.
    + intros _ x. unfold env_lookup. cbn [list_find env_name env_value]. rewrite text_of_app.
      case_bool_decide as Hx.
      * subst x. rewrite decide_True by done. cbn. by rewrite text_of_app.
      * rewrite decide_False by congruence. by destruct (list_find (fun e => text_of (env_name e) = x) envs) as [[? ?]|].
Qed.

(** The environment of a program is a map from names to values: after a [setenv] that
    succeeded [getenv] returns the new value of the name, or the old one if there was
    one and it was not to be overwritten, and the values of all other names are as
    before; a [setenv] that failed changes nothing, and it fails only for lack of
    memory. *)
Theorem setenv_getenv mem envs m name mv value overwrite mx x :
  env_ok envs -> cstr m name -> cstr mv value -> name <> [] -> cstr mx x ->
  exists rc envs', setenv mem envs (Some m) mv overwrite = Ok (rc, envs') /\ env_ok envs' /\
    ((forall i, mem i = true) -> rc = 0) /\
    getenv envs' mx = Ok ((fun v => v ++ [0]) <$>
      (if rc =? 0 then env_after envs name value overwrite x else env_lookup envs x)).
Proof.
  intros Hok Hm Hv Hne Hx.
  destruct (setenv_spec mem envs m name mv value overwrite Hok Hm Hv Hne) as (rc & envs' & E & Hok' & H0 & H1 & Hmem).
  exists rc, envs'. split_and!; [done..|]. rewrite (getenv_spec _ _ _ Hok' Hx).
  destruct (Z.eqb_spec rc 0) as [Hrc|Hrc]; [by rewrite H0|by rewrite H1].
Qed.

Lemma setenv_getenv_witness :
  exists rc envs', setenv (fun _ => true) [{| env_name := [65; 0]; env_value := [49; 0] |}] (Some [66; 0]) [50; 0] 1
      = Ok (rc, envs') /\ env_ok envs' /\ ((forall i : nat, true = true) -> rc = 0) /\
    getenv envs' [65; 0] = Ok ((fun v => v ++ [0]) <$>
      (if rc =? 0 then env_after [{| env_name := [65; 0]; env_value := [49; 0] |}] [66] [50] 1 [65]
       else env_lookup [{| env_name := [65; 0]; env_value := [49; 0] |}] [65])).
Proof.
  apply (setenv_getenv (fun _ => true) [{| env_name := [65; 0]; env_value := [49; 0] |}] [66; 0] [66] [50; 0] [50] 1 [65; 0] [65]).
  - constructor; [|done]. exists [65], [49]. split_and!; try done; by repeat constructor.
  - exists []. split; [done|by repeat constructor].
  - exists []. split; [done|by repeat constructor].
  - done.
  - exists []. split; [done|by repeat constructor].
Defined.

(** ** Paths *)

Lemma path_back_to_slash_spec p k n :
  p !! k = Some 47 ->
  (forall j, (0 < j <= n)%nat -> exists c, p !! (k + j)%nat = Some c /\ c <> 47) ->
  back_to_slash p (k + n) = Ok (Z.of_nat k).
Proof.
  intros Hk. induction n as [|n IH]; intros Hn.
  - rewrite Nat.add_0_r. destruct k as [|k]; [done|]. cbn [back_to_slash].
    rewrite (aread_ok p (Z.of_nat (S k)) 47); [done|]. unfold znth.
    rewrite (proj2 (Z.leb_le _ _)), Nat2Z.id by lia. done.
  - rewrite Nat.add_succ_r. cbn [back_to_slash]. destruct (Hn (S n)) as (c & Hc & Hne); [lia|].
    rewrite (aread_ok p (Z.of_nat (S (k + n))) c).
    2:{ unfold znth. rewrite (proj2 (Z.leb_le _ _)), Nat2Z.id by lia. by rewrite <- Nat.add_succ_r. }
    cbn [mbind outcome_bind]. rewrite (proj2 (Z.eqb_neq c 47)) by done. apply IH. intros j Hj. apply Hn. lia.
Qed.

Lemma back_to_slash_name dir name r :
  47 ∉ name -> back_to_slash (dir ++ 47 :: name ++ r) (length dir + length name) = Ok (zlen dir).
Proof.
  intros Hn. apply path_back_to_slash_spec.
  - by rewrite lookup_app_r, Nat.sub_diag by lia.
  - intros j Hj. rewrite lookup_app_r by lia. replace (length dir + j - length dir)%nat with (S (j - 1)) by lia.
    change ((47 :: name ++ r) !! S (j - 1)) with ((name ++ r) !! (j - 1)%nat).
    rewrite lookup_app_l by lia. destruct (name !! (j - 1)%nat) as [c|] eqn:E.
    + exists c. split; [done|]. intros ->. by eapply Hn, list_elem_of_lookup_2.
    + apply lookup_ge_None in E. lia.
Qed.

Lemma znth_at {A} (l1 l2 : list A) x : znth (l1 ++ x :: l2) (zlen l1) = Some x.
Proof. rewrite znth_app_r by lia. by rewrite Z.sub_diag. Qed.

(** [basename] returns the last component of a path that has a slash in front of it. *)
Lemma basename_last dir name rest :
  Forall (fun c => c <> 0) (dir ++ name) -> name <> [] -> (47 ∉ name) ->
  let m := dir ++ 47 :: name ++ 0 :: rest in
  basename (Some m) = Ok (PAt (zlen dir + 1), m) /\ cstr (zdrop (zlen dir + 1) m) name.
Proof.
  intros [Hd Hn]%Forall_app Hne Hs m.
  assert (Hm : cstr m (dir ++ 47 :: name)).
  { exists rest. split; [subst m; by rewrite <- app_assoc|]. apply Forall_app. split; [done|]. by constructor. }
  assert (Hlast : exists n0 c, name = n0 ++ [c] /\ c <> 47).
  { destruct (exists_last Hne) as (n0 & c & ->). exists n0, c. split; [done|]. intros ->.
    apply Hs, elem_of_app. right. by left. }
  destruct Hlast as (n0 & c & Hname & Hc).
  split.
  - unfold basename. rewrite (chr_cstr _ _ Hm). cbn [mbind outcome_bind].
    rewrite (proj2 (Z.eqb_neq _ 0)).
    2:{ destruct dir as [|x dir]; [done|]. by apply Forall_cons in Hd as [? _]. }
    rewrite (strlen_spec _ _ Hm). cbn [mbind outcome_bind].
    rewrite (aread_ok m _ c).
    2:{ replace m with ((dir ++ 47 :: n0) ++ c :: 0 :: rest) by (subst m; rewrite Hname; by rewrite <- !app_assoc).
        replace (zlen (dir ++ 47 :: name) - 1) with (zlen (dir ++ 47 :: n0)) by (rewrite Hname; zlia). apply znth_at. }
    cbn [mbind outcome_bind]. rewrite (proj2 (Z.eqb_neq c 47)) by done. cbn [mbind outcome_bind].
    replace (Z.to_nat (zlen (dir ++ 47 :: name) - 1)) with (length dir + length name)%nat by zlia.
    subst m. rewrite back_to_slash_name by done. cbn [mbind outcome_bind].
    assert (Hx : exists x n1, name = x :: n1 /\ x <> 0).
    { destruct name as [|x n1]; [done|]. apply Forall_cons in Hn as [? _]. by exists x, n1. }
    destruct Hx as (x & n1 & -> & Hx0).
    rewrite (aread_ok _ _ x).
    2:{ change (dir ++ 47 :: (x :: n1) ++ 0 :: rest) with (dir ++ [47] ++ x :: n1 ++ 0 :: rest).
        rewrite app_assoc. replace (zlen dir + 1) with (zlen (dir ++ [47])) by zlia. apply znth_at. }
    cbn [mbind outcome_bind]. by rewrite (proj2 (Z.eqb_neq x 0)).
  - subst m. replace (dir ++ 47 :: name ++ 0 :: rest) with ((dir ++ [47]) ++ name ++ 0 :: rest) by (by rewrite <- app_assoc).
    replace (zlen dir + 1) with (zlen (dir ++ [47])) by zlia. rewrite drop_zlen_app. by exists rest.
Qed.

(** Without a slash the first character is lost, and a name with a trailing slash and
    nothing in front is taken for the root: basename("abc") is "bc", basename("a/") is
    "/". *)
Lemma basename_relative :
  basename (Some [97; 98; 99; 0]) = Ok (PAt 1, [97; 98; 99; 0]) /\
  basename (Some [97; 47; 0]) = Ok (PSlash, [97; 0; 0]).
Proof. done. Qed.

(** [dirname] returns the last name of the directory instead of its path:
    dirname("/usr/lib") is "usr". *)
Lemma dirname_last_name :
  dirname (Some [47; 117; 115; 114; 47; 108; 105; 98; 0]) =
    Ok (PAt 1, [47; 117; 115; 114; 0; 108; 105; 98; 0]).
Proof. done. Qed.

(** ** Copies *)

Lemma strlcpy_loop_spec n m t d i :
  cstr m t -> 0 <= i -> (n <= length t)%nat -> i + Z.of_nat n <= zlen d ->
  strlcpy_loop n d m i = Ok (splice d i (take n t), drop n m, i + Z.of_nat n, O).
Proof.
  intros (rest & -> & Hf). revert t Hf d i. induction n as [|n IH]; intros t Hf d i Hi Hn Hl; cbn [strlcpy_loop].
  - rewrite take_0, splice_nil by done. tuple_lia.
  - destruct t as [|c t]; [cbn in Hn; lia|]. apply Forall_cons in Hf as [Hc Hf]. cbn [app take drop].
    cbn [length] in Hn. rewrite awrite_ok by lia. cbn [mbind outcome_bind]. rewrite (proj2 (Z.eqb_neq c 0)) by done.
    rewrite IH by (rewrite ?zlen_insert; (done || lia)). rewrite insert_splice by lia.
    rewrite (splice_snoc d i (i + 1) [c] (take n t)); [|lia|zlia|zlia]. cbn [app]. tuple_lia.
Qed.

Section Duplicate.
Context {H : Type} `{AllocatorBytes H}.

(** [strdup] and [strndup] return NULL or a copy of the string, cut at [size]
    characters, in an object of exactly its size. *)
Lemma strdup_copies m t h :
  cstr m t -> zlen t + 1 < 2 ^ 32 ->
  exists r h', strdup m h = Ok (r, h') /\ (forall b, r = Some b -> blk_data b = t ++ [0]).
Proof.
  intros Hm Hl. unfold strdup. rewrite (strlen_spec _ _ Hm). cbn [mbind outcome_bind].
  pose proof (zlen_nonneg t). rewrite u32_small by lia.
  destruct (alloc_bytes (zlen t + 1) h) as [[b|] h'] eqn:E; [|by eexists _, _].
  assert (Hb : zlen (blk_data b) = zlen t + 1) by (eapply alloc_bytes_len; [|exact E]; lia). unfold strcpy.
  rewrite (strcpy_at_spec _ 0 _ t) by (done || lia). cbn [mbind outcome_bind]. eexists _, _. split; [done|].
  intros b' [= <-]. cbn. apply splice_prefix. zlia.
Qed.

Lemma strndup_copies m t size h :
  cstr m t -> zlen t + 1 < 2 ^ 32 -> 0 < size < 2 ^ 32 ->
  exists r h', strndup m size h = Ok (r, h') /\
    (t <> [] -> forall b, r = Some b -> blk_data b = ztake size t ++ [0]).
Proof.
  intros Hm Hl Hs. unfold strndup. rewrite (strlen_spec _ _ Hm). cbn [mbind outcome_bind].
  pose proof (zlen_nonneg t). rewrite u32_small by lia.
  destruct (alloc_bytes (Z.min (zlen t) size + 1) h) as [[b|] h'] eqn:E; [|by eexists _, _].
  assert (Hb : zlen (blk_data b) = Z.min (zlen t) size + 1) by (eapply alloc_bytes_len; [|exact E]; lia).
  unfold u_strlcpy.
  rewrite (strlcpy_loop_spec _ _ t) by (done || zlia). cbn [mbind outcome_bind].
  assert (Hr : cstr (drop (Z.to_nat (Z.min (zlen t) size)) m) (drop (Z.to_nat (Z.min (zlen t) size)) t)).
  { destruct Hm as (rest & -> & Hf). exists rest. rewrite drop_app_le by zlia. split; [done|by apply Forall_drop]. }
  destruct (Z.eqb_spec (Z.min (zlen t) size) 0) as [E0|E0].
  { cbn [mbind outcome_bind]. rewrite (strlen_spec _ _ Hr). cbn [mbind outcome_bind]. eexists _, _. split; [done|].
    intros Hne. destruct t; [done|]. zlia. }
  rewrite awrite_ok.
  2:{ rewrite zlen_splice; zlia. }
  cbn [mbind outcome_bind]. rewrite (strlen_spec _ _ Hr). cbn [mbind outcome_bind]. eexists _, _. split; [done|].
  intros _ b' [= <-]. cbn [blk_data]. set (k := Z.min (zlen t) size) in *.
  assert (Hk : take (Z.to_nat k) t = ztake size t).
  { unfold ztake, k. destruct (Z.le_ge_cases (zlen t) size).
    - rewrite Z.min_l by done. rewrite !take_ge by zlia. done.
    - by rewrite Z.min_r. }
  rewrite Hk, !Z2Nat.id by lia. assert (Hkl : zlen (ztake size t) = k) by zlia.
  rewrite insert_splice by (rewrite zlen_splice; lia).
  rewrite (splice_snoc _ 0 (0 + k)) by (rewrite ?zlen_cons; (lia || zlia)).
  apply splice_prefix. rewrite zlen_app, Hkl, Hb. done.
Qed.
End Duplicate.

(** [strlcpy] of the C library writes its terminator behind the [n] bytes of a buffer
    that is too short. *)
Lemma u_strlcpy_overruns : u_strlcpy [1; 1] [97; 98; 99; 0] 2 = Fault.
Proof. done. Qed.

Lemma memset_zeros k d i :
  0 <= i -> i + Z.of_nat k <= zlen d -> memset_loop k d i 0 = Ok (splice d i (replicate k 0)).
Proof.
  revert d i. induction k as [|k IH]; intros d i Hi Hl; cbn [memset_loop].
  - cbn [replicate]. by rewrite splice_nil.
  - rewrite awrite_ok by lia. cbn [mbind outcome_bind]. rewrite IH by (rewrite ?zlen_insert; lia).
    rewrite insert_splice by lia. by rewrite (splice_snoc d i (i + 1) [0] (replicate k 0)); [|lia|zlia..].
Qed.

(** [strncpy] writes exactly [n] bytes: the string, cut off at [n] characters or filled
    up with zeros. *)
Lemma strncpy_fills d m t n :
  cstr m t -> 0 <= n <= zlen d ->
  strncpy d m n = Ok (splice d 0 (take (Z.to_nat n) (t ++ replicate (Z.to_nat n) 0))).
Proof.
  intros Hm Hn. unfold strncpy.
  enough (G : forall k i d, 0 <= i -> i + Z.of_nat k <= zlen d ->
    strncpy_loop k d m i = Ok (splice d i (take k (t ++ replicate k 0)))) by (apply G; lia).
  clear d n Hn. intros k. revert m t Hm. induction k as [|k IH]; intros m t Hm i d Hi Hl; cbn [strncpy_loop].
  { by rewrite take_0, splice_nil. }
  rewrite (chr_cstr _ _ Hm). cbn [mbind outcome_bind]. rewrite awrite_ok by lia. cbn [mbind outcome_bind].
  rewrite insert_splice by lia. apply cstr_inv in Hm as [(r & -> & ->)|(c & m' & t' & -> & -> & Hc & Hm)].
  - cbn [head from_option id Z.eqb app]. rewrite take_ge by (rewrite length_replicate; lia).
    rewrite memset_zeros by (rewrite ?zlen_splice; zlia). f_equal.
    assert (Hone : zlen [0] = 1) by done.
    assert (Hr : zlen (replicate (S k) 0) = Z.of_nat (S k)) by zlia.
    apply znth_ext; rewrite !zlen_splice by (rewrite ?zlen_splice; lia); [done|].
    intros j Hj. rewrite !znth_splice by (rewrite ?zlen_splice by lia; lia).
    destruct (Z.leb_spec i j), (Z.ltb_spec j (i + zlen (replicate (S k) 0))), (Z.ltb_spec j (i + zlen [0]));
      cbn [andb]; (done || lia).
  - cbn [head from_option id tail app take replicate]. rewrite (proj2 (Z.eqb_neq c 0)) by done.
    rewrite (IH m' t' Hm) by (rewrite ?zlen_splice; zlia). f_equal.
    assert (Ht : take k (t' ++ 0 :: replicate k 0) = take k (t' ++ replicate k 0)).
    { rewrite !take_app. f_equal. change (0 :: replicate k 0) with (replicate (S k) 0).
      rewrite !take_replicate. f_equal. lia. }
    rewrite Ht. rewrite (splice_snoc d i (i + 1) [c]); [done|lia|zlia|]. pose proof (zlen_nonneg t'). zlia.
Qed.

(** Letters are no hexadecimal digits here: the two comparisons are the wrong way
    round. *)
Lemma isxdigit_decimal c : isxdigit c = isdigit c.
Proof.
  unfold isxdigit. destruct (Z.leb_spec (toupper c) 65), (Z.leb_spec 90 (toupper c)); cbn; rewrite ?orb_false_r; (lia || done).
Qed.
