(* ===== verification/Stdio.v ===== *)
(** userland/libc/stdio: streams over a file descriptor with their buffers, and
    formatted output.

    The system calls a stream makes are an interface ([Syscalls]); what they do for a
    regular file is [RegularFile].  The formatting of [vfprintf] is line by line that
    of the kernel's [vkcprintf] (Print.v); here are the streams its characters go to.
    Fields of FILE that these functions do not use are left out. *)

From stdpp Require Import base numbers list gmap.
From Stdlib Require Import ZArith Lia.
From S2P Require Import Prelude KString Print ULibc.

Open Scope Z_scope.

Definition EOF : Z := -1.
Definition SEEK_SET : Z := 0.
Definition SEEK_CUR : Z := 1.
Definition SEEK_END : Z := 2.
Definition BUFSIZ : Z := 4096.

(** [read] returns the bytes it stored with its result. *)
Class Syscalls (W : Type) : Type := {
  sys_read : Z -> Z -> W -> Z * list Z * W;
  sys_write : Z -> list Z -> W -> Z * W;
  sys_lseek : Z -> Z -> Z -> W -> Z * W
}.

(** struct __IO_FILE.  [can_seek] says that the [seek] function is not NULL. *)
Record FILE := {
  f_fd : Z;
  can_seek : bool;
  has_control : bool;
  append : bool;
  buffered_char : Z;
  has_buffered_char : bool;
  is_eof : bool;
  has_error : bool;
  write_buffer : option (list Z);
  write_buffer_stored : Z;
  read_buffer : option (list Z);
  read_buffer_stored : Z;
  read_buffer_has_read : Z
}.

Definition set_error (f : FILE) : FILE :=
  {| f_fd := f_fd f; can_seek := can_seek f; has_control := has_control f; append := append f;
     buffered_char := buffered_char f; has_buffered_char := has_buffered_char f;
     is_eof := is_eof f; has_error := true;
     write_buffer := write_buffer f; write_buffer_stored := write_buffer_stored f;
     read_buffer := read_buffer f; read_buffer_stored := read_buffer_stored f;
     read_buffer_has_read := read_buffer_has_read f |}.

Definition set_eof (f : FILE) : FILE :=
  {| f_fd := f_fd f; can_seek := can_seek f; has_control := has_control f; append := append f;
     buffered_char := buffered_char f; has_buffered_char := has_buffered_char f;
     is_eof := true; has_error := has_error f;
     write_buffer := write_buffer f; write_buffer_stored := write_buffer_stored f;
     read_buffer := read_buffer f; read_buffer_stored := read_buffer_stored f;
     read_buffer_has_read := read_buffer_has_read f |}.

Definition set_write (f : FILE) (b : option (list Z)) (stored : Z) : FILE :=
  {| f_fd := f_fd f; can_seek := can_seek f; has_control := has_control f; append := append f;
     buffered_char := buffered_char f; has_buffered_char := has_buffered_char f;
     is_eof := is_eof f; has_error := has_error f;
     write_buffer := b; write_buffer_stored := stored;
     read_buffer := read_buffer f; read_buffer_stored := read_buffer_stored f;
     read_buffer_has_read := read_buffer_has_read f |}.

Definition set_read (f : FILE) (b : option (list Z)) (stored has_read : Z) : FILE :=
  {| f_fd := f_fd f; can_seek := can_seek f; has_control := has_control f; append := append f;
     buffered_char := buffered_char f; has_buffered_char := has_buffered_char f;
     is_eof := is_eof f; has_error := has_error f;
     write_buffer := write_buffer f; write_buffer_stored := write_buffer_stored f;
     read_buffer := b; read_buffer_stored := stored; read_buffer_has_read := has_read |}.

Definition set_unget (f : FILE) (c : Z) (has : bool) : FILE :=
  {| f_fd := f_fd f; can_seek := can_seek f; has_control := has_control f; append := append f;
     buffered_char := c; has_buffered_char := has;
     is_eof := is_eof f; has_error := has_error f;
     write_buffer := write_buffer f; write_buffer_stored := write_buffer_stored f;
     read_buffer := read_buffer f; read_buffer_stored := read_buffer_stored f;
     read_buffer_has_read := read_buffer_has_read f |}.

Section Streams.
(** [fresh] is what a new object of [BUFSIZ] bytes holds. *)
Context {W : Type} `{Syscalls W} (fresh : list Z).

(** ** Writing (stdin.c) *)

Definition raw_write_fd (f : FILE) (s : list Z) (w : W) : Z * FILE * W :=
  let '(rc, w) := sys_write (f_fd f) s w in
  if rc =? -1 then (0, set_error f, w) else (rc, f, w).

Definition fflush_fd (f : FILE) (w : W) : FILE * W :=
  let '(_, f, w) := raw_write_fd f (ztake (write_buffer_stored f) (default [] (write_buffer f))) w in
  (set_write f (write_buffer f) 0, w).

Definition write_fd (f : FILE) (s : list Z) (w : W) : outcome (Z * FILE * W) :=
  let l := zlen s in
  let f := match write_buffer f with None => set_write f (Some fresh) 0 | Some _ => f end in
  if 4096 <? l then Ok (raw_write_fd f s w)
  else
    let '(f, w) := if 4096 <? write_buffer_stored f + l then fflush_fd f w else (f, w) in
    b ← deref (write_buffer f);
    b ← memcpy_at b (write_buffer_stored f) s 0 l;
    Ok (l, set_write f (Some b) (write_buffer_stored f + l), w).

(** ** Reading *)

Definition non_cache_read_fd (f : FILE) (l : Z) (w : W) : Z * list Z * FILE * W :=
  let '(rc, d, w) := sys_read (f_fd f) l w in
  let f := if rc =? 0 then set_eof f else f in
  if rc =? -1 then (0, [], set_error f, w) else (rc, d, f, w).

(** [if (!f->read_buffer)] with its body. *)
Definition with_buffer (f : FILE) : FILE :=
  match read_buffer f with None => set_read f (Some fresh) 0 0 | Some _ => f end.

(** The bytes stored at [s] are the second result; the first one counts them. *)
Fixpoint read_fd (fuel : nat) (f : FILE) (l : Z) (w : W) : outcome (Z * list Z * FILE * W) :=
  match fuel with
  | O => NoFuel
  | S fuel =>
      if l =? 0 then Ok (0, [], f, w) else
      if 4096 <=? l then Ok (non_cache_read_fd (set_read f (read_buffer f) 0 (read_buffer_has_read f)) l w) else
      let f := with_buffer f in
      b ← deref (read_buffer f);
      if 0 <? read_buffer_stored f then
        let read_len := Z.min l (read_buffer_stored f) in
        let has_read := read_buffer_has_read f in
        if (0 <=? has_read) && (has_read + read_len <=? zlen b) then
          let d := slice has_read read_len b in
          let f := set_read f (Some b) (read_buffer_stored f - read_len) (has_read + read_len) in
          let '(_, w) := sys_lseek (f_fd f) read_len SEEK_CUR w in
          '(rc, d', f, w) ← read_fd fuel f (l - read_len) w;
          Ok (u32 (read_len + rc), d ++ d', f, w)
        else Fault
      else if read_buffer_stored f =? 0 then
        let '(offset, w) := sys_lseek (f_fd f) 0 SEEK_CUR w in
        let '(rc, d, f, w) := non_cache_read_fd f 4096 w in
        b ← memcpy_at b 0 d 0 (zlen d);
        let '(_, w) := sys_lseek (f_fd f) offset SEEK_SET w in
        let f := set_read f (Some b) rc 0 in
        if rc =? 0 then Ok (0, [], f, w) else read_fd fuel f l w
      else Panic
  end.

(** Every call copies a byte or fills the buffer in front of one that does. *)
Definition read_fuel (l : Z) : nat := 2 * Z.to_nat l + 2.

Definition seek_fd (f : FILE) (offset whence : Z) (w : W) : Z * FILE * W :=
  let f := set_read f (read_buffer f) 0 (read_buffer_has_read f) in
  let '(rc, w) := sys_lseek (f_fd f) offset whence w in (rc, f, w).

Definition fseek (f : FILE) (offset whence : Z) (w : W) : outcome (Z * FILE * W) :=
  let f := set_read f (read_buffer f) 0 (read_buffer_has_read f) in
  c_assert (can_seek f) ;;
  Ok (seek_fd f offset whence w).

Definition ftell (f : FILE) (w : W) : outcome (Z * FILE * W) := fseek f 0 SEEK_CUR w.

Definition fread (size nmemb : Z) (f : FILE) (w : W) : outcome (Z * list Z * FILE * W) :=
  let bytes_to_read := u32 (nmemb * size) in
  '(rc, d, f, w) ← read_fd (read_fuel bytes_to_read) f bytes_to_read w;
  if size =? 0 then Fault else Ok (rc / size, d, f, w).

Definition fflush (f : FILE) (w : W) : Z * FILE * W :=
  let '(f, w) := fflush_fd f w in (0, f, w).

Definition fwrite (s : list Z) (size nmemb : Z) (f : FILE) (w : W) : outcome (Z * FILE * W) :=
  '(f, w) ← (if negb (has_control f) && append f
             then '(_, f, w) ← fseek f 0 SEEK_END w; Ok (f, w) else Ok (f, w));
  let bytes_to_write := u32 (nmemb * size) in
  if zlen s <? bytes_to_write then Fault else
  '(rc, f, w) ← write_fd f (ztake bytes_to_write s) w;
  if size =? 0 then Fault else
  let '(_, f, w) := fflush f w in
  Ok (rc / size, f, w).

(** ** Characters and lines *)

Definition fgetc (f : FILE) (w : W) : outcome (Z * FILE * W) :=
  if has_buffered_char f then
    let c := buffered_char f in
    '(_, f, w) ← fseek (set_unget f c false) 1 SEEK_CUR w;
    Ok (c, f, w)
  else
    '(rc, d, f, w) ← fread 1 1 f w;
    if rc =? 1 then c ← chr d; Ok (sext 8 c, f, w)
    else if has_error f then Ok (EOF, f, w)
    else if is_eof f then Ok (EOF, f, w)
    else Panic.

Definition ungetc (c : Z) (f : FILE) (w : W) : outcome (Z * FILE * W) :=
  if has_buffered_char f then Ok (EOF, f, w) else
  '(_, f, w) ← fseek (set_unget f c true) (-1) SEEK_CUR w;
  Ok (c, f, w).

(** [fgets] into a buffer [s]; the character of a read that failed is not used. *)
Fixpoint fgets_loop (k : nat) (s : list Z) (i : Z) (f : FILE) (w : W) : outcome (option (list Z) * FILE * W) :=
  match k with
  | O => Ok (Some s, f, w)
  | S k =>
      '(_, d, f, w) ← fread 1 1 f w;
      if has_error f then Ok (None, f, w)
      else if is_eof f then Ok (None, f, w)
      else
        c ← chr d;
        s ← awrite s i c;
        if c =? 10 then Ok (Some s, f, w) else fgets_loop k s (i + 1) f w
  end.

Definition fgets (s : list Z) (n : Z) (f : FILE) (w : W) : outcome (option (list Z) * FILE * W) :=
  fgets_loop (Z.to_nat n) s 0 f w.

(** [realloc] of the line to [n] bytes. *)
Definition grow (b : list Z) (n : Z) : list Z := b ++ replicate (Z.to_nat (n - zlen b)) 0.

(** The loop of [getdelim]: [b] is the line buffer of [n] bytes, [s] bytes of it are
    filled; the fuel bounds the length of a line. *)
Fixpoint getdelim_loop (fuel : nat) (b : list Z) (s delimiter : Z) (f : FILE) (w : W)
  : outcome (Z * list Z * FILE * W) :=
  match fuel with
  | O => NoFuel
  | S fuel =>
      '(rc, d, f, w) ← fread 1 1 f w;
      if rc =? 0 then
        b ← awrite b s 0; Ok (s, b, f, w)
      else
        c ← chr d;
        let b := if zlen b <=? s + 1 then grow b (zlen b + 256) else b in
        b ← awrite b s c;
        let s := s + 1 in
        if sext 8 c =? delimiter then b ← awrite b s 0; Ok (s, b, f, w)
        else getdelim_loop fuel b s delimiter f w
  end.

Definition getdelim (fuel : nat) (lineptr : option (list Z)) (delimiter : Z) (f : FILE) (w : W)
  : outcome (Z * list Z * FILE * W) :=
  let b := match lineptr with None => replicate 256 0 | Some b => b end in
  getdelim_loop fuel b 0 delimiter f w.

Definition getline (fuel : nat) (lineptr : option (list Z)) (f : FILE) (w : W)
  : outcome (Z * list Z * FILE * W) := getdelim fuel lineptr 10 f w.

Fixpoint fputs_loop (s : list Z) (n : Z) (f : FILE) (w : W) : outcome (Z * FILE * W) :=
  match s with
  | [] => Fault
  | c :: r =>
      if c =? 0 then Ok (n, f, w) else
      '(rc, f, w) ← fwrite s 1 1 f w;
      if rc =? 0 then Ok (EOF, f, w) else fputs_loop r (n + 1) f w
  end.

Definition fputs (s : list Z) (f : FILE) (w : W) : outcome (Z * FILE * W) := fputs_loop s 0 f w.

(** The first byte of the little endian [int c] is written. *)
Definition fputc (c : Z) (f : FILE) (w : W) : outcome (Z * FILE * W) :=
  '(rc, f, w) ← fwrite [u8 c; u8 (c / 2 ^ 8); u8 (c / 2 ^ 16); u8 (c / 2 ^ 24)] 1 1 f w;
  if 0 <? rc then Ok (c, f, w) else Ok (EOF, f, w).

(** ** Formatted output (vfprintf.c, vdprintf.c, sprintf.c, snprintf.c) *)

(** [FILE_WRITE] of the characters one after the other. *)
Fixpoint write_chars (f : FILE) (cs : list Z) (w : W) : outcome (FILE * W) :=
  match cs with
  | [] => Ok (f, w)
  | c :: cs =>
      '(rc, f, w) ← write_fd f [c] w;
      if rc =? ULONG_MAX then Panic else write_chars f cs w
  end.

Definition vfprintf (f : FILE) (fmt : list Z) (ap : list arg) (w : W) : outcome (Z * FILE * W) :=
  '(cs, rc) ← vkcprintf fmt ap;
  '(f, w) ← write_chars f cs w;
  let '(_, f, w) := fflush f w in
  Ok (rc, f, w).

Definition fd_stream (fd : Z) : FILE :=
  {| f_fd := fd; can_seek := false; has_control := false; append := false;
     buffered_char := 0; has_buffered_char := false; is_eof := false; has_error := false;
     write_buffer := None; write_buffer_stored := 0;
     read_buffer := None; read_buffer_stored := 0; read_buffer_has_read := 0 |}.

Definition vdprintf (fd : Z) (fmt : list Z) (ap : list arg) (w : W) : outcome (Z * W) :=
  '(rc, _, w) ← vfprintf (fd_stream fd) fmt ap w; Ok (rc, w).
End Streams.

(** [sn_write] of the C library is that of the kernel; the terminator has a byte of
    its own here. *)
Definition vsnprintf (str : list Z) (size : Z) (fmt : list Z) (ap : list arg) : outcome (list Z * Z) :=
  '(cs, rc) ← vkcprintf fmt ap;
  if size =? 0 then _ ← sn_write_all [0] 0 0 cs; Ok (str, rc)
  else str ← sn_write_all str 0 (size - 1) cs; Ok (str, rc).

(** [s_write] of [sprintf], one character. *)
Definition s_write (str : list Z) (off c : Z) : outcome (list Z) :=
  str ← awrite str off c; awrite str (off + 1) 0.

Fixpoint s_write_all (str : list Z) (off : Z) (cs : list Z) : outcome (list Z) :=
  match cs with
  | [] => Ok str
  | c :: cs => str ← s_write str off c; s_write_all str (off + 1) cs
  end.

Definition vsprintf (str fmt : list Z) (ap : list arg) : outcome (list Z * Z) :=
  '(cs, rc) ← vkcprintf fmt ap;
  str ← s_write_all str 0 cs;
  Ok (str, rc).

Lemma ztake_splice_end {A} (b s : list A) n :
  0 <= n -> n + zlen s <= zlen b -> ztake (n + zlen s) (splice b n s) = ztake n b ++ s.
Proof.
  intros Hn Hl. unfold splice. rewrite app_assoc. unfold ztake. rewrite take_app_le by zlia.
  apply take_ge. zlia.
Qed.

Lemma zlen_slice_le {A} off n (l : list A) : 0 <= n -> zlen (slice off n l) <= n.
Proof. intros. unfold slice, ztake, zlen. rewrite length_take. lia. Qed.

Lemma slice_prefix {A} off k n (l : list A) :
  0 <= off -> 0 <= k <= n -> zlen (slice off n l) = n -> slice off k l = ztake k (slice off n l).
Proof. intros. unfold slice, ztake. rewrite take_take. f_equal. lia. Qed.

Lemma slice_skip {A} off k n (l : list A) :
  0 <= off -> 0 <= k <= n -> slice (off + k) (n - k) l = zdrop k (slice off n l).
Proof.
  intros. unfold slice, ztake, zdrop. rewrite skipn_firstn_comm, drop_drop. f_equal; [lia|f_equal; lia].
Qed.

Lemma slice_self {A} off n (l : list A) : slice off (zlen (slice off n l)) l = slice off n l.
Proof.
  unfold slice, ztake, zlen. rewrite length_take, Nat2Z.id.
  destruct (Nat.le_ge_cases (Z.to_nat n) (length (zdrop off l))).
  - by rewrite Nat.min_l.
  - by rewrite Nat.min_r, !take_ge by lia.
Qed.

(** ** What the system calls do for a regular file

    The descriptor has the bytes of the file and a position; [read] takes what there
    is from the position on, [lseek] moves it. *)

Class RegularFile (W : Type) `{Syscalls W} (fd : Z) : Type := {
  rf_data : W -> list Z;
  rf_pos : W -> Z;
  rf_read : forall l w, 0 <= l -> 0 <= rf_pos w ->
    exists w', sys_read fd l w = (zlen (slice (rf_pos w) l (rf_data w)), slice (rf_pos w) l (rf_data w), w') /\
      rf_data w' = rf_data w /\ rf_pos w' = rf_pos w + zlen (slice (rf_pos w) l (rf_data w));
  rf_seek_cur : forall n w, 0 <= rf_pos w + n ->
    exists w', sys_lseek fd n SEEK_CUR w = (rf_pos w + n, w') /\
      rf_data w' = rf_data w /\ rf_pos w' = rf_pos w + n;
  rf_seek_set : forall n w, 0 <= n ->
    exists w', sys_lseek fd n SEEK_SET w = (n, w') /\ rf_data w' = rf_data w /\ rf_pos w' = n
}.

(** What reading leaves alone. *)
Definition other_fields (f : FILE) :=
  (f_fd f, can_seek f, has_control f, append f, (buffered_char f, has_buffered_char f), has_error f,
   (write_buffer f, write_buffer_stored f)).

Section Reading.
Context {W : Type} `{RegularFile W fd} (fresh : list Z).
Context (Hfresh : zlen fresh = 4096).

(** The bytes [pos .. ] of the file are at the front of what the buffer still holds. *)
Definition in_step (f : FILE) (w : W) : Prop :=
  f_fd f = fd /\ 0 <= rf_pos w /\
  match read_buffer f with
  | None => True
  | Some b => zlen b = 4096 /\ 0 <= read_buffer_stored f /\ 0 <= read_buffer_has_read f /\
      read_buffer_has_read f + read_buffer_stored f <= 4096 /\
      slice (read_buffer_has_read f) (read_buffer_stored f) b =
        slice (rf_pos w) (read_buffer_stored f) (rf_data w)
  end.

(** How many calls of [read_fd] a request takes at most. *)
Definition calls_needed (f : FILE) (l : Z) : Z :=
  2 * l + 1 + match read_buffer f with
              | Some _ => if read_buffer_stored f =? 0 then 1 else 0
              | None => 1
              end.

Lemma non_cache_read_spec f l w :
  f_fd f = fd -> 0 <= l -> 0 <= rf_pos w ->
  exists f' w', non_cache_read_fd f l w =
      (zlen (slice (rf_pos w) l (rf_data w)), slice (rf_pos w) l (rf_data w), f', w') /\
    rf_data w' = rf_data w /\ rf_pos w' = rf_pos w + zlen (slice (rf_pos w) l (rf_data w)) /\
    f' = (if zlen (slice (rf_pos w) l (rf_data w)) =? 0 then set_eof f else f).
Proof.
  intros Hfd Hl Hp. unfold non_cache_read_fd. rewrite Hfd.
  destruct (rf_read l w Hl Hp) as (w' & -> & Hd & Hpos).
  rewrite (proj2 (Z.eqb_neq _ (-1))) by zlia. eexists _, w'. split_and!; done.
Qed.

(** A stream whose buffer is empty is in step with any position. *)
Lemma in_step_empty f w :
  f_fd f = fd -> 0 <= rf_pos w -> (forall b, read_buffer f = Some b -> zlen b = 4096) ->
  read_buffer_stored f = 0 -> 0 <= read_buffer_has_read f <= 4096 -> in_step f w.
Proof.
  intros Hfd Hp Hb Hs Hh. unfold in_step. rewrite Hs. split_and!; [done..|].
  destruct (read_buffer f) as [b|]; [|done]. rewrite !slice_0. split_and!; [by apply Hb|lia..|done].
Qed.

Lemma with_buffer_spec f w :
  in_step f w -> exists b, read_buffer (with_buffer fresh f) = Some b /\ in_step (with_buffer fresh f) w /\
    other_fields (with_buffer fresh f) = other_fields f /\ is_eof (with_buffer fresh f) = is_eof f /\
    (forall l, calls_needed (with_buffer fresh f) l <= calls_needed f l).
Proof.
  intros (Hfd & Hp & Hb). unfold with_buffer. destruct (read_buffer f) as [b|] eqn:E.
  - exists b. split_and!; [done| |done..]. split_and!; [done..|]. by rewrite E.
  - exists fresh. split_and!; [done| |done|done|].
    + apply in_step_empty; [done|done|by intros b [= <-]|done|cbn; lia].
    + intros l. unfold calls_needed. cbn. rewrite E. lia.
Qed.

(** The read that bypasses the buffer. *)
Lemma read_direct f l w :
  in_step f w -> 0 < l ->
  exists f' w', non_cache_read_fd (set_read f (read_buffer f) 0 (read_buffer_has_read f)) l w =
      (zlen (slice (rf_pos w) l (rf_data w)), slice (rf_pos w) l (rf_data w), f', w') /\
    in_step f' w' /\ other_fields f' = other_fields f /\
    rf_data w' = rf_data w /\ rf_pos w' = rf_pos w + zlen (slice (rf_pos w) l (rf_data w)) /\
    (slice (rf_pos w) l (rf_data w) = [] -> 0 < l -> is_eof f' = true) /\
    (zlen (slice (rf_pos w) l (rf_data w)) = l -> is_eof f' = is_eof f).
Proof.
  intros (Hfd & Hpos & Hbuf) Hl.
  destruct (non_cache_read_spec (set_read f (read_buffer f) 0 (read_buffer_has_read f)) l w Hfd ltac:(lia) Hpos)
    as (f' & w' & -> & Hd & Hp & ->). eexists _, w'. split; [done|].
  assert (Hok : forall g, f_fd g = fd -> read_buffer g = read_buffer f -> read_buffer_stored g = 0 ->
      read_buffer_has_read g = read_buffer_has_read f -> read_buffer f <> None -> in_step g w').
  { intros g Hg Hgb Hgs Hgh Hne. apply in_step_empty; [done|zlia| |done|].
    - intros b Eb. rewrite Hgb in Eb. rewrite Eb in Hbuf. tauto.
    - rewrite Hgh. destruct (read_buffer f); [lia|done]. }
  split_and!; [|by case_goal|done|done| |].
  - destruct (read_buffer f) as [b|] eqn:Eb.
    + case_goal; by apply Hok.
    + case_goal; unfold in_step; cbn; rewrite ?Eb; split_and!; try done; zlia.
  - intros ->. done.
  - intros E. rewrite E. by rewrite (proj2 (Z.eqb_neq l 0)) by lia.
Qed.

(** Filling the empty buffer in front of the position. *)
Lemma fill_buffer f b w :
  in_step f w -> read_buffer f = Some b ->
  exists w1 f2 w2 b3 w3, sys_lseek (f_fd f) 0 SEEK_CUR w = (rf_pos w, w1) /\
    non_cache_read_fd f 4096 w1 =
      (zlen (slice (rf_pos w) 4096 (rf_data w)), slice (rf_pos w) 4096 (rf_data w), f2, w2) /\
    memcpy_at b 0 (slice (rf_pos w) 4096 (rf_data w)) 0 (zlen (slice (rf_pos w) 4096 (rf_data w))) = Ok b3 /\
    (exists r, sys_lseek (f_fd f2) (rf_pos w) SEEK_SET w2 = (r, w3)) /\
    let f3 := set_read f2 (Some b3) (zlen (slice (rf_pos w) 4096 (rf_data w))) 0 in
    in_step f3 w3 /\ other_fields f3 = other_fields f /\ rf_data w3 = rf_data w /\ rf_pos w3 = rf_pos w /\
    is_eof f3 = (if zlen (slice (rf_pos w) 4096 (rf_data w)) =? 0 then true else is_eof f).
Proof.
  intros (Hfd & Hpos & Hbuf) Eb. rewrite Eb in Hbuf. destruct Hbuf as (Hlb & _). rewrite Hfd.
  destruct (rf_seek_cur 0 w) as (w1 & E1 & Hd1 & Hp1); [lia|]. rewrite Z.add_0_r in E1, Hp1.
  destruct (non_cache_read_spec f 4096 w1 Hfd ltac:(lia) ltac:(lia)) as (f2 & w2 & E2 & Hd2 & Hp2 & Hf2).
  rewrite Hd1, Hp1 in *.
  assert (Hself := slice_self (rf_pos w) 4096 (rf_data w)).
  assert (Hd : zlen (slice (rf_pos w) 4096 (rf_data w)) <= 4096) by (apply zlen_slice_le; lia).
  generalize dependent (slice (rf_pos w) 4096 (rf_data w)). intros d E2 Hp2 Hf2 Hself Hd.
  pose proof (zlen_nonneg d).
  destruct (rf_seek_set (rf_pos w) w2 Hpos) as (w3 & E3 & Hd3 & Hp3).
  assert (Hfd2 : f_fd f2 = fd) by (rewrite Hf2; by case_goal).
  exists w1, f2, w2, (splice b 0 d), w3. split_and!; [done|done| | |intros f3; subst f3; split; [|split; [|split; [|split]]]].
  - rewrite memcpy_at_ok by lia. by rewrite slice_all.
  - exists (rf_pos w). by rewrite Hfd2.
  - unfold in_step. cbn. rewrite Hp3, Hd3, Hd2. split_and!; try done; try lia.
    + rewrite zlen_splice; lia.
    + by rewrite slice_splice_same, Hself by lia.
  - rewrite Hf2. unfold other_fields. cbn. by case_goal.
  - by rewrite Hd3, Hd2.
  - done.
  - rewrite Hf2. cbn. by case_goal.
Qed.

(** One request: whatever the buffer holds, the next bytes of the file arrive. *)
Lemma read_fd_spec fuel f l w :
  in_step f w -> 0 <= l < 2 ^ 32 -> calls_needed f l <= Z.of_nat fuel ->
  exists f' w', read_fd fresh fuel f l w =
      Ok (zlen (slice (rf_pos w) l (rf_data w)), slice (rf_pos w) l (rf_data w), f', w') /\
    in_step f' w' /\ other_fields f' = other_fields f /\
    rf_data w' = rf_data w /\ rf_pos w' = rf_pos w + zlen (slice (rf_pos w) l (rf_data w)) /\
    (slice (rf_pos w) l (rf_data w) = [] -> 0 < l -> is_eof f' = true) /\
    (zlen (slice (rf_pos w) l (rf_data w)) = l -> is_eof f' = is_eof f).
Proof.
  revert f l w. induction fuel as [|fuel IH]; intros f l w Hin Hl Hfuel.
  { unfold calls_needed in Hfuel. destruct (read_buffer f); [destruct (_ =? 0)|]; lia. }
  cbn [read_fd]. destruct (Z.eqb_spec l 0) as [->|Hl0].
  { exists f, w. rewrite slice_0. change (zlen (@nil Z)) with 0. split_and!; try done; lia. }
  destruct (Z.leb_spec 4096 l) as [Hbig|Hsmall].
  { destruct (read_direct f l w Hin ltac:(lia)) as (f' & w' & -> & Hr). by exists f', w'. }
  destruct (with_buffer_spec f w Hin) as (b & Eb & Hin1 & Ho1 & He1 & Hc). specialize (Hc l).
  rewrite <- Ho1, <- He1. assert (Hc' : calls_needed (with_buffer fresh f) l <= Z.of_nat (S fuel)) by lia.
  revert Eb Hin1 Hc'. generalize (with_buffer fresh f). clear f Hin Hfuel Ho1 He1 Hc. intros f Eb Hin Hc.
  rewrite Eb. cbn [deref mbind outcome_bind].
  assert (Hin' := Hin). destruct Hin' as (Hfd & Hpos & Hb). rewrite Eb in Hb. destruct Hb as (Hlb & Hs & Hh & Hhs & Hsl).
  unfold calls_needed in Hc. rewrite Eb in Hc.
  destruct (Z.ltb_spec 0 (read_buffer_stored f)) as [Hst|Hst].
  - set (st := read_buffer_stored f) in *. set (hr := read_buffer_has_read f) in *. set (k := Z.min l st).
    rewrite (proj2 (Z.leb_le 0 hr)), (proj2 (Z.leb_le (hr + k) (zlen b))) by lia. cbn [andb].
    assert (Hfull : zlen (slice (rf_pos w) st (rf_data w)) = st) by (rewrite <- Hsl; apply zlen_slice; lia).
    assert (Hdk : slice hr k b = slice (rf_pos w) k (rf_data w)).
    { rewrite (slice_prefix hr k st), (slice_prefix (rf_pos w) k st); try lia; [by rewrite Hsl|].
      apply zlen_slice; lia. }
    assert (Hk : zlen (slice (rf_pos w) k (rf_data w)) = k) by (rewrite <- Hdk; apply zlen_slice; lia).
    cbn [set_read f_fd]. rewrite Hfd. destruct (rf_seek_cur k w) as (w1 & E1 & Hd1 & Hp1); [lia|]. rewrite E1.
    set (f2 := set_read f (Some b) (st - k) (hr + k)).
    assert (Hin2 : in_step f2 w1).
    { unfold in_step. cbn. rewrite Hd1, Hp1. split_and!; try done; try lia. rewrite !slice_skip by lia. by rewrite Hsl. }
    destruct (IH f2 (l - k) w1 Hin2) as (f' & w' & E & Hin3 & Ho & Hd & Hp & Heof1 & Heof2); [lia| |].
    { unfold calls_needed. cbn. destruct (Z.eqb_spec st 0); [lia|]. destruct (Z.eqb_spec (st - k) 0); lia. }
    fold f2. rewrite E. cbn [mbind outcome_bind]. rewrite Hd1, Hp1 in *.
    assert (Happ : slice (rf_pos w) k (rf_data w) ++ slice (rf_pos w + k) (l - k) (rf_data w) = slice (rf_pos w) l (rf_data w)).
    { rewrite slice_app by lia. f_equal. lia. }
    assert (Hlen : zlen (slice (rf_pos w) l (rf_data w)) = k + zlen (slice (rf_pos w + k) (l - k) (rf_data w)))
      by (rewrite <- Happ, zlen_app; lia).
    assert (zlen (slice (rf_pos w + k) (l - k) (rf_data w)) <= l - k) by (apply zlen_slice_le; lia).
    pose proof (zlen_nonneg (slice (rf_pos w + k) (l - k) (rf_data w))).
    exists f', w'. rewrite u32_small by lia. rewrite Hdk, Happ, <- Hlen.
    split_and!; [done|done|by rewrite Ho|done|lia| |].
    + intros E0. rewrite E0 in Hlen. change (zlen (@nil Z)) with 0 in Hlen. lia.
    + intros E0. rewrite Heof2 by lia. done.
  - assert (Hst0 : read_buffer_stored f = 0) by lia. rewrite Hst0, Z.eqb_refl in *.
    destruct (fill_buffer f b w Hin Eb) as (w1 & f2 & w2 & b3 & w3 & -> & -> & -> & [r ->] & Hin3 & Ho3 & Hd3 & Hp3 & He3).
    cbn [mbind outcome_bind]. set (d := slice (rf_pos w) 4096 (rf_data w)) in *.
    set (f3 := set_read f2 (Some b3) (zlen d) 0) in *.
    assert (Hdl : slice (rf_pos w) l (rf_data w) = ztake l d).
    { unfold d, slice, ztake. rewrite take_take. f_equal. lia. }
    destruct (Z.eqb_spec (zlen d) 0) as [Hz|Hz].
    + assert (d = []) as Hdn by (destruct d; [done|zlia]). rewrite Hdl, Hdn. unfold ztake. rewrite take_nil.
      change (zlen (@nil Z)) with 0. exists f3, w3. split_and!; try done; try lia.
    + destruct (IH f3 l w3 Hin3 Hl) as (f' & w' & E & Hr).
      { unfold calls_needed. cbn. rewrite (proj2 (Z.eqb_neq _ 0)) by done. lia. }
      exists f', w'. rewrite Hd3, Hp3, He3, Ho3 in *. done.
Qed.

(** *** Reading a stream *)

Inductive stream_op :=
| SRead (size nmemb : Z)
| SGetc
| SSeek (offset : Z).

Inductive stream_result :=
| RItems (n : Z) (d : list Z)
| RChar (c : Z)
| RPos (p : Z).

Definition stream_step (op : stream_op) (f : FILE) (w : W) : outcome (stream_result * FILE * W) :=
  match op with
  | SRead size nmemb => '(n, d, f, w) ← fread fresh size nmemb f w; Ok (RItems n d, f, w)
  | SGetc => '(c, f, w) ← fgetc fresh f w; Ok (RChar c, f, w)
  | SSeek offset => '(p, f, w) ← fseek f offset SEEK_SET w; Ok (RPos p, f, w)
  end.

Fixpoint stream_run (ops : list stream_op) (f : FILE) (w : W) : outcome (list stream_result * FILE * W) :=
  match ops with
  | [] => Ok ([], f, w)
  | op :: ops =>
      '(r, f, w) ← stream_step op f w;
      '(rs, f, w) ← stream_run ops f w;
      Ok (r :: rs, f, w)
  end.

(** The same operations on the bytes of the file and a position, without a buffer. *)
Definition file_step (data : list Z) (pos : Z) (op : stream_op) : stream_result * Z :=
  match op with
  | SRead size nmemb =>
      let d := slice pos (size * nmemb) data in (RItems (zlen d / size) d, pos + zlen d)
  | SGetc => match znth data pos with Some c => (RChar (sext 8 c), pos + 1) | None => (RChar EOF, pos) end
  | SSeek offset => (RPos offset, offset)
  end.

Fixpoint file_run (data : list Z) (pos : Z) (ops : list stream_op) : list stream_result * Z :=
  match ops with
  | [] => ([], pos)
  | op :: ops =>
      let '(r, pos) := file_step data pos op in
      let '(rs, pos) := file_run data pos ops in
      (r :: rs, pos)
  end.

Definition op_ok (op : stream_op) : Prop :=
  match op with
  | SRead size nmemb => 0 < size /\ 0 <= nmemb /\ size * nmemb < 2 ^ 31
  | SGetc => True
  | SSeek offset => 0 <= offset
  end.

(** A stream in step that can seek, has no character pushed back and no error. *)
Definition readable (f : FILE) (w : W) : Prop :=
  in_step f w /\ can_seek f = true /\ has_buffered_char f = false /\ has_error f = false.

Lemma other_fields_eq f f' :
  other_fields f' = other_fields f ->
  f_fd f' = f_fd f /\ can_seek f' = can_seek f /\ has_buffered_char f' = has_buffered_char f /\
  has_error f' = has_error f.
Proof. unfold other_fields. by intros [= ]. Qed.

Lemma fread_spec f w size nmemb :
  in_step f w -> 0 < size -> 0 <= nmemb -> size * nmemb < 2 ^ 31 ->
  let d := slice (rf_pos w) (size * nmemb) (rf_data w) in
  exists f' w', fread fresh size nmemb f w = Ok (zlen d / size, d, f', w') /\
    in_step f' w' /\ other_fields f' = other_fields f /\
    rf_data w' = rf_data w /\ rf_pos w' = rf_pos w + zlen d /\
    (d = [] -> 0 < size * nmemb -> is_eof f' = true) /\ (zlen d = size * nmemb -> is_eof f' = is_eof f).
Proof.
  intros Hin Hs Hn Hlt d. unfold fread. rewrite (Z.mul_comm nmemb), u32_small by nia.
  destruct (read_fd_spec (read_fuel (size * nmemb)) f (size * nmemb) w Hin ltac:(nia)) as (f' & w' & -> & Hr).
  { unfold calls_needed, read_fuel. assert (0 <= size * nmemb) by nia.
    destruct (read_buffer f); [destruct (_ =? 0)|]; lia. }
  cbn [mbind outcome_bind]. rewrite (proj2 (Z.eqb_neq size 0)) by lia. exists f', w'. split; [done|]. done.
Qed.

Lemma slice_one {A} pos (l : list A) : 0 <= pos -> slice pos 1 l = match znth l pos with Some c => [c] | None => [] end.
Proof.
  intros Hp. unfold slice, ztake, zdrop, znth. rewrite (proj2 (Z.leb_le _ _)) by done.
  change (Z.to_nat 1) with 1%nat. destruct (l !! Z.to_nat pos) as [c|] eqn:E.
  - by rewrite (drop_S _ _ _ E).
  - apply lookup_ge_None in E. by rewrite drop_ge.
Qed.

Lemma fgetc_spec f w :
  readable f w ->
  exists f' w', fgetc fresh f w =
      Ok (match znth (rf_data w) (rf_pos w) with Some c => sext 8 c | None => EOF end, f', w') /\
    readable f' w' /\ rf_data w' = rf_data w /\
    rf_pos w' = rf_pos w + match znth (rf_data w) (rf_pos w) with Some _ => 1 | None => 0 end.
Proof.
  intros (Hin & Hcs & Hbc & He). unfold fgetc. rewrite Hbc. assert (Hpos : 0 <= rf_pos w) by apply Hin.
  destruct (fread_spec f w 1 1 Hin ltac:(lia) ltac:(lia) ltac:(lia)) as (f' & w' & -> & Hin' & Ho & Hd & Hp & Heof & _).
  cbn [mbind outcome_bind]. change (1 * 1) with 1 in *. rewrite (slice_one _ _ Hpos) in *.
  destruct (other_fields_eq _ _ Ho) as (_ & Hcs' & Hbc' & He').
  assert (readable f' w') by (split_and!; congruence || done).
  destruct (znth (rf_data w) (rf_pos w)) as [c|].
  - change (zlen [c]) with 1 in *. cbn. by exists f', w'.
  - change (zlen (@nil Z)) with 0 in *. cbn. rewrite He', He. rewrite (Heof eq_refl) by lia. by exists f', w'.
Qed.

Lemma fseek_set_spec f w n :
  readable f w -> 0 <= n ->
  exists f' w', fseek f n SEEK_SET w = Ok (n, f', w') /\ readable f' w' /\ rf_data w' = rf_data w /\ rf_pos w' = n.
Proof.
  intros ((Hfd & Hp & Hb) & Hcs & Hbc & He) Hn. unfold fseek, seek_fd. cbn. rewrite Hcs. cbn. rewrite Hfd.
  destruct (rf_seek_set n w Hn) as (w' & -> & Hd & Hp'). eexists _, w'. split; [done|].
  split; [split; [|done]|done]. unfold in_step. cbn. split; [done|]. split; [lia|].
  destruct (read_buffer f) as [b|]; [|done]. rewrite !slice_0. split_and!; [tauto|lia..|done].
Qed.

Lemma stream_step_spec op f w :
  readable f w -> op_ok op ->
  exists f' w', stream_step op f w = Ok (fst (file_step (rf_data w) (rf_pos w) op), f', w') /\
    readable f' w' /\ rf_data w' = rf_data w /\ rf_pos w' = snd (file_step (rf_data w) (rf_pos w) op).
Proof.
  intros Hr Hop. destruct op as [size nmemb| |n]; cbn [stream_step file_step fst snd].
  - destruct Hop as (Hs & Hn & Hlt). destruct Hr as (Hin & Hcs & Hbc & He).
    destruct (fread_spec f w size nmemb Hin Hs Hn Hlt) as (f' & w' & -> & Hin' & Ho & Hd & Hp & _).
    cbn [mbind outcome_bind]. destruct (other_fields_eq _ _ Ho) as (_ & Hcs' & Hbc' & He').
    exists f', w'. split; [done|]. split; [|done]. split; [done|]. by rewrite Hcs', Hbc', He'.
  - destruct (fgetc_spec f w Hr) as (f' & w' & -> & Hr' & Hd & Hp). cbn [mbind outcome_bind].
    exists f', w'. destruct (znth (rf_data w) (rf_pos w)); cbn; rewrite Hp; split_and!; try done; lia.
  - destruct (fseek_set_spec f w n Hr Hop) as (f' & w' & -> & Hr' & Hd & Hp). by exists f', w'.
Qed.

(** C33: whatever a program reads, gets and seeks on a stream over a regular file, the
    results are those of the same operations on the bytes of the file: the buffer
    cannot be seen, and the position of the descriptor is the one the program
    expects. *)
Theorem stream_reads_file ops f w :
  readable f w -> Forall op_ok ops ->
  exists f' w', stream_run ops f w = Ok (fst (file_run (rf_data w) (rf_pos w) ops), f', w') /\
    readable f' w' /\ rf_data w' = rf_data w /\ rf_pos w' = snd (file_run (rf_data w) (rf_pos w) ops).
Proof.
  intros Hr Hops. revert f w Hr. induction Hops as [|op ops Hop _ IH]; intros f w Hr; [by exists f, w|].
  cbn [stream_run file_run]. destruct (stream_step_spec op f w Hr Hop) as (f1 & w1 & -> & Hr1 & Hd1 & Hp1).
  cbn [mbind outcome_bind]. destruct (file_step (rf_data w) (rf_pos w) op) as [r pos]. cbn [fst snd] in *.
  destruct (IH f1 w1 Hr1) as (f2 & w2 & -> & Hr2 & Hd2 & Hp2). cbn [mbind outcome_bind].
  rewrite Hd1, Hp1 in *. exists f2, w2. destruct (file_run (rf_data w) pos ops) as [rs pos2]. by rewrite Hd2.
Qed.

(** *** Lines *)

Lemma awrite_end b (t : list Z) c s :
  ztake s b = t -> zlen t = s -> s < zlen b -> exists b', awrite b s c = Ok b' /\ zlen b' = zlen b /\ ztake (s + 1) b' = t ++ [c].
Proof.
  intros Ht Hl Hs. pose proof (zlen_nonneg t). rewrite awrite_ok by lia. eexists. split; [done|].
  split; [apply zlen_insert|]. rewrite insert_splice by lia. unfold splice.
  rewrite Ht. unfold ztake. rewrite app_assoc. rewrite take_app_le by zlia. rewrite take_ge by zlia. done.
Qed.

Lemma ztake_grow b n s : 0 <= s <= zlen b -> ztake s (grow b n) = ztake s b.
Proof. intros. unfold grow, ztake. rewrite take_app_le by zlia. done. Qed.

(** The loop of [getdelim] with the text [t] of the line already stored. *)
Lemma getdelim_loop_spec line delim rest fuel b t f w :
  in_step f w -> has_error f = false -> ztake (zlen t) b = t -> zlen t < zlen b ->
  zdrop (rf_pos w) (rf_data w) = line ++ rest ->
  (line = [] /\ rest = [] \/ exists l0 c, line = l0 ++ [c] /\ Forall (fun a => sext 8 a <> delim) l0 /\
     (sext 8 c = delim \/ rest = [] /\ sext 8 c <> delim)) ->
  (length line < fuel)%nat ->
  exists b' f' w', getdelim_loop fresh fuel b (zlen t) delim f w = Ok (zlen (t ++ line), b', f', w') /\
    ztake (zlen (t ++ line) + 1) b' = t ++ line ++ [0] /\
    in_step f' w' /\ other_fields f' = other_fields f /\
    rf_data w' = rf_data w /\ rf_pos w' = rf_pos w + zlen line.
Proof.
  revert line b t f w. induction fuel as [|fuel IH]; intros line b t f w Hin He Ht Hlt Hdata Hline Hfuel; [lia|].
  cbn [getdelim_loop]. assert (Hpos : 0 <= rf_pos w) by apply Hin.
  destruct (fread_spec f w 1 1 Hin ltac:(lia) ltac:(lia) ltac:(lia)) as (f' & w' & -> & Hin' & Ho & Hd & Hp & _).
  cbn [mbind outcome_bind]. change (1 * 1) with 1 in *.
  assert (Hone : slice (rf_pos w) 1 (rf_data w) = match line ++ rest with c :: _ => [c] | [] => [] end).
  { unfold slice. rewrite Hdata. by destruct (line ++ rest) as [|c [|]]. }
  rewrite Hone in *. destruct (other_fields_eq _ _ Ho) as (_ & _ & _ & He').
  destruct line as [|c line].
  - destruct Hline as [[_ ->]|(l0 & c & E & _)]; [|by destruct l0]. cbn [app zlen length Z.of_nat] in *.
    change (0 / 1) with 0. cbn [Z.eqb]. destruct (awrite_end b t 0 (zlen t) Ht eq_refl Hlt) as (b' & -> & _ & Hb').
    cbn [mbind outcome_bind]. exists b', f', w'. rewrite app_nil_r. split_and!; try done.
  - cbn [app] in *. change (zlen [c]) with 1 in *. change (1 / 1) with 1. cbn [app Z.eqb chr deref head mbind outcome_bind].
    set (b1 := if zlen b <=? zlen t + 1 then grow b (zlen b + 256) else b).
    assert (Hb1 : ztake (zlen t) b1 = t /\ zlen t + 1 < zlen b1).
    { subst b1. pose proof (zlen_nonneg t). destruct (Z.leb_spec (zlen b) (zlen t + 1)); [|split; [done|lia]].
      split; [by rewrite ztake_grow by lia|]. unfold grow. zlia. }
    destruct Hb1 as [Hb1 Hl1]. destruct (awrite_end b1 t c (zlen t) Hb1 eq_refl ltac:(lia)) as (b2 & -> & Hl2 & Hb2).
    cbn [mbind outcome_bind]. assert (Htc : zlen t + 1 = zlen (t ++ [c])) by (rewrite zlen_app; done).
    rewrite Htc in *.
    assert (Hdata' : zdrop (rf_pos w') (rf_data w') = line ++ rest).
    { rewrite Hd, Hp. rewrite <- zdrop_zdrop by lia. rewrite Hdata. done. }
    destruct Hline as [[? ?]|(l0 & c0 & E & Hl0 & Hc0)]; [done|].
    destruct l0 as [|a l0].
    + injection E as <- ->. destruct Hc0 as [Hc0|[-> Hc0]].
      * rewrite Hc0, Z.eqb_refl.
        destruct (awrite_end b2 (t ++ [c]) 0 (zlen (t ++ [c])) Hb2 eq_refl ltac:(lia)) as (b3 & -> & _ & Hb3).
        cbn [mbind outcome_bind]. exists b3, f', w'. rewrite Hb3, <- app_assoc. split_and!; try done.
      * rewrite (proj2 (Z.eqb_neq _ _) Hc0).
        destruct (IH [] b2 (t ++ [c]) f' w') as (b' & f2 & w2 & -> & Hb' & Hin2 & Ho2 & Hd2 & Hp2);
          [done|congruence|done|lia|done|by left|cbn in *; lia|].
        exists b', f2, w2. rewrite !app_nil_r in *. rewrite Hb', <- !app_assoc.
        split_and!; try done; try congruence. rewrite Hp2, Hp. cbn. zlia.
    + injection E as -> ->. apply Forall_cons in Hl0 as [Ha Hl0]. rewrite (proj2 (Z.eqb_neq _ _) Ha).
      destruct (IH (l0 ++ [c0]) b2 (t ++ [a]) f' w') as (b' & f2 & w2 & -> & Hb' & Hin2 & Ho2 & Hd2 & Hp2);
        [done|congruence|done|lia|done|right; by exists l0, c0|cbn in *; lia|].
      exists b', f2, w2. rewrite <- !app_assoc in *. cbn [app] in *.
      split_and!; try done; try congruence. rewrite Hp2, Hp. zlia.
Qed.

(** The text up to the first delimiter, with it, or all of it. *)
Fixpoint first_line (delim : Z) (l : list Z) : list Z :=
  match l with
  | [] => []
  | c :: l => if sext 8 c =? delim then [c] else c :: first_line delim l
  end.

Lemma first_line_spec delim l :
  exists rest, l = first_line delim l ++ rest /\
    (first_line delim l = [] /\ rest = [] \/ exists l0 c, first_line delim l = l0 ++ [c] /\
       Forall (fun a => sext 8 a <> delim) l0 /\ (sext 8 c = delim \/ rest = [] /\ sext 8 c <> delim)).
Proof.
  induction l as [|a l IH]; [exists []; split; [done|by left]|]. cbn.
  destruct (Z.eqb_spec (sext 8 a) delim) as [Ha|Ha].
  - exists l. split; [done|]. right. exists [], a. split_and!; [done|constructor|by left].
  - destruct IH as (rest & E & IH). exists rest. split; [cbn; by rewrite <- E|]. right.
    destruct IH as [[-> ->]|(l0 & c & -> & Hl0 & Hc)].
    + exists [], a. split_and!; [done|constructor|by right].
    + exists (a :: l0), c. split_and!; [done|by constructor|done].
Qed.

(** [getdelim] stores the next line of the file, with its delimiter and a terminating
    zero, in a buffer that grows with it, and returns its length; nothing is read
    beyond it. *)
Theorem getdelim_reads_line lineptr delim f w fuel :
  in_step f w -> has_error f = false -> (forall b, lineptr = Some b -> 0 < zlen b) ->
  let line := first_line delim (zdrop (rf_pos w) (rf_data w)) in
  (length line < fuel)%nat ->
  exists b f' w', getdelim fresh fuel lineptr delim f w = Ok (zlen line, b, f', w') /\
    ztake (zlen line + 1) b = line ++ [0] /\ in_step f' w' /\ other_fields f' = other_fields f /\
    rf_data w' = rf_data w /\ rf_pos w' = rf_pos w + zlen line.
Proof.
  intros Hin He Hb line Hfuel. destruct (first_line_spec delim (zdrop (rf_pos w) (rf_data w))) as (rest & Hd & Hl).
  unfold getdelim. set (b := match lineptr with None => _ | Some b => b end).
  assert (Hbl : 0 < zlen b) by (subst b; destruct lineptr as [b|]; [by apply Hb|done]).
  destruct (getdelim_loop_spec line delim rest fuel b [] f w Hin He eq_refl Hbl Hd Hl Hfuel)
    as (b' & f' & w' & E & Hr). by exists b', f', w'.
Qed.
End Reading.

(** ** What the system calls do for a descriptor that takes every byte

    [of_written] is all that went through the descriptor. *)

Class OutputFile (W : Type) `{Syscalls W} (fd : Z) : Type := {
  of_written : W -> list Z;
  of_write : forall d w, exists w', sys_write fd d w = (zlen d, w') /\ of_written w' = of_written w ++ d
}.

Section Writing.
Context {W : Type} `{OutputFile W fd} (fresh : list Z).
Context (Hfresh : zlen fresh = 4096).

(** The bytes a program has written: those that are out and those in the buffer. *)
Definition pending (f : FILE) : list Z := ztake (write_buffer_stored f) (default [] (write_buffer f)).

Definition writable (f : FILE) : Prop :=
  f_fd f = fd /\ 0 <= write_buffer_stored f /\
  match write_buffer f with
  | Some b => zlen b = 4096 /\ write_buffer_stored f <= 4096
  | None => write_buffer_stored f = 0
  end.

Definition wflags (f : FILE) : bool * bool := (has_error f, append f).

Lemma fflush_fd_spec f w :
  writable f -> exists f' w', fflush_fd f w = (f', w') /\ writable f' /\ pending f' = [] /\
    of_written w' = of_written w ++ pending f /\ wflags f' = wflags f /\
    write_buffer f' = write_buffer f /\ write_buffer_stored f' = 0.
Proof.
  intros (Hfd & Hs & Hb). unfold fflush_fd, raw_write_fd. rewrite Hfd. fold (pending f).
  destruct (of_write (pending f) w) as (w' & -> & Hw). rewrite (proj2 (Z.eqb_neq _ (-1))) by zlia.
  eexists _, w'. split; [done|]. split_and!; try done.
  cbn. destruct (write_buffer f) as [b|]; [|done]. destruct Hb. by split.
Qed.

Lemma write_fd_spec f s w :
  writable f -> zlen s <= 4096 ->
  exists f' w', write_fd fresh f s w = Ok (zlen s, f', w') /\ writable f' /\
    of_written w' ++ pending f' = (of_written w ++ pending f) ++ s /\ wflags f' = wflags f.
Proof.
  intros Hw Hs. unfold write_fd.
  set (f1 := match write_buffer f with None => set_write f (Some fresh) 0 | Some _ => f end).
  assert (H1 : writable f1 /\ pending f1 = pending f /\ wflags f1 = wflags f /\ write_buffer f1 <> None).
  { subst f1. destruct (write_buffer f) as [b|] eqn:Eb; [by rewrite Eb|].
    destruct Hw as (Hfd & Hs0 & Hb). rewrite Eb in Hb. split; [|split; [|by split]].
    - by repeat split.
    - unfold pending. by rewrite Hb, Eb. }
  destruct H1 as (Hw1 & Hp1 & He1 & Hne). rewrite <- Hp1, <- He1. clearbody f1. clear f Hw Hp1 He1.
  rewrite (proj2 (Z.ltb_ge 4096 (zlen s))) by done.
  assert (H2 : exists f2 w2, (if 4096 <? write_buffer_stored f1 + zlen s then fflush_fd f1 w else (f1, w)) = (f2, w2) /\
    writable f2 /\ of_written w2 ++ pending f2 = of_written w ++ pending f1 /\ wflags f2 = wflags f1 /\
    write_buffer f2 <> None /\ write_buffer_stored f2 + zlen s <= 4096).
  { destruct (Z.ltb_spec 4096 (write_buffer_stored f1 + zlen s)) as [Hl|Hl].
    - destruct (fflush_fd_spec f1 w Hw1) as (f2 & w2 & E & Hw2 & Hp2 & Ho & He & Hb & Hst).
      exists f2, w2. rewrite Hp2, Ho, Hb, Hst, app_nil_r. by split_and!; try done; lia.
    - exists f1, w. by split_and!. }
  destruct H2 as (f2 & w2 & -> & (Hfd & Hst & Hb) & Ho & He & Hne2 & Hl).
  destruct (write_buffer f2) as [b|] eqn:Eb; [|done]. cbn [deref mbind outcome_bind]. destruct Hb as [Hlb Hst4].
  pose proof (zlen_nonneg s).
  rewrite memcpy_at_ok by lia. cbn [mbind outcome_bind]. rewrite slice_all. eexists _, w2. split; [done|].
  split; [|split].
  - unfold writable. cbn. split_and!; try done; try lia. rewrite zlen_splice; lia.
  - unfold pending in *. cbn. rewrite Eb in Ho. cbn in Ho. rewrite ztake_splice_end by lia. by rewrite app_assoc, Ho.
  - done.
Qed.

(** A write of more than a buffer goes straight out. *)
Lemma write_fd_large f s w :
  writable f -> pending f = [] -> 4096 < zlen s ->
  exists f' w', write_fd fresh f s w = Ok (zlen s, f', w') /\ writable f' /\
    of_written w' ++ pending f' = of_written w ++ s /\ wflags f' = wflags f.
Proof.
  intros (Hfd & Hs0 & Hb) Hp Hs. unfold write_fd. rewrite (proj2 (Z.ltb_lt 4096 (zlen s))) by done. unfold raw_write_fd.
  destruct (write_buffer f) as [b|] eqn:Eb; cbn [set_write f_fd]; rewrite Hfd; destruct (of_write s w) as (w' & -> & Ho);
    rewrite (proj2 (Z.eqb_neq _ (-1))) by zlia; eexists _, w'; (split; [done|]).
  - rewrite Hp, app_nil_r. split_and!; try done. unfold writable. by rewrite Eb.
  - unfold pending. cbn. rewrite app_nil_r. split_and!; try done.
Qed.

Lemma write_chars_spec f cs w :
  writable f ->
  exists f' w', write_chars fresh f cs w = Ok (f', w') /\ writable f' /\
    of_written w' ++ pending f' = (of_written w ++ pending f) ++ cs /\ wflags f' = wflags f.
Proof.
  revert f w. induction cs as [|c cs IH]; intros f w Hw; cbn [write_chars].
  { exists f, w. by rewrite app_nil_r. }
  destruct (write_fd_spec f [c] w Hw ltac:(done)) as (f1 & w1 & -> & Hw1 & Ho1 & He1). cbn [mbind outcome_bind].
  change (zlen [c] =? ULONG_MAX) with false. cbn iota.
  destruct (IH f1 w1 Hw1) as (f2 & w2 & -> & Hw2 & Ho2 & He2). exists f2, w2. split_and!; try done.
  - rewrite Ho2, Ho1. by rewrite <- !app_assoc.
  - congruence.
Qed.

(** *** Writing to a stream *)

Inductive write_op :=
| WItems (s : list Z) (size : Z)
| WPrint (fmt : list Z) (ap : list arg)
| WText (s : list Z)
| WChar (c : Z)
| WFlush.

Definition write_step (op : write_op) (f : FILE) (w : W) : outcome (Z * FILE * W) :=
  match op with
  | WItems s size => fwrite fresh s size (zlen s / size) f w
  | WPrint fmt ap => vfprintf fresh f fmt ap w
  | WText s => fputs fresh (s ++ [0]) f w
  | WChar c => fputc fresh c f w
  | WFlush => Ok (fflush f w)
  end.

Fixpoint write_run (ops : list write_op) (f : FILE) (w : W) : outcome (list Z * FILE * W) :=
  match ops with
  | [] => Ok ([], f, w)
  | op :: ops =>
      '(r, f, w) ← write_step op f w;
      '(rs, f, w) ← write_run ops f w;
      Ok (r :: rs, f, w)
  end.

(** What an operation writes, and what it returns. *)
Definition op_writes (op : write_op) (cs : list Z) (r : Z) : Prop :=
  match op with
  | WItems s size => 0 < size /\ (size | zlen s) /\ zlen s < 2 ^ 32 /\ cs = s /\ r = zlen s / size
  | WPrint fmt ap => vkcprintf fmt ap = Ok (cs, r)
  | WText s => Forall (fun c => c <> 0) s /\ cs = s /\ r = zlen s
  | WChar c => cs = [u8 c] /\ r = c
  | WFlush => cs = [] /\ r = 0
  end.

Lemma fflush_spec f w :
  writable f -> exists f' w', fflush f w = (0, f', w') /\ writable f' /\ wflags f' = wflags f /\
    pending f' = [] /\ of_written w' = of_written w ++ pending f.
Proof.
  intros Hw. unfold fflush. destruct (fflush_fd_spec f w Hw) as (f' & w' & -> & Hw' & Hp & Ho & He & _).
  exists f', w'. done.
Qed.

(** A stream between two operations. *)
Record flushed (f : FILE) : Prop := {
  fl_writable : writable f;
  fl_append : append f = false;
  fl_pending : pending f = []
}.

Lemma fwrite_spec s size k f w :
  flushed f -> 0 < size -> 0 <= k -> k * size <= zlen s -> k * size < 2 ^ 32 ->
  exists f' w', fwrite fresh s size k f w = Ok (k, f', w') /\ flushed f' /\
    of_written w' = of_written w ++ ztake (k * size) s.
Proof.
  intros [Hw Ha Hp] Hs Hk Hl Hb. unfold fwrite. rewrite Ha, andb_false_r. cbn [mbind outcome_bind].
  rewrite u32_small, (proj2 (Z.ltb_ge _ _)) by nia. pose proof (zlen_ztake (k * size) s ltac:(nia)) as Hz.
  assert (G : exists f1 w1, write_fd fresh f (ztake (k * size) s) w = Ok (k * size, f1, w1) /\ writable f1 /\
    of_written w1 ++ pending f1 = of_written w ++ ztake (k * size) s /\ wflags f1 = wflags f).
  { destruct (Z.leb_spec (k * size) 4096) as [Hle|Hgt].
    - destruct (write_fd_spec f (ztake (k * size) s) w Hw ltac:(lia)) as (f1 & w1 & -> & Hw1 & Ho1 & He1).
      exists f1, w1. rewrite Hz. split_and!; try done. by rewrite Ho1, Hp, app_nil_r.
    - destruct (write_fd_large f (ztake (k * size) s) w Hw Hp ltac:(lia)) as (f1 & w1 & -> & G). exists f1, w1. by rewrite Hz. }
  destruct G as (f1 & w1 & -> & Hw1 & Ho1 & He1). cbn [mbind outcome_bind].
  rewrite (proj2 (Z.eqb_neq size 0)) by lia. destruct (fflush_spec f1 w1 Hw1) as (f2 & w2 & -> & Hw2 & He2 & Hp2 & Ho2).
  exists f2, w2. rewrite Z.div_mul by lia. split_and!; [done| |congruence].
  split; [done| |done]. rewrite He1 in He2. injection He2 as _ ->. done.
Qed.

Lemma fputs_loop_spec s n f w :
  flushed f -> Forall (fun c => c <> 0) s ->
  exists f' w', fputs_loop fresh (s ++ [0]) n f w = Ok (n + zlen s, f', w') /\ flushed f' /\
    of_written w' = of_written w ++ s.
Proof.
  intros Hf Hs. revert n f w Hf. induction Hs as [|c s Hc Hs IH]; intros n f w Hf; cbn [app fputs_loop].
  { exists f, w. rewrite app_nil_r, Z.add_0_r. done. }
  rewrite (proj2 (Z.eqb_neq c 0)) by done.
  destruct (fwrite_spec (c :: s ++ [0]) 1 1 f w Hf) as (f1 & w1 & -> & Hf1 & Ho1); [lia|lia|zlia|lia|]. cbn [mbind outcome_bind Z.eqb].
  destruct (IH (n + 1) f1 w1 Hf1) as (f2 & w2 & -> & Hf2 & Ho2). exists f2, w2.
  split_and!; [do 3 f_equal; zlia|done|]. rewrite Ho2, Ho1, <- app_assoc. done.
Qed.

Lemma write_step_spec op cs r f w :
  flushed f -> op_writes op cs r ->
  exists f' w', write_step op f w = Ok (r, f', w') /\ flushed f' /\ of_written w' = of_written w ++ cs.
Proof.
  intros Hf Hop. destruct op as [s size|fmt ap|s|c|]; cbn [write_step op_writes] in *.
  - destruct Hop as (Hs & [k Hk] & Hl & -> & ->). assert (Hq : zlen s / size = k) by (rewrite Hk; apply Z.div_mul; lia).
    pose proof (zlen_nonneg s). rewrite Hq.
    destruct (fwrite_spec s size k f w Hf) as (f1 & w1 & E & Hf1 & Ho1); [done|nia|lia|lia|].
    exists f1, w1. rewrite <- Hk, ztake_all in Ho1 by done. done.
  - destruct Hf as [Hw Ha Hp]. unfold vfprintf. rewrite Hop. cbn [mbind outcome_bind].
    destruct (write_chars_spec f cs w Hw) as (f1 & w1 & -> & Hw1 & Ho1 & He1). cbn [mbind outcome_bind].
    destruct (fflush_spec f1 w1 Hw1) as (f2 & w2 & -> & Hw2 & He2 & Hp2 & Ho2). exists f2, w2.
    split_and!; [done| |by rewrite Ho2, Ho1, Hp, app_nil_r].
    split; [done| |done]. rewrite He1 in He2. injection He2 as _ ->. done.
  - destruct Hop as (Hs & -> & ->). unfold fputs. destruct (fputs_loop_spec s 0 f w Hf Hs) as (f1 & w1 & E & Hf1 & Ho1). by exists f1, w1.
  - destruct Hop as [-> ->]. unfold fputc.
    destruct (fwrite_spec [u8 c; u8 (c / 2 ^ 8); u8 (c / 2 ^ 16); u8 (c / 2 ^ 24)] 1 1 f w Hf) as (f1 & w1 & -> & Hf1 & Ho1); [lia|lia|zlia|lia|].
    cbn [mbind outcome_bind]. by exists f1, w1.
  - destruct Hop as [-> ->]. destruct Hf as [Hw Ha Hp]. destruct (fflush_spec f w Hw) as (f2 & w2 & -> & Hw2 & He2 & Hp2 & Ho2).
    exists f2, w2. split_and!; [done| |by rewrite Ho2, Hp].
    split; [done| |done]. injection He2 as _ ->. done.
Qed.

End Writing.

(** ** Formatting into memory *)

Lemma splice_over {A} (d x y : list A) off :
  0 <= off -> zlen x <= zlen y -> off + zlen y <= zlen d -> splice (splice d off x) off y = splice d off y.
Proof.
  intros Ho Hx Hl. pose proof (zlen_nonneg x).
  apply znth_ext; rewrite ?zlen_splice; rewrite ?zlen_splice; try lia.
  intros i Hi. rewrite !znth_splice; rewrite ?zlen_splice; try lia.
  destruct (Z.leb_spec off i), (Z.ltb_spec i (off + zlen y)), (Z.ltb_spec i (off + zlen x)); cbn [andb]; (done || lia).
Qed.

Lemma sn_write_all_spec cs out off size :
  cs <> [] -> 0 <= off -> 0 <= size -> off + size < zlen out ->
  sn_write_all out off size cs = Ok (splice out off (ztake size cs ++ [0])).
Proof.
  revert out off size. induction cs as [|c cs IH]; intros out off size Hne Ho Hs Hl; [done|].
  cbn [sn_write_all]. unfold sn_write. destruct (Z.eq_dec size 0) as [->|Hs0].
  - change (Z.min 1 0) with 0. cbn [Z.eqb mbind outcome_bind]. rewrite Z.add_0_r, awrite_ok by lia.
    rewrite insert_splice by lia. cbn [mbind outcome_bind Z.sub].
    destruct cs as [|c2 cs]; [done|]. rewrite IH; [|done|lia|done|rewrite zlen_splice; zlia].
    change (ztake 0 (c2 :: cs) ++ [0]) with [0]. change (ztake 0 (c :: c2 :: cs) ++ [0]) with [0].
    by rewrite splice_over by zlia.
  - replace (Z.min 1 size) with 1 by lia. cbn [Z.eqb Pos.eqb].
    rewrite awrite_ok by lia. rewrite insert_splice by lia. cbn [mbind outcome_bind].
    rewrite awrite_ok by (rewrite zlen_splice; zlia). rewrite insert_splice by (rewrite zlen_splice; zlia).
    rewrite (splice_snoc out off (off + 1) [c] [0]) by zlia. cbn [mbind outcome_bind app].
    assert (Ht : ztake size (c :: cs) = c :: ztake (size - 1) cs).
    { unfold ztake. replace (Z.to_nat size) with (S (Z.to_nat (size - 1))) by lia. done. }
    rewrite Ht. destruct cs as [|c2 cs].
    + unfold ztake. by rewrite take_nil.
    + rewrite IH; [|done|lia|lia|rewrite zlen_splice; zlia]. f_equal.
      change [c; 0] with ([c] ++ [0]). rewrite <- (splice_snoc out off (off + 1) [c] [0]) by zlia.
      rewrite splice_over by (rewrite ?zlen_splice; zlia).
      by rewrite (splice_snoc out off (off + 1) [c]) by zlia.
Qed.

Lemma s_write_all_sn cs str off n : zlen cs <= n -> s_write_all str off cs = sn_write_all str off n cs.
Proof.
  revert str off n. induction cs as [|c cs IH]; intros str off n Hn; [done|]. rewrite zlen_cons in Hn.
  pose proof (zlen_nonneg cs). cbn [s_write_all sn_write_all]. unfold s_write, sn_write.
  replace (Z.min 1 n) with 1 by lia. cbn [Z.eqb Pos.eqb]. destruct (awrite str off c) as [s1| | |]; try done.
  cbn [mbind outcome_bind]. destruct (awrite s1 (off + 1) 0) as [s2| | |]; try done. cbn [mbind outcome_bind].
  apply IH. lia.
Qed.

(** [snprintf] never leaves its buffer: it stores as much of the text as fits in front
    of a terminating zero and returns the length of the whole text; [sprintf] stores
    all of it if there is room. *)
Theorem snprintf_truncates str size fmt ap cs rc :
  vkcprintf fmt ap = Ok (cs, rc) -> cs <> [] -> 0 < size <= zlen str ->
  vsnprintf str size fmt ap = Ok (splice str 0 (ztake (size - 1) cs ++ [0]), rc) /\ rc = i32 (zlen cs) /\
  (zlen cs < zlen str -> vsprintf str fmt ap = Ok (splice str 0 (cs ++ [0]), rc)).
Proof.
  intros Hv Hne Hs. unfold vsnprintf, vsprintf. rewrite Hv. cbn [mbind outcome_bind].
  rewrite (proj2 (Z.eqb_neq size 0)) by lia. rewrite sn_write_all_spec by (done || lia).
  split; [done|]. split.
  { pose proof (format_loop_spec (S (length fmt)) fmt p_init ap [] 0 ltac:(lia) eq_refl) as Hc.
    unfold vkcprintf in Hv. rewrite Hv in Hc. tauto. }
  intros Hl. rewrite (s_write_all_sn cs str 0 (zlen cs)) by lia.
  rewrite sn_write_all_spec by (done || zlia). by rewrite (ztake_all _ cs).
Qed.

(** A format that writes nothing leaves the buffer without a terminator. *)
Lemma snprintf_empty str size : vsnprintf str size [0] [] = Ok (str, 0).
Proof. unfold vsnprintf. cbn. by destruct (size =? 0). Qed.

(** *** What is printed can be read back *)

Lemma get_value_eq c base : 0 <= base -> ULibc.get_value c base = Print.get_value c base.
Proof.
  intros Hb. unfold ULibc.get_value, Print.get_value.
  match goal with |- context [if (48 <=? ?l) && ?b then ?x else ?y] => set (r := if (48 <=? l) && b then x else y) end.
  destruct (Z.eqb_spec r (-1)) as [->|Hne]; [|done]. by rewrite (proj2 (Z.leb_gt _ _)) by lia.
Qed.

Lemma digits_value_is base cs ds :
  0 <= base -> Forall2 (is_digit base) cs ds ->
  ULibc.digits_value base cs = value base ds /\ Forall (fun c => ULibc.get_value c base <> -1) cs.
Proof.
  intros Hb Hf. split.
  - unfold ULibc.digits_value, value. generalize 0. induction Hf as [|c d cs ds (_ & Hg & _) _ IH]; intros a; [done|].
    cbn. by rewrite get_value_eq, Hg, IH.
  - induction Hf as [|c d cs ds (_ & Hg & Hd) _ IH]; constructor; [|done]. rewrite get_value_eq, Hg by done. lia.
Qed.

(** The number a program prints with [%d] is the number [strtol] reads from the text:
    the formatting and the parsing of the C library agree. *)
Theorem sprintf_strtol n str :
  0 <= n < 2 ^ 31 -> 32 < zlen str ->
  exists cs rc, vsprintf str [37; 100; 0] [AInt n] = Ok (splice str 0 (cs ++ [0]), rc) /\ rc = zlen cs /\
    strtol (splice str 0 (cs ++ [0])) 10 =
      Ok {| num_value := n; num_end := zdrop (zlen cs) (splice str 0 (cs ++ [0])); num_errno := None |}.
Proof.
  intros Hn Hl. destruct (decimal_spec n ltac:(lia)) as (Hi & Hne & Hlen & vs & Hf & Hv).
  assert (Hp : vkcprintf [37; 100; 0] [AInt n] = Ok (decimal n, zlen (decimal n))).
  { unfold vkcprintf. cbn -[print_int i32]. rewrite i32_small, Hi by lia. cbn [mbind outcome_bind].
    pose proof (zlen_nonneg (decimal n)). cbn -[decimal i32 zlen]. rewrite i32_small by lia. done. }
  destruct (snprintf_truncates str (zlen str) _ _ _ _ Hp Hne ltac:(lia)) as (_ & _ & Hs).
  rewrite Hs by lia. exists (decimal n), (zlen (decimal n)). split; [done|]. split; [done|].
  destruct (digits_value_is 10 (decimal n) vs ltac:(lia) Hf) as [Hdv Hdg].
  assert (Hsp : splice str 0 (decimal n ++ [0]) = numeral 10 [] false (decimal n) ++ 0 :: zdrop (zlen (decimal n) + 1) str).
  { unfold splice, numeral. rewrite zlen_app. cbn [app]. by rewrite <- app_assoc. }
  rewrite Hsp.
  pose proof (strto_signed_spec LONG_MAX 10 [] false (decimal n) 0 (zdrop (zlen (decimal n) + 1) str)) as Hst.
  unfold strtol. rewrite Hst; [|lia|done|constructor|done|done|done].
  rewrite Hdv, Hv. rewrite (proj2 (Z.leb_le n LONG_MAX)) by (unfold LONG_MAX; lia). f_equal. f_equal.
  unfold numeral. cbn [app]. by rewrite drop_zlen_app.
Qed.

Lemma sprintf_strtol_witness :
  exists cs rc, vsprintf (replicate 33 1) [37; 100; 0] [AInt 1234] = Ok (splice (replicate 33 1) 0 (cs ++ [0]), rc) /\
    rc = zlen cs /\ strtol (splice (replicate 33 1) 0 (cs ++ [0])) 10 =
      Ok {| num_value := 1234; num_end := zdrop (zlen cs) (splice (replicate 33 1) 0 (cs ++ [0])); num_errno := None |}.
Proof. apply (sprintf_strtol 1234 (replicate 33 1)); [lia|done]. Defined.

(** ** A concrete file *)

Record memfile := { mf_data : list Z; mf_pos : Z; mf_out : list Z }.

#[export] Instance memfile_calls : Syscalls memfile := {
  sys_read fd l w :=
    let d := slice (mf_pos w) l (mf_data w) in
    (zlen d, d, {| mf_data := mf_data w; mf_pos := mf_pos w + zlen d; mf_out := mf_out w |});
  sys_write fd d w := (zlen d, {| mf_data := mf_data w; mf_pos := mf_pos w; mf_out := mf_out w ++ d |});
  sys_lseek fd n whence w :=
    let p := if whence =? SEEK_SET then n else if whence =? SEEK_CUR then mf_pos w + n
             else zlen (mf_data w) + n in
    (p, {| mf_data := mf_data w; mf_pos := p; mf_out := mf_out w |})
}.

#[export] Instance memfile_regular fd : RegularFile memfile fd.
Proof.
  refine {| rf_data := mf_data; rf_pos := mf_pos |}.
  - intros l w _ _. by eexists.
  - intros n w _. by eexists.
  - intros n w _. by eexists.
Defined.

#[export] Instance memfile_output fd : OutputFile memfile fd.
Proof. refine {| of_written := mf_out |}. intros d w. by eexists. Defined.

Definition a_stream (fd : Z) : FILE :=
  {| f_fd := fd; can_seek := true; has_control := true; append := false;
     buffered_char := 0; has_buffered_char := false; is_eof := false; has_error := false;
     write_buffer := None; write_buffer_stored := 0;
     read_buffer := None; read_buffer_stored := 0; read_buffer_has_read := 0 |}.

Lemma stream_reads_file_witness :
  let w := {| mf_data := [1; 2; 3; 4]; mf_pos := 0; mf_out := [] |} in
  let ops := [SGetc; SRead 2 1; SSeek 1; SGetc] in
  exists f' w', stream_run (replicate (Z.to_nat 4096) 0) ops (a_stream 3) w =
      Ok (fst (file_run [1; 2; 3; 4] 0 ops), f', w') /\
    readable (fd := 3) f' w' /\ rf_data (fd := 3) w' = [1; 2; 3; 4] /\ rf_pos (fd := 3) w' = snd (file_run [1; 2; 3; 4] 0 ops).
Proof.
  apply (stream_reads_file (W := memfile) (fd := 3) (replicate (Z.to_nat 4096) 0) ltac:(by vm_compute)
    [SGetc; SRead 2 1; SSeek 1; SGetc] (a_stream 3) {| mf_data := [1; 2; 3; 4]; mf_pos := 0; mf_out := [] |}).
  - by repeat split.
  - rewrite !Forall_cons. cbn. split_and!; try done; lia.
Defined.

Lemma getdelim_reads_line_witness :
  let w := {| mf_data := [97; 10; 98]; mf_pos := 0; mf_out := [] |} in
  exists b f' w', getdelim (replicate (Z.to_nat 4096) 0) 5 None 10 (a_stream 3) w = Ok (2, b, f', w') /\
    ztake (2 + 1) b = [97; 10; 0] /\ in_step (fd := 3) f' w' /\ other_fields f' = other_fields (a_stream 3) /\
    rf_data (fd := 3) w' = [97; 10; 98] /\ rf_pos (fd := 3) w' = 0 + 2.
Proof.
  apply (getdelim_reads_line (W := memfile) (fd := 3) (replicate (Z.to_nat 4096) 0) ltac:(by vm_compute)
    None 10 (a_stream 3) {| mf_data := [97; 10; 98]; mf_pos := 0; mf_out := [] |} 5).
  - by repeat split.
  - done.
  - done.
  - apply Nat.ltb_lt. reflexivity.
Defined.


(** A write of more than a buffer goes out in front of what the buffer still holds: the
    order rests on the functions above, which leave nothing in it. *)
Lemma large_write_overtakes :
  let w := {| mf_data := []; mf_pos := 0; mf_out := [] |} in
  let big := replicate (Z.to_nat 4097) 2 in
  exists f' w', ('(_, f, w) ← write_fd (replicate (Z.to_nat 4096) 0) (a_stream 1) [1] w;
                 '(_, f, w) ← write_fd (replicate (Z.to_nat 4096) 0) f big w;
                 Ok (fflush f w)) = Ok (0, f', w') /\ mf_out w' = big ++ [1].
Proof. cbv zeta. eexists _, _. split; [vm_compute; reflexivity|]. vm_compute. reflexivity. Qed.

(** The byte 255 cannot be told from the end of the file. *)
Lemma fgetc_255_is_EOF :
  exists f w, fgetc (replicate (Z.to_nat 4096) 0) (a_stream 3) {| mf_data := [255]; mf_pos := 0; mf_out := [] |}
    = Ok (EOF, f, w) /\ is_eof f = false.
Proof. eexists _, _. split; [vm_compute; reflexivity|]. reflexivity. Qed.

(** [fgets] does not terminate the line it stores. *)
Lemma fgets_no_terminator :
  exists f w, fgets (replicate (Z.to_nat 4096) 0) [7; 7; 7] 3 (a_stream 3)
      {| mf_data := [97; 10]; mf_pos := 0; mf_out := [] |} = Ok (Some [97; 10; 7], f, w).
Proof. eexists _, _. vm_compute. reflexivity. Qed.

(** ** Memory streams (open_memstream.c)

    The stream and its cookie; [file_size] stays [MEMSTREAM_DEF_SIZE]. *)

Module Memstream.

Definition MEMSTREAM_DEF_SIZE : Z := 4096.

Record Memstream := { buffer : list Z; buffer_usage : Z; offset_in_file : Z; ms_eof : bool }.

Definition memstream_write (m : Memstream) (buf : list Z) : outcome (Z * Memstream) :=
  let n := zlen buf in
  let n := if MEMSTREAM_DEF_SIZE <=? buffer_usage m + n then MEMSTREAM_DEF_SIZE - buffer_usage m else n in
  b ← memcpy_at (buffer m) (offset_in_file m) buf 0 n;
  let offset := offset_in_file m + n in
  Ok (n, {| buffer := b; buffer_usage := if buffer_usage m <? offset then offset else buffer_usage m;
            offset_in_file := offset; ms_eof := ms_eof m |}).

Definition memstream_read (m : Memstream) (n : Z) : outcome (Z * list Z * Memstream) :=
  let length_left := u32 (buffer_usage m - offset_in_file m) in
  let n := Z.min length_left n in
  if (0 <=? offset_in_file m) && (offset_in_file m + n <=? zlen (buffer m)) then
    Ok (n, slice (offset_in_file m) n (buffer m),
        {| buffer := buffer m; buffer_usage := buffer_usage m; offset_in_file := offset_in_file m + n;
           ms_eof := ms_eof m || (n =? 0) |})
  else Fault.

Definition memstream_seek (m : Memstream) (offset whence : Z) : outcome (Z * Memstream) :=
  let at_ p := Ok (0, {| buffer := buffer m; buffer_usage := buffer_usage m; offset_in_file := p; ms_eof := ms_eof m |}) in
  if whence =? SEEK_SET then at_ offset
  else if whence =? SEEK_CUR then at_ (offset_in_file m + offset)
  else if whence =? SEEK_END then at_ (MEMSTREAM_DEF_SIZE + offset)
  else Panic.

Definition open_memstream (fresh : list Z) : Memstream :=
  {| buffer := fresh; buffer_usage := 0; offset_in_file := 0; ms_eof := false |}.

(** [m] holds the text [t] and stands at its end. *)
Definition holds (m : Memstream) (t : list Z) : Prop :=
  zlen (buffer m) = MEMSTREAM_DEF_SIZE /\ buffer_usage m = zlen t /\ offset_in_file m = zlen t /\
  zlen t <= MEMSTREAM_DEF_SIZE /\ ztake (zlen t) (buffer m) = t.

(** Writing appends what fits; what was written is read back after a seek to the
    start. *)
Lemma memstream_write_appends m t s :
  holds m t ->
  let k := Z.min (zlen s) (MEMSTREAM_DEF_SIZE - zlen t) in
  exists m', memstream_write m s = Ok (k, m') /\ holds m' (t ++ ztake k s).
Proof.
  intros (Hb & Hu & Ho & Hl & Ht) k. unfold memstream_write. rewrite Hu, Ho.
  pose proof (zlen_nonneg t). pose proof (zlen_nonneg s).
  assert (Hn : (if MEMSTREAM_DEF_SIZE <=? zlen t + zlen s then MEMSTREAM_DEF_SIZE - zlen t else zlen s) = k).
  { subst k. destruct (Z.leb_spec MEMSTREAM_DEF_SIZE (zlen t + zlen s)); lia. }
  rewrite Hn. assert (Hk : 0 <= k <= zlen s) by lia. assert (Hsl : zlen (ztake k s) = k) by (apply zlen_ztake; lia).
  rewrite memcpy_at_ok by lia. rewrite slice_from_0. cbn [mbind outcome_bind]. eexists. split; [done|].
  unfold holds. cbn [buffer buffer_usage offset_in_file]. rewrite zlen_app, Hsl, zlen_splice by lia.
  split_and!; [done| |done|lia|].
  - destruct (Z.ltb_spec (zlen t) (zlen t + k)); lia.
  - pose proof (ztake_splice_end (buffer m) (ztake k s) (zlen t) ltac:(lia) ltac:(lia)) as E.
    by rewrite Hsl, Ht in E.
Qed.

Lemma memstream_roundtrip m t :
  holds m t -> zlen t < 2 ^ 32 ->
  exists m1 m2, memstream_seek m 0 SEEK_SET = Ok (0, m1) /\ memstream_read m1 (zlen t) = Ok (zlen t, t, m2) /\ holds m2 t.
Proof.
  intros (Hb & Hu & Ho & Hl & Ht) Hlt. pose proof (zlen_nonneg t). eexists _, _. split; [done|].
  unfold memstream_read. cbn [buffer buffer_usage offset_in_file ms_eof]. rewrite Hu, Z.sub_0_r, u32_small, Z.min_id by lia.
  rewrite !(proj2 (Z.leb_le _ _)) by lia. cbn [andb]. rewrite slice_from_0, Ht. split; [done|].
  by split_and!.
Qed.

(** A write behind the used part leaves the buffer: nothing compares the offset with
    the size. *)
Lemma memstream_seek_overruns :
  exists m1, memstream_seek (open_memstream (replicate (Z.to_nat 4096) 0)) 0 SEEK_END = Ok (0, m1) /\
    memstream_write m1 [1] = Fault.
Proof. eexists. split; [done|]. by vm_compute. Qed.
End Memstream.
