(* ===== verification/Json.v ===== *)
(** userland/json/json.c: reading and writing JSON.

    A pointer into the text is the rest of the text.  The JSON_OBJECT objects a parse
    allocates are numbered in the order of their allocation and kept in a list; the
    values of entries that [malloc] returns are kept in the entry.  A field that was
    not written yet is [None], reading it is a [Fault].  The hash map of an object is
    another library: it is used through an interface.  The output is the text the
    calls of [dprintf] write ([Stdio] shows that it arrives in order). *)

From stdpp Require Import base numbers list gmap.
From Stdlib Require Import ZArith Lia.
From S2P Require Import Prelude KString Print ULibc.

Open Scope Z_scope.

(** What json.c uses of a hash map, and its promise for keys that were not in it. *)
Class StringMap (M : Type) : Type := {
  hm_create : Z -> M;
  hm_add : M -> list Z -> Z -> M;
  hm_get : M -> list Z -> option Z
}.

Class StringMapLaws (M : Type) `{StringMap M} : Prop := {
  hm_get_create : forall n k, 0 < n -> hm_get (hm_create n) k = None;
  hm_get_add : forall m k v k', hm_get m k = None ->
    hm_get (hm_add m k v) k' = if bool_decide (k' = k) then Some v else hm_get m k'
}.

Inductive JSON_TYPE := NONE | STRING | NUMBER | OBJECT | ARRAY | BOOL | JSON_NULL.

#[export] Instance JSON_TYPE_eq_dec : EqDecision JSON_TYPE.
Proof. solve_decision. Defined.

(** [void *value]: an object, or what it points to. *)
Inductive json_value :=
| VObject (id : nat)
| VInt (n : Z)
| VString (s : list Z)
| VByte (b : Z).

Record JSON_ENTRY := { e_name : option (list Z); e_type : JSON_TYPE; e_value : option json_value }.

Definition is_space (c : Z) : bool := (c =? 32) || (c =? 9) || (c =? 10) || (c =? 13).

Fixpoint skip_whitespace (s : list Z) : outcome (list Z) :=
  match s with
  | [] => Fault
  | c :: r => if negb (c =? 0) && is_space c then skip_whitespace r else Ok s
  end.

(** Characters are signed: those above 127 compare below ['Z']. *)
Definition to_lower (c : Z) : Z := if sext 8 c <=? 90 then Z.lor c 32 else c.

Fixpoint low_strequ (s1 s2 : list Z) (l : nat) : outcome bool :=
  match l with
  | O => Ok true
  | S l =>
      b ← chr s2;
      a ← chr s1;
      if negb (to_lower b =? to_lower a) then Ok false else low_strequ (tail s1) (tail s2) l
  end.

(** The loop to the closing quote: how far [tmp] goes, and where it stops. *)
Fixpoint find_quote (s : list Z) (n : Z) : outcome (Z * list Z) :=
  match s with
  | [] => Fault
  | c :: r => if (c =? 0) || (c =? 34) then Ok (n, s) else find_quote r (n + 1)
  end.

(** The results of [find_name]: where the text goes on, [*rc], the name buffer and
    [*name_length] (unchanged when there is no name). *)
Definition find_name (json name_buffer : list Z) (buffer_len name_length : Z)
  : outcome (list Z * Z * list Z * Z) :=
  json ← skip_whitespace json;
  c ← chr json;
  if negb (c =? 34) then Ok (json, 0, name_buffer, name_length) else
  let json := tail json in
  '(n, tmp) ← find_quote json 0;
  q ← chr tmp;
  if q =? 0 then Panic else
  colon ← chr (tail tmp);
  if negb (colon =? 58) then Panic else
  let str_len := if n =? 0 then 0 else n - 1 in
  if buffer_len <? str_len + 1 then Panic else
  name_buffer ← memcpy_at name_buffer 0 json 0 (str_len + 1);
  name_buffer ← awrite name_buffer (str_len + 1) 0;
  Ok (tail (tail tmp), 1, name_buffer, str_len).

Definition entry_type_of (c : Z) : JSON_TYPE :=
  if c =? 123 then OBJECT
  else if c =? 34 then STRING
  else if isdigit c then NUMBER
  else if c =? 91 then ARRAY
  else if (c =? 84) || (c =? 70) || (c =? 116) || (c =? 102) then BOOL
  else if (c =? 78) || (c =? 110) then JSON_NULL
  else NONE.

(** As [find_name], with [*entry_type]. *)
Definition find_entry (json name_buffer : list Z) (name_length : Z) (entry_type : option JSON_TYPE)
  : outcome (list Z * Z * list Z * Z * option JSON_TYPE) :=
  json ← skip_whitespace json;
  '(json, rc, name_buffer, name_length) ← find_name json name_buffer 4096 name_length;
  json ← skip_whitespace json;
  c ← chr json;
  if c =? 125 then Ok (json, 2, name_buffer, name_length, entry_type)
  else Ok (json, rc, name_buffer, name_length, Some (entry_type_of c)).

(** The loop of [extract_int]; it ends at a comma, a brace or the end of the text. *)
Fixpoint int_loop (fuel : nat) (json : list Z) (value : Z) : outcome (list Z * Z) :=
  match fuel with
  | O => NoFuel
  | S fuel =>
      c ← chr json;
      if (c =? 0) || (c =? 44) || (c =? 125) then Ok (json, value) else
      let value := u32 (u32 (value * 10) + u32 (sext 8 c - 48)) in
      json ← skip_whitespace (tail json);
      int_loop fuel json value
  end.

Definition extract_int (json : list Z) : outcome (list Z * Z * Z) :=
  json ← skip_whitespace json;
  '(json, value) ← int_loop (S (length json)) json 0;
  c ← chr json;
  Ok (json, value, if c =? 0 then 0 else 1).

(** The loop of [extract_string]: [out] is what was stored in the 4096 bytes. *)
Fixpoint string_loop (json : list Z) (escape : bool) (out : list Z) : outcome (list Z * list Z) :=
  match json with
  | [] => Fault
  | c :: r =>
      if c =? 0 then Ok (json, out)
      else if (c =? 34) && negb escape then Ok (json, out)
      else if c =? 92 then string_loop r true out
      else if zlen out <? 4096 then string_loop r false (out ++ [c]) else Fault
  end.

Definition extract_string (json : list Z) : outcome (list Z * list Z * Z) :=
  '(json, out) ← string_loop (tail json) false [];
  if zlen out <? 4096 then
    c ← chr json;
    Ok (json, out ++ [0], if c =? 0 then 0 else 1)
  else Fault.

Definition TRUE : list Z := [116; 114; 117; 101; 0].
Definition FALSE : list Z := [102; 97; 108; 115; 101; 0].
Definition NULL : list Z := [110; 117; 108; 108; 0].

Definition extract_bool (json : list Z) : outcome (list Z * option Z * Z) :=
  t ← low_strequ json TRUE 3;
  if t : bool then Ok (drop 4 json, Some 1, 1) else
  f ← low_strequ json FALSE 4;
  if f : bool then Ok (drop 5 json, Some 0, 1) else Ok (json, None, 0).

Definition extract_null (json : list Z) : outcome (list Z * option Z * Z) :=
  t ← low_strequ json NULL 3;
  if t : bool then Ok (drop 4 json, Some 0, 1) else Ok (json, None, 0).

Section Parser.
Context {M : Type} `{StringMap M}.

Record JSON_OBJECT := { o_size : option Z; o_entries : option (list (option JSON_ENTRY)); o_hash : option M }.

(** The locals of [JSON_Parse] and the objects. *)
Record parser := {
  p_json : list Z;
  p_buffer : list Z;
  p_length : Z;
  p_type : option JSON_TYPE;
  p_stack : list (option nat);
  p_parent : Z;
  p_objects : list JSON_OBJECT
}.

(** [JSON_Init]: the global object. *)
Definition JSON_Init : JSON_OBJECT := {| o_size := Some 0; o_entries := None; o_hash := None |}.

(** Storing an entry in slot [i] of an object. *)
Definition set_entry (o : JSON_OBJECT) (i : Z) (e : JSON_ENTRY) : outcome JSON_OBJECT :=
  es ← deref (o_entries o);
  es ← awrite es i (Some e);
  Ok {| o_size := o_size o; o_entries := Some es; o_hash := o_hash o |}.

Definition EMPTY_OBJECT : JSON_OBJECT := {| o_size := None; o_entries := None; o_hash := None |}.

(** The part of the loop body that makes room for an entry: the object with one more
    entry, and the number of the entry. *)
Definition new_entry (o : JSON_OBJECT) : outcome (JSON_OBJECT * Z) :=
  let o := match o_entries o with
           | None => {| o_size := Some 0; o_entries := Some (replicate 30 None); o_hash := Some (hm_create 30) |}
           | Some _ => o
           end in
  n ← deref (o_size o);
  Ok ({| o_size := Some (n + 1); o_entries := o_entries o; o_hash := o_hash o |}, n).

(** The name of the entry: [name_length + 1] bytes of the buffer. *)
Definition entry_name (rc : Z) (name_buffer : list Z) (name_length n : Z) (o : JSON_OBJECT)
  : outcome (option (list Z) * JSON_OBJECT) :=
  if rc =? 1 then
    let name := ztake (name_length + 1) name_buffer in
    m ← deref (o_hash o);
    Ok (Some (name ++ [0]), {| o_size := o_size o; o_entries := o_entries o; o_hash := Some (hm_add m name n) |})
  else Ok (None, o).

(** What is extracted for an entry, other than an object. *)
Definition extract_value (ty : JSON_TYPE) (json : list Z) : outcome (list Z * option json_value) :=
  match ty with
  | NUMBER => '(json, v, _) ← extract_int json; Ok (json, Some (VInt v))
  | STRING => '(json, s, _) ← extract_string json; Ok (json, Some (VString s))
  | BOOL => '(json, b, _) ← extract_bool json; Ok (json, option_map VByte b)
  | JSON_NULL => '(json, b, _) ← extract_null json; Ok (json, option_map VByte b)
  | _ => Ok (json, None)
  end.

(** One turn of the loop of [JSON_Parse] with the [json++] behind it; [None] when the
    function returns. *)
Definition parse_step (st : parser) : outcome (option parser) :=
  '(json, rc, name_buffer, name_length, ty) ← find_entry (p_json st) (p_buffer st) (p_length st) (p_type st);
  c ← chr json;
  if c =? 0 then Ok None else
  if rc =? 2 then
    if p_parent st =? 0 then Ok None else
    json ← skip_whitespace (tail json);
    c ← chr json;
    let json := if c =? 44 then tail json else json in
    Ok (Some {| p_json := tail json; p_buffer := name_buffer; p_length := name_length; p_type := ty;
                p_stack := p_stack st; p_parent := p_parent st - 1; p_objects := p_objects st |})
  else
  slot ← aread (p_stack st) (p_parent st);
  id ← deref slot;
  o ← deref (p_objects st !! id);
  '(o, entry_num) ← new_entry o;
  '(name, o) ← entry_name rc name_buffer name_length entry_num o;
  let name_length := if rc =? 1 then name_length + 1 else name_length in
  ty' ← deref ty;
  if bool_decide (ty' = OBJECT) then
    let new := length (p_objects st) in
    o ← set_entry o entry_num {| e_name := name; e_type := ty'; e_value := Some (VObject new) |};
    stack ← awrite (p_stack st) (p_parent st + 1) (Some new);
    Ok (Some {| p_json := tail json; p_buffer := name_buffer; p_length := name_length; p_type := ty;
                p_stack := stack; p_parent := p_parent st + 1;
                p_objects := <[id := o]> (p_objects st) ++ [EMPTY_OBJECT] |})
  else
    '(json, v) ← extract_value ty' json;
    o ← set_entry o entry_num {| e_name := name; e_type := ty'; e_value := v |};
    Ok (Some {| p_json := tail (tail json); p_buffer := name_buffer; p_length := name_length; p_type := ty;
                p_stack := p_stack st; p_parent := p_parent st; p_objects := <[id := o]> (p_objects st) |}).

Fixpoint parse_loop (fuel : nat) (st : parser) : outcome (list JSON_OBJECT) :=
  match fuel with
  | O => NoFuel
  | S fuel =>
      r ← parse_step st;
      match r with None => Ok (p_objects st) | Some st => parse_loop fuel st end
  end.

(** [JSON_Parse] into a context whose global object is the object 0.  Every turn moves
    forward in the text.  [junk] is the name buffer before it is used. *)
Definition JSON_Parse (junk : list Z) (global : JSON_OBJECT) (json : list Z) : outcome (list JSON_OBJECT) :=
  parse_loop (S (length json))
    {| p_json := json; p_buffer := junk; p_length := 0; p_type := None;
       p_stack := Some O :: replicate 63 None; p_parent := 0;
       p_objects := [{| o_size := Some 0; o_entries := o_entries global; o_hash := o_hash global |}] |}.

(** ** Access *)

Definition JSON_at (objects : list JSON_OBJECT) (e : JSON_ENTRY) (i : Z) : outcome (option JSON_ENTRY) :=
  if negb (bool_decide (e_type e = OBJECT)) then Ok None else
  v ← deref (e_value e);
  match v with
  | VObject id =>
      o ← deref (objects !! id);
      es ← deref (o_entries o);
      x ← aread es i;
      x ← deref x;
      Ok (Some x)
  | _ => Fault
  end.

Definition JSON_search_name (objects : list JSON_OBJECT) (e : JSON_ENTRY) (name : list Z) : outcome (option JSON_ENTRY) :=
  if negb (bool_decide (e_type e = OBJECT)) then Ok None else
  v ← deref (e_value e);
  match v with
  | VObject id =>
      o ← deref (objects !! id);
      m ← deref (o_hash o);
      match hm_get m name with
      | None => Ok None
      | Some i => JSON_at objects e i
      end
  | _ => Fault
  end.

(** ** Writing *)

Definition dprintf (fmt : list Z) (ap : list arg) : outcome (list Z) :=
  '(cs, _) ← vkcprintf (fmt ++ [0]) ap; Ok cs.

Definition place_tabs (indent : nat) : list Z := replicate indent 9.

(** The fuel bounds the depth of the objects. *)
Fixpoint write_entry_content (fuel : nat) (objects : list JSON_OBJECT) (indent : nat) (e : JSON_ENTRY)
  : outcome (list Z) :=
  match fuel with
  | O => NoFuel
  | S fuel =>
      name ← match e_name e with
             | Some name => dprintf [34; 37; 115; 34; 58; 32] [AStr (Some name)]
             | None => Ok []
             end;
      body ← match e_type e with
             | OBJECT =>
                 v ← deref (e_value e);
                 match v with
                 | VObject id =>
                     o ← deref (objects !! id);
                     opening ← dprintf [123; 10] [];
                     n ← deref (o_size o);
                     es ← (if n =? 0 then Ok [] else deref (o_entries o));
                     inner ← (fix go (k : nat) (i : Z) : outcome (list Z) :=
                                match k with
                                | O => Ok []
                                | S k =>
                                    x ← aread es i;
                                    x ← deref x;
                                    t ← write_entry_content fuel objects (S indent) x;
                                    r ← go k (i + 1);
                                    Ok (t ++ r)
                                end) (Z.to_nat n) 0;
                     closing ← dprintf [125; 44; 10] [];
                     Ok (opening ++ inner ++ place_tabs indent ++ closing)
                 | _ => Fault
                 end
             | NUMBER =>
                 v ← deref (e_value e);
                 match v with VInt n => dprintf [37; 100; 44; 10] [AInt n] | _ => Fault end
             | STRING =>
                 v ← deref (e_value e);
                 match v with VString s => dprintf [34; 37; 115; 34; 44; 10] [AStr (Some s)] | _ => Fault end
             | BOOL =>
                 v ← deref (e_value e);
                 match v with
                 | VByte b => dprintf [37; 115; 44; 10] [AStr (Some (if b =? 0 then FALSE else TRUE))]
                 | _ => Fault
                 end
             | JSON_NULL => dprintf [110; 117; 108; 108; 44; 10] []
             | _ => Ok []
             end;
      Ok (place_tabs indent ++ name ++ body)
  end.

(** [JSON_extract_fd]: the first entry of the global object; 64 objects can be nested. *)
Definition JSON_extract_fd (objects : list JSON_OBJECT) : outcome (list Z) :=
  o ← deref (objects !! O);
  es ← deref (o_entries o);
  x ← aread es 0;
  x ← deref x;
  write_entry_content 65 objects 0 x.
End Parser.

Arguments JSON_OBJECT M : clear implicits.
Arguments parser M : clear implicits.

(** ** The map of an association list, for examples *)

#[export] Instance alist_map : StringMap (list (list Z * Z)) := {
  hm_create _ := [];
  hm_add m k v := (k, v) :: m;
  hm_get m k := snd <$> (snd <$> list_find (fun x => x.1 = k) m)
}.

#[export] Instance alist_map_laws : StringMapLaws (list (list Z * Z)).
Proof.
  split; [done|]. intros m k v k' Hk. cbn [hm_get hm_add alist_map list_find fst].
  destruct (decide (k = k')) as [->|Hne].
  - by rewrite bool_decide_eq_true_2.
  - rewrite bool_decide_eq_false_2 by done. by destruct (list_find _ m) as [[? ?]|].
Qed.

(** A quote, and the text of the test of userland/test/test.c. *)
Definition q : list Z := [34].
Definition json_test_text : list Z :=
  [123] ++ q ++ [115; 116; 114; 105; 110; 103] ++ q ++ [58; 32] ++ q ++ [104; 101; 108; 108; 111] ++ q ++
  [44; 32] ++ q ++ [111; 98; 106; 101; 99; 116] ++ q ++ [58; 32; 123] ++ q ++ [115; 116; 114; 105; 110; 103] ++ q ++
  [58; 32] ++ q ++ [102; 102] ++ q ++ [125; 125; 0].

(** A text that ends with its closing brace, as this one does, makes the parser read
    behind its terminator: the brace is stepped over twice. *)
Lemma json_document_overruns :
  JSON_Parse (M := list (list Z * Z)) (replicate (Z.to_nat 4096) 0) JSON_Init json_test_text = Fault /\
  JSON_Parse (M := list (list Z * Z)) (replicate (Z.to_nat 4096) 0) JSON_Init [123; 125; 0] = Fault.
Proof. by vm_compute. Qed.

(** ** Documents *)

Inductive json : Type :=
| JInt (n : Z)
| JStr (s : list Z)
| JBool (b : bool)
| JNull
| JObj (kvs : list (list Z * json)).

(** Induction with the members of an object. *)
Lemma json_ind' (P : json -> Prop) :
  (forall n, P (JInt n)) -> (forall s, P (JStr s)) -> (forall b, P (JBool b)) -> P JNull ->
  (forall kvs, Forall (fun kv => P kv.2) kvs -> P (JObj kvs)) -> forall t, P t.
Proof.
  intros Hi Hs Hb Hn Ho. fix IH 1. intros [n|s|b| |kvs]; [apply Hi|apply Hs|apply Hb|apply Hn|].
  apply Ho. induction kvs as [|[k t] kvs IHk]; constructor; [apply IH|exact IHk].
Qed.

Definition plain (c : Z) : Prop := 0 < c < 256 /\ c <> 34 /\ c <> 92.

(** What the library can represent: members have distinct names that are not empty,
    there are between 1 and 30 of them, strings and names have no quotes or
    backslashes and fit the buffers, numbers are not negative as [int]s, and no more
    than [depth] objects are nested. *)
Fixpoint json_ok (depth : nat) (t : json) {struct t} : Prop :=
  match t with
  | JInt n => 0 <= n < 2 ^ 31
  | JStr s => Forall plain s /\ zlen s < 4096
  | JBool _ | JNull => True
  | JObj kvs =>
      match depth with
      | O => False
      | S depth =>
          0 < zlen kvs <= 30 /\ NoDup kvs.*1 /\
          (fix members kvs := match kvs with
           | [] => True
           | (k, t) :: kvs => (Forall plain k /\ 0 < zlen k < 4096) /\ json_ok depth t /\ members kvs
           end) kvs
      end
  end.

Lemma json_ok_obj depth kvs :
  json_ok (S depth) (JObj kvs) <->
  0 < zlen kvs <= 30 /\ NoDup kvs.*1 /\
  Forall (fun kv => (Forall plain kv.1 /\ 0 < zlen kv.1 < 4096) /\ json_ok depth kv.2) kvs.
Proof.
  cbn [json_ok]. apply and_iff_compat_l, and_iff_compat_l.
  induction kvs as [|[k t] kvs IH]; [by split|]. rewrite Forall_cons, IH. cbn. tauto.
Qed.

(** The text of a document, as the library writes it. *)
Fixpoint render (indent : nat) (t : json) : list Z :=
  match t with
  | JInt n => decimal n ++ [44; 10]
  | JStr s => [34] ++ s ++ [34; 44; 10]
  | JBool b => (if b then [116; 114; 117; 101] else [102; 97; 108; 115; 101]) ++ [44; 10]
  | JNull => [110; 117; 108; 108; 44; 10]
  | JObj kvs =>
      [123; 10] ++
      (fix members kvs := match kvs with
       | [] => []
       | (k, t) :: kvs => place_tabs (S indent) ++ [34] ++ k ++ [34; 58; 32] ++ render (S indent) t ++ members kvs
       end) kvs ++ place_tabs indent ++ [125; 44; 10]
  end.

Definition member (indent : nat) (kv : list Z * json) : list Z :=
  place_tabs indent ++ [34] ++ kv.1 ++ [34; 58; 32] ++ render indent kv.2.

Lemma render_obj indent kvs :
  render indent (JObj kvs) =
  [123; 10] ++ concat (member (S indent) <$> kvs) ++ place_tabs indent ++ [125; 44; 10].
Proof.
  cbn [render]. do 2 f_equal. induction kvs as [|[k t] kvs IH]; [done|].
  cbn [fmap list_fmap concat]. rewrite <- IH. unfold member. cbn [fst snd]. by rewrite <- !app_assoc.
Qed.

Section RoundTrip.
Context {M : Type} `{StringMapLaws M}.

(** The entry [e] stands for the document [t]; its objects have numbers from [lo] on,
    those of members follow those of the objects they are in. *)
Fixpoint rep (lo : nat) (objects : list (JSON_OBJECT M)) (e : JSON_ENTRY) (t : json) {struct t} : Prop :=
  match t with
  | JInt n => e_type e = NUMBER /\ e_value e = Some (VInt n)
  | JStr s => e_type e = STRING /\ e_value e = Some (VString (s ++ [0]))
  | JBool b => e_type e = BOOL /\ e_value e = Some (VByte (c_int b))
  | JNull => e_type e = JSON_NULL /\ e_value e = Some (VByte 0)
  | JObj kvs =>
      e_type e = OBJECT /\ exists id o es m, e_value e = Some (VObject id) /\ (lo <= id)%nat /\ objects !! id = Some o /\
        o_size o = Some (zlen kvs) /\ o_entries o = Some es /\ o_hash o = Some m /\ zlen es = 30 /\
        (forall k, hm_get m k = option_map (fun p => Z.of_nat (fst p)) (list_find (fun kv => kv.1 = k) kvs)) /\
        (fix members (i : nat) kvs := match kvs with
         | [] => True
         | (k, t) :: kvs =>
             (exists x, es !! i = Some (Some x) /\ e_name x = Some (k ++ [0]) /\ rep (S id) objects x t) /\
             members (S i) kvs
         end) O kvs
  end.

(** The entries from [i] on stand for the members [kvs]. *)
Definition reps (lo : nat) (objects : list (JSON_OBJECT M)) (es : list (option JSON_ENTRY)) (i : nat)
  (kvs : list (list Z * json)) : Prop :=
  forall j k t, kvs !! j = Some (k, t) ->
    exists x, es !! (i + j)%nat = Some (Some x) /\ e_name x = Some (k ++ [0]) /\ rep lo objects x t.

(** The object [o] with the number [id] has the members [kvs]. *)
Definition rep_object (objects : list (JSON_OBJECT M)) (id : nat) (o : JSON_OBJECT M) (kvs : list (list Z * json)) : Prop :=
  exists es m, o_size o = Some (zlen kvs) /\ o_entries o = Some es /\ o_hash o = Some m /\ zlen es = 30 /\
    (forall k, hm_get m k = option_map (fun p => Z.of_nat (fst p)) (list_find (fun kv => kv.1 = k) kvs)) /\
    reps (S id) objects es O kvs.

Lemma rep_obj lo objects e kvs :
  rep lo objects e (JObj kvs) <->
  e_type e = OBJECT /\ exists id o, e_value e = Some (VObject id) /\ (lo <= id)%nat /\ objects !! id = Some o /\
    rep_object objects id o kvs.
Proof.
  cbn [rep]. unfold rep_object, reps.
  enough (G : forall lo (es : list (option JSON_ENTRY)) i kvs, (fix members (i : nat) kvs := match kvs with
     | [] => True
     | (k, t) :: kvs => (exists x, es !! i = Some (Some x) /\ e_name x = Some (k ++ [0]) /\ rep lo objects x t) /\
         members (S i) kvs end) i kvs <->
     forall j k t, kvs !! j = Some (k, t) ->
       exists x, es !! (i + j)%nat = Some (Some x) /\ e_name x = Some (k ++ [0]) /\ rep lo objects x t).
  { apply and_iff_compat_l. split.
    - intros (id & o & es & m & H1 & H1' & H2 & H3 & H4 & H5 & H5' & H6 & H7). exists id, o.
      split_and!; [done..|]. exists es, m. split_and!; try done. by apply (G (S id) es O kvs).
    - intros (id & o & H1 & H1' & H2 & es & m & H3 & H4 & H5 & H5' & H6 & H7). exists id, o, es, m.
      split_and!; try done. by apply (G (S id) es O kvs). }
  clear. intros lo es i kvs. revert i. induction kvs as [|[k t] kvs IH]; intros i; [split; [|done]; by intros _ []|].
  rewrite IH. split.
  - intros [Hx Hr] [|j] k' t' Hj; cbn in Hj.
    + simplify_eq. by rewrite Nat.add_0_r.
    + rewrite Nat.add_succ_r. by apply Hr.
  - intros Hr. split.
    + specialize (Hr O k t eq_refl). by rewrite Nat.add_0_r in Hr.
    + intros j k' t' Hj. specialize (Hr (S j) k' t' Hj). by rewrite Nat.add_succ_r in Hr.
Qed.

(** A document does not change while the objects from [lo] on do not. *)
Lemma rep_agree t lo (objects objects' : list (JSON_OBJECT M)) e :
  rep lo objects e t ->
  (forall j o, (lo <= j)%nat -> objects !! j = Some o -> objects' !! j = Some o) -> rep lo objects' e t.
Proof.
  revert lo e. induction t as [n|s|b| |kvs IH] using json_ind'; intros lo e Hr Ha; try done.
  apply rep_obj in Hr as (Ht & id & o & Hv & Hlo & Hid & es & m & H1 & H2 & H3 & H4 & H5 & Hrs).
  apply rep_obj. split; [done|]. exists id, o. split_and!; [done|done|by apply Ha|].
  exists es, m. split_and!; try done. intros j k t Hj. destruct (Hrs j k t Hj) as (x & Hx & Hn & Hr).
  exists x. split_and!; [done..|]. eapply Forall_lookup in IH; [|exact Hj]. apply IH; [done|].
  intros j' o' Hj'. apply Ha. lia.
Qed.

Lemma rep_weaken t lo lo' (objects : list (JSON_OBJECT M)) e :
  rep lo objects e t -> (lo' <= lo)%nat -> rep lo' objects e t.
Proof.
  destruct t as [n|s|b| |kvs]; try done. intros (Ht & id & o & Hv & Hlo & Hr)%rep_obj Hl.
  apply rep_obj. split; [done|]. exists id, o. split_and!; [done|lia|tauto..].
Qed.

Lemma reps_agree lo (objects objects' : list (JSON_OBJECT M)) es i kvs :
  reps lo objects es i kvs ->
  (forall j o, (lo <= j)%nat -> objects !! j = Some o -> objects' !! j = Some o) -> reps lo objects' es i kvs.
Proof.
  intros Hr Ha j k t Hj. destruct (Hr j k t Hj) as (x & Hx & Hn & Hx').
  exists x. split_and!; [done..|]. by eapply rep_agree.
Qed.

(** *** Writing *)

Lemma string_chars_all m t : cstr m t -> string_chars m (-1) (-1) = Ok t.
Proof.
  intros (rest & -> & Hf). induction Hf as [|c t Hc Hf IH]; [done|]. cbn [string_chars app].
  rewrite (proj2 (Z.eqb_neq c 0)) by done. cbn [negb Z.eqb Pos.eqb andb]. by rewrite IH.
Qed.

Lemma print_string_all m t : cstr m t -> print_string m 0 false (-1) = Ok t.
Proof.
  intros Hm. unfold print_string. rewrite (strlen_spec _ _ Hm). cbn [mbind outcome_bind negb andb Z.eqb].
  rewrite (string_chars_all _ _ Hm). cbn [mbind outcome_bind]. by rewrite pad_none by apply zlen_nonneg.
Qed.

Lemma plain_cstr t : Forall plain t -> cstr (t ++ [0]) t.
Proof. intros Hf. exists []. split; [done|]. eapply Forall_impl; [exact Hf|]. intros c (? & _). lia. Qed.

(** The formats of json.c. *)
Lemma dprintf_name k m : cstr m k -> dprintf [34; 37; 115; 34; 58; 32] [AStr (Some m)] = Ok ([34] ++ k ++ [34; 58; 32]).
Proof.
  intros Hm. unfold dprintf, vkcprintf. cbn -[print_string i32]. rewrite (print_string_all _ _ Hm).
  cbn -[i32]. by rewrite <- !app_assoc.
Qed.

Lemma dprintf_string k m : cstr m k -> dprintf [34; 37; 115; 34; 44; 10] [AStr (Some m)] = Ok ([34] ++ k ++ [34; 44; 10]).
Proof.
  intros Hm. unfold dprintf, vkcprintf. cbn -[print_string i32]. rewrite (print_string_all _ _ Hm).
  cbn -[i32]. by rewrite <- !app_assoc.
Qed.

Lemma dprintf_word k m : cstr m k -> dprintf [37; 115; 44; 10] [AStr (Some m)] = Ok (k ++ [44; 10]).
Proof.
  intros Hm. unfold dprintf, vkcprintf. cbn -[print_string i32]. rewrite (print_string_all _ _ Hm).
  cbn -[i32]. by rewrite <- !app_assoc.
Qed.

Lemma dprintf_int n : 0 <= n < 2 ^ 31 -> dprintf [37; 100; 44; 10] [AInt n] = Ok (decimal n ++ [44; 10]).
Proof.
  intros Hn. destruct (decimal_spec n ltac:(lia)) as [Hp _]. unfold dprintf, vkcprintf. cbn -[print_int i32].
  rewrite (i32_small n) by lia. rewrite Hp. cbn -[i32]. by rewrite <- !app_assoc.
Qed.

(** The name in front of a value. *)
Definition label (e : JSON_ENTRY) (name : option (list Z)) : Prop :=
  match name with
  | Some k => e_name e = Some (k ++ [0]) /\ Forall plain k
  | None => e_name e = None
  end.

Definition label_text (name : option (list Z)) : list Z :=
  match name with Some k => [34] ++ k ++ [34; 58; 32] | None => [] end.

Lemma label_written e name :
  label e name ->
  match e_name e with Some k => dprintf [34; 37; 115; 34; 58; 32] [AStr (Some k)] | None => Ok [] end
    = Ok (label_text name).
Proof.
  destruct name as [k|]; cbn [label label_text]; [|by intros ->].
  intros [-> Hk]. apply dprintf_name. by apply plain_cstr.
Qed.

(** Writing the members of an object. *)
Lemma write_members fuel lo (objects : list (JSON_OBJECT M)) indent es kvs i :
  reps lo objects es i kvs -> Forall (fun kv => Forall plain kv.1) kvs ->
  Forall (fun kv => forall e, rep lo objects e kv.2 -> label e (Some kv.1) ->
     write_entry_content fuel objects indent e = Ok (member indent kv)) kvs ->
  (fix go (k : nat) (i : Z) : outcome (list Z) :=
     match k with
     | O => Ok []
     | S k =>
         x ← aread es i;
         x ← deref x;
         t ← write_entry_content fuel objects indent x;
         r ← go k (i + 1);
         Ok (t ++ r)
     end) (length kvs) (Z.of_nat i) = Ok (concat (member indent <$> kvs)).
Proof.
  revert i. induction kvs as [|[k t] kvs IH]; intros i Hr Hp Hw; [done|].
  apply Forall_cons in Hp as [Hk Hp]. apply Forall_cons in Hw as [Hw1 Hw]. cbn [length].
  destruct (Hr O k t eq_refl) as (x & Hx & Hname & Hrep). rewrite Nat.add_0_r in Hx.
  rewrite (aread_ok es (Z.of_nat i) (Some x)).
  2:{ unfold znth. rewrite (proj2 (Z.leb_le _ _)), Nat2Z.id by lia. done. }
  cbn [mbind outcome_bind deref]. rewrite (Hw1 x Hrep) by done. cbn [mbind outcome_bind].
  specialize (IH (S i)). rewrite Nat2Z.inj_succ in IH. unfold Z.succ in IH. rewrite IH; [done| |done|done].
  intros j k' t' Hj. specialize (Hr (S j) k' t' Hj). by rewrite Nat.add_succ_r in Hr.
Qed.

(** The library writes the text of the document an entry stands for. *)
Lemma write_entry_renders (objects : list (JSON_OBJECT M)) t lo depth fuel indent e name :
  rep lo objects e t -> label e name -> json_ok depth t -> (depth < fuel)%nat ->
  write_entry_content fuel objects indent e = Ok (place_tabs indent ++ label_text name ++ render indent t).
Proof.
  revert lo depth fuel indent e name. induction t as [n|s|b| |kvs IH] using json_ind';
    intros lo depth fuel indent e name Hrep Hlab Hok Hfuel; (destruct fuel as [|fuel]; [lia|]);
    cbn [write_entry_content]; rewrite (label_written e name Hlab); cbn [mbind outcome_bind].
  - destruct Hrep as [-> ->]. cbn [deref mbind outcome_bind]. by rewrite dprintf_int.
  - destruct Hrep as [-> ->]. cbn [deref mbind outcome_bind]. destruct Hok as [Hs _].
    by rewrite (dprintf_string s) by (by apply plain_cstr).
  - destruct Hrep as [-> ->]. cbn [deref mbind outcome_bind].
    destruct b; cbn [c_int Z.eqb render].
    + rewrite (dprintf_word [116; 114; 117; 101]); [done|]. exists []. split; [done|by repeat constructor].
    + rewrite (dprintf_word [102; 97; 108; 115; 101]); [done|]. exists []. split; [done|by repeat constructor].
  - destruct Hrep as [-> _]. done.
  - apply rep_obj in Hrep as (-> & id & o & -> & _ & Hid & es & m & Hsz & Hes & Hm & _ & _ & Hr).
    destruct depth as [|depth]; [done|]. apply json_ok_obj in Hok as (Hlen & _ & Hok).
    cbn [deref mbind outcome_bind]. rewrite Hid. cbn [deref mbind outcome_bind].
    change (dprintf [123; 10] []) with (@Ok (list Z) [123; 10]). cbn [mbind outcome_bind].
    rewrite Hsz. cbn [deref mbind outcome_bind]. rewrite (proj2 (Z.eqb_neq _ 0)) by lia.
    rewrite Hes. cbn [deref mbind outcome_bind]. replace (Z.to_nat (zlen kvs)) with (length kvs) by zlia.
    change 0 with (Z.of_nat 0). rewrite (write_members fuel (S id) objects (S indent) es kvs 0 Hr).
    + cbn [mbind outcome_bind]. change (dprintf [125; 44; 10] []) with (@Ok (list Z) [125; 44; 10]).
      cbn [mbind outcome_bind]. by rewrite render_obj.
    + eapply Forall_impl; [exact Hok|]. intros kv [[? _] _]. done.
    + apply Forall_forall. intros [k t] Hin x Hx Hl.
      eapply Forall_forall in IH; [|exact Hin]. eapply Forall_forall in Hok as [_ Hok]; [|exact Hin].
      rewrite (IH (S id) depth fuel (S indent) x (Some k)) by (done || lia).
      unfold member, label_text. by rewrite <- !app_assoc.
Qed.

(** *** Reading: the pieces *)

Definition blank (ws : list Z) : Prop := Forall (fun c => is_space c = true) ws.

Lemma skip_blank ws c r : blank ws -> is_space c = false -> skip_whitespace (ws ++ c :: r) = Ok (c :: r).
Proof.
  intros Hw Hc. induction Hw as [|a ws Ha _ IH]; cbn [skip_whitespace app].
  - by rewrite Hc, andb_false_r.
  - rewrite Ha. destruct (Z.eqb_spec a 0) as [->|_]; [done|]. done.
Qed.

Lemma skip_none c r : is_space c = false -> skip_whitespace (c :: r) = Ok (c :: r).
Proof. apply (skip_blank []). constructor. Qed.

Lemma skip_one c r : is_space c = false -> skip_whitespace (32 :: c :: r) = Ok (c :: r).
Proof. apply (skip_blank [32]). by constructor. Qed.

Lemma tabs_blank n : blank (place_tabs n).
Proof. by apply Forall_replicate. Qed.

Lemma find_quote_spec k r n : Forall plain k -> find_quote (k ++ 34 :: r) n = Ok (n + zlen k, 34 :: r).
Proof.
  intros Hk. revert n. induction Hk as [|c k (Hc & Hq & _) _ IH]; intros n; cbn [find_quote app].
  - rewrite Z.add_0_r. done.
  - rewrite (proj2 (Z.eqb_neq c 0)), (proj2 (Z.eqb_neq c 34)) by lia. cbn. rewrite IH, zlen_cons. tuple_lia.
Qed.

Lemma find_name_spec ws k r buf nl :
  blank ws -> Forall plain k -> 0 < zlen k < 4096 -> zlen buf = 4096 ->
  exists buf', find_name (ws ++ 34 :: k ++ 34 :: 58 :: r) buf 4096 nl = Ok (r, 1, buf', zlen k - 1) /\
    zlen buf' = 4096 /\ ztake (zlen k) buf' = k.
Proof.
  intros Hw Hk Hl Hb. unfold find_name. rewrite skip_blank by done. cbn [mbind outcome_bind chr deref head tail].
  cbn [Z.eqb Pos.eqb negb]. rewrite find_quote_spec by done. cbn [mbind outcome_bind chr deref head tail].
  cbn [Z.eqb Pos.eqb negb]. rewrite Z.add_0_l. rewrite (proj2 (Z.eqb_neq (zlen k) 0)) by lia.
  replace (zlen k - 1 + 1) with (zlen k) by lia. rewrite (proj2 (Z.ltb_ge _ _)) by lia.
  rewrite memcpy_at_ok; [|lia|lia|lia|lia|rewrite zlen_app; pose proof (zlen_nonneg (34 :: 58 :: r)); lia].
  cbn [mbind outcome_bind].
  assert (Hsl : slice 0 (zlen k) (k ++ 34 :: 58 :: r) = k).
  { rewrite slice_from_0. unfold ztake, zlen. by rewrite Nat2Z.id, take_app_length. }
  rewrite Hsl. rewrite awrite_ok by (rewrite zlen_splice; lia). cbn [mbind outcome_bind].
  eexists. split; [done|]. rewrite zlen_insert, zlen_splice by lia. split; [done|].
  unfold splice. change (ztake 0 buf) with (@nil Z). cbn [app]. unfold ztake. rewrite take_insert_ge by zlia.
  unfold zlen at 1. by rewrite Nat2Z.id, take_app_length.
Qed.

Definition starts (c : Z) : Prop := is_space c = false /\ c <> 125 /\ c <> 0.

Lemma find_entry_named ws k c r buf nl ty :
  blank ws -> Forall plain k -> 0 < zlen k < 4096 -> zlen buf = 4096 -> starts c ->
  exists buf', find_entry (ws ++ [34] ++ k ++ [34; 58; 32] ++ c :: r) buf nl ty =
      Ok (c :: r, 1, buf', zlen k - 1, Some (entry_type_of c)) /\
    zlen buf' = 4096 /\ ztake (zlen k) buf' = k.
Proof.
  intros Hw Hk Hl Hb (Hs & Hc & _). unfold find_entry. cbn [app]. rewrite skip_blank by done. cbn [mbind outcome_bind].
  destruct (find_name_spec [] k (32 :: c :: r) buf nl ltac:(constructor) Hk Hl Hb) as (buf' & E & Hb' & Hk').
  cbn [app] in E. rewrite E. cbn [mbind outcome_bind].
  rewrite skip_one by done. cbn [mbind outcome_bind chr deref head].
  rewrite (proj2 (Z.eqb_neq c 125)) by done. by exists buf'.
Qed.

Lemma find_entry_plain ws c r buf nl ty :
  blank ws -> is_space c = false -> c <> 34 ->
  find_entry (ws ++ c :: r) buf nl ty =
    Ok (c :: r, if c =? 125 then 2 else 0, buf, nl, if c =? 125 then ty else Some (entry_type_of c)).
Proof.
  intros Hw Hs Hq. unfold find_entry. rewrite skip_blank by done. cbn [mbind outcome_bind]. unfold find_name.
  rewrite skip_none by done. cbn [mbind outcome_bind chr deref head].
  rewrite (proj2 (Z.eqb_neq c 34)) by done. cbn [negb mbind outcome_bind].
  rewrite skip_none by done. cbn [mbind outcome_bind chr deref head].
  by destruct (c =? 125).
Qed.

Lemma find_entry_here c r buf nl ty :
  is_space c = false -> c <> 34 ->
  find_entry (c :: r) buf nl ty =
    Ok (c :: r, if c =? 125 then 2 else 0, buf, nl, if c =? 125 then ty else Some (entry_type_of c)).
Proof. apply (find_entry_plain []). constructor. Qed.

(** A decimal digit is the character it should be. *)
Lemma is_digit_char c d : is_digit 10 c d -> c = d + 48.
Proof.
  intros (_ & Hg & Hd). revert Hg. unfold Print.get_value, tolower.
  repeat match goal with |- context [if ?b then _ else _] => destruct b eqn:?E end; breflect; lia.
Qed.

Lemma digit_facts c d : is_digit 10 c d -> is_space c = false /\ isdigit c = true /\ u32 (sext 8 c - 48) = d /\
  (c =? 0) || (c =? 44) || (c =? 125) = false.
Proof.
  intros Hd. pose proof (is_digit_char _ _ Hd) as ->. destruct Hd as (_ & _ & Hr).
  assert (d = 0 \/ d = 1 \/ d = 2 \/ d = 3 \/ d = 4 \/ d = 5 \/ d = 6 \/ d = 7 \/ d = 8 \/ d = 9) as Hcases by lia.
  by repeat (destruct Hcases as [->|Hcases]; [done|]); subst.
Qed.

Lemma int_loop_spec cs ds r fuel v :
  Forall2 (is_digit 10) cs ds -> (length cs < fuel)%nat -> 0 <= v ->
  v * 10 ^ zlen ds + Print.value 10 ds < 2 ^ 32 ->
  int_loop fuel (cs ++ 44 :: r) v = Ok (44 :: r, v * 10 ^ zlen ds + Print.value 10 ds).
Proof.
  intros Hf. revert fuel v. induction Hf as [|c d cs ds Hd Hf IH]; intros fuel v Hfuel Hv Hlt;
    (destruct fuel as [|fuel]; [cbn in Hfuel; lia|]).
  - cbn [int_loop app chr deref head mbind outcome_bind Z.eqb Pos.eqb orb]. f_equal. f_equal.
    change (zlen (@nil Z)) with 0. change (Print.value 10 []) with 0. lia.
  - cbn [int_loop app chr deref head mbind outcome_bind tail].
    destruct (digit_facts c d Hd) as (_ & _ & Hu & Hstop). rewrite Hstop, Hu.
    rewrite value_cons, zlen_cons, Z.pow_add_r, Z.pow_1_r in * by zlia.
    assert (1 <= 10 ^ zlen ds) by (pose proof (Z.pow_pos_nonneg 10 (zlen ds)); zlia).
    assert (0 <= Print.value 10 ds).
    { apply value_nonneg; [lia|]. clear -Hf. induction Hf as [|? ? ? ? (_ & _ & ?)]; constructor; [lia|done]. }
    assert (Hdr : 0 <= d < 10) by (destruct Hd as (_ & _ & ?); lia).
    assert (v * 10 + d <= v * (10 * 10 ^ zlen ds) + d * 10 ^ zlen ds) by nia.
    rewrite (u32_small (v * 10)) by lia. rewrite u32_small by lia.
    assert (Hskip : skip_whitespace (cs ++ 44 :: r) = Ok (cs ++ 44 :: r)).
    { destruct Hf as [|c' d' cs ds Hd' Hf]; [done|]. cbn [app].
      apply skip_none. by destruct (digit_facts c' d' Hd'). }
    rewrite Hskip. cbn [mbind outcome_bind]. cbn [length] in Hfuel. rewrite IH by nia. tuple_lia.
Qed.

Lemma string_loop_spec s out r :
  Forall plain s -> zlen out + zlen s <= 4096 ->
  string_loop (s ++ 34 :: r) false out = Ok (34 :: r, out ++ s).
Proof.
  intros Hs. revert out. induction Hs as [|c s (Hc & Hq & Hb) _ IH]; intros out Hl; cbn [string_loop app].
  - by rewrite app_nil_r.
  - rewrite zlen_cons in Hl. pose proof (zlen_nonneg s).
    rewrite (proj2 (Z.eqb_neq c 0)), (proj2 (Z.eqb_neq c 34)), (proj2 (Z.eqb_neq c 92)) by lia.
    cbn [andb]. rewrite (proj2 (Z.ltb_lt _ _)) by lia.
    rewrite IH by (rewrite zlen_app; change (zlen [c]) with 1; lia). by rewrite <- app_assoc.
Qed.

Definition type_of (t : json) : JSON_TYPE :=
  match t with JInt _ => NUMBER | JStr _ => STRING | JBool _ => BOOL | JNull => JSON_NULL | JObj _ => OBJECT end.

Definition value_of (t : json) : option json_value :=
  match t with
  | JInt n => Some (VInt n)
  | JStr s => Some (VString (s ++ [0]))
  | JBool b => Some (VByte (c_int b))
  | JNull => Some (VByte 0)
  | JObj _ => None
  end.

(** The text of a value that is no object starts with a character of its type, and
    extracting it stops in front of the end of its line. *)
Lemma extract_scalar indent t depth rest :
  json_ok depth t -> type_of t <> OBJECT ->
  exists c r json' ws', render indent t ++ rest = c :: r /\ starts c /\ entry_type_of c = type_of t /\
    extract_value (type_of t) (c :: r) = Ok (json', value_of t) /\
    tail (tail json') = ws' ++ rest /\ blank ws' /\ (length ws' <= 1)%nat /\ (3 <= length (render indent t))%nat.
Proof.
  intros Hok Hne. destruct t as [n|s|b| |kvs]; cbn [render type_of value_of extract_value json_ok] in *; [..|done].
  - destruct (decimal_spec n ltac:(cbn in Hok; lia)) as (_ & Hdn & _ & ds & Hf & Hv). rewrite <- app_assoc. cbn [app].
    destruct (decimal n) as [|c cs] eqn:Ed; [done|]. pose proof Hf as Hf'.
    apply Forall2_cons_inv_l in Hf' as (d & ds' & Hd & _ & ->). destruct (digit_facts c d Hd) as (Hs & Hdig & _ & Hstop).
    assert (c <> 125) by (by intros ->). assert (c <> 0) by (by intros ->).
    exists c, (cs ++ 44 :: 10 :: rest), (44 :: 10 :: rest), []. cbn [app]. split_and!; try done.
    + unfold entry_type_of. rewrite Hdig. unfold isdigit in Hdig. breflect.
      by rewrite (proj2 (Z.eqb_neq c 123)), (proj2 (Z.eqb_neq c 34)) by lia.
    + unfold extract_int. rewrite skip_none by done. cbn [mbind outcome_bind].
      change (c :: cs ++ 44 :: 10 :: rest) with ((c :: cs) ++ 44 :: 10 :: rest).
      rewrite (int_loop_spec (c :: cs) (d :: ds') (10 :: rest)); [|done|rewrite length_app; cbn; lia|lia|rewrite Hv; lia].
      cbn [mbind outcome_bind chr deref head Z.eqb]. rewrite Hv. tuple_lia.
    + constructor.
    + cbn. lia.
    + cbn. rewrite length_app. cbn. lia.
  - destruct Hok as [Hs Hl]. rewrite <- !app_assoc. cbn [app].
    exists 34, (s ++ 34 :: 44 :: 10 :: rest), (34 :: 44 :: 10 :: rest), [10]. split_and!; try done.
    + unfold extract_string. cbn [tail]. rewrite string_loop_spec by (done || (change (zlen (@nil Z)) with 0; lia)).
      cbn [mbind outcome_bind app chr deref head]. rewrite (proj2 (Z.ltb_lt _ _)) by lia. done.
    + by constructor.
    + cbn. rewrite length_app. cbn. lia.
  - destruct b; cbn [app].
    + exists 116, ([114; 117; 101; 44; 10] ++ rest), (44 :: 10 :: rest), [].
      split_and!; try done; [constructor|cbn; lia..].
    + exists 102, ([97; 108; 115; 101; 44; 10] ++ rest), (44 :: 10 :: rest), [].
      split_and!; try done; [constructor|cbn; lia..].
  - exists 110, ([117; 108; 108; 44; 10] ++ rest), (44 :: 10 :: rest), [].
    split_and!; try done; [constructor|cbn; lia..].
Qed.

(** *** Reading: objects that are being filled *)

Definition open_object (objects : list (JSON_OBJECT M)) (id : nat) (kvs : list (list Z * json)) : Prop :=
  exists o, objects !! id = Some o /\
    match kvs with [] => o_entries o = None | _ => rep_object objects id o kvs end.

(** An object with room for one more entry. *)
Definition with_room (objects : list (JSON_OBJECT M)) (id : nat) (o : JSON_OBJECT M) (kvs : list (list Z * json))
  (es : list (option JSON_ENTRY)) (m : M) : Prop :=
  o_size o = Some (zlen kvs + 1) /\ o_entries o = Some es /\ o_hash o = Some m /\ zlen es = 30 /\
  (forall k, hm_get m k = option_map (fun p => Z.of_nat (fst p)) (list_find (fun kv => kv.1 = k) kvs)) /\
  reps (S id) objects es O kvs.

Lemma new_entry_spec objects id kvs o :
  objects !! id = Some o -> match kvs with [] => o_entries o = None | _ => rep_object objects id o kvs end ->
  exists o1 es m, new_entry o = Ok (o1, zlen kvs) /\ with_room objects id o1 kvs es m.
Proof.
  intros Ho Hk. unfold new_entry. destruct kvs as [|kv kvs].
  - rewrite Hk. cbn [o_size deref mbind outcome_bind o_entries o_hash]. eexists _, _, _. split; [done|].
    split_and!; [done..| |].
    + intros k. cbn. by apply hm_get_create.
    + by intros j k t Hj.
  - destruct Hk as (es & m & Hs & He & Hm & Hl & Hg & Hr). rewrite He, Hs. cbn [deref mbind outcome_bind].
    eexists _, es, m. split; [done|]. by split_and!.
Qed.

Lemma list_find_snoc {A} (P : A -> Prop) `{forall x, Decision (P x)} (l : list A) x :
  list_find P (l ++ [x]) =
    match list_find P l with Some r => Some r | None => if decide (P x) then Some (length l, x) else None end.
Proof.
  induction l as [|a l IH]; cbn [app list_find length].
  - by destruct (decide (P x)).
  - destruct (decide (P a)); [done|]. rewrite IH. destruct (list_find P l) as [[i y]|]; [done|].
    by destruct (decide (P x)).
Qed.

Lemma list_find_fresh (kvs : list (list Z * json)) k : k ∉ kvs.*1 -> list_find (fun kv => kv.1 = k) kvs = None.
Proof.
  intros Hk. apply list_find_None, Forall_forall. intros [k' t] Hin E. cbn in E. subst k'.
  apply Hk. apply list_elem_of_fmap. by exists (k, t).
Qed.

(** The object with one more member. *)
Lemma add_member objects objects' id o kvs es m k t x :
  with_room objects id o kvs es m -> k ∉ kvs.*1 -> zlen kvs < 30 ->
  (forall j o, (S id <= j)%nat -> objects !! j = Some o -> objects' !! j = Some o) ->
  e_name x = Some (k ++ [0]) -> rep (S id) objects' x t ->
  rep_object objects' id
    {| o_size := o_size o; o_entries := Some (<[Z.to_nat (zlen kvs) := Some x]> es); o_hash := Some (hm_add m k (zlen kvs)) |}
    (kvs ++ [(k, t)]).
Proof.
  intros (Hs & He & Hm & Hl & Hg & Hr) Hk Hlt Ha Hn Hrep.
  eexists _, _. split_and!; [|done|done|by rewrite zlen_insert| |].
  - cbn. rewrite Hs, zlen_app. done.
  - intros k'. rewrite hm_get_add by (by rewrite Hg, list_find_fresh). rewrite list_find_snoc. cbn [fst].
    case_bool_decide as Hkk.
    + subst k'. rewrite list_find_fresh by done. by rewrite decide_True.
    + rewrite Hg. rewrite decide_False by congruence.
      by destruct (list_find (fun kv => kv.1 = k') kvs) as [[? ?]|].
  - assert (Hlen : Z.to_nat (zlen kvs) = length kvs) by zlia. rewrite Hlen.
    intros j k' t' Hj. cbn [Nat.add]. destruct (decide (j = length kvs)) as [->|Hne].
    + rewrite lookup_app_r, Nat.sub_diag in Hj by lia. cbn in Hj. simplify_eq. exists x.
      split_and!; [|done|done]. apply list_lookup_insert_eq. zlia.
    + assert (Hjl : (j < length kvs)%nat) by (apply lookup_lt_Some in Hj; rewrite length_app in Hj; cbn in Hj; lia).
      rewrite lookup_app_l in Hj by done. rewrite list_lookup_insert_ne by done.
      exact (reps_agree _ _ _ _ _ _ Hr Ha j k' t' Hj).
Qed.

(** *** Reading: the loop *)

Inductive steps : nat -> parser M -> parser M -> Prop :=
| steps_refl st : steps 0 st st
| steps_next n st st1 st2 : parse_step st = Ok (Some st1) -> steps n st1 st2 -> steps (S n) st st2.

Lemma steps_one st st1 : parse_step st = Ok (Some st1) -> steps 1 st st1.
Proof. intros E. econstructor; [exact E|constructor]. Qed.

Lemma steps_trans n1 n2 st st1 st2 : steps n1 st st1 -> steps n2 st1 st2 -> steps (n1 + n2) st st2.
Proof. intros Hs. induction Hs; intros H2; [done|]. cbn. econstructor; eauto. Qed.

Lemma steps_loop n st st' f : steps n st st' -> parse_loop (n + f) st = parse_loop f st'.
Proof. intros Hs. induction Hs as [|n st st1 st2 E _ IH]; [done|]. cbn. by rewrite E. Qed.

Definition ready (st : parser M) (id : nat) (kvs : list (list Z * json)) : Prop :=
  zlen (p_buffer st) = 4096 /\ zlen (p_stack st) = 64 /\ 0 <= p_parent st /\
  znth (p_stack st) (p_parent st) = Some (Some id) /\ open_object (p_objects st) id kvs.

(** What reading a member leaves alone. *)
Definition kept (st st' : parser M) (id : nat) : Prop :=
  p_parent st' = p_parent st /\
  (forall j, 0 <= j <= p_parent st -> znth (p_stack st') j = znth (p_stack st) j) /\
  (length (p_objects st) <= length (p_objects st'))%nat /\
  (forall j, j <> id -> (j < length (p_objects st))%nat -> p_objects st' !! j = p_objects st !! j).

Lemma kept_refl st id : kept st st id.
Proof. by repeat split. Qed.

Lemma kept_trans st st1 st2 id : kept st st1 id -> kept st1 st2 id -> kept st st2 id.
Proof.
  intros (P1 & S1 & L1 & O1) (P2 & S2 & L2 & O2). split_and!; [congruence| |lia|].
  - intros j Hj. rewrite S2 by (rewrite P1; lia). by apply S1.
  - intros j Hj Hl. rewrite O2 by (done || lia). by apply O1.
Qed.

Definition member_text (indent : nat) (k : list Z) (t : json) : list Z := [34] ++ k ++ [34; 58; 32] ++ render indent t.

(** A member in the text becomes a member of the object at the top of the stack. *)
Definition parses (t : json) : Prop :=
  forall depth indent k st id kvs ws rest,
  json_ok depth t -> Forall plain k -> 0 < zlen k < 4096 -> k ∉ kvs.*1 -> zlen kvs < 30 ->
  ready st id kvs -> p_parent st + Z.of_nat depth < 64 -> blank ws ->
  p_json st = ws ++ member_text indent k t ++ rest ->
  exists n st' ws', steps n st st' /\ ready st' id (kvs ++ [(k, t)]) /\ kept st st' id /\
    blank ws' /\ p_json st' = ws' ++ rest /\ (n + length ws' <= length ws + length (member_text indent k t))%nat.

(** The first half of a turn: the entry is found and there is room for it. *)
Lemma open_object_lookup objects id kvs : open_object objects id kvs -> (id < length objects)%nat.
Proof. intros (o & Ho & _). by apply lookup_lt_Some in Ho. Qed.

Lemma parses_scalar t : type_of t <> OBJECT -> parses t.
Proof.
  intros Hty depth indent k st id kvs ws rest Hok Hk Hkl Hfresh Hroom (Hb & Hst & Hp & Htop & o & Ho & Hobj) _ Hws Hjson.
  destruct (extract_scalar indent t depth rest Hok Hty)
    as (c & r & json' & ws' & Hr & (Hcs & Hc125 & Hc0) & Htc & Hex & Htail & Hws' & Hwl & Hrl).
  destruct (find_entry_named ws k c r (p_buffer st) (p_length st) (p_type st) Hws Hk Hkl Hb) as (buf' & Ef & Hb' & Hkb);
    [done|].
  destruct (new_entry_spec (p_objects st) id kvs o Ho Hobj) as (o1 & es & m & En & Hroom1).
  assert (Hroom1' := Hroom1). destruct Hroom1' as (Hs1 & He1 & Hm1 & Hes & _ & _).
  set (x := {| e_name := Some (k ++ [0]); e_type := type_of t; e_value := value_of t |}).
  set (o2 := {| o_size := o_size o1; o_entries := Some (<[Z.to_nat (zlen kvs) := Some x]> es);
                o_hash := Some (hm_add m k (zlen kvs)) |}).
  eexists 1%nat, {| p_json := ws' ++ rest; p_buffer := buf'; p_length := zlen k - 1 + 1; p_type := Some (type_of t);
    p_stack := p_stack st; p_parent := p_parent st; p_objects := <[id := o2]> (p_objects st) |}, ws'.
  split; [|split; [|split; [|split; [done|split; [done|]]]]].
  - apply steps_one. unfold parse_step. rewrite Hjson. unfold member_text. rewrite <- !app_assoc, Hr, Ef.
    cbn [mbind outcome_bind chr deref head]. rewrite (proj2 (Z.eqb_neq c 0)) by done. cbn [Z.eqb Pos.eqb].
    rewrite (aread_ok _ _ _ Htop). cbn [mbind outcome_bind deref]. rewrite Ho. cbn [mbind outcome_bind deref].
    rewrite En. cbn [mbind outcome_bind]. unfold entry_name. cbn [Z.eqb Pos.eqb].
    rewrite Hm1. cbn [deref mbind outcome_bind]. rewrite Htc, (bool_decide_eq_false_2 _ Hty), Hex.
    cbn [mbind outcome_bind]. unfold set_entry. cbn [o_entries o_size o_hash]. rewrite He1. cbn [deref mbind outcome_bind].
    pose proof (zlen_nonneg kvs). rewrite awrite_ok by lia. cbn [mbind outcome_bind].
    replace (zlen k - 1 + 1) with (zlen k) by lia. rewrite Htail, Hkb. done.
  - split; [done|]. split; [done|]. split; [done|]. split; [done|].
    exists o2. cbn [p_objects]. split; [apply list_lookup_insert_eq; by eapply lookup_lt_Some|].
    assert (Hadd : rep_object (<[id:=o2]> (p_objects st)) id o2 (kvs ++ [(k, t)])).
    { apply (add_member (p_objects st)); try done.
      - intros j o' Hj Hj'. by rewrite list_lookup_insert_ne by lia.
      - by destruct t. }
    destruct (kvs ++ [(k, t)]) eqn:E; [by destruct kvs|done].
  - split; [done|]. split; [done|]. cbn. rewrite length_insert. split; [done|].
    intros j Hj Hl. by rewrite list_lookup_insert_ne.
  - unfold member_text. rewrite !length_app. cbn. lia.
Qed.

(** The members of an object one after the other. *)
Lemma parses_members depth indent kvs2 :
  Forall (fun kv => parses kv.2) kvs2 ->
  Forall (fun kv => (Forall plain kv.1 /\ 0 < zlen kv.1 < 4096) /\ json_ok depth kv.2) kvs2 ->
  forall kvs1 st id ws rest,
  NoDup (kvs1 ++ kvs2).*1 -> zlen (kvs1 ++ kvs2) <= 30 -> ready st id kvs1 -> p_parent st + Z.of_nat depth < 64 ->
  blank ws -> p_json st = ws ++ concat (member indent <$> kvs2) ++ rest ->
  exists n st' ws', steps n st st' /\ ready st' id (kvs1 ++ kvs2) /\ kept st st' id /\
    blank ws' /\ p_json st' = ws' ++ rest /\
    (n + length ws' <= length ws + length (concat (member indent <$> kvs2)))%nat.
Proof.
  intros Hp Hok. induction Hp as [|[k t] kvs2 Hp _ IH]; intros kvs1 st id ws rest Hnd Hlen Hr Hd Hw Hj.
  { exists 0%nat, st, ws. rewrite app_nil_r. split_and!; try done; [constructor|cbn; lia]. }
  apply Forall_cons in Hok as [[[Hk Hkl] Ht] Hok]. cbn [fst snd] in *.
  assert (Hcat : kvs1 ++ (k, t) :: kvs2 = (kvs1 ++ [(k, t)]) ++ kvs2) by (by rewrite <- app_assoc).
  assert (Hmem : member indent (k, t) = place_tabs indent ++ member_text indent k t) by done.
  destruct (Hp depth indent k st id kvs1 (ws ++ place_tabs indent) (concat (member indent <$> kvs2) ++ rest))
    as (n1 & st1 & ws1 & Hs1 & Hr1 & Hk1 & Hw1 & Hj1 & Hn1); try done.
  - rewrite fmap_app in Hnd. apply NoDup_app in Hnd as (_ & Hdis & _). intros Hin. apply (Hdis k Hin). by left.
  - rewrite zlen_app, zlen_cons in Hlen. pose proof (zlen_nonneg kvs2). lia.
  - apply Forall_app. split; [done|apply tabs_blank].
  - rewrite Hj. cbn [fmap list_fmap concat]. rewrite Hmem. by rewrite <- !app_assoc.
  - destruct (IH Hok (kvs1 ++ [(k, t)]) st1 id ws1 rest) as (n2 & st2 & ws2 & Hs2 & Hr2 & Hk2 & Hw2 & Hj2 & Hn2);
      try done; [by rewrite <- Hcat|by rewrite <- Hcat|destruct Hk1 as [-> _]; done|].
    exists (n1 + n2)%nat, st2, ws2. rewrite Hcat.
    split; [|split; [done|split; [|split; [done|split; [done|]]]]].
    + by eapply steps_trans.
    + exact (kept_trans _ _ _ _ Hk1 Hk2).
    + cbn [fmap list_fmap concat]. rewrite Hmem, !length_app in *. lia.
Qed.

(** The turn at a closing brace. *)
Lemma close_step st ws rest :
  blank ws -> p_parent st <> 0 -> p_json st = ws ++ [125; 44; 10] ++ rest ->
  parse_step st = Ok (Some {| p_json := rest; p_buffer := p_buffer st; p_length := p_length st; p_type := p_type st;
    p_stack := p_stack st; p_parent := p_parent st - 1; p_objects := p_objects st |}).
Proof.
  intros Hw Hp Hj. unfold parse_step. rewrite Hj. cbn [app]. rewrite find_entry_plain by done.
  cbn [mbind outcome_bind chr deref head Z.eqb Pos.eqb tail]. rewrite (proj2 (Z.eqb_neq _ 0)) by done.
  rewrite skip_none by done. done.
Qed.

(** An object behind its opening brace: its members and its closing brace. *)
Lemma parses_body depth indent kvs st id ws rest :
  Forall (fun kv => parses kv.2) kvs -> json_ok (S depth) (JObj kvs) ->
  ready st id [] -> 0 < p_parent st -> p_parent st + Z.of_nat depth < 64 -> blank ws ->
  p_json st = ws ++ concat (member (S indent) <$> kvs) ++ place_tabs indent ++ [125; 44; 10] ++ rest ->
  exists n st', steps n st st' /\ p_json st' = rest /\ p_parent st' = p_parent st - 1 /\
    zlen (p_buffer st') = 4096 /\ zlen (p_stack st') = 64 /\
    (forall j, 0 <= j <= p_parent st -> znth (p_stack st') j = znth (p_stack st) j) /\
    (length (p_objects st) <= length (p_objects st'))%nat /\
    (forall j, j <> id -> (j < length (p_objects st))%nat -> p_objects st' !! j = p_objects st !! j) /\
    (exists o, p_objects st' !! id = Some o /\ rep_object (p_objects st') id o kvs) /\
    (n < length ws + length (concat (member (S indent) <$> kvs)) + 3)%nat.
Proof.
  intros Hp (Hlen & Hnd & Hok)%json_ok_obj Hr Hpar Hd Hw Hj.
  destruct (parses_members depth (S indent) kvs Hp Hok [] st id ws (place_tabs indent ++ [125; 44; 10] ++ rest))
    as (n & st1 & ws1 & Hs & Hr1 & (Hp1 & Hst1 & Hl1 & Ho1) & Hw1 & Hj1 & Hn); [done|cbn; lia|done|done|done|done|].
  cbn [app] in Hr1. destruct Hr1 as (Hb1 & Hsl1 & _ & _ & o & Ho & Hobj).
  eexists (n + 1)%nat, _. split.
  { eapply steps_trans; [exact Hs|]. apply steps_one. apply (close_step _ (ws1 ++ place_tabs indent) rest).
    - apply Forall_app. split; [done|apply tabs_blank].
    - rewrite Hp1. lia.
    - rewrite Hj1. by rewrite <- app_assoc. }
  cbn. split_and!; try done; [by rewrite Hp1|exists o; split; [done|]; destruct kvs; [by destruct Hlen|done]|lia].
Qed.

Lemma json_parses t : parses t.
Proof.
  induction t as [n|s|b| |kvs IH] using json_ind'; [by apply parses_scalar..|].
  intros depth indent k st id kvs0 ws rest Hok Hk Hkl Hfresh Hroom Hready Hd Hws Hjson.
  assert (Hready' := Hready). destruct Hready' as (Hb & Hst & Hp & Htop & o & Ho & Hobj).
  destruct depth as [|depth]; [done|].
  assert (Hjson' : p_json st = ws ++ [34] ++ k ++ [34; 58; 32] ++ 123 :: 10 ::
    concat (member (S indent) <$> kvs) ++ place_tabs indent ++ [125; 44; 10] ++ rest).
  { rewrite Hjson. unfold member_text. rewrite render_obj. by rewrite <- !app_assoc. }
  destruct (find_entry_named ws k 123 (10 :: concat (member (S indent) <$> kvs) ++ place_tabs indent ++ [125; 44; 10] ++ rest)
    (p_buffer st) (p_length st) (p_type st) Hws Hk Hkl Hb) as (buf' & Ef & Hb' & Hkb); [done|].
  destruct (new_entry_spec (p_objects st) id kvs0 o Ho Hobj) as (o1 & es & m & En & Hroom1).
  assert (Hroom1' := Hroom1). destruct Hroom1' as (Hs1 & He1 & Hm1 & Hes & _ & _).
  set (new := length (p_objects st)).
  set (x := {| e_name := Some (k ++ [0]); e_type := OBJECT; e_value := Some (VObject new) |}).
  set (o2 := {| o_size := o_size o1; o_entries := Some (<[Z.to_nat (zlen kvs0) := Some x]> es);
                o_hash := Some (hm_add m k (zlen kvs0)) |}).
  set (st1 := {| p_json := 10 :: concat (member (S indent) <$> kvs) ++ place_tabs indent ++ [125; 44; 10] ++ rest;
    p_buffer := buf'; p_length := zlen k - 1 + 1; p_type := Some OBJECT;
    p_stack := <[Z.to_nat (p_parent st + 1) := Some new]> (p_stack st); p_parent := p_parent st + 1;
    p_objects := <[id := o2]> (p_objects st) ++ [EMPTY_OBJECT] |}).
  assert (Hid : (id < new)%nat) by (by eapply lookup_lt_Some).
  assert (E1 : parse_step st = Ok (Some st1)).
  { unfold parse_step. rewrite Hjson', Ef. cbn [mbind outcome_bind chr deref head Z.eqb Pos.eqb].
    rewrite (aread_ok _ _ _ Htop). cbn [mbind outcome_bind deref]. rewrite Ho. cbn [mbind outcome_bind deref].
    rewrite En. cbn [mbind outcome_bind]. unfold entry_name. cbn [Z.eqb Pos.eqb].
    rewrite Hm1. cbn [deref mbind outcome_bind]. change (entry_type_of 123) with OBJECT.
    rewrite bool_decide_eq_true_2 by done. unfold set_entry. cbn [o_entries o_size o_hash]. rewrite He1.
    cbn [deref mbind outcome_bind]. pose proof (zlen_nonneg kvs0). rewrite awrite_ok by lia. cbn [mbind outcome_bind].
    rewrite awrite_ok by lia. cbn [mbind outcome_bind tail].
    replace (ztake (zlen k - 1 + 1) buf') with k by (replace (zlen k - 1 + 1) with (zlen k) by lia; done). done. }
  assert (Hnew : p_objects st1 !! new = Some EMPTY_OBJECT).
  { subst st1. cbn [p_objects]. rewrite lookup_app_r by (rewrite length_insert; done).
    rewrite length_insert. subst new. by rewrite Nat.sub_diag. }
  assert (Hready1 : ready st1 new []).
  { split; [done|]. split; [cbn; by rewrite zlen_insert|]. split; [cbn; lia|]. split.
    - cbn. rewrite znth_insert by lia. by rewrite Z.eqb_refl.
    - by exists EMPTY_OBJECT. }
  assert (Hold : forall j, (j < new)%nat -> p_objects st1 !! j = <[id := o2]> (p_objects st) !! j).
  { intros j Hj. subst st1. cbn [p_objects]. apply lookup_app_l. by rewrite length_insert. }
  destruct (parses_body depth indent kvs st1 new [10] rest IH Hok Hready1) as
    (n & st2 & Hs2 & Hj2 & Hp2 & Hb2 & Hst2 & Hstk2 & Hl2 & Ho2 & (oo & Hoo & Hrep) & Hn2);
    [cbn; lia|cbn; lia|by constructor|done|].
  assert (Hl1 : length (p_objects st1) = S new) by (subst st1; cbn [p_objects]; rewrite length_app, length_insert; cbn; lia).
  exists (1 + n)%nat, st2, []. split; [by eapply steps_trans; [apply steps_one, E1|]|].
  split; [|split; [|split; [constructor|split; [done|]]]].
  - split; [done|]. split; [done|]. split; [rewrite Hp2; cbn; lia|]. split.
    + rewrite Hp2. cbn [p_parent st1]. replace (p_parent st + 1 - 1) with (p_parent st) by lia.
      rewrite Hstk2 by (cbn; lia). cbn. rewrite znth_insert by lia.
      by rewrite (proj2 (Z.eqb_neq _ _)) by lia.
    + exists o2. split.
      { rewrite Ho2 by lia. rewrite Hold by lia. apply list_lookup_insert_eq. by eapply lookup_lt_Some. }
      assert (Hadd : rep_object (p_objects st2) id o2 (kvs0 ++ [(k, JObj kvs)])).
      { apply (add_member (p_objects st)); try done.
        - intros j o' Hj Hj'. pose proof (lookup_lt_Some _ _ _ Hj'). rewrite Ho2 by (subst new; lia).
          rewrite Hold by (subst new; lia). by rewrite list_lookup_insert_ne by lia.
        - apply rep_obj. split; [done|]. exists new, oo. split_and!; [done|lia|done|done]. }
      destruct (kvs0 ++ [(k, JObj kvs)]) eqn:E; [by destruct kvs0|done].
  - split; [rewrite Hp2; cbn; lia|]. split; [|split].
    + intros j Hj. rewrite Hstk2 by (cbn; lia). cbn. rewrite znth_insert by lia.
      by rewrite (proj2 (Z.eqb_neq _ _)) by lia.
    + subst new. lia.
    + intros j Hj Hjl. rewrite Ho2 by (subst new; lia). rewrite Hold by done. by rewrite list_lookup_insert_ne.
  - unfold member_text. rewrite render_obj, !length_app in *. cbn [length] in *. lia.
Qed.

(** The first entry of the global object stands for the document. *)
Definition document (objects : list (JSON_OBJECT M)) (e : JSON_ENTRY) (t : json) : Prop :=
  exists g es, objects !! O = Some g /\ o_entries g = Some es /\ es !! O = Some (Some e) /\
    e_name e = None /\ rep 1 objects e t.

Lemma json_parse_document junk kvs :
  zlen junk = 4096 -> json_ok 63 (JObj kvs) ->
  exists objects e, JSON_Parse junk JSON_Init (render 0 (JObj kvs) ++ [0]) = Ok objects /\ document objects e (JObj kvs).
Proof.
  intros Hb Hok. unfold JSON_Parse. cbn [JSON_Init o_entries o_hash].
  set (g := {| o_size := Some 0; o_entries := None; o_hash := @None M |}).
  match goal with |- context [parse_loop _ ?s] => set (st := s) end.
  set (body := concat (member 1 <$> kvs) ++ [125; 44; 10] ++ [0]).
  assert (Htext : render 0 (JObj kvs) ++ [0] = 123 :: 10 :: body).
  { rewrite render_obj. subst body. cbn [place_tabs replicate app]. by rewrite <- !app_assoc. }
  set (e := {| e_name := None; e_type := OBJECT; e_value := Some (VObject 1) |}).
  set (g1 := {| o_size := Some 1; o_entries := Some (Some e :: replicate 29 None); o_hash := Some (hm_create 30 : M) |}).
  set (st1 := {| p_json := 10 :: body; p_buffer := junk; p_length := 0; p_type := Some OBJECT;
    p_stack := Some 0%nat :: Some 1%nat :: replicate 62 None; p_parent := 1; p_objects := [g1; EMPTY_OBJECT] |}).
  assert (E1 : parse_step st = Ok (Some st1)).
  { unfold parse_step. subst st. cbn [p_json p_buffer p_length p_type]. rewrite Htext.
    rewrite find_entry_here by done. done. }
  destruct (parses_body 62 0 kvs st1 1 [10] [0]) as
    (n & st2 & Hs2 & Hj2 & Hp2 & _ & _ & _ & _ & Ho2 & (o & Ho & Hrep) & Hn2); try done.
  { apply Forall_forall. intros kv _. apply json_parses. }
  { split_and!; try done. by exists EMPTY_OBJECT. }
  { by constructor. }
  assert (Hlen : (n + 3 <= length (render 0 (JObj kvs) ++ [0%Z]))%nat).
  { assert (length body = length (concat (member 1 <$> kvs)) + 4)%nat by (subst body; by rewrite length_app).
    rewrite Htext. cbn [length] in *. lia. }
  exists (p_objects st2), e. split.
  - replace (S (length (render 0 (JObj kvs) ++ [0]))) with
      ((1 + n) + S (length (render 0 (JObj kvs) ++ [0%Z]) - (1 + n)))%nat by lia.
    rewrite (steps_loop (1 + n) st st2); [|by eapply steps_trans; [apply steps_one, E1|]].
    cbn [parse_loop]. unfold parse_step. rewrite Hj2.
    rewrite find_entry_here by done. done.
  - exists g1. eexists. split_and!; [|done|done|done|].
    + by rewrite Ho2 by (done || (cbn; lia)).
    + apply rep_obj. split; [done|]. by exists 1%nat, o.
Qed.

(** Looking up a name in an object gives the member with that name. *)
Lemma search_members lo objects e kvs k :
  rep lo objects e (JObj kvs) ->
  match list_find (fun kv => kv.1 = k) kvs with
  | Some (_, (_, t)) => exists x, JSON_search_name objects e k = Ok (Some x) /\ rep (S lo) objects x t
  | None => JSON_search_name objects e k = Ok None
  end.
Proof.
  intros (Ht & id & o & Hv & Hlo & Hid & es & m & Hs & He & Hm & Hl & Hg & Hr)%rep_obj.
  unfold JSON_search_name, JSON_at. rewrite Ht, Hv. cbn [bool_decide decide negb deref mbind outcome_bind].
  rewrite bool_decide_eq_true_2 by done. cbn [negb]. rewrite Hid. cbn [deref mbind outcome_bind].
  rewrite Hm. cbn [deref mbind outcome_bind]. rewrite Hg.
  destruct (list_find (fun kv => kv.1 = k) kvs) as [[i [k' t]]|] eqn:E; [|done]. cbn [option_map fst].
  apply list_find_Some in E as (Hi & _ & _). destruct (Hr i k' t Hi) as (x & Hx & _ & Hrep). cbn [Nat.add] in Hx.
  rewrite He. cbn [deref mbind outcome_bind]. rewrite (aread_ok es (Z.of_nat i) (Some x)).
  2:{ unfold znth. by rewrite (proj2 (Z.leb_le _ _)), Nat2Z.id by lia. }
  cbn [deref mbind outcome_bind]. exists x. split; [done|]. eapply rep_weaken; [exact Hrep|lia].
Qed.

(** C32: a document that is written out and read in again is the same document: the text
    of [JSON_extract_fd] is read by [JSON_Parse] to the end, without leaving the text
    or a buffer, into objects that stand for the document, and each of its members is
    found under its name.  The document is one that [json_ok] describes: objects of 1 to
    30 members with distinct names that are not empty, at most 63 of them nested,
    strings and names of less than 4096 bytes without quotes and backslashes, numbers
    below 2^31; outside it the library loses data ([large_number_negative],
    [empty_object_unwritable]). *)
Theorem json_roundtrip objects e kvs junk :
  document objects e (JObj kvs) -> json_ok 63 (JObj kvs) -> zlen junk = 4096 ->
  exists text objects' e', JSON_extract_fd objects = Ok text /\
    JSON_Parse junk JSON_Init (text ++ [0]) = Ok objects' /\ document objects' e' (JObj kvs) /\
    forall k, match list_find (fun kv => kv.1 = k) kvs with
              | Some (_, (_, t)) => exists x, JSON_search_name objects' e' k = Ok (Some x) /\ rep 2 objects' x t
              | None => JSON_search_name objects' e' k = Ok None
              end.
Proof.
  intros (g & es & Hg & Hes & He & Hn & Hrep) Hok Hj.
  destruct (json_parse_document junk kvs Hj Hok) as (objects' & e' & E & Hdoc).
  exists (render 0 (JObj kvs)), objects', e'. split_and!; [|done|done|].
  - unfold JSON_extract_fd. rewrite Hg. cbn [deref mbind outcome_bind]. rewrite Hes. cbn [deref mbind outcome_bind].
    rewrite (aread_ok es 0 (Some e)) by (unfold znth; exact He). cbn [deref mbind outcome_bind].
    by rewrite (write_entry_renders objects (JObj kvs) 1 63 65 0 e None) by (done || lia).
  - intros k. destruct Hdoc as (? & ? & _ & _ & _ & _ & Hrep'). by apply search_members.
Qed.
End RoundTrip.

Lemma json_roundtrip_witness :
  let t := JObj [([97], JInt 5); ([98], JObj [([99], JBool true)])] in
  exists objects e text objects' e', document (M := list (list Z * Z)) objects e t /\
    JSON_extract_fd objects = Ok text /\
    JSON_Parse (replicate (Z.to_nat 4096) 0) JSON_Init (text ++ [0]) = Ok objects' /\ document objects' e' t.
Proof.
  cbv zeta.
  assert (Hok : json_ok 63 (JObj [([97], JInt 5); ([98], JObj [([99], JBool true)])])).
  { cbn. split_and!; try done; repeat constructor; try done; try set_solver; lia. }
  assert (Hj : zlen (replicate (Z.to_nat 4096) 0) = 4096) by (unfold zlen; rewrite length_replicate; lia).
  destruct (json_parse_document (M := list (list Z * Z)) _ _ Hj Hok) as (objects & e & _ & Hdoc).
  destruct (json_roundtrip objects e _ _ Hdoc Hok Hj) as (text & objects' & e' & Ht & Hp & Hdoc' & _).
  exists objects, e, text, objects', e'. split_and!; done.
Defined.

(** ** Where the library differs from JSON *)

(** An escaped backslash disappears and escapes the quote behind it: such a string is
    not closed by its quote. *)
Lemma escaped_backslash : extract_string [34; 92; 92; 34; 44; 0] = Ok ([0], [34; 44; 0], 0).
Proof. reflexivity. Qed.

(** An empty name is read as a quote. *)
Lemma empty_name : 
  exists buf, find_name [34; 34; 58; 49; 0] (replicate (Z.to_nat 4096) 0) 4096 0 = Ok ([49; 0], 1, buf, 0) /\
    ztake (0 + 1) buf = [34].
Proof. eexists. split; [vm_compute; reflexivity|]. reflexivity. Qed.

(** An object without members has no size: it cannot be written. *)
Lemma empty_object_unwritable :
  match JSON_Parse (M := list (list Z * Z)) (replicate (Z.to_nat 4096) 0) JSON_Init [123; 10; 125; 44; 10; 0] with
  | Ok objects => JSON_extract_fd objects
  | _ => Ok []
  end = Fault.
Proof. vm_compute. reflexivity. Qed.

(** Numbers from 2^31 on are written as negative ones. *)
Lemma large_number_negative : dprintf [37; 100; 44; 10] [AInt (2 ^ 31)] = Ok ([45; 50; 49; 52; 55; 52; 56; 51; 54; 52; 56] ++ [44; 10]).
Proof. vm_compute. reflexivity. Qed.
