(* ===== verification/Httpd.v ===== *)
(** userland/httpd/httpd.c: the web server.  A connection is a small state machine that
    collects a request, sends a header and then a file or a listing; the system calls
    are an interface.

    The theorem follows a request for a file through the whole machine: the client
    receives the header and the bytes of the file, and the server is as it was. *)

From stdpp Require Import base numbers list gmap.
From Stdlib Require Import ZArith Lia String Ascii.
From S2P Require Import Prelude Alloc Bytes KString Print Sb Sv ULibc Stdio.

Open Scope Z_scope.

#[local] Abbreviation concat := List.concat.

Definition CRLF : list Z := [13; 10].

Module Httpd.

Definition EWOULDBLOCK : Z := 6.
Definition ENOMEM : Z := 49.
Definition QUEUE_WAIT_READ : Z := 1.
Definition QUEUE_WAIT_WRITE : Z := 2.
Definition QUEUE_WAIT_CLOSE : Z := 4.
Definition TYPE_LISTEN_SOCKET : Z := 1.
Definition TYPE_LISTEN_CLIENT : Z := 2.
Definition REQUEST_GET_DATA : Z := 0.
Definition REQUEST_SEND_HEADER : Z := 1.
Definition REQUEST_SEND_DATA : Z := 2.

(** The system calls and the functions of the C library around them.  A read gives the
    result and the bytes, [s_fstat] whether the file is a directory and its size ([None]
    for -1), [s_sendfile] the result and what is stored in [err], [s_readdir] the next
    names ([None] for -1); [s_listen] changes what the queue waits for, [s_forget] takes
    a descriptor out of it. *)
Class System (W : Type) : Type := {
  s_open : list Z -> W -> Z * W;
  s_fstat : Z -> W -> option (bool * Z) * W;
  s_read : Z -> Z -> W -> Z * list Z * W;
  s_write : Z -> list Z -> W -> Z * W;
  s_sendfile : Z -> Z -> Z -> W -> Z * option Z * W;
  s_close : Z -> W -> W;
  s_readdir : Z -> W -> option (list (list Z)) * W;
  s_accept : Z -> W -> Z * W;
  s_setup : Z -> W -> bool * W;
  s_listen : Z -> Z -> W -> W;
  s_add : Z -> Z -> Z -> W -> W;
  s_forget : Z -> W -> W;
  s_errno : W -> Z
}.

Record http_request := mkRequest {
  socket : Z;
  client_buffer : sb;
  path : sv;
  state : Z;
  file_fd : Z;
  is_directory : bool;
  status_code : Z;
  header_sent : Z
}.

Definition set_state (n : Z) (r : http_request) : http_request :=
  mkRequest (socket r) (client_buffer r) (path r) n (file_fd r) (is_directory r) (status_code r) (header_sent r).
Definition set_buffer (b : sb) (r : http_request) : http_request :=
  mkRequest (socket r) b (path r) (state r) (file_fd r) (is_directory r) (status_code r) (header_sent r).
Definition set_status (n : Z) (r : http_request) : http_request :=
  mkRequest (socket r) (client_buffer r) (path r) (state r) (file_fd r) (is_directory r) n (header_sent r).
Definition set_file (fd : Z) (dir : bool) (r : http_request) : http_request :=
  mkRequest (socket r) (client_buffer r) (path r) (state r) fd dir (status_code r) (header_sent r).
Definition set_path (p : sv) (r : http_request) : http_request :=
  mkRequest (socket r) (client_buffer r) p (state r) (file_fd r) (is_directory r) (status_code r) (header_sent r).
Definition set_sent (n : Z) (r : http_request) : http_request :=
  mkRequest (socket r) (client_buffer r) (path r) (state r) (file_fd r) (is_directory r) (status_code r) n.

(** The text of the C string in a buffer. *)
Definition c_text (buf : list Z) : outcome (list Z) := n ← strlen buf; Ok (ztake n buf).

Definition SB_TO_SV (b : sb) : sv := mkSv (data_of (sb_string b)) (sb_length b).

(** The formats.  The conversion [%llu] reads one word. *)
Definition LISTING_FORMAT : list Z :=
  text_bytes "HTTP/1.1 %d" ++ CRLF ++ text_bytes "Keep-Alive: timeout=5, max=1000" ++ CRLF ++ [0].
Definition FILE_FORMAT : list Z :=
  text_bytes "HTTP/1.1 %d" ++ CRLF ++ text_bytes "Keep-Alive: timeout=5, max=1000" ++ CRLF ++
  text_bytes "Content-Length: %llu" ++ CRLF ++ CRLF ++ [0].
Definition MESSAGE_FORMAT : list Z :=
  text_bytes "<!DOCTYPE html><html>Error %3d<br>The server administrator was too lazy to create a custom error page for this.</html>" ++ [0].
Definition ERROR_FORMAT : list Z :=
  text_bytes "HTTP/1.1 %d" ++ CRLF ++ text_bytes "Keep-Alive: timeout=5, max=1000" ++ CRLF ++
  text_bytes "Content-Length: %d" ++ CRLF ++ CRLF ++ text_bytes "%s" ++ [0].
Definition LENGTH_FORMAT : list Z := text_bytes "Content-Length: %lu" ++ CRLF ++ CRLF ++ [0].
Definition PAGE_FORMAT : list Z := text_bytes "/%3d.html" ++ [0].

Section Httpd.
Context {W H : Type} `{System W, Allocator H}.

(** The world, and the global [response] with the heap it grows on. *)
Record server := mkServer { world : W; response : sb; heap : H }.

Definition on_world (f : W -> W) (s : server) : server := mkServer (f (world s)) (response s) (heap s).

(** What is left in the arrays on the stack. *)
Variable junk : Z -> list Z.

(** How a part of the handler ends: it falls through, it returns, or it goes to
    [end_connection]. *)
Inductive next_part := Through | Return | End_connection.

Definition request_reinit (r : http_request) (s : server) : http_request * server :=
  (set_buffer (sb_reset (client_buffer r)) (set_state REQUEST_GET_DATA r),
   on_world (s_listen (socket r) (Z.lor QUEUE_WAIT_READ QUEUE_WAIT_CLOSE)) s).

Definition request_try_file (r : http_request) (p : list Z) (s : server) : outcome (http_request * server) :=
  p ← c_text p;
  let '(fd, w) := s_open p (world s) in
  let s := on_world (fun _ => w) s in
  if fd =? -1 then Ok (set_status 404 r, s) else
  let s := if negb (file_fd r =? -1) then on_world (s_close (file_fd r)) s else s in
  let '(st, w) := s_fstat fd (world s) in
  let s := on_world (fun _ => w) s in
  match st with
  | None =>
    let s := on_world (s_close fd) s in
    c_assert (s_errno (world s) =? ENOMEM) ;;
    Ok (set_status 500 (set_file fd (is_directory r) r), s)
  | Some (dir, _) => Ok (set_status 200 (set_file fd dir r), s)
  end.

Definition parse_incoming_request (r : http_request) (s : server) : outcome (http_request * server) :=
  let l := SB_TO_SV (client_buffer r) in
  '(method, l) ← sv_split_delim l (Some l) 32;
  l ← deref l;
  '(p, _) ← sv_split_space l (Some l);
  let r := set_file (-1) false (set_path p r) in
  let path_buffer := junk (256 + 11) in
  get ← sv_eq method (C_TO_SV (text_bytes "GET"));
  '(r, s, path_buffer, done) ←
    (if get : bool then
       '(path_buffer, _) ← sv_to_cstring_buffer p path_buffer 256;
       '(r, s) ← request_try_file r path_buffer s;
       if is_directory r then
         path_buffer ← strcat path_buffer (text_bytes "/index.html" ++ [0]);
         '(r, s) ← request_try_file r path_buffer s;
         Ok (set_status 200 r, s, path_buffer, true)
       else Ok (r, s, path_buffer, false)
     else Ok (set_status 400 r, s, path_buffer, false));
  if (done : bool) || (status_code r =? 200) then Ok (r, s) else
  let tmp := status_code r in
  '(path_buffer, _) ← vsprintf path_buffer PAGE_FORMAT [AInt tmp];
  '(r, s) ← request_try_file r path_buffer s;
  Ok (set_status tmp r, s).

(** [REQUEST_GET_DATA] *)
Definition get_data (fd : Z) (r : http_request) (s : server) : outcome (next_part * http_request * server) :=
  let '(rc, buffer, w) := s_read fd 4096 (world s) in
  let s := on_world (fun _ => w) s in
  if rc =? -1 then
    if negb (s_errno (world s) =? EWOULDBLOCK) then Ok (End_connection, r, s) else Ok (Return, r, s)
  else
  '(_, b, h) ← sb_append_buffer (client_buffer r) buffer rc (heap s);
  let r := set_buffer b r in
  let s := mkServer (world s) (response s) h in
  let '(e, _) := sv_take_end (SB_TO_SV b) None 4 in
  complete ← sv_eq (C_TO_SV (CRLF ++ CRLF)) e;
  if negb complete then Ok (Return, r, s) else
  let s := on_world (s_listen fd (Z.lor QUEUE_WAIT_WRITE QUEUE_WAIT_CLOSE)) s in
  '(r, s) ← parse_incoming_request r s;
  Ok (Through, set_state REQUEST_SEND_HEADER (set_sent 0 r), s).

(** The text of the header, in the array [buffer]. *)
Definition make_header (r : http_request) (s : server) : outcome (list Z * http_request * server) :=
  let buffer := junk 4096 in
  if is_directory r then
    '(buffer, _) ← vsprintf buffer LISTING_FORMAT [AInt (status_code r)];
    Ok (buffer, r, s)
  else if file_fd r =? -1 then
    '(message, rc) ← vsprintf (junk 4096) MESSAGE_FORMAT [AInt (status_code r)];
    '(buffer, _) ← vsprintf buffer ERROR_FORMAT [AInt (status_code r); AInt rc; AStr (Some message)];
    let '(r, s) := request_reinit r s in
    Ok (buffer, r, s)
  else
    let '(st, w) := s_fstat (file_fd r) (world s) in
    let s := on_world (fun _ => w) s in
    match st with
    | None => Panic
    | Some (_, size) =>
      '(buffer, _) ← vsprintf buffer FILE_FORMAT [AInt (status_code r); AInt (u32 size)];
      Ok (buffer, r, s)
    end.

(** [REQUEST_SEND_HEADER] *)
Definition send_header (fd : Z) (r : http_request) (s : server) : outcome (next_part * http_request * server) :=
  '(buffer, r, s) ← make_header r s;
  n ← strlen buffer;
  let left := u32 (n - header_sent r) in
  if 0 <? left then
    let '(rc, w) := s_write fd (slice (header_sent r) left buffer) (world s) in
    let s := on_world (fun _ => w) s in
    if rc =? -1 then
      if negb (s_errno (world s) =? EWOULDBLOCK) then Ok (End_connection, r, s) else Ok (Return, r, s)
    else Ok (Through, set_state REQUEST_SEND_DATA (set_sent (header_sent r + rc) r), s)
  else Ok (Through, set_state REQUEST_SEND_DATA r, s).

(** Appends to [response] without looking at the result. *)
Definition say (x : list Z) (s : server) : outcome server :=
  '(_, b, h) ← sb_append_buffer (response s) x (zlen x) (heap s);
  Ok (mkServer (world s) b h).

(** The lines of the listing for some names. *)
Fixpoint say_names (p : list Z) (names : list (list Z)) (s : server) : outcome server :=
  match names with
  | [] => Ok s
  | n :: names =>
    s ← say (text_bytes "<br><a href=" ++ [34]) s;
    s ← say p s;
    s ← say n s;
    s ← say ([34] ++ text_bytes ">") s;
    s ← say n s;
    s ← say (text_bytes "</a>") s;
    say_names p names s
  end.

(** [for (;;)] over [readdir_multi]; [false] on an error. *)
Fixpoint list_directory (fuel : nat) (fd : Z) (p : list Z) (s : server) : outcome (bool * server) :=
  match fuel with
  | O => NoFuel
  | S fuel =>
    let '(names, w) := s_readdir fd (world s) in
    let s := on_world (fun _ => w) s in
    match names with
    | None => Ok (false, s)
    | Some [] => Ok (true, s)
    | Some names => s ← say_names p names s; list_directory fuel fd p s
    end
  end.

Definition send_listing (fuel : nat) (r : http_request) (s : server) : outcome (next_part * http_request * server) :=
  let s := mkServer (world s) (sb_reset (response s)) (heap s) in
  s ← say (text_bytes "<!DOCTYPE html><html>List of ") s;
  let p := text (path r) in
  s ← say p s;
  '(ok, s) ← list_directory fuel (file_fd r) p s;
  if negb ok then Ok (End_connection, r, s) else
  let s := on_world (s_close (file_fd r)) s in
  let r := set_file (-1) (is_directory r) r in
  s ← say (text_bytes "</html>") s;
  '(buffer, rc) ← vsprintf (junk 4096) LENGTH_FORMAT [AInt (sb_length (response s))];
  let '(r, s) := request_reinit r s in
  '(_, b, h) ← sb_prepend_buffer (response s) buffer rc (heap s);
  let s := mkServer (world s) b h in
  let '(rc, w) := s_write (socket r) (sb_text b) (world s) in
  let s := on_world (fun _ => w) s in
  if (rc =? -1) && negb (s_errno w =? EWOULDBLOCK) then Ok (End_connection, r, s) else Ok (Return, r, s).

(** [REQUEST_SEND_DATA] *)
Definition send_data (fuel : nat) (r : http_request) (s : server) : outcome (next_part * http_request * server) :=
  if is_directory r then send_listing fuel r s else
  let '(rc, err, w) := s_sendfile (socket r) (file_fd r) 8192 (world s) in
  let s := on_world (fun _ => w) s in
  err ← deref err;
  if negb (err =? 0) then
    if negb (s_errno (world s) =? EWOULDBLOCK) then Ok (End_connection, r, s) else Ok (Return, r, s)
  else if rc =? 8192 then Ok (Return, r, s)
  else
    let s := on_world (s_close (file_fd r)) s in
    let '(r, s) := request_reinit (set_file (-1) (is_directory r) r) s in
    Ok (Through, r, s).

(** The request after the call, [None] when it was freed. *)
Definition finish (fd : Z) (e : next_part) (r : http_request) (s : server) : option http_request * server :=
  match e with
  | End_connection => (None, on_world (fun w => s_forget fd (s_close fd w)) s)
  | _ => (Some r, s)
  end.

(** A part that is entered when the state is [n] and nothing has ended the call. *)
Definition in_state (n : Z) (e : next_part) (r : http_request) (s : server)
    (part : http_request -> server -> outcome (next_part * http_request * server))
  : outcome (next_part * http_request * server) :=
  match e with
  | Through => if state r =? n then part r s else Ok (Through, r, s)
  | _ => Ok (e, r, s)
  end.

Definition httpd_handle_client (fuel : nat) (fd : Z) (r : http_request) (s : server)
  : outcome (option http_request * server) :=
  '(e, r, s) ← in_state REQUEST_GET_DATA Through r s (get_data fd);
  '(e, r, s) ← in_state REQUEST_SEND_HEADER e r s (send_header fd);
  '(e, r, s) ← in_state REQUEST_SEND_DATA e r s (send_data fuel);
  Ok (finish fd e r s).

(** ** The loop *)

(** The requests that are allocated, by their names. *)
Abbreviation requests := (gmap Z http_request).

(** A new request: the fields that are not set are those of [blank]. *)
Variable blank : http_request.

Fixpoint httpd_handle_incoming (fuel : nat) (sock : Z) (rs : requests) (s : server) : outcome (requests * server) :=
  match fuel with
  | O => NoFuel
  | S fuel =>
    let '(connfd, w) := s_accept sock (world s) in
    let s := on_world (fun _ => w) s in
    if connfd =? -1 then Ok (rs, s) else
    let '(ok, w) := s_setup connfd (world s) in
    c_assert ok ;;
    let name := fresh (dom rs) in
    let b := sb_init_buffer (Block name (junk 8192)) 8192 in
    let r := mkRequest connfd b (path blank) REQUEST_GET_DATA (file_fd blank) (is_directory blank)
               (status_code blank) (header_sent blank) in
    httpd_handle_incoming fuel sock (<[name := r]> rs)
      (on_world (fun _ => s_add connfd name (Z.lor QUEUE_WAIT_READ QUEUE_WAIT_CLOSE) w) s)
  end.

(** An event of the queue: type, descriptor and data. *)
Record event := mkEvent { ev_type : Z; ev_fd : Z; ev_data : Z }.

Definition httpd_event (fuel : nat) (sock : Z) (ev : event) (rs : requests) (s : server) : outcome (requests * server) :=
  if ev_type ev =? TYPE_LISTEN_SOCKET then httpd_handle_incoming fuel sock rs s
  else if ev_type ev =? TYPE_LISTEN_CLIENT then
    r ← deref (rs !! ev_data ev);
    '(r, s) ← httpd_handle_client fuel (ev_fd ev) r s;
    match r with
    | Some r => Ok (<[ev_data ev := r]> rs, s)
    | None => Ok (delete (ev_data ev) rs, s)
    end
  else Ok (rs, s).

Fixpoint httpd_events (fuel : nat) (sock : Z) (evs : list event) (rs : requests) (s : server) : outcome (requests * server) :=
  match evs with
  | [] => Ok (rs, s)
  | ev :: evs => '(rs, s) ← httpd_event fuel sock ev rs s; httpd_events fuel sock evs rs s
  end.
End Httpd.

(** ** Texts *)

Lemma cut_unique {A} (f : A -> bool) (a a' b b' : list A) d d' :
  a ++ d :: b = a' ++ d' :: b' -> Forall (fun c => f c = false) a -> Forall (fun c => f c = false) a' ->
  f d = true -> f d' = true -> a = a' /\ d = d' /\ b = b'.
Proof.
  revert a'. induction a as [|x a IH]; intros [|x' a'] E Ha Ha' Hd Hd'; cbn in E; simplify_eq/=.
  - done.
  - apply Forall_cons in Ha' as [Hx _]. congruence.
  - apply Forall_cons in Ha as [Hx _]. congruence.
  - apply Forall_cons in Ha as [_ Ha]. apply Forall_cons in Ha' as [_ Ha'].
    destruct (IH a' ltac:(done) Ha Ha' Hd Hd') as (-> & -> & ->). done.
Qed.

Lemma no_delim delim (l : list Z) : delim ∉ l -> Forall (fun c => (delim =? c) = false) l.
Proof. intros Hd. apply Forall_forall. intros c Hc. apply Z.eqb_neq. by intros <-. Qed.

Lemma split_delim_at v delim a b :
  sv_ok v -> text v = a ++ delim :: b -> delim ∉ a ->
  exists r rest, sv_split_delim v (Some v) delim = Ok (r, Some rest) /\ text r = a /\ text rest = b /\ sv_ok r /\ sv_ok rest.
Proof.
  intros Hv Ht Ha. destruct (sv_split_partitions v delim (fun _ => false) Hv) as [(r & rest & E & Hr & Hc & Hok & Hok') _].
  exists r, rest. destruct Hc as [Hc|[Hc _]].
  - rewrite Ht in Hc. destruct (cut_unique (fun c => delim =? c) _ _ _ _ _ _ Hc) as (-> & _ & ->);
      [by apply no_delim|by apply no_delim|apply Z.eqb_refl|apply Z.eqb_refl|]. done.
  - exfalso. apply Hr. rewrite <- Hc, Ht. set_solver.
Qed.

Lemma split_space_at v a c b :
  sv_ok v -> text v = a ++ c :: b -> Forall (fun c => isspace c = false) a -> isspace c = true ->
  exists r rest, sv_split_space v (Some v) = Ok (r, rest) /\ text r = a /\ sv_ok r.
Proof.
  intros Hv Ht Ha Hc. destruct (sv_split_partitions v 0 isspace Hv) as [_ (r & rest & E & Hr & Ht' & He & Hok & _)].
  exists r, (Some rest). split; [exact E|]. split; [|done]. rewrite Ht in Ht'. destruct He as [He|(c' & t & He & Hc')].
  - exfalso. rewrite He, app_nil_r in Ht'. rewrite <- Ht' in Hr. apply Forall_app in Hr as [_ Hr].
    apply Forall_cons in Hr as [Hr _]. congruence.
  - rewrite He in Ht'. by destruct (cut_unique isspace _ _ _ _ _ _ Ht' Ha Hr Hc Hc') as (-> & _ & _).
Qed.

(** Does the text end with [e]? *)
Definition ends_with (e t : list Z) : Prop := exists u, t = u ++ e.

Lemma take_end_text v n :
  sv_ok v -> 0 <= n -> sv_ok (fst (sv_take_end v None n)) /\
  text (fst (sv_take_end v None n)) = zdrop (Z.max 0 (sv_length v - n)) (text v).
Proof.
  intros [Hv Hv'] Hn. unfold sv_take_end. destruct (Z.ltb_spec (sv_length v) n); cbn [fst].
  - split; [done|]. rewrite Z.max_l by lia. done.
  - rewrite Z.max_r by lia. split; [split; cbn; [rewrite zlen_zdrop by lia; lia|lia]|].
    unfold text. cbn [sv_s sv_length]. unfold ztake, zdrop. rewrite skipn_firstn_comm. f_equal. lia.
Qed.

Lemma drop_end {A} (t e : list A) : zdrop (Z.max 0 (zlen t - zlen e)) t = e <-> exists u, t = u ++ e.
Proof.
  split.
  - intros E. exists (ztake (Z.max 0 (zlen t - zlen e)) t). rewrite <- E at 2. by rewrite ztake_zdrop.
  - intros [u ->]. rewrite zlen_app. pose proof (zlen_nonneg u). rewrite Z.max_r by lia.
    replace (zlen u + zlen e - zlen e) with (zlen u) by lia. apply zdrop_app_exact. done.
Qed.

Section Requests.
Context {W H : Type} `{HS : System W, HA : Allocator H, HB : !AllocatorBytes H}.
Variable junk : Z -> list Z.
Hypothesis junk_len : forall n, 0 <= n -> zlen (junk n) = n.

(** A buffer of the caller with the text [t]. *)
Record holds (b : sb) (t : list Z) : Prop := {
  ho_inv : sb_inv b;
  ho_text : sb_text b = t;
  ho_fixed : prebuffer b = true /\ sb_capacity b = 8192 /\ to_ignore b = 0
}.

Lemma holds_append b t x (h : H) :
  holds b t -> zlen t + zlen x <= 8192 ->
  exists ok b', sb_append_buffer b x (zlen x) h = Ok (ok, b', h) /\ holds b' (t ++ x).
Proof.
  intros [Hi Ht (Hp & Hc & Hig)] Hl. pose proof (zlen_nonneg x). pose proof (sb_text_len _ Hi) as Htl. rewrite Ht in Htl.
  unfold sb_append_buffer. rewrite Hig. destruct (Z.leb_spec (zlen x) 0).
  - exists true, (sb_set_ignore b (0 - zlen x)). assert (zlen x = 0) by lia. destruct x; [|zlia].
    split; [done|]. rewrite app_nil_r. destruct Hi. split; [split; cbn; lia|done|done].
  - unfold sb_room. cbn [sb_capacity sb_length sb_set_ignore]. destruct Hi as [Hd Hln Hcp Hign].
    rewrite u32_small by lia. rewrite Z.sub_0_r, (proj2 (Z.ltb_ge _ (zlen x))) by lia.
    change (zdrop 0 x) with x. cbn [sb_string sb_length sb_capacity to_ignore prebuffer sb_set_ignore].
    destruct (sb_write_end b x 0 ltac:(done) ltac:(lia) ltac:(lia)) as (d & -> & Hi' & Ht'). cbn [mbind outcome_bind].
    eexists true, _. split; [reflexivity|]. split; [exact Hi'|by rewrite <- Ht|done].
Qed.

Lemma holds_view b t : holds b t -> sv_ok (SB_TO_SV b) /\ text (SB_TO_SV b) = t.
Proof. intros [[Hd Hl Hc Hi] Ht _]. split; [|done]. split; cbn; lia. Qed.

Lemma holds_reset b t : holds b t -> holds (sb_reset b) [].
Proof. intros [[Hd Hl Hc Hi] Ht (Hp & Hcap & Hig)]. split; [split; cbn; lia|done|done]. Qed.

Lemma c_view_ok (s : list Z) : zlen s < 2 ^ 32 -> sv_ok (C_TO_SV s) /\ text (C_TO_SV s) = s.
Proof.
  intros Hs. pose proof (zlen_nonneg s). split; [split; cbn; [rewrite zlen_app; zlia|done]|].
  unfold text. cbn. by apply ztake_app_exact.
Qed.

(** ** The header of a file *)

Definition header (status size : Z) : list Z :=
  text_bytes "HTTP/1.1 " ++ decimal status ++ CRLF ++ text_bytes "Keep-Alive: timeout=5, max=1000" ++ CRLF ++
  text_bytes "Content-Length: " ++ decimal size ++ CRLF ++ CRLF.

(** Characters of a format that are copied. *)
Lemma format_plain l fuel s st ap out rc :
  p_cont st = false -> Forall (fun c => c <> 0 /\ c <> 37) l ->
  exists rc', format_loop (List.length l + fuel) (l ++ s) st ap out rc = format_loop fuel s st ap (out ++ l) rc'.
Proof.
  intros Hst. revert out rc. induction l as [|c l IH]; intros out rc Hl; [exists rc; by rewrite app_nil_r|].
  apply Forall_cons in Hl as [[Hc Hc'] Hl]. cbn [List.length Nat.add app format_loop].
  rewrite (proj2 (Z.eqb_neq c 0)), Hst, (proj2 (Z.eqb_neq c 37)) by done.
  destruct (IH (out ++ [c]) (i32 (rc + 1)) Hl) as [rc' ->]. exists rc'. by rewrite <- app_assoc.
Qed.

(** A character of a conversion. *)
Lemma format_step fuel c rest st ap out rc o st' rest' ap' :
  p_cont st = true -> c <> 0 -> conversion c rest st ap = Ok (o, st', rest', ap') ->
  format_loop (S fuel) (c :: rest) st ap out rc = format_loop fuel rest' st' ap' (out ++ o) (i32 (rc + zlen o)).
Proof. intros Hst Hc E. cbn [format_loop]. by rewrite (proj2 (Z.eqb_neq c 0)), Hst, E. Qed.

(** The state behind a percent sign and [l] times an l. *)
Definition p_percent (l : Z) : pstate := mkP 0 l false false true (-1).

Lemma format_percent fuel rest ap out rc :
  format_loop (S fuel) (37 :: rest) p_init ap out rc = format_loop fuel rest (p_percent 0) ap out rc.
Proof. reflexivity. Qed.

Lemma format_d fuel s n ap out rc :
  0 <= n < 2 ^ 31 ->
  exists rc', format_loop (S (S fuel)) (37 :: 100 :: s) p_init (AInt n :: ap) out rc
    = format_loop fuel s p_init ap (out ++ decimal n) rc'.
Proof.
  intros Hn. destruct (decimal_spec n ltac:(lia)) as (E & _). rewrite format_percent. eexists. apply format_step; [done|done|].
  unfold conversion. cbn -[print_int i32]. rewrite i32_small, E by lia. done.
Qed.

Lemma format_llu fuel s n ap out rc :
  0 <= n < 2 ^ 32 ->
  exists rc', format_loop (S (S (S (S fuel)))) (37 :: 108 :: 108 :: 117 :: s) p_init (AInt n :: ap) out rc
    = format_loop fuel s (p_done 2) ap (out ++ decimal n) rc'.
Proof.
  intros Hn. destruct (decimal_spec n ltac:(lia)) as (E & _). rewrite format_percent.
  rewrite (format_step _ 108 _ (p_percent 0) _ _ _ [] (p_percent 1) _ (AInt n :: ap)) by done.
  rewrite (format_step _ 108 _ (p_percent 1) _ _ _ [] (p_percent 2) _ (AInt n :: ap)) by done.
  rewrite !app_nil_r. eexists. apply format_step; [done|done|].
  unfold conversion. cbn -[print_int u32]. rewrite u32_small, E by lia. done.
Qed.

Lemma header_formatted status size :
  0 <= status < 2 ^ 31 -> 0 <= size < 2 ^ 32 ->
  exists rc, vkcprintf FILE_FORMAT [AInt status; AInt (u32 size)] = Ok (header status size, rc).
Proof.
  intros Hs Hz. rewrite u32_small by lia. unfold vkcprintf.
  change FILE_FORMAT with (text_bytes "HTTP/1.1 " ++ 37 :: 100 :: (CRLF ++ text_bytes "Keep-Alive: timeout=5, max=1000" ++ CRLF ++
    text_bytes "Content-Length: ") ++ 37 :: 108 :: 108 :: 117 :: (CRLF ++ CRLF) ++ [0]).
  set (l1 := text_bytes "HTTP/1.1 "). set (l2 := CRLF ++ text_bytes "Keep-Alive: timeout=5, max=1000" ++ CRLF ++ text_bytes "Content-Length: ").
  set (l3 := CRLF ++ CRLF).
  replace (S (List.length _)) with (List.length l1 + S (S (List.length l2 + S (S (S (S (List.length l3 + 2)))))))%nat by (vm_compute; reflexivity).
  assert (Hp : Forall (fun c => c <> 0 /\ c <> 37) l1 /\ Forall (fun c => c <> 0 /\ c <> 37) l2 /\ Forall (fun c => c <> 0 /\ c <> 37) l3).
  { split_and!; apply (bool_decide_unpack _); vm_compute; exact I. }
  destruct Hp as (H1 & H2 & H3).
  destruct (format_plain l1 (S (S (List.length l2 + S (S (S (S (List.length l3 + 2))))))) (37 :: 100 :: l2 ++ 37 :: 108 :: 108 :: 117 :: l3 ++ [0])
    p_init [AInt status; AInt size] [] 0 eq_refl H1) as [r1 ->].
  destruct (format_d (List.length l2 + S (S (S (S (List.length l3 + 2))))) (l2 ++ 37 :: 108 :: 108 :: 117 :: l3 ++ [0]) status [AInt size]
    ([] ++ l1) r1 Hs) as [r2 ->].
  destruct (format_plain l2 (S (S (S (S (List.length l3 + 2))))) (37 :: 108 :: 108 :: 117 :: l3 ++ [0]) p_init [AInt size]
    (([] ++ l1) ++ decimal status) r2 eq_refl H2) as [r3 ->].
  destruct (format_llu (List.length l3 + 2) (l3 ++ [0]) size [] ((([] ++ l1) ++ decimal status) ++ l2) r3 Hz) as [r4 ->].
  destruct (format_plain l3 2 [0] (p_done 2) [] (((([] ++ l1) ++ decimal status) ++ l2) ++ decimal size) r4 eq_refl H3) as [r5 ->].
  exists r5. cbn [format_loop Z.eqb]. f_equal. f_equal. unfold header, l1, l2, l3. by rewrite <- !app_assoc.
Qed.

Lemma decimal_nonzero n : 0 <= n < 2 ^ 32 -> Forall (fun c => c <> 0) (decimal n).
Proof.
  intros Hn. destruct (decimal_spec n Hn) as (_ & _ & _ & ds & Hf & _).
  induction Hf as [|c d cs ds (Hc & _) _ IH]; by constructor.
Qed.

Lemma header_facts status size :
  0 <= status < 2 ^ 31 -> 0 <= size < 2 ^ 32 ->
  Forall (fun c => c <> 0) (header status size) /\ 0 < zlen (header status size) < 4096.
Proof.
  intros Hs Hz. pose proof (decimal_nonzero status ltac:(lia)). pose proof (decimal_nonzero size ltac:(lia)).
  destruct (decimal_spec status ltac:(lia)) as (_ & _ & Hl1 & _). destruct (decimal_spec size ltac:(lia)) as (_ & _ & Hl2 & _).
  unfold header. split.
  - repeat (apply Forall_app; split); try done; apply (bool_decide_unpack _); vm_compute; exact I.
  - rewrite !zlen_app. pose proof (zlen_nonneg (decimal status)). pose proof (zlen_nonneg (decimal size)).
    change (zlen (text_bytes "HTTP/1.1 ")) with 9. change (zlen CRLF) with 2.
    change (zlen (text_bytes "Keep-Alive: timeout=5, max=1000")) with 31. change (zlen (text_bytes "Content-Length: ")) with 16. lia.
Qed.

Lemma header_stored str status size :
  0 <= status < 2 ^ 31 -> 0 <= size < 2 ^ 32 -> zlen str = 4096 ->
  exists buffer rc, vsprintf str FILE_FORMAT [AInt status; AInt (u32 size)] = Ok (buffer, rc) /\
    cstr buffer (header status size).
Proof.
  intros Hs Hz Hl. destruct (header_formatted status size Hs Hz) as [rc E]. destruct (header_facts status size Hs Hz) as [Hn Hlen].
  destruct (snprintf_truncates str 4096 _ _ _ _ E) as (_ & _ & Hv); [intros E0; rewrite E0 in Hlen; zlia|lia|].
  rewrite Hv by lia. eexists _, _. split; [reflexivity|]. exists (zdrop (zlen (header status size) + 1) str).
  split; [|done]. unfold splice. rewrite zlen_app. cbn [app]. by rewrite <- app_assoc.
Qed.

(** ** A connection to a server of files *)

(** What is relied on of the system calls: the bytes sent on the socket, the pieces that
    have arrived on it, the open files with their contents and positions, and the files
    that can be opened.  The socket may have no room: then a write is refused, and
    [sendfile] stops behind a part of the bytes; [refusals] bounds how often that
    still happens.  A write that is not refused takes all bytes. *)
Class FileService (sock : Z) : Type := {
  out : W -> list Z;
  inbox : W -> list (list Z);
  opened : W -> gmap Z (list Z * Z);
  served : list Z -> option (list Z);
  refusals : W -> nat;
  open_file : forall w p data, served p = Some data ->
    exists fd w', s_open p w = (fd, w') /\ 0 <= fd /\ opened w !! fd = None /\
      opened w' = <[fd := (data, 0)]> (opened w) /\ out w' = out w /\ inbox w' = inbox w /\ (refusals w' <= refusals w)%nat;
  fstat_file : forall w fd data pos, opened w !! fd = Some (data, pos) -> s_fstat fd w = (Some (false, zlen data), w);
  read_piece : forall w p ps, inbox w = p :: ps -> zlen p <= 4096 ->
    exists w', s_read sock 4096 w = (zlen p, p, w') /\ inbox w' = ps /\ out w' = out w /\ opened w' = opened w /\
      (refusals w' <= refusals w)%nat;
  write_whole : forall w s, exists rc w', s_write sock s w = (rc, w') /\ inbox w' = inbox w /\ opened w' = opened w /\
    (rc = zlen s /\ out w' = out w ++ s /\ (refusals w' <= refusals w)%nat \/
     rc = -1 /\ s_errno w' = EWOULDBLOCK /\ out w' = out w /\ (refusals w' < refusals w)%nat);
  sendfile_part : forall w fd data pos, opened w !! fd = Some (data, pos) -> 0 <= pos <= zlen data ->
    let m := Z.min 8192 (zlen data - pos) in
    exists n err w', s_sendfile sock fd 8192 w = (n, Some err, w') /\ 0 <= n <= m /\ out w' = out w ++ slice pos n data /\
      opened w' = <[fd := (data, pos + n)]> (opened w) /\ inbox w' = inbox w /\
      (err = 0 /\ n = m /\ (refusals w' <= refusals w)%nat \/
       err <> 0 /\ s_errno w' = EWOULDBLOCK /\ (refusals w' < refusals w)%nat);
  close_file : forall w fd, opened (s_close fd w) = delete fd (opened w) /\ out (s_close fd w) = out w /\
    inbox (s_close fd w) = inbox w /\ (refusals (s_close fd w) <= refusals w)%nat;
  listen_keeps : forall w fd e, opened (s_listen fd e w) = opened w /\ out (s_listen fd e w) = out w /\
    inbox (s_listen fd e w) = inbox w /\ (refusals (s_listen fd e w) <= refusals w)%nat
}.

Section Serving.
Context (sock : Z) `{HF : !FileService sock}.
Abbreviation server := (@server W H).

Lemma try_file_served r buf t (s : server) data :
  cstr buf t -> served t = Some data -> file_fd r = -1 ->
  exists fd s', request_try_file r buf s = Ok (set_status 200 (set_file fd false r), s') /\ 0 <= fd /\
    opened (world s) !! fd = None /\ opened (world s') = <[fd := (data, 0)]> (opened (world s)) /\
    out (world s') = out (world s) /\ inbox (world s') = inbox (world s) /\ (refusals (world s') <= refusals (world s))%nat.
Proof.
  intros Hb Hs Hfd. destruct (open_file (world s) t data Hs) as (fd & w' & E & Hp & Hn & Ho & Hout & Hin & Hq).
  unfold request_try_file, c_text. rewrite (strlen_spec _ _ Hb). cbn [mbind outcome_bind].
  assert (Ht : ztake (zlen t) buf = t) by (destruct Hb as (rest & -> & _); by apply ztake_app_exact).
  rewrite Ht, E, (proj2 (Z.eqb_neq fd (-1))) by lia. rewrite Hfd. cbn [Z.eqb Pos.eqb negb world on_world].
  rewrite (fstat_file w' fd data 0) by (rewrite Ho; apply lookup_insert_eq).
  eexists fd, _. split; [reflexivity|]. cbn [world on_world]. done.
Qed.

Lemma path_buffer_stored v t :
  sv_ok v -> text v = t -> Forall (fun c => c <> 0) t -> zlen t <= 255 ->
  exists buf n, sv_to_cstring_buffer v (junk (256 + 11)) 256 = Ok (buf, n) /\ cstr buf t.
Proof.
  intros Hv Ht Hf Hl. pose proof (text_len _ Hv) as Hlen. rewrite Ht in Hlen. destruct Hv as [Hv _].
  pose proof (junk_len (256 + 11) ltac:(lia)) as Hj.
  unfold sv_to_cstring_buffer. rewrite (proj2 (Z.ltb_ge (256 - 1) (sv_length v))) by lia. cbn [Z.eqb orb].
  rewrite memcpy_spec by lia. cbn [mbind outcome_bind]. fold (text v). rewrite Ht.
  rewrite awrite_splice by (rewrite zlen_splice; lia). cbn [mbind outcome_bind].
  rewrite splice_snoc by zlia. eexists _, _. split; [reflexivity|]. exists (zdrop (zlen t + 1) (junk (256 + 11))).
  split; [|done]. unfold splice. rewrite zlen_app. cbn [app]. by rewrite <- app_assoc.
Qed.

(** A request for a file that is served. *)
Record get_request (t p : list Z) (data : list Z) : Prop := {
  gr_text : exists c rest, t = text_bytes "GET" ++ 32 :: p ++ c :: rest /\ isspace c = true;
  gr_path : Forall (fun c => isspace c = false /\ c <> 0) p;
  gr_size : zlen p <= 255;
  gr_file : served p = Some data
}.

Lemma parse_get r t p data (s : server) :
  holds (client_buffer r) t -> get_request t p data ->
  exists fd v s', parse_incoming_request junk r s = Ok (set_status 200 (set_file fd false (set_path v r)), s') /\ 0 <= fd /\
    opened (world s) !! fd = None /\ opened (world s') = <[fd := (data, 0)]> (opened (world s)) /\
    out (world s') = out (world s) /\ inbox (world s') = inbox (world s) /\ (refusals (world s') <= refusals (world s))%nat.
Proof.
  intros Hb [(c & rest & Ht & Hc) Hp Hsz Hfile]. destruct (holds_view _ _ Hb) as [Hok Hview]. unfold parse_incoming_request.
  destruct (split_delim_at (SB_TO_SV (client_buffer r)) 32 (text_bytes "GET") (p ++ c :: rest)) as (m & l & -> & Hm & Hl & Hmok & Hlok);
    [done|by rewrite Hview|apply (bool_decide_unpack _); vm_compute; exact I|].
  cbn [mbind outcome_bind deref].
  destruct (split_space_at l p c rest) as (v & l' & -> & Hv & Hvok);
    [done|done|eapply Forall_impl; [exact Hp|by intros ? [? _]]|done|].
  cbn [mbind outcome_bind]. destruct (c_view_ok (text_bytes "GET") ltac:(done)) as [Hgok Hg].
  rewrite (proj1 (sv_comparisons _ _ Hmok Hgok)), Hm, Hg, bool_decide_true by done. cbn [mbind outcome_bind].
  destruct (path_buffer_stored v p) as (buf & n & -> & Hbuf); [done|done|eapply Forall_impl; [exact Hp|by intros ? [_ ?]]|done|].
  cbn [mbind outcome_bind].
  destruct (try_file_served (set_file (-1) false (set_path v r)) buf p s data Hbuf Hfile eq_refl) as (fd & s' & -> & Hrest).
  cbn [mbind outcome_bind is_directory set_status set_file status_code Z.eqb Pos.eqb orb]. by exists fd, v, s'.
Qed.

(** A client that waits for its next request. *)
Record idle (r : http_request) : Prop := {
  id_state : state r = REQUEST_GET_DATA;
  id_socket : socket r = sock;
  id_buffer : holds (client_buffer r) []
}.

(** A client that is being sent a file. *)
Record being_sent (r : http_request) (t : list Z) (fd : Z) : Prop := {
  bs_socket : socket r = sock;
  bs_buffer : holds (client_buffer r) t;
  bs_file : is_directory r = false /\ file_fd r = fd
}.

(** One part of a file: all of it, its end, or as much as there is room for. *)
Lemma send_data_part fuel r t fd (s : server) data pos :
  being_sent r t fd -> opened (world s) !! fd = Some (data, pos) -> 0 <= pos <= zlen data ->
  exists e n r' s', send_data junk fuel r s = Ok (e, r', s') /\ e <> End_connection /\ 0 <= n <= zlen data - pos /\
    out (world s') = out (world s) ++ slice pos n data /\ inbox (world s') = inbox (world s) /\
    (refusals (world s') <= refusals (world s))%nat /\
    (r' = r /\ opened (world s') = <[fd := (data, pos + n)]> (opened (world s)) /\
       (n = 8192 \/ (refusals (world s') < refusals (world s))%nat) \/
     idle r' /\ opened (world s') = delete fd (opened (world s)) /\ pos + n = zlen data).
Proof.
  intros [Hs Hb [Hd Hf]] Ho Hpos. unfold send_data. rewrite Hd, Hs, Hf.
  destruct (sendfile_part (world s) fd data pos Ho Hpos) as (n & err & w' & E & Hn & Hout & Hop & Hin & Hcase). rewrite E.
  cbn [deref mbind outcome_bind world on_world]. destruct Hcase as [(-> & Hm & Hq)|(He & Her & Hq)].
  - cbn [Z.eqb negb]. destruct (Z.eqb_spec n 8192) as [Hm'|Hm'].
    + eexists _, n, _, _. split; [reflexivity|]. cbn [world on_world]. split_and!; [done|lia|lia|done|done|done|]. left. by split_and!; [..|left].
    + unfold request_reinit. eexists _, n, _, _. split; [reflexivity|]. cbn [world on_world].
      set (l := s_listen _ _). destruct (listen_keeps (s_close fd w') (socket r) (Z.lor QUEUE_WAIT_READ QUEUE_WAIT_CLOSE)) as (L1 & L2 & L3 & L4).
      destruct (close_file w' fd) as (C1 & C2 & C3 & C4). unfold l. cbn [socket set_file]. rewrite L1, L2, L3, C1, C2, C3, Hop, Hout, Hin.
      split_and!; [done|lia|lia|done|done|lia|]. right. split_and!; [|by rewrite delete_insert_eq|lia].
      split; [done|done|]. cbn. by apply (holds_reset _ t).
  - rewrite (proj2 (Z.eqb_neq err 0) He), Her. cbn [negb Z.eqb Pos.eqb EWOULDBLOCK].
    eexists _, n, _, _. split; [reflexivity|]. cbn [world on_world]. split_and!; [done|lia|lia|done|done|lia|]. left. by split_and!; [..|right].
Qed.

(** Is the request complete? *)
Definition complete (t : list Z) : bool := bool_decide (CRLF ++ CRLF = zdrop (Z.max 0 (zlen t - 4)) t).

Lemma complete_iff t : complete t = true <-> ends_with (CRLF ++ CRLF) t.
Proof.
  unfold complete. rewrite bool_decide_eq_true. change 4 with (zlen (CRLF ++ CRLF)).
  split; [intros E; by apply drop_end|intros E; symmetry; by apply drop_end].
Qed.

Lemma get_data_piece r t x ps (s : server) :
  holds (client_buffer r) t -> inbox (world s) = x :: ps -> zlen x <= 4096 -> zlen t + zlen x <= 8192 ->
  exists b s1, holds b (t ++ x) /\ opened (world s1) = opened (world s) /\ out (world s1) = out (world s) /\
    inbox (world s1) = ps /\ (refusals (world s1) <= refusals (world s))%nat /\
    get_data junk sock r s =
      (if complete (t ++ x) then
         '(r, s) ← parse_incoming_request junk (set_buffer b r) (on_world (s_listen sock (Z.lor QUEUE_WAIT_WRITE QUEUE_WAIT_CLOSE)) s1);
         Ok (Through, set_state REQUEST_SEND_HEADER (set_sent 0 r), s)
       else Ok (Return, set_buffer b r, s1)).
Proof.
  intros Hb Hin Hx Hl. destruct (read_piece (world s) x ps Hin Hx) as (w' & E & Hi & Ho & Hop & Hq).
  destruct (holds_append (client_buffer r) t x (heap s) Hb Hl) as (ok & b & Ea & Hb').
  exists b, (mkServer w' (response s) (heap s)). split_and!; [done|done|done|done|done|].
  unfold get_data. rewrite E. pose proof (zlen_nonneg x). rewrite (proj2 (Z.eqb_neq (zlen x) (-1))) by lia.
  cbn [heap on_world]. rewrite Ea. cbn [mbind outcome_bind world response].
  destruct (holds_view _ _ Hb') as [Hok Hview]. destruct (take_end_text (SB_TO_SV b) 4 Hok ltac:(lia)) as [Hek Het].
  destruct (sv_take_end (SB_TO_SV b) None 4) as [e rest']. cbn [fst] in Hek, Het.
  destruct (c_view_ok (CRLF ++ CRLF) ltac:(done)) as [Hck Hct].
  rewrite (proj1 (sv_comparisons _ _ Hck Hek)), Hct, Het, Hview.
  replace (sv_length (SB_TO_SV b)) with (zlen (t ++ x)) by (rewrite <- Hview; by apply text_len).
  cbn [mbind outcome_bind]. unfold complete. by destruct (bool_decide _).
Qed.

(** A piece that does not complete the request. *)
Lemma piece_collected fuel r t x ps (s : server) :
  state r = REQUEST_GET_DATA -> holds (client_buffer r) t -> inbox (world s) = x :: ps -> zlen x <= 4096 ->
  zlen t + zlen x <= 8192 -> complete (t ++ x) = false ->
  exists b s', httpd_handle_client junk fuel sock r s = Ok (Some (set_buffer b r), s') /\ holds b (t ++ x) /\
    opened (world s') = opened (world s) /\ out (world s') = out (world s) /\ inbox (world s') = ps /\
    (refusals (world s') <= refusals (world s))%nat.
Proof.
  intros Hst Hb Hin Hx Hl Hc. destruct (get_data_piece r t x ps s Hb Hin Hx Hl) as (b & s1 & Hb' & H1 & H2 & H3 & H4 & E).
  exists b, s1. split_and!; [|done..]. unfold httpd_handle_client, in_state. rewrite Hst. cbn [Z.eqb REQUEST_GET_DATA].
  rewrite E, Hc. done.
Qed.

(** The header: sent, or refused. *)
Lemma send_header_file r t fd (s : server) data :
  being_sent r t fd -> 0 <= fd -> header_sent r = 0 -> status_code r = 200 -> opened (world s) !! fd = Some (data, 0) ->
  zlen data < 2 ^ 31 ->
  exists e r' s', send_header junk sock r s = Ok (e, r', s') /\ inbox (world s') = inbox (world s) /\
    opened (world s') = opened (world s) /\
    (e = Through /\ (exists n, r' = set_state REQUEST_SEND_DATA (set_sent n r)) /\
       out (world s') = out (world s) ++ header 200 (zlen data) /\ (refusals (world s') <= refusals (world s))%nat \/
     e = Return /\ r' = r /\ out (world s') = out (world s) /\ (refusals (world s') < refusals (world s))%nat).
Proof.
  intros [Hs Hb [Hd Hf]] Hfd Hh Hcode Ho Hz. pose proof (zlen_nonneg data). unfold send_header, make_header.
  rewrite Hd, Hf, (proj2 (Z.eqb_neq fd (-1))) by lia. rewrite (fstat_file _ _ _ _ Ho), Hcode.
  destruct (header_stored (junk 4096) 200 (zlen data) ltac:(lia) ltac:(lia) (junk_len 4096 ltac:(lia))) as (buffer & rc & -> & Hbuf).
  destruct (header_facts 200 (zlen data) ltac:(lia) ltac:(lia)) as [_ Hlen].
  cbn [mbind outcome_bind]. rewrite (strlen_spec _ _ Hbuf). cbn [mbind outcome_bind]. rewrite Hh, Z.sub_0_r, u32_small by lia.
  rewrite (proj2 (Z.ltb_lt 0 _)) by lia.
  assert (Ht : slice 0 (zlen (header 200 (zlen data))) buffer = header 200 (zlen data)).
  { destruct Hbuf as (rest & -> & _). rewrite slice_from_0. by apply ztake_app_exact. }
  rewrite Ht. cbn [world on_world].
  destruct (write_whole (world s) (header 200 (zlen data))) as (n & w' & E & Hi' & Hop' & [(-> & Ho' & Hq)|(-> & He & Ho' & Hq)]); rewrite E.
  - rewrite (proj2 (Z.eqb_neq _ (-1))) by lia. eexists _, _, _. split; [reflexivity|]. split_and!; [done|done|]. left. by split_and!; [|eexists|..].
  - cbn [Z.eqb Pos.eqb]. cbn [world on_world]. rewrite He. cbn [negb Z.eqb Pos.eqb EWOULDBLOCK].
    eexists _, _, _. split; [reflexivity|]. split_and!; [done|done|]. right. done.
Qed.

(** The part of the handler behind [REQUEST_GET_DATA]. *)
Definition answer (fuel : nat) (r : http_request) (s : server) : outcome (option http_request * server) :=
  '(e, r, s) ← in_state REQUEST_SEND_HEADER Through r s (send_header junk sock);
  '(e, r, s) ← in_state REQUEST_SEND_DATA e r s (send_data junk fuel);
  Ok (finish sock e r s).

Lemma handler_answers fuel r s : state r <> REQUEST_GET_DATA -> httpd_handle_client junk fuel sock r s = answer fuel r s.
Proof.
  intros Hst. unfold httpd_handle_client.
  assert (in_state REQUEST_GET_DATA Through r s (get_data junk sock) = Ok (Through, r, s)) as -> by (unfold in_state; by rewrite (proj2 (Z.eqb_neq _ _) Hst)).
  done.
Qed.

(** The calls of the handler for the events of one client. *)
Fixpoint calls (fuel n : nat) (r : http_request) (s : server) : outcome (option http_request * server) :=
  match n with
  | O => Ok (Some r, s)
  | S n =>
    '(r, s) ← httpd_handle_client junk fuel sock r s;
    match r with None => Ok (None, s) | Some r => calls fuel n r s end
  end.

Lemma calls_more fuel n m r s r' s' :
  calls fuel n r s = Ok (Some r', s') -> calls fuel (n + m) r s = calls fuel m r' s'.
Proof.
  revert r s. induction n as [|n IH]; intros r s; cbn [calls Nat.add]; [by intros [= -> ->]|].
  destruct (httpd_handle_client junk fuel sock r s) as [[[r1|] s1]| | |]; cbn [mbind outcome_bind]; [apply IH|done..].
Qed.

(** A call, and [n] more. *)
Definition followed_by (fuel n : nat) (x : outcome (option http_request * server)) : outcome (option http_request * server) :=
  '(r, s) ← x; match r with None => Ok (None, s) | Some r => calls fuel n r s end.

(** The rest of a file. *)
Lemma rest_sent fuel k r t fd (s : server) data pos base :
  being_sent r t fd -> state r = REQUEST_SEND_DATA -> opened (world s) = <[fd := (data, pos)]> base -> base !! fd = None ->
  0 <= pos <= zlen data -> (refusals (world s) + Z.to_nat ((zlen data - pos) / 8192) <= k)%nat ->
  exists n r' s', (n <= k)%nat /\ followed_by fuel n (answer fuel r s) = Ok (Some r', s') /\ idle r' /\ opened (world s') = base /\
    out (world s') = out (world s) ++ zdrop pos data /\ inbox (world s') = inbox (world s).
Proof.
  intros Hr Hst Ho Hbase. revert s pos Ho. induction k as [k IH] using lt_wf_ind. intros s pos Ho Hpos Hk.
  destruct (send_data_part fuel r t fd s data pos Hr) as (e & n & r1 & s1 & E & He & Hn & Hout & Hin & Hq & Hcase);
    [rewrite Ho; apply lookup_insert_eq|done|].
  assert (Ea : answer fuel r s = Ok (Some r1, s1)).
  { unfold answer, in_state. rewrite Hst. cbn [Z.eqb REQUEST_SEND_DATA REQUEST_SEND_HEADER Pos.eqb mbind outcome_bind]. rewrite Hst, Z.eqb_refl, E.
    cbn [mbind outcome_bind]. by destruct e. }
  rewrite Ea. cbn [followed_by mbind outcome_bind].
  destruct Hcase as [(-> & Hop & Hm)|(Hidle & Hop & Hm)].
  - rewrite Ho, insert_insert_eq in Hop.
    assert (Hdec : (refusals (world s1) + Z.to_nat ((zlen data - (pos + n)) / 8192) < refusals (world s) + Z.to_nat ((zlen data - pos) / 8192))%nat).
    { assert (0 <= (zlen data - (pos + n)) / 8192 <= (zlen data - pos) / 8192)
        by (split; [apply Z.div_pos; lia|apply Z.div_le_mono; lia]).
      destruct Hm as [-> |?]; [|lia].
      assert (Hd : (zlen data - pos) / 8192 = (zlen data - (pos + 8192)) / 8192 + 1).
      { rewrite <- Z.div_add by lia. f_equal. lia. }
      lia. }
    destruct (IH (refusals (world s1) + Z.to_nat ((zlen data - (pos + n)) / 8192))%nat ltac:(lia) s1 (pos + n) Hop ltac:(lia) ltac:(lia))
      as (j & r' & s' & Hj & E' & Hi & Ho' & Hout' & Hin').
    exists (S j), r', s'. split; [lia|]. cbn [calls]. rewrite handler_answers by (by rewrite Hst). split_and!; [exact E'|done|done| |congruence].
    rewrite Hout', Hout, <- app_assoc. f_equal. unfold slice. rewrite <- zdrop_zdrop by lia. apply ztake_zdrop.
  - exists 0%nat, r1, s1. split_and!; [lia|done|done| | |done].
    + rewrite Hop, Ho. by rewrite delete_insert_id.
    + rewrite Hout. f_equal. unfold slice. apply ztake_all. rewrite zlen_zdrop by lia. lia.
Qed.

(** The header, as soon as there is room, and the file. *)
Lemma answer_sent fuel k r t fd (s : server) data base :
  being_sent r t fd -> state r = REQUEST_SEND_HEADER -> 0 <= fd -> header_sent r = 0 -> status_code r = 200 ->
  opened (world s) = <[fd := (data, 0)]> base -> base !! fd = None -> zlen data < 2 ^ 31 ->
  (refusals (world s) + Z.to_nat (zlen data / 8192) <= k)%nat ->
  exists n r' s', (n <= k)%nat /\ followed_by fuel n (answer fuel r s) = Ok (Some r', s') /\ idle r' /\ opened (world s') = base /\
    out (world s') = out (world s) ++ header 200 (zlen data) ++ data /\ inbox (world s') = inbox (world s).
Proof.
  intros Hr Hst Hfd Hh Hcode Ho Hbase Hz. revert s Ho. induction k as [k IH] using lt_wf_ind. intros s Ho Hk.
  pose proof (zlen_nonneg data).
  destruct (send_header_file r t fd s data) as (e & r1 & s1 & E & Hin & Hop & Hcase); [done..|rewrite Ho; apply lookup_insert_eq|done|].
  destruct Hcase as [(-> & [n ->] & Hout & Hq)|(-> & -> & Hout & Hq)].
  - set (r2 := set_state REQUEST_SEND_DATA (set_sent n r)) in E.
    assert (Ea : answer fuel r s = answer fuel r2 s1).
    { unfold answer, in_state. rewrite Hst, Z.eqb_refl, E. reflexivity. }
    destruct (rest_sent fuel k r2 t fd s1 data 0 base) as (j & r' & s' & Hj & E' & Hi & Ho' & Hout' & Hin');
      [destruct Hr; by split|done|congruence|done|lia|rewrite Z.sub_0_r; lia|].
    exists j, r', s'. rewrite Ea. split_and!; [done|done|done|done| |congruence]. by rewrite Hout', Hout, <- app_assoc.
  - assert (Ea : answer fuel r s = Ok (Some r, s1)).
    { unfold answer, in_state. rewrite Hst, Z.eqb_refl, E. reflexivity. }
    destruct (IH (refusals (world s1) + Z.to_nat (zlen data / 8192))%nat ltac:(lia) s1 ltac:(congruence) ltac:(lia))
      as (j & r' & s' & Hj & E' & Hi & Ho' & Hout' & Hin').
    exists (S j), r', s'. split; [lia|]. rewrite Ea. cbn [followed_by mbind outcome_bind calls].
    rewrite handler_answers by (by rewrite Hst). split_and!; [exact E'|done|done|congruence|congruence].
Qed.

(** The last piece. *)
Lemma request_answered fuel r t x ps p (s : server) data :
  state r = REQUEST_GET_DATA -> socket r = sock -> holds (client_buffer r) t -> inbox (world s) = x :: ps -> zlen x <= 4096 ->
  zlen t + zlen x <= 8192 -> complete (t ++ x) = true -> get_request (t ++ x) p data -> zlen data < 2 ^ 31 ->
  exists n r' s', (n <= refusals (world s) + Z.to_nat (zlen data / 8192))%nat /\ calls fuel (S n) r s = Ok (Some r', s') /\ idle r' /\
    opened (world s') = opened (world s) /\ out (world s') = out (world s) ++ header 200 (zlen data) ++ data /\ inbox (world s') = ps.
Proof.
  intros Hst Hs Hb Hin Hx Hl Hc Hget Hz. destruct (get_data_piece r t x ps s Hb Hin Hx Hl) as (b & s1 & Hb' & H1 & H2 & H3 & H4 & E).
  set (s2 := on_world (s_listen sock (Z.lor QUEUE_WAIT_WRITE QUEUE_WAIT_CLOSE)) s1) in E.
  destruct (listen_keeps (world s1) sock (Z.lor QUEUE_WAIT_WRITE QUEUE_WAIT_CLOSE)) as (L1 & L2 & L3 & L4).
  change (s_listen sock (Z.lor QUEUE_WAIT_WRITE QUEUE_WAIT_CLOSE) (world s1)) with (world s2) in L1, L2, L3, L4.
  destruct (parse_get (set_buffer b r) (t ++ x) p data s2 Hb' Hget) as (fd & v & s3 & Ep & Hfd & Hnone & Hop & Hout & Hi & Hq).
  set (r2 := set_state REQUEST_SEND_HEADER (set_sent 0 (set_status 200 (set_file fd false (set_path v (set_buffer b r)))))).
  destruct (answer_sent fuel (refusals (world s) + Z.to_nat (zlen data / 8192)) r2 (t ++ x) fd s3 data (opened (world s2)))
    as (n & r' & s' & Hn & E' & Hidle & Ho' & Hout' & Hin'); [by split|done..|lia|].
  exists n, r', s'. split; [done|]. split_and!; [|done|congruence|congruence|congruence]. rewrite <- E'. cbn [calls]. unfold followed_by.
  assert (Eg : in_state REQUEST_GET_DATA Through r s (get_data junk sock) = Ok (Through, r2, s3)) by (unfold in_state; rewrite Hst, Z.eqb_refl, E, Hc, Ep; done).
  unfold httpd_handle_client. by rewrite Eg.
Qed.

(** The pieces in front of the last one. *)
Lemma pieces_collected fuel r (s : server) a later :
  idle r -> inbox (world s) = a ++ later -> Forall (fun x => zlen x <= 4096) a -> zlen (concat a) <= 8192 ->
  (forall b c, a = b ++ c -> b <> [] -> complete (concat b) = false) ->
  exists r' s', calls fuel (List.length a) r s = Ok (Some r', s') /\ state r' = REQUEST_GET_DATA /\ socket r' = sock /\
    holds (client_buffer r') (concat a) /\ opened (world s') = opened (world s) /\ out (world s') = out (world s) /\
    inbox (world s') = later /\ (refusals (world s') <= refusals (world s))%nat.
Proof.
  intros [Hst Hs Hb]. revert later. induction a as [|x a IH] using rev_ind; intros later Hin Hsz Hl Hno.
  { exists r, s. split_and!; done. }
  apply Forall_app in Hsz as [Hsz [Hx _]%Forall_cons].
  rewrite concat_app, zlen_app in Hl. cbn [concat] in Hl. rewrite app_nil_r in Hl. pose proof (zlen_nonneg x).
  destruct (IH (x :: later)) as (r1 & s1 & E & Hst1 & Hs1 & Hb1 & Ho1 & Hout1 & Hin1 & Hq1);
    [by rewrite Hin, <- app_assoc|done|lia|intros b c -> Hne; apply (Hno b (c ++ [x])); [by rewrite app_assoc|done]|].
  destruct (piece_collected fuel r1 (concat a) x later s1 Hst1 Hb1 Hin1 Hx Hl) as (b & s2 & E2 & Hb2 & Ho2 & Hout2 & Hin2 & Hq2).
  { specialize (Hno (a ++ [x]) [] ltac:(by rewrite app_nil_r) ltac:(by destruct a)).
    rewrite concat_app in Hno. cbn [concat] in Hno. by rewrite app_nil_r in Hno. }
  exists (set_buffer b r1), s2. rewrite length_app. cbn [List.length]. rewrite (calls_more _ _ _ _ _ _ _ E). cbn [calls]. rewrite E2.
  cbn [mbind outcome_bind]. rewrite concat_app. cbn [concat]. rewrite app_nil_r. split_and!; try done; [congruence..|lia].
Qed.

(** C31: a client that asks for a file gets it, header and bytes.  However the request
    arrives in pieces, and however often the socket has no room for the header or for all
    of a part of the file, the calls of the handler for the events of the connection send
    the header with the length of the file and then all its bytes; afterwards the file is
    closed and the connection waits for the next request.  The socket takes the header
    whole or refuses it: the rest of a header it takes in part is lost
    ([header_rest_lost]). *)
Theorem httpd_serves_file fuel r (s : server) pieces later p data :
  idle r -> inbox (world s) = pieces ++ later -> Forall (fun x => zlen x <= 4096) pieces ->
  get_request (concat pieces) p data -> ends_with (CRLF ++ CRLF) (concat pieces) ->
  (forall a b, pieces = a ++ b -> a <> [] -> b <> [] -> ~ ends_with (CRLF ++ CRLF) (concat a)) ->
  zlen (concat pieces) <= 8192 -> zlen data < 2 ^ 31 ->
  exists n r' s', (n <= List.length pieces + Z.to_nat (zlen data / 8192) + refusals (world s))%nat /\
    calls fuel n r s = Ok (Some r', s') /\ idle r' /\
    out (world s') = out (world s) ++ header 200 (zlen data) ++ data /\
    opened (world s') = opened (world s) /\ inbox (world s') = later.
Proof.
  intros Hidle Hin Hsz Hget Hend Hno Hl Hz. destruct pieces as [|x a _] using rev_ind.
  { destruct Hend as [u Hu]. by destruct u. }
  rewrite <- app_assoc in Hin. assert (Ec : concat (a ++ [x]) = concat a ++ x) by (rewrite concat_app; cbn; by rewrite app_nil_r).
  rewrite Ec in Hget, Hend, Hl. rewrite zlen_app in Hl. pose proof (zlen_nonneg x). apply Forall_app in Hsz as [Hsz [Hx _]%Forall_cons].
  destruct (pieces_collected fuel r s a ([x] ++ later) Hidle Hin Hsz ltac:(lia)) as (r1 & s1 & E1 & Hst & Hs & Hb & Ho1 & Hout1 & Hin1 & Hq1).
  { intros b c -> Hb. destruct (complete (concat b)) eqn:Eb; [|done]. exfalso. apply complete_iff in Eb.
    apply (Hno b (c ++ [x])); [by rewrite app_assoc|done|by destruct c|done]. }
  destruct (request_answered fuel r1 (concat a) x later p s1 data Hst Hs Hb Hin1 Hx Hl) as (n & r' & s' & Hn & E & Hi & Ho & Hout & Hin');
    [by apply complete_iff|done|done|].
  exists (List.length a + S n)%nat, r', s'. rewrite length_app. cbn [List.length]. split; [lia|].
  rewrite (calls_more _ _ _ _ _ _ _ E1). split_and!; [done|done|congruence|congruence|done].
Qed.
End Serving.
End Requests.

(** ** What the code gets wrong *)

(** A path of more than 255 characters is not copied: the server opens the file whose
    name happens to be on its stack. *)
Lemma long_path_not_copied v buffer : 256 <= sv_length v -> sv_to_cstring_buffer v buffer 256 = Ok (buffer, sv_length v).
Proof. intros Hl. unfold sv_to_cstring_buffer. by rewrite (proj2 (Z.ltb_lt _ _)) by lia. Qed.

(** When the socket takes only a part of the header, the rest of it is not sent. *)
Lemma header_rest_lost {W H} `{System W, Allocator H} junk fd r (s : @server W H) buffer r1 s1 n rc w :
  make_header junk r s = Ok (buffer, r1, s1) -> strlen buffer = Ok n -> 0 <= n < 2 ^ 32 -> header_sent r1 = 0 -> 0 <= rc < n ->
  s_write fd (slice 0 n buffer) (world s1) = (rc, w) ->
  send_header junk fd r s = Ok (Through, set_state REQUEST_SEND_DATA (set_sent rc r1), on_world (fun _ => w) s1).
Proof.
  intros E En Hn Hs Hrc Ew. unfold send_header. rewrite E. cbn [mbind outcome_bind]. rewrite En. cbn [mbind outcome_bind].
  rewrite Hs, Z.sub_0_r, u32_small by lia. rewrite (proj2 (Z.ltb_lt 0 n)) by lia. rewrite Ew.
  by rewrite (proj2 (Z.eqb_neq rc (-1))) by lia.
Qed.

(** ** A server with one file *)

(** The socket refuses, or takes one byte, while [w_busy] lasts. *)
Record site := mkSite { w_out : list Z; w_in : list (list Z); w_open : gmap Z (list Z * Z); w_busy : nat }.

Definition page_path : list Z := text_bytes "/a".
Definition page : list Z := [104; 105].

(** A number above those of the open files. *)
Definition new_fd (m : gmap Z (list Z * Z)) : Z := map_fold (fun k _ r => Z.max k r) 0 m + 1.

Lemma new_fd_fresh m : 0 <= new_fd m /\ m !! new_fd m = None.
Proof.
  assert (Hf : 0 <= map_fold (fun k _ r => Z.max k r) 0 m /\
    forall k, is_Some (m !! k) -> k <= map_fold (fun k _ r => Z.max k r) 0 m).
  { apply (map_fold_weak_ind (fun r m => 0 <= r /\ forall k, is_Some (m !! k) -> k <= r)).
    - split; [lia|]. intros k [x Hx]. by rewrite lookup_empty in Hx.
    - intros j x m' r Hj [Hr IH]. split; [lia|]. intros k [y Hy]. destruct (decide (k = j)) as [->|Hne]; [lia|].
      rewrite lookup_insert_ne in Hy by done. specialize (IH k ltac:(by exists y)). lia. }
  destruct Hf as [H0 Hf]. unfold new_fd. split; [lia|]. apply eq_None_not_Some. intros Hs%Hf. lia.
Qed.

#[local] Instance site_system : System site := {
  s_open p w := if bool_decide (p = page_path)
                then (new_fd (w_open w), mkSite (w_out w) (w_in w) (<[new_fd (w_open w) := (page, 0)]> (w_open w)) (w_busy w))
                else (-1, w);
  s_fstat fd w := ((fun f : list Z * Z => (false, zlen f.1)) <$> w_open w !! fd, w);
  s_read _ _ w := match w_in w with
                  | p :: ps => (zlen p, p, mkSite (w_out w) ps (w_open w) (w_busy w))
                  | [] => (-1, [], w)
                  end;
  s_write _ x w := match w_busy w with
                   | S n => (-1, mkSite (w_out w) (w_in w) (w_open w) n)
                   | O => (zlen x, mkSite (w_out w ++ x) (w_in w) (w_open w) 0)
                   end;
  s_sendfile _ fd n w :=
    match w_open w !! fd with
    | Some (data, pos) =>
      let m := Z.min n (zlen data - pos) in
      match w_busy w with
      | S b => let k := Z.min 1 m in
               (k, Some (- EWOULDBLOCK), mkSite (w_out w ++ slice pos k data) (w_in w) (<[fd := (data, pos + k)]> (w_open w)) b)
      | O => (m, Some 0, mkSite (w_out w ++ slice pos m data) (w_in w) (<[fd := (data, pos + m)]> (w_open w)) 0)
      end
    | None => (u32 (-8), None, w)
    end;
  s_close fd w := mkSite (w_out w) (w_in w) (delete fd (w_open w)) (w_busy w);
  s_readdir _ w := (Some [], w);
  s_accept _ w := (-1, w);
  s_setup _ w := (true, w);
  s_listen _ _ w := w;
  s_add _ _ _ w := w;
  s_forget _ w := w;
  s_errno _ := EWOULDBLOCK
}.

#[local] Instance site_service : FileService (W := site) 3.
Proof.
  refine {| out := w_out; inbox := w_in; opened := w_open; refusals := w_busy;
            served := fun p => if bool_decide (p = page_path) then Some page else None |}.
  - intros w p data. case_bool_decide as E; [|done]. intros [= <-]. destruct (new_fd_fresh (w_open w)).
    eexists _, _. cbn. rewrite bool_decide_true by done. done.
  - intros w fd data pos E. cbn. by rewrite E.
  - intros w p ps E _. cbn. rewrite E. by eexists.
  - intros [o i f [|b]] x; eexists _, _; (split; [reflexivity|]); split_and!; try done; [by left|right]. cbn. split_and!; try done. lia.
  - intros [o i f [|b]] fd data pos E Hpos m; cbn in E |- *; rewrite E; eexists _, _, _; (split; [reflexivity|]); cbn; fold m.
    + split_and!; try done; [unfold m; lia|]. by left.
    + split_and!; try done; try (unfold m; lia). right. split_and!; try done. lia.
  - intros [] ?. done.
  - done.
Defined.

Definition stack_rest (n : Z) : list Z := replicate (Z.to_nat n) 0.

Definition visitor : http_request :=
  mkRequest 3 (sb_init_buffer (Block 1 (replicate (Z.to_nat 8192) 0)) 8192) sv_null REQUEST_GET_DATA (-1) false 0 0.

Definition page_request : list (list Z) := [text_bytes "GET /"; text_bytes "a HTTP/1.1" ++ CRLF; CRLF].

Definition site_with (pieces : list (list Z)) (busy : nat) : @server site Z :=
  mkServer (mkSite [] pieces ∅ busy) (sb_init_buffer (Block 2 []) 0) 4096.

Lemma httpd_serves_file_witness :
  exists n r' s', (n <= 5)%nat /\ calls stack_rest 3 1 n visitor (site_with page_request 2) = Ok (Some r', s') /\ idle 3 r' /\
    w_out (world s') = header 200 2 ++ page /\ w_open (world s') = ∅ /\ w_in (world s') = [].
Proof.
  destruct (httpd_serves_file stack_rest (fun n Hn => ltac:(unfold stack_rest, zlen; rewrite length_replicate; lia)) 3 1
    visitor (site_with page_request 2) page_request [] page_path page) as (n & r' & s' & Hn & E & Hrest).
  - split; [done|done|]. split; [split; vm_compute; done|done|done].
  - reflexivity.
  - apply (bool_decide_unpack _). vm_compute. exact I.
  - split; [|apply (bool_decide_unpack _); vm_compute; exact I|vm_compute; done|reflexivity].
    exists 32, (text_bytes "HTTP/1.1" ++ CRLF ++ CRLF). split; reflexivity.
  - exists (text_bytes "GET /a HTTP/1.1"). reflexivity.
  - intros a b E Ha Hb Hu%complete_iff. unfold page_request in E.
    destruct a as [|x [|y [|z [|? a]]]]; simplify_eq/=; (done || (vm_compute in Hu; done)).
  - vm_compute. done.
  - vm_compute. done.
  - exists n, r', s'. split; [exact Hn|]. split; [exact E|exact Hrest].
Defined.

(** A request for a file that does not exist, on a server without a page 404.html: the
    answer is sent and the state set back, then set to [REQUEST_SEND_DATA], and the file
    -1 is sent; [err] is read although nothing was stored in it. *)
Lemma missing_page_faults : calls stack_rest 3 1 1 visitor (site_with [text_bytes "GET /b HTTP/1.1" ++ CRLF ++ CRLF] 0) = Fault.
Proof. vm_compute. reflexivity. Qed.
End Httpd.
