(* ===== verification/Input.v ===== *)
(** kernel/drivers/keyboard.c and kernel/drivers/mouse.c: from the bytes of the PS/2
    controller to the events a program reads from /keyboard and /mouse.

    The interrupt handlers take the byte they read from the data port; the controller
    itself, which [install_mouse] talks to, is an interface.

    For the keyboard a device that decodes every key with the modifiers its history
    says are held, and queues the events, is implemented by the tables, flags and ring
    buffer of the code.  For the mouse a program that reads until nothing is left knows
    the position and has seen every change of the buttons. *)

From stdpp Require Import base numbers list gmap.
From Stdlib Require Import ZArith Lia.
From Stdlib Require String.
From S2P Require Import Prelude Alloc Bytes RingBuffer UnixSock.

Open Scope Z_scope.

Import String.StringSyntax.

Definition EAGAIN : Z := 6.

(** ** The keyboard *)

Module Keyboard.

Definition ascii_table : list Z :=
  text_bytes "e" ++ [27] ++ text_bytes "1234567890-=" ++ [8; 9] ++ text_bytes "qwertyuiop[]" ++ [10] ++
  text_bytes "Casdfghjkl;'`D\zxcvbnm,./UUU ".

Definition capital_ascii_table : list Z :=
  text_bytes "e" ++ [27] ++ text_bytes "!@#$%^&*()_+" ++ [8; 9] ++ text_bytes "QWERTYUIOP{}" ++ [10] ++
  text_bytes "CASDFGHJKL:" ++ [34] ++ text_bytes "~D|ZXCVBNM<>?UUU ".

(** The globals; the ring buffer is [kb_inode->internal_object]. *)
Record keyboard := mkKeyboard {
  kb_inode : option ringbuffer;
  is_shift_down : Z;
  is_alt_down : Z;
  is_ctrl_down : Z
}.

Definition set_shift (v : Z) (k : keyboard) : keyboard := mkKeyboard (kb_inode k) v (is_alt_down k) (is_ctrl_down k).
Definition set_alt (v : Z) (k : keyboard) : keyboard := mkKeyboard (kb_inode k) (is_shift_down k) v (is_ctrl_down k).
Definition set_ctrl (v : Z) (k : keyboard) : keyboard := mkKeyboard (kb_inode k) (is_shift_down k) (is_alt_down k) v.
Definition set_ring (rb : ringbuffer) (k : keyboard) : keyboard :=
  mkKeyboard (Some rb) (is_shift_down k) (is_alt_down k) (is_ctrl_down k).

Definition keyboard_to_ascii (key capital : Z) : outcome Z :=
  if zlen ascii_table <? Z.land key 255 then Ok 85
  else if negb (capital =? 0) then aread capital_ascii_table (Z.land key 255)
  else aread ascii_table (Z.land key 255).

Record KEY_EVENT := mkKey { key_c : Z; key_mode : Z; key_release : Z }.

(** The struct in memory. *)
Definition key_bytes (ev : KEY_EVENT) : list Z := [key_c ev; key_mode ev; key_release ev].

(** The two [switch] statements: a modifier changes its flag, and nothing else happens. *)
Definition modifier (code v : Z) (k : keyboard) : option keyboard :=
  if (code =? 0x2A) || (code =? 0x36) then Some (set_shift v k)
  else if code =? 0x38 then Some (set_alt v k)
  else if code =? 0x1D then Some (set_ctrl v k)
  else None.

Definition int_keyboard (c : Z) (k : keyboard) : outcome keyboard :=
  match kb_inode k with
  | None => Ok k
  | Some rb =>
    let released := c_int (is_set c 0x80) in
    let code := Z.land (Z.ldiff c 0x80) 255 in
    match modifier code (1 - released) k with
    | Some k => Ok k
    | None =>
      a ← keyboard_to_ascii code (is_shift_down k);
      let mode := Z.lor (Z.lor (Z.shiftl (is_shift_down k) 0) (Z.shiftl (is_alt_down k) 1))
                    (Z.shiftl (is_ctrl_down k) 2) in
      let ev := mkKey a (u8 mode) released in
      '(rb, _) ← ringbuffer_write rb (key_bytes ev) 3;
      Ok (set_ring rb k)
    end
  end.

Definition keyboard_has_data (k : keyboard) : outcome bool :=
  rb ← deref (kb_inode k); Ok (negb (ringbuffer_isempty rb)).

(** The result and the bytes stored in the buffer. *)
Definition keyboard_read (len : Z) (k : keyboard) : outcome (Z * list Z * keyboard) :=
  rb ← deref (kb_inode k);
  '(rb, out, rc) ← ringbuffer_read rb true (u32 len);
  let k := set_ring rb k in
  let out := default [] out in
  if (rc =? 0) && (0 <? len) then Ok (- EAGAIN, out, k) else Ok (i32 rc, out, k).

Section Setup.
Context {H : Type} `{Allocator H}.

(** [inode] is the inode the device file gets. *)
Definition add_keyboard (inode : Z) (d : Devfs.devfs) (k : keyboard) (h : H)
  : outcome (Devfs.devfs * keyboard * H) :=
  d ← Devfs.devfs_add_file (text_bytes "/keyboard") inode d;
  match alloc_bytes 16 h with
  | (None, _) => Fault
  | (Some _, h) =>
    let '(rb, _, h) := ringbuffer_init 128 h in
    Ok (d, set_ring rb k, h)
  end.
End Setup.

(** *** What the device promises *)

(** A modifier is held when its last key in the history, newest first, was pressed. *)
Fixpoint held (codes history : list Z) : bool :=
  match history with
  | [] => false
  | c :: history => if decide (Z.land c 127 ∈ codes) then c <? 128 else held codes history
  end.

Definition shift_codes : list Z := [0x2A; 0x36].
Definition alt_codes : list Z := [0x38].
Definition ctrl_codes : list Z := [0x1D].

Definition is_modifier (c : Z) : bool :=
  bool_decide (Z.land c 127 ∈ shift_codes ++ alt_codes ++ ctrl_codes).

(** The layout: scan codes of the first set, each row with its first code and its
    characters without and with shift. *)
Definition layout : list (Z * (list Z * list Z)) :=
  [(0x01, ([27], [27]));
   (0x02, (text_bytes "1234567890-=", text_bytes "!@#$%^&*()_+"));
   (0x0E, ([8; 9], [8; 9]));
   (0x10, (text_bytes "qwertyuiop[]", text_bytes "QWERTYUIOP{}"));
   (0x1C, ([10], [10]));
   (0x1E, (text_bytes "asdfghjkl;'`", text_bytes "ASDFGHJKL:" ++ [34] ++ text_bytes "~"));
   (0x2B, (text_bytes "\zxcvbnm,./", text_bytes "|ZXCVBNM<>?"));
   (0x39, ([32], [32]))].

(** The character of a key: an e for the error code 0, a U for keys of no row. *)
Definition key_char (c : Z) (shift : bool) : Z :=
  let code := Z.land c 127 in
  let row '(first, (plain, shifted)) := znth (if shift then shifted else plain) (code - first) in
  if code =? 0 then 101 else from_option id 85 (head (omap row layout)).

(** What is queued for a byte of the controller. *)
Definition decoded (c : Z) (history : list Z) : list Z :=
  if is_modifier c then []
  else [key_char c (held shift_codes history);
        c_int (held shift_codes history) + 2 * c_int (held alt_codes history) + 4 * c_int (held ctrl_codes history);
        c_int (128 <=? c)].

Inductive step := Key (c : Z) | Read (len : Z).

(** The device as a queue: results of the reads. *)
Fixpoint device (steps : list step) (history queue : list Z) : list (Z * list Z) :=
  match steps with
  | [] => []
  | Key c :: steps => device steps (c :: history) (queue ++ decoded c history)
  | Read len :: steps =>
    let n := Z.min len (zlen queue) in
    (if (n =? 0) && (0 <? len) then - EAGAIN else n, ztake n queue) :: device steps history (zdrop n queue)
  end.

Fixpoint run (steps : list step) (k : keyboard) : outcome (list (Z * list Z) * keyboard) :=
  match steps with
  | [] => Ok ([], k)
  | Key c :: steps => k ← int_keyboard c k; run steps k
  | Read len :: steps =>
    '(rc, out, k) ← keyboard_read len k;
    '(rs, k) ← run steps k;
    Ok ((rc, out) :: rs, k)
  end.

(** The bytes are bytes, none is that of the caps lock key, the program reads as much as
    fits in memory, and often enough that every event finds room for its three bytes. *)
Fixpoint keeps_up (steps : list step) (pending : Z) : bool :=
  match steps with
  | [] => true
  | Key c :: steps =>
    (0 <=? c) && (c <? 256) && negb (Z.land c 127 =? 58) && (pending + 3 <=? 127) && keeps_up steps (pending + 3)
  | Read len :: steps => (0 <=? len) && (len <? 2 ^ 31) && keeps_up steps (pending - Z.min len pending)
  end.

(** The flags and the buffer are those the history gives. *)
Record represents (history queue : list Z) (k : keyboard) : Prop := {
  rep_ring : exists rb, kb_inode k = Some rb /\ rb_inv rb /\ rb_contents rb = queue /\ ringbuffer_capacity rb = 127;
  rep_shift : is_shift_down k = c_int (held shift_codes history);
  rep_alt : is_alt_down k = c_int (held alt_codes history);
  rep_ctrl : is_ctrl_down k = c_int (held ctrl_codes history)
}.

(** A decidable property of bytes is checked on all of them. *)
Lemma byte_check (P : Z -> Prop) `{forall c, Decision (P c)} :
  forallb (fun c => bool_decide (P c)) (Z.of_nat <$> seq 0 256) = true -> forall c, 0 <= c < 256 -> P c.
Proof.
  intros HP c Hc. rewrite forallb_forall in HP. apply (bool_decide_unpack _), Is_true_true, HP.
  apply list_elem_of_In, list_elem_of_fmap. exists (Z.to_nat c). split; [lia|]. apply elem_of_seq. lia.
Qed.

(** What the handler computes from the byte alone. *)
Lemma code_facts c :
  0 <= c < 256 ->
  Z.land (Z.ldiff c 0x80) 255 = Z.land c 127 /\ is_set c 0x80 = (128 <=? c) /\
  1 - c_int (128 <=? c) = c_int (c <? 128).
Proof. revert c. refine (byte_check _ _). vm_compute. reflexivity. Qed.

Lemma keyboard_to_ascii_char c :
  0 <= c < 256 -> Z.land c 127 <> 58 -> is_modifier c = false -> forall shift : bool,
  keyboard_to_ascii (Z.land c 127) (c_int shift) = Ok (key_char c shift).
Proof.
  intros Hc H58 Hm shift. set (same (o : outcome Z) x := match o with Ok y => y =? x | _ => false end).
  assert (Hs : forall o x, same o x = true -> o = Ok x) by (by intros [y| | |] x; [intros ->%Z.eqb_eq|..]).
  apply Hs. revert c Hc H58 Hm. enough (G : forall c, 0 <= c < 256 ->
    (Z.land c 127 =? 58) || is_modifier c || same (keyboard_to_ascii (Z.land c 127) (c_int shift)) (key_char c shift) = true).
  { intros c Hc H58 Hm. specialize (G c Hc). by rewrite (proj2 (Z.eqb_neq _ _) H58), Hm in G. }
  refine (byte_check _ _). destruct shift; vm_compute; reflexivity.
Qed.

Lemma modifier_spec c k :
  0 <= c < 256 ->
  modifier (Z.land c 127) (c_int (c <? 128)) k =
    if is_modifier c then
      Some (mkKeyboard (kb_inode k)
        (if decide (Z.land c 127 ∈ shift_codes) then c_int (c <? 128) else is_shift_down k)
        (if decide (Z.land c 127 ∈ alt_codes) then c_int (c <? 128) else is_alt_down k)
        (if decide (Z.land c 127 ∈ ctrl_codes) then c_int (c <? 128) else is_ctrl_down k))
    else None.
Proof.
  intros _. unfold modifier, is_modifier. set (n := Z.land c 127).
  destruct (Z.eqb_spec n 0x2A) as [->|]; [done|]. destruct (Z.eqb_spec n 0x36) as [->|]; [done|].
  destruct (Z.eqb_spec n 0x38) as [->|]; [done|]. destruct (Z.eqb_spec n 0x1D) as [->|]; [done|].
  cbn [orb]. rewrite bool_decide_false; [done|].
  unfold shift_codes, alt_codes, ctrl_codes. cbn [app]. rewrite !elem_of_cons, elem_of_nil. tauto.
Qed.

(** Other keys do not change what is held. *)
Lemma not_modifier c history :
  is_modifier c = false ->
  held shift_codes (c :: history) = held shift_codes history /\
  held alt_codes (c :: history) = held alt_codes history /\
  held ctrl_codes (c :: history) = held ctrl_codes history.
Proof.
  intros Hm%bool_decide_eq_false. rewrite !elem_of_app in Hm. cbn [held].
  rewrite !decide_False by tauto. done.
Qed.

Lemma int_keyboard_spec c history queue k :
  0 <= c < 256 -> Z.land c 127 <> 58 -> zlen queue + 3 <= 127 -> represents history queue k ->
  exists k', int_keyboard c k = Ok k' /\ represents (c :: history) (queue ++ decoded c history) k'.
Proof.
  intros Hc H58 Hroom [(rb & Hk & Hi & <- & Hcap) Hs Ha Hct].
  destruct (code_facts c Hc) as (Hcode & Hrel & Hv).
  unfold int_keyboard. rewrite Hk, Hcode, Hrel, Hv, modifier_spec by done.
  unfold decoded. destruct (is_modifier c) eqn:Em.
  - eexists. split; [done|]. rewrite app_nil_r.
    split; cbn [kb_inode is_shift_down is_alt_down is_ctrl_down held]; [by eauto| | |].
    all: by destruct (decide _).
  - rewrite Hs, (keyboard_to_ascii_char c Hc H58 Em). cbn [mbind outcome_bind].
    set (ev := mkKey _ _ _). change 3 with (zlen (key_bytes ev)).
    destruct (rb_enqueue rb (key_bytes ev) Hi) as (rb' & -> & Hi' & Hq & Hcap'); [rewrite Hcap; done|].
    eexists. split; [done|]. split; cbn [set_ring kb_inode is_shift_down is_alt_down is_ctrl_down].
    + exists rb'. split_and!; [done|done| |congruence]. rewrite Hq. f_equal. subst ev. unfold key_bytes.
      cbn [key_c key_mode key_release]. rewrite Ha, Hct.
      by destruct (held shift_codes history), (held alt_codes history), (held ctrl_codes history).
    + rewrite Hs. by destruct (not_modifier c history Em) as (-> & _ & _).
    + rewrite Ha. by destruct (not_modifier c history Em) as (_ & -> & _).
    + rewrite Hct. by destruct (not_modifier c history Em) as (_ & _ & ->).
Qed.

Lemma keyboard_read_spec len history queue k :
  0 <= len < 2 ^ 31 -> represents history queue k ->
  let n := Z.min len (zlen queue) in
  exists k', keyboard_read len k = Ok (if (n =? 0) && (0 <? len) then - EAGAIN else n, ztake n queue, k') /\
    represents history (zdrop n queue) k'.
Proof.
  intros Hlen [(rb & Hk & Hi & <- & Hcap) Hs Ha Hct] n. destruct (rb_room_contents _ Hi) as (_ & Hused & _).
  unfold keyboard_read. rewrite Hk, u32_small by lia. cbn [deref mbind outcome_bind].
  destruct (rb_read_spec rb true len Hi) as (rb' & -> & Hi' & Hc & Hcap'); [lia|]. rewrite Hused in *. fold n in Hc |- *.
  exists (set_ring rb' k). split.
  - cbn [mbind outcome_bind default]. rewrite i32_small by (subst n; zlia). by case_match.
  - split; [|done..]. exists rb'. split_and!; [done|done|done|congruence].
Qed.

Lemma run_device steps pending history queue k :
  keeps_up steps pending = true -> zlen queue <= pending -> represents history queue k ->
  exists k', run steps k = Ok (device steps history queue, k').
Proof.
  revert pending history queue k. induction steps as [|[c|len] steps IH]; intros pending history queue k Hup Hq Hrep;
    cbn [keeps_up run device] in *; [by exists k| |]; breflect.
  - destruct (int_keyboard_spec c history queue k) as (k1 & -> & Hrep1); [lia|done|lia|done|].
    cbn [mbind outcome_bind]. eapply IH; [done| |done].
    unfold decoded. case_match; zlia.
  - destruct (keyboard_read_spec len history queue k) as (k1 & -> & Hrep1); [lia|done|].
    cbn [mbind outcome_bind].
    destruct (IH (pending - Z.min len pending) history (zdrop (Z.min len (zlen queue)) queue) k1)
      as [k' ->]; [assumption|zlia|assumption|]. by exists k'.
Qed.

(** What [add_keyboard] leaves when there is memory for the buffer. *)
Lemma add_keyboard_represents {H} `{AllocatorBytes H} inode d h d' k' (h' : H) :
  add_keyboard inode d (mkKeyboard None 0 0 0) h = Ok (d', k', h') ->
  (rb_buffer <$> kb_inode k') <> Some None -> represents [] [] k'.
Proof.
  unfold add_keyboard, Devfs.devfs_add_file. destruct (_ <? _); [|done]. cbn [mbind outcome_bind].
  destruct (alloc_bytes 16 h) as [[b|] h1]; [|done]. unfold ringbuffer_init.
  destruct (alloc_bytes 128 h1) as [[b1|] h2] eqn:E; intros [= <- <- <-] Hb; [|done].
  split; [|done..]. eexists. split_and!; [done| |done|done]. split; cbn; [lia| |lia|lia].
  unfold alloc_bytes in E. destruct (kmalloc 128 h1) as [[p|] ?]; simplify_eq. cbn. by apply kbytes_len.
Qed.


Definition new_keyboard : keyboard :=
  mkKeyboard (Some (mkRingbuffer (Some (Block 17 (replicate 128 0))) 128 0 0)) 0 0 0.

(** Shift, h, released keys, ctrl and c: two reads, the second of a part of an event. *)
Definition typing : list step :=
  [Read 3; Key 0x2A; Key 0x23; Read 3; Key 0xA3; Key 0xAA; Key 0x1D; Key 0x2E; Read 5; Read 9].


(** The table has 58 entries and entry 58 is read for the caps lock key. *)
Lemma caps_lock_overruns : keyboard_to_ascii 58 0 = Fault.
Proof. reflexivity. Qed.

(** When nothing is read, the event that does not fit is cut after its first byte, and the
    bytes of all later events are read at the wrong place: after 43 times b, a is read as
    another b with 97 as its modifiers. *)
Definition full_then_a : list step :=
  replicate 43 (Key 0x30) ++ [Read 126; Key 0x1E; Read 4].

Lemma full_buffer_splits_event :
  exists r k, run full_then_a new_keyboard = Ok ([r; (4, [98; 97; 0; 0])], k).
Proof. do 2 eexists. vm_compute. reflexivity. Qed.

(** The two shift keys share one flag: when one is released while the other is held, a is
    not a capital letter. *)
Lemma shift_released_early :
  device [Key 0x2A; Key 0x36; Key 0xB6; Key 0x1E; Read 3] [] [] = [(3, [97; 0; 0])].
Proof. reflexivity. Qed.

End Keyboard.

(** ** The mouse *)

Module Mouse.

Record mouse_event := mkEvent { buttons : Z; ev_x : Z; ev_y : Z }.

(** The globals; the ring buffer is [mouse_inode->internal_object]. *)
Record mouse := mkMouse {
  mouse_cycle : Z;
  mouse_u8 : Z * Z * Z;
  mouse_x : Z;
  mouse_y : Z;
  mouse_left_button : Z;
  mouse_middle_button : Z;
  mouse_right_button : Z;
  mouse_inode : option ringbuffer;
  previous_event : mouse_event
}.

Definition set_packet (cycle : Z) (p : Z * Z * Z) (m : mouse) : mouse :=
  mkMouse cycle p (mouse_x m) (mouse_y m) (mouse_left_button m) (mouse_middle_button m) (mouse_right_button m)
    (mouse_inode m) (previous_event m).
Definition set_position (x y : Z) (m : mouse) : mouse :=
  mkMouse (mouse_cycle m) (mouse_u8 m) x y (mouse_left_button m) (mouse_middle_button m) (mouse_right_button m)
    (mouse_inode m) (previous_event m).
Definition set_inode (i : option ringbuffer) (m : mouse) : mouse :=
  mkMouse (mouse_cycle m) (mouse_u8 m) (mouse_x m) (mouse_y m) (mouse_left_button m) (mouse_middle_button m)
    (mouse_right_button m) i (previous_event m).
Definition set_previous (e : mouse_event) (m : mouse) : mouse :=
  mkMouse (mouse_cycle m) (mouse_u8 m) (mouse_x m) (mouse_y m) (mouse_left_button m) (mouse_middle_button m)
    (mouse_right_button m) (mouse_inode m) e.

(** The three assignments from [mouse_u8[0]]. *)
Definition read_buttons (m : mouse) : mouse :=
  let b := (mouse_u8 m).1.1 in
  mkMouse (mouse_cycle m) (mouse_u8 m) (mouse_x m) (mouse_y m) (Z.land b 1) (Z.land b 4) (Z.land b 2)
    (mouse_inode m) (previous_event m).

(** The struct in memory; [pad] is what is in its padding, which is never written. *)
Definition event_bytes (pad : list Z) (e : mouse_event) : list Z :=
  [buttons e] ++ pad ++ le32_bytes (u32 (ev_x e)) ++ le32_bytes (u32 (ev_y e)).

(** A sum of type [int]. *)
Definition int_sum (x : Z) : outcome Z := if (- 2 ^ 31 <=? x) && (x <? 2 ^ 31) then Ok x else Fault.

Definition moved (m : mouse) : bool :=
  negb (mouse_x m =? ev_x (previous_event m)) || negb (mouse_y m =? ev_y (previous_event m)).

Definition fs_mouse_has_data (m : mouse) : outcome bool :=
  if moved m then Ok true else rb ← deref (mouse_inode m); Ok (negb (ringbuffer_isempty rb)).

(** The result and the bytes stored in the buffer. *)
Definition fs_mouse_read (pad : list Z) (len : Z) (m : mouse) : outcome (Z * list Z * mouse) :=
  let m := read_buttons m in
  rb ← deref (mouse_inode m);
  '(rb, out, rc) ← ringbuffer_read rb true (u32 len);
  let m := set_inode (Some rb) m in
  let out := default [] out in
  if (rc =? 0) && (0 <? len) then
    if moved m then
      let read_len := Z.min len 12 in
      let b := 0 in
      let b := if negb (mouse_middle_button m =? 0) then Z.lor b 4 else b in
      let b := if negb (mouse_right_button m =? 0) then Z.lor b 2 else b in
      let b := if negb (mouse_left_button m =? 0) then Z.lor b 1 else b in
      let e := mkEvent b (mouse_x m) (mouse_y m) in
      Ok (read_len, ztake read_len (event_bytes pad e), set_previous e m)
    else Ok (- EAGAIN, out, m)
  else Ok (i32 rc, out, m).

(** The third byte of a packet. *)
Definition end_packet (pad : list Z) (m : mouse) : outcome mouse :=
  let '(b0, x, y) := mouse_u8 m in
  let x := if is_set b0 16 then sext 16 (Z.lor x 0xFF00) else x in
  let y := if is_set b0 32 then sext 16 (Z.lor y 0xFF00) else y in
  mx ← int_sum (mouse_x m + x);
  my ← int_sum (mouse_y m - y);
  let m := set_position (if mx <? 0 then 0 else mx) (if my <? 0 then 0 else my) m in
  let m := read_buttons m in
  let m := set_packet 0 (mouse_u8 m) m in
  let before := buttons (previous_event m) in
  let button_change :=
    if negb (mouse_middle_button m =? Z.land before 4) then true
    else if negb (mouse_right_button m =? Z.land before 2) then true
    else negb (mouse_left_button m =? Z.land before 1) in
  if negb button_change then Ok m else
  let e := mkEvent b0 (mouse_x m) (mouse_y m) in
  let m := set_previous e m in
  match mouse_inode m with
  | None => Ok m
  | Some rb => '(rb, _) ← ringbuffer_write rb (event_bytes pad e) 12; Ok (set_inode (Some rb) m)
  end.

(** [b] is the byte of the data port. *)
Definition int_mouse (pad : list Z) (b : Z) (m : mouse) : outcome mouse :=
  let '(b0, b1, b2) := mouse_u8 m in
  if mouse_cycle m =? 0 then
    if negb (is_set b 8) then Ok (set_packet 0 (b, b1, b2) m)
    else Ok (set_packet (u8 (mouse_cycle m + 1)) (b, b1, b2) m)
  else if mouse_cycle m =? 1 then Ok (set_packet (u8 (mouse_cycle m + 1)) (b0, b, b2) m)
  else if mouse_cycle m =? 2 then end_packet pad (set_packet (mouse_cycle m) (b0, b1, b) m)
  else Ok m.

Section Setup.
Context {H : Type} `{Allocator H}.

Definition add_mouse (inode : Z) (d : Devfs.devfs) (m : mouse) (h : H) : outcome (Devfs.devfs * mouse * H) :=
  d ← Devfs.devfs_add_file (text_bytes "/mouse") inode d;
  match alloc_bytes 16 h with
  | (None, _) => Fault
  | (Some _, h) =>
    let '(rb, _, h) := ringbuffer_init 4096 h in
    Ok (d, set_inode (Some rb) m, h)
  end.
End Setup.

(** *** Setting up the controller *)

(** Ports, and the other devices [install_mouse] sets up. *)
Class Controller (W : Type) : Type := {
  inb : Z -> W -> Z * W;
  outb : Z -> Z -> W -> W;
  disable_interrupts : W -> W;
  install_handler : Z -> W -> W;
  irq_clear_mask : Z -> W -> W
}.

Section Install.
Context {W : Type} `{Controller W}.

(** [while (_time_out--)] *)
Fixpoint mouse_wait_loop (time_out : nat) (ready : Z -> bool) (w : W) : W :=
  match time_out with
  | O => w
  | S time_out => let '(v, w) := inb 0x64 w in if ready v then w else mouse_wait_loop time_out ready w
  end.

Definition mouse_wait (a_type : Z) (w : W) : W :=
  mouse_wait_loop (Z.to_nat 100000)
    (if a_type =? 0 then fun v => Z.land v 1 =? 1 else fun v => Z.land v 2 =? 0) w.

Definition mouse_write (a_write : Z) (w : W) : W :=
  let w := outb 0x64 0xD4 (mouse_wait 1 w) in
  outb 0x60 a_write (mouse_wait 1 w).

Definition mouse_read (w : W) : Z * W := inb 0x60 (mouse_wait 0 w).

Definition install_mouse (w : W) : W :=
  let w := disable_interrupts w in
  let w := outb 0x64 0xA8 (mouse_wait 1 w) in
  let w := outb 0x64 0x20 (mouse_wait 1 w) in
  let '(v, w) := inb 0x60 (mouse_wait 0 w) in
  let status := Z.lor v 2 in
  let w := outb 0x64 0x60 (mouse_wait 1 w) in
  let w := outb 0x60 status (mouse_wait 1 w) in
  let w := snd (mouse_read (mouse_write 0xF6 w)) in
  let w := snd (mouse_read (mouse_write 0xF4 w)) in
  irq_clear_mask 0x2 (install_handler 0x2C w).
End Install.

(** *** What a reader knows *)

(** The three bytes the mouse sends, and a read of one event. *)
Inductive step := Packet (p : Z * Z * Z) | Read.

Definition good_packet (p : Z * Z * Z) : bool :=
  let '(b0, b1, b2) := p in
  (0 <=? b0) && (b0 <? 256) && is_set b0 8 && (0 <=? b1) && (b1 <? 256) && (0 <=? b2) && (b2 <? 256).

Definition packet (pad : list Z) (p : Z * Z * Z) (m : mouse) : outcome mouse :=
  m ← int_mouse pad p.1.1 m; m ← int_mouse pad p.1.2 m; int_mouse pad p.2 m.

Fixpoint run (pad : list Z) (steps : list step) (m : mouse) : outcome (list (Z * list Z) * mouse) :=
  match steps with
  | [] => Ok ([], m)
  | Packet p :: steps => m ← packet pad p m; run pad steps m
  | Read :: steps =>
    '(rc, out, m) ← fs_mouse_read pad 12 m;
    '(rs, m) ← run pad steps m;
    Ok ((rc, out) :: rs, m)
  end.

Definition packets (steps : list step) : list (Z * Z * Z) :=
  omap (fun s => match s with Packet p => Some p | Read => None end) steps.

(** The result of a read of an event, or of none. *)
Definition result (pad : list Z) (e : option mouse_event) : Z * list Z :=
  match e with Some e => (12, event_bytes pad e) | None => (- EAGAIN, []) end.

(** A coordinate of nine bits, two's complement. *)
Definition displacement (sign : bool) (v : Z) : Z := if sign then v - 256 else v.

(** The pointer stops at the upper and the left edge; y grows downwards. *)
Definition move (pos : Z * Z) (p : Z * Z * Z) : Z * Z :=
  let '(b0, b1, b2) := p in
  (Z.max 0 (pos.1 + displacement (is_set b0 16) b1), Z.max 0 (pos.2 - displacement (is_set b0 32) b2)).

Definition position (ps : list (Z * Z * Z)) : Z * Z := foldl move (0, 0) ps.

(** The values a sequence takes one after the other, the first if it is not [b]. *)
Fixpoint changes (b : Z) (l : list Z) : list Z :=
  match l with
  | [] => []
  | x :: l => if x =? b then changes b l else x :: changes x l
  end.

Definition pressed (e : mouse_event) : Z := Z.land (buttons e) 7.
Definition packet_pressed (p : Z * Z * Z) : Z := Z.land p.1.1 7.

(** The program reads often enough: at most 341 events fit. *)
Fixpoint keeps_up (steps : list step) (pending : Z) : bool :=
  match steps with
  | [] => true
  | Packet p :: steps => good_packet p && (pending + 1 <=? 341) && keeps_up steps (pending + 1)
  | Read :: steps => keeps_up steps (Z.max 0 (pending - 1))
  end.

Definition origin : mouse_event := mkEvent 0 0 0.

(** [seen] has been read, [queue] is queued, [ps] are the packets so far. *)
Record tracks (pad : list Z) (seen queue : list mouse_event) (ps : list (Z * Z * Z)) (m : mouse) : Prop := {
  tr_cycle : mouse_cycle m = 0;
  tr_ring : exists rb, mouse_inode m = Some rb /\ rb_inv rb /\ ringbuffer_capacity rb = 4095 /\
    rb_contents rb = concat (event_bytes pad <$> queue);
  tr_position : (mouse_x m, mouse_y m) = position ps;
  tr_previous : previous_event m = List.last (seen ++ queue) origin;
  tr_changes : changes 0 (pressed <$> seen ++ queue) = changes 0 (packet_pressed <$> ps);
  tr_pressed : Z.land (mouse_u8 m).1.1 7 = List.last (packet_pressed <$> ps) 0;
  tr_current : List.last (packet_pressed <$> ps) 0 = List.last (pressed <$> seen ++ queue) 0
}.

Lemma last_cons {A} (l : list A) y d : List.last (y :: l) d = List.last l y.
Proof.
  revert y d. induction l as [|z l IH]; intros y d; [done|].
  transitivity (List.last (z :: l) d); [done|]. by rewrite !IH.
Qed.

Lemma last_snoc {A} (l : list A) x d : List.last (l ++ [x]) d = x.
Proof. apply List.last_last. Qed.

Lemma fmap_snoc {A B} (f : A -> B) l x : f <$> l ++ [x] = (f <$> l) ++ [f x].
Proof. by rewrite fmap_app. Qed.

Lemma changes_snoc b l x :
  changes b (l ++ [x]) = changes b l ++ (if x =? List.last l b then [] else [x]).
Proof.
  revert b. induction l as [|y l IH]; intros b; cbn [app changes]; [by cbn; case_match|].
  rewrite last_cons. destruct (Z.eqb_spec y b) as [->|]; rewrite IH; [|done]. done.
Qed.

Lemma event_bytes_length pad e : zlen pad = 3 -> zlen (event_bytes pad e) = 12.
Proof. intros Hp. unfold event_bytes, le32_bytes. zlia. Qed.

Lemma position_snoc ps p : position (ps ++ [p]) = move (position ps) p.
Proof. unfold position. by rewrite foldl_app. Qed.

(** Eight million packets cannot overflow a coordinate. *)
Lemma position_bounds ps :
  Forall (fun p => good_packet p = true) ps ->
  0 <= (position ps).1 <= 256 * zlen ps /\ 0 <= (position ps).2 <= 256 * zlen ps.
Proof.
  induction ps as [|p ps IH] using rev_ind; [done|]. intros [Hps [Hp _]%Forall_cons]%Forall_app.
  specialize (IH Hps). rewrite position_snoc. destruct p as [[b0 b1] b2], (position ps) as [x y].
  unfold good_packet in Hp. cbn [move fst snd] in *. breflect. unfold displacement.
  assert (zlen (ps ++ [(b0, b1, b2)]) = zlen ps + 1) by zlia.
  destruct (is_set b0 16), (is_set b0 32); lia.
Qed.

Lemma land_7 x : Z.land x 7 = Z.lor (Z.lor (Z.land x 4) (Z.land x 2)) (Z.land x 1).
Proof. rewrite <- !Z.land_lor_distr_r. done. Qed.

(** The comparison of the three buttons. *)
Lemma button_change_spec b before :
  (if negb (Z.land b 4 =? Z.land before 4) then true
   else if negb (Z.land b 2 =? Z.land before 2) then true
   else negb (Z.land b 1 =? Z.land before 1)) = negb (Z.land b 7 =? Z.land before 7).
Proof.
  assert (Hbits : forall n, Z.land n 7 = n -> Z.land b 7 = Z.land before 7 -> Z.land b n = Z.land before n).
  { intros n <- E. by rewrite !(Z.land_comm n 7), !Z.land_assoc, E. }
  destruct (Z.eqb_spec (Z.land b 7) (Z.land before 7)) as [E|E].
  - rewrite !(Hbits _ eq_refl E), !Z.eqb_refl. done.
  - rewrite !land_7 in E.
    destruct (Z.eqb_spec (Z.land b 4) (Z.land before 4)) as [E4|]; [|done].
    destruct (Z.eqb_spec (Z.land b 2) (Z.land before 2)) as [E2|]; [|done].
    destruct (Z.eqb_spec (Z.land b 1) (Z.land before 1)) as [E1|]; [|done].
    cbn [negb]. rewrite E4, E2, E1 in E. done.
Qed.

(** The byte a read reports has the buttons of the last packet. *)
Lemma reported_buttons b0 :
  let b := if negb (Z.land b0 4 =? 0) then Z.lor 0 4 else 0 in
  let b := if negb (Z.land b0 2 =? 0) then Z.lor b 2 else b in
  let b := if negb (Z.land b0 1 =? 0) then Z.lor b 1 else b in
  Z.land b 7 = Z.land b0 7.
Proof.
  rewrite (land_7 b0).
  assert (Hn : forall n, 0 <= n -> Z.land b0 (2 ^ n) = if Z.testbit b0 n then 2 ^ n else 0).
  { intros n Hn. apply Z.bits_inj'. intros i Hi. rewrite Z.land_spec, Z.pow2_bits_eqb by done.
    destruct (Z.eqb_spec n i) as [->|].
    - destruct (Z.testbit b0 i); [by rewrite Z.pow2_bits_true|by rewrite Z.bits_0].
    - rewrite andb_false_r. destruct (Z.testbit b0 n); [|by rewrite Z.bits_0]. by rewrite Z.pow2_bits_false. }
  pose proof (Hn 2 ltac:(lia)) as H4. pose proof (Hn 1 ltac:(lia)) as H2. pose proof (Hn 0 ltac:(lia)) as H1.
  change (2 ^ 2) with 4 in H4. change (2 ^ 1) with 2 in H2. change (2 ^ 0) with 1 in H1. rewrite H4, H2, H1.
  by destruct (Z.testbit b0 2), (Z.testbit b0 1), (Z.testbit b0 0).
Qed.

Lemma sign_extended v : 0 <= v < 256 -> sext 16 (Z.lor v 0xFF00) = v - 256.
Proof.
  intros Hv. change 0xFF00 with (255 * 2 ^ 8). rewrite lor_disjoint_add; [|lia|done].
  unfold sext, wrap. rewrite Z.mod_small by lia. case_match; breflect; lia.
Qed.

Section Tracking.
Context (pad : list Z) (Hpad : zlen pad = 3).

Lemma queue_length q : zlen (concat (event_bytes pad <$> q)) = 12 * zlen q.
Proof.
  induction q as [|e q IH]; [done|]. cbn [fmap list_fmap concat].
  pose proof (event_bytes_length pad e Hpad). zlia.
Qed.

Lemma packet_end p m :
  mouse_cycle m = 0 -> good_packet p = true -> packet pad p m = end_packet pad (set_packet 2 p m).
Proof.
  intros Hcy Hg. destruct p as [[b0 b1] b2], (mouse_u8 m) as [[o0 o1] o2] eqn:Eu. unfold good_packet in Hg. breflect.
  unfold packet, int_mouse. rewrite Eu, Hcy. cbn [fst snd].
  match goal with E : is_set b0 8 = true |- _ => rewrite E end. done.
Qed.

(** The mouse after a packet, before an event is written. *)
Definition after_packet (p : Z * Z * Z) (pos : Z * Z) (m : mouse) : mouse :=
  mkMouse 0 p pos.1 pos.2 (Z.land p.1.1 1) (Z.land p.1.1 4) (Z.land p.1.1 2) (mouse_inode m) (previous_event m).

Lemma end_packet_moves p m pos :
  good_packet p = true -> pos = move (mouse_x m, mouse_y m) p ->
  0 <= mouse_x m < 2 ^ 31 - 256 -> 0 <= mouse_y m < 2 ^ 31 - 256 ->
  end_packet pad (set_packet 2 p m) =
    let m1 := after_packet p pos m in
    if Z.land p.1.1 7 =? Z.land (buttons (previous_event m)) 7 then Ok m1 else
    let e := mkEvent p.1.1 pos.1 pos.2 in
    match mouse_inode m with
    | None => Ok (set_previous e m1)
    | Some rb => '(rb, _) ← ringbuffer_write rb (event_bytes pad e) 12; Ok (set_inode (Some rb) (set_previous e m1))
    end.
Proof.
  destruct p as [[b0 b1] b2]. intros Hg -> Hx Hy. unfold good_packet in Hg. breflect.
  unfold end_packet. cbn [set_packet mouse_u8 mouse_x mouse_y fst snd].
  rewrite !sign_extended by lia. fold (displacement (is_set b0 16) b1) (displacement (is_set b0 32) b2).
  assert (Hd : - 256 <= displacement (is_set b0 16) b1 < 256 /\ - 256 <= displacement (is_set b0 32) b2 < 256).
  { unfold displacement. destruct (is_set b0 16), (is_set b0 32); lia. }
  set (dx := displacement _ b1) in *. set (dy := displacement _ b2) in *.
  unfold int_sum. do 2 (rewrite (proj2 (andb_true_iff _ _)) by (split; [apply Z.leb_le|apply Z.ltb_lt]; lia); cbn [mbind outcome_bind]).
  assert (Hmax : forall v, (if v <? 0 then 0 else v) = Z.max 0 v) by (intros v; destruct (Z.ltb_spec v 0); lia).
  rewrite !Hmax. cbn [set_position read_buttons set_packet mouse_middle_button mouse_right_button mouse_left_button
    previous_event mouse_u8 mouse_inode mouse_x mouse_y fst snd]. cbv zeta.
  rewrite button_change_spec, negb_involutive. cbn [move fst snd]. fold dx dy. done.
Qed.

Lemma packet_spec seen queue ps p m :
  tracks pad seen queue ps m -> good_packet p = true -> zlen queue + 1 <= 341 ->
  Forall (fun p => good_packet p = true) ps -> zlen ps + 1 < 2 ^ 23 ->
  exists queue' m', packet pad p m = Ok m' /\ tracks pad seen queue' (ps ++ [p]) m' /\ zlen queue' <= zlen queue + 1.
Proof.
  intros [Hcy (rb & Hin & Hi & Hcap & Hq) Hpos Hprev Hch Hpr Hcur] Hg Hroom Hps Hn.
  destruct (position_bounds ps Hps) as [Hbx Hby]. rewrite <- Hpos in Hbx, Hby. cbn [fst snd] in Hbx, Hby.
  rewrite packet_end, (end_packet_moves p m _ Hg eq_refl) by (done || lia). cbv zeta.
  assert (Hlast : Z.land (buttons (previous_event m)) 7 = List.last (packet_pressed <$> ps) 0).
  { rewrite Hcur, Hprev. destruct (seen ++ queue) as [|e l _] using rev_ind; [done|].
    by rewrite fmap_snoc, !last_snoc. }
  set (pos := move (mouse_x m, mouse_y m) p).
  assert (Hpos' : pos = position (ps ++ [p])) by (by rewrite position_snoc, <- Hpos).
  fold (packet_pressed p). rewrite Hlast. destruct (Z.eqb_spec (packet_pressed p) (List.last (packet_pressed <$> ps) 0)) as [E|E].
  - exists queue. eexists. split; [done|]. split; [|lia].
    split; cbn [after_packet mouse_cycle mouse_inode mouse_x mouse_y previous_event mouse_u8];
      rewrite ?fmap_snoc, ?changes_snoc, ?last_snoc; try done.
    + by exists rb.
    + by rewrite <- surjective_pairing.
    + rewrite (proj2 (Z.eqb_eq _ _) E), app_nil_r. done.
    + by rewrite E.
  - rewrite Hin. set (e := mkEvent _ _ _). rewrite <- (event_bytes_length pad e Hpad).
    destruct (rb_enqueue rb (event_bytes pad e) Hi) as (rb' & -> & Hi' & Hc' & Hcap').
    { rewrite Hcap, Hq, queue_length, event_bytes_length by done. lia. }
    exists (queue ++ [e]). eexists. split; [done|]. split; [|zlia].
    split; cbn [after_packet set_inode set_previous mouse_cycle mouse_inode mouse_x mouse_y previous_event mouse_u8];
      rewrite ?app_assoc, ?fmap_snoc, ?changes_snoc, ?last_snoc; try done.
    + exists rb'. split_and!; [done|done|congruence|]. rewrite Hc', Hq, concat_app. cbn. by rewrite app_nil_r.
    + by rewrite <- surjective_pairing.
    + rewrite Hch, <- Hcur. done.
Qed.

Lemma read_queued seen e queue ps m :
  tracks pad seen (e :: queue) ps m -> zlen queue <= 341 ->
  exists m', fs_mouse_read pad 12 m = Ok (12, event_bytes pad e, m') /\ tracks pad (seen ++ [e]) queue ps m'.
Proof.
  intros [Hcy (rb & Hin & Hi & Hcap & Hq) Hpos Hprev Hch Hpr Hcur] Hroom.
  destruct (rb_room_contents _ Hi) as (_ & Hused & _). rewrite Hq, queue_length in Hused.
  unfold fs_mouse_read. cbn [read_buttons mouse_inode]. rewrite Hin, u32_small by lia. cbn [deref mbind outcome_bind].
  destruct (rb_read_spec rb true 12 Hi) as (rb' & -> & Hi' & Hc' & Hcap'); [lia|].
  assert (Hm : Z.min 12 (ringbuffer_used rb) = 12) by zlia. rewrite Hm in *.
  rewrite Hq in Hc' |- *. cbn [mbind outcome_bind default fmap list_fmap concat] in *.
  rewrite zdrop_app_exact in Hc' by (by rewrite event_bytes_length).
  rewrite ztake_app_exact by (by rewrite event_bytes_length).
  eexists. split; [done|].
  split; cbn [set_inode read_buttons mouse_cycle mouse_inode mouse_x mouse_y previous_event mouse_u8];
    rewrite <- ?app_assoc; try done.
  exists rb'. split_and!; [done|done|congruence|done].
Qed.

Lemma read_empty seen ps m :
  tracks pad seen [] ps m ->
  exists o m', fs_mouse_read pad 12 m = Ok (result pad o, m') /\ tracks pad (seen ++ option_list o) [] ps m' /\
    (o = None <-> moved m = false) /\ moved m' = false.
Proof.
  intros [Hcy (rb & Hin & Hi & Hcap & Hq) Hpos Hprev Hch Hpr Hcur].
  destruct (rb_room_contents _ Hi) as (_ & Hused & _). rewrite Hq, queue_length in Hused.
  unfold fs_mouse_read. cbn [read_buttons mouse_inode]. rewrite Hin, u32_small by lia. cbn [deref mbind outcome_bind].
  destruct (rb_read_spec rb true 12 Hi) as (rb' & -> & Hi' & Hc' & Hcap'); [lia|].
  rewrite Hused in Hc' |- *. rewrite Hq in Hc' |- *. change (Z.min 12 (12 * zlen [])) with 0 in *.
  cbn [mbind outcome_bind default fmap list_fmap concat Z.eqb Z.ltb Z.compare andb] in *.
  change (ztake 0 _) with (@nil Z). change (zdrop 0 _) with (@nil Z) in Hc'.
  set (m1 := set_inode _ _). change (moved m1) with (moved m).
  assert (Hring : exists r, mouse_inode m1 = Some r /\ rb_inv r /\ ringbuffer_capacity r = 4095 /\
    rb_contents r = concat (event_bytes pad <$> [])).
  { exists rb'. split_and!; [done|done|congruence|done]. }
  destruct (moved m) eqn:Em.
  - rewrite ztake_all by (by rewrite event_bytes_length). set (e := mkEvent _ _ _).
    exists (Some e), (set_previous e m1). split_and!; [done| |done|].
    + assert (He : pressed e = List.last (pressed <$> seen ++ []) 0).
      { rewrite <- Hcur, <- Hpr. apply reported_buttons. }
      change (option_list (Some e)) with [e]. split; rewrite ?app_nil_r in *; rewrite ?fmap_snoc, ?changes_snoc, ?last_snoc; try done.
      * rewrite He, Z.eqb_refl, app_nil_r. done.
      * by rewrite He.
    + unfold moved. cbn. by rewrite !Z.eqb_refl.
  - exists None, m1. split_and!; [done| |done|done]. change (option_list None) with (@nil mouse_event). rewrite app_nil_r. by split.
Qed.

Lemma run_tracks steps pending seen queue ps m :
  tracks pad seen queue ps m -> keeps_up steps pending = true -> zlen queue <= pending <= 341 ->
  Forall (fun p => good_packet p = true) ps -> zlen ps + zlen (packets steps) < 2 ^ 23 ->
  exists os queue' m', run pad steps m = Ok (result pad <$> os, m') /\
    tracks pad (seen ++ omap id os) queue' (ps ++ packets steps) m' /\ zlen queue' <= 341.
Proof.
  revert pending seen queue ps m. induction steps as [|[p|] steps IH]; intros pending seen queue ps m Ht Hup Hq Hps Hn.
  - exists [], queue, m. change (omap id []) with (@nil mouse_event). change (packets []) with (@nil (Z * Z * Z)).
    rewrite !app_nil_r. split_and!; [done|done|lia].
  - cbn [keeps_up run] in *. change (packets (Packet p :: steps)) with (p :: packets steps) in *. breflect.
    destruct (packet_spec seen queue ps p m Ht) as (q1 & m1 & -> & Ht1 & Hq1); [done|lia|done|zlia|].
    rewrite (cons_middle p). rewrite (app_assoc ps). cbn [mbind outcome_bind].
    eapply IH; [done|eassumption|lia| |zlia]. by apply Forall_app, (conj Hps), Forall_singleton.
  - cbn [keeps_up run] in *. change (packets (Read :: steps)) with (packets steps) in *.
    assert (Hread : exists o queue1 m1, fs_mouse_read pad 12 m = Ok (result pad o, m1) /\
      tracks pad (seen ++ option_list o) queue1 ps m1 /\ zlen queue1 <= Z.max 0 (pending - 1)).
    { destruct queue as [|e queue].
      - destruct (read_empty seen ps m Ht) as (o & m1 & Hr & Ht1 & _). exists o, [], m1. split_and!; [done|done|zlia].
      - destruct (read_queued seen e queue ps m Ht) as (m1 & Hr & Ht1); [zlia|]. exists (Some e), queue, m1.
        split_and!; [done|done|zlia]. }
    destruct Hread as (o & q1 & m1 & -> & Ht1 & Hq1).
    destruct (IH _ _ _ _ _ Ht1 Hup) as (os & q2 & m2 & Hrun & Ht2 & Hq2); [lia|done|done|].
    exists (o :: os), q2, m2. destruct (result pad o) as [rc out] eqn:Er. cbn [mbind outcome_bind]. rewrite Hrun.
    split_and!; [by cbn; rewrite Er| |done]. rewrite <- app_assoc in Ht2. by destruct o.
Qed.

(** Reading until nothing is left. *)
Lemma drain seen queue ps m :
  tracks pad seen queue ps m -> zlen queue <= 341 ->
  exists evs m', run pad (replicate (S (length evs)) Read) m = Ok (result pad <$> (Some <$> evs) ++ [None], m') /\
    tracks pad (seen ++ evs) [] ps m' /\ moved m' = false.
Proof.
  revert seen m. induction queue as [|e queue IH]; intros seen m Ht Hq.
  - destruct (read_empty seen ps m Ht) as (o & m1 & Hr & Ht1 & _ & Hm1). destruct o as [e|].
    + destruct (read_empty _ ps m1 Ht1) as (o & m2 & Hr2 & Ht2 & Ho & Hm2).
      destruct o; [discriminate (proj2 Ho Hm1)|]. exists [e], m2.
      cbn [length replicate run]. rewrite Hr. cbn [mbind outcome_bind result]. rewrite Hr2.
      change (option_list None) with (@nil mouse_event) in Ht2. rewrite app_nil_r in Ht2. done.
    + exists [], m1. cbn [length replicate run]. rewrite Hr. done.
  - destruct (read_queued seen e queue ps m Ht) as (m1 & Hr & Ht1); [zlia|].
    destruct (IH _ _ Ht1) as (evs & m2 & Hrun & Ht2 & Hm2); [zlia|].
    exists (e :: evs), m2. cbn [length]. rewrite (replicate_S (S (length evs)) Read). cbn [run]. rewrite Hr.
    cbn [mbind outcome_bind]. rewrite Hrun. rewrite <- app_assoc in Ht2. done.
Qed.
End Tracking.

(** What [add_mouse] leaves when there is memory for the buffer. *)
Lemma add_mouse_tracks {H} `{AllocatorBytes H} pad inode d h d' m' (h' : H) :
  add_mouse inode d (mkMouse 0 (0, 0, 0) 0 0 0 0 0 None origin) h = Ok (d', m', h') ->
  (rb_buffer <$> mouse_inode m') <> Some None -> tracks pad [] [] [] m'.
Proof.
  unfold add_mouse, Devfs.devfs_add_file. destruct (_ <? _); [|done]. cbn [mbind outcome_bind].
  destruct (alloc_bytes 16 h) as [[b|] h1]; [|done]. unfold ringbuffer_init.
  destruct (alloc_bytes 4096 h1) as [[b1|] h2] eqn:E; intros [= <- <- <-] Hb; [|done].
  split; try done. eexists. split_and!; [done| |done|done]. split; cbn; [lia| |lia|lia].
  unfold alloc_bytes in E. destruct (kmalloc 4096 h1) as [[p|] ?]; simplify_eq. cbn [blk_data]. by apply kbytes_len.
Qed.


(** A press, a release on the way to the edge, and a movement. *)
Definition dragging : list step := [Packet (9, 5, 3); Read; Packet (56, 250, 250); Packet (8, 2, 0); Read].

Definition new_mouse : mouse :=
  mkMouse 0 (0, 0, 0) 0 0 0 0 0 (Some (mkRingbuffer (Some (Block 17 (replicate 4096 0))) 4096 0 0)) origin.


(** A queued event carries the whole first byte of the packet, an event made by a read
    only the buttons; both carry three bytes of the stack. *)
Example raw_buttons :
  exists m, run [1; 2; 3] [Packet (9, 5, 0); Read; Packet (9, 1, 0); Read] new_mouse =
    Ok ([(12, [9; 1; 2; 3; 5; 0; 0; 0; 0; 0; 0; 0]); (12, [1; 1; 2; 3; 6; 0; 0; 0; 0; 0; 0; 0])], m).
Proof. eexists. vm_compute. reflexivity. Qed.

(** A controller that is always ready, answers [v] and remembers what is written. *)
#[local] Instance ready_controller (v : Z) : Controller (list (Z * Z)) := {
  inb port w := (if port =? 0x64 then 1 else v, w);
  outb port x w := w ++ [(port, x)];
  disable_interrupts w := w ++ [(0, 0)];
  install_handler n w := w ++ [(0, n)];
  irq_clear_mask n w := w ++ [(0, n)]
}.

(** The second port is enabled, its interrupt bit set in the configuration byte with the
    other bits kept, and the mouse is sent its two commands. *)
Example install_mouse_commands (v : Z) :
  @install_mouse _ (ready_controller v) [] =
    [(0, 0); (0x64, 0xA8); (0x64, 0x20); (0x64, 0x60); (0x60, Z.lor v 2); (0x64, 0xD4); (0x60, 0xF6);
     (0x64, 0xD4); (0x60, 0xF4); (0, 0x2C); (0, 2)].
Proof. reflexivity. Qed.

End Mouse.
